(* ===== verification/_CoqProject ===== *)
-Q . S2P
Prelude.v
Cstring.v
Pmm.v
Kheap.v
Vmm.v
NetBase.v
Route.v
Arp.v
Ipv4.v
Udp.v
Dns.v
Icmp.v
Dhcp.v
Tcp.v
Stack.v
Thread.v
Sched.v
SchedSpec.v
Sync.v
SyncSpec.v
Ext2.v
Ext2Disk.v
Ext2Alloc.v
Ext2Vol.v
Ext2Mount.v
Ext2Inode.v
Ext2File.v
Ext2Data.v
Ext2Dir.v
Ext2Ops.v
Vfs.v
VfsSpec.v
VfsExt2.v
Syscall.v
SyscallSpec.v
SyscallExt2.v
Config.v
ConfigSpec.v
Shell.v
ShellSpec.v
Http.v
HttpSpec.v
Workqueue.v
Elf.v
Process.v
Exec.v
ExecSpec.v
Virtqueue.v
Input.v
Timer.v
Klog.v
Render.v
Compositor.v
Wm.v
Events.v
