(* ===== verification/Prelude.v ===== *)
(** * Verification of the ALOS kernel

    ALOS is a hobby operating system for x86-64 written in C.  This library
    models its memory management, its network stack, its threads,
    synchronisation objects and processes, its file systems, its system calls
    on files and sockets, the loading and starting of programs, the shell and
    its configuration files, HTTP, work queues, the queues of virtio devices,
    the input devices, the timer, the log and the graphical interface as
    executable Rocq functions and proves what makes them correct.  Paths below
    are relative to src/src/ of the repository.

    ** The program and how its parts interact

    - Memory.  The physical memory manager (mm/pmm.c) hands out 4 KiB frames
      from a bitmap; the virtual memory manager (mm/vmm.c) takes frames from it
      for page tables and maps pages through four levels; the kernel heap
      (mm/kheap.c) is a linked list of blocks in one region.
    - Network.  A frame that arrives goes through net/l2/ethernet.c to ARP
      (net/l2/arp.c) or to IPv4 (net/l3/ipv4.c), and from there to ICMP
      (net/l3/icmp.c), UDP (net/l4/udp.c) or TCP (net/l4/tcp.c); UDP dispatches
      to the DNS resolver (net/l4/dns.c) and the DHCP client (net/l4/dhcp.c).
      Sending goes the other way, with a route (net/l3/route.c) and the
      hardware address of the next hop chosen on the way.  Devices and
      addresses live in net/core/.
    - Threads.  kernel/thread.c has the run queues, the sleep queue and the
      wait queues, linked through the thread structures; kernel/sync.c builds
      mutexes, semaphores, condition variables and read-write locks on them.
    - Files.  fs/ext2.c reads and writes an ext2 volume through the ATA driver
      (drivers/ata.c).  fs/vfs.c resolves paths and calls the file systems
      through tables of function pointers.
    - System calls.  kernel/syscall.c has a table of descriptors that stand for
      files of the VFS and sockets of TCP; kernel/linux_compat.c offers the
      calls with the numbers and results of Linux.
    - Programs.  kernel/process.c keeps a ring of processes, picks the next one
      to run, and starts programs: it reads the file with kernel/elf.c into the
      pages of a new address space and builds the first stack.
      kernel/workqueue.c hands work to a pool of threads through a semaphore.
    - Shell.  shell/shell.c reads lines with a history, splits them into words
      with lib/string.c and runs commands (shell/commands.c) or programs;
      config/config.c keeps the addresses of the network, the history and the
      start-up script in files of the VFS.
    - HTTP.  net/l4/http.c fetches documents over a TCP socket and
      net/l4/httpd.c serves files of the VFS.
    - Devices.  drivers/virtio/virtio_transport.c exchanges buffers with a device
      through the rings of a virtqueue, which drivers/net/virtio_net.c fills
      with frames.  kernel/keyboard.c, kernel/keymap.c and kernel/mouse.c turn
      the bytes of the 8042 controller into characters and positions.
      kernel/timer.c counts ticks and computes dates, kernel/klog.c writes the
      log to memory, to a file of the VFS and to the serial port.
    - Graphical interface.  gui/render.c draws into the frame buffer through a
      clip, gui/compositor.c keeps layers and the rectangles to be drawn again,
      gui/wm.c gives each window a layer of its own, and gui/events.c queues
      the events of keyboard and mouse and hands them to the window manager.

    ** The files of the library

    - [Prelude]: machine integers with their wrap-around ([u8] to [u64],
      [s32]), arrays ([rd], [wr]), loops ([for_loop], [find_loop]), fields in
      memory ([le16], [rd32], ...), and the tactics and lemmas all files use.
    - [Pmm], [Kheap], [Vmm]: one file per memory manager.  [Pmm.pmm] is the
      bitmap with its counters; [Kheap.heap] is a finite map of block headers
      and one of data bytes; [Vmm.vmm] is the memory of page tables as 64-bit
      words together with the state of [Pmm], which it allocates from.
    - [NetBase]: packets, checksums, devices, and the record [net] that holds
      all state of the stack.  [Route], [Arp], [Ipv4], [Udp], [Dns], [Icmp],
      [Dhcp], [Tcp]: one file per protocol.  What IPv4 expects of the layers
      above it is the class [Transport], what UDP expects of its applications
      is [UdpApps]; [Stack] gives the instances, closes the loop and has the
      theorems about the whole stack.
    - [Thread]: the functions of kernel/thread.c over the record [sched] of
      thread structures and globals.  [Sched]: the representation of the linked
      queues as lists, the invariant [wf] and its preservation.  [SchedSpec]:
      the abstract scheduler and the theorems.  [Sync], [SyncSpec]: the same
      for kernel/sync.c; a blocking call is split where it gives up the CPU,
      and a transition relation interleaves the halves of all threads.
    - [Ext2]: the functions of fs/ext2.c over the bytes of a disk.  [Ext2Disk]:
      what is read back after writing bytes, fields and blocks.  [Ext2Alloc]:
      bitmaps.  [Ext2Vol]: the invariant [vol] of a volume and allocation.
      [Ext2Mount]: mounting and unmounting.  [Ext2Inode]: the inode table and
      the kinds of blocks.  [Ext2File]: the tree of pointers of a file and
      [ext2_get_block].  [Ext2Data]: reading and writing.  [Ext2Dir]: directory
      entries in the bytes of a directory.  [Ext2Ops]: operations on
      directories of a mounted volume.
    - [Vfs]: the functions of fs/vfs.c over the class [FileSystem] of the
      callbacks; [VfsSpec] has the invariant of mounts and nodes and the
      resolution of paths, for any file system; [VfsExt2] makes the ext2 driver
      an instance and has the theorems about both together.
    - [Syscall]: the system calls over [Vfs] and [Tcp], as functions that may
      fault; [SyscallSpec] has their theorems for any file system and
      [SyscallExt2] those about files of an ext2 volume.
    - [Cstring]: lib/string.c over the bytes of one memory.
    - [Config], [ConfigSpec]: the configuration files, over the class
      [FileSystem].  [Shell], [ShellSpec]: the line editor, the history, paths
      and the commands that change files.  [Http], [HttpSpec]: the HTTP client
      and server over [Tcp], [Dns] and [Vfs].
    - [Workqueue]: the pool of workers as a transition relation over the steps
      between two blocking calls.
    - [Elf]: the checks of a header and the loading of segments into a [Vmm]
      address space.  [Process]: the ring of processes, the scheduler and
      killing.  [Exec], [ExecSpec]: the start of a program over [Elf], [Vmm] and
      [Kheap], with what it allocates and releases.
    - [Virtqueue]: descriptors and rings together with a device that may use the
      available buffers in any order, and the receive queue of virtio-net.
    - [Input]: keyboard, layouts and mouse.
    - [Timer]: ticks, the real-time clock and dates.  [Klog]: the log, over
      [Vfs] and [Timer].
    - [Render]: rectangles, colours, buffers, the stack of clips and the opaque
      primitives; a buffer is a function from places to colours, so that a write
      outside it can be stated.  [Compositor]: layers and dirty rectangles.
      [Wm]: windows, the focus and the mouse, as functions that fail when they
      use a freed window.  [Events]: the ring of events and their dispatch.

    Functions keep their names.  A C function that changes state takes the
    state as its last or first argument and returns the new one; a function
    that may fail returns an option, a boolean or the number the code returns.
    A helper with a name of its own models the part of a function its map entry
    names: a loop body, a branch, one step of a blocking call.

    ** What the theorems show

    - [Pmm]: allocation refines a set of used frames from which the first
      sequence long enough is taken; the counter equals the number of set bits
      in every reachable state; allocation followed by release is the
      identity; after initialisation exactly the whole frames of usable
      regions are free.
    - [Kheap]: blocks returned are aligned, large enough, inside the heap and
      disjoint from all others; releasing merges neighbours and keeps all other
      data; the statistics add up in every reachable state; resizing keeps the
      bytes.
    - [Vmm]: mapping a page changes the translation of that page only, to what
      was asked; unmapping removes exactly it; the four lookup functions agree;
      a new address space shares the kernel half.
    - Network: a datagram sent by one host is delivered to the other unchanged,
      with a checksum that verifies; address resolution, the choice of the
      longest prefix, name resolution and the DHCP exchange do what the
      protocols ask; names survive encoding and decoding; TCP changes state
      only along the edges of its diagram, opens a connection, and delivers
      received data first in, first out; a ping is answered.
    - Threads: the queues stay consistent in every reachable state, the
      scheduler refines a queue per priority, sleepers wake when their time has
      come; semaphores, mutexes and read-write locks exclude each other as they
      should and lose no wake-up in any interleaving; join returns the status
      of the exit.
    - Files: allocation refines a set of free units and keeps bitmaps, counters
      and their copies on the disk consistent; a file reads back what was
      written, through all levels of indirection; a created file is found, a
      removed entry is not, and all other names are untouched; a volume
      survives unmounting and mounting.  In the VFS the root and the contexts
      of mounts never dangle, a path is resolved component by component, and
      what is written to a created file is read back after opening it again by
      its path.
    - System calls: once the table of descriptors exists no call faults and the
      table stays well formed; opening and closing restore it; a file read in
      pieces through its descriptor is the file.
    - Strings and text: [strtok] yields the words of a string; copying touches
      only the bytes it is given; what is saved in a configuration file is
      loaded again; a line typed within its limits is in the buffer; the
      history is the list of the last different lines.
    - HTTP: a request that one side writes is parsed by the other; a file is
      served with its length and type.
    - Programs: loading a file gives an error or an address space that holds
      its segments; starting a program either succeeds or changes neither the
      heap nor the process that runs; the first stack has the layout programs
      expect and stays inside its page.  The list of processes is a ring in every
      reachable state and the scheduler takes the processes that are ready in
      turn.
    - Work queues: every item submitted is run at most once, in the order of
      submission, and none is lost before the shutdown.
    - Devices: every buffer given to a virtqueue comes back exactly once and a
      descriptor in use is never handed out again; the keyboard buffer is a
      bounded queue; letters depend on shift and caps lock as they should; the
      pointer stays on the screen.
    - Time and log: numbers of seconds and dates are converted into each other
      without loss; the buffer of the early log holds the last messages and
      never overflows.
    - Graphical interface: rectangles, lines, discs and round corners change
      exactly the visible pixels of the figure; lines are those of Bresenham;
      popping a clip restores what pushing replaced; the layers stay ordered by
      type; what was invalidated stays dirty until it is drawn; windows, layers
      and the focus stay consistent under every sequence of operations on
      windows that exist; events come out in the order they went in.

    Some theorems state what the code does where it is not what it means to do,
    such as the run queue that killing a blocked thread links to itself, or the
    hole of a file that is read through the boot block; each is explained where
    it stands.

    ** Bounds and fuel

    Loops of the code that are bounded by a count are [for_loop] or [find_loop]
    with that count.  Other loops have fuel.  In [Kheap] the fuel of a walk is
    one more than the number of headers; [kfree] has the bound of 10000 passes
    of the code.  Folding a checksum takes at most 4 rounds, counting the ones
    of a byte at most 9, decoding a name at most 256 (the bound of the code),
    parsing options one round per byte; waiting loops have the number of polls
    of the code (60 for ping, 50 for resolution).  A walk over a queue of
    threads has fuel that the predicate [enough] of [Sched] asks to be at least
    the number of threads linked.  The loops over the data of a file get
    [size / block_size + 2] rounds and a walk over a directory one per byte;
    [read_loop_ok], [write_loop_ok] and [find_ok] prove that this is enough.
    Resolving a path has one round per byte, which is enough by
    [resolve_loop_walk]; a call that waits for data has one round per wake-up
    and is still waiting when these run out.  Functions on strings have one
    round more than the bytes of the string.  Receiving an HTTP answer has the
    rounds of its time-out for each byte of the buffer; a walk over the ring of
    processes has one round per process; taking frames from a virtqueue has one
    round more than the buffers that the device has returned.  The calendar has
    [YEARS] and [MONTHS] rounds, more than the years and months of a 32-bit
    number of seconds; a line from one point to another has one round for each
    step in either direction and one more; dispatching events has one more
    than the places of the ring.

    ** Parameters and observations

    Answers of hardware and of other components are inputs: which requests the
    heap refuses ([kmalloc_ok], [mem_ok]), which sectors fail ([rd_ok],
    [wr_ok]), the clock, the memory for stacks, the replies a waiting loop
    polls for, what happens to the network while a call waits.  A theorem that
    needs one of them to behave says so in a hypothesis and has a witness on a concrete state.  Fields that the code
    does not have record what would otherwise be lost: packets sent ([tx]),
    writes outside a buffer ([overrun]), use of freed memory ([dangling]),
    threads woken.  States named demo are small concrete examples.

    ** What is not modelled

    What drivers and start-up code do to registers has no meaning without a
    model of the hardware: the PCI, ATA, pcnet, e1000e and MMIO drivers, the
    negotiation with virtio devices, the ports of the timer, of the clock and of
    the serial line, descriptor tables, interrupt entry and context switches
    (arch/), and kernel/kernel.c, which calls the initialisations in turn.  The
    console, the menu bar, the dock and the cursor are drawing code, and so are
    the primitives that compute with floating-point numbers (anti-aliasing,
    gradients, shadows) and the blur; gui/ssfn.h and the fonts are foreign or
    generated.  The commands of the shell that only print, and elf_info, are
    output; their results enter the shell as an argument.  lib/libc.h and
    lib/user.h are compiled into user programs and are stubs for system calls.
    Of the system calls the dispatcher, which decodes registers, is left out,
    of processes the contents of saved registers, of the HTTP server the thread
    it runs in.  Interrupts during an operation are not modelled: spinlocks
    make every operation of the scheduler one step. *)

From Stdlib Require Export ZArith Lia.
From stdpp Require Export base list gmap numbers.

#[global] Open Scope Z_scope.
#[export] Set Warnings "-clear-no-such-hyp".

(** ** Machine integers

    A [w]-bit unsigned C integer is a [Z]; every arithmetic result the source
    stores in such a variable goes through the wrap below. *)
Definition u8 (x : Z) : Z := x mod 2 ^ 8.
Definition u16 (x : Z) : Z := x mod 2 ^ 16.
Definition u32 (x : Z) : Z := x mod 2 ^ 32.
Definition u64 (x : Z) : Z := x mod 2 ^ 64.
(** Two's complement reading of a 32-bit value ([int32_t], [int]). *)
Definition s32 (x : Z) : Z := (x + 2 ^ 31) mod 2 ^ 32 - 2 ^ 31.

Definition is_u8 (x : Z) : Prop := 0 <= x < 2 ^ 8.
Definition is_u16 (x : Z) : Prop := 0 <= x < 2 ^ 16.
Definition is_u32 (x : Z) : Prop := 0 <= x < 2 ^ 32.
Definition is_u64 (x : Z) : Prop := 0 <= x < 2 ^ 64.

(** The null pointer, and C truth values. *)
Definition NULL : Z := 0.
Definition b2z (b : bool) : Z := if b then 1 else 0.

(** ** Arrays

    [rd l i] is the value of [l[i]], [None] when [i] is outside the array;
    [rd0] is used where a guard of the source keeps the index inside, and
    [wr] is the in-place update. *)
Definition rd {A} (l : list A) (i : Z) : option A :=
  if 0 <=? i then l !! Z.to_nat i else None.
Definition rd0 (l : list Z) (i : Z) : Z := default 0 (rd l i).
Definition wr {A} (l : list A) (i : Z) (v : A) : list A :=
  if 0 <=? i then <[Z.to_nat i := v]> l else l.
Definition zlen {A} (l : list A) : Z := Z.of_nat (length l).

(** ** Loops

    [for_loop n i body s] runs [body i], [body (i+1)], ... [n] times;
    [find_loop n i f] is a loop whose body may return early. *)
Fixpoint for_loop {S} (n : nat) (i : Z) (body : Z -> S -> S) (s : S) : S :=
  match n with
  | O => s
  | S n' => for_loop n' (i + 1) body (body i s)
  end.

Fixpoint find_loop {A} (n : nat) (i : Z) (f : Z -> option A) : option A :=
  match n with
  | O => None
  | S n' => match f i with
            | Some a => Some a
            | None => find_loop n' (i + 1) f
            end
  end.

(** ** Automation *)
Ltac Zify.zify_convert_to_euclidean_division_equations_flag ::= constr:(true).

Create HintDb alos discriminated.

(** Split boolean tests that occur in the goal or a hypothesis. *)
Ltac bool_hyps :=
  repeat match goal with
  | H : (_ && _)%bool = true |- _ => apply andb_true_iff in H as [? ?]
  | H : (_ || _)%bool = false |- _ => apply orb_false_iff in H as [? ?]
  | H : negb _ = true |- _ => apply negb_true_iff in H
  | H : negb _ = false |- _ => apply negb_false_iff in H
  | H : (_ =? _) = true |- _ => apply Z.eqb_eq in H
  | H : (_ =? _) = false |- _ => apply Z.eqb_neq in H
  | H : (_ <? _) = true |- _ => apply Z.ltb_lt in H
  | H : (_ <? _) = false |- _ => apply Z.ltb_ge in H
  | H : (_ <=? _) = true |- _ => apply Z.leb_le in H
  | H : (_ <=? _) = false |- _ => apply Z.leb_gt in H
  end.

(** Case on the condition of the first [if] of the goal. *)
Ltac case_if :=
  match goal with
  | |- context [if ?b then _ else _] =>
      lazymatch b with
      | context [if _ then _ else _] => fail
      | _ => let E := fresh "Hif" in destruct b eqn:E; bool_hyps
      end
  end.

Ltac case_if_in H :=
  match type of H with
  | context [if ?b then _ else _] =>
      lazymatch b with
      | context [if _ then _ else _] => fail
      | _ => let E := fresh "Hif" in destruct b eqn:E; bool_hyps
      end
  end.

(** Evaluate closed powers of two so that [lia] sees numerals. *)
Ltac pow2 :=
  change (2 ^ 8) with 256 in *; change (2 ^ 16) with 65536 in *;
  change (2 ^ 31) with 2147483648 in *;
  change (2 ^ 32) with 4294967296 in *;
  change (2 ^ 64) with 18446744073709551616 in *.

Ltac widths := unfold is_u8, is_u16, is_u32, is_u64, u8, u16, u32, u64 in *; pow2.

(** ** Wrap-around lemmas *)
Lemma u8_range x : is_u8 (u8 x).
Proof. widths. lia. Qed.
Lemma u16_range x : is_u16 (u16 x).
Proof. widths. lia. Qed.
Lemma u32_range x : is_u32 (u32 x).
Proof. widths. lia. Qed.
Lemma u64_range x : is_u64 (u64 x).
Proof. widths. lia. Qed.
Lemma u8_small x : is_u8 x -> u8 x = x.
Proof. intros. by apply Z.mod_small. Qed.
Lemma u16_small x : is_u16 x -> u16 x = x.
Proof. intros. by apply Z.mod_small. Qed.
Lemma u32_small x : is_u32 x -> u32 x = x.
Proof. intros. by apply Z.mod_small. Qed.
Lemma u64_small x : is_u64 x -> u64 x = x.
Proof. intros. by apply Z.mod_small. Qed.
Lemma s32_small x : - 2 ^ 31 <= x < 2 ^ 31 -> s32 x = x.
Proof. intros H. unfold s32. rewrite Z.mod_small by lia. lia. Qed.
Lemma s32_id x : 0 <= x < 2 ^ 31 -> s32 x = x.
Proof. intros H. unfold s32. pow2. lia. Qed.

#[export] Hint Resolve u8_range u16_range u32_range u64_range : alos.

(** ** Array lemmas *)
Section arrays.
Context {A : Type}.
Implicit Types (l : list A) (i j : Z).

Lemma rd_Some_range l i a : rd l i = Some a -> 0 <= i < zlen l.
Proof.
  unfold rd, zlen. case_if; [|done]. intros ?%lookup_lt_Some. lia.
Qed.

Lemma rd_is_Some l i : 0 <= i < zlen l -> is_Some (rd l i).
Proof.
  unfold rd, zlen. intros. destruct (0 <=? i) eqn:E; bool_hyps; [|lia].
  apply lookup_lt_is_Some. lia.
Qed.

Lemma rd_None l i : rd l i = None <-> ~ (0 <= i < zlen l).
Proof.
  split.
  - intros Hn Hr. destruct (rd_is_Some l i Hr). congruence.
  - intros Hr. destruct (rd l i) eqn:E; [|done]. by apply rd_Some_range in E.
Qed.

Lemma zlen_nonneg l : 0 <= zlen l.
Proof. unfold zlen. lia. Qed.

Lemma zlen_wr l i v : zlen (wr l i v) = zlen l.
Proof. unfold zlen, wr. case_if; [|done]. by rewrite length_insert. Qed.

Lemma rd_wr_eq l i v : 0 <= i < zlen l -> rd (wr l i v) i = Some v.
Proof.
  unfold rd, wr, zlen. intros. case_if; [|lia].
  apply list_lookup_insert_eq. lia.
Qed.

Lemma rd_wr_ne l i j v : i <> j -> rd (wr l i v) j = rd l j.
Proof.
  unfold rd, wr. intros. destruct (0 <=? i) eqn:?; [|done].
  destruct (0 <=? j) eqn:?; [|done]. bool_hyps.
  apply list_lookup_insert_ne. lia.
Qed.

Lemma wr_wr_eq l i v w : wr (wr l i v) i w = wr l i w.
Proof. unfold wr. case_if; [|done]. apply list_insert_insert_eq. Qed.

Lemma wr_id l i v : rd l i = Some v -> wr l i v = l.
Proof. unfold rd, wr. case_if; [|done]. apply list_insert_id. Qed.

Lemma rd_ext l1 l2 :
  zlen l1 = zlen l2 -> (forall i, 0 <= i < zlen l1 -> rd l1 i = rd l2 i) -> l1 = l2.
Proof.
  unfold zlen. intros Hlen Hrd. apply list_eq. intros k.
  destruct (decide (k < length l1)%nat) as [Hk|Hk].
  - specialize (Hrd (Z.of_nat k)). unfold rd in Hrd.
    destruct (0 <=? Z.of_nat k) eqn:?; bool_hyps; [|lia].
    rewrite Nat2Z.id in Hrd. apply Hrd. lia.
  - rewrite !(proj2 (lookup_ge_None _ _)); [done|lia|lia].
Qed.

Lemma rd_app_l l1 l2 i : i < zlen l1 -> rd (l1 ++ l2) i = rd l1 i.
Proof.
  unfold rd, zlen. intros. case_if; [|done]. apply lookup_app_l. lia.
Qed.

Lemma rd_app_r l1 l2 i : zlen l1 <= i -> rd (l1 ++ l2) i = rd l2 (i - zlen l1).
Proof.
  unfold rd, zlen. intros. destruct (0 <=? i) eqn:?, (0 <=? _ - _) eqn:?; bool_hyps; try lia.
  rewrite lookup_app_r by lia. f_equal. lia.
Qed.

Lemma zlen_cons (a : A) l : zlen (a :: l) = 1 + zlen l.
Proof. unfold zlen. cbn [length]. lia. Qed.
Lemma zlen_app l1 l2 : zlen (l1 ++ l2) = zlen l1 + zlen l2.
Proof. unfold zlen. rewrite length_app. lia. Qed.

Lemma Forall_wr (P : A -> Prop) l i v : Forall P l -> P v -> Forall P (wr l i v).
Proof. unfold wr. intros. case_if; [|done]. by apply Forall_insert. Qed.

Lemma Forall_rd (P : A -> Prop) l i v : Forall P l -> rd l i = Some v -> P v.
Proof. unfold rd. case_if; [|done]. intros. by eapply Forall_lookup_1. Qed.
End arrays.

Lemma rd0_wr_eq l i v : 0 <= i < zlen l -> rd0 (wr l i v) i = v.
Proof. intros. unfold rd0. by rewrite rd_wr_eq. Qed.
Lemma rd0_wr_ne l i j v : i <> j -> rd0 (wr l i v) j = rd0 l j.
Proof. intros. unfold rd0. by rewrite rd_wr_ne. Qed.
(** Two counters that differ by less than the size of a ring are at different
    places. *)
Lemma mod_near i j s : 0 < s -> 0 < j - i < s -> i mod s <> j mod s.
Proof.
  intros Hs Hd E. pose proof (Z.div_mod i s ltac:(lia)). pose proof (Z.div_mod j s ltac:(lia)).
  assert (Hq : s * (j / s - i / s) = j - i) by lia. generalize dependent (j / s - i / s). intros q Hq. assert (q <= 0 \/ 1 <= q) as [?|?] by lia; nia.
Qed.
Lemma rd0_Some l i v : rd l i = Some v -> rd0 l i = v.
Proof. unfold rd0. by intros ->. Qed.
Lemma rd_rd0 l i : 0 <= i < zlen l -> rd l i = Some (rd0 l i).
Proof. intros [v Hv]%rd_is_Some. by rewrite (rd0_Some _ _ _ Hv). Qed.
Lemma rd0_u8 l i : Forall is_u8 l -> is_u8 (rd0 l i).
Proof.
  intros Hl. unfold rd0. destruct (rd l i) eqn:E; [|by vm_compute].
  by eapply Forall_rd.
Qed.

#[export] Hint Resolve Forall_wr rd0_u8 zlen_nonneg : alos.

(** ** Loop lemmas *)
Lemma for_loop_ind {S} (P : Z -> S -> Prop) n i (body : Z -> S -> S) s :
  P i s ->
  (forall k t, i <= k < i + Z.of_nat n -> P k t -> P (k + 1) (body k t)) ->
  P (i + Z.of_nat n) (for_loop n i body s).
Proof.
  revert i s. induction n as [|n IH]; intros i s H0 Hstep; cbn [for_loop].
  - by replace (i + Z.of_nat 0) with i by lia.
  - replace (i + Z.of_nat (Datatypes.S n)) with ((i + 1) + Z.of_nat n) by lia.
    apply IH; [apply Hstep; [lia|done]|].
    intros k t Hk. apply Hstep. lia.
Qed.

Lemma for_loop_ind_const {S} (P : S -> Prop) n i (body : Z -> S -> S) s :
  P s ->
  (forall k t, i <= k < i + Z.of_nat n -> P t -> P (body k t)) ->
  P (for_loop n i body s).
Proof. intros. by apply (for_loop_ind (fun _ => P)). Qed.

Lemma find_loop_Some {A} n i (f : Z -> option A) a :
  find_loop n i f = Some a ->
  exists k, i <= k < i + Z.of_nat n /\ f k = Some a /\
            forall k', i <= k' < k -> f k' = None.
Proof.
  revert i. induction n as [|n IH]; intros i; cbn [find_loop]; [done|].
  destruct (f i) eqn:E.
  - intros [= ->]. exists i. split; [lia|]. split; [done|]. intros; lia.
  - intros (k & Hk & Hf & Hm)%IH. exists k. split; [lia|]. split; [done|].
    intros k' Hk'. destruct (decide (k' = i)) as [->|]; [done|]. apply Hm. lia.
Qed.

Lemma find_loop_None {A} n i (f : Z -> option A) :
  find_loop n i f = None <-> forall k, i <= k < i + Z.of_nat n -> f k = None.
Proof.
  revert i. induction n as [|n IH]; intros i; cbn [find_loop].
  - split; [intros _ k Hk; lia|done].
  - destruct (f i) eqn:E; [split; [done|]|rewrite IH; split].
    + intros H. rewrite H in E; [done|lia].
    + intros H k Hk. destruct (decide (k = i)) as [->|]; [done|]. apply H. lia.
    + intros H k Hk. apply H. lia.
Qed.

Lemma find_loop_first {A} n i (f : Z -> option A) a k :
  i <= k < i + Z.of_nat n -> f k = Some a ->
  (forall k', i <= k' < k -> f k' = None) ->
  find_loop n i f = Some a.
Proof.
  intros Hk Hf Hm. destruct (find_loop n i f) as [b|] eqn:E.
  - apply find_loop_Some in E as (k0 & ? & Hf0 & Hm0).
    destruct (Z.lt_trichotomy k k0) as [?|[->|?]].
    + rewrite Hm0 in Hf; [done|lia].
    + congruence.
    + rewrite Hm in Hf0; [done|lia].
  - rewrite find_loop_None in E. rewrite E in Hf; [done|lia].
Qed.

Lemma find_loop_ext {A} n i (f g : Z -> option A) :
  (forall k, i <= k < i + Z.of_nat n -> f k = g k) -> find_loop n i f = find_loop n i g.
Proof.
  revert i. induction n as [|n IH]; intros i H; cbn [find_loop]; [done|].
  rewrite H by lia. destruct (g i); [done|]. apply IH. intros. apply H. lia.
Qed.

(** ** Bit lemmas *)
Lemma testbit_pow2 i j : 0 <= i -> Z.testbit (Z.shiftl 1 i) j = (i =? j).
Proof.
  intros. rewrite Z.shiftl_1_l. by rewrite Z.pow2_bits_eqb.
Qed.

Lemma testbit_u8 x i : 0 <= i < 8 -> Z.testbit (u8 x) i = Z.testbit x i.
Proof. intros. unfold u8. apply Z.mod_pow2_bits_low. lia. Qed.

(** A single bit read the way C does: [(x >> i) & 1]. *)
Lemma land_1_testbit x i : 0 <= i -> Z.land (Z.shiftr x i) 1 = b2z (Z.testbit x i).
Proof.
  intros. change 1 with (Z.ones 1). rewrite Z.land_ones by lia. unfold b2z.
  change (2 ^ 1) with 2. rewrite <- Z.bit0_mod, Z.shiftr_spec by lia.
  by rewrite Z.add_0_l; destruct (Z.testbit x i).
Qed.

(** [x & (1 << i)] is zero exactly when bit [i] is clear. *)
Lemma land_bit_eqb x i :
  0 <= i -> (Z.land x (Z.shiftl 1 i) =? 0) = negb (Z.testbit x i).
Proof.
  intros Hi. destruct (Z.testbit x i) eqn:E; simpl.
  - apply Z.eqb_neq. intros H0.
    assert (Z.testbit (Z.land x (Z.shiftl 1 i)) i = false) by (rewrite H0; apply Z.bits_0).
    rewrite Z.land_spec, testbit_pow2, E, Z.eqb_refl in *; done.
  - apply Z.eqb_eq. apply Z.bits_inj'. intros k Hk.
    rewrite Z.land_spec, testbit_pow2, Z.bits_0 by done.
    destruct (i =? k) eqn:Ek; bool_hyps; [subst; by rewrite E|apply andb_false_r].
Qed.

(** Low bits cleared by a mask [~(2^n - 1)] on a 64-bit value. *)
Lemma land_align_down x n :
  0 <= n <= 64 -> is_u64 x ->
  Z.land x (2 ^ 64 - 2 ^ n) = x - x mod 2 ^ n.
Proof.
  intros Hn Hx.
  assert (Hm : 2 ^ 64 - 2 ^ n = Z.shiftl (Z.ones (64 - n)) n).
  { rewrite Z.shiftl_mul_pow2, Z.ones_equiv by lia.
    replace (2 ^ 64) with (2 ^ (64 - n) * 2 ^ n) by (rewrite <- Z.pow_add_r by lia; f_equal; lia).
    lia. }
  rewrite Hm. apply Z.bits_inj'. intros k Hk.
  rewrite Z.land_spec, Z.shiftl_spec by lia.
  assert (Hsub : x - x mod 2 ^ n = Z.shiftl (Z.shiftr x n) n).
  { rewrite Z.shiftl_mul_pow2, Z.shiftr_div_pow2 by lia.
    pose proof (Z.div_mod x (2 ^ n)). lia. }
  rewrite Hsub, Z.shiftl_spec by lia.
  destruct (decide (k < n)).
  - rewrite !(Z.testbit_neg_r _ (k - n)) by lia. apply andb_false_r.
  - rewrite Z.shiftr_spec by lia. replace (k - n + n) with k by lia.
    destruct (decide (k < 64)).
    + rewrite Z.ones_spec_low by lia. apply andb_true_r.
    + destruct Hx as [? Hx]. rewrite <- (Z.mod_small x (2 ^ 64)) by (widths; lia).
      rewrite Z.mod_pow2_bits_high by lia. done.
Qed.

(** ** Fields in memory *)
(** A 16- or 32-bit field as it lies in memory on a little-endian machine. *)
Definition le16 (v : Z) : list Z := [v mod 256; v / 256 mod 256].
Definition le32 (v : Z) : list Z :=
  [v mod 256; v / 2 ^ 8 mod 256; v / 2 ^ 16 mod 256; v / 2 ^ 24 mod 256].
Definition rd16 (b : list Z) (i : Z) : Z := rd0 b i + 256 * rd0 b (i + 1).
Definition rd32 (b : list Z) (i : Z) : Z :=
  rd0 b i + 2 ^ 8 * rd0 b (i + 1) + 2 ^ 16 * rd0 b (i + 2) + 2 ^ 24 * rd0 b (i + 3).
(** [n] bytes of [b] from [i]; bytes outside are read as 0. *)
Definition bytes_at (b : list Z) (i : Z) (n : nat) : list Z :=
  (fun k => rd0 b (i + Z.of_nat k)) <$> seq 0 n.
Lemma rd16_le16 v : is_u16 v -> v mod 256 + 256 * (v / 256 mod 256) = v.
Proof. widths. lia. Qed.
Lemma rd32_le32 v : is_u32 v ->
  v mod 256 + 2 ^ 8 * (v / 2 ^ 8 mod 256) + 2 ^ 16 * (v / 2 ^ 16 mod 256) + 2 ^ 24 * (v / 2 ^ 24 mod 256) = v.
Proof. change (2 ^ 24) with 16777216. widths. lia. Qed.
