(* ===== verification/Cstring.v ===== *)
(** The string library of the kernel (src/lib/string.c): strings are bytes in
    memory up to a NUL, and a pointer is an address.

    A loop that runs until it meets a NUL has fuel; [None] means that the fuel
    was too little, and the lemmas below show that the length of the string is
    enough.  [strtok] keeps its place in a static variable, which is part of
    the state here. *)
From S2P Require Import Prelude.

Create HintDb cstring.

(** ** Memory *)
Definition bytes_mem : Type := Z -> Z.
Definition put (a v : Z) (m : bytes_mem) : bytes_mem := fun b => if b =? a then v else m b.
Lemma put_eq a v m : put a v m a = v.
Proof. unfold put. by rewrite Z.eqb_refl. Qed.
Lemma put_ne a b v m : b <> a -> put a v m b = m b.
Proof. intros H. unfold put. by rewrite (proj2 (Z.eqb_neq _ _) H). Qed.

(** ** The functions *)
Fixpoint strlen_loop (fuel : nat) (m : bytes_mem) (str len : Z) : option Z :=
  match fuel with
  | O => None
  | S fuel' => if m (str + len) =? 0 then Some len else strlen_loop fuel' m str (len + 1)
  end.
Definition strlen (fuel : nat) (m : bytes_mem) (str : Z) : option Z := strlen_loop fuel m str 0.
Fixpoint strcmp (fuel : nat) (m : bytes_mem) (s1 s2 : Z) : option Z :=
  match fuel with
  | O => None
  | S fuel' =>
      if negb (m s1 =? 0) && (m s1 =? m s2) then strcmp fuel' m (s1 + 1) (s2 + 1) else Some (m s1 - m s2)
  end.
Fixpoint strncmp (m : bytes_mem) (s1 s2 : Z) (n : nat) : Z :=
  match n with
  | O => 0
  | S n' => if negb (m s1 =? 0) && (m s1 =? m s2) then strncmp m (s1 + 1) (s2 + 1) n' else m s1 - m s2
  end.
Fixpoint strcpy (fuel : nat) (dest src : Z) (m : bytes_mem) : option bytes_mem :=
  match fuel with
  | O => None
  | S fuel' =>
      let c := m src in
      let m := put dest c m in
      if c =? 0 then Some m else strcpy fuel' (dest + 1) (src + 1) m
  end.
Fixpoint memset (ptr value : Z) (n : nat) (m : bytes_mem) : bytes_mem :=
  match n with O => m | S n' => memset (ptr + 1) value n' (put ptr (u8 value) m) end.
(** The first loop of [strncpy]: what is left of [n] and [dest]. *)
Fixpoint strncpy_loop (dest src : Z) (n : nat) (m : bytes_mem) : Z * nat * bytes_mem :=
  match n with
  | O => (dest, O, m)
  | S n' =>
      let c := m src in
      let m := put dest c m in
      if c =? 0 then (dest + 1, n, m) else strncpy_loop (dest + 1) (src + 1) n' m
  end.
Definition strncpy (dest src : Z) (n : nat) (m : bytes_mem) : bytes_mem :=
  let '(dest, n, m) := strncpy_loop dest src n m in memset dest 0 n m.
Fixpoint strcat (fuel : nat) (dest src : Z) (m : bytes_mem) : option bytes_mem :=
  match fuel with
  | O => None
  | S fuel' => if m dest =? 0 then strcpy fuel dest src m else strcat fuel' (dest + 1) src m
  end.
Definition is_delim (delim : list Z) (c : Z) : bool := bool_decide (c ∈ delim).
(** The two loops of [strtok]: skip delimiters, then find the end. *)
Fixpoint tok_skip (fuel : nat) (delim : list Z) (m : bytes_mem) (str : Z) : option Z :=
  match fuel with
  | O => None
  | S fuel' => if m str =? 0 then Some str else if is_delim delim (m str) then tok_skip fuel' delim m (str + 1) else Some str
  end.
Fixpoint tok_end (fuel : nat) (delim : list Z) (m : bytes_mem) (str : Z) : option (option Z * bytes_mem) :=
  match fuel with
  | O => None
  | S fuel' =>
      if m str =? 0 then Some (None, m)
      else if is_delim delim (m str) then Some (Some (str + 1), put str 0 m)
      else tok_end fuel' delim m (str + 1)
  end.
(** The token, the saved pointer and the memory. *)
Definition strtok (fuel : nat) (str : option Z) (delim : list Z) (saveptr : option Z) (m : bytes_mem) :
    option (option Z * option Z * bytes_mem) :=
  match (match str with Some p => Some p | None => saveptr end) with
  | None => Some (None, saveptr, m)
  | Some p =>
      match tok_skip fuel delim m p with
      | None => None
      | Some p =>
          if m p =? 0 then Some (None, None, m)
          else match tok_end fuel delim m p with Some (save, m) => Some (Some p, save, m) | None => None end
      end
  end.
Definition isspace (c : Z) : bool := (c =? 32) || (c =? 9) || (c =? 10) || (c =? 13) || (c =? 12) || (c =? 11).
Definition isdigit (c : Z) : bool := (48 <=? c) && (c <=? 57).
Definition isalpha (c : Z) : bool := ((97 <=? c) && (c <=? 122)) || ((65 <=? c) && (c <=? 90)).
Fixpoint skip_space (fuel : nat) (m : bytes_mem) (str : Z) : option Z :=
  match fuel with O => None | S fuel' => if isspace (m str) then skip_space fuel' m (str + 1) else Some str end.
Fixpoint atoi_digits (fuel : nat) (m : bytes_mem) (str result : Z) : option Z :=
  match fuel with
  | O => None
  | S fuel' => if isdigit (m str) then atoi_digits fuel' m (str + 1) (s32 (result * 10 + (m str - 48))) else Some result
  end.
Definition atoi (fuel : nat) (m : bytes_mem) (str : Z) : option Z :=
  match skip_space fuel m str with
  | None => None
  | Some str =>
      let '(sign, str) := if m str =? 45 then (-1, str + 1) else if m str =? 43 then (1, str + 1) else (1, str) in
      match atoi_digits fuel m str 0 with Some result => Some (s32 (sign * result)) | None => None end
  end.
Fixpoint memcpy (dest src : Z) (n : nat) (m : bytes_mem) : bytes_mem :=
  match n with O => m | S n' => memcpy (dest + 1) (src + 1) n' (put dest (m src) m) end.
Fixpoint memcmp (m : bytes_mem) (s1 s2 : Z) (n : nat) : Z :=
  match n with
  | O => 0
  | S n' => if negb (m s1 =? m s2) then m s1 - m s2 else memcmp m (s1 + 1) (s2 + 1) n'
  end.

(** ** Strings in memory *)
(** The bytes [l] are at [p]. *)
Fixpoint bytes_in (m : bytes_mem) (p : Z) (l : list Z) : Prop :=
  match l with [] => True | c :: l' => m p = c /\ bytes_in m (p + 1) l' end.
Definition nul_free (l : list Z) : Prop := Forall (fun c => c <> 0) l.
Definition str_in (m : bytes_mem) (p : Z) (s : list Z) : Prop := nul_free s /\ bytes_in m p (s ++ [0]).
Lemma bytes_in_app m p l1 l2 : bytes_in m p (l1 ++ l2) <-> bytes_in m p l1 /\ bytes_in m (p + zlen l1) l2.
Proof.
  revert p. induction l1 as [|c l1 IH]; intros p; cbn [app bytes_in]; [change (zlen (@nil Z)) with 0; rewrite Z.add_0_r; tauto|].
  rewrite IH, zlen_cons. replace (p + 1 + zlen l1) with (p + (1 + zlen l1)) by lia. tauto.
Qed.
Lemma bytes_in_ext m m' p l : (forall a, p <= a < p + zlen l -> m' a = m a) -> bytes_in m p l -> bytes_in m' p l.
Proof.
  revert p. induction l as [|c l IH]; intros p He; [done|]. rewrite zlen_cons in He. pose proof (zlen_nonneg l). intros [E B].
  split; [rewrite He by lia; done|]. apply IH; [|done]. intros a Ha. apply He. lia.
Qed.
Lemma str_in_cons m p c s : str_in m p (c :: s) <-> m p = c /\ c <> 0 /\ str_in m (p + 1) s.
Proof. unfold str_in, nul_free. cbn [app bytes_in]. rewrite list.Forall_cons. tauto. Qed.
Lemma str_in_nil m p : str_in m p [] <-> m p = 0.
Proof. unfold str_in, nul_free. cbn. split; [tauto|]. intros E. auto. Qed.
Lemma str_in_ext m m' p s : (forall a, p <= a <= p + zlen s -> m' a = m a) -> str_in m p s -> str_in m' p s.
Proof. intros He [Hn Hb]. split; [done|]. eapply bytes_in_ext; [|exact Hb]. rewrite zlen_app. change (zlen [0]) with 1. intros a Ha. apply He. lia. Qed.
Lemma bytes_in_rd m p l i c : bytes_in m p l -> rd l i = Some c -> m (p + i) = c.
Proof.
  intros B R. pose proof (rd_Some_range _ _ _ R) as Hr. unfold rd in R. rewrite (proj2 (Z.leb_le _ _)) in R by lia.
  apply list.list_elem_of_split_length in R as (l1 & l2 & -> & L). apply bytes_in_app in B as [_ [<- _]].
  f_equal. unfold zlen. lia.
Qed.
Lemma str_in_nul_free m p s : str_in m p s -> nul_free s.
Proof. by intros [H _]. Qed.
Lemma str_in_put m p s a v : ~ (p <= a <= p + zlen s) -> str_in m p s -> str_in (put a v m) p s.
Proof. intros Ha. apply str_in_ext. intros b Hb. apply put_ne. intros ->. lia. Qed.
Lemma bytes_in_put m p l a v : ~ (p <= a < p + zlen l) -> bytes_in m p l -> bytes_in (put a v m) p l.
Proof. intros Ha. apply bytes_in_ext. intros b Hb. apply put_ne. intros ->. lia. Qed.
Ltac zl := repeat match goal with |- context [zlen ?l] => lazymatch goal with _ : 0 <= zlen l |- _ => fail | _ => pose proof (zlen_nonneg l) end end.

(** ** Length and comparison *)
Lemma strlen_loop_spec fuel m p k s : str_in m (p + k) s -> (length s < fuel)%nat -> strlen_loop fuel m p k = Some (k + zlen s).
Proof.
  revert fuel k. induction s as [|c s IH]; intros [|fuel] k H L; cbn [length] in L; try lia; cbn [strlen_loop].
  - apply str_in_nil in H. rewrite H. cbn. f_equal. change (zlen (@nil Z)) with 0. lia.
  - apply str_in_cons in H as (-> & N & H). rewrite (proj2 (Z.eqb_neq _ _) N), zlen_cons.
    rewrite IH; [f_equal; lia| |lia]. by rewrite Z.add_assoc.
Qed.
Lemma strlen_spec fuel m p s : str_in m p s -> (length s < fuel)%nat -> strlen fuel m p = Some (zlen s).
Proof. intros H L. unfold strlen. rewrite (strlen_loop_spec fuel m p 0 s); [done| |done]. by rewrite Z.add_0_r. Qed.
(** [strcmp] orders two strings by the first byte in which they differ. *)
Lemma strcmp_spec fuel m p q s t :
  str_in m p s -> str_in m q t -> (length s < fuel)%nat -> exists d, strcmp fuel m p q = Some d /\ (d = 0 <-> s = t).
Proof.
  revert fuel p q t. induction s as [|c s IH]; intros [|fuel] p q t Hs Ht L; cbn [length] in L; try lia; cbn [strcmp].
  - apply str_in_nil in Hs. rewrite Hs. cbn. eexists. split; [done|]. destruct t as [|c' t].
    + apply str_in_nil in Ht. rewrite Ht. done.
    + apply str_in_cons in Ht as (-> & N & _). split; [lia|done].
  - apply str_in_cons in Hs as (-> & N & Hs). rewrite (proj2 (Z.eqb_neq _ _) N). cbn [negb andb]. destruct t as [|c' t].
    + apply str_in_nil in Ht. rewrite Ht, (proj2 (Z.eqb_neq _ _) N). eexists. split; [done|]. split; [lia|done].
    + apply str_in_cons in Ht as (-> & N' & Ht). destruct (c =? c') eqn:E; bool_hyps.
      * subst c'. destruct (IH fuel (p + 1) (q + 1) t Hs Ht) as (d & -> & Hd); [lia|]. exists d. split; [done|]. rewrite Hd. split; congruence.
      * eexists. split; [done|]. split; [lia|congruence].
Qed.

(** ** Copies *)
(** [m'] is [m] but for the addresses from [lo] up to [hi]. *)
Definition only_in (lo hi : Z) (m m' : bytes_mem) : Prop := forall a, ~ (lo <= a < hi) -> m' a = m a.
Definition disjoint_range (lo1 hi1 lo2 hi2 : Z) : Prop := hi1 <= lo2 \/ hi2 <= lo1.
Lemma only_in_put a v lo hi m m' : lo <= a < hi -> only_in (a + 1) hi (put a v m) m' -> only_in lo hi m m'.
Proof. intros Ha H b Hb. rewrite H by lia. apply put_ne. lia. Qed.
Lemma bytes_in_only m m' lo hi p l : only_in lo hi m m' -> disjoint_range p (p + zlen l) lo hi -> bytes_in m p l -> bytes_in m' p l.
Proof. intros H D. apply bytes_in_ext. intros a Ha. apply H. destruct D; lia. Qed.
Lemma str_in_only m m' lo hi p s : only_in lo hi m m' -> disjoint_range p (p + zlen s + 1) lo hi -> str_in m p s -> str_in m' p s.
Proof. intros H D. apply str_in_ext. intros a Ha. apply H. destruct D; lia. Qed.
(** A byte written just before the rest is still there after the rest. *)
Lemma bytes_in_head c l p hi m m' : only_in (p + 1) hi (put p c m) m' -> bytes_in m' (p + 1) l -> bytes_in m' p (c :: l).
Proof. intros H B. split; [|done]. rewrite H by lia. apply put_eq. Qed.

Lemma memset_only p v n m : only_in p (p + Z.of_nat n) m (memset p v n m).
Proof.
  revert p m. induction n as [|n IH]; intros p m; [done|]. cbn [memset].
  apply (only_in_put p (u8 v)); [lia|]. replace (p + Z.of_nat (S n)) with (p + 1 + Z.of_nat n) by lia. apply IH.
Qed.
Lemma memset_bytes p v n m : bytes_in (memset p v n m) p (repeat (u8 v) n).
Proof. revert p m. induction n as [|n IH]; intros p m; [done|]. cbn [memset repeat]; apply (bytes_in_head _ _ _ (p + 1 + Z.of_nat n) m); [apply memset_only|apply IH]. Qed.

Lemma memcpy_spec d p l m :
  bytes_in m p l -> disjoint_range p (p + zlen l) d (d + zlen l) ->
  only_in d (d + zlen l) m (memcpy d p (length l) m) /\ bytes_in (memcpy d p (length l) m) d l.
Proof.
  revert d p m. induction l as [|c l IH]; intros d p m B D; [by split|]. destruct B as [E B]. rewrite zlen_cons in *. pose proof (zlen_nonneg l).
  cbn [memcpy length]. rewrite E. destruct (IH (d + 1) (p + 1) (put d c m)) as [O I].
  - apply bytes_in_put; [destruct D; lia|done].
  - destruct D; [left|right]; lia.
  - split; [|by eapply bytes_in_head]. apply (only_in_put d c); [lia|]. by rewrite Z.add_assoc.
Qed.
Lemma strcpy_spec fuel d p s m :
  str_in m p s -> disjoint_range p (p + zlen s + 1) d (d + zlen s + 1) -> (length s < fuel)%nat ->
  exists m', strcpy fuel d p m = Some m' /\ only_in d (d + zlen s + 1) m m' /\ str_in m' d s.
Proof.
  revert fuel d p m. induction s as [|c s IH]; intros [|fuel] d p m H D L; cbn [length] in L; try lia; cbn [strcpy].
  - apply str_in_nil in H. rewrite H. cbn. eexists. split; [done|]. split; [|apply str_in_nil, put_eq].
    intros a Ha. apply put_ne. change (zlen (@nil Z)) with 0 in Ha. lia.
  - apply str_in_cons in H as (-> & N & H). rewrite (proj2 (Z.eqb_neq _ _) N). rewrite zlen_cons in *. pose proof (zlen_nonneg s).
    destruct (IH fuel (d + 1) (p + 1) (put d c m)) as (m' & -> & O & I).
    + apply str_in_put; [destruct D; lia|done].
    + destruct D; [left|right]; lia.
    + lia.
    + exists m'. split; [done|]. split.
      * apply (only_in_put d c); [lia|]. by replace (d + (1 + zlen s) + 1) with (d + 1 + zlen s + 1) by lia.
      * apply str_in_cons. split; [rewrite O by lia; apply put_eq|done].
Qed.
Lemma strcat_spec fuel d p t s m :
  str_in m d t -> str_in m p s -> disjoint_range p (p + zlen s + 1) d (d + zlen t + zlen s + 1) -> (length t + length s < fuel)%nat ->
  exists m', strcat fuel d p m = Some m' /\ only_in (d + zlen t) (d + zlen t + zlen s + 1) m m' /\ str_in m' d (t ++ s).
Proof.
  revert fuel d. induction t as [|c t IH]; intros [|fuel] d Ht Hs D L; cbn [length] in L; try lia; cbn [strcat].
  - apply str_in_nil in Ht. rewrite Ht. cbn [Z.eqb app]. change (zlen (@nil Z)) with 0 in *. rewrite !Z.add_0_r in *. apply strcpy_spec; [done|done|lia].
  - apply str_in_cons in Ht as (E & N & Ht). rewrite E, (proj2 (Z.eqb_neq _ _) N). rewrite zlen_cons in *. pose proof (zlen_nonneg t).
    pose proof (zlen_nonneg s). destruct (IH fuel (d + 1)) as (m' & -> & O & I); [done|done|destruct D; [left|right]; lia|lia|].
    rewrite !Z.add_assoc. exists m'. split; [done|]. split; [done|]. cbn [app]. apply str_in_cons. split; [rewrite O by lia; done|done].
Qed.
(** What the first loop of [strncpy] leaves: all of [n] bytes copied, or the
    string and its NUL, with [n] less the length of the string left. *)
Lemma strncpy_loop_spec d p s n m :
  str_in m p s -> disjoint_range p (p + zlen s + 1) d (d + zlen s + 1) ->
  let '(d', k, m') := strncpy_loop d p n m in
  if decide (n <= length s)%nat
  then k = O /\ only_in d (d + Z.of_nat n) m m' /\ bytes_in m' d (take n s)
  else d' = d + zlen s + 1 /\ k = (n - length s)%nat /\ only_in d (d + zlen s + 1) m m' /\ str_in m' d s.
Proof.
  revert d p m n. induction s as [|c s IH]; intros d p m [|n] H D; cbn [strncpy_loop length take].
  1,3: split; [done|]; split; [by intros a _|done].
  - apply str_in_nil in H. rewrite H. cbn. change (zlen (@nil Z)) with 0 in *. split; [lia|]. split; [done|].
    split; [intros a Ha; apply put_ne; lia|apply str_in_nil, put_eq].
  - apply str_in_cons in H as (-> & N & H). rewrite (proj2 (Z.eqb_neq _ _) N). rewrite zlen_cons in *. pose proof (zlen_nonneg s).
    specialize (IH (d + 1) (p + 1) (put d c m) n). destruct (strncpy_loop _ _ _ _) as [[d' k] m'].
    assert (IH' : if decide (n <= length s)%nat then _ else _) by (apply IH; [apply str_in_put; [destruct D; lia|done]|destruct D; [left|right]; lia]).
    clear IH. destruct (decide (S n <= S (length s))%nat), (decide (n <= length s)%nat); try lia.
    + destruct IH' as (-> & O & I). split; [done|]. split; [|by eapply bytes_in_head].
      apply (only_in_put d c); [lia|]. by replace (d + Z.of_nat (S n)) with (d + 1 + Z.of_nat n) by lia.
    + destruct IH' as (-> & -> & O & I). split; [lia|]. split; [lia|]. split.
      * apply (only_in_put d c); [lia|]. by replace (d + (1 + zlen s) + 1) with (d + 1 + zlen s + 1) by lia.
      * apply str_in_cons. split; [rewrite O by lia; apply put_eq|done].
Qed.
(** The extent of [strncpy]'s writes.  When the string has [n] bytes or
    more, exactly the [n] bytes of the destination are written, with the first
    [n] bytes of the string and no NUL.  When it is shorter, the string is
    written and then NULs, up to and including the byte at offset [n]: the NUL
    that ends the string is not counted, so one byte past the [n] bytes that
    the caller gave is cleared. *)
Theorem strncpy_extent d p s n m :
  str_in m p s -> disjoint_range p (p + zlen s + 1) d (d + zlen s + 1) ->
  let k := if decide (n <= length s)%nat then n else S n in
  only_in d (d + Z.of_nat k) m (strncpy d p n m) /\
  bytes_in (strncpy d p n m) d (take n s ++ repeat 0 (k - length s)).
Proof.
  intros H D. pose proof (strncpy_loop_spec d p s n m H D) as L. unfold strncpy. destruct (strncpy_loop _ _ _ _) as [[d' j] m'].
  destruct (decide _); cbv zeta.
  - destruct L as (-> & Ho & I). replace (n - length s)%nat with O by lia. rewrite app_nil_r. by split.
  - destruct L as (-> & -> & Ho & I & B). rewrite take_ge by lia. split.
    + intros a Ha. unfold zlen in *. rewrite (memset_only _ _ _ _ a) by lia. apply Ho. lia.
    + replace (S n - length s)%nat with (1 + (n - length s))%nat by lia. cbn [repeat app Nat.add]. rewrite cons_middle, app_assoc.
      apply bytes_in_app. rewrite zlen_app, Z.add_assoc. change (zlen [0]) with 1. split; [|exact (memset_bytes _ 0 _ _)].
      eapply bytes_in_only; [apply memset_only| |exact B]. left. rewrite zlen_app. change (zlen [0]) with 1. lia.
Qed.
Lemma strncpy_extent_witness :
  let m := put 101 104 (put 100 111 (fun _ => 0)) in
  bytes_in (strncpy 200 100 4 m) 200 [111; 104; 0; 0; 0].
Proof.
  assert (H : str_in (put 101 104 (put 100 111 (fun _ => 0))) 100 [111; 104]) by (split; [by repeat constructor|by vm_compute]).
  cbv zeta. exact (proj2 (strncpy_extent 200 100 [111; 104] 4 _ H ltac:(left; vm_compute; discriminate))).
Defined.

(** ** Tokens *)
(** The words of a string: the longest runs of bytes that are no delimiter. *)
Fixpoint words (delim : list Z) (s : list Z) : list (list Z) :=
  match s with
  | [] => []
  | c :: s' =>
      if is_delim delim c then words delim s'
      else match s' with
           | [] => [[c]]
           | d :: _ =>
               if is_delim delim d then [c] :: words delim s'
               else match words delim s' with w :: ws => (c :: w) :: ws | [] => [[c]] end
           end
  end.
(** The loop of the callers of [strtok]: at most [n] tokens, the next one asked
    for before the count is tested. *)
Fixpoint strtok_loop (n fuel : nat) (delim : list Z) (token saveptr : option Z) (m : bytes_mem) :
    option (list Z * option Z * bytes_mem) :=
  match token, n with
  | Some t, S n' =>
      match strtok fuel None delim saveptr m with
      | None => None
      | Some (token, saveptr, m) =>
          match strtok_loop n' fuel delim token saveptr m with Some (ts, saveptr, m) => Some (t :: ts, saveptr, m) | None => None end
      end
  | _, _ => Some ([], saveptr, m)
  end.
Definition strtok_args (n fuel : nat) (delim : list Z) (str : Z) (saveptr : option Z) (m : bytes_mem) :
    option (list Z * option Z * bytes_mem) :=
  match strtok fuel (Some str) delim saveptr m with
  | None => None
  | Some (token, saveptr, m) => strtok_loop n fuel delim token saveptr m
  end.

Section tokens.
Context (delim : list Z).
Definition starts_delim (s : list Z) : Prop := match s with [] => True | c :: _ => is_delim delim c = true end.
Lemma words_skip sk s : Forall (fun c => is_delim delim c = true) sk -> words delim (sk ++ s) = words delim s.
Proof. induction 1 as [|c sk E _ IH]; [done|]. cbn [app words]. by rewrite E. Qed.
Lemma words_word w s :
  w <> [] -> Forall (fun c => is_delim delim c = false) w -> starts_delim s -> words delim (w ++ s) = w :: words delim s.
Proof.
  intros N F D. induction F as [|c w E F IH]; [done|]. cbn [app words]. rewrite E. destruct w as [|c' w]; cbn [app].
  - destruct s as [|d s]; [done|]. cbn in D. by rewrite D.
  - inversion F as [|? ? E' F']; subst. rewrite E'. cbn [app] in IH. rewrite IH by done. done.
Qed.
Lemma str_in_app m p s1 s2 : str_in m p (s1 ++ s2) <-> nul_free s1 /\ bytes_in m p s1 /\ str_in m (p + zlen s1) s2.
Proof. unfold str_in, nul_free. rewrite <- app_assoc, bytes_in_app, Forall_app. tauto. Qed.
Lemma tok_skip_spec fuel m p s :
  str_in m p s -> (length s < fuel)%nat ->
  exists sk s', s = sk ++ s' /\ Forall (fun c => is_delim delim c = true) sk /\
    match s' with [] => True | c :: _ => is_delim delim c = false end /\ tok_skip fuel delim m p = Some (p + zlen sk).
Proof.
  revert fuel p. induction s as [|c s IH]; intros [|fuel] p H L; cbn [length] in L; try lia; cbn [tok_skip].
  - apply str_in_nil in H. rewrite H. exists [], []. split_and!; [done|done|done|]. cbn. f_equal. change (zlen (@nil Z)) with 0. lia.
  - apply str_in_cons in H as (-> & N & H). rewrite (proj2 (Z.eqb_neq _ _) N). destruct (is_delim delim c) eqn:E.
    + destruct (IH fuel (p + 1) H) as (sk & s' & -> & F & S' & ->); [lia|]. exists (c :: sk), s'. split_and!; [done|by constructor|done|].
      rewrite zlen_cons. f_equal. lia.
    + exists [], (c :: s). split_and!; [done|done|done|]. change (zlen (@nil Z)) with 0. f_equal. lia.
Qed.
Lemma tok_end_spec fuel m p s :
  str_in m p s -> (length s < fuel)%nat ->
  exists w s', s = w ++ s' /\ Forall (fun c => is_delim delim c = false) w /\ starts_delim s' /\
    match s' with
    | [] => tok_end fuel delim m p = Some (None, m)
    | _ :: _ => tok_end fuel delim m p = Some (Some (p + zlen w + 1), put (p + zlen w) 0 m)
    end.
Proof.
  revert fuel p. induction s as [|c s IH]; intros [|fuel] p H L; cbn [length] in L; try lia; cbn [tok_end].
  - apply str_in_nil in H. rewrite H. by exists [], [].
  - apply str_in_cons in H as (-> & N & H). rewrite (proj2 (Z.eqb_neq _ _) N). destruct (is_delim delim c) eqn:E.
    + exists [], (c :: s). split_and!; [done|done|done|]. change (zlen (@nil Z)) with 0. by rewrite Z.add_0_r.
    + destruct (IH fuel (p + 1) H) as (w & s' & -> & F & S' & T); [lia|]. exists (c :: w), s'. split_and!; [done|by constructor|done|].
      destruct s'; rewrite T; [done|]. rewrite zlen_cons. by replace (p + (1 + zlen w)) with (p + 1 + zlen w) by lia.
Qed.
(** One call: the first word, ended in place, and where the rest is. *)
Lemma strtok_step fuel m p s str save :
  match str with Some q => q = p | None => save = Some p end -> str_in m p s -> (length s < fuel)%nat ->
  match words delim s with
  | [] => strtok fuel str delim save m = Some (None, None, m)
  | w :: ws =>
      exists q save' m', strtok fuel str delim save m = Some (Some q, save', m') /\ p <= q /\ str_in m' q w /\
        match save' with
        | None => m' = m /\ ws = [] /\ q + zlen w = p + zlen s
        | Some r => exists s', r = q + zlen w + 1 /\ only_in (q + zlen w) r m m' /\ str_in m' r s' /\ words delim s' = ws /\ r + zlen s' = p + zlen s
        end
  end.
Proof.
  intros Hp H L. destruct (tok_skip_spec fuel m p s H L) as (sk & s1 & -> & Fs & N1 & Es). rewrite (words_skip _ _ Fs).
  apply str_in_app in H as (_ & _ & H1). rewrite length_app in L. unfold strtok.
  replace (match str with Some p0 => Some p0 | None => save end) with (Some p) by (destruct str; congruence). rewrite Es. clear Es Hp.
  destruct s1 as [|c s1]; [apply str_in_nil in H1; by rewrite H1|]. pose proof (proj1 (str_in_cons _ _ _ _) H1) as (Ec & Nc & _).
  rewrite Ec, (proj2 (Z.eqb_neq _ _) Nc). destruct (tok_end_spec fuel m _ _ H1) as (w & s2 & E & Fw & D & T); [lia|].
  assert (Nw : w <> []) by (intros ->; cbn in E; subst s2; cbn in D; congruence). rewrite E in H1 |- *. rewrite (words_word w s2 Nw Fw D).
  apply str_in_app in H1 as (Fn & Bw & H2). rewrite !zlen_app. zl. destruct s2 as [|d s2]; rewrite T.
  - exists (p + zlen sk), None, m. split; [done|]. split; [lia|]. split; [by split; [|apply bytes_in_app; split; [|apply str_in_nil in H2]]|].
    split_and!; [done|done|]. change (zlen (@nil Z)) with 0. lia.
  - apply str_in_cons in H2 as (_ & _ & H2). eexists (p + zlen sk), (Some _), _. split; [done|]. split; [lia|].
    assert (Ho : only_in (p + zlen sk + zlen w) (p + zlen sk + zlen w + 1) m (put (p + zlen sk + zlen w) 0 m)) by (intros a Ha; apply put_ne; lia).
    split; [split; [done|apply bytes_in_app; split; [eapply bytes_in_only; [exact Ho|left; lia|done]|split; [apply put_eq|done]]]|].
    exists s2. split; [done|]. split; [done|]. split; [eapply str_in_only; [exact Ho|right; lia|done]|]. rewrite zlen_cons. cbn in D. cbn [words]. rewrite D. split; [done|lia].
Qed.
(** What is left to scan after a token: the words [ws], between [lo] and [hi]. *)
Definition left_at (fuel : nat) (m : bytes_mem) (save : option Z) (lo hi : Z) (ws : list (list Z)) : Prop :=
  match save with
  | None => ws = []
  | Some r => lo <= r /\ exists s, str_in m r s /\ words delim s = ws /\ r + zlen s <= hi /\ (length s < fuel)%nat
  end.
Lemma strtok_loop_spec n fuel m q w save lo hi ws :
  str_in m q w -> q + zlen w < lo -> left_at fuel m save lo hi ws ->
  exists ts save' m', strtok_loop n fuel delim (Some q) save m = Some (ts, save', m') /\
    only_in lo hi m m' /\ Forall2 (str_in m') ts (take n (w :: ws)).
Proof.
  revert m q w save lo ws. induction n as [|n IH]; intros m q w save lo ws Hw Hlo Hl; cbn [strtok_loop take].
  { exists [], save, m. split_and!; [done|by intros a _|constructor]. }
  destruct save as [r|]; cbn in Hl.
  - destruct Hl as (Hr & s & Hs & <- & Hhi & Hf). pose proof (strtok_step fuel m r s None (Some r) eq_refl Hs Hf) as St.
    destruct (words delim s) as [|w1 ws].
    { rewrite St. assert (strtok_loop n fuel delim None None m = Some ([], None, m)) as -> by by destruct n. exists [q], None, m.
      split_and!; [done|by intros a _|]. rewrite take_nil. by constructor. }
    destruct St as (q1 & save1 & m1 & -> & Hq1 & Hw1 & Hs1). pose proof (zlen_nonneg w1).
    assert (H1 : only_in lo hi m m1 /\ exists lo1, left_at fuel m1 save1 lo1 hi ws /\ q1 + zlen w1 < lo1 /\ lo <= lo1).
    { destruct save1 as [r1|].
      - destruct Hs1 as (s1 & -> & Ho & Hs1 & <- & He). pose proof (zlen_nonneg s1). split; [intros a Ha; apply Ho; lia|].
        exists (q1 + zlen w1 + 1). unfold zlen in *. split; [|lia]. split; [lia|]. exists s1. split_and!; [done|done|unfold zlen; lia|lia].
      - destruct Hs1 as (-> & -> & _). split; [by intros a _|]. exists (q1 + zlen w1 + 1). split; [done|]. lia. }
    destruct H1 as (Ho & lo1 & Hl1 & Hw1' & Hlo1). destruct (IH m1 q1 w1 save1 lo1 ws Hw1 Hw1' Hl1) as (ts & save' & m' & -> & Ho' & F).
    exists (q :: ts), save', m'. assert (Hm : only_in lo hi m m') by (intros a Ha; rewrite Ho' by lia; apply Ho; lia).
    split_and!; [done|done|]. constructor; [|done]. eapply str_in_only; [exact Hm|left; lia|done].
  - subst ws. cbn [strtok]. unfold strtok. assert (strtok_loop n fuel delim None None m = Some ([], None, m)) as -> by by destruct n.
    exists [q], None, m. split_and!; [done|by intros a _|]. rewrite take_nil. by constructor.
Qed.
End tokens.
(** C24. Calling [strtok] on a string and then with NULL until it answers NULL
    (or [n] tokens are kept) yields the words of the string in their order,
    each a NUL-terminated string in place, and writes nothing outside the
    string. *)
Theorem strtok_yields_words n fuel delim m p s save :
  str_in m p s -> (length s < fuel)%nat ->
  exists ts save' m', strtok_args n fuel delim p save m = Some (ts, save', m') /\
    only_in p (p + zlen s) m m' /\ Forall2 (str_in m') ts (take n (words delim s)).
Proof.
  intros H L. unfold strtok_args. pose proof (strtok_step delim fuel m p s (Some p) save eq_refl H L) as St.
  destruct (words delim s) as [|w ws].
  { rewrite St. assert (strtok_loop n fuel delim None None m = Some ([], None, m)) as -> by by destruct n. exists [], None, m.
    split_and!; [done|by intros a _|]. rewrite take_nil. constructor. }
  destruct St as (q & save1 & m1 & -> & Hq & Hw & Hs). pose proof (zlen_nonneg w).
  assert (Ho : only_in p (p + zlen s) m m1 /\ left_at delim fuel m1 save1 (q + zlen w + 1) (p + zlen s) ws).
  { destruct save1 as [r|].
    - destruct Hs as (s1 & -> & Ho & Hs1 & <- & He). pose proof (zlen_nonneg s1). split; [intros a Ha; apply Ho; lia|].
      split; [lia|]. exists s1. unfold zlen in *. split_and!; [done|done|unfold zlen; lia|lia].
    - destruct Hs as (-> & -> & _). by split; [intros a _|]. }
  destruct Ho as [Ho Hl]. destruct (strtok_loop_spec delim n fuel m1 q w save1 (q + zlen w + 1) (p + zlen s) ws Hw ltac:(lia) Hl) as (ts & save' & m' & -> & Ho' & F).
  exists ts, save', m'. split_and!; [done| |done]. intros a Ha. rewrite Ho' by lia. by apply Ho.
Qed.
Lemma strtok_yields_words_witness :
  let m := put 105 98 (put 104 32 (put 103 32 (put 102 97 (put 101 97 (put 100 32 (fun _ => 0)))))) in
  exists ts save' m', strtok_args 16 10 [32; 9] 100 None m = Some (ts, save', m') /\ Forall2 (str_in m') ts [[97; 97]; [98]].
Proof.
  assert (H : str_in (put 105 98 (put 104 32 (put 103 32 (put 102 97 (put 101 97 (put 100 32 (fun _ => 0))))))) 100 [32; 97; 97; 32; 32; 98])
    by (split; [by repeat constructor|by vm_compute]).
  destruct (strtok_yields_words 16 10 [32; 9] _ 100 _ None H ltac:(cbn; lia)) as (ts & save' & m' & E & _ & F). exists ts, save', m'. by split.
Defined.

(** ** Numbers *)
Definition dec_value (acc : Z) (ds : list Z) : Z := fold_left (fun a c => a * 10 + (c - 48)) ds acc.
Lemma dec_value_ge acc ds : 0 <= acc -> Forall (fun c => isdigit c = true) ds -> acc <= dec_value acc ds.
Proof.
  intros Ha F. revert acc Ha. induction F as [|c ds E _ IH]; intros acc Ha; [done|]. cbn [dec_value fold_left]. unfold isdigit in E. bool_hyps.
  etrans; [|apply IH; lia]. lia.
Qed.
Lemma atoi_digits_spec fuel m p ds acc :
  bytes_in m p ds -> isdigit (m (p + zlen ds)) = false -> Forall (fun c => isdigit c = true) ds ->
  0 <= acc -> dec_value acc ds < 2 ^ 31 -> (length ds < fuel)%nat -> atoi_digits fuel m p acc = Some (dec_value acc ds).
Proof.
  intros B N F. revert fuel p acc B N. induction F as [|c ds E F IH]; intros [|fuel] p acc B N Ha Hv L; cbn [length] in L; try lia; cbn [atoi_digits].
  - change (zlen (@nil Z)) with 0 in N. rewrite Z.add_0_r in N. by rewrite N.
  - destruct B as [-> B]. rewrite E. rewrite zlen_cons in N. cbn [dec_value fold_left] in Hv |- *. pose proof E as E'. unfold isdigit in E'. bool_hyps.
    pose proof (dec_value_ge (acc * 10 + (c - 48)) ds ltac:(lia) F) as G. fold (dec_value (acc * 10 + (c - 48)) ds) in Hv |- *.
    rewrite s32_id by (split; [|lia]; lia). apply IH; [done|by replace (p + 1 + zlen ds) with (p + (1 + zlen ds)) by lia|lia|lia|lia].
Qed.
(** [atoi] reads the decimal number that the string starts with, after an
    optional minus, as long as it fits an int. *)
Lemma atoi_decimal fuel m p (neg : bool) ds :
  bytes_in m p ((if neg then [45] else []) ++ ds) -> isdigit (m (p + (if neg then 1 else 0) + zlen ds)) = false ->
  ds <> [] -> Forall (fun c => isdigit c = true) ds -> dec_value 0 ds < 2 ^ 31 -> (length ds < fuel)%nat ->
  atoi fuel m p = Some (if neg then - dec_value 0 ds else dec_value 0 ds).
Proof.
  intros B N Nd F Hv L. destruct ds as [|c ds]; [done|]. destruct fuel as [|fuel]; [lia|]. pose proof (dec_value_ge 0 (c :: ds) ltac:(lia) F) as G.
  assert (Hc : 48 <= c <= 57) by (inversion F as [|? ? E ?]; unfold isdigit in E; bool_hyps; lia). unfold atoi. cbn [skip_space].
  destruct neg; cbn [app] in B.
  - destruct B as [Em B]. rewrite Em. change (isspace 45) with false. cbv iota beta. rewrite Em. change (45 =? 45) with true. cbv iota beta. rewrite (atoi_digits_spec (S fuel) m (p + 1) (c :: ds) 0); try done; try lia.
    f_equal. unfold s32. rewrite Z.mod_small; lia.
  - rewrite Z.add_0_r in N. pose proof B as [Em _]. rewrite Em. assert (isspace c = false) as -> by (unfold isspace; rewrite !(proj2 (Z.eqb_neq c _)) by lia; done). cbv iota beta. rewrite Em.
    rewrite !(proj2 (Z.eqb_neq c _)) by lia. rewrite (atoi_digits_spec (S fuel) m p (c :: ds) 0); try done; try lia.
    rewrite Z.mul_1_l, s32_id by lia. done.
Qed.
