(* ===== verification/Pmm.v ===== *)
(** Physical memory manager (src/mm/pmm.c, src/mm/pmm.h).

    The allocator state is the static bitmap with its counters; one bit per
    4 KiB block, set when the block is used.  Addresses are 64-bit integers and
    the null pointer is 0. *)
From S2P Require Import Prelude.

(** ** Constants and macros of pmm.h *)
Definition PMM_BLOCK_SIZE : Z := 4096.
Definition PMM_BLOCKS_PER_BYTE : Z := 8.
Definition PMM_MAX_MEMORY : Z := 4 * 1024 * 1024 * 1024.
Definition PMM_MAX_BLOCKS : Z := PMM_MAX_MEMORY / PMM_BLOCK_SIZE.
Definition PMM_BITMAP_SIZE : Z := PMM_MAX_BLOCKS / PMM_BLOCKS_PER_BYTE.
Definition LIMINE_MEMMAP_USABLE : Z := 0.

(** [~(PMM_BLOCK_SIZE - 1)] on 64 bits. *)
Definition PMM_BLOCK_MASK : Z := 2 ^ 64 - PMM_BLOCK_SIZE.
Definition PMM_ALIGN_UP (addr : Z) : Z :=
  Z.land (u64 (addr + PMM_BLOCK_SIZE - 1)) PMM_BLOCK_MASK.
Definition PMM_ALIGN_DOWN (addr : Z) : Z := Z.land addr PMM_BLOCK_MASK.
Definition PMM_ADDR_TO_BLOCK (addr : Z) : Z := addr / PMM_BLOCK_SIZE.
Definition PMM_BLOCK_TO_ADDR (block : Z) : Z := u64 (block * PMM_BLOCK_SIZE).

(** ** State *)
Record pmm := mk_pmm {
  pmm_bitmap : list Z;
  pmm_total_blocks : Z;
  pmm_used_blocks : Z;
  pmm_memory_size : Z;
  pmm_hhdm_offset : Z
}.

Record limine_memmap_entry := mk_entry { e_base : Z; e_length : Z; e_type : Z }.

Definition with_bitmap (p : pmm) (b : list Z) : pmm :=
  mk_pmm b p.(pmm_total_blocks) p.(pmm_used_blocks) p.(pmm_memory_size) p.(pmm_hhdm_offset).
Definition with_used (p : pmm) (u : Z) : pmm :=
  mk_pmm p.(pmm_bitmap) p.(pmm_total_blocks) u p.(pmm_memory_size) p.(pmm_hhdm_offset).

(** ** Bitmap primitives *)
Definition bitmap_set (block : Z) (p : pmm) : pmm :=
  if block <? PMM_MAX_BLOCKS then
    with_bitmap p (wr p.(pmm_bitmap) (block / 8)
      (u8 (Z.lor (rd0 p.(pmm_bitmap) (block / 8)) (Z.shiftl 1 (block mod 8)))))
  else p.

Definition bitmap_clear (block : Z) (p : pmm) : pmm :=
  if block <? PMM_MAX_BLOCKS then
    with_bitmap p (wr p.(pmm_bitmap) (block / 8)
      (u8 (Z.land (rd0 p.(pmm_bitmap) (block / 8)) (Z.lnot (Z.shiftl 1 (block mod 8))))))
  else p.

Definition bitmap_test (p : pmm) (block : Z) : Z :=
  if PMM_MAX_BLOCKS <=? block then 1
  else Z.land (Z.shiftr (rd0 p.(pmm_bitmap) (block / 8)) (block mod 8)) 1.

Definition pmm_mark_region_used (base_addr length : Z) (p : pmm) : pmm :=
  let start_block := PMM_ADDR_TO_BLOCK base_addr in
  let num_blocks := PMM_ALIGN_UP length / PMM_BLOCK_SIZE in
  for_loop (Z.to_nat num_blocks) 0 (fun i p =>
    if (start_block + i <? PMM_MAX_BLOCKS) && (bitmap_test p (start_block + i) =? 0) then
      let p := bitmap_set (start_block + i) p in
      with_used p (u64 (p.(pmm_used_blocks) + 1))
    else p) p.

Definition pmm_mark_region_free (base_addr length : Z) (p : pmm) : pmm :=
  let start_block := PMM_ADDR_TO_BLOCK base_addr in
  let num_blocks := length / PMM_BLOCK_SIZE in
  for_loop (Z.to_nat num_blocks) 0 (fun i p =>
    if (start_block + i <? PMM_MAX_BLOCKS) && negb (bitmap_test p (start_block + i) =? 0) then
      let p := bitmap_clear (start_block + i) p in
      with_used p (u64 (p.(pmm_used_blocks) - 1))
    else p) p.

Definition pmm_find_first_free (p : pmm) : Z :=
  let bitmap_bytes := p.(pmm_total_blocks) / 8 in
  let bitmap_bytes := if PMM_BITMAP_SIZE <? bitmap_bytes then PMM_BITMAP_SIZE else bitmap_bytes in
  default (-1) (find_loop (Z.to_nat bitmap_bytes) 0 (fun i =>
    if negb (rd0 p.(pmm_bitmap) i =? 255) then
      find_loop 8 0 (fun j =>
        if Z.land (rd0 p.(pmm_bitmap) i) (Z.shiftl 1 j) =? 0 then
          let block := i * 8 + j in
          if block <? p.(pmm_total_blocks) then Some block else None
        else None)
    else None)).

(** The scan of [pmm_find_first_free_sequence]; [n] blocks are left. *)
Fixpoint sequence_scan (p : pmm) (count : Z) (n : nat) (block consecutive start_block : Z) : Z :=
  match n with
  | O => -1
  | S n' =>
      if bitmap_test p block =? 0 then
        let start_block := if consecutive =? 0 then block else start_block in
        let consecutive := consecutive + 1 in
        if count <=? consecutive then start_block
        else sequence_scan p count n' (block + 1) consecutive start_block
      else sequence_scan p count n' (block + 1) 0 start_block
  end.

Definition pmm_find_first_free_sequence (p : pmm) (count : Z) : Z :=
  if count =? 0 then -1
  else if count =? 1 then pmm_find_first_free p
  else sequence_scan p count (Z.to_nat p.(pmm_total_blocks)) 0 0 0.

(** ** Public operations *)

(** One pass of the usable-region loop of [init_pmm_limine]. *)
Definition init_free_entry (entry : limine_memmap_entry) (p : pmm) : pmm :=
  if PMM_MAX_MEMORY <=? entry.(e_base) then p
  else if entry.(e_type) =? LIMINE_MEMMAP_USABLE then
    let base := entry.(e_base) in
    let length := entry.(e_length) in
    let length := if PMM_MAX_MEMORY <? u64 (base + length) then PMM_MAX_MEMORY - base else length in
    let aligned_base := PMM_ALIGN_UP base in
    let release length :=
      let length := PMM_ALIGN_DOWN length in
      if PMM_BLOCK_SIZE <=? length then pmm_mark_region_free aligned_base length p else p in
    if (base <? aligned_base) && (aligned_base - base <? length) then
      release (length - (aligned_base - base))
    else if base <? aligned_base then p
    else release length
  else p.

Definition max_entry_end (entries : list limine_memmap_entry) : Z :=
  fold_left (fun size e =>
    let entry_end := u64 (e.(e_base) + e.(e_length)) in
    if size <? entry_end then entry_end else size) entries 0.

(** [memmap] is [None] for a null response. *)
Definition init_pmm_limine (memmap : option (list limine_memmap_entry)) (hhdm_offset : Z) (p : pmm) : pmm :=
  let p := mk_pmm p.(pmm_bitmap) p.(pmm_total_blocks) p.(pmm_used_blocks) p.(pmm_memory_size) hhdm_offset in
  match memmap with
  | None | Some [] => p
  | Some entries =>
      let size := max_entry_end entries in
      let size := if PMM_MAX_MEMORY <? size then PMM_MAX_MEMORY else size in
      let total := size / PMM_BLOCK_SIZE in
      let p := mk_pmm (replicate (Z.to_nat PMM_BITMAP_SIZE) 255) total total size hhdm_offset in
      let p := fold_left (fun p e => init_free_entry e p) entries p in
      pmm_mark_region_used 0 0x100000 p
  end.

Definition pmm_alloc_block (p : pmm) : Z * pmm :=
  if p.(pmm_total_blocks) <=? p.(pmm_used_blocks) then (NULL, p)
  else
    let block := pmm_find_first_free p in
    if block <? 0 then (NULL, p)
    else
      let p := bitmap_set block p in
      let p := with_used p (u64 (p.(pmm_used_blocks) + 1)) in
      (u64 (PMM_BLOCK_TO_ADDR block + p.(pmm_hhdm_offset)), p).

Definition pmm_alloc_blocks (count : Z) (p : pmm) : Z * pmm :=
  if count =? 0 then (NULL, p)
  else if count =? 1 then pmm_alloc_block p
  else
    let start_block := pmm_find_first_free_sequence p count in
    if start_block <? 0 then (NULL, p)
    else
      let p := for_loop (Z.to_nat count) 0 (fun i p =>
        let p := bitmap_set (start_block + i) p in
        with_used p (u64 (p.(pmm_used_blocks) + 1))) p in
      (u64 (PMM_BLOCK_TO_ADDR start_block + p.(pmm_hhdm_offset)), p).

Definition pmm_free_block (ptr : Z) (p : pmm) : pmm :=
  let addr := u64 (ptr - p.(pmm_hhdm_offset)) in
  let block := PMM_ADDR_TO_BLOCK addr in
  if p.(pmm_total_blocks) <=? block then p
  else if negb (bitmap_test p block =? 0) then
    let p := bitmap_clear block p in
    with_used p (u64 (p.(pmm_used_blocks) - 1))
  else p.

Definition pmm_free_blocks (ptr count : Z) (p : pmm) : pmm :=
  if (count =? 0) || (ptr =? NULL) then p
  else
    let addr := u64 (ptr - p.(pmm_hhdm_offset)) in
    let start_block := PMM_ADDR_TO_BLOCK addr in
    for_loop (Z.to_nat count) 0 (fun i p =>
      let block := u64 (start_block + i) in
      if (block <? p.(pmm_total_blocks)) && negb (bitmap_test p block =? 0) then
        let p := bitmap_clear block p in
        with_used p (u64 (p.(pmm_used_blocks) - 1))
      else p) p.

Definition pmm_get_total_blocks (p : pmm) : Z := p.(pmm_total_blocks).
Definition pmm_get_used_blocks (p : pmm) : Z := p.(pmm_used_blocks).
Definition pmm_get_free_blocks (p : pmm) : Z := u64 (p.(pmm_total_blocks) - p.(pmm_used_blocks)).
Definition pmm_get_free_memory (p : pmm) : Z := u64 (pmm_get_free_blocks p * PMM_BLOCK_SIZE).
Definition pmm_phys_to_virt (p : pmm) (phys : Z) : Z := u64 (phys + p.(pmm_hhdm_offset)).
Definition pmm_virt_to_phys (p : pmm) (virt : Z) : Z := u64 (virt - p.(pmm_hhdm_offset)).

(** ** Abstract view: the set of used blocks *)
Definition block_used (p : pmm) (b : Z) : bool :=
  Z.testbit (rd0 p.(pmm_bitmap) (b / 8)) (b mod 8).

Definition used_set (p : pmm) : gset Z :=
  list_to_set (filter (fun b => block_used p b = true) (seqZ 0 p.(pmm_total_blocks))).

(** Well-formedness: the bitmap has its static size and holds bytes, the
    counter is the number of used blocks, blocks past the end of memory are
    never offered, and the direct map does not wrap. *)
Record pmm_wf (p : pmm) : Prop := {
  wf_len : zlen p.(pmm_bitmap) = PMM_BITMAP_SIZE;
  wf_bytes : Forall is_u8 p.(pmm_bitmap);
  wf_total : 0 <= p.(pmm_total_blocks) <= PMM_MAX_BLOCKS;
  wf_used : p.(pmm_used_blocks) = Z.of_nat (size (used_set p));
  wf_tail : forall b, p.(pmm_total_blocks) <= b < PMM_MAX_BLOCKS -> block_used p b = true;
  wf_hhdm : 0 < p.(pmm_hhdm_offset) /\ p.(pmm_hhdm_offset) + PMM_MAX_MEMORY <= 2 ^ 64
}.

(** The shape of the state that no operation but [init] changes. *)
Definition same_frame (p q : pmm) : Prop :=
  q.(pmm_total_blocks) = p.(pmm_total_blocks) /\
  q.(pmm_hhdm_offset) = p.(pmm_hhdm_offset) /\
  q.(pmm_memory_size) = p.(pmm_memory_size).

#[export] Instance same_frame_preorder : PreOrder same_frame.
Proof. split; [done|]. intros ??? (?&?&?) (?&?&?). unfold same_frame. by repeat split; congruence. Qed.

Lemma PMM_MAX_BLOCKS_eq : PMM_MAX_BLOCKS = 1048576.
Proof. reflexivity. Qed.
Lemma PMM_BITMAP_SIZE_eq : PMM_BITMAP_SIZE = 131072.
Proof. reflexivity. Qed.
Lemma PMM_MAX_MEMORY_eq : PMM_MAX_MEMORY = 4294967296.
Proof. reflexivity. Qed.

Ltac pmm_consts :=
  rewrite ?PMM_MAX_BLOCKS_eq, ?PMM_BITMAP_SIZE_eq, ?PMM_MAX_MEMORY_eq in *.

Lemma elem_of_used_set p b :
  b ∈ used_set p <-> 0 <= b < p.(pmm_total_blocks) /\ block_used p b = true.
Proof.
  unfold used_set. rewrite elem_of_list_to_set, list_elem_of_filter, elem_of_seqZ.
  split; intros [? ?]; split; auto; lia.
Qed.

Lemma block_index b : 0 <= b < PMM_MAX_BLOCKS -> 0 <= b / 8 < PMM_BITMAP_SIZE.
Proof. pmm_consts. lia. Qed.

Lemma bitmap_test_used p b :
  0 <= b < PMM_MAX_BLOCKS -> bitmap_test p b = b2z (block_used p b).
Proof.
  intros. unfold bitmap_test, block_used. case_if; [lia|].
  apply land_1_testbit. lia.
Qed.

Lemma block_used_bitmap_set p b c :
  zlen p.(pmm_bitmap) = PMM_BITMAP_SIZE -> 0 <= b < PMM_MAX_BLOCKS ->
  block_used (bitmap_set b p) c = (b =? c) || block_used p c.
Proof.
  intros Hlen Hb. pose proof (block_index b Hb). unfold bitmap_set, block_used.
  case_if; [|lia]. cbn [with_bitmap pmm_bitmap].
  destruct (decide (b / 8 = c / 8)) as [He|Hne].
  - rewrite He, rd0_wr_eq by lia. rewrite testbit_u8 by lia.
    rewrite Z.lor_spec, testbit_pow2 by lia. rewrite orb_comm. f_equal.
    apply eq_true_iff_eq. rewrite !Z.eqb_eq. lia.
  - rewrite rd0_wr_ne by done. destruct (b =? c) eqn:E; bool_hyps; [|done]. subst. done.
Qed.

Lemma block_used_bitmap_clear p b c :
  zlen p.(pmm_bitmap) = PMM_BITMAP_SIZE -> 0 <= b < PMM_MAX_BLOCKS ->
  block_used (bitmap_clear b p) c = negb (b =? c) && block_used p c.
Proof.
  intros Hlen Hb. pose proof (block_index b Hb). unfold bitmap_clear, block_used.
  case_if; [|lia]. cbn [with_bitmap pmm_bitmap].
  destruct (decide (b / 8 = c / 8)) as [He|Hne].
  - rewrite He, rd0_wr_eq by lia. rewrite testbit_u8 by lia.
    rewrite Z.land_spec, Z.lnot_spec, testbit_pow2 by lia. rewrite andb_comm. f_equal. f_equal.
    apply eq_true_iff_eq. rewrite !Z.eqb_eq. lia.
  - rewrite rd0_wr_ne by done. destruct (b =? c) eqn:E; bool_hyps; [|done]. subst. done.
Qed.

(** ** The two elementary transitions *)

(** [bitmap_set(b); pmm_used_blocks++] on a free block, and
    [bitmap_clear(b); pmm_used_blocks--] on a used one. *)
Definition acquire (b : Z) (p : pmm) : pmm :=
  let p := bitmap_set b p in with_used p (u64 (p.(pmm_used_blocks) + 1)).
Definition release (b : Z) (p : pmm) : pmm :=
  let p := bitmap_clear b p in with_used p (u64 (p.(pmm_used_blocks) - 1)).

Lemma acquire_frame b p : same_frame p (acquire b p).
Proof. unfold acquire, bitmap_set. case_if; done. Qed.
Lemma release_frame b p : same_frame p (release b p).
Proof. unfold release, bitmap_clear. case_if; done. Qed.

Lemma used_set_size_bound p :
  0 <= p.(pmm_total_blocks) -> Z.of_nat (size (used_set p)) <= p.(pmm_total_blocks).
Proof.
  intros. transitivity (Z.of_nat (size (list_to_set (seqZ 0 p.(pmm_total_blocks)) : gset Z))).
  - apply inj_le, subseteq_size. intros b. rewrite elem_of_used_set, elem_of_list_to_set, elem_of_seqZ. lia.
  - rewrite size_list_to_set, length_seqZ by apply NoDup_seqZ. lia.
Qed.

Lemma used_set_acquire p b :
  pmm_wf p -> 0 <= b < p.(pmm_total_blocks) -> used_set (acquire b p) = {[b]} ∪ used_set p.
Proof.
  intros W Hb. pose proof (wf_total _ W). apply set_eq. intros c.
  rewrite elem_of_union, elem_of_singleton, !elem_of_used_set.
  destruct (acquire_frame b p) as [-> _].
  assert (block_used (acquire b p) c = (b =? c) || block_used p c) as ->
    by (apply block_used_bitmap_set; [apply W|lia]).
  rewrite orb_true_iff, Z.eqb_eq. intuition lia.
Qed.

Lemma used_set_release p b :
  pmm_wf p -> 0 <= b < p.(pmm_total_blocks) -> used_set (release b p) = used_set p ∖ {[b]}.
Proof.
  intros W Hb. pose proof (wf_total _ W). apply set_eq. intros c.
  rewrite elem_of_difference, elem_of_singleton, !elem_of_used_set.
  destruct (release_frame b p) as [-> _].
  assert (block_used (release b p) c = negb (b =? c) && block_used p c) as ->
    by (apply block_used_bitmap_clear; [apply W|lia]).
  rewrite andb_true_iff, negb_true_iff, Z.eqb_neq. intuition lia.
Qed.

Lemma acquire_wf p b :
  pmm_wf p -> 0 <= b < p.(pmm_total_blocks) -> block_used p b = false -> pmm_wf (acquire b p).
Proof.
  intros W Hb Hfree. pose proof (wf_total _ W) as Ht. pose proof (wf_len _ W) as Hl.
  destruct (acquire_frame b p) as (Et & Eh & Em).
  split; rewrite ?Et, ?Eh.
  - unfold acquire, bitmap_set. case_if; [|lia]. cbn. by rewrite zlen_wr.
  - unfold acquire, bitmap_set. case_if; [|lia]. cbn. apply Forall_wr; [apply W|apply u8_range].
  - done.
  - rewrite used_set_acquire by done.
    rewrite size_union by (intros c; rewrite elem_of_singleton, elem_of_used_set; intros -> []; congruence).
    rewrite size_singleton.
    replace (pmm_used_blocks (acquire b p)) with (u64 (pmm_used_blocks p + 1))
      by (unfold acquire, bitmap_set; case_if; done).
    pose proof (used_set_size_bound p). rewrite (wf_used _ W), u64_small; [lia|].
    pmm_consts. widths. lia.
  - intros c Hc. transitivity ((b =? c) || block_used p c).
    + apply block_used_bitmap_set; [done|lia].
    + rewrite (wf_tail _ W) by lia. apply orb_true_r.
  - apply W.
Qed.

Lemma release_wf p b :
  pmm_wf p -> 0 <= b < p.(pmm_total_blocks) -> block_used p b = true -> pmm_wf (release b p).
Proof.
  intros W Hb Hu. pose proof (wf_total _ W) as Ht. pose proof (wf_len _ W) as Hl.
  destruct (release_frame b p) as (Et & Eh & Em).
  assert (Hin : b ∈ used_set p) by (apply elem_of_used_set; auto).
  split; rewrite ?Et, ?Eh.
  - unfold release, bitmap_clear. case_if; [|lia]. cbn. by rewrite zlen_wr.
  - unfold release, bitmap_clear. case_if; [|lia]. cbn. apply Forall_wr; [apply W|apply u8_range].
  - done.
  - rewrite used_set_release by done.
    assert (Hsub : {[b]} ⊆ used_set p) by (by intros c ->%elem_of_singleton).
    rewrite size_difference by done. apply subseteq_size in Hsub.
    rewrite size_singleton in *.
    replace (pmm_used_blocks (release b p)) with (u64 (pmm_used_blocks p - 1))
      by (unfold release, bitmap_clear; case_if; done).
    pose proof (used_set_size_bound p). rewrite (wf_used _ W), u64_small; [lia|].
    pmm_consts. widths. lia.
  - intros c Hc. transitivity (negb (b =? c) && block_used p c).
    + apply block_used_bitmap_clear; [done|lia].
    + rewrite (wf_tail _ W) by lia. rewrite andb_true_r, negb_true_iff, Z.eqb_neq. lia.
  - apply W.
Qed.

(** ** Scanning *)

(** Blocks that the byte-wise scan can reach: the last [total mod 8] blocks
    are outside its range. *)
Definition scan_limit (p : pmm) : Z := 8 * (p.(pmm_total_blocks) / 8).

Lemma first_free_spec p :
  pmm_wf p ->
  match pmm_find_first_free p with
  | -1 => forall b, 0 <= b < scan_limit p -> block_used p b = true
  | b => 0 <= b < scan_limit p /\ block_used p b = false /\
         forall c, 0 <= c < b -> block_used p c = true
  end.
Proof.
  intros W. pose proof (wf_total _ W) as Ht. unfold pmm_find_first_free.
  pose proof PMM_BITMAP_SIZE_eq. pose proof PMM_MAX_BLOCKS_eq.
  destruct (PMM_BITMAP_SIZE <? pmm_total_blocks p / 8) eqn:Hc; bool_hyps; [lia|].
  set (f := fun i => if negb (rd0 (pmm_bitmap p) i =? 255) then _ else None).
  assert (Hnone : forall i, 0 <= i < pmm_total_blocks p / 8 -> f i = None ->
    forall b, i * 8 <= b < i * 8 + 8 -> block_used p b = true).
  { intros i Hi Hf b Hb. unfold f in Hf. unfold block_used.
    replace (b / 8) with i by lia. destruct (rd0 (pmm_bitmap p) i =? 255) eqn:E.
    - bool_hyps. rewrite E. assert (b mod 8 = 0 \/ b mod 8 = 1 \/ b mod 8 = 2 \/ b mod 8 = 3 \/
        b mod 8 = 4 \/ b mod 8 = 5 \/ b mod 8 = 6 \/ b mod 8 = 7) as Hm by lia.
      destruct Hm as [->|[->|[->|[->|[->|[->|[->| ->]]]]]]]; reflexivity.
    - cbn [negb] in Hf. rewrite find_loop_None in Hf. specialize (Hf (b mod 8)).
      rewrite land_bit_eqb in Hf by lia.
      destruct (Z.testbit (rd0 (pmm_bitmap p) i) (b mod 8)); [done|]. cbn [negb] in Hf.
      destruct (i * 8 + b mod 8 <? pmm_total_blocks p) eqn:?; bool_hyps; [|lia].
      discriminate Hf. lia. }
  destruct (find_loop _ _ f) as [b|] eqn:E.
  - apply find_loop_Some in E as (i & Hi & Hf & Hm).
    assert (Hb : 0 <= b < scan_limit p /\ block_used p b = false /\
        forall c, i * 8 <= c < b -> block_used p c = true).
    { unfold f in Hf. case_if_in Hf; [|done].
      apply find_loop_Some in Hf as (j & Hj & Hf & Hm').
      rewrite land_bit_eqb in Hf by lia.
      case_if_in Hf; [|done]. case_if_in Hf; [|done]. injection Hf as <-.
      split; [unfold scan_limit; lia|]. split.
      - unfold block_used. replace ((i * 8 + j) / 8) with i by lia.
        by replace ((i * 8 + j) mod 8) with j by lia.
      - intros c Hc'. unfold block_used. replace (c / 8) with i by lia.
        specialize (Hm' (c mod 8)). rewrite land_bit_eqb in Hm' by lia.
        destruct (Z.testbit _ (c mod 8)); [done|]. cbn [negb] in Hm'.
        destruct (i * 8 + c mod 8 <? pmm_total_blocks p) eqn:?; bool_hyps; [|lia].
        discriminate Hm'. lia. }
    destruct Hb as (Hb & Hfree & Hlow). cbn [default].
    assert (forall c, 0 <= c < b -> block_used p c = true).
    { intros c Hc'. destruct (decide (i * 8 <= c)); [apply Hlow; lia|].
      apply (Hnone (c / 8)); [lia|apply Hm; lia|lia]. }
    destruct b as [|q|q]; [done|done|lia].
  - rewrite find_loop_None in E. cbn [default]. intros b Hb.
    unfold scan_limit in Hb. apply (Hnone (b / 8)); [lia|apply E; lia|lia].
Qed.

(** A run of [count] free blocks from [s]. *)
Definition free_run (p : pmm) (s count : Z) : Prop :=
  forall c, s <= c < s + count -> block_used p c = false.

Lemma sequence_scan_spec p count n block consecutive start_block :
  pmm_wf p -> 0 < count -> block + Z.of_nat n = p.(pmm_total_blocks) ->
  0 <= consecutive < count -> consecutive <= block ->
  (0 < consecutive -> start_block = block - consecutive) ->
  free_run p (block - consecutive) consecutive ->
  (block = consecutive \/ block_used p (block - consecutive - 1) = true) ->
  (forall s, 0 <= s -> s + count <= block -> ~ free_run p s count) ->
  let r := sequence_scan p count n block consecutive start_block in
  (r = -1 /\ forall s, 0 <= s -> s + count <= p.(pmm_total_blocks) -> ~ free_run p s count) \/
  (0 <= r /\ r + count <= p.(pmm_total_blocks) /\ free_run p r count /\
   forall s, 0 <= s < r -> ~ free_run p s count).
Proof.
  intros W Hcount. pose proof (wf_total _ W) as Ht.
  revert block consecutive start_block.
  induction n as [|n IH]; intros block k st Hn Hk Hkb Hst Hrun Hmax Hno; cbn [sequence_scan].
  - left. split; [done|]. intros s ? ?. apply Hno; lia.
  - rewrite bitmap_test_used by lia. destruct (block_used p block) eqn:Eu; cbn [b2z].
    + apply IH; try lia.
      * intros c Hc. lia.
      * right. by replace (block + 1 - 0 - 1) with block by lia.
      * intros s ? ? Hr. destruct (decide (s + count <= block)); [by apply (Hno s)|].
        rewrite (Hr block) in Eu by lia. done.
    + change (0 =? 0) with true. cbn [negb]. cbv zeta.
      assert (Hst' : (if k =? 0 then block else st) = block - k).
      { case_if; [lia|]. apply Hst. lia. }
      rewrite Hst'.
      assert (Hrun' : free_run p (block - k) (k + 1)).
      { intros c Hc. destruct (decide (c = block)) as [->|]; [done|]. apply Hrun. lia. }
      destruct (count <=? k + 1) eqn:Ec; bool_hyps.
      * right. replace (k + 1) with count in Hrun' by lia. repeat split; try lia; [done|].
        intros s Hs. apply Hno; lia.
      * apply IH; try lia.
        -- by replace (block + 1 - (k + 1)) with (block - k) by lia.
        -- destruct Hmax as [?|Hmax]; [left; lia|right].
           by replace (block + 1 - (k + 1) - 1) with (block - k - 1) by lia.
        -- intros s ? ? Hr. destruct (decide (s + count <= block)); [by apply (Hno s)|].
           destruct Hmax as [?|Hmax]; [lia|]. rewrite (Hr (block - k - 1)) in Hmax by lia. done.
Qed.

Lemma used_set_full p :
  pmm_wf p -> p.(pmm_total_blocks) <= p.(pmm_used_blocks) ->
  forall b, 0 <= b < p.(pmm_total_blocks) -> b ∈ used_set p.
Proof.
  intros W Hle b Hb. rewrite (wf_used _ W) in Hle.
  set (all := list_to_set (seqZ 0 p.(pmm_total_blocks)) : gset Z).
  assert (Hsub : used_set p ⊆ all).
  { intros c. rewrite elem_of_used_set. unfold all. rewrite elem_of_list_to_set, elem_of_seqZ. lia. }
  assert (Hsize : Z.of_nat (size all) = p.(pmm_total_blocks)).
  { unfold all. rewrite size_list_to_set, length_seqZ by apply NoDup_seqZ. lia. }
  rewrite (set_subseteq_size_eq (used_set p) all) by (done || lia).
  unfold all. rewrite elem_of_list_to_set, elem_of_seqZ. lia.
Qed.

(** ** Abstract allocator

    What the physical memory manager promises its clients, over the set of
    used blocks: an allocation returns the lowest free run of the requested
    length below [limit], or fails because there is none. *)
Inductive alloc_spec (count limit : Z) (used : gset Z) : option Z -> gset Z -> Prop :=
| alloc_none :
    (forall s, 0 <= s -> s + count <= limit -> exists c, s <= c < s + count /\ c ∈ used) ->
    alloc_spec count limit used None used
| alloc_some s :
    0 <= s -> s + count <= limit ->
    (forall c, s <= c < s + count -> c ∉ used) ->
    (forall r, 0 <= r < s -> exists c, r <= c < r + count /\ c ∈ used) ->
    alloc_spec count limit used (Some s) (used ∪ list_to_set (seqZ s count)).

(** The pointer a client gets for a block index. *)
Definition block_ptr (p : pmm) (r : option Z) : Z :=
  match r with
  | None => NULL
  | Some b => b * PMM_BLOCK_SIZE + p.(pmm_hhdm_offset)
  end.

Lemma block_addr_exact p b :
  pmm_wf p -> 0 <= b < p.(pmm_total_blocks) ->
  u64 (PMM_BLOCK_TO_ADDR b + p.(pmm_hhdm_offset)) = b * PMM_BLOCK_SIZE + p.(pmm_hhdm_offset) /\
  0 < b * PMM_BLOCK_SIZE + p.(pmm_hhdm_offset) < 2 ^ 64.
Proof.
  intros W Hb. pose proof (wf_total _ W). pose proof (wf_hhdm _ W).
  pmm_consts. unfold PMM_BLOCK_TO_ADDR, PMM_BLOCK_SIZE in *.
  rewrite (u64_small (b * 4096)) by (widths; lia). rewrite u64_small; widths; lia.
Qed.

Lemma not_free_run p s count :
  0 <= s -> s + count <= p.(pmm_total_blocks) -> ~ free_run p s count ->
  exists c, s <= c < s + count /\ c ∈ used_set p.
Proof.
  intros Hs Hle Hn.
  destruct (find_loop (Z.to_nat count) s (fun c => if block_used p c then Some c else None)) eqn:E.
  - apply find_loop_Some in E as (c & Hc & Hf & _). exists c. split; [lia|].
    apply elem_of_used_set. destruct (block_used p c); [split; [lia|done]|done].
  - rewrite find_loop_None in E. destruct Hn. intros c Hc. specialize (E c).
    destruct (block_used p c); [|done]. discriminate E. lia.
Qed.

Lemma alloc_block_cases p a p' :
  pmm_wf p -> pmm_alloc_block p = (a, p') ->
  (a = NULL /\ p' = p /\ forall b, 0 <= b < scan_limit p -> block_used p b = true) \/
  (exists b, a = block_ptr p (Some b) /\ p' = acquire b p /\ 0 <= b < scan_limit p /\
     block_used p b = false /\ forall c, 0 <= c < b -> block_used p c = true).
Proof.
  intros W. pose proof (wf_total _ W). pose proof (first_free_spec p W) as Hff.
  unfold pmm_alloc_block. destruct (_ <=? _) eqn:Efull; bool_hyps.
  - intros [= <- <-]. left. repeat split. intros b Hb.
    apply (elem_of_used_set p b), used_set_full; [done..|unfold scan_limit in *; lia].
  - destruct (pmm_find_first_free p <? 0) eqn:E; bool_hyps.
    + intros [= <- <-]. left. repeat split.
      revert Hff E. destruct (pmm_find_first_free p) as [|q|[q|q|]]; cbv zeta; intros Hff E; (lia || done).
    + assert (0 <= pmm_find_first_free p < scan_limit p /\
        block_used p (pmm_find_first_free p) = false /\
        forall c, 0 <= c < pmm_find_first_free p -> block_used p c = true) as (Hb & Hf & Hm).
      { revert Hff E. destruct (pmm_find_first_free p) as [|q|q]; [done|done|lia]. }
      intros [= <- <-]. right. exists (pmm_find_first_free p). repeat split; try done; try lia.
      unfold block_ptr.
      destruct (acquire_frame (pmm_find_first_free p) p) as (_ & Eh & _).
      unfold acquire in Eh. cbn in Eh. cbn. rewrite Eh.
      apply block_addr_exact; [done|unfold scan_limit in *; lia].
Qed.

Lemma alloc_block_refines p a p' :
  pmm_wf p -> pmm_alloc_block p = (a, p') ->
  pmm_wf p' /\ same_frame p p' /\
  exists r, a = block_ptr p r /\ alloc_spec 1 (scan_limit p) (used_set p) r (used_set p').
Proof.
  intros W Hal. pose proof (wf_total _ W).
  destruct (alloc_block_cases p a p' W Hal) as [(-> & -> & Hall)|(b & -> & -> & Hb & Hf & Hm)].
  - repeat split; [apply W..|]. exists None. split; [done|]. constructor.
    intros s ? ?. exists s. split; [lia|]. apply elem_of_used_set.
    split; [unfold scan_limit in *; lia|]. apply Hall. lia.
  - assert (0 <= b < pmm_total_blocks p) by (unfold scan_limit in *; lia).
    split; [by apply acquire_wf|]. split; [apply acquire_frame|]. exists (Some b). split; [done|].
    rewrite used_set_acquire by done.
    replace ({[b]} ∪ used_set p) with (used_set p ∪ list_to_set (seqZ b 1))
      by (change (seqZ b 1) with [b]; set_solver).
    constructor; try lia.
    + intros c Hc. rewrite elem_of_used_set. replace c with b by lia. intros [_ ?]. congruence.
    + intros r Hr. exists r. split; [lia|]. apply elem_of_used_set. split; [lia|]. apply Hm. lia.
Qed.

(** The marking loop of [pmm_alloc_blocks] over a free run. *)
Lemma acquire_run p s n :
  pmm_wf p -> 0 <= s -> s + Z.of_nat n <= p.(pmm_total_blocks) ->
  free_run p s (Z.of_nat n) ->
  let p' := for_loop n 0 (fun i p => acquire (s + i) p) p in
  pmm_wf p' /\ same_frame p p' /\
  used_set p' = used_set p ∪ list_to_set (seqZ s (Z.of_nat n)).
Proof.
  intros W Hs Hle Hrun p'. pose proof (wf_total _ W) as Ht.
  set (P := fun k q => pmm_wf q /\ same_frame p q /\ used_set q = used_set p ∪ list_to_set (seqZ s k)).
  enough (P (0 + Z.of_nat n) p') as HP by exact HP.
  apply (for_loop_ind P).
  - split; [done|]. split; [done|]. rewrite seqZ_nil by lia. set_solver.
  - intros k q Hk (Wq & Fq & Uq). pose proof Fq as (Eq & _).
    assert (Hin : 0 <= s + k < pmm_total_blocks q) by lia.
    assert (Hfree : block_used q (s + k) = false).
    { apply not_true_iff_false. intros Hu.
      assert (Hmem : s + k ∈ used_set q) by (apply elem_of_used_set; auto).
      rewrite Uq, elem_of_union, elem_of_list_to_set, elem_of_seqZ, elem_of_used_set in Hmem.
      destruct Hmem as [[_ Hc]|?]; [|lia]. rewrite Hrun in Hc by lia. done. }
    split; [by apply acquire_wf|]. split; [etrans; [done|apply acquire_frame]|].
    rewrite used_set_acquire, Uq by done. rewrite seqZ_app, list_to_set_app_L by lia.
    change (seqZ (s + k) 1) with [s + k]. set_solver.
Qed.

Lemma alloc_blocks_cases p count a p' :
  pmm_wf p -> 0 < count -> pmm_alloc_blocks count p = (a, p') ->
  pmm_wf p' /\ same_frame p p' /\
  exists r, a = block_ptr p r /\
    alloc_spec count (if count =? 1 then scan_limit p else p.(pmm_total_blocks))
      (used_set p) r (used_set p').
Proof.
  intros W Hc. pose proof (wf_total _ W) as Ht. unfold pmm_alloc_blocks.
  destruct (count =? 0) eqn:E0; bool_hyps; [lia|].
  destruct (count =? 1) eqn:E1; bool_hyps; [subst; by apply alloc_block_refines|].
  unfold pmm_find_first_free_sequence.
  destruct (count =? 0) eqn:E0'; bool_hyps; [lia|].
  destruct (count =? 1) eqn:E1'; bool_hyps; [lia|].
  destruct (sequence_scan_spec p count (Z.to_nat (pmm_total_blocks p)) 0 0 0)
    as [[-> Hno]|(Hr0 & Hr1 & Hrun & Hmin)];
    try done; try lia; try (intros ? ?; lia).
  - intros [= <- <-]. repeat split; [apply W..|]. exists None. split; [done|]. constructor.
    intros s ? ?. apply not_free_run; auto.
  - set (r := sequence_scan _ _ _ _ _ _) in *. destruct (r <? 0) eqn:Er; bool_hyps; [lia|].
    intros [= <- <-]. replace count with (Z.of_nat (Z.to_nat count)) in Hrun by lia.
    destruct (acquire_run p r (Z.to_nat count)) as (W' & F' & U'); try done; try lia.
    split; [exact W'|]. split; [exact F'|]. exists (Some r). split.
    + destruct F' as (_ & Eh & _). unfold acquire in Eh. cbn in Eh. cbn. rewrite Eh.
      apply block_addr_exact; [done|lia].
    + change (for_loop (Z.to_nat count) 0 _ p) with (for_loop (Z.to_nat count) 0 (fun i p => acquire (r + i) p) p).
      rewrite U', Z2Nat.id by lia. rewrite Z2Nat.id in Hrun by lia. constructor; try lia.
      * intros c Hcr. rewrite elem_of_used_set. intros [_ Hu]. rewrite Hrun in Hu by done. done.
      * intros s Hs. apply not_free_run; [lia|lia|by apply Hmin].
Qed.

(** ** Freeing *)

Lemma free_step_spec p b :
  pmm_wf p -> 0 <= b ->
  let p' := if (b <? p.(pmm_total_blocks)) && negb (bitmap_test p b =? 0) then release b p else p in
  pmm_wf p' /\ same_frame p p' /\ used_set p' = used_set p ∖ {[b]}.
Proof.
  intros W Hb p'. pose proof (wf_total _ W). subst p'.
  destruct (b <? pmm_total_blocks p) eqn:E; bool_hyps; cbn [andb].
  - rewrite bitmap_test_used by lia. destruct (block_used p b) eqn:Eu; cbn [b2z].
    + split; [by apply release_wf|]. split; [apply release_frame|]. by apply used_set_release.
    + split; [done|]. split; [done|]. change (0 =? 0) with true. cbn [negb].
      apply set_eq. intros c. rewrite elem_of_difference, elem_of_singleton, elem_of_used_set.
      split; [intros [? Hu]; repeat split; [lia..|done|congruence]|tauto].
  - split; [done|]. split; [done|]. apply set_eq. intros c.
    rewrite elem_of_difference, elem_of_singleton, elem_of_used_set.
    split; [intros [? Hu]; repeat split; [lia..|done|lia]|tauto].
Qed.

(** The block index that the free operations compute from a pointer. *)
Definition ptr_block (p : pmm) (ptr : Z) : Z := PMM_ADDR_TO_BLOCK (pmm_virt_to_phys p ptr).

Lemma ptr_block_range p ptr : 0 <= ptr_block p ptr < 2 ^ 52.
Proof.
  unfold ptr_block, PMM_ADDR_TO_BLOCK, pmm_virt_to_phys, PMM_BLOCK_SIZE.
  pose proof (u64_range (ptr - pmm_hhdm_offset p)). change (2 ^ 52) with (2 ^ 64 / 4096). widths. lia.
Qed.

Lemma free_block_spec p ptr :
  pmm_wf p ->
  let p' := pmm_free_block ptr p in
  pmm_wf p' /\ same_frame p p' /\ used_set p' = used_set p ∖ {[ptr_block p ptr]}.
Proof.
  intros W p'. pose proof (free_step_spec p (ptr_block p ptr) W) as H.
  pose proof (ptr_block_range p ptr).
  subst p'. unfold pmm_free_block. fold (pmm_virt_to_phys p ptr) (ptr_block p ptr).
  destruct (pmm_total_blocks p <=? ptr_block p ptr) eqn:E.
  - rewrite (proj2 (Z.ltb_ge _ _)) in H by (bool_hyps; done). apply H. lia.
  - rewrite (proj2 (Z.ltb_lt _ _)) in H by (bool_hyps; done). apply H. lia.
Qed.

Lemma free_blocks_spec p ptr count :
  pmm_wf p -> ptr <> NULL -> 0 <= count < 2 ^ 63 ->
  let p' := pmm_free_blocks ptr count p in
  pmm_wf p' /\ same_frame p p' /\
  used_set p' = used_set p ∖ list_to_set (seqZ (ptr_block p ptr) count).
Proof.
  intros W Hptr Hc p'. pose proof (ptr_block_range p ptr) as Hr. subst p'. unfold pmm_free_blocks.
  destruct (count =? 0) eqn:E0; bool_hyps; cbn [orb].
  { subst. split; [done|]. split; [done|]. rewrite seqZ_nil by lia. set_solver. }
  rewrite (proj2 (Z.eqb_neq _ _)) by done. fold (pmm_virt_to_phys p ptr) (ptr_block p ptr).
  set (s := ptr_block p ptr) in *. set (body := fun i p => _).
  set (P := fun k q => pmm_wf q /\ same_frame p q /\ used_set q = used_set p ∖ list_to_set (seqZ s k)).
  enough (P (0 + Z.of_nat (Z.to_nat count)) (for_loop (Z.to_nat count) 0 body p)) as HP.
  { unfold P in HP. by rewrite Z2Nat.id, Z.add_0_l in HP by lia. }
  apply (for_loop_ind P).
  - split; [done|]. split; [done|]. rewrite seqZ_nil by lia. set_solver.
  - intros k q Hk (Wq & Fq & Uq).
    assert (u64 (s + k) = s + k) as Hu by (apply u64_small; split; [lia|];
      change (2 ^ 52) with 4503599627370496 in *; change (2 ^ 63) with 9223372036854775808 in *; pow2; lia).
    unfold body. rewrite Hu. destruct (free_step_spec q (s + k) Wq) as (W' & F' & U'); [lia|].
    split; [exact W'|]. split; [etrans; eassumption|].
    etrans; [exact U'|]. rewrite Uq, seqZ_app, list_to_set_app_L by lia.
    change (seqZ (s + k) 1) with [s + k]. set_solver.
Qed.

(** A well-formed state is determined by its frame and its set of used blocks. *)
Lemma pmm_ext p q :
  pmm_wf p -> pmm_wf q -> same_frame p q -> used_set p = used_set q -> p = q.
Proof.
  intros Wp Wq (Et & Eh & Em) Hu.
  assert (Hbits : forall b, 0 <= b < PMM_MAX_BLOCKS -> block_used p b = block_used q b).
  { intros b Hb. destruct (decide (b < pmm_total_blocks p)).
    - assert (Hiff : 0 <= b < pmm_total_blocks p /\ block_used p b = true <->
                     0 <= b < pmm_total_blocks p /\ block_used q b = true)
        by (by rewrite <- elem_of_used_set, Hu, elem_of_used_set, Et).
      apply eq_true_iff_eq. assert (0 <= b < pmm_total_blocks p) by lia. tauto.
    - rewrite (wf_tail _ Wp), (wf_tail _ Wq) by lia. done. }
  assert (Hbm : pmm_bitmap p = pmm_bitmap q).
  { pose proof (wf_len _ Wp). pose proof (wf_len _ Wq). apply rd_ext; [congruence|].
    intros i Hi. rewrite !rd_rd0 by lia. f_equal.
    pose proof (rd0_u8 _ i (wf_bytes _ Wp)). pose proof (rd0_u8 _ i (wf_bytes _ Wq)).
    rewrite <- (u8_small (rd0 (pmm_bitmap p) i)), <- (u8_small (rd0 (pmm_bitmap q) i)) by done.
    apply Z.bits_inj'. intros k Hk. destruct (decide (k < 8)).
    - rewrite !testbit_u8 by lia. specialize (Hbits (i * 8 + k)). unfold block_used in Hbits.
      replace ((i * 8 + k) / 8) with i in Hbits by lia.
      replace ((i * 8 + k) mod 8) with k in Hbits by lia. apply Hbits.
      pmm_consts. lia.
    - unfold u8. by rewrite !Z.mod_pow2_bits_high by lia. }
  pose proof (wf_used _ Wp). pose proof (wf_used _ Wq).
  destruct p, q; cbn in *. f_equal; congruence.
Qed.

(** ** Initialisation *)

(** A memory map the boot loader hands over: 64-bit fields, no entry wraps. *)
Definition entry_ok (e : limine_memmap_entry) : Prop :=
  0 <= e.(e_base) /\ 0 <= e.(e_length) /\ e.(e_base) + e.(e_length) < 2 ^ 64 - PMM_BLOCK_SIZE.

(** Block [b] lies entirely inside the usable entry [e]. *)
Definition covers (e : limine_memmap_entry) (b : Z) : Prop :=
  e.(e_type) = LIMINE_MEMMAP_USABLE /\ e.(e_base) <= b * PMM_BLOCK_SIZE /\
  (b + 1) * PMM_BLOCK_SIZE <= e.(e_base) + e.(e_length).

Lemma align_up_spec a :
  0 <= a < 2 ^ 64 - PMM_BLOCK_SIZE ->
  PMM_ALIGN_UP a = (a + 4095) / 4096 * 4096.
Proof.
  unfold PMM_ALIGN_UP, PMM_BLOCK_MASK, PMM_BLOCK_SIZE. intros Ha.
  rewrite u64_small by (widths; lia). change 4096 with (2 ^ 12) at 2.
  rewrite land_align_down by (widths; lia). change (2 ^ 12) with 4096. lia.
Qed.

Lemma align_down_spec a : is_u64 a -> PMM_ALIGN_DOWN a = a / 4096 * 4096.
Proof.
  unfold PMM_ALIGN_DOWN, PMM_BLOCK_MASK, PMM_BLOCK_SIZE. intros Ha.
  change 4096 with (2 ^ 12) at 1. rewrite land_align_down by (widths; lia).
  change (2 ^ 12) with 4096. lia.
Qed.

Lemma mark_region_free_spec p base length :
  pmm_wf p -> 0 <= base -> 0 <= length ->
  let s := base / 4096 in let n := length / 4096 in
  s + n <= p.(pmm_total_blocks) ->
  let p' := pmm_mark_region_free base length p in
  pmm_wf p' /\ same_frame p p' /\ used_set p' = used_set p ∖ list_to_set (seqZ s n).
Proof.
  intros W Hb Hl s n Hle p'. pose proof (wf_total _ W). subst p'.
  unfold pmm_mark_region_free, PMM_ADDR_TO_BLOCK, PMM_BLOCK_SIZE. fold s n. set (body := fun i p => _).
  set (P := fun k q => pmm_wf q /\ same_frame p q /\ used_set q = used_set p ∖ list_to_set (seqZ s k)).
  enough (P (0 + Z.of_nat (Z.to_nat n)) (for_loop (Z.to_nat n) 0 body p)) as HP.
  { unfold P in HP. by rewrite Z2Nat.id, Z.add_0_l in HP by lia. }
  apply (for_loop_ind P).
  - split; [done|]. split; [done|]. rewrite seqZ_nil by lia. set_solver.
  - intros k q Hk (Wq & Fq & Uq). pose proof Fq as (Et & _). unfold body.
    destruct (free_step_spec q (s + k) Wq) as (W' & F' & U'); [lia|].
    rewrite (proj2 (Z.ltb_lt (s + k) (pmm_total_blocks q))) in W', F', U' by lia.
    rewrite (proj2 (Z.ltb_lt (s + k) PMM_MAX_BLOCKS)) by lia.
    split; [exact W'|]. split; [etrans; eassumption|].
    etrans; [exact U'|]. rewrite Uq, seqZ_app, list_to_set_app_L by lia.
    change (seqZ (s + k) 1) with [s + k]. set_solver.
Qed.

Lemma release_region_spec p aligned len :
  pmm_wf p -> 0 <= aligned -> is_u64 len ->
  aligned / 4096 + len / 4096 <= p.(pmm_total_blocks) ->
  let p' := let length := PMM_ALIGN_DOWN len in
            if PMM_BLOCK_SIZE <=? length then pmm_mark_region_free aligned length p else p in
  pmm_wf p' /\ same_frame p p' /\
  forall b, b ∈ used_set p' <-> b ∈ used_set p /\ ~ (aligned / 4096 <= b < aligned / 4096 + len / 4096).
Proof.
  intros W Ha Hl Hle p'. subst p'. cbv zeta. rewrite align_down_spec by done.
  unfold PMM_BLOCK_SIZE. unfold is_u64 in Hl. destruct (4096 <=? _) eqn:E; bool_hyps.
  - pose proof (mark_region_free_spec p aligned (len / 4096 * 4096) W) as H. cbv zeta in H.
    rewrite Z.div_mul in H by lia. destruct H as (W' & F' & U'); [lia..|].
    split; [done|]. split; [done|]. intros b.
    rewrite U', elem_of_difference, elem_of_list_to_set, elem_of_seqZ. done.
  - split; [done|]. split; [done|]. intros b. intuition lia.
Qed.

Lemma init_free_entry_spec p e :
  pmm_wf p -> entry_ok e ->
  (e.(e_base) < PMM_MAX_MEMORY ->
   Z.min (e.(e_base) + e.(e_length)) PMM_MAX_MEMORY / 4096 <= p.(pmm_total_blocks)) ->
  let p' := init_free_entry e p in
  pmm_wf p' /\ same_frame p p' /\
  forall b, b ∈ used_set p' <-> b ∈ used_set p /\ ~ covers e b.
Proof.
  intros W (Hb & Hl & Hw) Hfit p'. subst p'. pose proof (wf_total _ W) as Ht.
  assert (Hrange : forall b, b ∈ used_set p -> 0 <= b < PMM_MAX_BLOCKS)
    by (intros b [? _]%elem_of_used_set; lia).
  assert (Hskip : (forall b, b ∈ used_set p -> ~ covers e b) ->
    pmm_wf p /\ same_frame p p /\ forall b, b ∈ used_set p <-> b ∈ used_set p /\ ~ covers e b)
    by (intros Hn; split; [done|]; split; [done|]; intros b; specialize (Hn b); tauto).
  unfold init_free_entry. rewrite u64_small by (unfold PMM_BLOCK_SIZE in *; widths; lia).
  rewrite align_up_spec by lia. unfold covers in *.
  rewrite PMM_MAX_MEMORY_eq, PMM_MAX_BLOCKS_eq in *. unfold PMM_BLOCK_SIZE in *.
  destruct (4294967296 <=? e_base e) eqn:E1; bool_hyps.
  { apply Hskip. intros b Hin%Hrange. lia. }
  destruct (e_type e =? LIMINE_MEMMAP_USABLE) eqn:E2; bool_hyps.
  2: { apply Hskip. intros b _ [? _]. done. }
  set (len1 := if _ <? _ then _ else _).
  assert (Hlen1 : e_base e + len1 = Z.min (e_base e + e_length e) 4294967296)
    by (unfold len1; case_if; lia).
  set (al := (e_base e + 4095) / 4096 * 4096) in *. cbv zeta.
  destruct ((e_base e <? al) && (al - e_base e <? len1)) eqn:E3; [|destruct (e_base e <? al) eqn:E4]; bool_hyps.
  - destruct (release_region_spec p al (len1 - (al - e_base e)) W) as (W' & F' & U');
      [lia|widths; lia|lia|].
    split; [exact W'|]. split; [exact F'|]. intros b. rewrite (U' b).
    split; intros [Hin Hn]; (split; [done|]); specialize (Hrange b Hin); lia.
  - apply Hskip. intros b Hin%Hrange. rewrite andb_true_l in E3. bool_hyps. lia.
  - destruct (release_region_spec p al len1 W) as (W' & F' & U'); [lia|widths; lia|lia|].
    split; [exact W'|]. split; [exact F'|]. intros b. rewrite (U' b).
    split; intros [Hin Hn]; (split; [done|]); specialize (Hrange b Hin); lia.
Qed.

Lemma max_entry_end_bound entries e :
  Forall entry_ok entries -> e ∈ entries -> e.(e_base) + e.(e_length) <= max_entry_end entries.
Proof.
  unfold max_entry_end. generalize 0 as a. intros a Hok Hin. revert a.
  assert (Hmono : forall l a, a <= fold_left (fun size e =>
      let entry_end := u64 (e_base e + e_length e) in
      if size <? entry_end then entry_end else size) l a).
  { induction l as [|x l IH]; intros a; cbn; [lia|]. etrans; [|apply IH].
    cbv zeta. case_if; lia. }
  induction Hok as [|x l Hx Hok IH]; [by apply not_elem_of_nil in Hin|].
  intros a. cbn [fold_left]. apply elem_of_cons in Hin as [->|Hin]; [|by apply IH].
  etrans; [|apply Hmono]. cbv zeta. destruct Hx as (? & ? & ?).
  rewrite u64_small by (unfold PMM_BLOCK_SIZE in *; widths; lia). case_if; lia.
Qed.

(** The freeing pass over the whole memory map. *)
Lemma init_entries_spec entries p :
  pmm_wf p -> Forall entry_ok entries ->
  (forall e, e ∈ entries -> e.(e_base) < PMM_MAX_MEMORY ->
   Z.min (e.(e_base) + e.(e_length)) PMM_MAX_MEMORY / 4096 <= p.(pmm_total_blocks)) ->
  let p' := fold_left (fun p e => init_free_entry e p) entries p in
  pmm_wf p' /\ same_frame p p' /\
  forall b, b ∈ used_set p' <-> b ∈ used_set p /\ ~ exists e, e ∈ entries /\ covers e b.
Proof.
  intros W Hok. revert p W. induction Hok as [|e l He Hok IH]; intros p W Hfit; cbn [fold_left].
  - split; [done|]. split; [done|]. intros b. split; [|tauto].
    intros H. split; [done|]. intros (e & Hin & _). by apply not_elem_of_nil in Hin.
  - destruct (init_free_entry_spec p e W He) as (W1 & F1 & U1); [by apply Hfit, list_elem_of_here|].
    destruct (IH (init_free_entry e p) W1) as (W2 & F2 & U2).
    { intros e' Hin. destruct F1 as [-> _]. apply Hfit. by apply list_elem_of_further. }
    split; [exact W2|]. split; [etrans; eassumption|]. intros b. rewrite (U2 b), (U1 b).
    setoid_rewrite elem_of_cons. naive_solver.
Qed.

Lemma mark_region_used_spec p n :
  pmm_wf p -> 0 <= n <= PMM_MAX_BLOCKS ->
  let p' := pmm_mark_region_used 0 (n * 4096) p in
  pmm_wf p' /\ same_frame p p' /\
  forall b, b ∈ used_set p' <-> b ∈ used_set p \/ 0 <= b < Z.min n p.(pmm_total_blocks).
Proof.
  intros W Hn p'. pose proof (wf_total _ W) as Ht. subst p'. unfold pmm_mark_region_used.
  rewrite align_up_spec by (unfold PMM_BLOCK_SIZE; pmm_consts; pow2; lia).
  replace ((n * 4096 + 4095) / 4096 * 4096 / PMM_BLOCK_SIZE) with n by (unfold PMM_BLOCK_SIZE; lia).
  change (PMM_ADDR_TO_BLOCK 0) with 0. cbv zeta. set (body := fun i p => _).
  set (P := fun k q => pmm_wf q /\ same_frame p q /\
    forall b, b ∈ used_set q <-> b ∈ used_set p \/ 0 <= b < Z.min k p.(pmm_total_blocks)).
  enough (P (0 + Z.of_nat (Z.to_nat n)) (for_loop (Z.to_nat n) 0 body p)) as HP.
  { unfold P in HP. by rewrite Z2Nat.id, Z.add_0_l in HP by lia. }
  apply (for_loop_ind P).
  - split; [done|]. split; [done|]. intros b. intuition lia.
  - intros k q Hk (Wq & Fq & Uq). pose proof Fq as (Et & _). unfold body.
    rewrite Z.add_0_l. rewrite (proj2 (Z.ltb_lt k PMM_MAX_BLOCKS)) by lia.
    rewrite bitmap_test_used by lia. cbn [andb].
    destruct (block_used q k) eqn:Eu; cbn [b2z].
    + change (1 =? 0) with false. split; [done|]. split; [done|]. intros b. rewrite (Uq b).
      destruct (decide (b = k /\ b < pmm_total_blocks q)) as [[-> ?]|]; [|intuition lia].
      assert (Hin : k ∈ used_set q) by (apply elem_of_used_set; split; [lia|done]).
      apply Uq in Hin. intuition lia.
    + change (0 =? 0) with true. cbn iota.
      assert (k < pmm_total_blocks q).
      { apply Z.nle_gt. intros ?. rewrite (wf_tail _ Wq) in Eu by lia. done. }
      fold (acquire k q).
      split; [apply acquire_wf; try done; lia|]. split; [etrans; [done|apply acquire_frame]|].
      intros b. rewrite used_set_acquire by (done || lia).
      rewrite elem_of_union, elem_of_singleton, (Uq b). intuition lia.
Qed.

(** The state right after the bitmap is filled with ones. *)
Lemma fresh_wf total size h :
  0 <= total <= PMM_MAX_BLOCKS -> 0 < h /\ h + PMM_MAX_MEMORY <= 2 ^ 64 ->
  let p := mk_pmm (replicate (Z.to_nat PMM_BITMAP_SIZE) 255) total total size h in
  pmm_wf p /\ forall b, b ∈ used_set p <-> 0 <= b < total.
Proof.
  intros Ht Hh p.
  assert (Hbit : forall b, 0 <= b < PMM_MAX_BLOCKS -> block_used p b = true).
  { intros b Hb. unfold block_used, p, rd0, rd. cbn [pmm_bitmap].
    pose proof (block_index b Hb) as Hi. rewrite (proj2 (Z.leb_le 0 (b / 8))) by lia.
    rewrite lookup_replicate_2 by lia. cbn [default].
    assert (b mod 8 = 0 \/ b mod 8 = 1 \/ b mod 8 = 2 \/ b mod 8 = 3 \/
        b mod 8 = 4 \/ b mod 8 = 5 \/ b mod 8 = 6 \/ b mod 8 = 7) as Hm by lia.
    destruct Hm as [->|[->|[->|[->|[->|[->|[->| ->]]]]]]]; reflexivity. }
  assert (Hset : forall b, b ∈ used_set p <-> 0 <= b < total).
  { intros b. rewrite elem_of_used_set. change (pmm_total_blocks p) with total.
    split; [tauto|]. intros. split; [done|]. apply Hbit. lia. }
  split; [|exact Hset].
  assert (Hl : zlen (replicate (Z.to_nat PMM_BITMAP_SIZE) 255) = PMM_BITMAP_SIZE)
    by (unfold zlen; rewrite length_replicate; pmm_consts; lia).
  assert (Hby : Forall is_u8 (replicate (Z.to_nat PMM_BITMAP_SIZE) 255))
    by (apply Forall_replicate; widths; lia).
  split; [exact Hl|exact Hby|exact Ht| |intros b Hb; apply Hbit|exact Hh].
  - change (pmm_used_blocks p) with total. replace (used_set p) with (list_to_set (seqZ 0 total) : gset Z).
    + rewrite size_list_to_set, length_seqZ by apply NoDup_seqZ. lia.
    + apply set_eq. intros b. rewrite Hset, elem_of_list_to_set, elem_of_seqZ. lia.
  - change (pmm_total_blocks p) with total in Hb. lia.
Qed.

Lemma init_spec entries h p0 :
  entries <> [] -> Forall entry_ok entries -> 0 < h /\ h + PMM_MAX_MEMORY <= 2 ^ 64 ->
  let p := init_pmm_limine (Some entries) h p0 in
  pmm_wf p /\
  p.(pmm_hhdm_offset) = h /\
  p.(pmm_total_blocks) = Z.min (max_entry_end entries) PMM_MAX_MEMORY / 4096 /\
  forall b, 0 <= b < p.(pmm_total_blocks) ->
    (b ∉ used_set p <-> 256 <= b /\ exists e, e ∈ entries /\ covers e b).
Proof.
  intros Hne Hok Hh p. subst p. unfold init_pmm_limine.
  destruct entries as [|e0 l0]; [done|]. set (entries := e0 :: l0) in *.
  set (size := if _ <? _ then _ else _). set (total := size / PMM_BLOCK_SIZE).
  assert (Hpos : 0 <= max_entry_end entries).
  { pose proof (max_entry_end_bound entries e0 Hok) as Hm.
    destruct (Forall_inv Hok) as (?&?&?). specialize (Hm (list_elem_of_here _ _)). lia. }
  assert (Hsize : size = Z.min (max_entry_end entries) PMM_MAX_MEMORY)
    by (unfold size; case_if; lia).
  assert (Htot : 0 <= total <= PMM_MAX_BLOCKS)
    by (unfold total, PMM_BLOCK_SIZE; pmm_consts; lia).
  destruct (fresh_wf total size h Htot Hh) as [W0 U0].
  destruct (init_entries_spec entries _ W0 Hok) as (W1 & F1 & U1).
  { cbn [pmm_total_blocks]. intros e Hin _. unfold total, PMM_BLOCK_SIZE. rewrite Hsize.
    pose proof (max_entry_end_bound entries e Hok Hin). apply Z.div_le_mono; lia. }
  set (p1 := fold_left _ _ _) in *.
  destruct (mark_region_used_spec p1 256 W1) as (W2 & F2 & U2); [pmm_consts; lia|].
  change (256 * 4096) with 0x100000 in *.
  pose proof F1 as (E1 & H1 & _). pose proof F2 as (E2 & H2 & _).
  cbn [pmm_total_blocks pmm_hhdm_offset] in E1, H1. clearbody p1.
  split; [done|]. rewrite E2, H2, E1, H1. split; [done|].
  split; [unfold total, PMM_BLOCK_SIZE; by rewrite Hsize|].
  intros b Hb. rewrite (U2 b), (U1 b), (U0 b), E1.
  split.
  - intros Hn. assert (256 <= b) by (apply Z.nlt_ge; intros ?; apply Hn; right; lia).
    split; [done|].
    destruct (decide (Exists (fun e => e_type e = LIMINE_MEMMAP_USABLE /\
      (e_base e <= b * PMM_BLOCK_SIZE /\ (b + 1) * PMM_BLOCK_SIZE <= e_base e + e_length e)) entries))
      as [Hex|Hnex].
    + apply list.Exists_exists in Hex as (e & Hin & ? & ?). exists e. unfold covers. tauto.
    + destruct Hn. left. split; [done|]. intros (e & Hin & Hc). apply Hnex.
      apply list.Exists_exists. exists e. split; [done|]. destruct Hc as (? & ? & ?). auto.
  - intros [Hge Hex] [[_ Hn]|?]; [by apply Hn|lia].
Qed.

(** ** Clients

    The operations a running kernel performs on the allocator, in any order.
    Frees are of arbitrary pointers: the source does not check ownership. *)
Inductive pmm_step : pmm -> pmm -> Prop :=
| step_alloc_block p : pmm_step p (pmm_alloc_block p).2
| step_alloc_blocks p n : 0 <= n < 2 ^ 63 -> pmm_step p (pmm_alloc_blocks n p).2
| step_free_block p ptr : pmm_step p (pmm_free_block ptr p)
| step_free_blocks p ptr n : 0 <= n < 2 ^ 63 -> pmm_step p (pmm_free_blocks ptr n p).

Lemma pmm_step_wf p q : pmm_wf p -> pmm_step p q -> pmm_wf q /\ same_frame p q.
Proof.
  intros W Hs. destruct Hs as [p|p n Hn|p ptr|p ptr n Hn].
  - destruct (pmm_alloc_block p) eqn:E. destruct (alloc_block_refines _ _ _ W E) as (? & ? & _). done.
  - destruct (decide (n = 0)) as [->|]; [done|]. destruct (pmm_alloc_blocks n p) eqn:E.
    destruct (alloc_blocks_cases p n _ _ W ltac:(lia) E) as (? & ? & _). done.
  - destruct (free_block_spec p ptr W) as (? & ? & _). done.
  - destruct (decide (ptr = NULL)) as [->|].
    + unfold pmm_free_blocks. rewrite Z.eqb_refl, orb_true_r. done.
    + destruct (free_blocks_spec p ptr n W) as (? & ? & _); done.
Qed.

Lemma pmm_steps_wf p q : rtc pmm_step p q -> pmm_wf p -> pmm_wf q /\ same_frame p q.
Proof.
  induction 1 as [p|p q r Hs _ IH]; intros W; [done|].
  destruct (pmm_step_wf _ _ W Hs) as [W' F']. destruct (IH W') as [W'' F''].
  split; [done|]. etrans; eassumption.
Qed.

Lemma ptr_block_of_block p b :
  pmm_wf p -> 0 <= b < p.(pmm_total_blocks) -> ptr_block p (block_ptr p (Some b)) = b.
Proof.
  intros W Hb. pose proof (wf_total _ W). unfold ptr_block, pmm_virt_to_phys, block_ptr, PMM_ADDR_TO_BLOCK.
  rewrite Z.add_simpl_r. unfold PMM_BLOCK_SIZE. pmm_consts.
  rewrite u64_small by (widths; lia). lia.
Qed.

(** Freeing the run that an allocation returned undoes it. *)
Lemma alloc_free_inverse p count a p' :
  pmm_wf p -> 0 < count -> pmm_alloc_blocks count p = (a, p') -> a <> NULL ->
  pmm_free_blocks a count p' = p.
Proof.
  intros W Hc Hal Hnn. pose proof (wf_total _ W).
  destruct (alloc_blocks_cases p count a p' W Hc Hal) as (W' & F' & r & -> & Hspec).
  destruct r as [s|]; [|done]. inversion Hspec as [|s' Hs Hle Hfree _ Es Eu]; subst.
  assert (Hlim : s + count <= pmm_total_blocks p)
    by (unfold scan_limit in Hle; case_if_in Hle; lia).
  pose proof F' as (Et & Eh & Em).
  destruct (free_blocks_spec p' (block_ptr p (Some s)) count W' Hnn) as (W'' & F'' & U'').
  { pmm_consts. change (2 ^ 63) with 9223372036854775808. lia. }
  apply pmm_ext; [done..| |].
  - destruct F'' as (? & ? & ?). split; [congruence|]. split; congruence.
  - rewrite U''. unfold block_ptr. rewrite <- Eh. fold (block_ptr p' (Some s)).
    rewrite ptr_block_of_block by (done || lia). rewrite <- Eu. apply set_eq. intros c.
    rewrite elem_of_difference, elem_of_union, elem_of_list_to_set, elem_of_seqZ.
    specialize (Hfree c). split; [tauto|]. intros Hin. split; [by left|]. intros ?.
    by apply Hfree.
Qed.

(** ** Concrete boot used by the witnesses: 2 MiB of memory, the second half
    usable, mapped at the usual direct-map offset. *)
Definition demo_map : list limine_memmap_entry :=
  [mk_entry 0 0x100000 1; mk_entry 0x100000 0x100000 0].
Definition demo_hhdm : Z := 0xffff800000000000.
Definition demo_pmm : pmm :=
  init_pmm_limine (Some demo_map) demo_hhdm (mk_pmm [] 0 0 0 0).

Lemma demo_map_ok : Forall entry_ok demo_map.
Proof.
  repeat constructor; unfold entry_ok, PMM_BLOCK_SIZE; cbn [e_base e_length]; lia.
Defined.
Lemma demo_hhdm_ok : 0 < demo_hhdm /\ demo_hhdm + PMM_MAX_MEMORY <= 2 ^ 64.
Proof. by vm_compute. Qed.
Lemma demo_pmm_wf : pmm_wf demo_pmm.
Proof. by apply init_spec; [|apply demo_map_ok|apply demo_hhdm_ok]. Qed.

(** Keep unification from running the allocator. *)
#[local] Opaque init_pmm_limine pmm_alloc_block pmm_alloc_blocks.

(** ** Properties *)



(** From boot, whatever sequence of allocations and frees runs, the state
    stays well formed and the counters are exact: the used counter is the
    number of marked blocks, and used plus free is the number of blocks. *)
Theorem pmm_reachable_accounting entries h p0 p :
  entries <> [] -> Forall entry_ok entries -> 0 < h /\ h + PMM_MAX_MEMORY <= 2 ^ 64 ->
  rtc pmm_step (init_pmm_limine (Some entries) h p0) p ->
  pmm_wf p /\ pmm_get_used_blocks p = Z.of_nat (size (used_set p)) /\
  pmm_get_free_blocks p + pmm_get_used_blocks p = pmm_get_total_blocks p /\
  pmm_get_free_memory p = 4096 * (pmm_get_total_blocks p - pmm_get_used_blocks p).
Proof.
  intros Hne Hok Hh Hsteps. destruct (init_spec entries h p0 Hne Hok Hh) as (W0 & _).
  destruct (pmm_steps_wf _ _ Hsteps W0) as [W _]. split; [done|].
  pose proof (wf_total _ W). pose proof (used_set_size_bound p). pose proof (wf_used _ W).
  unfold pmm_get_free_memory, pmm_get_free_blocks, pmm_get_used_blocks, pmm_get_total_blocks, PMM_BLOCK_SIZE.
  pmm_consts. rewrite !u64_small by (rewrite ?u64_small; widths; lia). lia.
Qed.

Lemma pmm_reachable_accounting_witness :
  pmm_get_free_blocks (pmm_alloc_block demo_pmm).2 +
  pmm_get_used_blocks (pmm_alloc_block demo_pmm).2 =
  pmm_get_total_blocks (pmm_alloc_block demo_pmm).2.
Proof.
  apply (pmm_reachable_accounting demo_map demo_hhdm (mk_pmm [] 0 0 0 0) (pmm_alloc_block demo_pmm).2);
    [discriminate|exact demo_map_ok|exact demo_hhdm_ok|].
  apply rtc_once, step_alloc_block.
Defined.

(** Round trip: freeing the pointer an allocation returned, with the same
    count, gives back exactly the state before the allocation. *)
Theorem pmm_alloc_free_roundtrip p count :
  pmm_wf p -> 0 < count -> (pmm_alloc_blocks count p).1 <> NULL ->
  pmm_free_blocks (pmm_alloc_blocks count p).1 count (pmm_alloc_blocks count p).2 = p.
Proof.
  intros W Hc Hn. destruct (pmm_alloc_blocks count p) as [a p'] eqn:E.
  by apply (alloc_free_inverse p count a p').
Qed.

Lemma pmm_alloc_free_roundtrip_witness :
  pmm_free_blocks (pmm_alloc_blocks 5 demo_pmm).1 5 (pmm_alloc_blocks 5 demo_pmm).2 = demo_pmm.
Proof. apply (pmm_alloc_free_roundtrip demo_pmm 5); [exact demo_pmm_wf|lia|by vm_compute]. Defined.

(** After boot a block is free exactly when it lies entirely inside one
    usable region of the memory map and above the first MiB: reserved memory
    is never offered and no whole usable block is lost. *)
Theorem pmm_init_free_iff entries h p0 b :
  entries <> [] -> Forall entry_ok entries -> 0 < h /\ h + PMM_MAX_MEMORY <= 2 ^ 64 ->
  0 <= b < Z.min (max_entry_end entries) PMM_MAX_MEMORY / 4096 ->
  b ∉ used_set (init_pmm_limine (Some entries) h p0) <->
  256 <= b /\ exists e, e ∈ entries /\ covers e b.
Proof.
  intros Hne Hok Hh Hb. destruct (init_spec entries h p0 Hne Hok Hh) as (_ & _ & Et & Hiff).
  apply Hiff. by rewrite Et.
Qed.

Lemma pmm_init_free_iff_witness :
  300 ∉ used_set demo_pmm <-> 256 <= 300 /\ exists e, e ∈ demo_map /\ covers e 300.
Proof.
  apply (pmm_init_free_iff demo_map demo_hhdm (mk_pmm [] 0 0 0 0) 300);
    [discriminate|exact demo_map_ok|exact demo_hhdm_ok|by vm_compute].
Defined.

(** The byte-wise scan stops at the last whole byte: when every free block
    is among the last [total mod 8] ones, [pmm_alloc_block] reports that
    memory is exhausted although [pmm_get_free_blocks] is positive. *)
Theorem pmm_alloc_block_misses_tail p b :
  pmm_wf p -> (forall c, 0 <= c < scan_limit p -> c ∈ used_set p) ->
  scan_limit p <= b < p.(pmm_total_blocks) -> b ∉ used_set p ->
  pmm_alloc_block p = (NULL, p) /\ 0 < pmm_get_free_blocks p.
Proof.
  intros W Hall Hb Hfree. pose proof (wf_total _ W).
  assert (Hlt : pmm_used_blocks p < pmm_total_blocks p).
  { apply Z.nle_gt. intros Hle. apply Hfree, used_set_full; try done. unfold scan_limit in Hb. lia. }
  split.
  - destruct (pmm_alloc_block p) as [a p'] eqn:E.
    destruct (alloc_block_cases p a p' W E) as [(-> & -> & _)|(c & _ & _ & Hc & Hf & _)]; [done|].
    apply Hall, elem_of_used_set in Hc as [_ Hu]. congruence.
  - pose proof (wf_used _ W). unfold pmm_get_free_blocks. pmm_consts. rewrite u64_small; widths; lia.
Qed.

(** 260 blocks, of which only the last four are usable. *)
Definition tail_map : list limine_memmap_entry :=
  [mk_entry 0 0x100000 1; mk_entry 0x100000 0x4000 0].
Definition tail_pmm : pmm := init_pmm_limine (Some tail_map) demo_hhdm (mk_pmm [] 0 0 0 0).

Lemma tail_map_ok : Forall entry_ok tail_map.
Proof. repeat constructor; unfold entry_ok, PMM_BLOCK_SIZE; cbn [e_base e_length]; lia. Qed.

Lemma tail_pmm_spec :
  pmm_wf tail_pmm /\ pmm_total_blocks tail_pmm = 260 /\
  (forall c, 0 <= c < 256 -> c ∈ used_set tail_pmm) /\ 256 ∉ used_set tail_pmm.
Proof.
  destruct (init_spec tail_map demo_hhdm (mk_pmm [] 0 0 0 0)) as (W & _ & Et & Hiff);
    [discriminate|apply tail_map_ok|apply demo_hhdm_ok|].
  fold tail_pmm in *. change (Z.min _ _ / 4096) with 260 in Et. rewrite Et in Hiff.
  split; [done|]. split; [done|]. split.
  - intros c Hc. destruct (decide (c ∈ used_set tail_pmm)) as [|Hn]; [done|].
    apply Hiff in Hn; lia.
  - apply Hiff; [lia|]. split; [lia|]. exists (mk_entry 0x100000 0x4000 0). split.
    + apply list_elem_of_further, list_elem_of_here.
    + unfold covers, PMM_BLOCK_SIZE, LIMINE_MEMMAP_USABLE. cbn [e_base e_length e_type]. lia.
Qed.

Lemma pmm_alloc_block_misses_tail_witness :
  pmm_alloc_block tail_pmm = (NULL, tail_pmm) /\ 0 < pmm_get_free_blocks tail_pmm.
Proof.
  destruct tail_pmm_spec as (W & Et & Hall & Hfree).
  apply (pmm_alloc_block_misses_tail tail_pmm 256 W); unfold scan_limit; rewrite ?Et;
    [exact Hall|lia|exact Hfree].
Defined.
