(* ===== verification/Kheap.v ===== *)
(** Kernel heap (src/mm/kheap.c, src/mm/kheap.h).

    The heap is a singly linked list of block headers laid out one after the
    other in the memory the heap owns.  [hdrs] maps the address of a header to
    its fields, [data] holds the bytes of the blocks; a header read at an
    address where none was ever written is [None].  The operations run under
    the heap spinlock, so each is one atomic step. *)
From S2P Require Import Prelude.

(** ** Data *)
Record KHeapBlock := mk_block { size : Z; is_free : bool; next : Z }.
#[export] Instance KHeapBlock_eq_dec : EqDecision KHeapBlock.
Proof. solve_decision. Defined.

Record heap := mk_heap {
  heap_start : Z;
  heap_total_size : Z;
  hdrs : gmap Z KHeapBlock;
  data : gmap Z Z
}.

Definition sizeof_KHeapBlock : Z := 24.
Definition KHEAP_MIN_BLOCK_SIZE : Z := 16.
Definition KHEAP_BLOCK_DATA (block : Z) : Z := u64 (block + sizeof_KHeapBlock).
Definition KHEAP_DATA_BLOCK (ptr : Z) : Z := u64 (ptr - sizeof_KHeapBlock).
Definition MAX_ITERATIONS : nat := Z.to_nat 10000.
#[global] Opaque MAX_ITERATIONS.

Definition set_hdrs (h : heap) (m : gmap Z KHeapBlock) : heap :=
  mk_heap h.(heap_start) h.(heap_total_size) m h.(data).
Definition set_data (h : heap) (d : gmap Z Z) : heap :=
  mk_heap h.(heap_start) h.(heap_total_size) h.(hdrs) d.
Definition heap_end (h : heap) : Z := u64 (h.(heap_start) + h.(heap_total_size)).
Definition in_heap (h : heap) (a : Z) : bool := (h.(heap_start) <=? a) && (a <? heap_end h).

(** ** Operations *)
Definition align8 (size : Z) : Z := Z.land (u64 (size + 7)) (2 ^ 64 - 8).

Definition split_block (block sz : Z) (h : heap) : option heap :=
  b ← h.(hdrs) !! block;
  let remaining := u64 (b.(size) - sz) in
  let min_split_size := sizeof_KHeapBlock + KHEAP_MIN_BLOCK_SIZE in
  if min_split_size <=? remaining then
    let new_block := u64 (block + sizeof_KHeapBlock + sz) in
    let m := <[new_block := mk_block (remaining - sizeof_KHeapBlock) true b.(next)]> h.(hdrs) in
    b ← m !! block;
    Some (set_hdrs h (<[block := mk_block sz b.(is_free) new_block]> m))
  else Some h.

(** The recursion absorbs one block per call; [fuel] bounds its depth. *)
Fixpoint coalesce_block (fuel : nat) (block : Z) (h : heap) : option heap :=
  match fuel with
  | O => None
  | S fuel' =>
      if block =? NULL then Some h
      else
        b ← h.(hdrs) !! block;
        if b.(next) =? NULL then Some h
        else if negb (in_heap h b.(next)) then
          Some (set_hdrs h (<[block := mk_block b.(size) b.(is_free) NULL]> h.(hdrs)))
        else
          n ← h.(hdrs) !! b.(next);
          if n.(is_free) then
            coalesce_block fuel' block (set_hdrs h
              (<[block := mk_block (u64 (b.(size) + (sizeof_KHeapBlock + n.(size)))) b.(is_free) n.(next)]> h.(hdrs)))
          else Some h
  end.

(** [heap_start] and [heap_total_size] are 0 before initialisation. *)
Definition kheap_init (start_addr size_bytes : Z) (h : heap) : heap :=
  if (start_addr =? NULL) || (size_bytes <? sizeof_KHeapBlock + KHEAP_MIN_BLOCK_SIZE) then h
  else mk_heap start_addr size_bytes
         (<[start_addr := mk_block (size_bytes - sizeof_KHeapBlock) true NULL]> h.(hdrs)) h.(data).

(** More steps than there are headers: enough to walk any acyclic list. *)
Definition walk_fuel (h : heap) : nat := S (base.size h.(hdrs)).

(** First-fit walk of [kmalloc] from [current]. *)
Fixpoint kmalloc_walk (fuel : nat) (current sz : Z) (h : heap) : option (Z * heap) :=
  match fuel with
  | O => None
  | S fuel' =>
      if current =? NULL then Some (NULL, h)
      else
        b ← h.(hdrs) !! current;
        if b.(is_free) && (sz <=? b.(size)) then
          h ← split_block current sz h;
          b ← h.(hdrs) !! current;
          let h := set_hdrs h (<[current := mk_block b.(size) false b.(next)]> h.(hdrs)) in
          Some (KHEAP_BLOCK_DATA current, h)
        else kmalloc_walk fuel' b.(next) sz h
  end.

Definition kmalloc (sz : Z) (h : heap) : option (Z * heap) :=
  if (sz =? 0) || (h.(heap_start) =? NULL) then Some (NULL, h)
  else
    let sz := align8 sz in
    let sz := if sz <? KHEAP_MIN_BLOCK_SIZE then KHEAP_MIN_BLOCK_SIZE else sz in
    kmalloc_walk (walk_fuel h) h.(heap_start) sz h.

(** Defragmentation pass of [kfree]; the source bounds it by 10000 blocks. *)
Fixpoint kfree_pass (max_iterations : nat) (current : Z) (h : heap) : option heap :=
  match max_iterations with
  | O => Some h
  | S n =>
      if current =? NULL then Some h
      else if negb (in_heap h current) then Some h
      else
        b ← h.(hdrs) !! current;
        h ← (if b.(is_free) then coalesce_block (walk_fuel h) current h else Some h);
        b ← h.(hdrs) !! current;
        kfree_pass n b.(next) h
  end.

Definition kfree (ptr : Z) (h : heap) : option heap :=
  if (ptr =? NULL) || (h.(heap_start) =? NULL) then Some h
  else
    let block := KHEAP_DATA_BLOCK ptr in
    if negb (in_heap h block) then Some h
    else
      b ← h.(hdrs) !! block;
      let h := set_hdrs h (<[block := mk_block b.(size) true b.(next)]> h.(hdrs)) in
      h ← coalesce_block (walk_fuel h) block h;
      kfree_pass MAX_ITERATIONS h.(heap_start) h.

(** [for (i = 0; i < n; i++) dst[i] = src[i]]; a byte never written stays so. *)
Definition copy_bytes (dst src : Z) (n : Z) (d : gmap Z Z) : gmap Z Z :=
  for_loop (Z.to_nat n) 0 (fun i d =>
    match d !! u64 (src + i) with
    | Some v => <[u64 (dst + i) := v]> d
    | None => delete (u64 (dst + i)) d
    end) d.

Definition krealloc (ptr new_size : Z) (h : heap) : option (Z * heap) :=
  if ptr =? NULL then kmalloc new_size h
  else if new_size =? 0 then h ← kfree ptr h; Some (NULL, h)
  else
    let block := KHEAP_DATA_BLOCK ptr in
    if negb (in_heap h block) then kmalloc new_size h
    else
      b ← h.(hdrs) !! block;
      if b.(is_free) then kmalloc new_size h
      else
        let old_size := b.(size) in
        let new_size := Z.land (u64 (new_size + 7)) (2 ^ 64 - 8) in
        if new_size <=? old_size then Some (ptr, h)
        else
          '(new_ptr, h) ← kmalloc new_size h;
          if new_ptr =? NULL then Some (NULL, h)
          else
            let copy_size := if old_size <? new_size then old_size else new_size in
            let h := set_data h (copy_bytes new_ptr ptr copy_size h.(data)) in
            h ← kfree ptr h;
            Some (new_ptr, h).

Definition kheap_get_total_size (h : heap) : Z := h.(heap_total_size).

(** The statistics walks; [f] is what one block adds. *)
Fixpoint stat_walk (f : KHeapBlock -> Z) (fuel : nat) (current acc : Z) (h : heap) : option Z :=
  match fuel with
  | O => None
  | S fuel' =>
      if current =? NULL then Some acc
      else
        b ← h.(hdrs) !! current;
        stat_walk f fuel' b.(next) (u64 (acc + f b)) h
  end.

Definition kheap_get_free_size (h : heap) : option Z :=
  stat_walk (fun b => if b.(is_free) then b.(size) else 0) (walk_fuel h) h.(heap_start) 0 h.
Definition kheap_get_block_count (h : heap) : option Z :=
  stat_walk (fun _ => 1) (walk_fuel h) h.(heap_start) 0 h.
Definition kheap_get_free_block_count (h : heap) : option Z :=
  stat_walk (fun b => if b.(is_free) then 1 else 0) (walk_fuel h) h.(heap_start) 0 h.

Definition malloc (sz : Z) (h : heap) : option (Z * heap) := kmalloc sz h.
Definition free (ptr : Z) (h : heap) : option heap := kfree ptr h.

(** ** Abstract view: the sequence of blocks *)

(** A block of the abstract heap: its size and whether it is free. *)
Abbreviation ablock := (Z * bool)%type.

(** Bytes that a sequence of blocks occupies, headers included. *)
Fixpoint extent (l : list ablock) : Z :=
  match l with
  | [] => 0
  | (s, _) :: l => sizeof_KHeapBlock + s + extent l
  end.

(** [chain m a l z]: the headers from address [a] describe [l], each block
    starting where the previous one ends, and the last [next] is [z]. *)
Fixpoint chain (m : gmap Z KHeapBlock) (a : Z) (l : list ablock) (z : Z) : Prop :=
  match l with
  | [] => True
  | (s, f) :: l' =>
      let e := a + sizeof_KHeapBlock + s in
      m !! a = Some (mk_block s f (match l' with [] => z | _ => e end)) /\ chain m e l' z
  end.

Definition block_ok (b : ablock) : Prop := KHEAP_MIN_BLOCK_SIZE <= b.1 /\ b.1 mod 8 = 0.

(** The heap memory is exactly tiled by the blocks of [l]. *)
Record heap_repr (h : heap) (l : list ablock) : Prop := {
  repr_chain : chain h.(hdrs) h.(heap_start) l NULL;
  repr_ok : Forall block_ok l;
  repr_extent : extent l = h.(heap_total_size);
  repr_nonempty : l <> [];
  repr_start : 0 < h.(heap_start) /\ h.(heap_start) mod 8 = 0;
  repr_end : h.(heap_start) + h.(heap_total_size) < 2 ^ 64
}.

(** Linear arithmetic over block sizes. *)
Ltac hz :=
  unfold block_ok in *; cbn [fst snd extent] in *;
  unfold sizeof_KHeapBlock, KHEAP_MIN_BLOCK_SIZE in *; lia.

(** ** List-level operations *)

(** First fit: the blocks before the chosen one, its size, the blocks after. *)
Fixpoint first_fit (n : Z) (l : list ablock) : option (list ablock * Z * list ablock) :=
  match l with
  | [] => None
  | (s, f) :: l' =>
      if f && (n <=? s) then Some ([], s, l')
      else '(l1, s', l2) ← first_fit n l'; Some ((s, f) :: l1, s', l2)
  end.

(** The chosen block after an allocation of [n] bytes: split when the rest can
    hold a header and a minimal block. *)
Definition carve (n s : Z) : list ablock :=
  if sizeof_KHeapBlock + KHEAP_MIN_BLOCK_SIZE <=? s - n
  then [(n, false); (s - n - sizeof_KHeapBlock, true)]
  else [(s, false)].

(** A free block of size [s] swallowing the free blocks that follow it. *)
Fixpoint absorb (s : Z) (l : list ablock) : Z * list ablock :=
  match l with
  | (s', true) :: l' => absorb (s + (sizeof_KHeapBlock + s')) l'
  | _ => (s, l)
  end.

(** Merge every maximal run of free blocks. *)
Fixpoint merge_free (l : list ablock) : list ablock :=
  match l with
  | [] => []
  | (s, false) :: l' => (s, false) :: merge_free l'
  | (s, true) :: l' =>
      match merge_free l' with
      | (s', true) :: r => (s + (sizeof_KHeapBlock + s'), true) :: r
      | r => (s, true) :: r
      end
  end.

Fixpoint no_adjacent_free (l : list ablock) : Prop :=
  match l with
  | (_, true) :: (((_, true) :: _) as l') => False
  | _ :: l' => no_adjacent_free l'
  | [] => True
  end.

Lemma extent_app l1 l2 : extent (l1 ++ l2) = extent l1 + extent l2.
Proof. induction l1 as [|[s f] l1 IH]; cbn [app extent]; lia. Qed.

Lemma extent_nonneg l : Forall block_ok l -> 0 <= extent l.
Proof.
  induction 1 as [|[s f] l [? _] _ IH]; cbn [extent]; [lia|].
  unfold sizeof_KHeapBlock, KHEAP_MIN_BLOCK_SIZE in *. cbn in *. lia.
Qed.

Lemma extent_carve n s : extent (carve n s) = sizeof_KHeapBlock + s.
Proof. unfold carve, sizeof_KHeapBlock. case_if; cbn [extent]; unfold sizeof_KHeapBlock; lia. Qed.

Lemma carve_ok n s : block_ok (n, false) -> block_ok (s, true) -> n <= s -> Forall block_ok (carve n s).
Proof.
  unfold carve, block_ok, sizeof_KHeapBlock, KHEAP_MIN_BLOCK_SIZE. cbn [fst]. intros.
  case_if; repeat constructor; cbn [fst]; lia.
Qed.

Lemma first_fit_Some n l l1 s l2 :
  first_fit n l = Some (l1, s, l2) ->
  l = l1 ++ (s, true) :: l2 /\ n <= s /\ Forall (fun b => b.2 = true -> b.1 < n) l1.
Proof.
  revert l1. induction l as [|[s0 f] l IH]; intros l1; cbn [first_fit]; [done|].
  destruct (f && (n <=? s0)) eqn:E.
  - intros [= <- <- <-]. bool_hyps. subst f. done.
  - destruct (first_fit n l) as [[[l1' s'] l2']|]; cbn; [|done]. intros [= <- <- <-].
    destruct (IH l1' eq_refl) as (-> & ? & ?). split; [done|]. split; [done|].
    constructor; [|done]. cbn. intros ->. bool_hyps. cbn [andb] in E. bool_hyps. done.
Qed.

Lemma first_fit_None n l :
  first_fit n l = None -> Forall (fun b => b.2 = true -> b.1 < n) l.
Proof.
  induction l as [|[s0 f] l IH]; cbn [first_fit]; [done|].
  destruct (f && (n <=? s0)) eqn:E; [done|].
  destruct (first_fit n l) as [[[l1' s'] l2']|]; cbn; [done|]. intros _.
  constructor; [|by apply IH]. cbn. intros ->. cbn [andb] in E. bool_hyps. done.
Qed.

Lemma absorb_merge s l :
  let '(s', l') := absorb s l in
  merge_free ((s, true) :: l) = (s', true) :: merge_free l' /\
  (forall s0 l0, l' = (s0, true) :: l0 -> False) /\
  (length l' <= length l)%nat /\
  sizeof_KHeapBlock + s + extent l = sizeof_KHeapBlock + s' + extent l'.
Proof.
  revert s. induction l as [|[s1 f1] l IH]; intros s; [by repeat split|].
  destruct f1; cbn [absorb].
  - specialize (IH (s + (sizeof_KHeapBlock + s1))).
    destruct (absorb (s + (sizeof_KHeapBlock + s1)) l) as [s' l'].
    destruct IH as (IHm & IHh & IHl & IHe). repeat split; [|done|cbn; lia|cbn [extent]; lia].
    rewrite <- IHm. cbn [merge_free]. destruct (merge_free l) as [|[s2 []] r]; try done.
    f_equal. f_equal. lia.
  - split; [done|]. split; [intros ? ?; discriminate|]. split; [done|]. done.
Qed.

Lemma absorb_ok s l :
  block_ok (s, true) -> Forall block_ok l ->
  let '(s', l') := absorb s l in block_ok (s', true) /\ Forall block_ok l'.
Proof.
  revert s. induction l as [|[s1 f1] l IH]; intros s Hs Hl; [done|].
  apply list.Forall_cons in Hl as [H1 Hl]. destruct f1; cbn [absorb]; [|split; [done|by constructor]].
  apply IH; [|done]. hz.
Qed.

Lemma merge_free_extent l : extent (merge_free l) = extent l.
Proof.
  induction l as [|[s f] l IH]; [done|]. destruct f; cbn [merge_free extent].
  - destruct (merge_free l) as [|[s' []] r]; cbn [extent] in *; lia.
  - lia.
Qed.

Lemma merge_free_ok l : Forall block_ok l -> Forall block_ok (merge_free l).
Proof.
  induction 1 as [|[s f] l Hs Hl IH]; [constructor|]. destruct f; cbn [merge_free]; [|by constructor].
  destruct (merge_free l) as [|[s' []] r]; [by constructor| |by constructor].
  apply list.Forall_cons in IH as [? ?]. constructor; [|done].
  hz.
Qed.

Lemma merge_free_no_adjacent l : no_adjacent_free (merge_free l).
Proof.
  induction l as [|[s f] l IH]; [done|]. destruct f; cbn [merge_free].
  - destruct (merge_free l) as [|[s' []] [|[s'' []] r]]; cbn in *; done.
  - by destruct (merge_free l).
Qed.

Lemma merge_free_cons_true s l :
  exists s' r, merge_free ((s, true) :: l) = (s', true) :: r.
Proof. cbn [merge_free]. destruct (merge_free l) as [|[s' []] r]; eauto. Qed.

(** Merging a suffix first changes nothing. *)
Lemma merge_free_app_congr l1 l2 l2' :
  merge_free l2 = merge_free l2' -> merge_free (l1 ++ l2) = merge_free (l1 ++ l2').
Proof.
  intros H. induction l1 as [|[s []] l1 IH]; cbn [app merge_free]; [done| |]; by rewrite IH.
Qed.

Lemma merge_free_idem_head s l :
  let '(s', l') := absorb s l in merge_free ((s', true) :: l') = merge_free ((s, true) :: l).
Proof.
  pose proof (absorb_merge s l) as H. destruct (absorb s l) as [s' l'].
  destruct H as (-> & Hh & _). cbn [merge_free].
  destruct l' as [|[s0 []] l0]; [done|by destruct (Hh s0 l0)|done].
Qed.

(** ** Chains in memory *)

Lemma chain_cons m a s f l z :
  chain m a ((s, f) :: l) z <->
  m !! a = Some (mk_block s f (match l with [] => z | _ => a + sizeof_KHeapBlock + s end)) /\
  chain m (a + sizeof_KHeapBlock + s) l z.
Proof. done. Qed.

Lemma chain_app m a l1 b l2 z :
  chain m a (l1 ++ b :: l2) z <->
  chain m a l1 (a + extent l1) /\ chain m (a + extent l1) (b :: l2) z.
Proof.
  revert a. induction l1 as [|[s f] l1 IH]; intros a.
  - cbn [app extent]. rewrite Z.add_0_r. cbn [chain]. tauto.
  - rewrite <- app_comm_cons, !chain_cons, IH. cbn [extent].
    rewrite !Z.add_assoc.
    destruct l1 as [|[s1 f1] l1]; cbn [app extent].
    + rewrite Z.add_0_r. tauto.
    + rewrite !Z.add_assoc. tauto.
Qed.

(** Only the headers inside the extent matter. *)
Lemma chain_frame m m' a l z :
  Forall block_ok l ->
  (forall x, a <= x < a + extent l -> m' !! x = m !! x) ->
  chain m a l z -> chain m' a l z.
Proof.
  intros Hok. revert a. induction Hok as [|[s f] l Hs Hl IH]; intros a Hm; [done|].
  rewrite !chain_cons. pose proof (extent_nonneg l Hl).
  unfold block_ok, KHEAP_MIN_BLOCK_SIZE, sizeof_KHeapBlock in *. cbn [extent fst] in *.
  unfold sizeof_KHeapBlock in Hm.
  intros [H1 H2]. split; [rewrite Hm by lia; done|].
  apply IH; [|done]. intros x Hx. apply Hm. unfold sizeof_KHeapBlock in *. lia.
Qed.

Lemma chain_frame_insert m a l z x b :
  Forall block_ok l -> ~ (a <= x < a + extent l) ->
  chain m a l z -> chain (<[x := b]> m) a l z.
Proof.
  intros Hok Hx. apply chain_frame; [done|]. intros y Hy. apply lookup_insert_ne. intros ->. done.
Qed.

(** A walk visits at most as many headers as the heap has. *)
Lemma chain_size m a l z :
  Forall block_ok l -> chain m a l z -> (length l <= base.size m)%nat.
Proof.
  intros Hok Hc.
  enough (exists X : gset Z, base.size X = length l /\ X ⊆ dom m /\ forall x, x ∈ X -> a <= x)
    as (X & <- & Hsub & _).
  { rewrite <- size_dom. by apply subseteq_size. }
  revert a Hc. induction Hok as [|[s f] l Hs Hl IH]; intros a.
  - intros _. exists ∅. split; [done|]. set_solver.
  - rewrite chain_cons. intros [H1 (X & HX & Hsub & Hge)%IH].
    exists ({[a]} ∪ X). unfold block_ok, KHEAP_MIN_BLOCK_SIZE, sizeof_KHeapBlock in *. cbn [fst] in *.
    split; [|split].
    + rewrite size_union, size_singleton, HX; [done|].
      intros x ->%elem_of_singleton Hx. specialize (Hge _ Hx). lia.
    + intros x [->%elem_of_singleton|Hx]%elem_of_union; [|by apply Hsub].
      apply elem_of_dom. eauto.
    + intros x [->%elem_of_singleton|Hx]%elem_of_union; [lia|]. specialize (Hge _ Hx). lia.
Qed.

(** Splitting a representation at one of its blocks. *)
Section at_block.
Context (h : heap) (l1 l2 : list ablock) (s : Z) (f : bool).
Hypothesis R : heap_repr h (l1 ++ (s, f) :: l2).
Let a := h.(heap_start) + extent l1.

Lemma at_ok : Forall block_ok l1 /\ block_ok (s, f) /\ Forall block_ok l2.
Proof using R. pose proof (repr_ok _ _ R) as H. by rewrite Forall_app, list.Forall_cons in H. Qed.

Lemma at_bounds :
  h.(heap_start) <= a /\ a mod 8 = 0 /\ KHEAP_MIN_BLOCK_SIZE <= s /\ 0 <= extent l2 /\
  a + sizeof_KHeapBlock + s + extent l2 = h.(heap_start) + h.(heap_total_size) /\
  heap_end h = h.(heap_start) + h.(heap_total_size).
Proof using R.
  destruct at_ok as (H1 & [Hs Hs8] & H2). pose proof (extent_nonneg _ H1). pose proof (extent_nonneg _ H2).
  pose proof (repr_extent _ _ R) as He. rewrite extent_app in He. cbn [extent fst] in *.
  destruct (repr_start _ _ R) as [? Hm8]. pose proof (repr_end _ _ R) as Hend.
  assert (Hx : extent l1 mod 8 = 0).
  { clear -H1. induction H1 as [|[s0 f0] l [_ Ho] _ IH]; [done|].
    cbn [extent fst] in *. unfold sizeof_KHeapBlock. lia. }
  unfold heap_end. rewrite u64_small by (widths; unfold sizeof_KHeapBlock, KHEAP_MIN_BLOCK_SIZE in *; lia).
  subst a. unfold sizeof_KHeapBlock, KHEAP_MIN_BLOCK_SIZE in *. lia.
Qed.

Lemma at_chain :
  chain h.(hdrs) h.(heap_start) l1 a /\
  h.(hdrs) !! a = Some (mk_block s f (match l2 with [] => NULL | _ => a + sizeof_KHeapBlock + s end)) /\
  chain h.(hdrs) (a + sizeof_KHeapBlock + s) l2 NULL.
Proof using R. pose proof (repr_chain _ _ R) as H. by apply chain_app in H. Qed.

(** Replace the block at [a], and what follows, by another tiling. *)
Lemma repr_replace m' d' s' f' l2' :
  (forall x, h.(heap_start) <= x < a -> m' !! x = h.(hdrs) !! x) ->
  chain m' a ((s', f') :: l2') NULL ->
  block_ok (s', f') -> Forall block_ok l2' ->
  s' + extent l2' = s + extent l2 ->
  heap_repr (mk_heap h.(heap_start) h.(heap_total_size) m' d') (l1 ++ (s', f') :: l2').
Proof using R.
  intros Hm Hc Hok Hok2 He. destruct at_ok as (H1 & _ & _). destruct at_chain as (C1 & _ & _).
  split; cbn [hdrs heap_start heap_total_size].
  - apply chain_app. split; [|done]. eapply chain_frame; [done| |exact C1]. exact Hm.
  - by rewrite Forall_app, list.Forall_cons.
  - pose proof (repr_extent _ _ R) as Hx. rewrite extent_app in *. cbn [extent] in *. lia.
  - by destruct l1.
  - apply R.
  - apply R.
Qed.
End at_block.

(** ** The operations on memory refine the list operations *)

(** What no header operation touches. *)
Definition same_base (h h' : heap) : Prop :=
  h'.(heap_start) = h.(heap_start) /\ h'.(heap_total_size) = h.(heap_total_size) /\ h'.(data) = h.(data).
#[export] Instance same_base_preorder : PreOrder same_base.
Proof. split; [done|]. intros ??? (?&?&?) (?&?&?). by repeat split; congruence. Qed.

Lemma in_heap_at h l1 s f l2 :
  heap_repr h (l1 ++ (s, f) :: l2) -> in_heap h (h.(heap_start) + extent l1) = true.
Proof.
  intros R. destruct (at_bounds h l1 l2 s f R) as (? & _ & ? & ? & ? & E).
  unfold in_heap. rewrite E, andb_true_iff, Z.leb_le, Z.ltb_lt. hz.
Qed.

Lemma coalesce_block_repr fuel h l1 s f l2 :
  heap_repr h (l1 ++ (s, f) :: l2) -> (length l2 < fuel)%nat ->
  exists h', coalesce_block fuel (h.(heap_start) + extent l1) h = Some h' /\ same_base h h' /\
    heap_repr h' (l1 ++ ((absorb s l2).1, f) :: (absorb s l2).2).
Proof.
  revert h s l2. induction fuel as [|fuel IH]; intros h s l2 R Hf; [lia|].
  destruct (at_bounds h l1 l2 s f R) as (? & _ & Hs & Hl2 & He & Eend).
  destruct (at_ok h l1 l2 s f R) as (Ho1 & Hos & Ho2).
  destruct (at_chain h l1 l2 s f R) as (C1 & Ca & C2).
  destruct (repr_start _ _ R) as [? _].
  set (a := heap_start h + extent l1) in *. cbn [coalesce_block].
  rewrite (proj2 (Z.eqb_neq a NULL)) by (unfold NULL; lia). rewrite Ca. cbn [mbind option_bind next].
  destruct l2 as [|[s1 f1] l2]; [by exists h|].
  rewrite (proj2 (Z.eqb_neq _ NULL)) by (unfold NULL; hz).
  assert (Hin : in_heap h (a + sizeof_KHeapBlock + s) = true).
  { pose proof (in_heap_at h (l1 ++ [(s, f)]) s1 f1 l2) as Hi. rewrite extent_app in Hi.
    rewrite <- app_assoc in Hi. specialize (Hi R). cbn [extent] in Hi.
    replace (a + sizeof_KHeapBlock + s) with (heap_start h + (extent l1 + (sizeof_KHeapBlock + s + 0))) by lia.
    done. }
  rewrite Hin. cbn [negb]. apply chain_cons in C2 as [Cn C3]. rewrite Cn. cbn [mbind option_bind is_free].
  destruct f1; [|by exists h]. cbn [absorb fst snd size is_free next].
  apply list.Forall_cons in Ho2 as [Ho1' Ho2]. pose proof (extent_nonneg _ Ho2).
  rewrite u64_small by (pose proof (repr_end _ _ R); widths; hz).
  set (m' := <[a := _]> (hdrs h)).
  assert (R' : heap_repr (mk_heap (heap_start h) (heap_total_size h) m' (data h))
            (l1 ++ (s + (sizeof_KHeapBlock + s1), f) :: l2)).
  { eapply (repr_replace h l1 ((s1, true) :: l2) s f R); [| |hz|done|hz].
    - intros x Hx. apply lookup_insert_ne. lia.
    - apply chain_cons. fold a. split.
      + unfold m'. rewrite lookup_insert_eq. do 2 f_equal. destruct l2; [done|]. lia.
      + replace (a + sizeof_KHeapBlock + (s + (sizeof_KHeapBlock + s1)))
          with (a + sizeof_KHeapBlock + s + sizeof_KHeapBlock + s1) by lia.
        apply chain_frame_insert; [done| |done]. hz. }
  destruct (IH _ _ _ R') as (h' & Hco & Hsb & Hr); [cbn in Hf; lia|].
  exists h'. split; [exact Hco|]. split; [exact Hsb|exact Hr].
Qed.

Lemma walk_fuel_enough h l : heap_repr h l -> (length l < walk_fuel h)%nat.
Proof.
  intros R. pose proof (chain_size _ _ _ _ (repr_ok _ _ R) (repr_chain _ _ R)). unfold walk_fuel. lia.
Qed.

(** The splitting step, on the chosen block. *)
Lemma split_block_repr h l1 s l2 n :
  heap_repr h (l1 ++ (s, true) :: l2) -> block_ok (n, false) -> n <= s ->
  exists h' b, split_block (h.(heap_start) + extent l1) n h = Some h' /\ same_base h h' /\
    h'.(hdrs) !! (h.(heap_start) + extent l1) = Some b /\
    heap_repr (set_hdrs h' (<[h.(heap_start) + extent l1 := mk_block b.(size) false b.(next)]> h'.(hdrs)))
      (l1 ++ carve n s ++ l2).
Proof.
  intros R Hn Hns.
  destruct (at_bounds h l1 l2 s true R) as (? & _ & Hs & Hl2 & He & Eend).
  destruct (at_ok h l1 l2 s true R) as (Ho1 & Hos & Ho2).
  destruct (at_chain h l1 l2 s true R) as (C1 & Ca & C2).
  destruct (repr_start _ _ R) as [? _]. pose proof (repr_end _ _ R) as Hend.
  set (a := heap_start h + extent l1) in *. unfold split_block. rewrite Ca. cbn [mbind option_bind size].
  rewrite u64_small by (widths; hz). unfold carve.
  destruct (sizeof_KHeapBlock + KHEAP_MIN_BLOCK_SIZE <=? s - n) eqn:Esp; bool_hyps.
  - rewrite u64_small by (widths; hz). set (nb := a + sizeof_KHeapBlock + n). cbn [next].
    rewrite lookup_insert_ne by (unfold nb; hz). rewrite Ca. cbn [mbind option_bind is_free].
    eexists _, _. split; [reflexivity|]. split; [done|]. cbn [hdrs set_hdrs].
    rewrite lookup_insert_eq. split; [reflexivity|]. cbn [size next].
    rewrite insert_insert_eq. cbn [app].
    eapply (repr_replace h l1 l2 s true R); [| |hz|constructor; [hz|done]|hz].
    + intros x Hx. rewrite !lookup_insert_ne by (unfold nb; hz). done.
    + fold a. rewrite !chain_cons. fold nb. split; [by rewrite lookup_insert_eq|]. split.
      * rewrite lookup_insert_ne by (unfold nb; hz). rewrite lookup_insert_eq. do 2 f_equal.
        destruct l2; [done|]. unfold nb. hz.
      * replace (nb + sizeof_KHeapBlock + (s - n - sizeof_KHeapBlock)) with (a + sizeof_KHeapBlock + s)
          by (unfold nb; lia).
        apply chain_frame_insert; [done|hz|]. apply chain_frame_insert; [done|unfold nb; hz|done].
  - eexists h, _. split; [done|]. split; [done|]. split; [exact Ca|]. cbn [size next app].
    eapply (repr_replace h l1 l2 s true R); [| |hz|done|done].
    + intros x Hx. apply lookup_insert_ne. lia.
    + apply chain_cons. fold a. split; [by rewrite lookup_insert_eq|].
      apply chain_frame_insert; [done|hz|done].
Qed.

(** What [kmalloc] does to the block list, for a request of [n] bytes after
    rounding. *)
Definition list_malloc (start n : Z) (l : list ablock) : Z * list ablock :=
  match first_fit n l with
  | None => (NULL, l)
  | Some (l1, s, l2) => (start + extent l1 + sizeof_KHeapBlock, l1 ++ carve n s ++ l2)
  end.

Lemma kmalloc_walk_repr fuel h n l1 l2 :
  heap_repr h (l1 ++ l2) -> l1 ++ l2 <> [] -> block_ok (n, false) -> (length l2 < fuel)%nat ->
  exists h' p, kmalloc_walk fuel (match l2 with [] => NULL | _ => h.(heap_start) + extent l1 end) n h
                = Some (p, h') /\ same_base h h' /\
    match first_fit n l2 with
    | None => p = NULL /\ h' = h
    | Some (m1, s, m2) => p = h.(heap_start) + extent (l1 ++ m1) + sizeof_KHeapBlock /\
                          heap_repr h' (l1 ++ m1 ++ carve n s ++ m2)
    end.
Proof.
  revert l1 l2. induction fuel as [|fuel IH]; intros l1 l2 R Hne Hn Hf; [lia|].
  destruct l2 as [|[s f] l2]; cbn [kmalloc_walk first_fit].
  { exists h, NULL. rewrite Z.eqb_refl. done. }
  destruct (at_bounds h l1 l2 s f R) as (? & _ & Hs & Hl2 & He & Eend).
  destruct (at_chain h l1 l2 s f R) as (_ & Ca & _). destruct (repr_start _ _ R) as [? _].
  pose proof (repr_end _ _ R) as Hend.
  rewrite (proj2 (Z.eqb_neq _ NULL)) by (unfold NULL; lia). rewrite Ca. cbn [mbind option_bind size is_free].
  destruct (f && (n <=? s)) eqn:Efit.
  - bool_hyps. subst f.
    destruct (split_block_repr h l1 s l2 n R Hn) as (h1 & b & -> & Hsb & Hb & R1); [lia|].
    cbn [mbind option_bind]. rewrite Hb. cbn [mbind option_bind].
    eexists _, _. split; [reflexivity|]. split; [exact Hsb|]. split; [|exact R1].
    rewrite app_nil_r. unfold KHEAP_BLOCK_DATA. apply u64_small. widths. hz.
  - cbn [next]. replace (l1 ++ (s, f) :: l2) with ((l1 ++ [(s, f)]) ++ l2) in * by (by rewrite <- app_assoc).
    specialize (IH (l1 ++ [(s, f)]) l2 R Hne Hn). rewrite extent_app in IH. cbn [extent] in IH.
    destruct IH as (h' & p & Hw & Hsb & Hres); [cbn in Hf; lia|].
    exists h', p. split.
    { rewrite <- Hw. f_equal. destruct l2; [done|]. lia. }
    split; [done|]. destruct (first_fit n l2) as [[[m1 s'] m2]|]; cbn [mbind option_bind]; [|done].
    rewrite <- !app_assoc in Hres. exact Hres.
Qed.

(** The size that a request is rounded to. *)
Definition rounded (sz : Z) : Z :=
  let sz := align8 sz in if sz <? KHEAP_MIN_BLOCK_SIZE then KHEAP_MIN_BLOCK_SIZE else sz.

Lemma align8_alt sz : align8 sz = u64 (sz + 7) - u64 (sz + 7) mod 8.
Proof. unfold align8. apply (land_align_down _ 3); [lia|apply u64_range]. Qed.

Lemma align8_spec sz : 0 <= sz < 2 ^ 64 - 8 -> align8 sz = (sz + 7) / 8 * 8.
Proof. intros. rewrite align8_alt, u64_small by (widths; lia). lia. Qed.

Lemma align8_mod sz : align8 sz mod 8 = 0 /\ 0 <= align8 sz.
Proof. rewrite align8_alt. pose proof (u64_range (sz + 7)) as [? _]. lia. Qed.

Lemma rounded_ok sz f : block_ok (rounded sz, f).
Proof. unfold rounded, block_ok. pose proof (align8_mod sz). cbn [fst]. case_if; hz. Qed.

Lemma rounded_ge sz : 0 <= sz < 2 ^ 64 - 8 -> sz <= rounded sz.
Proof. intros. unfold rounded. rewrite align8_spec by done. case_if; hz. Qed.

Lemma kmalloc_repr h l sz :
  heap_repr h l -> 0 < sz ->
  exists h' p l', kmalloc sz h = Some (p, h') /\ same_base h h' /\
    list_malloc h.(heap_start) (rounded sz) l = (p, l') /\ heap_repr h' l' /\ (p = NULL -> h' = h).
Proof.
  intros R Hsz. destruct (repr_start _ _ R) as [Hst _]. unfold kmalloc.
  rewrite (proj2 (Z.eqb_neq sz 0)), (proj2 (Z.eqb_neq _ NULL)) by (unfold NULL; lia). cbn [orb].
  fold (rounded sz).
  destruct (kmalloc_walk_repr (walk_fuel h) h (rounded sz) [] l R (repr_nonempty _ _ R) (rounded_ok sz false)
    (walk_fuel_enough h l R)) as (h' & p & Hw & Hsb & Hres).
  cbn [extent] in Hw. rewrite Z.add_0_r in Hw.
  pose proof (repr_nonempty _ _ R). destruct l as [|b0 l0]; [done|]. set (l := b0 :: l0) in *.
  unfold list_malloc. destruct (first_fit (rounded sz) l) as [[[m1 s] m2]|] eqn:Ef.
  - destruct Hres as [-> R']. exists h', (heap_start h + extent m1 + sizeof_KHeapBlock), (m1 ++ carve (rounded sz) s ++ m2).
    split; [exact Hw|]. split; [done|]. split; [done|]. split; [exact R'|]. intros Hn. exfalso.
    apply first_fit_Some in Ef as (Heq & _ & _). pose proof (repr_ok _ _ R) as Hok. rewrite Heq in Hok.
    apply Forall_app in Hok as [Hok _]. apply extent_nonneg in Hok. unfold NULL in Hn. hz.
  - destruct Hres as [-> ->]. exists h, NULL, l. done.
Qed.

(** ** Freeing *)

(** The defragmentation pass on the list: at most [n] steps. *)
Fixpoint list_pass (n : nat) (l : list ablock) : list ablock :=
  match n, l with
  | S n', (s, true) :: l' => let '(s', r) := absorb s l' in (s', true) :: list_pass n' r
  | S n', (s, false) :: l' => (s, false) :: list_pass n' l'
  | _, _ => l
  end.

Lemma list_pass_merge n l : (length l <= n)%nat -> list_pass n l = merge_free l.
Proof.
  revert l. induction n as [|n IH]; intros l Hl; [by destruct l; [|cbn in Hl; lia]|].
  destruct l as [|[s []] l]; [done| |]; cbn [list_pass length] in *.
  - pose proof (absorb_merge s l) as H. destruct (absorb s l) as [s' r].
    destruct H as (-> & _ & Hlen & _). by rewrite IH by lia.
  - cbn [merge_free]. by rewrite IH by lia.
Qed.

Lemma kfree_pass_repr n h l1 l2 :
  heap_repr h (l1 ++ l2) ->
  exists h', kfree_pass n (match l2 with [] => NULL | _ => h.(heap_start) + extent l1 end) h = Some h' /\
    same_base h h' /\ heap_repr h' (l1 ++ list_pass n l2).
Proof.
  revert h l1 l2. induction n as [|n IH]; intros h l1 l2 R; cbn [kfree_pass].
  { exists h. by destruct l2. }
  destruct l2 as [|[s f] l2].
  { exists h. rewrite Z.eqb_refl. done. }
  destruct (at_bounds h l1 l2 s f R) as (? & _ & _).
  destruct (at_chain h l1 l2 s f R) as (_ & Ca & _). destruct (repr_start _ _ R) as [? _].
  rewrite (proj2 (Z.eqb_neq _ NULL)) by (unfold NULL; lia).
  rewrite (in_heap_at h l1 s f l2 R). cbn [negb]. rewrite Ca. cbn [mbind option_bind is_free].
  assert (Hgo : forall h1 s1 r, same_base h h1 -> heap_repr h1 (l1 ++ (s1, f) :: r) ->
    exists h', (b ← hdrs h1 !! (heap_start h + extent l1); kfree_pass n (next b) h1) = Some h' /\
      same_base h h' /\ heap_repr h' (l1 ++ (s1, f) :: list_pass n r)).
  { intros h1 s1 r Hsb R1. pose proof Hsb as (Est & _ & _).
    destruct (at_chain h1 l1 r s1 f R1) as (_ & Ca1 & _). rewrite Est in Ca1. rewrite Ca1.
    cbn [mbind option_bind next].
    replace (l1 ++ (s1, f) :: r) with ((l1 ++ [(s1, f)]) ++ r) in R1 by (by rewrite <- app_assoc).
    destruct (IH h1 (l1 ++ [(s1, f)]) r R1) as (h' & Hp & Hsb' & R').
    rewrite extent_app, Est in Hp. cbn [extent] in Hp. exists h'. split.
    - rewrite <- Hp. f_equal. destruct r; [done|]. lia.
    - split; [etrans; eassumption|]. by rewrite <- app_assoc in R'. }
  destruct f.
  - destruct (coalesce_block_repr (walk_fuel h) h l1 s true l2 R) as (h1 & -> & Hsb & R1).
    { pose proof (walk_fuel_enough _ _ R) as Hw. rewrite length_app in Hw. cbn in Hw. lia. }
    cbn [mbind option_bind list_pass]. destruct (absorb s l2) as [s1 r]. by apply Hgo.
  - cbn [list_pass]. by apply (Hgo h s l2).
Qed.

Definition list_free (l1 : list ablock) (s : Z) (l2 : list ablock) : list ablock :=
  list_pass MAX_ITERATIONS (l1 ++ ((absorb s l2).1, true) :: (absorb s l2).2).

Lemma kfree_repr h l1 s f l2 :
  heap_repr h (l1 ++ (s, f) :: l2) ->
  exists h', kfree (h.(heap_start) + extent l1 + sizeof_KHeapBlock) h = Some h' /\ same_base h h' /\
    heap_repr h' (list_free l1 s l2).
Proof.
  intros R. destruct (at_bounds h l1 l2 s f R) as (? & _ & Hs & Hl2 & He & Eend).
  destruct (at_ok h l1 l2 s f R) as (Ho1 & Hos & Ho2).
  destruct (at_chain h l1 l2 s f R) as (C1 & Ca & C2).
  destruct (repr_start _ _ R) as [? _]. pose proof (repr_end _ _ R) as Hend.
  unfold kfree. rewrite !(proj2 (Z.eqb_neq _ NULL)) by (unfold NULL; hz). cbn [orb].
  unfold KHEAP_DATA_BLOCK. rewrite Z.add_simpl_r, u64_small by (widths; hz).
  rewrite (in_heap_at h l1 s f l2 R). cbn [negb]. rewrite Ca. cbn [mbind option_bind size next].
  set (h1 := set_hdrs h _).
  assert (R1 : heap_repr h1 (l1 ++ (s, true) :: l2)).
  { eapply (repr_replace h l1 l2 s f R); [| |hz|done|done].
    - intros x Hx. apply lookup_insert_ne. lia.
    - apply chain_cons. split; [by rewrite lookup_insert_eq|]. apply chain_frame_insert; [done|hz|done]. }
  destruct (coalesce_block_repr (walk_fuel h1) h1 l1 s true l2 R1) as (h2 & Hc & Hsb & R2).
  { pose proof (walk_fuel_enough _ _ R1) as Hw. rewrite length_app in Hw. cbn in Hw. lia. }
  change (heap_start h1) with (heap_start h) in Hc. rewrite Hc. cbn [mbind option_bind].
  destruct (kfree_pass_repr MAX_ITERATIONS h2 [] _ R2) as (h3 & Hp & Hsb' & R3).
  unfold list_free. exists h3. split; [|split; [|exact R3]].
  - rewrite <- Hp. cbn [extent]. rewrite Z.add_0_r. f_equal. by destruct l1.
  - etrans; [|exact Hsb']. etrans; [|exact Hsb]. done.
Qed.

(** Within the bound of the pass, freeing merges every run of free blocks. *)
Lemma list_free_merge l1 s l2 :
  (length l1 + length l2 < MAX_ITERATIONS)%nat ->
  list_free l1 s l2 = merge_free (l1 ++ (s, true) :: l2).
Proof.
  intros Hlen. unfold list_free. pose proof (absorb_merge s l2) as H.
  pose proof (merge_free_idem_head s l2) as Hi. destruct (absorb s l2) as [s' l2']. cbn [fst snd].
  destruct H as (_ & _ & Hl & _). rewrite list_pass_merge.
  - by apply merge_free_app_congr.
  - rewrite length_app. cbn [length]. lia.
Qed.

(** ** Live allocations *)

(** The (pointer, size) pairs of the used blocks. *)
Fixpoint live (a : Z) (l : list ablock) : list (Z * Z) :=
  match l with
  | [] => []
  | (s, f) :: l' => (if f then [] else [(a + sizeof_KHeapBlock, s)]) ++ live (a + sizeof_KHeapBlock + s) l'
  end.

Definition apart (x y : Z * Z) : Prop := x.1 + x.2 <= y.1 \/ y.1 + y.2 <= x.1.

Lemma live_app a l1 l2 : live a (l1 ++ l2) = live a l1 ++ live (a + extent l1) l2.
Proof.
  revert a. induction l1 as [|[s f] l1 IH]; intros a; cbn [app live extent].
  - by rewrite Z.add_0_r.
  - rewrite IH, app_assoc. do 2 f_equal. lia.
Qed.

Lemma live_absorb a s f l :
  live a (((absorb s l).1, f) :: (absorb s l).2) =
  (if f then [] else [(a + sizeof_KHeapBlock, (absorb s l).1)]) ++ live (a + sizeof_KHeapBlock + s) l.
Proof.
  revert s. induction l as [|[s1 []] l IH]; intros s; cbn [absorb fst snd]; [done| |done].
  specialize (IH (s + (sizeof_KHeapBlock + s1))). rewrite IH. cbn [live].
  f_equal. rewrite app_nil_l. f_equal. lia.
Qed.

Lemma live_list_pass n a l : live a (list_pass n l) = live a l.
Proof.
  revert a l. induction n as [|n IH]; intros a l; [by destruct l as [|[? []] ?]|].
  destruct l as [|[s []] l]; cbn [list_pass]; [done| |].
  - pose proof (live_absorb a s true l) as H. destruct (absorb s l) as [s' r]. cbn [fst snd] in H.
    cbn [live app] in *. by rewrite IH.
  - cbn [live]. by rewrite IH.
Qed.

Lemma live_bounds a l p n :
  Forall block_ok l -> (p, n) ∈ live a l ->
  a + sizeof_KHeapBlock <= p /\ p + n <= a + extent l /\ KHEAP_MIN_BLOCK_SIZE <= n.
Proof.
  intros Hok. revert a. induction Hok as [|[s f] l Hs Hl IH]; intros a; cbn [live]; [by intros ?%not_elem_of_nil|].
  pose proof (extent_nonneg _ Hl). intros [Hin|Hin]%elem_of_app.
  - destruct f; [by apply not_elem_of_nil in Hin|]. apply list_elem_of_singleton in Hin as [= -> ->]. hz.
  - apply IH in Hin. hz.
Qed.

Lemma live_apart a l x y :
  Forall block_ok l -> x ∈ live a l -> y ∈ live a l -> x = y \/ apart x y.
Proof.
  intros Hok. revert a. induction Hok as [|[s f] l Hs Hl IH]; intros a; cbn [live]; [by intros ?%not_elem_of_nil|].
  destruct x as [p n], y as [q m].
  rewrite !elem_of_app. intros [Hx|Hx] [Hy|Hy].
  - destruct f; [by apply not_elem_of_nil in Hx|].
    apply list_elem_of_singleton in Hx as [= -> ->]. apply list_elem_of_singleton in Hy as [= -> ->]. by left.
  - destruct f; [by apply not_elem_of_nil in Hx|]. apply list_elem_of_singleton in Hx as [= -> ->].
    apply live_bounds in Hy; [|done]. right. left. hz.
  - destruct f; [by apply not_elem_of_nil in Hy|]. apply list_elem_of_singleton in Hy as [= -> ->].
    apply live_bounds in Hx; [|done]. right. right. hz.
  - by apply IH in Hy.
Qed.

(** A live pointer is the data of one of the blocks. *)
Lemma live_split a l p n :
  (p, n) ∈ live a l ->
  exists l1 l2, l = l1 ++ (n, false) :: l2 /\ p = a + extent l1 + sizeof_KHeapBlock.
Proof.
  revert a. induction l as [|[s f] l IH]; intros a; cbn [live]; [by intros ?%not_elem_of_nil|].
  intros [Hin|Hin]%elem_of_app.
  - destruct f; [by apply not_elem_of_nil in Hin|]. apply list_elem_of_singleton in Hin as [= -> ->].
    exists [], l. split; [done|]. cbn [extent]. lia.
  - apply IH in Hin as (l1 & l2 & -> & ->). exists ((s, f) :: l1), l2. split; [done|]. cbn [extent]. lia.
Qed.

Lemma live_carve a n s l1 l2 :
  exists m, n <= s -> live a (l1 ++ carve n s ++ l2) ≡ₚ
    (a + extent l1 + sizeof_KHeapBlock, m) :: live a (l1 ++ (s, true) :: l2) /\ n <= m.
Proof.
  unfold carve. case_if; [exists n|exists s]; intros ?; (split; [|lia]);
    rewrite !live_app; cbn [app live]; rewrite ?app_nil_l; rewrite Permutation_middle.
  - do 3 f_equiv. cbn [extent]. lia.
  - do 3 f_equiv. cbn [extent]. lia.
Qed.

(** [kmalloc] in terms of live allocations. *)
Lemma kmalloc_live h l sz :
  heap_repr h l -> 0 < sz < 2 ^ 64 - 8 ->
  exists p h' l', kmalloc sz h = Some (p, h') /\ heap_repr h' l' /\ same_base h h' /\
    ((p = NULL /\ h' = h /\ l' = l /\ Forall (fun b => b.2 = true -> b.1 < rounded sz) l) \/
     (p <> NULL /\ p mod 8 = 0 /\ exists n, sz <= n /\
        live h.(heap_start) l' ≡ₚ (p, n) :: live h.(heap_start) l)).
Proof.
  intros R Hsz. destruct (kmalloc_repr h l sz R) as (h' & p & l' & Hk & Hsb & Hlm & R' & Hn); [lia|].
  exists p, h', l'. split; [done|]. split; [done|]. split; [done|].
  unfold list_malloc in Hlm. destruct (first_fit (rounded sz) l) as [[[l1 s] l2]|] eqn:Ef.
  - right. injection Hlm as <- <-. apply first_fit_Some in Ef as (-> & Hle & _).
    destruct (at_bounds h l1 l2 s true R) as (? & Ha8 & _). destruct (repr_start _ _ R) as [? _].
    split; [unfold NULL; hz|]. split; [hz|].
    destruct (live_carve (heap_start h) (rounded sz) s l1 l2) as [m Hm]. destruct (Hm Hle) as [Hp Hge].
    exists m. split; [|done]. pose proof (rounded_ge sz). lia.
  - left. injection Hlm as <- <-. repeat split; auto. by apply first_fit_None.
Qed.

(** [kfree] of a live pointer. *)
Lemma kfree_live h l p n :
  heap_repr h l -> (p, n) ∈ live h.(heap_start) l ->
  exists h' l', kfree p h = Some h' /\ heap_repr h' l' /\ same_base h h' /\
    live h.(heap_start) l ≡ₚ (p, n) :: live h.(heap_start) l' /\
    ((length l <= MAX_ITERATIONS)%nat -> no_adjacent_free l').
Proof.
  intros R Hin. destruct (live_split _ _ _ _ Hin) as (l1 & l2 & -> & ->).
  destruct (kfree_repr h l1 n false l2 R) as (h' & Hk & Hsb & R').
  exists h', (list_free l1 n l2). split; [done|]. split; [done|]. split; [done|]. split.
  - unfold list_free. rewrite live_list_pass, !live_app, live_absorb. cbn [live app].
    by rewrite Permutation_middle.
  - intros Hlen. rewrite length_app in Hlen. cbn [length] in Hlen.
    rewrite list_free_merge by lia. apply merge_free_no_adjacent.
Qed.

(** ** Statistics *)
Fixpoint sum_stat (f : KHeapBlock -> Z) (l : list ablock) : Z :=
  match l with
  | [] => 0
  | (s, fr) :: l' => f (mk_block s fr 0) + sum_stat f l'
  end.

Lemma stat_walk_repr f fuel h l1 l2 acc :
  (forall s fr z, f (mk_block s fr z) = f (mk_block s fr 0)) ->
  heap_repr h (l1 ++ l2) -> (length l2 < fuel)%nat ->
  Forall (fun b => 0 <= f (mk_block b.1 b.2 0)) l2 ->
  0 <= acc -> acc + sum_stat f l2 < 2 ^ 64 ->
  stat_walk f fuel (match l2 with [] => NULL | _ => h.(heap_start) + extent l1 end) acc h
    = Some (acc + sum_stat f l2).
Proof.
  intros Hext. revert l1 l2 acc. induction fuel as [|fuel IH]; intros l1 l2 acc R Hf Hpos Hacc Hmax; [lia|].
  destruct l2 as [|[s fr] l2]; cbn [stat_walk sum_stat] in *.
  { rewrite Z.eqb_refl. f_equal. lia. }
  destruct (at_bounds h l1 l2 s fr R) as (? & _ & _).
  destruct (at_chain h l1 l2 s fr R) as (_ & Ca & _). destruct (repr_start _ _ R) as [? _].
  rewrite (proj2 (Z.eqb_neq _ NULL)) by (unfold NULL; lia). rewrite Ca. cbn [mbind option_bind next].
  apply list.Forall_cons in Hpos as [Hp Hpos]. cbn [fst snd] in Hp. rewrite Hext.
  assert (0 <= sum_stat f l2) by (clear -Hpos; induction Hpos as [|[? ?] ? ? ? ?]; cbn in *; lia).
  rewrite u64_small by (widths; lia).
  replace (l1 ++ (s, fr) :: l2) with ((l1 ++ [(s, fr)]) ++ l2) in R by (by rewrite <- app_assoc).
  specialize (IH (l1 ++ [(s, fr)]) l2 (acc + f (mk_block s fr 0)) R).
  rewrite extent_app in IH. cbn [extent] in IH.
  assert (Hnx : match l2 with [] => NULL | _ => heap_start h + extent l1 + sizeof_KHeapBlock + s end =
    match l2 with [] => NULL | _ => heap_start h + (extent l1 + (sizeof_KHeapBlock + s + 0)) end)
    by (destruct l2; [done|lia]).
  rewrite Hnx, IH; [f_equal; lia|cbn in Hf; lia|done|lia|lia].
Qed.

Lemma kheap_stat f h l :
  (forall s fr z, f (mk_block s fr z) = f (mk_block s fr 0)) -> heap_repr h l ->
  Forall (fun b => 0 <= f (mk_block b.1 b.2 0)) l -> sum_stat f l < 2 ^ 64 ->
  stat_walk f (walk_fuel h) h.(heap_start) 0 h = Some (sum_stat f l).
Proof.
  intros Hext R Hpos Hmax. pose proof (stat_walk_repr f (walk_fuel h) h [] l 0 Hext R (walk_fuel_enough h l R) Hpos) as H.
  cbn [extent] in H. rewrite Z.add_0_r, Z.add_0_l in H. rewrite <- H by lia.
  f_equal. pose proof (repr_nonempty _ _ R). by destruct l.
Qed.

(** Total size of a list of live allocations. *)
Definition live_total (lv : list (Z * Z)) : Z := fold_right (fun x acc => x.2 + acc) 0 lv.

Lemma accounting a l :
  sum_stat (fun b => if is_free b then size b else 0) l + live_total (live a l) +
  sizeof_KHeapBlock * sum_stat (fun _ => 1) l = extent l.
Proof.
  revert a. induction l as [|[s f] l IH]; intros a; cbn [sum_stat live extent]; [done|].
  specialize (IH (a + sizeof_KHeapBlock + s)). destruct f; cbn [app is_free size];
    unfold live_total in *; cbn [fold_right snd] in *; lia.
Qed.

(** ** Copying *)
Lemma copy_bytes_spec dst src n d x :
  0 <= n -> 0 <= dst -> dst + n < 2 ^ 64 -> 0 <= src -> src + n < 2 ^ 64 ->
  src + n <= dst \/ dst + n <= src ->
  copy_bytes dst src n d !! x =
  if decide (dst <= x < dst + n) then d !! (src + (x - dst)) else d !! x.
Proof.
  intros Hn Hd Hdn Hs Hsn Hap. unfold copy_bytes.
  set (P := fun k (e : gmap Z Z) => forall y,
    e !! y = if decide (dst <= y < dst + k) then d !! (src + (y - dst)) else d !! y).
  enough (P (0 + Z.of_nat (Z.to_nat n)) (for_loop (Z.to_nat n) 0 (fun i d =>
    match d !! u64 (src + i) with
    | Some v => <[u64 (dst + i) := v]> d
    | None => delete (u64 (dst + i)) d
    end) d)) as HP.
  { specialize (HP x). by rewrite Z2Nat.id, Z.add_0_l in HP by lia. }
  apply (for_loop_ind P).
  - intros y. rewrite decide_False by lia. done.
  - intros k e Hk He y. rewrite !u64_small by (widths; lia).
    rewrite (He (src + k)), decide_False by lia.
    assert (Hstep : (if decide (dst <= y < dst + (k + 1)) then d !! (src + (y - dst)) else d !! y) =
      if decide (y = dst + k) then d !! (src + k) else e !! y).
    { rewrite He. destruct (decide (y = dst + k)) as [->|].
      - rewrite decide_True by lia. f_equal. lia.
      - destruct (decide (dst <= y < dst + k)); [rewrite decide_True by lia|rewrite decide_False by lia]; done. }
    rewrite Hstep. destruct (d !! (src + k)) as [v|] eqn:Ed.
    + rewrite lookup_insert. destruct (decide (dst + k = y)), (decide (y = dst + k)); congruence || done.
    + rewrite lookup_delete. destruct (decide (dst + k = y)), (decide (y = dst + k)); congruence || done.
Qed.

(** ** Reallocation *)
Definition same_region (h h' : heap) : Prop :=
  h'.(heap_start) = h.(heap_start) /\ h'.(heap_total_size) = h.(heap_total_size).

Lemma repr_set_data h d l : heap_repr h l -> heap_repr (set_data h d) l.
Proof. intros [? ? ? ? ? ?]. by split. Qed.

Lemma krealloc_live h l p n sz :
  heap_repr h l -> (p, n) ∈ live h.(heap_start) l -> 0 < sz < 2 ^ 64 - 16 ->
  exists q h' l', krealloc p sz h = Some (q, h') /\ heap_repr h' l' /\ same_region h h' /\
    ((q = p /\ h' = h /\ sz <= n) \/ (q = NULL /\ h' = h) \/
     (q <> NULL /\ q mod 8 = 0 /\ exists m, sz <= m /\ apart (p, n) (q, m) /\
        (p, n) :: live h.(heap_start) l' ≡ₚ (q, m) :: live h.(heap_start) l /\
        forall x, h'.(data) !! x = if decide (q <= x < q + n) then h.(data) !! (p + (x - q)) else h.(data) !! x)).
Proof.
  intros R Hin Hsz. pose proof (live_bounds _ _ _ _ (repr_ok _ _ R) Hin) as Hb.
  rewrite (repr_extent _ _ R) in Hb. destruct (repr_start _ _ R) as [? _]. pose proof (repr_end _ _ R) as Hend.
  destruct (live_split _ _ _ _ Hin) as (l1 & l2 & El & Ep).
  assert (R0 : heap_repr h (l1 ++ (n, false) :: l2)) by (by rewrite <- El).
  destruct (at_chain h l1 l2 n false R0) as (_ & Ca & _).
  unfold krealloc. rewrite (proj2 (Z.eqb_neq p NULL)), (proj2 (Z.eqb_neq sz 0)) by (unfold NULL; hz).
  assert (Hblk : KHEAP_DATA_BLOCK p = heap_start h + extent l1).
  { unfold KHEAP_DATA_BLOCK. rewrite Ep, Z.add_simpl_r. apply u64_small. widths. hz. }
  rewrite Hblk, (in_heap_at h l1 n false l2 R0). cbn [negb]. rewrite Ca. cbn [mbind option_bind is_free size].
  fold (align8 sz). rewrite align8_spec by lia. set (nsz := (sz + 7) / 8 * 8).
  destruct (nsz <=? n) eqn:Enn; bool_hyps.
  { exists p, h, l. split; [done|]. split; [done|]. split; [done|]. left. repeat split. lia. }
  destruct (kmalloc_live h l nsz R) as (q & h1 & l1' & -> & R1 & Hsb & Hcase); [lia|].
  cbn [mbind option_bind]. destruct (q =? NULL) eqn:Eq; bool_hyps.
  { destruct Hcase as [(_ & -> & _)|(? & _)]; [|done]. exists NULL, h, l.
    split; [by subst|]. split; [done|]. split; [done|]. right. by left. }
  destruct Hcase as [(? & _)|(Hq & Hq8 & m & Hm & Hperm)]; [done|].
  destruct Hsb as (Est & Etot & Edata).
  assert (Hpin : (p, n) ∈ live (heap_start h) l1') by (rewrite Hperm; by apply list_elem_of_further).
  assert (Hqin : (q, m) ∈ live (heap_start h) l1') by (rewrite Hperm; apply list_elem_of_here).
  rewrite <- Est in Hpin, Hqin. pose proof (live_bounds _ _ _ _ (repr_ok _ _ R1) Hqin) as Hbq.
  rewrite (repr_extent _ _ R1), Est, Etot in Hbq.
  assert (Hap : apart (p, n) (q, m)).
  { destruct (live_apart _ _ _ _ (repr_ok _ _ R1) Hpin Hqin) as [[= <- <-]|]; [lia|done]. }
  rewrite (proj2 (Z.ltb_lt n nsz)) by done.
  destruct (kfree_live (set_data h1 (copy_bytes q p n (data h1))) l1' p n) as (h2 & l2' & -> & R2 & Hsb2 & Hperm2 & _).
  { by apply repr_set_data. }
  { exact Hpin. }
  cbn [mbind option_bind set_data heap_start] in *. destruct Hsb2 as (Est2 & Etot2 & Edata2).
  cbn [set_data heap_start heap_total_size data] in *.
  exists q, h2, l2'. split; [done|]. split; [done|]. split; [split; congruence|]. right. right.
  split; [done|]. split; [done|]. exists m. split; [lia|]. split; [done|]. split.
  - rewrite <- Hperm. rewrite Est in Hperm2. by rewrite Hperm2.
  - intros x. rewrite Edata2, Edata. unfold apart in Hap. cbn [fst snd] in Hap.
    apply copy_bytes_spec; hz.
Qed.

(** ** Clients of the heap *)

(** A client allocates, frees and resizes live pointers in any order. *)
Inductive heap_step : heap -> heap -> Prop :=
| step_kmalloc h sz p h' : 0 <= sz < 2 ^ 64 - 8 -> kmalloc sz h = Some (p, h') -> heap_step h h'
| step_kfree h l p n h' :
    heap_repr h l -> (p, n) ∈ live h.(heap_start) l -> kfree p h = Some h' -> heap_step h h'
| step_krealloc h l p n sz q h' :
    heap_repr h l -> (p, n) ∈ live h.(heap_start) l -> 0 < sz < 2 ^ 64 - 16 ->
    krealloc p sz h = Some (q, h') -> heap_step h h'
| step_write h x v : heap_step h (set_data h (<[x := v]> h.(data))).

Lemma heap_step_repr h l h' :
  heap_repr h l -> heap_step h h' -> exists l', heap_repr h' l' /\ same_region h h'.
Proof.
  intros R Hs.
  destruct Hs as [h sz p h' Hsz Hk|h l0 p n h' R0 Hin Hk|h l0 p n sz q h' R0 Hin Hsz Hk|h x v].
  - destruct (decide (sz = 0)) as [->|].
    + unfold kmalloc in Hk. rewrite Z.eqb_refl in Hk. injection Hk as <- <-. by exists l.
    + destruct (kmalloc_live h l sz R) as (p' & g & k & Hk' & Rg & (? & ? & ?) & _); [lia|].
      rewrite Hk in Hk'. injection Hk' as <- <-. by exists k.
  - destruct (kfree_live h l0 p n R0 Hin) as (g & k & Hk' & Rg & (? & ? & ?) & _).
    rewrite Hk in Hk'. injection Hk' as <-. by exists k.
  - destruct (krealloc_live h l0 p n sz R0 Hin Hsz) as (q' & g & k & Hk' & Rg & Es & _).
    rewrite Hk in Hk'. injection Hk' as <- <-. by exists k.
  - exists l. split; [by apply repr_set_data|done].
Qed.

Lemma heap_steps_repr h h' :
  rtc heap_step h h' -> forall l, heap_repr h l -> exists l', heap_repr h' l' /\ same_region h h'.
Proof.
  induction 1 as [h|h g h' Hs _ IH]; intros l R; [by exists l|].
  destruct (heap_step_repr _ _ _ R Hs) as (k & Rg & ? & ?). destruct (IH k Rg) as (l' & R' & ? & ?).
  exists l'. split; [done|]. split; congruence.
Qed.

(** A start address and size as the kernel passes them: word aligned, not
    wrapping, and room for one minimal block. *)
Definition init_ok (start_addr size_bytes : Z) : Prop :=
  0 < start_addr /\ start_addr mod 8 = 0 /\ size_bytes mod 8 = 0 /\
  sizeof_KHeapBlock + KHEAP_MIN_BLOCK_SIZE <= size_bytes /\ start_addr + size_bytes < 2 ^ 64.

Lemma kheap_init_repr start_addr size_bytes h :
  init_ok start_addr size_bytes ->
  heap_repr (kheap_init start_addr size_bytes h) [(size_bytes - sizeof_KHeapBlock, true)].
Proof.
  intros (? & ? & ? & ? & ?). unfold kheap_init.
  rewrite (proj2 (Z.eqb_neq _ NULL)), (proj2 (Z.ltb_ge _ _)) by (unfold NULL; lia). cbn [orb].
  split; cbn [hdrs heap_start heap_total_size extent]; try lia; [| |done].
  - cbn [chain]. split; [|done]. apply lookup_insert_eq.
  - repeat constructor; hz.
Qed.

(** A concrete heap for the witnesses: 64 KiB at address 4096. *)
Definition demo_heap : heap := kheap_init 4096 65536 (mk_heap 0 0 ∅ ∅).
Definition demo_heap1 : heap := default demo_heap (snd <$> kmalloc 100 demo_heap).

Lemma demo_init_ok : init_ok 4096 65536.
Proof. unfold init_ok. hz. Qed.
Lemma demo_heap_repr : heap_repr demo_heap [(65512, true)].
Proof. exact (kheap_init_repr 4096 65536 _ demo_init_ok). Qed.
Lemma demo_heap1_repr : heap_repr demo_heap1 [(104, false); (65384, true)].
Proof.
  split; [|repeat constructor; hz|done|done|done|by vm_compute].
  split; [by vm_compute|]. split; [by vm_compute|done].
Qed.
Lemma demo_heap1_live : (4120, 104) ∈ live (heap_start demo_heap1) [(104, false); (65384, true)].
Proof. apply list_elem_of_here. Qed.

(** ** Properties *)

(** C2. Allocation: on a well-formed heap [kmalloc] always returns.  Either no
    free block can hold the rounded request, the result is NULL and the heap is
    unchanged; or it returns an 8-byte aligned pointer to at least the
    requested number of bytes, inside the heap and apart from every live
    allocation, and the live allocations are the old ones plus this one. *)
Theorem kmalloc_sound h l sz :
  heap_repr h l -> 0 < sz < 2 ^ 64 - 8 ->
  exists p h' l', kmalloc sz h = Some (p, h') /\ heap_repr h' l' /\ h'.(data) = h.(data) /\
    ((p = NULL /\ h' = h /\ Forall (fun b => b.2 = true -> b.1 < rounded sz) l) \/
     (p mod 8 = 0 /\ exists n, sz <= n /\
        h.(heap_start) < p /\ p + n <= h.(heap_start) + h.(heap_total_size) /\
        Forall (apart (p, n)) (live h.(heap_start) l) /\
        live h.(heap_start) l' ≡ₚ (p, n) :: live h.(heap_start) l)).
Proof.
  intros R Hsz. destruct (kmalloc_live h l sz R Hsz) as (p & h' & l' & Hk & R' & (Es & Et & Ed) & Hc).
  exists p, h', l'. split; [done|]. split; [done|]. split; [done|].
  destruct Hc as [(? & ? & _ & ?)|(Hp & Hp8 & n & Hn & Hperm)]; [by left|right].
  split; [done|]. exists n. split; [done|].
  assert (Hin : (p, n) ∈ live (heap_start h) l') by (rewrite Hperm; apply list_elem_of_here).
  rewrite <- Es in Hin. pose proof (live_bounds _ _ _ _ (repr_ok _ _ R') Hin) as Hb.
  rewrite (repr_extent _ _ R'), Es, Et in Hb. split; [hz|]. split; [hz|]. split; [|done].
  assert (Hnd : NoDup (live (heap_start h') l')).
  { pose proof (repr_ok _ _ R') as Hok. clear -Hok. generalize (heap_start h') as a. intros a. revert a.
    induction Hok as [|[s f] l Hs Hl IH]; intros a; cbn [live]; [constructor|].
    destruct f; [apply IH|]. constructor; [|apply IH]. intros Hi. apply live_bounds in Hi; [|done]. hz. }
  rewrite Es, Hperm, list.NoDup_cons in Hnd. apply list.Forall_forall. intros y Hy.
  destruct (live_apart (heap_start h') l' (p, n) y (repr_ok _ _ R')) as [<-|?]; [done| | |done].
  - rewrite Es, Hperm. by apply list_elem_of_further.
  - by destruct Hnd.
Qed.

Lemma kmalloc_sound_witness :
  exists p h' l', kmalloc 40 demo_heap1 = Some (p, h') /\ heap_repr h' l' /\ h'.(data) = demo_heap1.(data) /\
    ((p = NULL /\ h' = demo_heap1 /\ Forall (fun b => b.2 = true -> b.1 < rounded 40) [(104, false); (65384, true)]) \/
     (p mod 8 = 0 /\ exists n, 40 <= n /\
        demo_heap1.(heap_start) < p /\ p + n <= demo_heap1.(heap_start) + demo_heap1.(heap_total_size) /\
        Forall (apart (p, n)) (live demo_heap1.(heap_start) [(104, false); (65384, true)]) /\
        live demo_heap1.(heap_start) l' ≡ₚ (p, n) :: live demo_heap1.(heap_start) [(104, false); (65384, true)])).
Proof. apply (kmalloc_sound demo_heap1 _ 40 demo_heap1_repr). lia. Defined.

(** C3. Freeing a live pointer always returns, removes exactly that
    allocation, leaves every byte and every other allocation alone, and, with
    at most 10000 blocks, leaves no two adjacent free blocks. *)
Theorem kfree_sound h l p n :
  heap_repr h l -> (p, n) ∈ live h.(heap_start) l ->
  exists h' l', kfree p h = Some h' /\ heap_repr h' l' /\ h'.(data) = h.(data) /\
    live h.(heap_start) l ≡ₚ (p, n) :: live h.(heap_start) l' /\
    (zlen l <= 10000 -> no_adjacent_free l').
Proof.
  intros R Hin. destruct (kfree_live h l p n R Hin) as (h' & l' & Hk & R' & (_ & _ & Ed) & Hp & Hna).
  exists h', l'. split; [done|]. split; [done|]. split; [done|]. split; [done|].
  intros Hlen. apply Hna. unfold zlen in Hlen.
  change MAX_ITERATIONS with (Z.to_nat 10000). lia.
Qed.

Lemma kfree_sound_witness :
  exists h' l', kfree 4120 demo_heap1 = Some h' /\ heap_repr h' l' /\ h'.(data) = demo_heap1.(data) /\
    live demo_heap1.(heap_start) [(104, false); (65384, true)] ≡ₚ
      (4120, 104) :: live demo_heap1.(heap_start) l' /\
    (zlen [(104, false); (65384, true)] <= 10000 -> no_adjacent_free l').
Proof. apply (kfree_sound demo_heap1 _ 4120 104 demo_heap1_repr demo_heap1_live). Defined.

(** From initialisation, whatever sequence of allocations, frees and
    resizings of live pointers and of writes to data runs, the blocks tile the
    heap exactly and its statistics add up: free bytes, live bytes and one
    header per block make the total size. *)
Theorem kheap_reachable_accounting start_addr size_bytes h0 h :
  init_ok start_addr size_bytes -> rtc heap_step (kheap_init start_addr size_bytes h0) h ->
  exists l free_size count,
    heap_repr h l /\ kheap_get_free_size h = Some free_size /\
    kheap_get_block_count h = Some count /\
    free_size + live_total (live start_addr l) + sizeof_KHeapBlock * count = size_bytes /\
    kheap_get_total_size h = size_bytes.
Proof.
  intros Hok Hs. pose proof (kheap_init_repr _ _ h0 Hok) as R0.
  destruct (heap_steps_repr _ _ Hs _ R0) as (l & R & Es & Et).
  assert (Ei : heap_start (kheap_init start_addr size_bytes h0) = start_addr /\
               heap_total_size (kheap_init start_addr size_bytes h0) = size_bytes).
  { destruct Hok as (? & ? & ? & ? & ?). unfold kheap_init.
    rewrite (proj2 (Z.eqb_neq _ NULL)), (proj2 (Z.ltb_ge _ _)) by (unfold NULL; lia). done. }
  destruct Ei as [Es0 Et0]. rewrite Es0 in Es. rewrite Et0 in Et.
  pose proof (repr_extent _ _ R) as Hx. pose proof (repr_end _ _ R) as Hend. destruct (repr_start _ _ R) as [? _].
  assert (Hpos : Forall (fun b : ablock => 0 <= if b.2 then b.1 else 0) l)
    by (eapply list.Forall_impl; [exact (repr_ok _ _ R)|]; intros [s []] ?; hz).
  set (ff := fun b => if is_free b then size b else 0).
  assert (Hbound : 0 <= sum_stat ff l <= extent l /\ 0 <= sum_stat (fun _ => 1) l <= extent l).
  { pose proof (repr_ok _ _ R) as Ho. clear -Ho. subst ff.
    induction Ho as [|[s []] l Hs Hl IH]; cbn [sum_stat extent is_free size] in *; hz. }
  exists l, (sum_stat ff l), (sum_stat (fun _ => 1) l). split; [done|].
  split; [apply (kheap_stat ff); [done|done|exact Hpos|lia]|].
  split; [apply (kheap_stat (fun _ => 1)); [done|done|by apply Forall_true|lia]|].
  split; [|done]. rewrite <- Et, <- Hx. apply accounting.
Qed.

Lemma kheap_reachable_accounting_witness :
  exists l free_size count,
    heap_repr demo_heap1 l /\ kheap_get_free_size demo_heap1 = Some free_size /\
    kheap_get_block_count demo_heap1 = Some count /\
    free_size + live_total (live 4096 l) + sizeof_KHeapBlock * count = 65536 /\
    kheap_get_total_size demo_heap1 = 65536.
Proof.
  apply (kheap_reachable_accounting 4096 65536 (mk_heap 0 0 ∅ ∅) demo_heap1 demo_init_ok).
  apply rtc_once. apply (step_kmalloc _ 100 4120); [lia|by vm_compute].
Defined.

(** Resizing a live allocation always returns: it keeps the block when it
    is large enough, or fails without changing anything, or moves it: the new
    pointer has room for the request, the first [n] bytes are the old
    contents, no byte outside them changes, and the old pointer is freed. *)
Theorem krealloc_preserves h l p n sz :
  heap_repr h l -> (p, n) ∈ live h.(heap_start) l -> 0 < sz < 2 ^ 64 - 16 ->
  exists q h' l', krealloc p sz h = Some (q, h') /\ heap_repr h' l' /\
    ((q = p /\ h' = h /\ sz <= n) \/ (q = NULL /\ h' = h) \/
     (q mod 8 = 0 /\ exists m, sz <= m /\ apart (p, n) (q, m) /\
        (p, n) :: live h.(heap_start) l' ≡ₚ (q, m) :: live h.(heap_start) l /\
        forall x, h'.(data) !! x = if decide (q <= x < q + n) then h.(data) !! (p + (x - q)) else h.(data) !! x)).
Proof.
  intros R Hin Hsz. destruct (krealloc_live h l p n sz R Hin Hsz) as (q & h' & l' & Hk & R' & _ & Hc).
  exists q, h', l'. split; [done|]. split; [done|]. tauto.
Qed.

Lemma krealloc_preserves_witness :
  exists q h' l', krealloc 4120 500 demo_heap1 = Some (q, h') /\ heap_repr h' l' /\
    ((q = 4120 /\ h' = demo_heap1 /\ 500 <= 104) \/ (q = NULL /\ h' = demo_heap1) \/
     (q mod 8 = 0 /\ exists m, 500 <= m /\ apart (4120, 104) (q, m) /\
        (4120, 104) :: live demo_heap1.(heap_start) l' ≡ₚ
          (q, m) :: live demo_heap1.(heap_start) [(104, false); (65384, true)] /\
        forall x, h'.(data) !! x =
          if decide (q <= x < q + 104) then demo_heap1.(data) !! (4120 + (x - q)) else demo_heap1.(data) !! x)).
Proof. apply (krealloc_preserves demo_heap1 _ 4120 104 500 demo_heap1_repr demo_heap1_live). lia. Defined.

(** The rounding of [kmalloc] wraps: for the seven largest requests it
    becomes 0 and then the minimum, so as soon as one free block exists the
    call succeeds with a block that is smaller than the request. *)
Theorem kmalloc_wraps h l s sz :
  heap_repr h l -> (s, true) ∈ l -> 2 ^ 64 - 7 <= sz < 2 ^ 64 ->
  exists p h' l' n, kmalloc sz h = Some (p, h') /\ p <> NULL /\ heap_repr h' l' /\
    (p, n) ∈ live h.(heap_start) l' /\ n < sz.
Proof.
  intros R Hin Hsz. destruct (kmalloc_repr h l sz R) as (h' & p & l' & Hk & (Es & Et & _) & Hlm & R' & _); [pow2; lia|].
  assert (Hr : rounded sz = KHEAP_MIN_BLOCK_SIZE).
  { unfold rounded. rewrite align8_alt. replace (u64 (sz + 7)) with (sz + 7 - 2 ^ 64) by (widths; lia).
    rewrite (proj2 (Z.ltb_lt _ _)); [done|]. pow2. hz. }
  rewrite Hr in Hlm. unfold list_malloc in Hlm.
  destruct (first_fit KHEAP_MIN_BLOCK_SIZE l) as [[[l1 s1] l2]|] eqn:Ef.
  - injection Hlm as <- <-. apply first_fit_Some in Ef as (-> & Hle & _).
    destruct (at_bounds h l1 l2 s1 true R) as (? & _). destruct (repr_start _ _ R) as [? _].
    destruct (live_carve (heap_start h) KHEAP_MIN_BLOCK_SIZE s1 l1 l2) as [m Hm]. destruct (Hm Hle) as [Hp _].
    assert (Hmin : (heap_start h + extent l1 + sizeof_KHeapBlock, m) ∈
              live (heap_start h) (l1 ++ carve KHEAP_MIN_BLOCK_SIZE s1 ++ l2))
      by (rewrite Hp; apply list_elem_of_here).
    eexists _, h', _, m. split; [exact Hk|]. split; [unfold NULL; hz|]. split; [exact R'|]. split; [done|].
    rewrite <- Es in Hmin. pose proof (live_bounds _ _ _ _ (repr_ok _ _ R') Hmin) as Hb.
    rewrite (repr_extent _ _ R'), Es, Et in Hb. pose proof (repr_end _ _ R). pow2. hz.
  - apply first_fit_None in Ef. rewrite list.Forall_forall in Ef. specialize (Ef _ Hin eq_refl).
    pose proof (repr_ok _ _ R) as Hok. rewrite list.Forall_forall in Hok. specialize (Hok _ Hin). hz.
Qed.

Lemma kmalloc_wraps_witness :
  exists p h' l' n, kmalloc (2 ^ 64 - 1) demo_heap = Some (p, h') /\ p <> NULL /\ heap_repr h' l' /\
    (p, n) ∈ live demo_heap.(heap_start) l' /\ n < 2 ^ 64 - 1.
Proof.
  apply (kmalloc_wraps demo_heap _ 65512 (2 ^ 64 - 1) demo_heap_repr); [apply list_elem_of_here|lia].
Defined.
