(* ===== verification/Vmm.v ===== *)
(** Virtual memory manager (src/mm/vmm.c, src/mm/vmm.h): four-level x86-64
    page tables reached through the direct map.

    [mem] is the memory the manager reads and writes, as 64-bit little-endian
    words at 8-aligned addresses; page directories ([page_directory_t]) are two
    such words, the physical and the virtual address of the PML4.  TLB
    invalidation has no effect on this state and log calls are omitted. *)
From S2P Require Import Prelude Pmm.

(** ** Constants and macros of vmm.h *)
Definition PAGE_SIZE : Z := 4096.
Definition PAGE_PRESENT : Z := Z.shiftl 1 0.
Definition PAGE_RW : Z := Z.shiftl 1 1.
Definition PAGE_USER : Z := Z.shiftl 1 2.
Definition PAGE_HUGE : Z := Z.shiftl 1 7.
Definition PAGE_NX : Z := Z.shiftl 1 63.
Definition PAGE_FRAME_MASK : Z := 0x000FFFFFFFFFF000.
Definition PML4_INDEX (vaddr : Z) : Z := Z.land (Z.shiftr vaddr 39) 0x1FF.
Definition PDPT_INDEX (vaddr : Z) : Z := Z.land (Z.shiftr vaddr 30) 0x1FF.
Definition PD_INDEX (vaddr : Z) : Z := Z.land (Z.shiftr vaddr 21) 0x1FF.
Definition PT_INDEX (vaddr : Z) : Z := Z.land (Z.shiftr vaddr 12) 0x1FF.
Definition PAGE_OFFSET (vaddr : Z) : Z := Z.land vaddr 0xFFF.
Definition PAGE_ALIGN_DOWN (addr : Z) : Z := Z.land addr (2 ^ 64 - PAGE_SIZE).
Definition PAGE_ALIGN_UP (addr : Z) : Z := Z.land (u64 (addr + PAGE_SIZE - 1)) (2 ^ 64 - PAGE_SIZE).

(** ** State *)
Record vmm := mk_vmm {
  v_pmm : pmm;
  mem : gmap Z Z;
  hhdm_offset : Z;
  kernel_directory : Z;  (** address of the static [kernel_directory] *)
  current_directory : Z;
  cr3 : Z
}.

Definition with_pmm (s : vmm) (p : pmm) : vmm :=
  mk_vmm p s.(mem) s.(hhdm_offset) s.(kernel_directory) s.(current_directory) s.(cr3).
Definition with_mem (s : vmm) (m : gmap Z Z) : vmm :=
  mk_vmm s.(v_pmm) m s.(hhdm_offset) s.(kernel_directory) s.(current_directory) s.(cr3).
Definition with_current (s : vmm) (d : Z) : vmm :=
  mk_vmm s.(v_pmm) s.(mem) s.(hhdm_offset) s.(kernel_directory) d s.(cr3).

Definition load (s : vmm) (a : Z) : Z := default 0 (s.(mem) !! a).
Definition store (a v : Z) (s : vmm) : vmm := with_mem s (<[a := v]> s.(mem)).

(** [table[index]] of a page table, and the fields of a directory. *)
Definition entry_addr (table index : Z) : Z := table + 8 * index.
Definition entry (s : vmm) (table index : Z) : Z := load s (entry_addr table index).
Definition set_entry (table index v : Z) (s : vmm) : vmm := store (entry_addr table index) v s.
Definition dir_pml4_phys (s : vmm) (dir : Z) : Z := load s dir.
Definition dir_pml4 (s : vmm) (dir : Z) : Z := load s (dir + 8).

Definition flag (e f : Z) : bool := negb (Z.land e f =? 0).

(** ** Internal functions *)
Definition phys_to_virt (s : vmm) (phys : Z) : Z := u64 (phys + s.(hhdm_offset)).
Definition virt_to_phys (s : vmm) (virt : Z) : Z := u64 (virt - s.(hhdm_offset)).

Definition alloc_table (s : vmm) : Z * vmm :=
  let '(table, p) := pmm_alloc_block s.(v_pmm) in
  let s := with_pmm s p in
  if table =? NULL then (NULL, s)
  else (table, for_loop 512 0 (fun i s => set_entry table i 0 s) s).

Definition free_table (table : Z) (s : vmm) : vmm := with_pmm s (pmm_free_block table s.(v_pmm)).

Definition get_or_create_table (table index flags : Z) (s : vmm) : Z * vmm :=
  if flag (entry s table index) PAGE_PRESENT then
    let s := if flag flags PAGE_USER
             then set_entry table index (Z.lor (entry s table index) PAGE_USER) s else s in
    let phys := Z.land (entry s table index) PAGE_FRAME_MASK in
    (phys_to_virt s phys, s)
  else
    let '(new_table, s) := alloc_table s in
    if new_table =? NULL then (NULL, s)
    else
      let phys := virt_to_phys s new_table in
      let s := set_entry table index
                 (Z.lor (Z.lor (Z.lor phys PAGE_PRESENT) PAGE_RW) (Z.land flags PAGE_USER)) s in
      (new_table, s).

Definition get_table (s : vmm) (table index : Z) : Z :=
  if negb (flag (entry s table index) PAGE_PRESENT) then NULL
  else phys_to_virt s (Z.land (entry s table index) PAGE_FRAME_MASK).

(** ** Public functions *)
Definition vmm_init (get_hhdm_offset : Z) (s : vmm) : vmm :=
  let s := mk_vmm s.(v_pmm) s.(mem) get_hhdm_offset s.(kernel_directory) s.(current_directory) s.(cr3) in
  let pml4_phys := Z.land s.(cr3) PAGE_FRAME_MASK in
  let s := store s.(kernel_directory) pml4_phys s in
  let s := store (s.(kernel_directory) + 8) (phys_to_virt s pml4_phys) s in
  with_current s s.(kernel_directory).

Definition vmm_get_kernel_cr3 (s : vmm) : Z := dir_pml4_phys s s.(kernel_directory).

Definition vmm_map_page (phys virt flags : Z) (s : vmm) : vmm :=
  let phys := PAGE_ALIGN_DOWN phys in
  let virt := PAGE_ALIGN_DOWN virt in
  let pml4 := dir_pml4 s s.(current_directory) in
  let '(pdpt, s) := get_or_create_table pml4 (PML4_INDEX virt) flags s in
  if pdpt =? NULL then s
  else
    let '(pd, s) := get_or_create_table pdpt (PDPT_INDEX virt) flags s in
    if pd =? NULL then s
    else
      let '(pt, s) := get_or_create_table pd (PD_INDEX virt) flags s in
      if pt =? NULL then s
      else
        set_entry pt (PT_INDEX virt)
          (Z.lor (Z.lor phys (Z.land flags (Z.lor 0xFFF PAGE_NX))) PAGE_PRESENT) s.

Definition vmm_unmap_page (virt : Z) (s : vmm) : vmm :=
  let virt := PAGE_ALIGN_DOWN virt in
  let pml4 := dir_pml4 s s.(current_directory) in
  let pdpt := get_table s pml4 (PML4_INDEX virt) in
  if pdpt =? NULL then s
  else
    let pd := get_table s pdpt (PDPT_INDEX virt) in
    if pd =? NULL then s
    else
      let pt := get_table s pd (PD_INDEX virt) in
      if pt =? NULL then s else set_entry pt (PT_INDEX virt) 0 s.

Definition vmm_switch_directory (dir : Z) (s : vmm) : Z * vmm :=
  if dir =? NULL then (-1, s)
  else (0, mk_vmm s.(v_pmm) s.(mem) s.(hhdm_offset) s.(kernel_directory) dir (dir_pml4_phys s dir)).

Definition vmm_get_directory (s : vmm) : Z := s.(current_directory).

Definition vmm_get_physical (s : vmm) (virt : Z) : Z :=
  let virt := PAGE_ALIGN_DOWN virt in
  let pml4 := dir_pml4 s s.(current_directory) in
  let pdpt := get_table s pml4 (PML4_INDEX virt) in
  if pdpt =? NULL then 0
  else
    let pd := get_table s pdpt (PDPT_INDEX virt) in
    if pd =? NULL then 0
    else if flag (entry s pd (PD_INDEX virt)) PAGE_HUGE then
      u64 (Z.land (entry s pd (PD_INDEX virt)) PAGE_FRAME_MASK + Z.land virt 0x1FFFFF)
    else
      let pt := get_table s pd (PD_INDEX virt) in
      if pt =? NULL then 0
      else if negb (flag (entry s pt (PT_INDEX virt)) PAGE_PRESENT) then 0
      else u64 (Z.land (entry s pt (PT_INDEX virt)) PAGE_FRAME_MASK + PAGE_OFFSET virt).

Definition vmm_is_mapped (s : vmm) (virt : Z) : bool := negb (vmm_get_physical s virt =? 0).

(** Body of the page loop of [vmm_set_user_accessible]. *)
Definition set_user_page (addr : Z) (s : vmm) : vmm :=
  let pml4 := dir_pml4 s s.(current_directory) in
  let user t i s := set_entry t i (Z.lor (entry s t i) PAGE_USER) s in
  let present s t i := flag (entry s t i) PAGE_PRESENT in
  if present s pml4 (PML4_INDEX addr) then
    let s := user pml4 (PML4_INDEX addr) s in
    let pdpt := get_table s pml4 (PML4_INDEX addr) in
    if negb (pdpt =? NULL) && present s pdpt (PDPT_INDEX addr) then
      let s := user pdpt (PDPT_INDEX addr) s in
      let pd := get_table s pdpt (PDPT_INDEX addr) in
      if negb (pd =? NULL) && present s pd (PD_INDEX addr) then
        let s := user pd (PD_INDEX addr) s in
        let pt := get_table s pd (PD_INDEX addr) in
        if negb (pt =? NULL) && present s pt (PT_INDEX addr)
        then user pt (PT_INDEX addr) s else s
      else s
    else s
  else s.

Definition vmm_set_user_accessible (start size : Z) (s : vmm) : vmm :=
  let start := PAGE_ALIGN_DOWN start in
  let end_ := PAGE_ALIGN_UP (u64 (start + size)) in
  for_loop (Z.to_nat ((end_ - start + PAGE_SIZE - 1) / PAGE_SIZE)) 0
    (fun i s => set_user_page (start + i * PAGE_SIZE) s) s.

Definition vmm_get_kernel_directory (s : vmm) : Z := s.(kernel_directory).

(** The two copies that fill the PML4 of a new directory. *)
Definition copy_kernel_half (pml4 : Z) (s : vmm) : vmm :=
  for_loop 256 256 (fun i s =>
    set_entry pml4 i (entry s (dir_pml4 s s.(kernel_directory)) i) s) s.

Definition copy_first (pml4 : Z) (s : vmm) : vmm :=
  let k0 := entry s (dir_pml4 s s.(kernel_directory)) 0 in
  if flag k0 PAGE_PRESENT then set_entry pml4 0 k0 s else s.

Definition vmm_create_directory (s : vmm) : Z * vmm :=
  let '(dir, p) := pmm_alloc_block s.(v_pmm) in
  let s := with_pmm s p in
  if dir =? NULL then (NULL, s)
  else
    let '(pml4, s) := alloc_table s in
    if pml4 =? NULL then (NULL, with_pmm s (pmm_free_block dir s.(v_pmm)))
    else
      let s := store (dir + 8) pml4 s in
      let s := store dir (virt_to_phys s pml4) s in
      (dir, copy_first pml4 (copy_kernel_half pml4 s)).

(** The bodies of the three nested loops of [vmm_free_directory]. *)
Definition free_pd_slot (pd k : Z) (s : vmm) : vmm :=
  if negb (flag (entry s pd k) PAGE_PRESENT) then s
  else if flag (entry s pd k) PAGE_HUGE then s
  else
    let pt := get_table s pd k in
    if negb (pt =? NULL) then free_table pt s else s.

Definition free_pdpt_slot (pdpt j : Z) (s : vmm) : vmm :=
  if negb (flag (entry s pdpt j) PAGE_PRESENT) then s
  else
    let pd := get_table s pdpt j in
    if pd =? NULL then s
    else
      let s := for_loop 512 0 (free_pd_slot pd) s in
      free_table pd s.

Definition free_pml4_slot (pml4 i : Z) (s : vmm) : vmm :=
  if negb (flag (entry s pml4 i) PAGE_PRESENT) then s
  else
    let pdpt := get_table s pml4 i in
    if pdpt =? NULL then s
    else
      let s := for_loop 512 0 (free_pdpt_slot pdpt) s in
      free_table pdpt s.

Definition vmm_free_directory (dir : Z) (s : vmm) : vmm :=
  if (dir =? NULL) || (dir =? s.(kernel_directory)) then s
  else
    let pml4 := dir_pml4 s dir in
    let s := for_loop 256 0 (free_pml4_slot pml4) s in
    let s := free_table pml4 s in
    with_pmm s (pmm_free_block dir s.(v_pmm)).

Definition vmm_get_phys_addr (s : vmm) (dir virt_addr : Z) : Z :=
  if dir =? NULL then 0
  else
    let virt := PAGE_ALIGN_DOWN virt_addr in
    let pdpt := get_table s (dir_pml4 s dir) (PML4_INDEX virt) in
    if pdpt =? NULL then 0
    else
      let pd := get_table s pdpt (PDPT_INDEX virt) in
      if pd =? NULL then 0
      else if flag (entry s pd (PD_INDEX virt)) PAGE_HUGE then
        u64 (Z.land (entry s pd (PD_INDEX virt)) PAGE_FRAME_MASK + Z.land virt 0x1FFFFF)
      else
        let pt := get_table s pd (PD_INDEX virt) in
        if pt =? NULL then 0
        else if negb (flag (entry s pt (PT_INDEX virt)) PAGE_PRESENT) then 0
        else Z.land (entry s pt (PT_INDEX virt)) PAGE_FRAME_MASK.

Definition vmm_map_page_in_dir (dir phys virt flags : Z) (s : vmm) : Z * vmm :=
  if dir =? NULL then (-1, s)
  else
    let saved := s.(current_directory) in
    let s := with_current s dir in
    let s := vmm_map_page phys virt flags s in
    (0, with_current s saved).

Definition vmm_clone_directory (src : Z) (s : vmm) : Z * vmm :=
  if src =? NULL then (NULL, s)
  else
    let '(dst, s) := vmm_create_directory s in
    if dst =? NULL then (NULL, s)
    else
      (dst, for_loop 256 0 (fun i s =>
        set_entry (dir_pml4 s dst) i (entry s (dir_pml4 s src) i) s) s).

Definition vmm_is_mapped_in_dir (s : vmm) (dir virt : Z) : bool :=
  negb (vmm_get_phys_addr s dir virt =? 0).

(** Byte store into the word memory. *)
Definition store_byte (a v : Z) (s : vmm) : vmm :=
  let k := 8 * (a mod 8) in
  let w := load s (a - a mod 8) in
  store (a - a mod 8) (Z.lor (Z.land w (Z.lnot (Z.shiftl 0xFF k))) (Z.shiftl v k)) s.

(** The page-by-page loop that [vmm_copy_to_dir] and [vmm_memset_in_dir]
    share: [byte i] is the byte for the [i]-th address.  Each turn writes at
    least one byte, so [remaining] turns are enough. *)
Fixpoint write_pages (fuel : nat) (dir : Z) (byte : Z -> Z) (done current_virt remaining : Z)
    (s : vmm) : Z * vmm :=
  match fuel with
  | O => (0, s)
  | S fuel' =>
      if remaining <=? 0 then (0, s)
      else
        let page_virt := PAGE_ALIGN_DOWN current_virt in
        let offset := current_virt - page_virt in
        let phys := vmm_get_phys_addr s dir page_virt in
        if phys =? 0 then (-1, s)
        else
          let bytes_in_page := PAGE_SIZE - offset in
          let to_copy := if remaining <? bytes_in_page then remaining else bytes_in_page in
          let dst_ptr := u64 (phys_to_virt s phys + offset) in
          let s := for_loop (Z.to_nat to_copy) 0 (fun i s =>
                     store_byte (u64 (dst_ptr + i)) (byte (done + i)) s) s in
          write_pages fuel' dir byte (done + to_copy) (u64 (current_virt + to_copy)) (remaining - to_copy) s
  end.

(** [src] is [None] for a null pointer. *)
Definition vmm_copy_to_dir (dir dst_virt : Z) (src : option (list Z)) (size : Z) (s : vmm) : Z * vmm :=
  match src with
  | None => (-1, s)
  | Some bytes =>
      if (dir =? NULL) || (size =? 0) then (-1, s)
      else write_pages (Z.to_nat size) dir (rd0 bytes) 0 dst_virt size s
  end.

Definition vmm_memset_in_dir (dir dst_virt value size : Z) (s : vmm) : Z * vmm :=
  if (dir =? NULL) || (size =? 0) then (-1, s)
  else write_pages (Z.to_nat size) dir (fun _ => value) 0 dst_virt size s.

Definition vmm_phys_to_virt (s : vmm) (phys : Z) : Z := phys_to_virt s phys.
Definition vmm_virt_to_phys (s : vmm) (virt : Z) : Z := virt_to_phys s virt.

(** ** Bits of an entry *)
Lemma flag_bit e k : 0 <= k -> flag e (Z.shiftl 1 k) = Z.testbit e k.
Proof. intros. unfold flag. rewrite land_bit_eqb by done. apply negb_involutive. Qed.

Definition present (e : Z) : bool := Z.testbit e 0.
Definition huge (e : Z) : bool := Z.testbit e 7.
Definition frame (e : Z) : Z := Z.land e PAGE_FRAME_MASK.

Lemma flag_present e : flag e PAGE_PRESENT = present e.
Proof. by apply flag_bit. Qed.
Lemma flag_huge e : flag e PAGE_HUGE = huge e.
Proof. by apply flag_bit. Qed.

Lemma testbit_ones_shift n m k :
  0 <= n -> 0 <= m -> 0 <= k ->
  Z.testbit (Z.shiftl (Z.ones n) m) k = (m <=? k) && (k <? m + n).
Proof.
  intros. rewrite Z.shiftl_spec by done. destruct (m <=? k) eqn:E; bool_hyps; cbn.
  - destruct (k <? m + n) eqn:E2; bool_hyps;
      [apply Z.ones_spec_low; lia|apply Z.ones_spec_high; lia].
  - apply Z.testbit_neg_r. lia.
Qed.

Lemma testbit_mask k : 0 <= k -> Z.testbit PAGE_FRAME_MASK k = (12 <=? k) && (k <? 52).
Proof. intros. apply (testbit_ones_shift 40 12); lia. Qed.

Lemma testbit_frame e k : 0 <= k -> Z.testbit (frame e) k = Z.testbit e k && ((12 <=? k) && (k <? 52)).
Proof. intros. unfold frame. by rewrite Z.land_spec, testbit_mask. Qed.

(** Bit [k] of a page-aligned address below 2^52. *)
Lemma testbit_block b k :
  0 <= b < 2 ^ 40 -> 0 <= k -> Z.testbit (b * 4096) k = true -> 12 <= k < 52.
Proof.
  intros Hb Hk Ht. change 4096 with (2 ^ 12) in Ht.
  rewrite Z.mul_pow2_bits in Ht by lia.
  destruct (decide (k < 12)); [rewrite Z.testbit_neg_r in Ht; [done|lia]|].
  split; [lia|]. destruct (decide (k < 52)); [done|].
  rewrite <- (Z.mod_small b (2 ^ 40)), Z.mod_pow2_bits_high in Ht by lia. done.
Qed.

(** An entry made of a frame address and attribute bits outside the frame
    field holds that frame. *)
Lemma frame_lor b a :
  0 <= b < 2 ^ 40 -> (forall k, 12 <= k < 52 -> Z.testbit a k = false) ->
  frame (Z.lor (b * 4096) a) = b * 4096.
Proof.
  intros Hb Ha. apply Z.bits_inj'. intros k Hk. rewrite testbit_frame, Z.lor_spec by done.
  destruct (Z.testbit (b * 4096) k) eqn:E.
  - apply testbit_block in E; [|done..]. cbn. lia.
  - destruct ((12 <=? k) && (k <? 52)) eqn:Er; [|apply andb_false_r].
    bool_hyps. by rewrite Ha by lia.
Qed.

(** Entries that differ at most in the user bit. *)
Definition sim (e e' : Z) : Prop := Z.lor e PAGE_USER = Z.lor e' PAGE_USER.

Lemma sim_refl e : sim e e.
Proof. done. Qed.
Lemma sim_user e : sim e (Z.lor e PAGE_USER).
Proof. unfold sim. by rewrite <- Z.lor_assoc, Z.lor_diag. Qed.
Lemma sim_bit e e' k : sim e e' -> 0 <= k -> k <> 2 -> Z.testbit e k = Z.testbit e' k.
Proof.
  intros H Hk Hne. pose proof (f_equal (fun x => Z.testbit x k) H) as Hb. cbn beta in Hb.
  rewrite !Z.lor_spec in Hb. unfold PAGE_USER in Hb. rewrite testbit_pow2 in Hb by lia.
  destruct (2 =? k) eqn:E; bool_hyps; [lia|]. by rewrite !orb_false_r in Hb.
Qed.
Lemma sim_present e e' : sim e e' -> present e = present e'.
Proof. intros H. by apply (sim_bit _ _ 0 H). Qed.
Lemma sim_huge e e' : sim e e' -> huge e = huge e'.
Proof. intros H. by apply (sim_bit _ _ 7 H). Qed.
Lemma sim_frame e e' : sim e e' -> frame e = frame e'.
Proof.
  intros H. apply Z.bits_inj'. intros k Hk. rewrite !testbit_frame by done.
  destruct (decide (k = 2)) as [->|]; [by rewrite !andb_false_r|].
  by rewrite (sim_bit _ _ k H).
Qed.
Lemma bound_bits n x : 0 <= n -> (forall k, n <= k -> Z.testbit x k = false) -> 0 <= x < 2 ^ n.
Proof.
  intros Hn Hx. replace x with (x mod 2 ^ n); [apply Z.mod_pos_bound; lia|].
  apply Z.bits_inj'. intros k Hk. destruct (decide (k < n)).
  - by rewrite Z.mod_pow2_bits_low by lia.
  - rewrite Z.mod_pow2_bits_high by lia. by rewrite Hx by lia.
Qed.
Lemma u64_high x k : is_u64 x -> 64 <= k -> Z.testbit x k = false.
Proof. intros Hx ?. rewrite <- (u64_small x) by done. apply Z.mod_pow2_bits_high. lia. Qed.
Lemma lor_u64 a b : is_u64 a -> is_u64 b -> is_u64 (Z.lor a b).
Proof. intros. apply bound_bits; [lia|]. intros. by rewrite Z.lor_spec, !u64_high. Qed.
Lemma land_u64 a b : is_u64 b -> is_u64 (Z.land a b).
Proof. intros. apply bound_bits; [lia|]. intros k ?. by rewrite Z.land_spec, (u64_high b k), andb_false_r. Qed.

(** ** Virtual addresses

    The 36 bits that select a page, and how the four indices make them up. *)
Definition page (v : Z) : Z := (v / 4096) mod 2 ^ 36.

Lemma index_eq v k : 0 <= k -> Z.land (Z.shiftr v k) 0x1FF = (v / 2 ^ k) mod 512.
Proof.
  intros. change 0x1FF with (Z.ones 9). rewrite Z.land_ones, Z.shiftr_div_pow2 by lia. done.
Qed.

Lemma align_down_eq a : is_u64 a -> PAGE_ALIGN_DOWN a = a - a mod 4096.
Proof. intros. by apply (land_align_down a 12). Qed.

Ltac indices :=
  unfold PML4_INDEX, PDPT_INDEX, PD_INDEX, PT_INDEX, page in *;
  rewrite ?index_eq in * by lia;
  change (2 ^ 39) with 549755813888 in *; change (2 ^ 30) with 1073741824 in *;
  change (2 ^ 21) with 2097152 in *; change (2 ^ 12) with 4096 in *;
  change (2 ^ 36) with 68719476736 in *.

Lemma index_range v :
  0 <= PML4_INDEX v < 512 /\ 0 <= PDPT_INDEX v < 512 /\ 0 <= PD_INDEX v < 512 /\ 0 <= PT_INDEX v < 512.
Proof. indices. lia. Qed.

Lemma page_indices v :
  page v = PML4_INDEX v * 2 ^ 27 + PDPT_INDEX v * 2 ^ 18 + PD_INDEX v * 2 ^ 9 + PT_INDEX v.
Proof.
  indices. change (2 ^ 27) with 134217728. change (2 ^ 18) with 262144. change (2 ^ 9) with 512. lia.
Qed.

Lemma page_align_down v : is_u64 v -> page (PAGE_ALIGN_DOWN v) = page v.
Proof. intros. rewrite align_down_eq by done. indices. lia. Qed.

Lemma page_inj v w :
  page v = page w ->
  PML4_INDEX v = PML4_INDEX w /\ PDPT_INDEX v = PDPT_INDEX w /\
  PD_INDEX v = PD_INDEX w /\ PT_INDEX v = PT_INDEX w.
Proof.
  rewrite !page_indices. pose proof (index_range v). pose proof (index_range w).
  change (2 ^ 27) with 134217728. change (2 ^ 18) with 262144. change (2 ^ 9) with 512. lia.
Qed.

(** ** The page map a directory denotes *)
Inductive mapping :=
| Unmapped
| Small (frame : Z)    (** a 4 KiB page *)
| Huge (frame : Z).    (** a 2 MiB page, from a page directory entry *)

Definition child (s : vmm) (t i : Z) : Z := phys_to_virt s (frame (entry s t i)).

Definition translate (s : vmm) (pml4 v : Z) : mapping :=
  if negb (present (entry s pml4 (PML4_INDEX v))) then Unmapped
  else
    let pdpt := child s pml4 (PML4_INDEX v) in
    if negb (present (entry s pdpt (PDPT_INDEX v))) then Unmapped
    else
      let pd := child s pdpt (PDPT_INDEX v) in
      let e := entry s pd (PD_INDEX v) in
      if huge e then Huge (frame e)
      else if negb (present e) then Unmapped
      else
        let pt := child s pd (PD_INDEX v) in
        let e := entry s pt (PT_INDEX v) in
        if present e then Small (frame e) else Unmapped.

(** The address both lookups return for a page. *)
Definition mapping_phys (m : mapping) (v : Z) : Z :=
  match m with
  | Unmapped => 0
  | Small f => f
  | Huge f => u64 (f + (v - v mod 4096) mod 0x200000)
  end.

(** ** Invariant

    [T] names the tables of the tree below the PML4 of the current directory,
    with their levels (4 = PML4, ..., 1 = page table). *)
Definition block_at (s : vmm) (b : Z) : Z := b * 4096 + s.(hhdm_offset).
Definition free_block (s : vmm) (b : Z) : Prop :=
  0 <= b < s.(v_pmm).(pmm_total_blocks) /\ b ∉ used_set s.(v_pmm).
Definition root (s : vmm) : Z := dir_pml4 s s.(current_directory).
Definition leads (s : vmm) (t i : Z) : Prop :=
  present (entry s t i) = true /\ huge (entry s t i) = false.

Record vmm_wf (s : vmm) : Prop := {
  vw_pmm : pmm_wf s.(v_pmm);
  vw_hhdm : s.(hhdm_offset) = s.(v_pmm).(pmm_hhdm_offset);
  vw_align : s.(hhdm_offset) mod 4096 = 0 /\ s.(current_directory) mod 8 = 0;
  vw_words : forall a, is_u64 (load s a)
}.

Record tree (s : vmm) (T : gmap Z Z) : Prop := {
  tr_root : T !! root s = Some 4;
  tr_level : forall t l, T !! t = Some l -> 1 <= l <= 4;
  tr_place : forall t l, T !! t = Some l ->
    exists b, t = block_at s b /\ 0 <= b < 2 ^ 40 /\ t + 4096 <= 2 ^ 64 /\ ~ free_block s b;
  (** the words of the current directory are not in a table nor in a free block *)
  tr_dir : forall b, 0 <= b ->
    free_block s b \/ is_Some (T !! block_at s b) ->
    ~ block_at s b <= s.(current_directory) + 8 < block_at s b + 4096;
  tr_child : forall t l i, T !! t = Some l -> 1 < l -> 0 <= i < 512 ->
    leads s t i -> T !! child s t i = Some (l - 1);
  tr_inj : forall t l i t' l' i', T !! t = Some l -> 1 < l -> 0 <= i < 512 -> leads s t i ->
    T !! t' = Some l' -> 1 < l' -> 0 <= i' < 512 -> leads s t' i' ->
    child s t i = child s t' i' -> t = t' /\ i = i';
  (** 2 MiB pages only: the code does not look at the size bit of a PDPT entry *)
  tr_huge : forall t l i, T !! t = Some l -> 1 < l -> 0 <= i < 512 ->
    huge (entry s t i) = true -> l = 2
}.

Record space (s : vmm) (T : gmap Z Z) : Prop := {
  sp_wf : vmm_wf s;
  sp_tree : tree s T
}.

Lemma table_nonnull s T t l : space s T -> T !! t = Some l -> 0 < t < 2 ^ 64.
Proof.
  intros [W Tr] Ht. destruct (tr_place _ _ Tr t l Ht) as (b & -> & Hb & Hu & _).
  pose proof (wf_hhdm _ (vw_pmm _ W)) as [Hh _]. rewrite <- (vw_hhdm _ W) in Hh.
  unfold block_at in *. lia.
Qed.

Lemma get_table_child s t i :
  get_table s t i = if present (entry s t i) then child s t i else NULL.
Proof. unfold get_table. rewrite flag_present. by destruct (present _). Qed.

Lemma frame_range e : 0 <= frame e < 2 ^ 52.
Proof.
  apply bound_bits; [lia|]. intros k Hk. rewrite testbit_frame by lia.
  destruct (k <? 52) eqn:E; bool_hyps; [lia|]. by rewrite !andb_false_r.
Qed.

(** The walk of the lookups, from a PML4 whose tables are not at address 0. *)
Definition tables_nonnull (s : vmm) (pml4 v : Z) : Prop :=
  (present (entry s pml4 (PML4_INDEX v)) = true -> child s pml4 (PML4_INDEX v) <> NULL) /\
  let pdpt := child s pml4 (PML4_INDEX v) in
  (present (entry s pml4 (PML4_INDEX v)) = true -> present (entry s pdpt (PDPT_INDEX v)) = true ->
     child s pdpt (PDPT_INDEX v) <> NULL /\
     let pd := child s pdpt (PDPT_INDEX v) in
     (leads s pd (PD_INDEX v) -> child s pd (PD_INDEX v) <> NULL)).

Lemma get_phys_addr_translate s dir v :
  is_u64 v -> dir <> NULL -> tables_nonnull s (dir_pml4 s dir) v ->
  vmm_get_phys_addr s dir v = mapping_phys (translate s (dir_pml4 s dir) v) v.
Proof.
  intros Hv Hd (N3 & N2). unfold vmm_get_phys_addr, translate.
  destruct (dir =? NULL) eqn:Ed; bool_hyps; [done|].
  destruct (page_inj _ _ (page_align_down v Hv)) as (-> & -> & -> & ->).
  rewrite !get_table_child, !flag_present, !flag_huge.
  destruct (present (entry s (dir_pml4 s dir) _)) eqn:P3; [|done]. cbn [negb].
  destruct (_ =? NULL) eqn:E3; bool_hyps; [by destruct N3|]. clear E3.
  destruct (present (entry s (child _ _ _) _)) eqn:P2; [|done]. cbn [negb].
  destruct (N2 eq_refl P2) as (N2' & N1). destruct (_ =? NULL) eqn:E2; bool_hyps; [done|]. clear E2.
  destruct (huge _) eqn:Hh.
  - cbn [mapping_phys]. f_equal. unfold frame. f_equal. rewrite align_down_eq by done.
    change 0x1FFFFF with (Z.ones 21). by rewrite Z.land_ones by lia.
  - destruct (present (entry s (child s (child _ _ _) _) _)) eqn:P1; [|done]. cbn [negb].
    destruct (_ =? NULL) eqn:E1; bool_hyps; [by destruct (N1 (conj P1 Hh))|]. clear E1.
    by destruct (present (entry s (child s (child s (child _ _ _) _) _) _)).
Qed.

Lemma get_physical_phys_addr s v :
  is_u64 v -> s.(current_directory) <> NULL ->
  vmm_get_physical s v = vmm_get_phys_addr s s.(current_directory) v.
Proof.
  intros Hv Hc. unfold vmm_get_physical, vmm_get_phys_addr.
  destruct (s.(current_directory) =? NULL) eqn:Ed; bool_hyps; [done|].
  repeat (case_if; [done|]).
  unfold PAGE_OFFSET. change 0xFFF with (Z.ones 12). rewrite Z.land_ones, align_down_eq by (done || lia).
  pose proof (frame_range (entry s (get_table s (get_table s (get_table s
    (dir_pml4 s s.(current_directory)) (PML4_INDEX (v - v mod 4096))) (PDPT_INDEX (v - v mod 4096)))
    (PD_INDEX (v - v mod 4096))) (PT_INDEX (v - v mod 4096)))) as Hf. unfold frame in Hf.
  change (2 ^ 52) with 4503599627370496 in Hf.
  replace ((v - v mod 4096) mod 2 ^ 12) with 0 by (change (2 ^ 12) with 4096; lia).
  rewrite Z.add_0_r. apply u64_small. widths. lia.
Qed.

Lemma space_nonnull s T v : space s T -> tables_nonnull s (root s) v.
Proof.
  intros Sp. pose proof (index_range v) as (R4 & R3 & R2 & R1). destruct (sp_tree _ _ Sp).
  assert (N : forall t l i, T !! t = Some l -> 1 < l -> 0 <= i < 512 -> leads s t i ->
            T !! child s t i = Some (l - 1) /\ child s t i <> NULL).
  { intros t l i Ht Hl Hi Hle. pose proof (tr_child0 t l i Ht Hl Hi Hle) as Hc. split; [done|].
    apply (table_nonnull s T) in Hc; [|done]. unfold NULL. lia. }
  assert (L : forall t l i, T !! t = Some l -> 2 < l -> 0 <= i < 512 ->
            present (entry s t i) = true -> leads s t i).
  { intros t l i Ht Hl Hi P. split; [done|]. destruct (huge _) eqn:E; [|done].
    assert (l = 2) by (apply (tr_huge0 t l i); [done|lia|done|done]). lia. }
  assert (Le4 : present (entry s (root s) (PML4_INDEX v)) = true -> leads s (root s) (PML4_INDEX v))
    by (intros; apply (L _ 4); done).
  split; [intros P; apply (N _ 4); auto; done|]. intros pdpt P4 P3.
  destruct (N (root s) 4 (PML4_INDEX v)) as [T3 _]; auto; [done|].
  destruct (N pdpt 3 (PDPT_INDEX v)) as [T2 ?]; [done..|by apply (L _ 3)|].
  split; [done|]. intros pd Le. by apply (N _ 2).
Qed.

(** ** Memory updates *)
Lemma load_store_eq a v s : load (store a v s) a = v.
Proof. unfold load, store. cbn. by rewrite lookup_insert_eq. Qed.
Lemma load_store_ne a b v s : a <> b -> load (store a v s) b = load s b.
Proof. intros. unfold load, store. cbn. by rewrite lookup_insert_ne. Qed.

Lemma slot_inj s b c i j :
  0 <= i < 512 -> 0 <= j < 512 ->
  entry_addr (block_at s b) i = entry_addr (block_at s c) j -> b = c /\ i = j.
Proof. unfold entry_addr, block_at. lia. Qed.

Lemma entry_set_eq t i e s : entry (set_entry t i e s) t i = e.
Proof. apply load_store_eq. Qed.

Lemma entry_set_ne s T t l t' l' i j e :
  tree s T -> T !! t = Some l -> T !! t' = Some l' -> 0 <= i < 512 -> 0 <= j < 512 ->
  (t', j) <> (t, i) -> entry (set_entry t i e s) t' j = entry s t' j.
Proof.
  intros Tr Ht Ht' Hi Hj Hne. apply load_store_ne. intros Heq.
  destruct (tr_place _ _ Tr t l Ht) as (b & -> & _). destruct (tr_place _ _ Tr t' l' Ht') as (c & -> & _).
  destruct (slot_inj s b c i j Hi Hj Heq) as [-> ->]. done.
Qed.

Lemma root_set_entry s T t l i e :
  tree s T -> T !! t = Some l -> 0 <= i < 512 -> root (set_entry t i e s) = root s.
Proof.
  intros Tr Ht Hi. unfold root, dir_pml4. apply load_store_ne.
  destruct (tr_place _ _ Tr t l Ht) as (b & -> & Hb & _). intros Heq.
  apply (tr_dir _ _ Tr b); [lia|right; by exists l|]. cbn in *. unfold entry_addr in Heq. lia.
Qed.

Lemma child_eq s s' t i t' j :
  hhdm_offset s' = hhdm_offset s -> frame (entry s' t i) = frame (entry s t' j) ->
  child s' t i = child s t' j.
Proof. intros Hh Hf. unfold child, phys_to_virt. by rewrite Hh, Hf. Qed.

(** Overwriting an entry with one that differs in the user bit only, or any
    entry of a page table, keeps the tree. *)
Lemma set_entry_space s T t l i e :
  space s T -> T !! t = Some l -> 0 <= i < 512 -> is_u64 e ->
  sim (entry s t i) e \/ l = 1 ->
  space (set_entry t i e s) T.
Proof.
  intros [W Tr] Ht Hi He Hsim.
  assert (Hroot : root (set_entry t i e s) = root s) by (by eapply root_set_entry).
  assert (Hs : forall t' l' j, T !! t' = Some l' -> 1 < l' -> 0 <= j < 512 ->
            sim (entry s t' j) (entry (set_entry t i e s) t' j)).
  { intros t' l' j Ht' Hl' Hj. destruct (decide ((t', j) = (t, i))) as [[= -> ->]|Hne].
    - rewrite entry_set_eq. destruct Hsim; [done|]. simplify_eq. lia.
    - by erewrite entry_set_ne by eauto. }
  assert (Hl : forall t' l' j, T !! t' = Some l' -> 1 < l' -> 0 <= j < 512 ->
            leads (set_entry t i e s) t' j -> leads s t' j).
  { intros t' l' j H1 H2 H3 [P H]. pose proof (Hs t' l' j H1 H2 H3) as S. unfold leads.
    by rewrite (sim_present _ _ S), (sim_huge _ _ S). }
  assert (Hc : forall t' l' j, T !! t' = Some l' -> 1 < l' -> 0 <= j < 512 ->
            child (set_entry t i e s) t' j = child s t' j).
  { intros. apply child_eq; [done|]. symmetry. by eapply sim_frame, Hs. }
  split.
  - destruct W as [? ? ? Hw]. split; [done..|]. intros a. destruct (decide (a = entry_addr t i)) as [->|].
    + unfold set_entry. by rewrite load_store_eq.
    + unfold set_entry. by rewrite load_store_ne.
  - destruct Tr as [? ? ? ? Tc Ti Th]. split; try done.
    + by rewrite Hroot.
    + intros t' l' j ? ? ? Le. erewrite Hc by eauto. apply Tc; eauto.
    + intros t1 l1 i1 t2 l2 i2 ? ? ? L1 ? ? ? L2. erewrite !Hc by eauto. apply (Ti t1 l1 i1 t2 l2 i2); eauto.
    + intros t' l' j ? ? ? H. apply (Th t' l' j); try done. by erewrite sim_huge by eauto.
Qed.

(** A fresh zeroed table in block [b], not linked anywhere yet. *)
Record fresh_table (s s' : vmm) (b : Z) : Prop := {
  ft_free : free_block s b;
  ft_pmm : s'.(v_pmm) = acquire b s.(v_pmm);
  ft_hhdm : s'.(hhdm_offset) = s.(hhdm_offset);
  ft_kdir : s'.(kernel_directory) = s.(kernel_directory);
  ft_cdir : s'.(current_directory) = s.(current_directory);
  ft_cr3 : s'.(cr3) = s.(cr3);
  ft_zero : forall j, 0 <= j < 512 -> entry s' (block_at s b) j = 0;
  ft_other : forall a, (a < block_at s b \/ block_at s b + 4096 <= a) -> load s' a = load s a;
  ft_words : forall a, load s' a = load s a \/ load s' a = 0
}.

Lemma with_pmm_id s : with_pmm s s.(v_pmm) = s.
Proof. by destruct s. Qed.

Lemma zero_loop_spec t s :
  let s' := for_loop 512 0 (fun i s => set_entry t i 0 s) s in
  s' = with_mem s s'.(mem) /\
  (forall j, 0 <= j < 512 -> entry s' t j = 0) /\
  (forall a, (a < t \/ t + 4096 <= a) -> load s' a = load s a) /\
  (forall a, load s' a = load s a \/ load s' a = 0).
Proof.
  intros s'.
  assert (H : s' = with_mem s s'.(mem) /\
    (forall j, 0 <= j < 0 + Z.of_nat 512 -> entry s' t j = 0) /\
    (forall a, (a < t \/ t + 8 * (0 + Z.of_nat 512) <= a) -> load s' a = load s a) /\
    (forall a, load s' a = load s a \/ load s' a = 0)).
  { subst s'. apply (for_loop_ind (fun k q => q = with_mem s q.(mem) /\
      (forall j, 0 <= j < k -> entry q t j = 0) /\
      (forall a, (a < t \/ t + 8 * k <= a) -> load q a = load s a) /\
      (forall a, load q a = load s a \/ load q a = 0))).
    - split_and!; [by destruct s|intros; lia|done|auto].
    - intros k q Hk (Hq & Hz & Ho & Hw). split_and!.
      + unfold set_entry, store. rewrite Hq at 1. done.
      + intros j Hj. destruct (decide (j = k)) as [->|]; [apply entry_set_eq|].
        unfold entry, set_entry. rewrite load_store_ne by (unfold entry_addr; lia). apply Hz. lia.
      + intros a Ha. unfold set_entry. rewrite load_store_ne by (unfold entry_addr; lia). apply Ho. lia.
      + intros a. unfold set_entry. destruct (decide (entry_addr t k = a)) as [<-|].
        * right. by rewrite load_store_eq.
        * rewrite load_store_ne by done. apply Hw. }
  destruct H as (? & ? & Ho & ?). split_and!; try done.
Qed.

Lemma alloc_table_cases s r s' :
  vmm_wf s -> alloc_table s = (r, s') ->
  (r = NULL /\ s' = s /\ (pmm_alloc_block s.(v_pmm)).1 = NULL) \/
  (exists b, r = block_at s b /\ fresh_table s s' b).
Proof.
  intros W. unfold alloc_table. destruct (pmm_alloc_block (v_pmm s)) as [a p'] eqn:Ea.
  pose proof (wf_total _ (vw_pmm _ W)) as Ht. pose proof (wf_hhdm _ (vw_pmm _ W)) as Hh.
  destruct (alloc_block_cases _ _ _ (vw_pmm _ W) Ea) as [(-> & -> & _)|(b & -> & -> & Hb & Hf & _)].
  - cbn. intros [= <- <-]. left. by rewrite with_pmm_id.
  - assert (Eb : block_ptr (v_pmm s) (Some b) = block_at s b).
    { cbn. unfold block_at. by rewrite (vw_hhdm _ W). }
    rewrite Eb. unfold scan_limit in Hb. destruct (_ =? NULL) eqn:En; bool_hyps.
    { exfalso. unfold block_at, NULL in En. rewrite (vw_hhdm _ W) in En. lia. }
    intros [= <- <-]. right. exists b. split; [done|].
    destruct (zero_loop_spec (block_at s b) (with_pmm s (acquire b (v_pmm s)))) as (Hq & Hz & Ho & Hw).
    split; try done; try (rewrite Hq; done).
    split; [lia|]. rewrite elem_of_used_set. intros [_ ?]. congruence.
Qed.

Lemma free_block_fresh s s' b c :
  vmm_wf s -> fresh_table s s' b -> free_block s' c <-> free_block s c /\ c <> b.
Proof.
  intros W F. destruct (ft_free _ _ _ F) as [Hb Hu]. unfold free_block. rewrite (ft_pmm _ _ _ F).
  destruct (acquire_frame b (v_pmm s)) as (-> & _).
  rewrite used_set_acquire by (done || apply W). set_solver.
Qed.

Lemma fresh_pmm_wf s s' b : vmm_wf s -> fresh_table s s' b -> vmm_wf s'.
Proof.
  intros W F. pose proof (ft_free _ _ _ F) as [Hb Hu]. destruct (acquire_frame b (v_pmm s)) as (_ & Eh & _).
  split.
  - rewrite (ft_pmm _ _ _ F). apply acquire_wf; [apply W|done|].
    destruct (block_used (v_pmm s) b) eqn:E; [|done]. destruct Hu. by apply elem_of_used_set.
  - rewrite (ft_pmm _ _ _ F), (ft_hhdm _ _ _ F), Eh. apply W.
  - rewrite (ft_hhdm _ _ _ F), (ft_cdir _ _ _ F). apply W.
  - intros a. destruct (ft_words _ _ _ F a) as [->| ->]; [apply W|by vm_compute].
Qed.

Lemma fresh_bounds s b : vmm_wf s -> free_block s b -> 0 <= b < 2 ^ 20 /\ block_at s b + 4096 <= 2 ^ 64 /\ 0 < block_at s b.
Proof.
  intros W [Hb _]. pose proof (wf_total _ (vw_pmm _ W)) as Ht. pose proof (wf_hhdm _ (vw_pmm _ W)) as Hh.
  rewrite <- (vw_hhdm _ W) in Hh. unfold block_at. unfold PMM_MAX_BLOCKS in Ht.
  change (PMM_MAX_MEMORY / PMM_BLOCK_SIZE) with (2 ^ 20) in Ht. change PMM_MAX_MEMORY with (2 ^ 20 * 4096) in Hh. lia.
Qed.

(** Old tables and the directory are untouched by a fresh allocation. *)
Lemma fresh_old s s' T b :
  tree s T -> fresh_table s s' b -> vmm_wf s ->
  root s' = root s /\
  (forall t l i, T !! t = Some l -> 0 <= i < 512 -> entry s' t i = entry s t i) /\
  T !! block_at s b = None.
Proof.
  intros Tr F W. pose proof (ft_free _ _ _ F) as Hf. pose proof (fresh_bounds s b W Hf) as (Hb & _ & _).
  assert (Hd : forall t l, T !! t = Some l -> exists c, t = block_at s c /\ 0 <= c /\ c <> b).
  { intros t l Ht. destruct (tr_place _ _ Tr t l Ht) as (c & -> & ? & _ & Hn). exists c.
    repeat split; [lia|]. intros ->. done. }
  split; [|split].
  - unfold root, dir_pml4. rewrite (ft_cdir _ _ _ F). apply (ft_other _ _ _ F).
    pose proof (tr_dir _ _ Tr b ltac:(lia) (or_introl Hf)). lia.
  - intros t l i Ht Hi. destruct (Hd t l Ht) as (c & -> & Hc & Hne). apply (ft_other _ _ _ F).
    unfold entry_addr, block_at. lia.
  - destruct (T !! block_at s b) as [l|] eqn:E; [|done]. destruct (Hd _ _ E) as (c & Ec & _ & ?).
    unfold block_at in Ec. lia.
Qed.

Lemma zero_bits : present 0 = false /\ huge 0 = false.
Proof. done. Qed.

(** Linking a fresh table into an absent entry. *)
Section link.
Context (s s1 : vmm) (T : gmap Z Z) (b t l i e : Z).
Context (Sp : space s T) (F : fresh_table s s1 b).
Context (Ht : T !! t = Some l) (Hl : 1 < l) (Hi : 0 <= i < 512).
Context (Hnp : present (entry s t i) = false).
Context (He : is_u64 e) (Hp : present e = true) (Hnh : huge e = false) (Hf : frame e = b * 4096).

Let s2 := set_entry t i e s1.
Let nb := block_at s b.
Let T2 := <[nb := l - 1]> T.

Lemma link_slot : exists c, t = block_at s c /\ 0 <= c /\ c <> b.
Proof.
  destruct Sp as [W Tr]. destruct (tr_place _ _ Tr t l Ht) as (c & Ec & ? & _ & Hn).
  exists c. repeat split; [done|lia|]. intros ->. by destruct Hn, F.
Qed.

Lemma link_entry_new : entry s2 t i = e.
Proof. apply entry_set_eq. Qed.

Lemma link_entry_old t' l' j :
  T !! t' = Some l' -> 0 <= j < 512 -> (t', j) <> (t, i) -> entry s2 t' j = entry s t' j.
Proof.
  destruct Sp as [W Tr]. intros Ht' Hj Hne. destruct (fresh_old s s1 T b Tr F W) as (_ & Ho & _).
  rewrite <- (Ho t' l' j) by done. apply load_store_ne. intros Heq.
  destruct (tr_place _ _ Tr t l Ht) as (c & -> & _). destruct (tr_place _ _ Tr t' l' Ht') as (c' & -> & _).
  by destruct (slot_inj s c c' i j Hi Hj Heq) as [-> ->].
Qed.

Lemma link_entry_zero j : 0 <= j < 512 -> entry s2 nb j = 0.
Proof.
  intros Hj. destruct link_slot as (c & Ec & Hc & Hne).
  rewrite <- (ft_zero _ _ _ F j Hj). apply load_store_ne. rewrite Ec. unfold nb, entry_addr, block_at. lia.
Qed.

Lemma link_child : child s2 t i = nb.
Proof.
  unfold child. rewrite link_entry_new, Hf. unfold phys_to_virt. cbn. rewrite (ft_hhdm _ _ _ F).
  destruct (fresh_bounds s b (sp_wf _ _ Sp) (ft_free _ _ _ F)) as (? & ? & ?).
  unfold nb, block_at in *. apply u64_small. split; lia.
Qed.

Lemma link_root : root s2 = root s.
Proof.
  destruct Sp as [W Tr]. destruct (fresh_old s s1 T b Tr F W) as (Hr & _). rewrite <- Hr.
  unfold root, dir_pml4. apply load_store_ne. cbn. rewrite (ft_cdir _ _ _ F).
  destruct link_slot as (c & Ec & Hc & _). rewrite Ec in *.
  pose proof (tr_dir _ _ Tr c Hc (or_intror (ex_intro _ l Ht))). unfold entry_addr. lia.
Qed.

Lemma link_old_child t' l' j :
  T !! t' = Some l' -> 0 <= j < 512 -> (t', j) <> (t, i) -> child s2 t' j = child s t' j.
Proof.
  intros. apply child_eq; [apply F|]. by erewrite link_entry_old by eauto.
Qed.

(** Entries of the new tree that lead to a table. *)
Lemma link_leads t' l' j :
  T2 !! t' = Some l' -> 1 < l' -> 0 <= j < 512 -> leads s2 t' j ->
  T !! t' = Some l' /\ ((t', j) = (t, i) /\ child s2 t' j = nb \/
    (t', j) <> (t, i) /\ leads s t' j /\ child s2 t' j = child s t' j /\ child s t' j <> nb).
Proof.
  intros Ht' Hl' Hj Le. unfold T2 in Ht'. rewrite lookup_insert_Some in Ht'.
  destruct Ht' as [[<- _]|[_ Ht']].
  { destruct Le as [P _]. rewrite link_entry_zero in P by done. done. }
  split; [done|]. destruct (decide ((t', j) = (t, i))) as [Heq|Hne].
  - left. split; [done|]. injection Heq as -> ->. apply link_child.
  - right. destruct Sp as [W Tr]. destruct (fresh_old s s1 T b Tr F W) as (_ & _ & Hn).
    assert (Le' : leads s t' j) by (unfold leads in *; by erewrite link_entry_old in Le by eauto).
    split_and!; [done|done|by eapply link_old_child|]. intros Hc.
    pose proof (tr_child _ _ Tr t' l' j Ht' Hl' Hj Le') as Hc'. rewrite Hc in Hc'. unfold nb in Hc'. congruence.
Qed.

Lemma link_tree : tree s2 T2.
Proof.
  destruct Sp as [W Tr]. destruct (fresh_old s s1 T b Tr F W) as (_ & _ & Hn).
  assert (Hfree : forall c, free_block s2 c <-> free_block s c /\ c <> b) by (intros; change (free_block s2 c) with (free_block s1 c); by apply free_block_fresh).
  assert (Hat : forall c, block_at s2 c = block_at s c) by (intros; unfold block_at; cbn; by rewrite (ft_hhdm _ _ _ F)).
  destruct (fresh_bounds s b W (ft_free _ _ _ F)) as (Hb & Hb2 & _).
  split.
  - rewrite link_root. unfold T2. rewrite lookup_insert_ne; [apply Tr|].
    intros E. pose proof (tr_root _ _ Tr) as Hr. rewrite <- E in Hr. unfold nb in *. congruence.
  - intros t' l' [[<- <-]|[_ ?]]%lookup_insert_Some; [pose proof (tr_level _ _ Tr t l Ht); lia|].
    by eapply tr_level.
  - intros t' l' [[<- <-]|[_ Ht']]%lookup_insert_Some.
    + exists b. rewrite Hat, Hfree. repeat split; [lia..|tauto].
    + destruct (tr_place _ _ Tr t' l' Ht') as (c & ? & ? & ? & ?). exists c. rewrite Hat, Hfree. tauto.
  - intros c Hc. rewrite Hat, Hfree. cbn. rewrite (ft_cdir _ _ _ F). intros H. apply (tr_dir _ _ Tr c Hc).
    destruct H as [[? _]|[l' [[E _]|[_ ?]]%lookup_insert_Some]]; [by left| |right; eauto].
    left. replace c with b by (unfold nb, block_at in E; lia). apply F.
  - intros t' l' j Ht' Hl' Hj Le. destruct (link_leads t' l' j Ht' Hl' Hj Le) as (HT & [[E ->]|(_ & Le' & -> & Hc)]).
    + unfold T2. rewrite lookup_insert_eq. congruence.
    + unfold T2. rewrite lookup_insert_ne by done. by apply Tr.
  - intros t1 l1 i1 t2 l2 i2 H1 ? ? L1 H2 ? ? L2 Hc.
    destruct (link_leads t1 l1 i1) as (HT1 & [[E1 C1]|(_ & Le1 & C1 & N1)]); try done;
    destruct (link_leads t2 l2 i2) as (HT2 & [[E2 C2]|(_ & Le2 & C2 & N2)]); try done; try congruence.
    + split; congruence.
    + eapply (tr_inj _ _ Tr t1 l1 i1 t2 l2 i2); eauto. congruence.
  - intros t' l' j [[<- <-]|[_ Ht']]%lookup_insert_Some ? Hj H; [by rewrite link_entry_zero in H|].
    destruct (decide ((t', j) = (t, i))) as [[= -> ->]|Hne]; [rewrite link_entry_new in H; congruence|].
    erewrite link_entry_old in H by eauto. by apply (tr_huge _ _ Tr t' l' j).
Qed.

Lemma link_space : space s2 T2.
Proof.
  split; [|apply link_tree]. pose proof (fresh_pmm_wf s s1 b (sp_wf _ _ Sp) F) as W. destruct W as [? ? ? Hw].
  split; [done..|]. intros a. destruct (decide (entry_addr t i = a)) as [<-|].
  - unfold s2, set_entry. by rewrite load_store_eq.
  - unfold s2, set_entry. by rewrite load_store_ne.
Qed.
End link.

(** ** Growth of a tree keeps every translation *)
Definition zero_table (s : vmm) (t : Z) : Prop := forall j, 0 <= j < 512 -> entry s t j = 0.

Definition grows (s s' : vmm) (T : gmap Z Z) : Prop :=
  root s' = root s /\ s'.(hhdm_offset) = s.(hhdm_offset) /\
  forall t l i, T !! t = Some l -> 0 <= i < 512 ->
    sim (entry s t i) (entry s' t i) \/
    (1 < l /\ present (entry s t i) = false /\ huge (entry s t i) = false /\
     leads s' t i /\ zero_table s' (child s' t i)).

Lemma grows_refl s T : grows s s T.
Proof. repeat split. intros. by left. Qed.

Lemma translate_grows s s' T v :
  space s T -> grows s s' T -> translate s' (root s') v = translate s (root s) v.
Proof.
  intros Sp (Hr & Hh & G). pose proof (index_range v) as (R4 & R3 & R2 & R1).
  pose proof (space_nonnull s T v Sp) as _. destruct (sp_tree _ _ Sp) as [Troot _ _ _ Tc _ Th].
  assert (L : forall t l i, T !! t = Some l -> 2 < l -> 0 <= i < 512 ->
            present (entry s t i) = true -> T !! child s t i = Some (l - 1)).
  { intros t l i Ht ? Hi P. apply Tc; try done; [lia|]. split; [done|]. destruct (huge _) eqn:E; [|done].
    assert (l = 2) by (apply (Th t l i); [done|lia|done|done]). lia. }
  unfold translate. rewrite Hr.
  destruct (G (root s) 4 (PML4_INDEX v) Troot R4) as [S|(_ & Np & _ & [P' _] & Z')];
    [|by rewrite Np, P', Z'].
  rewrite <- (sim_present _ _ S), (child_eq s s' _ _ _ _ Hh (eq_sym (sim_frame _ _ S))). clear S.
  destruct (present (entry s (root s) (PML4_INDEX v))) eqn:P4; [|done]. cbn [negb].
  pose proof (L _ 4 _ Troot ltac:(lia) R4 P4) as T3. set (pdpt := child s _ _) in *.
  destruct (G pdpt 3 (PDPT_INDEX v) T3 R3) as [S|(_ & Np & _ & [P' _] & Z')]; [|rewrite Np, P'; cbn [negb]; by rewrite !Z'].
  rewrite <- (sim_present _ _ S), (child_eq s s' _ _ _ _ Hh (eq_sym (sim_frame _ _ S))). clear S.
  destruct (present (entry s pdpt (PDPT_INDEX v))) eqn:P3; [|done]. cbn [negb].
  pose proof (L _ 3 _ T3 ltac:(lia) R3 P3) as T2. set (pd := child s pdpt _) in *.
  destruct (G pd 2 (PD_INDEX v) T2 R2) as [S|(_ & Np & Nh & [P' H'] & Z')];
    [|by rewrite Np, Nh, P', H', Z'].
  rewrite <- (sim_present _ _ S), <- (sim_huge _ _ S), <- (sim_frame _ _ S),
    (child_eq s s' _ _ _ _ Hh (eq_sym (sim_frame _ _ S))). clear S.
  destruct (huge (entry s pd _)) eqn:H2; [done|].
  destruct (present (entry s pd (PD_INDEX v))) eqn:P2; [|done]. cbn [negb].
  pose proof (Tc _ 2 _ T2 ltac:(lia) R2 (conj P2 H2)) as T1. set (pt := child s pd _) in *.
  destruct (G pt 1 (PT_INDEX v) T1 R1) as [S|(? & _)]; [|lia].
  by rewrite <- (sim_present _ _ S), <- (sim_frame _ _ S).
Qed.

(** ** One step of the walk of [vmm_map_page] *)
Lemma table_entry_value b flags :
  0 <= b < 2 ^ 20 -> is_u64 flags ->
  let e := Z.lor (Z.lor (Z.lor (b * 4096) PAGE_PRESENT) PAGE_RW) (Z.land flags PAGE_USER) in
  is_u64 e /\ present e = true /\ huge e = false /\ frame e = b * 4096.
Proof.
  intros Hb Hf e.
  assert (Hu : is_u64 (Z.land flags PAGE_USER)) by (by apply land_u64).
  assert (Hbits : forall k, 0 <= k -> Z.testbit e k =
    Z.testbit (b * 4096) k || (k =? 0) || (k =? 1) || (Z.testbit flags 2 && (k =? 2))).
  { intros k Hk. unfold e, PAGE_PRESENT, PAGE_RW, PAGE_USER.
    rewrite !Z.lor_spec, Z.land_spec, !testbit_pow2 by lia. rewrite !(Z.eqb_sym _ k).
    destruct (k =? 2) eqn:E; bool_hyps; [subst; by rewrite !andb_true_r|]; by rewrite !andb_false_r. }
  split_and!.
  - repeat apply lor_u64; try done; widths; lia.
  - unfold present. rewrite Hbits by lia. cbn. by rewrite !orb_true_r.
  - unfold huge. rewrite Hbits by lia. cbn. rewrite andb_false_r, !orb_false_r.
    destruct (Z.testbit (b * 4096) 7) eqn:E; [|done]. apply testbit_block in E; lia.
  - unfold e. rewrite <- !Z.lor_assoc. apply frame_lor; [lia|]. intros k Hk.
    rewrite !Z.lor_spec, Z.land_spec. unfold PAGE_PRESENT, PAGE_RW, PAGE_USER. rewrite !testbit_pow2 by lia.
    destruct (0 =? k) eqn:?, (1 =? k) eqn:?, (2 =? k) eqn:?; bool_hyps; try lia.
Qed.

(** What [get_or_create_table] guarantees when it returns a table. *)
Record descends (s s' : vmm) (T T' : gmap Z Z) (t l i r : Z) : Prop := {
  ds_tables : T ⊆ T';
  ds_space : space s' T';
  ds_grows : grows s s' T;
  ds_cdir : s'.(current_directory) = s.(current_directory);
  ds_leads : leads s' t i;
  ds_child : child s' t i = r;
  ds_level : T' !! r = Some (l - 1);
  ds_frame : forall t' l' j, T !! t' = Some l' -> 0 <= j < 512 -> (t', j) <> (t, i) ->
    entry s' t' j = entry s t' j;
  ds_inner : T !! r = None -> zero_table s' r
}.

Lemma set_entry_grows s T t l i e :
  tree s T -> T !! t = Some l -> 0 <= i < 512 -> sim (entry s t i) e -> grows s (set_entry t i e s) T.
Proof.
  intros Tr Ht Hi S. split; [by eapply root_set_entry|]. split; [done|]. intros t' l' j Ht' Hj. left.
  destruct (decide ((t', j) = (t, i))) as [[= -> ->]|Hne]; [by rewrite entry_set_eq|].
  by erewrite entry_set_ne by eauto.
Qed.

Lemma goct_present s T t l i flags :
  space s T -> T !! t = Some l -> 1 < l -> 0 <= i < 512 -> leads s t i ->
  let '(r, s') := get_or_create_table t i flags s in descends s s' T T t l i r.
Proof.
  intros Sp Ht Hl Hi [P H]. unfold get_or_create_table. rewrite flag_present, P.
  set (s' := if flag flags PAGE_USER then _ else s).
  assert (S : sim (entry s t i) (entry s' t i)).
  { unfold s'. destruct (flag _ _); [rewrite entry_set_eq; apply sim_user|apply sim_refl]. }
  assert (Sp' : space s' T).
  { unfold s'. destruct (flag _ _); [|done]. eapply set_entry_space; eauto; [|left; apply sim_user].
    apply lor_u64; [apply Sp|by vm_compute]. }
  assert (L' : leads s' t i) by (unfold leads; by rewrite <- (sim_present _ _ S), <- (sim_huge _ _ S)).
  assert (C : T !! child s' t i = Some (l - 1)) by (by apply Sp').
  split; try done.
  - unfold s'. destruct (flag _ _); [|apply grows_refl].
    eapply set_entry_grows; eauto; [apply Sp|apply sim_user].
  - unfold s'. by destruct (flag _ _).
  - intros t' l' j Ht' Hj Hne. unfold s'. destruct (flag _ _); [|done].
    eapply entry_set_ne; eauto. apply Sp.
  - intros Hn. unfold child, frame in C. congruence.
Qed.

Lemma goct_spec s T t l i flags r s' :
  space s T -> T !! t = Some l -> 1 < l -> 0 <= i < 512 -> is_u64 flags ->
  huge (entry s t i) = false -> get_or_create_table t i flags s = (r, s') ->
  (r = NULL /\ s' = s /\ (pmm_alloc_block s.(v_pmm)).1 = NULL) \/
  (r <> NULL /\ exists T', descends s s' T T' t l i r).
Proof.
  intros Sp Ht Hl Hi Hfl Hh E. destruct (present (entry s t i)) eqn:P.
  { right. pose proof (goct_present s T t l i flags Sp Ht Hl Hi (conj P Hh)) as D. rewrite E in D.
    split; [|by exists T]. pose proof (table_nonnull _ _ _ _ (ds_space _ _ _ _ _ _ _ _ D) (ds_level _ _ _ _ _ _ _ _ D)).
    unfold NULL. lia. }
  unfold get_or_create_table in E. rewrite flag_present, P in E.
  destruct (alloc_table s) as [nt s1] eqn:Ea.
  destruct (alloc_table_cases s nt s1 (sp_wf _ _ Sp) Ea) as [(-> & -> & ?)|(b & -> & F)].
  { left. by injection E as <- <-. }
  right. pose proof (ft_free _ _ _ F) as Hf. pose proof (fresh_bounds s b (sp_wf _ _ Sp) Hf) as (Hb & Hb2 & Hb3).
  destruct (_ =? NULL) eqn:En; bool_hyps; [unfold NULL in En; lia|]. injection E as <- <-.
  assert (Ev : virt_to_phys s1 (block_at s b) = b * 4096).
  { unfold virt_to_phys, block_at. rewrite (ft_hhdm _ _ _ F). rewrite Z.add_simpl_r. apply u64_small.
    split; [lia|]. change (2 ^ 64) with 18446744073709551616. lia. }
  rewrite Ev. destruct (table_entry_value b flags Hb Hfl) as (V1 & V2 & V3 & V4).
  set (e := Z.lor (Z.lor (Z.lor _ _) _) _) in *. split; [done|]. exists (<[block_at s b := l - 1]> T).
  destruct (fresh_old s s1 T b (sp_tree _ _ Sp) F (sp_wf _ _ Sp)) as (_ & _ & Hn).
  assert (Hc : child (set_entry t i e s1) t i = block_at s b) by (by eapply link_child).
  assert (Le : leads (set_entry t i e s1) t i) by (unfold leads; by rewrite entry_set_eq).
  assert (Hz : zero_table (set_entry t i e s1) (block_at s b)) by (intros j Hj; by eapply link_entry_zero).
  split; try done.
  - by apply insert_subseteq.
  - by eapply link_space.
  - split; [by eapply link_root|]. split; [apply F|]. intros t' l' j Ht' Hj.
    destruct (decide ((t', j) = (t, i))) as [[= -> ->]|Hne].
    + right. assert (l' = l) as -> by congruence. rewrite Hc. done.
    + left. by erewrite link_entry_old by eauto.
  - apply F.
  - by rewrite lookup_insert_eq.
  - intros t' l' j ? ? ?. by eapply link_entry_old.
Qed.

(** ** Paths to a page table *)
Record path (s : vmm) (v t3 t2 t1 : Z) : Prop := {
  pa_4 : leads s (root s) (PML4_INDEX v);
  pa_t3 : child s (root s) (PML4_INDEX v) = t3;
  pa_3 : leads s t3 (PDPT_INDEX v);
  pa_t2 : child s t3 (PDPT_INDEX v) = t2;
  pa_2 : leads s t2 (PD_INDEX v);
  pa_t1 : child s t2 (PD_INDEX v) = t1
}.

Definition leaf (e : Z) : mapping := if present e then Small (frame e) else Unmapped.

Lemma path_translate s v t3 t2 t1 :
  path s v t3 t2 t1 -> translate s (root s) v = leaf (entry s t1 (PT_INDEX v)).
Proof.
  intros [[P4 _] <- [P3 _] <- [P2 H2] <-]. unfold translate. by rewrite P4, P3, H2, P2.
Qed.

Lemma path_levels s T v t3 t2 t1 :
  tree s T -> path s v t3 t2 t1 -> T !! t3 = Some 3 /\ T !! t2 = Some 2 /\ T !! t1 = Some 1.
Proof.
  intros Tr [P4 <- P3 <- P2 <-]. pose proof (index_range v) as (R4 & R3 & R2 & _).
  assert (H3 : T !! child s (root s) (PML4_INDEX v) = Some 3) by (apply (tr_child _ _ Tr _ 4); auto; [apply Tr|lia]).
  assert (H2 : T !! child s (child s (root s) (PML4_INDEX v)) (PDPT_INDEX v) = Some 2)
    by (apply (tr_child _ _ Tr _ 3); auto; lia).
  split_and!; [done..|]. apply (tr_child _ _ Tr _ 2); auto. lia.
Qed.

(** Only the page that indexes a slot has it on its path. *)
Lemma path_inj s T v v' t3 t2 t1 t3' t2' :
  tree s T -> path s v t3 t2 t1 -> path s v' t3' t2' t1 -> PT_INDEX v = PT_INDEX v' -> page v = page v'.
Proof.
  intros Tr Pa Pa' E1. pose proof (index_range v) as (R4 & R3 & R2 & _). pose proof (index_range v') as (R4' & R3' & R2' & _).
  pose proof (path_levels _ _ _ _ _ _ Tr Pa) as (L3 & L2 & _). pose proof (path_levels _ _ _ _ _ _ Tr Pa') as (L3' & L2' & _).
  destruct Pa as [P4 C4 P3 C3 P2 C2], Pa' as [P4' C4' P3' C3' P2' C2'].
  destruct (tr_inj _ _ Tr t2 2 (PD_INDEX v) t2' 2 (PD_INDEX v')) as [-> E2]; try done; [congruence|].
  destruct (tr_inj _ _ Tr t3 3 (PDPT_INDEX v) t3' 3 (PDPT_INDEX v')) as [-> E3]; try done; [congruence|].
  pose proof (tr_root _ _ Tr).
  destruct (tr_inj _ _ Tr (root s) 4 (PML4_INDEX v) (root s) 4 (PML4_INDEX v')) as [_ E4]; try done; [congruence|].
  by rewrite !page_indices, E1, E2, E3, E4.
Qed.

Lemma upper_leads s T t l i :
  tree s T -> T !! t = Some l -> 2 < l -> 0 <= i < 512 -> present (entry s t i) = true -> leads s t i.
Proof.
  intros Tr Ht Hl Hi P. split; [done|]. destruct (huge _) eqn:E; [|done].
  assert (l = 2) by (apply (tr_huge _ _ Tr t l i); [done|lia|done|done]). lia.
Qed.

(** A page without a path: its translation does not depend on page tables. *)
Lemma path_or_stuck s T v :
  tree s T ->
  (exists t3 t2 t1, path s v t3 t2 t1) \/
  (forall s', root s' = root s -> s'.(hhdm_offset) = s.(hhdm_offset) ->
     (forall t l i, T !! t = Some l -> 1 < l -> 0 <= i < 512 -> entry s' t i = entry s t i) ->
     translate s' (root s') v = translate s (root s) v).
Proof.
  intros Tr. pose proof (index_range v) as (R4 & R3 & R2 & _). pose proof (tr_root _ _ Tr) as T4.
  assert (U : forall s' t l i, s'.(hhdm_offset) = s.(hhdm_offset) -> entry s' t i = entry s t i ->
            T !! t = Some l -> child s' t i = child s t i) by (intros; apply child_eq; congruence).
  destruct (present (entry s (root s) (PML4_INDEX v))) eqn:P4.
  2:{ right. intros s' Hr Hh He. unfold translate. by rewrite Hr, (He _ 4), P4. }
  pose proof (upper_leads _ _ _ 4 _ Tr T4 ltac:(lia) R4 P4) as L4.
  pose proof (tr_child _ _ Tr _ 4 _ T4 ltac:(lia) R4 L4) as T3. set (t3 := child s (root s) _) in *.
  destruct (present (entry s t3 (PDPT_INDEX v))) eqn:P3.
  2:{ right. intros s' Hr Hh He. unfold translate. rewrite Hr, (He _ 4), P4 by done. cbn [negb].
      rewrite (U s' _ 4) by (done || by apply (He _ 4)). fold t3. by rewrite (He _ 3), P3. }
  pose proof (upper_leads _ _ _ 3 _ Tr T3 ltac:(lia) R3 P3) as L3.
  pose proof (tr_child _ _ Tr _ 3 _ T3 ltac:(lia) R3 L3) as T2. set (t2 := child s t3 _) in *.
  destruct (decide (leads s t2 (PD_INDEX v))) as [L2|L2].
  { left. by exists t3, t2, (child s t2 (PD_INDEX v)). }
  right. intros s' Hr Hh He. unfold translate. rewrite Hr, (He _ 4), P4 by done. cbn [negb].
  rewrite (U s' _ 4) by (done || by apply (He _ 4)). fold t3. rewrite (He _ 3), P3 by done. cbn [negb].
  rewrite (U s' _ 3) by (done || by apply (He _ 3)). fold t2. rewrite (He _ 2) by done. cbn [negb].
  destruct (huge (entry s t2 _)) eqn:H2; [done|]. destruct (present (entry s t2 _)) eqn:P2; [by destruct L2|done].
Qed.

Lemma translate_page s r v v' : page v' = page v -> translate s r v' = translate s r v.
Proof. intros (E4 & E3 & E2 & E1)%page_inj. unfold translate. by rewrite E4, E3, E2, E1. Qed.

(** Writing the page-table slot of a page changes the translation of that
    page and of no other. *)
Lemma translate_set_pt s T v t3 t2 t1 e v' :
  space s T -> path s v t3 t2 t1 ->
  let s' := set_entry t1 (PT_INDEX v) e s in
  translate s' (root s') v' = if decide (page v' = page v) then leaf e else translate s (root s) v'.
Proof.
  intros Sp Pa s'. pose proof (sp_tree _ _ Sp) as Tr. pose proof (index_range v) as (_ & _ & _ & R1).
  pose proof (path_levels _ _ _ _ _ _ Tr Pa) as (L3 & L2 & L1).
  assert (Hr : root s' = root s) by (by eapply root_set_entry).
  assert (Hu : forall t l i, T !! t = Some l -> 1 < l -> 0 <= i < 512 -> entry s' t i = entry s t i).
  { intros t l i Ht Hl Hi. eapply entry_set_ne; eauto. intros [= -> _]. assert (l = 1) by congruence. lia. }
  assert (Hpath : forall w a b c, path s w a b c -> path s' w a b c).
  { intros w a b c Pw. pose proof (path_levels _ _ _ _ _ _ Tr Pw) as (W3 & W2 & _). pose proof (tr_root _ _ Tr).
    pose proof (index_range w) as (? & ? & ? & _). destruct Pw. split; rewrite ?Hr; unfold leads, child in *;
    rewrite ?(Hu (root s) 4), ?(Hu a 3), ?(Hu b 2) by done; done. }
  destruct (decide (page v' = page v)) as [Ep|Ep].
  - rewrite (translate_page s' _ _ _ Ep), (path_translate _ _ _ _ _ (Hpath _ _ _ _ Pa)).
    unfold s'. by rewrite entry_set_eq.
  - destruct (path_or_stuck s T v' Tr) as [(a & b & c & Pw)|Hst]; [|by apply Hst].
    rewrite (path_translate _ _ _ _ _ (Hpath _ _ _ _ Pw)), (path_translate _ _ _ _ _ Pw).
    f_equal. eapply entry_set_ne; eauto; [by eapply path_levels|apply index_range|].
    intros [= -> E1]. destruct Ep. by eapply path_inj.
Qed.

Lemma page_entry_value phys flags :
  0 <= phys < 2 ^ 52 -> is_u64 flags ->
  let e := Z.lor (Z.lor (PAGE_ALIGN_DOWN phys) (Z.land flags (Z.lor 0xFFF PAGE_NX))) PAGE_PRESENT in
  is_u64 e /\ leaf e = Small (PAGE_ALIGN_DOWN phys).
Proof.
  intros Hp Hf e.
  assert (Ha : PAGE_ALIGN_DOWN phys = phys / 4096 * 4096).
  { rewrite align_down_eq by (unfold is_u64; lia). lia. }
  assert (Hb : 0 <= phys / 4096 < 2 ^ 40).
  { change (2 ^ 40) with 1099511627776. change (2 ^ 52) with 4503599627370496 in Hp. lia. }
  split.
  - repeat apply lor_u64; [|by apply land_u64|done]. rewrite Ha. unfold is_u64.
    change (2 ^ 64) with 18446744073709551616. change (2 ^ 40) with 1099511627776 in Hb. lia.
  - rewrite Ha. unfold leaf. replace (present e) with true.
    + f_equal. unfold e. rewrite Ha, <- Z.lor_assoc. apply frame_lor; [done|]. intros k Hk.
      rewrite Z.lor_spec, Z.land_spec, Z.lor_spec. unfold PAGE_NX, PAGE_PRESENT. rewrite !testbit_pow2 by lia.
      change 0xFFF with (Z.ones 12). rewrite Z.ones_spec_high by lia.
      destruct (63 =? k) eqn:?, (0 =? k) eqn:?; bool_hyps; try lia.
    + unfold present, e. rewrite Z.lor_spec. by rewrite orb_true_r.
Qed.

(** The state after a prefix of the walk: every translation is as before. *)
Record grown (s s' : vmm) (T T' : gmap Z Z) : Prop := {
  gw_tables : T ⊆ T';
  gw_space : space s' T';
  gw_cdir : s'.(current_directory) = s.(current_directory);
  gw_map : forall v, translate s' (root s') v = translate s (root s) v
}.

Lemma grown_refl s T : space s T -> grown s s T T.
Proof. by split. Qed.

Lemma grown_step s s1 s2 T T1 T2 t l i r :
  grown s s1 T T1 -> descends s1 s2 T1 T2 t l i r -> grown s s2 T T2.
Proof.
  intros G D. split.
  - etrans; [apply G|apply D].
  - apply D.
  - rewrite (ds_cdir _ _ _ _ _ _ _ _ D). apply G.
  - intros v. rewrite <- (gw_map _ _ _ _ G v). eapply translate_grows; [apply G|apply D].
Qed.

(** A step at a deeper table keeps the entries already walked. *)
Lemma descends_keeps s s' T T' t l i r t' l' j :
  descends s s' T T' t l i r -> T !! t = Some l -> T !! t' = Some l' -> l <> l' -> 0 <= j < 512 ->
  leads s t' j -> leads s' t' j /\ child s' t' j = child s t' j.
Proof.
  intros D Ht Ht' Hne Hj Le. assert (E : entry s' t' j = entry s t' j).
  { eapply ds_frame; eauto. intros [= -> ->]. congruence. }
  unfold leads. rewrite E. split; [done|]. apply child_eq; [apply D|by rewrite E].
Qed.

Lemma not_huge_pd s T v t3 t2 :
  space s T -> (forall f, translate s (root s) v <> Huge f) ->
  leads s (root s) (PML4_INDEX v) -> child s (root s) (PML4_INDEX v) = t3 ->
  leads s t3 (PDPT_INDEX v) -> child s t3 (PDPT_INDEX v) = t2 ->
  huge (entry s t2 (PD_INDEX v)) = false.
Proof.
  intros Sp Hn [P4 _] <- [P3 _] <-. destruct (huge _) eqn:E; [|done].
  exfalso. eapply Hn. unfold translate. by rewrite P4, P3, E.
Qed.

Lemma upper_not_huge s T t l i :
  space s T -> T !! t = Some l -> 2 < l -> 0 <= i < 512 -> huge (entry s t i) = false.
Proof.
  intros Sp Ht Hl Hi. destruct (huge _) eqn:E; [|done].
  assert (l = 2) by (apply (tr_huge _ _ (sp_tree _ _ Sp) t l i); [done|lia|done|done]). lia.
Qed.

Definition exhausted (s : vmm) : Prop := (pmm_alloc_block s.(v_pmm)).1 = NULL.

(** The three calls of [get_or_create_table] in [vmm_map_page]. *)
Definition map_walk (virt flags : Z) (s : vmm) : option Z * vmm :=
  let '(pdpt, s) := get_or_create_table (root s) (PML4_INDEX virt) flags s in
  if pdpt =? NULL then (None, s)
  else
    let '(pd, s) := get_or_create_table pdpt (PDPT_INDEX virt) flags s in
    if pd =? NULL then (None, s)
    else
      let '(pt, s) := get_or_create_table pd (PD_INDEX virt) flags s in
      if pt =? NULL then (None, s) else (Some pt, s).

Lemma map_walk_spec s T virt flags :
  space s T -> is_u64 flags -> (forall f, translate s (root s) virt <> Huge f) ->
  let '(r, s') := map_walk virt flags s in
  exists T', grown s s' T T' /\
    match r with
    | None => exhausted s'
    | Some t1 => exists t3 t2, path s' virt t3 t2 t1
    end.
Proof.
  intros Sp Hfl Hn. unfold map_walk. pose proof (index_range virt) as (R4 & R3 & R2 & _).
  pose proof (tr_root _ _ (sp_tree _ _ Sp)) as T4. pose proof (grown_refl s T Sp) as G0.
  destruct (get_or_create_table (root s) _ flags s) as [t3 s1] eqn:E1.
  apply (goct_spec s T _ 4) in E1 as [(-> & -> & Hx)|(N1 & T1 & D1)]; try done; [by exists T| |by eapply (upper_not_huge s T _ 4)].
  pose proof (grown_step _ _ _ _ _ _ _ _ _ _ G0 D1) as G1. pose proof (ds_space _ _ _ _ _ _ _ _ D1) as Sp1.
  assert (L3 : T1 !! t3 = Some 3) by apply D1.
  assert (Hr1 : root s1 = root s) by apply (ds_grows _ _ _ _ _ _ _ _ D1).
  pose proof (tr_root _ _ (sp_tree _ _ Sp1)) as T4'. rewrite Hr1 in T4'.
  destruct (t3 =? NULL) eqn:En1; bool_hyps; [done|].
  destruct (get_or_create_table t3 _ flags s1) as [t2 s2] eqn:E2.
  apply (goct_spec s1 T1 _ 3) in E2 as [(-> & -> & Hx)|(N2 & T2 & D2)]; try done; [by exists T1| |by eapply (upper_not_huge s1 T1 _ 3)].
  pose proof (grown_step _ _ _ _ _ _ _ _ _ _ G1 D2) as G2. pose proof (ds_space _ _ _ _ _ _ _ _ D2) as Sp2.
  assert (L2 : T2 !! t2 = Some 2) by apply D2.
  assert (Hr2 : root s2 = root s) by (rewrite <- Hr1; apply (ds_grows _ _ _ _ _ _ _ _ D2)).
  destruct (descends_keeps _ _ _ _ _ _ _ _ (root s) 4 (PML4_INDEX virt) D2 L3 T4') as [K4 C4]; [done..|apply D1|].
  rewrite (ds_child _ _ _ _ _ _ _ _ D1) in C4.
  destruct (t2 =? NULL) eqn:En2; bool_hyps; [done|].
  destruct (get_or_create_table t2 _ flags s2) as [t1 s3] eqn:E3.
  apply (goct_spec s2 T2 _ 2) in E3 as [(-> & -> & Hx)|(N3 & T3 & D3)]; try done; [by exists T2| |].
  2:{ apply (not_huge_pd s2 T2 virt t3); rewrite ?Hr2; try done; [|apply D2..].
      intros f. rewrite <- Hr2, (gw_map _ _ _ _ G2). apply Hn. }
  destruct (t1 =? NULL) eqn:En3; bool_hyps; [done|].
  exists T3. split; [by eapply grown_step|]. exists t3, t2.
  assert (Hr3 : root s3 = root s) by (rewrite <- Hr2; apply (ds_grows _ _ _ _ _ _ _ _ D3)).
  assert (T4'' : T2 !! root s = Some 4) by (rewrite <- Hr2; apply Sp2).
  assert (L3' : T2 !! t3 = Some 3) by (eapply lookup_weaken; [done|apply D2]).
  destruct (descends_keeps _ _ _ _ _ _ _ _ (root s) 4 (PML4_INDEX virt) D3 L2 T4'') as [? C4']; [done..|].
  destruct (descends_keeps _ _ _ _ _ _ _ _ t3 3 (PDPT_INDEX virt) D3 L2 L3') as [? C3']; [done..|apply D2|].
  split; rewrite ?Hr3; try done; [congruence| |apply D3..].
  rewrite C3'. apply D2.
Qed.

Lemma map_page_walk phys virt flags s :
  is_u64 virt ->
  vmm_map_page phys virt flags s =
  let '(r, s') := map_walk virt flags s in
  match r with
  | None => s'
  | Some pt => set_entry pt (PT_INDEX virt)
      (Z.lor (Z.lor (PAGE_ALIGN_DOWN phys) (Z.land flags (Z.lor 0xFFF PAGE_NX))) PAGE_PRESENT) s'
  end.
Proof.
  intros Hv. unfold vmm_map_page, map_walk.
  destruct (page_inj _ _ (page_align_down virt Hv)) as (-> & -> & -> & ->). fold (root s).
  destruct (get_or_create_table _ _ _ s) as [t3 s1]. destruct (t3 =? NULL); [done|].
  destruct (get_or_create_table _ _ _ s1) as [t2 s2]. destruct (t2 =? NULL); [done|].
  destruct (get_or_create_table _ _ _ s2) as [t1 s3]. by destruct (t1 =? NULL).
Qed.

Lemma unmap_page_walk s T virt :
  is_u64 virt -> space s T -> (forall f, translate s (root s) virt <> Huge f) ->
  (exists t3 t2 t1, path s virt t3 t2 t1 /\ vmm_unmap_page virt s = set_entry t1 (PT_INDEX virt) 0 s) \/
  (translate s (root s) virt = Unmapped /\ vmm_unmap_page virt s = s).
Proof.
  intros Hv Sp Hn. unfold vmm_unmap_page.
  destruct (page_inj _ _ (page_align_down virt Hv)) as (-> & -> & -> & ->). fold (root s).
  pose proof (space_nonnull s T virt Sp) as (N3 & N2). pose proof (index_range virt) as (R4 & R3 & R2 & _).
  pose proof (tr_root _ _ (sp_tree _ _ Sp)) as T4. unfold translate in *. rewrite !get_table_child.
  destruct (present (entry s (root s) _)) eqn:P4; [|by right]. cbn [negb] in *.
  destruct (_ =? NULL) eqn:E3; bool_hyps; [by destruct N3|]. clear E3.
  set (t3 := child s (root s) _) in *.
  pose proof (upper_leads _ _ _ 4 _ (sp_tree _ _ Sp) T4 ltac:(lia) R4 P4) as L4.
  pose proof (tr_child _ _ (sp_tree _ _ Sp) _ 4 _ T4 ltac:(lia) R4 L4) as T3. fold t3 in T3.
  destruct (present (entry s t3 _)) eqn:P3; [|by right]. cbn [negb] in *.
  destruct (N2 eq_refl eq_refl) as (N2' & N1). destruct (_ =? NULL) eqn:E2; bool_hyps; [done|]. clear E2.
  pose proof (upper_leads _ _ _ 3 _ (sp_tree _ _ Sp) T3 ltac:(lia) R3 P3) as L3.
  set (t2 := child s t3 _) in *.
  destruct (huge (entry s t2 _)) eqn:H2; [by destruct (Hn (frame (entry s t2 (PD_INDEX virt))))|].
  destruct (present (entry s t2 _)) eqn:P2; [|by right]. cbn [negb] in *.
  destruct (_ =? NULL) eqn:E1; bool_hyps; [by destruct (N1 (conj P2 H2))|].
  left. by exists t3, t2, (child s t2 (PD_INDEX virt)).
Qed.

(** ** New directories *)

(** A walk from any PML4 whose entry equals the root's sees the same mapping,
    as long as the tables below are untouched. *)
Lemma translate_shared s s' T pml4 v :
  tree s T -> s'.(hhdm_offset) = s.(hhdm_offset) ->
  entry s' pml4 (PML4_INDEX v) = entry s (root s) (PML4_INDEX v) ->
  (forall t l i, T !! t = Some l -> 0 <= i < 512 -> entry s' t i = entry s t i) ->
  translate s' pml4 v = translate s (root s) v.
Proof.
  intros Tr Hh E4 He. pose proof (index_range v) as (R4 & R3 & R2 & R1).
  assert (C : forall t i t' j, entry s' t i = entry s t' j -> child s' t i = child s t' j)
    by (intros; apply child_eq; congruence).
  unfold translate. rewrite E4, (C _ _ _ _ E4).
  destruct (present (entry s (root s) _)) eqn:P4; [|done]. cbn [negb].
  pose proof (upper_leads _ _ _ 4 _ Tr (tr_root _ _ Tr) ltac:(lia) R4 P4) as L4.
  pose proof (tr_child _ _ Tr _ 4 _ (tr_root _ _ Tr) ltac:(lia) R4 L4) as T3. set (t3 := child s (root s) _) in *.
  pose proof (He t3 3 _ T3 R3) as E3. rewrite E3, (C _ _ _ _ E3).
  destruct (present (entry s t3 _)) eqn:P3; [|done]. cbn [negb].
  pose proof (upper_leads _ _ _ 3 _ Tr T3 ltac:(lia) R3 P3) as L3.
  pose proof (tr_child _ _ Tr _ 3 _ T3 ltac:(lia) R3 L3) as T2. set (t2 := child s t3 _) in *.
  pose proof (He t2 2 _ T2 R2) as E2. rewrite E2, (C _ _ _ _ E2).
  destruct (huge (entry s t2 _)) eqn:H2; [done|]. destruct (present (entry s t2 _)) eqn:P2; [|done]. cbn [negb].
  pose proof (tr_child _ _ Tr _ 2 _ T2 ltac:(lia) R2 (conj P2 H2)) as T1.
  by rewrite (He _ 1 _ T1 R1).
Qed.

(** Everything but the words in [[lo, lo + 4096)] is kept. *)
Record only_block (lo : Z) (s s' : vmm) : Prop := {
  ob_state : s' = with_mem s s'.(mem);
  ob_load : forall a, (a < lo \/ lo + 4096 <= a) -> load s' a = load s a
}.

Lemma only_block_refl lo s : only_block lo s s.
Proof. split; [by destruct s|done]. Qed.

Lemma only_block_store lo s s' a v :
  only_block lo s s' -> lo <= a < lo + 4096 -> only_block lo s (store a v s').
Proof.
  intros [E L] Ha. split; [unfold store; rewrite E; done|].
  intros b Hb. rewrite load_store_ne by lia. by apply L.
Qed.

Section copies.
Context (pml4 : Z) (s : vmm).
Context (Hdir : s.(kernel_directory) + 8 < pml4 \/ pml4 + 4096 <= s.(kernel_directory) + 8).
Let kroot := dir_pml4 s s.(kernel_directory).
Context (Hroot : kroot + 4096 <= pml4 \/ pml4 + 4096 <= kroot).

Lemma only_block_kernel s' i :
  only_block pml4 s s' -> 0 <= i < 512 ->
  entry s' (dir_pml4 s' s'.(kernel_directory)) i = entry s kroot i.
Proof.
  intros [E L] Hi. assert (Hk : s'.(kernel_directory) = s.(kernel_directory)) by (by rewrite E).
  unfold dir_pml4. rewrite Hk, (L _ Hdir). apply L. unfold entry_addr. fold (dir_pml4 s s.(kernel_directory)).
  fold kroot. lia.
Qed.

Lemma copy_kernel_half_spec :
  let s' := copy_kernel_half pml4 s in
  only_block pml4 s s' /\
  forall i, 0 <= i < 512 -> entry s' pml4 i = if 256 <=? i then entry s kroot i else entry s pml4 i.
Proof.
  intros s'.
  assert (H : only_block pml4 s s' /\ forall i, 0 <= i < 512 ->
    entry s' pml4 i = if (256 <=? i) && (i <? 256 + Z.of_nat 256) then entry s kroot i else entry s pml4 i).
  { apply (for_loop_ind (fun k q => only_block pml4 s q /\ forall i, 0 <= i < 512 ->
      entry q pml4 i = if (256 <=? i) && (i <? k) then entry s kroot i else entry s pml4 i)).
    - split; [apply only_block_refl|]. intros i Hi. case_if; [lia|done].
    - intros k q Hk [O E]. split.
      + apply only_block_store; [done|]. unfold entry_addr. lia.
      + intros i Hi. rewrite only_block_kernel by (done || lia).
        destruct (decide (i = k)) as [->|].
        * rewrite entry_set_eq. case_if; [done|]. lia.
        * unfold entry, set_entry. rewrite load_store_ne by (unfold entry_addr; lia).
          fold (entry q pml4 i). rewrite E by done.
          replace (i <? k + 1) with (i <? k) by lia. done. }
  destruct H as [O E]. split; [done|]. intros i Hi. rewrite E by done.
  change (256 + Z.of_nat 256) with 512. destruct (i <? 512) eqn:?; bool_hyps; [|lia]. by rewrite andb_true_r.
Qed.

Lemma copy_first_spec :
  let s' := copy_first pml4 s in
  only_block pml4 s s' /\
  forall i, 0 <= i < 512 -> entry s' pml4 i =
    if (i =? 0) && present (entry s kroot 0) then entry s kroot 0 else entry s pml4 i.
Proof.
  intros s'. subst s'. unfold copy_first. fold kroot. rewrite flag_present.
  destruct (present _).
  2:{ split; [apply only_block_refl|]. intros. by rewrite andb_false_r. }
  split; [apply only_block_store; [apply only_block_refl|unfold entry_addr; lia]|].
  intros i Hi. rewrite andb_true_r. destruct (i =? 0) eqn:E; bool_hyps.
  - subst. apply entry_set_eq.
  - apply load_store_ne. unfold entry_addr. lia.
Qed.
End copies.

(** What [vmm_create_directory] builds when both allocations succeed. *)
Record new_directory (s s' : vmm) (b1 b2 : Z) : Prop := {
  nd_free1 : free_block s b1;
  nd_free2 : free_block s b2;
  nd_apart : b1 <> b2;
  nd_pmm : s'.(v_pmm) = acquire b2 (acquire b1 s.(v_pmm));
  nd_hhdm : s'.(hhdm_offset) = s.(hhdm_offset);
  nd_kdir : s'.(kernel_directory) = s.(kernel_directory);
  nd_cdir : s'.(current_directory) = s.(current_directory);
  nd_pml4 : dir_pml4 s' (block_at s b1) = block_at s b2;
  nd_phys : dir_pml4_phys s' (block_at s b1) = virt_to_phys s (block_at s b2);
  nd_other : forall a, (a < block_at s b1 \/ block_at s b1 + 4096 <= a) ->
    (a < block_at s b2 \/ block_at s b2 + 4096 <= a) -> load s' a = load s a;
  nd_entry : forall i, 0 <= i < 512 ->
    let kroot := dir_pml4 s s.(kernel_directory) in
    entry s' (block_at s b2) i =
    if (i =? 0) && present (entry s kroot 0) || (256 <=? i) then entry s kroot i else 0
}.

Section create.
Context (s : vmm) (T : gmap Z Z).
Context (W : vmm_wf s) (Tr : tree (with_current s s.(kernel_directory)) T).
Let kroot := dir_pml4 s s.(kernel_directory).

(** The kernel's directory and PML4 lie outside every free block. *)
Lemma kernel_apart b : free_block s b ->
  (s.(kernel_directory) + 8 < block_at s b \/ block_at s b + 4096 <= s.(kernel_directory) + 8) /\
  forall t l, T !! t = Some l -> t + 4096 <= block_at s b \/ block_at s b + 4096 <= t.
Proof.
  intros Hf. pose proof (tr_dir _ _ Tr b ltac:(destruct Hf; lia) (or_introl Hf)) as Hd. cbn in Hd.
  split; [unfold block_at in *; cbn in Hd; lia|]. intros t l Ht.
  destruct (tr_place _ _ Tr t l Ht) as (c & -> & _ & _ & Hn).
  assert (c <> b) by (intros ->; done). unfold block_at. cbn. lia.
Qed.

Lemma acquired_wf b : free_block s b -> vmm_wf (with_pmm s (acquire b s.(v_pmm))).
Proof.
  intros [Hb Hu]. destruct (acquire_frame b s.(v_pmm)) as (_ & Eh & _). destruct W as [Wp Eh' Wa Ww].
  split; cbn [v_pmm with_pmm hhdm_offset current_directory mem]; [|congruence|done|done]. apply acquire_wf; [done..|].
  destruct (block_used (v_pmm s) b) eqn:E; [|done]. destruct Hu. by apply elem_of_used_set.
Qed.

Lemma acquired_free b c :
  free_block s b -> free_block (with_pmm s (acquire b s.(v_pmm))) c -> free_block s c /\ c <> b.
Proof.
  intros [Hb Hu]. unfold free_block. cbn [v_pmm with_pmm]. destruct (acquire_frame b (v_pmm s)) as (-> & _).
  rewrite used_set_acquire by (done || apply W). set_solver.
Qed.

Lemma acquire_free_inverse b :
  free_block s b ->
  pmm_free_block (block_ptr s.(v_pmm) (Some b)) (acquire b s.(v_pmm)) = s.(v_pmm).
Proof.
  intros F. pose proof (vw_pmm _ (acquired_wf b F)) as Wa. cbn [v_pmm with_pmm] in Wa. destruct F as [Hb Hu].
  destruct (acquire_frame b s.(v_pmm)) as (Et & Eh & Em).
  destruct (free_block_spec _ (block_ptr s.(v_pmm) (Some b)) Wa) as (W' & (Et' & Eh' & Em') & U').
  apply pmm_ext; [done|apply W|repeat split; congruence|]. rewrite U', used_set_acquire by (done || apply W).
  replace (block_ptr (v_pmm s) (Some b)) with (block_ptr (acquire b (v_pmm s)) (Some b)) by (cbn [block_ptr]; by rewrite Eh).
  rewrite ptr_block_of_block by (done || by rewrite Et). set_solver.
Qed.

(** The directory's two words, written after both allocations. *)
Definition link_directory (dir pml4 : Z) (sB : vmm) : vmm :=
  let s := store (dir + 8) pml4 sB in store dir (virt_to_phys s pml4) s.

Section fill.
Context (b1 b2 : Z) (sB : vmm).
Context (F1 : free_block s b1) (F : fresh_table (with_pmm s (acquire b1 s.(v_pmm))) sB b2).
Let sC := link_directory (block_at s b1) (block_at s b2) sB.

Lemma fill_apart :
  free_block s b2 /\ b1 <> b2 /\
  (block_at s b1 + 4096 <= block_at s b2 \/ block_at s b2 + 4096 <= block_at s b1).
Proof.
  destruct (acquired_free b1 b2 F1 (ft_free _ _ _ F)) as [F2 Hne]. unfold block_at. split_and!; [done|done|lia].
Qed.

Lemma fill_load a :
  (a < block_at s b1 \/ block_at s b1 + 4096 <= a) -> load sC a = load sB a.
Proof. intros Ha. unfold sC, link_directory. by rewrite !load_store_ne by lia. Qed.

Lemma fill_load_old a :
  (a < block_at s b1 \/ block_at s b1 + 4096 <= a) -> (a < block_at s b2 \/ block_at s b2 + 4096 <= a) ->
  load sC a = load s a.
Proof. intros Ha Hb. rewrite fill_load by done. apply (ft_other _ _ _ F a Hb). Qed.

Lemma fill_words :
  dir_pml4 sC (block_at s b1) = block_at s b2 /\
  dir_pml4_phys sC (block_at s b1) = virt_to_phys s (block_at s b2).
Proof.
  unfold sC, link_directory, dir_pml4, dir_pml4_phys. split.
  - by rewrite load_store_ne, load_store_eq by lia.
  - rewrite load_store_eq. unfold virt_to_phys. cbn [hhdm_offset store with_mem]. by rewrite (ft_hhdm _ _ _ F).
Qed.

Lemma fill_kernel s' :
  only_block (block_at s b2) sC s' ->
  s'.(kernel_directory) = s.(kernel_directory) /\
  dir_pml4 s' s'.(kernel_directory) = kroot /\
  forall i, 0 <= i < 512 -> entry s' kroot i = entry s kroot i.
Proof.
  intros [E L]. destruct fill_apart as (F2 & _ & _).
  destruct (kernel_apart b1 F1) as [Kd1 Kt1], (kernel_apart b2 F2) as [Kd2 Kt2].
  assert (HkT : T !! kroot = Some 4) by apply (tr_root _ _ Tr).
  pose proof (Kt1 _ _ HkT). pose proof (Kt2 _ _ HkT).
  assert (Hk : s'.(kernel_directory) = s.(kernel_directory)).
  { rewrite E. unfold sC. cbn. apply F. }
  split_and!; [done| |].
  - unfold dir_pml4. by rewrite Hk, L, fill_load_old by done.
  - intros i Hi. unfold entry. by rewrite L, fill_load_old by (unfold entry_addr; lia).
Qed.

Lemma fill_directory sD sE :
  only_block (block_at s b2) sC sD -> only_block (block_at s b2) sD sE ->
  (forall i, 0 <= i < 512 -> entry sD (block_at s b2) i =
     if 256 <=? i then entry s kroot i else entry sC (block_at s b2) i) ->
  (forall i, 0 <= i < 512 -> entry sE (block_at s b2) i =
     if (i =? 0) && present (entry s kroot 0) then entry s kroot 0 else entry sD (block_at s b2) i) ->
  new_directory s sE b1 b2.
Proof.
  intros [S1 L1] [S2 L2] E1 E2. destruct fill_apart as (F2 & Hne & Hap). destruct fill_words as [W1 W2].
  assert (Hst : sE = with_mem sB sE.(mem)) by (rewrite S2, S1; done).
  assert (Hout : forall a, (a < block_at s b2 \/ block_at s b2 + 4096 <= a) -> load sE a = load sC a)
    by (intros a Ha; by rewrite L2, L1).
  split; [done..| | | | | | | |].
  1-4: rewrite Hst; apply F.
  - rewrite <- W1. apply Hout. lia.
  - rewrite <- W2. apply Hout. lia.
  - intros a Ha1 Ha2. by rewrite Hout, fill_load_old.
  - intros i Hi kr. change kr with kroot. rewrite E2, E1 by done.
    assert (Z0 : entry sC (block_at s b2) i = 0).
    { unfold entry. rewrite fill_load by (unfold entry_addr; lia). by apply (ft_zero _ _ _ F i). }
    rewrite Z0. destruct (i =? 0) eqn:Ei; bool_hyps; [subst i|done].
    by destruct (present (entry s kroot 0)).
Qed.

Lemma fill_copies :
  new_directory s (copy_first (block_at s b2) (copy_kernel_half (block_at s b2) sC)) b1 b2.
Proof.
  destruct fill_apart as (F2 & _ & _). destruct (kernel_apart b2 F2) as [Kd2 Kt2].
  pose proof (Kt2 _ _ (tr_root _ _ Tr : T !! kroot = Some 4)) as Kr2.
  destruct (fill_kernel sC (only_block_refl _ _)) as (Hk & Hr & He).
  assert (P1 : sC.(kernel_directory) + 8 < block_at s b2 \/ block_at s b2 + 4096 <= sC.(kernel_directory) + 8) by (by rewrite Hk).
  assert (P2 : dir_pml4 sC sC.(kernel_directory) + 4096 <= block_at s b2 \/ block_at s b2 + 4096 <= dir_pml4 sC sC.(kernel_directory)) by (by rewrite Hr).
  pose proof (copy_kernel_half_spec _ sC P1 P2) as H1. cbv zeta in H1. rewrite Hr in H1.
  generalize dependent (copy_kernel_half (block_at s b2) sC). intros sD [O1 E1].
  destruct (fill_kernel sD O1) as (Hk' & Hr' & He').
  pose proof (copy_first_spec (block_at s b2) sD) as H2. cbv zeta in H2. rewrite Hr' in H2.
  generalize dependent (copy_first (block_at s b2) sD). intros sE [O2 E2].
  apply (fill_directory sD sE O1 O2).
  - intros i Hi. rewrite E1 by done. destruct (256 <=? i); [by apply He|done].
  - intros i Hi. rewrite E2, !He' by (done || lia). done.
Qed.
End fill.

Lemma create_directory_eq :
  vmm_create_directory s =
  let '(dir, p) := pmm_alloc_block s.(v_pmm) in
  if dir =? NULL then (NULL, with_pmm s p)
  else
    let '(pml4, sB) := alloc_table (with_pmm s p) in
    if pml4 =? NULL then (NULL, with_pmm sB (pmm_free_block dir sB.(v_pmm)))
    else (dir, copy_first pml4 (copy_kernel_half pml4 (link_directory dir pml4 sB))).
Proof. reflexivity. Qed.

Lemma create_directory_cases dir s' :
  vmm_create_directory s = (dir, s') ->
  (dir = NULL /\ s' = s) \/
  exists b1 b2, dir = block_at s b1 /\ dir <> NULL /\ new_directory s s' b1 b2.
Proof.
  rewrite create_directory_eq. destruct (pmm_alloc_block (v_pmm s)) as [a p'] eqn:Ea.
  destruct (alloc_block_cases _ _ _ (vw_pmm _ W) Ea) as [(-> & -> & _)|(b & -> & -> & Hb & Hu & _)].
  { cbn. intros [= <- <-]. left. by rewrite with_pmm_id. }
  pose proof (wf_total _ (vw_pmm _ W)) as Ht. unfold scan_limit in Hb.
  assert (F1 : free_block s b). { split; [lia|]. rewrite elem_of_used_set. intros [_ ?]. congruence. }
  destruct (fresh_bounds s b W F1) as (_ & _ & Hpos).
  assert (Eb : block_ptr (v_pmm s) (Some b) = block_at s b) by (cbn; unfold block_at; by rewrite (vw_hhdm _ W)).
  rewrite Eb. destruct (_ =? NULL) eqn:En; bool_hyps; [unfold NULL in En; lia|].
  pose proof (acquired_wf b F1) as WA.
  destruct (alloc_table _) as [pml4 sB] eqn:Et.
  destruct (alloc_table_cases _ _ _ WA Et) as [(-> & -> & _)|(b2 & -> & F)].
  - cbn [Z.eqb NULL]. intros [= <- <-]. left. split; [done|].
    transitivity (with_pmm s s.(v_pmm)); [|apply with_pmm_id]. unfold with_pmm at 1 3.
    cbn [v_pmm with_pmm mem hhdm_offset kernel_directory current_directory cr3].
    f_equal. rewrite <- Eb. by apply acquire_free_inverse.
  - destruct (fresh_bounds _ b2 WA (ft_free _ _ _ F)) as (_ & _ & Hpos2).
    destruct (block_at (with_pmm s _) b2 =? NULL) eqn:En2; bool_hyps; [unfold NULL in En2; lia|].
    pose proof (fill_copies b b2 sB F1 F) as Hn.
    change (block_at (with_pmm s _) b2) with (block_at s b2).
    generalize dependent (copy_first (block_at s b2)
      (copy_kernel_half (block_at s b2) (link_directory (block_at s b) (block_at s b2) sB))).
    intros sE HE [= <- <-]. right. by exists b, b2.
Qed.
End create.

Section new_directory.
Context (s : vmm) (T : gmap Z Z).
Context (Tr : tree (with_current s s.(kernel_directory)) T).
Context (s' : vmm) (b1 b2 : Z) (N : new_directory s s' b1 b2).
Let kroot := dir_pml4 s s.(kernel_directory).

(** The kernel's tables are untouched. *)
Lemma new_directory_kernel :
  dir_pml4 s' s'.(kernel_directory) = kroot /\
  forall t l i, T !! t = Some l -> 0 <= i < 512 -> entry s' t i = entry s t i.
Proof.
  destruct (kernel_apart s T Tr b1 (nd_free1 _ _ _ _ N)) as [Kd1 Kt1].
  destruct (kernel_apart s T Tr b2 (nd_free2 _ _ _ _ N)) as [Kd2 Kt2]. split.
  - unfold dir_pml4. rewrite (nd_kdir _ _ _ _ N). by apply (nd_other _ _ _ _ N).
  - intros t l i Ht Hi. pose proof (Kt1 t l Ht). pose proof (Kt2 t l Ht).
    apply (nd_other _ _ _ _ N); unfold entry_addr; lia.
Qed.

Lemma new_directory_translate v :
  translate s' (block_at s b2) v =
  if (256 <=? PML4_INDEX v) || (PML4_INDEX v =? 0) then translate s kroot v else Unmapped.
Proof.
  destruct new_directory_kernel as [_ He]. pose proof (index_range v) as (R4 & _).
  pose proof (nd_entry _ _ _ _ N (PML4_INDEX v) R4) as E. cbv zeta in E. fold kroot in E.
  assert (Sh : entry s' (block_at s b2) (PML4_INDEX v) = entry s kroot (PML4_INDEX v) ->
               translate s' (block_at s b2) v = translate s kroot v).
  { intros. apply (translate_shared _ _ _ _ v Tr); [apply N|done|done]. }
  destruct (256 <=? PML4_INDEX v) eqn:E1; cbn [orb].
  { rewrite orb_true_r in E. by apply Sh. }
  rewrite orb_false_r in E. destruct (PML4_INDEX v =? 0) eqn:E2; bool_hyps.
  - rewrite E2 in *. destruct (present (entry s kroot 0)) eqn:P; [by apply Sh|].
    unfold translate. rewrite E2, P. cbn [andb] in E. by rewrite E.
  - cbn [andb] in E. unfold translate. by rewrite E.
Qed.

Lemma new_directory_ne : block_at s b1 <> s'.(kernel_directory).
Proof.
  rewrite (nd_kdir _ _ _ _ N). destruct (kernel_apart s T Tr b1 (nd_free1 _ _ _ _ N)) as [Kd1 _]. lia.
Qed.
End new_directory.

Lemma new_directory_pmm s (W : vmm_wf s) s' b1 b2 :
  new_directory s s' b1 b2 ->
  pmm_wf s'.(v_pmm) /\ s'.(hhdm_offset) = s'.(v_pmm).(pmm_hhdm_offset).
Proof.
  intros N. pose proof (acquired_wf s W b1 (nd_free1 _ _ _ _ N)) as W1.
  assert (F2 : free_block (with_pmm s (acquire b1 s.(v_pmm))) b2).
  { destruct (nd_free2 _ _ _ _ N) as [Hb Hu], (nd_free1 _ _ _ _ N). pose proof (nd_apart _ _ _ _ N). split; cbn [v_pmm with_pmm].
    - by destruct (acquire_frame b1 (v_pmm s)) as (-> & _).
    - rewrite used_set_acquire by (done || apply W). set_solver. }
  pose proof (acquired_wf _ W1 b2 F2) as W2. rewrite (nd_pmm _ _ _ _ N), (nd_hhdm _ _ _ _ N).
  split; [apply W2|]. apply (vw_hhdm _ W2).
Qed.

(** ** Freeing a directory *)
Record shrinks (s s' : vmm) : Prop := {
  sh_wf : pmm_wf s'.(v_pmm);
  sh_frame : same_frame s.(v_pmm) s'.(v_pmm);
  sh_used : used_set s'.(v_pmm) ⊆ used_set s.(v_pmm);
  sh_state : s' = with_pmm s s'.(v_pmm)
}.

Lemma shrinks_refl s : pmm_wf s.(v_pmm) -> shrinks s s.
Proof. intros. split; [done|done|done|by destruct s]. Qed.

Lemma shrinks_trans s1 s2 s3 : shrinks s1 s2 -> shrinks s2 s3 -> shrinks s1 s3.
Proof.
  intros [W1 (? & ? & ?) U1 E1] [W2 (? & ? & ?) U2 E2]. split; [done|repeat split; congruence|set_solver|].
  rewrite E2, E1. done.
Qed.

Lemma shrinks_free_block ptr s :
  pmm_wf s.(v_pmm) -> shrinks s (with_pmm s (pmm_free_block ptr s.(v_pmm))).
Proof.
  intros W. destruct (free_block_spec _ ptr W) as (W' & F' & U'). split; [done|done|cbn [v_pmm with_pmm]|done].
  rewrite U'. set_solver.
Qed.

Lemma shrinks_loop n i (body : Z -> vmm -> vmm) s :
  pmm_wf s.(v_pmm) ->
  (forall k t, pmm_wf t.(v_pmm) -> shrinks t (body k t)) -> shrinks s (for_loop n i body s).
Proof.
  intros W Hb. apply (for_loop_ind_const (shrinks s)); [by apply shrinks_refl|].
  intros k t _ Hs. eapply shrinks_trans; [done|]. apply Hb, Hs.
Qed.

Lemma shrinks_loop_free n (body : Z -> vmm -> vmm) ptr s :
  pmm_wf s.(v_pmm) ->
  (forall k t, pmm_wf t.(v_pmm) -> shrinks t (body k t)) ->
  shrinks s (free_table ptr (for_loop n 0 body s)).
Proof.
  intros W Hb. pose proof (shrinks_loop n 0 body s W Hb) as H.
  eapply shrinks_trans; [exact H|]. apply shrinks_free_block, H.
Qed.

Lemma free_pd_slot_shrinks pd k s : pmm_wf s.(v_pmm) -> shrinks s (free_pd_slot pd k s).
Proof.
  intros W. unfold free_pd_slot. cbv zeta.
  repeat case_if; try (by apply shrinks_refl). by apply shrinks_free_block.
Qed.

Lemma free_pdpt_slot_shrinks pdpt j s : pmm_wf s.(v_pmm) -> shrinks s (free_pdpt_slot pdpt j s).
Proof.
  intros W. unfold free_pdpt_slot. cbv zeta. repeat case_if; try (by apply shrinks_refl).
  apply shrinks_loop_free; [done|]. intros. by apply free_pd_slot_shrinks.
Qed.

Lemma free_pml4_slot_shrinks pml4 i s : pmm_wf s.(v_pmm) -> shrinks s (free_pml4_slot pml4 i s).
Proof.
  intros W. unfold free_pml4_slot. cbv zeta. repeat case_if; try (by apply shrinks_refl).
  apply shrinks_loop_free; [done|]. intros. by apply free_pdpt_slot_shrinks.
Qed.

Lemma free_slot_frees pml4 i b s :
  pmm_wf s.(v_pmm) -> s.(hhdm_offset) = s.(v_pmm).(pmm_hhdm_offset) -> 0 <= b < s.(v_pmm).(pmm_total_blocks) ->
  present (entry s pml4 i) = true -> child s pml4 i = block_at s b ->
  free_block (free_pml4_slot pml4 i s) b.
Proof.
  intros W Hh Hb Hp Hc. unfold free_pml4_slot. rewrite flag_present, Hp, get_table_child, Hp, Hc. cbn [negb].
  destruct (_ =? NULL) eqn:En; bool_hyps.
  { exfalso. pose proof (wf_hhdm _ W). unfold block_at, NULL in En. rewrite Hh in En. lia. }
  pose proof (shrinks_loop 512 0 (free_pdpt_slot (block_at s b)) s W
    (fun k t => free_pdpt_slot_shrinks _ k t)) as [W' (Et & Eh & _) _ _].
  generalize dependent (for_loop 512 0 (free_pdpt_slot (block_at s b)) s). intros s1 W' Et Eh.
  unfold free_block, free_table.
  cbn [v_pmm with_pmm]. destruct (free_block_spec _ (block_at s b) W') as (_ & (Et' & _) & U').
  rewrite Et', U', Et. split; [done|].
  replace (block_at s b) with (block_ptr (v_pmm s1) (Some b))
    by (cbn [block_ptr]; unfold block_at; by rewrite Eh, Hh).
  rewrite ptr_block_of_block by (done || by rewrite Et). set_solver.
Qed.

Lemma for_loop_first {S} n i (body : Z -> S -> S) s :
  for_loop (Datatypes.S n) i body s = for_loop n (i + 1) body (body i s).
Proof. done. Qed.

(** Freeing a directory frees the table its first entry leads to. *)
Lemma free_directory_first dir b s :
  pmm_wf s.(v_pmm) -> s.(hhdm_offset) = s.(v_pmm).(pmm_hhdm_offset) -> dir <> NULL -> dir <> s.(kernel_directory) ->
  present (entry s (dir_pml4 s dir) 0) = true -> child s (dir_pml4 s dir) 0 = block_at s b ->
  0 <= b < s.(v_pmm).(pmm_total_blocks) ->
  shrinks s (vmm_free_directory dir s) /\ free_block (vmm_free_directory dir s) b.
Proof.
  intros W Hh Hd Hk Hp Hc Hb. unfold vmm_free_directory.
  destruct (dir =? NULL) eqn:E1; bool_hyps; [done|]. destruct (dir =? _) eqn:E2; bool_hyps; [done|]. cbn [orb].
  rewrite for_loop_first. pose proof (free_slot_frees _ 0 b s W Hh Hb Hp Hc) as Hf.
  pose proof (free_pml4_slot_shrinks (dir_pml4 s dir) 0 s W) as Sh.
  generalize dependent (free_pml4_slot (dir_pml4 s dir) 0 s). intros s1 Hf Sh.
  pose proof (shrinks_loop 255 (0 + 1) (free_pml4_slot (dir_pml4 s dir)) s1 (sh_wf _ _ Sh)
    (fun k t => free_pml4_slot_shrinks _ k t)) as Sh2.
  generalize dependent (for_loop 255 (0 + 1) (free_pml4_slot (dir_pml4 s dir)) s1). intros s2 Sh2.
  pose proof (shrinks_free_block (dir_pml4 s dir) s2 (sh_wf _ _ Sh2)) as Sh3.
  pose proof (shrinks_free_block dir _ (sh_wf _ _ Sh3)) as Sh4.
  pose proof (shrinks_trans _ _ _ Sh2 (shrinks_trans _ _ _ Sh3 Sh4)) as ShA.
  unfold free_table. set (s4 := with_pmm (with_pmm s2 _) _) in *. clearbody s4.
  split; [by eapply shrinks_trans|].
  destruct ShA as [_ (Et & _) U _], Hf as [Hf1 Hf2]. split; [by rewrite Et|set_solver].
Qed.

(** A small address space: the kernel's directory at address 0x1000, its PML4
    in block 1, and an empty PDPT in block 2 linked from PML4[0]. *)
Definition demo_pml4 : Z := demo_hhdm + 4096.
Definition demo_pdpt : Z := demo_hhdm + 8192.
Definition demo_vmm : vmm :=
  mk_vmm demo_pmm {[0x1000 := 4096; 0x1008 := demo_pml4; demo_pml4 := 8195]} demo_hhdm 0x1000 0x1000 4096.
#[local] Opaque init_pmm_limine.
Definition demo_tables : gmap Z Z := {[demo_pml4 := 4; demo_pdpt := 3]}.

Lemma demo_tables_lookup t l :
  demo_tables !! t = Some l -> t = demo_pml4 /\ l = 4 \/ t = demo_pdpt /\ l = 3.
Proof.
  unfold demo_tables. intros [[<- <-]|[_ [<- <-]%lookup_singleton_Some]]%lookup_insert_Some; auto.
Qed.

Lemma demo_entry t l i :
  demo_tables !! t = Some l -> 0 <= i < 512 ->
  entry demo_vmm t i = 0 \/ t = demo_pml4 /\ i = 0 /\ l = 4 /\ entry demo_vmm t i = 8195.
Proof.
  intros Ht Hi. unfold entry, load, demo_vmm, entry_addr. cbn [mem].
  apply demo_tables_lookup in Ht. unfold demo_pml4, demo_pdpt, demo_hhdm in *.
  destruct (decide (t = 0xffff800000000000 + 4096 /\ i = 0)) as [[-> ->]|Hne]; [right|left].
  - repeat split. lia.
  - rewrite !lookup_insert_ne by lia. by rewrite lookup_singleton_ne by lia.
Qed.

Lemma demo_leads t l i :
  demo_tables !! t = Some l -> 0 <= i < 512 -> leads demo_vmm t i -> t = demo_pml4 /\ i = 0 /\ l = 4.
Proof.
  intros Ht Hi [P _]. destruct (demo_entry t l i Ht Hi) as [E|(-> & -> & -> & E)]; [|done]. by rewrite E in P.
Qed.

Lemma demo_free_above b : free_block demo_vmm b -> 256 <= b.
Proof.
  intros [Hb Hu]. destruct (init_spec demo_map demo_hhdm (mk_pmm [] 0 0 0 0)) as (_ & _ & _ & Hiff);
    [discriminate|exact demo_map_ok|exact demo_hhdm_ok|].
  exact (proj1 (proj1 (Hiff b Hb) Hu)).
Qed.

Lemma demo_total : demo_vmm.(v_pmm).(pmm_total_blocks) = 512.
Proof.
  destruct (init_spec demo_map demo_hhdm (mk_pmm [] 0 0 0 0)) as (_ & _ & Et & _);
    [discriminate|exact demo_map_ok|exact demo_hhdm_ok|]. exact Et.
Qed.

Lemma demo_vmm_wf : vmm_wf demo_vmm.
Proof.
  split; cbn [v_pmm hhdm_offset current_directory demo_vmm].
  1: exact demo_pmm_wf.
  1: symmetry; apply (init_spec demo_map demo_hhdm (mk_pmm [] 0 0 0 0));
       [discriminate|exact demo_map_ok|exact demo_hhdm_ok].
  1: by vm_compute.
  intros a. unfold load, demo_vmm. cbn [mem].
  destruct (_ !! a) as [w|] eqn:E; [|by vm_compute]. cbn [default].
  apply lookup_insert_Some in E as [[_ <-]|[_ E]]; [by vm_compute|].
  apply lookup_insert_Some in E as [[_ <-]|[_ E]]; [by vm_compute|].
  apply lookup_singleton_Some in E as [_ <-]. by vm_compute.
Qed.

Lemma demo_space : space demo_vmm demo_tables.
Proof.
  split; [exact demo_vmm_wf|].
  assert (Hr : root demo_vmm = demo_pml4) by done.
  split.
  - by rewrite Hr.
  - intros t l [[-> ->]|[-> ->]]%demo_tables_lookup; lia.
  - intros t l [[-> ->]|[-> ->]]%demo_tables_lookup; [exists 1|exists 2];
      (split; [done|]; split; [done|]; split; [done|]; intros ?%demo_free_above; lia).
  - intros b Hb [?%demo_free_above|_] [H1 H2]; unfold block_at in *;
      cbn [hhdm_offset current_directory demo_vmm] in *; unfold demo_hhdm in *; lia.
  - intros t l i Ht _ Hi L. by destruct (demo_leads t l i Ht Hi L) as (-> & -> & ->).
  - intros t l i t' l' i' Ht _ Hi L Ht' _ Hi' L' _.
    destruct (demo_leads t l i Ht Hi L) as (-> & -> & _). by destruct (demo_leads t' l' i' Ht' Hi' L') as (-> & -> & _).
  - intros t l i Ht _ Hi P. by destruct (demo_entry t l i Ht Hi) as [E|(_ & _ & _ & E)]; rewrite E in P.
Qed.

Lemma demo_unmapped v : translate demo_vmm (root demo_vmm) v = Unmapped.
Proof.
  pose proof (index_range v) as (R4 & R3 & _). unfold translate. change (root demo_vmm) with demo_pml4.
  destruct (demo_entry demo_pml4 4 (PML4_INDEX v)) as [->|(_ & E & _ & _)]; [done..|]. rewrite E.
  change (child demo_vmm demo_pml4 0) with demo_pdpt.
  destruct (demo_entry demo_pdpt 3 (PDPT_INDEX v)) as [->|(? & _)]; done.
Qed.

Section properties.

(** C4. [vmm_map_page] in a well-formed address space: unless physical memory
    is exhausted, afterwards the page of [virt] is the aligned [phys] and
    every other page translates exactly as before, although up to three tables
    may have been allocated and linked; when a table cannot be allocated no
    translation changes.  Either way the tables still form a tree. *)
Theorem vmm_map_page_sound s T phys virt flags :
  space s T -> 0 <= phys < 2 ^ 52 -> is_u64 virt -> is_u64 flags ->
  (forall f, translate s (root s) virt <> Huge f) ->
  let s' := vmm_map_page phys virt flags s in
  exists T', T ⊆ T' /\ space s' T' /\ s'.(current_directory) = s.(current_directory) /\
  ((forall v, translate s' (root s') v =
      if decide (page v = page virt) then Small (PAGE_ALIGN_DOWN phys) else translate s (root s) v) \/
   (exhausted s' /\ forall v, translate s' (root s') v = translate s (root s) v)).
Proof.
  intros Sp Hp Hv Hf Hn. cbv zeta. rewrite map_page_walk by done.
  pose proof (map_walk_spec s T virt flags Sp Hf Hn) as Hw.
  destruct (map_walk virt flags s) as [[t1|] s1]; destruct Hw as (T1 & G & Hr); exists T1.
  - destruct Hr as (t3 & t2 & Pa). destruct (page_entry_value phys flags Hp Hf) as (V1 & V2).
    destruct (path_levels s1 T1 virt t3 t2 t1) as (_ & _ & L1); [apply G|done|].
    split; [apply G|]. split; [|split; [apply G|left]].
    + eapply set_entry_space; [apply G|done|apply index_range|done|by right].
    + intros v. erewrite translate_set_pt by (apply G || done). rewrite V2.
      by destruct (decide _); [|apply G].
  - split; [apply G|]. split; [apply G|]. split; [apply G|]. right. split; [done|apply G].
Qed.

Lemma vmm_map_page_sound_witness :
  let s' := vmm_map_page 0x5000 0x400000 3 demo_vmm in
  exists T', demo_tables ⊆ T' /\ space s' T' /\ s'.(current_directory) = demo_vmm.(current_directory) /\
  ((forall v, translate s' (root s') v =
      if decide (page v = page 0x400000) then Small (PAGE_ALIGN_DOWN 0x5000)
      else translate demo_vmm (root demo_vmm) v) \/
   (exhausted s' /\ forall v, translate s' (root s') v = translate demo_vmm (root demo_vmm) v)).
Proof.
  apply (vmm_map_page_sound demo_vmm demo_tables 0x5000 0x400000 3);
    [exact demo_space|done..|intros f; by rewrite demo_unmapped].
Defined.

(** [vmm_unmap_page] removes the translation of exactly one page and
    keeps the tree of tables. *)
Theorem vmm_unmap_page_sound s T virt :
  space s T -> is_u64 virt -> (forall f, translate s (root s) virt <> Huge f) ->
  let s' := vmm_unmap_page virt s in
  space s' T /\ s'.(v_pmm) = s.(v_pmm) /\
  forall v, translate s' (root s') v =
    if decide (page v = page virt) then Unmapped else translate s (root s) v.
Proof.
  intros Sp Hv Hn. destruct (unmap_page_walk s T virt Hv Sp Hn) as [(t3 & t2 & t1 & Pa & E)|[U E]];
    cbv zeta; rewrite E.
  - destruct (path_levels s T virt t3 t2 t1) as (_ & _ & L1); [apply Sp|done|].
    split; [|split; [done|]].
    + eapply set_entry_space; [done|done|apply index_range|by vm_compute|by right].
    + intros v. by erewrite translate_set_pt.
  - split; [done|]. split; [done|]. intros v. destruct (decide _) as [Ep|]; [|done].
    by rewrite (translate_page s _ _ _ Ep).
Qed.

Lemma vmm_unmap_page_sound_witness :
  let s' := vmm_unmap_page 0x400000 demo_vmm in
  space s' demo_tables /\ s'.(v_pmm) = demo_vmm.(v_pmm) /\
  forall v, translate s' (root s') v =
    if decide (page v = page 0x400000) then Unmapped else translate demo_vmm (root demo_vmm) v.
Proof.
  apply (vmm_unmap_page_sound demo_vmm demo_tables 0x400000);
    [exact demo_space|done|intros f; by rewrite demo_unmapped].
Defined.

(** The two lookups agree with the page map of the current directory and
    with each other: 0 for an unmapped page, the frame of a 4 KiB page, and the
    4 KiB piece of a 2 MiB page. *)
Theorem vmm_lookups_agree s T v :
  space s T -> s.(current_directory) <> NULL -> is_u64 v ->
  vmm_get_physical s v = mapping_phys (translate s (root s) v) v /\
  vmm_get_phys_addr s s.(current_directory) v = mapping_phys (translate s (root s) v) v /\
  vmm_is_mapped s v = vmm_is_mapped_in_dir s s.(current_directory) v.
Proof.
  intros Sp Hc Hv. unfold vmm_is_mapped, vmm_is_mapped_in_dir.
  rewrite get_physical_phys_addr by done. rewrite get_phys_addr_translate; try done.
  by eapply space_nonnull.
Qed.

Lemma vmm_lookups_agree_witness :
  vmm_get_physical demo_vmm 0x400123 = mapping_phys (translate demo_vmm (root demo_vmm) 0x400123) 0x400123 /\
  vmm_get_phys_addr demo_vmm demo_vmm.(current_directory) 0x400123 =
    mapping_phys (translate demo_vmm (root demo_vmm) 0x400123) 0x400123 /\
  vmm_is_mapped demo_vmm 0x400123 = vmm_is_mapped_in_dir demo_vmm demo_vmm.(current_directory) 0x400123.
Proof. apply (vmm_lookups_agree demo_vmm demo_tables 0x400123); [exact demo_space|done|done]. Defined.

(** A new directory shares the kernel's half of the address space and its
    first 512 GiB slot and nothing else; the kernel's own translations are
    unchanged, the recorded physical address is that of the new PML4, and on
    exhaustion the whole state is as before. *)
Theorem vmm_create_directory_shares s T :
  vmm_wf s -> tree (with_current s s.(kernel_directory)) T ->
  let kroot := dir_pml4 s s.(kernel_directory) in
  let '(dir, s') := vmm_create_directory s in
  (dir = NULL /\ s' = s) \/
  (dir <> NULL /\ dir_pml4_phys s' dir = virt_to_phys s' (dir_pml4 s' dir) /\
   (forall v, translate s' (dir_pml4 s' s'.(kernel_directory)) v = translate s kroot v) /\
   (forall v, translate s' (dir_pml4 s' dir) v =
      if (256 <=? PML4_INDEX v) || (PML4_INDEX v =? 0) then translate s kroot v else Unmapped)).
Proof.
  intros W Tr kroot. destruct (vmm_create_directory s) as [dir s'] eqn:E.
  destruct (create_directory_cases s T W Tr dir s' E) as [[-> ->]|(b1 & b2 & -> & Hn & N)]; [by left|right].
  split; [done|]. split.
  { rewrite (nd_pml4 _ _ _ _ N), (nd_phys _ _ _ _ N). unfold virt_to_phys. by rewrite (nd_hhdm _ _ _ _ N). }
  destruct (new_directory_kernel s T Tr s' b1 b2 N) as [Hr He].
  split; intros v; rewrite ?(nd_pml4 _ _ _ _ N), ?Hr.
  - apply (translate_shared _ _ _ _ v Tr); [apply N| |done]. apply (He _ 4); [apply Tr|apply index_range].
  - apply (new_directory_translate s T Tr s' b1 b2 N).
Qed.

Lemma vmm_create_directory_shares_witness :
  let '(dir, s') := vmm_create_directory demo_vmm in
  (dir = NULL /\ s' = demo_vmm) \/
  (dir <> NULL /\ dir_pml4_phys s' dir = virt_to_phys s' (dir_pml4 s' dir) /\
   (forall v, translate s' (dir_pml4 s' s'.(kernel_directory)) v =
      translate demo_vmm (dir_pml4 demo_vmm demo_vmm.(kernel_directory)) v) /\
   (forall v, translate s' (dir_pml4 s' dir) v =
      if (256 <=? PML4_INDEX v) || (PML4_INDEX v =? 0)
      then translate demo_vmm (dir_pml4 demo_vmm demo_vmm.(kernel_directory)) v else Unmapped)).
Proof.
  exact (vmm_create_directory_shares demo_vmm demo_tables demo_vmm_wf (sp_tree _ _ demo_space)).
Defined.

(** Destroying a directory frees tables that are still the kernel's: when
    the kernel's PML4[0] leads to a table in managed memory, creating a
    directory and freeing it leaves that table's block free while the kernel's
    PML4 still points to it. *)
Theorem vmm_free_directory_frees_kernel_table s T b :
  vmm_wf s -> tree (with_current s s.(kernel_directory)) T ->
  let kroot := dir_pml4 s s.(kernel_directory) in
  present (entry s kroot 0) = true -> child s kroot 0 = block_at s b ->
  0 <= b < s.(v_pmm).(pmm_total_blocks) -> (vmm_create_directory s).1 <> NULL ->
  let '(dir, s1) := vmm_create_directory s in
  let s2 := vmm_free_directory dir s1 in
  free_block s2 b /\
  present (entry s2 (dir_pml4 s2 s2.(kernel_directory)) 0) = true /\
  child s2 (dir_pml4 s2 s2.(kernel_directory)) 0 = block_at s2 b.
Proof.
  intros W Tr kroot Hp Hc Hb Hd. destruct (vmm_create_directory s) as [dir s1] eqn:E. cbn [fst] in Hd.
  destruct (create_directory_cases s T W Tr dir s1 E) as [[-> _]|(b1 & b2 & -> & Hn & N)]; [done|]. clear E.
  destruct (new_directory_kernel s T Tr s1 b1 b2 N) as [Hr He].
  assert (Hk0 : entry s1 kroot 0 = entry s kroot 0) by (apply (He _ 4); [apply (tr_root _ _ Tr)|lia]).
  assert (Hc1 : forall t, entry s1 t 0 = entry s kroot 0 -> child s1 t 0 = block_at s1 b).
  { intros t Et. transitivity (child s kroot 0); [apply child_eq; [apply N|by rewrite Et]|].
    rewrite Hc. unfold block_at. by rewrite (nd_hhdm _ _ _ _ N). }
  assert (H0 : entry s1 (block_at s b2) 0 = entry s kroot 0).
  { rewrite (nd_entry _ _ _ _ N) by lia. fold kroot. by rewrite Hp. }
  pose proof (new_directory_pmm s W s1 b1 b2 N) as Ws1.
  destruct (free_directory_first (block_at s b1) b s1) as [[_ _ _ Es] Hf].
  - apply Ws1.
  - apply Ws1.
  - done.
  - by apply (new_directory_ne s T Tr s1 b1 b2).
  - by rewrite (nd_pml4 _ _ _ _ N), H0.
  - rewrite (nd_pml4 _ _ _ _ N). by apply Hc1.
  - rewrite (nd_pmm _ _ _ _ N). destruct (acquire_frame b2 (acquire b1 (v_pmm s))) as (-> & _).
    by destruct (acquire_frame b1 (v_pmm s)) as (-> & _).
  - cbv zeta. generalize dependent (vmm_free_directory (block_at s b1) s1). intros s2 Es Hf. split; [done|].
    rewrite Es. cbn [kernel_directory with_pmm]. unfold dir_pml4, entry, child, load. cbn [mem with_pmm].
    fold (load s1 (s1.(kernel_directory) + 8)) (dir_pml4 s1 s1.(kernel_directory)). rewrite Hr.
    split; [by rewrite <- Hp, <- Hk0|]. by apply Hc1.
Qed.

Lemma vmm_free_directory_frees_kernel_table_witness :
  let '(dir, s1) := vmm_create_directory demo_vmm in
  let s2 := vmm_free_directory dir s1 in
  free_block s2 2 /\
  present (entry s2 (dir_pml4 s2 s2.(kernel_directory)) 0) = true /\
  child s2 (dir_pml4 s2 s2.(kernel_directory)) 0 = block_at s2 2.
Proof.
  apply (vmm_free_directory_frees_kernel_table demo_vmm demo_tables 2);
    [exact demo_vmm_wf|exact (sp_tree _ _ demo_space)|done|done|rewrite demo_total; lia|vm_compute; discriminate].
Defined.
End properties.
