(* ===== verification/NetBase.v ===== *)
(** Common ground of the network stack: byte order (src/net/utils.h), address
    helpers (src/net/core/net.c, src/net/core/netdev.c), interfaces and the
    legacy device table, the wire headers, and the state the lower layers
    share.  A frame handed to a driver is appended to [tx]; the driver's
    answer only changes counters and log messages. *)
From S2P Require Import Prelude.

(** ** Byte order *)
Definition htons (val : Z) : Z := u16 (Z.lor (Z.shiftl val 8) (Z.shiftr val 8)).
Definition ntohs (val : Z) : Z := u16 (Z.lor (Z.shiftl val 8) (Z.shiftr val 8)).
Definition htonl (val : Z) : Z :=
  u32 (Z.lor (Z.lor (Z.lor (Z.shiftr (Z.land val 0xFF000000) 24)
                           (Z.shiftr (Z.land val 0x00FF0000) 8))
                    (Z.shiftl (Z.land val 0x0000FF00) 8))
             (Z.shiftl (Z.land val 0x000000FF) 24)).
Definition ntohl (val : Z) : Z :=
  u32 (Z.lor (Z.lor (Z.lor (Z.shiftr (Z.land val 0xFF000000) 24)
                           (Z.shiftr (Z.land val 0x00FF0000) 8))
                    (Z.shiftl (Z.land val 0x0000FF00) 8))
             (Z.shiftl (Z.land val 0x000000FF) 24)).

(** ** Addresses: an IPv4 address is 4 bytes, a MAC address 6. *)
Definition ip_u32_to_bytes (ip : Z) : list Z :=
  [Z.land (Z.shiftr ip 24) 0xFF; Z.land (Z.shiftr ip 16) 0xFF;
   Z.land (Z.shiftr ip 8) 0xFF; Z.land ip 0xFF].
Definition ip_bytes_to_u32 (b : list Z) : Z :=
  Z.lor (Z.lor (Z.lor (Z.shiftl (rd0 b 0) 24) (Z.shiftl (rd0 b 1) 16))
               (Z.shiftl (rd0 b 2) 8)) (rd0 b 3).

Definition ip_equals (a b : list Z) : bool :=
  (rd0 a 0 =? rd0 b 0) && (rd0 a 1 =? rd0 b 1) && (rd0 a 2 =? rd0 b 2) && (rd0 a 3 =? rd0 b 3).
Definition mac_equals (a b : list Z) : bool :=
  forallb (fun i => rd0 a i =? rd0 b i) [0; 1; 2; 3; 4; 5].
Definition mac_is_broadcast (a : list Z) : bool :=
  forallb (fun i => rd0 a i =? 0xFF) [0; 1; 2; 3; 4; 5].

Definition is_ip (a : list Z) : Prop := length a = 4%nat /\ Forall is_u8 a.
Definition is_mac (a : list Z) : Prop := length a = 6%nat /\ Forall is_u8 a.

(** ** Interfaces *)
Record NetInterface := mk_netif {
  ni_name : list Z;
  ni_mac_addr : list Z;
  ni_ip_addr : Z;
  ni_netmask : Z;
  ni_gateway : Z;
  ni_dns_server : Z;
  ni_flags : Z;
  ni_send : bool;         (** the driver hook is not NULL *)
  ni_packets_tx : Z; ni_packets_rx : Z; ni_bytes_tx : Z; ni_bytes_rx : Z; ni_errors : Z
}.

Inductive netdev_type_t :=
| NETDEV_TYPE_NONE | NETDEV_TYPE_PCNET | NETDEV_TYPE_RTL8139 | NETDEV_TYPE_E1000 | NETDEV_TYPE_VIRTIO.

(** The legacy device: [nd_send] is [None] for a NULL hook, otherwise the
    answers the driver gives. *)
Record netdev_t := mk_netdev {
  nd_type : netdev_type_t;
  nd_mac : list Z;
  nd_initialized : bool;
  nd_send : option (list Z -> bool);
  nd_packets_tx : Z;
  nd_packets_rx : Z;
  nd_errors : Z
}.

(** ** State of the layers below transport *)
Record route_entry_t := mk_route {
  r_network : list Z;
  r_netmask : list Z;
  r_gateway : list Z;
  r_interface : Z;       (** index in the legacy device table *)
  r_active : bool
}.

Record arp_cache_entry_t := mk_arp_entry { ac_ip : list Z; ac_mac : list Z; ac_valid : bool }.

Record net := mk_net {
  MY_IP : list Z;
  MY_MAC : list Z;
  netif_list : list NetInterface;        (** the linked list, in order *)
  netif_count : Z;
  netdevs : list netdev_t;
  default_netdev : option Z;
  routes : list route_entry_t;
  route_count : Z;
  arp_cache : list arp_cache_entry_t;
  arp_cache_count : Z;
  ip_id_counter : Z;
  tx : list (list Z);                    (** frames handed to a driver, oldest first *)
  overrun : bool                         (** a sender wrote past the end of its stack buffer:
                                             the behaviour of the C code is undefined from there *)
}.

Definition with_netifs (n : net) (l : list NetInterface) (c : Z) : net :=
  mk_net n.(MY_IP) n.(MY_MAC) l c n.(netdevs) n.(default_netdev) n.(routes) n.(route_count)
    n.(arp_cache) n.(arp_cache_count) n.(ip_id_counter) n.(tx) n.(overrun).
Definition with_netdevs (n : net) (l : list netdev_t) (d : option Z) : net :=
  mk_net n.(MY_IP) n.(MY_MAC) n.(netif_list) n.(netif_count) l d n.(routes) n.(route_count)
    n.(arp_cache) n.(arp_cache_count) n.(ip_id_counter) n.(tx) n.(overrun).
Definition with_routes (n : net) (l : list route_entry_t) (c : Z) : net :=
  mk_net n.(MY_IP) n.(MY_MAC) n.(netif_list) n.(netif_count) n.(netdevs) n.(default_netdev) l c
    n.(arp_cache) n.(arp_cache_count) n.(ip_id_counter) n.(tx) n.(overrun).
Definition with_arp (n : net) (l : list arp_cache_entry_t) (c : Z) : net :=
  mk_net n.(MY_IP) n.(MY_MAC) n.(netif_list) n.(netif_count) n.(netdevs) n.(default_netdev)
    n.(routes) n.(route_count) l c n.(ip_id_counter) n.(tx) n.(overrun).
Definition with_ip_id (n : net) (i : Z) : net :=
  mk_net n.(MY_IP) n.(MY_MAC) n.(netif_list) n.(netif_count) n.(netdevs) n.(default_netdev)
    n.(routes) n.(route_count) n.(arp_cache) n.(arp_cache_count) i n.(tx) n.(overrun).
Definition with_tx (n : net) (f : list Z) : net :=
  mk_net n.(MY_IP) n.(MY_MAC) n.(netif_list) n.(netif_count) n.(netdevs) n.(default_netdev)
    n.(routes) n.(route_count) n.(arp_cache) n.(arp_cache_count) n.(ip_id_counter) (n.(tx) ++ [f])
    n.(overrun).
Definition with_overrun (n : net) (b : bool) : net :=
  mk_net n.(MY_IP) n.(MY_MAC) n.(netif_list) n.(netif_count) n.(netdevs) n.(default_netdev) n.(routes)
    n.(route_count) n.(arp_cache) n.(arp_cache_count) n.(ip_id_counter) n.(tx) (n.(overrun) || b).
Definition with_mac (n : net) (m : list Z) : net :=
  mk_net n.(MY_IP) m n.(netif_list) n.(netif_count) n.(netdevs) n.(default_netdev) n.(routes)
    n.(route_count) n.(arp_cache) n.(arp_cache_count) n.(ip_id_counter) n.(tx) n.(overrun).

(** ** net.c and netdev.c *)
Definition net_init (mac : list Z) (n : net) : net := with_mac n (bytes_at mac 0 6).

Definition netdev_register (netif : option NetInterface) (n : net) : net :=
  match netif with
  | None => n
  | Some f =>
      let f := mk_netif f.(ni_name) f.(ni_mac_addr) f.(ni_ip_addr) f.(ni_netmask) f.(ni_gateway)
                 f.(ni_dns_server) f.(ni_flags) f.(ni_send) 0 0 0 0 0 in
      with_netifs n (n.(netif_list) ++ [f]) (n.(netif_count) + 1)
  end.

Definition netif_get_default (n : net) : option NetInterface := head n.(netif_list).

(** [*a && *b] comparison of two C strings given as byte lists without the
    terminating zero. *)
Fixpoint name_match (a b : list Z) : bool :=
  match a, b with
  | [], [] => true
  | x :: a', y :: b' => if x =? y then name_match a' b' else false
  | _, _ => false
  end.

Definition netif_get_by_name (name : list Z) (n : net) : option NetInterface :=
  find_loop (length n.(netif_list)) 0 (fun i =>
    match rd n.(netif_list) i with
    | Some f => if name_match f.(ni_name) name then Some f else None
    | None => None
    end).

Definition netdev_get_default (n : net) : option Z := n.(default_netdev).

Definition netdev_count_val (n : net) : Z := zlen n.(netdevs).
Definition netdev_get (index : Z) (n : net) : option Z :=
  if (0 <=? index) && (index <? netdev_count_val n) then Some index else None.
Definition netdev_count (n : net) : Z := netdev_count_val n.

Definition default_dev (n : net) : option netdev_t :=
  match n.(default_netdev) with Some i => rd n.(netdevs) i | None => None end.

(** [pcnet_send_wrapper]: the frame goes to the driver, whose answer selects
    the counter. *)
Definition send_wrapper (i : Z) (dev : netdev_t) (drv : list Z -> bool) (frame : list Z) (n : net)
    : bool * net :=
  let n := with_tx n frame in
  let result := drv frame in
  let dev :=
    if result
    then mk_netdev dev.(nd_type) dev.(nd_mac) dev.(nd_initialized) dev.(nd_send)
           (u32 (dev.(nd_packets_tx) + 1)) dev.(nd_packets_rx) dev.(nd_errors)
    else mk_netdev dev.(nd_type) dev.(nd_mac) dev.(nd_initialized) dev.(nd_send)
           dev.(nd_packets_tx) dev.(nd_packets_rx) (u32 (dev.(nd_errors) + 1)) in
  (result, with_netdevs n (wr n.(netdevs) i dev) n.(default_netdev)).

Definition netdev_send (frame : list Z) (n : net) : bool * net :=
  match n.(default_netdev) with
  | Some i =>
      match rd n.(netdevs) i with
      | Some dev =>
          match dev.(nd_send) with
          | Some drv => send_wrapper i dev drv frame n
          | None => (false, n)
          end
      | None => (false, n)
      end
  | None => (false, n)
  end.

Definition netdev_get_mac (n : net) : list Z :=
  match default_dev n with
  | Some dev => bytes_at dev.(nd_mac) 0 6
  | None => [0; 0; 0; 0; 0; 0]
  end.

(** The tail every sender shares: the interface's hook when there is one,
    otherwise the legacy device. *)
Definition transmit (netif : option NetInterface) (frame : list Z) (n : net) : net :=
  match netif with
  | Some f => if f.(ni_send) then with_tx n frame else snd (netdev_send frame n)
  | None => snd (netdev_send frame n)
  end.

(** The address used as source: the interface's, else the legacy globals. *)
Definition my_mac (netif : option NetInterface) (n : net) : list Z :=
  match netif with
  | Some f => bytes_at f.(ni_mac_addr) 0 6
  | None => netdev_get_mac n
  end.
Definition my_ip (netif : option NetInterface) (n : net) : list Z :=
  match netif with
  | Some f => ip_u32_to_bytes f.(ni_ip_addr)
  | None => bytes_at n.(MY_IP) 0 4
  end.
(** On reception an interface without an address falls back to [MY_IP]. *)
Definition my_ip_configured (netif : option NetInterface) (n : net) : list Z :=
  match netif with
  | Some f => if negb (f.(ni_ip_addr) =? 0) then ip_u32_to_bytes f.(ni_ip_addr) else bytes_at n.(MY_IP) 0 4
  | None => bytes_at n.(MY_IP) 0 4
  end.

(** ** Wire headers: the packed structures, and the casts from and to bytes *)
Record ethernet_header_t := mk_eth { eth_dest_mac : list Z; eth_src_mac : list Z; eth_ethertype : Z }.
Definition ETHERNET_HEADER_SIZE : Z := 14.
Definition eth_bytes (h : ethernet_header_t) : list Z :=
  h.(eth_dest_mac) ++ h.(eth_src_mac) ++ le16 h.(eth_ethertype).
Definition eth_cast (b : list Z) : ethernet_header_t :=
  mk_eth (bytes_at b 0 6) (bytes_at b 6 6) (rd16 b 12).
Definition ETH_TYPE_IPV4 : Z := 0x0800.
Definition ETH_TYPE_ARP : Z := 0x0806.

Record arp_packet_t := mk_arp {
  arp_hardware_type : Z; arp_protocol_type : Z; arp_hardware_size : Z; arp_protocol_size : Z;
  arp_opcode : Z; arp_src_mac : list Z; arp_src_ip : list Z; arp_dest_mac : list Z; arp_dest_ip : list Z
}.
Definition arp_bytes (p : arp_packet_t) : list Z :=
  le16 p.(arp_hardware_type) ++ le16 p.(arp_protocol_type) ++ [p.(arp_hardware_size); p.(arp_protocol_size)]
  ++ le16 p.(arp_opcode) ++ p.(arp_src_mac) ++ p.(arp_src_ip) ++ p.(arp_dest_mac) ++ p.(arp_dest_ip).
Definition arp_cast (b : list Z) : arp_packet_t :=
  mk_arp (rd16 b 0) (rd16 b 2) (rd0 b 4) (rd0 b 5) (rd16 b 6)
    (bytes_at b 8 6) (bytes_at b 14 4) (bytes_at b 18 6) (bytes_at b 24 4).

Record ipv4_header_t := mk_ipv4 {
  ip_version_ihl : Z; ip_tos : Z; ip_total_length : Z; ip_identification : Z; ip_flags_fragment : Z;
  ip_ttl : Z; ip_protocol : Z; ip_checksum_field : Z; ip_src_ip : list Z; ip_dest_ip : list Z
}.
Definition IPV4_HEADER_SIZE : Z := 20.
Definition ipv4_bytes (h : ipv4_header_t) : list Z :=
  [h.(ip_version_ihl); h.(ip_tos)] ++ le16 h.(ip_total_length) ++ le16 h.(ip_identification)
  ++ le16 h.(ip_flags_fragment) ++ [h.(ip_ttl); h.(ip_protocol)] ++ le16 h.(ip_checksum_field)
  ++ h.(ip_src_ip) ++ h.(ip_dest_ip).
Definition ipv4_cast (b : list Z) : ipv4_header_t :=
  mk_ipv4 (rd0 b 0) (rd0 b 1) (rd16 b 2) (rd16 b 4) (rd16 b 6) (rd0 b 8) (rd0 b 9) (rd16 b 10)
    (bytes_at b 12 4) (bytes_at b 16 4).

Record udp_header_t := mk_udp { udp_src_port : Z; udp_dest_port : Z; udp_length : Z; udp_checksum : Z }.
Definition UDP_HEADER_SIZE : Z := 8.
Definition udp_bytes (h : udp_header_t) : list Z :=
  le16 h.(udp_src_port) ++ le16 h.(udp_dest_port) ++ le16 h.(udp_length) ++ le16 h.(udp_checksum).
Definition udp_cast (b : list Z) : udp_header_t := mk_udp (rd16 b 0) (rd16 b 2) (rd16 b 4) (rd16 b 6).

Record tcp_header_t := mk_tcp {
  tcp_src_port : Z; tcp_dest_port : Z; tcp_seq_num : Z; tcp_ack_num : Z; tcp_data_offset_flags : Z;
  tcp_window_size : Z; tcp_checksum_field : Z; tcp_urgent_ptr : Z
}.
Definition TCP_HEADER_SIZE : Z := 20.
Definition tcp_bytes (h : tcp_header_t) : list Z :=
  le16 h.(tcp_src_port) ++ le16 h.(tcp_dest_port) ++ le32 h.(tcp_seq_num) ++ le32 h.(tcp_ack_num)
  ++ le16 h.(tcp_data_offset_flags) ++ le16 h.(tcp_window_size) ++ le16 h.(tcp_checksum_field)
  ++ le16 h.(tcp_urgent_ptr).
Definition tcp_cast (b : list Z) : tcp_header_t :=
  mk_tcp (rd16 b 0) (rd16 b 2) (rd32 b 4) (rd32 b 8) (rd16 b 12) (rd16 b 14) (rd16 b 16) (rd16 b 18).

(** ** Lemmas *)

(** Disjoint bits: [lor] is addition. *)
Lemma lor_add a b k : 0 <= k -> 0 <= b < 2 ^ k -> Z.lor (a * 2 ^ k) b = a * 2 ^ k + b.
Proof.
  intros Hk Hb. assert (D : Z.land (a * 2 ^ k) b = 0).
  { apply Z.bits_inj'. intros i Hi. rewrite Z.land_spec, Z.bits_0.
    destruct (decide (i < k)); [by rewrite Z.mul_pow2_bits_low by lia|].
    rewrite <- (Z.mod_small b (2 ^ k)), Z.mod_pow2_bits_high by lia. apply andb_false_r. }
  rewrite Z.add_nocarry_lxor by done. by rewrite Z.lxor_lor.
Qed.

Lemma land_byte v k : 0 <= k -> Z.land v (Z.shiftl 0xFF k) = (v / 2 ^ k) mod 256 * 2 ^ k.
Proof.
  intros Hk. change 256 with (2 ^ 8). rewrite <- Z.land_ones, <- Z.shiftr_div_pow2, <- Z.shiftl_mul_pow2 by lia.
  apply Z.bits_inj'. intros i Hi. rewrite Z.land_spec, !Z.shiftl_spec by lia.
  destruct (decide (i < k)).
  - rewrite !(Z.testbit_neg_r _ (i - k)) by lia. apply andb_false_r.
  - rewrite Z.land_spec, Z.shiftr_spec by lia. by replace (i - k + k) with i by lia.
Qed.

Lemma htons_eq x : is_u16 x -> htons x = x mod 256 * 256 + x / 256.
Proof.
  intros Hx. unfold htons. rewrite Z.shiftl_mul_pow2, Z.shiftr_div_pow2 by lia.
  change (2 ^ 8) with 256. widths.
  replace (Z.lor (x * 256) (x / 256)) with (x * 256 + x / 256) by (symmetry; apply (lor_add x _ 8); lia). lia.
Qed.
Lemma ntohs_eq x : is_u16 x -> ntohs x = x mod 256 * 256 + x / 256.
Proof. apply htons_eq. Qed.
Lemma htons_range x : is_u16 (htons x).
Proof. apply u16_range. Qed.
Lemma ntohs_htons x : is_u16 x -> ntohs (htons x) = x.
Proof.
  intros Hx. rewrite ntohs_eq by apply htons_range. rewrite htons_eq by done. widths. lia.
Qed.

(** The four bytes of a 32-bit word. *)
Definition b0 (x : Z) : Z := x mod 256.
Definition b1 (x : Z) : Z := x / 256 mod 256.
Definition b2 (x : Z) : Z := x / 65536 mod 256.
Definition b3 (x : Z) : Z := x / 16777216 mod 256.

Lemma bytes_of_u32 x : is_u32 x -> x = b0 x + 256 * b1 x + 65536 * b2 x + 16777216 * b3 x.
Proof. unfold b0, b1, b2, b3. widths. lia. Qed.

Lemma htonl_eq x : is_u32 x -> htonl x = b3 x + 256 * b2 x + 65536 * b1 x + 16777216 * b0 x.
Proof.
  intros Hx. unfold htonl.
  change 0xFF000000 with (Z.shiftl 0xFF 24). change 0x00FF0000 with (Z.shiftl 0xFF 16).
  change 0x0000FF00 with (Z.shiftl 0xFF 8). change 0x000000FF with (Z.shiftl 0xFF 0) at 4.
  rewrite !land_byte, !Z.shiftr_div_pow2, !Z.shiftl_mul_pow2 by lia.
  change (2 ^ 24) with 16777216. change (2 ^ 16) with 65536. change (2 ^ 8) with 256. change (2 ^ 0) with 1.
  replace (x / 16777216 mod 256 * 16777216 / 16777216) with (b3 x) by (unfold b3; lia).
  replace (x / 65536 mod 256 * 65536 / 256) with (b2 x * 256) by (unfold b2; lia).
  replace (x / 256 mod 256 * 256 * 256) with (b1 x * 65536) by (unfold b1; lia).
  replace (x / 1 mod 256 * 1 * 16777216) with (b0 x * 16777216) by (unfold b0; rewrite Z.div_1_r; lia).
  assert (R : 0 <= b0 x < 256 /\ 0 <= b1 x < 256 /\ 0 <= b2 x < 256 /\ 0 <= b3 x < 256)
    by (unfold b0, b1, b2, b3; lia).
  clear Hx. generalize dependent (b0 x). generalize dependent (b1 x). generalize dependent (b2 x).
  generalize dependent (b3 x). clear x. intros x3 x2 x1 x0 R.
  pose proof (lor_add x2 x3 8 ltac:(lia) ltac:(lia)) as E1. change (2 ^ 8) with 256 in E1.
  pose proof (lor_add x1 (x2 * 256 + x3) 16 ltac:(lia) ltac:(lia)) as E2. change (2 ^ 16) with 65536 in E2.
  pose proof (lor_add x0 (x1 * 65536 + (x2 * 256 + x3)) 24 ltac:(lia) ltac:(lia)) as E3.
  change (2 ^ 24) with 16777216 in E3.
  rewrite (Z.lor_comm x3), E1, (Z.lor_comm _ (x1 * 65536)), E2, (Z.lor_comm _ (x0 * 16777216)), E3.
  rewrite u32_small by (widths; lia). lia.
Qed.
Lemma htonl_range x : is_u32 (htonl x).
Proof. apply u32_range. Qed.
Lemma ntohl_htonl x : is_u32 x -> ntohl (htonl x) = x.
Proof.
  intros Hx. change (ntohl (htonl x)) with (htonl (htonl x)).
  rewrite (htonl_eq (htonl x)) by apply htonl_range. rewrite htonl_eq by done.
  rewrite (bytes_of_u32 x Hx) at 17.
  assert (R : 0 <= b0 x < 256 /\ 0 <= b1 x < 256 /\ 0 <= b2 x < 256 /\ 0 <= b3 x < 256)
    by (unfold b0, b1, b2, b3; lia).
  clear Hx. generalize dependent (b0 x). generalize dependent (b1 x). generalize dependent (b2 x).
  generalize dependent (b3 x). intros x3 x2 x1 x0 R. unfold b0, b1, b2, b3. lia.
Qed.

Lemma ip_explode a : is_ip a -> exists x0 x1 x2 x3, a = [x0; x1; x2; x3].
Proof. intros [Hl _]. do 4 (destruct a as [|? a]; [done|]). destruct a; [by repeat eexists|done]. Qed.
Lemma mac_explode a : is_mac a -> exists x0 x1 x2 x3 x4 x5, a = [x0; x1; x2; x3; x4; x5].
Proof. intros [Hl _]. do 6 (destruct a as [|? a]; [done|]). destruct a; [by repeat eexists|done]. Qed.

(** Replace the addresses of the context by explicit byte lists. *)
Ltac explode_addrs :=
  repeat match goal with
  | H : is_ip ?a |- _ => apply ip_explode in H as (? & ? & ? & ? & ?)
  | H : is_mac ?a |- _ => apply mac_explode in H as (? & ? & ? & ? & ? & ? & ?)
  end.

Lemma eth_cast_bytes h rest :
  is_mac h.(eth_dest_mac) -> is_mac h.(eth_src_mac) -> is_u16 h.(eth_ethertype) ->
  eth_cast (eth_bytes h ++ rest) = h.
Proof.
  destruct h as [d s t]. cbn [eth_dest_mac eth_src_mac eth_ethertype]. intros Hd Hs Ht. explode_addrs. subst.
  unfold eth_cast, eth_bytes, rd16. cbn. f_equal. by apply rd16_le16.
Qed.

Lemma eth_bytes_length h :
  is_mac h.(eth_dest_mac) -> is_mac h.(eth_src_mac) -> length (eth_bytes h) = 14%nat.
Proof. intros [Hd _] [Hs _]. unfold eth_bytes. rewrite !length_app, Hd, Hs. done. Qed.

Lemma ipv4_cast_bytes h rest :
  is_ip h.(ip_src_ip) -> is_ip h.(ip_dest_ip) ->
  is_u16 h.(ip_total_length) -> is_u16 h.(ip_identification) -> is_u16 h.(ip_flags_fragment) ->
  is_u16 h.(ip_checksum_field) ->
  ipv4_cast (ipv4_bytes h ++ rest) = h.
Proof.
  destruct h. cbn [ip_src_ip ip_dest_ip ip_total_length ip_identification ip_flags_fragment ip_checksum_field].
  intros Hs Hd ? ? ? ?. explode_addrs. subst. unfold ipv4_cast, ipv4_bytes, rd16. cbn.
  f_equal; by apply rd16_le16.
Qed.

Lemma ipv4_bytes_length h : is_ip h.(ip_src_ip) -> is_ip h.(ip_dest_ip) -> length (ipv4_bytes h) = 20%nat.
Proof. intros [Hd _] [Hs _]. unfold ipv4_bytes. rewrite !length_app, Hd, Hs. done. Qed.

Lemma arp_cast_bytes p rest :
  is_mac p.(arp_src_mac) -> is_mac p.(arp_dest_mac) -> is_ip p.(arp_src_ip) -> is_ip p.(arp_dest_ip) ->
  is_u16 p.(arp_hardware_type) -> is_u16 p.(arp_protocol_type) -> is_u16 p.(arp_opcode) ->
  arp_cast (arp_bytes p ++ rest) = p.
Proof.
  destruct p. cbn [arp_src_mac arp_dest_mac arp_src_ip arp_dest_ip arp_hardware_type arp_protocol_type arp_opcode].
  intros ? ? ? ? ? ? ?. explode_addrs. subst. unfold arp_cast, arp_bytes, rd16. cbn.
  f_equal; by apply rd16_le16.
Qed.

Lemma udp_cast_bytes h rest :
  is_u16 h.(udp_src_port) -> is_u16 h.(udp_dest_port) -> is_u16 h.(udp_length) -> is_u16 h.(udp_checksum) ->
  udp_cast (udp_bytes h ++ rest) = h.
Proof.
  destruct h. cbn [udp_src_port udp_dest_port udp_length udp_checksum]. intros.
  unfold udp_cast, udp_bytes, rd16. cbn. f_equal; by apply rd16_le16.
Qed.

Lemma tcp_cast_bytes h rest :
  is_u16 h.(tcp_src_port) -> is_u16 h.(tcp_dest_port) -> is_u32 h.(tcp_seq_num) -> is_u32 h.(tcp_ack_num) ->
  is_u16 h.(tcp_data_offset_flags) -> is_u16 h.(tcp_window_size) -> is_u16 h.(tcp_checksum_field) ->
  is_u16 h.(tcp_urgent_ptr) ->
  tcp_cast (tcp_bytes h ++ rest) = h.
Proof.
  destruct h. cbn [tcp_src_port tcp_dest_port tcp_seq_num tcp_ack_num tcp_data_offset_flags tcp_window_size
    tcp_checksum_field tcp_urgent_ptr]. intros.
  unfold tcp_cast, tcp_bytes, rd16, rd32, le32, le16.
  cbn [app rd0 rd Z.leb Z.compare Z.add Pos.add Z.to_nat Pos.to_nat Pos.iter_op Nat.add Pos.succ].
  unfold rd0, rd. cbn -[Z.pow Z.div Z.modulo Z.mul Z.add].
  f_equal; by (apply rd16_le16 || apply rd32_le32).
Qed.

Lemma land_255 x : 0 <= x -> Z.land x 0xFF = x mod 256.
Proof. intros. change 0xFF with (Z.ones 8). by rewrite Z.land_ones by lia. Qed.

Lemma ip_u32_to_bytes_eq x : is_u32 x -> ip_u32_to_bytes x = [b3 x; b2 x; b1 x; b0 x].
Proof.
  intros Hx. unfold ip_u32_to_bytes, b0, b1, b2, b3. rewrite !Z.shiftr_div_pow2 by lia.
  change (2 ^ 24) with 16777216. change (2 ^ 16) with 65536. change (2 ^ 8) with 256.
  rewrite !land_255 by (widths; lia). done.
Qed.

Lemma ip_u32_to_bytes_is_ip x : is_u32 x -> is_ip (ip_u32_to_bytes x).
Proof.
  intros Hx. rewrite ip_u32_to_bytes_eq by done. unfold b0, b1, b2, b3.
  split; [done|]. repeat constructor; widths; lia.
Qed.

Lemma bytes_at_length b i n : length (bytes_at b i n) = n.
Proof. unfold bytes_at. by rewrite length_fmap, length_seq. Qed.

Lemma bytes_at_u8 b i n : Forall is_u8 b -> Forall is_u8 (bytes_at b i n).
Proof.
  intros Hb. unfold bytes_at. apply list.Forall_forall. intros x (k & -> & _)%list_elem_of_fmap. by apply rd0_u8.
Qed.

Lemma bytes_at_mac m : is_mac m -> bytes_at m 0 6 = m.
Proof. intros Hm. apply mac_explode in Hm as (? & ? & ? & ? & ? & ? & ->). done. Qed.
Lemma bytes_at_ip a : is_ip a -> bytes_at a 0 4 = a.
Proof. intros Hm. apply ip_explode in Hm as (? & ? & ? & ? & ->). done. Qed.

Lemma ip_equals_spec a b : is_ip a -> is_ip b -> ip_equals a b = true <-> a = b.
Proof.
  intros Ha Hb. apply ip_explode in Ha as (? & ? & ? & ? & ->). apply ip_explode in Hb as (? & ? & ? & ? & ->).
  unfold ip_equals. cbn. rewrite !andb_true_iff, !Z.eqb_eq. naive_solver.
Qed.
Lemma ip_equals_refl a : ip_equals a a = true.
Proof. unfold ip_equals. by rewrite !Z.eqb_refl. Qed.

Lemma with_tx_tx n f : (with_tx n f).(tx) = n.(tx) ++ [f].
Proof. done. Qed.

(** A stack whose interface has a driver transmits exactly the frame. *)
Lemma transmit_hook f frame n : f.(ni_send) = true -> transmit (Some f) frame n = with_tx n frame.
Proof. intros H. unfold transmit. by rewrite H. Qed.

(** ** Reading at the end of a prefix *)
Lemma rd0_app_r l1 l2 k : 0 <= k -> rd0 (l1 ++ l2) (zlen l1 + k) = rd0 l2 k.
Proof. intros. unfold rd0. rewrite rd_app_r by lia. do 2 f_equal. lia. Qed.
Lemma rd0_mid pre x post : rd0 (pre ++ x :: post) (zlen pre) = x.
Proof. rewrite <- (Z.add_0_r (zlen pre)). by rewrite rd0_app_r. Qed.

Lemma to_nat_zlen {A} (l : list A) : Z.to_nat (zlen l) = length l.
Proof. apply Nat2Z.id. Qed.

Lemma bytes_at_app_r l1 l2 k n : 0 <= k -> bytes_at (l1 ++ l2) (zlen l1 + k) n = bytes_at l2 k n.
Proof.
  intros Hk. unfold bytes_at. apply list_fmap_ext. intros i x _. rewrite <- Z.add_assoc. apply rd0_app_r. lia.
Qed.
Lemma bytes_at_prefix l rest n : (n <= length l)%nat -> bytes_at (l ++ rest) 0 n = take n l.
Proof.
  revert l. induction n as [|n IH]; intros [|x l] Hn; cbn [length] in Hn; try done; [lia|].
  cbn [take]. rewrite <- (IH l) by lia. unfold bytes_at. cbn [seq]. rewrite fmap_cons. f_equal.
  rewrite <- fmap_S_seq, <- list_fmap_compose. apply list_fmap_ext. intros i k _. cbn [compose].
  rewrite Nat2Z.inj_succ, !Z.add_0_l, <- Z.add_1_l. cbn [app].
  change (x :: l ++ rest) with ([x] ++ (l ++ rest)). change 1 with (zlen [x]) at 1. by rewrite rd0_app_r by lia.
Qed.

(** ** A small configured stack, used by the examples: 10.0.2.15/24 behind the
    gateway 10.0.2.2, whose MAC address is known. *)
Definition demo_if : NetInterface :=
  mk_netif [101; 116; 104; 48] [0x52; 0x54; 0; 0x12; 0x34; 0x56] 0x0A00020F 0xFFFFFF00 0x0A000202 0x0A000203
    1 true 0 0 0 0 0.
Definition no_route : route_entry_t := mk_route [0; 0; 0; 0] [0; 0; 0; 0] [0; 0; 0; 0] 0 false.
Definition no_arp : arp_cache_entry_t := mk_arp_entry [0; 0; 0; 0] [0; 0; 0; 0; 0; 0] false.
Definition demo_net : net :=
  mk_net [0; 0; 0; 0] [0; 0; 0; 0; 0; 0] [demo_if] 1
    [mk_netdev NETDEV_TYPE_PCNET [0x52; 0x54; 0; 0x12; 0x34; 0x56] true (Some (fun _ => true)) 0 0 0] (Some 0)
    (mk_route [10; 0; 2; 0] [255; 255; 255; 0] [0; 0; 0; 0] 0 true ::
     mk_route [0; 0; 0; 0] [0; 0; 0; 0] [10; 0; 2; 2] 0 true :: replicate 6 no_route) 2
    (mk_arp_entry [10; 0; 2; 2] [0x52; 0x55; 10; 0; 2; 2] true :: replicate 1023 no_arp) 1
    0 [] false.
