(* ===== verification/Route.v ===== *)
(** The routing table (src/net/l3/route.c): eight entries, longest prefix
    match, filled from the interface configuration. *)
From S2P Require Import Prelude NetBase.

Definition MAX_ROUTES : Z := 8.

Definition ip_in_network (ip network netmask : list Z) : bool :=
  forallb (fun i => Z.land (rd0 ip i) (rd0 netmask i) =? Z.land (rd0 network i) (rd0 netmask i)) [0; 1; 2; 3].

Definition ip_is_zero (ip : list Z) : bool :=
  (rd0 ip 0 =? 0) && (rd0 ip 1 =? 0) && (rd0 ip 2 =? 0) && (rd0 ip 3 =? 0).

Definition ip_copy (src : list Z) : list Z := bytes_at src 0 4.

(** [while (byte) { len += byte & 1; byte >>= 1; }]: a byte is used up after
    at most eight turns. *)
Fixpoint byte_ones (fuel : nat) (byte len : Z) : Z :=
  match fuel with
  | O => len
  | S fuel' => if byte =? 0 then len else byte_ones fuel' (Z.shiftr byte 1) (len + Z.land byte 1)
  end.

Definition netmask_length (netmask : list Z) : Z :=
  for_loop 4 0 (fun i len => byte_ones 9 (rd0 netmask i) len) 0.

Definition inactive (r : route_entry_t) : route_entry_t :=
  mk_route r.(r_network) r.(r_netmask) r.(r_gateway) r.(r_interface) false.

Definition route_init (n : net) : net := with_routes n (inactive <$> n.(routes)) 0.

(** Index of the first inactive entry. *)
Definition route_free_slot (n : net) : Z :=
  default (-1) (find_loop (Z.to_nat MAX_ROUTES) 0 (fun i =>
    match rd n.(routes) i with
    | Some r => if negb r.(r_active) then Some i else None
    | None => None
    end)).

Definition route_add (network netmask gateway : list Z) (iface : Z) (n : net) : bool * net :=
  if MAX_ROUTES <=? n.(route_count) then (false, n)
  else
    let idx := route_free_slot n in
    if idx <? 0 then (false, n)
    else
      let r := mk_route (ip_copy network) (ip_copy netmask) (ip_copy gateway) iface true in
      (true, with_routes n (wr n.(routes) idx r) (n.(route_count) + 1)).

Definition route_update_from_netif (netif : option NetInterface) (n : net) : net :=
  match netif with
  | None => n
  | Some f =>
      if f.(ni_ip_addr) =? 0 then n
      else
        match netdev_get_default n with
        | None => n
        | Some iface =>
            let network := ip_u32_to_bytes (Z.land f.(ni_ip_addr) f.(ni_netmask)) in
            let netmask := ip_u32_to_bytes f.(ni_netmask) in
            let gateway := ip_u32_to_bytes f.(ni_gateway) in
            let n := snd (route_add network netmask [0; 0; 0; 0] iface n) in
            if negb (f.(ni_gateway) =? 0)
            then snd (route_add [0; 0; 0; 0] [0; 0; 0; 0] gateway iface n)
            else n
        end
  end.

(** The loop body of [route_lookup]: best entry so far and its prefix length. *)
Definition lookup_step (n : net) (dest_ip : list Z) (i : Z) (best : option Z * Z) : option Z * Z :=
  match rd n.(routes) i with
  | Some r =>
      if negb r.(r_active) then best
      else if ip_in_network dest_ip r.(r_network) r.(r_netmask) then
        let prefix_len := netmask_length r.(r_netmask) in
        if best.2 <? prefix_len then (Some i, prefix_len) else best
      else best
  | None => best
  end.

(** The result is the index of the entry. *)
Definition route_lookup (n : net) (dest_ip : list Z) : option Z :=
  fst (for_loop (Z.to_nat MAX_ROUTES) 0 (lookup_step n dest_ip) (None, -1)).

Definition route_of (n : net) (dest_ip : list Z) : option route_entry_t :=
  match route_lookup n dest_ip with Some i => rd n.(routes) i | None => None end.

Definition route_get_interface (n : net) (dest_ip : list Z) : option Z :=
  match route_of n dest_ip with
  | Some r => Some r.(r_interface)
  | None => netdev_get_default n
  end.

Definition route_get_next_hop (n : net) (dest_ip : list Z) : option (list Z) :=
  match route_of n dest_ip with
  | None => None
  | Some r => Some (if ip_is_zero r.(r_gateway) then ip_copy dest_ip else ip_copy r.(r_gateway))
  end.

(** ** Prefix lengths *)
Lemma byte_ones_ge fuel b len : 0 <= b -> len <= byte_ones fuel b len.
Proof.
  revert b len. induction fuel as [|fuel IH]; intros b len Hb; cbn [byte_ones]; [lia|].
  case_if; [lia|]. etrans; [|apply IH, Z.shiftr_nonneg; lia].
  pose proof (land_1_testbit b 0 ltac:(lia)) as Hl. rewrite Z.shiftr_0_r in Hl. rewrite Hl.
  unfold b2z. destruct (Z.testbit b 0); lia.
Qed.

(** Nine turns are enough for a byte: more fuel gives the same count. *)
Lemma byte_ones_fuel extra b len : is_u8 b -> byte_ones (9 + extra) b len = byte_ones 9 b len.
Proof.
  intros Hb. assert (H8 : forall k f x l, 0 <= x < 2 ^ Z.of_nat k ->
    byte_ones (S k + f) x l = byte_ones (S k) x l); [|exact (H8 8%nat extra b len Hb)].
  induction k as [|k IH]; intros f x l Hx; cbn [byte_ones Nat.add]; case_if; try done.
  - change (2 ^ Z.of_nat 0) with 1 in Hx. lia.
  - apply (IH f). rewrite Z.shiftr_div_pow2 by lia. change (2 ^ 1) with 2.
    rewrite Nat2Z.inj_succ, Z.pow_succ_r in Hx by lia. lia.
Qed.

Lemma netmask_length_nonneg m : Forall is_u8 m -> 0 <= netmask_length m.
Proof.
  intros Hm. unfold netmask_length. apply (for_loop_ind_const (fun l => 0 <= l)); [lia|].
  intros k l _ Hl. etrans; [exact Hl|]. apply byte_ones_ge. pose proof (rd0_u8 m k Hm). widths. lia.
Qed.

(** ** Invariant *)
Definition is_active (n : net) (i : Z) : bool :=
  match rd n.(routes) i with Some r => r.(r_active) | None => false end.

Record route_wf (n : net) : Prop := {
  rw_len : zlen n.(routes) = MAX_ROUTES;
  rw_masks : Forall (fun r => Forall is_u8 r.(r_netmask)) n.(routes);
  rw_count : 0 <= n.(route_count) <= MAX_ROUTES;
  (** the active entries are the first [route_count] ones *)
  rw_prefix : forall i, 0 <= i < MAX_ROUTES -> is_active n i = (i <? n.(route_count))
}.

(** Entry [i] matches [dest] with prefix length [len]. *)
Definition route_matches (n : net) (dest : list Z) (i len : Z) : Prop :=
  exists r, rd n.(routes) i = Some r /\ r.(r_active) = true /\
    ip_in_network dest r.(r_network) r.(r_netmask) = true /\ len = netmask_length r.(r_netmask).

Definition best_route (n : net) (dest : list Z) (k : Z) (best : option Z * Z) : Prop :=
  match best.1 with
  | None => best.2 = -1 /\ forall j len, 0 <= j < k -> ~ route_matches n dest j len
  | Some i => 0 <= i < k /\ route_matches n dest i best.2 /\
      forall j len, 0 <= j < k -> route_matches n dest j len -> len < best.2 \/ (len = best.2 /\ i <= j)
  end.

Lemma route_matches_fun n dest i l1 l2 : route_matches n dest i l1 -> route_matches n dest i l2 -> l1 = l2.
Proof. intros (r & E & _ & _ & ->) (r' & E' & _ & _ & ->). congruence. Qed.

Lemma lookup_step_spec n dest k best :
  route_wf n -> 0 <= k -> best_route n dest k best -> best_route n dest (k + 1) (lookup_step n dest k best).
Proof.
  intros W Hk Hb.
  assert (Hsame : (forall len, route_matches n dest k len -> exists i, best.1 = Some i /\ len <= best.2) ->
                  best_route n dest (k + 1) best).
  { intros Hno. unfold best_route in *. destruct best as [[i|] b]; cbn [fst snd] in *.
    - destruct Hb as (Hi & Hm & Hall). split; [lia|]. split; [done|]. intros j len Hj M.
      destruct (decide (j = k)) as [->|]; [|apply Hall; [lia|done]].
      destruct (Hno len M) as (? & _ & ?). lia.
    - destruct Hb as (-> & Hall). split; [done|]. intros j len Hj M.
      destruct (decide (j = k)) as [->|]; [by destruct (Hno len M) as (? & ? & _)|].
      apply (Hall j len); [lia|done]. }
  unfold lookup_step. destruct (rd n.(routes) k) as [r|] eqn:Er.
  2:{ apply Hsame. intros len (r & E & _). congruence. }
  destruct (r_active r) eqn:Ea; cbn [negb]; [|apply Hsame; intros len (r' & E & ? & _); congruence].
  destruct (ip_in_network _ _ _) eqn:En; [|apply Hsame; intros len (r' & E & _ & ? & _); congruence].
  assert (M : route_matches n dest k (netmask_length (r_netmask r))) by (by exists r).
  cbv zeta. destruct (_ <? _) eqn:El; bool_hyps.
  - unfold best_route. cbn [fst snd]. split; [lia|]. split; [done|]. intros j len Hj Mj.
    destruct (decide (j = k)) as [->|]; [right; split; [by eapply route_matches_fun|lia]|].
    unfold best_route in Hb. destruct best as [[i|] b]; cbn [fst snd] in *.
    + destruct Hb as (_ & _ & Hall). destruct (Hall j len); [lia|done|lia|lia].
    + destruct Hb as (_ & Hall). by destruct (Hall j len); [lia|].
  - apply Hsame. intros len Ml. rewrite (route_matches_fun _ _ _ _ _ Ml M).
    unfold best_route in Hb. destruct best as [[i|] b]; cbn [fst snd] in *; [by exists i|].
    destruct Hb as (-> & _). exfalso.
    assert (Hm : Forall is_u8 (r_netmask r)) by (eapply (Forall_rd _ _ _ _ (rw_masks _ W)); eauto).
    pose proof (netmask_length_nonneg _ Hm). lia.
Qed.

Lemma lookup_best n dest :
  route_wf n -> exists b, best_route n dest MAX_ROUTES (route_lookup n dest, b).
Proof.
  intros W. unfold route_lookup.
  pose proof (for_loop_ind (fun k b => 0 <= k -> best_route n dest k b) (Z.to_nat MAX_ROUTES) 0
    (lookup_step n dest) (None, -1)) as H.
  change (0 + Z.of_nat (Z.to_nat MAX_ROUTES)) with MAX_ROUTES in H.
  destruct (for_loop _ _ _ _) as [best b]. exists b. apply H; [| |done].
  - intros _. split; [done|]. intros. lia.
  - intros k t Hk Hb _. apply lookup_step_spec; [done|lia|apply Hb; lia].
Qed.

Lemma best_unique n dest k b1 b2 :
  best_route n dest k b1 -> best_route n dest k b2 -> b1.1 = b2.1.
Proof.
  destruct b1 as [[i|] l], b2 as [[j|] m]; unfold best_route; cbn [fst snd]; try done.
  - intros (Hi & Mi & Ai) (Hj & Mj & Aj). f_equal.
    destruct (Ai j m Hj Mj), (Aj i l Hi Mi); lia.
  - intros (Hi & Mi & _) (_ & A). by destruct (A i l Hi).
  - intros (_ & A) (Hj & Mj & _). by destruct (A j m Hj).
Qed.

(** ** Adding routes *)
Lemma route_free_slot_eq n : route_wf n -> n.(route_count) < MAX_ROUTES -> route_free_slot n = n.(route_count).
Proof.
  intros W Hc. pose proof (rw_count _ W) as H0. unfold route_free_slot.
  rewrite (find_loop_first _ _ _ n.(route_count) n.(route_count)); [done|rewrite Z2Nat.id by done; lia| |].
  - pose proof (rw_prefix _ W n.(route_count) ltac:(lia)) as Ha. unfold is_active in Ha.
    destruct (rd_is_Some n.(routes) n.(route_count)) as [r Er]; [rewrite (rw_len _ W); lia|].
    rewrite Er in *. rewrite Ha. by rewrite Z.ltb_irrefl.
  - intros k Hk. pose proof (rw_prefix _ W k ltac:(lia)) as Ha. unfold is_active in Ha.
    destruct (rd n.(routes) k) as [r|]; [|done]. rewrite Ha. by destruct (k <? _) eqn:?; bool_hyps; [|lia].
Qed.

Lemma route_add_spec network netmask gateway iface n :
  route_wf n -> Forall is_u8 netmask ->
  let r := mk_route (ip_copy network) (ip_copy netmask) (ip_copy gateway) iface true in
  route_add network netmask gateway iface n =
    (if n.(route_count) <? MAX_ROUTES
     then (true, with_routes n (wr n.(routes) n.(route_count) r) (n.(route_count) + 1)) else (false, n)).
Proof.
  intros W Hm r. unfold route_add. pose proof (rw_count _ W).
  destruct (MAX_ROUTES <=? _) eqn:E, (_ <? MAX_ROUTES) eqn:E2; bool_hyps; try lia; [done|].
  rewrite route_free_slot_eq by done. by destruct (_ <? 0) eqn:?; bool_hyps; [lia|].
Qed.

Lemma route_add_wf network netmask gateway iface n :
  route_wf n -> Forall is_u8 netmask -> route_wf (route_add network netmask gateway iface n).2.
Proof.
  intros W Hm. rewrite route_add_spec by done. case_if; [|done]. destruct W as [Hl Hk Hc Hp].
  split; cbn [snd with_routes routes route_count].
  - by rewrite zlen_wr.
  - apply Forall_wr; [done|]. cbn [r_netmask]. by apply bytes_at_u8.
  - lia.
  - intros i Hi. unfold is_active. cbn [with_routes routes]. destruct (decide (i = n.(route_count))) as [->|].
    + rewrite rd_wr_eq by lia. cbn. symmetry. apply Z.ltb_lt. lia.
    + rewrite rd_wr_ne by done. fold (is_active n i). rewrite Hp by done.
      destruct (i <? _) eqn:?, (i <? _ + 1) eqn:?; bool_hyps; lia.
Qed.

(** A route that is not more specific than the current one for [dest] does not
    change the choice: the first of several equally specific entries wins. *)
Lemma route_add_keeps network netmask gateway iface n dest i r :
  route_wf n -> Forall is_u8 netmask ->
  route_lookup n dest = Some i -> rd n.(routes) i = Some r ->
  ip_in_network dest (ip_copy network) (ip_copy netmask) = false \/
    netmask_length (ip_copy netmask) <= netmask_length r.(r_netmask) ->
  let n' := (route_add network netmask gateway iface n).2 in
  route_lookup n' dest = Some i /\ rd n'.(routes) i = Some r.
Proof.
  intros W Hm Hl Hr Hor n'. pose proof (route_add_wf network netmask gateway iface n W Hm) as W'.
  fold n' in W'. destruct (lookup_best n dest W) as [b Hb]. rewrite Hl in Hb.
  destruct Hb as (Hi & Mi & Ai). cbn [fst snd] in *.
  assert (Hn' : n' = n \/ n.(route_count) < MAX_ROUTES /\
    n' = with_routes n (wr n.(routes) n.(route_count)
           (mk_route (ip_copy network) (ip_copy netmask) (ip_copy gateway) iface true)) (n.(route_count) + 1)).
  { unfold n'. rewrite route_add_spec by done. case_if; auto. }
  destruct Hn' as [->|[Hc En]]; [done|].
  destruct Mi as (r0 & Er0 & Ea & Ein & ->). assert (r0 = r) as -> by congruence.
  assert (Hic : i < n.(route_count)).
  { pose proof (rw_prefix _ W i Hi) as Hp. unfold is_active in Hp. rewrite Er0, Ea in Hp.
    symmetry in Hp. by apply Z.ltb_lt in Hp. }
  assert (Er' : rd n'.(routes) i = Some r) by (rewrite En; cbn; rewrite rd_wr_ne by lia; done).
  split; [|done]. destruct (lookup_best n' dest W') as [b' Hb'].
  apply (best_unique _ _ _ _ (Some i, netmask_length r.(r_netmask)) Hb').
  split; [done|]. split; [by exists r|]. cbn [fst snd]. intros j len Hj (rj & Ej & Aj & Ij & ->).
  rewrite En in Ej. cbn [routes with_routes] in Ej. destruct (decide (j = n.(route_count))) as [->|].
  - rewrite rd_wr_eq in Ej by (rewrite (rw_len _ W); lia). injection Ej as <-. cbn [r_network r_netmask r_active fst snd] in *.
    destruct Hor as [H|H]; [congruence|lia].
  - rewrite rd_wr_ne in Ej by done. apply Ai; [done|]. by exists rj.
Qed.

Lemma demo_route_wf : route_wf demo_net.
Proof.
  split; [done|by repeat constructor|done|].
  intros i Hi. unfold MAX_ROUTES in Hi.
  assert (i = 0 \/ i = 1 \/ i = 2 \/ i = 3 \/ i = 4 \/ i = 5 \/ i = 6 \/ i = 7) by lia.
  by repeat match goal with H : _ \/ _ |- _ => destruct H end; subst.
Qed.

Section properties.

(** C9. [route_lookup] is longest prefix match: it fails exactly when no
    active entry covers the destination, and otherwise returns the covering
    entry with the longest mask, the first one on ties. *)
Theorem route_lookup_longest_prefix n dest :
  route_wf n ->
  match route_lookup n dest with
  | None => forall j len, 0 <= j < MAX_ROUTES -> ~ route_matches n dest j len
  | Some i => exists len, 0 <= i < MAX_ROUTES /\ route_matches n dest i len /\
      forall j len', 0 <= j < MAX_ROUTES -> route_matches n dest j len' ->
        len' < len \/ (len' = len /\ i <= j)
  end.
Proof.
  intros W. destruct (lookup_best n dest W) as [b Hb]. unfold best_route in Hb. cbn [fst snd] in Hb.
  destruct (route_lookup n dest) as [i|]; [by exists b|apply Hb].
Qed.

Lemma route_lookup_longest_prefix_witness :
  match route_lookup demo_net [10; 0; 2; 9] with
  | None => forall j len, 0 <= j < MAX_ROUTES -> ~ route_matches demo_net [10; 0; 2; 9] j len
  | Some i => exists len, 0 <= i < MAX_ROUTES /\ route_matches demo_net [10; 0; 2; 9] i len /\
      forall j len', 0 <= j < MAX_ROUTES -> route_matches demo_net [10; 0; 2; 9] j len' ->
        len' < len \/ (len' = len /\ i <= j)
  end.
Proof. apply (route_lookup_longest_prefix demo_net [10; 0; 2; 9]). exact demo_route_wf. Defined.

(** A renewed lease cannot change the gateway: whatever configuration
    [route_update_from_netif] installs, a destination that already has a route
    and is outside the new local network keeps its old next hop, because the
    new default route comes after the old one in the table. *)
Theorem route_update_keeps_old_next_hop f n dest i r :
  route_wf n -> is_u32 f.(ni_netmask) -> is_u32 f.(ni_gateway) -> is_u32 f.(ni_ip_addr) ->
  route_lookup n dest = Some i -> rd n.(routes) i = Some r ->
  ip_in_network dest (ip_u32_to_bytes (Z.land f.(ni_ip_addr) f.(ni_netmask))) (ip_u32_to_bytes f.(ni_netmask)) = false ->
  route_get_next_hop (route_update_from_netif (Some f) n) dest = route_get_next_hop n dest.
Proof.
  intros W Hm Hg Hi Hl Hr Hout. unfold route_update_from_netif.
  destruct (_ =? 0); [done|]. destruct (netdev_get_default n) as [iface|]; [|done].
  destruct (ip_u32_to_bytes_is_ip (ni_netmask f) Hm) as [Lm Um].
  assert (Lw : is_ip (ip_u32_to_bytes (Z.land f.(ni_ip_addr) f.(ni_netmask)))).
  { apply ip_u32_to_bytes_is_ip. split; [apply Z.land_nonneg; left; apply Hi|].
    rewrite <- (Z.mod_small (ni_netmask f) (2 ^ 32)) by done. rewrite <- Z.land_ones, Z.land_assoc, Z.land_ones by lia.
    apply Z.mod_pos_bound. lia. }
  set (n1 := (route_add _ _ [0; 0; 0; 0] iface n).2).
  assert (Hin : ip_in_network dest (ip_copy (ip_u32_to_bytes (Z.land f.(ni_ip_addr) f.(ni_netmask))))
                  (ip_copy (ip_u32_to_bytes f.(ni_netmask))) = false)
    by (unfold ip_copy; rewrite !bytes_at_ip; done).
  destruct (route_add_keeps (ip_u32_to_bytes (Z.land f.(ni_ip_addr) f.(ni_netmask)))
    (ip_u32_to_bytes f.(ni_netmask)) [0; 0; 0; 0] iface n dest i r W Um Hl Hr (or_introl Hin)) as [L1 R1].
  fold n1 in L1, R1.
  assert (W1 : route_wf n1) by (by apply route_add_wf).
  assert (H2 : forall n2, route_lookup n2 dest = Some i -> rd n2.(routes) i = Some r ->
            route_get_next_hop n2 dest = route_get_next_hop n dest).
  { intros n2 L2 R2. unfold route_get_next_hop, route_of. by rewrite L2, R2, Hl, Hr. }
  destruct (negb _); [|by apply H2].
  assert (Hpos : 0 <= netmask_length r.(r_netmask))
    by (apply netmask_length_nonneg; eapply (Forall_rd _ _ _ _ (rw_masks _ W)); eauto).
  destruct (route_add_keeps [0; 0; 0; 0] [0; 0; 0; 0] (ip_u32_to_bytes f.(ni_gateway)) iface n1 dest i r W1
    ltac:(by repeat constructor) L1 R1) as [L2 R2]; [right; exact Hpos|]. by apply H2.
Qed.

Lemma route_update_keeps_old_next_hop_witness :
  let renewed := mk_netif demo_if.(ni_name) demo_if.(ni_mac_addr) 0x0A00020F 0xFFFFFF00 0x0A0002FE
                   0x0A000203 1 true 0 0 0 0 0 in
  route_get_next_hop (route_update_from_netif (Some renewed) demo_net) [8; 8; 8; 8] =
  route_get_next_hop demo_net [8; 8; 8; 8].
Proof.
  apply (route_update_keeps_old_next_hop _ demo_net [8; 8; 8; 8] 1
    (mk_route [0; 0; 0; 0] [0; 0; 0; 0] [10; 0; 2; 2] 0 true)); [exact demo_route_wf|done..].
Defined.
End properties.
