(* ===== verification/Arp.v ===== *)
(** Address resolution (src/net/l2/arp.c): the cache, requests and replies,
    and the handler of received ARP packets. *)
From S2P Require Import Prelude NetBase.

Definition ARP_CACHE_SIZE : Z := 1024.
Definition ARP_PACKET_SIZE : Z := 28.
Definition ARP_HW_ETHERNET : Z := 1.
Definition ARP_PROTO_IPV4 : Z := 0x0800.
Definition ARP_OP_REQUEST : Z := 1.
Definition ARP_OP_REPLY : Z := 2.

Definition arp_ip_equals (a b : list Z) : bool := ip_equals a b.
Definition mac_copy (src : list Z) : list Z := bytes_at src 0 6.
Definition arp_ip_copy (src : list Z) : list Z := bytes_at src 0 4.

(** The two searches of the cache: a valid entry for [ip], a free entry. *)
Definition arp_find (n : net) (ip : list Z) : option Z :=
  find_loop (Z.to_nat ARP_CACHE_SIZE) 0 (fun i =>
    match rd n.(arp_cache) i with
    | Some e => if e.(ac_valid) && arp_ip_equals e.(ac_ip) ip then Some i else None
    | None => None
    end).
Definition arp_free (n : net) : option Z :=
  find_loop (Z.to_nat ARP_CACHE_SIZE) 0 (fun i =>
    match rd n.(arp_cache) i with
    | Some e => if negb e.(ac_valid) then Some i else None
    | None => None
    end).

Definition arp_cache_add (ip mac : list Z) (n : net) : net :=
  match arp_find n ip with
  | Some i =>
      match rd n.(arp_cache) i with
      | Some e => with_arp n (wr n.(arp_cache) i (mk_arp_entry e.(ac_ip) (mac_copy mac) e.(ac_valid)))
                    n.(arp_cache_count)
      | None => n
      end
  | None =>
      match arp_free n with
      | Some i => with_arp n (wr n.(arp_cache) i (mk_arp_entry (arp_ip_copy ip) (mac_copy mac) true))
                    (n.(arp_cache_count) + 1)
      | None => with_arp n (wr n.(arp_cache) 0 (mk_arp_entry (arp_ip_copy ip) (mac_copy mac) true))
                  n.(arp_cache_count)
      end
  end.

Definition arp_cache_lookup (ip : list Z) (n : net) : option (list Z) :=
  match arp_find n ip with
  | Some i => match rd n.(arp_cache) i with Some e => Some (mac_copy e.(ac_mac)) | None => None end
  | None => None
  end.

(** A 60-byte Ethernet frame that carries an ARP packet. *)
Definition arp_frame (dest_mac src_mac : list Z) (p : arp_packet_t) : list Z :=
  eth_bytes (mk_eth dest_mac src_mac (htons ETH_TYPE_ARP)) ++ arp_bytes p ++ replicate 18 0.

Definition arp_send_request (netif : option NetInterface) (target_ip : list Z) (n : net) : net :=
  let mac := my_mac netif n in
  let ip := my_ip netif n in
  let p := mk_arp (htons ARP_HW_ETHERNET) (htons ARP_PROTO_IPV4) 6 4 (htons ARP_OP_REQUEST)
             mac ip [0; 0; 0; 0; 0; 0] (bytes_at target_ip 0 4) in
  transmit netif (arp_frame [0xFF; 0xFF; 0xFF; 0xFF; 0xFF; 0xFF] mac p) n.

Definition arp_send_reply (netif : option NetInterface) (target_mac target_ip : list Z) (n : net) : net :=
  let mac := my_mac netif n in
  let ip := my_ip netif n in
  let p := mk_arp (htons ARP_HW_ETHERNET) (htons ARP_PROTO_IPV4) 6 4 (htons ARP_OP_REPLY)
             mac ip (bytes_at target_mac 0 6) (bytes_at target_ip 0 4) in
  transmit netif (arp_frame (bytes_at target_mac 0 6) mac p) n.

Definition arp_handle_packet (netif : option NetInterface) (packet_data : list Z) (len : Z) (n : net) : net :=
  if len <? ARP_PACKET_SIZE then n
  else
    let arp := arp_cast packet_data in
    let hw_type := ntohs arp.(arp_hardware_type) in
    let proto_type := ntohs arp.(arp_protocol_type) in
    let opcode := ntohs arp.(arp_opcode) in
    if negb (hw_type =? ARP_HW_ETHERNET) || negb (proto_type =? ARP_PROTO_IPV4) then n
    else
      let ip := my_ip_configured netif n in
      if opcode =? ARP_OP_REQUEST then
        let n := arp_cache_add arp.(arp_src_ip) arp.(arp_src_mac) n in
        if arp_ip_equals arp.(arp_dest_ip) ip
        then arp_send_reply netif arp.(arp_src_mac) arp.(arp_src_ip) n else n
      else if opcode =? ARP_OP_REPLY then arp_cache_add arp.(arp_src_ip) arp.(arp_src_mac) n
      else n.

(** ** The cache as a map *)
Record arp_wf (n : net) : Prop := {
  aw_len : zlen n.(arp_cache) = ARP_CACHE_SIZE;
  aw_entries : Forall (fun e => is_ip e.(ac_ip) /\ is_mac e.(ac_mac)) n.(arp_cache);
  (** no address has two valid entries *)
  aw_unique : forall i j e1 e2, rd n.(arp_cache) i = Some e1 -> rd n.(arp_cache) j = Some e2 ->
    e1.(ac_valid) = true -> e2.(ac_valid) = true -> e1.(ac_ip) = e2.(ac_ip) -> i = j
}.

Lemma arp_entry_ok n i e : arp_wf n -> rd n.(arp_cache) i = Some e -> is_ip e.(ac_ip) /\ is_mac e.(ac_mac).
Proof. intros W. exact (Forall_rd (fun e => is_ip e.(ac_ip) /\ is_mac e.(ac_mac)) _ _ _ (aw_entries _ W)). Qed.

Lemma arp_find_Some n ip i :
  arp_wf n -> is_ip ip -> arp_find n ip = Some i <->
  exists e, rd n.(arp_cache) i = Some e /\ e.(ac_valid) = true /\ e.(ac_ip) = ip.
Proof.
  intros W Hip. split.
  - intros (k & _ & Hf & _)%find_loop_Some. destruct (rd n.(arp_cache) k) as [e|] eqn:E; [|done].
    case_if_in Hf; [|done]. injection Hf as <-. exists e. split_and!; [done|done|].
    apply ip_equals_spec; [by eapply arp_entry_ok|done|done].
  - intros (e & E & V & <-). pose proof (rd_Some_range _ _ _ E) as Hr. rewrite (aw_len _ W) in Hr.
    apply (find_loop_first _ _ _ i i); [rewrite Z2Nat.id by done; lia| |].
    + rewrite E, V. unfold arp_ip_equals. by rewrite ip_equals_refl.
    + intros k Hk. destruct (rd n.(arp_cache) k) as [e'|] eqn:E'; [|done].
      case_if; [|done]. apply ip_equals_spec in H0; [|by eapply arp_entry_ok|done].
      assert (k = i) by (by eapply (aw_unique _ W k i)). lia.
Qed.

Lemma arp_find_None n ip :
  arp_wf n -> is_ip ip -> arp_find n ip = None <->
  forall i e, rd n.(arp_cache) i = Some e -> e.(ac_valid) = true -> e.(ac_ip) <> ip.
Proof.
  intros W Hip. split.
  - intros Hn i e E V Eip. assert (arp_find n ip = Some i) by (apply arp_find_Some; eauto). congruence.
  - intros Hall. destruct (arp_find n ip) as [i|] eqn:F; [|done].
    apply arp_find_Some in F as (e & E & V & Eip); [|done..]. by destruct (Hall i e).
Qed.

Lemma lookup_via_entry n ip i e :
  arp_wf n -> is_ip ip -> rd n.(arp_cache) i = Some e -> e.(ac_valid) = true -> e.(ac_ip) = ip ->
  arp_cache_lookup ip n = Some e.(ac_mac).
Proof.
  intros W Hip E V Eip. unfold arp_cache_lookup. rewrite (proj2 (arp_find_Some n ip i W Hip)) by eauto.
  rewrite E. unfold mac_copy. rewrite bytes_at_mac; [done|]. by eapply arp_entry_ok.
Qed.

(** The slot [arp_cache_add] writes. *)
Definition add_slot (n : net) (ip : list Z) : Z :=
  match arp_find n ip with Some i => i | None => default 0 (arp_free n) end.

Lemma add_slot_spec n ip mac :
  arp_wf n -> is_ip ip -> is_mac mac ->
  0 <= add_slot n ip < ARP_CACHE_SIZE /\
  (arp_cache_add ip mac n).(arp_cache) = wr n.(arp_cache) (add_slot n ip) (mk_arp_entry ip mac true) /\
  (forall j e, rd n.(arp_cache) j = Some e -> j <> add_slot n ip -> e.(ac_valid) = true -> e.(ac_ip) <> ip).
Proof.
  intros W Hip Hmac. unfold add_slot, arp_cache_add. destruct (arp_find n ip) as [i|] eqn:F.
  - pose proof F as F0. apply arp_find_Some in F as (e & E & V & Eip); [|done..].
    pose proof (rd_Some_range _ _ _ E) as Hr. rewrite (aw_len _ W) in Hr. rewrite E. split; [done|]. split.
    + cbn [with_arp arp_cache]. unfold mac_copy. by rewrite bytes_at_mac, Eip, V.
    + intros j e' E' Hne V' Eq. destruct Hne. eapply (aw_unique _ W j i); eauto. congruence.
  - pose proof (proj1 (arp_find_None n ip W Hip) F) as Hn.
    assert (Hs : 0 <= default 0 (arp_free n) < ARP_CACHE_SIZE).
    { destruct (arp_free n) as [i|] eqn:G; cbn [from_option id]; [|done].
      apply find_loop_Some in G as (k & Hk & Hf & _). rewrite Z2Nat.id in Hk by done.
      destruct (rd _ k); [|done]. case_if_in Hf; [|done]. injection Hf as <-. lia. }
    split; [done|]. split; [|intros j e E _ V; by apply (Hn j)].
    destruct (arp_free n); cbn [from_option id with_arp arp_cache]; unfold mac_copy, arp_ip_copy;
      by rewrite bytes_at_mac, bytes_at_ip.
Qed.

Lemma arp_cache_add_wf n ip mac : arp_wf n -> is_ip ip -> is_mac mac -> arp_wf (arp_cache_add ip mac n).
Proof.
  intros W Hip Hmac. destruct (add_slot_spec n ip mac W Hip Hmac) as (Hs & E & Hno).
  set (k := add_slot n ip) in *. split; rewrite E.
  - rewrite zlen_wr. apply W.
  - apply Forall_wr; [apply W|done].
  - assert (H : forall j e, rd (wr n.(arp_cache) k (mk_arp_entry ip mac true)) j = Some e ->
        j = k /\ e.(ac_ip) = ip \/ j <> k /\ rd n.(arp_cache) j = Some e).
    { intros j e. destruct (decide (j = k)) as [->|].
      - rewrite rd_wr_eq by (rewrite (aw_len _ W); done). intros [= <-]. by left.
      - rewrite rd_wr_ne by done. by right. }
    intros i j e1 e2 [[-> P1]|[N1 R1]]%H [[-> P2]|[N2 R2]]%H V1 V2 Eq; try done.
    + exfalso. apply (Hno j e2); [done|done|done|congruence].
    + exfalso. apply (Hno i e1); [done|done|done|congruence].
    + by eapply (aw_unique _ W).
Qed.

(** ** Frames *)
Lemma my_mac_is_mac f n : is_mac f.(ni_mac_addr) -> my_mac (Some f) n = f.(ni_mac_addr).
Proof. intros. cbn [my_mac]. by apply bytes_at_mac. Qed.

Lemma arp_frame_parse dest_mac src_mac p :
  is_mac dest_mac -> is_mac src_mac ->
  is_mac p.(arp_src_mac) -> is_mac p.(arp_dest_mac) -> is_ip p.(arp_src_ip) -> is_ip p.(arp_dest_ip) ->
  is_u16 p.(arp_hardware_type) -> is_u16 p.(arp_protocol_type) -> is_u16 p.(arp_opcode) ->
  eth_cast (arp_frame dest_mac src_mac p) = mk_eth dest_mac src_mac (htons ETH_TYPE_ARP) /\
  arp_cast (drop 14 (arp_frame dest_mac src_mac p)) = p /\ length (arp_frame dest_mac src_mac p) = 60%nat.
Proof.
  intros Hd Hs Sm Dm Si Di ? ? ?. unfold arp_frame. split; [by apply eth_cast_bytes|]. split.
  - rewrite drop_app_length' by (by rewrite eth_bytes_length). by apply arp_cast_bytes.
  - rewrite !length_app, eth_bytes_length by done. unfold arp_bytes. rewrite !length_app.
    destruct Sm as [-> _], Dm as [-> _], Si as [-> _], Di as [-> _]. done.
Qed.

Lemma arp_cache_add_lookup n ip mac :
  arp_wf n -> is_ip ip -> is_mac mac -> arp_cache_lookup ip (arp_cache_add ip mac n) = Some mac.
Proof.
  intros W Hip Hmac. destruct (add_slot_spec n ip mac W Hip Hmac) as (Hs & E & _).
  apply (lookup_via_entry _ ip (add_slot n ip) (mk_arp_entry ip mac true)); try done.
  - by apply arp_cache_add_wf.
  - rewrite E. apply rd_wr_eq. by rewrite (aw_len _ W).
Qed.

Lemma arp_lookup_ext n n' ip : n'.(arp_cache) = n.(arp_cache) -> arp_cache_lookup ip n' = arp_cache_lookup ip n.
Proof. intros E. unfold arp_cache_lookup, arp_find. by rewrite E. Qed.

Lemma arp_cache_add_tx n ip mac : (arp_cache_add ip mac n).(tx) = n.(tx).
Proof.
  unfold arp_cache_add. destruct (arp_find n ip) as [i|]; [by destruct (rd _ i)|by destruct (arp_free n)].
Qed.

(** A well-formed ARP packet of an interface. *)
Lemma arp_request_parse f target n :
  is_mac f.(ni_mac_addr) -> is_u32 f.(ni_ip_addr) -> is_ip target -> f.(ni_send) = true ->
  exists frame, (arp_send_request (Some f) target n).(tx) = n.(tx) ++ [frame] /\
    (arp_send_request (Some f) target n).(arp_cache) = n.(arp_cache) /\
    length frame = 60%nat /\
    arp_cast (drop 14 frame) = mk_arp (htons ARP_HW_ETHERNET) (htons ARP_PROTO_IPV4) 6 4 (htons ARP_OP_REQUEST)
      f.(ni_mac_addr) (ip_u32_to_bytes f.(ni_ip_addr)) [0; 0; 0; 0; 0; 0] target.
Proof.
  intros Hm Hi Ht Hs. unfold arp_send_request. rewrite transmit_hook, my_mac_is_mac, bytes_at_ip by done.
  cbn [my_ip]. eexists. split; [apply with_tx_tx|]. split; [done|].
  pose proof (ip_u32_to_bytes_is_ip _ Hi).
  match goal with |- context [arp_frame ?d ?s ?p] => destruct (arp_frame_parse d s p) as (_ & E & L) end;
    try done; try apply htons_range; by (split; [done|repeat constructor]).
Qed.

Lemma arp_reply_parse f target_mac target n :
  is_mac f.(ni_mac_addr) -> is_u32 f.(ni_ip_addr) -> is_mac target_mac -> is_ip target -> f.(ni_send) = true ->
  exists frame, (arp_send_reply (Some f) target_mac target n).(tx) = n.(tx) ++ [frame] /\
    (arp_send_reply (Some f) target_mac target n).(arp_cache) = n.(arp_cache) /\
    length frame = 60%nat /\
    arp_cast (drop 14 frame) = mk_arp (htons ARP_HW_ETHERNET) (htons ARP_PROTO_IPV4) 6 4 (htons ARP_OP_REPLY)
      f.(ni_mac_addr) (ip_u32_to_bytes f.(ni_ip_addr)) target_mac target.
Proof.
  intros Hm Hi Htm Ht Hs. unfold arp_send_reply.
  rewrite transmit_hook, my_mac_is_mac, bytes_at_ip, bytes_at_mac by done.
  cbn [my_ip]. eexists. split; [apply with_tx_tx|]. split; [done|].
  pose proof (ip_u32_to_bytes_is_ip _ Hi).
  match goal with |- context [arp_frame ?d ?s ?p] => destruct (arp_frame_parse d s p) as (_ & E & L) end;
    try done; apply htons_range.
Qed.

(** What the handler does with a request for our address, and with a reply. *)
Lemma arp_handle_request f pkt len n src_mac src_ip dmac :
  arp_cast pkt = mk_arp (htons ARP_HW_ETHERNET) (htons ARP_PROTO_IPV4) 6 4 (htons ARP_OP_REQUEST)
    src_mac src_ip dmac (ip_u32_to_bytes f.(ni_ip_addr)) ->
  ARP_PACKET_SIZE <= len -> f.(ni_ip_addr) <> 0 ->
  arp_handle_packet (Some f) pkt len n =
  arp_send_reply (Some f) src_mac src_ip (arp_cache_add src_ip src_mac n).
Proof.
  intros E Hl Hz. unfold arp_handle_packet. rewrite E. cbn [arp_hardware_type arp_protocol_type arp_opcode
    arp_src_ip arp_src_mac arp_dest_ip my_ip_configured].
  rewrite !ntohs_htons by done. destruct (len <? _) eqn:?; bool_hyps; [lia|].
  destruct (ni_ip_addr f =? 0) eqn:?; bool_hyps; [done|]. cbn [negb].
  unfold arp_ip_equals. by rewrite ip_equals_refl.
Qed.

Lemma arp_handle_reply netif pkt len n src_mac src_ip dmac dip :
  arp_cast pkt = mk_arp (htons ARP_HW_ETHERNET) (htons ARP_PROTO_IPV4) 6 4 (htons ARP_OP_REPLY)
    src_mac src_ip dmac dip ->
  ARP_PACKET_SIZE <= len ->
  arp_handle_packet netif pkt len n = arp_cache_add src_ip src_mac n.
Proof.
  intros E Hl. unfold arp_handle_packet. rewrite E. cbn [arp_hardware_type arp_protocol_type arp_opcode
    arp_src_ip arp_src_mac arp_dest_ip]. rewrite !ntohs_htons by done.
  by destruct (len <? _) eqn:?; bool_hyps; [lia|].
Qed.

Lemma demo_arp_wf : arp_wf demo_net.
Proof.
  split; [done| |].
  - constructor; [split; (split; [done|by repeat constructor])|].
    apply Forall_replicate. split; (split; [done|by repeat constructor]).
  - assert (H : forall i e, rd demo_net.(arp_cache) i = Some e -> e.(ac_valid) = true -> i = 0).
    { intros i e. unfold rd. cbn [arp_cache demo_net]. case_if; [|done].
      destruct (Z.to_nat i) as [|k] eqn:Ek; [lia|]. cbn [lookup list_lookup].
      change (list_lookup k (replicate 1023 no_arp)) with (replicate 1023 no_arp !! k).
      by intros [-> _]%lookup_replicate. }
    intros i j e1 e2 R1 R2 V1 V2 _. by rewrite (H i e1 R1 V1), (H j e2 R2 V2).
Qed.

Section properties.

(** The cache behaves as a map from addresses to MAC addresses: after
    [arp_cache_add ip mac] a lookup of [ip] gives [mac] and every other address
    keeps its answer, except that in a full cache a new address takes the
    place of the one in entry 0.  No address ever has two entries. *)
Theorem arp_cache_is_map n ip mac :
  arp_wf n -> is_ip ip -> is_mac mac ->
  let n' := arp_cache_add ip mac n in
  arp_wf n' /\ arp_cache_lookup ip n' = Some mac /\
  forall ip', is_ip ip' -> ip' <> ip ->
    arp_cache_lookup ip' n' = arp_cache_lookup ip' n \/
    (arp_find n ip = None /\ arp_free n = None /\ arp_find n ip' = Some 0).
Proof.
  intros W Hip Hmac n'. pose proof (arp_cache_add_wf n ip mac W Hip Hmac) as W'. fold n' in W'.
  split; [done|]. split; [by apply arp_cache_add_lookup|]. intros ip' Hip' Hne.
  destruct (add_slot_spec n ip mac W Hip Hmac) as (Hs & E & _). fold n' in E.
  destruct (arp_find n ip') as [i|] eqn:F.
  - pose proof F as F0. apply arp_find_Some in F0 as (e & Ee & V & Ei); [|done..].
    destruct (decide (i = add_slot n ip)) as [->|Hi].
    + right. unfold add_slot in *. destruct (arp_find n ip) as [j|] eqn:G.
      * apply arp_find_Some in G as (e' & E' & _ & ?); [|done..]. congruence.
      * destruct (arp_free n) as [j|] eqn:G2; [|done]. cbn [from_option id] in Ee.
        apply find_loop_Some in G2 as (k & _ & Hf & _). destruct (rd n.(arp_cache) k) as [e'|] eqn:E'; [|done].
        case_if_in Hf; [|done]. injection Hf as <-. congruence.
    + left. rewrite (lookup_via_entry n ip' i e), (lookup_via_entry n' ip' i e); try done.
      rewrite E, rd_wr_ne; done.
  - left. unfold arp_cache_lookup at 2. rewrite F. unfold arp_cache_lookup.
    rewrite (proj2 (arp_find_None n' ip' W' Hip')); [done|]. intros i e Re V. rewrite E in Re.
    destruct (decide (i = add_slot n ip)) as [->|Hi].
    + rewrite rd_wr_eq in Re by (by rewrite (aw_len _ W)). by injection Re as <-.
    + rewrite rd_wr_ne in Re by done. by apply (proj1 (arp_find_None n ip' W Hip') F i).
Qed.

Lemma arp_cache_is_map_witness :
  let n' := arp_cache_add [10; 0; 2; 9] [2; 0; 0; 0; 0; 9] demo_net in
  arp_wf n' /\ arp_cache_lookup [10; 0; 2; 9] n' = Some [2; 0; 0; 0; 0; 9] /\
  forall ip', is_ip ip' -> ip' <> [10; 0; 2; 9] ->
    arp_cache_lookup ip' n' = arp_cache_lookup ip' demo_net \/
    (arp_find demo_net [10; 0; 2; 9] = None /\ arp_free demo_net = None /\ arp_find demo_net ip' = Some 0).
Proof.
  apply (arp_cache_is_map demo_net [10; 0; 2; 9] [2; 0; 0; 0; 0; 9]);
    [exact demo_arp_wf|split; [done|by repeat constructor]..].
Defined.

(** Resolution end to end: when host [fa] asks for the address of host
    [fb], the frame it sends makes [fb] learn [fa] and answer, and the answer
    makes [fa] resolve that address to the MAC address of [fb]. *)
Theorem arp_resolution fa fb a b :
  arp_wf a -> arp_wf b ->
  is_mac fa.(ni_mac_addr) -> is_u32 fa.(ni_ip_addr) -> fa.(ni_send) = true ->
  is_mac fb.(ni_mac_addr) -> is_u32 fb.(ni_ip_addr) -> fb.(ni_send) = true -> fb.(ni_ip_addr) <> 0 ->
  let ipa := ip_u32_to_bytes fa.(ni_ip_addr) in
  let ipb := ip_u32_to_bytes fb.(ni_ip_addr) in
  let a1 := arp_send_request (Some fa) ipb a in
  exists request, a1.(tx) = a.(tx) ++ [request] /\
    let b1 := arp_handle_packet (Some fb) (drop 14 request) (zlen request - 14) b in
    arp_cache_lookup ipa b1 = Some fa.(ni_mac_addr) /\
    exists reply, b1.(tx) = b.(tx) ++ [reply] /\
      let a2 := arp_handle_packet (Some fa) (drop 14 reply) (zlen reply - 14) a1 in
      arp_cache_lookup ipb a2 = Some fb.(ni_mac_addr).
Proof.
  intros Wa Wb Ma Ia Sa Mb Ib Sb Zb ipa ipb a1.
  pose proof (ip_u32_to_bytes_is_ip _ Ia) as Ha. pose proof (ip_u32_to_bytes_is_ip _ Ib) as Hb.
  destruct (arp_request_parse fa ipb a Ma Ia Hb Sa) as (req & Ereq & Ca & Lreq & Preq). fold a1 in Ereq, Ca.
  exists req. split; [done|]. cbv zeta.
  rewrite (arp_handle_request _ _ _ _ _ _ _ Preq) by (done || (unfold zlen; rewrite Lreq; done)).
  destruct (arp_reply_parse fb fa.(ni_mac_addr) ipa (arp_cache_add ipa fa.(ni_mac_addr) b) Mb Ib Ma Ha Sb)
    as (rep & Erep & Cb & Lrep & Prep).
  split.
  { rewrite <- (arp_cache_add_lookup b ipa (ni_mac_addr fa) Wb Ha Ma). exact (arp_lookup_ext _ _ _ Cb). }
  exists rep. split; [rewrite <- (arp_cache_add_tx b ipa fa.(ni_mac_addr)); exact Erep|].
  rewrite (arp_handle_reply _ _ _ _ _ _ _ _ Prep) by (unfold zlen; rewrite Lrep; done).
  apply arp_cache_add_lookup; [|done|done]. destruct Wa as [Hl He Hu]. split; by rewrite Ca.
Qed.

Lemma arp_resolution_witness :
  let fb := mk_netif [] [2; 0; 0; 0; 0; 9] 0x0A000209 0xFFFFFF00 0 0 1 true 0 0 0 0 0 in
  let ipa := ip_u32_to_bytes demo_if.(ni_ip_addr) in
  let ipb := ip_u32_to_bytes fb.(ni_ip_addr) in
  let a1 := arp_send_request (Some demo_if) ipb demo_net in
  exists request, a1.(tx) = demo_net.(tx) ++ [request] /\
    let b1 := arp_handle_packet (Some fb) (drop 14 request) (zlen request - 14) demo_net in
    arp_cache_lookup ipa b1 = Some demo_if.(ni_mac_addr) /\
    exists reply, b1.(tx) = demo_net.(tx) ++ [reply] /\
      let a2 := arp_handle_packet (Some demo_if) (drop 14 reply) (zlen reply - 14) a1 in
      arp_cache_lookup ipb a2 = Some fb.(ni_mac_addr).
Proof.
  apply (arp_resolution demo_if (mk_netif [] [2; 0; 0; 0; 0; 9] 0x0A000209 0xFFFFFF00 0 0 1 true 0 0 0 0 0)
    demo_net demo_net); try exact demo_arp_wf; try done; split; try done; by repeat constructor.
Defined.
End properties.
