(* ===== verification/Ipv4.v ===== *)
(** IPv4 and Ethernet (src/net/l3/ipv4.c, src/net/l2/ethernet.c): the Internet
    checksum, building and sending packets, and the dispatch of received ones.

    The handlers of the transport layer are the interface [Transport]; its
    state is [U].  Received data are the bytes from the given pointer to the
    end of the driver's buffer, with the length the caller claims. *)
From S2P Require Import Prelude NetBase Arp.

Definition IP_PROTO_ICMP : Z := 1.
Definition IP_PROTO_TCP : Z := 6.
Definition IP_PROTO_UDP : Z := 17.
Definition IP_DEFAULT_TTL : Z := 64.

Definition ip_addr_equals (a b : list Z) : bool := ip_equals a b.

(** ** Checksum *)
(** [while (len > 1) { sum += *ptr++; len -= 2; }] and the odd last byte. *)
Fixpoint sum_words (data : list Z) (sum : Z) : Z :=
  match data with
  | [] => sum
  | [b] => u32 (sum + b)
  | lo :: hi :: rest => sum_words rest (u32 (sum + (lo + 256 * hi)))
  end.

(** [while (sum >> 16)]: a 32-bit sum is folded after at most three tests. *)
Fixpoint fold_carry (fuel : nat) (sum : Z) : Z :=
  match fuel with
  | O => sum
  | S fuel' =>
      if negb (Z.shiftr sum 16 =? 0)
      then fold_carry fuel' (u32 (Z.land sum 0xFFFF + Z.shiftr sum 16)) else sum
  end.

Definition ip_checksum (data : list Z) : Z := u16 (Z.lnot (fold_carry 4 (sum_words data 0))).

(** ** Sending *)
Definition SEND_BUFFER : Z := 1518.

Definition ipv4_header (netif : option NetInterface) (dest_ip : list Z) (protocol payload_len id : Z) (n : net)
    : ipv4_header_t :=
  let h0 := mk_ipv4 (Z.lor (Z.shiftl 4 4) 5) 0 (htons (u16 (IPV4_HEADER_SIZE + payload_len))) (htons id)
              (htons 0x4000) IP_DEFAULT_TTL protocol 0 (my_ip netif n) (bytes_at dest_ip 0 4) in
  mk_ipv4 h0.(ip_version_ihl) h0.(ip_tos) h0.(ip_total_length) h0.(ip_identification) h0.(ip_flags_fragment)
    h0.(ip_ttl) h0.(ip_protocol) (ip_checksum (ipv4_bytes h0)) h0.(ip_src_ip) h0.(ip_dest_ip).

Definition ipv4_send_packet (netif : option NetInterface) (dest_mac dest_ip : list Z) (protocol : Z)
    (payload : list Z) (n : net) : net :=
  let payload_len := zlen payload in
  let total_len := ETHERNET_HEADER_SIZE + IPV4_HEADER_SIZE + payload_len in
  let n := with_overrun n (SEND_BUFFER <? total_len) in
  let id := n.(ip_id_counter) in
  let eth := mk_eth (bytes_at dest_mac 0 6) (my_mac netif n) (htons ETH_TYPE_IPV4) in
  let ip := ipv4_header netif dest_ip protocol payload_len id n in
  let packet := eth_bytes eth ++ ipv4_bytes ip ++ payload in
  let frame := if total_len <? 60 then packet ++ replicate (Z.to_nat (60 - total_len)) 0 else packet in
  let n := with_ip_id n (u16 (id + 1)) in
  transmit netif frame n.

(** ** Receiving *)
Class Transport (U : Type) := {
  icmp_handle_packet : option NetInterface -> ethernet_header_t -> ipv4_header_t -> list Z -> Z -> net * U -> net * U;
  tcp_handle_packet : ipv4_header_t -> list Z -> Z -> net * U -> net * U;
  udp_handle_packet : ipv4_header_t -> list Z -> Z -> net * U -> net * U
}.

Section receive.
Context {U : Type} `{Transport U}.

Definition ipv4_handle_packet (netif : option NetInterface) (eth : ethernet_header_t) (data : list Z) (len : Z)
    (s : net * U) : net * U :=
  if len <? IPV4_HEADER_SIZE then s
  else
    let ip := ipv4_cast data in
    let version := Z.land (Z.shiftr ip.(ip_version_ihl) 4) 0x0F in
    let ihl := Z.land ip.(ip_version_ihl) 0x0F in
    let header_len := ihl * 4 in
    if negb (version =? 4) then s
    else if (header_len <? IPV4_HEADER_SIZE) || (len <? header_len) then s
    else
      let ip_me := my_ip_configured netif s.1 in
      let is_broadcast := (rd0 ip.(ip_dest_ip) 0 =? 255) && (rd0 ip.(ip_dest_ip) 1 =? 255)
                          && (rd0 ip.(ip_dest_ip) 2 =? 255) && (rd0 ip.(ip_dest_ip) 3 =? 255) in
      let we_have_no_ip := (rd0 ip_me 0 =? 0) && (rd0 ip_me 1 =? 0) && (rd0 ip_me 2 =? 0) && (rd0 ip_me 3 =? 0) in
      let is_for_us := ip_addr_equals ip.(ip_dest_ip) ip_me in
      let is_dhcp_response := (ip.(ip_protocol) =? IP_PROTO_UDP) && we_have_no_ip in
      if negb is_for_us && negb is_broadcast && negb we_have_no_ip && negb is_dhcp_response then s
      else
        let payload := drop (Z.to_nat header_len) data in
        let payload_len := ntohs ip.(ip_total_length) - header_len in
        if ip.(ip_protocol) =? IP_PROTO_ICMP then icmp_handle_packet netif eth ip payload payload_len s
        else if ip.(ip_protocol) =? IP_PROTO_TCP then tcp_handle_packet ip payload payload_len s
        else if ip.(ip_protocol) =? IP_PROTO_UDP then udp_handle_packet ip payload payload_len s
        else s.

Definition ethernet_handle_packet_netif (netif : option NetInterface) (data : list Z) (len : Z) (s : net * U)
    : net * U :=
  if len <? ETHERNET_HEADER_SIZE then s
  else
    let eth := eth_cast data in
    let ethertype := ntohs eth.(eth_ethertype) in
    let payload := drop 14 data in
    let payload_len := len - ETHERNET_HEADER_SIZE in
    if ethertype =? ETH_TYPE_ARP then (arp_handle_packet netif payload payload_len s.1, s.2)
    else if ethertype =? ETH_TYPE_IPV4 then ipv4_handle_packet netif eth payload payload_len s
    else s.

Definition ethernet_handle_packet (data : list Z) (len : Z) (s : net * U) : net * U :=
  ethernet_handle_packet_netif (netif_get_default s.1) data len s.
End receive.

(** ** The checksum is the one's complement sum *)
Lemma list_pair_ind {A} (P : list A -> Prop) :
  P [] -> (forall a, P [a]) -> (forall a b l, P l -> P (a :: b :: l)) -> forall l, P l.
Proof.
  intros H0 H1 H2 l. enough (P l /\ forall a, P (a :: l)) by tauto.
  induction l as [|b l [IH1 IH2]]; [by split|]. split; [apply IH2|]. intros a. by apply H2.
Qed.

(** The sum of the 16-bit words, without wrap-around. *)
Fixpoint wsum (data : list Z) : Z :=
  match data with
  | [] => 0
  | [b] => b
  | lo :: hi :: rest => lo + 256 * hi + wsum rest
  end.

Lemma wsum_bounds data : Forall is_u8 data -> 0 <= wsum data <= 65535 * zlen data.
Proof.
  induction data as [|a|a b l IH] using list_pair_ind; intros Hu; unfold zlen in *; cbn [wsum length]; [lia| |].
  - apply list.Forall_cons in Hu as [Ha _]. widths. lia.
  - apply list.Forall_cons in Hu as [Ha Hu]. apply list.Forall_cons in Hu as [Hb Hu].
    specialize (IH Hu). widths. lia.
Qed.

Lemma sum_words_wsum data sum :
  Forall is_u8 data -> 0 <= sum -> sum + wsum data < 2 ^ 32 -> sum_words data sum = sum + wsum data.
Proof.
  revert sum. induction data as [|a|a b l IH] using list_pair_ind; intros sum Hu Hs Hlt;
    cbn [wsum sum_words] in *; [lia| |].
  - apply list.Forall_cons in Hu as [Ha _]. apply u32_small. widths. lia.
  - apply list.Forall_cons in Hu as [Ha Hu]. apply list.Forall_cons in Hu as [Hb Hu].
    pose proof (wsum_bounds l Hu). rewrite u32_small by (widths; lia). rewrite IH; [lia|done|widths; lia|lia].
Qed.

Lemma wsum_app pre post : Nat.even (length pre) = true -> wsum (pre ++ post) = wsum pre + wsum post.
Proof.
  induction pre as [|a|a b l IH] using list_pair_ind; cbn [length app wsum]; [lia|done|].
  intros He. rewrite IH by done. lia.
Qed.

Lemma fold_carry_step fuel s :
  0 <= s < 2 ^ 32 ->
  fold_carry (S fuel) s = if s <? 65536 then s else fold_carry fuel (s mod 65536 + s / 65536).
Proof.
  intros Hs. cbn [fold_carry]. rewrite Z.shiftr_div_pow2 by lia. change (2 ^ 16) with 65536.
  change 0xFFFF with (Z.ones 16). rewrite Z.land_ones by lia. change (2 ^ 16) with 65536.
  destruct (s / 65536 =? 0) eqn:E, (s <? 65536) eqn:E2; bool_hyps; cbn [negb]; try lia; try done.
  by rewrite u32_small by (widths; lia).
Qed.

Lemma fold_carry_spec s :
  0 <= s < 2 ^ 32 ->
  let r := fold_carry 4 s in 0 <= r < 65536 /\ r mod 65535 = s mod 65535 /\ (r = 0 <-> s = 0).
Proof.
  intros Hs r. subst r. pow2. rewrite fold_carry_step by (pow2; lia). case_if; [lia|].
  rewrite fold_carry_step by (pow2; lia). case_if; [lia|].
  rewrite fold_carry_step by (pow2; lia). case_if; [lia|]. lia.
Qed.

Lemma checksum_eq data :
  Forall is_u8 data -> zlen data <= 65536 ->
  exists r, ip_checksum data = 65535 - r /\ 0 <= r < 65536 /\ r mod 65535 = wsum data mod 65535 /\
    (r = 0 <-> wsum data = 0).
Proof.
  intros Hu Hl. pose proof (wsum_bounds data Hu) as Hb.
  assert (Hlt : wsum data < 2 ^ 32) by (pow2; lia).
  destruct (fold_carry_spec (wsum data)) as (R1 & R2 & R3); [lia|].
  exists (fold_carry 4 (wsum data)). split; [|done]. unfold ip_checksum.
  rewrite sum_words_wsum by (done || lia). rewrite Z.add_0_l.
  generalize dependent (fold_carry 4 (wsum data)). intros r R1 _ _. unfold Z.lnot. widths. lia.
Qed.

(** Writing the checksum of the data with a zero field into that field makes
    the checksum of the whole zero, which is what a receiver verifies. *)
Lemma checksum_verifies pre post :
  Forall is_u8 pre -> Forall is_u8 post -> Nat.even (length pre) = true ->
  zlen pre + 2 + zlen post <= 65536 ->
  ip_checksum (pre ++ le16 (ip_checksum (pre ++ [0; 0] ++ post)) ++ post) = 0.
Proof.
  intros Hp Hq He Hl.
  assert (U0 : Forall is_u8 (pre ++ [0; 0] ++ post))
    by (apply Forall_app; split; [done|]; apply Forall_app; split; [by repeat constructor|done]).
  destruct (checksum_eq (pre ++ [0; 0] ++ post) U0) as (r & Ec & Hr & Hm & Hz);
    [rewrite !zlen_app; change (zlen [0; 0]) with 2; lia|].
  rewrite wsum_app in Hm, Hz by done. cbn [app wsum] in Hm, Hz.
  set (c := ip_checksum _) in *. clearbody c.
  assert (Hc : is_u16 c) by (widths; lia).
  assert (U1 : Forall is_u8 (pre ++ le16 c ++ post)).
  { apply Forall_app; split; [done|]. apply Forall_app; split; [|done]. unfold le16.
    repeat constructor; widths; lia. }
  destruct (checksum_eq (pre ++ le16 c ++ post) U1) as (r' & Ec' & Hr' & Hm' & Hz');
    [rewrite !zlen_app; change (zlen (le16 c)) with 2; lia|].
  rewrite wsum_app in Hm', Hz' by done. cbn [app wsum le16] in Hm', Hz'.
  rewrite rd16_le16 in Hm', Hz' by done.
  pose proof (wsum_bounds pre Hp). pose proof (wsum_bounds post Hq). rewrite Ec'.
  assert (Hw : forall w r r', 0 <= w -> 0 <= r < 65536 -> 0 <= r' < 65536 -> r mod 65535 = w mod 65535 ->
    (r = 0 <-> w = 0) -> r' mod 65535 = (w + (65535 - r)) mod 65535 -> (r' = 0 <-> w + (65535 - r) = 0) -> r' = 65535).
  { intros w x y Hw Hx Hy E1 E2 E3 E4. assert (y mod 65535 = 0) by lia. lia. }
  rewrite (Hw (wsum pre + wsum post) r r'); [done|lia|done|done| | | |].
  - by rewrite Hm.
  - rewrite Hz. lia.
  - rewrite Hm'. f_equal. lia.
  - rewrite Hz'. lia.
Qed.

(** ** The frame [ipv4_send_packet] hands to the driver *)
Lemma checksum_range data : is_u16 (ip_checksum data).
Proof. apply u16_range. Qed.

Lemma ipv4_send_frame f dest_mac dest_ip protocol payload n :
  is_mac f.(ni_mac_addr) -> f.(ni_send) = true -> is_mac dest_mac -> is_ip dest_ip ->
  let n' := ipv4_send_packet (Some f) dest_mac dest_ip protocol payload n in
  let total := 34 + zlen payload in
  let ip := ipv4_header (Some f) dest_ip protocol (zlen payload) n.(ip_id_counter) n in
  n' = with_tx (with_ip_id (with_overrun n (SEND_BUFFER <? total)) (u16 (n.(ip_id_counter) + 1)))
         (eth_bytes (mk_eth dest_mac f.(ni_mac_addr) (htons ETH_TYPE_IPV4)) ++ ipv4_bytes ip ++
          payload ++ replicate (Z.to_nat (60 - total)) 0).
Proof.
  intros Hm Hs Hd Hi n' total ip. subst n'. unfold ipv4_send_packet. cbv zeta.
  rewrite transmit_hook by done. rewrite my_mac_is_mac, (bytes_at_mac dest_mac) by done.
  change (ETHERNET_HEADER_SIZE + IPV4_HEADER_SIZE + zlen payload) with total. f_equal.
  destruct (total <? 60) eqn:E; bool_hyps.
  - by rewrite <- !app_assoc.
  - replace (Z.to_nat (60 - total)) with 0%nat by lia. by rewrite app_nil_r.
Qed.

Lemma ipv4_header_ok f dest_ip protocol plen id n :
  is_u32 f.(ni_ip_addr) -> is_ip dest_ip ->
  let h := ipv4_header (Some f) dest_ip protocol plen id n in
  is_ip h.(ip_src_ip) /\ is_ip h.(ip_dest_ip) /\ is_u16 h.(ip_total_length) /\ is_u16 h.(ip_identification) /\
  is_u16 h.(ip_flags_fragment) /\ is_u16 h.(ip_checksum_field).
Proof.
  intros Hi Hd h. subst h. cbn [ipv4_header my_ip ip_src_ip ip_dest_ip ip_total_length ip_identification
    ip_flags_fragment ip_checksum_field]. rewrite bytes_at_ip by done.
  split_and!; [by apply ip_u32_to_bytes_is_ip|done|apply htons_range..|apply checksum_range].
Qed.

Lemma is_u8_rd16 v : is_u16 v -> Forall is_u8 (le16 v).
Proof. intros. unfold le16. repeat constructor; widths; lia. Qed.

(** A receiver's view of a packet for it: the packet reaches the handler of
    its protocol with exactly the payload. *)
Lemma ipv4_handle_ours {U} `{Transport U} f eth ip data len (s : net * U) :
  is_ip ip.(ip_src_ip) -> is_ip ip.(ip_dest_ip) -> is_u16 ip.(ip_total_length) -> is_u16 ip.(ip_identification) ->
  is_u16 ip.(ip_flags_fragment) -> is_u16 ip.(ip_checksum_field) ->
  ip.(ip_version_ihl) = 69 -> ip.(ip_dest_ip) = ip_u32_to_bytes f.(ni_ip_addr) -> f.(ni_ip_addr) <> 0 ->
  20 <= len ->
  ipv4_handle_packet (Some f) eth (ipv4_bytes ip ++ data) len s =
  (let plen := ntohs ip.(ip_total_length) - 20 in
   if ip.(ip_protocol) =? IP_PROTO_ICMP then icmp_handle_packet (Some f) eth ip data plen s
   else if ip.(ip_protocol) =? IP_PROTO_TCP then tcp_handle_packet ip data plen s
   else if ip.(ip_protocol) =? IP_PROTO_UDP then udp_handle_packet ip data plen s else s).
Proof.
  intros Hs Hd Ht Hid Hfl Hc Hv Ed Hz Hl. unfold ipv4_handle_packet.
  rewrite ipv4_cast_bytes, Hv by done.
  destruct (len <? _) eqn:E; bool_hyps; [unfold IPV4_HEADER_SIZE in E; lia|].
  change (negb (Z.land (Z.shiftr 69 4) 15 =? 4)) with false. change (Z.land 69 15 * 4) with 20.
  change (20 <? IPV4_HEADER_SIZE) with false. destruct (len <? 20) eqn:E2; bool_hyps; [lia|]. cbn [orb].
  cbv iota zeta. cbn [my_ip_configured].
  destruct (ni_ip_addr f =? 0) eqn:E3; bool_hyps; [done|]. cbn [negb].
  unfold ip_addr_equals. rewrite Ed, ip_equals_refl. cbn [negb andb].
  rewrite drop_app_length' by (by rewrite ipv4_bytes_length). done.
Qed.

Lemma ipv4_delivers fa fb dest_mac protocol payload n :
  is_mac fa.(ni_mac_addr) -> is_u32 fa.(ni_ip_addr) -> fa.(ni_send) = true ->
  is_mac dest_mac -> is_u32 fb.(ni_ip_addr) -> fb.(ni_ip_addr) <> 0 -> zlen payload <= 1484 ->
  let n' := ipv4_send_packet (Some fa) dest_mac (ip_u32_to_bytes fb.(ni_ip_addr)) protocol payload n in
  exists frame, n'.(tx) = n.(tx) ++ [frame] /\ n'.(overrun) = n.(overrun) /\ 60 <= zlen frame <= SEND_BUFFER /\
  exists eth ip pad, eth = mk_eth dest_mac fa.(ni_mac_addr) (htons ETH_TYPE_IPV4) /\
    ip.(ip_src_ip) = ip_u32_to_bytes fa.(ni_ip_addr) /\ ip.(ip_protocol) = protocol /\
    forall U (T : Transport U) (s : net * U),
      ethernet_handle_packet_netif (Some fb) frame (zlen frame) s =
      (if protocol =? IP_PROTO_ICMP then icmp_handle_packet (Some fb) eth ip (payload ++ pad) (zlen payload) s
       else if protocol =? IP_PROTO_TCP then tcp_handle_packet ip (payload ++ pad) (zlen payload) s
       else if protocol =? IP_PROTO_UDP then udp_handle_packet ip (payload ++ pad) (zlen payload) s else s).
Proof.
  intros Ma Ia Sa Md Ib Zb Hl. cbv zeta. pose proof (ip_u32_to_bytes_is_ip _ Ib) as Hb.
  rewrite ipv4_send_frame by done. set (ip := ipv4_header _ _ _ _ _ _). set (pad := replicate _ 0).
  set (eth := mk_eth dest_mac (ni_mac_addr fa) (htons ETH_TYPE_IPV4)).
  destruct (ipv4_header_ok fa (ip_u32_to_bytes (ni_ip_addr fb)) protocol (zlen payload) n.(ip_id_counter) n Ia Hb)
    as (H1 & H2 & H3 & H4 & H5 & H6). fold ip in H1, H2, H3, H4, H5, H6.
  pose proof (zlen_nonneg payload) as Hpos.
  assert (Hlen : zlen (eth_bytes eth ++ ipv4_bytes ip ++ payload ++ pad) = Z.max 60 (34 + zlen payload)).
  { rewrite !zlen_app. unfold zlen at 1 2 4. rewrite eth_bytes_length, ipv4_bytes_length by done.
    unfold pad. rewrite length_replicate. lia. }
  eexists. split; [done|]. split; [cbn; destruct (SEND_BUFFER <? _) eqn:E; bool_hyps;
    [unfold SEND_BUFFER in E; lia|by rewrite orb_false_r]|].
  rewrite Hlen. split; [unfold SEND_BUFFER; lia|]. exists eth, ip, pad. split; [done|]. split; [done|]. split; [done|].
  intros U T s. unfold ethernet_handle_packet_netif.
  destruct (_ <? ETHERNET_HEADER_SIZE) eqn:E; bool_hyps; [unfold ETHERNET_HEADER_SIZE in E; lia|].
  rewrite eth_cast_bytes by (done || apply htons_range). 
  assert (Ht : ntohs eth.(eth_ethertype) = ETH_TYPE_IPV4) by (by apply ntohs_htons). rewrite Ht. change (ETH_TYPE_IPV4 =? ETH_TYPE_ARP) with false.
  change (ETH_TYPE_IPV4 =? ETH_TYPE_IPV4) with true. cbv iota.
  rewrite drop_app_length' by (by rewrite eth_bytes_length).
  rewrite ipv4_handle_ours; try done; [|unfold ETHERNET_HEADER_SIZE; lia].
  replace (ntohs ip.(ip_total_length) - 20) with (zlen payload); [done|].
  unfold ip, ipv4_header, IPV4_HEADER_SIZE. cbn [ip_total_length].
  rewrite ntohs_htons by apply u16_range. rewrite u16_small by (widths; lia). lia.
Qed.

Section properties.

(** The Internet checksum is self-verifying: for any data of even prefix,
    storing [ip_checksum] of the data with a zeroed field into that field
    makes the checksum of the result zero; so does every header that
    [ipv4_send_packet] emits. *)
Theorem ipv4_header_checksum_verifies f dest_ip protocol plen id n :
  is_u32 f.(ni_ip_addr) -> is_ip dest_ip -> is_u8 protocol ->
  ip_checksum (ipv4_bytes (ipv4_header (Some f) dest_ip protocol plen id n)) = 0.
Proof.
  intros Hi Hd Hp. unfold ipv4_header. cbn [my_ip ip_version_ihl ip_tos ip_total_length ip_identification
    ip_flags_fragment ip_ttl ip_protocol ip_src_ip ip_dest_ip]. rewrite bytes_at_ip by done.
  destruct (ip_u32_to_bytes_is_ip _ Hi) as [Ls Us]. destruct Hd as [Ld Ud].
  set (src := ip_u32_to_bytes f.(ni_ip_addr)) in *. clearbody src.
  set (pre := [Z.lor (Z.shiftl 4 4) 5; 0] ++ le16 (htons (u16 (IPV4_HEADER_SIZE + plen))) ++ le16 (htons id) ++
    le16 (htons 0x4000) ++ [IP_DEFAULT_TTL; protocol]).
  assert (Up : Forall is_u8 pre).
  { unfold pre. rewrite !Forall_app. split_and!; try apply is_u8_rd16; try apply htons_range;
      repeat (apply Forall_cons_2; [done|]); by apply Forall_nil_2. }
  assert (Uq : Forall is_u8 (src ++ dest_ip)) by (by apply Forall_app).
  pose proof (checksum_verifies pre (src ++ dest_ip) Up Uq eq_refl) as Hc.
  rewrite !zlen_app in Hc. unfold zlen in Hc. rewrite Ls, Ld in Hc. cbn [length pre le16 app] in Hc.
  apply Hc. lia.
Qed.

Lemma ipv4_header_checksum_verifies_witness :
  ip_checksum (ipv4_bytes (ipv4_header (Some demo_if) [10; 0; 2; 2] IP_PROTO_UDP 12 7 demo_net)) = 0.
Proof.
  apply (ipv4_header_checksum_verifies demo_if [10; 0; 2; 2] IP_PROTO_UDP 12 7 demo_net);
    [done|split; [done|by repeat constructor]|done].
Defined.

(** Delivery across two stacks: a payload that fits the send buffer goes
    out in one frame of at least 60 bytes without overrunning the buffer, and
    the stack that owns the destination address hands it, with the sender's
    addresses and its exact length, to the handler of its protocol; padding
    never becomes data. *)
Theorem ipv4_delivery fa fb dest_mac protocol payload n :
  is_mac fa.(ni_mac_addr) -> is_u32 fa.(ni_ip_addr) -> fa.(ni_send) = true ->
  is_mac dest_mac -> is_u32 fb.(ni_ip_addr) -> fb.(ni_ip_addr) <> 0 -> zlen payload <= 1484 ->
  let n' := ipv4_send_packet (Some fa) dest_mac (ip_u32_to_bytes fb.(ni_ip_addr)) protocol payload n in
  exists frame, n'.(tx) = n.(tx) ++ [frame] /\ n'.(overrun) = n.(overrun) /\ 60 <= zlen frame <= SEND_BUFFER /\
  exists eth ip pad, eth = mk_eth dest_mac fa.(ni_mac_addr) (htons ETH_TYPE_IPV4) /\
    ip.(ip_src_ip) = ip_u32_to_bytes fa.(ni_ip_addr) /\ ip.(ip_protocol) = protocol /\
    forall U (T : Transport U) (s : net * U),
      ethernet_handle_packet_netif (Some fb) frame (zlen frame) s =
      (if protocol =? IP_PROTO_ICMP then icmp_handle_packet (Some fb) eth ip (payload ++ pad) (zlen payload) s
       else if protocol =? IP_PROTO_TCP then tcp_handle_packet ip (payload ++ pad) (zlen payload) s
       else if protocol =? IP_PROTO_UDP then udp_handle_packet ip (payload ++ pad) (zlen payload) s else s).
Proof. intros. by apply ipv4_delivers. Qed.

Lemma ipv4_delivery_witness :
  let n' := ipv4_send_packet (Some demo_if) [2; 0; 0; 0; 0; 9] (ip_u32_to_bytes demo_if.(ni_ip_addr)) 6 [1; 2; 3]
              demo_net in
  exists frame, n'.(tx) = demo_net.(tx) ++ [frame] /\ n'.(overrun) = demo_net.(overrun) /\
  60 <= zlen frame <= SEND_BUFFER /\
  exists eth ip pad, eth = mk_eth [2; 0; 0; 0; 0; 9] demo_if.(ni_mac_addr) (htons ETH_TYPE_IPV4) /\
    ip.(ip_src_ip) = ip_u32_to_bytes demo_if.(ni_ip_addr) /\ ip.(ip_protocol) = 6 /\
    forall U (T : Transport U) (s : net * U),
      ethernet_handle_packet_netif (Some demo_if) frame (zlen frame) s =
      (if 6 =? IP_PROTO_ICMP then icmp_handle_packet (Some demo_if) eth ip ([1; 2; 3] ++ pad) (zlen [1; 2; 3]) s
       else if 6 =? IP_PROTO_TCP then tcp_handle_packet ip ([1; 2; 3] ++ pad) (zlen [1; 2; 3]) s
       else if 6 =? IP_PROTO_UDP then udp_handle_packet ip ([1; 2; 3] ++ pad) (zlen [1; 2; 3]) s else s).
Proof.
  apply (ipv4_delivery demo_if demo_if [2; 0; 0; 0; 0; 9] 6 [1; 2; 3] demo_net);
    try done; split; try done; by repeat constructor.
Defined.
End properties.
