(* ===== verification/Udp.v ===== *)
(** UDP (src/net/l4/udp.c): header, dispatch to the DHCP and DNS clients, and
    sending through the routing table and the ARP cache.  The two clients are
    the interface [UdpApps]. *)
From S2P Require Import Prelude NetBase Route Arp Ipv4.

Definition UDP_PORT_DHCP_CLIENT : Z := 68.
Definition UDP_PORT_DNS : Z := 53.
Definition UDP_BUFFER : Z := 1500.

Class UdpApps (A : Type) := {
  dhcp_handle_packet : list Z -> Z -> net * A -> net * A;
  dns_handle_packet : list Z -> Z -> net * A -> net * A
}.

Definition udp_handle {A} `{UdpApps A} (data : list Z) (len : Z) (s : net * A) : net * A :=
  if len <? UDP_HEADER_SIZE then s
  else
    let udp := udp_cast data in
    let src_port := ntohs udp.(udp_src_port) in
    let dest_port := ntohs udp.(udp_dest_port) in
    let udp_len := ntohs udp.(udp_length) in
    if (udp_len <? UDP_HEADER_SIZE) || (len <? udp_len) then s
    else
      let payload := drop 8 data in
      let payload_len := udp_len - UDP_HEADER_SIZE in
      if dest_port =? UDP_PORT_DHCP_CLIENT then dhcp_handle_packet payload payload_len s
      else if dest_port =? UDP_PORT_DNS then dns_handle_packet payload payload_len s
      else if src_port =? UDP_PORT_DNS then dns_handle_packet payload payload_len s
      else s.

Definition udp_packet (src_port dest_port : Z) (data : list Z) : list Z :=
  udp_bytes (mk_udp (htons src_port) (htons dest_port) (htons (u16 (UDP_HEADER_SIZE + zlen data))) 0) ++ data.

Definition udp_send_packet (dest_ip : list Z) (src_port dest_port : Z) (data : list Z) (n : net) : net :=
  if UDP_BUFFER - UDP_HEADER_SIZE <? zlen data then n
  else
    let buffer := udp_packet src_port dest_port data in
    match route_get_next_hop n dest_ip with
    | None => n
    | Some next_hop =>
        let netif := netif_get_default n in
        match arp_cache_lookup next_hop n with
        | None => arp_send_request netif next_hop n
        | Some dest_mac => ipv4_send_packet netif dest_mac dest_ip IP_PROTO_UDP buffer n
        end
    end.

(** ** Lemmas *)
Lemma udp_send_resolved n f dest_ip src_port dest_port data hop mac :
  netif_get_default n = Some f -> zlen data <= 1492 ->
  route_get_next_hop n dest_ip = Some hop -> arp_cache_lookup hop n = Some mac ->
  udp_send_packet dest_ip src_port dest_port data n =
  ipv4_send_packet (Some f) mac dest_ip IP_PROTO_UDP (udp_packet src_port dest_port data) n.
Proof.
  intros Hf Hl Hr Ha. unfold udp_send_packet, UDP_BUFFER, UDP_HEADER_SIZE.
  destruct (_ <? zlen data) eqn:E; bool_hyps; [lia|]. by rewrite Hr, Ha, Hf.
Qed.

Lemma udp_packet_length src_port dest_port data : zlen (udp_packet src_port dest_port data) = 8 + zlen data.
Proof. unfold udp_packet. by rewrite zlen_app. Qed.

Lemma udp_handle_packet_of {A} `{UdpApps A} sp dp data pad (s : net * A) :
  is_u16 sp -> is_u16 dp -> zlen data <= 1492 ->
  udp_handle (udp_packet sp dp data ++ pad) (8 + zlen data) s =
  (if dp =? UDP_PORT_DHCP_CLIENT then dhcp_handle_packet (data ++ pad) (zlen data) s
   else if (dp =? UDP_PORT_DNS) || (sp =? UDP_PORT_DNS) then dns_handle_packet (data ++ pad) (zlen data) s
   else s).
Proof.
  intros Hs Hd Hl. pose proof (zlen_nonneg data) as Hp. unfold udp_handle, udp_packet. rewrite <- app_assoc.
  rewrite udp_cast_bytes by (done || apply htons_range). cbn [udp_src_port udp_dest_port udp_length].
  rewrite !ntohs_htons by (done || apply u16_range). unfold UDP_HEADER_SIZE.
  rewrite u16_small by (widths; lia).
  destruct (8 + zlen data <? 8) eqn:E; bool_hyps; [lia|]. rewrite Z.ltb_irrefl. cbn [orb].
  replace (8 + zlen data - 8) with (zlen data) by lia. rewrite drop_app_length' by done.
  destruct (dp =? UDP_PORT_DHCP_CLIENT); [done|]. by destruct (dp =? UDP_PORT_DNS).
Qed.

Section properties.

(** C8. A datagram that has a route and a resolved next hop leaves in one
    IPv4 packet, and a stack that owns the destination address and speaks UDP
    gives exactly its bytes to the client its ports select. *)
Theorem udp_delivery fa fb n src_port dest_port data hop mac :
  netif_get_default n = Some fa ->
  is_mac fa.(ni_mac_addr) -> is_u32 fa.(ni_ip_addr) -> fa.(ni_send) = true ->
  is_mac mac -> is_u32 fb.(ni_ip_addr) -> fb.(ni_ip_addr) <> 0 ->
  is_u16 src_port -> is_u16 dest_port -> zlen data <= 1476 ->
  let dest_ip := ip_u32_to_bytes fb.(ni_ip_addr) in
  route_get_next_hop n dest_ip = Some hop -> arp_cache_lookup hop n = Some mac ->
  let n' := udp_send_packet dest_ip src_port dest_port data n in
  exists frame, n'.(tx) = n.(tx) ++ [frame] /\ n'.(overrun) = n.(overrun) /\
  exists pad, forall A (C : UdpApps A) (T : Transport A) (s : net * A),
    (forall ip d l t, udp_handle_packet ip d l t = udp_handle d l t) ->
    ethernet_handle_packet_netif (Some fb) frame (zlen frame) s =
    (if dest_port =? UDP_PORT_DHCP_CLIENT then dhcp_handle_packet (data ++ pad) (zlen data) s
     else if (dest_port =? UDP_PORT_DNS) || (src_port =? UDP_PORT_DNS)
     then dns_handle_packet (data ++ pad) (zlen data) s else s).
Proof.
  intros Hf Ma Ia Sa Mm Ib Zb Hs Hd Hl dest_ip Hr Ha. cbv zeta.
  erewrite (udp_send_resolved n fa dest_ip src_port dest_port data) by (done || lia).
  destruct (ipv4_delivers fa fb mac IP_PROTO_UDP (udp_packet src_port dest_port data) n)
    as (frame & Etx & Eov & _ & eth & ip & pad & _ & _ & _ & Hh); try done.
  { rewrite udp_packet_length. lia. }
  exists frame. split; [done|]. split; [done|]. exists pad. intros A C T s HT. rewrite Hh. cbn [Z.eqb IP_PROTO_UDP].
  change (IP_PROTO_UDP =? IP_PROTO_ICMP) with false. change (IP_PROTO_UDP =? IP_PROTO_TCP) with false.
  change (IP_PROTO_UDP =? IP_PROTO_UDP) with true. cbv iota.
  rewrite HT, udp_packet_length. apply udp_handle_packet_of; [done|done|lia].
Qed.

Definition demo_peer : NetInterface :=
  mk_netif [] [2; 0; 0; 0; 0; 8] 0x08080808 0xFFFFFF00 0 0 1 true 0 0 0 0 0.

Lemma udp_delivery_witness :
  let dest_ip := ip_u32_to_bytes demo_peer.(ni_ip_addr) in
  let n' := udp_send_packet dest_ip 4000 53 [1; 2; 3] demo_net in
  exists frame, n'.(tx) = demo_net.(tx) ++ [frame] /\ n'.(overrun) = demo_net.(overrun) /\
  exists pad, forall A (C : UdpApps A) (T : Transport A) (s : net * A),
    (forall ip d l t, udp_handle_packet ip d l t = udp_handle d l t) ->
    ethernet_handle_packet_netif (Some demo_peer) frame (zlen frame) s =
    (if 53 =? UDP_PORT_DHCP_CLIENT then dhcp_handle_packet ([1; 2; 3] ++ pad) (zlen [1; 2; 3]) s
     else if (53 =? UDP_PORT_DNS) || (4000 =? UDP_PORT_DNS)
     then dns_handle_packet ([1; 2; 3] ++ pad) (zlen [1; 2; 3]) s else s).
Proof.
  apply (udp_delivery demo_if demo_peer demo_net 4000 53 [1; 2; 3] [10; 0; 2; 2] [0x52; 0x55; 10; 0; 2; 2]);
    try done; split; try done; by repeat constructor.
Defined.

(** The size check of [udp_send_packet] does not protect the buffer of
    [ipv4_send_packet]: a datagram of 1477 to 1492 bytes passes it and makes
    the IPv4 layer write past the end of its 1518-byte buffer. *)
Theorem udp_send_overruns n fa dest_ip src_port dest_port data hop mac :
  netif_get_default n = Some fa -> fa.(ni_send) = true ->
  route_get_next_hop n dest_ip = Some hop -> arp_cache_lookup hop n = Some mac ->
  1477 <= zlen data <= 1492 ->
  (udp_send_packet dest_ip src_port dest_port data n).(overrun) = true.
Proof.
  intros Hf Hs Hr Ha Hl. rewrite (udp_send_resolved n fa dest_ip _ _ _ hop mac) by (done || lia).
  unfold ipv4_send_packet. rewrite transmit_hook by done. cbn [overrun with_tx with_ip_id with_overrun].
  rewrite udp_packet_length. unfold SEND_BUFFER, ETHERNET_HEADER_SIZE, IPV4_HEADER_SIZE.
  destruct (_ <? _) eqn:E; bool_hyps; [by rewrite orb_true_r|lia].
Qed.

Lemma udp_send_overruns_witness :
  (udp_send_packet [8; 8; 8; 8] 4000 53 (replicate 1480 0) demo_net).(overrun) = true.
Proof.
  apply (udp_send_overruns demo_net demo_if [8; 8; 8; 8] 4000 53 (replicate 1480 0) [10; 0; 2; 2]
    [0x52; 0x55; 10; 0; 2; 2]); done.
Defined.

(** A datagram whose next hop has no cached MAC address is dropped: one
    ARP request leaves instead, and nothing keeps the datagram for later. *)
Theorem udp_send_unresolved_drops n fa dest_ip src_port dest_port data hop :
  netif_get_default n = Some fa ->
  is_mac fa.(ni_mac_addr) -> is_u32 fa.(ni_ip_addr) -> fa.(ni_send) = true -> is_ip hop ->
  route_get_next_hop n dest_ip = Some hop -> arp_cache_lookup hop n = None -> zlen data <= 1492 ->
  exists frame, udp_send_packet dest_ip src_port dest_port data n = with_tx n frame /\
    length frame = 60%nat /\ eth_ethertype (eth_cast frame) = htons ETH_TYPE_ARP /\
    arp_dest_ip (arp_cast (drop 14 frame)) = hop.
Proof.
  intros Hf Ma Ia Sa Hh Hr Ha Hl. unfold udp_send_packet, UDP_BUFFER, UDP_HEADER_SIZE.
  destruct (_ <? zlen data) eqn:E; bool_hyps; [lia|]. rewrite Hr, Ha, Hf.
  unfold arp_send_request. rewrite transmit_hook, my_mac_is_mac, bytes_at_ip by done. cbn [my_ip].
  eexists. split; [done|]. pose proof (ip_u32_to_bytes_is_ip _ Ia).
  match goal with |- context [arp_frame ?d ?s ?p] => destruct (arp_frame_parse d s p) as (-> & -> & ->) end;
    try done; try apply htons_range; by (split; [done|repeat constructor]).
Qed.

Lemma udp_send_unresolved_drops_witness :
  exists frame, udp_send_packet [10; 0; 2; 9] 4000 53 [1; 2; 3] demo_net = with_tx demo_net frame /\
    length frame = 60%nat /\ eth_ethertype (eth_cast frame) = htons ETH_TYPE_ARP /\
    arp_dest_ip (arp_cast (drop 14 frame)) = [10; 0; 2; 9].
Proof.
  apply (udp_send_unresolved_drops demo_net demo_if [10; 0; 2; 9] 4000 53 [1; 2; 3] [10; 0; 2; 9]);
    try done; split; try done; by repeat constructor.
Defined.
End properties.
