(* ===== verification/Dns.v ===== *)
(** The DNS resolver (src/net/l4/dns.c): names in wire format, the record
    cache, queries and the parser of responses.

    A C string is the list of its bytes before the terminating zero, and a
    [char] array the string it holds; [str_copy] truncates to the array.  The
    bytes of a packet are those from its first byte to the end of the buffer
    it lies in, with the length the caller claims.  Writing past the end of a
    local array sets [overrun]. *)
From S2P Require Import Prelude NetBase Route Arp Ipv4 Udp.

Definition DNS_PORT : Z := 53.
Definition DNS_HEADER_SIZE : Z := 12.
Definition DNS_MAX_PACKET_SIZE : Z := 512.
Definition DNS_CACHE_SIZE : Z := 16.
Definition DNS_CACHE_DEFAULT_TTL : Z := 300.
Definition DNS_TYPE_A : Z := 1.
Definition DNS_TYPE_CNAME : Z := 5.
Definition DNS_TYPE_PTR : Z := 12.
Definition DNS_CLASS_IN : Z := 1.
Definition DNS_FLAG_QR : Z := 0x8000.
Definition DNS_FLAG_RD : Z := 0x0100.
Definition DNS_FLAG_RCODE : Z := 0x000F.
Definition DNS_RCODE_OK : Z := 0.

(** [sizeof] of every [char] array of this file. *)
Definition NAME_SIZE : Z := 64.
(** The characters ['.'] and ['0']. *)
Definition DOT : Z := 46.
Definition CHAR_0 : Z := 48.

Inductive dns_query_type_t := DNS_QUERY_A | DNS_QUERY_PTR | DNS_QUERY_CNAME.

Record dns_header_t := mk_dns_header {
  dh_id : Z; dh_flags : Z; dh_qd_count : Z; dh_an_count : Z; dh_ns_count : Z; dh_ar_count : Z
}.
Definition dns_header_bytes (h : dns_header_t) : list Z :=
  le16 h.(dh_id) ++ le16 h.(dh_flags) ++ le16 h.(dh_qd_count) ++ le16 h.(dh_an_count)
  ++ le16 h.(dh_ns_count) ++ le16 h.(dh_ar_count).
Definition dns_header_cast (b : list Z) : dns_header_t :=
  mk_dns_header (rd16 b 0) (rd16 b 2) (rd16 b 4) (rd16 b 6) (rd16 b 8) (rd16 b 10).

Record dns_cache_entry_t := mk_dns_entry {
  ce_hostname : list Z; ce_ip : list Z; ce_ttl : Z; ce_timestamp : Z; ce_record_type : Z; ce_valid : bool
}.

Record dns_pending_query_t := mk_pending {
  pq_id : Z;
  pq_hostname : list Z;
  pq_resolved_ip : list Z;
  pq_resolved_name : list Z;
  pq_cname : list Z;
  pq_type : dns_query_type_t;
  pq_completed : bool;
  pq_success : bool;
  pq_has_cname : bool
}.

(** The globals of the file. *)
Record dns := mk_dns {
  g_dns_server : Z;
  g_dns_server_bytes : list Z;
  g_dns_initialized : bool;
  g_dns_transaction_id : Z;
  g_pending_query : dns_pending_query_t;
  g_dns_cache : list dns_cache_entry_t;
  g_cache_hits : Z;
  g_cache_misses : Z
}.

Definition with_pending (d : dns) (q : dns_pending_query_t) : dns :=
  mk_dns d.(g_dns_server) d.(g_dns_server_bytes) d.(g_dns_initialized) d.(g_dns_transaction_id) q
    d.(g_dns_cache) d.(g_cache_hits) d.(g_cache_misses).
Definition with_cache (d : dns) (c : list dns_cache_entry_t) : dns :=
  mk_dns d.(g_dns_server) d.(g_dns_server_bytes) d.(g_dns_initialized) d.(g_dns_transaction_id) d.(g_pending_query)
    c d.(g_cache_hits) d.(g_cache_misses).
Definition with_stats (d : dns) (hits misses : Z) : dns :=
  mk_dns d.(g_dns_server) d.(g_dns_server_bytes) d.(g_dns_initialized) d.(g_dns_transaction_id) d.(g_pending_query)
    d.(g_dns_cache) hits misses.
Definition with_transaction (d : dns) (id : Z) : dns :=
  mk_dns d.(g_dns_server) d.(g_dns_server_bytes) d.(g_dns_initialized) id d.(g_pending_query)
    d.(g_dns_cache) d.(g_cache_hits) d.(g_cache_misses).

Definition set_outcome (completed success : bool) (q : dns_pending_query_t) : dns_pending_query_t :=
  mk_pending q.(pq_id) q.(pq_hostname) q.(pq_resolved_ip) q.(pq_resolved_name) q.(pq_cname) q.(pq_type)
    completed success q.(pq_has_cname).
Definition set_resolved_ip (ip : list Z) (q : dns_pending_query_t) : dns_pending_query_t :=
  mk_pending q.(pq_id) q.(pq_hostname) ip q.(pq_resolved_name) q.(pq_cname) q.(pq_type)
    q.(pq_completed) q.(pq_success) q.(pq_has_cname).
Definition set_resolved_name (name : list Z) (q : dns_pending_query_t) : dns_pending_query_t :=
  mk_pending q.(pq_id) q.(pq_hostname) q.(pq_resolved_ip) name q.(pq_cname) q.(pq_type)
    q.(pq_completed) q.(pq_success) q.(pq_has_cname).
Definition set_hostname (name : list Z) (q : dns_pending_query_t) : dns_pending_query_t :=
  mk_pending q.(pq_id) name q.(pq_resolved_ip) q.(pq_resolved_name) q.(pq_cname) q.(pq_type)
    q.(pq_completed) q.(pq_success) q.(pq_has_cname).
Definition set_cname (name : list Z) (q : dns_pending_query_t) : dns_pending_query_t :=
  mk_pending q.(pq_id) q.(pq_hostname) q.(pq_resolved_ip) q.(pq_resolved_name) name q.(pq_type)
    q.(pq_completed) q.(pq_success) true.

(** ** Strings and addresses *)
Definition ip_to_bytes (ip : Z) : list Z :=
  [Z.land (Z.shiftr ip 24) 0xFF; Z.land (Z.shiftr ip 16) 0xFF; Z.land (Z.shiftr ip 8) 0xFF; Z.land ip 0xFF].

(** The string a [char] array of [max_len] bytes holds after the copy. *)
Definition str_copy (src : list Z) (max_len : Z) : list Z := take (Z.to_nat (max_len - 1)) src.

Fixpoint str_equal (a b : list Z) : bool :=
  match a, b with
  | x :: a', y :: b' => if negb (x =? y) then false else str_equal a' b'
  | [], [] => true
  | _, _ => false
  end.

Definition ip_equal (a b : list Z) : bool :=
  (rd0 a 0 =? rd0 b 0) && (rd0 a 1 =? rd0 b 1) && (rd0 a 2 =? rd0 b 2) && (rd0 a 3 =? rd0 b 3).

(** The string in a buffer: the bytes before the first zero. *)
Fixpoint cstr (l : list Z) : list Z :=
  match l with
  | [] => []
  | c :: l' => if c =? 0 then [] else c :: cstr l'
  end.

(** ** Cache *)
Definition invalidate (e : dns_cache_entry_t) : dns_cache_entry_t :=
  mk_dns_entry e.(ce_hostname) e.(ce_ip) e.(ce_ttl) e.(ce_timestamp) e.(ce_record_type) false.

Definition dns_cache_flush (d : dns) : dns := with_stats (with_cache d (invalidate <$> d.(g_dns_cache))) 0 0.

Definition dns_cache_find_slot (d : dns) : Z :=
  default 0 (find_loop (Z.to_nat DNS_CACHE_SIZE) 0 (fun i =>
    match rd d.(g_dns_cache) i with
    | Some e => if negb e.(ce_valid) then Some i else None
    | None => None
    end)).

Definition dns_cache_add (hostname ip : list Z) (ttl : Z) (d : dns) : dns :=
  let slot := dns_cache_find_slot d in
  with_cache d (wr d.(g_dns_cache) slot
    (mk_dns_entry (str_copy hostname NAME_SIZE) (bytes_at ip 0 4)
       (if 0 <? ttl then ttl else DNS_CACHE_DEFAULT_TTL) 0 DNS_TYPE_A true)).

Definition dns_cache_add_ptr (ip hostname : list Z) (ttl : Z) (d : dns) : dns :=
  let slot := dns_cache_find_slot d in
  with_cache d (wr d.(g_dns_cache) slot
    (mk_dns_entry (str_copy hostname NAME_SIZE) (bytes_at ip 0 4)
       (if 0 <? ttl then ttl else DNS_CACHE_DEFAULT_TTL) 0 DNS_TYPE_PTR true)).

Definition cache_find (d : dns) (P : dns_cache_entry_t -> bool) : option dns_cache_entry_t :=
  find_loop (Z.to_nat DNS_CACHE_SIZE) 0 (fun i =>
    match rd d.(g_dns_cache) i with
    | Some e => if e.(ce_valid) && P e then Some e else None
    | None => None
    end).

Definition dns_cache_lookup (hostname : list Z) (d : dns) : option (list Z) * dns :=
  match cache_find d (fun e => (e.(ce_record_type) =? DNS_TYPE_A) && str_equal e.(ce_hostname) hostname) with
  | Some e => (Some (bytes_at e.(ce_ip) 0 4), with_stats d (u32 (d.(g_cache_hits) + 1)) d.(g_cache_misses))
  | None => (None, with_stats d d.(g_cache_hits) (u32 (d.(g_cache_misses) + 1)))
  end.

Definition dns_cache_reverse_lookup (ip : list Z) (max_len : Z) (d : dns) : option (list Z) * dns :=
  match cache_find d (fun e => (e.(ce_record_type) =? DNS_TYPE_PTR) && ip_equal e.(ce_ip) ip) with
  | Some e => (Some (str_copy e.(ce_hostname) max_len), with_stats d (u32 (d.(g_cache_hits) + 1)) d.(g_cache_misses))
  | None => (None, with_stats d d.(g_cache_hits) (u32 (d.(g_cache_misses) + 1)))
  end.

Definition dns_init (dns_server : Z) (d : dns) : dns :=
  let q := d.(g_pending_query) in
  dns_cache_flush
    (mk_dns dns_server (ip_to_bytes dns_server) true d.(g_dns_transaction_id)
       (mk_pending 0 [] q.(pq_resolved_ip) q.(pq_resolved_name) q.(pq_cname) q.(pq_type) false false false)
       d.(g_dns_cache) d.(g_cache_hits) d.(g_cache_misses)).

(** ** Names *)
(** [label] holds the characters from [label_start] to [i]. *)
Fixpoint encode_loop (hostname label : list Z) : list Z :=
  match hostname with
  | [] => u8 (zlen label) :: label ++ [0]
  | c :: rest =>
      if c =? DOT then u8 (zlen label) :: label ++ encode_loop rest [] else encode_loop rest (label ++ [c])
  end.
Definition dns_encode_name (hostname : list Z) : list Z := encode_loop hostname [].

(** [for (int i = 0; i < len && pos < out_max - 2; i++) out_name[pos++] = packet[offset++]] *)
Fixpoint copy_label (n : nat) (packet : list Z) (offset out_max : Z) (out : list Z) : list Z * Z :=
  match n with
  | O => (out, offset)
  | S n' => if zlen out <? out_max - 2 then copy_label n' packet (offset + 1) out_max (out ++ [rd0 packet offset])
            else (out, offset)
  end.

Definition is_pointer (len : Z) : bool := Z.land len 0xC0 =? 0xC0.
Definition pointer_target (packet : list Z) (offset : Z) : Z :=
  Z.lor (Z.shiftl (Z.land (rd0 packet offset) 0x3F) 8) (rd0 packet (offset + 1)).

(** [out] is [out_name[0..pos)]; [over] records a write at or past [out_max].
    The result is the decoded string, the number of bytes consumed, and
    whether the output array was overrun. *)
Fixpoint decode_loop (fuel : nat) (packet : list Z) (offset max_len out_max orig jumped : Z) (out : list Z)
    (over : bool) : list Z * Z * bool :=
  let unterminated :=
    (cstr out, (if negb (jumped =? 0) then jumped else offset - orig), over || (out_max <=? zlen out)) in
  match fuel with
  | O => unterminated
  | S fuel' =>
      if offset <? max_len then
        let len := rd0 packet offset in
        if len =? 0 then
          (cstr (take (length out - 1) out), (if negb (jumped =? 0) then jumped else offset + 1 - orig),
           over || (out_max <=? zlen out - 1))
        else if is_pointer len then
          decode_loop fuel' packet (pointer_target packet offset) max_len out_max orig
            (if jumped =? 0 then offset + 2 - orig else jumped) out over
        else
          let '(out', offset') := copy_label (Z.to_nat len) packet (offset + 1) out_max out in
          decode_loop fuel' packet offset' max_len out_max orig jumped (out' ++ [DOT]) (over || (out_max <=? zlen out'))
      else unterminated
  end.

Definition dns_decode_name (packet : list Z) (offset max_len out_max : Z) : list Z * Z * bool :=
  decode_loop 256 packet offset max_len out_max offset 0 [] false.

Fixpoint skip_loop (fuel : nat) (data : list Z) (offset max_len jumped : Z) : Z :=
  match fuel with
  | O => if negb (jumped =? 0) then jumped else offset
  | S fuel' =>
      if offset <? max_len then
        let len := rd0 data offset in
        if len =? 0 then (if negb (jumped =? 0) then jumped else offset + 1)
        else if is_pointer len then
          skip_loop fuel' data (pointer_target data offset) max_len (if jumped =? 0 then offset + 2 else jumped)
        else skip_loop fuel' data (offset + (len + 1)) max_len jumped
      else if negb (jumped =? 0) then jumped else offset
  end.
Definition dns_skip_name (data : list Z) (offset max_len : Z) : Z := skip_loop 256 data offset max_len 0.

(** ** Queries *)
Definition dns_query_packet (id : Z) (name : list Z) (type : Z) : list Z :=
  dns_header_bytes (mk_dns_header (htons id) (htons DNS_FLAG_RD) (htons 1) 0 0 0)
  ++ dns_encode_name name ++ [0; type; 0; DNS_CLASS_IN].

Definition send_dns (buffer : list Z) (n : net) (d : dns) : net :=
  udp_send_packet d.(g_dns_server_bytes) 12345 DNS_PORT buffer
    (with_overrun n (DNS_MAX_PACKET_SIZE <? zlen buffer)).

Definition dns_send_query (hostname : list Z) (s : net * dns) : net * dns :=
  let '(n, d) := s in
  if negb d.(g_dns_initialized) then s
  else
    match dns_cache_lookup hostname d with
    | (Some cached_ip, d) =>
        (n, with_pending d (set_hostname (str_copy hostname NAME_SIZE)
              (set_outcome true true (set_resolved_ip cached_ip d.(g_pending_query)))))
    | (None, d) =>
        let id := u16 (d.(g_dns_transaction_id) + 1) in
        let d := with_transaction d id in
        let q := d.(g_pending_query) in
        let d := with_pending d (mk_pending id (str_copy hostname NAME_SIZE) q.(pq_resolved_ip) q.(pq_resolved_name)
                   [] DNS_QUERY_A false false false) in
        (send_dns (dns_query_packet id hostname DNS_TYPE_A) n d, d)
    end.

(** One byte of the address in decimal, and the dot. *)
Definition octet_chars (octet : Z) : list Z :=
  if 100 <=? octet then
    [CHAR_0 + octet / 100; CHAR_0 + octet mod 100 / 10; CHAR_0 + octet mod 100 mod 10; DOT]
  else if 10 <=? octet then [CHAR_0 + octet / 10; CHAR_0 + octet mod 10; DOT]
  else [CHAR_0 + octet; DOT].

(** "in-addr.arpa" *)
Definition ptr_suffix : list Z := [105; 110; 45; 97; 100; 100; 114; 46; 97; 114; 112; 97].

Definition ptr_name (ip : list Z) : list Z :=
  octet_chars (rd0 ip 3) ++ octet_chars (rd0 ip 2) ++ octet_chars (rd0 ip 1) ++ octet_chars (rd0 ip 0) ++ ptr_suffix.

Definition dns_send_reverse_query (ip : list Z) (s : net * dns) : net * dns :=
  let '(n, d) := s in
  if negb d.(g_dns_initialized) then s
  else
    match dns_cache_reverse_lookup ip NAME_SIZE d with
    | (Some cached_name, d) =>
        (n, with_pending d (set_outcome true true
              (set_resolved_name (str_copy cached_name NAME_SIZE) d.(g_pending_query))))
    | (None, d) =>
        let name := ptr_name ip in
        let id := u16 (d.(g_dns_transaction_id) + 1) in
        let d := with_transaction d id in
        let q := d.(g_pending_query) in
        let d := with_pending d (mk_pending id (str_copy name NAME_SIZE) (bytes_at ip 0 4) q.(pq_resolved_name)
                   q.(pq_cname) DNS_QUERY_PTR false false q.(pq_has_cname)) in
        (send_dns (dns_query_packet id name DNS_TYPE_PTR) n d, d)
    end.

(** ** Responses *)
Definition be16 (b : list Z) (i : Z) : Z := u16 (Z.lor (Z.shiftl (rd0 b i) 8) (rd0 b (i + 1))).
Definition be32 (b : list Z) (i : Z) : Z :=
  u32 (Z.lor (Z.lor (Z.lor (Z.shiftl (rd0 b i) 24) (Z.shiftl (rd0 b (i + 1)) 16)) (Z.shiftl (rd0 b (i + 2)) 8))
         (rd0 b (i + 3))).

Fixpoint skip_questions (n : nat) (data : list Z) (len offset : Z) : Z :=
  match n with
  | O => offset
  | S n' => if offset <? len then skip_questions n' data len (dns_skip_name data offset len + 4) else offset
  end.

Definition take_a (ip : list Z) (ttl : Z) (d : dns) : dns :=
  let d := with_pending d (set_outcome true true (set_resolved_ip ip d.(g_pending_query))) in
  dns_cache_add d.(g_pending_query).(pq_hostname) d.(g_pending_query).(pq_resolved_ip) ttl d.

Definition take_cname (data : list Z) (offset len : Z) (s : net * dns) : net * dns :=
  let '(cname, _, over) := dns_decode_name data offset len NAME_SIZE in
  (with_overrun s.1 over, with_pending s.2 (set_cname (str_copy cname NAME_SIZE) s.2.(g_pending_query))).

Definition take_ptr (data : list Z) (offset len ttl : Z) (s : net * dns) : net * dns :=
  let '(name, _, over) := dns_decode_name data offset len NAME_SIZE in
  let d := with_pending s.2 (set_outcome true true
             (set_resolved_name (str_copy name NAME_SIZE) s.2.(g_pending_query))) in
  (with_overrun s.1 over, dns_cache_add_ptr d.(g_pending_query).(pq_resolved_ip) name ttl d).

(** The answer loop; the boolean says that the function returned from inside
    the loop. *)
Fixpoint answers (n : nat) (data : list Z) (len offset : Z) (s : net * dns) : bool * (net * dns) :=
  match n with
  | O => (false, s)
  | S n' =>
      if offset <? len then
        let offset := dns_skip_name data offset len in
        if len <? offset + 10 then (false, s)
        else
          let type := be16 data offset in
          let class := be16 data (offset + 2) in
          let ttl := be32 data (offset + 4) in
          let rdlength := be16 data (offset + 8) in
          let offset := offset + 10 in
          if len <? offset + rdlength then (false, s)
          else if (type =? DNS_TYPE_A) && (class =? DNS_CLASS_IN) && (rdlength =? 4) then
            (true, (s.1, take_a (bytes_at data offset 4) ttl s.2))
          else
            let s := if (type =? DNS_TYPE_CNAME) && (class =? DNS_CLASS_IN) then take_cname data offset len s else s in
            if (type =? DNS_TYPE_PTR) && (class =? DNS_CLASS_IN) then (true, take_ptr data offset len ttl s)
            else answers n' data len (offset + rdlength) s
      else (false, s)
  end.

Definition dns_handle (data : list Z) (len : Z) (s : net * dns) : net * dns :=
  let '(n, d) := s in
  if len <? DNS_HEADER_SIZE then s
  else
    let header := dns_header_cast data in
    let id := ntohs header.(dh_id) in
    let flags := ntohs header.(dh_flags) in
    let qd_count := ntohs header.(dh_qd_count) in
    let an_count := ntohs header.(dh_an_count) in
    if Z.land flags DNS_FLAG_QR =? 0 then s
    else if negb (id =? d.(g_pending_query).(pq_id)) then s
    else
      let failed d := with_pending d (set_outcome true false d.(g_pending_query)) in
      if negb (u8 (Z.land flags DNS_FLAG_RCODE) =? DNS_RCODE_OK) then (n, failed d)
      else if an_count =? 0 then (n, failed d)
      else
        let offset := skip_questions (Z.to_nat qd_count) data len DNS_HEADER_SIZE in
        match answers (Z.to_nat an_count) data len offset (n, d) with
        | (true, s) => s
        | (false, (n, d)) => if negb d.(g_pending_query).(pq_success) then (n, failed d) else (n, d)
        end.

Definition dns_is_pending (d : dns) : bool :=
  negb d.(g_pending_query).(pq_completed) && negb (d.(g_pending_query).(pq_id) =? 0).
Definition dns_get_result (d : dns) : option (list Z) :=
  if d.(g_pending_query).(pq_completed) && d.(g_pending_query).(pq_success)
  then Some (bytes_at d.(g_pending_query).(pq_resolved_ip) 0 4) else None.
Definition dns_get_reverse_result (max_len : Z) (d : dns) : option (list Z) :=
  if d.(g_pending_query).(pq_completed) && d.(g_pending_query).(pq_success)
     && match d.(g_pending_query).(pq_type) with DNS_QUERY_PTR => true | _ => false end
  then Some (str_copy d.(g_pending_query).(pq_resolved_name) max_len) else None.
Definition dns_get_cname (max_len : Z) (d : dns) : option (list Z) :=
  if d.(g_pending_query).(pq_has_cname) then Some (str_copy d.(g_pending_query).(pq_cname) max_len) else None.

(** ** Names as lists of labels *)
Definition label_ok (l : list Z) : Prop := 1 <= zlen l <= 63 /\ Forall (fun c => 0 < c < 256 /\ c <> DOT) l.
Definition name_ok (ls : list (list Z)) : Prop := ls <> [] /\ Forall label_ok ls.

(** "www.example.org" from its labels. *)
Fixpoint join (ls : list (list Z)) : list Z :=
  match ls with
  | [] => []
  | [l] => l
  | l :: ls' => l ++ DOT :: join ls'
  end.
(** The wire format, and the output of the decoder before it drops the last
    dot. *)
Fixpoint wire (ls : list (list Z)) : list Z :=
  match ls with
  | [] => [0]
  | l :: ls' => zlen l :: l ++ wire ls'
  end.
Fixpoint dotted (ls : list (list Z)) : list Z :=
  match ls with
  | [] => []
  | l :: ls' => l ++ [DOT] ++ dotted ls'
  end.

Lemma dotted_join ls : ls <> [] -> dotted ls = join ls ++ [DOT].
Proof.
  induction ls as [|l [|l' ls] IH]; [done|done|intros _].
  change (join (l :: l' :: ls)) with (l ++ DOT :: join (l' :: ls)).
  change (dotted (l :: l' :: ls)) with (l ++ [DOT] ++ dotted (l' :: ls)).
  rewrite IH by done. by rewrite <- !app_assoc.
Qed.

Lemma encode_label l rest lab :
  Forall (fun c => c <> DOT) l -> encode_loop (l ++ rest) lab = encode_loop rest (lab ++ l).
Proof.
  revert lab. induction l as [|c l IH]; intros lab Hl; [by rewrite app_nil_r|].
  apply list.Forall_cons in Hl as [Hc Hl]. cbn [app encode_loop].
  destruct (c =? DOT) eqn:E; bool_hyps; [done|]. rewrite IH by done. by rewrite <- app_assoc.
Qed.

Lemma label_no_dot l : label_ok l -> Forall (fun c => c <> DOT) l.
Proof. intros [_ H]. eapply list.Forall_impl; [exact H|]. by intros c [_ ?]. Qed.
Lemma label_len_u8 l : label_ok l -> u8 (zlen l) = zlen l.
Proof. intros [H _]. apply u8_small. widths. lia. Qed.

Lemma encode_wire ls : name_ok ls -> dns_encode_name (join ls) = wire ls.
Proof.
  intros [Hn Hf]. unfold dns_encode_name. induction ls as [|l [|l' ls] IH]; [done| |].
  - apply list.Forall_cons in Hf as [Hl _]. cbn [join wire].
    rewrite <- (app_nil_r l) at 1. rewrite encode_label by (by apply label_no_dot).
    cbn [encode_loop app]. by rewrite label_len_u8 by done.
  - apply list.Forall_cons in Hf as [Hl Hf]. change (join (l :: l' :: ls)) with (l ++ DOT :: join (l' :: ls)).
    rewrite encode_label by (by apply label_no_dot). cbn [encode_loop app]. rewrite Z.eqb_refl.
    rewrite label_len_u8 by done. by rewrite IH.
Qed.

(** ** Length bytes and pointers *)
Lemma small_bytes (P : Z -> bool) n :
  forallb (fun k => P (Z.of_nat k)) (seq 0 n) = true -> forall x, 0 <= x < Z.of_nat n -> P x = true.
Proof.
  rewrite forallb_forall. intros H x Hx. specialize (H (Z.to_nat x)). rewrite Z2Nat.id in H by lia.
  apply H, in_seq. lia.
Qed.
Lemma length_not_pointer len : 0 <= len < 64 -> is_pointer len = false.
Proof. intros H. apply negb_true_iff. by apply (small_bytes (fun x => negb (is_pointer x)) 64). Qed.
Lemma pointer_is_pointer h : 0 <= h < 64 -> is_pointer (192 + h) = true.
Proof. by apply (small_bytes (fun h => is_pointer (192 + h)) 64). Qed.
Lemma pointer_low h : 0 <= h < 64 -> Z.land (192 + h) 0x3F = h.
Proof.
  intros H. apply Z.eqb_eq. by apply (small_bytes (fun h => Z.land (192 + h) 0x3F =? h) 64).
Qed.
Lemma pointer_target_eq packet q t :
  0 <= t < 16384 -> rd0 packet q = 192 + t / 256 -> rd0 packet (q + 1) = t mod 256 -> pointer_target packet q = t.
Proof.
  intros Ht E1 E2. unfold pointer_target. rewrite E1, E2, pointer_low by lia. rewrite Z.shiftl_mul_pow2 by lia.
  rewrite lor_add by lia. change (2 ^ 8) with 256. lia.
Qed.

Lemma copy_label_fits l pre post out_max out :
  zlen out + zlen l <= out_max - 2 ->
  copy_label (length l) (pre ++ l ++ post) (zlen pre) out_max out = (out ++ l, zlen pre + zlen l).
Proof.
  revert pre out. induction l as [|c l IH]; intros pre out Hf; cbn [length copy_label].
  - unfold zlen at 3. cbn [length]. by rewrite app_nil_r, Z.add_0_r.
  - rewrite zlen_cons in *. pose proof (zlen_nonneg l). destruct (_ <? _) eqn:E; bool_hyps; [|lia].
    cbn [app]. rewrite rd0_mid. specialize (IH (pre ++ [c]) (out ++ [c])). rewrite !zlen_app in IH.
    change (zlen [c]) with 1 in IH. rewrite <- !app_assoc in IH. cbn [app] in IH. rewrite IH by lia.
    f_equal. lia.
Qed.

Lemma cstr_id l : Forall (fun c => c <> 0) l -> cstr l = l.
Proof.
  induction l as [|c l IH]; intros Hl; [done|]. apply list.Forall_cons in Hl as [Hc Hl]. cbn [cstr].
  destruct (c =? 0) eqn:E; bool_hyps; [done|]. by rewrite IH.
Qed.

(** What the two loops do on a name in wire format. *)
Lemma skip_wire ls fuel pre post max_len j :
  Forall label_ok ls -> (length ls < fuel)%nat -> zlen pre + zlen (wire ls) <= max_len ->
  skip_loop fuel (pre ++ wire ls ++ post) (zlen pre) max_len j =
  (if negb (j =? 0) then j else zlen pre + zlen (wire ls)).
Proof.
  revert fuel pre. induction ls as [|l ls IH]; intros fuel pre Hf Hn Hl; (destruct fuel as [|fuel]; [cbn in Hn; lia|]);
    cbn [skip_loop].
  - change (wire []) with [0] in *. change (zlen [0]) with 1 in *. destruct (_ <? _) eqn:E; bool_hyps; [|lia].
    cbn [app]. by rewrite rd0_mid.
  - change (wire (l :: ls)) with (zlen l :: l ++ wire ls) in *. rewrite zlen_cons, zlen_app in *. apply list.Forall_cons in Hf as [Hk Hf].
    pose proof (zlen_nonneg (wire ls)). destruct Hk as [Hk _]. destruct (_ <? _) eqn:E; bool_hyps; [|lia].
    cbn [app]. rewrite rd0_mid. destruct (zlen l =? 0) eqn:E2; bool_hyps; [lia|].
    rewrite length_not_pointer by lia.
    specialize (IH fuel (pre ++ zlen l :: l) Hf). rewrite zlen_app, zlen_cons in IH.
    rewrite <- !app_assoc in IH. cbn [app] in IH. rewrite <- !app_assoc.
    replace (zlen pre + (zlen l + 1)) with (zlen pre + (1 + zlen l)) by lia.
    rewrite IH by (cbn [length] in Hn; lia). case_if; [done|lia].
Qed.

Lemma decode_wire ls fuel pre post max_len orig j out :
  Forall label_ok ls -> (length ls < fuel)%nat -> zlen pre + zlen (wire ls) <= max_len ->
  zlen out + zlen (dotted ls) <= NAME_SIZE - 1 ->
  decode_loop fuel (pre ++ wire ls ++ post) (zlen pre) max_len NAME_SIZE orig j out false =
  (cstr (take (length (out ++ dotted ls) - 1) (out ++ dotted ls)),
   (if negb (j =? 0) then j else zlen pre + zlen (wire ls) - orig), false).
Proof.
  revert fuel pre out.
  induction ls as [|l ls IH]; intros fuel pre out Hf Hn Hl Ho; (destruct fuel as [|fuel]; [cbn in Hn; lia|]);
    cbn [decode_loop].
  - change (wire []) with [0] in *. change (zlen [0]) with 1 in *. destruct (_ <? max_len) eqn:E; bool_hyps; [|lia].
    cbn [app]. rewrite rd0_mid. change (dotted []) with (@nil Z) in *. rewrite app_nil_r.
    change (zlen []) with 0 in *. cbn [Z.eqb orb].
    destruct (NAME_SIZE <=? _) eqn:E2; bool_hyps; [lia|]. done.
  - change (wire (l :: ls)) with (zlen l :: l ++ wire ls) in *.
    change (dotted (l :: ls)) with (l ++ [DOT] ++ dotted ls) in *. rewrite zlen_cons, !zlen_app in *. change (zlen [DOT]) with 1 in *.
    apply list.Forall_cons in Hf as [[Hk _] Hf].
    pose proof (zlen_nonneg (wire ls)). pose proof (zlen_nonneg (dotted ls)).
    destruct (_ <? max_len) eqn:E; bool_hyps; [|lia].
    cbn [app]. rewrite rd0_mid. destruct (zlen l =? 0) eqn:E2; bool_hyps; [lia|].
    rewrite length_not_pointer by lia.
    pose proof (copy_label_fits l (pre ++ [zlen l]) (wire ls ++ post) NAME_SIZE out) as Hc.
    rewrite zlen_app in Hc. change (zlen [zlen l]) with 1 in Hc. rewrite <- !app_assoc in Hc. cbn [app] in Hc.
    rewrite <- !app_assoc. rewrite to_nat_zlen, Hc by lia. cbn [orb]. rewrite zlen_app.
    destruct (NAME_SIZE <=? _) eqn:E3; bool_hyps; [lia|].
    specialize (IH fuel (pre ++ zlen l :: l) (out ++ l ++ [DOT]) Hf).
    rewrite !zlen_app, zlen_cons in IH. change (zlen [DOT]) with 1 in IH.
    rewrite <- !app_assoc in IH. cbn [app] in IH. rewrite <- !app_assoc.
    replace (zlen pre + 1 + zlen l) with (zlen pre + (1 + zlen l)) by lia.
    rewrite IH by (cbn [length] in Hn; lia). do 2 f_equal. case_if; [done|lia].
Qed.

(** A name whose text fits the 64-byte arrays with one byte to spare. *)
Definition name_fits (ls : list (list Z)) : Prop := name_ok ls /\ zlen (join ls) <= NAME_SIZE - 2.

Lemma label_count ls : Forall label_ok ls -> 2 * Z.of_nat (length ls) <= zlen (dotted ls).
Proof.
  induction ls as [|l ls IH]; intros Hf; [done|]. apply list.Forall_cons in Hf as [[Hl _] Hf].
  cbn [dotted length]. rewrite !zlen_app. change (zlen [DOT]) with 1. specialize (IH Hf). lia.
Qed.

Lemma name_fits_dotted ls :
  name_fits ls -> zlen (dotted ls) <= NAME_SIZE - 1 /\ (length ls < 255)%nat.
Proof.
  intros [[Hn Hf] Hl]. pose proof (label_count ls Hf). rewrite dotted_join, zlen_app in * by done.
  change (zlen [DOT]) with 1 in *. unfold NAME_SIZE in *. lia.
Qed.

Lemma join_nonzero ls : Forall label_ok ls -> Forall (fun c => c <> 0) (join ls).
Proof.
  intros Hf. induction ls as [|l [|l' ls] IH]; [done| |]; apply list.Forall_cons in Hf as [[_ Hl] Hf].
  - eapply list.Forall_impl; [exact Hl|]. intros c [? ?]. lia.
  - change (join (l :: l' :: ls)) with (l ++ DOT :: join (l' :: ls)). apply Forall_app. split.
    + eapply list.Forall_impl; [exact Hl|]. intros c [? ?]. lia.
    + apply Forall_cons_2; [done|]. by apply IH.
Qed.

Lemma decoded_join ls :
  name_ok ls -> cstr (take (length ([] ++ dotted ls) - 1) ([] ++ dotted ls)) = join ls.
Proof.
  intros [Hn Hf]. rewrite app_nil_l, dotted_join by done. rewrite length_app, Nat.add_sub.
  rewrite take_app_length. by apply cstr_id, join_nonzero.
Qed.

(** Decoding and skipping a name, directly and through a pointer. *)
Lemma decode_name ls pre post max_len :
  name_fits ls -> zlen pre + zlen (wire ls) <= max_len ->
  dns_decode_name (pre ++ wire ls ++ post) (zlen pre) max_len NAME_SIZE = (join ls, zlen (wire ls), false).
Proof.
  intros Hf Hl. destruct (name_fits_dotted ls Hf) as [Hd Hc]. destruct Hf as [Hn _]. unfold dns_decode_name.
  rewrite decode_wire; [|apply Hn|lia|done|change (zlen []) with 0; lia]. rewrite decoded_join by done.
  cbn [Z.eqb negb]. do 2 f_equal. lia.
Qed.

Lemma skip_name ls pre post max_len :
  name_fits ls -> zlen pre + zlen (wire ls) <= max_len ->
  dns_skip_name (pre ++ wire ls ++ post) (zlen pre) max_len = zlen pre + zlen (wire ls).
Proof.
  intros Hf Hl. destruct (name_fits_dotted ls Hf) as [_ Hc]. destruct Hf as [[_ Hn] _]. unfold dns_skip_name.
  by rewrite skip_wire by (done || lia).
Qed.

Section pointers.
Context (packet : list Z) (q t max_len : Z).
Hypothesis Ht : 0 <= t < 16384.
Hypothesis Hq : 0 <= q < max_len.
Hypothesis E1 : rd0 packet q = 192 + t / 256.
Hypothesis E2 : rd0 packet (q + 1) = t mod 256.

Lemma pointer_cases : (rd0 packet q =? 0) = false /\ is_pointer (rd0 packet q) = true /\ (q <? max_len) = true.
Proof.
  split_and!; [apply Z.eqb_neq; lia|rewrite E1; apply pointer_is_pointer; lia|apply Z.ltb_lt; lia].
Qed.

Lemma decode_pointer fuel out_max out over :
  decode_loop (S fuel) packet q max_len out_max q 0 out over =
  decode_loop fuel packet t max_len out_max q 2 out over.
Proof.
  destruct pointer_cases as (H1 & H2 & H3). cbn [decode_loop]. rewrite H1, H2, H3.
  rewrite (pointer_target_eq packet q t) by done. cbn [Z.eqb]. by replace (q + 2 - q) with 2 by lia.
Qed.

Lemma skip_pointer fuel :
  skip_loop (S fuel) packet q max_len 0 = skip_loop fuel packet t max_len (q + 2).
Proof.
  destruct pointer_cases as (H1 & H2 & H3). cbn [skip_loop]. rewrite H1, H2, H3.
  by rewrite (pointer_target_eq packet q t).
Qed.
End pointers.

Lemma skip_name_pointer ls pre post max_len q :
  name_fits ls -> zlen pre + zlen (wire ls) <= max_len -> zlen pre < 16384 -> 0 <= q < max_len ->
  let packet := pre ++ wire ls ++ post in
  rd0 packet q = 192 + zlen pre / 256 -> rd0 packet (q + 1) = zlen pre mod 256 ->
  dns_skip_name packet q max_len = q + 2.
Proof.
  intros Hf Hl Hp Hq packet E1 E2. destruct (name_fits_dotted ls Hf) as [_ Hc]. destruct Hf as [[_ Hn] _].
  pose proof (zlen_nonneg pre). unfold dns_skip_name. change 256%nat with (S 255).
  rewrite (skip_pointer packet q (zlen pre)) by (done || lia). unfold packet.
  rewrite skip_wire by (done || lia). destruct (q + 2 =? 0) eqn:E; bool_hyps; [lia|done].
Qed.

Lemma decode_name_pointer ls pre post max_len q :
  name_fits ls -> zlen pre + zlen (wire ls) <= max_len -> zlen pre < 16384 -> 0 <= q < max_len ->
  let packet := pre ++ wire ls ++ post in
  rd0 packet q = 192 + zlen pre / 256 -> rd0 packet (q + 1) = zlen pre mod 256 ->
  dns_decode_name packet q max_len NAME_SIZE = (join ls, 2, false).
Proof.
  intros Hf Hl Hp Hq packet E1 E2. destruct (name_fits_dotted ls Hf) as [Hd Hc]. destruct Hf as [Hn _].
  pose proof (zlen_nonneg pre). unfold dns_decode_name. change 256%nat with (S 255).
  rewrite (decode_pointer packet q (zlen pre)) by (done || lia). unfold packet.
  rewrite decode_wire; [|apply Hn|lia|done|change (zlen []) with 0; lia]. by rewrite decoded_join.
Qed.

(** ** The cache *)
Definition dns_wf (d : dns) : Prop := zlen d.(g_dns_cache) = DNS_CACHE_SIZE.
(** The test of [dns_cache_lookup]. *)
Definition is_a_for (hostname : list Z) (e : dns_cache_entry_t) : bool :=
  (e.(ce_record_type) =? DNS_TYPE_A) && str_equal e.(ce_hostname) hostname.

Lemma str_equal_refl a : str_equal a a = true.
Proof. induction a as [|x a IH]; [done|]. cbn [str_equal]. by rewrite Z.eqb_refl. Qed.

Lemma find_slot_range d : 0 <= dns_cache_find_slot d < DNS_CACHE_SIZE.
Proof.
  unfold dns_cache_find_slot. destruct (find_loop _ _ _) as [i|] eqn:E; [|done].
  apply find_loop_Some in E as (k & Hk & Hf & _). cbn [from_option id].
  destruct (rd (g_dns_cache d) k) as [e|]; [|done]. destruct (negb (ce_valid e)); [|done].
  injection Hf as <-. unfold DNS_CACHE_SIZE in *. lia.
Qed.

Lemma cache_find_add d P e :
  dns_wf d -> cache_find d P = None -> e.(ce_valid) = true -> P e = true ->
  cache_find (with_cache d (wr d.(g_dns_cache) (dns_cache_find_slot d) e)) P = Some e.
Proof.
  intros Hw Hn Hv HP. pose proof (find_slot_range d) as Hr. unfold dns_wf in Hw. unfold cache_find in *.
  rewrite find_loop_None in Hn. apply (find_loop_first _ _ _ _ (dns_cache_find_slot d)).
  - unfold DNS_CACHE_SIZE in *. lia.
  - cbn [with_cache g_dns_cache]. rewrite rd_wr_eq by lia. by rewrite Hv, HP.
  - intros k Hk. cbn [with_cache g_dns_cache]. rewrite rd_wr_ne by lia. apply Hn. unfold DNS_CACHE_SIZE in *. lia.
Qed.

Lemma str_copy_fits s : zlen s <= NAME_SIZE - 1 -> str_copy s NAME_SIZE = s.
Proof. intros H. unfold str_copy. apply take_ge. unfold zlen, NAME_SIZE in *. lia. Qed.

Lemma cached_lookup d hostname ip ttl :
  dns_wf d -> cache_find d (is_a_for hostname) = None -> is_ip ip -> zlen hostname <= NAME_SIZE - 1 ->
  exists e, cache_find (dns_cache_add hostname ip ttl d) (is_a_for hostname) = Some e /\ e.(ce_ip) = ip.
Proof.
  intros Hw Hn Hi Hl. eexists. split; [apply cache_find_add; try done|cbn [ce_ip]; by apply bytes_at_ip].
  unfold is_a_for. cbn [ce_record_type ce_hostname]. by rewrite str_copy_fits, str_equal_refl.
Qed.

(** A query whose answer is cached is answered at once and sends nothing. *)
Lemma cached_query n d hostname e :
  d.(g_dns_initialized) = true -> cache_find d (is_a_for hostname) = Some e -> is_ip e.(ce_ip) ->
  let s := dns_send_query hostname (n, d) in s.1 = n /\ dns_get_result s.2 = Some e.(ce_ip).
Proof.
  intros Hi Hf Hip. unfold dns_send_query, dns_cache_lookup. rewrite Hi.
  unfold is_a_for in Hf. rewrite Hf. cbn [negb fst snd]. split; [done|]. unfold dns_get_result.
  cbn -[bytes_at]. by rewrite !bytes_at_ip by (done || by rewrite bytes_at_ip).
Qed.

(** ** Responses *)
(** The standard answer: the question repeated, and an A record whose name is
    a pointer to it. *)
Definition a_response (id an_count : Z) (ls : list (list Z)) (ttl ip : list Z) : list Z :=
  dns_header_bytes (mk_dns_header (htons id) (htons 0x8180) (htons 1) (htons an_count) 0 0)
  ++ wire ls ++ [0; DNS_TYPE_A; 0; DNS_CLASS_IN]
  ++ [0xC0; 12; 0; DNS_TYPE_A; 0; DNS_CLASS_IN] ++ ttl ++ [0; 4] ++ ip.

Lemma dns_header_cast_bytes h rest :
  is_u16 h.(dh_id) -> is_u16 h.(dh_flags) -> is_u16 h.(dh_qd_count) -> is_u16 h.(dh_an_count) ->
  is_u16 h.(dh_ns_count) -> is_u16 h.(dh_ar_count) ->
  dns_header_cast (dns_header_bytes h ++ rest) = h.
Proof.
  destruct h as [a b c d e f]. cbn [dh_id dh_flags dh_qd_count dh_an_count dh_ns_count dh_ar_count].
  intros. unfold dns_header_cast, dns_header_bytes, rd16. cbn. f_equal; by apply rd16_le16.
Qed.

Lemma a_response_split id an ls ttl ip :
  a_response id an ls ttl ip =
  dns_header_bytes (mk_dns_header (htons id) (htons 0x8180) (htons 1) (htons an) 0 0) ++ wire ls ++
  [0; 1; 0; 1; 0xC0; 12; 0; 1; 0; 1] ++ ttl ++ [0; 4] ++ ip.
Proof. reflexivity. Qed.

Lemma wire_pos ls : 1 <= zlen (wire ls).
Proof. destruct ls as [|l ls]; [done|]. cbn [wire]. rewrite zlen_cons. pose proof (zlen_nonneg (l ++ wire ls)). lia. Qed.

(** The answer section of the standard response. *)
Lemma answers_a n k hdr ls ttl ip post len s :
  name_fits ls -> zlen hdr = 12 -> is_ip ip -> length ttl = 4%nat ->
  12 + zlen (wire ls) + 20 <= len ->
  let data := hdr ++ wire ls ++ [0; 1; 0; 1; 0xC0; 12; 0; 1; 0; 1] ++ ttl ++ [0; 4] ++ ip ++ post in
  n = S k ->
  answers n data len (12 + zlen (wire ls) + 4) s =
  (true, (s.1, take_a ip (be32 ttl 0) s.2)).
Proof.
  intros Hf Hh Hi Ht Hl data ->. pose proof (wire_pos ls) as Hw. cbn [answers].
  destruct (_ <? len) eqn:E; bool_hyps; [|lia].
  set (w := 12 + zlen (wire ls)) in *.
  assert (Hrd : forall i, 0 <= i ->
    rd0 data (w + i) = rd0 ([0; 1; 0; 1; 0xC0; 12; 0; 1; 0; 1] ++ ttl ++ [0; 4] ++ ip ++ post) i).
  { intros i Hi0. unfold data, w. rewrite <- Hh, <- zlen_app, app_assoc. by rewrite rd0_app_r. }
  destruct ttl as [|t0 [|t1 [|t2 [|t3 [|]]]]]; try done.
  apply ip_explode in Hi as (i0 & i1 & i2 & i3 & ->).
  assert (Hs : dns_skip_name data (w + 4) len = w + 4 + 2).
  { apply (skip_name_pointer ls hdr); [done|unfold w in *; lia|lia|unfold w in *; lia|fold data..].
    - rewrite Hrd by lia. by rewrite Hh.
    - replace (w + 4 + 1) with (w + 5) by lia. rewrite Hrd by lia. by rewrite Hh. }
  rewrite Hs.
  assert (Hfields : be16 data (w + 6) = 1 /\ be16 data (w + 8) = 1 /\ be32 data (w + 10) = be32 [t0; t1; t2; t3] 0 /\
    be16 data (w + 14) = 4 /\ bytes_at data (w + 16) 4 = [i0; i1; i2; i3]).
  { unfold be16, be32, bytes_at. cbn [seq fmap list_fmap]. rewrite <- !Z.add_assoc, !Hrd by lia. done. }
  destruct Hfields as (F1 & F2 & F3 & F4 & F5).
  replace (w + 4 + 2) with (w + 6) by lia. replace (w + 6 + 10) with (w + 16) by lia.
  replace (w + 6 + 2) with (w + 8) by lia. replace (w + 6 + 4) with (w + 10) by lia.
  replace (w + 6 + 8) with (w + 14) by lia. rewrite F1, F2, F3, F4, F5.
  destruct (len <? w + 16) eqn:E2; bool_hyps; [lia|]. destruct (len <? w + 16 + 4) eqn:E3; bool_hyps; [lia|]. done.
Qed.

(** A response to the pending query resolves it and fills the cache. *)
Lemma handle_a_response n d id an ls ttl ip post len :
  name_fits ls -> is_u16 id -> d.(g_pending_query).(pq_id) = id -> 1 <= an < 2 ^ 16 -> is_ip ip ->
  length ttl = 4%nat -> zlen (a_response id an ls ttl ip) <= len ->
  dns_handle (a_response id an ls ttl ip ++ post) len (n, d) = (n, take_a ip (be32 ttl 0) d).
Proof.
  intros Hf Hid Hq Han Hi Ht Hl. rewrite a_response_split in *. rewrite <- !app_assoc.
  set (hdr := dns_header_bytes _) in *. assert (Hh : zlen hdr = 12) by done.
  assert (Hl' : 12 + zlen (wire ls) + 20 <= len).
  { rewrite !zlen_app, Hh in Hl. destruct Hi as [Hi _]. unfold zlen in Hl at 3 5. rewrite Ht, Hi in Hl.
    change (zlen [0; 4]) with 2 in Hl. change (zlen [0; 1; 0; 1; 192; 12; 0; 1; 0; 1]) with 10 in Hl. lia. }
  clear Hl. unfold dns_handle, DNS_HEADER_SIZE. pose proof (wire_pos ls).
  destruct (len <? 12) eqn:E; bool_hyps; [lia|].
  assert (Hc : forall rest, dns_header_cast (hdr ++ rest) =
    mk_dns_header (htons id) (htons 0x8180) (htons 1) (htons an) 0 0)
    by (intros; apply dns_header_cast_bytes; done || apply htons_range).
  rewrite !Hc.
  cbn [dh_id dh_flags dh_qd_count dh_an_count]. rewrite !ntohs_htons by (done || widths; lia).
  change (Z.land 33152 DNS_FLAG_QR =? 0) with false.
  change (u8 (Z.land 33152 DNS_FLAG_RCODE) =? DNS_RCODE_OK) with true. cbn [negb].
  rewrite Hq, Z.eqb_refl. cbn [negb]. destruct (an =? 0) eqn:E2; bool_hyps; [lia|].
  change (Z.to_nat 1) with 1%nat. cbn [skip_questions]. destruct (12 <? len) eqn:E3; bool_hyps; [|lia].
  match goal with |- context [hdr ++ wire ls ++ ?rest] => pose proof (skip_name ls hdr rest len Hf) as Hs end.
  rewrite Hh in Hs. rewrite Hs by lia.
  erewrite (answers_a (Z.to_nat an) (Nat.pred (Z.to_nat an))) by (done || lia). done.
Qed.

(** A query for a name that is not cached. *)
Lemma uncached_query n d hostname :
  d.(g_dns_initialized) = true -> (dns_cache_lookup hostname d).1 = None ->
  exists d1, let id := u16 (d.(g_dns_transaction_id) + 1) in
  dns_send_query hostname (n, d) = (send_dns (dns_query_packet id hostname DNS_TYPE_A) n d1, d1) /\
  d1.(g_dns_initialized) = true /\ d1.(g_dns_cache) = d.(g_dns_cache) /\
  d1.(g_pending_query).(pq_id) = id /\ d1.(g_pending_query).(pq_hostname) = str_copy hostname NAME_SIZE /\
  cache_find d1 (is_a_for hostname) = None.
Proof.
  intros Hi Hn. eexists. cbv zeta. split.
  - unfold dns_send_query. rewrite Hi. cbn [negb]. unfold dns_cache_lookup in *. fold (is_a_for hostname) in *.
    destruct (cache_find d (is_a_for hostname)); [done|]. reflexivity.
  - cbn [with_pending with_transaction with_stats g_dns_initialized g_dns_cache g_pending_query pq_id pq_hostname].
    split_and!; try done. unfold dns_cache_lookup in Hn. fold (is_a_for hostname) in Hn.
    destruct (cache_find d (is_a_for hostname)) eqn:E; [done|]. exact E.
Qed.

(** An address taken from an answer is the result, and is cached. *)
Lemma take_a_result n d hostname ip ttl :
  dns_wf d -> d.(g_dns_initialized) = true -> cache_find d (is_a_for hostname) = None -> is_ip ip ->
  zlen hostname <= NAME_SIZE - 1 -> d.(g_pending_query).(pq_hostname) = hostname ->
  let d2 := take_a ip ttl d in
  dns_get_result d2 = Some ip /\ dns_is_pending d2 = false /\
  let s3 := dns_send_query hostname (n, d2) in s3.1 = n /\ dns_get_result s3.2 = Some ip.
Proof.
  intros Hw Hi Hn Hip Hl Hh d2.
  assert (R : dns_get_result d2 = Some ip) by (unfold dns_get_result; cbn -[bytes_at]; by rewrite bytes_at_ip).
  assert (P : dns_is_pending d2 = false) by done. split; [exact R|]. split; [exact P|].
  destruct (cached_lookup (with_pending d (set_outcome true true (set_resolved_ip ip d.(g_pending_query))))
    hostname ip ttl) as (e & He & Ee); try done.
  destruct (cached_query n d2 hostname e) as [E1 E2]; [done| |by rewrite Ee|by rewrite Ee in E2].
  unfold d2, take_a. cbn [with_pending g_pending_query set_outcome set_resolved_ip pq_hostname pq_resolved_ip].
  by rewrite Hh.
Qed.

(** ** Properties *)
(** A response of 89 bytes: no question, one CNAME record for the root whose
    data are 33 labels of one character each. *)
Definition long_cname : list Z := mjoin (replicate 33 [1; 97]).
Definition cname_response (id : Z) : list Z :=
  dns_header_bytes (mk_dns_header (htons id) (htons 0x8180) 0 (htons 1) 0 0)
  ++ [0; 0; DNS_TYPE_CNAME; 0; DNS_CLASS_IN; 0; 0; 0; 0; 0; 66] ++ long_cname.

(** Demonstration state: a resolver with server 8.8.8.8 and an empty cache. *)
Definition demo_dns : dns :=
  dns_init 0x08080808
    (mk_dns 0 [0; 0; 0; 0] false 0x1234 (mk_pending 0 [] [0; 0; 0; 0] [] [] DNS_QUERY_A false false false)
       (replicate 16 (mk_dns_entry [] [0; 0; 0; 0] 0 0 0 false)) 0 0).
(** "www.alos.org" *)
Definition demo_name : list (list Z) := [[119; 119; 119]; [97; 108; 111; 115]; [111; 114; 103]].

Lemma demo_name_fits : name_fits demo_name.
Proof. repeat (split || constructor); done. Qed.

Section properties.

(** C10. Names survive the wire: the encoding of a host name (labels of 1 to 63
    characters, at most 62 characters of text), wherever it lies in a packet,
    is decoded to exactly that name without overrunning the caller's array,
    and decoding and skipping consume exactly its bytes; through a compression
    pointer they yield the same name and consume the two bytes of the
    pointer. *)
Theorem dns_name_roundtrip ls pre post max_len :
  name_fits ls -> zlen pre + zlen (dns_encode_name (join ls)) <= max_len ->
  let name := dns_encode_name (join ls) in
  let packet := pre ++ name ++ post in
  dns_decode_name packet (zlen pre) max_len NAME_SIZE = (join ls, zlen name, false) /\
  dns_skip_name packet (zlen pre) max_len = zlen pre + zlen name /\
  forall q, 0 <= q < max_len -> zlen pre < 16384 ->
    rd0 packet q = 0xC0 + zlen pre / 256 -> rd0 packet (q + 1) = zlen pre mod 256 ->
    dns_decode_name packet q max_len NAME_SIZE = (join ls, 2, false) /\
    dns_skip_name packet q max_len = q + 2.
Proof.
  intros Hf Hl. cbv zeta. rewrite encode_wire in * by apply Hf.
  split; [by apply decode_name|]. split; [by apply skip_name|]. intros q Hq Hp E1 E2.
  split; [by apply decode_name_pointer|by apply skip_name_pointer].
Qed.

Lemma dns_name_roundtrip_witness :
  let name := dns_encode_name (join demo_name) in
  let packet := replicate 12 7 ++ name ++ [0xC0; 12; 5] in
  dns_decode_name packet 12 29 NAME_SIZE = (join demo_name, zlen name, false) /\
  dns_skip_name packet 12 29 = 12 + zlen name /\
  forall q, 0 <= q < 29 -> 12 < 16384 ->
    rd0 packet q = 0xC0 + 12 / 256 -> rd0 packet (q + 1) = 12 mod 256 ->
    dns_decode_name packet q 29 NAME_SIZE = (join demo_name, 2, false) /\ dns_skip_name packet q 29 = q + 2.
Proof.
  apply (dns_name_roundtrip demo_name (replicate 12 7) [0xC0; 12; 5] 29); [exact demo_name_fits|by vm_compute].
Defined.

(** A name is resolved: a query for an uncached name becomes the pending
    query, under a fresh transaction id; the server's answer with that id
    completes it with the address in the answer, sends nothing, and puts it
    into the cache, from which the next query for the name is answered at once
    and without any packet. *)
Theorem dns_resolution n d ls an ttl ip post len :
  name_fits ls -> dns_wf d -> d.(g_dns_initialized) = true ->
  (dns_cache_lookup (join ls) d).1 = None -> 1 <= an < 2 ^ 16 -> is_ip ip -> length ttl = 4%nat ->
  let s1 := dns_send_query (join ls) (n, d) in
  let id := s1.2.(g_pending_query).(pq_id) in
  zlen (a_response id an ls ttl ip) <= len ->
  id = u16 (d.(g_dns_transaction_id) + 1) /\
  s1.1 = send_dns (dns_query_packet id (join ls) DNS_TYPE_A) n s1.2 /\
  let s2 := dns_handle (a_response id an ls ttl ip ++ post) len s1 in
  s2.1 = s1.1 /\ dns_get_result s2.2 = Some ip /\ dns_is_pending s2.2 = false /\
  let s3 := dns_send_query (join ls) s2 in
  s3.1 = s2.1 /\ dns_get_result s3.2 = Some ip.
Proof.
  intros Hf Hw Hi Hc Han Hip Ht.
  destruct (uncached_query n d (join ls) Hi Hc) as (d1 & E & I1 & C1 & Q1 & H1 & N1).
  rewrite E. cbn [fst snd]. rewrite Q1. set (id := u16 _) in *. intros Hl. split; [done|]. split; [done|].
  rewrite handle_a_response; try done; [|apply u16_range]. cbn [fst snd]. split; [done|].
  destruct Hf as [_ Hf]. apply take_a_result; try done; [by unfold dns_wf; rewrite C1|lia|].
  rewrite H1. apply str_copy_fits. lia.
Qed.

Lemma dns_resolution_witness :
  let s1 := dns_send_query (join demo_name) (demo_net, demo_dns) in
  let id := s1.2.(g_pending_query).(pq_id) in
  id = u16 (demo_dns.(g_dns_transaction_id) + 1) /\
  s1.1 = send_dns (dns_query_packet id (join demo_name) DNS_TYPE_A) demo_net s1.2 /\
  let s2 := dns_handle (a_response id 1 demo_name [0; 0; 1; 44] [10; 1; 2; 3] ++ []) 46 s1 in
  s2.1 = s1.1 /\ dns_get_result s2.2 = Some [10; 1; 2; 3] /\ dns_is_pending s2.2 = false /\
  let s3 := dns_send_query (join demo_name) s2 in
  s3.1 = s2.1 /\ dns_get_result s3.2 = Some [10; 1; 2; 3].
Proof.
  apply (dns_resolution demo_net demo_dns demo_name 1 [0; 0; 1; 44] [10; 1; 2; 3] [] 46);
    [exact demo_name_fits|done|done|done|done|split; [done|by repeat constructor]|done|by vm_compute].
Defined.

(** A hostile answer overruns the resolver's stack: the loop of
    [dns_decode_name] bounds the characters of a label but not the dots it
    writes after them, so an 89-byte response with the pending transaction id
    makes it write past the end of the 64-byte array of its caller, whatever
    the state of the resolver. *)
Theorem dns_cname_overruns n d id :
  is_u16 id -> d.(g_pending_query).(pq_id) = id ->
  zlen (cname_response id) = 89 /\ (dns_handle (cname_response id) 89 (n, d)).1.(overrun) = true.
Proof.
  intros Hid Hq. split; [done|]. unfold dns_handle, cname_response. change (89 <? DNS_HEADER_SIZE) with false.
  rewrite dns_header_cast_bytes by (done || apply htons_range). cbn [dh_id dh_flags dh_qd_count dh_an_count].
  rewrite !ntohs_htons by done. change (Z.land 33152 DNS_FLAG_QR =? 0) with false.
  change (u8 (Z.land 33152 DNS_FLAG_RCODE) =? DNS_RCODE_OK) with true. rewrite Hq, Z.eqb_refl. cbn [negb].
  change (1 =? 0) with false. change (Z.to_nat (ntohs 0)) with 0%nat. change (Z.to_nat 1) with 1%nat.
  unfold dns_header_bytes, le16. cbn [dh_id dh_flags dh_qd_count dh_an_count dh_ns_count dh_ar_count].
  generalize (htons id mod 256) (htons id / 256 mod 256). intros x y.
  match goal with |- context [answers 1 ?b _ _ _] => set (data := b) end.
  assert (Ed : exists name k, dns_decode_name data 23 89 NAME_SIZE = (name, k, true))
    by (do 2 eexists; vm_compute; reflexivity).
  destruct Ed as (name & k & Ed).
  assert (Ea : answers 1 data 89 (skip_questions 0 data 89 DNS_HEADER_SIZE) (n, d) =
    (false, take_cname data 23 89 (n, d))).
  { change (skip_questions 0 data 89 DNS_HEADER_SIZE) with 12. cbn [answers].
    replace (dns_skip_name data 12 89) with 13 by (vm_compute; reflexivity).
    replace (be16 data 13) with 5 by (vm_compute; reflexivity).
    replace (be16 data (13 + 2)) with 1 by (vm_compute; reflexivity).
    replace (be16 data (13 + 8)) with 66 by (vm_compute; reflexivity). reflexivity. }
  rewrite Ea. unfold take_cname. rewrite Ed. cbn [fst snd].
  match goal with |- context [if ?b then _ else _] => destruct b end; cbn [fst with_overrun overrun];
    apply orb_true_r.
Qed.

Lemma dns_cname_overruns_witness :
  zlen (cname_response 0) = 89 /\ (dns_handle (cname_response 0) 89 (demo_net, demo_dns)).1.(overrun) = true.
Proof. apply (dns_cname_overruns demo_net demo_dns 0); done. Defined.
End properties.
