(* ===== verification/Icmp.v ===== *)
(** ICMP (src/net/l3/icmp.c): answering echo requests, sending them, and the
    state of a running ping.

    The clock, and what happens to the machine while [ping_ip] halts between
    two polls, are parameters.  The loops of [ping_ip_continuous] end when the
    user presses a key and are not modelled, nor is the console output. *)
From S2P Require Import Prelude NetBase Route Arp Ipv4.

Definition ICMP_TYPE_ECHO_REPLY : Z := 0.
Definition ICMP_TYPE_ECHO_REQUEST : Z := 8.
Definition ICMP_HEADER_SIZE : Z := 8.
Definition PING_DATA_SIZE : Z := 56.
Definition REPLY_BUFFER : Z := 1500.

Record icmp_header_t := mk_icmp {
  icmp_type : Z; icmp_code : Z; icmp_checksum : Z; icmp_identifier : Z; icmp_sequence : Z
}.
Definition icmp_bytes (h : icmp_header_t) : list Z :=
  [h.(icmp_type); h.(icmp_code)] ++ le16 h.(icmp_checksum) ++ le16 h.(icmp_identifier) ++ le16 h.(icmp_sequence).
Definition icmp_cast (b : list Z) : icmp_header_t :=
  mk_icmp (rd0 b 0) (rd0 b 1) (rd16 b 2) (rd16 b 4) (rd16 b 6).

Record ping_state_t := mk_ping {
  pg_dest_ip : list Z;
  pg_hostname : list Z;
  pg_identifier : Z;
  pg_sequence : Z;
  pg_sent : Z;
  pg_received : Z;
  pg_ttl : Z;
  pg_time : Z;
  pg_send_time : Z;
  pg_min_time : Z;
  pg_max_time : Z;
  pg_total_time : Z;
  pg_waiting : bool;
  pg_active : bool
}.
Record icmp := mk_icmp_state { g_ping : ping_state_t; g_ping_id : Z; g_ping_stop : bool }.

Definition with_ping (c : icmp) (p : ping_state_t) : icmp := mk_icmp_state p c.(g_ping_id) c.(g_ping_stop).

(** The fields a reply changes, and those a request changes. *)
Definition ping_reply (p : ping_state_t) (time ttl : Z) : ping_state_t :=
  mk_ping p.(pg_dest_ip) p.(pg_hostname) p.(pg_identifier) p.(pg_sequence) p.(pg_sent) (u16 (p.(pg_received) + 1))
    ttl time p.(pg_send_time) p.(pg_min_time) p.(pg_max_time) p.(pg_total_time) false p.(pg_active).
Definition ping_request (p : ping_state_t) (now : Z) : ping_state_t :=
  mk_ping p.(pg_dest_ip) p.(pg_hostname) p.(pg_identifier) p.(pg_sequence) (u16 (p.(pg_sent) + 1)) p.(pg_received)
    p.(pg_ttl) p.(pg_time) now p.(pg_min_time) p.(pg_max_time) p.(pg_total_time) true p.(pg_active).

Section icmp.
(** [timer_get_uptime_ms], and the bytes that follow [reply_buffer] on the
    stack. *)
Variable now : Z.
Variable stack : list Z.

(** ** Receiving *)
(** [reply_buffer] after the copy loop, and what lies behind it. *)
Definition reply_copy (icmp_data : list Z) (len : Z) : list Z :=
  bytes_at icmp_data 0 (Z.to_nat (Z.min len REPLY_BUFFER)) ++ bytes_at stack 0 (Z.to_nat (len - REPLY_BUFFER)).

Definition echo_reply (icmp_data : list Z) (len : Z) : list Z :=
  let buffer := reply_copy icmp_data len in
  let zeroed := [ICMP_TYPE_ECHO_REPLY; 0; 0; 0] ++ drop 4 buffer in
  [ICMP_TYPE_ECHO_REPLY; 0] ++ le16 (ip_checksum zeroed) ++ drop 4 buffer.

Definition icmp_handle (netif : option NetInterface) (eth : ethernet_header_t) (ip_hdr : ipv4_header_t)
    (icmp_data : list Z) (len : Z) (s : net * icmp) : net * icmp :=
  let '(n, c) := s in
  if len <? ICMP_HEADER_SIZE then s
  else
    let h := icmp_cast icmp_data in
    if h.(icmp_type) =? ICMP_TYPE_ECHO_REQUEST then
      let n := with_overrun n (REPLY_BUFFER <? len) in
      (ipv4_send_packet netif eth.(eth_src_mac) ip_hdr.(ip_src_ip) IP_PROTO_ICMP (echo_reply icmp_data len) n, c)
    else if h.(icmp_type) =? ICMP_TYPE_ECHO_REPLY then
      if c.(g_ping).(pg_active) && c.(g_ping).(pg_waiting) then
        let reply_id := ntohs h.(icmp_identifier) in
        if reply_id =? c.(g_ping).(pg_identifier)
        then (n, with_ping c (ping_reply c.(g_ping) (u32 (now - c.(g_ping).(pg_send_time))) ip_hdr.(ip_ttl)))
        else s
      else s
    else s.

(** ** Sending *)
Definition ping_pattern : list Z := (fun k => Z.land (Z.of_nat k) 0xFF) <$> seq 0 56.

Definition echo_request (p : ping_state_t) : list Z :=
  let h checksum := mk_icmp ICMP_TYPE_ECHO_REQUEST 0 checksum (htons p.(pg_identifier)) (htons p.(pg_sequence)) in
  icmp_bytes (h (ip_checksum (icmp_bytes (h 0) ++ ping_pattern))) ++ ping_pattern.

Definition icmp_send_echo_request (dest_ip : list Z) (s : net * icmp) : net * icmp :=
  let '(n, c) := s in
  match netif_get_default n with
  | None => s
  | Some netif =>
      let buffer := echo_request c.(g_ping) in
      match route_get_next_hop n dest_ip with
      | None => s
      | Some next_hop =>
          match arp_cache_lookup next_hop n with
          | None => (arp_send_request (Some netif) next_hop n, c)
          | Some dest_mac =>
              (ipv4_send_packet (Some netif) dest_mac dest_ip IP_PROTO_ICMP buffer n,
               with_ping c (ping_request c.(g_ping) now))
          end
      end
  end.
End icmp.

(** ** One ping *)
Definition ping_start (dest_ip : list Z) (c : icmp) : icmp :=
  let p := c.(g_ping) in
  let id := u16 (c.(g_ping_id) + 1) in
  mk_icmp_state
    (mk_ping (bytes_at dest_ip 0 4) p.(pg_hostname) id 1 0 0 p.(pg_ttl) p.(pg_time) p.(pg_send_time)
       0xFFFFFFFF 0 0 false true)
    id false.

Section ping.
(** [clock k] is the time of the [k]-th poll; [wait k] is what the interrupts
    taken in the [k]-th halt do to the state. *)
Variable clock : Z -> Z.
Variable wait : Z -> net * icmp -> net * icmp.

(** [while (timeout_count < 60)]: [k] is [timeout_count] at the head of the
    loop. *)
Fixpoint ping_wait (fuel : nat) (dest_ip : list Z) (k retry_count : Z) (s : net * icmp) : net * icmp :=
  match fuel with
  | O => s
  | S fuel' =>
      let s := wait k s in
      let k := k + 1 in
      let retry := (s.2.(g_ping).(pg_sent) =? 0) && (retry_count <? 3) && ((k =? 5) || (k =? 15) || (k =? 25)) in
      let s := if retry then icmp_send_echo_request (clock k) dest_ip s else s in
      let retry_count := if retry then retry_count + 1 else retry_count in
      if (0 <? s.2.(g_ping).(pg_sent)) && negb s.2.(g_ping).(pg_waiting) then s
      else ping_wait fuel' dest_ip k retry_count s
  end.

(** The statistics and the end of the ping. *)
Definition ping_finish (c : icmp) : icmp :=
  let p := c.(g_ping) in
  let got := 0 <? p.(pg_received) in
  with_ping c
    (mk_ping p.(pg_dest_ip) p.(pg_hostname) p.(pg_identifier) p.(pg_sequence) p.(pg_sent) p.(pg_received) p.(pg_ttl)
       p.(pg_time) p.(pg_send_time)
       (if got && (p.(pg_time) <? p.(pg_min_time)) then p.(pg_time) else p.(pg_min_time))
       (if got && (p.(pg_max_time) <? p.(pg_time)) then p.(pg_time) else p.(pg_max_time))
       (if got then u32 (p.(pg_total_time) + p.(pg_time)) else p.(pg_total_time))
       p.(pg_waiting) false).

Definition ping_ip (dest_ip : list Z) (s : net * icmp) : Z * (net * icmp) :=
  let s := (s.1, ping_start dest_ip s.2) in
  let s := icmp_send_echo_request (clock 0) dest_ip s in
  let s := ping_wait 60 dest_ip 0 0 s in
  let s := (s.1, ping_finish s.2) in
  ((if 0 <? s.2.(g_ping).(pg_received) then 0 else -2), s).
End ping.

Definition ping_is_waiting (c : icmp) : bool := c.(g_ping).(pg_active) && c.(g_ping).(pg_waiting).
Definition ping_get_stats (c : icmp) : Z * Z := (c.(g_ping).(pg_sent), c.(g_ping).(pg_received)).

(** ** Lemmas *)
Lemma echo_reply_eq stack m pad len :
  zlen m = len -> 8 <= len <= REPLY_BUFFER ->
  echo_reply stack (m ++ pad) len = [0; 0] ++ le16 (ip_checksum ([0; 0; 0; 0] ++ drop 4 m)) ++ drop 4 m.
Proof.
  intros Hm Hl. unfold echo_reply, reply_copy. rewrite Z.min_l by lia.
  replace (Z.to_nat (len - REPLY_BUFFER)) with 0%nat by lia. cbn [bytes_at seq fmap list_fmap]. rewrite app_nil_r.
  rewrite bytes_at_prefix by (unfold zlen in Hm; lia). rewrite take_ge by (unfold zlen in Hm; lia). done.
Qed.

Lemma echo_reply_length stack data len : 8 <= len -> zlen (echo_reply stack data len) = len.
Proof.
  intros Hl. unfold echo_reply, reply_copy, zlen, REPLY_BUFFER. rewrite !length_app, length_drop, length_app.
  rewrite !bytes_at_length. cbn [length le16]. lia.
Qed.

(** The reply verifies: its checksum recomputes to zero. *)
Lemma echo_reply_verifies stack m pad len :
  zlen m = len -> 8 <= len <= REPLY_BUFFER -> Forall is_u8 m -> ip_checksum (echo_reply stack (m ++ pad) len) = 0.
Proof.
  intros Hm Hl Hu. rewrite echo_reply_eq by done.
  apply (checksum_verifies [0; 0] (drop 4 m)); [by repeat constructor|by apply Forall_drop|done|].
  change (zlen [0; 0]) with 2. unfold REPLY_BUFFER, zlen in *. rewrite length_drop. lia.
Qed.

(** A message of [len] bytes that starts like [m] is an echo request. *)
Lemma icmp_handle_request now stack netif eth ip m pad len n c :
  zlen m = len -> 8 <= len <= REPLY_BUFFER -> rd0 m 0 = ICMP_TYPE_ECHO_REQUEST ->
  icmp_handle now stack netif eth ip (m ++ pad) len (n, c) =
  (ipv4_send_packet netif eth.(eth_src_mac) ip.(ip_src_ip) IP_PROTO_ICMP (echo_reply stack (m ++ pad) len)
     (with_overrun n false), c).
Proof.
  intros Hm Hl Ht. unfold icmp_handle, ICMP_HEADER_SIZE. destruct (len <? 8) eqn:E; bool_hyps; [lia|].
  destruct (REPLY_BUFFER <? len) eqn:E2; bool_hyps; [lia|].
  assert (Et : icmp_type (icmp_cast (m ++ pad)) = ICMP_TYPE_ECHO_REQUEST).
  { unfold icmp_cast. cbn [icmp_type]. rewrite <- Ht. unfold rd0. by rewrite rd_app_l by lia. }
  by rewrite Et.
Qed.

Lemma with_overrun_false n : with_overrun n false = n.
Proof. destruct n. unfold with_overrun. cbn. by rewrite orb_false_r. Qed.

(** A reply with the identifier of the running ping completes it. *)
Lemma icmp_handle_reply now stack netif eth ip data len n c :
  8 <= len -> rd0 data 0 = ICMP_TYPE_ECHO_REPLY -> ntohs (rd16 data 4) = c.(g_ping).(pg_identifier) ->
  c.(g_ping).(pg_active) = true -> c.(g_ping).(pg_waiting) = true ->
  icmp_handle now stack netif eth ip data len (n, c) =
  (n, with_ping c (ping_reply c.(g_ping) (u32 (now - c.(g_ping).(pg_send_time))) ip.(ip_ttl))).
Proof.
  intros Hl Ht Hid Ha Hw. unfold icmp_handle, ICMP_HEADER_SIZE. destruct (len <? 8) eqn:E; bool_hyps; [lia|].
  unfold icmp_cast. cbn [icmp_type icmp_identifier]. rewrite Ht, Ha, Hw, Hid. cbn [Z.eqb ICMP_TYPE_ECHO_REPLY ICMP_TYPE_ECHO_REQUEST andb].
  by rewrite Z.eqb_refl.
Qed.

Lemma echo_request_shape p :
  is_u16 p.(pg_identifier) ->
  exists a b x y rest, echo_request p = [ICMP_TYPE_ECHO_REQUEST; 0; a; b; x; y] ++ rest /\ length rest = 58%nat /\
    ntohs (x + 256 * y) = p.(pg_identifier).
Proof.
  intros Hid. unfold echo_request, icmp_bytes. cbn [icmp_type icmp_code icmp_checksum icmp_identifier icmp_sequence].
  do 5 eexists. split; [reflexivity|]. split; [done|]. rewrite rd16_le16 by apply htons_range. by apply ntohs_htons.
Qed.

(** ** Ping as a bounded wait *)
Lemma ping_wait_done clock wait fuel dest_ip k r s :
  let s' := wait k s in
  0 < s'.2.(g_ping).(pg_sent) -> s'.2.(g_ping).(pg_waiting) = false ->
  ping_wait clock wait (S fuel) dest_ip k r s = s'.
Proof.
  intros s' Hs Hw. cbn [ping_wait]. fold s'. destruct (pg_sent _ =? 0) eqn:E; bool_hyps; [lia|]. cbn [andb].
  rewrite Hw. destruct (0 <? _) eqn:E2; bool_hyps; [done|lia].
Qed.
