(* ===== verification/Dhcp.v ===== *)
(** The DHCP client (src/net/l4/dhcp.c): building and sending DISCOVER and
    REQUEST, parsing options, and the states from INIT to BOUND, where the
    interface and the routing table get the lease.

    A [NetInterface*] is the position of the interface in [netif_list]. *)
From S2P Require Import Prelude NetBase Route Arp Ipv4 Udp.

Definition DHCP_SERVER_PORT : Z := 67.
Definition DHCP_CLIENT_PORT : Z := 68.
Definition DHCP_BOOTREQUEST : Z := 1.
Definition DHCP_BOOTREPLY : Z := 2.
Definition DHCP_HTYPE_ETH : Z := 1.
Definition DHCP_HLEN_ETH : Z := 6.
Definition DHCP_HEADER_SIZE : Z := 236.
Definition DHCP_OPT_PAD : Z := 0.
Definition DHCP_OPT_SUBNET_MASK : Z := 1.
Definition DHCP_OPT_ROUTER : Z := 3.
Definition DHCP_OPT_DNS : Z := 6.
Definition DHCP_OPT_REQUESTED_IP : Z := 50.
Definition DHCP_OPT_LEASE_TIME : Z := 51.
Definition DHCP_OPT_MESSAGE_TYPE : Z := 53.
Definition DHCP_OPT_SERVER_ID : Z := 54.
Definition DHCP_OPT_PARAM_REQUEST : Z := 55.
Definition DHCP_OPT_END : Z := 255.
Definition DHCPDISCOVER : Z := 1.
Definition DHCPOFFER : Z := 2.
Definition DHCPREQUEST : Z := 3.
Definition DHCPACK : Z := 5.
Definition DHCPNAK : Z := 6.

Inductive dhcp_state_t :=
| DHCP_STATE_INIT | DHCP_STATE_SELECTING | DHCP_STATE_REQUESTING | DHCP_STATE_BOUND
| DHCP_STATE_RENEWING | DHCP_STATE_REBINDING.
#[export] Instance dhcp_state_eq_dec : EqDecision dhcp_state_t.
Proof. solve_decision. Defined.

(** The fields of [dhcp_header_t] the client uses; [yiaddr] as its four
    bytes. *)
Record dhcp_header_t := mk_dhcp_header {
  dhcp_op : Z; dhcp_htype : Z; dhcp_hlen : Z; dhcp_hops : Z; dhcp_xid : Z; dhcp_secs : Z; dhcp_flags : Z;
  dhcp_ciaddr : list Z; dhcp_yiaddr : list Z; dhcp_siaddr : list Z; dhcp_giaddr : list Z;
  dhcp_chaddr : list Z; dhcp_sname : list Z; dhcp_file : list Z
}.
Definition dhcp_header_bytes (h : dhcp_header_t) : list Z :=
  [h.(dhcp_op); h.(dhcp_htype); h.(dhcp_hlen); h.(dhcp_hops)] ++ le32 h.(dhcp_xid) ++ le16 h.(dhcp_secs)
  ++ le16 h.(dhcp_flags) ++ h.(dhcp_ciaddr) ++ h.(dhcp_yiaddr) ++ h.(dhcp_siaddr) ++ h.(dhcp_giaddr)
  ++ h.(dhcp_chaddr) ++ h.(dhcp_sname) ++ h.(dhcp_file).
Definition dhcp_header_cast (b : list Z) : dhcp_header_t :=
  mk_dhcp_header (rd0 b 0) (rd0 b 1) (rd0 b 2) (rd0 b 3) (rd32 b 4) (rd16 b 8) (rd16 b 10)
    (bytes_at b 12 4) (bytes_at b 16 4) (bytes_at b 20 4) (bytes_at b 24 4)
    (bytes_at b 28 16) (bytes_at b 44 64) (bytes_at b 108 128).

Record dhcp_context_t := mk_dhcp_ctx {
  dc_netif : option Z;
  dc_state : dhcp_state_t;
  dc_xid : Z;
  dc_offered_ip : Z;
  dc_server_ip : Z;
  dc_lease_time : Z;
  dc_renewal_time : Z;
  dc_rebind_time : Z;
  dc_discover_count : Z;
  dc_request_count : Z
}.
Record dhcp := mk_dhcp { dhcp_ctx : dhcp_context_t; dhcp_initialized : bool; dhcp_xid_counter : Z }.

Definition with_ctx (d : dhcp) (c : dhcp_context_t) : dhcp := mk_dhcp c d.(dhcp_initialized) d.(dhcp_xid_counter).
Definition set_dhcp_state (st : dhcp_state_t) (c : dhcp_context_t) : dhcp_context_t :=
  mk_dhcp_ctx c.(dc_netif) st c.(dc_xid) c.(dc_offered_ip) c.(dc_server_ip) c.(dc_lease_time) c.(dc_renewal_time)
    c.(dc_rebind_time) c.(dc_discover_count) c.(dc_request_count).

Definition dhcp_generate_xid (d : dhcp) : Z * dhcp :=
  let x := u32 (d.(dhcp_xid_counter) * 1103515245 + 12345) in
  (x, mk_dhcp d.(dhcp_ctx) d.(dhcp_initialized) x).

(** ** Building packets: the bytes written so far, in order *)
Definition dhcp_build_header (netif : NetInterface) (msg_type xid : Z) : list Z :=
  dhcp_header_bytes (mk_dhcp_header DHCP_BOOTREQUEST DHCP_HTYPE_ETH DHCP_HLEN_ETH 0 (htonl xid) 0 (htons 0x8000)
    [0; 0; 0; 0] [0; 0; 0; 0] [0; 0; 0; 0] [0; 0; 0; 0]
    (bytes_at netif.(ni_mac_addr) 0 6 ++ replicate 10 0) (replicate 64 0) (replicate 128 0))
  ++ [0x63; 0x82; 0x53; 0x63] ++ [DHCP_OPT_MESSAGE_TYPE; 1; msg_type].
Definition dhcp_add_param_request (packet : list Z) : list Z :=
  packet ++ [DHCP_OPT_PARAM_REQUEST; 4; DHCP_OPT_SUBNET_MASK; DHCP_OPT_ROUTER; DHCP_OPT_DNS; DHCP_OPT_LEASE_TIME].
Definition dhcp_finalize_options (packet : list Z) : list Z := packet ++ [DHCP_OPT_END].
(** [while (total_len < 300) dhcp_packet[total_len++] = 0] *)
Definition pad_300 (packet : list Z) : list Z := packet ++ replicate (Z.to_nat (300 - zlen packet)) 0.

Definition raw_ip_header (dhcp_len : Z) : ipv4_header_t :=
  let h checksum := mk_ipv4 0x45 0 (htons (u16 (IPV4_HEADER_SIZE + UDP_HEADER_SIZE + dhcp_len))) (htons 0) 0 64
                      IP_PROTO_UDP checksum [0; 0; 0; 0] [255; 255; 255; 255] in
  h (ip_checksum (ipv4_bytes (h 0))).

Definition dhcp_send_raw (netif : NetInterface) (dhcp_data : list Z) (n : net) : net :=
  let dhcp_len := zlen dhcp_data in
  let packet :=
    eth_bytes (mk_eth [0xFF; 0xFF; 0xFF; 0xFF; 0xFF; 0xFF] (bytes_at netif.(ni_mac_addr) 0 6) (htons ETH_TYPE_IPV4))
    ++ ipv4_bytes (raw_ip_header dhcp_len)
    ++ udp_bytes (mk_udp (htons DHCP_CLIENT_PORT) (htons DHCP_SERVER_PORT) (htons (u16 (UDP_HEADER_SIZE + dhcp_len))) 0)
    ++ dhcp_data in
  let packet := packet ++ replicate (Z.to_nat (60 - zlen packet)) 0 in
  if netif.(ni_send) then with_tx n packet else n.

(** ** Client *)
Definition zero_ctx : dhcp_context_t := mk_dhcp_ctx None DHCP_STATE_INIT 0 0 0 0 0 0 0 0.
Definition dhcp_init (netif : Z) (d : dhcp) : dhcp :=
  mk_dhcp (mk_dhcp_ctx (Some netif) DHCP_STATE_INIT 0 0 0 0 0 0 0 0) true d.(dhcp_xid_counter).

Definition is_ctx_netif (d : dhcp) (netif : Z) : bool :=
  match d.(dhcp_ctx).(dc_netif) with Some i => i =? netif | None => false end.

Definition discover_packet (netif : NetInterface) (xid : Z) : list Z :=
  pad_300 (dhcp_finalize_options (dhcp_add_param_request (dhcp_build_header netif DHCPDISCOVER xid))).

Definition dhcp_discover (netif : Z) (s : net * dhcp) : net * dhcp :=
  let '(n, d) := s in
  let d := if negb d.(dhcp_initialized) || negb (is_ctx_netif d netif) then dhcp_init netif d else d in
  let '(xid, d) := dhcp_generate_xid d in
  let c := d.(dhcp_ctx) in
  let d := with_ctx d (mk_dhcp_ctx c.(dc_netif) DHCP_STATE_SELECTING xid c.(dc_offered_ip) c.(dc_server_ip)
             c.(dc_lease_time) c.(dc_renewal_time) c.(dc_rebind_time) (u32 (c.(dc_discover_count) + 1))
             c.(dc_request_count)) in
  match rd n.(netif_list) netif with
  | Some f => (dhcp_send_raw f (discover_packet f xid) n, d)
  | None => (n, d)
  end.

Definition request_packet (netif : NetInterface) (xid offered_ip server_ip : Z) : list Z :=
  pad_300 (dhcp_finalize_options (dhcp_add_param_request
    (dhcp_build_header netif DHCPREQUEST xid
     ++ [DHCP_OPT_REQUESTED_IP; 4] ++ ip_u32_to_bytes offered_ip
     ++ [DHCP_OPT_SERVER_ID; 4] ++ ip_u32_to_bytes server_ip))).

Definition dhcp_send_request (netif : NetInterface) (s : net * dhcp) : net * dhcp :=
  let '(n, d) := s in
  let c := d.(dhcp_ctx) in
  let d := with_ctx d (mk_dhcp_ctx c.(dc_netif) DHCP_STATE_REQUESTING c.(dc_xid) c.(dc_offered_ip) c.(dc_server_ip)
             c.(dc_lease_time) c.(dc_renewal_time) c.(dc_rebind_time) c.(dc_discover_count)
             (u32 (c.(dc_request_count) + 1))) in
  (dhcp_send_raw netif (request_packet netif c.(dc_xid) c.(dc_offered_ip) c.(dc_server_ip)) n, d).

(** ** Options *)
Record dhcp_options := mk_options {
  op_msg_type : Z; op_server_ip : Z; op_subnet_mask : Z; op_router : Z; op_dns : Z; op_lease_time : Z
}.
Definition no_options : dhcp_options := mk_options 0 0 0 0 0 0.

(** The [switch]: [i] is the position of the option's data. *)
Definition apply_option (options : list Z) (opt opt_len i : Z) (r : dhcp_options) : dhcp_options :=
  let ip := ip_bytes_to_u32 (bytes_at options i 4) in
  if opt =? DHCP_OPT_MESSAGE_TYPE then
    (if 1 <=? opt_len
     then mk_options (rd0 options i) r.(op_server_ip) r.(op_subnet_mask) r.(op_router) r.(op_dns) r.(op_lease_time)
     else r)
  else if opt =? DHCP_OPT_SERVER_ID then
    (if 4 <=? opt_len
     then mk_options r.(op_msg_type) ip r.(op_subnet_mask) r.(op_router) r.(op_dns) r.(op_lease_time) else r)
  else if opt =? DHCP_OPT_SUBNET_MASK then
    (if 4 <=? opt_len
     then mk_options r.(op_msg_type) r.(op_server_ip) ip r.(op_router) r.(op_dns) r.(op_lease_time) else r)
  else if opt =? DHCP_OPT_ROUTER then
    (if 4 <=? opt_len
     then mk_options r.(op_msg_type) r.(op_server_ip) r.(op_subnet_mask) ip r.(op_dns) r.(op_lease_time) else r)
  else if opt =? DHCP_OPT_DNS then
    (if 4 <=? opt_len
     then mk_options r.(op_msg_type) r.(op_server_ip) r.(op_subnet_mask) r.(op_router) ip r.(op_lease_time) else r)
  else if opt =? DHCP_OPT_LEASE_TIME then
    (if 4 <=? opt_len
     then mk_options r.(op_msg_type) r.(op_server_ip) r.(op_subnet_mask) r.(op_router) r.(op_dns)
            (ntohl (rd32 options i)) else r)
  else r.

(** [while (i < len)]; every round consumes at least one byte. *)
Fixpoint parse_loop (fuel : nat) (options : list Z) (i len : Z) (r : dhcp_options) : dhcp_options :=
  match fuel with
  | O => r
  | S fuel' =>
      if i <? len then
        let opt := rd0 options i in
        let i := i + 1 in
        if opt =? DHCP_OPT_PAD then parse_loop fuel' options i len r
        else if opt =? DHCP_OPT_END then r
        else if len <=? i then r
        else
          let opt_len := rd0 options i in
          let i := i + 1 in
          if len <? i + opt_len then r
          else parse_loop fuel' options (i + opt_len) len (apply_option options opt opt_len i r)
      else r
  end.
Definition dhcp_parse_options (options : list Z) (len : Z) : dhcp_options :=
  parse_loop (Z.to_nat len) options 0 len no_options.

(** ** Replies *)
Definition dhcp_handle_offer (netif : NetInterface) (h : dhcp_header_t) (options : list Z) (opt_len : Z)
    (s : net * dhcp) : net * dhcp :=
  let '(n, d) := s in
  let r := dhcp_parse_options options opt_len in
  if negb (r.(op_msg_type) =? DHCPOFFER) then s
  else
    let c := d.(dhcp_ctx) in
    let d := with_ctx d (mk_dhcp_ctx c.(dc_netif) c.(dc_state) c.(dc_xid) (ip_bytes_to_u32 h.(dhcp_yiaddr))
               r.(op_server_ip) c.(dc_lease_time) c.(dc_renewal_time) c.(dc_rebind_time) c.(dc_discover_count)
               c.(dc_request_count)) in
    dhcp_send_request netif (n, d).

Definition configure (f : NetInterface) (ip netmask gateway dns : Z) : NetInterface :=
  mk_netif f.(ni_name) f.(ni_mac_addr) ip netmask gateway dns f.(ni_flags) f.(ni_send) f.(ni_packets_tx)
    f.(ni_packets_rx) f.(ni_bytes_tx) f.(ni_bytes_rx) f.(ni_errors).

Definition dhcp_handle_ack (i : Z) (netif : NetInterface) (h : dhcp_header_t) (options : list Z) (opt_len : Z)
    (s : net * dhcp) : net * dhcp :=
  let '(n, d) := s in
  let r := dhcp_parse_options options opt_len in
  let c := d.(dhcp_ctx) in
  if r.(op_msg_type) =? DHCPNAK then (n, with_ctx d (set_dhcp_state DHCP_STATE_INIT c))
  else if negb (r.(op_msg_type) =? DHCPACK) then s
  else
    let d := with_ctx d (mk_dhcp_ctx c.(dc_netif) DHCP_STATE_BOUND c.(dc_xid) c.(dc_offered_ip) c.(dc_server_ip)
               r.(op_lease_time) c.(dc_renewal_time) c.(dc_rebind_time) c.(dc_discover_count)
               c.(dc_request_count)) in
    let f := configure netif (ip_bytes_to_u32 h.(dhcp_yiaddr)) r.(op_subnet_mask) r.(op_router) r.(op_dns) in
    let n := with_netifs n (wr n.(netif_list) i f) n.(netif_count) in
    (route_update_from_netif (Some f) n, d).

(** Called with a NULL interface by UDP: the default interface, the first of
    the list. *)
Definition dhcp_handle (netif : option Z) (data : list Z) (len : Z) (s : net * dhcp) : net * dhcp :=
  let '(n, d) := s in
  if negb d.(dhcp_initialized) then s
  else
    let i := default 0 netif in
    match rd n.(netif_list) i with
    | None => s
    | Some f =>
        if negb (is_ctx_netif d i) then s
        else if len <? DHCP_HEADER_SIZE + 4 then s
        else
          let h := dhcp_header_cast data in
          if negb (h.(dhcp_op) =? DHCP_BOOTREPLY) then s
          else if negb (ntohl h.(dhcp_xid) =? d.(dhcp_ctx).(dc_xid)) then s
          else if negb ((rd0 data 236 =? 0x63) && (rd0 data 237 =? 0x82) && (rd0 data 238 =? 0x53)
                        && (rd0 data 239 =? 0x63)) then s
          else
            let options := drop 240 data in
            let opt_len := len - DHCP_HEADER_SIZE - 4 in
            match d.(dhcp_ctx).(dc_state) with
            | DHCP_STATE_SELECTING => dhcp_handle_offer f h options opt_len s
            | DHCP_STATE_REQUESTING | DHCP_STATE_RENEWING | DHCP_STATE_REBINDING =>
                dhcp_handle_ack i f h options opt_len s
            | DHCP_STATE_INIT | DHCP_STATE_BOUND => s
            end
    end.

Definition dhcp_release (netif : Z) (s : net * dhcp) : net * dhcp :=
  let '(n, d) := s in
  if negb d.(dhcp_initialized) || negb (is_ctx_netif d netif) then s
  else
    match rd n.(netif_list) netif with
    | Some f => (with_netifs n (wr n.(netif_list) netif (configure f 0 0 0 0)) n.(netif_count),
                 with_ctx d (set_dhcp_state DHCP_STATE_INIT d.(dhcp_ctx)))
    | None => s
    end.

Definition dhcp_get_state (netif : Z) (d : dhcp) : dhcp_state_t :=
  if negb d.(dhcp_initialized) || negb (is_ctx_netif d netif) then DHCP_STATE_INIT else d.(dhcp_ctx).(dc_state).
Definition dhcp_is_bound (netif : Z) (d : dhcp) : bool :=
  bool_decide (dhcp_get_state netif d = DHCP_STATE_BOUND).

(** ** Options as a list *)
(** A pad byte, or an option with its data. *)
Definition dhcp_option : Type := option (Z * list Z).
Definition option_ok (o : dhcp_option) : Prop :=
  match o with None => True | Some (t, v) => 1 <= t <= 254 /\ zlen v <= 255 end.
Definition option_bytes (o : dhcp_option) : list Z :=
  match o with None => [DHCP_OPT_PAD] | Some (t, v) => t :: zlen v :: v end.
Fixpoint options_bytes (os : list dhcp_option) : list Z :=
  match os with [] => [] | o :: os' => option_bytes o ++ options_bytes os' end.
(** What a list of options means: each option read by itself, later ones
    overriding earlier ones. *)
Definition option_effect (r : dhcp_options) (o : dhcp_option) : dhcp_options :=
  match o with None => r | Some (t, v) => apply_option v t (zlen v) 0 r end.
Definition options_meaning (os : list dhcp_option) : dhcp_options := fold_left option_effect os no_options.

Lemma rd0_in l pre post i : 0 <= i < zlen l -> rd0 (pre ++ l ++ post) (zlen pre + i) = rd0 l i.
Proof. intros Hi. rewrite rd0_app_r by lia. unfold rd0. by rewrite rd_app_l by lia. Qed.

Lemma apply_option_in v pre post t r :
  apply_option (pre ++ v ++ post) t (zlen v) (zlen pre) r = apply_option v t (zlen v) 0 r.
Proof.
  assert (H1 : 1 <= zlen v -> rd0 (pre ++ v ++ post) (zlen pre) = rd0 v 0).
  { intros. rewrite <- (rd0_in v pre post) by lia. by rewrite Z.add_0_r. }
  assert (H4 : 4 <= zlen v -> bytes_at (pre ++ v ++ post) (zlen pre) 4 = bytes_at v 0 4 /\
                              rd32 (pre ++ v ++ post) (zlen pre) = rd32 v 0).
  { intros. unfold bytes_at, rd32. cbn [seq fmap list_fmap]. rewrite H1 by lia.
    rewrite !rd0_in by lia. done. }
  unfold apply_option. repeat case_if; try done; first [by rewrite H1 by lia|destruct H4 as [E1 E2]; [lia|]];
    by rewrite ?E1, ?E2.
Qed.

(** Fuel: one round per byte is enough, and more changes nothing. *)
Lemma parse_fuel fuel options i len r :
  Forall is_u8 options -> 0 <= i -> (Z.to_nat (len - i) <= fuel)%nat ->
  parse_loop fuel options i len r = parse_loop (Z.to_nat (len - i)) options i len r.
Proof.
  intros Hu. revert i r. induction fuel as [fuel IH] using lt_wf_ind. intros i r Hi Hf.
  destruct (decide (len <= i)) as [Hle|Hlt].
  - replace (Z.to_nat (len - i)) with 0%nat by lia. destruct fuel; [done|]. cbn [parse_loop].
    destruct (i <? len) eqn:E; bool_hyps; [lia|done].
  - replace (Z.to_nat (len - i)) with (S (Z.to_nat (len - (i + 1)))) by lia.
    destruct fuel as [|fuel]; [lia|]. cbn [parse_loop]. destruct (i <? len); [|done].
    destruct (_ =? DHCP_OPT_PAD); [apply IH; lia|]. destruct (_ =? DHCP_OPT_END); [done|].
    destruct (len <=? i + 1); [done|]. destruct (_ <? _) eqn:E; [done|]. bool_hyps.
    pose proof (rd0_u8 options (i + 1) Hu) as Hb. destruct Hb as [Hb _].
    rewrite (IH fuel) by lia. symmetry. apply IH; lia.
Qed.

Lemma parse_options_bytes os fuel pre post len r :
  Forall option_ok os -> (length os < fuel)%nat -> zlen pre + zlen (options_bytes os) < len ->
  parse_loop fuel (pre ++ options_bytes os ++ DHCP_OPT_END :: post) (zlen pre) len r = fold_left option_effect os r.
Proof.
  revert fuel pre r. induction os as [|o os IH]; intros fuel pre r Ho Hf Hl;
    (destruct fuel as [|fuel]; [cbn in Hf; lia|]); cbn [parse_loop].
  - cbn [options_bytes app] in *. change (zlen []) with 0 in Hl. destruct (_ <? _) eqn:E; bool_hyps; [|lia].
    by rewrite rd0_mid.
  - apply list.Forall_cons in Ho as [Hok Ho]. cbn [options_bytes fold_left length] in *. rewrite zlen_app in Hl.
    pose proof (zlen_nonneg (options_bytes os)) as Hpos.
    destruct o as [[t v]|]; cbn [option_bytes option_effect] in *.
    + rewrite !zlen_cons in Hl. pose proof (zlen_nonneg v). destruct (_ <? _) eqn:E; bool_hyps; [|lia].
      cbn [app]. rewrite rd0_mid. destruct Hok as [Ht Hv].
      destruct (t =? DHCP_OPT_PAD) eqn:E1; bool_hyps; [unfold DHCP_OPT_PAD in *; lia|].
      destruct (t =? DHCP_OPT_END) eqn:E2; bool_hyps; [unfold DHCP_OPT_END in *; lia|].
      destruct (len <=? _) eqn:E3; bool_hyps; [lia|].
      specialize (IH fuel (pre ++ t :: zlen v :: v)). rewrite zlen_app, !zlen_cons in IH.
      pose proof (apply_option_in v (pre ++ [t; zlen v]) (options_bytes os ++ DHCP_OPT_END :: post) t r) as Ha.
      rewrite zlen_app in Ha. change (zlen [t; zlen v]) with 2 in Ha.
      rewrite <- !app_assoc in IH, Ha. cbn [app] in IH, Ha. rewrite <- !app_assoc.
      assert (Elen : rd0 (pre ++ t :: zlen v :: v ++ options_bytes os ++ DHCP_OPT_END :: post) (zlen pre + 1) = zlen v)
        by (by rewrite rd0_app_r by lia).
      rewrite Elen. destruct (len <? zlen pre + 1 + 1 + zlen v) eqn:E4; bool_hyps; [lia|].
      replace (zlen pre + 1 + 1) with (zlen pre + 2) by lia. rewrite Ha.
      replace (zlen pre + 2 + zlen v) with (zlen pre + (1 + (1 + zlen v))) by lia. apply IH; [done|lia|lia].
    + change (zlen [DHCP_OPT_PAD]) with 1 in Hl. destruct (_ <? _) eqn:E; bool_hyps; [|lia]. cbn [app].
      rewrite rd0_mid. cbn [Z.eqb DHCP_OPT_PAD]. specialize (IH fuel (pre ++ [DHCP_OPT_PAD])).
      rewrite zlen_app in IH. change (zlen [DHCP_OPT_PAD]) with 1 in IH. rewrite <- !app_assoc in IH. cbn [app] in IH.
      apply IH; [done|lia|lia].
Qed.

Lemma options_count os : Z.of_nat (length os) <= zlen (options_bytes os).
Proof.
  induction os as [|[[t v]|] os IH]; [done|..]; cbn [length options_bytes option_bytes]; rewrite zlen_app, ?zlen_cons;
    [pose proof (zlen_nonneg v)|change (zlen []) with 0]; lia.
Qed.

Lemma parse_options_meaning os post len :
  Forall option_ok os -> zlen (options_bytes os) < len ->
  dhcp_parse_options (options_bytes os ++ DHCP_OPT_END :: post) len = options_meaning os.
Proof.
  intros Ho Hl. pose proof (options_count os). unfold dhcp_parse_options.
  apply (parse_options_bytes os _ [] post); [done|lia|done].
Qed.

(** ** Replies of a server *)
Definition header_ok (h : dhcp_header_t) : Prop :=
  is_u32 h.(dhcp_xid) /\ is_ip h.(dhcp_ciaddr) /\ is_ip h.(dhcp_yiaddr) /\ is_ip h.(dhcp_siaddr) /\
  is_ip h.(dhcp_giaddr) /\ length h.(dhcp_chaddr) = 16%nat /\ length h.(dhcp_sname) = 64%nat /\
  length h.(dhcp_file) = 128%nat.

Definition dhcp_reply (h : dhcp_header_t) (os : list dhcp_option) (post : list Z) : list Z :=
  dhcp_header_bytes h ++ [0x63; 0x82; 0x53; 0x63] ++ options_bytes os ++ DHCP_OPT_END :: post.

Lemma dhcp_header_length h : header_ok h -> length (dhcp_header_bytes h) = 236%nat.
Proof.
  intros (_ & [H1 _] & [H2 _] & [H3 _] & [H4 _] & H5 & H6 & H7). unfold dhcp_header_bytes.
  rewrite !length_app, H1, H2, H3, H4, H5, H6, H7. done.
Qed.

Lemma dhcp_header_cast_fields h rest :
  header_ok h ->
  let c := dhcp_header_cast (dhcp_header_bytes h ++ rest) in
  c.(dhcp_op) = h.(dhcp_op) /\ c.(dhcp_xid) = h.(dhcp_xid) /\ c.(dhcp_yiaddr) = h.(dhcp_yiaddr).
Proof.
  intros (Hx & H1 & H2 & _). apply ip_explode in H1 as (? & ? & ? & ? & E1). apply ip_explode in H2 as (? & ? & ? & ? & E2).
  destruct h as [o ht hl hp xid sc fl ci yi si gi ch sn fi]. cbn [dhcp_ciaddr dhcp_yiaddr dhcp_xid] in *. subst ci yi.
  unfold dhcp_header_bytes. cbn [dhcp_op dhcp_htype dhcp_hlen dhcp_hops dhcp_xid dhcp_secs dhcp_flags dhcp_ciaddr
    dhcp_yiaddr dhcp_siaddr dhcp_giaddr dhcp_chaddr dhcp_sname dhcp_file]. rewrite <- !app_assoc.
  set (tail := si ++ _). clearbody tail. unfold dhcp_header_cast. cbn [dhcp_op dhcp_xid dhcp_yiaddr].
  split; [done|]. split; [|done]. etransitivity; [|by apply rd32_le32]. reflexivity.
Qed.

(** What a reply that passes the checks makes the client do. *)
Lemma handle_reply n d f h os post len :
  header_ok h -> Forall option_ok os -> h.(dhcp_op) = DHCP_BOOTREPLY ->
  d.(dhcp_initialized) = true -> is_ctx_netif d 0 = true -> rd n.(netif_list) 0 = Some f ->
  ntohl h.(dhcp_xid) = d.(dhcp_ctx).(dc_xid) -> 240 + zlen (options_bytes os) < len ->
  exists c, c.(dhcp_yiaddr) = h.(dhcp_yiaddr) /\
  exists options opt_len, dhcp_parse_options options opt_len = options_meaning os /\
  dhcp_handle None (dhcp_reply h os post) len (n, d) =
  match d.(dhcp_ctx).(dc_state) with
  | DHCP_STATE_SELECTING => dhcp_handle_offer f c options opt_len (n, d)
  | DHCP_STATE_REQUESTING | DHCP_STATE_RENEWING | DHCP_STATE_REBINDING =>
      dhcp_handle_ack 0 f c options opt_len (n, d)
  | DHCP_STATE_INIT | DHCP_STATE_BOUND => (n, d)
  end.
Proof.
  intros Hh Ho Hop Hi Hc Hf Hx Hl. pose proof (zlen_nonneg (options_bytes os)).
  pose proof (dhcp_header_length h Hh) as Hlen.
  set (rest := [0x63; 0x82; 0x53; 0x63] ++ options_bytes os ++ DHCP_OPT_END :: post).
  destruct (dhcp_header_cast_fields h rest Hh) as (F1 & F2 & F3).
  exists (dhcp_header_cast (dhcp_header_bytes h ++ rest)). split; [done|].
  exists (options_bytes os ++ DHCP_OPT_END :: post), (len - DHCP_HEADER_SIZE - 4).
  split; [apply parse_options_meaning; [done|unfold DHCP_HEADER_SIZE; lia]|].
  unfold dhcp_handle, dhcp_reply. fold rest. cbn [default from_option id]. rewrite Hi, Hf, Hc, F1, F2, Hop, Hx.
  cbn [negb]. destruct (len <? _) eqn:E; bool_hyps; [unfold DHCP_HEADER_SIZE in E; lia|].
  rewrite !Z.eqb_refl. cbn [negb].
  assert (Hz : zlen (dhcp_header_bytes h) = 236) by (unfold zlen; by rewrite Hlen).
  assert (Hr : forall k, 0 <= k -> rd0 (dhcp_header_bytes h ++ rest) (236 + k) = rd0 rest k)
    by (intros; rewrite <- Hz; by apply rd0_app_r).
  change 237 with (236 + 1). change 238 with (236 + 2). change 239 with (236 + 3). change 236 with (236 + 0) at 1.
  rewrite !Hr by lia.
  change ((rd0 rest 0 =? 99) && (rd0 rest 1 =? 130) && (rd0 rest 2 =? 83) && (rd0 rest 3 =? 99)) with true. cbn [negb].
  replace (drop 240 (dhcp_header_bytes h ++ rest)) with (options_bytes os ++ DHCP_OPT_END :: post); [done|].
  rewrite (drop_app_ge _ _ 240) by (rewrite Hlen; lia). by rewrite Hlen.
Qed.

Lemma discover_spec n d f :
  rd n.(netif_list) 0 = Some f -> f.(ni_send) = true ->
  let s := dhcp_discover 0 (n, d) in
  let c := s.2.(dhcp_ctx) in
  s.1 = dhcp_send_raw f (discover_packet f c.(dc_xid)) n /\
  c.(dc_xid) = u32 (d.(dhcp_xid_counter) * 1103515245 + 12345) /\
  s.2.(dhcp_initialized) = true /\ is_ctx_netif s.2 0 = true /\ c.(dc_state) = DHCP_STATE_SELECTING.
Proof.
  intros Hf Hs. unfold dhcp_discover. rewrite Hf.
  destruct (dhcp_initialized d) eqn:E1; [destruct (is_ctx_netif d 0) eqn:E2|]; cbn [negb orb]; by split_and!.
Qed.

Lemma send_raw_keeps f data n : (dhcp_send_raw f data n).(netif_list) = n.(netif_list).
Proof. unfold dhcp_send_raw. by destruct (ni_send f). Qed.

(** ** Properties *)
Definition demo_dhcp : dhcp := mk_dhcp zero_ctx false 0x12345678.
Definition demo_reply_header (xid : Z) : dhcp_header_t :=
  mk_dhcp_header DHCP_BOOTREPLY 1 6 0 (htonl xid) 0 0 [0; 0; 0; 0] [10; 0; 2; 15] [0; 0; 0; 0] [0; 0; 0; 0]
    (replicate 16 0) (replicate 64 0) (replicate 128 0).
(** OFFER from 10.0.2.2, and the ACK with mask 255.255.255.0 and router
    10.0.2.2. *)
Definition demo_offer : list dhcp_option :=
  [Some (DHCP_OPT_MESSAGE_TYPE, [DHCPOFFER]); None; Some (DHCP_OPT_SERVER_ID, [10; 0; 2; 2])].
Definition demo_ack : list dhcp_option :=
  [Some (DHCP_OPT_MESSAGE_TYPE, [DHCPACK]); Some (DHCP_OPT_SUBNET_MASK, [255; 255; 255; 0]);
   Some (DHCP_OPT_ROUTER, [10; 0; 2; 2]); Some (12, [97; 98])].

Lemma demo_reply_header_ok xid : is_u32 xid -> header_ok (demo_reply_header xid).
Proof. intros H. repeat split; try done; try (by repeat constructor); by apply htonl_range. Qed.
Lemma demo_options_ok : Forall option_ok demo_offer /\ Forall option_ok demo_ack.
Proof. split; repeat constructor; done. Qed.

Section properties.



(** A lease is obtained: DISCOVER puts the client in SELECTING under a
    fresh transaction id; an OFFER with that id makes it send a REQUEST for
    the offered address naming the server; an ACK with that id binds it,
    writes address, mask, gateway and DNS server of the ACK to the interface,
    and adds its routes. *)
Theorem dhcp_lease n d f os1 os2 post1 post2 len1 len2 h1 h2 :
  rd n.(netif_list) 0 = Some f -> f.(ni_send) = true ->
  let s1 := dhcp_discover 0 (n, d) in
  let xid := s1.2.(dhcp_ctx).(dc_xid) in
  header_ok h1 -> h1.(dhcp_op) = DHCP_BOOTREPLY -> ntohl h1.(dhcp_xid) = xid -> Forall option_ok os1 ->
  240 + zlen (options_bytes os1) < len1 -> (options_meaning os1).(op_msg_type) = DHCPOFFER ->
  header_ok h2 -> h2.(dhcp_op) = DHCP_BOOTREPLY -> ntohl h2.(dhcp_xid) = xid -> Forall option_ok os2 ->
  240 + zlen (options_bytes os2) < len2 -> (options_meaning os2).(op_msg_type) = DHCPACK ->
  xid = u32 (d.(dhcp_xid_counter) * 1103515245 + 12345) /\
  s1.1 = dhcp_send_raw f (discover_packet f xid) n /\
  let s2 := dhcp_handle None (dhcp_reply h1 os1 post1) len1 s1 in
  s2.1 = dhcp_send_raw f (request_packet f xid (ip_bytes_to_u32 h1.(dhcp_yiaddr)) (options_meaning os1).(op_server_ip))
           s1.1 /\
  dhcp_is_bound 0 s2.2 = false /\
  let s3 := dhcp_handle None (dhcp_reply h2 os2 post2) len2 s2 in
  let m := options_meaning os2 in
  let f' := configure f (ip_bytes_to_u32 h2.(dhcp_yiaddr)) m.(op_subnet_mask) m.(op_router) m.(op_dns) in
  dhcp_is_bound 0 s3.2 = true /\ s3.2.(dhcp_ctx).(dc_lease_time) = m.(op_lease_time) /\
  s3.1 = route_update_from_netif (Some f') (with_netifs s2.1 (wr n.(netif_list) 0 f') s2.1.(netif_count)).
Proof.
  intros Hf Hs s1 xid A1 A2 A3 A4 A5 A6 B1 B2 B3 B4 B5 B6.
  destruct (discover_spec n d f Hf Hs) as (E1 & Ex & Ei & Ec & Es). fold s1 in E1, Ex, Ei, Ec, Es. fold xid in Ex.
  split; [exact Ex|]. split; [exact E1|].
  assert (Hn1 : s1.1.(netif_list) = n.(netif_list)) by (rewrite E1; apply send_raw_keeps).
  clearbody s1. destruct s1 as [n1 d1]. cbn [fst snd] in *.
  destruct (handle_reply n1 d1 f h1 os1 post1 len1) as (c1 & Y1 & o1 & l1 & P1 & R1); try done; [by rewrite Hn1|].
  rewrite R1, Es. unfold dhcp_handle_offer. rewrite P1, A6, Y1. cbn [negb Z.eqb DHCPOFFER Pos.eqb].
  unfold dhcp_send_request. cbn [with_ctx dhcp_ctx dc_xid dc_offered_ip dc_server_ip fst]. split; [done|].
  split; [unfold dhcp_is_bound, dhcp_get_state; by destruct (_ || _)|].
  match goal with |- context [dhcp_handle None (dhcp_reply h2 os2 post2) len2 (?a, ?b)] => set (n2 := a); set (d2 := b) end.
  assert (Hn2 : n2.(netif_list) = n.(netif_list)) by (unfold n2; by rewrite send_raw_keeps).
  destruct (handle_reply n2 d2 f h2 os2 post2 len2) as (c2 & Y2 & o2 & l2 & P2 & R2); try done; [by rewrite Hn2|].
  rewrite R2. change (dc_state (dhcp_ctx d2)) with DHCP_STATE_REQUESTING. cbv iota.
  unfold dhcp_handle_ack. rewrite P2, B6, Y2. cbn [Z.eqb DHCPACK DHCPNAK Pos.eqb negb fst snd].
  split; [|split; [done|by rewrite Hn2]].
  unfold dhcp_is_bound, dhcp_get_state. cbn [with_ctx dhcp_initialized dhcp_ctx dc_state].
  change (dhcp_initialized d2) with (dhcp_initialized d1). rewrite Ei.
  match goal with |- context [is_ctx_netif ?x 0] => change (is_ctx_netif x 0) with (is_ctx_netif d1 0) end.
  by rewrite Ec.
Qed.

Lemma dhcp_lease_witness :
  let s1 := dhcp_discover 0 (demo_net, demo_dhcp) in
  let xid := s1.2.(dhcp_ctx).(dc_xid) in
  let h := demo_reply_header (u32 (0x12345678 * 1103515245 + 12345)) in
  xid = u32 (demo_dhcp.(dhcp_xid_counter) * 1103515245 + 12345) /\
  s1.1 = dhcp_send_raw demo_if (discover_packet demo_if xid) demo_net /\
  let s2 := dhcp_handle None (dhcp_reply h demo_offer []) 300 s1 in
  s2.1 = dhcp_send_raw demo_if (request_packet demo_if xid (ip_bytes_to_u32 h.(dhcp_yiaddr))
           (options_meaning demo_offer).(op_server_ip)) s1.1 /\
  dhcp_is_bound 0 s2.2 = false /\
  let s3 := dhcp_handle None (dhcp_reply h demo_ack []) 300 s2 in
  let m := options_meaning demo_ack in
  let f' := configure demo_if (ip_bytes_to_u32 h.(dhcp_yiaddr)) m.(op_subnet_mask) m.(op_router) m.(op_dns) in
  dhcp_is_bound 0 s3.2 = true /\ s3.2.(dhcp_ctx).(dc_lease_time) = m.(op_lease_time) /\
  s3.1 = route_update_from_netif (Some f') (with_netifs s2.1 (wr demo_net.(netif_list) 0 f') s2.1.(netif_count)).
Proof.
  pose proof (demo_reply_header_ok _ (u32_range (0x12345678 * 1103515245 + 12345))) as Hh.
  apply (dhcp_lease demo_net demo_dhcp demo_if demo_offer demo_ack [] [] 300 300 (demo_reply_header _)
    (demo_reply_header _)); try done; try exact Hh; try apply demo_options_ok; by vm_compute.
Defined.
End properties.
