(* ===== verification/Tcp.v ===== *)
(** TCP (src/net/l4/tcp.c, src/net/l4/tcp.h): the socket table, segments and
    their checksum, the state machine run on every received segment, and the
    socket calls.

    A socket pointer is its index in the table.  The table is replaced by a
    larger copy when it grows; [tcp_gen] counts the replacements, and
    [dangling] records that a pointer into a replaced (freed) table was used.
    Wake-ups of waiting threads are recorded in [wakes].  [kmalloc_ok] tells
    whether the allocation of a table of the given capacity succeeds, and
    [ticks] is the value of [timer_get_ticks]. *)
From S2P Require Import Prelude NetBase Route Arp Ipv4.

(** ** Data *)
Inductive tcp_state_t :=
| TCP_STATE_CLOSED | TCP_STATE_LISTEN | TCP_STATE_SYN_SENT | TCP_STATE_SYN_RCVD
| TCP_STATE_ESTABLISHED | TCP_STATE_FIN_WAIT_1 | TCP_STATE_FIN_WAIT_2 | TCP_STATE_CLOSE_WAIT
| TCP_STATE_CLOSING | TCP_STATE_LAST_ACK | TCP_STATE_TIME_WAIT.

#[export] Instance tcp_state_eq_dec : EqDecision tcp_state_t.
Proof. solve_decision. Defined.

Definition is_state (a b : tcp_state_t) : bool := bool_decide (a = b).

Definition TCP_INITIAL_SOCKETS : Z := 8.
Definition TCP_MAX_SOCKETS : Z := 256.
Definition TCP_RECV_BUFFER_SIZE : Z := 4096.
Definition TCP_WINDOW_SIZE : Z := 4096.
Definition TCP_FLAG_FIN : Z := 0x01.
Definition TCP_FLAG_SYN : Z := 0x02.
Definition TCP_FLAG_RST : Z := 0x04.
Definition TCP_FLAG_PSH : Z := 0x08.
Definition TCP_FLAG_ACK : Z := 0x10.

Record tcp_socket_t := mk_sock {
  sk_state : tcp_state_t;
  sk_in_use : bool;
  sk_local_port : Z;
  sk_remote_port : Z;
  sk_remote_ip : list Z;
  sk_seq : Z;
  sk_ack : Z;
  sk_window : Z;
  sk_flags : Z;
  sk_recv_buffer : list Z;
  sk_recv_head : Z;
  sk_recv_tail : Z;
  sk_recv_count : Z
}.

Inductive tcp_queue := WQ_STATE | WQ_RECV | WQ_ACCEPT.

Record tcp := mk_tcp_state {
  tcp_sockets : list tcp_socket_t;
  tcp_socket_count : Z;
  tcp_gen : Z;
  dangling : bool;
  wakes : list (Z * tcp_queue)
}.

Definition tcp_socket_capacity (t : tcp) : Z := zlen t.(tcp_sockets).

(** Field updates. *)
Definition set_state (st : tcp_state_t) (k : tcp_socket_t) : tcp_socket_t :=
  mk_sock st k.(sk_in_use) k.(sk_local_port) k.(sk_remote_port) k.(sk_remote_ip) k.(sk_seq) k.(sk_ack)
    k.(sk_window) k.(sk_flags) k.(sk_recv_buffer) k.(sk_recv_head) k.(sk_recv_tail) k.(sk_recv_count).
Definition set_in_use (b : bool) (k : tcp_socket_t) : tcp_socket_t :=
  mk_sock k.(sk_state) b k.(sk_local_port) k.(sk_remote_port) k.(sk_remote_ip) k.(sk_seq) k.(sk_ack)
    k.(sk_window) k.(sk_flags) k.(sk_recv_buffer) k.(sk_recv_head) k.(sk_recv_tail) k.(sk_recv_count).
Definition set_local_port (p : Z) (k : tcp_socket_t) : tcp_socket_t :=
  mk_sock k.(sk_state) k.(sk_in_use) p k.(sk_remote_port) k.(sk_remote_ip) k.(sk_seq) k.(sk_ack)
    k.(sk_window) k.(sk_flags) k.(sk_recv_buffer) k.(sk_recv_head) k.(sk_recv_tail) k.(sk_recv_count).
Definition set_remote (ip : list Z) (p : Z) (k : tcp_socket_t) : tcp_socket_t :=
  mk_sock k.(sk_state) k.(sk_in_use) k.(sk_local_port) p ip k.(sk_seq) k.(sk_ack)
    k.(sk_window) k.(sk_flags) k.(sk_recv_buffer) k.(sk_recv_head) k.(sk_recv_tail) k.(sk_recv_count).
Definition set_seq (x : Z) (k : tcp_socket_t) : tcp_socket_t :=
  mk_sock k.(sk_state) k.(sk_in_use) k.(sk_local_port) k.(sk_remote_port) k.(sk_remote_ip) x k.(sk_ack)
    k.(sk_window) k.(sk_flags) k.(sk_recv_buffer) k.(sk_recv_head) k.(sk_recv_tail) k.(sk_recv_count).
Definition set_ack (x : Z) (k : tcp_socket_t) : tcp_socket_t :=
  mk_sock k.(sk_state) k.(sk_in_use) k.(sk_local_port) k.(sk_remote_port) k.(sk_remote_ip) k.(sk_seq) x
    k.(sk_window) k.(sk_flags) k.(sk_recv_buffer) k.(sk_recv_head) k.(sk_recv_tail) k.(sk_recv_count).
Definition set_window (x : Z) (k : tcp_socket_t) : tcp_socket_t :=
  mk_sock k.(sk_state) k.(sk_in_use) k.(sk_local_port) k.(sk_remote_port) k.(sk_remote_ip) k.(sk_seq) k.(sk_ack)
    x k.(sk_flags) k.(sk_recv_buffer) k.(sk_recv_head) k.(sk_recv_tail) k.(sk_recv_count).
Definition set_flags (x : Z) (k : tcp_socket_t) : tcp_socket_t :=
  mk_sock k.(sk_state) k.(sk_in_use) k.(sk_local_port) k.(sk_remote_port) k.(sk_remote_ip) k.(sk_seq) k.(sk_ack)
    k.(sk_window) x k.(sk_recv_buffer) k.(sk_recv_head) k.(sk_recv_tail) k.(sk_recv_count).
Definition set_recv (b : list Z) (h tl c : Z) (k : tcp_socket_t) : tcp_socket_t :=
  mk_sock k.(sk_state) k.(sk_in_use) k.(sk_local_port) k.(sk_remote_port) k.(sk_remote_ip) k.(sk_seq) k.(sk_ack)
    k.(sk_window) k.(sk_flags) b h tl c.

(** Recurring groups of assignments of the source. *)
Definition clear_remote (k : tcp_socket_t) : tcp_socket_t := set_remote [0; 0; 0; 0] 0 k.
Definition clear_recv (k : tcp_socket_t) : tcp_socket_t := set_recv k.(sk_recv_buffer) 0 0 0 k.

Definition zero_sock : tcp_socket_t :=
  mk_sock TCP_STATE_CLOSED false 0 0 [0; 0; 0; 0] 0 0 0 0 (replicate (Z.to_nat TCP_RECV_BUFFER_SIZE) 0) 0 0 0.

Definition sock_at (t : tcp) (i : Z) : tcp_socket_t := default zero_sock (rd t.(tcp_sockets) i).
Definition with_sockets (t : tcp) (l : list tcp_socket_t) : tcp :=
  mk_tcp_state l t.(tcp_socket_count) t.(tcp_gen) t.(dangling) t.(wakes).
Definition with_count (t : tcp) (c : Z) : tcp :=
  mk_tcp_state t.(tcp_sockets) c t.(tcp_gen) t.(dangling) t.(wakes).
Definition upd (i : Z) (f : tcp_socket_t -> tcp_socket_t) (t : tcp) : tcp :=
  with_sockets t (wr t.(tcp_sockets) i (f (sock_at t i))).
Definition wait_queue_wake_all (i : Z) (q : tcp_queue) (t : tcp) : tcp :=
  mk_tcp_state t.(tcp_sockets) t.(tcp_socket_count) t.(tcp_gen) t.(dangling) (t.(wakes) ++ [(i, q)]).
(** A pointer obtained when the table had generation [gen] is used now. *)
Definition use_pointer (gen : Z) (t : tcp) : tcp :=
  mk_tcp_state t.(tcp_sockets) t.(tcp_socket_count) t.(tcp_gen)
    (t.(dangling) || negb (gen =? t.(tcp_gen))) t.(wakes).

(** ** Segments *)
Definition tcp_get_flags (f : Z) : Z := Z.land f 0x3F.
Definition tcp_get_header_len (f : Z) : Z := Z.land (Z.shiftr f 12) 0x0F * 4.
Definition tcp_make_data_offset_flags (header_len flags : Z) : Z :=
  Z.lor (u16 (Z.shiftl (header_len / 4) 12)) (Z.land flags 0x3F).
Definition has (flags f : Z) : bool := negb (Z.land flags f =? 0).

(** Sum of big-endian 16-bit words; an odd last byte is padded with 0. *)
Fixpoint sum_be (data : list Z) (sum : Z) : Z :=
  match data with
  | [] => sum
  | [b] => u32 (sum + Z.shiftl b 8)
  | hi :: lo :: rest => sum_be rest (u32 (sum + Z.lor (Z.shiftl hi 8) lo))
  end.

Definition tcp_checksum (src_ip dest_ip hdr data : list Z) : Z :=
  let tcp_len := TCP_HEADER_SIZE + zlen data in
  let sum := sum_be (bytes_at src_ip 0 4) 0 in
  let sum := sum_be (bytes_at dest_ip 0 4) sum in
  let sum := u32 (sum + IP_PROTO_TCP) in
  let sum := u32 (sum + u16 tcp_len) in
  let sum := sum_be hdr sum in
  let sum := sum_be data sum in
  let checksum := u16 (Z.lnot (fold_carry 4 sum)) in
  htons checksum.

Definition with_checksum (h : tcp_header_t) (c : Z) : tcp_header_t :=
  mk_tcp h.(tcp_src_port) h.(tcp_dest_port) h.(tcp_seq_num) h.(tcp_ack_num) h.(tcp_data_offset_flags)
    h.(tcp_window_size) c h.(tcp_urgent_ptr).

(** A segment with its checksum, as bytes. *)
Definition tcp_segment (src_ip dest_ip : list Z) (h : tcp_header_t) (data : list Z) : list Z :=
  tcp_bytes (with_checksum h (tcp_checksum src_ip dest_ip (tcp_bytes h) data)) ++ data.

(** ** The socket table *)
Definition tcp_init_socket (k : tcp_socket_t) : tcp_socket_t :=
  mk_sock TCP_STATE_CLOSED false 0 0 [0; 0; 0; 0] 0 0 8192 0 k.(sk_recv_buffer) 0 0 0.

Section tcp.
Variable kmalloc_ok : Z -> bool.

Definition tcp_grow_sockets (t : tcp) : bool * tcp :=
  if TCP_MAX_SOCKETS <=? tcp_socket_capacity t then (false, t)
  else
    let new_capacity := tcp_socket_capacity t * 2 in
    let new_capacity := if TCP_MAX_SOCKETS <? new_capacity then TCP_MAX_SOCKETS else new_capacity in
    let new_capacity := if new_capacity <? TCP_INITIAL_SOCKETS then TCP_INITIAL_SOCKETS else new_capacity in
    if negb (kmalloc_ok new_capacity) then (false, t)
    else
      let fresh := replicate (Z.to_nat (new_capacity - tcp_socket_capacity t)) (tcp_init_socket zero_sock) in
      (true, mk_tcp_state (t.(tcp_sockets) ++ fresh) t.(tcp_socket_count) (t.(tcp_gen) + 1) t.(dangling) t.(wakes)).

Definition tcp_init (t : tcp) : tcp :=
  let t := mk_tcp_state [] 0 (t.(tcp_gen) + 1) t.(dangling) t.(wakes) in
  snd (tcp_grow_sockets t).

(** First slot that satisfies a test. *)
Definition find_sock (t : tcp) (p : Z -> tcp_socket_t -> bool) : option Z :=
  find_loop (Z.to_nat (tcp_socket_capacity t)) 0 (fun i => if p i (sock_at t i) then Some i else None).

Definition take_slot (i : Z) (t : tcp) : tcp :=
  with_count (upd i (set_in_use true) t) (t.(tcp_socket_count) + 1).

Definition tcp_alloc_socket (t : tcp) : option Z * tcp :=
  match find_sock t (fun _ k => negb k.(sk_in_use)) with
  | Some i => (Some i, take_slot i t)
  | None =>
      let '(ok, t) := tcp_grow_sockets t in
      if ok then
        match find_sock t (fun _ k => negb k.(sk_in_use)) with
        | Some i => (Some i, take_slot i t)
        | None => (None, t)
        end
      else (None, t)
  end.

Definition tcp_find_listening_socket (t : tcp) (port : Z) : option Z :=
  find_sock t (fun _ k => k.(sk_in_use) && (k.(sk_local_port) =? port) && is_state k.(sk_state) TCP_STATE_LISTEN).

Definition tcp_find_ready_client (t : tcp) (local_port : Z) : option Z :=
  find_sock t (fun _ k =>
    k.(sk_in_use) && (k.(sk_local_port) =? local_port) && is_state k.(sk_state) TCP_STATE_ESTABLISHED).

Definition tcp_find_socket_by_local_port (t : tcp) (port : Z) : option Z :=
  find_sock t (fun _ k => k.(sk_in_use) && (k.(sk_local_port) =? port)).

Definition tcp_find_socket (t : tcp) (local_port : Z) (remote_ip : list Z) (remote_port : Z) : option Z :=
  find_sock t (fun _ k =>
    k.(sk_in_use) && ((k.(sk_local_port) =? local_port) && (k.(sk_remote_port) =? remote_port)
                      && ip_equals k.(sk_remote_ip) remote_ip)).

Definition tcp_find_connection (t : tcp) (local_port : Z) (remote_ip : list Z) (remote_port : Z) : option Z :=
  match tcp_find_socket t local_port remote_ip remote_port with
  | Some i => Some i
  | None => tcp_find_listening_socket t local_port
  end.

Definition tcp_listen (port : Z) (t : tcp) : option Z * tcp :=
  match tcp_find_socket_by_local_port t port with
  | Some _ => (None, t)
  | None =>
      let '(r, t) := tcp_alloc_socket t in
      match r with
      | None => (None, t)
      | Some i =>
          (Some i, upd i (fun k =>
             set_flags 0 (set_window 8192 (set_ack 0 (set_seq 0 (clear_remote (set_local_port port
               (set_state TCP_STATE_LISTEN k))))))) t)
      end
  end.

(** ** Sending *)
Definition tcp_send_rst (dest_ip : list Z) (dest_port src_port seq ack : Z) (n : net) : net :=
  let h := mk_tcp (htons src_port) (htons dest_port) (htonl seq) (htonl ack)
             (htons (tcp_make_data_offset_flags TCP_HEADER_SIZE (Z.lor TCP_FLAG_RST TCP_FLAG_ACK))) 0 0 0 in
  let netif := netif_get_default n in
  let buffer := tcp_segment (my_ip_configured netif n) dest_ip h [] in
  match route_get_next_hop n dest_ip with
  | None => n
  | Some next_hop =>
      match arp_cache_lookup next_hop n with
      | None => n
      | Some dest_mac => ipv4_send_packet netif dest_mac dest_ip IP_PROTO_TCP buffer n
      end
  end.

Definition sock_header (k : tcp_socket_t) (flags : Z) : tcp_header_t :=
  mk_tcp (htons k.(sk_local_port)) (htons k.(sk_remote_port)) (htonl k.(sk_seq)) (htonl k.(sk_ack))
    (htons (tcp_make_data_offset_flags TCP_HEADER_SIZE flags)) (htons k.(sk_window)) 0 0.

Definition seq_advance (flags len : Z) : Z :=
  (if has flags TCP_FLAG_SYN then 1 else 0) + (if has flags TCP_FLAG_FIN then 1 else 0)
  + (if 0 <? len then len else 0).

Definition tcp_send_packet (i flags : Z) (payload : list Z) (s : net * tcp) : net * tcp :=
  let '(n, t) := s in
  let k := sock_at t i in
  if 1500 - TCP_HEADER_SIZE <? zlen payload then s
  else
    let netif := netif_get_default n in
    let buffer := tcp_segment (my_ip_configured netif n) k.(sk_remote_ip) (sock_header k flags) payload in
    match route_get_next_hop n k.(sk_remote_ip) with
    | None => s
    | Some next_hop =>
        match arp_cache_lookup next_hop n with
        | None => (arp_send_request netif next_hop n, t)
        | Some dest_mac =>
            let n := ipv4_send_packet netif dest_mac k.(sk_remote_ip) IP_PROTO_TCP buffer n in
            (n, upd i (set_seq (u32 (k.(sk_seq) + seq_advance flags (zlen payload)))) t)
        end
    end.

(** State change of one socket inside the pair of states. *)
Definition on_sock (i : Z) (f : tcp_socket_t -> tcp_socket_t) (s : net * tcp) : net * tcp := (s.1, upd i f s.2).
Definition on_tcp (f : tcp -> tcp) (s : net * tcp) : net * tcp := (s.1, f s.2).

Definition fin_if_connected (i : Z) (s : net * tcp) : net * tcp :=
  if is_state (sock_at s.2 i).(sk_state) TCP_STATE_ESTABLISHED
  then tcp_send_packet i (Z.lor TCP_FLAG_FIN TCP_FLAG_ACK) [] s
  else if is_state (sock_at s.2 i).(sk_state) TCP_STATE_CLOSE_WAIT
  then tcp_send_packet i (Z.lor TCP_FLAG_FIN TCP_FLAG_ACK) [] s
  else s.

Definition tcp_close (sock : option Z) (s : net * tcp) : net * tcp :=
  match sock with
  | None => s
  | Some i =>
      let s := fin_if_connected i s in
      let s := on_sock i (fun k =>
        set_in_use false (set_local_port 0 (clear_recv (set_flags 0 (set_ack 0 (set_seq 0 (clear_remote
          (set_state TCP_STATE_CLOSED k)))))))) s in
      let s := on_tcp (fun t => with_count t (t.(tcp_socket_count) - 1)) s in
      on_tcp (wait_queue_wake_all i WQ_STATE) s
  end.

Definition tcp_close_and_relisten (sock : option Z) (listen_port : Z) (s : net * tcp) : net * tcp :=
  match sock with
  | None => s
  | Some i =>
      let s := fin_if_connected i s in
      let s := on_sock i (fun k =>
        set_local_port listen_port (clear_recv (set_flags 0 (set_ack 0 (set_seq 0 (clear_remote
          (set_state TCP_STATE_LISTEN k))))))) s in
      on_tcp (wait_queue_wake_all i WQ_STATE) s
  end.

(** ** Reception *)

(** One byte into the circular buffer, if there is room. *)
Definition recv_byte (b : Z) (k : tcp_socket_t) : tcp_socket_t :=
  if k.(sk_recv_count) <? TCP_RECV_BUFFER_SIZE then
    set_recv (wr k.(sk_recv_buffer) k.(sk_recv_head) b)
      ((k.(sk_recv_head) + 1) mod TCP_RECV_BUFFER_SIZE) k.(sk_recv_tail) (u16 (k.(sk_recv_count) + 1)) k
  else k.

(** The loop of the SYN_RCVD state, which keeps testing a full buffer, and the
    one of the ESTABLISHED state, which stops. *)
Definition recv_store (payload : list Z) (payload_len : Z) (k : tcp_socket_t) : tcp_socket_t :=
  for_loop (Z.to_nat payload_len) 0 (fun j k => recv_byte (rd0 payload j) k) k.
Fixpoint recv_store_break (fuel : nat) (j : Z) (payload : list Z) (k : tcp_socket_t) : tcp_socket_t :=
  match fuel with
  | O => k
  | S fuel' =>
      if k.(sk_recv_count) <? TCP_RECV_BUFFER_SIZE
      then recv_store_break fuel' (j + 1) payload (recv_byte (rd0 payload j) k)
      else k
  end.

(** The fields of a received segment. *)
Record segment := mk_seg {
  sg_src_ip : list Z; sg_src_port : Z; sg_dest_port : Z; sg_seq : Z; sg_ack : Z; sg_flags : Z;
  sg_payload : list Z; sg_payload_len : Z
}.
Definition seg_has (g : segment) (f : Z) : bool := has g.(sg_flags) f.
Definition seg_data (g : segment) : bool := 0 <? g.(sg_payload_len).

Definition back_to_listen (k : tcp_socket_t) : tcp_socket_t := clear_remote (set_state TCP_STATE_LISTEN k).

(** Wake the threads that wait in [accept] on the listening socket. *)
Definition wake_listener (port : Z) (t : tcp) : tcp :=
  match tcp_find_listening_socket t port with
  | Some l => wait_queue_wake_all l WQ_ACCEPT t
  | None => t
  end.

Definition handle_listen (ticks : Z) (i : Z) (g : segment) (s : net * tcp) : net * tcp :=
  if seg_has g TCP_FLAG_SYN then
    let gen := s.2.(tcp_gen) in
    let '(r, t) := tcp_alloc_socket s.2 in
    match r with
    | None => (tcp_send_rst g.(sg_src_ip) g.(sg_src_port) g.(sg_dest_port) 0 (u32 (g.(sg_seq) + 1)) s.1, t)
    | Some c =>
        let t := use_pointer gen t in
        let port := (sock_at t i).(sk_local_port) in
        let t := upd c (fun k =>
          set_window TCP_WINDOW_SIZE (set_state TCP_STATE_SYN_RCVD (set_ack (u32 (g.(sg_seq) + 1))
            (set_seq (u32 (u32 ticks * 12345)) (set_remote (bytes_at g.(sg_src_ip) 0 4) g.(sg_src_port)
              (set_local_port port k)))))) t in
        tcp_send_packet c (Z.lor TCP_FLAG_SYN TCP_FLAG_ACK) [] (s.1, t)
    end
  else s.

(** Data that comes with the acknowledgement of our SYN. *)
Definition syn_rcvd_data (i : Z) (g : segment) (s : net * tcp) : net * tcp :=
  if seg_data g then
    let s := on_sock i (recv_store g.(sg_payload) g.(sg_payload_len)) s in
    let s := on_sock i (set_ack (u32 (g.(sg_seq) + g.(sg_payload_len)))) s in
    let s := tcp_send_packet i TCP_FLAG_ACK [] s in
    on_tcp (wait_queue_wake_all i WQ_RECV) s
  else s.

Definition syn_rcvd_ack (i : Z) (g : segment) (s : net * tcp) : net * tcp :=
  if seg_has g TCP_FLAG_ACK then
    let k := sock_at s.2 i in
    if g.(sg_ack) =? k.(sk_seq) then
      let s := on_sock i (set_state TCP_STATE_ESTABLISHED) s in
      let s := on_tcp (wait_queue_wake_all i WQ_STATE) s in
      let s := on_tcp (wake_listener k.(sk_local_port)) s in
      syn_rcvd_data i g s
    else
      let diff := s32 (u32 (g.(sg_ack) - k.(sk_seq))) in
      if (-1 <=? diff) && (diff <=? 1) then
        let s := on_sock i (set_state TCP_STATE_ESTABLISHED) s in
        let s := on_tcp (wait_queue_wake_all i WQ_STATE) s in
        on_tcp (wake_listener k.(sk_local_port)) s
      else s
  else s.

Definition handle_syn_rcvd (i : Z) (g : segment) (s : net * tcp) : net * tcp :=
  if seg_has g TCP_FLAG_SYN && negb (seg_has g TCP_FLAG_ACK) then
    let s := on_sock i (fun k => set_seq (u32 (k.(sk_seq) - 1)) k) s in
    tcp_send_packet i (Z.lor TCP_FLAG_SYN TCP_FLAG_ACK) [] s
  else
    let s := syn_rcvd_ack i g s in
    if seg_has g TCP_FLAG_RST then on_sock i back_to_listen s else s.

Definition established_data (i : Z) (g : segment) (s : net * tcp) : net * tcp :=
  if seg_data g then
    let s := on_sock i (recv_store_break (Z.to_nat g.(sg_payload_len)) 0 g.(sg_payload)) s in
    let s := on_sock i (set_ack (u32 (g.(sg_seq) + g.(sg_payload_len)))) s in
    let s := tcp_send_packet i TCP_FLAG_ACK [] s in
    on_tcp (wait_queue_wake_all i WQ_RECV) s
  else s.

Definition established_fin (i : Z) (g : segment) (s : net * tcp) : net * tcp :=
  if seg_has g TCP_FLAG_FIN then
    let s := on_sock i (set_ack (u32 (g.(sg_seq) + 1))) s in
    let s := tcp_send_packet i TCP_FLAG_ACK [] s in
    let s := on_sock i (set_state TCP_STATE_CLOSE_WAIT) s in
    let s := tcp_send_packet i (Z.lor TCP_FLAG_FIN TCP_FLAG_ACK) [] s in
    on_sock i (set_state TCP_STATE_LAST_ACK) s
  else s.

Definition handle_established (i : Z) (g : segment) (s : net * tcp) : net * tcp :=
  let s := established_data i g s in
  let s := established_fin i g s in
  if seg_has g TCP_FLAG_RST then
    on_tcp (wait_queue_wake_all i WQ_STATE) (on_sock i back_to_listen s)
  else s.

(** Acknowledge a FIN and move to the next closing state. *)
Definition ack_fin (i : Z) (g : segment) (next : tcp_state_t) (s : net * tcp) : net * tcp :=
  let s := on_sock i (set_ack (u32 (g.(sg_seq) + 1))) s in
  let s := tcp_send_packet i TCP_FLAG_ACK [] s in
  on_sock i (set_state next) s.

Definition handle_fin_wait_1 (i : Z) (g : segment) (s : net * tcp) : net * tcp :=
  if seg_has g TCP_FLAG_ACK then
    let s := if seg_has g TCP_FLAG_FIN then ack_fin i g TCP_STATE_TIME_WAIT s
             else on_sock i (set_state TCP_STATE_FIN_WAIT_2) s in
    on_tcp (wait_queue_wake_all i WQ_STATE) s
  else if seg_has g TCP_FLAG_FIN then
    on_tcp (wait_queue_wake_all i WQ_STATE) (ack_fin i g TCP_STATE_CLOSING s)
  else s.

Definition handle_fin_wait_2 (i : Z) (g : segment) (s : net * tcp) : net * tcp :=
  if seg_has g TCP_FLAG_FIN then
    on_tcp (wait_queue_wake_all i WQ_STATE) (ack_fin i g TCP_STATE_TIME_WAIT s)
  else s.

Definition handle_closing (i : Z) (g : segment) (s : net * tcp) : net * tcp :=
  if seg_has g TCP_FLAG_ACK then
    on_tcp (wait_queue_wake_all i WQ_STATE) (on_sock i (set_state TCP_STATE_TIME_WAIT) s)
  else s.

Definition handle_time_wait (i : Z) (g : segment) (s : net * tcp) : net * tcp :=
  if seg_has g TCP_FLAG_FIN then tcp_send_packet i TCP_FLAG_ACK [] s else s.

Definition handle_last_ack (i : Z) (g : segment) (s : net * tcp) : net * tcp :=
  if seg_has g TCP_FLAG_ACK then on_sock i back_to_listen s else s.

Definition handle_segment (ticks i : Z) (g : segment) (s : net * tcp) : net * tcp :=
  match (sock_at s.2 i).(sk_state) with
  | TCP_STATE_LISTEN => handle_listen ticks i g s
  | TCP_STATE_SYN_RCVD => handle_syn_rcvd i g s
  | TCP_STATE_ESTABLISHED => handle_established i g s
  | TCP_STATE_FIN_WAIT_1 => handle_fin_wait_1 i g s
  | TCP_STATE_FIN_WAIT_2 => handle_fin_wait_2 i g s
  | TCP_STATE_CLOSING => handle_closing i g s
  | TCP_STATE_TIME_WAIT => handle_time_wait i g s
  | TCP_STATE_LAST_ACK => handle_last_ack i g s
  | _ => s
  end.

Definition parse_segment (ip : ipv4_header_t) (data : list Z) (len : Z) : segment :=
  let h := tcp_cast data in
  let flags_field := ntohs h.(tcp_data_offset_flags) in
  let header_len := tcp_get_header_len flags_field in
  mk_seg ip.(ip_src_ip) (ntohs h.(tcp_src_port)) (ntohs h.(tcp_dest_port)) (ntohl h.(tcp_seq_num))
    (ntohl h.(tcp_ack_num)) (tcp_get_flags flags_field) (drop (Z.to_nat header_len) data) (len - header_len).

Definition seg_socket (g : segment) (t : tcp) : option Z :=
  match tcp_find_socket t g.(sg_dest_port) g.(sg_src_ip) g.(sg_src_port) with
  | Some i => Some i
  | None =>
      if seg_has g TCP_FLAG_SYN && negb (seg_has g TCP_FLAG_ACK)
      then tcp_find_listening_socket t g.(sg_dest_port) else None
  end.

Definition tcp_handle (ticks : Z) (ip : ipv4_header_t) (data : list Z) (len : Z) (s : net * tcp) : net * tcp :=
  if len <? TCP_HEADER_SIZE then s
  else
    let g := parse_segment ip data len in
    match seg_socket g s.2 with
    | None =>
        if negb (seg_has g TCP_FLAG_RST)
        then (tcp_send_rst g.(sg_src_ip) g.(sg_src_port) g.(sg_dest_port) g.(sg_ack) (u32 (g.(sg_seq) + 1)) s.1, s.2)
        else s
    | Some i => handle_segment ticks i g s
    end.

(** ** Socket calls *)
Definition tcp_socket_create (t : tcp) : option Z * tcp :=
  let '(r, t) := tcp_alloc_socket t in
  match r with
  | None => (None, t)
  | Some i =>
      (Some i, upd i (fun k =>
         clear_recv (set_flags 0 (set_window 8192 (set_ack 0 (set_seq 0 (clear_remote (set_local_port 0
           (set_state TCP_STATE_CLOSED k)))))))) t)
  end.

Definition tcp_bind (sock : option Z) (port : Z) (t : tcp) : Z * tcp :=
  match sock with
  | None => (-1, t)
  | Some i =>
      match find_sock t (fun j k => k.(sk_in_use) && negb (j =? i) && (k.(sk_local_port) =? port)) with
      | Some _ => (-1, t)
      | None => (0, upd i (set_local_port port) t)
      end
  end.

(** [while (read < len && recv_count > 0)]: at most [len] turns. *)
Fixpoint recv_loop (fuel : nat) (k : tcp_socket_t) (out : list Z) : list Z * tcp_socket_t :=
  match fuel with
  | O => (out, k)
  | S fuel' =>
      if 0 <? k.(sk_recv_count) then
        recv_loop fuel'
          (set_recv k.(sk_recv_buffer) k.(sk_recv_head) ((k.(sk_recv_tail) + 1) mod TCP_RECV_BUFFER_SIZE)
             (u16 (k.(sk_recv_count) - 1)) k)
          (out ++ [rd0 k.(sk_recv_buffer) k.(sk_recv_tail)])
      else (out, k)
  end.

(** Result code and the bytes copied to the caller's buffer. *)
Definition tcp_recv (sock : option Z) (len : Z) (t : tcp) : Z * list Z * tcp :=
  match sock with
  | None => (-1, [], t)
  | Some i =>
      if len <=? 0 then (-1, [], t)
      else
        let k := sock_at t i in
        if negb (is_state k.(sk_state) TCP_STATE_ESTABLISHED) && negb (is_state k.(sk_state) TCP_STATE_CLOSE_WAIT)
        then (0, [], t)
        else
          let '(out, k') := recv_loop (Z.to_nat len) k [] in
          (zlen out, out, upd i (fun _ => k') t)
  end.

Definition tcp_send (sock : option Z) (buf : list Z) (s : net * tcp) : Z * (net * tcp) :=
  match sock with
  | None => (-1, s)
  | Some i =>
      if zlen buf <=? 0 then (-1, s)
      else if negb (is_state (sock_at s.2 i).(sk_state) TCP_STATE_ESTABLISHED) then (-1, s)
      else (zlen buf, tcp_send_packet i (Z.lor TCP_FLAG_ACK TCP_FLAG_PSH) buf s)
  end.

Definition tcp_available (sock : option Z) (t : tcp) : Z :=
  match sock with None => 0 | Some i => (sock_at t i).(sk_recv_count) end.

Definition tcp_accept (listen_sock : option Z) (t : tcp) : option Z * tcp :=
  match listen_sock with
  | None => (None, t)
  | Some l =>
      if is_state (sock_at t l).(sk_state) TCP_STATE_ESTABLISHED || is_state (sock_at t l).(sk_state) TCP_STATE_SYN_RCVD
      then
        let gen := t.(tcp_gen) in
        let '(r, t) := tcp_alloc_socket t in
        match r with
        | None => (None, t)
        | Some c =>
            let t := use_pointer gen t in
            let src := sock_at t l in
            let t := upd c (fun k =>
              mk_sock src.(sk_state) k.(sk_in_use) src.(sk_local_port) src.(sk_remote_port) src.(sk_remote_ip)
                src.(sk_seq) src.(sk_ack) src.(sk_window) src.(sk_flags) src.(sk_recv_buffer)
                src.(sk_recv_head) src.(sk_recv_tail) src.(sk_recv_count)) t in
            let t := upd l (fun k =>
              clear_recv (set_ack 0 (set_seq 0 (clear_remote (set_state TCP_STATE_LISTEN k))))) t in
            (Some c, t)
        end
      else (None, t)
  end.

Definition tcp_get_socket_count (t : tcp) : Z := tcp_socket_capacity t.
Definition tcp_get_active_socket_count (t : tcp) : Z := t.(tcp_socket_count).
End tcp.

(** ** The receive buffer as a queue *)
Record ring_ok (k : tcp_socket_t) : Prop := {
  rg_len : zlen k.(sk_recv_buffer) = TCP_RECV_BUFFER_SIZE;
  rg_tail : 0 <= k.(sk_recv_tail) < TCP_RECV_BUFFER_SIZE;
  rg_count : 0 <= k.(sk_recv_count) <= TCP_RECV_BUFFER_SIZE;
  rg_head : k.(sk_recv_head) = (k.(sk_recv_tail) + k.(sk_recv_count)) mod TCP_RECV_BUFFER_SIZE
}.

Definition ring_slot (k : tcp_socket_t) (j : Z) : Z :=
  rd0 k.(sk_recv_buffer) ((k.(sk_recv_tail) + j) mod TCP_RECV_BUFFER_SIZE).
(** The bytes waiting to be read, oldest first. *)
Definition queue (k : tcp_socket_t) : list Z := ring_slot k <$> seqZ 0 k.(sk_recv_count).

Lemma queue_length k : 0 <= k.(sk_recv_count) -> zlen (queue k) = k.(sk_recv_count).
Proof. intros. unfold queue, zlen. rewrite length_fmap, length_seqZ. lia. Qed.

Lemma recv_byte_room b k :
  ring_ok k -> k.(sk_recv_count) < TCP_RECV_BUFFER_SIZE ->
  ring_ok (recv_byte b k) /\ queue (recv_byte b k) = queue k ++ [b] /\
  (recv_byte b k).(sk_recv_count) = k.(sk_recv_count) + 1.
Proof.
  intros [Hl Ht Hc Hh] Hr. unfold recv_byte. destruct (_ <? _) eqn:E; bool_hyps; [|lia].
  unfold TCP_RECV_BUFFER_SIZE in *.
  assert (Ec : u16 (sk_recv_count k + 1) = sk_recv_count k + 1) by (apply u16_small; widths; lia).
  split_and!; [split; cbn; unfold TCP_RECV_BUFFER_SIZE| |].
  - by rewrite zlen_wr.
  - done.
  - rewrite Ec. lia.
  - rewrite Ec, Hh. lia.
  - unfold queue. cbn [sk_recv_count set_recv]. rewrite Ec, seqZ_app by lia. rewrite fmap_app. f_equal.
    + apply list_fmap_ext. intros i j [-> Hj]%lookup_seqZ. unfold ring_slot. cbn [sk_recv_buffer sk_recv_tail set_recv].
      apply rd0_wr_ne. rewrite Hh. unfold TCP_RECV_BUFFER_SIZE. lia.
    + change (seqZ (0 + sk_recv_count k) 1) with [0 + sk_recv_count k]. cbn. f_equal.
      unfold ring_slot. cbn [sk_recv_buffer sk_recv_tail set_recv]. unfold TCP_RECV_BUFFER_SIZE.
      rewrite Z.add_0_l, <- Hh. apply rd0_wr_eq. rewrite Hl, Hh. lia.
  - done.
Qed.

Lemma recv_byte_full b k : TCP_RECV_BUFFER_SIZE <= k.(sk_recv_count) -> recv_byte b k = k.
Proof. intros. unfold recv_byte. by destruct (_ <? _) eqn:E; bool_hyps; [lia|]. Qed.

(** Once full, the loop that keeps testing does nothing more. *)
Lemma recv_loops_agree payload len k :
  recv_store payload len k = recv_store_break (Z.to_nat len) 0 payload k.
Proof.
  unfold recv_store. generalize (Z.to_nat len) as m. intros m. generalize 0 as j. revert k.
  induction m as [|m IH]; intros k j; cbn [for_loop recv_store_break]; [done|].
  case_if; [apply IH|]. rewrite recv_byte_full by done. clear IH. revert j.
  induction m as [|m IH]; intros j; cbn [for_loop]; [done|]. by rewrite recv_byte_full.
Qed.

Lemma recv_store_break_queue m j payload k :
  ring_ok k ->
  let k' := recv_store_break m j payload k in
  let room := TCP_RECV_BUFFER_SIZE - k.(sk_recv_count) in
  ring_ok k' /\
  queue k' = queue k ++ take (Z.to_nat room) (rd0 payload <$> seqZ j (Z.of_nat m)).
Proof.
  revert j k. induction m as [|m IH]; intros j k Hk; cbn [recv_store_break].
  - split; [done|]. change (seqZ j (Z.of_nat 0)) with (@nil Z). by rewrite fmap_nil, take_nil, app_nil_r.
  - case_if.
    + destruct (recv_byte_room (rd0 payload j) k Hk) as (Hk' & Hq & Hc); [done|].
      destruct (IH (j + 1) _ Hk') as (I1 & I2). split; [done|]. rewrite I2, Hq, Hc, <- app_assoc. f_equal.
      rewrite (seqZ_cons j) by lia. rewrite fmap_cons.
      replace (Z.to_nat (TCP_RECV_BUFFER_SIZE - sk_recv_count k))
        with (S (Z.to_nat (TCP_RECV_BUFFER_SIZE - (sk_recv_count k + 1)))) by lia.
      cbn [take app]. replace (Z.succ j) with (j + 1) by lia.
      by replace (Z.pred (Z.of_nat (S m))) with (Z.of_nat m) by lia.
    + split; [done|]. replace (Z.to_nat (_ - _)) with 0%nat by (unfold TCP_RECV_BUFFER_SIZE in *; lia).
      by rewrite take_0, app_nil_r.
Qed.

Lemma recv_loop_queue m k out :
  ring_ok k ->
  let '(out', k') := recv_loop m k out in
  ring_ok k' /\ out' = out ++ take m (queue k) /\ queue k' = drop m (queue k).
Proof.
  revert k out. induction m as [|m IH]; intros k out Hk; cbn [recv_loop].
  - split; [done|]. by rewrite take_0, app_nil_r, drop_0.
  - destruct (0 <? sk_recv_count k) eqn:E; bool_hyps.
    + destruct Hk as [Hl Ht Hc Hh]. unfold TCP_RECV_BUFFER_SIZE in *.
      assert (Ec : u16 (sk_recv_count k - 1) = sk_recv_count k - 1) by (apply u16_small; widths; lia).
      set (k1 := set_recv _ _ _ _ k).
      assert (Hk1 : ring_ok k1).
      { split; cbn; unfold TCP_RECV_BUFFER_SIZE in *; [done|lia|rewrite Ec; lia|rewrite Ec, Hh; lia]. }
      assert (Hq : queue k = rd0 k.(sk_recv_buffer) k.(sk_recv_tail) :: queue k1).
      { unfold queue. rewrite (seqZ_cons 0) by lia. rewrite fmap_cons. f_equal.
        - unfold ring_slot, TCP_RECV_BUFFER_SIZE. f_equal. lia.
        - cbn [k1 sk_recv_count set_recv]. rewrite Ec. replace (Z.succ 0) with 1 by lia.
          replace (Z.pred (sk_recv_count k)) with (sk_recv_count k - 1) by lia.
          rewrite <- (Z.add_0_l 1) at 1. rewrite <- (fmap_add_seqZ 1 0), <- list_fmap_compose.
          apply list_fmap_ext. intros i j Hj. unfold ring_slot, compose.
          cbn [k1 sk_recv_buffer sk_recv_tail set_recv]. unfold TCP_RECV_BUFFER_SIZE. f_equal.
          clear. rewrite Zplus_mod_idemp_l. f_equal. lia. }
      specialize (IH k1 (out ++ [rd0 k.(sk_recv_buffer) k.(sk_recv_tail)]) Hk1).
      destruct (recv_loop m k1 _) as [out' k'] eqn:Er. destruct IH as (I1 & I2 & I3).
      split; [done|]. rewrite Hq. cbn [take drop]. by rewrite I2, <- app_assoc.
    + assert (Hq : queue k = []).
      { unfold queue. destruct Hk as [_ _ Hc _]. replace (sk_recv_count k) with 0 by lia. done. }
      rewrite Hq, take_nil, drop_nil, app_nil_r. done.
Qed.

(** ** The socket table *)
Definition in_use_count (l : list tcp_socket_t) : Z :=
  Z.of_nat (length (filter (fun k => k.(sk_in_use) = true) l)).

Record tcp_wf (t : tcp) : Prop := {
  tw_cap : tcp_socket_capacity t <= TCP_MAX_SOCKETS;
  tw_count : t.(tcp_socket_count) = in_use_count t.(tcp_sockets);
  tw_rings : Forall ring_ok t.(tcp_sockets)
}.

Lemma zero_sock_ring : ring_ok zero_sock.
Proof. by split. Qed.

Lemma sock_at_ring t i : tcp_wf t -> ring_ok (sock_at t i).
Proof.
  intros W. unfold sock_at. destruct (rd _ i) eqn:E; [|exact zero_sock_ring]. by eapply Forall_rd; [apply W|].
Qed.

Lemma sock_at_upd_eq i f t : 0 <= i < tcp_socket_capacity t -> sock_at (upd i f t) i = f (sock_at t i).
Proof. intros Hi. unfold sock_at at 1, upd, with_sockets. cbn [tcp_sockets]. by rewrite rd_wr_eq. Qed.
Lemma sock_at_upd_ne i j f t : i <> j -> sock_at (upd i f t) j = sock_at t j.
Proof. intros Hi. unfold sock_at, upd, with_sockets. cbn [tcp_sockets]. by rewrite rd_wr_ne. Qed.
Lemma capacity_upd i f t : tcp_socket_capacity (upd i f t) = tcp_socket_capacity t.
Proof. unfold tcp_socket_capacity, upd, with_sockets. cbn [tcp_sockets]. by rewrite zlen_wr. Qed.

Lemma in_use_wr l i k k0 :
  rd l i = Some k0 ->
  in_use_count (wr l i k) = in_use_count l - b2z k0.(sk_in_use) + b2z k.(sk_in_use).
Proof.
  unfold rd, wr, in_use_count. case_if; [|done]. intros Hl.
  rewrite (insert_take_drop _ _ k) by (by eapply lookup_lt_Some).
  rewrite <- (take_drop_middle l (Z.to_nat i) k0 Hl) at 3. rewrite !list.filter_app, !length_app, !list.filter_cons.
  destruct (sk_in_use k0), (sk_in_use k); cbn [b2z];
    repeat (destruct (decide _) as [|]; try done); cbn [length]; lia.
Qed.

(** Updates that leave the slot in use as it was and keep the buffer sound. *)
Definition benign (f : tcp_socket_t -> tcp_socket_t) : Prop :=
  forall k, ring_ok k -> ring_ok (f k) /\ (f k).(sk_in_use) = k.(sk_in_use).

Lemma benign_compose f g : benign f -> benign g -> benign (fun k => f (g k)).
Proof. intros Hf Hg k Hk. destruct (Hg k Hk) as [R1 U1]. destruct (Hf _ R1) as [R2 U2]. split; [done|congruence]. Qed.

(** Updates that do not touch the buffer at all. *)
Lemma benign_fields f :
  (forall k, (f k).(sk_recv_buffer) = k.(sk_recv_buffer) /\ (f k).(sk_recv_head) = k.(sk_recv_head) /\
     (f k).(sk_recv_tail) = k.(sk_recv_tail) /\ (f k).(sk_recv_count) = k.(sk_recv_count) /\
     (f k).(sk_in_use) = k.(sk_in_use)) -> benign f.
Proof.
  intros Hf k [? ? ? ?]. destruct (Hf k) as (E1 & E2 & E3 & E4 & E5). split; [|done].
  split; by rewrite ?E1, ?E2, ?E3, ?E4.
Qed.

Lemma benign_clear_recv : benign clear_recv.
Proof. intros k [Hl _ _ _]. split; [|done]. split; cbn; [done|..]; unfold TCP_RECV_BUFFER_SIZE; done. Qed.

Lemma upd_wf i f t : tcp_wf t -> benign f -> tcp_wf (upd i f t).
Proof.
  intros W Hf. split.
  - rewrite capacity_upd. apply W.
  - unfold upd, with_sockets. cbn [tcp_socket_count tcp_sockets]. rewrite (tw_count _ W).
    unfold sock_at. destruct (rd t.(tcp_sockets) i) as [k|] eqn:E.
    + rewrite (in_use_wr _ _ _ _ E). cbn [from_option id].
      destruct (Hf k) as [_ ->]; [by eapply (Forall_rd _ _ _ _ (tw_rings _ W))|]. lia.
    + f_equal. unfold wr. case_if; [|done]. symmetry. apply list_insert_ge. unfold rd in E.
      rewrite (proj2 (Z.leb_le _ _)) in E by done. by apply lookup_ge_None in E.
  - unfold upd, with_sockets. cbn [tcp_sockets]. apply Forall_wr; [apply W|].
    apply Hf. by apply sock_at_ring.
Qed.

Lemma wake_wf i q t : tcp_wf t -> tcp_wf (wait_queue_wake_all i q t).
Proof. by intros [? ? ?]. Qed.
Lemma use_pointer_wf g t : tcp_wf t -> tcp_wf (use_pointer g t).
Proof. by intros [? ? ?]. Qed.

Lemma find_sock_Some t p i :
  find_sock t p = Some i ->
  0 <= i < tcp_socket_capacity t /\ p i (sock_at t i) = true /\ (forall j, 0 <= j < i -> p j (sock_at t j) = false).
Proof.
  intros (j & Hj & Hf & Hm)%find_loop_Some. case_if_in Hf; [|done]. injection Hf as <-.
  unfold tcp_socket_capacity in *. pose proof (zlen_nonneg t.(tcp_sockets)).
  split_and!; [lia|lia|done|]. intros l Hl. specialize (Hm l Hl). by destruct (p l _).
Qed.

Lemma find_sock_None t p :
  find_sock t p = None <-> forall j, 0 <= j < tcp_socket_capacity t -> p j (sock_at t j) = false.
Proof.
  unfold find_sock. rewrite find_loop_None. pose proof (zlen_nonneg t.(tcp_sockets)) as H.
  unfold tcp_socket_capacity. split; intros Hall j Hj.
  - specialize (Hall j ltac:(lia)). by destruct (p j _).
  - by rewrite (Hall j) by lia.
Qed.

Lemma take_slot_wf i t :
  tcp_wf t -> 0 <= i < tcp_socket_capacity t -> (sock_at t i).(sk_in_use) = false -> tcp_wf (take_slot i t).
Proof.
  intros W Hi Hu. unfold take_slot, with_count, upd, with_sockets. split; cbn [tcp_sockets tcp_socket_count].
  - unfold tcp_socket_capacity. cbn [tcp_sockets]. rewrite zlen_wr. apply W.
  - destruct (rd_is_Some t.(tcp_sockets) i Hi) as [k E]. rewrite (in_use_wr _ _ _ _ E), (tw_count _ W).
    unfold sock_at in Hu. rewrite E in Hu. cbn in Hu. rewrite Hu. cbn. lia.
  - apply Forall_wr; [apply W|]. destruct (sock_at_ring t i W). by split.
Qed.

Lemma in_use_app_free l m k : k.(sk_in_use) = false -> in_use_count (l ++ replicate m k) = in_use_count l.
Proof.
  intros Hk. unfold in_use_count. rewrite list.filter_app, length_app.
  replace (filter _ (replicate m k)) with (@nil tcp_socket_t); [cbn; lia|].
  induction m as [|m IH]; [done|]. cbn [replicate]. rewrite list.filter_cons, decide_False by congruence. done.
Qed.

Lemma grow_wf km t : tcp_wf t -> tcp_wf (tcp_grow_sockets km t).2.
Proof.
  intros W. unfold tcp_grow_sockets. case_if; [done|]. cbv zeta.
  pose proof (zlen_nonneg t.(tcp_sockets)) as Hz.
  match goal with |- context [negb (km ?c)] => set (nc := c) end.
  assert (Hnc : tcp_socket_capacity t <= nc <= TCP_MAX_SOCKETS).
  { subst nc. unfold TCP_MAX_SOCKETS, TCP_INITIAL_SOCKETS, tcp_socket_capacity in *. repeat case_if; lia. }
  clearbody nc. destruct (km nc); cbn [negb snd]; [|done].
  split; cbn [tcp_sockets tcp_socket_count]; unfold tcp_socket_capacity in *; cbn [tcp_sockets].
  - rewrite zlen_app. unfold zlen at 2. rewrite length_replicate. lia.
  - rewrite (tw_count _ W). symmetry. by apply in_use_app_free.
  - apply Forall_app. split; [apply W|]. apply Forall_replicate. destruct zero_sock_ring. by split.
Qed.

Lemma alloc_wf km t : tcp_wf t -> tcp_wf (tcp_alloc_socket km t).2.
Proof.
  intros W. unfold tcp_alloc_socket. destruct (find_sock t _) as [i|] eqn:E.
  - apply find_sock_Some in E as (Hi & Hu & _). apply take_slot_wf; [done..|by apply negb_true_iff in Hu].
  - pose proof (grow_wf km t W) as W'. destruct (tcp_grow_sockets km t) as [[|] t']; [|done]. cbn [snd] in W'.
    destruct (find_sock t' _) as [i|] eqn:E'; [|done].
    apply find_sock_Some in E' as (Hi & Hu & _). apply take_slot_wf; [done..|by apply negb_true_iff in Hu].
Qed.

(** ** Every operation keeps the table well formed *)
Definition wf2 (s : net * tcp) : Prop := tcp_wf s.2.

Ltac fields := apply benign_fields; intros; repeat split.

Lemma benign_set_state x : benign (set_state x).
Proof. fields. Qed.
Lemma benign_set_ack x : benign (set_ack x).
Proof. fields. Qed.
Lemma benign_set_seq x : benign (set_seq x).
Proof. fields. Qed.
Lemma benign_set_local_port x : benign (set_local_port x).
Proof. fields. Qed.
Lemma benign_back_to_listen : benign back_to_listen.
Proof. fields. Qed.

Lemma benign_recv_store_break m payload : benign (recv_store_break m 0 payload).
Proof.
  intros k Hk. split; [by apply recv_store_break_queue|].
  generalize 0 as j. revert k Hk. induction m as [|m IH]; intros k Hk j; cbn [recv_store_break]; [done|].
  case_if; [|done]. rewrite IH by (by apply recv_byte_room). unfold recv_byte. by case_if.
Qed.
Lemma benign_recv_store payload len : benign (recv_store payload len).
Proof. intros k Hk. rewrite recv_loops_agree. by apply benign_recv_store_break. Qed.

#[local] Hint Resolve benign_set_state benign_set_ack benign_set_seq benign_set_local_port benign_back_to_listen
  benign_recv_store_break benign_recv_store benign_clear_recv upd_wf wake_wf use_pointer_wf : alos.

Lemma on_sock_wf i f s : wf2 s -> benign f -> wf2 (on_sock i f s).
Proof. intros. unfold wf2, on_sock. cbn [snd]. by apply upd_wf. Qed.
Lemma on_wake_wf i q s : wf2 s -> wf2 (on_tcp (wait_queue_wake_all i q) s).
Proof. intros. unfold wf2, on_tcp. cbn [snd]. by apply wake_wf. Qed.
Lemma on_listener_wf p s : wf2 s -> wf2 (on_tcp (wake_listener p) s).
Proof.
  intros. unfold wf2, on_tcp, wake_listener. cbn [snd].
  destruct (tcp_find_listening_socket _ _); [by apply wake_wf|done].
Qed.

(** Sending changes at most the sequence number of its socket. *)
Lemma send_packet_tcp i flags payload s :
  (tcp_send_packet i flags payload s).2 = s.2 \/
  (tcp_send_packet i flags payload s).2 =
    upd i (set_seq (u32 ((sock_at s.2 i).(sk_seq) + seq_advance flags (zlen payload)))) s.2.
Proof.
  destruct s as [n t]. unfold tcp_send_packet. case_if; [by left|]. destruct (route_get_next_hop _ _); [|by left].
  destruct (arp_cache_lookup _ _); [by right|by left].
Qed.
Lemma send_wf i flags payload s : wf2 s -> wf2 (tcp_send_packet i flags payload s).
Proof. intros W. unfold wf2. destruct (send_packet_tcp i flags payload s) as [-> | ->]; auto with alos. Qed.

#[local] Hint Resolve on_sock_wf on_wake_wf on_listener_wf send_wf : alos.

Lemma syn_rcvd_data_wf i g s : wf2 s -> wf2 (syn_rcvd_data i g s).
Proof. intros. unfold syn_rcvd_data. cbv zeta. case_if; auto 10 with alos. Qed.
#[local] Hint Resolve syn_rcvd_data_wf : alos.

Lemma handle_syn_rcvd_wf i g s : wf2 s -> wf2 (handle_syn_rcvd i g s).
Proof.
  intros W. unfold handle_syn_rcvd. cbv zeta. case_if; [apply send_wf, on_sock_wf; [done|fields]|].
  assert (W1 : wf2 (syn_rcvd_ack i g s)).
  { unfold syn_rcvd_ack. cbv zeta. repeat case_if; auto 10 with alos. }
  case_if; auto with alos.
Qed.

Lemma handle_established_wf i g s : wf2 s -> wf2 (handle_established i g s).
Proof.
  intros W. unfold handle_established, established_fin, established_data. cbv zeta.
  repeat case_if; auto 20 with alos.
Qed.

Lemma ack_fin_wf i g st s : wf2 s -> wf2 (ack_fin i g st s).
Proof. intros. unfold ack_fin. auto 10 with alos. Qed.
#[local] Hint Resolve ack_fin_wf : alos.

Lemma handle_listen_wf km ticks i g s : wf2 s -> wf2 (handle_listen km ticks i g s).
Proof.
  intros W. unfold handle_listen. case_if; [|done]. pose proof (alloc_wf km s.2 W) as Wa.
  destruct (tcp_alloc_socket km s.2) as [[c|] t]; cbn [snd] in Wa; [|done].
  apply send_wf. unfold wf2. cbn [snd]. apply upd_wf; [by apply use_pointer_wf|fields].
Qed.

Lemma handle_segment_wf km ticks i g s : wf2 s -> wf2 (handle_segment km ticks i g s).
Proof.
  intros W. unfold handle_segment. destruct (sk_state _); try done.
  - by apply handle_listen_wf.
  - by apply handle_syn_rcvd_wf.
  - by apply handle_established_wf.
  - unfold handle_fin_wait_1. repeat case_if; auto 10 with alos.
  - unfold handle_fin_wait_2. case_if; auto 10 with alos.
  - unfold handle_closing. case_if; auto 10 with alos.
  - unfold handle_last_ack. case_if; auto 10 with alos.
  - unfold handle_time_wait. case_if; auto 10 with alos.
Qed.

Lemma tcp_handle_wf km ticks ip data len s : wf2 s -> wf2 (tcp_handle km ticks ip data len s).
Proof.
  intros W. unfold tcp_handle. case_if; [done|]. cbv zeta. destruct (seg_socket _ _) as [i|].
  - by apply handle_segment_wf.
  - by case_if.
Qed.

Lemma fin_wf i s : wf2 s -> wf2 (fin_if_connected i s).
Proof. intros. unfold fin_if_connected. repeat case_if; auto with alos. Qed.

Lemma fin_sock i s :
  tcp_socket_capacity (fin_if_connected i s).2 = tcp_socket_capacity s.2 /\
  (sock_at (fin_if_connected i s).2 i).(sk_in_use) = (sock_at s.2 i).(sk_in_use).
Proof.
  assert (H : forall f, tcp_socket_capacity (tcp_send_packet i f [] s).2 = tcp_socket_capacity s.2 /\
    (sock_at (tcp_send_packet i f [] s).2 i).(sk_in_use) = (sock_at s.2 i).(sk_in_use)).
  { intros f. destruct (send_packet_tcp i f [] s) as [-> | ->]; [done|]. rewrite capacity_upd. split; [done|].
    destruct (decide (0 <= i < tcp_socket_capacity s.2)) as [Hi|Hi]; [by rewrite sock_at_upd_eq|].
    unfold sock_at, upd, with_sockets. cbn [tcp_sockets]. unfold tcp_socket_capacity in Hi.
    by rewrite (proj2 (rd_None _ _)), (proj2 (rd_None _ _)) by (rewrite ?zlen_wr; done). }
  unfold fin_if_connected. repeat case_if; [apply H|apply H|done].
Qed.

(** Closing a socket that is in use. *)
Lemma close_wf i s :
  wf2 s -> 0 <= i < tcp_socket_capacity s.2 -> (sock_at s.2 i).(sk_in_use) = true -> wf2 (tcp_close (Some i) s).
Proof.
  intros W Hi Hu. pose proof (fin_wf i s W) as W1. destruct (fin_sock i s) as [Hc Hu1]. rewrite Hu in Hu1.
  rewrite <- Hc in Hi. unfold tcp_close. cbv zeta. apply on_wake_wf.
  generalize dependent (fin_if_connected i s). intros s1 Hi W1 _ Hu1. unfold wf2, on_tcp, on_sock, upd in *. cbn [snd].
  destruct (rd_is_Some s1.2.(tcp_sockets) i Hi) as [k E].
  assert (Ek : sock_at s1.2 i = k) by (unfold sock_at; by rewrite E). rewrite Ek in *.
  destruct W1 as [Wc Wn Wr].
  split; unfold with_count, with_sockets, tcp_socket_capacity in *; cbn [tcp_sockets tcp_socket_count].
  - by rewrite zlen_wr.
  - rewrite (in_use_wr _ _ _ _ E), Hu1, Wn. cbn [set_in_use sk_in_use b2z]. lia.
  - apply Forall_wr; [done|]. destruct (benign_clear_recv k) as [[? ? ? ?] _]; [by eapply (Forall_rd _ _ _ _ Wr)|].
    by split.
Qed.

Lemma relisten_wf i p s : wf2 s -> wf2 (tcp_close_and_relisten (Some i) p s).
Proof.
  intros W. unfold tcp_close_and_relisten. cbv zeta. apply on_wake_wf, on_sock_wf; [by apply fin_wf|].
  apply (benign_compose (set_local_port p)); [auto with alos|].
  apply (benign_compose clear_recv); [auto with alos|]. fields.
Qed.

Lemma listen_wf km port t : tcp_wf t -> tcp_wf (tcp_listen km port t).2.
Proof.
  intros W. unfold tcp_listen. destruct (tcp_find_socket_by_local_port t port); [done|].
  pose proof (alloc_wf km t W). destruct (tcp_alloc_socket km t) as [[i|] t']; [|done].
  apply upd_wf; [done|fields].
Qed.

Lemma create_wf km t : tcp_wf t -> tcp_wf (tcp_socket_create km t).2.
Proof.
  intros W. unfold tcp_socket_create. pose proof (alloc_wf km t W).
  destruct (tcp_alloc_socket km t) as [[i|] t']; [|done].
  apply upd_wf; [done|]. apply (benign_compose clear_recv); [auto with alos|]. fields.
Qed.

Lemma bind_wf sock port t : tcp_wf t -> tcp_wf (tcp_bind sock port t).2.
Proof.
  intros W. unfold tcp_bind. destruct sock as [i|]; [|done]. destruct (find_sock t _); [done|].
  apply upd_wf; [done|auto with alos].
Qed.

Lemma recv_loop_in_use m k out : (recv_loop m k out).2.(sk_in_use) = k.(sk_in_use).
Proof.
  revert k out. induction m as [|m IH]; intros k out; cbn [recv_loop]; [done|]. case_if; [|done]. by rewrite IH.
Qed.

Lemma recv_wf sock len t : tcp_wf t -> tcp_wf (tcp_recv sock len t).2.
Proof.
  intros W. unfold tcp_recv. destruct sock as [i|]; [|done]. case_if; [done|]. cbv zeta. case_if; [done|].
  pose proof (recv_loop_queue (Z.to_nat len) (sock_at t i) [] (sock_at_ring t i W)) as Hq.
  pose proof (recv_loop_in_use (Z.to_nat len) (sock_at t i) []) as Hu.
  destruct (recv_loop _ _ _) as [out k']. destruct Hq as (Hr & _). cbn [snd] in *.
  unfold upd. change (with_sockets t (wr t.(tcp_sockets) i k')) with (upd i (fun _ => k') t).
  destruct (rd t.(tcp_sockets) i) as [k|] eqn:E.
  - assert (Ek : sock_at t i = k) by (unfold sock_at; by rewrite E). split.
    + rewrite capacity_upd. apply W.
    + unfold upd, with_sockets. cbn [tcp_sockets tcp_socket_count]. rewrite (in_use_wr _ _ _ _ E), (tw_count _ W), Hu, Ek. lia.
    + unfold upd, with_sockets. cbn [tcp_sockets]. apply Forall_wr; [apply W|done].
  - replace (upd i (fun _ => k') t) with (upd i id t); [apply upd_wf; [done|by fields]|].
    unfold upd, wr. unfold rd in E. case_if; [|done]. apply lookup_ge_None in E. by rewrite !list_insert_ge.
Qed.

Lemma accept_wf km sock t : tcp_wf t -> tcp_wf (tcp_accept km sock t).2.
Proof.
  intros W. unfold tcp_accept. destruct sock as [l|]; [|done]. case_if; [|done]. pose proof (alloc_wf km t W) as Wa.
  destruct (tcp_alloc_socket km t) as [[c|] t']; [|done]. cbn [snd] in *.
  pose proof (use_pointer_wf t.(tcp_gen) t' Wa) as Wu. pose proof (sock_at_ring _ l Wu) as Hr.
  apply upd_wf; [apply upd_wf; [done|]|].
  - intros k _. split; [|done]. destruct Hr. by split.
  - apply (benign_compose clear_recv); [auto with alos|]. fields.
Qed.

(** ** What an operation touches *)
Record touches (i : Z) (t t' : tcp) : Prop := {
  tc_cap : tcp_socket_capacity t' = tcp_socket_capacity t;
  tc_gen : t'.(tcp_gen) = t.(tcp_gen);
  tc_dang : t'.(dangling) = t.(dangling);
  tc_count : t'.(tcp_socket_count) = t.(tcp_socket_count);
  tc_other : forall j, j <> i -> sock_at t' j = sock_at t j
}.

Lemma touches_refl i t : touches i t t.
Proof. done. Qed.
Lemma touches_trans i t1 t2 t3 : touches i t1 t2 -> touches i t2 t3 -> touches i t1 t3.
Proof.
  intros [C1 G1 D1 N1 O1] [C2 G2 D2 N2 O2].
  split; try congruence. intros j Hj. by rewrite O2, O1.
Qed.
Lemma touches_upd i f t : touches i t (upd i f t).
Proof. split; [apply capacity_upd|done|done|done|]. intros j Hj. by apply sock_at_upd_ne. Qed.
Lemma touches_wake i j q t : touches i t (wait_queue_wake_all j q t).
Proof. done. Qed.
Lemma touches_listener i p t : touches i t (wake_listener p t).
Proof. unfold wake_listener. by destruct (tcp_find_listening_socket t p). Qed.
Lemma touches_send i f p s : touches i s.2 (tcp_send_packet i f p s).2.
Proof. destruct (send_packet_tcp i f p s) as [-> | ->]; [apply touches_refl|apply touches_upd]. Qed.

#[local] Hint Resolve touches_refl touches_upd touches_wake touches_listener : alos.

(** One of the moves a handler makes on its socket, and its effect on the
    state of the socket. *)
Definition st (s : net * tcp) (i : Z) : tcp_state_t := (sock_at s.2 i).(sk_state).
Definition in_table (s : net * tcp) (i : Z) : Prop := 0 <= i < tcp_socket_capacity s.2.

Lemma st_send i f p s : st (tcp_send_packet i f p s) i = st s i.
Proof.
  unfold st. destruct (send_packet_tcp i f p s) as [-> | ->]; [done|].
  destruct (decide (0 <= i < tcp_socket_capacity s.2)) as [Hi|Hi]; [by rewrite sock_at_upd_eq|].
  unfold sock_at, upd, with_sockets. cbn [tcp_sockets]. unfold tcp_socket_capacity in Hi.
  by rewrite (proj2 (rd_None _ _)), (proj2 (rd_None _ _)) by (rewrite ?zlen_wr; done).
Qed.
Lemma st_on_sock i f s : in_table s i -> st (on_sock i f s) i = (f (sock_at s.2 i)).(sk_state).
Proof. intros Hi. unfold st, on_sock. cbn [snd]. by rewrite sock_at_upd_eq. Qed.
Lemma st_keep i f s : (forall k, (f k).(sk_state) = k.(sk_state)) -> st (on_sock i f s) i = st s i.
Proof.
  intros Hf. destruct (decide (in_table s i)) as [Hi|Hi]; [by rewrite st_on_sock, Hf|].
  unfold st, on_sock, sock_at, upd, with_sockets. cbn [snd tcp_sockets]. unfold in_table, tcp_socket_capacity in Hi.
  by rewrite (proj2 (rd_None _ _)), (proj2 (rd_None _ _)) by (rewrite ?zlen_wr; done).
Qed.
Lemma st_wake i j q s : st (on_tcp (wait_queue_wake_all j q) s) i = st s i.
Proof. done. Qed.
Lemma st_listener i p s : st (on_tcp (wake_listener p) s) i = st s i.
Proof. unfold st, on_tcp, wake_listener. cbn [snd]. by destruct (tcp_find_listening_socket s.2 p). Qed.
Lemma in_table_touches i s s' : touches i s.2 s'.2 -> in_table s i -> in_table s' i.
Proof. intros T Hi. unfold in_table in *. by rewrite (tc_cap _ _ _ T). Qed.

Lemma recv_store_break_state m j payload k : (recv_store_break m j payload k).(sk_state) = k.(sk_state).
Proof.
  revert j k. induction m as [|m IH]; intros j k; cbn [recv_store_break]; [done|].
  case_if; [|done]. rewrite IH. unfold recv_byte. by case_if.
Qed.
Lemma recv_store_state payload len k : (recv_store payload len k).(sk_state) = k.(sk_state).
Proof. rewrite recv_loops_agree. apply recv_store_break_state. Qed.

(** The transitions of the code. *)
Inductive tcp_edge : tcp_state_t -> tcp_state_t -> Prop :=
| edge_stay a : tcp_edge a a
| edge_established : tcp_edge TCP_STATE_SYN_RCVD TCP_STATE_ESTABLISHED
| edge_refused : tcp_edge TCP_STATE_SYN_RCVD TCP_STATE_LISTEN
| edge_fin : tcp_edge TCP_STATE_ESTABLISHED TCP_STATE_LAST_ACK
| edge_reset : tcp_edge TCP_STATE_ESTABLISHED TCP_STATE_LISTEN
| edge_fin_acked : tcp_edge TCP_STATE_FIN_WAIT_1 TCP_STATE_FIN_WAIT_2
| edge_both_closed : tcp_edge TCP_STATE_FIN_WAIT_1 TCP_STATE_TIME_WAIT
| edge_closing : tcp_edge TCP_STATE_FIN_WAIT_1 TCP_STATE_CLOSING
| edge_peer_closed : tcp_edge TCP_STATE_FIN_WAIT_2 TCP_STATE_TIME_WAIT
| edge_closing_acked : tcp_edge TCP_STATE_CLOSING TCP_STATE_TIME_WAIT
| edge_last_ack : tcp_edge TCP_STATE_LAST_ACK TCP_STATE_LISTEN.

(** A handler that works on socket [i] only and moves it along an edge. *)
Definition moves (i : Z) (s s' : net * tcp) : Prop := touches i s.2 s'.2 /\ tcp_edge (st s i) (st s' i).

Lemma touches_on_sock i f s : touches i s.2 (on_sock i f s).2.
Proof. apply touches_upd. Qed.
Lemma touches_on_wake i j q s : touches i s.2 (on_tcp (wait_queue_wake_all j q) s).2.
Proof. apply touches_wake. Qed.
Lemma touches_on_listener i p s : touches i s.2 (on_tcp (wake_listener p) s).2.
Proof. apply touches_listener. Qed.

(** Solve [touches] for a chain of moves on one socket. *)
Ltac touch := repeat first
  [ apply touches_refl
  | eapply touches_trans; [|apply touches_on_wake]
  | eapply touches_trans; [|apply touches_on_listener]
  | eapply touches_trans; [|apply touches_send]
  | eapply touches_trans; [|apply touches_on_sock] ].

Lemma syn_rcvd_data_keep i g s : touches i s.2 (syn_rcvd_data i g s).2 /\ st (syn_rcvd_data i g s) i = st s i.
Proof.
  unfold syn_rcvd_data. cbv zeta. case_if; [|split; [touch|done]]. split; [touch|].
  rewrite st_wake, st_send. rewrite !st_keep; [done|intros; apply recv_store_state|done].
Qed.

Lemma syn_rcvd_ack_moves i g s :
  in_table s i -> st s i = TCP_STATE_SYN_RCVD ->
  touches i s.2 (syn_rcvd_ack i g s).2 /\
  (st (syn_rcvd_ack i g s) i = TCP_STATE_SYN_RCVD \/ st (syn_rcvd_ack i g s) i = TCP_STATE_ESTABLISHED).
Proof.
  intros Hi Hs. unfold syn_rcvd_ack. cbv zeta. case_if; [|split; [touch|by left]]. case_if.
  - destruct (syn_rcvd_data_keep i g (on_tcp (wake_listener (sk_local_port (sock_at s.2 i)))
      (on_tcp (wait_queue_wake_all i WQ_STATE) (on_sock i (set_state TCP_STATE_ESTABLISHED) s)))) as [T E].
    split; [eapply touches_trans; [|exact T]; touch|]. right. rewrite E, st_listener, st_wake, st_on_sock by done. done.
  - case_if; [|split; [touch|by left]]. split; [touch|]. right. by rewrite st_listener, st_wake, st_on_sock.
Qed.

Lemma handle_syn_rcvd_moves i g s :
  in_table s i -> st s i = TCP_STATE_SYN_RCVD -> moves i s (handle_syn_rcvd i g s).
Proof.
  intros Hi Hs. unfold handle_syn_rcvd. cbv zeta. case_if.
  { split; [touch|]. rewrite st_send, st_keep by done. constructor. }
  destruct (syn_rcvd_ack_moves i g s Hi Hs) as [T E]. case_if; (split; [touch; done|]); rewrite Hs.
  - rewrite st_on_sock by (by eapply in_table_touches). constructor.
  - destruct E as [-> | ->]; constructor.
Qed.

Lemma established_data_keep i g s :
  touches i s.2 (established_data i g s).2 /\ st (established_data i g s) i = st s i.
Proof.
  unfold established_data. cbv zeta. case_if; [|split; [touch|done]]. split; [touch|].
  rewrite st_wake, st_send. rewrite !st_keep; [done|intros; apply recv_store_break_state|done].
Qed.

Lemma established_fin_moves i g s :
  in_table s i ->
  touches i s.2 (established_fin i g s).2 /\
  (st (established_fin i g s) i = st s i \/ st (established_fin i g s) i = TCP_STATE_LAST_ACK).
Proof.
  intros Hi. unfold established_fin. cbv zeta. case_if; [|split; [touch|by left]]. split; [touch|]. right.
  rewrite st_on_sock; [done|]. eapply in_table_touches; [|exact Hi]. touch.
Qed.

Lemma handle_established_moves i g s :
  in_table s i -> st s i = TCP_STATE_ESTABLISHED -> moves i s (handle_established i g s).
Proof.
  intros Hi Hs. unfold handle_established. cbv zeta.
  destruct (established_data_keep i g s) as [T1 E1]. pose proof (in_table_touches _ _ _ T1 Hi) as Hi1.
  destruct (established_fin_moves i g (established_data i g s) Hi1) as [T2 E2].
  pose proof (touches_trans _ _ _ _ T1 T2) as T. rewrite E1, Hs in E2.
  case_if; (split; [touch; done|]); rewrite Hs.
  - rewrite st_wake, st_on_sock by (by eapply in_table_touches). constructor.
  - destruct E2 as [-> | ->]; constructor.
Qed.

Lemma ack_fin_moves i g next s :
  in_table s i -> touches i s.2 (ack_fin i g next s).2 /\ st (ack_fin i g next s) i = next.
Proof.
  intros Hi. unfold ack_fin. cbv zeta. split; [touch|]. rewrite st_on_sock; [done|].
  eapply in_table_touches; [|exact Hi]. touch.
Qed.

Lemma handle_segment_moves km ticks i g s :
  in_table s i -> st s i <> TCP_STATE_LISTEN -> moves i s (handle_segment km ticks i g s).
Proof.
  intros Hi Hn. unfold handle_segment. fold (st s i).
  destruct (st s i) eqn:Hs; try (by split; [touch|rewrite Hs; constructor]); try done.
  - by apply handle_syn_rcvd_moves.
  - by apply handle_established_moves.
  - unfold handle_fin_wait_1. destruct (ack_fin_moves i g TCP_STATE_TIME_WAIT s Hi) as [T1 E1].
    destruct (ack_fin_moves i g TCP_STATE_CLOSING s Hi) as [T2 E2]. unfold moves. rewrite Hs.
    case_if; [case_if|case_if]; (split; [touch; done|]); rewrite ?st_wake, ?E1, ?E2;
      rewrite ?st_on_sock by done; rewrite ?Hs; constructor.
  - unfold handle_fin_wait_2. destruct (ack_fin_moves i g TCP_STATE_TIME_WAIT s Hi) as [T1 E1]. unfold moves. rewrite Hs.
    case_if; (split; [touch; done|]); rewrite ?st_wake, ?E1, ?Hs; constructor.
  - unfold handle_closing, moves. rewrite Hs. case_if; (split; [touch|]); rewrite ?st_wake;
      rewrite ?st_on_sock by done; rewrite ?Hs; constructor.
  - unfold handle_last_ack, moves. rewrite Hs. case_if; (split; [touch|]);
      rewrite ?st_on_sock by done; rewrite ?Hs; constructor.
  - unfold handle_time_wait, moves. rewrite Hs. case_if; (split; [touch|]); rewrite ?st_send, ?Hs; constructor.
Qed.

(** ** Allocation of a slot *)
Record allocated (t t' : tcp) (c : Z) : Prop := {
  al_cap : tcp_socket_capacity t <= tcp_socket_capacity t';
  al_slot : 0 <= c < tcp_socket_capacity t';
  al_used : (sock_at t' c).(sk_in_use) = true;
  al_free : c < tcp_socket_capacity t -> (sock_at t c).(sk_in_use) = false;
  al_old : forall j, 0 <= j < tcp_socket_capacity t -> j <> c -> sock_at t' j = sock_at t j;
  al_new : forall j, tcp_socket_capacity t <= j < tcp_socket_capacity t' -> j <> c -> (sock_at t' j).(sk_in_use) = false;
  al_gen : t'.(tcp_gen) = t.(tcp_gen) \/
    t'.(tcp_gen) = t.(tcp_gen) + 1 /\ forall j, 0 <= j < tcp_socket_capacity t -> (sock_at t j).(sk_in_use) = true
}.

Lemma take_slot_at i t :
  0 <= i < tcp_socket_capacity t ->
  sock_at (take_slot i t) i = set_in_use true (sock_at t i) /\
  (forall j, j <> i -> sock_at (take_slot i t) j = sock_at t j) /\
  tcp_socket_capacity (take_slot i t) = tcp_socket_capacity t.
Proof.
  intros Hi. split; [by apply sock_at_upd_eq|]. split; [intros j Hj; by apply sock_at_upd_ne|].
  apply capacity_upd.
Qed.

Lemma grow_spec km t t' :
  tcp_grow_sockets km t = (true, t') ->
  tcp_socket_capacity t < tcp_socket_capacity t' /\ t'.(tcp_gen) = t.(tcp_gen) + 1 /\
  (forall j, 0 <= j < tcp_socket_capacity t -> sock_at t' j = sock_at t j) /\
  (forall j, tcp_socket_capacity t <= j < tcp_socket_capacity t' -> (sock_at t' j).(sk_in_use) = false).
Proof.
  unfold tcp_grow_sockets. case_if; [done|]. cbv zeta. pose proof (zlen_nonneg t.(tcp_sockets)) as Hz.
  match goal with |- context [negb (km ?c)] => set (nc := c) end.
  assert (Hnc : tcp_socket_capacity t < nc).
  { subst nc. unfold TCP_MAX_SOCKETS, TCP_INITIAL_SOCKETS, tcp_socket_capacity in *. repeat case_if; lia. }
  clearbody nc. destruct (km nc); cbn [negb]; [|done]. intros [= <-]. unfold tcp_socket_capacity in *. cbn [tcp_sockets tcp_gen].
  split_and!.
  - rewrite zlen_app. unfold zlen at 3. rewrite length_replicate. lia.
  - done.
  - intros j Hj. unfold sock_at. cbn [tcp_sockets]. by rewrite rd_app_l by lia.
  - intros j Hj. unfold sock_at. cbn [tcp_sockets]. rewrite rd_app_r by lia. unfold rd. case_if; [|lia].
    destruct (replicate _ _ !! _) as [k|] eqn:E; [|done]. by apply lookup_replicate in E as [-> _].
Qed.

Lemma alloc_spec km t c t' : tcp_alloc_socket km t = (Some c, t') -> allocated t t' c.
Proof.
  unfold tcp_alloc_socket. destruct (find_sock t _) as [i|] eqn:E.
  - intros [= <- <-]. apply find_sock_Some in E as (Hi & Hu & _). apply negb_true_iff in Hu.
    destruct (take_slot_at i t Hi) as (E1 & E2 & E3). split; rewrite ?E3; try lia.
    + by rewrite E1.
    + done.
    + intros j _ Hj. by apply E2.
    + by left.
  - destruct (tcp_grow_sockets km t) as [[|] t1] eqn:G; [|done]. destruct (grow_spec km t t1 G) as (Hc & Hg & Ho & Hn).
    pose proof (zlen_nonneg t.(tcp_sockets)).
    destruct (find_sock t1 _) as [i|] eqn:E'; [|done]. intros [= <- <-].
    apply find_sock_Some in E' as (Hi & Hu & _). apply negb_true_iff in Hu.
    pose proof (proj1 (find_sock_None _ _) E) as Hall. cbn beta in Hall.
    assert (Hused : forall j, 0 <= j < tcp_socket_capacity t -> sk_in_use (sock_at t j) = true)
      by (intros j Hj; specialize (Hall j Hj); by apply negb_false_iff in Hall).
    destruct (take_slot_at i t1 Hi) as (E1 & E2 & E3). split; rewrite ?E3; try lia.
    + by rewrite E1.
    + intros Hlt. rewrite <- Ho by lia. done.
    + intros j Hj Hne. rewrite E2 by done. by apply Ho.
    + intros j Hj Hne. rewrite E2 by done. by apply Hn.
    + right. split; [exact Hg|done].
Qed.

(** ** A SYN for a listening socket *)
Definition client_of (ticks port : Z) (g : segment) (k : tcp_socket_t) : tcp_socket_t :=
  set_window TCP_WINDOW_SIZE (set_state TCP_STATE_SYN_RCVD (set_ack (u32 (g.(sg_seq) + 1))
    (set_seq (u32 (u32 ticks * 12345)) (set_remote (bytes_at g.(sg_src_ip) 0 4) g.(sg_src_port)
      (set_local_port port k))))).

Lemma handle_listen_eq km ticks i g s :
  seg_has g TCP_FLAG_SYN = true ->
  handle_listen km ticks i g s =
  match tcp_alloc_socket km s.2 with
  | (None, t) => (tcp_send_rst g.(sg_src_ip) g.(sg_src_port) g.(sg_dest_port) 0 (u32 (g.(sg_seq) + 1)) s.1, t)
  | (Some c, t) =>
      let t := use_pointer s.2.(tcp_gen) t in
      tcp_send_packet c (Z.lor TCP_FLAG_SYN TCP_FLAG_ACK) []
        (s.1, upd c (client_of ticks (sock_at t i).(sk_local_port) g) t)
  end.
Proof. intros Hs. unfold handle_listen. rewrite Hs. by destruct (tcp_alloc_socket km s.2) as [[c|] t]. Qed.

Lemma sock_at_use g t j : sock_at (use_pointer g t) j = sock_at t j.
Proof. done. Qed.

Lemma handle_listen_others km ticks i g s j :
  in_table s i -> (sock_at s.2 i).(sk_in_use) = true ->
  let s' := handle_listen km ticks i g s in
  0 <= j < tcp_socket_capacity s.2 ->
  sock_at s'.2 j = sock_at s.2 j \/
  (sock_at s.2 j).(sk_in_use) = false /\ (sock_at s'.2 j).(sk_state) = TCP_STATE_SYN_RCVD /\
    (sock_at s'.2 j).(sk_local_port) = (sock_at s.2 i).(sk_local_port).
Proof.
  intros Hi Hu s' Hj. subst s'. destruct (seg_has g TCP_FLAG_SYN) eqn:Hs.
  2:{ left. unfold handle_listen. by rewrite Hs. }
  rewrite handle_listen_eq by done. destruct (tcp_alloc_socket km s.2) as [[c|] t] eqn:Ea.
  - pose proof (alloc_spec _ _ _ _ Ea) as A. cbv zeta.
    destruct (touches_send c (Z.lor TCP_FLAG_SYN TCP_FLAG_ACK) [] (s.1, upd c (client_of ticks
      (sock_at (use_pointer s.2.(tcp_gen) t) i).(sk_local_port) g) (use_pointer s.2.(tcp_gen) t))) as [_ _ _ _ O].
    cbn [snd] in O. destruct (decide (j = c)) as [->|Hne].
    + right. split; [apply A; lia|].
      assert (Hport : sk_local_port (sock_at t i) = sk_local_port (sock_at s.2 i)).
      { destruct (decide (i = c)) as [->|]; [|by rewrite (al_old _ _ _ A i)].
        exfalso. pose proof (al_free _ _ _ A ltac:(lia)). congruence. }
      pose proof (al_slot _ _ _ A) as Hc.
      destruct (send_packet_tcp c (Z.lor TCP_FLAG_SYN TCP_FLAG_ACK) [] (s.1, upd c (client_of ticks
        (sock_at (use_pointer s.2.(tcp_gen) t) i).(sk_local_port) g) (use_pointer s.2.(tcp_gen) t))) as [E|E];
        rewrite E; cbn [snd]; rewrite !sock_at_upd_eq by (rewrite ?capacity_upd; done); cbn;
        rewrite ?sock_at_use; done.
    + left. rewrite O by done. rewrite sock_at_upd_ne by done. rewrite sock_at_use. by apply A.
  - left. cbn [snd]. revert Ea. unfold tcp_alloc_socket. destruct (find_sock s.2 _); [done|].
    destruct (tcp_grow_sockets km s.2) as [[|] t1] eqn:G.
    + destruct (find_sock t1 _); [done|]. intros [= <-]. by apply (grow_spec km s.2 t1 G).
    + intros [= <-]. revert G. unfold tcp_grow_sockets. repeat case_if; try done; by intros [= <-].
Qed.

(** ** Checksum *)
Lemma be_word hi lo : is_u8 hi -> is_u8 lo -> Z.lor (Z.shiftl hi 8) lo = 256 * hi + lo.
Proof.
  intros Hh Hlo. rewrite Z.shiftl_mul_pow2 by lia. rewrite lor_add by (widths; lia). widths. lia.
Qed.

Fixpoint bsum (data : list Z) : Z :=
  match data with
  | [] => 0
  | [b] => 256 * b
  | hi :: lo :: rest => 256 * hi + lo + bsum rest
  end.

Lemma bsum_bounds data : Forall is_u8 data -> 0 <= bsum data <= 65535 * zlen data.
Proof.
  induction data as [|a|a b l IH] using list_pair_ind; intros Hu; unfold zlen in *; cbn [bsum length]; [lia| |].
  - apply list.Forall_cons in Hu as [Ha _]. widths. lia.
  - apply list.Forall_cons in Hu as [Ha Hu]. apply list.Forall_cons in Hu as [Hb Hu].
    specialize (IH Hu). widths. lia.
Qed.

Lemma sum_be_bsum data sum :
  Forall is_u8 data -> 0 <= sum -> sum + bsum data < 2 ^ 32 -> sum_be data sum = sum + bsum data.
Proof.
  revert sum. induction data as [|a|a b l IH] using list_pair_ind; intros sum Hu Hs Hlt; cbn [bsum sum_be] in *; [lia| |].
  - apply list.Forall_cons in Hu as [Ha _]. rewrite Z.shiftl_mul_pow2 by lia. change (2 ^ 8) with 256.
    rewrite u32_small; [lia|]. widths. lia.
  - apply list.Forall_cons in Hu as [Ha Hu]. apply list.Forall_cons in Hu as [Hb Hu].
    pose proof (bsum_bounds l Hu). rewrite be_word by done. rewrite u32_small by (widths; lia).
    rewrite IH; [lia|done|widths; lia|lia].
Qed.

Lemma bsum_app pre post : Nat.even (length pre) = true -> bsum (pre ++ post) = bsum pre + bsum post.
Proof.
  induction pre as [|a|a b l IH] using list_pair_ind; cbn [length app bsum]; [lia|done|].
  intros He. rewrite IH by done. lia.
Qed.

(** The sum that [tcp_checksum] folds, without wrap-around. *)
Definition tcp_sum (src_ip dest_ip hdr data : list Z) : Z :=
  bsum src_ip + bsum dest_ip + 6 + (20 + zlen data) + bsum hdr + bsum data.

Lemma tcp_checksum_eq src_ip dest_ip hdr data :
  is_ip src_ip -> is_ip dest_ip -> Forall is_u8 hdr -> Forall is_u8 data ->
  zlen hdr = 20 -> zlen data <= 1480 ->
  exists r, tcp_checksum src_ip dest_ip hdr data = htons (65535 - r) /\ 0 < r < 65536 /\
    r mod 65535 = tcp_sum src_ip dest_ip hdr data mod 65535.
Proof.
  intros Hs Hd Hh Hda Lh Ld. pose proof (zlen_nonneg data) as Lp.
  pose proof (bsum_bounds src_ip (proj2 Hs)) as Bs. pose proof (bsum_bounds dest_ip (proj2 Hd)) as Bd.
  pose proof (bsum_bounds hdr Hh) as Bh. pose proof (bsum_bounds data Hda) as Bda.
  assert (Ls : zlen src_ip = 4 /\ zlen dest_ip = 4) by (unfold zlen; destruct Hs as [-> _], Hd as [-> _]; done).
  unfold tcp_checksum, IP_PROTO_TCP, TCP_HEADER_SIZE. rewrite !bytes_at_ip by done.
  rewrite (sum_be_bsum src_ip) by (try apply Hs; pow2; lia). rewrite Z.add_0_l.
  rewrite (sum_be_bsum dest_ip) by (try apply Hd; pow2; lia).
  rewrite (u32_small (_ + 6)) by (widths; lia). rewrite (u16_small (20 + _)) by (widths; lia).
  rewrite (u32_small (_ + (20 + _))) by (widths; lia).
  rewrite (sum_be_bsum hdr) by (done || (pow2; lia)). rewrite (sum_be_bsum data) by (done || (pow2; lia)).
  fold (tcp_sum src_ip dest_ip hdr data).
  assert (Hsum : 0 < tcp_sum src_ip dest_ip hdr data < 2 ^ 32) by (unfold tcp_sum; pow2; lia).
  generalize dependent (tcp_sum src_ip dest_ip hdr data). intros x Hx.
  destruct (fold_carry_spec x) as (R1 & R2 & R3); [lia|]. exists (fold_carry 4 x).
  split; [|split; [lia|done]]. f_equal. unfold Z.lnot. clear -R1. widths. lia.
Qed.

Lemma le16_htons c : is_u16 c -> le16 (htons c) = [c / 256; c mod 256].
Proof. intros Hc. rewrite htons_eq by done. unfold le16. f_equal; [widths; lia|]. f_equal. widths. lia. Qed.

(** The header bytes before and after the checksum field. *)
Definition hdr_pre (h : tcp_header_t) : list Z :=
  le16 h.(tcp_src_port) ++ le16 h.(tcp_dest_port) ++ le32 h.(tcp_seq_num) ++ le32 h.(tcp_ack_num)
  ++ le16 h.(tcp_data_offset_flags) ++ le16 h.(tcp_window_size).
Lemma tcp_bytes_split h c :
  tcp_bytes (with_checksum h c) = hdr_pre h ++ le16 c ++ le16 h.(tcp_urgent_ptr).
Proof. unfold tcp_bytes, hdr_pre. cbn [with_checksum tcp_src_port tcp_dest_port tcp_seq_num tcp_ack_num
  tcp_data_offset_flags tcp_window_size tcp_checksum_field tcp_urgent_ptr]. by rewrite <- !app_assoc. Qed.

Definition header_ok (h : tcp_header_t) : Prop :=
  is_u16 h.(tcp_src_port) /\ is_u16 h.(tcp_dest_port) /\ is_u32 h.(tcp_seq_num) /\ is_u32 h.(tcp_ack_num) /\
  is_u16 h.(tcp_data_offset_flags) /\ is_u16 h.(tcp_window_size) /\ is_u16 h.(tcp_urgent_ptr).

Lemma le32_u8 v : is_u32 v -> Forall is_u8 (le32 v).
Proof. intros. unfold le32. repeat constructor; change (2 ^ 24) with 16777216; widths; lia. Qed.

Lemma hdr_pre_u8 h : header_ok h -> Forall is_u8 (hdr_pre h) /\ Forall is_u8 (le16 h.(tcp_urgent_ptr)).
Proof.
  intros (? & ? & ? & ? & ? & ? & ?). unfold hdr_pre. rewrite !Forall_app.
  split_and!; by (apply is_u8_rd16 || apply le32_u8).
Qed.

Lemma tcp_segment_sum src_ip dest_ip h data :
  is_ip src_ip -> is_ip dest_ip -> header_ok h -> h.(tcp_checksum_field) = 0 -> Forall is_u8 data -> zlen data <= 1480 ->
  let c := tcp_checksum src_ip dest_ip (tcp_bytes h) data in
  tcp_checksum src_ip dest_ip (tcp_bytes (with_checksum h c)) data = 0.
Proof.
  intros Hs Hd Hh Hc Hda Ld c. destruct (hdr_pre_u8 h Hh) as [Up Uq].
  assert (E0 : tcp_bytes h = hdr_pre h ++ le16 0 ++ le16 h.(tcp_urgent_ptr)).
  { rewrite <- tcp_bytes_split. f_equal. destruct h. cbn in *. by subst. }
  assert (U0 : Forall is_u8 (tcp_bytes h)) by (rewrite E0, !Forall_app; by split_and!; [|apply is_u8_rd16|]).
  destruct (tcp_checksum_eq src_ip dest_ip (tcp_bytes h) data Hs Hd U0 Hda) as (r & Ec & Hr & Hm); [by rewrite E0|done|].
  fold c in Ec. assert (Hc' : is_u16 (65535 - r)) by (widths; lia).
  assert (E1 : tcp_bytes (with_checksum h c) = hdr_pre h ++ [(65535 - r) / 256; (65535 - r) mod 256] ++ le16 h.(tcp_urgent_ptr))
    by (rewrite tcp_bytes_split, Ec, le16_htons by done; done).
  assert (U1 : Forall is_u8 (tcp_bytes (with_checksum h c))).
  { rewrite E1, !Forall_app. split_and!; [done| |done]. repeat constructor; widths; lia. }
  destruct (tcp_checksum_eq src_ip dest_ip (tcp_bytes (with_checksum h c)) data Hs Hd U1 Hda) as (r' & Ec' & Hr' & Hm');
    [by rewrite E1|done|].
  rewrite Ec'. replace r' with 65535; [done|]. unfold tcp_sum in Hm, Hm'. rewrite E0 in Hm. rewrite E1 in Hm'.
  rewrite !bsum_app in Hm, Hm' by done. cbn [bsum le16] in Hm, Hm'.
  change (0 mod 256) with 0 in Hm. change (0 / 256 mod 256) with 0 in Hm.
  pose proof (bsum_bounds src_ip (proj2 Hs)). pose proof (bsum_bounds dest_ip (proj2 Hd)).
  pose proof (bsum_bounds (hdr_pre h) Up). pose proof (bsum_bounds data Hda). pose proof (bsum_bounds _ Uq) as Hb. cbn [bsum le16] in Hb.
  clear -Hm Hm' Hr Hr'. generalize dependent (bsum src_ip). generalize dependent (bsum dest_ip).
  generalize dependent (bsum (hdr_pre h)). generalize dependent (bsum data).
  generalize dependent (256 * (tcp_urgent_ptr h mod 256)). intros.
  assert (r' mod 65535 = 0) by lia. lia.
Qed.

(** ** Data in the ESTABLISHED state *)
Lemma send_sock i f p s :
  let k := sock_at s.2 i in let k' := sock_at (tcp_send_packet i f p s).2 i in
  k'.(sk_ack) = k.(sk_ack) /\ queue k' = queue k /\ k'.(sk_state) = k.(sk_state).
Proof.
  cbv zeta. destruct (send_packet_tcp i f p s) as [-> | ->]; [done|].
  destruct (decide (0 <= i < tcp_socket_capacity s.2)) as [Hi|Hi]; [by rewrite sock_at_upd_eq|].
  unfold sock_at, upd, with_sockets. cbn [tcp_sockets]. unfold tcp_socket_capacity in Hi.
  by rewrite (proj2 (rd_None _ _)), (proj2 (rd_None _ _)) by (rewrite ?zlen_wr; done).
Qed.

Lemma established_data_sock km ticks i g s :
  in_table s i -> st s i = TCP_STATE_ESTABLISHED -> 0 < g.(sg_payload_len) ->
  seg_has g TCP_FLAG_FIN = false -> seg_has g TCP_FLAG_RST = false ->
  let k' := sock_at (handle_segment km ticks i g s).2 i in
  k'.(sk_ack) = u32 (g.(sg_seq) + g.(sg_payload_len)) /\ k'.(sk_state) = TCP_STATE_ESTABLISHED /\
  queue k' = queue (recv_store_break (Z.to_nat g.(sg_payload_len)) 0 g.(sg_payload) (sock_at s.2 i)).
Proof.
  intros Hi Hs Hd Hf Hr. unfold st in Hs. unfold handle_segment. rewrite Hs. unfold handle_established, established_fin. rewrite Hf, Hr.
  unfold established_data, seg_data. destruct (0 <? _) eqn:E; bool_hyps; [|lia]. cbv zeta.
  set (f := recv_store_break _ 0 _). set (a := set_ack _).
  assert (Hk : sock_at (on_sock i a (on_sock i f s)).2 i = a (f (sock_at s.2 i))).
  { unfold on_sock. cbn [snd]. rewrite sock_at_upd_eq by (rewrite capacity_upd; done). by rewrite sock_at_upd_eq. }
  pose proof (send_sock i TCP_FLAG_ACK [] (on_sock i a (on_sock i f s))) as Hsend. cbv zeta in Hsend.
  rewrite Hk in Hsend. destruct Hsend as (S1 & S2 & S3).
  unfold on_tcp. cbn [snd].
  change (sock_at (wait_queue_wake_all i WQ_RECV ?t) i) with (sock_at t i).
  rewrite S1, S2, S3. split_and!; [done| |done]. unfold a, f. cbn [sk_state set_ack]. by rewrite recv_store_break_state.
Qed.

(** ** Opening a connection *)
Lemma find_sock_unique t p i :
  0 <= i < tcp_socket_capacity t -> p i (sock_at t i) = true ->
  (forall j, 0 <= j < tcp_socket_capacity t -> j <> i -> p j (sock_at t j) = false) -> find_sock t p = Some i.
Proof.
  intros Hi Hp Ho. unfold find_sock. apply (find_loop_first _ _ _ i i).
  - rewrite Z2Nat.id by lia. lia.
  - by rewrite Hp.
  - intros j Hj. by rewrite Ho by lia.
Qed.

(** The state after a SYN has been accepted into slot [c]. *)
Record half_open (t t' : tcp) (c isn : Z) (g : segment) : Prop := {
  ho_slot : 0 <= c < tcp_socket_capacity t';
  ho_sock : let k := sock_at t' c in
    k.(sk_in_use) = true /\ k.(sk_state) = TCP_STATE_SYN_RCVD /\ k.(sk_local_port) = g.(sg_dest_port) /\
    k.(sk_remote_ip) = g.(sg_src_ip) /\ k.(sk_remote_port) = g.(sg_src_port) /\
    k.(sk_ack) = u32 (g.(sg_seq) + 1) /\ k.(sk_seq) = u32 (isn + 1);
  ho_old : forall j, 0 <= j < tcp_socket_capacity t -> j <> c -> sock_at t' j = sock_at t j;
  ho_new : forall j, tcp_socket_capacity t <= j < tcp_socket_capacity t' -> j <> c -> (sock_at t' j).(sk_in_use) = false
}.

Lemma send_resolved i flags payload n t f hop mac :
  netif_get_default n = Some f -> zlen payload <= 1480 ->
  route_get_next_hop n (sock_at t i).(sk_remote_ip) = Some hop -> arp_cache_lookup hop n = Some mac ->
  (tcp_send_packet i flags payload (n, t)).2 =
  upd i (set_seq (u32 ((sock_at t i).(sk_seq) + seq_advance flags (zlen payload)))) t.
Proof.
  intros Hf Hl Hr Ha. unfold tcp_send_packet, TCP_HEADER_SIZE. destruct (_ <? zlen payload) eqn:E; bool_hyps; [lia|].
  by rewrite Hr, Ha.
Qed.

Lemma syn_half_open km ticks n t l g c f hop mac :
  tcp_find_listening_socket t g.(sg_dest_port) = Some l -> is_ip g.(sg_src_ip) -> seg_has g TCP_FLAG_SYN = true ->
  (tcp_alloc_socket km t).1 = Some c -> netif_get_default n = Some f ->
  route_get_next_hop n g.(sg_src_ip) = Some hop -> arp_cache_lookup hop n = Some mac ->
  half_open t (handle_segment km ticks l g (n, t)).2 c (u32 (u32 ticks * 12345)) g /\
  sock_at (handle_segment km ticks l g (n, t)).2 l = sock_at t l.
Proof.
  intros Hl Hip Hsyn Hal Hf Hr Ha. apply find_sock_Some in Hl as (Hli & Hlp & _).
  apply andb_true_iff in Hlp as [[Hlu Hlport]%andb_true_iff Hls]. apply bool_decide_eq_true in Hls. apply Z.eqb_eq in Hlport.
  unfold handle_segment. cbn [snd]. rewrite Hls, handle_listen_eq by done. cbn [fst snd].
  destruct (tcp_alloc_socket km t) as [r t1] eqn:Ea. cbn [fst] in Hal. subst r. pose proof (alloc_spec _ _ _ _ Ea) as A.
  assert (Hlc : l <> c).
  { intros ->. pose proof (al_free _ _ _ A ltac:(lia)). congruence. }
  cbv zeta. set (t2 := use_pointer _ t1). set (port := sk_local_port (sock_at t2 l)).
  assert (Hport : port = g.(sg_dest_port)) by (unfold port, t2; rewrite sock_at_use, (al_old _ _ _ A l) by done; done).
  pose proof (al_slot _ _ _ A) as Hc. assert (Hc2 : 0 <= c < tcp_socket_capacity t2) by exact Hc.
  assert (Hk : sock_at (upd c (client_of ticks port g) t2) c = client_of ticks port g (sock_at t1 c))
    by (by rewrite sock_at_upd_eq).
  assert (Hrip : sk_remote_ip (sock_at (upd c (client_of ticks port g) t2) c) = g.(sg_src_ip))
    by (rewrite Hk; cbn [client_of set_window set_state set_ack set_seq set_remote sk_remote_ip]; by apply bytes_at_ip).
  rewrite (send_resolved c _ [] n (upd c (client_of ticks port g) t2) f hop mac) by (done || by rewrite Hrip).
  split; [split|].
  - by rewrite !capacity_upd.
  - cbv zeta. rewrite sock_at_upd_eq by (by rewrite capacity_upd). rewrite Hk.
    change (seq_advance (Z.lor TCP_FLAG_SYN TCP_FLAG_ACK) (zlen (@nil Z))) with 1.
    cbn [client_of set_window set_state set_ack set_seq set_remote set_local_port sk_in_use sk_state sk_local_port
      sk_remote_ip sk_remote_port sk_ack sk_seq].
    rewrite bytes_at_ip by done. split_and!; try done. apply A.
  - intros j Hj Hne. rewrite !sock_at_upd_ne by done. by apply A.
  - rewrite !capacity_upd. intros j Hj Hne. rewrite !sock_at_upd_ne by done. by apply A.
  - rewrite !sock_at_upd_ne by done. by apply A.
Qed.

(** ** Steps of the TCP layer *)
Inductive tcp_step (km : Z -> bool) : net * tcp -> net * tcp -> Prop :=
| step_segment ticks ip data len s : tcp_step km s (tcp_handle km ticks ip data len s)
| step_listen port n t : tcp_step km (n, t) (n, (tcp_listen km port t).2)
| step_create n t : tcp_step km (n, t) (n, (tcp_socket_create km t).2)
| step_bind sock port n t : tcp_step km (n, t) (n, (tcp_bind sock port t).2)
| step_accept sock n t : tcp_step km (n, t) (n, (tcp_accept km sock t).2)
| step_recv sock len n t : tcp_step km (n, t) (n, (tcp_recv sock len t).2)
| step_send sock buf s : tcp_step km s (tcp_send sock buf s).2
| step_relisten i port s : tcp_step km s (tcp_close_and_relisten (Some i) port s)
| step_close i s : in_table s i -> (sock_at s.2 i).(sk_in_use) = true -> tcp_step km s (tcp_close (Some i) s)
| step_net n n' t : tcp_step km (n, t) (n', t).

Inductive tcp_reachable (km : Z -> bool) (s0 : net * tcp) : net * tcp -> Prop :=
| reach_start : tcp_reachable km s0 s0
| reach_step s s' : tcp_reachable km s0 s -> tcp_step km s s' -> tcp_reachable km s0 s'.

Lemma tcp_step_wf km s s' : tcp_step km s s' -> wf2 s -> wf2 s'.
Proof.
  destruct 1; intros W; unfold wf2 in *; cbn [snd] in *; try done.
  - by apply tcp_handle_wf.
  - by apply listen_wf.
  - by apply create_wf.
  - by apply bind_wf.
  - by apply accept_wf.
  - by apply recv_wf.
  - unfold tcp_send. destruct sock as [i|]; [|done]. repeat case_if; try done. by apply send_wf.
  - by apply relisten_wf.
  - by apply close_wf.
Qed.

Lemma tcp_init_wf km t : tcp_wf (tcp_init km t).
Proof. unfold tcp_init. apply grow_wf. split; [done|done|constructor]. Qed.

(** A table with a listening socket on port 80 and an open connection. *)
Definition demo_listener : tcp_socket_t :=
  mk_sock TCP_STATE_LISTEN true 80 0 [0; 0; 0; 0] 0 0 8192 0 (sk_recv_buffer zero_sock) 0 0 0.
Definition demo_conn : tcp_socket_t :=
  mk_sock TCP_STATE_ESTABLISHED true 80 4000 [10; 0; 2; 2] 100 200 4096 0 (sk_recv_buffer zero_sock) 4095 4095 0.
Definition demo_tcp : tcp :=
  mk_tcp_state (demo_listener :: demo_conn :: replicate 6 (tcp_init_socket zero_sock)) 2 1 false [].

Lemma demo_tcp_wf : tcp_wf demo_tcp.
Proof. split; [done|done|]. repeat (apply Forall_cons_2; [by split|]). apply Forall_nil_2. Qed.

Definition demo_data (len : Z) : segment := mk_seg [10; 0; 2; 2] 4000 80 200 100 0x18 [1; 2; 3] len.
Definition demo_syn : segment := mk_seg [10; 0; 2; 2] 5000 80 700 0 0x02 [] 0.
Definition demo_syn_ack : segment := mk_seg [10; 0; 2; 2] 5000 80 701 12346 0x10 [] 0.

Section properties.

(** C7. Every reachable state of the TCP layer, whatever segments arrive and
    whichever calls are made (closing only sockets that are in use), has a
    socket count equal to the number of slots in use, at most 256 slots, and
    well-formed receive buffers. *)
Theorem tcp_reachable_wf km n t0 s :
  tcp_reachable km (n, tcp_init km t0) s ->
  tcp_get_active_socket_count s.2 = in_use_count s.2.(tcp_sockets) /\
  tcp_get_socket_count s.2 <= TCP_MAX_SOCKETS /\ Forall ring_ok s.2.(tcp_sockets).
Proof.
  intros R. assert (W : wf2 s).
  { induction R as [|s s' _ IH Hstep]; [apply tcp_init_wf|]. by eapply tcp_step_wf. }
  destruct W as [? ? ?]. done.
Qed.

Lemma tcp_reachable_wf_witness :
  let s := (demo_net, (tcp_listen (fun _ => true) 80 (tcp_init (fun _ => true) demo_tcp)).2) in
  tcp_get_active_socket_count s.2 = in_use_count s.2.(tcp_sockets) /\
  tcp_get_socket_count s.2 <= TCP_MAX_SOCKETS /\ Forall ring_ok s.2.(tcp_sockets).
Proof.
  apply (tcp_reachable_wf (fun _ => true) demo_net demo_tcp).
  eapply reach_step; [apply reach_start|]. apply step_listen.
Defined.

(** C5. The receive path is a bounded FIFO: a data segment appends to the
    bytes waiting on its socket the longest prefix of its payload that fits,
    and [tcp_recv] takes bytes off the front, in order, without loss. *)
Theorem tcp_stream_fifo km ticks i g s len :
  wf2 s -> in_table s i -> st s i = TCP_STATE_ESTABLISHED -> 0 < g.(sg_payload_len) -> 0 < len ->
  seg_has g TCP_FLAG_FIN = false -> seg_has g TCP_FLAG_RST = false ->
  let s' := handle_segment km ticks i g s in
  let room := TCP_RECV_BUFFER_SIZE - zlen (queue (sock_at s.2 i)) in
  let q := queue (sock_at s.2 i) ++ take (Z.to_nat room) (rd0 g.(sg_payload) <$> seqZ 0 g.(sg_payload_len)) in
  queue (sock_at s'.2 i) = q /\
  let '(r, out, t) := tcp_recv (Some i) len s'.2 in
  r = zlen out /\ out = take (Z.to_nat len) q /\ queue (sock_at t i) = drop (Z.to_nat len) q.
Proof.
  intros W Hi Hs Hd Hlen Hf Hr. cbv zeta.
  destruct (established_data_sock km ticks i g s Hi Hs Hd Hf Hr) as (_ & Hst & Hq).
  pose proof (sock_at_ring s.2 i W) as Hring.
  destruct (recv_store_break_queue (Z.to_nat g.(sg_payload_len)) 0 g.(sg_payload) _ Hring) as (_ & Eq).
  rewrite Z2Nat.id in Eq by lia. rewrite queue_length by apply Hring. rewrite Eq in Hq. split; [done|].
  pose proof (handle_segment_wf km ticks i g s W) as W'.
  destruct (handle_segment_moves km ticks i g s Hi) as [T _]; [by rewrite Hs|].
  pose proof (in_table_touches _ _ _ T Hi) as Hi'. unfold in_table in Hi'.
  generalize dependent (handle_segment km ticks i g s). intros s' Hst Hq W' _ Hi'.
  unfold tcp_recv. destruct (len <=? 0) eqn:E; bool_hyps; [lia|]. rewrite Hst.
  change (is_state TCP_STATE_ESTABLISHED TCP_STATE_ESTABLISHED) with true. cbn [negb andb].
  pose proof (recv_loop_queue (Z.to_nat len) (sock_at s'.2 i) [] (sock_at_ring s'.2 i W')) as Hl.
  destruct (recv_loop _ _ _) as [out k']. destruct Hl as (_ & Eo & Ed). cbn [app] in Eo.
  rewrite sock_at_upd_eq by done. by rewrite Eo, Ed, Hq.
Qed.

Lemma tcp_stream_fifo_witness :
  let s' := handle_segment (fun _ => true) 0 1 (demo_data 3) (demo_net, demo_tcp) in
  let room := TCP_RECV_BUFFER_SIZE - zlen (queue (sock_at demo_tcp 1)) in
  let q := queue (sock_at demo_tcp 1) ++ take (Z.to_nat room) (rd0 [1; 2; 3] <$> seqZ 0 3) in
  queue (sock_at s'.2 1) = q /\
  let '(r, out, t) := tcp_recv (Some 1) 2 s'.2 in
  r = zlen out /\ out = take (Z.to_nat 2) q /\ queue (sock_at t 1) = drop (Z.to_nat 2) q.
Proof.
  apply (tcp_stream_fifo (fun _ => true) 0 1 (demo_data 3) (demo_net, demo_tcp) 2); [exact demo_tcp_wf|done..].
Defined.

(** C6. The state machine: a received segment changes at most one socket that
    was in use, and moves it along one of the edges of [tcp_edge]; any other
    slot it changes was free and becomes a connection in SYN_RCVD on the port
    of a listening socket. *)
Theorem tcp_segment_transitions km ticks ip data len s :
  let s' := tcp_handle km ticks ip data len s in
  s'.2 = s.2 \/
  exists i, seg_socket (parse_segment ip data len) s.2 = Some i /\
    ((st s i <> TCP_STATE_LISTEN /\ touches i s.2 s'.2 /\ tcp_edge (st s i) (st s' i)) \/
     (st s i = TCP_STATE_LISTEN /\
      forall j, 0 <= j < tcp_socket_capacity s.2 ->
        sock_at s'.2 j = sock_at s.2 j \/
        (sock_at s.2 j).(sk_in_use) = false /\ st s' j = TCP_STATE_SYN_RCVD /\
          (sock_at s'.2 j).(sk_local_port) = (sock_at s.2 i).(sk_local_port))).
Proof.
  cbv zeta. unfold tcp_handle. case_if; [by left|]. cbv zeta.
  destruct (seg_socket _ s.2) as [i|] eqn:E; [|left; by case_if]. right. exists i. split; [done|].
  assert (Hi : in_table s i /\ (sock_at s.2 i).(sk_in_use) = true).
  { unfold seg_socket in E. destruct (tcp_find_socket _ _ _ _) as [x|] eqn:F.
    - injection E as ->. apply find_sock_Some in F as (? & Hp & _). by apply andb_true_iff in Hp as [? _].
    - destruct (_ && _); [|done]. apply find_sock_Some in E as (? & Hp & _).
      by apply andb_true_iff in Hp as [[? _]%andb_true_iff _]. }
  destruct Hi as [Hi Hu]. destruct (decide (st s i = TCP_STATE_LISTEN)) as [Hl|Hl].
  - right. split; [done|]. intros j Hj. unfold handle_segment. unfold st in Hl. rewrite Hl.
    by apply handle_listen_others.
  - left. split; [done|]. by apply handle_segment_moves.
Qed.

(** The segments a socket sends verify: recomputing the checksum over the
    pseudo header, the emitted header and the payload gives zero. *)
Theorem tcp_segment_checksum_verifies src_ip k flags payload :
  is_ip src_ip -> is_ip k.(sk_remote_ip) -> is_u32 k.(sk_seq) -> Forall is_u8 payload -> zlen payload <= 1480 ->
  let h := sock_header k flags in
  let c := tcp_checksum src_ip k.(sk_remote_ip) (tcp_bytes h) payload in
  tcp_segment src_ip k.(sk_remote_ip) h payload = tcp_bytes (with_checksum h c) ++ payload /\
  tcp_checksum src_ip k.(sk_remote_ip) (tcp_bytes (with_checksum h c)) payload = 0.
Proof.
  intros Hs Hd Hq Hp Hl h c. split; [done|]. apply tcp_segment_sum; try done.
  unfold h, sock_header, header_ok. cbn [tcp_src_port tcp_dest_port tcp_seq_num tcp_ack_num tcp_data_offset_flags
    tcp_window_size tcp_urgent_ptr].
  split_and!; (apply htons_range || apply htonl_range || done).
Qed.

Lemma tcp_segment_checksum_verifies_witness :
  let h := sock_header demo_conn 0x18 in
  let c := tcp_checksum [10; 0; 2; 15] demo_conn.(sk_remote_ip) (tcp_bytes h) [104; 105; 33] in
  tcp_segment [10; 0; 2; 15] demo_conn.(sk_remote_ip) h [104; 105; 33] = tcp_bytes (with_checksum h c) ++ [104; 105; 33] /\
  tcp_checksum [10; 0; 2; 15] demo_conn.(sk_remote_ip) (tcp_bytes (with_checksum h c)) [104; 105; 33] = 0.
Proof.
  apply (tcp_segment_checksum_verifies [10; 0; 2; 15] demo_conn 0x18 [104; 105; 33]);
    [split; [done|by repeat constructor]|split; [done|by repeat constructor]|done|by repeat constructor|done].
Defined.

(** Acknowledged data can be lost: a segment longer than the free room of
    the receive buffer is acknowledged in full although only the first bytes
    are kept, so the sender never retransmits the rest. *)
Theorem tcp_acks_dropped_data km ticks i g s :
  wf2 s -> in_table s i -> st s i = TCP_STATE_ESTABLISHED ->
  seg_has g TCP_FLAG_FIN = false -> seg_has g TCP_FLAG_RST = false ->
  TCP_RECV_BUFFER_SIZE - zlen (queue (sock_at s.2 i)) < g.(sg_payload_len) -> 0 < g.(sg_payload_len) ->
  let k' := sock_at (handle_segment km ticks i g s).2 i in
  k'.(sk_ack) = u32 (g.(sg_seq) + g.(sg_payload_len)) /\
  zlen (queue k') - zlen (queue (sock_at s.2 i)) < g.(sg_payload_len).
Proof.
  intros W Hi Hs Hf Hr Hroom Hd. cbv zeta.
  destruct (established_data_sock km ticks i g s Hi Hs Hd Hf Hr) as (Ha & _ & Hq). split; [done|].
  pose proof (sock_at_ring s.2 i W) as Hring.
  destruct (recv_store_break_queue (Z.to_nat g.(sg_payload_len)) 0 g.(sg_payload) _ Hring) as (_ & Eq).
  rewrite Hq, Eq, zlen_app. unfold zlen at 2. rewrite length_take.
  rewrite queue_length in * by apply Hring. pose proof (rg_count _ Hring). lia.
Qed.

Lemma tcp_acks_dropped_data_witness :
  let k' := sock_at (handle_segment (fun _ => true) 0 1 (demo_data 5000) (demo_net, demo_tcp)).2 1 in
  k'.(sk_ack) = u32 (200 + 5000) /\ zlen (queue k') - zlen (queue (sock_at demo_tcp 1)) < 5000.
Proof.
  apply (tcp_acks_dropped_data (fun _ => true) 0 1 (demo_data 5000) (demo_net, demo_tcp)); [exact demo_tcp_wf|done..].
Defined.

(** Growing the table frees the one the listening socket is in: a SYN
    that arrives when every slot is in use and the table can grow makes the
    handler read the listening socket through the freed table. *)
Theorem tcp_syn_uses_freed_table km ticks i g s :
  (forall j, in_table s j -> (sock_at s.2 j).(sk_in_use) = true) ->
  tcp_socket_capacity s.2 < TCP_MAX_SOCKETS -> (forall c, km c = true) ->
  seg_has g TCP_FLAG_SYN = true -> st s i = TCP_STATE_LISTEN -> in_table s i ->
  (handle_segment km ticks i g s).2.(dangling) = true.
Proof.
  intros Hall Hcap Hkm Hsyn Hl Hi. unfold st in Hl. unfold handle_segment. rewrite Hl, handle_listen_eq by done.
  assert (Hn : find_sock s.2 (fun _ k => negb k.(sk_in_use)) = None).
  { apply find_sock_None. intros j Hj. by rewrite Hall. }
  destruct (tcp_alloc_socket km s.2) as [r t] eqn:Ea. revert Ea. unfold tcp_alloc_socket. rewrite Hn.
  destruct (tcp_grow_sockets km s.2) as [ok t1] eqn:G. assert (ok = true) as ->.
  { revert G. unfold tcp_grow_sockets. destruct (_ <=? _) eqn:?; bool_hyps; [lia|]. cbv zeta. rewrite Hkm.
    cbn [negb]. by intros [= <- _]. }
  destruct (grow_spec km s.2 t1 G) as (Hc & Hg & _ & Hfree).
  destruct (find_sock t1 _) as [c|] eqn:Ef.
  - intros [= <- <-]. cbv zeta. rewrite (tc_dang _ _ _ (touches_send _ _ _ _)). cbn [snd upd with_sockets dangling use_pointer].
    change ((take_slot c t1).(tcp_gen)) with t1.(tcp_gen). rewrite Hg.
    destruct (_ =? _) eqn:?; bool_hyps; [lia|]. apply orb_true_r.
  - exfalso. pose proof (proj1 (find_sock_None _ _) Ef (tcp_socket_capacity s.2)) as Hx. cbn beta in Hx.
    unfold in_table in Hi. rewrite Hfree in Hx by lia. specialize (Hx ltac:(lia)). done.
Qed.

Lemma tcp_syn_uses_freed_table_witness :
  (handle_segment (fun _ => true) 0 0 demo_syn (demo_net, mk_tcp_state [demo_listener] 1 1 false [])).2.(dangling) = true.
Proof.
  apply (tcp_syn_uses_freed_table (fun _ => true) 0 0 demo_syn (demo_net, mk_tcp_state [demo_listener] 1 1 false []));
    try done.
  intros j Hj. unfold in_table in Hj. change (tcp_socket_capacity _) with 1 in Hj.
  assert (j = 0) as -> by lia. done.
Defined.

(** Passive open: a SYN for a listening port gets its own socket, which
    answers from the initial sequence number and waits; the peer's
    acknowledgement of that number selects this very socket and establishes
    it, while the listening socket stays as it was. *)
Theorem tcp_passive_open km ticks ticks2 n t l g g2 c f hop mac :
  tcp_find_socket t g.(sg_dest_port) g.(sg_src_ip) g.(sg_src_port) = None ->
  tcp_find_listening_socket t g.(sg_dest_port) = Some l -> is_ip g.(sg_src_ip) ->
  seg_has g TCP_FLAG_SYN = true -> seg_has g TCP_FLAG_ACK = false ->
  (tcp_alloc_socket km t).1 = Some c -> netif_get_default n = Some f ->
  route_get_next_hop n g.(sg_src_ip) = Some hop -> arp_cache_lookup hop n = Some mac ->
  let isn := u32 (u32 ticks * 12345) in
  g2.(sg_src_ip) = g.(sg_src_ip) -> g2.(sg_src_port) = g.(sg_src_port) -> g2.(sg_dest_port) = g.(sg_dest_port) ->
  seg_has g2 TCP_FLAG_ACK = true -> seg_has g2 TCP_FLAG_RST = false -> g2.(sg_ack) = u32 (isn + 1) ->
  let s1 := handle_segment km ticks l g (n, t) in
  seg_socket g t = Some l /\ half_open t s1.2 c isn g /\ sock_at s1.2 l = sock_at t l /\
  seg_socket g2 s1.2 = Some c /\
  let s2 := handle_segment km ticks2 c g2 s1 in
  st s2 c = TCP_STATE_ESTABLISHED /\ sock_at s2.2 l = sock_at t l.
Proof.
  intros Hnone Hl Hip Hsyn Hnack Hal Hf Hr Ha isn Eip Esp Edp Hack2 Hrst2 Hnum s1.
  destruct (syn_half_open km ticks n t l g c f hop mac Hl Hip Hsyn Hal Hf Hr Ha) as [HO Hlist]. fold s1 isn in HO, Hlist.
  destruct (ho_sock _ _ _ _ _ HO) as (K1 & K2 & K3 & K4 & K5 & K6 & K7). pose proof (ho_slot _ _ _ _ _ HO) as Hc.
  split; [by unfold seg_socket; rewrite Hnone, Hsyn, Hnack|]. split; [done|]. split; [done|].
  assert (Hsel : seg_socket g2 s1.2 = Some c).
  { unfold seg_socket. rewrite Edp, Eip, Esp. unfold tcp_find_socket. rewrite (find_sock_unique _ _ c); [done|done| |].
    - by rewrite K1, K3, K4, K5, !Z.eqb_refl, ip_equals_refl.
    - intros j Hj Hne. destruct (decide (j < tcp_socket_capacity t)).
      + rewrite (ho_old _ _ _ _ _ HO) by (done || lia).
        unfold tcp_find_socket in Hnone. rewrite find_sock_None in Hnone. apply (Hnone j). lia.
      + rewrite (ho_new _ _ _ _ _ HO) by (done || lia). done. }
  split; [done|].
  assert (Hlc : l <> c).
  { intros ->. rewrite Hlist in K2. apply find_sock_Some in Hl as (_ & Hp & _).
    apply andb_true_iff in Hp as [_ Hp]. apply bool_decide_eq_true in Hp. congruence. }
  assert (Hst : st s1 c = TCP_STATE_SYN_RCVD) by exact K2.
  destruct (handle_segment_moves km ticks2 c g2 s1 Hc) as [T _]; [by rewrite Hst|].
  split; [|by rewrite (tc_other _ _ _ T l Hlc)].
  unfold handle_segment. rewrite K2. unfold handle_syn_rcvd. rewrite Hack2, andb_false_r, Hrst2.
  unfold syn_rcvd_ack. rewrite Hack2, K7, Hnum, Z.eqb_refl. cbv zeta.
  match goal with |- st (syn_rcvd_data c g2 ?s) c = _ => destruct (syn_rcvd_data_keep c g2 s) as [_ ->] end.
  by rewrite st_listener, st_wake, st_on_sock.
Qed.

Lemma tcp_passive_open_witness :
  let s1 := handle_segment (fun _ => true) 1 0 demo_syn (demo_net, demo_tcp) in
  seg_socket demo_syn demo_tcp = Some 0 /\ half_open demo_tcp s1.2 2 (u32 (u32 1 * 12345)) demo_syn /\
  sock_at s1.2 0 = sock_at demo_tcp 0 /\ seg_socket demo_syn_ack s1.2 = Some 2 /\
  let s2 := handle_segment (fun _ => true) 2 2 demo_syn_ack s1 in
  st s2 2 = TCP_STATE_ESTABLISHED /\ sock_at s2.2 0 = sock_at demo_tcp 0.
Proof.
  apply (tcp_passive_open (fun _ => true) 1 2 demo_net demo_tcp 0 demo_syn demo_syn_ack 2 demo_if [10; 0; 2; 2]
    [0x52; 0x55; 10; 0; 2; 2]); try done. split; [done|by repeat constructor].
Defined.
End properties.
