(* ===== verification/Stack.v ===== *)
(** The whole network stack: the state of ICMP, TCP, DNS and DHCP side by
    side, their handlers as the transport layer of IPv4 and the clients of
    UDP, and what the composition achieves end to end.  Also the parts of
    src/net/l3/icmp.c that use the resolver. *)
From S2P Require Import Prelude NetBase Route Arp Ipv4 Udp Dns Icmp Dhcp Tcp.

(** ** State and instances *)
Record stack := mk_stack { st_icmp : icmp; st_tcp : tcp; st_dns : dns; st_dhcp : dhcp }.

(** What one run of a handler takes from outside: the answers of the heap, the
    two clocks, and the stack memory behind a local array. *)
Record env := mk_env { env_kmalloc_ok : Z -> bool; env_ticks : Z; env_now : Z; env_mem : list Z }.

Definition with_icmp (u : stack) (c : icmp) : stack := mk_stack c u.(st_tcp) u.(st_dns) u.(st_dhcp).
Definition with_tcp (u : stack) (t : tcp) : stack := mk_stack u.(st_icmp) t u.(st_dns) u.(st_dhcp).
Definition with_dns (u : stack) (d : dns) : stack := mk_stack u.(st_icmp) u.(st_tcp) d u.(st_dhcp).
Definition with_dhcp (u : stack) (d : dhcp) : stack := mk_stack u.(st_icmp) u.(st_tcp) u.(st_dns) d.

(** Run a handler of one protocol on its part of the state. *)
Definition on {A} (get : stack -> A) (set : stack -> A -> stack) (f : net * A -> net * A) (s : net * stack)
    : net * stack :=
  let '(n, a) := f (s.1, get s.2) in (n, set s.2 a).

#[export] Instance stack_apps : UdpApps stack := {|
  dhcp_handle_packet data len := on st_dhcp with_dhcp (dhcp_handle None data len);
  dns_handle_packet data len := on st_dns with_dns (dns_handle data len)
|}.

Definition stack_transport (e : env) : Transport stack := {|
  icmp_handle_packet netif eth ip data len :=
    on st_icmp with_icmp (icmp_handle e.(env_now) e.(env_mem) netif eth ip data len);
  tcp_handle_packet ip data len := on st_tcp with_tcp (tcp_handle e.(env_kmalloc_ok) e.(env_ticks) ip data len);
  udp_handle_packet _ data len := udp_handle data len
|}.

(** A frame of [len] bytes arrives on an interface; [buffer] is the driver's
    buffer from the first byte of the frame. *)
Definition net_rx (e : env) (netif : NetInterface) (buffer : list Z) (len : Z) (s : net * stack) : net * stack :=
  @ethernet_handle_packet_netif stack (stack_transport e) (Some netif) buffer len s.

(** ** Name resolution for ping *)
Section resolve.
(** [wait k] is what the interrupts of the [k]-th halt do. *)
Variable wait : Z -> net * stack -> net * stack.

(** [while (dns_is_pending() && timeout < 50)] *)
Fixpoint resolve_wait (fuel : nat) (hostname : list Z) (timeout : Z) (s : net * stack) : net * stack :=
  match fuel with
  | O => s
  | S fuel' =>
      if dns_is_pending s.2.(st_dns) then
        let s := wait timeout s in
        let timeout := timeout + 1 in
        let s := if (timeout =? 5) && dns_is_pending s.2.(st_dns)
                 then on st_dns with_dns (dns_send_query hostname) s else s in
        resolve_wait fuel' hostname timeout s
      else s
  end.

Definition resolve_hostname (hostname : list Z) (s : net * stack) : option (list Z) * (net * stack) :=
  match dns_cache_lookup hostname s.2.(st_dns) with
  | (Some ip, d) => (Some ip, (s.1, with_dns s.2 d))
  | (None, d) =>
      let s := (s.1, with_dns s.2 d) in
      let s := on st_dns with_dns (dns_send_query hostname) s in
      let s := resolve_wait 50 hostname 0 s in
      (dns_get_result s.2.(st_dns), s)
  end.
End resolve.

Definition set_ping_hostname (name : list Z) (c : icmp) : icmp :=
  let p := c.(g_ping) in
  with_ping c (mk_ping p.(pg_dest_ip) (take 63 name) p.(pg_identifier) p.(pg_sequence) p.(pg_sent) p.(pg_received)
    p.(pg_ttl) p.(pg_time) p.(pg_send_time) p.(pg_min_time) p.(pg_max_time) p.(pg_total_time) p.(pg_waiting)
    p.(pg_active)).

(** [ping]: -1 when the name does not resolve. *)
Definition ping (clock : Z -> Z) (dns_wait : Z -> net * stack -> net * stack)
    (ping_halt : Z -> net * icmp -> net * icmp) (hostname : list Z) (s : net * stack) : Z * (net * stack) :=
  match resolve_hostname dns_wait hostname s with
  | (None, s) => (-1, s)
  | (Some ip, s) =>
      let u := with_icmp s.2 (set_ping_hostname hostname s.2.(st_icmp)) in
      let '(r, (n, c)) := ping_ip clock ping_halt ip (s.1, u.(st_icmp)) in
      (r, (n, with_icmp u c))
  end.

(** ** A link between two machines *)
(** Machine B answers the last frame machine A sent, and A receives the last
    frame B sent. *)
Definition exchange (ea eb : env) (fa fb : NetInterface) (b : net * stack) (ua : stack) (s : net * icmp)
    : net * icmp :=
  match list.last s.1.(tx) with
  | None => s
  | Some request =>
      match list.last (net_rx eb fb request (zlen request) b).1.(tx) with
      | None => s
      | Some reply =>
          let a := net_rx ea fa reply (zlen reply) (s.1, with_icmp ua s.2) in
          (a.1, a.2.(st_icmp))
      end
  end.

(** ** Lemmas *)
(** An interface that can take part in a conversation. *)
Definition if_ok (f : NetInterface) : Prop :=
  is_mac f.(ni_mac_addr) /\ is_u32 f.(ni_ip_addr) /\ f.(ni_send) = true /\ f.(ni_ip_addr) <> 0.

Lemma echo_delivered fa fb mac payload n :
  if_ok fa -> if_ok fb -> is_mac mac -> zlen payload <= 1484 ->
  let n' := ipv4_send_packet (Some fa) mac (ip_u32_to_bytes fb.(ni_ip_addr)) IP_PROTO_ICMP payload n in
  exists frame, n'.(tx) = n.(tx) ++ [frame] /\
  exists eth ip pad, eth.(eth_src_mac) = fa.(ni_mac_addr) /\ ip.(ip_src_ip) = ip_u32_to_bytes fa.(ni_ip_addr) /\
    forall e s, net_rx e fb frame (zlen frame) s =
      on st_icmp with_icmp (icmp_handle e.(env_now) e.(env_mem) (Some fb) eth ip (payload ++ pad) (zlen payload)) s.
Proof.
  intros (Ma & Ia & Sa & _) (_ & Ib & _ & Zb) Mm Hl n'.
  destruct (ipv4_delivers fa fb mac IP_PROTO_ICMP payload n) as (frame & Etx & _ & _ & eth & ip & pad & Ee & Ei & _ & Hd);
    try done.
  exists frame. split; [done|]. exists eth, ip, pad. split; [by rewrite Ee|]. split; [done|].
  intros e s. unfold net_rx. rewrite Hd. done.
Qed.

(** B's answer to an echo request, and A's reception of it. *)
Lemma echo_exchange ea eb fa fb mac b ua n c p :
  if_ok fa -> if_ok fb -> is_mac mac -> is_u16 p.(pg_identifier) ->
  c.(g_ping).(pg_identifier) = p.(pg_identifier) -> c.(g_ping).(pg_active) = true -> c.(g_ping).(pg_waiting) = true ->
  let n1 := ipv4_send_packet (Some fa) mac (ip_u32_to_bytes fb.(ni_ip_addr)) IP_PROTO_ICMP (echo_request p) n in
  exists ttl, exchange ea eb fa fb b ua (n1, c) =
    (n1, with_ping c (ping_reply c.(g_ping) (u32 (ea.(env_now) - c.(g_ping).(pg_send_time))) ttl)).
Proof.
  intros Fa Fb Mm Hid Ec Ha Hw n1.
  destruct (echo_request_shape p Hid) as (a & bb & x & y & rest & Er & Hrest & Hxy).
  assert (Hlen : zlen (echo_request p) = 64) by (rewrite Er, zlen_app; unfold zlen; rewrite Hrest; done).
  destruct (echo_delivered fa fb mac (echo_request p) n Fa Fb Mm) as (frame & Etx & eth & ip & pad & Es & Ei & Hrx);
    [lia|]. fold n1 in Etx.
  unfold exchange. cbn [fst snd]. rewrite Etx, last_snoc, Hrx. unfold on. destruct b as [nb ub]. cbn [fst snd].
  rewrite icmp_handle_request; [|done|unfold REPLY_BUFFER; lia|by rewrite Er]. cbn [fst]. rewrite with_overrun_false, Es, Ei.
  set (reply := echo_reply _ _ _). assert (Hrl : zlen reply = 64) by (unfold reply; rewrite echo_reply_length; lia).
  destruct (echo_delivered fb fa fa.(ni_mac_addr) reply nb Fb Fa) as (frame2 & Etx2 & eth2 & ip2 & pad2 & _ & _ & Hrx2);
    [apply Fa|lia|].
  rewrite Etx2, last_snoc, Hrx2. unfold on. cbn [fst snd with_icmp st_icmp]. exists ip2.(ip_ttl).
  assert (Hshape : exists c1 c2, reply = [0; 0; c1; c2; x; y] ++ rest).
  { unfold reply. rewrite echo_reply_eq by (done || unfold REPLY_BUFFER; lia). rewrite Er. do 2 eexists. reflexivity. }
  destruct Hshape as (c1 & c2 & Hshape).
  rewrite icmp_handle_reply; [done|lia|by rewrite Hshape|rewrite Hshape, Ec, <- Hxy; done|done|done].
Qed.

Section waiting.
Context (clock : Z -> Z) (wait : Z -> net * icmp -> net * icmp) (dest_ip : list Z).

(** While nothing arrives a sent request is neither answered nor repeated. *)
Lemma ping_wait_idle m fuel k r s :
  0 < s.2.(g_ping).(pg_sent) -> s.2.(g_ping).(pg_waiting) = true ->
  (forall i, k <= i < k + Z.of_nat m -> wait i s = s) ->
  ping_wait clock wait (m + fuel) dest_ip k r s = ping_wait clock wait fuel dest_ip (k + Z.of_nat m) r s.
Proof.
  intros Hs Hw. revert k r. induction m as [|m IH]; intros k r Hi.
  - by rewrite Z.add_0_r.
  - cbn [Nat.add ping_wait]. rewrite Hi by lia. destruct (_ =? 0) eqn:E; bool_hyps; [lia|]. cbn [andb].
    rewrite Hw, andb_false_r. rewrite IH; [|intros; apply Hi; lia]. f_equal. lia.
Qed.
End waiting.

(** An IPv4 frame for the interface reaches the IPv4 layer. *)
Lemma rx_ipv4 e f eth ip data len s :
  is_mac eth.(eth_dest_mac) -> is_mac eth.(eth_src_mac) -> eth.(eth_ethertype) = htons ETH_TYPE_IPV4 -> 14 <= len ->
  net_rx e f (eth_bytes eth ++ ipv4_bytes ip ++ data) len s =
  @ipv4_handle_packet stack (stack_transport e) (Some f) eth (ipv4_bytes ip ++ data) (len - 14) s.
Proof.
  intros Md Ms Et Hl. unfold net_rx, ethernet_handle_packet_netif, ETHERNET_HEADER_SIZE.
  destruct (len <? 14) eqn:E; bool_hyps; [lia|]. rewrite eth_cast_bytes by (done || rewrite Et; apply htons_range).
  rewrite Et, ntohs_htons by done. change (ETH_TYPE_IPV4 =? ETH_TYPE_ARP) with false.
  change (ETH_TYPE_IPV4 =? ETH_TYPE_IPV4) with true. cbv iota.
  by rewrite drop_app_length' by (by rewrite eth_bytes_length).
Qed.

(** A 42-byte echo request without data whose IPv4 header claims [k] bytes of
    data. *)
Definition short_request (dest src : list Z) (f : NetInterface) (src_ip : list Z) (k : Z) : list Z :=
  eth_bytes (mk_eth dest src (htons ETH_TYPE_IPV4))
  ++ ipv4_bytes (mk_ipv4 69 0 (htons (28 + k)) 0 0 64 IP_PROTO_ICMP 0 src_ip (ip_u32_to_bytes f.(ni_ip_addr)))
  ++ [ICMP_TYPE_ECHO_REQUEST; 0; 0; 0; 0; 0; 0; 0].

Lemma short_request_rx e f dest src src_ip k residue s :
  if_ok f -> is_mac dest -> is_mac src -> is_ip src_ip -> 0 <= k <= 65507 ->
  let ip := mk_ipv4 69 0 (htons (28 + k)) 0 0 64 IP_PROTO_ICMP 0 src_ip (ip_u32_to_bytes f.(ni_ip_addr)) in
  net_rx e f (short_request dest src f src_ip k ++ residue) 42 s =
  on st_icmp with_icmp (icmp_handle e.(env_now) e.(env_mem) (Some f) (mk_eth dest src (htons ETH_TYPE_IPV4)) ip
    ([ICMP_TYPE_ECHO_REQUEST; 0; 0; 0; 0; 0; 0; 0] ++ residue) (8 + k)) s.
Proof.
  intros (Mf & If & Sf & Zf) Md Ms Hs Hk ip. unfold short_request. rewrite <- !app_assoc. fold ip.
  rewrite rx_ipv4 by (done || lia). pose proof (ip_u32_to_bytes_is_ip _ If).
  rewrite (ipv4_handle_ours f); try done; [|apply htons_range].
  unfold ip. cbn [ip_total_length ip_protocol]. rewrite ntohs_htons by (widths; lia).
  change (IP_PROTO_ICMP =? IP_PROTO_ICMP) with true. cbv iota zeta. by replace (28 + k - 20) with (8 + k) by lia.
Qed.

(** ** Properties *)
Definition demo_icmp : icmp :=
  mk_icmp_state (mk_ping [0; 0; 0; 0] [] 0 0 0 0 0 0 0 0 0 0 false false) 0x1234 false.
Definition demo_stack : stack :=
  mk_stack demo_icmp demo_tcp demo_dns demo_dhcp.
Definition demo_env (now : Z) : env := mk_env (fun _ => true) 0 now [].

Lemma short_request_leaks e f dest src src_ip k residue n u :
  if_ok f -> is_mac dest -> is_mac src -> is_ip src_ip -> 0 <= k <= 1476 -> k <= zlen residue ->
  exists reply, (net_rx e f (short_request dest src f src_ip k ++ residue) 42 (n, u)).1.(tx) = n.(tx) ++ [reply] /\
    take (Z.to_nat k) (drop 42 reply) = take (Z.to_nat k) residue.
Proof.
  intros Hf Md Ms Hs Hk Hr. rewrite short_request_rx by (done || lia). unfold on. cbn [fst snd].
  set (m := [ICMP_TYPE_ECHO_REQUEST; 0; 0; 0; 0; 0; 0; 0] ++ take (Z.to_nat k) residue).
  assert (Hm : zlen m = 8 + k) by (unfold m, zlen in *; rewrite length_app, length_take; cbn [length]; lia).
  replace ([ICMP_TYPE_ECHO_REQUEST; 0; 0; 0; 0; 0; 0; 0] ++ residue) with (m ++ drop (Z.to_nat k) residue)
    by (unfold m; by rewrite <- app_assoc, take_drop).
  rewrite icmp_handle_request by (done || unfold REPLY_BUFFER; lia). rewrite with_overrun_false.
  cbn [fst eth_src_mac ip_src_ip]. rewrite echo_reply_eq by (done || unfold REPLY_BUFFER; lia).
  destruct Hf as (Mf & If & Sf & Zf). rewrite ipv4_send_frame by done. eexists. split; [reflexivity|].
  destruct (ipv4_header_ok f src_ip IP_PROTO_ICMP (zlen (echo_reply e.(env_mem) (m ++ drop (Z.to_nat k) residue) (8 + k)))
    n.(ip_id_counter) n If Hs) as (H1 & H2 & _).
  rewrite echo_reply_eq in H1, H2 by (done || unfold REPLY_BUFFER; lia).
  set (hdr := ipv4_bytes _). assert (Hh : length hdr = 20%nat) by (by apply ipv4_bytes_length).
  rewrite drop_app_ge by (by rewrite eth_bytes_length; [lia|done|done]). rewrite eth_bytes_length by done.
  rewrite drop_app_ge by (rewrite Hh; lia). rewrite Hh. cbn [Nat.sub app le16 drop]. unfold m. cbn [app drop].
  rewrite drop_0.   rewrite take_app_le by (rewrite length_take; unfold zlen in Hr; lia). by rewrite take_take, Nat.min_id.
Qed.

Section properties.

(** C12. Ping succeeds against a live host: with a route and a resolved next
    hop, [ping_ip] sends one echo request; when the other machine's stack gets
    the frame and its answer comes back in any of the 60 halts, [ping_ip]
    returns 0 with one request sent, one reply received, the round-trip time
    taken from the two clock readings, and the ping inactive. *)
Theorem ping_answered clock ea eb fa fb na ca b ua hop mac j :
  netif_get_default na = Some fa -> if_ok fa -> if_ok fb -> is_mac mac ->
  let dest_ip := ip_u32_to_bytes fb.(ni_ip_addr) in
  route_get_next_hop na dest_ip = Some hop -> arp_cache_lookup hop na = Some mac -> 0 <= j < 60 ->
  let wait k := if k =? j then exchange ea eb fa fb b ua else fun s => s in
  let '(r, (n', c')) := ping_ip clock wait dest_ip (na, ca) in
  r = 0 /\ ping_get_stats c' = (1, 1) /\ ping_is_waiting c' = false /\
  c'.(g_ping).(pg_time) = u32 (ea.(env_now) - clock 0) /\
  c'.(g_ping).(pg_max_time) = c'.(g_ping).(pg_time) /\
  length n'.(tx) = S (length na.(tx)).
Proof.
  intros Hd Fa Fb Mm dest_ip Hr Harp Hj wait. unfold ping_ip. cbn [fst snd].
  set (c0 := ping_start dest_ip ca). unfold icmp_send_echo_request. rewrite Hd, Hr, Harp.
  set (n1 := ipv4_send_packet _ _ _ _ _ _). set (c1 := with_ping c0 (ping_request (g_ping c0) (clock 0))).
  assert (Hid : is_u16 (g_ping c0).(pg_identifier)) by apply u16_range.
  destruct (echo_exchange ea eb fa fb mac b ua na c1 (g_ping c0)) as (ttl & Hx); try done. fold dest_ip n1 in Hx.
  replace 60%nat with (Z.to_nat j + S (59 - Z.to_nat j))%nat by lia.
  rewrite ping_wait_idle; [|done|done|intros i Hi; unfold wait; destruct (i =? j) eqn:E; bool_hyps; [lia|done]].
  assert (Hw : wait (0 + Z.of_nat (Z.to_nat j)) (n1, c1) = exchange ea eb fa fb b ua (n1, c1)).
  { unfold wait. rewrite Z2Nat.id by lia. by rewrite Z.add_0_l, Z.eqb_refl. }
  rewrite ping_wait_done; rewrite Hw, Hx; [|done|done]. cbn [fst snd].
  split_and!; try done.
  - pose proof (u32_range (ea.(env_now) - clock 0)) as [Ht _].
    change ((if 0 <? u32 (ea.(env_now) - clock 0) then u32 (ea.(env_now) - clock 0) else 0) =
            u32 (ea.(env_now) - clock 0)).
    generalize dependent (u32 (ea.(env_now) - clock 0)). intros t Ht. destruct (0 <? t) eqn:E; bool_hyps; lia.
  - destruct (echo_delivered fa fb mac (echo_request (g_ping c0)) na Fa Fb Mm) as (fr & Etx & _);
      [by vm_compute|]. fold dest_ip n1 in Etx. rewrite Etx, length_app. cbn [length]. lia.
Qed.

Lemma ping_answered_witness :
  let dest_ip := ip_u32_to_bytes demo_peer.(ni_ip_addr) in
  let wait k := if k =? 7 then exchange (demo_env 130) (demo_env 0) demo_if demo_peer (demo_net, demo_stack) demo_stack
                else fun s => s in
  let '(r, (n', c')) := ping_ip (fun _ => 100) wait dest_ip (demo_net, demo_icmp) in
  r = 0 /\ ping_get_stats c' = (1, 1) /\ ping_is_waiting c' = false /\
  c'.(g_ping).(pg_time) = u32 ((demo_env 130).(env_now) - 100) /\
  c'.(g_ping).(pg_max_time) = c'.(g_ping).(pg_time) /\
  length n'.(tx) = S (length demo_net.(tx)).
Proof.
  apply (ping_answered (fun _ => 100) (demo_env 130) (demo_env 0) demo_if demo_peer demo_net demo_icmp
    (demo_net, demo_stack) demo_stack [10; 0; 2; 2] [0x52; 0x55; 10; 0; 2; 2] 7);
    try done; repeat split; try done; by repeat constructor.
Defined.

(** An echo request is answered with as many bytes as its header claims,
    received or not: a 42-byte frame that claims [k] more bytes of data gets a
    reply that carries the next [k] bytes of the driver's buffer, which the
    sender never sent, and from 1477 on the reply is written past the end of
    the send buffer on the stack. *)
Theorem icmp_trusts_length e f dest src src_ip k residue n u :
  if_ok f -> is_mac dest -> is_mac src -> is_ip src_ip -> 0 <= k <= 65507 -> k <= zlen residue ->
  let frame := short_request dest src f src_ip k in
  let s' := net_rx e f (frame ++ residue) (zlen frame) (n, u) in
  zlen frame = 42 /\
  (k <= 1476 -> exists reply, s'.1.(tx) = n.(tx) ++ [reply] /\
    take (Z.to_nat k) (drop 42 reply) = take (Z.to_nat k) residue) /\
  (1476 < k -> s'.1.(overrun) = true).
Proof.
  intros Hf Md Ms Hs Hk Hr. cbv zeta. pose proof (ip_u32_to_bytes_is_ip _ (proj1 (proj2 Hf))) as Hi.
  assert (Hz : zlen (short_request dest src f src_ip k) = 42).
  { unfold short_request, zlen. by rewrite !length_app, eth_bytes_length, ipv4_bytes_length. }
  rewrite Hz. split; [done|]. split; [intros; apply short_request_leaks; done || lia|].
  intros Hbig. rewrite short_request_rx by done. unfold on, icmp_handle. cbn [fst snd].
  unfold ICMP_HEADER_SIZE. destruct (8 + k <? 8) eqn:E; bool_hyps; [lia|].
  cbn [icmp_cast icmp_type]. change (rd0 ([ICMP_TYPE_ECHO_REQUEST; 0; 0; 0; 0; 0; 0; 0] ++ residue) 0)
    with ICMP_TYPE_ECHO_REQUEST. change (ICMP_TYPE_ECHO_REQUEST =? ICMP_TYPE_ECHO_REQUEST) with true. cbv iota.
  cbn [fst]. unfold ipv4_send_packet. rewrite transmit_hook by apply Hf. cbn [overrun with_tx with_ip_id with_overrun].
  rewrite echo_reply_length by lia. unfold SEND_BUFFER, ETHERNET_HEADER_SIZE, IPV4_HEADER_SIZE.
  destruct (_ <? 14 + 20 + (8 + k)) eqn:E2; bool_hyps; [by rewrite orb_true_r|lia].
Qed.

Lemma icmp_trusts_length_witness :
  let frame := short_request [2; 0; 0; 0; 0; 1] [2; 0; 0; 0; 0; 2] demo_peer [10; 0; 2; 9] 3 in
  let s' := net_rx (demo_env 0) demo_peer (frame ++ [7; 8; 9; 10]) (zlen frame) (demo_net, demo_stack) in
  zlen frame = 42 /\
  (3 <= 1476 -> exists reply, s'.1.(tx) = demo_net.(tx) ++ [reply] /\
    take (Z.to_nat 3) (drop 42 reply) = take (Z.to_nat 3) [7; 8; 9; 10]) /\
  (1476 < 3 -> s'.1.(overrun) = true).
Proof.
  apply (icmp_trusts_length (demo_env 0) demo_peer [2; 0; 0; 0; 0; 1] [2; 0; 0; 0; 0; 2] [10; 0; 2; 9] 3 [7; 8; 9; 10]
    demo_net demo_stack); try done; repeat split; try done; by repeat constructor.
Defined.
End properties.
