(* ===== verification/Thread.v ===== *)
(** Threads and the scheduler (src/kernel/thread.c, src/kernel/thread.h): wait
    queues, run queues per priority, the sleep queue, ticks with aging,
    preemption, and the operations on threads.

    A thread is named by the address of its structure, a [Z]; [threads] is the
    memory those structures lie in, and all list links are fields of it, as in
    the source.  A structure that is not in use is a zombie.  The functions run
    with interrupts off under a spinlock, so each is one step; a call of
    [scheduler_schedule] in the middle of a function ends the step, and what
    follows it is the function's continuation.  [now] is the timer's tick
    count.  Contexts (stack pointers, CR3, TSS) are not modelled. *)
From S2P Require Import Prelude.

(** ** Data *)
Definition THREAD_PRIORITY_IDLE : Z := 0.
Definition THREAD_PRIORITY_BACKGROUND : Z := 1.
Definition THREAD_PRIORITY_NORMAL : Z := 2.
Definition THREAD_PRIORITY_HIGH : Z := 3.
Definition THREAD_PRIORITY_UI : Z := 4.
Definition THREAD_PRIORITY_COUNT : Z := 5.
Definition THREAD_TIME_SLICE_DEFAULT : Z := 10.
Definition THREAD_NICE_MIN : Z := -20.
Definition THREAD_NICE_MAX : Z := 19.
Definition THREAD_AGING_THRESHOLD : Z := 100.
Definition ETIMEDOUT : Z := 110.

Inductive thread_state_t :=
| THREAD_STATE_READY | THREAD_STATE_RUNNING | THREAD_STATE_BLOCKED | THREAD_STATE_SLEEPING | THREAD_STATE_ZOMBIE.
#[export] Instance thread_state_eq_dec : EqDecision thread_state_t.
Proof. solve_decision. Defined.
Definition is_st (a b : thread_state_t) : bool := bool_decide (a = b).

(** The wait queues of the system, by address: the join queue of a thread,
    those of sockets and processes, which only the functions of this file
    touch, and those inside the objects of src/kernel/sync.c, which that file
    links by hand. *)
Inductive wq := WQ_JOIN (t : Z) | WQ_AT (a : Z) | WQ_SYNC (a : Z).
#[export] Instance wq_eq_dec : EqDecision wq.
Proof. solve_decision. Defined.

Record wait_queue := mk_wq { wq_head : option Z; wq_tail : option Z }.

Record thread := mk_thread {
  t_owner : option Z;
  t_state : thread_state_t;
  t_should_terminate : bool;
  t_exited : bool;
  t_exit_status : Z;
  t_first_switch : bool;
  t_base_priority : Z;
  t_priority : Z;
  t_time_slice_remaining : Z;
  t_nice : Z;
  t_is_boosted : bool;
  t_wait_start_tick : Z;
  t_cpu_ticks : Z;
  t_context_switches : Z;
  t_run_start_tick : Z;
  t_wake_tick : Z;
  t_waiting_queue : option wq;
  t_wait_queue_next : option Z;
  t_timeout_tick : Z;
  t_wait_result : Z;
  t_current_wait_queue : option wq;
  t_zombie_next : option Z;
  t_needs_yield : bool;
  t_sched_next : option Z;
  t_sched_prev : option Z;
  t_preempt_count : Z;
  t_preempt_pending : bool
}.

Definition put_owner (v : option Z) (k : thread) : thread :=
  mk_thread v k.(t_state) k.(t_should_terminate) k.(t_exited) k.(t_exit_status) k.(t_first_switch)
    k.(t_base_priority) k.(t_priority) k.(t_time_slice_remaining) k.(t_nice) k.(t_is_boosted) k.(t_wait_start_tick)
    k.(t_cpu_ticks) k.(t_context_switches) k.(t_run_start_tick) k.(t_wake_tick) k.(t_waiting_queue)
    k.(t_wait_queue_next) k.(t_timeout_tick) k.(t_wait_result) k.(t_current_wait_queue) k.(t_zombie_next)
    k.(t_needs_yield) k.(t_sched_next) k.(t_sched_prev) k.(t_preempt_count) k.(t_preempt_pending).
Definition put_state (v : thread_state_t) (k : thread) : thread :=
  mk_thread k.(t_owner) v k.(t_should_terminate) k.(t_exited) k.(t_exit_status) k.(t_first_switch)
    k.(t_base_priority) k.(t_priority) k.(t_time_slice_remaining) k.(t_nice) k.(t_is_boosted) k.(t_wait_start_tick)
    k.(t_cpu_ticks) k.(t_context_switches) k.(t_run_start_tick) k.(t_wake_tick) k.(t_waiting_queue)
    k.(t_wait_queue_next) k.(t_timeout_tick) k.(t_wait_result) k.(t_current_wait_queue) k.(t_zombie_next)
    k.(t_needs_yield) k.(t_sched_next) k.(t_sched_prev) k.(t_preempt_count) k.(t_preempt_pending).
Definition put_should_terminate (v : bool) (k : thread) : thread :=
  mk_thread k.(t_owner) k.(t_state) v k.(t_exited) k.(t_exit_status) k.(t_first_switch) k.(t_base_priority)
    k.(t_priority) k.(t_time_slice_remaining) k.(t_nice) k.(t_is_boosted) k.(t_wait_start_tick) k.(t_cpu_ticks)
    k.(t_context_switches) k.(t_run_start_tick) k.(t_wake_tick) k.(t_waiting_queue) k.(t_wait_queue_next)
    k.(t_timeout_tick) k.(t_wait_result) k.(t_current_wait_queue) k.(t_zombie_next) k.(t_needs_yield)
    k.(t_sched_next) k.(t_sched_prev) k.(t_preempt_count) k.(t_preempt_pending).
Definition put_exited (v : bool) (k : thread) : thread :=
  mk_thread k.(t_owner) k.(t_state) k.(t_should_terminate) v k.(t_exit_status) k.(t_first_switch)
    k.(t_base_priority) k.(t_priority) k.(t_time_slice_remaining) k.(t_nice) k.(t_is_boosted) k.(t_wait_start_tick)
    k.(t_cpu_ticks) k.(t_context_switches) k.(t_run_start_tick) k.(t_wake_tick) k.(t_waiting_queue)
    k.(t_wait_queue_next) k.(t_timeout_tick) k.(t_wait_result) k.(t_current_wait_queue) k.(t_zombie_next)
    k.(t_needs_yield) k.(t_sched_next) k.(t_sched_prev) k.(t_preempt_count) k.(t_preempt_pending).
Definition put_exit_status (v : Z) (k : thread) : thread :=
  mk_thread k.(t_owner) k.(t_state) k.(t_should_terminate) k.(t_exited) v k.(t_first_switch) k.(t_base_priority)
    k.(t_priority) k.(t_time_slice_remaining) k.(t_nice) k.(t_is_boosted) k.(t_wait_start_tick) k.(t_cpu_ticks)
    k.(t_context_switches) k.(t_run_start_tick) k.(t_wake_tick) k.(t_waiting_queue) k.(t_wait_queue_next)
    k.(t_timeout_tick) k.(t_wait_result) k.(t_current_wait_queue) k.(t_zombie_next) k.(t_needs_yield)
    k.(t_sched_next) k.(t_sched_prev) k.(t_preempt_count) k.(t_preempt_pending).
Definition put_first_switch (v : bool) (k : thread) : thread :=
  mk_thread k.(t_owner) k.(t_state) k.(t_should_terminate) k.(t_exited) k.(t_exit_status) v k.(t_base_priority)
    k.(t_priority) k.(t_time_slice_remaining) k.(t_nice) k.(t_is_boosted) k.(t_wait_start_tick) k.(t_cpu_ticks)
    k.(t_context_switches) k.(t_run_start_tick) k.(t_wake_tick) k.(t_waiting_queue) k.(t_wait_queue_next)
    k.(t_timeout_tick) k.(t_wait_result) k.(t_current_wait_queue) k.(t_zombie_next) k.(t_needs_yield)
    k.(t_sched_next) k.(t_sched_prev) k.(t_preempt_count) k.(t_preempt_pending).
Definition put_base_priority (v : Z) (k : thread) : thread :=
  mk_thread k.(t_owner) k.(t_state) k.(t_should_terminate) k.(t_exited) k.(t_exit_status) k.(t_first_switch) v
    k.(t_priority) k.(t_time_slice_remaining) k.(t_nice) k.(t_is_boosted) k.(t_wait_start_tick) k.(t_cpu_ticks)
    k.(t_context_switches) k.(t_run_start_tick) k.(t_wake_tick) k.(t_waiting_queue) k.(t_wait_queue_next)
    k.(t_timeout_tick) k.(t_wait_result) k.(t_current_wait_queue) k.(t_zombie_next) k.(t_needs_yield)
    k.(t_sched_next) k.(t_sched_prev) k.(t_preempt_count) k.(t_preempt_pending).
Definition put_priority (v : Z) (k : thread) : thread :=
  mk_thread k.(t_owner) k.(t_state) k.(t_should_terminate) k.(t_exited) k.(t_exit_status) k.(t_first_switch)
    k.(t_base_priority) v k.(t_time_slice_remaining) k.(t_nice) k.(t_is_boosted) k.(t_wait_start_tick)
    k.(t_cpu_ticks) k.(t_context_switches) k.(t_run_start_tick) k.(t_wake_tick) k.(t_waiting_queue)
    k.(t_wait_queue_next) k.(t_timeout_tick) k.(t_wait_result) k.(t_current_wait_queue) k.(t_zombie_next)
    k.(t_needs_yield) k.(t_sched_next) k.(t_sched_prev) k.(t_preempt_count) k.(t_preempt_pending).
Definition put_time_slice_remaining (v : Z) (k : thread) : thread :=
  mk_thread k.(t_owner) k.(t_state) k.(t_should_terminate) k.(t_exited) k.(t_exit_status) k.(t_first_switch)
    k.(t_base_priority) k.(t_priority) v k.(t_nice) k.(t_is_boosted) k.(t_wait_start_tick) k.(t_cpu_ticks)
    k.(t_context_switches) k.(t_run_start_tick) k.(t_wake_tick) k.(t_waiting_queue) k.(t_wait_queue_next)
    k.(t_timeout_tick) k.(t_wait_result) k.(t_current_wait_queue) k.(t_zombie_next) k.(t_needs_yield)
    k.(t_sched_next) k.(t_sched_prev) k.(t_preempt_count) k.(t_preempt_pending).
Definition put_nice (v : Z) (k : thread) : thread :=
  mk_thread k.(t_owner) k.(t_state) k.(t_should_terminate) k.(t_exited) k.(t_exit_status) k.(t_first_switch)
    k.(t_base_priority) k.(t_priority) k.(t_time_slice_remaining) v k.(t_is_boosted) k.(t_wait_start_tick)
    k.(t_cpu_ticks) k.(t_context_switches) k.(t_run_start_tick) k.(t_wake_tick) k.(t_waiting_queue)
    k.(t_wait_queue_next) k.(t_timeout_tick) k.(t_wait_result) k.(t_current_wait_queue) k.(t_zombie_next)
    k.(t_needs_yield) k.(t_sched_next) k.(t_sched_prev) k.(t_preempt_count) k.(t_preempt_pending).
Definition put_is_boosted (v : bool) (k : thread) : thread :=
  mk_thread k.(t_owner) k.(t_state) k.(t_should_terminate) k.(t_exited) k.(t_exit_status) k.(t_first_switch)
    k.(t_base_priority) k.(t_priority) k.(t_time_slice_remaining) k.(t_nice) v k.(t_wait_start_tick) k.(t_cpu_ticks)
    k.(t_context_switches) k.(t_run_start_tick) k.(t_wake_tick) k.(t_waiting_queue) k.(t_wait_queue_next)
    k.(t_timeout_tick) k.(t_wait_result) k.(t_current_wait_queue) k.(t_zombie_next) k.(t_needs_yield)
    k.(t_sched_next) k.(t_sched_prev) k.(t_preempt_count) k.(t_preempt_pending).
Definition put_wait_start_tick (v : Z) (k : thread) : thread :=
  mk_thread k.(t_owner) k.(t_state) k.(t_should_terminate) k.(t_exited) k.(t_exit_status) k.(t_first_switch)
    k.(t_base_priority) k.(t_priority) k.(t_time_slice_remaining) k.(t_nice) k.(t_is_boosted) v k.(t_cpu_ticks)
    k.(t_context_switches) k.(t_run_start_tick) k.(t_wake_tick) k.(t_waiting_queue) k.(t_wait_queue_next)
    k.(t_timeout_tick) k.(t_wait_result) k.(t_current_wait_queue) k.(t_zombie_next) k.(t_needs_yield)
    k.(t_sched_next) k.(t_sched_prev) k.(t_preempt_count) k.(t_preempt_pending).
Definition put_cpu_ticks (v : Z) (k : thread) : thread :=
  mk_thread k.(t_owner) k.(t_state) k.(t_should_terminate) k.(t_exited) k.(t_exit_status) k.(t_first_switch)
    k.(t_base_priority) k.(t_priority) k.(t_time_slice_remaining) k.(t_nice) k.(t_is_boosted) k.(t_wait_start_tick)
    v k.(t_context_switches) k.(t_run_start_tick) k.(t_wake_tick) k.(t_waiting_queue) k.(t_wait_queue_next)
    k.(t_timeout_tick) k.(t_wait_result) k.(t_current_wait_queue) k.(t_zombie_next) k.(t_needs_yield)
    k.(t_sched_next) k.(t_sched_prev) k.(t_preempt_count) k.(t_preempt_pending).
Definition put_context_switches (v : Z) (k : thread) : thread :=
  mk_thread k.(t_owner) k.(t_state) k.(t_should_terminate) k.(t_exited) k.(t_exit_status) k.(t_first_switch)
    k.(t_base_priority) k.(t_priority) k.(t_time_slice_remaining) k.(t_nice) k.(t_is_boosted) k.(t_wait_start_tick)
    k.(t_cpu_ticks) v k.(t_run_start_tick) k.(t_wake_tick) k.(t_waiting_queue) k.(t_wait_queue_next)
    k.(t_timeout_tick) k.(t_wait_result) k.(t_current_wait_queue) k.(t_zombie_next) k.(t_needs_yield)
    k.(t_sched_next) k.(t_sched_prev) k.(t_preempt_count) k.(t_preempt_pending).
Definition put_run_start_tick (v : Z) (k : thread) : thread :=
  mk_thread k.(t_owner) k.(t_state) k.(t_should_terminate) k.(t_exited) k.(t_exit_status) k.(t_first_switch)
    k.(t_base_priority) k.(t_priority) k.(t_time_slice_remaining) k.(t_nice) k.(t_is_boosted) k.(t_wait_start_tick)
    k.(t_cpu_ticks) k.(t_context_switches) v k.(t_wake_tick) k.(t_waiting_queue) k.(t_wait_queue_next)
    k.(t_timeout_tick) k.(t_wait_result) k.(t_current_wait_queue) k.(t_zombie_next) k.(t_needs_yield)
    k.(t_sched_next) k.(t_sched_prev) k.(t_preempt_count) k.(t_preempt_pending).
Definition put_wake_tick (v : Z) (k : thread) : thread :=
  mk_thread k.(t_owner) k.(t_state) k.(t_should_terminate) k.(t_exited) k.(t_exit_status) k.(t_first_switch)
    k.(t_base_priority) k.(t_priority) k.(t_time_slice_remaining) k.(t_nice) k.(t_is_boosted) k.(t_wait_start_tick)
    k.(t_cpu_ticks) k.(t_context_switches) k.(t_run_start_tick) v k.(t_waiting_queue) k.(t_wait_queue_next)
    k.(t_timeout_tick) k.(t_wait_result) k.(t_current_wait_queue) k.(t_zombie_next) k.(t_needs_yield)
    k.(t_sched_next) k.(t_sched_prev) k.(t_preempt_count) k.(t_preempt_pending).
Definition put_waiting_queue (v : option wq) (k : thread) : thread :=
  mk_thread k.(t_owner) k.(t_state) k.(t_should_terminate) k.(t_exited) k.(t_exit_status) k.(t_first_switch)
    k.(t_base_priority) k.(t_priority) k.(t_time_slice_remaining) k.(t_nice) k.(t_is_boosted) k.(t_wait_start_tick)
    k.(t_cpu_ticks) k.(t_context_switches) k.(t_run_start_tick) k.(t_wake_tick) v k.(t_wait_queue_next)
    k.(t_timeout_tick) k.(t_wait_result) k.(t_current_wait_queue) k.(t_zombie_next) k.(t_needs_yield)
    k.(t_sched_next) k.(t_sched_prev) k.(t_preempt_count) k.(t_preempt_pending).
Definition put_wait_queue_next (v : option Z) (k : thread) : thread :=
  mk_thread k.(t_owner) k.(t_state) k.(t_should_terminate) k.(t_exited) k.(t_exit_status) k.(t_first_switch)
    k.(t_base_priority) k.(t_priority) k.(t_time_slice_remaining) k.(t_nice) k.(t_is_boosted) k.(t_wait_start_tick)
    k.(t_cpu_ticks) k.(t_context_switches) k.(t_run_start_tick) k.(t_wake_tick) k.(t_waiting_queue) v
    k.(t_timeout_tick) k.(t_wait_result) k.(t_current_wait_queue) k.(t_zombie_next) k.(t_needs_yield)
    k.(t_sched_next) k.(t_sched_prev) k.(t_preempt_count) k.(t_preempt_pending).
Definition put_timeout_tick (v : Z) (k : thread) : thread :=
  mk_thread k.(t_owner) k.(t_state) k.(t_should_terminate) k.(t_exited) k.(t_exit_status) k.(t_first_switch)
    k.(t_base_priority) k.(t_priority) k.(t_time_slice_remaining) k.(t_nice) k.(t_is_boosted) k.(t_wait_start_tick)
    k.(t_cpu_ticks) k.(t_context_switches) k.(t_run_start_tick) k.(t_wake_tick) k.(t_waiting_queue)
    k.(t_wait_queue_next) v k.(t_wait_result) k.(t_current_wait_queue) k.(t_zombie_next) k.(t_needs_yield)
    k.(t_sched_next) k.(t_sched_prev) k.(t_preempt_count) k.(t_preempt_pending).
Definition put_wait_result (v : Z) (k : thread) : thread :=
  mk_thread k.(t_owner) k.(t_state) k.(t_should_terminate) k.(t_exited) k.(t_exit_status) k.(t_first_switch)
    k.(t_base_priority) k.(t_priority) k.(t_time_slice_remaining) k.(t_nice) k.(t_is_boosted) k.(t_wait_start_tick)
    k.(t_cpu_ticks) k.(t_context_switches) k.(t_run_start_tick) k.(t_wake_tick) k.(t_waiting_queue)
    k.(t_wait_queue_next) k.(t_timeout_tick) v k.(t_current_wait_queue) k.(t_zombie_next) k.(t_needs_yield)
    k.(t_sched_next) k.(t_sched_prev) k.(t_preempt_count) k.(t_preempt_pending).
Definition put_current_wait_queue (v : option wq) (k : thread) : thread :=
  mk_thread k.(t_owner) k.(t_state) k.(t_should_terminate) k.(t_exited) k.(t_exit_status) k.(t_first_switch)
    k.(t_base_priority) k.(t_priority) k.(t_time_slice_remaining) k.(t_nice) k.(t_is_boosted) k.(t_wait_start_tick)
    k.(t_cpu_ticks) k.(t_context_switches) k.(t_run_start_tick) k.(t_wake_tick) k.(t_waiting_queue)
    k.(t_wait_queue_next) k.(t_timeout_tick) k.(t_wait_result) v k.(t_zombie_next) k.(t_needs_yield)
    k.(t_sched_next) k.(t_sched_prev) k.(t_preempt_count) k.(t_preempt_pending).
Definition put_zombie_next (v : option Z) (k : thread) : thread :=
  mk_thread k.(t_owner) k.(t_state) k.(t_should_terminate) k.(t_exited) k.(t_exit_status) k.(t_first_switch)
    k.(t_base_priority) k.(t_priority) k.(t_time_slice_remaining) k.(t_nice) k.(t_is_boosted) k.(t_wait_start_tick)
    k.(t_cpu_ticks) k.(t_context_switches) k.(t_run_start_tick) k.(t_wake_tick) k.(t_waiting_queue)
    k.(t_wait_queue_next) k.(t_timeout_tick) k.(t_wait_result) k.(t_current_wait_queue) v k.(t_needs_yield)
    k.(t_sched_next) k.(t_sched_prev) k.(t_preempt_count) k.(t_preempt_pending).
Definition put_needs_yield (v : bool) (k : thread) : thread :=
  mk_thread k.(t_owner) k.(t_state) k.(t_should_terminate) k.(t_exited) k.(t_exit_status) k.(t_first_switch)
    k.(t_base_priority) k.(t_priority) k.(t_time_slice_remaining) k.(t_nice) k.(t_is_boosted) k.(t_wait_start_tick)
    k.(t_cpu_ticks) k.(t_context_switches) k.(t_run_start_tick) k.(t_wake_tick) k.(t_waiting_queue)
    k.(t_wait_queue_next) k.(t_timeout_tick) k.(t_wait_result) k.(t_current_wait_queue) k.(t_zombie_next) v
    k.(t_sched_next) k.(t_sched_prev) k.(t_preempt_count) k.(t_preempt_pending).
Definition put_sched_next (v : option Z) (k : thread) : thread :=
  mk_thread k.(t_owner) k.(t_state) k.(t_should_terminate) k.(t_exited) k.(t_exit_status) k.(t_first_switch)
    k.(t_base_priority) k.(t_priority) k.(t_time_slice_remaining) k.(t_nice) k.(t_is_boosted) k.(t_wait_start_tick)
    k.(t_cpu_ticks) k.(t_context_switches) k.(t_run_start_tick) k.(t_wake_tick) k.(t_waiting_queue)
    k.(t_wait_queue_next) k.(t_timeout_tick) k.(t_wait_result) k.(t_current_wait_queue) k.(t_zombie_next)
    k.(t_needs_yield) v k.(t_sched_prev) k.(t_preempt_count) k.(t_preempt_pending).
Definition put_sched_prev (v : option Z) (k : thread) : thread :=
  mk_thread k.(t_owner) k.(t_state) k.(t_should_terminate) k.(t_exited) k.(t_exit_status) k.(t_first_switch)
    k.(t_base_priority) k.(t_priority) k.(t_time_slice_remaining) k.(t_nice) k.(t_is_boosted) k.(t_wait_start_tick)
    k.(t_cpu_ticks) k.(t_context_switches) k.(t_run_start_tick) k.(t_wake_tick) k.(t_waiting_queue)
    k.(t_wait_queue_next) k.(t_timeout_tick) k.(t_wait_result) k.(t_current_wait_queue) k.(t_zombie_next)
    k.(t_needs_yield) k.(t_sched_next) v k.(t_preempt_count) k.(t_preempt_pending).
Definition put_preempt_count (v : Z) (k : thread) : thread :=
  mk_thread k.(t_owner) k.(t_state) k.(t_should_terminate) k.(t_exited) k.(t_exit_status) k.(t_first_switch)
    k.(t_base_priority) k.(t_priority) k.(t_time_slice_remaining) k.(t_nice) k.(t_is_boosted) k.(t_wait_start_tick)
    k.(t_cpu_ticks) k.(t_context_switches) k.(t_run_start_tick) k.(t_wake_tick) k.(t_waiting_queue)
    k.(t_wait_queue_next) k.(t_timeout_tick) k.(t_wait_result) k.(t_current_wait_queue) k.(t_zombie_next)
    k.(t_needs_yield) k.(t_sched_next) k.(t_sched_prev) v k.(t_preempt_pending).
Definition put_preempt_pending (v : bool) (k : thread) : thread :=
  mk_thread k.(t_owner) k.(t_state) k.(t_should_terminate) k.(t_exited) k.(t_exit_status) k.(t_first_switch)
    k.(t_base_priority) k.(t_priority) k.(t_time_slice_remaining) k.(t_nice) k.(t_is_boosted) k.(t_wait_start_tick)
    k.(t_cpu_ticks) k.(t_context_switches) k.(t_run_start_tick) k.(t_wake_tick) k.(t_waiting_queue)
    k.(t_wait_queue_next) k.(t_timeout_tick) k.(t_wait_result) k.(t_current_wait_queue) k.(t_zombie_next)
    k.(t_needs_yield) k.(t_sched_next) k.(t_sched_prev) k.(t_preempt_count) v.

Record sched := mk_sched {
  threads : Z -> thread;
  wqs : wq -> wait_queue;
  g_run_queues : list (option Z);
  g_sleep_queue : option Z;
  g_current_thread : option Z;
  g_idle_thread : option Z;
  g_reaper_thread : option Z;
  g_zombie_list : option Z;
  g_scheduler_active : bool
}.

Definition with_threads (s : sched) (v : Z -> thread) : sched :=
  mk_sched v s.(wqs) s.(g_run_queues) s.(g_sleep_queue) s.(g_current_thread) s.(g_idle_thread) s.(g_reaper_thread) s.(g_zombie_list) s.(g_scheduler_active).
Definition with_wqs (s : sched) (v : wq -> wait_queue) : sched :=
  mk_sched s.(threads) v s.(g_run_queues) s.(g_sleep_queue) s.(g_current_thread) s.(g_idle_thread) s.(g_reaper_thread) s.(g_zombie_list) s.(g_scheduler_active).
Definition with_g_run_queues (s : sched) (v : list (option Z)) : sched :=
  mk_sched s.(threads) s.(wqs) v s.(g_sleep_queue) s.(g_current_thread) s.(g_idle_thread) s.(g_reaper_thread) s.(g_zombie_list) s.(g_scheduler_active).
Definition with_g_sleep_queue (s : sched) (v : option Z) : sched :=
  mk_sched s.(threads) s.(wqs) s.(g_run_queues) v s.(g_current_thread) s.(g_idle_thread) s.(g_reaper_thread) s.(g_zombie_list) s.(g_scheduler_active).
Definition with_g_current_thread (s : sched) (v : option Z) : sched :=
  mk_sched s.(threads) s.(wqs) s.(g_run_queues) s.(g_sleep_queue) v s.(g_idle_thread) s.(g_reaper_thread) s.(g_zombie_list) s.(g_scheduler_active).
Definition with_g_idle_thread (s : sched) (v : option Z) : sched :=
  mk_sched s.(threads) s.(wqs) s.(g_run_queues) s.(g_sleep_queue) s.(g_current_thread) v s.(g_reaper_thread) s.(g_zombie_list) s.(g_scheduler_active).
Definition with_g_reaper_thread (s : sched) (v : option Z) : sched :=
  mk_sched s.(threads) s.(wqs) s.(g_run_queues) s.(g_sleep_queue) s.(g_current_thread) s.(g_idle_thread) v s.(g_zombie_list) s.(g_scheduler_active).
Definition with_g_zombie_list (s : sched) (v : option Z) : sched :=
  mk_sched s.(threads) s.(wqs) s.(g_run_queues) s.(g_sleep_queue) s.(g_current_thread) s.(g_idle_thread) s.(g_reaper_thread) v s.(g_scheduler_active).
Definition with_g_scheduler_active (s : sched) (v : bool) : sched :=
  mk_sched s.(threads) s.(wqs) s.(g_run_queues) s.(g_sleep_queue) s.(g_current_thread) s.(g_idle_thread) s.(g_reaper_thread) s.(g_zombie_list) v.

(** Writing one structure, one wait queue, one run queue. *)
Definition upd_th (t : Z) (f : thread -> thread) (s : sched) : sched :=
  with_threads s (fun u => if u =? t then f (s.(threads) u) else s.(threads) u).
Definition upd_wq (q : wq) (v : wait_queue) (s : sched) : sched :=
  with_wqs s (fun r => if bool_decide (r = q) then v else s.(wqs) r).
Definition rq_head (s : sched) (pri : Z) : option Z := default None (rd s.(g_run_queues) pri).
Definition set_rq (pri : Z) (h : option Z) (s : sched) : sched :=
  with_g_run_queues s (wr s.(g_run_queues) pri h).
(** [if (p) p->field = v] *)
Definition upd_opt (p : option Z) (f : thread -> thread) (s : sched) : sched :=
  match p with Some t => upd_th t f s | None => s end.

(** ** Run queues *)
Definition queue_index (priority : Z) : Z :=
  if THREAD_PRIORITY_COUNT <=? priority then THREAD_PRIORITY_NORMAL else priority.

Definition scheduler_enqueue (t : Z) (s : sched) : sched :=
  if is_st (s.(threads) t).(t_state) THREAD_STATE_RUNNING then s
  else
    let pri := queue_index (s.(threads) t).(t_priority) in
    let s := upd_th t (put_sched_prev None) s in
    let s := upd_th t (put_sched_next (rq_head s pri)) s in
    let s := upd_opt (rq_head s pri) (put_sched_prev (Some t)) s in
    let s := set_rq pri (Some t) s in
    if negb (is_st (s.(threads) t).(t_state) THREAD_STATE_RUNNING)
    then upd_th t (put_state THREAD_STATE_READY) s else s.

(** [scheduler_enqueue_nolock] is the same without the lock. *)
Definition scheduler_enqueue_nolock (t : Z) (s : sched) : sched := scheduler_enqueue t s.

(** The unlinking that several functions do: the neighbours of [t] are linked
    to each other; without a predecessor, [first] sets the head instead. *)
Definition unlink (t : Z) (first : option Z -> sched -> sched) (s : sched) : sched :=
  let k := s.(threads) t in
  let s :=
    match k.(t_sched_prev) with
    | Some p => upd_th p (put_sched_next k.(t_sched_next)) s
    | None => first k.(t_sched_next) s
    end in
  upd_opt k.(t_sched_next) (put_sched_prev k.(t_sched_prev)) s.
Definition clear_links (t : Z) (s : sched) : sched :=
  upd_th t (fun k => put_sched_prev None (put_sched_next None k)) s.

Definition scheduler_dequeue (t : Z) (s : sched) : sched :=
  let pri := queue_index (s.(threads) t).(t_priority) in
  clear_links t (unlink t (fun n s => if bool_decide (rq_head s pri = Some t) then set_rq pri n s else s) s).

(** Take the head of the run queue of [pri]. *)
Definition pop_rq (pri t : Z) (s : sched) : sched :=
  let next := (s.(threads) t).(t_sched_next) in
  let s := set_rq pri next s in
  let s := upd_opt next (put_sched_prev None) s in
  clear_links t s.

(** From the highest priority down; [pri] counts down from [fuel - 1]. *)
Fixpoint pick_from (fuel : nat) (s : sched) : option Z * sched :=
  match fuel with
  | O => (s.(g_idle_thread), s)
  | S pri =>
      match rq_head s (Z.of_nat pri) with
      | Some t => (Some t, pop_rq (Z.of_nat pri) t s)
      | None => pick_from pri s
      end
  end.
Definition scheduler_pick_next (s : sched) : option Z * sched := pick_from (Z.to_nat THREAD_PRIORITY_COUNT) s.

Definition scheduler_nice_to_priority (nice : Z) : Z :=
  let nice := if nice <? THREAD_NICE_MIN then THREAD_NICE_MIN else nice in
  let nice := if THREAD_NICE_MAX <? nice then THREAD_NICE_MAX else nice in
  if nice <=? -10 then THREAD_PRIORITY_UI
  else if nice <=? -5 then THREAD_PRIORITY_HIGH
  else if nice <=? 4 then THREAD_PRIORITY_NORMAL
  else if nice <=? 14 then THREAD_PRIORITY_BACKGROUND
  else THREAD_PRIORITY_IDLE.

Definition g_priority_time_slice : list Z := [20; 15; 10; 7; 5].
Definition scheduler_get_time_slice (k : thread) : Z :=
  let pri := if THREAD_PRIORITY_COUNT <=? k.(t_priority) then THREAD_PRIORITY_NORMAL else k.(t_priority) in
  rd0 g_priority_time_slice pri.

(** ** Switching *)
(** Accounting and demotion of a boosted thread that leaves the CPU. *)
Definition leave_cpu (now : Z) (k : thread) : thread :=
  let k := if 0 <? k.(t_run_start_tick)
           then put_cpu_ticks (u64 (k.(t_cpu_ticks) + u64 (now - k.(t_run_start_tick)))) k else k in
  if k.(t_is_boosted) then
    let p := scheduler_nice_to_priority k.(t_nice) in
    put_base_priority p (put_priority p (put_is_boosted false k))
  else k.
Definition enter_cpu (now : Z) (k : thread) : thread :=
  put_context_switches (u64 (k.(t_context_switches) + 1)) (put_run_start_tick now k).

(** From the accounting to the change of [g_current_thread]. *)
Definition switch_to (now : Z) (current : option Z) (t : Z) (s : sched) : sched :=
  let s := upd_opt current (leave_cpu now) s in
  let s :=
    match current with
    | Some c =>
        if is_st (s.(threads) c).(t_state) THREAD_STATE_RUNNING || is_st (s.(threads) c).(t_state) THREAD_STATE_READY
        then scheduler_enqueue c (upd_th c (fun k => put_wait_start_tick now (put_state THREAD_STATE_READY k)) s)
        else s
    | None => s
    end in
  let s := upd_th t (fun k => put_first_switch false (put_state THREAD_STATE_RUNNING (enter_cpu now k))) s in
  with_g_current_thread s (Some t).

Definition scheduler_schedule (now : Z) (s : sched) : sched :=
  if negb s.(g_scheduler_active) then s
  else
    let current := s.(g_current_thread) in
    let '(next, s) := scheduler_pick_next s in
    let next := match next with Some t => Some t | None => s.(g_idle_thread) end in
    match next with
    | None => s
    | Some t => if bool_decide (current = Some t) then s else switch_to now current t s
    end.

Definition thread_yield (now : Z) (s : sched) : sched :=
  if s.(g_scheduler_active) then scheduler_schedule now s else s.

(** The first kernel thread other than [current] in a run queue: walk the
    queue of each priority from the top.  A queue has no more than [fuel]
    members. *)
Fixpoint find_kernel (fuel : nat) (s : sched) (current : Z) (h : option Z) : option Z :=
  match fuel, h with
  | S fuel', Some t =>
      match (s.(threads) t).(t_owner) with
      | None => if negb (t =? current) then Some t else find_kernel fuel' s current (s.(threads) t).(t_sched_next)
      | Some _ => find_kernel fuel' s current (s.(threads) t).(t_sched_next)
      end
  | _, _ => None
  end.
Fixpoint find_kernel_from (pri : nat) (fuel : nat) (s : sched) (current : Z) : option Z :=
  match pri with
  | O => None
  | S p =>
      match find_kernel fuel s current (rq_head s (Z.of_nat p)) with
      | Some t => Some t
      | None => find_kernel_from p fuel s current
      end
  end.

(** [scheduler_preempt]; [user] says that the interrupt came from ring 3, and
    [fuel] bounds the length of a run queue. *)
Definition scheduler_preempt (now : Z) (user : bool) (fuel : nat) (wake : sched -> sched) (s : sched) : sched :=
  match s.(g_current_thread) with
  | None => s
  | Some current =>
      if negb s.(g_scheduler_active) then s
      else if user then s
      else
        let s := wake s in
        let s :=
          if negb (bool_decide (s.(g_idle_thread) = Some current))
             && (0 <? (s.(threads) current).(t_time_slice_remaining))
          then upd_th current (fun k => put_time_slice_remaining (k.(t_time_slice_remaining) - 1) k) s else s in
        let k := s.(threads) current in
        if 0 <? k.(t_preempt_count) then
          (if k.(t_time_slice_remaining) =? 0 then upd_th current (put_preempt_pending true) s else s)
        else if (0 <? k.(t_time_slice_remaining)) && negb (bool_decide (s.(g_idle_thread) = Some current)) then s
        else
          match find_kernel_from (Z.to_nat THREAD_PRIORITY_COUNT) fuel s current with
          | None =>
              if k.(t_time_slice_remaining) =? 0
              then upd_th current (put_time_slice_remaining THREAD_TIME_SLICE_DEFAULT) s else s
          | Some next =>
              let s := clear_links next (unlink next (set_rq (s.(threads) next).(t_priority)) s) in
              let s := upd_th current (leave_cpu now) s in
              let s :=
                if is_st (s.(threads) current).(t_state) THREAD_STATE_RUNNING
                then scheduler_enqueue_nolock current
                       (upd_th current (fun k => put_wait_start_tick now (put_state THREAD_STATE_READY k)) s)
                else s in
              let s := upd_th next (fun k => let k := enter_cpu now k in
                         put_preempt_pending false (put_state THREAD_STATE_RUNNING
                           (put_time_slice_remaining (scheduler_get_time_slice k) k))) s in
              with_g_current_thread s (Some next)
          end
  end.

Definition preempt_disable (s : sched) : sched :=
  upd_opt s.(g_current_thread) (fun k => put_preempt_count (u32 (k.(t_preempt_count) + 1)) k) s.
Definition preempt_enable (now : Z) (s : sched) : sched :=
  match s.(g_current_thread) with
  | None => s
  | Some c =>
      let s := if 0 <? (s.(threads) c).(t_preempt_count)
               then upd_th c (fun k => put_preempt_count (k.(t_preempt_count) - 1) k) s else s in
      if ((s.(threads) c).(t_preempt_count) =? 0) && (s.(threads) c).(t_preempt_pending)
      then scheduler_schedule now (upd_th c (put_preempt_pending false) s) else s
  end.
Definition preempt_enabled (s : sched) : bool :=
  match s.(g_current_thread) with Some c => (s.(threads) c).(t_preempt_count) =? 0 | None => true end.

(** ** Sleeping *)
(** [while (g_sleep_queue && g_sleep_queue->wake_tick <= now)] *)
Fixpoint wake_sleeping (fuel : nat) (now : Z) (s : sched) : sched :=
  match fuel, s.(g_sleep_queue) with
  | S fuel', Some t =>
      if (s.(threads) t).(t_wake_tick) <=? now then
        let s := with_g_sleep_queue s (s.(threads) t).(t_sched_next) in
        let s := upd_th t (fun k => put_state THREAD_STATE_READY (put_sched_next None k)) s in
        wake_sleeping fuel' now (scheduler_enqueue t s)
      else s
  | _, _ => s
  end.
Definition scheduler_wake_sleeping (fuel : nat) (now : Z) (s : sched) : sched := wake_sleeping fuel now s.

(** [while (prev->sched_next && prev->sched_next->wake_tick <= wake) prev = prev->sched_next] *)
Fixpoint sleep_position (fuel : nat) (s : sched) (wake prev : Z) : Z :=
  match fuel, (s.(threads) prev).(t_sched_next) with
  | S fuel', Some n => if (s.(threads) n).(t_wake_tick) <=? wake then sleep_position fuel' s wake n else prev
  | _, _ => prev
  end.

(** [thread_sleep_ticks] up to the point where the thread gives up the CPU. *)
Definition sleep_insert (fuel : nat) (t : Z) (s : sched) : sched :=
  let wake := (s.(threads) t).(t_wake_tick) in
  match s.(g_sleep_queue) with
  | None => with_g_sleep_queue (upd_th t (put_sched_next None) s) (Some t)
  | Some h =>
      if wake <? (s.(threads) h).(t_wake_tick)
      then with_g_sleep_queue (upd_th t (put_sched_next (Some h)) s) (Some t)
      else
        let prev := sleep_position fuel s wake h in
        let s := upd_th t (put_sched_next (s.(threads) prev).(t_sched_next)) s in
        upd_th prev (put_sched_next (Some t)) s
  end.
Definition thread_sleep_ticks (fuel : nat) (now ticks : Z) (s : sched) : sched :=
  match s.(g_current_thread) with
  | None => s
  | Some t =>
      if ticks =? 0 then s
      else
        let s := upd_th t (fun k => put_state THREAD_STATE_SLEEPING (put_wake_tick (u64 (now + ticks)) k)) s in
        scheduler_schedule now (sleep_insert fuel t s)
  end.

(** ** The timer tick *)
Definition needs_boost (now : Z) (k : thread) : bool :=
  negb k.(t_is_boosted) && (THREAD_AGING_THRESHOLD <=? u64 (now - k.(t_wait_start_tick))).

(** Move a thread from its queue to the head of the UI queue. *)
Definition boost (now pri t : Z) (s : sched) : sched :=
  let s := unlink t (set_rq pri) s in
  let s := upd_th t (fun k => put_wait_start_tick now (put_is_boosted true (put_priority THREAD_PRIORITY_UI k))) s in
  let s := upd_th t (put_sched_prev None) s in
  let s := upd_th t (put_sched_next (rq_head s THREAD_PRIORITY_UI)) s in
  let s := upd_opt (rq_head s THREAD_PRIORITY_UI) (put_sched_prev (Some t)) s in
  set_rq THREAD_PRIORITY_UI (Some t) s.

Fixpoint age_queue (fuel : nat) (now pri : Z) (h : option Z) (s : sched) : sched :=
  match fuel, h with
  | S fuel', Some t =>
      let next := (s.(threads) t).(t_sched_next) in
      let s := if needs_boost now (s.(threads) t) then boost now pri t s else s in
      age_queue fuel' now pri next s
  | _, _ => s
  end.
Definition age_queues (fuel : nat) (now : Z) (s : sched) : sched :=
  for_loop 4 THREAD_PRIORITY_IDLE (fun pri s => age_queue fuel now pri (rq_head s pri) s) s.

(** [check_thread_timeouts] takes and releases the lock and does nothing
    else. *)
Definition check_thread_timeouts (s : sched) : sched := s.

Definition scheduler_tick (fuel : nat) (now : Z) (s : sched) : sched :=
  match s.(g_current_thread) with
  | None => s
  | Some c =>
      if negb s.(g_scheduler_active) then s
      else
        let idle := bool_decide (s.(g_idle_thread) = Some c) in
        let s := if negb idle then upd_th c (fun k => put_cpu_ticks (u64 (k.(t_cpu_ticks) + 1)) k) s else s in
        let s := scheduler_wake_sleeping fuel now s in
        let s := check_thread_timeouts s in
        let s := if negb idle && (0 <? (s.(threads) c).(t_time_slice_remaining))
                 then upd_th c (fun k => put_time_slice_remaining (k.(t_time_slice_remaining) - 1) k) s else s in
        let s := if ((s.(threads) c).(t_time_slice_remaining) =? 0) && negb idle
                 then upd_th c (put_preempt_pending true) s else s in
        age_queues fuel now s
  end.

(** ** Wait queues *)
Definition empty_wq : wait_queue := mk_wq None None.
Definition wait_queue_init (q : wq) (s : sched) : sched := upd_wq q empty_wq s.

Definition wait_queue_enqueue_locked (q : wq) (t : Z) (s : sched) : sched :=
  let s := upd_th t (fun k => put_waiting_queue (Some q) (put_wait_queue_next None k)) s in
  let w := s.(wqs) q in
  let s := upd_opt w.(wq_tail) (put_wait_queue_next (Some t)) s in
  upd_wq q (mk_wq (match w.(wq_tail) with Some _ => w.(wq_head) | None => Some t end) (Some t)) s.

Definition wait_queue_dequeue_locked (q : wq) (s : sched) : option Z * sched :=
  match (s.(wqs) q).(wq_head) with
  | None => (None, s)
  | Some t =>
      let next := (s.(threads) t).(t_wait_queue_next) in
      let s := upd_wq q (mk_wq next (match next with Some _ => (s.(wqs) q).(wq_tail) | None => None end)) s in
      (Some t, upd_th t (fun k => put_waiting_queue None (put_wait_queue_next None k)) s)
  end.

(** The search of [wait_queue_remove]: the predecessor of the thread. *)
Fixpoint wq_search (fuel : nat) (s : sched) (t : Z) (prev curr : option Z) : option (option Z) :=
  match fuel, curr with
  | S fuel', Some c =>
      if c =? t then Some prev else wq_search fuel' s t (Some c) (s.(threads) c).(t_wait_queue_next)
  | _, _ => None
  end.
Definition wait_queue_remove (fuel : nat) (q : wq) (t : Z) (s : sched) : bool * sched :=
  match wq_search fuel s t None (s.(wqs) q).(wq_head) with
  | None => (false, s)
  | Some prev =>
      let next := (s.(threads) t).(t_wait_queue_next) in
      let w := s.(wqs) q in
      let '(head, s) :=
        match prev with
        | Some p => (w.(wq_head), upd_th p (put_wait_queue_next next) s)
        | None => (next, s)
        end in
      let s := upd_wq q (mk_wq head (if bool_decide (w.(wq_tail) = Some t) then prev else w.(wq_tail))) s in
      (true, upd_th t (fun k => put_current_wait_queue None (put_waiting_queue None (put_wait_queue_next None k))) s)
  end.

(** [wait_queue_wait_timeout]: what it does before the loop, one round that
    blocks, and what it does once it leaves the loop. *)
Definition wait_begin (q : wq) (now timeout_ms t : Z) (s : sched) : sched :=
  upd_th t (fun k => put_current_wait_queue (Some q) (put_wait_result 0
    (put_timeout_tick (if 0 <? timeout_ms then u64 (now + timeout_ms) else 0) k))) s.
Definition wait_block (q : wq) (now t : Z) (s : sched) : sched :=
  scheduler_schedule now (upd_th t (put_state THREAD_STATE_BLOCKED) (wait_queue_enqueue_locked q t s)).
Definition wait_end (t : Z) (s : sched) : bool * sched :=
  let result := (s.(threads) t).(t_wait_result) in
  (result =? 0,
   upd_th t (fun k => put_wait_result 0 (put_current_wait_queue None (put_timeout_tick 0 k))) s).

Definition wake (t : Z) (s : sched) : sched := scheduler_enqueue t (upd_th t (put_state THREAD_STATE_READY) s).

Definition wait_queue_wake_one (q : wq) (s : sched) : sched :=
  let '(t, s) := wait_queue_dequeue_locked q s in
  match t with Some t => wake t s | None => s end.
Fixpoint wait_queue_wake_all (fuel : nat) (q : wq) (s : sched) : sched :=
  match fuel with
  | O => s
  | S fuel' =>
      match wait_queue_dequeue_locked q s with
      | (Some t, s) => wait_queue_wake_all fuel' q (wake t s)
      | (None, s) => s
      end
  end.

(** ** Operations on threads *)
Definition thread_set_priority (t priority : Z) (s : sched) : sched :=
  if THREAD_PRIORITY_COUNT <=? priority then s
  else
    let old := (s.(threads) t).(t_priority) in
    let s := upd_th t (fun k => put_base_priority priority (put_priority priority k)) s in
    if is_st (s.(threads) t).(t_state) THREAD_STATE_READY && negb (old =? priority)
    then scheduler_enqueue t (scheduler_dequeue t s) else s.

Definition thread_set_nice (t nice : Z) (s : sched) : sched :=
  let nice := if nice <? THREAD_NICE_MIN then THREAD_NICE_MIN else nice in
  let nice := if THREAD_NICE_MAX <? nice then THREAD_NICE_MAX else nice in
  let s := upd_th t (put_nice nice) s in
  if negb (s.(threads) t).(t_is_boosted) then
    let old := (s.(threads) t).(t_priority) in
    let new := scheduler_nice_to_priority nice in
    let s := upd_th t (fun k => put_base_priority new (put_priority new k)) s in
    if is_st (s.(threads) t).(t_state) THREAD_STATE_READY && negb (old =? new)
    then scheduler_enqueue t (scheduler_dequeue t s) else s
  else s.

Definition thread_kill (t status : Z) (s : sched) : sched :=
  let s := upd_th t (fun k => put_exit_status status (put_should_terminate true k)) s in
  if is_st (s.(threads) t).(t_state) THREAD_STATE_BLOCKED || is_st (s.(threads) t).(t_state) THREAD_STATE_SLEEPING
  then wake t s else s.

(** The thread becomes the head of the list of zombies and the reaper is
    signalled; [signal] is [condvar_signal] of the synchronisation file. *)
Definition reaper_push (t : Z) (s : sched) : sched :=
  with_g_zombie_list (upd_th t (put_zombie_next s.(g_zombie_list)) s) (Some t).
Definition reaper_add_zombie (signal : sched -> sched) (t : Z) (s : sched) : sched :=
  if bool_decide (s.(g_reaper_thread) = Some t) then s else signal (reaper_push t s).

(** [thread_exit] of the current thread; it does not return. *)
Definition thread_exit (fuel : nat) (now status : Z) (signal : sched -> sched) (s : sched) : sched :=
  match s.(g_current_thread) with
  | None => s
  | Some t =>
      if bool_decide (s.(g_idle_thread) = Some t) then s
      else
        let s := upd_th t (fun k => put_exit_status status (put_exited true k)) s in
        let s := wait_queue_wake_all fuel (WQ_JOIN t) s in
        let s := upd_th t (put_state THREAD_STATE_ZOMBIE) s in
        let s := scheduler_dequeue t s in
        scheduler_schedule now (reaper_add_zombie signal t s)
  end.

Definition is_thread_zombie (t : Z) (s : sched) : bool := is_st (s.(threads) t).(t_state) THREAD_STATE_ZOMBIE.
(** One pass through the loop of [wait_queue_wait_timeout], with the value of
    the predicate: [None] is the CPU given up.  After a pass that gave it up
    the next one is the same, since both tests leave the loop. *)
Definition wait_round (q : wq) (now : Z) (pred : bool) (t : Z) (s : sched) : option bool * sched :=
  if pred || ((s.(threads) t).(t_wait_result) =? - ETIMEDOUT)
  then let '(ok, s) := wait_end t s in (Some ok, s)
  else (None, wait_block q now t s).
Definition wait_queue_wait_timeout (q : wq) (now : Z) (pred : bool) (timeout_ms : Z) (s : sched) : option bool * sched :=
  match s.(g_current_thread) with
  | None => (Some true, thread_yield now s)
  | Some t => wait_round q now pred t (wait_begin q now timeout_ms t s)
  end.
(** [thread_join_timeout] of [target], and its next pass in the caller. *)
Definition joined (target : Z) (r : option bool * sched) : option Z * sched :=
  match r with
  | (Some ok, s) => (Some (if ok then (s.(threads) target).(t_exit_status) else - ETIMEDOUT), s)
  | (None, s) => (None, s)
  end.
Definition thread_join_timeout (now target timeout_ms : Z) (s : sched) : option Z * sched :=
  joined target (wait_queue_wait_timeout (WQ_JOIN target) now (is_thread_zombie target s) timeout_ms s).
Definition thread_join (now target : Z) (s : sched) : option Z * sched := thread_join_timeout now target 0 s.
Definition thread_join_resume (now target caller : Z) (s : sched) : option Z * sched :=
  joined target (wait_round (WQ_JOIN target) now (is_thread_zombie target s) caller s).
Definition thread_current (s : sched) : option Z := s.(g_current_thread).
Definition thread_should_exit (s : sched) : bool :=
  match s.(g_current_thread) with Some t => (s.(threads) t).(t_should_terminate) | None => false end.
Definition thread_get_cpu_time_ms (t : Z) (s : sched) : Z := (s.(threads) t).(t_cpu_ticks).
Definition thread_sleep_ms (fuel : nat) (now ms : Z) (s : sched) : sched := thread_sleep_ticks fuel now ms s.
Definition thread_get_nice (t : Z) (s : sched) : Z := (s.(threads) t).(t_nice).
Definition scheduler_start (s : sched) : sched := with_g_scheduler_active s true.

(** ** Creation *)
(** The structure [thread_create] and [thread_create_user] fill in; the
    identity, the name and the initial stack are left out. *)
Definition new_thread (owner : option Z) (priority now : Z) : thread :=
  let k := mk_thread owner THREAD_STATE_READY false false 0 true priority priority 0 0 false now 0 0 0 0 None None 0 0
             None None false None None 0 false in
  put_time_slice_remaining (scheduler_get_time_slice k) k.

(** [mem] is the address [kmalloc] returns for the structure, [stack_ok] tells
    whether the allocation of the stack succeeds. *)
Definition thread_create (mem : option Z) (stack_ok : bool) (priority now : Z) (s : sched) : option Z * sched :=
  match mem with
  | None => (None, s)
  | Some t =>
      if negb stack_ok then (None, s)
      else
        let s := wait_queue_init (WQ_JOIN t) (upd_th t (fun _ => new_thread None priority now) s) in
        (Some t, scheduler_enqueue t s)
  end.
Definition thread_create_in_process (proc : option Z) (mem : option Z) (stack_ok : bool) (priority now : Z) (s : sched) :
  option Z * sched :=
  match thread_create mem stack_ok priority now s with
  | (Some t, s) => (Some t, upd_th t (put_owner proc) s)
  | (None, s) => (None, s)
  end.
Definition thread_create_user (proc : Z) (mem : option Z) (now : Z) (s : sched) : option Z * sched :=
  match mem with
  | None => (None, s)
  | Some t =>
      let s := wait_queue_init (WQ_JOIN t) (upd_th t (fun _ => new_thread (Some proc) THREAD_PRIORITY_UI now) s) in
      (Some t, scheduler_enqueue t s)
  end.

(** The state before [scheduler_init]: nothing exists. *)
Definition zero_thread : thread :=
  mk_thread None THREAD_STATE_ZOMBIE false false 0 false 0 0 0 0 false 0 0 0 0 0 None None 0 0 None None false None None
    0 false.
Definition boot : sched :=
  mk_sched (fun _ => zero_thread) (fun _ => empty_wq) (replicate 5 None) None None None None None false.

Definition main_thread : thread :=
  put_state THREAD_STATE_RUNNING (put_first_switch false
    (put_time_slice_remaining (rd0 g_priority_time_slice THREAD_PRIORITY_NORMAL) (new_thread None THREAD_PRIORITY_NORMAL 0))).

(** [main] is the address of [g_main_thread_struct]. *)
Definition scheduler_init (main : Z) (mem : option Z) (stack_ok : bool) (now : Z) (s : sched) : sched :=
  let s := with_g_run_queues s (replicate 5 None) in
  let s := wait_queue_init (WQ_JOIN main) (upd_th main (fun _ => main_thread) s) in
  let s := with_g_current_thread s (Some main) in
  let '(idle, s) := thread_create mem stack_ok THREAD_PRIORITY_IDLE now s in
  let s := with_g_idle_thread s idle in
  match idle with Some i => scheduler_dequeue i s | None => s end.

Definition reaper_init (mem : option Z) (stack_ok : bool) (now : Z) (s : sched) : sched :=
  let '(r, s) := thread_create mem stack_ok THREAD_PRIORITY_BACKGROUND now s in
  let s := with_g_reaper_thread s r in
  match r with Some t => thread_set_nice t 10 s | None => s end.

(** The reaper takes one structure off the list of zombies. *)
Definition reaper_pop (s : sched) : option Z * sched :=
  match s.(g_zombie_list) with
  | None => (None, s)
  | Some z =>
      let s := with_g_zombie_list s (s.(threads) z).(t_zombie_next) in
      (Some z, upd_th z (put_zombie_next None) s)
  end.
