(* ===== verification/Sched.v ===== *)
(** The scheduler's invariant: what the linked structures of Thread.v
    represent, and that every operation keeps it.

    [rep s Q SL W X] says that in state [s] the run queue of priority [p] is
    the list [Q p], the sleep queue is [SL], the wait queue [q] is [W q], and
    every thread outside [X] is where its state says.  The threads of [X] are
    in flight: taken off one structure and not yet on another. *)
From Stdlib Require Import Sorting.Sorted.
From stdpp Require Import functions relations.
From S2P Require Import Prelude Thread.

(** ** Lists through memory *)
Definition hd_or (l : list Z) (n : option Z) : option Z := match l with [] => n | u :: _ => Some u end.
Fixpoint last_or (p : option Z) (l : list Z) : option Z :=
  match l with [] => p | t :: l' => last_or (Some t) l' end.

(** A segment of a doubly linked run queue between [p] and [n]. *)
Fixpoint dseg (th : Z -> thread) (p : option Z) (l : list Z) (n : option Z) : Prop :=
  match l with
  | [] => True
  | t :: l' => (th t).(t_sched_prev) = p /\ (th t).(t_sched_next) = hd_or l' n /\ dseg th (Some t) l' n
  end.
(** A segment of a singly linked list that ends at [n]. *)
Fixpoint chain (nx : Z -> option Z) (l : list Z) (n : option Z) : Prop :=
  match l with
  | [] => True
  | t :: l' => nx t = hd_or l' n /\ chain nx l' n
  end.

(** The fields the structures depend on. *)
Definition core (k : thread) := (k.(t_state), k.(t_priority), k.(t_wake_tick), k.(t_sched_prev), k.(t_sched_next),
  k.(t_wait_queue_next)).
Definition pri_ok (k : thread) : Prop := 0 <= k.(t_priority) < 5 /\ 0 <= k.(t_base_priority) < 5.

(** A thread on no list of the scheduler has no links. *)
Definition free_links (k : thread) : Prop := k.(t_sched_prev) = None /\ k.(t_sched_next) = None.
Definition in_place (s : sched) (Q : Z -> list Z) (SL : list Z) (W : wq -> list Z) (t : Z) : Prop :=
  match (s.(threads) t).(t_state) with
  | THREAD_STATE_READY => t ∈ Q (s.(threads) t).(t_priority) \/ s.(g_idle_thread) = Some t /\ free_links (s.(threads) t)
  | THREAD_STATE_RUNNING => s.(g_current_thread) = Some t /\ free_links (s.(threads) t)
  | THREAD_STATE_SLEEPING => t ∈ SL
  | THREAD_STATE_BLOCKED => exists q, t ∈ W q
  | THREAD_STATE_ZOMBIE => True
  end.

Definition by_wake (s : sched) (a b : Z) : Prop := (s.(threads) a).(t_wake_tick) <= (s.(threads) b).(t_wake_tick).
Definition is_sync (q : wq) : bool := match q with WQ_SYNC _ => true | _ => false end.
Definition sched_next_of (s : sched) (t : Z) : option Z := (s.(threads) t).(t_sched_next).
Definition wait_next_of (s : sched) (t : Z) : option Z := (s.(threads) t).(t_wait_queue_next).

Record rq_part (s : sched) (Q : Z -> list Z) (X : list Z) : Prop := mk_rq_part {
  rep_len : length s.(g_run_queues) = 5%nat;
  rep_head p : 0 <= p < 5 -> rq_head s p = hd_or (Q p) None;
  rep_dll p : dseg s.(threads) None (Q p) None;
  rep_q p t : t ∈ Q p -> (s.(threads) t).(t_state) = THREAD_STATE_READY /\ (s.(threads) t).(t_priority) = p /\ t ∉ X;
  rep_q_nodup p : NoDup (Q p)
}.
Record sl_part (s : sched) (SL : list Z) (X : list Z) : Prop := mk_sl_part {
  rep_sl : s.(g_sleep_queue) = hd_or SL None;
  rep_sl_chain : chain (sched_next_of s) SL None;
  rep_sl_in t : t ∈ SL -> (s.(threads) t).(t_state) = THREAD_STATE_SLEEPING /\ t ∉ X;
  rep_sl_nodup : NoDup SL;
  rep_sl_sorted : StronglySorted (by_wake s) SL
}.
Record w_part (s : sched) (W : wq -> list Z) (X : list Z) : Prop := mk_w_part {
  rep_w_head q : (s.(wqs) q).(wq_head) = hd_or (W q) None;
  rep_w_tail q : is_sync q = false -> (s.(wqs) q).(wq_tail) = last_or None (W q);
  rep_w_chain q : chain (wait_next_of s) (W q) None;
  rep_w_in q t : t ∈ W q -> (s.(threads) t).(t_state) = THREAD_STATE_BLOCKED /\ t ∉ X;
  rep_w_nodup q : NoDup (W q);
  rep_w_apart q q' t : t ∈ W q -> t ∈ W q' -> q = q'
}.
Record rep (s : sched) (Q : Z -> list Z) (SL : list Z) (W : wq -> list Z) (X : list Z) : Prop := mk_rep {
  rep_rq :> rq_part s Q X;
  rep_sleep :> sl_part s SL X;
  rep_wait :> w_part s W X;
  rep_all t : t ∉ X -> in_place s Q SL W t;
  rep_pri t : pri_ok (s.(threads) t)
}.

(** ** The abstract scheduler: lists by priority *)
Definition abs_push (p t : Z) (Q : Z -> list Z) : Z -> list Z := <[p := t :: Q p]> Q.
(** The head of the highest nonempty list, else the idle thread. *)
Fixpoint abs_pick (n : nat) (idle : Z) (Q : Z -> list Z) : Z * (Z -> list Z) :=
  match n with
  | O => (idle, Q)
  | S p => match Q (Z.of_nat p) with
           | t :: l => (t, <[Z.of_nat p := l]> Q)
           | [] => abs_pick p idle Q
           end
  end.
(** The running thread [c] goes to the front of its list, of priority [p]; a
    thread that blocked or ended does not. *)
Definition abs_schedule (idle c p : Z) (running : bool) (Q : Z -> list Z) : Z * (Z -> list Z) :=
  let '(t, Q) := abs_pick 5 idle Q in
  if t =? c then (c, Q) else (t, if running then abs_push p c Q else Q).

(** ** Lists *)
Lemma rtc_preserves {A} (R : relation A) (P : A -> Prop) x y :
  (forall a b, R a b -> P a -> P b) -> rtc R x y -> P x -> P y.
Proof. intros H. induction 1; eauto. Qed.
Lemma last_or_app p l1 l2 : last_or p (l1 ++ l2) = last_or (last_or p l1) l2.
Proof. revert p; induction l1 as [|t l1 IH]; intros p; simpl; auto. Qed.
Lemma hd_or_app l1 l2 n : hd_or (l1 ++ l2) n = hd_or l1 (hd_or l2 n).
Proof. destruct l1; auto. Qed.
Lemma last_or_cases p l : (l = [] /\ last_or p l = p) \/ (exists l' x, l = l' ++ [x] /\ last_or p l = Some x).
Proof. destruct l as [|x l' _] using rev_ind; [auto|right]. exists l', x. rewrite last_or_app. auto. Qed.

Lemma last_or_in l x : last_or None l = Some x -> x ∈ l.
Proof. destruct (last_or_cases None l) as [[-> ?]|(l' & y & -> & ->)]; [done|]. intros [= ->]. set_solver. Qed.
Lemma hd_or_in l x : hd_or l None = Some x -> x ∈ l.
Proof. destruct l; cbn; [done|]. intros [= ->]. set_solver. Qed.
Lemma dseg_app th p l1 l2 n :
  dseg th p (l1 ++ l2) n <-> dseg th p l1 (hd_or l2 n) /\ dseg th (last_or p l1) l2 n.
Proof.
  revert p; induction l1 as [|t l1 IH]; intros p; simpl; [tauto|].
  rewrite IH, hd_or_app. tauto.
Qed.
Lemma dseg_frame th th' p l n :
  (forall u, u ∈ l -> (th' u).(t_sched_prev) = (th u).(t_sched_prev) /\ (th' u).(t_sched_next) = (th u).(t_sched_next)) ->
  dseg th p l n -> dseg th' p l n.
Proof.
  revert p; induction l as [|t l IH]; intros p H; simpl; [auto|]. intros (Hp & Hn & Hl).
  destruct (H t) as [-> ->]; [left|]. repeat split; [auto..|]. apply IH; [|auto]. intros u Hu. apply H. by right.
Qed.
Lemma seg_app nx l1 l2 n : chain nx (l1 ++ l2) n <-> chain nx l1 (hd_or l2 n) /\ chain nx l2 n.
Proof. induction l1 as [|t l1 IH]; simpl; [tauto|]. rewrite IH, hd_or_app. tauto. Qed.
Lemma seg_frame nx nx' l n : (forall u, u ∈ l -> nx' u = nx u) -> chain nx l n -> chain nx' l n.
Proof.
  induction l as [|t l IH]; intros H; simpl; [auto|]. intros [Hn Hl]. rewrite H by left.
  split; [auto|]. apply IH; [|auto]. intros u Hu. apply H. by right.
Qed.
Lemma sorted_frame (R R' : Z -> Z -> Prop) l :
  (forall a b, a ∈ l -> b ∈ l -> R a b -> R' a b) -> StronglySorted R l -> StronglySorted R' l.
Proof.
  induction l as [|t l IH]; intros H; [constructor|]. intros Hs. inversion Hs as [|? ? Hl Ht]; subst.
  constructor; [apply IH; [|auto]; intros a b Ha Hb; apply H; by right|].
  rewrite list.Forall_forall in *. intros u Hu. apply H; [left|by right|by apply Ht].
Qed.

(** ** Stores *)
Lemma th_upd_eq t f s : threads (upd_th t f s) t = f (threads s t).
Proof. cbn. by rewrite Z.eqb_refl. Qed.
Lemma th_upd_ne t f s u : u <> t -> threads (upd_th t f s) u = threads s u.
Proof. intros H. cbn. by rewrite (proj2 (Z.eqb_neq _ _) H). Qed.
Lemma th_opt_ne p f s u : p <> Some u -> threads (upd_opt p f s) u = threads s u.
Proof. destruct p as [t|]; [|auto]. intros H. apply th_upd_ne. congruence. Qed.
Lemma th_opt_eq u f s : threads (upd_opt (Some u) f s) u = f (threads s u).
Proof. apply th_upd_eq. Qed.

(** Each part depends on few fields of its members. *)
Definition rq_core (k : thread) := (k.(t_state), k.(t_priority), k.(t_sched_prev), k.(t_sched_next)).
Definition sl_core (k : thread) := (k.(t_state), k.(t_wake_tick), k.(t_sched_next)).
Definition w_core (k : thread) := (k.(t_state), k.(t_wait_queue_next)).
Lemma rq_frame s s' Q X X' :
  rq_part s Q X -> g_run_queues s' = g_run_queues s ->
  (forall p u, u ∈ Q p -> rq_core (threads s' u) = rq_core (threads s u) /\ u ∉ X') -> rq_part s' Q X'.
Proof.
  intros R Er H. destruct R. constructor; unfold rq_head; rewrite ?Er; auto.
  - intros p. eapply dseg_frame; [|apply rep_dll0]. intros u Hu. destruct (H p u Hu) as [E _]. unfold rq_core in E. by simplify_eq.
  - intros p t Ht. destruct (H p t Ht) as [E ?], (rep_q0 p t Ht) as (?&?&?). unfold rq_core in E. simplify_eq. split_and?; [congruence..|done].
Qed.
Lemma sl_frame s s' SL X X' :
  sl_part s SL X -> g_sleep_queue s' = g_sleep_queue s ->
  (forall u, u ∈ SL -> sl_core (threads s' u) = sl_core (threads s u) /\ u ∉ X') -> sl_part s' SL X'.
Proof.
  intros R Es H. unfold sl_core in H. destruct R. constructor; rewrite ?Es; auto.
  - eapply seg_frame; [|apply rep_sl_chain0]. intros u Hu. destruct (H u Hu). unfold sched_next_of. by simplify_eq.
  - intros t Ht. destruct (H t Ht), (rep_sl_in0 t Ht). simplify_eq. split_and?; [congruence..|done].
  - eapply sorted_frame; [|apply rep_sl_sorted0]. intros a b Ha Hb. destruct (H a Ha), (H b Hb). unfold by_wake. simplify_eq. lia.
Qed.
Lemma w_frame s s' W X X' :
  w_part s W X -> wqs s' = wqs s ->
  (forall q u, u ∈ W q -> w_core (threads s' u) = w_core (threads s u) /\ u ∉ X') -> w_part s' W X'.
Proof.
  intros R Ew H. unfold w_core in H. destruct R. constructor; rewrite ?Ew; auto.
  - intros q. eapply seg_frame; [|apply rep_w_chain0]. intros u Hu. destruct (H q u Hu). unfold wait_next_of. by simplify_eq.
  - intros q t Ht. destruct (H q t Ht), (rep_w_in0 q t Ht). simplify_eq. split_and?; [congruence..|done].
Qed.

(** Where a thread that is in no structure and one that is are. *)
Lemma rep_q_notX s Q SL W X p t : rep s Q SL W X -> t ∈ Q p -> t ∉ X.
Proof. intros R H. by apply R in H as (?&?&?). Qed.
Lemma rep_sl_notX s Q SL W X t : rep s Q SL W X -> t ∈ SL -> t ∉ X.
Proof. intros R H. by apply R in H as (?&?). Qed.
Lemma rep_w_notX s Q SL W X q t : rep s Q SL W X -> t ∈ W q -> t ∉ X.
Proof. intros R H. by apply (rep_w_in _ _ _ R) in H as (?&?). Qed.

(** Only what [core] sees of threads that are not in flight matters. *)
Lemma rep_threads s s' Q SL W X :
  rep s Q SL W X -> (forall u, u ∉ X -> core (threads s' u) = core (threads s u)) ->
  (forall u, pri_ok (threads s' u)) -> g_run_queues s' = g_run_queues s -> g_sleep_queue s' = g_sleep_queue s ->
  wqs s' = wqs s -> g_idle_thread s' = g_idle_thread s -> g_current_thread s' = g_current_thread s ->
  rep s' Q SL W X.
Proof.
  intros R Hc Hp Er Es Ew Ei Ec. unfold core in Hc. constructor; auto.
  - eapply rq_frame; [apply R|auto|]. intros p u Hu. apply (rep_q_notX _ _ _ _ _ _ _ R) in Hu. specialize (Hc u Hu).
    unfold rq_core. simplify_eq. split; [congruence|done].
  - eapply sl_frame; [apply R|auto|]. intros u Hu. apply (rep_sl_notX _ _ _ _ _ _ R) in Hu. specialize (Hc u Hu).
    unfold sl_core. simplify_eq. split; [congruence|done].
  - eapply w_frame; [apply R|auto|]. intros q u Hu. apply (rep_w_notX _ _ _ _ _ _ _ R) in Hu. specialize (Hc u Hu).
    unfold w_core. simplify_eq. split; [congruence|done].
  - intros t Ht. pose proof (rep_all _ _ _ _ _ R t Ht) as H. specialize (Hc t Ht). unfold in_place in *.
    unfold free_links in *.
    rewrite Ei, Ec. injection Hc as -> -> _ -> -> _. done.
Qed.

Lemma rep_flight s Q SL W X t f :
  rep s Q SL W X -> t ∈ X -> pri_ok (f (threads s t)) -> rep (upd_th t f s) Q SL W X.
Proof.
  intros R Ht Hp. apply (rep_threads s); try reflexivity; [exact R| |].
  - intros u Hu. rewrite th_upd_ne; [auto|]. by intros ->.
  - intros u. destruct (decide (u = t)) as [->|N]; [by rewrite th_upd_eq|]. rewrite th_upd_ne by auto. apply R.
Qed.
Lemma rep_harmless s Q SL W X t f :
  rep s Q SL W X -> (forall k, core (f k) = core k /\ t_base_priority (f k) = t_base_priority k) ->
  rep (upd_th t f s) Q SL W X.
Proof.
  intros R Hf. apply (rep_threads s); try reflexivity; [exact R| |]; intros u.
  - intros _. destruct (decide (u = t)) as [->|N]; [rewrite th_upd_eq; apply Hf|by rewrite th_upd_ne].
  - destruct (decide (u = t)) as [->|N]; [|rewrite th_upd_ne by auto; apply R].
    rewrite th_upd_eq. destruct (Hf (threads s t)) as [Hc Hb]. pose proof (rep_pri _ _ _ _ _ R t) as [? ?].
    unfold pri_ok, core in *. rewrite Hb. simplify_eq. split; congruence.
Qed.

(** Which structure a thread is on. *)
Definition nowhere (Q : Z -> list Z) (SL : list Z) (W : wq -> list Z) (t : Z) : Prop :=
  (forall p, t ∉ Q p) /\ (t ∉ SL) /\ (forall q, t ∉ W q).
Lemma rep_flight_nowhere s Q SL W X t : rep s Q SL W X -> t ∈ X -> nowhere Q SL W t.
Proof.
  intros R H. repeat split; [intros p Hp; apply R in Hp; naive_solver|intros Hp; apply R in Hp; naive_solver|].
  intros q Hp. apply R in Hp. naive_solver.
Qed.
Lemma rep_state_nowhere s Q SL W X t :
  rep s Q SL W X -> t_state (threads s t) = THREAD_STATE_RUNNING \/ t_state (threads s t) = THREAD_STATE_ZOMBIE ->
  nowhere Q SL W t.
Proof.
  intros R H. repeat split; [intros p Hp; apply R in Hp|intros Hp; apply R in Hp|intros q Hp; apply R in Hp];
    destruct Hp; destruct H; congruence.
Qed.
Lemma rep_take s Q SL W X t : rep s Q SL W X -> nowhere Q SL W t -> rep s Q SL W (t :: X).
Proof.
  intros R (Hq & Hs & Hw). constructor; [| | |intros u Hu; apply R; set_solver|apply R].
  - eapply rq_frame; [apply R|auto|]. intros p u Hu. pose proof (rep_q_notX _ _ _ _ _ _ _ R Hu). set_solver.
  - eapply sl_frame; [apply R|auto|]. intros u Hu. pose proof (rep_sl_notX _ _ _ _ _ _ R Hu). set_solver.
  - eapply w_frame; [apply R|auto|]. intros q u Hu. pose proof (rep_w_notX _ _ _ _ _ _ _ R Hu). set_solver.
Qed.
Lemma rep_land s Q SL W X t : rep s Q SL W (t :: X) -> in_place s Q SL W t -> rep s Q SL W X.
Proof.
  intros R H. constructor; [| | | |apply R].
  - eapply rq_frame; [apply R|auto|]. intros p u Hu. pose proof (rep_q_notX _ _ _ _ _ _ _ R Hu). set_solver.
  - eapply sl_frame; [apply R|auto|]. intros u Hu. pose proof (rep_sl_notX _ _ _ _ _ _ R Hu). set_solver.
  - eapply w_frame; [apply R|auto|]. intros q u Hu. pose proof (rep_w_notX _ _ _ _ _ _ _ R Hu). set_solver.
  - intros u Hu. destruct (decide (u = t)) as [->|N]; [auto|]. apply R. set_solver.
Qed.

(** ** The run queues *)
Lemma rd_set_rq s p h r : length (g_run_queues s) = 5%nat -> 0 <= p < 5 -> 0 <= r < 5 ->
  rq_head (set_rq p h s) r = if r =? p then h else rq_head s r.
Proof.
  intros Hl Hp Hr. unfold rq_head. cbn. destruct (Z.eqb_spec r p) as [->|N].
  - rewrite rd_wr_eq by (unfold zlen; lia). reflexivity.
  - by rewrite rd_wr_ne by lia.
Qed.
Lemma len_set_rq s p h : length (g_run_queues (set_rq p h s)) = length (g_run_queues s).
Proof. cbn. pose proof (zlen_wr (g_run_queues s) p h) as H. unfold zlen in H. lia. Qed.
Lemma queue_index_ok p : 0 <= p < 5 -> queue_index p = p.
Proof. intros H. unfold queue_index, THREAD_PRIORITY_COUNT. destruct (Z.leb_spec 5 p); lia. Qed.
Lemma rq_head_upd_th t f s p : rq_head (upd_th t f s) p = rq_head s p.
Proof. reflexivity. Qed.
Lemma rq_head_upd_opt o f s p : rq_head (upd_opt o f s) p = rq_head s p.
Proof. by destruct o. Qed.

(** What [scheduler_enqueue] writes. *)
Definition linked (th : Z -> thread) (h : option Z) (t u : Z) : thread :=
  if u =? t then put_state THREAD_STATE_READY (put_sched_next h (put_sched_prev None (th t)))
  else if bool_decide (h = Some u) then put_sched_prev (Some t) (th u) else th u.
Lemma enqueue_threads s t h u :
  t_state (threads s t) <> THREAD_STATE_RUNNING -> h = rq_head s (queue_index (t_priority (threads s t))) ->
  h <> Some t -> threads (scheduler_enqueue t s) u = linked (threads s) h t u.
Proof.
  intros Hs Eh Hn. unfold scheduler_enqueue, is_st. rewrite bool_decide_eq_false_2 by auto.
  set (pri := queue_index _) in *. rewrite !rq_head_upd_th, <- Eh.
  set (s1 := upd_th t (put_sched_next h) _). set (s2 := upd_opt h _ s1).
  assert (Et : threads s2 t = put_sched_next h (put_sched_prev None (threads s t))).
  { unfold s2. rewrite th_opt_ne by auto. unfold s1. by rewrite !th_upd_eq. }
  change (threads (set_rq pri (Some t) s2)) with (threads s2). rewrite bool_decide_eq_false_2 by (by rewrite Et). cbn [negb].
  unfold linked. destruct (Z.eqb_spec u t) as [->|N].
  - rewrite th_upd_eq. change (threads (set_rq pri (Some t) s2)) with (threads s2). by rewrite Et.
  - rewrite th_upd_ne by auto. change (threads (set_rq pri (Some t) s2)) with (threads s2). unfold s2.
    case_bool_decide as E; [rewrite E, th_opt_eq|rewrite th_opt_ne by auto]; unfold s1; by rewrite !th_upd_ne by auto.
Qed.
Lemma enqueue_rest s t :
  let s' := scheduler_enqueue t s in
  g_sleep_queue s' = g_sleep_queue s /\ wqs s' = wqs s /\ g_idle_thread s' = g_idle_thread s /\
  g_current_thread s' = g_current_thread s /\ g_scheduler_active s' = g_scheduler_active s.
Proof. unfold scheduler_enqueue. destruct (is_st _ _); [auto|]. cbn zeta. destruct (rq_head _ _); cbn; destruct (is_st _ _); cbn; auto. Qed.
Lemma enqueue_rq s t : t_state (threads s t) <> THREAD_STATE_RUNNING ->
  g_run_queues (scheduler_enqueue t s) = wr (g_run_queues s) (queue_index (t_priority (threads s t))) (Some t).
Proof.
  intros H. unfold scheduler_enqueue, is_st. rewrite bool_decide_eq_false_2 by auto. cbn zeta.
  destruct (rq_head _ _); cbn; destruct (negb _); reflexivity.
Qed.

Lemma linked_core th h t u : u <> t ->
  let a := linked th h t u in
  t_state a = t_state (th u) /\ t_priority a = t_priority (th u) /\ t_wake_tick a = t_wake_tick (th u) /\
  t_sched_next a = t_sched_next (th u) /\ t_wait_queue_next a = t_wait_queue_next (th u) /\
  (h <> Some u -> a = th u).
Proof. intros N. unfold linked. rewrite (proj2 (Z.eqb_neq _ _) N). case_bool_decide; repeat split; auto; congruence. Qed.
Lemma linked_self th h t :
  linked th h t t = put_state THREAD_STATE_READY (put_sched_next h (put_sched_prev None (th t))).
Proof. unfold linked. by rewrite Z.eqb_refl. Qed.

(** A new head in front of a queue. *)
Lemma dseg_push th th' t l :
  (forall u, th' u = linked th (hd_or l None) t u) -> t ∉ l -> NoDup l -> dseg th None l None -> dseg th' None (t :: l) None.
Proof.
  intros T Nt ND D. cbn [dseg]. rewrite T, linked_self. split; [auto|split; [by destruct l|]].
  destruct l as [|y l]; [exact I|]. cbn [dseg hd_or] in *. destruct D as (D1 & D2 & D3).
  apply list.NoDup_cons in ND as [Hy ND]. apply list.not_elem_of_cons in Nt as [Hty Htl].
  rewrite T. destruct (linked_core th (Some y) t y ltac:(congruence)) as (_&_&_&->&_). split; [|split; [auto|]].
  - unfold linked. rewrite (proj2 (Z.eqb_neq y t)) by congruence. by rewrite bool_decide_eq_true_2.
  - eapply dseg_frame; [|exact D3]. intros u Hu. rewrite T.
    destruct (linked_core th (Some y) t u ltac:(by intros ->)) as (_&_&_&_&_&E).
    rewrite E; [auto|]. intros [= ->]. done.
Qed.
Lemma in_insert {A} (Q : Z -> list A) p l r u : u ∈ (<[p := l]> Q) r -> (r = p /\ u ∈ l) \/ (r <> p /\ u ∈ Q r).
Proof. destruct (decide (r = p)) as [->|N]; [rewrite fn_lookup_insert|rewrite fn_lookup_insert_ne by auto]; auto. Qed.
Lemma rq_push s s' Q X t p :
  rq_part s Q (t :: X) -> 0 <= p < 5 -> p = t_priority (threads s t) -> t ∉ X -> (forall r, t ∉ Q r) ->
  g_run_queues s' = wr (g_run_queues s) p (Some t) ->
  (forall u, threads s' u = linked (threads s) (hd_or (Q p) None) t u) -> rq_part s' (<[p := t :: Q p]> Q) X.
Proof.
  intros [] Hp Ep HX Nq Eq T.
  assert (L : forall u, u <> t -> _) by (intros u N; exact (linked_core (threads s) (hd_or (Q p) None) t u N)).
  constructor.
  - rewrite Eq. pose proof (zlen_wr (g_run_queues s) p (Some t)) as Hz. unfold zlen in Hz. lia.
  - intros r Hr. pose proof (rd_set_rq s p (Some t) r rep_len0 Hp Hr) as E. unfold rq_head in *. cbn in E. rewrite Eq, E.
    destruct (Z.eqb_spec r p) as [->|N]; [by rewrite fn_lookup_insert|]. rewrite fn_lookup_insert_ne by auto. by apply rep_head0.
  - intros r. destruct (decide (r = p)) as [->|N]; [rewrite fn_lookup_insert; by eapply dseg_push|].
    rewrite fn_lookup_insert_ne by auto. eapply dseg_frame; [|apply rep_dll0]. intros u Hu.
    destruct (L u) as (_&_&_&_&_&E); [intros ->; by apply (Nq r)|]. rewrite T, E; [auto|]. intros E'.
    assert (u ∈ Q p) as Hu' by (destruct (Q p); cbn in E'; [done|]; simplify_eq; left).
    destruct (rep_q0 r u Hu) as (_&?&_), (rep_q0 p u Hu') as (_&?&_). congruence.
  - intros r u [[-> Hu]|[N Hu]]%in_insert; rewrite T.
    + apply list.elem_of_cons in Hu as [->|Hu]; [by rewrite linked_self|].
      destruct (L u) as (->&->&_); [intros ->; by apply (Nq p)|]. destruct (rep_q0 p u Hu) as (?&?&?). set_solver.
    + destruct (L u) as (->&->&_); [intros ->; by apply (Nq r)|]. destruct (rep_q0 r u Hu) as (?&?&?). set_solver.
  - intros r. destruct (decide (r = p)) as [->|Nr]; [rewrite fn_lookup_insert; constructor; auto|].
    rewrite fn_lookup_insert_ne by auto. auto.
Qed.

(** Other threads keep their links. *)
Lemma linked_free s (Q : Z -> list Z) t p u :
  t <> u -> u ∉ Q p -> linked (threads s) (hd_or (Q p) None) t u = threads s u.
Proof.
  intros N Hu. destruct (linked_core (threads s) (hd_or (Q p) None) t u ltac:(congruence)) as (_&_&_&_&_&E).
  apply E. intros H%hd_or_in. done.
Qed.
(** The thread in flight becomes the head of the queue of its priority. *)
Lemma rep_push s s' Q SL W X t :
  rep s Q SL W (t :: X) -> t ∉ X ->
  let p := t_priority (threads s t) in
  (forall u, threads s' u = linked (threads s) (hd_or (Q p) None) t u) ->
  g_run_queues s' = wr (g_run_queues s) p (Some t) -> g_sleep_queue s' = g_sleep_queue s -> wqs s' = wqs s ->
  g_idle_thread s' = g_idle_thread s -> g_current_thread s' = g_current_thread s ->
  rep s' (<[p := t :: Q p]> Q) SL W X.
Proof.
  intros R HX p T Eq E1 E2 E3 E4. destruct (rep_flight_nowhere _ _ _ _ _ t R) as (Nq & Ns & Nw); [left|].
  assert (Hp : 0 <= p < 5) by apply R.
  assert (L : forall u, u <> t -> _) by (intros u N; exact (linked_core (threads s) (hd_or (Q p) None) t u N)).
  constructor.
  - eapply rq_push; eauto. apply R.
  - eapply sl_frame; [apply R|auto|]. intros u Hu. unfold sl_core. rewrite T. destruct (L u) as (->&_&->&->&_); [by intros ->|].
    pose proof (rep_sl_notX _ _ _ _ _ _ R Hu). set_solver.
  - eapply w_frame; [apply R|auto|]. intros q u Hu. unfold w_core. rewrite T.
    destruct (L u) as (->&_&_&_&->&_); [intros ->; by apply (Nw q)|]. pose proof (rep_w_notX _ _ _ _ _ _ _ R Hu). set_solver.
  - intros u Hu. unfold in_place. rewrite E3, E4, T. destruct (decide (u = t)) as [->|N].
    + rewrite linked_self. cbn. left. fold p. rewrite fn_lookup_insert. left.
    + pose proof (rep_all _ _ _ _ _ R u ltac:(set_solver)) as A. unfold in_place in A. destruct (decide (u ∈ Q p)) as [Hq|Hq].
      * destruct (rep_q _ _ _ R p u Hq) as (Es&Ep&_). destruct (L u N) as (->&->&_). rewrite Es, Ep. left.
        rewrite fn_lookup_insert. by right.
      * rewrite linked_free by auto. destruct (t_state (threads s u)); auto. destruct A as [A|A]; [left|by right].
        rewrite fn_lookup_insert_ne; [auto|]. intros E. rewrite <- E in A. done.
  - intros u. rewrite T. unfold linked. destruct (Z.eqb_spec u t) as [->|N]; [apply R|]. case_bool_decide; apply R.
Qed.
Lemma rep_enqueue s Q SL W X t :
  rep s Q SL W (t :: X) -> t ∉ X -> t_state (threads s t) <> THREAD_STATE_RUNNING ->
  let p := t_priority (threads s t) in
  rep (scheduler_enqueue t s) (<[p := t :: Q p]> Q) SL W X.
Proof.
  intros R HX Hs p. destruct (rep_flight_nowhere _ _ _ _ _ t R) as (Nq & Ns & Nw); [left|].
  assert (Hp : 0 <= p < 5) by apply R.
  destruct (enqueue_rest s t) as (E1 & E2 & E3 & E4 & _). pose proof (enqueue_rq s t Hs) as Eq. fold p in Eq.
  rewrite queue_index_ok in Eq by auto. apply rep_push with (s := s); auto.
  intros u. apply enqueue_threads; [auto| |].
  - fold p. rewrite queue_index_ok by auto. symmetry. by apply R.
  - intros H%hd_or_in. by apply (Nq p).
Qed.

(** ** Taking a thread off its queue *)
(** What [unlink] writes, given the neighbours. *)
Definition unlinked (th : Z -> thread) (t u : Z) : thread :=
  let k := th t in
  let a := if bool_decide (t_sched_prev k = Some u) then put_sched_next (t_sched_next k) (th u) else th u in
  if bool_decide (t_sched_next k = Some u) then put_sched_prev (t_sched_prev k) a else a.
Lemma unlink_threads t first s u :
  (forall n, threads (first n s) = threads s) -> threads (unlink t first s) u = unlinked (threads s) t u.
Proof.
  intros H. unfold unlink, unlinked. set (k := threads s t).
  assert (E : forall v, threads match t_sched_prev k with Some p => upd_th p (put_sched_next (t_sched_next k)) s
                                  | None => first (t_sched_next k) s end v
            = if bool_decide (t_sched_prev k = Some v) then put_sched_next (t_sched_next k) (threads s v) else threads s v).
  { intros v. destruct (t_sched_prev k) as [p|]; [|rewrite H; by case_bool_decide].
    case_bool_decide as E; [injection E as ->; apply th_upd_eq|apply th_upd_ne; congruence]. }
  destruct (decide (t_sched_next k = Some u)) as [E1|E1].
  - rewrite bool_decide_eq_true_2 by done. rewrite E1 in E |- *. rewrite th_opt_eq. f_equal. apply E.
  - rewrite bool_decide_eq_false_2 by done. rewrite th_opt_ne by auto. apply E.
Qed.
Lemma unlinked_core th t u :
  let a := unlinked th t u in
  t_state a = t_state (th u) /\ t_priority a = t_priority (th u) /\ t_base_priority a = t_base_priority (th u) /\
  t_wake_tick a = t_wake_tick (th u) /\ t_wait_queue_next a = t_wait_queue_next (th u) /\
  (t_sched_prev (th t) <> Some u -> t_sched_next (th t) <> Some u -> a = th u) /\
  t_sched_next a = (if bool_decide (t_sched_prev (th t) = Some u) then t_sched_next (th t) else t_sched_next (th u)) /\
  t_sched_prev a = (if bool_decide (t_sched_next (th t) = Some u) then t_sched_prev (th t) else t_sched_prev (th u)).
Proof. unfold unlinked. do 2 case_bool_decide; repeat split; auto; done. Qed.

Lemma dseg_unlink th th' l1 t l2 :
  (forall u, u ∈ l1 ++ l2 -> th' u = unlinked th t u) -> NoDup (l1 ++ t :: l2) ->
  dseg th None (l1 ++ t :: l2) None -> dseg th' None (l1 ++ l2) None.
Proof.
  intros T ND D. apply dseg_app in D as [D1 (Hp & Hn & D2)]. apply dseg_app.
  assert (U : forall u, u ∈ l1 ++ l2 -> _) by (intros u _; exact (unlinked_core th t u)).
  apply list.NoDup_app in ND as (N1 & N12 & N2). apply list.NoDup_cons in N2 as [Nt N2].
  split.
  - destruct (last_or_cases None l1) as [[-> _]|(l' & x & -> & El)]; [exact I|]. rewrite El in Hp.
    apply dseg_app in D1 as [D1 (Dp & _ & _)]. apply list.NoDup_app in N1 as (N1 & N1x & _).
    apply dseg_app. cbn [dseg hd_or] in *. assert (Hx : x ∈ (l' ++ [x]) ++ l2) by set_solver.
    assert (Hx2 : hd_or l2 None <> Some x) by (destruct l2; cbn; [done|]; intros [= ->]; set_solver).
    rewrite (T x Hx). destruct (U x Hx) as (_&_&_&_&_&_&->&->). rewrite Hp, Hn.
    rewrite (bool_decide_eq_true_2 (Some x = Some x)), (bool_decide_eq_false_2 (hd_or l2 None = Some x)) by done.
    repeat split; [|by rewrite <- Dp].
    eapply dseg_frame; [|exact D1]. intros u Hu. rewrite T by set_solver.
    destruct (unlinked_core th t u) as (_&_&_&_&_&E&_). rewrite E; [auto| |].
    + rewrite Hp. intros [= ->]. set_solver.
    + rewrite Hn. destruct l2; cbn; [done|]. intros [= ->]. set_solver.
  - destruct l2 as [|y l2]; [exact I|]. cbn [dseg hd_or] in *. destruct D2 as (Dp & Dn & D2).
    assert (Hy : y ∈ l1 ++ y :: l2) by set_solver. apply list.NoDup_cons in N2 as [Ny N2].
    assert (Hl : last_or None l1 <> Some y).
    { destruct (last_or_cases None l1) as [[-> _]|(l' & x & -> & ->)]; [done|]. intros [= ->]. set_solver. }
    rewrite (T y Hy). destruct (U y Hy) as (_&_&_&_&_&_&->&->). rewrite Hp, Hn.
    rewrite (bool_decide_eq_true_2 (Some y = Some y)), (bool_decide_eq_false_2 (last_or None l1 = Some y)) by done.
    repeat split; [auto|].
    eapply dseg_frame; [|exact D2]. intros u Hu. rewrite T by set_solver.
    destruct (unlinked_core th t u) as (_&_&_&_&_&E&_). rewrite E; [auto| |].
    + rewrite Hp. destruct (last_or_cases None l1) as [[-> _]|(l' & x & -> & ->)]; [done|]. intros [= ->]. set_solver.
    + rewrite Hn. intros [= ->]. set_solver.
Qed.

Lemma dseg_ends th l1 t l2 : dseg th None (l1 ++ t :: l2) None ->
  t_sched_prev (th t) = last_or None l1 /\ t_sched_next (th t) = hd_or l2 None.
Proof. intros D. apply dseg_app in D as [_ (? & ? & _)]. auto. Qed.
Lemma unlink_rest t p s :
  let s' := unlink t (set_rq p) s in
  g_sleep_queue s' = g_sleep_queue s /\ wqs s' = wqs s /\ g_idle_thread s' = g_idle_thread s /\
  g_current_thread s' = g_current_thread s /\
  g_run_queues s' = match t_sched_prev (threads s t) with
                    | None => wr (g_run_queues s) p (t_sched_next (threads s t)) | Some _ => g_run_queues s end.
Proof. unfold unlink. destruct (t_sched_prev _), (t_sched_next _); cbn; auto. Qed.
Lemma unlinked_off th l1 t l2 u :
  dseg th None (l1 ++ t :: l2) None -> u ∉ l1 ++ l2 -> unlinked th t u = th u.
Proof.
  intros D Hu. destruct (dseg_ends _ _ _ _ D) as [Hp Hn]. destruct (unlinked_core th t u) as (_&_&_&_&_&E&_). apply E.
  - rewrite Hp. intros ?%last_or_in. set_solver.
  - rewrite Hn. intros ?%hd_or_in. set_solver.
Qed.

Lemma rq_unlink s Q X t p l1 l2 :
  rq_part s Q X -> 0 <= p < 5 -> Q p = l1 ++ t :: l2 ->
  rq_part (unlink t (set_rq p) s) (<[p := l1 ++ l2]> Q) (t :: X).
Proof.
  intros R Hp EQ. destruct (dseg_ends (threads s) l1 t l2) as [Ep En]; [rewrite <- EQ; apply R|].
  assert (T : forall u, threads (unlink t (set_rq p) s) u = unlinked (threads s) t u) by (intros; by apply unlink_threads).
  destruct (unlink_rest t p s) as (_&_&_&_&Er). rewrite Ep, En in Er.
  set (s' := unlink t (set_rq p) s) in *. destruct R. pose proof (rep_q_nodup0 p) as ND. rewrite EQ in ND.
  assert (Nt : t ∉ l1 ++ l2) by (apply list.NoDup_app in ND as (?&?&ND); apply list.NoDup_cons in ND as []; set_solver).
  assert (Tp : forall r u, u ∈ Q r -> u ∈ Q p -> r = p).
  { intros r u H H'. destruct (rep_q0 r u H) as (_&?&_), (rep_q0 p u H') as (_&?&_). congruence. }
  constructor.
  - rewrite Er. destruct (last_or None l1); [auto|]. pose proof (zlen_wr (g_run_queues s) p (hd_or l2 None)) as Hz. unfold zlen in Hz. lia.
  - intros r Hr. unfold rq_head. rewrite Er. destruct (decide (r = p)) as [->|N].
    + rewrite fn_lookup_insert. destruct (last_or_cases None l1) as [[-> ->]|(l' & x & -> & ->)].
      * rewrite rd_wr_eq by (unfold zlen; lia). reflexivity.
      * change (default None (rd (g_run_queues s) p)) with (rq_head s p). rewrite rep_head0, EQ by auto. by rewrite !hd_or_app, <- !hd_or_app; destruct l'.
    + rewrite fn_lookup_insert_ne by auto. rewrite <- rep_head0 by auto. unfold rq_head. destruct (last_or None l1); [auto|].
      by rewrite rd_wr_ne by lia.
  - intros r. destruct (decide (r = p)) as [->|N].
    + rewrite fn_lookup_insert. eapply dseg_unlink; [intros; apply T|auto|]. rewrite <- EQ. auto.
    + rewrite fn_lookup_insert_ne by auto. eapply dseg_frame; [|apply rep_dll0]. intros u Hu. rewrite T.
      rewrite (unlinked_off _ l1 t l2); [auto|rewrite <- EQ; auto|]. intros H. apply N, (Tp r u Hu). rewrite EQ. set_solver.
  - intros r u Hu. assert (u ∈ Q r /\ u <> t) as [Hu' Ht].
    { apply in_insert in Hu as [[-> Hu]|[N Hu]]; [rewrite EQ; set_solver|]. split; [auto|]. intros ->. apply N, (Tp r t Hu).
      rewrite EQ. set_solver. }
    rewrite T. destruct (unlinked_core (threads s) t u) as (->&->&_). destruct (rep_q0 r u Hu') as (?&?&?). set_solver.
  - intros r. destruct (decide (r = p)) as [->|N]; [rewrite fn_lookup_insert|by rewrite fn_lookup_insert_ne].
    apply list.NoDup_app in ND as (?&?&ND). apply list.NoDup_cons in ND as []. apply list.NoDup_app. set_solver.
Qed.

(** A queued thread taken off its queue is in flight. *)
Lemma rep_unlink s Q SL W X t p l1 l2 :
  rep s Q SL W X -> Q p = l1 ++ t :: l2 ->
  rep (unlink t (set_rq p) s) (<[p := l1 ++ l2]> Q) SL W (t :: X) /\ 0 <= p < 5.
Proof.
  intros R EQ. assert (Ht : t ∈ Q p) by (rewrite EQ; set_solver).
  destruct (rep_q _ _ _ R p t Ht) as (Hs & Epr & _). assert (Hp : 0 <= p < 5) by (rewrite <- Epr; apply R). split; [|auto].
  assert (T : forall u, threads (unlink t (set_rq p) s) u = unlinked (threads s) t u) by (intros; by apply unlink_threads).
  destruct (unlink_rest t p s) as (E1&E2&E3&E4&_).
  assert (D : dseg (threads s) None (l1 ++ t :: l2) None) by (rewrite <- EQ; apply R).
  assert (off : forall u, t_state (threads s u) <> THREAD_STATE_READY -> unlinked (threads s) t u = threads s u).
  { intros u Hu. apply (unlinked_off _ l1 t l2 u D). intros H. apply Hu, (rep_q _ _ _ R p u). rewrite EQ. set_solver. }
  constructor.
  - by apply rq_unlink; [apply R| |].
  - eapply sl_frame; [apply R|auto|]. intros u Hu. destruct (rep_sl_in _ _ _ R u Hu) as [E ?]. rewrite T, off by congruence.
    split; [auto|]. apply list.not_elem_of_cons. split; [congruence|auto].
  - eapply w_frame; [apply R|auto|]. intros q u Hu. destruct (rep_w_in _ _ _ R q u Hu) as [E ?]. rewrite T, off by congruence.
    split; [auto|]. apply list.not_elem_of_cons. split; [congruence|auto].
  - intros u Hu. pose proof (rep_all _ _ _ _ _ R u ltac:(set_solver)) as A. unfold in_place in *. rewrite T, E3, E4.
    destruct (decide (u ∈ l1 ++ l2)) as [Hq|Hq].
    + destruct (rep_q _ _ _ R p u) as (Es&Ep&_); [rewrite EQ; set_solver|].
      destruct (unlinked_core (threads s) t u) as (->&->&_). rewrite Es, Ep. left. by rewrite fn_lookup_insert.
    + rewrite (unlinked_off _ l1 t l2 u D Hq). destruct (t_state (threads s u)); auto.
      destruct A as [A|A]; [left|by right]. rewrite fn_lookup_insert_ne; [auto|]. intros E. rewrite <- E, EQ in A. set_solver.
  - intros u. rewrite T. unfold pri_ok. destruct (unlinked_core (threads s) t u) as (_&->&->&_). apply R.
Qed.

(** ** Choosing the next thread *)
Lemma rep_q_range s Q SL W X r : rep s Q SL W X -> Q r <> [] -> 0 <= r < 5.
Proof.
  intros R H. destruct (Q r) as [|t l] eqn:E; [done|]. destruct (rep_q _ _ _ R r t) as (_&<-&_); [rewrite E; left|]. apply R.
Qed.
Lemma pop_rq_unlink s Q SL W X p t l :
  rep s Q SL W X -> Q p = t :: l -> pop_rq p t s = clear_links t (unlink t (set_rq p) s).
Proof.
  intros R E. pose proof (rep_dll _ _ _ R p) as D. rewrite E in D. destruct D as (D & _). unfold pop_rq, unlink. by rewrite D.
Qed.
Lemma pick_from_spec s Q SL W X n :
  rep s Q SL W X -> (n <= 5)%nat -> (forall r, Z.of_nat n <= r -> Q r = []) ->
  (exists p t l, Q p = t :: l /\ (forall r, p < r -> Q r = []) /\
     pick_from n s = (Some t, clear_links t (unlink t (set_rq p) s))) \/
  ((forall r, Q r = []) /\ pick_from n s = (g_idle_thread s, s)).
Proof.
  intros R. induction n as [|n IH]; intros Hn HQ; cbn [pick_from].
  - right. split; [|auto]. intros r. destruct (Q r) eqn:E; [auto|]. exfalso.
    assert (0 <= r < 5) by (eapply rep_q_range; [apply R|by rewrite E]). rewrite HQ in E by lia. done.
  - rewrite (rep_head _ _ _ R) by lia. destruct (Q (Z.of_nat n)) as [|t l] eqn:E; cbn [hd_or].
    + apply IH; [lia|]. intros r Hr. destruct (decide (r = Z.of_nat n)) as [->|]; [auto|]. apply HQ. lia.
    + left. exists (Z.of_nat n), t, l. repeat split; [auto|intros r Hr; apply HQ; lia|]. by erewrite pop_rq_unlink.
Qed.
(** The head of the highest nonempty queue, taken off it; else the idle thread. *)
Lemma pick_spec s Q SL W X :
  rep s Q SL W X ->
  (exists p t l s', Q p = t :: l /\ (forall r, p < r -> Q r = []) /\ scheduler_pick_next s = (Some t, s') /\
     s' = clear_links t (unlink t (set_rq p) s) /\ rep s' (<[p := l]> Q) SL W (t :: X)) \/
  ((forall r, Q r = []) /\ scheduler_pick_next s = (g_idle_thread s, s)).
Proof.
  intros R. destruct (pick_from_spec s Q SL W X 5 R) as [(p & t & l & EQ & Hr & E)|H]; [lia| | |right; exact H].
  - intros r Hr. destruct (Q r) eqn:E; [auto|]. exfalso. assert (0 <= r < 5) by (eapply rep_q_range; [apply R|by rewrite E]). lia.
  - left. exists p, t, l, (clear_links t (unlink t (set_rq p) s)). split; [auto|]. split; [auto|]. split; [exact E|]. split; [auto|].
    destruct (rep_unlink s Q SL W X t p [] l R EQ) as [R' _]. apply rep_flight; [exact R'|left|]. apply R'.
Qed.

(** ** The sleep queue *)
Lemma sl_push_spec s fuel wake h l :
  chain (sched_next_of s) (h :: l) None -> (length l <= fuel)%nat -> t_wake_tick (threads s h) <= wake ->
  StronglySorted (by_wake s) (h :: l) ->
  exists l1 l2, h :: l = l1 ++ sleep_position fuel s wake h :: l2 /\ t_sched_next (threads s (sleep_position fuel s wake h)) = hd_or l2 None /\
    (forall u, u ∈ l1 ++ [sleep_position fuel s wake h] -> t_wake_tick (threads s u) <= wake) /\
    (forall u, u ∈ l2 -> wake < t_wake_tick (threads s u)).
Proof.
  revert h l; induction fuel as [|fuel IH]; intros h l C Hf Hh S; destruct C as [Cn C]; unfold sched_next_of in Cn; cbn [sleep_position].
  - destruct l; [|cbn in Hf; lia]. exists [], []. rewrite Cn. set_solver.
  - rewrite Cn. destruct l as [|n l]; cbn [hd_or].
    + exists [], []. rewrite Cn. set_solver.
    + inversion S as [|? ? S' Hall]; subst. destruct (Z.leb_spec (t_wake_tick (threads s n)) wake) as [Hn|Hn].
      * destruct (IH n l C ltac:(cbn in Hf; lia) Hn S') as (l1 & l2 & E & En & H1 & H2).
        exists (h :: l1), l2. rewrite E. repeat split; auto. set_solver.
      * exists [], (n :: l). rewrite Cn. repeat split; [set_solver|]. intros u Hu.
        apply list.elem_of_cons in Hu as [->|Hu]; [auto|]. inversion S' as [|? ? _ Hall']; subst.
        rewrite list.Forall_forall in Hall'. specialize (Hall' u Hu). unfold by_wake in Hall'. lia.
Qed.

Lemma put_next_id k : put_sched_next (t_sched_next k) k = k.
Proof. by destruct k. Qed.
(** Linking [t] between [a] and [b]. *)
Definition spliced (nx : Z -> option Z) (a : list Z) (t : Z) (b : list Z) (u : Z) : option Z :=
  if u =? t then hd_or b None else if bool_decide (last_or None a = Some u) then Some t else nx u.
Lemma chain_splice nx nx' a t b :
  (forall u, nx' u = spliced nx a t b u) -> NoDup (a ++ b) -> t ∉ a ++ b -> chain nx (a ++ b) None ->
  chain nx' (a ++ t :: b) None.
Proof.
  intros H ND Nt C. apply seg_app in C as [Ca Cb]. apply list.NoDup_app in ND as (Na & Nab & Nb).
  assert (Hla : forall u, last_or None a = Some u -> u ∈ a) by (intros u; apply last_or_in).
  apply seg_app. cbn [chain hd_or]. split; [|split].
  - destruct (last_or_cases None a) as [[-> _]|(a' & x & -> & El)]; [exact I|].
    apply seg_app in Ca as [Ca _]. apply seg_app. cbn [chain hd_or]. apply list.NoDup_app in Na as (Na & Nax & _). split; [|split; [|auto]].
    + eapply seg_frame; [|exact Ca]. intros u Hu. rewrite H. unfold spliced. rewrite El.
      rewrite (proj2 (Z.eqb_neq u t)) by (intros ->; set_solver). rewrite bool_decide_eq_false_2; [auto|]. intros [= ->]. set_solver.
    + rewrite H. unfold spliced. rewrite (proj2 (Z.eqb_neq x t)) by (intros ->; set_solver). by rewrite bool_decide_eq_true_2.
  - rewrite H. unfold spliced. by rewrite Z.eqb_refl.
  - eapply seg_frame; [|exact Cb]. intros u Hu. rewrite H. unfold spliced. rewrite (proj2 (Z.eqb_neq u t)) by (intros ->; set_solver).
    rewrite bool_decide_eq_false_2; [auto|]. intros E. apply Hla in E. set_solver.
Qed.
Lemma sorted_splice (R : Z -> Z -> Prop) a t b :
  StronglySorted R (a ++ b) -> (forall u, u ∈ a -> R u t) -> (forall u, u ∈ b -> R t u) -> StronglySorted R (a ++ t :: b).
Proof.
  induction a as [|x a IH]; cbn; intros S Ha Hb.
  - constructor; [auto|]. by apply list.Forall_forall.
  - inversion S as [|? ? S' Hall]; subst. constructor.
    + apply IH; [auto| |auto]. intros u Hu. apply Ha. by right.
    + rewrite list.Forall_app, list.Forall_cons in *. destruct Hall. repeat split; auto. apply Ha. left.
Qed.

Lemma rep_sleep_splice s s' Q a b W X t :
  rep s Q (a ++ b) W (t :: X) -> t ∉ X -> t_state (threads s t) = THREAD_STATE_SLEEPING ->
  (forall u, threads s' u = put_sched_next (spliced (sched_next_of s) a t b u) (threads s u)) ->
  g_sleep_queue s' = hd_or (a ++ t :: b) None -> g_run_queues s' = g_run_queues s -> wqs s' = wqs s ->
  g_idle_thread s' = g_idle_thread s -> g_current_thread s' = g_current_thread s ->
  (forall u, u ∈ a -> by_wake s u t) -> (forall u, u ∈ b -> by_wake s t u) ->
  rep s' Q (a ++ t :: b) W X.
Proof.
  intros R HX Hs T Es Er Ew Ei Ec Ha Hb. destruct (rep_flight_nowhere _ _ _ _ _ t R) as (Nq & Ns & Nw); [left|].
  constructor.
  - eapply rq_frame; [apply R|auto|]. intros p u Hu. destruct (rep_q _ _ _ R p u Hu) as (Eu & _ & Nu). split; [|set_solver].
    rewrite T. unfold spliced. rewrite (proj2 (Z.eqb_neq u t)) by (intros ->; by apply (Nq p)).
    rewrite bool_decide_eq_false_2; [by unfold sched_next_of; rewrite put_next_id|]. intros E%last_or_in.
    destruct (rep_sl_in _ _ _ R u) as [? _]; [set_solver|congruence].
  - destruct (rep_sleep _ _ _ _ _ R). constructor; auto.
    + eapply chain_splice; [|apply rep_sl_nodup0|auto|apply rep_sl_chain0]. intros u. unfold sched_next_of at 1. by rewrite T.
    + intros u Hu. rewrite T. cbn. assert (u = t \/ u ∈ a ++ b) as [->|Hu'] by set_solver; [auto|].
      destruct (rep_sl_in0 u Hu'). set_solver.
    + apply list.NoDup_app in rep_sl_nodup0 as (?&?&?). apply list.NoDup_app. repeat split; [auto|set_solver|]. constructor; [set_solver|auto].
    + apply sorted_frame with (by_wake s); [intros u v _ _; unfold by_wake; by rewrite !T|]. by apply sorted_splice.
  - eapply w_frame; [apply R|auto|]. intros q u Hu. rewrite T. split; [auto|]. pose proof (rep_w_notX _ _ _ _ _ _ _ R Hu). set_solver.
  - intros u Hu. unfold in_place. rewrite T, Ei, Ec. cbn. destruct (decide (u = t)) as [->|N]; [rewrite Hs; set_solver|].
    pose proof (rep_all _ _ _ _ _ R u ltac:(set_solver)) as A. unfold in_place in A.
    assert (F : u ∉ a -> free_links (threads s u) -> free_links (put_sched_next (spliced (sched_next_of s) a t b u) (threads s u))).
    { intros Na F. unfold spliced. rewrite (proj2 (Z.eqb_neq u t)) by auto. rewrite bool_decide_eq_false_2 by (intros ?%last_or_in; done).
      unfold sched_next_of. by rewrite put_next_id. }
    assert (Na : t_state (threads s u) <> THREAD_STATE_SLEEPING -> u ∉ a).
    { intros Nu Ha'. apply Nu. apply (rep_sl_in _ _ _ R u). set_solver. }
    destruct (t_state (threads s u)); auto; [| |set_solver].
    + destruct A as [A|[A A']]; [by left|right; auto].
    + destruct A; auto.
  - intros u. rewrite T. apply R.
Qed.

Lemma splice_front s t b u :
  threads (upd_th t (put_sched_next (hd_or b None)) s) u = put_sched_next (spliced (sched_next_of s) [] t b u) (threads s u).
Proof.
  unfold spliced. destruct (Z.eqb_spec u t) as [->|N]; [apply th_upd_eq|]. rewrite th_upd_ne by auto. rewrite bool_decide_eq_false_2 by done. unfold sched_next_of. by rewrite put_next_id.
Qed.
Lemma rep_sleep_insert s Q SL W X t fuel :
  rep s Q SL W (t :: X) -> t ∉ X -> t_state (threads s t) = THREAD_STATE_SLEEPING -> (length SL <= fuel)%nat ->
  exists a b, SL = a ++ b /\ rep (sleep_insert fuel t s) Q (a ++ t :: b) W X.
Proof.
  intros R HX Hs Hf. destruct (rep_flight_nowhere _ _ _ _ _ t R) as (Nq & Ns & Nw); [left|].
  unfold sleep_insert. rewrite (rep_sl _ _ _ R). destruct SL as [|h l]; cbn [hd_or].
  { exists [], []. split; [auto|]. eapply rep_sleep_splice with (s := s); try reflexivity; auto; [|set_solver..].
    intros u. apply (splice_front s t [] u). }
  pose proof (rep_sl_sorted _ _ _ R) as S. destruct (Z.ltb_spec (t_wake_tick (threads s t)) (t_wake_tick (threads s h))) as [Hw|Hw].
  - exists [], (h :: l). split; [auto|]. eapply rep_sleep_splice with (s := s); try reflexivity; auto; [|set_solver|].
    + intros u. apply (splice_front s t (h :: l) u).
    + intros u Hu. unfold by_wake. inversion S as [|? ? _ Hall]; subst. rewrite list.Forall_forall in Hall.
      apply list.elem_of_cons in Hu as [->|Hu]; [lia|]. specialize (Hall u Hu). unfold by_wake in Hall. lia.
  - destruct (sl_push_spec s fuel (t_wake_tick (threads s t)) h l) as (l1 & l2 & E & En & H1 & H2);
      [apply R|cbn in Hf; lia|auto|auto|].
    set (prev := sleep_position _ _ _ _) in *. rewrite E in R, Ns |- *. exists (l1 ++ [prev]), l2. rewrite <- !app_assoc. split; [auto|].
    assert (Np : prev <> t) by (intros ->; set_solver). rewrite app_assoc.
    eapply rep_sleep_splice with (s := s); try reflexivity; auto.
    + by rewrite <- app_assoc.
    + intros u. unfold spliced. rewrite last_or_app. cbn [last_or]. destruct (Z.eqb_spec u t) as [->|N].
      * rewrite th_upd_ne by auto. rewrite th_upd_eq. by rewrite En.
      * case_bool_decide as Eu; [injection Eu as ->; rewrite th_upd_eq; by rewrite th_upd_ne|].
        rewrite th_upd_ne by congruence. rewrite th_upd_ne by auto. unfold sched_next_of. by rewrite put_next_id.
    + cbn. rewrite (rep_sl _ _ _ R). by rewrite <- app_assoc, !hd_or_app.
    + intros u Hu. specialize (H2 u Hu). unfold by_wake. lia.
Qed.

(** The head of the sleep queue taken off it. *)
Lemma rep_sleep_pop s Q SL W X t :
  rep s Q (t :: SL) W X -> rep (with_g_sleep_queue s (t_sched_next (threads s t))) Q SL W (t :: X).
Proof.
  intros R. destruct (rep_sl_in _ _ _ R t) as [Hs HX]; [left|].
  constructor; [| | | |apply R].
  - eapply rq_frame; [apply R|auto|]. intros p u Hu. destruct (rep_q _ _ _ R p u Hu) as (?&?&?). split; [auto|].
    apply list.not_elem_of_cons. split; [congruence|auto].
  - destruct (rep_sleep _ _ _ _ _ R). cbn in rep_sl_chain0. destruct rep_sl_chain0 as [En C]. apply list.NoDup_cons in rep_sl_nodup0 as [Nt ND].
    constructor; auto.
    + intros u Hu. destruct (rep_sl_in0 u) as [? ?]; [set_solver|]. split; [auto|]. apply list.not_elem_of_cons. split; [|auto]. by intros ->.
    + by inversion rep_sl_sorted0.
  - eapply w_frame; [apply R|auto|]. intros q u Hu. destruct (rep_w_in _ _ _ R q u Hu) as [? ?]. split; [auto|].
    apply list.not_elem_of_cons. split; [congruence|auto].
  - intros u Hu. pose proof (rep_all _ _ _ _ _ R u ltac:(set_solver)) as A. unfold in_place in *. cbn.
    destruct (t_state (threads s u)); auto. set_solver.
Qed.

(** ** Wait queues *)
Lemma th_upd_wq q v s : threads (upd_wq q v s) = threads s.
Proof. reflexivity. Qed.
Lemma in_insert_wq (W : wq -> list Z) q l r u : u ∈ (<[q := l]> W) r -> (r = q /\ u ∈ l) \/ (r <> q /\ u ∈ W r).
Proof. destruct (decide (r = q)) as [->|N]; [rewrite fn_lookup_insert|rewrite fn_lookup_insert_ne by auto]; auto. Qed.

(** Adding a blocked thread at the end of a queue, however it is done. *)
Lemma rep_wq_append s s' Q SL W X t q :
  rep s Q SL W (t :: X) -> t ∉ X ->
  (forall u, exists v, threads s' u = put_waiting_queue v (put_wait_queue_next (spliced (wait_next_of s) (W q) t [] u)
     (if u =? t then put_state THREAD_STATE_BLOCKED (threads s u) else threads s u))) ->
  g_sleep_queue s' = g_sleep_queue s -> g_run_queues s' = g_run_queues s -> g_idle_thread s' = g_idle_thread s ->
  g_current_thread s' = g_current_thread s -> (forall r, r <> q -> wqs s' r = wqs s r) ->
  wq_head (wqs s' q) = hd_or (W q ++ [t]) None -> (is_sync q = false -> wq_tail (wqs s' q) = Some t) ->
  rep s' Q SL (<[q := W q ++ [t]]> W) X.
Proof.
  intros R HX T Es Er Ei Ec Ew Eh Et. destruct (rep_flight_nowhere _ _ _ _ _ t R) as (Nq & Ns & Nw); [left|].
  assert (Tn : forall u, u <> t -> rq_core (threads s' u) = rq_core (threads s u) /\ sl_core (threads s' u) = sl_core (threads s u)).
  { intros u N. destruct (T u) as [v ->]. by rewrite (proj2 (Z.eqb_neq u t)). }
  assert (F : forall u, u <> t -> free_links (threads s u) -> free_links (threads s' u)).
  { intros u N. destruct (Tn u N) as [E _]. unfold rq_core, free_links in *. injection E as _ _ -> ->. auto. }
  constructor.
  - eapply rq_frame; [apply R|auto|]. intros p u Hu. destruct (rep_q _ _ _ R p u Hu) as (?&?&?). split; [|set_solver].
    apply Tn. intros ->. by apply (Nq p).
  - eapply sl_frame; [apply R|auto|]. intros u Hu. destruct (rep_sl_in _ _ _ R u Hu). split; [|set_solver]. apply Tn. by intros ->.
  - destruct (rep_wait _ _ _ _ _ R).
    assert (Tw : forall r u, r <> q -> u ∈ W r -> w_core (threads s' u) = w_core (threads s u)).
    { intros r u Nr Hu. destruct (T u) as [v ->]. rewrite (proj2 (Z.eqb_neq u t)) by (intros ->; by apply (Nw r)).
      unfold spliced, wait_next_of. rewrite (proj2 (Z.eqb_neq u t)) by (intros ->; by apply (Nw r)).
      rewrite bool_decide_eq_false_2; [auto|]. intros E%last_or_in. apply Nr. eauto. }
    constructor.
    + intros r. destruct (decide (r = q)) as [->|N]; [by rewrite fn_lookup_insert|]. rewrite fn_lookup_insert_ne, Ew by auto. auto.
    + intros r Hr. destruct (decide (r = q)) as [->|N]; [rewrite fn_lookup_insert, last_or_app; auto|].
      rewrite fn_lookup_insert_ne, Ew by auto. auto.
    + intros r. destruct (decide (r = q)) as [->|N].
      * rewrite fn_lookup_insert. eapply chain_splice; [|rewrite app_nil_r; auto|rewrite app_nil_r; auto|rewrite app_nil_r; auto].
        intros u. unfold wait_next_of at 1. by destruct (T u) as [v ->].
      * rewrite fn_lookup_insert_ne by auto. eapply seg_frame; [|auto]. intros u Hu. specialize (Tw r u N Hu).
        unfold w_core in Tw. unfold wait_next_of. congruence.
    + intros r u [[-> Hu]|[N Hu]]%in_insert_wq; destruct (T u) as [v ->].
      * destruct (Z.eqb_spec u t) as [->|Nu]; [auto|]. assert (Hu' : u ∈ W q) by set_solver. destruct (rep_w_in0 q u Hu'). set_solver.
      * rewrite (proj2 (Z.eqb_neq u t)) by (intros ->; by apply (Nw r)). destruct (rep_w_in0 r u Hu). set_solver.
    + intros r. destruct (decide (r = q)) as [->|N]; [rewrite fn_lookup_insert|by rewrite fn_lookup_insert_ne].
      apply list.NoDup_app. repeat split; [auto|set_solver|]. constructor; [set_solver|constructor].
    + intros r r' u [[-> Hu]|[N Hu]]%in_insert_wq [[-> Hu']|[N' Hu']]%in_insert_wq; auto; [| |eauto].
      * assert (u = t \/ u ∈ W q) as [->|] by set_solver; [by apply Nw in Hu'|eauto].
      * assert (u = t \/ u ∈ W q) as [->|] by set_solver; [by apply Nw in Hu|eauto].
  - intros u Hu. unfold in_place. rewrite Ei, Ec. destruct (decide (u = t)) as [->|N].
    + destruct (T t) as [v ->]. rewrite Z.eqb_refl. cbn. exists q. rewrite fn_lookup_insert. set_solver.
    + pose proof (rep_all _ _ _ _ _ R u ltac:(set_solver)) as A. unfold in_place in A. destruct (Tn u N) as [E _].
      unfold rq_core in E. injection E as -> -> _ _. specialize (F u N). destruct (t_state (threads s u)); auto; [naive_solver..|].
      destruct A as [r A]. exists r. destruct (decide (r = q)) as [->|Nr]; [rewrite fn_lookup_insert; set_solver|by rewrite fn_lookup_insert_ne].
  - intros u. destruct (T u) as [v ->]. destruct (u =? t); apply R.
Qed.

Lemma put_wait_next_id k : put_waiting_queue (t_waiting_queue k) (put_wait_queue_next (t_wait_queue_next k) k) = k.
Proof. by destruct k. Qed.
(** [wait_queue_enqueue_locked] followed by the change of state. *)
Lemma rep_wait_enqueue s Q SL W X t q :
  rep s Q SL W (t :: X) -> t ∉ X -> is_sync q = false ->
  rep (upd_th t (put_state THREAD_STATE_BLOCKED) (wait_queue_enqueue_locked q t s)) Q SL (<[q := W q ++ [t]]> W) X.
Proof.
  intros R HX Hq. destruct (rep_flight_nowhere _ _ _ _ _ t R) as (Nq & Ns & Nw); [left|].
  pose proof (rep_w_tail _ _ _ R q Hq) as Et. pose proof (rep_w_head _ _ _ R q) as Eh.
  unfold wait_queue_enqueue_locked. set (s1 := upd_th t _ s). change (wqs s1) with (wqs s). rewrite Et, Eh.
  assert (Nl : last_or None (W q) <> Some t) by (intros ?%last_or_in; by apply (Nw q)).
  assert (T1 : forall u, threads (upd_opt (last_or None (W q)) (put_wait_queue_next (Some t)) s1) u =
    if bool_decide (last_or None (W q) = Some u) then put_wait_queue_next (Some t) (threads s u)
    else if u =? t then put_waiting_queue (Some q) (put_wait_queue_next None (threads s u)) else threads s u).
  { intros u. case_bool_decide as E; [rewrite E, th_opt_eq|rewrite th_opt_ne by auto; reflexivity].
    f_equal. apply th_upd_ne. congruence. }
  eapply rep_wq_append with (s := s); eauto; try (by destruct (last_or None (W q))).
  - intros u. unfold spliced, wait_next_of. destruct (Z.eqb_spec u t) as [->|N].
    + exists (Some q). rewrite th_upd_eq, th_upd_wq, T1, bool_decide_eq_false_2 by auto. by rewrite Z.eqb_refl.
    + exists (t_waiting_queue (threads s u)). rewrite th_upd_ne, th_upd_wq, T1 by auto.
      case_bool_decide; [by destruct (threads s u)|]. rewrite (proj2 (Z.eqb_neq u t)) by auto. by rewrite put_wait_next_id.
  - intros r N. cbn. rewrite bool_decide_eq_false_2 by auto. by destruct (last_or None (W q)).
  - cbn. rewrite bool_decide_eq_true_2 by auto. cbn. destruct (W q) as [|y l]; [auto|]. cbn.
    destruct (last_or_cases (Some y) l) as [[-> ->]|(? & ? & _ & ->)]; auto.
  - intros _. cbn. by rewrite bool_decide_eq_true_2.
Qed.

(** The head of a wait queue taken off it, as the dequeuing functions do. *)
Lemma rep_wq_pop s s' Q SL W X t q l :
  rep s Q SL W X -> W q = t :: l -> (forall u, u <> t -> threads s' u = threads s u) -> pri_ok (threads s' t) ->
  g_sleep_queue s' = g_sleep_queue s -> g_run_queues s' = g_run_queues s -> g_idle_thread s' = g_idle_thread s ->
  g_current_thread s' = g_current_thread s -> (forall r, r <> q -> wqs s' r = wqs s r) ->
  wq_head (wqs s' q) = hd_or l None -> (is_sync q = false -> wq_tail (wqs s' q) = last_or None l) ->
  rep s' Q SL (<[q := l]> W) (t :: X).
Proof.
  intros R EW T Tp Es Er Ei Ec Ew Eh Et.
  destruct (rep_w_in _ _ _ R q t) as [Hs HX]; [rewrite EW; left|].
  pose proof (rep_w_nodup _ _ _ R q) as ND. rewrite EW in ND. apply list.NoDup_cons in ND as [Nt ND].
  constructor.
  - eapply rq_frame; [apply R|auto|]. intros p u Hu. destruct (rep_q _ _ _ R p u Hu) as (?&?&?).
    assert (u <> t) by congruence. rewrite T by auto. set_solver.
  - eapply sl_frame; [apply R|auto|]. intros u Hu. destruct (rep_sl_in _ _ _ R u Hu) as [? ?].
    assert (u <> t) by congruence. rewrite T by auto. set_solver.
  - destruct (rep_wait _ _ _ _ _ R).
    assert (Ne : forall r u, u ∈ (<[q := l]> W) r -> u <> t /\ u ∈ W r).
    { intros r u [[-> Hu]|[N Hu]]%in_insert_wq; [split; [by intros ->|rewrite EW; by right]|]. split; [|auto]. intros ->.
      apply N, (rep_w_apart0 _ _ t); [auto|]. rewrite EW. left. }
    constructor; eauto.
    + intros r. destruct (decide (r = q)) as [->|N]; [by rewrite fn_lookup_insert|]. rewrite fn_lookup_insert_ne, Ew by auto. auto.
    + intros r Hr. destruct (decide (r = q)) as [->|N]; [rewrite fn_lookup_insert; auto|]. rewrite fn_lookup_insert_ne, Ew by auto. auto.
    + intros r. eapply seg_frame with (nx := wait_next_of s); [intros u Hu; unfold wait_next_of; rewrite T; [auto|by apply (Ne r)]|].
      destruct (decide (r = q)) as [->|N]; [rewrite fn_lookup_insert|by rewrite fn_lookup_insert_ne].
      pose proof (rep_w_chain0 q) as C. rewrite EW in C. apply C.
    + intros r u Hu. destruct (Ne r u Hu) as [N Hu']. rewrite T by auto. destruct (rep_w_in0 r u Hu'). set_solver.
    + intros r. destruct (decide (r = q)) as [->|N]; [by rewrite fn_lookup_insert|by rewrite fn_lookup_insert_ne].
    + intros r r' u Hu Hu'. eapply rep_w_apart0; [by apply (Ne r)|by apply (Ne r')].
  - intros u Hu. assert (u <> t) by set_solver. pose proof (rep_all _ _ _ _ _ R u ltac:(set_solver)) as A.
    unfold in_place in *. rewrite T, Ei, Ec by auto. destruct (t_state (threads s u)); auto. destruct A as [r A]. exists r.
    destruct (decide (r = q)) as [->|Nr]; [rewrite fn_lookup_insert; rewrite EW in A; set_solver|by rewrite fn_lookup_insert_ne].
  - intros u. destruct (decide (u = t)) as [->|N]; [auto|]. rewrite T by auto. apply R.
Qed.
Lemma rep_wait_dequeue s Q SL W X q :
  rep s Q SL W X -> is_sync q = false ->
  match W q with
  | [] => wait_queue_dequeue_locked q s = (None, s)
  | t :: l => exists s', wait_queue_dequeue_locked q s = (Some t, s') /\ rep s' Q SL (<[q := l]> W) (t :: X)
  end.
Proof.
  intros R Hq. unfold wait_queue_dequeue_locked. rewrite (rep_w_head _ _ _ R q). destruct (W q) as [|t l] eqn:EW; [auto|]. cbn [hd_or].
  eexists. split; [reflexivity|]. pose proof (rep_w_chain _ _ _ R q) as C. rewrite EW in C. destruct C as [En _].
  unfold wait_next_of in En. rewrite En.
  eapply rep_wq_pop with (s := s); eauto.
  - intros u N. by rewrite th_upd_ne, th_upd_wq.
  - rewrite th_upd_eq, th_upd_wq. apply R.
  - intros r N. cbn. by rewrite bool_decide_eq_false_2.
  - cbn. by rewrite bool_decide_eq_true_2.
  - intros _. cbn. rewrite bool_decide_eq_true_2 by auto. cbn. pose proof (rep_w_tail _ _ _ R q Hq) as Et. rewrite EW in Et.
    destruct l; [auto|]. by rewrite Et.
Qed.

(** ** What the list operations leave alone *)
Definition nolinks (k : thread) : thread := put_sched_prev None (put_sched_next None k).
Lemma nolinks_upd t f s u : nolinks (f (threads s t)) = nolinks (threads s t) -> nolinks (threads (upd_th t f s) u) = nolinks (threads s u).
Proof. intros H. destruct (decide (u = t)) as [->|N]; [by rewrite th_upd_eq|by rewrite th_upd_ne]. Qed.
Lemma nolinks_opt o f s u : (forall k, nolinks (f k) = nolinks k) -> nolinks (threads (upd_opt o f s) u) = nolinks (threads s u).
Proof. intros H. destruct o; [by apply nolinks_upd|auto]. Qed.
Lemma nolinks_enqueue s t u : t_state (threads s t) <> THREAD_STATE_RUNNING ->
  nolinks (threads (scheduler_enqueue t s) u) =
  if u =? t then put_state THREAD_STATE_READY (nolinks (threads s u)) else nolinks (threads s u).
Proof.
  intros Hs. unfold scheduler_enqueue, is_st. rewrite bool_decide_eq_false_2 by auto. cbn zeta.
  set (s3 := set_rq _ _ _).
  assert (E : forall v, nolinks (threads s3 v) = nolinks (threads s v)).
  { intros v. unfold s3. cbn [threads set_rq with_g_run_queues]. rewrite nolinks_opt by done. rewrite nolinks_upd by done. by rewrite nolinks_upd. }
  pose proof (f_equal t_state (E t)) as Et. change (t_state (threads s3 t) = t_state (threads s t)) in Et.
  rewrite bool_decide_eq_false_2 by congruence. cbn [negb]. destruct (Z.eqb_spec u t) as [->|N].
  - rewrite th_upd_eq, <- E. reflexivity.
  - by rewrite th_upd_ne, E.
Qed.
Lemma nolinks_unlink t p s u : nolinks (threads (clear_links t (unlink t (set_rq p) s)) u) = nolinks (threads s u).
Proof.
  unfold clear_links. rewrite nolinks_upd by done. rewrite unlink_threads by done. unfold unlinked. by do 2 case_bool_decide.
Qed.

(** ** Waking and switching *)
Lemma rep_wake s Q SL W X t :
  rep s Q SL W (t :: X) -> t ∉ X ->
  let p := t_priority (threads s t) in rep (wake t s) (<[p := t :: Q p]> Q) SL W X.
Proof.
  intros R HX. unfold wake. set (s1 := upd_th t _ s).
  assert (R1 : rep s1 Q SL W (t :: X)) by (apply rep_flight; [auto|left|apply R]).
  assert (E : threads s1 t = put_state THREAD_STATE_READY (threads s t)) by apply th_upd_eq.
  pose proof (rep_enqueue s1 Q SL W X t R1 HX) as H. rewrite E in H. apply H. done.
Qed.
Lemma rep_set_current s Q SL W X v :
  rep s Q SL W X -> (forall u, u ∉ X -> t_state (threads s u) <> THREAD_STATE_RUNNING) ->
  rep (with_g_current_thread s v) Q SL W X.
Proof.
  intros R H. destruct R as [[] [] [] A P]. constructor; [constructor; auto..| |auto].
  intros u Hu. specialize (A u Hu). specialize (H u Hu). unfold in_place in *. cbn. by destruct (t_state (threads s u)).
Qed.
(** A thread that is not queued may change its priority. *)
Lemma rep_unqueued s Q SL W X c f :
  rep s Q SL W X -> t_state (threads s c) <> THREAD_STATE_READY -> pri_ok (f (threads s c)) ->
  t_sched_prev (f (threads s c)) = t_sched_prev (threads s c) ->
  sl_core (f (threads s c)) = sl_core (threads s c) -> w_core (f (threads s c)) = w_core (threads s c) ->
  rep (upd_th c f s) Q SL W X.
Proof.
  intros R Hc Hp Hpr Hsl Hw.
  assert (Hst : t_state (f (threads s c)) = t_state (threads s c)) by (unfold w_core in Hw; congruence).
  constructor.
  - eapply rq_frame; [apply R|auto|]. intros p u Hu. destruct (rep_q _ _ _ R p u Hu) as (?&?&?). rewrite th_upd_ne; [auto|]. congruence.
  - eapply sl_frame; [apply R|auto|]. intros u Hu. destruct (rep_sl_in _ _ _ R u Hu). split; [|auto].
    destruct (decide (u = c)) as [->|N]; [by rewrite th_upd_eq|by rewrite th_upd_ne].
  - eapply w_frame; [apply R|auto|]. intros q u Hu. destruct (rep_w_in _ _ _ R q u Hu). split; [|auto].
    destruct (decide (u = c)) as [->|N]; [by rewrite th_upd_eq|by rewrite th_upd_ne].
  - intros u Hu. pose proof (rep_all _ _ _ _ _ R u Hu) as A. destruct (decide (u = c)) as [->|N].
    + unfold in_place, free_links in *. rewrite th_upd_eq, Hst, Hpr. unfold sl_core in Hsl. injection Hsl as _ _ ->.
      by destruct (t_state (threads s c)).
    + unfold in_place in *. by rewrite th_upd_ne.
  - intros u. destruct (decide (u = c)) as [->|N]; [by rewrite th_upd_eq|]. rewrite th_upd_ne by auto. apply R.
Qed.
Lemma nice_priority_range n : 0 <= scheduler_nice_to_priority n < 5.
Proof. unfold scheduler_nice_to_priority. repeat case_match; unfold THREAD_PRIORITY_UI, THREAD_PRIORITY_HIGH, THREAD_PRIORITY_NORMAL, THREAD_PRIORITY_BACKGROUND, THREAD_PRIORITY_IDLE; lia. Qed.
Lemma leave_cpu_spec now k :
  let a := leave_cpu now k in
  (pri_ok k -> pri_ok a) /\ sl_core a = sl_core k /\ w_core a = w_core k /\
  t_sched_prev a = t_sched_prev k /\ t_priority a = if t_is_boosted k then scheduler_nice_to_priority (t_nice k) else t_priority k.
Proof.
  unfold leave_cpu. pose proof (nice_priority_range (t_nice k)). destruct (0 <? t_run_start_tick k); cbn;
    destruct (t_is_boosted k); cbn; (split; [intros [? ?]; split; cbn; lia || auto|auto]).
Qed.

Lemma st_enqueue s t u : t_state (threads s t) <> THREAD_STATE_RUNNING ->
  t_state (threads (scheduler_enqueue t s) u) = if u =? t then THREAD_STATE_READY else t_state (threads s u).
Proof. intros H. pose proof (f_equal t_state (nolinks_enqueue s t u H)) as E. cbn in E. rewrite E. by destruct (u =? t). Qed.
Lemma st_upd t f s u : (forall k, t_state (f k) = t_state k) -> t_state (threads (upd_th t f s) u) = t_state (threads s u).
Proof. intros H. destruct (decide (u = t)) as [->|N]; [by rewrite th_upd_eq, H|by rewrite th_upd_ne]. Qed.

Definition switched (s : sched) (c t u : Z) : thread_state_t :=
  if u =? t then THREAD_STATE_RUNNING
  else if u =? c then (if is_st (t_state (threads s c)) THREAD_STATE_RUNNING then THREAD_STATE_READY else t_state (threads s c))
  else t_state (threads s u).

(** The first half of a switch: [c] leaves the CPU. *)
Lemma leave_spec now s Q SL W X c :
  rep s Q SL W X -> c ∉ X -> t_state (threads s c) <> THREAD_STATE_READY ->
  let s1 := upd_th c (leave_cpu now) s in
  let run := is_st (t_state (threads s c)) THREAD_STATE_RUNNING in
  let s2 := if run || is_st (t_state (threads s c)) THREAD_STATE_READY
            then scheduler_enqueue c (upd_th c (fun k => put_wait_start_tick now (put_state THREAD_STATE_READY k)) s1) else s1 in
  rep s2 (if run then abs_push (t_priority (leave_cpu now (threads s c))) c Q else Q) SL W X /\
  g_idle_thread s2 = g_idle_thread s /\ g_scheduler_active s2 = g_scheduler_active s /\ g_current_thread s2 = g_current_thread s /\
  (forall u, t_state (threads s2 u) = if u =? c then (if run then THREAD_STATE_READY else t_state (threads s c)) else t_state (threads s u)) /\
  (forall u, u ∈ X -> threads s2 u = threads s u).
Proof.
  intros R HX Hc s1 run. destruct (leave_cpu_spec now (threads s c)) as (Hp & Hsl & Hw & Hpr & _).
  assert (R1 : rep s1 Q SL W X) by (apply rep_unqueued; auto; apply Hp, R).
  assert (HcX : forall u, u ∈ X -> u <> c) by (intros u Hu ->; done).
  assert (Ec : threads s1 c = leave_cpu now (threads s c)) by apply th_upd_eq.
  assert (Es : t_state (threads s1 c) = t_state (threads s c)) by (rewrite Ec; unfold w_core in Hw; congruence).
  unfold is_st at 1. rewrite (bool_decide_eq_false_2 (_ = THREAD_STATE_READY)) by auto. rewrite orb_false_r.
  destruct run eqn:Er.
  - apply bool_decide_eq_true in Er. set (s2 := upd_th c _ s1).
    assert (R2 : rep s2 Q SL W (c :: X)).
    { apply rep_flight; [apply rep_take; [auto|]|left|apply R1]. eapply rep_state_nowhere; [exact R1|]. rewrite Es. auto. }
    assert (E2 : threads s2 c = put_wait_start_tick now (put_state THREAD_STATE_READY (threads s1 c))) by apply th_upd_eq.
    assert (N2 : t_state (threads s2 c) <> THREAD_STATE_RUNNING) by (by rewrite E2).
    pose proof (rep_enqueue s2 Q SL W X c R2 HX N2) as H. rewrite E2, Ec in H. cbn [t_priority put_wait_start_tick put_state] in H.
    destruct (enqueue_rest s2 c) as (_ & _ & -> & -> & ->). split; [exact H|]. do 3 (split; [done|]). split.
    + intros u. rewrite st_enqueue by auto. destruct (Z.eqb_spec u c) as [->|N]; [auto|].
      unfold s2. rewrite th_upd_ne by auto. unfold s1. by rewrite th_upd_ne.
    + intros u Hu. assert (u ∈ c :: X) as Hu' by (by right). destruct (rep_flight_nowhere _ _ _ _ _ u R2 Hu') as (Nq & _).
      rewrite (enqueue_threads s2 c (hd_or (Q (t_priority (threads s2 c))) None)).
      * rewrite linked_free; [|by apply not_eq_sym, HcX|apply Nq]. unfold s2, s1. by rewrite !th_upd_ne by auto.
      * auto.
      * rewrite queue_index_ok by apply R2. symmetry. apply R2. apply R2.
      * intros E%hd_or_in. destruct (rep_flight_nowhere _ _ _ _ _ c R2) as (Nc & _); [left|]. by apply Nc in E.
  - split; [exact R1|]. do 3 (split; [done|]). split.
    + intros u. destruct (Z.eqb_spec u c) as [->|N]; [auto|]. unfold s1. by rewrite th_upd_ne.
    + intros u Hu. unfold s1. by rewrite th_upd_ne by auto.
Qed.
Lemma switch_spec now s Q SL W c t :
  rep s Q SL W [t] -> t <> c -> g_current_thread s = Some c -> t_state (threads s c) <> THREAD_STATE_READY ->
  free_links (threads s t) ->
  let s' := switch_to now (Some c) t s in
  rep s' (if is_st (t_state (threads s c)) THREAD_STATE_RUNNING then abs_push (t_priority (leave_cpu now (threads s c))) c Q else Q) SL W [] /\
  g_current_thread s' = Some t /\ g_idle_thread s' = g_idle_thread s /\ g_scheduler_active s' = g_scheduler_active s /\
  (forall u, t_state (threads s' u) = switched s c t u).
Proof.
  intros R Nt Hcur Hc HF. destruct (leave_spec now s Q SL W [t] c R ltac:(set_solver) Hc) as (R2 & Ei & Ea & Ecur & Est & EX).
  unfold switch_to. cbn [upd_opt]. set (s1 := upd_th c (leave_cpu now) s) in *.
  assert (E1 : t_state (threads s1 c) = t_state (threads s c)).
  { unfold s1. rewrite th_upd_eq. destruct (leave_cpu_spec now (threads s c)) as (_ & _ & Hw & _). unfold w_core in Hw. congruence. }
  rewrite E1. match type of R2 with rep ?x _ _ _ _ => set (s2 := x) in * end. set (s3 := upd_th t _ s2).
  pose proof (rep_flight s2 _ SL W [t] t (fun k => put_first_switch false (put_state THREAD_STATE_RUNNING (enter_cpu now k))) R2
    ltac:(left) (rep_pri _ _ _ _ _ R2 t)) as R3. fold s3 in R3.
  assert (Et : t_state (threads s3 t) = THREAD_STATE_RUNNING) by (unfold s3; by rewrite th_upd_eq).
  assert (Eo : forall u, u <> t -> t_state (threads s3 u) = switched s c t u).
  { intros u N. unfold s3. rewrite th_upd_ne, Est by auto. unfold switched. by rewrite (proj2 (Z.eqb_neq u t)). }
  split; [|split; [auto|split; [auto|split; [auto|]]]].
  - apply rep_land with t; [|unfold in_place; cbn [threads with_g_current_thread]; rewrite Et; split; [auto|];
                             unfold s3, free_links; rewrite th_upd_eq, EX by left; exact HF].
    apply rep_set_current; [exact R3|]. intros u Hu. assert (u <> t) as N by set_solver. rewrite Eo by auto. unfold switched.
    rewrite (proj2 (Z.eqb_neq u t)) by auto. destruct (Z.eqb_spec u c) as [->|Nc].
    + unfold is_st. case_bool_decide; done.
    + intros E. pose proof (rep_all _ _ _ _ _ R u Hu) as A. unfold in_place in A. rewrite E in A. destruct A. congruence.
  - intros u. cbn [threads with_g_current_thread]. destruct (decide (u = t)) as [->|N]; [|by apply Eo].
    rewrite Et. unfold switched. by rewrite Z.eqb_refl.
Qed.

Lemma abs_pick_head n i Q p t l :
  0 <= p < Z.of_nat n -> Q p = t :: l -> (forall r, p < r -> Q r = []) -> abs_pick n i Q = (t, <[p := l]> Q).
Proof.
  induction n as [|n IH]; intros Hp E H; [lia|]. cbn [abs_pick]. destruct (decide (p = Z.of_nat n)) as [->|N]; [by rewrite E|].
  rewrite H by lia. apply IH; auto. lia.
Qed.
Lemma abs_pick_idle n i Q : (forall r, Q r = []) -> abs_pick n i Q = (i, Q).
Proof. intros H. induction n as [|n IH]; [auto|]. cbn [abs_pick]. by rewrite H. Qed.
Definition idle_ok (s : sched) : Prop := exists i, g_idle_thread s = Some i /\
  (t_state (threads s i) = THREAD_STATE_READY \/ t_state (threads s i) = THREAD_STATE_RUNNING).

Lemma leave_priority now a b : nolinks a = nolinks b -> t_priority (leave_cpu now a) = t_priority (leave_cpu now b).
Proof.
  intros H. destruct (leave_cpu_spec now a) as (_&_&_&_&->), (leave_cpu_spec now b) as (_&_&_&_&->).
  pose proof (f_equal t_is_boosted H) as E1. pose proof (f_equal t_nice H) as E2. pose proof (f_equal t_priority H) as E3.
  cbn in E1, E2, E3. by rewrite E1, E2, E3.
Qed.

(** [scheduler_schedule] implements the abstract scheduler. *)
Lemma schedule_refines now s Q SL W c i :
  rep s Q SL W [] -> g_scheduler_active s = true -> g_current_thread s = Some c -> g_idle_thread s = Some i -> idle_ok s ->
  t_state (threads s c) <> THREAD_STATE_READY ->
  let r := abs_schedule i c (t_priority (leave_cpu now (threads s c))) (is_st (t_state (threads s c)) THREAD_STATE_RUNNING) Q in
  let s' := scheduler_schedule now s in
  rep s' r.2 SL W [] /\ g_current_thread s' = Some r.1 /\ g_idle_thread s' = Some i /\ g_scheduler_active s' = true /\
  (forall u, t_state (threads s' u) = switched s c r.1 u).
Proof.
  intros R Ha Hc Hi (i' & Hi' & Hio) Hst. rewrite Hi in Hi'. injection Hi' as <-.
  unfold scheduler_schedule. rewrite Ha. cbn [negb]. unfold abs_schedule.
  destruct (pick_spec s Q SL W [] R) as [(p & t & l & s1 & EQ & Hh & Ep & E1 & R1)|[H0 Ep]]; rewrite Ep.
  - assert (Ht : t ∈ Q p) by (rewrite EQ; left). destruct (rep_q _ _ _ R p t Ht) as (Hts & Htp & _).
    assert (Hp : 0 <= p < 5) by (rewrite <- Htp; apply R). assert (Nt : t <> c) by congruence.
    rewrite (abs_pick_head 5 i Q p t l) by (auto || lia). rewrite (proj2 (Z.eqb_neq t c)) by auto.
    rewrite bool_decide_eq_false_2 by congruence. cbn [fst snd].
    assert (NL : forall u, nolinks (threads s1 u) = nolinks (threads s u)) by (intros u; rewrite E1; apply nolinks_unlink).
    assert (ST : forall u, t_state (threads s1 u) = t_state (threads s u)) by (intros u; apply (f_equal t_state (NL u))).
    assert (G : g_current_thread s1 = Some c /\ g_idle_thread s1 = Some i /\ g_scheduler_active s1 = true).
    { rewrite E1. unfold clear_links, unlink. destruct (t_sched_prev _), (t_sched_next _); cbn; auto. }
    destruct G as (G1 & G2 & G3). rewrite Hc.
    assert (F1 : free_links (threads s1 t)) by (rewrite E1; unfold clear_links; by rewrite th_upd_eq).
    destruct (switch_spec now s1 _ SL W c t R1 Nt G1 ltac:(by rewrite ST) F1) as (R2 & C2 & I2 & A2 & S2).
    rewrite ST, (leave_priority now _ _ (NL c)) in R2. split_and!; [exact R2|auto|by rewrite I2|by rewrite A2|].
    intros u. rewrite S2. unfold switched. by rewrite !ST.
  - rewrite (abs_pick_idle 5 i Q H0), Hi, Hc. case_bool_decide as E.
    + injection E as ->. rewrite Z.eqb_refl. split_and!; auto. intros u. unfold switched, is_st.
      cbn [fst].
      destruct Hio as [Hio|Hio]; [congruence|]. by destruct (Z.eqb_spec u i) as [->|].
    + assert (N : i <> c) by congruence. rewrite (proj2 (Z.eqb_neq i c)) by auto. cbn [fst snd].
      assert (Hir : t_state (threads s i) = THREAD_STATE_READY).
      { destruct Hio as [|Hio]; [auto|]. pose proof (rep_all _ _ _ _ _ R i ltac:(set_solver)) as A. unfold in_place in A. rewrite Hio in A. destruct A. congruence. }
      assert (R1 : rep s Q SL W [i]).
      { apply rep_take; [auto|]. repeat split; [intros r; rewrite H0; set_solver| |].
        - intros A. apply R in A as [A _]. congruence.
        - intros q A. apply (rep_w_in _ _ _ R) in A as [A _]. congruence. }
      assert (F1 : free_links (threads s i)).
      { pose proof (rep_all _ _ _ _ _ R i ltac:(set_solver)) as A. unfold in_place in A. rewrite Hir, H0 in A. destruct A as [A|A]; [set_solver|apply A]. }
      destruct (switch_spec now s _ SL W c i R1 N Hc Hst F1) as (R2 & C2 & I2 & A2 & S2). split_and!; [exact R2|auto|by rewrite I2|by rewrite A2|auto].
Qed.

Lemma abs_pick_in n i Q : ((abs_pick n i Q).1 = i /\ (abs_pick n i Q).2 = Q /\ forall r, 0 <= r < Z.of_nat n -> Q r = []) \/
  (exists p t l, 0 <= p < Z.of_nat n /\ Q p = t :: l /\ abs_pick n i Q = (t, <[p := l]> Q) /\ forall r, p < r < Z.of_nat n -> Q r = []).
Proof.
  induction n as [|n IH]; [left; split_and!; auto; lia|]. cbn [abs_pick]. destruct (Q (Z.of_nat n)) as [|t l] eqn:E.
  - destruct IH as [(E1 & E2 & E3)|(p & t & l & Hp & E1 & E2 & E3)].
    + left. split_and!; auto. intros r Hr. destruct (decide (r = Z.of_nat n)) as [->|]; [auto|]. apply E3. lia.
    + right. exists p, t, l. split_and!; [lia|lia|auto..]. intros r Hr. destruct (decide (r = Z.of_nat n)) as [->|]; [auto|]. apply E3. lia.
  - right. exists (Z.of_nat n), t, l. split_and!; [lia|lia|auto|auto|lia].
Qed.
(** The thread chosen was ready, or the idle thread, or keeps the CPU. *)
Lemma abs_schedule_choice s Q SL W i c p b :
  rep s Q SL W [] -> let t := (abs_schedule i c p b Q).1 in
  (t = i /\ forall r, Q r = []) \/
  (t ∈ Q (t_priority (threads s t)) /\ t_state (threads s t) = THREAD_STATE_READY /\
   forall r u, u ∈ Q r -> r <= t_priority (threads s t)).
Proof.
  intros R. unfold abs_schedule. destruct (abs_pick_in 5 i Q) as [(E1 & E2 & E3)|(r & t & l & Hr & E1 & -> & E3)].
  - destruct (abs_pick 5 i Q) as [t Q1]. cbn in *. subst. assert (forall r, Q r = []).
    { intros r. destruct (Q r) as [|x l] eqn:E; [auto|]. rewrite <- E. apply E3. eapply rep_q_range; [exact R|by rewrite E]. }
    destruct (Z.eqb_spec i c) as [->|]; auto.
  - assert (H : t ∈ Q r) by (rewrite E1; left). destruct (rep_q _ _ _ R r t H) as (Hs & Hp & _).
    assert (E : (if t =? c then (c, <[r := l]> Q) else (t, if b then abs_push p c (<[r := l]> Q) else <[r := l]> Q)).1 = t).
    { destruct (Z.eqb_spec t c) as [->|]; auto. }
    rewrite E, Hp. right. split_and!; auto. intros r' u Hu. destruct (decide (r' <= r)); [auto|]. exfalso.
    assert (0 <= r' < 5) by (eapply rep_q_range; [exact R|by intros E'; rewrite E' in Hu; apply list.not_elem_of_nil in Hu]).
    rewrite E3 in Hu by lia. set_solver.
Qed.
Lemma schedule_zombie now s Q SL W c u :
  rep s Q SL W [] -> g_scheduler_active s = true -> g_current_thread s = Some c -> idle_ok s ->
  t_state (threads s c) <> THREAD_STATE_READY -> u <> c -> t_state (threads s u) = THREAD_STATE_ZOMBIE ->
  t_state (threads (scheduler_schedule now s) u) = THREAD_STATE_ZOMBIE.
Proof.
  intros R Ha Hc Hio Hst Nc Hu. destruct Hio as (i & Hi & His) eqn:E. clear E.
  destruct (schedule_refines now s Q SL W c i R Ha Hc Hi) as (_ & _ & _ & _ & S'); [by exists i|auto|].
  rewrite S'. set (t := (abs_schedule _ _ _ _ _).1). unfold switched. rewrite (proj2 (Z.eqb_neq u c)) by auto.
  destruct (Z.eqb_spec u t) as [->|]; [exfalso|auto].
  destruct (abs_schedule_choice s Q SL W i c (t_priority (leave_cpu now (threads s c))) (is_st (t_state (threads s c)) THREAD_STATE_RUNNING) R)
    as [[E _]|(_ & E & _)]; fold t in E; [rewrite E in Hu; destruct His; congruence|congruence].
Qed.
(** A thread that gives up the CPU and is neither running nor ready stays so. *)
Lemma schedule_off now s Q SL W c a :
  rep s Q SL W [] -> g_scheduler_active s = true -> g_current_thread s = Some c -> idle_ok s ->
  t_state (threads s c) = a -> a <> THREAD_STATE_READY -> a <> THREAD_STATE_RUNNING ->
  t_state (threads (scheduler_schedule now s) c) = a.
Proof.
  intros R Ha Hc (i & Hi & His) Ea N1 N2.
  destruct (schedule_refines now s Q SL W c i R Ha Hc Hi) as (_ & _ & _ & _ & S'); [by exists i|congruence|].
  rewrite S'. pose proof (abs_schedule_choice s Q SL W i c (t_priority (leave_cpu now (threads s c)))
    (is_st (t_state (threads s c)) THREAD_STATE_RUNNING) R) as Ch. cbn zeta in Ch. unfold switched. rewrite Z.eqb_refl, Ea in *.
  destruct (Z.eqb_spec c (abs_schedule i c (t_priority (leave_cpu now (threads s c))) (is_st a THREAD_STATE_RUNNING) Q).1) as [E|];
    [exfalso|by destruct a]. rewrite <- E in Ch. destruct Ch as [[E' _]|(_ & E' & _)], His; congruence.
Qed.
(** ** Steps that keep the running thread *)
Definition waiting (a : thread_state_t) : Prop := a = THREAD_STATE_BLOCKED \/ a = THREAD_STATE_SLEEPING.
(** Only waiting threads change their state. *)
Record keeps (s s' : sched) : Prop := mk_keeps {
  k_cur : g_current_thread s' = g_current_thread s;
  k_idle : g_idle_thread s' = g_idle_thread s;
  k_act : g_scheduler_active s' = g_scheduler_active s;
  k_st u : ~ waiting (t_state (threads s u)) -> t_state (threads s' u) = t_state (threads s u)
}.
#[export] Instance keeps_po : PreOrder keeps.
Proof.
  split; [by constructor|]. intros a b c [] []. constructor; [congruence..|]. intros u H.
  rewrite <- (k_st0 u H). apply k_st1. by rewrite (k_st0 u H).
Qed.
Lemma keeps_upd t f s : (forall k, t_state (f k) = t_state k) -> keeps s (upd_th t f s).
Proof. intros H. constructor; auto. intros u _. by apply st_upd. Qed.
Lemma keeps_put s t f : waiting (t_state (threads s t)) -> keeps s (upd_th t f s).
Proof. intros H. constructor; auto. intros u Hu. rewrite th_upd_ne; [auto|]. by intros ->. Qed.
Lemma keeps_enqueue s t : t_state (threads s t) = THREAD_STATE_READY -> keeps s (scheduler_enqueue t s).
Proof.
  intros H. destruct (enqueue_rest s t) as (_&_&?&?&?). constructor; auto. intros u Hu. rewrite st_enqueue by congruence.
  destruct (Z.eqb_spec u t) as [->|]; congruence.
Qed.
Lemma keeps_wake s t : waiting (t_state (threads s t)) -> keeps s (wake t s).
Proof. intros H. unfold wake. etrans; [by apply keeps_put|]. apply keeps_enqueue. by rewrite th_upd_eq. Qed.
Lemma keeps_wq q v s : keeps s (upd_wq q v s).
Proof. by constructor. Qed.
Lemma keeps_dequeue q s t s' : wait_queue_dequeue_locked q s = (t, s') -> keeps s s'.
Proof.
  unfold wait_queue_dequeue_locked. destruct (wq_head _) as [h|]; intros [= <- <-]; [|reflexivity].
  etrans; [apply keeps_wq|]. by apply keeps_upd.
Qed.

(** Threads that can run. *)
Definition runnable (s : sched) (t : Z) : Prop :=
  t_state (threads s t) = THREAD_STATE_READY \/ t_state (threads s t) = THREAD_STATE_RUNNING.
Lemma keeps_runnable s s' t : keeps s s' -> runnable s t -> runnable s' t.
Proof.
  intros K H. unfold runnable in *. rewrite (k_st _ _ K); [auto|]. intros [?|?]; destruct H; congruence.
Qed.
(** A consistent state. *)
Definition wf_at (s : sched) (Q : Z -> list Z) (SL : list Z) (W : wq -> list Z) : Prop :=
  rep s Q SL W [] /\ idle_ok s /\
  exists c, g_current_thread s = Some c /\ t_state (threads s c) = THREAD_STATE_RUNNING.
Definition sched_wf (s : sched) : Prop := exists Q SL W, wf_at s Q SL W.

Lemma wf_same s s' Q SL W Q' SL' W' :
  wf_at s Q SL W -> rep s' Q' SL' W' [] -> g_current_thread s' = g_current_thread s -> g_idle_thread s' = g_idle_thread s ->
  (forall u, t_state (threads s u) = THREAD_STATE_READY \/ t_state (threads s u) = THREAD_STATE_RUNNING ->
             t_state (threads s' u) = t_state (threads s u)) -> wf_at s' Q' SL' W'.
Proof.
  intros (R & (i & Hi & His) & (c & Hc & Hcs)) R' Ec Ei Es. split; [auto|]. split.
  - exists i. rewrite Ei, Es by auto. auto.
  - exists c. rewrite Ec, Es by auto. auto.
Qed.
Lemma wf_keeps s s' Q SL W Q' SL' W' : wf_at s Q SL W -> keeps s s' -> rep s' Q' SL' W' [] -> wf_at s' Q' SL' W'.
Proof. intros H [] R'. eapply wf_same; eauto. intros u Hu. apply k_st0. unfold waiting. intros [?|?]; destruct Hu; congruence. Qed.
Lemma schedule_wf now s Q SL W c :
  rep s Q SL W [] -> g_scheduler_active s = true -> g_current_thread s = Some c -> idle_ok s ->
  t_state (threads s c) <> THREAD_STATE_READY -> exists Q', wf_at (scheduler_schedule now s) Q' SL W.
Proof.
  intros R Ha Hc Hio Hst. destruct Hio as (i & Hi & His) eqn:E. clear E.
  destruct (schedule_refines now s Q SL W c i R Ha Hc Hi) as (R' & Hc' & Hi' & Ha' & S'); [by exists i|auto|].
  set (r := abs_schedule _ _ _ _ _) in *. exists r.2. split; [exact R'|]. split.
  - exists i. split; [auto|]. rewrite S'. unfold switched. destruct (i =? r.1); [auto|]. destruct (Z.eqb_spec i c) as [->|]; [|auto].
    destruct His as [?|Hr]; [done|]. rewrite Hr. auto.
  - exists r.1. split; [auto|]. rewrite S'. unfold switched. by rewrite Z.eqb_refl.
Qed.
Lemma schedule_runnable now s Q SL W c t :
  rep s Q SL W [] -> g_scheduler_active s = true -> g_current_thread s = Some c -> idle_ok s ->
  t_state (threads s c) <> THREAD_STATE_READY -> runnable s t -> runnable (scheduler_schedule now s) t.
Proof.
  intros R Ha Hc Hio Hst Ht. pose proof Hio as (i & Hi & _).
  destruct (schedule_refines now s Q SL W c i R Ha Hc Hi Hio Hst) as (_ & _ & _ & _ & S').
  unfold runnable in *. rewrite S'. unfold switched. destruct (t =? _); [auto|]. destruct (Z.eqb_spec t c) as [->|]; [|auto].
  destruct Ht as [?|Hr]; [done|]. rewrite Hr. auto.
Qed.
Lemma wf_schedule_abs now s Q SL W c i :
  wf_at s Q SL W -> g_scheduler_active s = true -> g_current_thread s = Some c -> g_idle_thread s = Some i ->
  let r := abs_schedule i c (t_priority (leave_cpu now (threads s c))) true Q in
  let s' := scheduler_schedule now s in
  wf_at s' r.2 SL W /\ g_current_thread s' = Some r.1 /\ g_scheduler_active s' = true /\
  (forall u, t_state (threads s' u) = switched s c r.1 u).
Proof.
  intros H Ha Hc Hi. pose proof H as (R & Hio & (c' & Hc' & Hcs)). rewrite Hc in Hc'. injection Hc' as <-.
  assert (Hst : t_state (threads s c) <> THREAD_STATE_READY) by (by rewrite Hcs).
  destruct (schedule_refines now s Q SL W c i R Ha Hc Hi Hio Hst) as (R' & C' & I' & A' & S').
  destruct (schedule_wf now s Q SL W c R Ha Hc Hio Hst) as (Q0 & _ & Hio' & Hr').
  rewrite Hcs in R', C', S'. change (is_st THREAD_STATE_RUNNING THREAD_STATE_RUNNING) with true in *.
  split; [by split|]. auto.
Qed.
Lemma wf_schedule now s Q SL W : wf_at s Q SL W -> exists Q', wf_at (scheduler_schedule now s) Q' SL W.
Proof.
  intros H. pose proof H as (R & Hi & (c & Hc & Hcs)). destruct (g_scheduler_active s) eqn:Ha.
  - eapply schedule_wf; eauto. by rewrite Hcs.
  - exists Q. unfold scheduler_schedule. by rewrite Ha.
Qed.
Lemma wf_harmless s Q SL W t f :
  wf_at s Q SL W -> (forall k, core (f k) = core k /\ t_base_priority (f k) = t_base_priority k) -> wf_at (upd_th t f s) Q SL W.
Proof.
  intros H Hf. eapply wf_keeps; [exact H| |apply rep_harmless; [apply H|auto]]. apply keeps_upd. intros k.
  destruct (Hf k) as [E _]. unfold core in E. congruence.
Qed.

(** *** Waking *)
Lemma wf_wake_one s Q SL W q t l :
  wf_at s Q SL W -> is_sync q = false -> W q = t :: l ->
  wf_at (wait_queue_wake_one q s) (abs_push (t_priority (threads s t)) t Q) SL (<[q := l]> W).
Proof.
  intros H Hq EW. destruct H as (R & Hrest) eqn:E. clear E. pose proof (rep_wait_dequeue s Q SL W [] q R Hq) as D. rewrite EW in D.
  destruct D as (s1 & E1 & R1). unfold wait_queue_wake_one. rewrite E1.
  destruct (rep_w_in _ _ _ R q t) as [Hs _]; [rewrite EW; left|].
  assert (E2 : t_state (threads s1 t) = THREAD_STATE_BLOCKED /\ t_priority (threads s1 t) = t_priority (threads s t)).
  { unfold wait_queue_dequeue_locked in E1. rewrite (rep_w_head _ _ _ R q), EW in E1. cbn [hd_or] in E1. injection E1 as <-.
    by rewrite th_upd_eq, th_upd_wq. }
  destruct E2 as [E2 E3]. rewrite <- E3. eapply wf_keeps; [exact H| |apply rep_wake; [exact R1|set_solver]].
  etrans; [by eapply keeps_dequeue|]. apply keeps_wake. by left.
Qed.
Lemma wake_one_empty s Q SL W X q : rep s Q SL W X -> W q = [] -> wait_queue_wake_one q s = s.
Proof. intros R E. unfold wait_queue_wake_one, wait_queue_dequeue_locked. by rewrite (rep_w_head _ _ _ R q), E. Qed.
Lemma wake_all_step fuel q s : wait_queue_wake_all (S fuel) q s =
  match wq_head (wqs s q) with Some _ => wait_queue_wake_all fuel q (wait_queue_wake_one q s) | None => s end.
Proof. cbn [wait_queue_wake_all]. unfold wait_queue_wake_one, wait_queue_dequeue_locked. by destruct (wq_head _). Qed.
Lemma wf_wake_all fuel s Q SL W q :
  wf_at s Q SL W -> is_sync q = false ->
  let s' := wait_queue_wake_all fuel q s in
  exists Q' W', wf_at s' Q' SL W' /\ W' q = drop fuel (W q) /\ (forall r, r <> q -> W' r = W r) /\ keeps s s' /\
    (forall u, u ∈ take fuel (W q) -> t_state (threads s' u) = THREAD_STATE_READY).
Proof.
  intros H Hq. revert s Q W H. induction fuel as [|fuel IH]; intros s Q W H.
  { exists Q, W. cbn. split_and!; auto; [reflexivity|set_solver]. }
  rewrite wake_all_step, (rep_w_head _ _ _ (proj1 H) q). destruct (W q) as [|t l] eqn:EW; cbn [hd_or].
  { exists Q, W. cbn. split_and!; auto; [reflexivity|set_solver]. }
  pose proof (wf_wake_one s Q SL W q t l H Hq EW) as H1. set (s1 := wait_queue_wake_one q s) in *.
  destruct (IH s1 _ _ H1) as (Q' & W' & H' & E' & O' & K' & R'). exists Q', W'. rewrite fn_lookup_insert in E', R'.
  destruct (rep_w_in _ _ _ (proj1 H) q t) as [Hs _]; [rewrite EW; left|].
  assert (K1 : keeps s s1 /\ t_state (threads s1 t) = THREAD_STATE_READY).
  { unfold s1, wait_queue_wake_one, wait_queue_dequeue_locked. rewrite (rep_w_head _ _ _ (proj1 H) q), EW. cbn [hd_or].
    set (s2 := upd_th t _ _). assert (E2 : t_state (threads s2 t) = THREAD_STATE_BLOCKED) by (unfold s2; by rewrite th_upd_eq, th_upd_wq).
    split; [|unfold wake; rewrite st_enqueue, Z.eqb_refl; [auto|by rewrite th_upd_eq]].
    trans s2; [unfold s2; etrans; [apply keeps_wq|by apply keeps_upd]|apply keeps_wake; by left]. }
  destruct K1 as [K1 T1]. split_and!; [exact H'|exact E'| |by trans s1|].
  - intros r N. rewrite O' by auto. by rewrite fn_lookup_insert_ne.
  - intros u Hu. cbn in Hu. apply list.elem_of_cons in Hu as [->|Hu]; [|by apply R']. rewrite (k_st _ _ K'); rewrite T1; [auto|]. by intros [?|?].
Qed.

(** *** Sleepers *)
(** The threads of [a] were woken. *)
Definition woken (a : list Z) (s s' : sched) : Prop :=
  forall u, nolinks (threads s' u) = if bool_decide (u ∈ a) then put_state THREAD_STATE_READY (nolinks (threads s u)) else nolinks (threads s u).
Lemma wake_sleeping_spec fuel now s Q SL W :
  rep s Q SL W [] ->
  let s' := wake_sleeping fuel now s in
  exists Q' a SL', rep s' Q' SL' W [] /\ SL = a ++ SL' /\ woken a s s' /\ keeps s s' /\
    (forall u, u ∈ a -> t_wake_tick (threads s u) <= now /\ u ∈ Q' (t_priority (threads s u))) /\
    (forall p u, u ∈ Q p -> u ∈ Q' p) /\
    ((length SL <= fuel)%nat -> forall u, u ∈ SL' -> now < t_wake_tick (threads s u)).
Proof.
  revert s Q SL; induction fuel as [|fuel IH]; intros s Q SL R.
  { exists Q, [], SL. cbn. split_and!; auto; [intros u; by rewrite bool_decide_eq_false_2 by set_solver|reflexivity|set_solver|].
    intros Hl u Hu. destruct SL; [set_solver|cbn in Hl; lia]. }
  cbn [wake_sleeping]. rewrite (rep_sl _ _ _ R). destruct SL as [|t SL]; cbn [hd_or].
  { exists Q, [], []. split_and!; auto; [intros u; by rewrite bool_decide_eq_false_2 by set_solver|reflexivity|set_solver..]. }
  destruct (Z.leb_spec (t_wake_tick (threads s t)) now) as [Hw|Hw].
  2: { exists Q, [], (t :: SL). split_and!; auto; [intros u; by rewrite bool_decide_eq_false_2 by set_solver|reflexivity|set_solver|].
       intros _ u Hu. pose proof (rep_sl_sorted _ _ _ R) as S. inversion S as [|? ? _ Hall]; subst. rewrite list.Forall_forall in Hall.
       apply list.elem_of_cons in Hu as [->|Hu]; [auto|]. specialize (Hall u Hu). unfold by_wake in Hall. lia. }
  destruct (rep_sl_in _ _ _ R t) as [Hs _]; [left|].
  set (s1 := upd_th t _ _). pose proof (rep_sleep_pop s Q SL W [] t R) as Rp.
  assert (R1 : rep s1 Q SL W [t]) by (apply rep_flight; [exact Rp|left|apply R]).
  assert (E1 : t_state (threads s1 t) = THREAD_STATE_READY) by (unfold s1; by rewrite th_upd_eq).
  pose proof (rep_enqueue s1 Q SL W [] t R1 ltac:(set_solver) ltac:(by rewrite E1)) as R2.
  destruct (IH _ _ _ R2) as (Q' & a & SL' & R' & E' & T' & K' & A' & M' & L'). clear IH. set (s2 := scheduler_enqueue t s1) in *.
  assert (T2 : forall u, nolinks (threads s2 u) = if u =? t then put_state THREAD_STATE_READY (nolinks (threads s u)) else nolinks (threads s u)).
  { intros u. unfold s2. rewrite nolinks_enqueue by (by rewrite E1). unfold s1. destruct (Z.eqb_spec u t) as [->|N].
    - by rewrite th_upd_eq.
    - by rewrite th_upd_ne. }
  assert (Wk : forall u, t_wake_tick (threads s2 u) = t_wake_tick (threads s u)).
  { intros u. pose proof (f_equal t_wake_tick (T2 u)) as E. cbn in E. rewrite E. by destruct (u =? t). }
  assert (Pr : forall u, t_priority (threads s2 u) = t_priority (threads s u)).
  { intros u. pose proof (f_equal t_priority (T2 u)) as E. cbn in E. rewrite E. by destruct (u =? t). }
  assert (E1p : t_priority (threads s1 t) = t_priority (threads s t)) by (unfold s1; by rewrite th_upd_eq).
  exists Q', (t :: a), SL'. split_and!; [exact R'|by rewrite E'| | | | |].
  - intros u. rewrite T', T2. destruct (Z.eqb_spec u t) as [->|N].
    + rewrite (bool_decide_eq_true_2 (t ∈ t :: a)) by left. by case_bool_decide.
    + destruct (decide (u ∈ a)); [rewrite !bool_decide_eq_true_2 by set_solver|rewrite !bool_decide_eq_false_2 by set_solver]; auto.
  - trans s2; [|exact K']. trans s1; [|by apply keeps_enqueue].
    trans (with_g_sleep_queue s (t_sched_next (threads s t))); [by constructor|]. apply keeps_put. by right.
  - intros u Hu. rewrite <- Wk, <- Pr. apply list.elem_of_cons in Hu as [->|Hu]; [|auto]. rewrite Wk, Pr. split; [auto|].
    apply M'. rewrite <- E1p, fn_lookup_insert. left.
  - intros p u Hu. apply M'. destruct (decide (p = t_priority (threads s1 t))) as [->|N]; [rewrite fn_lookup_insert; by right|].
    by rewrite fn_lookup_insert_ne.
  - intros Hl u Hu. rewrite <- Wk. apply L'; [cbn in Hl; lia|auto].
Qed.

(** *** Aging *)
Definition boosted (now : Z) (k : thread) : thread :=
  put_wait_start_tick now (put_is_boosted true (put_priority THREAD_PRIORITY_UI k)).
Definition aged (now : Z) (b : list Z) (s s' : sched) : Prop :=
  forall u, nolinks (threads s' u) = if bool_decide (u ∈ b) then boosted now (nolinks (threads s u)) else nolinks (threads s u).
Lemma put_state_id k : put_state (t_state k) k = k.
Proof. by destruct k. Qed.

Lemma boost_spec now pri s Q SL W t l1 l2 :
  rep s Q SL W [] -> Q pri = l1 ++ t :: l2 -> pri < 4 ->
  let s' := boost now pri t s in
  rep s' (abs_push 4 t (<[pri := l1 ++ l2]> Q)) SL W [] /\ aged now [t] s s' /\ keeps s s'.
Proof.
  intros R EQ Hp4. destruct (rep_unlink s Q SL W [] t pri l1 l2 R EQ) as [R1 Hp].
  destruct (rep_q _ _ _ R pri t) as (Hs & _); [rewrite EQ; set_solver|].
  unfold boost. set (s1 := unlink t (set_rq pri) s) in *. set (s2 := upd_th t _ s1).
  assert (R2 : rep s2 (<[pri := l1 ++ l2]> Q) SL W [t]).
  { apply rep_flight; [exact R1|left|]. split; cbn; [unfold THREAD_PRIORITY_UI; lia|apply R1]. }
  destruct (rep_flight_nowhere _ _ _ _ _ t R2) as (Nq & _); [left|].
  rewrite !rq_head_upd_th. assert (Eh : rq_head s2 4 = hd_or ((<[pri := l1 ++ l2]> Q) 4) None) by (apply R2; lia).
  change THREAD_PRIORITY_UI with 4 in *. rewrite Eh. set (Q2 := <[pri := l1 ++ l2]> Q) in *.
  assert (S1 : nolinks (threads s1 t) = nolinks (threads s t)).
  { unfold s1. rewrite unlink_threads by done. unfold unlinked. by do 2 case_bool_decide. }
  assert (P2 : t_priority (threads s2 t) = 4) by (unfold s2; by rewrite th_upd_eq).
  assert (S2 : t_state (threads s2 t) = THREAD_STATE_READY).
  { unfold s2. rewrite th_upd_eq. cbn. pose proof (f_equal t_state S1) as E. cbn in E. congruence. }
  assert (Nh : hd_or (Q2 4) None <> Some t) by (intros E%hd_or_in; by apply (Nq 4)).
  set (s3 := upd_opt _ _ _).
  assert (T : forall u, threads s3 u = linked (threads s2) (hd_or (Q2 4) None) t u).
  { intros u. unfold s3, linked. destruct (Z.eqb_spec u t) as [->|N].
    - rewrite th_opt_ne, !th_upd_eq by auto. rewrite <- S2 at 1. by rewrite (put_state_id (put_sched_next _ (put_sched_prev None (threads s2 t)))).
    - case_bool_decide as E; [rewrite E, th_opt_eq|rewrite th_opt_ne by auto]; by rewrite !th_upd_ne by auto. }
  split_and!.
  - pose proof (rep_push s2 (set_rq 4 (Some t) s3) Q2 SL W [] t R2 ltac:(set_solver)) as H. rewrite P2 in H.
    apply H; [exact T|..]; unfold s3; by destruct (hd_or (Q2 4) None).
  - intros u. cbn [threads set_rq with_g_run_queues]. rewrite T. unfold linked. destruct (Z.eqb_spec u t) as [->|N].
    + rewrite bool_decide_eq_true_2 by left. rewrite <- S2 at 1. rewrite (put_state_id (put_sched_next _ (put_sched_prev None (threads s2 t)))).
      unfold s2. rewrite th_upd_eq, <- S1. reflexivity.
    + rewrite (bool_decide_eq_false_2 (u ∈ [t])) by set_solver. unfold s2. rewrite th_upd_ne by auto. unfold s1. rewrite unlink_threads by done.
      unfold unlinked. by repeat case_bool_decide.
  - destruct (unlink_rest t pri s) as (_&_&E3&E4&_). constructor.
    + unfold s3. destruct (hd_or _ _); exact E4.
    + unfold s3. destruct (hd_or _ _); exact E3.
    + unfold s3, s2, s1, unlink. destruct (hd_or _ _), (t_sched_prev _), (t_sched_next _); reflexivity.
    + intros u Hu. cbn [threads set_rq with_g_run_queues]. rewrite T. unfold linked. destruct (Z.eqb_spec u t) as [->|N]; [by rewrite Hs|].
      unfold s2. rewrite th_upd_ne by auto. unfold s1. rewrite unlink_threads by done. unfold unlinked. by repeat case_bool_decide.
Qed.
Lemma needs_boost_nolinks now a b : nolinks a = nolinks b -> needs_boost now a = needs_boost now b.
Proof.
  intros H. unfold needs_boost. pose proof (f_equal t_is_boosted H) as E1. pose proof (f_equal t_wait_start_tick H) as E2.
  cbn in E1, E2. by rewrite E1, E2.
Qed.
Lemma aged_trans now b1 b2 s1 s2 s3 :
  aged now b1 s1 s2 -> aged now b2 s2 s3 -> (forall u, u ∈ b1 -> u ∉ b2) -> aged now (b1 ++ b2) s1 s3.
Proof.
  intros H1 H2 D u. rewrite H2, H1. destruct (decide (u ∈ b1)) as [U1|U1].
  - rewrite (bool_decide_eq_true_2 (u ∈ b1)), (bool_decide_eq_true_2 (u ∈ b1 ++ b2)) by set_solver.
    by rewrite bool_decide_eq_false_2 by auto.
  - rewrite (bool_decide_eq_false_2 (u ∈ b1)) by auto. destruct (decide (u ∈ b2)).
    + by rewrite !bool_decide_eq_true_2 by set_solver.
    + by rewrite !bool_decide_eq_false_2 by set_solver.
Qed.
Lemma aged_nil now s : aged now [] s s.
Proof. intros u. by rewrite bool_decide_eq_false_2 by set_solver. Qed.

Lemma age_queue_spec fuel now pri s Q SL W k l :
  rep s Q SL W [] -> Q pri = k ++ l -> pri < 4 ->
  let s' := age_queue fuel now pri (hd_or l None) s in
  exists Q' b, rep s' Q' SL W [] /\ aged now b s s' /\ keeps s s' /\ (forall r, r <> pri -> r <> 4 -> Q' r = Q r) /\
    (forall u, u ∈ b -> u ∈ l /\ needs_boost now (threads s u) = true) /\
    ((length l <= fuel)%nat -> forall u, u ∈ l -> needs_boost now (threads s u) = true -> u ∈ b).
Proof.
  intros R EQ Hp. revert s Q k l R EQ. induction fuel as [|fuel IH]; intros s Q k l R EQ.
  { exists Q, []. cbn. split_and!; [exact R|apply aged_nil|reflexivity|auto|set_solver|]. intros Hl. destruct l; [set_solver|cbn in Hl; lia]. }
  destruct l as [|t l]; cbn [hd_or age_queue].
  { exists Q, []. split_and!; [exact R|apply aged_nil|reflexivity|auto|set_solver..]. }
  assert (En : t_sched_next (threads s t) = hd_or l None).
  { destruct (dseg_ends (threads s) k t l) as [_ E]; [rewrite <- EQ; apply R|exact E]. }
  assert (ND : t ∉ l) by (pose proof (rep_q_nodup _ _ _ R pri) as ND; rewrite EQ in ND; apply list.NoDup_app in ND as (_&_&ND); by apply list.NoDup_cons in ND as []).
  rewrite En. destruct (needs_boost now (threads s t)) eqn:Hb.
  - destruct (boost_spec now pri s Q SL W t k l R EQ Hp) as (R1 & A1 & K1). set (s1 := boost now pri t s) in *.
    destruct (IH s1 _ k l R1) as (Q' & b & R' & A' & K' & O' & B' & L').
    { unfold abs_push. rewrite fn_lookup_insert_ne by lia. by rewrite fn_lookup_insert. }
    assert (NB : forall u, u <> t -> needs_boost now (threads s1 u) = needs_boost now (threads s u)).
    { intros u N. apply needs_boost_nolinks. rewrite A1. by rewrite bool_decide_eq_false_2 by set_solver. }
    exists Q', ([t] ++ b). split_and!; [exact R'| |by trans s1| | |].
    + eapply aged_trans; [exact A1|exact A'|]. intros u Hu H. assert (u = t) as -> by set_solver. by apply B' in H as [? _].
    + intros r N1 N2. rewrite O' by auto. unfold abs_push. rewrite fn_lookup_insert_ne by auto. by rewrite fn_lookup_insert_ne.
    + intros u Hu. assert (u = t \/ u ∈ b) as [->|Hb'] by set_solver; [set_solver|]. clear Hu. rename Hb' into Hu. destruct (B' u Hu) as [? Hu']. split; [by right|].
      rewrite NB in Hu'; [auto|]. by intros ->.
    + intros Hl u [->|Hu]%list.elem_of_cons Hn; [set_solver|]. apply list.elem_of_app. right. apply L'; [cbn in Hl; lia|auto|].
      rewrite NB; [auto|]. by intros ->.
  - destruct (IH s Q (k ++ [t]) l R) as (Q' & b & R' & A' & K' & O' & B' & L'); [by rewrite <- app_assoc|].
    exists Q', b. split_and!; auto.
    + intros u Hu. destruct (B' u Hu). split; [by right|auto].
    + intros Hl u [->|Hu]%list.elem_of_cons Hn; [congruence|]. apply L'; [cbn in Hl; lia|auto..].
Qed.

(** Enough fuel: at least as many rounds as there are threads. *)
Definition enough (fuel : nat) (s : sched) : Prop :=
  exists live, (length live <= fuel)%nat /\ forall u, t_state (threads s u) <> THREAD_STATE_ZOMBIE -> u ∈ live.
Lemma enough_length fuel s (l : list Z) :
  enough fuel s -> NoDup l -> (forall u, u ∈ l -> t_state (threads s u) <> THREAD_STATE_ZOMBIE) -> (length l <= fuel)%nat.
Proof.
  intros (live & Hl & H) ND Hz. etrans; [|exact Hl]. apply list.submseteq_length, list.NoDup_submseteq; [auto|]. intros u Hu. by apply H, Hz.
Qed.
Lemma enough_rq fuel s Q SL W X p : rep s Q SL W X -> enough fuel s -> (length (Q p) <= fuel)%nat.
Proof. intros R H. eapply enough_length; [exact H|apply R|]. intros u Hu. apply R in Hu as [-> _]. done. Qed.
Lemma enough_sl fuel s Q SL W X : rep s Q SL W X -> enough fuel s -> (length SL <= fuel)%nat.
Proof. intros R H. eapply enough_length; [exact H|apply R|]. intros u Hu. apply R in Hu as [-> _]. done. Qed.
Lemma enough_wq fuel s Q SL W X q : rep s Q SL W X -> enough fuel s -> (length (W q) <= fuel)%nat.
Proof. intros R H. eapply enough_length; [exact H|apply (rep_w_nodup _ _ _ R)|]. intros u Hu. apply (rep_w_in _ _ _ R) in Hu as [-> _]. done. Qed.
Lemma enough_mono fuel s s' :
  enough fuel s -> (forall u, t_state (threads s u) = THREAD_STATE_ZOMBIE -> t_state (threads s' u) = THREAD_STATE_ZOMBIE) -> enough fuel s'.
Proof. intros (live & Hl & H) Hz. exists live. split; [auto|]. intros u Hu. apply H. intros E. by apply Hu, Hz. Qed.
Lemma aged_state now b s s' u : aged now b s s' -> t_state (threads s' u) = t_state (threads s u).
Proof. intros A. pose proof (f_equal t_state (A u)) as E. cbn in E. rewrite E. by case_bool_decide. Qed.

Lemma aged_not_again now b s s' u : aged now b s s' -> u ∈ b -> needs_boost now (threads s' u) = false.
Proof.
  intros A Hu. unfold needs_boost. pose proof (f_equal t_is_boosted (A u)) as E. rewrite bool_decide_eq_true_2 in E by auto.
  cbn in E. by rewrite E.
Qed.
Lemma age_loop_spec fuel now n : forall pri s Q SL W,
  rep s Q SL W [] -> pri + Z.of_nat n <= 4 ->
  let s' := for_loop n pri (fun pri s => age_queue fuel now pri (rq_head s pri) s) s in
  0 <= pri -> exists Q' b, rep s' Q' SL W [] /\ aged now b s s' /\ keeps s s' /\
    (forall u, u ∈ b -> t_state (threads s u) = THREAD_STATE_READY /\ needs_boost now (threads s u) = true) /\
    (enough fuel s -> forall p u, pri <= p < pri + Z.of_nat n -> u ∈ Q p -> needs_boost now (threads s u) = true -> u ∈ b).
Proof.
  induction n as [|n IH]; intros pri s Q SL W R Hn s' Hp.
  { exists Q, []. split_and!; [exact R|apply aged_nil|reflexivity|set_solver|lia]. }
  unfold s'. cbn [for_loop]. rewrite (rep_head _ _ _ R) by lia.
  destruct (age_queue_spec fuel now pri s Q SL W [] (Q pri) R) as (Q1 & b1 & R1 & A1 & K1 & O1 & B1 & L1); [auto|lia|].
  set (s1 := age_queue _ _ _ _ _) in *. destruct (IH (pri + 1) s1 Q1 SL W R1) as (Q2 & b2 & R2 & A2 & K2 & B2 & L2); [lia..|].
  assert (NB : forall u, u ∉ b1 -> needs_boost now (threads s1 u) = needs_boost now (threads s u)).
  { intros u N. apply needs_boost_nolinks. rewrite A1. by rewrite bool_decide_eq_false_2. }
  assert (D : forall u, u ∈ b1 -> u ∉ b2).
  { intros u U1 U2. apply B2 in U2 as [_ U2]. by rewrite (aged_not_again _ _ _ _ _ A1 U1) in U2. }
  exists Q2, (b1 ++ b2). split_and!; [exact R2|by eapply aged_trans|by trans s1| |].
  - intros u [Hu|Hu]%list.elem_of_app.
    + destruct (B1 u Hu) as [Hq ?]. split; [|auto]. by apply (rep_q _ _ _ R pri u).
    + rewrite <- NB by (intros H; by apply (D u)). rewrite <- (aged_state _ _ _ _ _ A1). by apply B2.
  - intros He p u Hr Hu Hb. apply list.elem_of_app. destruct (decide (p = pri)) as [->|N].
    + left. apply L1; auto. by eapply enough_rq.
    + assert (Nu : u ∉ b1).
      { intros H. apply B1 in H as [H _]. destruct (rep_q _ _ _ R p u Hu) as (_&?&_), (rep_q _ _ _ R pri u H) as (_&?&_). congruence. }
      right. apply L2 with p; [|lia|rewrite O1 by lia; auto|by rewrite NB]. eapply enough_mono; [exact He|]. intros v Hv.
      by rewrite (aged_state _ _ _ _ _ A1).
Qed.
Lemma age_queues_spec fuel now s Q SL W :
  rep s Q SL W [] ->
  let s' := age_queues fuel now s in
  exists Q' b, rep s' Q' SL W [] /\ aged now b s s' /\ keeps s s' /\
    (forall u, u ∈ b -> t_state (threads s u) = THREAD_STATE_READY /\ needs_boost now (threads s u) = true) /\
    (enough fuel s -> forall p u, p < 4 -> u ∈ Q p -> needs_boost now (threads s u) = true -> u ∈ b).
Proof.
  intros R. destruct (age_loop_spec fuel now 4 0 s Q SL W R) as (Q' & b & R' & A & K & B & L); [lia..|].
  exists Q', b. split_and!; auto. intros He p u Hp Hu. apply (L He p); [|auto].
  assert (0 <= p < 5) by (eapply rep_q_range; [apply R|by destruct (Q p); [set_solver|]]). lia.
Qed.

(** *** The timer tick *)
Definition ticked (now : Z) (a b : list Z) (u : Z) (k : thread) : thread :=
  let k := if bool_decide (u ∈ a) then put_state THREAD_STATE_READY k else k in
  if bool_decide (u ∈ b) then boosted now k else k.
Lemma rep_if (b : bool) s Q SL W t f :
  rep s Q SL W [] -> (forall k, core (f k) = core k /\ t_base_priority (f k) = t_base_priority k) ->
  let s' := if b then upd_th t f s else s in
  rep s' Q SL W [] /\ keeps s s' /\ (forall u, u <> t -> threads s' u = threads s u).
Proof.
  intros R Hf. destruct b; cbn; [|split_and!; [exact R|reflexivity|auto]]. split_and!; [by apply rep_harmless| |].
  - apply keeps_upd. intros k. destruct (Hf k) as [E _]. unfold core in E. congruence.
  - intros u N. by apply th_upd_ne.
Qed.
Lemma tick_spec fuel now s Q SL W c :
  wf_at s Q SL W -> g_scheduler_active s = true -> g_current_thread s = Some c ->
  let s' := scheduler_tick fuel now s in
  exists Q' a b SL', wf_at s' Q' SL' W /\ SL = a ++ SL' /\ keeps s s' /\
    (forall u, u <> c -> nolinks (threads s' u) = ticked now a b u (nolinks (threads s u))) /\
    (forall u, u ∈ a -> t_wake_tick (threads s u) <= now) /\
    (forall u, u ∈ b -> needs_boost now (threads s u) = true) /\
    (enough fuel s -> (forall u, u ∈ SL' -> now < t_wake_tick (threads s u)) /\
       forall u, u <> c -> (exists p, p < 4 /\ u ∈ Q p) \/ (u ∈ a /\ t_priority (threads s u) < 4) ->
                 needs_boost now (threads s u) = true -> u ∈ b).
Proof.
  intros H Ha Hc. pose proof H as (R & _ & (c' & Hc' & Hcs)). rewrite Hc in Hc'. injection Hc' as <-.
  assert (Hcl : c ∉ SL) by (intros E; apply R in E as [E _]; congruence).
  unfold scheduler_tick. rewrite Hc, Ha. cbn [negb]. set (idle := bool_decide _).
  destruct (rep_if (negb idle) s Q SL W c (fun k => put_cpu_ticks (u64 (t_cpu_ticks k + 1)) k) R) as (R1 & K1 & T1); [by intros k|].
  set (s1 := if negb idle then _ else s) in *.
  destruct (wake_sleeping_spec fuel now s1 Q SL W R1) as (Q2 & a & SL' & R2 & ESL & T2 & K2 & A2 & M2 & L2).
  unfold scheduler_wake_sleeping, check_thread_timeouts. set (s2 := wake_sleeping fuel now s1) in *.
  destruct (rep_if (negb idle && (0 <? t_time_slice_remaining (threads s2 c))) s2 Q2 SL' W c
    (fun k => put_time_slice_remaining (t_time_slice_remaining k - 1) k) R2) as (R3 & K3 & T3); [by intros k|].
  set (s3 := if negb idle && _ then _ else s2) in *.
  destruct (rep_if ((t_time_slice_remaining (threads s3 c) =? 0) && negb idle) s3 Q2 SL' W c (put_preempt_pending true) R3) as (R4 & K4 & T4); [by intros k|].
  set (s4 := if _ && negb idle then _ else s3) in *.
  destruct (age_queues_spec fuel now s4 Q2 SL' W R4) as (Q' & b & R5 & A5 & K5 & B5 & L5).
  assert (K : keeps s (age_queues fuel now s4)) by (trans s1; [auto|]; trans s2; [auto|]; trans s3; [auto|]; by trans s4).
  assert (T14 : forall u, u <> c -> nolinks (threads s4 u) = if bool_decide (u ∈ a) then put_state THREAD_STATE_READY (nolinks (threads s u)) else nolinks (threads s u)).
  { intros u N. rewrite T4, T3, T2, T1 by auto. reflexivity. }
  assert (NB : forall u, u <> c -> needs_boost now (threads s4 u) = needs_boost now (threads s u)).
  { intros u N. unfold needs_boost. pose proof (f_equal t_is_boosted (T14 u N)) as E1. pose proof (f_equal t_wait_start_tick (T14 u N)) as E2.
    case_bool_decide; cbn in E1, E2; by rewrite E1, E2. }
  assert (F : forall u, u <> c -> t_wake_tick (threads s1 u) = t_wake_tick (threads s u) /\ t_priority (threads s1 u) = t_priority (threads s u)).
  { intros u N. by rewrite T1. }
  assert (Ca : forall u, u ∈ SL -> u <> c) by (intros u Hu ->; done).
  assert (K14 : keeps s s4) by (trans s1; [auto|]; trans s2; [auto|]; by trans s3).
  exists Q', a, b, SL'. split_and!; [by eapply wf_keeps|exact ESL|exact K| | | |].
  - intros u N. rewrite A5, T14 by auto. reflexivity.
  - intros u Hu. destruct (F u) as [<- _]; [apply Ca; set_solver|]. by apply A2.
  - intros u Hu. destruct (B5 u Hu) as [Hs Hb]. rewrite NB in Hb; [auto|]. intros ->.
    rewrite (k_st _ _ K14), Hcs in Hs; [done|]. rewrite Hcs. by intros [?|?].
  - intros He. assert (E1 : enough fuel s1).
    { eapply enough_mono; [exact He|]. intros u Hu. rewrite T1; [auto|]. intros ->. congruence. }
    assert (E4 : enough fuel s4).
    { eapply enough_mono; [exact He|]. intros u Hu. assert (N : u <> c) by congruence. pose proof (f_equal t_state (T14 u N)) as E.
      rewrite bool_decide_eq_false_2 in E; [cbn in E; congruence|]. intros Hu'. destruct (rep_sl_in _ _ _ R u) as [? _]; [set_solver|congruence]. }
    split.
    + intros u Hu. destruct (F u) as [<- _]; [apply Ca; set_solver|]. apply L2; [by eapply enough_sl|auto].
    + intros u N Hu Hb. destruct Hu as [(p & Hp & Hu)|[Hu Hp]].
      * apply (L5 E4 p); [auto|by apply M2|by rewrite NB].
      * destruct (F u N) as [_ E]. apply (L5 E4 (t_priority (threads s1 u))); [lia|by apply A2|by rewrite NB].
Qed.

(** *** Giving up the CPU *)
Lemma wf_take s Q SL W c : wf_at s Q SL W -> g_current_thread s = Some c -> rep s Q SL W [c].
Proof.
  intros (R & _ & (c' & Hc & Hcs)) Hc'. rewrite Hc in Hc'. injection Hc' as <-. apply rep_take; [auto|].
  eapply rep_state_nowhere; eauto.
Qed.
Lemma idle_ok_upd s c f : idle_ok s -> g_idle_thread s <> Some c -> idle_ok (upd_th c f s).
Proof. intros (i & Hi & His) N. exists i. split; [auto|]. rewrite th_upd_ne by congruence. auto. Qed.
Lemma idle_ok_same s s' : idle_ok s -> g_idle_thread s' = g_idle_thread s ->
  (forall u, t_state (threads s' u) = t_state (threads s u)) -> idle_ok s'.
Proof. intros (i & Hi & His) Ei Es. exists i. rewrite Ei, Es. auto. Qed.
Lemma sleep_insert_rest fuel t s :
  let s' := sleep_insert fuel t s in
  g_idle_thread s' = g_idle_thread s /\ g_current_thread s' = g_current_thread s /\
  g_scheduler_active s' = g_scheduler_active s /\ (forall u, nolinks (threads s' u) = nolinks (threads s u)).
Proof.
  unfold sleep_insert. destruct (g_sleep_queue s) as [h|]; [destruct (_ <? _)|]; cbn zeta; split_and!; auto;
    intros u; cbn [threads with_g_sleep_queue]; by repeat rewrite nolinks_upd by done.
Qed.
Lemma wf_sleep fuel now ticks s Q SL W c :
  wf_at s Q SL W -> g_scheduler_active s = true -> g_current_thread s = Some c -> g_idle_thread s <> Some c ->
  enough fuel s -> ticks <> 0 ->
  let s' := thread_sleep_ticks fuel now ticks s in
  exists Q' a b, SL = a ++ b /\ wf_at s' Q' (a ++ c :: b) W /\
    (forall u, t_state (threads s u) = THREAD_STATE_ZOMBIE -> t_state (threads s' u) = THREAD_STATE_ZOMBIE) /\
    (forall u, u <> c -> runnable s u -> runnable s' u).
Proof.
  intros H Ha Hc Hi He Ht. unfold thread_sleep_ticks. rewrite Hc, (proj2 (Z.eqb_neq _ _) Ht). set (s1 := upd_th c _ s).
  assert (R1 : rep s1 Q SL W [c]) by (apply rep_flight; [by apply wf_take|left|apply H]).
  assert (E1 : t_state (threads s1 c) = THREAD_STATE_SLEEPING) by (unfold s1; by rewrite th_upd_eq).
  destruct (rep_sleep_insert s1 Q SL W [] c fuel R1) as (a & b & ES & R2); [set_solver|auto|eapply enough_sl; [apply H|auto]|].
  destruct (sleep_insert_rest fuel c s1) as (I2 & C2 & A2 & N2). set (s2 := sleep_insert fuel c s1) in *.
  assert (S2 : forall u, t_state (threads s2 u) = t_state (threads s1 u)) by (intros u; apply (f_equal t_state (N2 u))).
  assert (Hio : idle_ok s2) by (eapply idle_ok_same; [|exact I2|exact S2]; by apply idle_ok_upd; [apply H|]).
  assert (Hst : t_state (threads s2 c) <> THREAD_STATE_READY) by (by rewrite S2, E1).
  assert (A2' : g_scheduler_active s2 = true) by (rewrite A2; exact Ha). destruct (schedule_wf now s2 Q (a ++ c :: b) W c R2 A2') as [Q' H']; [by rewrite C2|auto..|].
  exists Q', a, b. split; [auto|]. split; [exact H'|]. split.
  - intros u Hu. assert (N : u <> c).
    { intros ->. pose proof H as (_ & _ & (c' & Hc' & Hcs)). rewrite Hc in Hc'. injection Hc' as <-. congruence. }
    eapply schedule_zombie; [exact R2|auto|by rewrite C2|auto..|]. rewrite S2. unfold s1. by rewrite th_upd_ne.
  - intros u N Hu. eapply schedule_runnable; [exact R2|auto|by rewrite C2|auto..|]. unfold runnable in *. rewrite S2. unfold s1. by rewrite th_upd_ne.
Qed.
Lemma wf_wait q now timeout s Q SL W c :
  wf_at s Q SL W -> g_scheduler_active s = true -> g_current_thread s = Some c -> g_idle_thread s <> Some c -> is_sync q = false ->
  let s' := wait_block q now c (wait_begin q now timeout c s) in
  exists Q', wf_at s' Q' SL (<[q := W q ++ [c]]> W) /\ (forall u, u <> c -> runnable s u -> runnable s' u) /\
    (forall fuel, enough fuel s -> enough fuel s').
Proof.
  intros H Ha Hc Hi Hq. assert (H0 : wf_at (wait_begin q now timeout c s) Q SL W) by (by apply wf_harmless).
  set (s0 := wait_begin q now timeout c s) in *. unfold wait_block. set (s1 := upd_th c _ _).
  pose proof (rep_wait_enqueue s0 Q SL W [] c q (wf_take _ _ _ _ _ H0 Hc) ltac:(set_solver) Hq) as R1. fold s1 in R1.
  assert (G : g_scheduler_active s1 = true /\ g_current_thread s1 = Some c /\ g_idle_thread s1 = g_idle_thread s).
  { unfold s1, wait_queue_enqueue_locked. destruct (wq_tail _); cbn; auto. }
  assert (S1 : forall u, t_state (threads s1 u) = if u =? c then THREAD_STATE_BLOCKED else t_state (threads s u)).
  { intros u. unfold s1. destruct (Z.eqb_spec u c) as [->|N]; [by rewrite th_upd_eq|]. rewrite th_upd_ne by auto.
    unfold wait_queue_enqueue_locked. rewrite th_upd_wq. destruct (wq_tail _); cbn [upd_opt]; rewrite ?st_upd by done; unfold s0, wait_begin; by rewrite st_upd. }
  destruct G as (G1 & G2 & G3). assert (Hst : t_state (threads s1 c) <> THREAD_STATE_READY) by (by rewrite S1, Z.eqb_refl).
  assert (Hio : idle_ok s1).
  { destruct H as (_ & (i & Hi' & His) & _). exists i. rewrite G3, S1. rewrite (proj2 (Z.eqb_neq i c)) by congruence. auto. }
  destruct (schedule_wf now s1 Q SL _ c R1 G1 G2 Hio Hst) as [Q' H']. exists Q'. split; [exact H'|].
  split.
  - intros u N Hu. eapply schedule_runnable; eauto. unfold runnable in *. by rewrite S1, (proj2 (Z.eqb_neq u c)).
  - intros fuel He. eapply enough_mono; [exact He|]. intros u Hu. assert (N : u <> c).
    { intros ->. destruct H as (_ & _ & (c' & Hc' & Hcs)). rewrite Hc in Hc'. injection Hc' as <-. congruence. }
    eapply schedule_zombie; eauto. by rewrite S1, (proj2 (Z.eqb_neq u c)).
Qed.

(** *** Preemption *)
Lemma find_kernel_in fuel s c l n t :
  chain (sched_next_of s) l n -> n = None -> find_kernel fuel s c (hd_or l None) = Some t ->
  t ∈ l /\ t <> c /\ t_owner (threads s t) = None.
Proof.
  intros C ->. revert l C. induction fuel as [|fuel IH]; intros l C; [done|]. destruct l as [|u l]; [done|].
  destruct C as [En C]. unfold sched_next_of in En. cbn [find_kernel hd_or]. rewrite En.
  assert (F : find_kernel fuel s c (hd_or l None) = Some t -> t ∈ u :: l /\ t <> c /\ t_owner (threads s t) = None).
  { intros H. destruct (IH l C H) as (?&?&?). set_solver. }
  destruct (t_owner (threads s u)) eqn:Eo; [exact F|]. destruct (Z.eqb_spec u c) as [|N]; [exact F|]. intros [= ->]. set_solver.
Qed.
Lemma dseg_chain th p l n : dseg th p l n -> chain (fun t => t_sched_next (th t)) l n.
Proof. revert p; induction l as [|t l IH]; intros p; cbn; [auto|]. intros (_ & ? & ?). eauto. Qed.
Lemma find_kernel_from_in n fuel s Q SL W X c t :
  rep s Q SL W X -> (n <= 5)%nat -> find_kernel_from n fuel s c = Some t ->
  exists p l1 l2, Q p = l1 ++ t :: l2 /\ t <> c /\ t_owner (threads s t) = None.
Proof.
  intros R. induction n as [|n IH]; intros Hn; cbn [find_kernel_from]; [done|].
  rewrite (rep_head _ _ _ R) by lia. destruct (find_kernel fuel s c (hd_or (Q (Z.of_nat n)) None)) eqn:E; [|apply IH; lia].
  intros [= ->]. apply (find_kernel_in _ _ _ _ None) in E as (Ht & ? & ?); [|apply dseg_chain with None, R|auto].
  apply list_elem_of_split in Ht as (l1 & l2 & E). eauto 10.
Qed.
(** The second half of a switch: the thread in flight takes the CPU. *)
Lemma enter_spec s Q SL W t f :
  rep s Q SL W [t] -> (forall u, u <> t -> t_state (threads s u) <> THREAD_STATE_RUNNING) ->
  let k := f (threads s t) in t_state k = THREAD_STATE_RUNNING -> pri_ok k -> free_links k -> idle_ok s ->
  wf_at (with_g_current_thread (upd_th t f s) (Some t)) Q SL W.
Proof.
  intros R Hr k Hk Hp Hf Hi. set (s' := upd_th t f s).
  assert (Et : threads s' t = k) by (unfold s'; by rewrite th_upd_eq).
  assert (Eo : forall u, u <> t -> threads s' u = threads s u) by (intros; unfold s'; by rewrite th_upd_ne).
  split; [|split].
  - apply rep_land with t; [|unfold in_place; cbn [threads with_g_current_thread]; rewrite Et, Hk; auto].
    apply rep_set_current; [by apply rep_flight; [|left|]|]. intros u Hu. assert (u <> t) by set_solver. rewrite Eo by auto. auto.
  - destruct Hi as (i & Hi & His). exists i. split; [auto|]. cbn [threads with_g_current_thread]. fold s'.
    destruct (decide (i = t)) as [->|N]; [rewrite Et; auto|by rewrite Eo].
  - exists t. split; [auto|]. cbn [threads with_g_current_thread]. fold s'. by rewrite Et.
Qed.
Lemma wf_not_running s Q SL W c u : wf_at s Q SL W -> g_current_thread s = Some c -> u <> c -> t_state (threads s u) <> THREAD_STATE_RUNNING.
Proof.
  intros (R & _) Hc N E. pose proof (rep_all _ _ _ _ _ R u ltac:(set_solver)) as A. unfold in_place in A. rewrite E in A. destruct A. congruence.
Qed.
(** A queued thread [next] replaces the running one. *)
Lemma wf_replace now s Q SL W c next p l1 l2 f :
  wf_at s Q SL W -> g_current_thread s = Some c -> Q p = l1 ++ next :: l2 ->
  (forall k, t_state (f k) = THREAD_STATE_RUNNING /\ (pri_ok k -> pri_ok (f k)) /\ (free_links k -> free_links (f k))) ->
  let s1 := clear_links next (unlink next (set_rq p) s) in
  let s2 := upd_th c (leave_cpu now) s1 in
  let s3 := scheduler_enqueue c (upd_th c (fun k => put_wait_start_tick now (put_state THREAD_STATE_READY k)) s2) in
  t_state (threads s2 c) = THREAD_STATE_RUNNING /\
  let s' := with_g_current_thread (upd_th next f s3) (Some next) in
  (exists Q', wf_at s' Q' SL W) /\ forall u, runnable s u -> runnable s' u.
Proof.
  intros H Hc EQ Hf s1 s2 s3. pose proof H as (R & Hi & (c' & Hc' & Hcs)). rewrite Hc in Hc'. injection Hc' as <-.
  destruct (rep_q _ _ _ R p next) as (Hns & Hnp & _); [rewrite EQ; set_solver|]. assert (Nc : next <> c) by congruence.
  destruct (rep_unlink s Q SL W [] next p l1 l2 R EQ) as [R0 _].
  assert (R1 : rep s1 (<[p := l1 ++ l2]> Q) SL W [next]) by (apply rep_flight; [exact R0|left|apply R0]).
  assert (S1 : forall u, t_state (threads s1 u) = t_state (threads s u)) by (intros u; apply (f_equal t_state (nolinks_unlink next p s u))).
  assert (F1 : free_links (threads s1 next)) by (unfold s1, clear_links; by rewrite th_upd_eq).
  assert (I1 : g_idle_thread s1 = g_idle_thread s) by (by destruct (unlink_rest next p s) as (_&_&?&_)).
  destruct (leave_spec now s1 _ SL W [next] c R1) as (R3 & I3 & A3 & C3 & S3 & X3); [set_solver|by rewrite S1, Hcs|].
  rewrite S1, Hcs in R3, I3, S3, X3. cbn [is_st orb] in R3, I3, S3, X3. unfold is_st in R3, I3, S3, X3.
  rewrite bool_decide_eq_true_2 in R3, I3, S3, X3 by done. cbn [orb] in R3, I3, S3, X3. fold s2 s3 in R3, I3, S3, X3.
  split. { unfold s2. rewrite th_upd_eq. destruct (leave_cpu_spec now (threads s1 c)) as (_&_&E&_). unfold w_core in E. rewrite S1, Hcs in E. congruence. }
  destruct (Hf (threads s3 next)) as (Gs & Gp & Gf). rewrite X3 in Gf by left.
  split.
  2: { intros u Hu. unfold runnable in *. cbn [threads with_g_current_thread]. destruct (decide (u = next)) as [->|N]; [rewrite th_upd_eq; auto|].
       rewrite th_upd_ne, S3 by auto. destruct (u =? c); [auto|]. by rewrite S1. }
  eexists. apply enter_spec; [exact R3| |auto|apply Gp, R3|rewrite X3 by left; auto|].
  - intros u N. rewrite S3. destruct (Z.eqb_spec u c) as [->|Nu]; [done|]. rewrite S1. by eapply wf_not_running.
  - destruct Hi as (i & Hi & His). exists i. rewrite I3, I1, S3. split; [auto|]. destruct (i =? c); [auto|]. by rewrite S1.
Qed.
Lemma wf_preempt now user fuel s Q SL W :
  wf_at s Q SL W ->
  let s' := scheduler_preempt now user fuel (scheduler_wake_sleeping fuel now) s in
  (exists Q' SL', wf_at s' Q' SL' W) /\ forall u, runnable s u -> runnable s' u.
Proof.
  intros H. pose proof H as (R & Hi & (c & Hc & Hcs)). unfold scheduler_preempt. rewrite Hc.
  destruct (g_scheduler_active s); cbn [negb]; [|eauto]. destruct user; [eauto|].
  destruct (wake_sleeping_spec fuel now s Q SL W R) as (Q1 & a & SL1 & R1 & _ & _ & K1 & _).
  change (scheduler_wake_sleeping fuel now s) with (wake_sleeping fuel now s). set (s1 := wake_sleeping fuel now s) in *.
  set (b := negb _ && _).
  destruct (rep_if b s1 Q1 SL1 W c (fun k => put_time_slice_remaining (t_time_slice_remaining k - 1) k) R1) as (R2 & K2 & _); [by intros k|].
  set (s2 := if b then _ else s1) in *. assert (K12 : keeps s s2) by (by trans s1).
  assert (H2 : wf_at s2 Q1 SL1 W) by (by eapply wf_keeps).
  assert (Hc2 : g_current_thread s2 = Some c) by (rewrite (k_cur _ _ K12); auto).
  assert (U2 : forall u, runnable s u -> runnable s2 u) by (intros u; by apply keeps_runnable).
  assert (U3 : forall f u, (forall k, core (f k) = core k) -> runnable s u -> runnable (upd_th c f s2) u).
  { intros f u Hf Hu. eapply keeps_runnable; [|by apply U2]. apply keeps_upd. intros k. specialize (Hf k). unfold core in Hf. congruence. }
  destruct (0 <? t_preempt_count (threads s2 c)).
  { destruct (t_time_slice_remaining (threads s2 c) =? 0); [|eauto]. split; [exists Q1, SL1; by apply wf_harmless|by intros u; apply U3]. }
  destruct ((0 <? t_time_slice_remaining (threads s2 c)) && _); [eauto|]. destruct (find_kernel_from _ _ _ _) as [next|] eqn:E.
  - apply (find_kernel_from_in _ _ _ _ _ _ _ _ _ R2) in E as (p & l1 & l2 & EQ & N & _); [|done].
    destruct (rep_q _ _ _ R2 p next) as (_ & -> & _); [rewrite EQ; set_solver|].
    destruct (wf_replace now s2 Q1 SL1 W c next p l1 l2 (fun k => let k := enter_cpu now k in
      put_preempt_pending false (put_state THREAD_STATE_RUNNING (put_time_slice_remaining (scheduler_get_time_slice k) k))) H2 Hc2 EQ)
      as (Es & (Q' & H') & U'); [by intros k; split_and!|].
    unfold is_st. rewrite bool_decide_eq_true_2 by exact Es. split; [exists Q', SL1; exact H'|]. intros u Hu. apply U', U2, Hu.
  - destruct (t_time_slice_remaining (threads s2 c) =? 0); [|eauto]. split; [exists Q1, SL1; by apply wf_harmless|by intros u; apply U3].
Qed.

(** *** Ending and creating threads *)
Lemma dequeue_free t s : free_links (threads s t) -> rq_head s (queue_index (t_priority (threads s t))) <> Some t ->
  scheduler_dequeue t s = clear_links t s.
Proof.
  intros [Hp Hn] Hh. unfold scheduler_dequeue, unlink. rewrite Hp, Hn. cbn [upd_opt]. by rewrite bool_decide_eq_false_2.
Qed.
(** What the signal to the reaper may do: wake waiting threads. *)
Definition only_wakes (f : sched -> sched) : Prop :=
  forall s Q SL W, rep s Q SL W [] -> exists Q' W', rep (f s) Q' SL W' [] /\ keeps s (f s).

Lemma wf_exit fuel now status signal s Q SL W c :
  wf_at s Q SL W -> g_scheduler_active s = true -> g_current_thread s = Some c -> g_idle_thread s <> Some c -> only_wakes signal ->
  let s' := thread_exit fuel now status signal s in
  exists Q' W', wf_at s' Q' SL W' /\ t_state (threads s' c) = THREAD_STATE_ZOMBIE /\
    (forall u, u ∈ take fuel (W (WQ_JOIN c)) -> runnable s' u).
Proof.
  intros H Ha Hc Hi Hsig. cbn zeta. unfold thread_exit. rewrite Hc, bool_decide_eq_false_2 by auto.
  set (s1 := upd_th c _ s). assert (H1 : wf_at s1 Q SL W) by (by apply wf_harmless).
  destruct (wf_wake_all fuel s1 Q SL W (WQ_JOIN c) H1 eq_refl) as (Q2 & W2 & H2 & _ & _ & K2 & J2).
  set (s2 := wait_queue_wake_all fuel (WQ_JOIN c) s1) in *.
  assert (C2 : g_current_thread s2 = Some c) by (rewrite (k_cur _ _ K2); exact Hc).
  pose proof (wf_take _ _ _ _ _ H2 C2) as T2. destruct (rep_flight_nowhere _ _ _ _ _ c T2) as (Nq & _); [left|].
  assert (F2 : free_links (threads s2 c)).
  { pose proof (rep_all _ _ _ _ _ (proj1 H2) c ltac:(set_solver)) as A. unfold in_place in A.
    destruct H2 as (_ & _ & (c' & E & Es)). rewrite C2 in E. injection E as <-. rewrite Es in A. apply A. }
  set (s3 := upd_th c (put_state THREAD_STATE_ZOMBIE) s2). assert (E3 : threads s3 c = put_state THREAD_STATE_ZOMBIE (threads s2 c)) by apply th_upd_eq.
  rewrite dequeue_free.
  2: by rewrite E3.
  2: { rewrite E3. cbn [t_priority put_state]. rewrite queue_index_ok by apply (proj1 H2).
       change (rq_head s3) with (rq_head s2). rewrite (rep_head _ _ _ (proj1 H2)) by apply (proj1 H2). intros E%hd_or_in. by apply Nq in E. }
  set (s4 := clear_links c s3). assert (E4 : threads s4 c = put_sched_prev None (put_sched_next None (threads s3 c))) by apply th_upd_eq.
  assert (R4 : rep s4 Q2 SL W2 []).
  { apply rep_land with c; [|unfold in_place; by rewrite E4, E3].
    apply rep_flight; [apply rep_flight; [exact T2|left|apply T2]|left|]. rewrite E3. apply T2. }
  set (s6 := reaper_add_zombie signal c s4).
  assert (H6 : exists Q6 W6, rep s6 Q6 SL W6 [] /\ keeps s4 s6).
  { unfold s6, reaper_add_zombie. case_bool_decide; [by exists Q2, W2|].
    assert (R5 : rep (reaper_push c s4) Q2 SL W2 []).
    { apply (rep_threads (upd_th c (put_zombie_next (g_zombie_list s4)) s4)); try done.
      - by apply rep_harmless.
      - intros u. apply (rep_pri _ _ _ _ _ (rep_harmless s4 Q2 SL W2 [] c (put_zombie_next (g_zombie_list s4)) R4 ltac:(done))). }
    destruct (Hsig _ Q2 SL W2 R5) as (Q6 & W6 & R6 & K6). exists Q6, W6. split; [exact R6|]. etrans; [|exact K6].
    unfold reaper_push. constructor; auto. intros u _. cbn. by apply (st_upd c (put_zombie_next (g_zombie_list s4)) s4). }
  destruct H6 as (Q6 & W6 & R6 & K6).
  assert (A6 : g_scheduler_active s6 = true) by (rewrite (k_act _ _ K6); change (g_scheduler_active s2 = true); rewrite (k_act _ _ K2); exact Ha).
  assert (C6 : g_current_thread s6 = Some c) by (rewrite (k_cur _ _ K6); exact C2).
  assert (S6 : t_state (threads s6 c) = THREAD_STATE_ZOMBIE).
  { rewrite (k_st _ _ K6); rewrite E4, E3; [auto|]. by intros [?|?]. }
  assert (S4 : forall u, u <> c -> threads s4 u = threads s2 u).
  { intros u N. unfold s4, clear_links. rewrite th_upd_ne by auto. unfold s3. by rewrite th_upd_ne. }
  assert (I6 : idle_ok s6).
  { destruct H2 as (_ & (i & Hi2 & His) & _). assert (Ei : g_idle_thread s = Some i) by (rewrite <- Hi2; symmetry; apply K2).
    exists i. rewrite (k_idle _ _ K6), (k_st _ _ K6), S4 by (rewrite ?S4 by congruence; congruence || (intros [?|?]; destruct His; congruence)).
    split; [exact Hi2|exact His]. }
  destruct (schedule_wf now s6 Q6 SL W6 c R6 A6 C6 I6) as [Q' H']; [by rewrite S6|].
  exists Q', W6. split; [exact H'|]. split; [by eapply schedule_off; eauto; rewrite S6|].
  intros u Hu. eapply schedule_runnable; eauto; [by rewrite S6|]. specialize (J2 u Hu). left.
  assert (N : u <> c). { intros ->. destruct H2 as (_ & _ & (c' & Hc' & Hcs)). rewrite C2 in Hc'. injection Hc' as <-. congruence. }
  rewrite (k_st _ _ K6); rewrite S4; auto. rewrite J2. by intros [?|?].
Qed.

Lemma upd_wq_init s Q SL W X q : rep s Q SL W X -> W q = [] -> rep (wait_queue_init q s) Q SL W X.
Proof.
  intros R E. constructor; [| | | |apply R].
  - apply (rq_frame s _ _ X); [apply R|auto|]. intros p u Hu. split; [auto|by eapply rep_q_notX].
  - apply (sl_frame s _ _ X); [apply R|auto|]. intros u Hu. split; [auto|by eapply rep_sl_notX].
  - destruct (rep_wait _ _ _ _ _ R). constructor; auto; intros r; cbn; case_bool_decide as Er; subst; rewrite ?E; auto.
  - intros u Hu. apply (rep_all _ _ _ _ _ R u Hu).
Qed.

Lemma new_thread_pri owner p now : 0 <= p < 5 -> pri_ok (new_thread owner p now).
Proof. by split. Qed.
(** A structure not in use becomes a queued thread. *)
Lemma wf_new s Q SL W t k :
  wf_at s Q SL W -> t_state (threads s t) = THREAD_STATE_ZOMBIE -> W (WQ_JOIN t) = [] -> pri_ok k -> t_state k = THREAD_STATE_READY ->
  wf_at (scheduler_enqueue t (wait_queue_init (WQ_JOIN t) (upd_th t (fun _ => k) s))) (abs_push (t_priority k) t Q) SL W.
Proof.
  intros H Hz HW Hk Hs. set (s1 := upd_th t _ s). assert (E1 : threads s1 t = k) by apply th_upd_eq.
  assert (R1 : rep (wait_queue_init (WQ_JOIN t) s1) Q SL W [t]).
  { apply upd_wq_init; [|auto]. apply rep_flight; [|left|auto]. apply rep_take; [apply H|]. eapply rep_state_nowhere; [apply H|auto]. }
  set (s2 := wait_queue_init _ s1) in *. change (threads s1 t) with (threads s2 t) in E1.
  assert (N2 : t_state (threads s2 t) <> THREAD_STATE_RUNNING) by (by rewrite E1, Hs).
  pose proof (rep_enqueue s2 Q SL W [] t R1 ltac:(set_solver) N2) as R2. rewrite E1 in R2.
  destruct (enqueue_rest s2 t) as (_&_&E3&E4&_). eapply wf_same; [exact H|exact R2|exact E4|exact E3|].
  intros u Hu. rewrite st_enqueue by auto. destruct (Z.eqb_spec u t) as [->|N]; [destruct Hu; congruence|]. unfold s2. cbn.
  by rewrite (proj2 (Z.eqb_neq u t)).
Qed.

(** ** Reachable states *)
(** An address [kmalloc] may return for a new structure. *)
Definition fresh (s : sched) (t : Z) : Prop :=
  t_state (threads s t) = THREAD_STATE_ZOMBIE /\ wq_head (wqs s (WQ_JOIN t)) = None.
Definition may_block (s : sched) (c : Z) : Prop :=
  g_scheduler_active s = true /\ g_current_thread s = Some c /\ g_idle_thread s <> Some c.

Inductive sched_step : sched -> sched -> Prop :=
| step_create mem ok p now s : (forall t, mem = Some t -> fresh s t) -> 0 <= p < 5 -> sched_step s (thread_create mem ok p now s).2
| step_create_in proc mem ok p now s :
    (forall t, mem = Some t -> fresh s t) -> 0 <= p < 5 -> sched_step s (thread_create_in_process proc mem ok p now s).2
| step_create_user proc mem now s : (forall t, mem = Some t -> fresh s t) -> sched_step s (thread_create_user proc mem now s).2
| step_start s : sched_step s (scheduler_start s)
| step_yield now s : sched_step s (thread_yield now s)
| step_schedule now s : sched_step s (scheduler_schedule now s)
| step_tick fuel now s : enough fuel s -> sched_step s (scheduler_tick fuel now s)
| step_preempt now user fuel s : enough fuel s ->
    sched_step s (scheduler_preempt now user fuel (scheduler_wake_sleeping fuel now) s)
| step_preempt_disable s : sched_step s (preempt_disable s)
| step_preempt_enable now s : sched_step s (preempt_enable now s)
| step_sleep fuel now ticks c s : may_block s c -> enough fuel s -> sched_step s (thread_sleep_ticks fuel now ticks s)
| step_wait q now timeout c s : may_block s c -> is_sync q = false -> sched_step s (wait_block q now c (wait_begin q now timeout c s))
| step_wait_end c s : sched_step s (wait_end c s).2
| step_wake_one q s : is_sync q = false -> sched_step s (wait_queue_wake_one q s)
| step_wake_all fuel q s : is_sync q = false -> enough fuel s -> sched_step s (wait_queue_wake_all fuel q s)
| step_exit fuel now status signal c s : may_block s c -> only_wakes signal -> enough fuel s ->
    sched_step s (thread_exit fuel now status signal s)
| step_set_priority t p s : 0 <= p -> t_state (threads s t) <> THREAD_STATE_READY -> sched_step s (thread_set_priority t p s)
| step_set_nice t n s : t_state (threads s t) <> THREAD_STATE_READY -> sched_step s (thread_set_nice t n s)
| step_kill t status s : ~ waiting (t_state (threads s t)) -> sched_step s (thread_kill t status s)
| step_reap s : sched_step s (reaper_pop s).2.

Lemma fresh_join s Q SL W X t : rep s Q SL W X -> fresh s t -> W (WQ_JOIN t) = [].
Proof. intros R [_ E]. rewrite (rep_w_head _ _ _ R) in E. by destruct (W (WQ_JOIN t)). Qed.
Lemma wf_create mem ok p now s Q SL W :
  wf_at s Q SL W -> (forall t, mem = Some t -> fresh s t) -> 0 <= p < 5 -> exists Q', wf_at (thread_create mem ok p now s).2 Q' SL W.
Proof.
  intros H Hf Hp. unfold thread_create. destruct mem as [t|]; [|eauto]. destruct ok; [|eauto]. cbn [negb snd].
  destruct (Hf t eq_refl) as [Hz Hw]. eexists. apply wf_new; [exact H|auto| |by apply new_thread_pri|auto].
  eapply fresh_join; [apply H|by split].
Qed.
Lemma wf_unqueued s Q SL W c f :
  wf_at s Q SL W -> t_state (threads s c) <> THREAD_STATE_READY -> pri_ok (f (threads s c)) ->
  t_sched_prev (f (threads s c)) = t_sched_prev (threads s c) ->
  sl_core (f (threads s c)) = sl_core (threads s c) -> w_core (f (threads s c)) = w_core (threads s c) ->
  wf_at (upd_th c f s) Q SL W.
Proof.
  intros H Hc Hp Hpr Hsl Hw. eapply wf_same; [exact H|by apply rep_unqueued; [apply H|..]|auto..].
  intros u _. destruct (decide (u = c)) as [->|N]; [|by rewrite th_upd_ne]. rewrite th_upd_eq. unfold w_core in Hw. congruence.
Qed.
Lemma wf_set_priority t p s Q SL W :
  wf_at s Q SL W -> 0 <= p -> t_state (threads s t) <> THREAD_STATE_READY -> wf_at (thread_set_priority t p s) Q SL W.
Proof.
  intros H Hp Ht. unfold thread_set_priority, THREAD_PRIORITY_COUNT. destruct (Z.leb_spec 5 p); [auto|]. set (s1 := upd_th t _ s).
  assert (H1 : wf_at s1 Q SL W) by (apply wf_unqueued; auto; by split).
  assert (E : t_state (threads s1 t) = t_state (threads s t)) by (unfold s1; by rewrite th_upd_eq).
  rewrite E. unfold is_st. by rewrite bool_decide_eq_false_2.
Qed.
Lemma wf_set_nice t n s Q SL W :
  wf_at s Q SL W -> t_state (threads s t) <> THREAD_STATE_READY -> wf_at (thread_set_nice t n s) Q SL W.
Proof.
  intros H Ht. unfold thread_set_nice. cbn zeta. set (n' := if _ <? _ then _ else _). set (s1 := upd_th t (put_nice n') s).
  assert (H1 : wf_at s1 Q SL W) by (by apply wf_harmless). destruct (negb _); [|auto]. set (s2 := upd_th t _ s1).
  assert (E1 : t_state (threads s1 t) = t_state (threads s t)) by (unfold s1; by rewrite th_upd_eq).
  assert (H2 : wf_at s2 Q SL W) by (apply wf_unqueued; auto; [congruence|split; apply nice_priority_range]).
  assert (E : t_state (threads s2 t) = t_state (threads s1 t)) by (unfold s2; by rewrite th_upd_eq).
  rewrite E. unfold is_st. by rewrite bool_decide_eq_false_2 by congruence.
Qed.
Lemma wf_other s s' Q SL W :
  wf_at s Q SL W -> threads s' = threads s -> wqs s' = wqs s -> g_run_queues s' = g_run_queues s -> g_sleep_queue s' = g_sleep_queue s ->
  g_current_thread s' = g_current_thread s -> g_idle_thread s' = g_idle_thread s -> wf_at s' Q SL W.
Proof.
  intros H Et Ew Er Es Ec Ei. eapply wf_same; [exact H| |auto|auto|by rewrite Et].
  apply (rep_threads s); auto; [apply H|by rewrite Et|]. intros u. rewrite Et. apply H.
Qed.

Lemma sched_step_wf s s' : sched_step s s' -> sched_wf s -> sched_wf s'.
Proof.
  intros St (Q & SL & W & H). unfold sched_wf. destruct St.
  - destruct (wf_create mem ok p now s Q SL W H H0 H1); eauto.
  - unfold thread_create_in_process. destruct (wf_create mem ok p now s Q SL W H H0 H1) as [Q' H'].
    destruct (thread_create mem ok p now s) as [[t|] s']; cbn in *; [|eauto]. exists Q', SL, W. by apply wf_harmless.
  - unfold thread_create_user. destruct mem as [t|]; cbn; [|eauto]. destruct (H0 t eq_refl) as [Hz Hw].
    do 3 eexists. apply wf_new; [exact H|auto| |by apply new_thread_pri|auto]. eapply fresh_join; [apply H|by split].
  - exists Q, SL, W. by eapply wf_other.
  - unfold thread_yield. destruct (g_scheduler_active s); [|eauto]. destruct (wf_schedule now s Q SL W H); eauto.
  - destruct (wf_schedule now s Q SL W H); eauto.
  - destruct (g_scheduler_active s) eqn:Ha.
    + pose proof H as (_ & _ & (c & Hc & _)). destruct (tick_spec fuel now s Q SL W c H Ha Hc) as (Q' & a & b & SL' & H' & _). eauto.
    + unfold scheduler_tick. rewrite Ha. destruct (g_current_thread s); eauto.
  - destruct (wf_preempt now user fuel s Q SL W H) as ((Q' & SL' & H') & _). eauto.
  - unfold preempt_disable. destruct (g_current_thread s); [|eauto]. exists Q, SL, W. by apply wf_harmless.
  - unfold preempt_enable. destruct (g_current_thread s) as [c|]; [|eauto]. set (s1 := if 0 <? _ then _ else s).
    assert (H1 : wf_at s1 Q SL W) by (unfold s1; destruct (0 <? _); [by apply wf_harmless|auto]).
    destruct (_ && _); [|eauto]. set (s2 := upd_th c _ s1). assert (H2 : wf_at s2 Q SL W) by (by apply wf_harmless).
    destruct (wf_schedule now s2 Q SL W H2); eauto.
  - destruct H0 as (Ha & Hc & Hi). destruct (decide (ticks = 0)) as [->|N].
    + unfold thread_sleep_ticks. rewrite Hc. eauto.
    + destruct (wf_sleep fuel now ticks s Q SL W c) as (Q' & a & b & _ & H' & _ & _); eauto.
  - destruct H0 as (Ha & Hc & Hi). destruct (wf_wait q now timeout s Q SL W c) as (Q' & H' & _); eauto.
  - exists Q, SL, W. by apply wf_harmless.
  - destruct (W q) as [|t l] eqn:E; [erewrite wake_one_empty; [eauto|apply H|auto]|]. do 3 eexists. by eapply wf_wake_one.
  - destruct (wf_wake_all fuel s Q SL W q H H0) as (Q' & W' & H' & _). eauto.
  - destruct H0 as (Ha & Hc & Hi). destruct (wf_exit fuel now status signal s Q SL W c) as (Q' & W' & H' & _); eauto.
  - exists Q, SL, W. by apply wf_set_priority.
  - exists Q, SL, W. by apply wf_set_nice.
  - unfold thread_kill. set (s1 := upd_th t _ s). assert (H1 : wf_at s1 Q SL W) by (by apply wf_harmless).
    assert (E : t_state (threads s1 t) = t_state (threads s t)) by (unfold s1; by rewrite th_upd_eq). rewrite E. unfold is_st.
    rewrite !bool_decide_eq_false_2 by (intros ?; apply H0; unfold waiting; auto). cbn [orb]. eauto.
  - unfold reaper_pop. destruct (g_zombie_list s) as [z|]; cbn; [|eauto]. exists Q, SL, W.
    apply (wf_harmless _ _ _ _ z (put_zombie_next None)); [by eapply wf_other|done].
Qed.

Definition initial (main idle : Z) (now : Z) : sched := scheduler_init main (Some idle) true now boot.
Lemma initial_eq main idle now :
  let s := initial main idle now in
  (forall u, threads s u = if u =? idle then new_thread None THREAD_PRIORITY_IDLE now else if u =? main then main_thread else zero_thread) /\
  (forall q, wqs s q = empty_wq) /\ g_run_queues s = replicate 5 None /\ g_sleep_queue s = None /\
  g_current_thread s = Some main /\ g_idle_thread s = Some idle /\ g_scheduler_active s = false.
Proof.
  unfold initial, scheduler_init, thread_create. cbn [negb]. set (s0 := wait_queue_init (WQ_JOIN idle) _).
  assert (E0 : threads s0 idle = new_thread None THREAD_PRIORITY_IDLE now) by (unfold s0; cbn; by rewrite Z.eqb_refl).
  set (s1 := scheduler_enqueue idle s0).
  assert (T1 : forall u, threads s1 u = linked (threads s0) None idle u).
  { intros u. apply enqueue_threads; [by rewrite E0|by rewrite E0|done]. }
  assert (G1 : g_run_queues s1 = <[0%nat := Some idle]> (replicate 5 None)) by (unfold s1; rewrite enqueue_rq by (by rewrite E0); by rewrite E0).
  assert (S0 : forall u, u <> idle -> threads s0 u = if u =? main then main_thread else zero_thread).
  { intros u N. unfold s0. cbn. by rewrite (proj2 (Z.eqb_neq u idle)). }
  destruct (enqueue_rest s0 idle) as (E1 & E2 & E3 & E4 & E5). fold s1 in E1, E2, E3, E4, E5.
  set (s2 := with_g_idle_thread s1 (Some idle)).
  assert (T2 : threads s2 idle = new_thread None THREAD_PRIORITY_IDLE now) by (unfold s2; cbn; rewrite T1, linked_self, E0; reflexivity).
  assert (D : scheduler_dequeue idle s2 = clear_links idle (set_rq 0 None s2)).
  { unfold scheduler_dequeue, unlink. rewrite T2. cbn. rewrite bool_decide_eq_true_2; [auto|]. unfold rq_head. cbn. by rewrite G1. }
  rewrite D. split_and!; auto.
  - intros u. destruct (Z.eqb_spec u idle) as [->|N].
    + unfold clear_links. rewrite th_upd_eq. change (threads (set_rq 0 None s2)) with (threads s2). by rewrite T2.
    + unfold clear_links. rewrite th_upd_ne by auto. change (threads (set_rq 0 None s2) u) with (threads s1 u). rewrite T1.
      unfold linked. rewrite (proj2 (Z.eqb_neq u idle)) by auto. rewrite bool_decide_eq_false_2 by done. by apply S0.
  - intros q. change (wqs s1 q = empty_wq). rewrite E2. unfold s0, wait_queue_init, upd_wq. cbn -[bool_decide]. by repeat case_bool_decide.
  - cbn. by rewrite G1.
Qed.
Lemma initial_wf main idle now : main <> idle -> wf_at (initial main idle now) (fun _ => []) [] (fun _ => []).
Proof.
  intros N. destruct (initial_eq main idle now) as (T & Ew & Er & Es & Ec & Ei & _). set (s := initial main idle now) in *.
  assert (Ti : threads s idle = new_thread None THREAD_PRIORITY_IDLE now) by (by rewrite T, Z.eqb_refl).
  assert (Tm : threads s main = main_thread) by (by rewrite T, (proj2 (Z.eqb_neq main idle)), Z.eqb_refl).
  split; [|split; [exists idle; rewrite Ti; auto|exists main; by rewrite Tm]]. constructor.
  - constructor; [by rewrite Er| |done|set_solver|constructor]. intros p Hp. unfold rq_head. rewrite Er.
    assert (p = 0 \/ p = 1 \/ p = 2 \/ p = 3 \/ p = 4) as [->|[->|[->|[->| ->]]]] by lia; reflexivity.
  - constructor; [auto|done|set_solver|constructor|constructor].
  - constructor; [by intros q; rewrite Ew|by intros q _; rewrite Ew|done|set_solver|constructor|set_solver].
  - intros u _. unfold in_place. rewrite T. destruct (Z.eqb_spec u idle) as [->|Nu]; [cbn; by right|].
    destruct (Z.eqb_spec u main) as [->|]; [cbn|done]. by split.
  - intros u. rewrite T. repeat case_match; by split.
Qed.

(** ** Further facts for the properties *)
(** A switch changes the priority of no thread that is not boosted. *)
Lemma nolinks_switch now s c t u :
  t_is_boosted (threads s u) = false ->
  let a := threads (switch_to now (Some c) t s) u in
  t_is_boosted a = false /\ t_priority a = t_priority (threads s u).
Proof.
  intros Hb. unfold switch_to. cbn [upd_opt]. set (s1 := upd_th c (leave_cpu now) s).
  assert (H1 : t_is_boosted (threads s1 u) = false /\ t_priority (threads s1 u) = t_priority (threads s u)).
  { unfold s1. destruct (decide (u = c)) as [->|N]; [|by rewrite th_upd_ne]. rewrite th_upd_eq. unfold leave_cpu.
    destruct (0 <? _); cbn; rewrite Hb; cbn; auto. }
  match goal with |- context [upd_th t _ ?x] => set (s2 := x) end.
  assert (H2 : t_is_boosted (threads s2 u) = false /\ t_priority (threads s2 u) = t_priority (threads s u)).
  { unfold s2. destruct (_ || _); [|auto]. set (s' := upd_th c _ s1).
    assert (H' : t_is_boosted (threads s' u) = false /\ t_priority (threads s' u) = t_priority (threads s u)).
    { unfold s'. destruct (decide (u = c)) as [->|N]; [by rewrite th_upd_eq|by rewrite th_upd_ne]. }
    destruct (decide (t_state (threads s' c) = THREAD_STATE_RUNNING)) as [E|E].
    - unfold scheduler_enqueue, is_st. rewrite bool_decide_eq_true_2 by exact E. exact H'.
    - pose proof (nolinks_enqueue s' c u E) as NL. pose proof (f_equal t_is_boosted NL) as E1. pose proof (f_equal t_priority NL) as E2.
      cbn [nolinks t_is_boosted t_priority put_sched_prev put_sched_next] in E1, E2. rewrite E1, E2. destruct (u =? c); exact H'. }
  cbn [threads with_g_current_thread]. destruct (decide (u = t)) as [->|N]; [by rewrite th_upd_eq|by rewrite th_upd_ne].
Qed.
Lemma schedule_fields now s Q SL W c u :
  rep s Q SL W [] -> g_current_thread s = Some c -> t_is_boosted (threads s u) = false ->
  let a := threads (scheduler_schedule now s) u in
  t_is_boosted a = false /\ t_priority a = t_priority (threads s u).
Proof.
  intros R Hc Hb. unfold scheduler_schedule. destruct (g_scheduler_active s); cbn [negb]; [|auto]. rewrite Hc.
  destruct (pick_spec s Q SL W [] R) as [(p & t & l & s1 & _ & _ & Ep & E1 & _)|[_ Ep]]; rewrite Ep.
  - pose proof (nolinks_unlink t p s u) as NL. rewrite <- E1 in NL. pose proof (f_equal t_is_boosted NL) as B1.
    pose proof (f_equal t_priority NL) as B2. cbn [nolinks t_is_boosted t_priority put_sched_prev put_sched_next] in B1, B2.
    rewrite <- B2. case_bool_decide; [split; congruence|]. apply nolinks_switch. congruence.
  - destruct (g_idle_thread s) as [i|] eqn:Hi; [|by rewrite ?Hi]. case_bool_decide; [auto|]. by apply nolinks_switch.
Qed.
Lemma yield_two now s Q SL W a b l :
  wf_at s Q SL W -> g_scheduler_active s = true -> g_current_thread s = Some a -> Q 4 = b :: l ->
  t_is_boosted (threads s a) = false -> t_priority (threads s a) = 4 -> t_is_boosted (threads s b) = false ->
  let s' := thread_yield now s in
  exists Q', wf_at s' Q' SL W /\ g_scheduler_active s' = true /\ g_current_thread s' = Some b /\ Q' 4 = a :: l /\
    t_is_boosted (threads s' b) = false /\ t_priority (threads s' b) = 4 /\ t_is_boosted (threads s' a) = false.
Proof.
  intros H Ha Hc EQ Ba Pa Bb. pose proof H as (R & Hio & (c & Hc' & Hcs)). rewrite Hc in Hc'. injection Hc' as <-.
  assert (Hb : b ∈ Q 4) by (rewrite EQ; left). destruct (rep_q _ _ _ R 4 b Hb) as (Hbs & Hbp & _).
  unfold thread_yield. rewrite Ha. pose proof Hio as (i & Hi & _).
  destruct (wf_schedule_abs now s Q SL W a i H Ha Hc Hi) as (H' & C' & A' & _).
  destruct (schedule_fields now s Q SL W a b R Hc Bb) as (F1 & F2). destruct (schedule_fields now s Q SL W a a R Hc Ba) as (F3 & _).
  assert (E : abs_schedule i a (t_priority (leave_cpu now (threads s a))) true Q = (b, abs_push 4 a (<[4 := l]> Q))).
  { unfold abs_schedule. rewrite (abs_pick_head 5 i Q 4 b l); [|lia|auto|].
    - rewrite (proj2 (Z.eqb_neq b a)) by congruence. destruct (leave_cpu_spec now (threads s a)) as (_&_&_&_&->). by rewrite Ba, Pa.
    - intros r Hr. destruct (Q r) eqn:Er; [auto|]. exfalso. assert (0 <= r < 5) by (eapply rep_q_range; [exact R|by rewrite Er]). lia. }
  rewrite E in H', C'. cbn [fst snd] in *. exists (abs_push 4 a (<[4 := l]> Q)). split; [exact H'|].
  split_and!; auto. by rewrite F2.
Qed.

(** ** Demonstration states *)
Definition demo0 : sched := scheduler_start (initial 1 2 0).
Definition demo1 (p : Z) : sched := (thread_create (Some 3) true p 0 demo0).2.
Definition demo2 (p : Z) : sched := (thread_create (Some 4) true p 0 (demo1 p)).2.
Lemma th_start s : threads (scheduler_start s) = threads s.
Proof. reflexivity. Qed.
Lemma wqs_start s : wqs (scheduler_start s) = wqs s.
Proof. reflexivity. Qed.
Lemma wqs_upd_th t f s : wqs (upd_th t f s) = wqs s.
Proof. reflexivity. Qed.
Lemma th_init q s : threads (wait_queue_init q s) = threads s.
Proof. reflexivity. Qed.
Lemma wqs_upd_ne q v s r : r <> q -> wqs (upd_wq q v s) r = wqs s r.
Proof. intros N. cbn. by rewrite bool_decide_eq_false_2. Qed.
Lemma wf_start s Q SL W : wf_at s Q SL W -> wf_at (scheduler_start s) Q SL W.
Proof. intros H. by eapply wf_other. Qed.
Lemma demo0_wf : wf_at demo0 (fun _ => []) [] (fun _ => []).
Proof. apply wf_start, initial_wf. done. Qed.
Lemma demo1_wf p : 0 <= p < 5 -> wf_at (demo1 p) (abs_push p 3 (fun _ => [])) [] (fun _ => []).
Proof. intros Hp. apply (wf_new demo0 _ _ _ 3 (new_thread None p 0)); [apply demo0_wf|reflexivity|auto|by apply new_thread_pri|auto]. Qed.
Lemma demo0_fresh : fresh demo0 3.
Proof.
  destruct (initial_eq 1 2 0) as (T & Ew & _). split; unfold demo0; [by rewrite th_start, T|]. rewrite wqs_start. by rewrite Ew.
Qed.
Lemma demo1_fresh p : fresh (demo1 p) 4.
Proof.
  destruct (initial_eq 1 2 0) as (T & Ew & _). unfold demo1, thread_create. cbn [negb snd].
  set (s1 := upd_th 3 _ demo0). assert (E1 : t_state (threads s1 3) = THREAD_STATE_READY) by (unfold s1; by rewrite th_upd_eq).
  split.
  - rewrite st_enqueue by (rewrite th_init; by rewrite E1). rewrite th_init. unfold s1. rewrite th_upd_ne by done. unfold demo0. by rewrite th_start, T.
  - destruct (enqueue_rest (wait_queue_init (WQ_JOIN 3) s1) 3) as (_ & -> & _). unfold wait_queue_init. rewrite wqs_upd_ne by done.
    unfold s1. rewrite wqs_upd_th. unfold demo0. rewrite wqs_start. by rewrite Ew.
Qed.
Lemma demo2_wf p : 0 <= p < 5 -> wf_at (demo2 p) (abs_push p 4 (abs_push p 3 (fun _ => []))) [] (fun _ => []).
Proof.
  intros Hp. apply (wf_new (demo1 p) _ _ _ 4 (new_thread None p 0)); [by apply demo1_wf|apply (demo1_fresh p)|auto|by apply new_thread_pri|auto].
Qed.
Lemma enough_new fuel s t k : t_state k = THREAD_STATE_READY ->
  enough fuel s -> enough (S fuel) (scheduler_enqueue t (wait_queue_init (WQ_JOIN t) (upd_th t (fun _ => k) s))).
Proof.
  intros Hk (live & Hl & H). exists (t :: live). split; [cbn; lia|]. intros u.
  rewrite st_enqueue by (change (threads (wait_queue_init ?q ?x)) with (threads x); by rewrite th_upd_eq, Hk).
  destruct (Z.eqb_spec u t) as [->|N]; [left|]. change (threads (wait_queue_init (WQ_JOIN t) ?x)) with (threads x).
  rewrite th_upd_ne by auto. intros Hu. right. by apply H.
Qed.
Lemma demo2_enough p : enough 4 (demo2 p).
Proof.
  apply (enough_new 3 (demo1 p) 4 (new_thread None p 0)); [auto|]. apply (enough_new 2 demo0 3 (new_thread None p 0)); [auto|].
  exists [1; 2]. split; [auto|]. intros u. unfold demo0. rewrite th_start.
  destruct (initial_eq 1 2 0) as (T & _). rewrite T. destruct (Z.eqb_spec u 2) as [->|]; [set_solver|].
  destruct (Z.eqb_spec u 1) as [->|]; [set_solver|]. done.
Qed.
