(* ===== verification/SchedSpec.v ===== *)
(** What the scheduler of src/kernel/thread.c achieves, and where it fails:
    the properties proved from the invariant of Sched.v. *)
From stdpp Require Import relations functions.
From S2P Require Import Prelude Thread Sched.

(** Threads that yield one after the other. *)
Definition yields (nows : list Z) (s : sched) : sched := fold_left (fun s now => thread_yield now s) nows s.
Definition ticks_of (fuel : nat) (nows : list Z) (s : sched) : sched := fold_left (fun s now => scheduler_tick fuel now s) nows s.

(** A state with a sleeper: the main thread sleeps for 50 ticks. *)
Definition demo_sleep : sched := thread_sleep_ticks 4 0 50 (demo2 2).
(** A state in which the main thread waits on the join queue of thread 3. *)
Definition demo_wait : sched := wait_block (WQ_JOIN 3) 0 1 (wait_begin (WQ_JOIN 3) 0 30 1 (demo2 2)).

(** Three threads of UI priority, one of them running. *)
Definition demo3 : sched := (thread_create (Some 5) true 4 0 (demo2 4)).2.
Definition demo_ui : sched := thread_yield 0 demo3.

Lemma wf_states s Q SL W t :
  wf_at s Q SL W -> in_place s Q SL W t.
Proof. intros (R & _). apply R. set_solver. Qed.

(** Dequeuing and enqueuing a queue's head after its priority was changed. *)
Lemma requeue_wrong s Q SL W t l p p' f :
  wf_at s Q SL W -> Q p = t :: l -> 0 <= p' < 5 -> p' <> p ->
  (forall k, t_priority (f k) = p' /\ t_state (f k) = t_state k /\ t_sched_prev (f k) = t_sched_prev k /\ t_sched_next (f k) = t_sched_next k) ->
  let s' := scheduler_enqueue t (scheduler_dequeue t (upd_th t f s)) in
  rq_head s' p = Some t /\ rq_head s' p' = Some t /\ t_sched_next (threads s' t) = hd_or (Q p') None.
Proof.
  intros H EQ Hp' Np Hf. pose proof H as (R & _). assert (Ht : t ∈ Q p) by (rewrite EQ; left).
  destruct (rep_q _ _ _ R p t Ht) as (Hs & Hpr & _). assert (Hp : 0 <= p < 5) by (rewrite <- Hpr; apply R).
  destruct (dseg_ends (threads s) [] t l) as [Dp Dn]; [cbn [app]; rewrite <- EQ; apply R|].
  destruct (Hf (threads s t)) as (F1 & F2 & F3 & F4). rewrite Hs in F2. rewrite Dp in F3. rewrite Dn in F4. cbn [last_or] in F3.
  set (s1 := upd_th t f s). assert (E1 : threads s1 t = f (threads s t)) by apply th_upd_eq.
  assert (Eh : rq_head s p' = hd_or (Q p') None) by (apply R; lia).
  assert (Nh : hd_or (Q p') None <> Some t).
  { intros E%hd_or_in. destruct (rep_q _ _ _ R p' t E) as (_ & ? & _). congruence. }
  set (s2 := scheduler_dequeue t s1).
  assert (D : s2 = clear_links t (upd_opt (hd_or l None) (put_sched_prev None) s1)).
  { unfold s2, scheduler_dequeue, unlink. rewrite E1, F1, F3, F4, queue_index_ok by lia.
    change (rq_head s1 p') with (rq_head s p'). rewrite Eh. by rewrite bool_decide_eq_false_2 by auto. }
  assert (G2 : g_run_queues s2 = g_run_queues s) by (rewrite D; by destruct (hd_or l None)).
  assert (P2 : t_priority (threads s2 t) = p' /\ t_state (threads s2 t) = THREAD_STATE_READY).
  { rewrite D. unfold clear_links. rewrite th_upd_eq. cbn [t_priority t_state put_sched_prev put_sched_next].
    destruct (decide (hd_or l None = Some t)) as [->|N]; [rewrite th_opt_eq|rewrite th_opt_ne by auto]; rewrite E1; auto. }
  destruct P2 as [P2 S2]. assert (G3 : g_run_queues (scheduler_enqueue t s2) = wr (g_run_queues s) p' (Some t)).
  { rewrite enqueue_rq by (by rewrite S2). by rewrite P2, queue_index_ok, G2 by lia. }
  assert (Hl : length (g_run_queues s) = 5%nat) by apply R. unfold rq_head. rewrite G3.
  pose proof (rd_set_rq s p' (Some t) p Hl ltac:(lia) Hp) as X1. pose proof (rd_set_rq s p' (Some t) p' Hl ltac:(lia) ltac:(lia)) as X2.
  unfold rq_head in X1, X2. cbn in X1, X2. rewrite X1, X2, Z.eqb_refl, (proj2 (Z.eqb_neq p p')) by auto. split_and!; auto.
  - change (rq_head s p = Some t). rewrite (rep_head _ _ _ R) by auto. by rewrite EQ.
  - rewrite (enqueue_threads s2 t (hd_or (Q p') None)); [by rewrite linked_self|by rewrite S2| |auto].
    rewrite P2, queue_index_ok by lia. unfold rq_head. rewrite G2. symmetry. exact Eh.
Qed.
Lemma two_heads_not_wf s t p p' :
  0 <= p < 5 -> 0 <= p' < 5 -> p <> p' -> rq_head s p = Some t -> rq_head s p' = Some t -> ~ sched_wf s.
Proof.
  intros Hp Hp' N H1 H2 (Q & SL & W & (R & _)). rewrite (rep_head _ _ _ R) in H1, H2 by lia.
  apply hd_or_in in H1, H2. destruct (rep_q _ _ _ R p t H1) as (_ & ? & _), (rep_q _ _ _ R p' t H2) as (_ & ? & _). congruence.
Qed.

(** C13. From the initial state, every sequence of the operations that do not
    touch a queued or waiting thread from outside keeps the scheduler
    consistent: the linked structures are the lists they stand for, each
    thread is in the structure its state names and in no other (ready: the run
    queue of its priority; sleeping: the sleep queue, sorted by wake time;
    blocked: one wait queue), and exactly the current thread is running. *)
Theorem sched_reachable_wf main idle now s :
  main <> idle -> rtc sched_step (initial main idle now) s ->
  exists Q SL W, wf_at s Q SL W /\ (forall t, in_place s Q SL W t).
Proof.
  intros N St. assert (H : sched_wf s).
  { eapply rtc_preserves; [apply sched_step_wf|exact St|]. do 3 eexists. by apply initial_wf. }
  destruct H as (Q & SL & W & H). exists Q, SL, W. split; [auto|]. intros t. by apply wf_states.
Qed.
Lemma sched_reachable_wf_witness :
  exists Q SL W, wf_at (thread_yield 7 (demo2 2)) Q SL W /\ (forall t, in_place (thread_yield 7 (demo2 2)) Q SL W t).
Proof.
  apply (sched_reachable_wf 1 2 0); [done|].
  apply (rtc_l _ _ demo0); [exact (step_start _)|]. apply (rtc_l _ _ (demo1 2)).
  { refine (step_create (Some 3) true 2 0 demo0 _ _); [|lia]. intros t [= <-]. exact demo0_fresh. }
  apply (rtc_l _ _ (demo2 2)).
  { refine (step_create (Some 4) true 2 0 (demo1 2) _ _); [|lia]. intros t [= <-]. exact (demo1_fresh 2). }
  apply rtc_once. exact (step_yield 7 _).
Defined.


(** C15. A timer tick wakes exactly the sleepers whose time has come: with at
    least as many rounds as threads, every sleeping thread whose wake time is
    not later than the tick becomes ready and stands in the run queue of its
    priority, and every other sleeper sleeps on. *)
Theorem tick_wakes_sleepers fuel now s t :
  sched_wf s -> g_scheduler_active s = true -> enough fuel s -> t_state (threads s t) = THREAD_STATE_SLEEPING ->
  let s' := scheduler_tick fuel now s in
  exists Q SL W, wf_at s' Q SL W /\
    if t_wake_tick (threads s t) <=? now
    then t_state (threads s' t) = THREAD_STATE_READY /\ t ∈ Q (t_priority (threads s' t))
    else t_state (threads s' t) = THREAD_STATE_SLEEPING /\ t ∈ SL.
Proof.
  intros (Q & SL & W & H) Ha He Hs. pose proof H as (R & Hio & (c & Hc & Hcs)).
  destruct (tick_spec fuel now s Q SL W c H Ha Hc) as (Q' & a & b & SL' & H' & ESL & K & T & A & B & L).
  destruct (L He) as [L1 _]. assert (Nc : t <> c) by congruence. exists Q', SL', W. split; [exact H'|].
  pose proof (wf_states _ _ _ _ t H) as Ht. unfold in_place in Ht. rewrite Hs in Ht.
  pose proof (f_equal t_state (T t Nc)) as Es. pose proof (wf_states _ _ _ _ t H') as Ht'. unfold in_place in Ht'.
  assert (ND : NoDup SL) by apply R. rewrite ESL in ND. apply list.NoDup_app in ND as (_ & ND & _).
  destruct (Z.leb_spec (t_wake_tick (threads s t)) now) as [Hw|Hw].
  - assert (Hta : t ∈ a).
    { rewrite ESL in Ht. apply list.elem_of_app in Ht as [?|Ht]; [auto|]. specialize (L1 t Ht). lia. }
    assert (Es' : t_state (threads (scheduler_tick fuel now s) t) = THREAD_STATE_READY).
    { unfold ticked in Es. rewrite (bool_decide_eq_true_2 (t ∈ a)) in Es by auto. by case_bool_decide. }
    split; [auto|]. rewrite Es' in Ht'. destruct Ht' as [?|[Hi _]]; [auto|]. destruct Hio as (i & Hi' & His).
    rewrite (k_idle _ _ K) in Hi. destruct His; congruence.
  - assert (Hta : t ∉ a) by (intros Hta; specialize (A t Hta); lia).
    assert (Es' : t_state (threads (scheduler_tick fuel now s) t) = THREAD_STATE_SLEEPING).
    { unfold ticked in Es. rewrite (bool_decide_eq_false_2 (t ∈ a)) in Es by auto. cbn in Es. case_bool_decide; cbn in Es; congruence. }
    split; [auto|]. by rewrite Es' in Ht'.
Qed.
Lemma demo_sleep_ok : sched_wf demo_sleep /\ enough 4 demo_sleep.
Proof.
  destruct (wf_sleep 4 0 50 (demo2 2) _ _ _ 1 (demo2_wf 2 ltac:(lia))) as (Q & a & b & _ & H & Z & _);
    [vm_compute; reflexivity..|vm_compute; discriminate|apply demo2_enough|done|].
  split; [do 3 eexists; exact H|]. eapply enough_mono; [apply (demo2_enough 2)|exact Z].
Qed.
Lemma tick_wakes_sleepers_witness :
  t_state (threads (scheduler_tick 4 50 demo_sleep) 1) = THREAD_STATE_READY /\
  t_state (threads (scheduler_tick 4 49 demo_sleep) 1) = THREAD_STATE_SLEEPING.
Proof.
  destruct demo_sleep_ok as [H He]. split.
  - destruct (tick_wakes_sleepers 4 50 demo_sleep 1 H ltac:(vm_compute; reflexivity) He ltac:(vm_compute; reflexivity)) as (Q & SL & W & _ & E).
    assert (B : (t_wake_tick (threads demo_sleep 1) <=? 50) = true) by (vm_compute; reflexivity). rewrite B in E. apply E.
  - destruct (tick_wakes_sleepers 4 49 demo_sleep 1 H ltac:(vm_compute; reflexivity) He ltac:(vm_compute; reflexivity)) as (Q & SL & W & _ & E).
    assert (B : (t_wake_tick (threads demo_sleep 1) <=? 49) = false) by (vm_compute; reflexivity). rewrite B in E. apply E.
Defined.

(** Aging: a timer tick lifts every thread that has waited for
    [THREAD_AGING_THRESHOLD] ticks in a run queue below UI to the UI queue,
    marks it boosted and restarts its waiting time, and leaves the priority of
    the other queued threads alone. *)
Theorem tick_boosts_waiting fuel now s Q SL W t p :
  wf_at s Q SL W -> g_scheduler_active s = true -> enough fuel s -> t ∈ Q p -> p < THREAD_PRIORITY_UI ->
  let s' := scheduler_tick fuel now s in
  let k := threads s' t in
  t_state k = THREAD_STATE_READY /\
  if needs_boost now (threads s t)
  then t_priority k = THREAD_PRIORITY_UI /\ t_is_boosted k = true /\ t_wait_start_tick k = now /\
       (g_idle_thread s <> Some t -> exists Q' SL', wf_at s' Q' SL' W /\ t ∈ Q' THREAD_PRIORITY_UI)
  else t_priority k = p /\ t_is_boosted k = t_is_boosted (threads s t).
Proof.
  intros H Ha He Ht Hp. pose proof H as (R & Hio & (c & Hc & Hcs)).
  destruct (rep_q _ _ _ R p t Ht) as (Hs & Hpr & _). assert (Nc : t <> c) by congruence.
  destruct (tick_spec fuel now s Q SL W c H Ha Hc) as (Q' & a & b & SL' & H' & ESL & K & T & A & B & L).
  destruct (L He) as [_ L2]. specialize (T t Nc).
  assert (Hta : t ∉ a) by (intros Hta; destruct (rep_sl_in _ _ _ R t) as [? _]; [rewrite ESL; set_solver|congruence]).
  unfold ticked in T. rewrite (bool_decide_eq_false_2 (t ∈ a)) in T by auto.
  pose proof (f_equal t_state T) as E1. pose proof (f_equal t_priority T) as E2. pose proof (f_equal t_is_boosted T) as E3.
  pose proof (f_equal t_wait_start_tick T) as E4. set (k := threads (scheduler_tick fuel now s) t) in *.
  change (t_state (nolinks k)) with (t_state k) in E1. change (t_priority (nolinks k)) with (t_priority k) in E2.
  change (t_is_boosted (nolinks k)) with (t_is_boosted k) in E3. change (t_wait_start_tick (nolinks k)) with (t_wait_start_tick k) in E4.
  assert (Es : t_state k = THREAD_STATE_READY) by (rewrite E1; case_bool_decide; exact Hs). split; [auto|].
  destruct (needs_boost now (threads s t)) eqn:Hb.
  - assert (Hin : t ∈ b) by (apply L2; eauto). rewrite bool_decide_eq_true_2 in E2, E3, E4 by auto.
    split_and!; [exact E2|exact E3|exact E4|]. intros Ni. exists Q', SL'. split; [exact H'|].
    pose proof (wf_states _ _ _ _ t H') as Hm. unfold in_place in Hm. fold k in Hm. rewrite Es, E2 in Hm.
    destruct Hm as [Hm|[Hi _]]; [exact Hm|]. by rewrite (k_idle _ _ K) in Hi.
  - assert (Hin : t ∉ b) by (intros Hin; specialize (B t Hin); congruence). rewrite bool_decide_eq_false_2 in E2, E3 by auto.
    split; [exact (eq_trans E2 Hpr)|exact E3].
Qed.
Lemma tick_boosts_waiting_witness :
  let k := threads (scheduler_tick 4 100 (demo2 1)) 3 in t_priority k = THREAD_PRIORITY_UI /\ t_is_boosted k = true.
Proof.
  destruct (tick_boosts_waiting 4 100 (demo2 1) (abs_push 1 4 (abs_push 1 3 (fun _ => []))) [] (fun _ => []) 3 1) as [_ E];
    [apply demo2_wf; lia|vm_compute; reflexivity|apply demo2_enough|right; left|done|].
  assert (B : needs_boost 100 (threads (demo2 1) 3) = true) by (vm_compute; reflexivity). rewrite B in E.
  destruct E as (E1 & E2 & _). split; [exact E1|exact E2].
Defined.

(** The boost is lost together with the configured priority: when a
    boosted thread leaves the CPU its priority is recomputed from its nice
    value, not restored, so a thread whose priority was set directly does not
    get it back.  In particular the idle thread, once boosted, is queued as a
    normal thread. *)
Theorem boost_forgets_priority now k :
  let k' := leave_cpu now (boosted now k) in
  t_is_boosted k' = false /\ t_priority k' = scheduler_nice_to_priority (t_nice k) /\
  t_base_priority k' = scheduler_nice_to_priority (t_nice k) /\
  (t_nice k = 0 -> t_priority k' = THREAD_PRIORITY_NORMAL).
Proof.
  unfold leave_cpu, boosted. cbn. destruct (0 <? t_run_start_tick k); cbn; split_and!; auto; by intros ->.
Qed.

(** Changing the priority of a ready thread that heads its run queue
    corrupts the scheduler: [thread_set_priority] stores the new priority
    before [scheduler_dequeue] looks for the queue the thread is on, so the old
    queue keeps it as its head while it also becomes the head of the new one,
    and the threads behind it are on no queue any more. *)
Theorem set_priority_corrupts s Q SL W t l p p' :
  wf_at s Q SL W -> Q p = t :: l -> 0 <= p' < THREAD_PRIORITY_COUNT -> p' <> p ->
  let s' := thread_set_priority t p' s in
  rq_head s' p = Some t /\ rq_head s' p' = Some t /\ t_sched_next (threads s' t) = hd_or (Q p') None /\ ~ sched_wf s'.
Proof.
  intros H EQ Hp' Np. pose proof H as (R & _). assert (Ht : t ∈ Q p) by (rewrite EQ; left).
  destruct (rep_q _ _ _ R p t Ht) as (Hs & Hpr & _). assert (Hp : 0 <= p < 5) by (rewrite <- Hpr; apply R).
  unfold thread_set_priority, THREAD_PRIORITY_COUNT in *. destruct (Z.leb_spec 5 p'); [lia|].
  rewrite th_upd_eq. cbn [t_state put_base_priority put_priority]. rewrite Hs, Hpr, (proj2 (Z.eqb_neq p p')) by auto.
  change (is_st THREAD_STATE_READY THREAD_STATE_READY) with true. cbn [negb andb]. destruct (requeue_wrong s Q SL W t l p p' (fun k => put_base_priority p' (put_priority p' k))) as (H1 & H2 & H3); auto.
  split_and!; auto. apply (two_heads_not_wf _ t p p'); auto.
Qed.
Lemma set_priority_corrupts_witness :
  let s' := thread_set_priority 4 3 (demo2 2) in
  rq_head s' 2 = Some 4 /\ rq_head s' 3 = Some 4 /\ t_sched_next (threads s' 4) = None /\ ~ sched_wf s'.
Proof.
  apply (set_priority_corrupts (demo2 2) (abs_push 2 4 (abs_push 2 3 (fun _ => []))) [] (fun _ => []) 4 [3] 2 3);
    [apply demo2_wf; lia|reflexivity|unfold THREAD_PRIORITY_COUNT; lia|done].
Defined.

(** The run queues are last in, first out: a thread that yields goes to the
    front of its queue.  Two threads of UI priority that yield to each other
    therefore keep every other ready thread of that priority off the CPU, for
    any number of yields; aging does not apply to the UI queue. *)
Theorem yield_starves s Q SL W a b l nows :
  wf_at s Q SL W -> g_scheduler_active s = true -> g_current_thread s = Some a -> Q THREAD_PRIORITY_UI = b :: l ->
  t_is_boosted (threads s a) = false -> t_priority (threads s a) = THREAD_PRIORITY_UI -> t_is_boosted (threads s b) = false ->
  let s' := yields nows s in
  (g_current_thread s' = Some a \/ g_current_thread s' = Some b) /\
  forall u, u ∈ l -> t_state (threads s' u) = THREAD_STATE_READY.
Proof.
  unfold THREAD_PRIORITY_UI. revert s Q a b. induction nows as [|now nows IH]; intros s Q a b H Ha Hc EQ Ba Pa Bb; cbn.
  - split; [auto|]. intros u Hu. destruct (rep_q _ _ _ (proj1 H) 4 u) as [? _]; [rewrite EQ; by right|auto].
  - destruct (yield_two now s Q SL W a b l H Ha Hc EQ Ba Pa Bb) as (Q' & H' & Ha' & Hc' & EQ' & Bb' & Pb' & Ba').
    destruct (IH _ Q' b a H' Ha' Hc' EQ' Bb' Pb' Ba') as [E1 E2]. split; [tauto|auto].
Qed.
Lemma demo3_wf : wf_at demo3 (abs_push 4 5 (abs_push 4 4 (abs_push 4 3 (fun _ => [])))) [] (fun _ => []).
Proof.
  apply (wf_new (demo2 4) _ _ _ 5 (new_thread None 4 0)); [apply demo2_wf; lia|vm_compute; reflexivity|auto|by apply new_thread_pri|auto].
Qed.
Lemma demo_ui_wf : exists Q, wf_at demo_ui Q [] (fun _ => []) /\ Q 4 = [4; 3].
Proof.
  destruct (wf_schedule_abs 0 demo3 _ _ _ 1 2 demo3_wf) as (H & _); [vm_compute; reflexivity..|].
  eexists. split; [exact H|]. vm_compute. reflexivity.
Qed.
Lemma yield_starves_witness :
  t_state (threads (yields (replicate 1000 5) demo_ui) 3) = THREAD_STATE_READY.
Proof.
  destruct demo_ui_wf as (Q & H & EQ).
  destruct (yield_starves demo_ui Q [] (fun _ => []) 5 4 [3] (replicate 1000 5) H) as [_ E];
    [vm_compute; reflexivity|vm_compute; reflexivity|exact EQ|vm_compute; reflexivity..|]. apply E. left.
Defined.

(** Enqueuing the head of a queue again links it to itself. *)
Lemma enqueue_twice s t p :
  t_state (threads s t) <> THREAD_STATE_RUNNING -> t_priority (threads s t) = p -> 0 <= p < 5 -> length (g_run_queues s) = 5%nat ->
  rq_head s p = Some t ->
  rq_head (scheduler_enqueue t s) p = Some t /\ t_sched_next (threads (scheduler_enqueue t s) t) = Some t.
Proof.
  intros Hs Ep Hp Hl Hh. split.
  - unfold rq_head. rewrite enqueue_rq, Ep, queue_index_ok by auto.
    pose proof (rd_set_rq s p (Some t) p Hl Hp Hp) as E. unfold rq_head in E. cbn in E. by rewrite E, Z.eqb_refl.
  - unfold scheduler_enqueue, is_st. rewrite bool_decide_eq_false_2 by auto. rewrite Ep, queue_index_ok by auto.
    rewrite !rq_head_upd_th, Hh. cbn [upd_opt]. set (s1 := set_rq p _ _).
    assert (E1 : t_sched_next (threads s1 t) = Some t).
    { unfold s1. change (threads (set_rq p (Some t) ?x)) with (threads x). by rewrite !th_upd_eq. }
    destruct (negb _); [by rewrite th_upd_eq|auto].
Qed.
Lemma loop_not_wf s t p : 0 <= p < 5 -> rq_head s p = Some t -> t_sched_next (threads s t) = Some t -> ~ sched_wf s.
Proof.
  intros Hp Hh Hn (Q & SL & W & (R & _)). rewrite (rep_head _ _ _ R) in Hh by auto. pose proof (rep_dll _ _ _ R p) as D.
  pose proof (rep_q_nodup _ _ _ R p) as ND. destruct (Q p) as [|u l]; [done|]. cbn in Hh. injection Hh as ->. destruct D as (_ & D & _).
  apply list.NoDup_cons in ND as [ND _]. apply ND, hd_or_in. congruence.
Qed.

(** Killing a blocked thread corrupts the scheduler: [thread_kill] puts the
    thread on a run queue without taking it off its wait queue, and the next
    wake-up of that wait queue enqueues it a second time, so that it becomes
    its own successor and the rest of the run queue is lost. *)
Theorem kill_blocked_corrupts s Q SL W q t l status :
  wf_at s Q SL W -> is_sync q = false -> W q = t :: l ->
  let s' := wait_queue_wake_one q (thread_kill t status s) in
  let p := t_priority (threads s t) in
  rq_head s' p = Some t /\ t_sched_next (threads s' t) = Some t /\ ~ sched_wf s'.
Proof.
  intros H Hq EW. pose proof H as (R & _). destruct (rep_w_in _ _ _ R q t) as [Hs _]; [rewrite EW; left|].
  set (p := t_priority (threads s t)). assert (Hp : 0 <= p < 5) by apply R. assert (Hl : length (g_run_queues s) = 5%nat) by apply R.
  unfold thread_kill. set (s1 := upd_th t _ s). assert (E1 : t_state (threads s1 t) = THREAD_STATE_BLOCKED /\ t_priority (threads s1 t) = p).
  { unfold s1. by rewrite th_upd_eq. }
  destruct E1 as [E1 P1]. rewrite E1. change (is_st THREAD_STATE_BLOCKED THREAD_STATE_BLOCKED) with true. cbn [orb].
  unfold wake. set (s2 := upd_th t (put_state THREAD_STATE_READY) s1).
  assert (E2 : t_state (threads s2 t) = THREAD_STATE_READY /\ t_priority (threads s2 t) = p) by (unfold s2; by rewrite th_upd_eq).
  destruct E2 as [E2 P2]. set (s3 := scheduler_enqueue t s2).
  assert (NL : nolinks (threads s3 t) = put_state THREAD_STATE_READY (nolinks (threads s2 t))).
  { unfold s3. rewrite nolinks_enqueue by (by rewrite E2). by rewrite Z.eqb_refl. }
  assert (P3 : t_priority (threads s3 t) = p) by (rewrite <- P2; apply (f_equal t_priority NL)).
  assert (G3 : g_run_queues s3 = wr (g_run_queues s) p (Some t)).
  { unfold s3. rewrite enqueue_rq by (by rewrite E2). by rewrite P2, queue_index_ok. }
  assert (W3 : wq_head (wqs s3 q) = Some t).
  { destruct (enqueue_rest s2 t) as (_ & E & _). fold s3 in E. rewrite E. change (wqs s2 q) with (wqs s q).
    rewrite (rep_w_head _ _ _ R). by rewrite EW. }
  set (s4 := upd_th t (put_state THREAD_STATE_READY) (wait_queue_dequeue_locked q s3).2).
  assert (E' : wait_queue_wake_one q s3 = scheduler_enqueue t s4).
  { unfold s4, wait_queue_wake_one, wait_queue_dequeue_locked. by rewrite W3. }
  rewrite E'.
  assert (H4 : t_state (threads s4 t) = THREAD_STATE_READY /\ t_priority (threads s4 t) = p).
  { unfold s4, wait_queue_dequeue_locked. rewrite W3. cbn [snd]. rewrite !th_upd_eq, th_upd_wq. auto. }
  destruct H4 as [E4 P4]. assert (G4 : g_run_queues s4 = wr (g_run_queues s) p (Some t)) by (rewrite <- G3; unfold s4, wait_queue_dequeue_locked; by rewrite W3).
  destruct (enqueue_twice s4 t p) as [A B]; [by rewrite E4|exact P4|exact Hp| | |].
  - rewrite G4. pose proof (len_set_rq s p (Some t)) as E. cbn in E. by rewrite E.
  - unfold rq_head. rewrite G4. pose proof (rd_set_rq s p (Some t) p Hl Hp Hp) as E. unfold rq_head in E. cbn in E. by rewrite E, Z.eqb_refl.
  - split; [exact A|split; [exact B|]]. by apply (loop_not_wf _ t p).
Qed.
Lemma demo_wait_wf : exists Q, wf_at demo_wait Q [] (<[WQ_JOIN 3 := [1]]> (fun _ => [])).
Proof.
  destruct (wf_wait (WQ_JOIN 3) 0 30 (demo2 2) _ _ _ 1 (demo2_wf 2 ltac:(lia))) as (Q & H & _);
    [vm_compute; reflexivity..|vm_compute; discriminate|reflexivity|]. exists Q. exact H.
Qed.
Lemma kill_blocked_corrupts_witness :
  let s' := wait_queue_wake_one (WQ_JOIN 3) (thread_kill 1 0 demo_wait) in
  t_sched_next (threads s' 1) = Some 1 /\ ~ sched_wf s'.
Proof.
  destruct demo_wait_wf as (Q & H).
  destruct (kill_blocked_corrupts demo_wait Q [] (<[WQ_JOIN 3 := [1]]> (fun _ => [])) (WQ_JOIN 3) 1 [] 0 H eq_refl) as (_ & E & N);
    [by rewrite fn_lookup_insert|]. split; [exact E|exact N].
Defined.

(** A wait with a timeout never times out: the thread is on a wait queue
    only, and [check_thread_timeouts] looks at nothing, so however many ticks
    pass, at whatever times, a blocked thread stays blocked, and its result
    never becomes [-ETIMEDOUT]. *)
Theorem timeout_never_fires fuel nows s t :
  sched_wf s -> g_scheduler_active s = true -> t_state (threads s t) = THREAD_STATE_BLOCKED ->
  let s' := ticks_of fuel nows s in
  t_state (threads s' t) = THREAD_STATE_BLOCKED /\ t_wait_result (threads s' t) = t_wait_result (threads s t).
Proof.
  intros H Ha Ht. revert s H Ha Ht. induction nows as [|now nows IH]; intros s (Q & SL & W & H) Ha Ht; cbn; [auto|].
  pose proof H as (R & _ & (c & Hc & Hcs)). assert (N : t <> c) by congruence.
  destruct (tick_spec fuel now s Q SL W c H Ha Hc) as (Q' & a & b & SL' & H' & ESL & K & T & _). specialize (T t N).
  assert (Hta : t ∉ a) by (intros Hta; destruct (rep_sl_in _ _ _ R t) as [? _]; [rewrite ESL; set_solver|congruence]).
  unfold ticked in T. rewrite (bool_decide_eq_false_2 (t ∈ a)) in T by auto.
  pose proof (f_equal t_state T) as E1. pose proof (f_equal t_wait_result T) as E2.
  set (s1 := scheduler_tick fuel now s) in *.
  assert (F : t_state (threads s1 t) = t_state (threads s t) /\ t_wait_result (threads s1 t) = t_wait_result (threads s t))
    by (case_bool_decide; split; [exact E1|exact E2|exact E1|exact E2]).
  destruct F as [F1 F2]. destruct (IH s1) as [G1 G2]; [by do 3 eexists|by rewrite (k_act _ _ K)|congruence|].
  split; [exact G1|]. exact (eq_trans G2 F2).
Qed.
Lemma timeout_never_fires_witness :
  t_timeout_tick (threads demo_wait 1) = 30 /\
  t_state (threads (ticks_of 4 [10; 20; 30; 40; 100000] demo_wait) 1) = THREAD_STATE_BLOCKED.
Proof.
  split; [vm_compute; reflexivity|]. destruct demo_wait_wf as (Q & H).
  apply (timeout_never_fires 4 [10; 20; 30; 40; 100000] demo_wait 1); [by do 3 eexists|vm_compute; reflexivity..].
Defined.
