(* ===== verification/Sync.v ===== *)
(** Mutexes, semaphores, condition variables and read-write locks
    (src/kernel/sync.c, src/kernel/sync.h) over the scheduler of Thread.v.

    The queues of waiting threads are linked by hand in the source, with the
    same fields as the wait queues of the scheduler; an object names them by
    address.  A call of [scheduler_schedule] inside a loop ends a step: the
    round of the loop is one definition, which says whether the thread got
    through or gave up the CPU, and [..._resume] is the next round.  [fuel]
    bounds the walk to the end of a queue, and [now] is the tick count. *)
From S2P Require Import Prelude Thread.

(** ** Atomic counters (src/kernel/atomic.h) *)
Definition atomic_inc (v : Z) : Z := s32 (v + 1).
Definition atomic_dec (v : Z) : Z := s32 (v - 1).

(** ** Queues of waiting threads *)
(** [while ( *tail) tail = &( *tail)->wait_queue_next] from a thread on. *)
Fixpoint wq_end (fuel : nat) (s : sched) (t : Z) : Z :=
  match fuel, (s.(threads) t).(t_wait_queue_next) with
  | S fuel', Some n => wq_end fuel' s n
  | _, _ => t
  end.
Definition link_waiter (fuel : nat) (q : wq) (t : Z) (s : sched) : sched :=
  let w := s.(wqs) q in
  let s :=
    match w.(wq_head) with
    | Some h => upd_th (wq_end fuel s h) (put_wait_queue_next (Some t)) s
    | None => upd_wq q (mk_wq (Some t) w.(wq_tail)) s
    end in
  let s := upd_th t (put_wait_queue_next None) s in
  let w := s.(wqs) q in
  upd_wq q (mk_wq w.(wq_head) (match w.(wq_tail) with Some x => Some x | None => Some t end)) s.
Definition block_on (fuel : nat) (q : wq) (st : thread_state_t) (t : Z) (s : sched) : sched :=
  link_waiter fuel q t (upd_th t (fun k => put_waiting_queue (Some q) (put_state st k)) s).

(** Wake the first waiting thread; [f] is what else is done to it. *)
Definition wake_head (q : wq) (f : thread -> thread) (s : sched) : sched :=
  match (s.(wqs) q).(wq_head) with
  | None => s
  | Some t =>
      let next := (s.(threads) t).(t_wait_queue_next) in
      let s := upd_wq q (mk_wq next (match next with Some _ => (s.(wqs) q).(wq_tail) | None => None end)) s in
      scheduler_enqueue t (upd_th t (fun k => put_state THREAD_STATE_READY (f (put_wait_queue_next None k))) s)
  end.
(** Wake them all: the loop, then [tail = NULL]. *)
Fixpoint drain (fuel : nat) (q : wq) (f : thread -> thread) (s : sched) : sched :=
  match fuel, (s.(wqs) q).(wq_head) with
  | S fuel', Some t =>
      let s := upd_wq q (mk_wq (s.(threads) t).(t_wait_queue_next) (s.(wqs) q).(wq_tail)) s in
      drain fuel' q f
        (scheduler_enqueue t (upd_th t (fun k => put_state THREAD_STATE_READY (f (put_wait_queue_next None k))) s))
  | _, _ => s
  end.
Definition wake_waiters (fuel : nat) (q : wq) (f : thread -> thread) (s : sched) : sched :=
  let s := drain fuel q f s in upd_wq q (mk_wq (s.(wqs) q).(wq_head) None) s.
Definition resumed (t : Z) (s : sched) : sched := upd_th t (put_waiting_queue None) s.

(** ** Mutex *)
Inductive mutex_type_t := MUTEX_TYPE_NORMAL | MUTEX_TYPE_RECURSIVE | MUTEX_TYPE_ERRORCHECK.
Record mutex_t := mk_mutex {
  m_waiters : wq;
  m_owner : option Z;
  m_recursion_count : Z;
  m_type : mutex_type_t;
  m_owner_original_priority : Z
}.
Definition mutex_init (q : wq) (type : mutex_type_t) (s : sched) : mutex_t * sched :=
  (mk_mutex q None 0 type THREAD_PRIORITY_NORMAL, wait_queue_init q s).

Definition with_recursion (m : mutex_t) (n : Z) : mutex_t :=
  mk_mutex m.(m_waiters) m.(m_owner) n m.(m_type) m.(m_owner_original_priority).
Definition mutex_apply_priority_inheritance (m : mutex_t) (waiter : Z) (s : sched) : mutex_t * sched :=
  match m.(m_owner) with
  | None => (m, s)
  | Some o =>
      let ok := s.(threads) o in
      let wp := (s.(threads) waiter).(t_priority) in
      if ok.(t_priority) <? wp then
        (if ok.(t_priority) =? ok.(t_base_priority)
         then mk_mutex m.(m_waiters) m.(m_owner) m.(m_recursion_count) m.(m_type) ok.(t_base_priority) else m,
         upd_th o (put_priority wp) s)
      else (m, s)
  end.
Definition mutex_restore_priority (m : mutex_t) (s : sched) : sched :=
  match m.(m_owner) with
  | None => s
  | Some o => upd_th o (fun k => put_priority k.(t_base_priority) k) s
  end.

Definition acquired (m : mutex_t) (c : Z) (s : sched) : mutex_t :=
  mk_mutex m.(m_waiters) (Some c) 1 m.(m_type) (s.(threads) c).(t_base_priority).
(** One round of [while (mutex->owner != NULL)]; [None] is the CPU given up. *)
Definition mutex_lock_round (fuel : nat) (now c : Z) (m : mutex_t) (s : sched) : option Z * (mutex_t * sched) :=
  match m.(m_owner) with
  | None => (Some 0, (acquired m c s, s))
  | Some _ =>
      let '(m, s) := mutex_apply_priority_inheritance m c s in
      (None, (m, scheduler_schedule now (block_on fuel m.(m_waiters) THREAD_STATE_BLOCKED c s)))
  end.
Definition mutex_lock (fuel : nat) (now : Z) (m : mutex_t) (s : sched) : option Z * (mutex_t * sched) :=
  match s.(g_current_thread) with
  | None => (Some (-1), (m, s))
  | Some c =>
      if bool_decide (m.(m_owner) = Some c) then
        match m.(m_type) with
        | MUTEX_TYPE_RECURSIVE => (Some 0, (with_recursion m (u32 (m.(m_recursion_count) + 1)), s))
        | MUTEX_TYPE_ERRORCHECK => (Some (-1), (m, s))
        | MUTEX_TYPE_NORMAL => mutex_lock_round fuel now c m s
        end
      else mutex_lock_round fuel now c m s
  end.
Definition mutex_lock_resume (fuel : nat) (now c : Z) (m : mutex_t) (s : sched) : option Z * (mutex_t * sched) :=
  mutex_lock_round fuel now c m (resumed c s).

Definition mutex_trylock (m : mutex_t) (s : sched) : bool * mutex_t :=
  match s.(g_current_thread) with
  | None => (false, m)
  | Some c =>
      match m.(m_owner), m.(m_type) with
      | Some o, MUTEX_TYPE_RECURSIVE =>
          if o =? c then (true, with_recursion m (u32 (m.(m_recursion_count) + 1))) else (false, m)
      | Some _, _ => (false, m)
      | None, _ => (true, acquired m c s)
      end
  end.

Definition released (m : mutex_t) : mutex_t :=
  mk_mutex m.(m_waiters) None 0 m.(m_type) m.(m_owner_original_priority).
Definition mutex_unlock (m : mutex_t) (s : sched) : Z * (mutex_t * sched) :=
  match s.(g_current_thread) with
  | None => (-1, (m, s))
  | Some c =>
      if negb (bool_decide (m.(m_owner) = Some c)) then (-1, (m, s))
      else
        match m.(m_type), 1 <? m.(m_recursion_count) with
        | MUTEX_TYPE_RECURSIVE, true => (0, (with_recursion m (m.(m_recursion_count) - 1), s))
        | _, _ => (0, (released m, wake_head m.(m_waiters) (fun k => k) (mutex_restore_priority m s)))
        end
  end.
Definition mutex_is_owner (m : mutex_t) (s : sched) : bool := bool_decide (m.(m_owner) = s.(g_current_thread)).
Definition mutex_is_locked (m : mutex_t) : bool := bool_decide (m.(m_owner) <> None).

(** ** Counting semaphore *)
Record semaphore_t := mk_sem { sem_waiters : wq; sem_count : Z; sem_max_count : Z }.
Definition with_count (m : semaphore_t) (n : Z) : semaphore_t := mk_sem m.(sem_waiters) n m.(sem_max_count).
Definition semaphore_init (q : wq) (initial_count max_count : Z) (s : sched) : semaphore_t * sched :=
  (mk_sem q initial_count max_count, wait_queue_init q s).

(** One round of [while (atomic_load(&sem->count) <= 0)]; [false] is the CPU
    given up. *)
Definition sem_wait_round (fuel : nat) (now c : Z) (m : semaphore_t) (s : sched) : bool * (semaphore_t * sched) :=
  if m.(sem_count) <=? 0
  then (false, (m, scheduler_schedule now (block_on fuel m.(sem_waiters) THREAD_STATE_BLOCKED c s)))
  else (true, (with_count m (atomic_dec m.(sem_count)), s)).
Definition sem_wait (fuel : nat) (now : Z) (m : semaphore_t) (s : sched) : bool * (semaphore_t * sched) :=
  match s.(g_current_thread) with
  | None => (true, (m, s))
  | Some c => sem_wait_round fuel now c m s
  end.
Definition sem_wait_resume (fuel : nat) (now c : Z) (m : semaphore_t) (s : sched) : bool * (semaphore_t * sched) :=
  sem_wait_round fuel now c m (resumed c s).
Definition sem_trywait (m : semaphore_t) : bool * semaphore_t :=
  if 0 <? m.(sem_count) then (true, with_count m (atomic_dec m.(sem_count))) else (false, m).

(** One round of [sem_timedwait], which began at [start]: [None] is the CPU
    given up. *)
Definition sem_timedwait_round (fuel : nat) (now start timeout c : Z) (m : semaphore_t) (s : sched) :
  option bool * (semaphore_t * sched) :=
  if m.(sem_count) <=? 0 then
    if timeout <=? u64 (now - start) then (Some false, (m, s))
    else
      let s := block_on fuel m.(sem_waiters) THREAD_STATE_BLOCKED c s in
      let s := upd_th c (fun k => put_state THREAD_STATE_SLEEPING (put_wake_tick (u64 (start + timeout)) k)) s in
      (None, (m, scheduler_schedule now s))
  else (Some true, (with_count m (atomic_dec m.(sem_count)), s)).
Definition sem_timedwait (fuel : nat) (now timeout : Z) (m : semaphore_t) (s : sched) : option bool * (semaphore_t * sched) :=
  match s.(g_current_thread) with
  | None => (Some false, (m, s))
  | Some c => sem_timedwait_round fuel now now timeout c m s
  end.
Definition sem_timedwait_resume (fuel : nat) (now start timeout c : Z) (m : semaphore_t) (s : sched) :
  option bool * (semaphore_t * sched) :=
  sem_timedwait_round fuel now start timeout c m
    (upd_th c (fun k => put_wake_tick 0 (put_waiting_queue None k)) s).

Definition sem_post (m : semaphore_t) (s : sched) : Z * (semaphore_t * sched) :=
  if (0 <? m.(sem_max_count)) && (m.(sem_max_count) <=? u32 m.(sem_count)) then (-1, (m, s))
  else (0, (with_count m (atomic_inc m.(sem_count)), wake_head m.(sem_waiters) (fun k => k) s)).
Definition sem_getvalue (m : semaphore_t) : Z := m.(sem_count).

(** ** Condition variable *)
Record condvar_t := mk_cv { cv_waiters : wq; cv_signal_count : Z }.
Definition condvar_init (q : wq) (s : sched) : condvar_t * sched := (mk_cv q 0, wait_queue_init q s).

(** [condvar_wait] up to the loop, and the loop: a kernel thread gives up the
    CPU, a user thread goes on at once.  The mutex is locked again by
    [mutex_lock], after which [condvar_wait_end] runs. *)
Definition condvar_wait_begin (fuel : nat) (c : Z) (v : condvar_t) (m : mutex_t) (s : sched) : mutex_t * sched :=
  let s := block_on fuel v.(cv_waiters) THREAD_STATE_BLOCKED c s in
  let '(_, (m, s)) := mutex_unlock m s in
  (m, upd_th c (put_needs_yield true) s).
Definition condvar_wait_loop (now c : Z) (s : sched) : sched :=
  if is_st (s.(threads) c).(t_state) THREAD_STATE_BLOCKED then
    match (s.(threads) c).(t_owner) with
    | None => scheduler_schedule now s
    | Some _ => s
    end
  else s.
Definition condvar_wait (fuel : nat) (now : Z) (v : condvar_t) (m : mutex_t) (s : sched) : mutex_t * sched :=
  match s.(g_current_thread) with
  | None => (m, s)
  | Some c => let '(m, s) := condvar_wait_begin fuel c v m s in (m, condvar_wait_loop now c s)
  end.
Definition condvar_wait_end (c : Z) (s : sched) : sched :=
  upd_th c (fun k => put_needs_yield false (put_waiting_queue None k)) s.

Definition condvar_timedwait (fuel : nat) (now timeout : Z) (v : condvar_t) (m : mutex_t) (s : sched) : mutex_t * sched :=
  match s.(g_current_thread) with
  | None => (m, s)
  | Some c =>
      let s := upd_th c (put_wake_tick (u64 (now + timeout))) s in
      let s := block_on fuel v.(cv_waiters) THREAD_STATE_SLEEPING c s in
      let '(_, (m, s)) := mutex_unlock m s in
      (m, scheduler_schedule now s)
  end.
(** What follows the return of [scheduler_schedule], before the mutex is locked
    again; the result is [timed_out]. *)
Definition condvar_timedwait_end (fuel : nat) (now start timeout c : Z) (v : condvar_t) (s : sched) : bool * sched :=
  let timed_out := timeout <=? u64 (now - start) in
  let s :=
    if timed_out then
      match wq_search fuel s c None (s.(wqs) v.(cv_waiters)).(wq_head) with
      | None => s
      | Some prev =>
          let w := s.(wqs) v.(cv_waiters) in
          let next := (s.(threads) c).(t_wait_queue_next) in
          let '(head, s) :=
            match prev with
            | Some p => (w.(wq_head), upd_th p (put_wait_queue_next next) s)
            | None => (next, s)
            end in
          upd_wq v.(cv_waiters) (mk_wq head (if bool_decide (w.(wq_tail) = Some c) then next else w.(wq_tail))) s
      end
    else s in
  (timed_out, upd_th c (fun k => put_wake_tick 0 (put_waiting_queue None k)) s).

Definition signalled (v : condvar_t) : condvar_t := mk_cv v.(cv_waiters) (u32 (v.(cv_signal_count) + 1)).
Definition condvar_signal (v : condvar_t) (s : sched) : condvar_t * sched :=
  (signalled v, wake_head v.(cv_waiters) (put_wake_tick 0) s).
Definition condvar_broadcast (fuel : nat) (v : condvar_t) (s : sched) : condvar_t * sched :=
  (signalled v, wake_waiters fuel v.(cv_waiters) (put_wake_tick 0) s).

(** ** Read-write lock *)
Inductive rwlock_preference_t := RWLOCK_PREFER_WRITER | RWLOCK_PREFER_READER.
#[export] Instance rwlock_preference_eq_dec : EqDecision rwlock_preference_t.
Proof. solve_decision. Defined.
Record rwlock_t := mk_rw {
  rw_readers : wq;
  rw_writers : wq;
  rw_reader_count : Z;
  rw_writer : option Z;
  rw_writer_wait_count : Z;
  rw_preference : rwlock_preference_t
}.
Definition with_readers (r : rwlock_t) (n : Z) : rwlock_t :=
  mk_rw r.(rw_readers) r.(rw_writers) n r.(rw_writer) r.(rw_writer_wait_count) r.(rw_preference).
Definition with_writer (r : rwlock_t) (w : option Z) : rwlock_t :=
  mk_rw r.(rw_readers) r.(rw_writers) r.(rw_reader_count) w r.(rw_writer_wait_count) r.(rw_preference).
Definition with_wait_count (r : rwlock_t) (n : Z) : rwlock_t :=
  mk_rw r.(rw_readers) r.(rw_writers) r.(rw_reader_count) r.(rw_writer) n r.(rw_preference).
Definition prefers_writer (r : rwlock_t) : bool := bool_decide (r.(rw_preference) = RWLOCK_PREFER_WRITER).

Definition rwlock_init (readers writers : wq) (preference : rwlock_preference_t) (s : sched) : rwlock_t * sched :=
  (mk_rw readers writers 0 None 0 preference, wait_queue_init writers (wait_queue_init readers s)).

(** Readers *)
Definition reader_blocked (r : rwlock_t) : bool :=
  bool_decide (r.(rw_writer) <> None) || (prefers_writer r && (0 <? r.(rw_writer_wait_count))).
Definition rdlock_round (fuel : nat) (now c : Z) (r : rwlock_t) (s : sched) : bool * (rwlock_t * sched) :=
  if reader_blocked r
  then (false, (r, scheduler_schedule now (block_on fuel r.(rw_readers) THREAD_STATE_BLOCKED c s)))
  else (true, (with_readers r (atomic_inc r.(rw_reader_count)), s)).
Definition rwlock_rdlock (fuel : nat) (now : Z) (r : rwlock_t) (s : sched) : bool * (rwlock_t * sched) :=
  match s.(g_current_thread) with
  | None => (true, (r, s))
  | Some c => rdlock_round fuel now c r s
  end.
Definition rdlock_resume (fuel : nat) (now c : Z) (r : rwlock_t) (s : sched) : bool * (rwlock_t * sched) :=
  rdlock_round fuel now c r (resumed c s).
Definition rwlock_tryrdlock (r : rwlock_t) : bool * rwlock_t :=
  if bool_decide (r.(rw_writer) = None)
     && (bool_decide (r.(rw_preference) = RWLOCK_PREFER_READER) || (r.(rw_writer_wait_count) =? 0))
  then (true, with_readers r (atomic_inc r.(rw_reader_count))) else (false, r).
Definition rwlock_rdunlock (r : rwlock_t) (s : sched) : rwlock_t * sched :=
  let n := atomic_dec r.(rw_reader_count) in
  (with_readers r n, if n =? 0 then wake_head r.(rw_writers) (fun k => k) s else s).

(** Writers *)
Definition wrlock_round (fuel : nat) (now c : Z) (r : rwlock_t) (s : sched) : bool * (rwlock_t * sched) :=
  if bool_decide (r.(rw_writer) <> None) || (0 <? r.(rw_reader_count))
  then (false, (r, scheduler_schedule now (block_on fuel r.(rw_writers) THREAD_STATE_BLOCKED c s)))
  else (true, (with_writer (with_wait_count r (u32 (r.(rw_writer_wait_count) - 1))) (Some c), s)).
Definition rwlock_wrlock (fuel : nat) (now : Z) (r : rwlock_t) (s : sched) : bool * (rwlock_t * sched) :=
  match s.(g_current_thread) with
  | None => (true, (r, s))
  | Some c => wrlock_round fuel now c (with_wait_count r (u32 (r.(rw_writer_wait_count) + 1))) s
  end.
Definition wrlock_resume (fuel : nat) (now c : Z) (r : rwlock_t) (s : sched) : bool * (rwlock_t * sched) :=
  wrlock_round fuel now c r (resumed c s).
Definition rwlock_trywrlock (r : rwlock_t) (s : sched) : bool * rwlock_t :=
  match s.(g_current_thread) with
  | None => (false, r)
  | Some c =>
      if bool_decide (r.(rw_writer) = None) && (r.(rw_reader_count) =? 0)
      then (true, with_writer r (Some c)) else (false, r)
  end.
Definition rwlock_wrunlock (fuel : nat) (r : rwlock_t) (s : sched) : rwlock_t * sched :=
  match s.(g_current_thread) with
  | None => (r, s)
  | Some c =>
      if negb (bool_decide (r.(rw_writer) = Some c)) then (r, s)
      else
        let r := with_writer r None in
        if prefers_writer r && bool_decide ((s.(wqs) r.(rw_writers)).(wq_head) <> None)
        then (r, wake_head r.(rw_writers) (fun k => k) s)
        else
          let s := wake_waiters fuel r.(rw_readers) (fun k => k) s in
          (r, if r.(rw_reader_count) =? 0 then wake_head r.(rw_writers) (fun k => k) s else s)
  end.

(** Conversions *)
Definition rwlock_upgrade (r : rwlock_t) (s : sched) : bool * rwlock_t :=
  match s.(g_current_thread) with
  | None => (false, r)
  | Some c =>
      if r.(rw_reader_count) =? 0 then (false, r)
      else if (r.(rw_reader_count) =? 1) && bool_decide (r.(rw_writer) = None)
      then (true, with_writer (with_readers r (atomic_dec r.(rw_reader_count))) (Some c))
      else (false, r)
  end.
Definition rwlock_downgrade (fuel : nat) (r : rwlock_t) (s : sched) : rwlock_t * sched :=
  match s.(g_current_thread) with
  | None => (r, s)
  | Some c =>
      if negb (bool_decide (r.(rw_writer) = Some c)) then (r, s)
      else (with_readers (with_writer r None) (atomic_inc r.(rw_reader_count)), wake_waiters fuel r.(rw_readers) (fun k => k) s)
  end.
