(* ===== verification/SyncSpec.v ===== *)
(** What the objects of src/kernel/sync.c guarantee over the scheduler: no
    wake-up is lost, counts stay in range, and readers exclude writers; and
    where they fail. *)
From stdpp Require Import relations functions.
From S2P Require Import Prelude Thread Sched SchedSpec Sync.

(** ** Queues of waiting threads *)
Lemma wq_end_last fuel s h l :
  chain (wait_next_of s) (h :: l) None -> (length l <= fuel)%nat -> last_or None (h :: l) = Some (wq_end fuel s h).
Proof.
  revert h l; induction fuel as [|fuel IH]; intros h l [En C] Hl; unfold wait_next_of in En; cbn [wq_end].
  - destruct l; [auto|cbn in Hl; lia].
  - rewrite En. destruct l as [|n l]; [auto|]. cbn [hd_or]. change (last_or None (n :: l) = Some (wq_end fuel s n)). apply IH; [auto|cbn in Hl; lia].
Qed.
Lemma rep_block s Q SL W X c q fuel :
  rep s Q SL W (c :: X) -> c ∉ X -> is_sync q = true -> (length (W q) <= fuel)%nat ->
  rep (block_on fuel q THREAD_STATE_BLOCKED c s) Q SL (<[q := W q ++ [c]]> W) X.
Proof.
  intros R HX Hq Hf. destruct (rep_flight_nowhere _ _ _ _ _ c R) as (Nq & Ns & Nw); [left|].
  unfold block_on, link_waiter. set (s1 := upd_th c _ s). change (wqs s1) with (wqs s). rewrite (rep_w_head _ _ _ R).
  assert (T1 : forall u, threads s1 u = if u =? c then put_waiting_queue (Some q) (put_state THREAD_STATE_BLOCKED (threads s u)) else threads s u) by reflexivity.
  assert (N1 : forall u, wait_next_of s1 u = wait_next_of s u) by (intros u; unfold wait_next_of; rewrite T1; by destruct (u =? c)).
  destruct (hd_or (W q) None) as [h|] eqn:EH.
  2: assert (EW : W q = []) by (by destruct (W q)).
  2: set (s2 := upd_wq q _ s1); eapply rep_wq_append with (s := s); eauto; try reflexivity.
  - assert (EL : last_or None (W q) = Some (wq_end fuel s1 h)).
    { destruct (W q) as [|h' l] eqn:EW; [done|]. injection EH as ->. apply wq_end_last; [|cbn in Hf; lia]. eapply seg_frame; [|pose proof (rep_w_chain _ _ _ R q) as C; rewrite EW in C; exact C].
      intros u _. apply N1. }
    set (e := wq_end fuel s1 h) in *. assert (Ne : e <> c) by (intros ->; apply (Nw q), last_or_in, EL).
    eapply rep_wq_append with (s := s); eauto; try reflexivity.
    + intros u. exists (if u =? c then Some q else t_waiting_queue (threads s u)). rewrite th_upd_wq. unfold spliced. rewrite EL.
      destruct (Z.eqb_spec u c) as [->|N]; [rewrite th_upd_eq, th_upd_ne, T1, Z.eqb_refl by auto; reflexivity|].
      rewrite th_upd_ne by auto. destruct (decide (e = u)) as [->|Ne'].
      * rewrite th_upd_eq, T1, (proj2 (Z.eqb_neq u c)), bool_decide_eq_true_2 by auto. by destruct (threads s u).
      * rewrite th_upd_ne by auto. rewrite T1, (proj2 (Z.eqb_neq u c)), bool_decide_eq_false_2 by (auto || congruence).
        unfold wait_next_of. by rewrite put_wait_next_id.
    + intros r N. cbn. by rewrite bool_decide_eq_false_2.
    + cbn. rewrite bool_decide_eq_true_2 by done. cbn. change (wq_head (wqs s q) = hd_or (W q ++ [c]) None).
      rewrite (rep_w_head _ _ _ R), hd_or_app, EH. by destruct (W q).
    + congruence.
  - intros u. exists (if u =? c then Some q else t_waiting_queue (threads s u)). rewrite th_upd_wq. unfold spliced. rewrite EW. cbn [last_or].
    destruct (Z.eqb_spec u c) as [->|N]; [rewrite th_upd_eq; unfold s2; rewrite th_upd_wq, T1, Z.eqb_refl; reflexivity|].
    rewrite th_upd_ne by auto. unfold s2. rewrite th_upd_wq, T1, (proj2 (Z.eqb_neq u c)) by auto. rewrite bool_decide_eq_false_2 by done.
    unfold wait_next_of. by rewrite put_wait_next_id.
  - intros r N. unfold s2. cbn. by rewrite !bool_decide_eq_false_2.
  - rewrite EW. cbn. rewrite bool_decide_eq_true_2 by done. cbn. unfold s2. done.
  - congruence.
Qed.
(** What waking may do to the woken thread besides making it ready. *)
Definition mild (f : thread -> thread) : Prop :=
  forall k, t_state (f k) = t_state k /\ t_priority (f k) = t_priority k /\ t_base_priority (f k) = t_base_priority k.
(** Waking the head, whatever is stored as the tail. *)
Definition wake_as (q : wq) (f : thread -> thread) (t : Z) (tail : option Z) (s : sched) : sched :=
  scheduler_enqueue t (upd_th t (fun k => put_state THREAD_STATE_READY (f (put_wait_queue_next None k)))
    (upd_wq q (mk_wq (t_wait_queue_next (threads s t)) tail) s)).
Lemma rep_wake_as s Q SL W q f t l tail :
  rep s Q SL W [] -> is_sync q = true -> mild f -> W q = t :: l ->
  let s' := wake_as q f t tail s in
  rep s' (abs_push (t_priority (threads s t)) t Q) SL (<[q := l]> W) [] /\ keeps s s' /\
  t_state (threads s' t) = THREAD_STATE_READY.
Proof.
  intros R Hq Hf EW. unfold wake_as.
  pose proof (rep_w_chain _ _ _ R q) as C. rewrite EW in C. destruct C as [En _]. unfold wait_next_of in En. rewrite En.
  destruct (rep_w_in _ _ _ R q t) as [Hs _]; [rewrite EW; left|].
  set (s1 := upd_wq q _ s). set (s2 := upd_th t _ s1).
  assert (E2 : threads s2 t = put_state THREAD_STATE_READY (f (put_wait_queue_next None (threads s t)))) by apply th_upd_eq.
  destruct (Hf (put_wait_queue_next None (threads s t))) as (_ & F2 & F3).
  assert (R2 : rep s2 Q SL (<[q := l]> W) [t]).
  { eapply rep_wq_pop with (s := s); eauto.
    - intros u N. unfold s2. by rewrite th_upd_ne.
    - rewrite E2. pose proof (rep_pri _ _ _ _ _ R t) as [P1 P2]. split; cbn; rewrite ?F2, ?F3; auto.
    - intros r N. cbn. by rewrite bool_decide_eq_false_2.
    - cbn. by rewrite bool_decide_eq_true_2.
    - congruence. }
  assert (S2 : t_state (threads s2 t) = THREAD_STATE_READY) by (by rewrite E2).
  pose proof (rep_enqueue s2 Q SL (<[q := l]> W) [] t R2 ltac:(set_solver) ltac:(by rewrite S2)) as R3.
  assert (P2 : t_priority (threads s2 t) = t_priority (threads s t)) by (rewrite E2; cbn; by rewrite F2). rewrite P2 in R3.
  split; [exact R3|]. split; [|by rewrite st_enqueue, Z.eqb_refl by (by rewrite S2)].
  trans s2; [|by apply keeps_enqueue]. trans s1; [apply keeps_wq|]. apply keeps_put. by left.
Qed.
Lemma rep_wake_head s Q SL W q f t l :
  rep s Q SL W [] -> is_sync q = true -> mild f -> W q = t :: l ->
  rep (wake_head q f s) (abs_push (t_priority (threads s t)) t Q) SL (<[q := l]> W) [] /\ keeps s (wake_head q f s) /\
  t_state (threads (wake_head q f s) t) = THREAD_STATE_READY.
Proof.
  intros R Hq Hf EW. unfold wake_head. rewrite (rep_w_head _ _ _ R), EW. cbn [hd_or]. by apply rep_wake_as.
Qed.
Lemma wake_head_empty s Q SL W X q f : rep s Q SL W X -> W q = [] -> wake_head q f s = s.
Proof. intros R E. unfold wake_head. by rewrite (rep_w_head _ _ _ R), E. Qed.
Lemma rep_tail s Q SL W X q v : rep s Q SL W X -> is_sync q = true -> rep (upd_wq q (mk_wq (wq_head (wqs s q)) v) s) Q SL W X.
Proof.
  intros R Hq. constructor; [| | | |apply R].
  - apply (rq_frame s _ _ X); [apply R|auto|]. intros p u Hu. split; [auto|by eapply rep_q_notX].
  - apply (sl_frame s _ _ X); [apply R|auto|]. intros u Hu. split; [auto|by eapply rep_sl_notX].
  - destruct (rep_wait _ _ _ _ _ R). constructor; auto.
    + intros r. cbn. case_bool_decide; subst; [apply R|auto].
    + intros r Hr. cbn. case_bool_decide; subst; [congruence|auto].
  - intros u Hu. apply (rep_all _ _ _ _ _ R u Hu).
Qed.
Lemma drain_spec fuel s Q SL W q f :
  rep s Q SL W [] -> is_sync q = true -> mild f ->
  let s' := drain fuel q f s in
  exists Q' W', rep s' Q' SL W' [] /\ W' q = drop fuel (W q) /\ (forall r, r <> q -> W' r = W r) /\ keeps s s' /\
    (forall u, u ∈ take fuel (W q) -> t_state (threads s' u) = THREAD_STATE_READY).
Proof.
  intros R Hq Hf. revert s Q W R. induction fuel as [|fuel IH]; intros s Q W R.
  { exists Q, W. cbn. split_and!; auto; [reflexivity|set_solver]. }
  cbn [drain]. rewrite (rep_w_head _ _ _ R q). destruct (W q) as [|t l] eqn:EW; cbn [hd_or].
  { exists Q, W. cbn. split_and!; auto; [reflexivity|set_solver]. }
  destruct (rep_wake_as s Q SL W q f t l (wq_tail (wqs s q)) R Hq Hf EW) as (R1 & K1 & T1). unfold wake_as in R1, K1, T1.
  match type of K1 with keeps s ?x => set (s1 := x) in * end.
  destruct (IH s1 _ _ R1) as (Q' & W' & R' & E' & O' & K' & T'). rewrite fn_lookup_insert in E', T'.
  exists Q', W'. split_and!; [exact R'|exact E'| |by trans s1|].
  - intros r N. rewrite O' by auto. by rewrite fn_lookup_insert_ne.
  - intros u Hu. cbn in Hu. apply list.elem_of_cons in Hu as [->|Hu]; [|by apply T'].
    rewrite (k_st _ _ K'); rewrite T1; [auto|]. by intros [?|?].
Qed.
Lemma wake_waiters_spec fuel s Q SL W q f :
  rep s Q SL W [] -> is_sync q = true -> mild f -> (length (W q) <= fuel)%nat ->
  let s' := wake_waiters fuel q f s in
  exists Q' W', rep s' Q' SL W' [] /\ W' q = [] /\ (forall r, r <> q -> W' r = W r) /\ keeps s s' /\
    (forall u, u ∈ W q -> t_state (threads s' u) = THREAD_STATE_READY).
Proof.
  intros R Hq Hf Hl. destruct (drain_spec fuel s Q SL W q f R Hq Hf) as (Q' & W' & R' & E' & O' & K' & T').
  rewrite drop_ge in E' by auto. rewrite take_ge in T' by auto. exists Q', W'. unfold wake_waiters.
  split_and!; [by apply rep_tail|auto|auto|trans (drain fuel q f s); [auto|apply keeps_wq]|auto].
Qed.

(** ** Blocking and runnable threads *)
Lemma upd_th_active t f s : g_scheduler_active (upd_th t f s) = g_scheduler_active s.
Proof. reflexivity. Qed.
Lemma upd_th_current t f s : g_current_thread (upd_th t f s) = g_current_thread s.
Proof. reflexivity. Qed.
Lemma upd_th_idle t f s : g_idle_thread (upd_th t f s) = g_idle_thread s.
Proof. reflexivity. Qed.
Lemma link_rest fuel q t s :
  let s' := link_waiter fuel q t s in
  g_scheduler_active s' = g_scheduler_active s /\ g_current_thread s' = g_current_thread s /\ g_idle_thread s' = g_idle_thread s /\
  forall u, t_state (threads s' u) = t_state (threads s u).
Proof.
  unfold link_waiter. destruct (wq_head (wqs s q)); split_and!; auto; intros u; rewrite th_upd_wq, st_upd by done;
    [by rewrite st_upd|by rewrite th_upd_wq].
Qed.
(** Blocking on a queue of this file. *)
Lemma wf_block fuel now s Q SL W c q :
  wf_at s Q SL W -> may_block s c -> is_sync q = true -> enough fuel s ->
  let s' := scheduler_schedule now (block_on fuel q THREAD_STATE_BLOCKED c s) in
  exists Q', wf_at s' Q' SL (<[q := W q ++ [c]]> W) /\ (forall t, t <> c -> runnable s t -> runnable s' t) /\ enough fuel s'.
Proof.
  intros H (Ha & Hc & Hi) Hq He. set (s1 := block_on fuel q THREAD_STATE_BLOCKED c s).
  assert (R1 : rep s1 Q SL (<[q := W q ++ [c]]> W) []).
  { apply rep_block; [by apply wf_take|set_solver|auto|]. eapply enough_wq; [apply H|auto]. }
  destruct (link_rest fuel q c (upd_th c (fun k => put_waiting_queue (Some q) (put_state THREAD_STATE_BLOCKED k)) s)) as (G1 & G2 & G3 & S0).
  change (link_waiter fuel q c _) with s1 in G1, G2, G3, S0.
  assert (S1 : forall u, t_state (threads s1 u) = if u =? c then THREAD_STATE_BLOCKED else t_state (threads s u)).
  { intros u. rewrite S0. destruct (Z.eqb_spec u c) as [->|N]; [by rewrite th_upd_eq|by rewrite th_upd_ne]. }
  rewrite upd_th_active in G1. rewrite Ha in G1. rewrite upd_th_current, Hc in G2. rewrite upd_th_idle in G3.
  assert (Hst : t_state (threads s1 c) <> THREAD_STATE_READY) by (by rewrite S1, Z.eqb_refl).
  assert (Hio : idle_ok s1).
  { destruct H as (_ & (i & Hi' & His) & _). exists i. rewrite G3, S1. rewrite (proj2 (Z.eqb_neq i c)) by congruence. auto. }
  destruct (schedule_wf now s1 Q SL _ c R1 G1 G2 Hio Hst) as [Q' H']. exists Q'. split; [exact H'|].
  split; [intros t N Ht; eapply schedule_runnable; eauto; unfold runnable in *; by rewrite S1, (proj2 (Z.eqb_neq t c))|].
  eapply enough_mono; [exact He|]. intros u Hu. assert (N : u <> c).
  { intros ->. destruct H as (_ & _ & (c' & Hc' & Hcs)). rewrite Hc in Hc'. injection Hc' as <-. congruence. }
  eapply schedule_zombie; eauto. by rewrite S1, (proj2 (Z.eqb_neq u c)).
Qed.

Lemma enough_yield fuel now s Q SL W : wf_at s Q SL W -> enough fuel s -> enough fuel (thread_yield now s).
Proof.
  intros (R & Hio & (c & Hc & Hcs)) E. unfold thread_yield. destruct (g_scheduler_active s) eqn:A; [|exact E].
  eapply enough_mono; [exact E|]. intros u Hu. eapply schedule_zombie; eauto; [by rewrite Hcs|]. intros ->. congruence.
Qed.

(** ** What other threads do meanwhile *)
(** Steps of the scheduler that touch neither the queues of this file nor the
    threads of [P], which are inside one of its functions. *)
Inductive quiet (P : list Z) : sched -> sched -> Prop :=
| quiet_yield now s : quiet P s (thread_yield now s)
| quiet_tick fuel now s : quiet P s (scheduler_tick fuel now s)
| quiet_preempt now user fuel s : quiet P s (scheduler_preempt now user fuel (scheduler_wake_sleeping fuel now) s)
| quiet_sleep fuel now ticks c s : may_block s c -> c ∉ P -> enough fuel s -> quiet P s (thread_sleep_ticks fuel now ticks s)
| quiet_wait q now timeout c s : may_block s c -> c ∉ P -> is_sync q = false ->
    quiet P s (wait_block q now c (wait_begin q now timeout c s))
| quiet_wake fuel q s : is_sync q = false -> quiet P s (wait_queue_wake_all fuel q s).

Lemma yield_quiet now s Q SL W : wf_at s Q SL W ->
  exists Q', wf_at (thread_yield now s) Q' SL W /\ forall t, runnable s t -> runnable (thread_yield now s) t.
Proof.
  intros H. unfold thread_yield. destruct (g_scheduler_active s) eqn:Ha; [|eauto]. destruct (wf_schedule now s Q SL W H) as [Q' H'].
  exists Q'. split; [auto|]. intros t Ht. destruct H as (R & Hio & (c & Hc & Hcs)). eapply schedule_runnable; eauto. by rewrite Hcs.
Qed.
Lemma quiet_spec P s s' Q SL W :
  wf_at s Q SL W -> quiet P s s' ->
  exists Q' SL' W', wf_at s' Q' SL' W' /\ (forall q, is_sync q = true -> W' q = W q) /\
    (forall t, t ∈ P -> runnable s t -> runnable s' t).
Proof.
  intros H Hq. pose proof H as (R & Hio & (c0 & Hc0 & _)). destruct Hq.
  - destruct (yield_quiet now s Q SL W H) as (Q' & H' & U). eauto 10.
  - destruct (g_scheduler_active s) eqn:Ha.
    + destruct (tick_spec fuel now s Q SL W c0 H Ha Hc0) as (Q' & a & b & SL' & H' & _ & K & _).
      exists Q', SL', W. split_and!; auto. intros t _. by apply keeps_runnable.
    + unfold scheduler_tick. rewrite Hc0, Ha. eauto 10.
  - destruct (wf_preempt now user fuel s Q SL W H) as ((Q' & SL' & H') & U). eauto 10.
  - destruct H0 as (Ha & Hc & Hi). destruct (decide (ticks = 0)) as [->|N].
    + unfold thread_sleep_ticks. rewrite Hc. cbn. eauto 10.
    + destruct (wf_sleep fuel now ticks s Q SL W c) as (Q' & a & b & _ & H' & _ & U); auto.
      exists Q', (a ++ c :: b), W. split_and!; auto. intros t Ht. apply U. by intros ->.
  - destruct H0 as (Ha & Hc & Hi). destruct (wf_wait q now timeout s Q SL W c) as (Q' & H' & U & _); auto.
    exists Q', SL, (<[q := W q ++ [c]]> W). split; [exact H'|]. split; [|intros t Ht; apply U; by intros ->].
    intros r Hr. rewrite fn_lookup_insert_ne; [auto|]. intros ->. congruence.
  - destruct (wf_wake_all fuel s Q SL W q H H0) as (Q' & W' & H' & _ & O & K & _). exists Q', SL, W'. split_and!; auto.
    + intros r Hr. apply O. intros ->. congruence.
    + intros t _. by apply keeps_runnable.
Qed.

(** ** Semaphores *)
(** A semaphore in use: its fields, the scheduler, and the threads that were
    woken inside [sem_wait] and have not run their next round yet. *)
Record sem_sys := mk_sem_sys { ss_sem : semaphore_t; ss_sched : sched; ss_woken : list Z }.
Definition head_of (q : wq) (s : sched) : list Z := match wq_head (wqs s q) with Some t => [t] | None => [] end.

Inductive sem_step : sem_sys -> sem_sys -> Prop :=
| sem_do_wait fuel now c m s P : may_block s c -> c ∉ P -> enough fuel s ->
    let r := sem_wait fuel now m s in sem_step (mk_sem_sys m s P) (mk_sem_sys r.2.1 r.2.2 P)
| sem_do_resume fuel now c m s P1 P2 : may_block s c -> enough fuel s ->
    let r := sem_wait_resume fuel now c m s in sem_step (mk_sem_sys m s (P1 ++ c :: P2)) (mk_sem_sys r.2.1 r.2.2 (P1 ++ P2))
| sem_do_trywait m s P : sem_step (mk_sem_sys m s P) (mk_sem_sys (sem_trywait m).2 s P)
| sem_do_post m s P : sem_count m < 2 ^ 31 - 1 ->
    let r := sem_post m s in
    sem_step (mk_sem_sys m s P) (mk_sem_sys r.2.1 r.2.2 (if r.1 =? 0 then head_of (sem_waiters m) s ++ P else P))
| sem_other m s s' P : quiet P s s' -> sem_step (mk_sem_sys m s P) (mk_sem_sys m s' P).

Definition sem_inv (x : sem_sys) : Prop :=
  let m := x.(ss_sem) in
  exists Q SL W, wf_at x.(ss_sched) Q SL W /\ is_sync (sem_waiters m) = true /\
    0 <= sem_count m < 2 ^ 31 /\ (0 < sem_max_count m -> sem_count m <= sem_max_count m) /\
    (W (sem_waiters m) <> [] -> sem_count m <= zlen x.(ss_woken)) /\
    NoDup x.(ss_woken) /\ (forall t, t ∈ x.(ss_woken) -> runnable x.(ss_sched) t).

Lemma wf_resumed s Q SL W c : wf_at s Q SL W -> wf_at (resumed c s) Q SL W.
Proof. intros H. by apply wf_harmless. Qed.
Lemma resumed_same c s :
  (forall u, may_block s u -> may_block (resumed c s) u) /\ (forall fuel, enough fuel s -> enough fuel (resumed c s)) /\
  (forall u, runnable s u -> runnable (resumed c s) u).
Proof.
  split_and!; [auto| |].
  - intros fuel H. eapply enough_mono; [exact H|]. intros u Hu. unfold resumed. by rewrite st_upd.
  - intros u Hu. unfold runnable, resumed in *. by rewrite st_upd.
Qed.
(** One round of [sem_wait] takes a unit or blocks. *)
Lemma sem_round fuel now c m s Q SL W P :
  wf_at s Q SL W -> may_block s c -> enough fuel s -> is_sync (sem_waiters m) = true ->
  0 <= sem_count m < 2 ^ 31 -> (0 < sem_max_count m -> sem_count m <= sem_max_count m) ->
  (W (sem_waiters m) <> [] -> sem_count m <= zlen P + 1) -> NoDup P -> c ∉ P -> (forall t, t ∈ P -> runnable s t) ->
  let r := sem_wait_round fuel now c m s in sem_inv (mk_sem_sys r.2.1 r.2.2 P).
Proof.
  intros H Hb He Hs Hc Hm Hw ND NP Hr. unfold sem_wait_round. destruct (Z.leb_spec (sem_count m) 0) as [Hz|Hz]; cbn [fst snd].
  - destruct (wf_block fuel now s Q SL W c (sem_waiters m) H Hb Hs He) as (Q' & H' & U & _).
    do 3 eexists. split; [exact H'|]. cbn. split_and!; auto; try lia.
    + intros _. pose proof (zlen_nonneg P). lia.
    + intros t Ht. apply U; [by intros ->|auto].
  - exists Q, SL, W. split; [exact H|]. unfold atomic_dec. cbn. rewrite s32_small by lia. split_and!; auto; try lia.
Qed.
Lemma head_of_rep s Q SL W X q : rep s Q SL W X -> head_of q s = match W q with [] => [] | t :: _ => [t] end.
Proof. intros R. unfold head_of. rewrite (rep_w_head _ _ _ R). by destruct (W q). Qed.
Lemma mild_id : mild (fun k => k).
Proof. by intros k. Qed.

Lemma sem_step_inv x y : sem_step x y -> sem_inv x -> sem_inv y.
Proof.
  intros St (Q & SL & W & H & Hs & Hc & Hm & Hw & ND & Hr). destruct St; cbn [ss_sem ss_sched ss_woken] in *.
  - unfold r, sem_wait. destruct H0 as (Ha & Hcur & Hi). rewrite Hcur. eapply sem_round; eauto; [by split_and!|]. intros Hn. specialize (Hw Hn). lia.
  - apply list.NoDup_app in ND as (N1 & N12 & N2). apply list.NoDup_cons in N2 as [Nc N2].
    destruct (resumed_same c s) as (B & E & U). unfold r, sem_wait_resume.
    eapply sem_round; eauto; [by apply wf_resumed| |apply list.NoDup_app; set_solver|set_solver|intros t Ht; apply U, Hr; set_solver].
    intros Hn. specialize (Hw Hn). unfold zlen in *. rewrite length_app in *. cbn in Hw. lia.
  - unfold sem_trywait. destruct (Z.ltb_spec 0 (sem_count m)); cbn [fst snd]; [|by exists Q, SL, W].
    exists Q, SL, W. split; [exact H|]. unfold atomic_dec. cbn. rewrite s32_small by lia. split_and!; auto; try lia.
  - unfold r, sem_post. pose proof (proj1 H) as R. rewrite (head_of_rep _ _ _ _ _ _ R). destruct (_ && _) eqn:Eg; cbn [fst snd].
    { by exists Q, SL, W. }
    assert (Hm' : 0 < sem_max_count m -> sem_count m + 1 <= sem_max_count m).
    { intros Hp. apply andb_false_iff in Eg as [Eg%Z.ltb_ge|Eg%Z.leb_gt]; [lia|]. rewrite u32_small in Eg; [lia|unfold is_u32; lia]. }
    unfold atomic_inc. rewrite s32_small by lia. cbn [Z.eqb]. destruct (W (sem_waiters m)) as [|t l] eqn:EW.
    + erewrite wake_head_empty by eauto. exists Q, SL, W. split; [exact H|]. cbn. split_and!; auto; try lia. congruence.
    + destruct (rep_wake_head s Q SL W (sem_waiters m) (fun k => k) t l R Hs mild_id EW) as (R' & K' & T').
      do 3 eexists. split; [eapply wf_keeps; [exact H|exact K'|exact R']|]. cbn.
      destruct (rep_w_in _ _ _ R (sem_waiters m) t) as [Ts _]; [rewrite EW; left|].
      split_and!; auto; try lia.
      * intros _. unfold zlen in *. cbn. specialize (Hw ltac:(done)). lia.
      * apply list.NoDup_cons. split; [|auto]. intros Ht. destruct (Hr t Ht); congruence.
      * intros u [->|Hu]%list.elem_of_cons; [by left|]. eapply keeps_runnable; eauto.
  - destruct (quiet_spec P s s' Q SL W H H0) as (Q' & SL' & W' & H' & O & U). exists Q', SL', W'.
    split; [exact H'|]. cbn. rewrite O by auto. split_and!; auto; try lia.
Qed.

Lemma wf_wq_init s Q SL W q : wf_at s Q SL W -> W q = [] -> wf_at (wait_queue_init q s) Q SL W.
Proof. intros H E. eapply wf_same; [exact H|by apply upd_wq_init; [apply H|]|auto..]. Qed.
Lemma enough_wq_init fuel s q : enough fuel s -> enough fuel (wait_queue_init q s).
Proof. intros H. exact H. Qed.
(** A fresh semaphore in a consistent state. *)
Lemma sem_init_inv q n max s Q SL W :
  wf_at s Q SL W -> is_sync q = true -> W q = [] -> 0 <= n < 2 ^ 31 -> (0 < max -> n <= max) ->
  let r := semaphore_init q n max s in sem_inv (mk_sem_sys r.1 r.2 []).
Proof.
  intros H Hq EW Hn Hm. exists Q, SL, W. cbn. split_and!; auto; try lia; [|congruence|constructor|set_solver].
  by apply wf_wq_init.
Qed.

(** C16. Counting semaphores lose no wake-up: in every state reached from a new
    semaphore by waits, their resumptions, posts, attempts and the steps of
    other threads, the scheduler is consistent, the count is not negative and
    not above its maximum, and while a thread is queued and the count is
    positive, a woken thread that will take it can run. *)
Theorem sem_no_lost_wakeup q n max s0 x :
  sched_wf s0 -> is_sync q = true -> wq_head (wqs s0 q) = None -> 0 <= n < 2 ^ 31 -> (0 < max -> n <= max) ->
  let r := semaphore_init q n max s0 in
  rtc sem_step (mk_sem_sys r.1 r.2 []) x ->
  let m := ss_sem x in
  sched_wf (ss_sched x) /\ 0 <= sem_getvalue m /\ (0 < sem_max_count m -> sem_getvalue m <= sem_max_count m) /\
  (wq_head (wqs (ss_sched x) (sem_waiters m)) <> None -> 0 < sem_getvalue m -> exists t, t ∈ ss_woken x /\ runnable (ss_sched x) t).
Proof.
  intros (Q & SL & W & H) Hq Hh Hn Hm r St. assert (EW : W q = []).
  { rewrite (rep_w_head _ _ _ (proj1 H)) in Hh. by destruct (W q). }
  assert (I : sem_inv x).
  { eapply rtc_preserves; [apply sem_step_inv|exact St|by eapply sem_init_inv]. }
  destruct I as (Q' & SL' & W' & H' & _ & Hc & Hmx & Hw & _ & Hr). unfold sem_getvalue. split_and!; [by do 3 eexists|lia|auto|].
  rewrite (rep_w_head _ _ _ (proj1 H')). intros Hne Hp. destruct (ss_woken x) as [|t P] eqn:EP.
  - assert (W' (sem_waiters (ss_sem x)) <> []) as N by (by destruct (W' _)). specialize (Hw N). unfold zlen in Hw. cbn in Hw. lia.
  - exists t. split; [left|]. apply Hr. left.
Qed.

(** Two threads wait for a semaphore and a third one posts. *)
Definition demo_q : wq := WQ_SYNC 100.
Definition demo_sem (s : sched) : semaphore_t * sched := semaphore_init demo_q 0 0 s.
Definition sem_demo_wait (ms : semaphore_t * sched) : semaphore_t * sched := (sem_wait 4 0 ms.1 ms.2).2.
Definition demo_post (ms : semaphore_t * sched) : semaphore_t * sched := (sem_post ms.1 ms.2).2.
Definition demo_end (s : sched) : sem_sys :=
  let ms := demo_post (sem_demo_wait (sem_demo_wait (demo_sem s))) in mk_sem_sys ms.1 ms.2 [1].
Lemma demo_wait_step ms c : g_current_thread ms.2 = Some c -> g_scheduler_active ms.2 = true -> g_idle_thread ms.2 <> Some c ->
  enough 4 ms.2 -> sem_step (mk_sem_sys ms.1 ms.2 []) (mk_sem_sys (sem_demo_wait ms).1 (sem_demo_wait ms).2 []).
Proof. intros Hc Ha Hi He. apply (sem_do_wait 4 0 c ms.1 ms.2 []); [by split_and!|set_solver|auto]. Qed.
Lemma demo_wait_enough ms c Q SL W : wf_at ms.2 Q SL W -> may_block ms.2 c -> is_sync (sem_waiters ms.1) = true -> enough 4 ms.2 ->
  sem_count ms.1 = 0 -> enough 4 (sem_demo_wait ms).2.
Proof.
  intros H Hb Hq He H0. destruct (wf_block 4 0 ms.2 Q SL W c _ H Hb Hq He) as (_ & _ & _ & E). destruct Hb as (_ & Hc & _).
  unfold sem_demo_wait, sem_wait, sem_wait_round. by rewrite Hc, H0.
Qed.
Lemma demo_post_step ms P P' :
  (sem_count ms.1 <? 2 ^ 31 - 1) = true -> (sem_post ms.1 ms.2).1 = 0 -> head_of (sem_waiters ms.1) ms.2 ++ P = P' ->
  sem_step (mk_sem_sys ms.1 ms.2 P) (mk_sem_sys (demo_post ms).1 (demo_post ms).2 P').
Proof. intros H%Z.ltb_lt E <-. pose proof (sem_do_post ms.1 ms.2 P H) as St. cbn zeta in St. by rewrite E in St. Qed.
Lemma demo_run (s : sched) Q W : wf_at s Q [] W -> W demo_q = [] -> enough 4 s ->
  let a := demo_sem s in let b := sem_demo_wait a in let d := sem_demo_wait b in
  g_current_thread a.2 = Some 1 -> g_scheduler_active a.2 = true -> g_idle_thread a.2 <> Some 1 ->
  g_current_thread b.2 = Some 4 -> g_scheduler_active b.2 = true -> g_idle_thread b.2 <> Some 4 ->
  (sem_count d.1 <? 2 ^ 31 - 1) = true -> (sem_post d.1 d.2).1 = 0 -> head_of (sem_waiters d.1) d.2 = [1] ->
  rtc sem_step (mk_sem_sys a.1 a.2 []) (demo_end s).
Proof.
  intros H HW He a b d A1 A2 A3 B1 B2 B3 D1 D2 D3.
  eapply rtc_l; [apply (demo_wait_step a 1); auto; by apply enough_wq_init|].
  eapply rtc_l; [apply (demo_wait_step b 4); auto|].
  - eapply (demo_wait_enough a 1); [by apply wf_wq_init|by split_and!|auto..].
  - apply rtc_once. apply (demo_post_step d [] [1]); auto. by rewrite D3.
Qed.
Lemma sem_no_lost_wakeup_witness :
  sem_getvalue (ss_sem (demo_end (demo2 2))) = 1 /\ exists t, t ∈ ss_woken (demo_end (demo2 2)) /\ runnable (ss_sched (demo_end (demo2 2))) t.
Proof.
  split; [vm_compute; reflexivity|].
  refine (proj2 (proj2 (proj2 (sem_no_lost_wakeup demo_q 0 0 (demo2 2) (demo_end (demo2 2)) _ _ _ _ _ _))) _ _);
    [| | | | |eapply demo_run| |].
  - do 3 eexists. apply (demo2_wf 2). lia.
  - reflexivity.
  - vm_compute. reflexivity.
  - lia.
  - lia.
  - apply (demo2_wf 2). lia.
  - reflexivity.
  - apply demo2_enough.
  - vm_compute. reflexivity.
  - vm_compute. reflexivity.
  - vm_compute. discriminate.
  - vm_compute. reflexivity.
  - vm_compute. reflexivity.
  - vm_compute. discriminate.
  - vm_compute. reflexivity.
  - vm_compute. reflexivity.
  - vm_compute. reflexivity.
  - vm_compute. discriminate.
  - vm_compute. reflexivity.
Defined.

(** ** Read-write locks *)
(** A lock in use: its fields, the scheduler, and the writers that were woken
    inside [rwlock_wrlock] and have not run their next round yet. *)
Record rw_sys := mk_rw_sys { ws_rw : rwlock_t; ws_sched : sched; ws_woken : list Z }.
Inductive rw_step : rw_sys -> rw_sys -> Prop :=
| rw_do_rdlock fuel now c r s P : may_block s c -> c ∉ P -> enough fuel s -> rw_reader_count r < 2 ^ 31 - 1 ->
    let x := rwlock_rdlock fuel now r s in rw_step (mk_rw_sys r s P) (mk_rw_sys x.2.1 x.2.2 P)
| rw_do_rdresume fuel now c r s P : may_block s c -> c ∉ P -> enough fuel s -> rw_reader_count r < 2 ^ 31 - 1 ->
    let x := rdlock_resume fuel now c r s in rw_step (mk_rw_sys r s P) (mk_rw_sys x.2.1 x.2.2 P)
| rw_do_tryrdlock r s P : rw_reader_count r < 2 ^ 31 - 1 ->
    rw_step (mk_rw_sys r s P) (mk_rw_sys (rwlock_tryrdlock r).2 s P)
| rw_do_rdunlock r s P : 0 < rw_reader_count r ->
    let x := rwlock_rdunlock r s in
    rw_step (mk_rw_sys r s P) (mk_rw_sys x.1 x.2 (if rw_reader_count r =? 1 then head_of (rw_writers r) s ++ P else P))
| rw_do_wrlock fuel now c r s P : may_block s c -> c ∉ P -> enough fuel s -> rw_writer_wait_count r < 2 ^ 32 - 1 ->
    let x := rwlock_wrlock fuel now r s in rw_step (mk_rw_sys r s P) (mk_rw_sys x.2.1 x.2.2 P)
| rw_do_wrresume fuel now c r s P1 P2 : may_block s c -> enough fuel s ->
    let x := wrlock_resume fuel now c r s in rw_step (mk_rw_sys r s (P1 ++ c :: P2)) (mk_rw_sys x.2.1 x.2.2 (P1 ++ P2))
| rw_do_trywrlock r s P : rw_step (mk_rw_sys r s P) (mk_rw_sys (rwlock_trywrlock r s).2 s P)
| rw_do_wrunlock fuel c r s P : g_current_thread s = Some c -> rw_writer r = Some c -> enough fuel s ->
    let x := rwlock_wrunlock fuel r s in rw_step (mk_rw_sys r s P) (mk_rw_sys x.1 x.2 (head_of (rw_writers r) s ++ P))
| rw_do_upgrade r s P : rw_step (mk_rw_sys r s P) (mk_rw_sys (rwlock_upgrade r s).2 s P)
| rw_do_downgrade fuel r s P : enough fuel s ->
    let x := rwlock_downgrade fuel r s in rw_step (mk_rw_sys r s P) (mk_rw_sys x.1 x.2 P)
| rw_other r s s' P : quiet P s s' -> rw_step (mk_rw_sys r s P) (mk_rw_sys r s' P).

(** The part of the invariant about the fields of the lock, given the number
    of queued readers and writers and of woken writers. *)
Record rw_ok (r : rwlock_t) (WR WW P : list Z) : Prop := mk_rw_ok {
  rk_count : 0 <= rw_reader_count r < 2 ^ 31;
  rk_excl : rw_writer r <> None -> rw_reader_count r = 0;
  rk_wait : rw_writer_wait_count r = zlen WW + zlen P;
  rk_wait_max : rw_writer_wait_count r < 2 ^ 32;
  rk_readers : WR <> [] -> rw_writer r <> None \/ (prefers_writer r = true /\ 0 < rw_writer_wait_count r);
  rk_writers : WW <> [] -> rw_writer r <> None \/ 0 < rw_reader_count r \/ P <> []
}.
Definition rw_inv (x : rw_sys) : Prop :=
  let r := x.(ws_rw) in
  exists Q SL W, wf_at x.(ws_sched) Q SL W /\
    (is_sync (rw_readers r) = true /\ is_sync (rw_writers r) = true /\ rw_readers r <> rw_writers r) /\
    rw_ok r (W (rw_readers r)) (W (rw_writers r)) x.(ws_woken) /\
    NoDup x.(ws_woken) /\ (forall t, t ∈ x.(ws_woken) -> runnable x.(ws_sched) t).

Lemma zlen_snoc (l : list Z) (c : Z) : zlen (l ++ [c]) = zlen l + 1.
Proof. unfold zlen. rewrite length_app. cbn. lia. Qed.
Lemma zlen_mid (l1 l2 : list Z) (c : Z) : zlen (l1 ++ c :: l2) = zlen (l1 ++ l2) + 1.
Proof. unfold zlen. rewrite !length_app. cbn. lia. Qed.
Ltac rw_case := match goal with H : rw_ok _ _ _ _ |- _ => destruct H end; constructor; cbn in *; auto; try lia.

(** How the fields move. *)
Lemma rw_ok_rd_block r WR WW P c : rw_ok r WR WW P -> reader_blocked r = true -> rw_ok r (WR ++ [c]) WW P.
Proof.
  intros O H. rw_case. intros _. apply orb_true_iff in H as [H%bool_decide_eq_true|[H1 H2%Z.ltb_lt]%andb_true_iff]; auto.
Qed.
Lemma rw_ok_rd_take r WR WW P :
  rw_ok r WR WW P -> rw_writer r = None -> rw_reader_count r < 2 ^ 31 - 1 ->
  rw_ok (with_readers r (atomic_inc (rw_reader_count r))) WR WW P.
Proof.
  intros O H Hc. destruct O. constructor; cbn; unfold atomic_inc; rewrite ?s32_small by lia; auto; try lia; try congruence.
Qed.
Lemma rw_ok_rd_release r WR WW P WW' P' :
  rw_ok r WR WW P -> 0 < rw_reader_count r ->
  (WW' = WW /\ P' = P /\ (rw_reader_count r <> 1 \/ WW = []) \/ exists t, WW = t :: WW' /\ P' = t :: P) ->
  rw_ok (with_readers r (atomic_dec (rw_reader_count r))) WR WW' P'.
Proof.
  intros O Hc H. destruct O. assert (N : rw_writer r = None).
  { destruct (rw_writer r); [|auto]. rewrite rk_excl0 in Hc by done. lia. }
  constructor; cbn; unfold atomic_dec; rewrite ?s32_small by lia; auto; try lia; try congruence.
  - destruct H as [(-> & -> & _)|(t & -> & ->)]; auto. unfold zlen in *. cbn in *. lia.
  - destruct H as [(-> & -> & H)|(t & -> & ->)]; auto. intros Hn. specialize (rk_writers0 Hn).
    destruct H as [H|H]; [|done]. right. left. lia.
Qed.
Lemma rw_ok_wr_begin r WR WW P c : rw_ok r WR WW P -> rw_writer_wait_count r < 2 ^ 32 - 1 ->
  rw_ok (with_wait_count r (u32 (rw_writer_wait_count r + 1))) WR WW (c :: P).
Proof.
  intros O Hw. destruct O. pose proof (zlen_nonneg WW). pose proof (zlen_nonneg P).
  constructor; cbn; rewrite ?u32_small by (unfold is_u32; lia); auto; try lia.
  - unfold zlen in *. cbn. lia.
  - intros Hn. destruct (rk_readers0 Hn) as [?|[? ?]]; [auto|right; split; [auto|lia]].
Qed.
Lemma rw_ok_wr_block r WR WW P1 P2 c : rw_ok r WR WW (P1 ++ c :: P2) ->
  bool_decide (rw_writer r <> None) || (0 <? rw_reader_count r) = true -> rw_ok r WR (WW ++ [c]) (P1 ++ P2).
Proof.
  intros O H. destruct O. rewrite zlen_mid in rk_wait0. constructor; auto.
  - rewrite zlen_snoc. lia.
  - intros _. apply orb_true_iff in H as [H%bool_decide_eq_true|H%Z.ltb_lt]; auto.
Qed.
Lemma rw_ok_wr_take r WR WW P1 P2 c : rw_ok r WR WW (P1 ++ c :: P2) ->
  bool_decide (rw_writer r <> None) || (0 <? rw_reader_count r) = false ->
  rw_ok (with_writer (with_wait_count r (u32 (rw_writer_wait_count r - 1))) (Some c)) WR WW (P1 ++ P2).
Proof.
  intros O [_ H%Z.ltb_ge]%orb_false_iff. destruct O. rewrite zlen_mid in rk_wait0. pose proof (zlen_nonneg WW). pose proof (zlen_nonneg (P1 ++ P2)).
  constructor; cbn; rewrite ?u32_small by (unfold is_u32; lia); auto; try lia; intros _; by left.
Qed.
Lemma rw_ok_wr_now r WR WW P c : rw_ok r WR WW P -> rw_writer r = None -> rw_reader_count r <= 1 ->
  rw_ok (with_writer (with_readers r 0) (Some c)) WR WW P.
Proof. intros O H Hc. rw_case; intros _; by left. Qed.
(** The writer leaves: the readers are all woken, or a writer is. *)
Lemma rw_ok_wr_release r WR WW P WR' WW' P' :
  rw_ok r WR WW P -> rw_writer r <> None ->
  (WW' = WW /\ P' = P /\ WW = [] \/ exists t, WW = t :: WW' /\ P' = t :: P) ->
  (WR' = [] \/ prefers_writer r = true /\ WW <> []) -> rw_ok (with_writer r None) WR' WW' P'.
Proof.
  intros O Hn H HR. destruct O. pose proof (zlen_nonneg WW). pose proof (zlen_nonneg P). constructor; cbn; auto; try done.
  - destruct H as [(-> & -> & _)|(t & -> & ->)]; auto. unfold zlen in *. cbn in *. lia.
  - intros Hr. destruct HR as [->|[Hp Hne]]; [done|]. right. split; [exact Hp|]. destruct WW; [done|]. unfold zlen in *. cbn in rk_wait0. lia.
  - destruct H as [(-> & -> & ->)|(t & -> & ->)]; [done|]. auto.
Qed.
Lemma rw_ok_downgrade r WR WW P c : rw_ok r WR WW P -> rw_writer r = Some c ->
  rw_ok (with_readers (with_writer r None) (atomic_inc (rw_reader_count r))) [] WW P.
Proof.
  intros O H. destruct O. rewrite rk_excl0 by congruence. change (atomic_inc 0) with 1. constructor; cbn; auto; try done; try lia.
Qed.

(** Waking the head of a queue, whether it has one or not. *)
Lemma wf_wake_head s Q SL W q : wf_at s Q SL W -> is_sync q = true ->
  let s' := wake_head q (fun k => k) s in
  exists Q' W', wf_at s' Q' SL W' /\ (forall r, r <> q -> W' r = W r) /\ keeps s s' /\
    (W' q = W q /\ head_of q s = [] /\ W q = [] \/
     exists t, W q = t :: W' q /\ head_of q s = [t] /\ runnable s' t /\ ~ runnable s t).
Proof.
  intros H Hq s'. pose proof (proj1 H) as R. rewrite (head_of_rep _ _ _ _ _ _ R). destruct (W q) as [|t l] eqn:EW.
  - unfold s'. erewrite wake_head_empty by eauto. exists Q, W. split; [exact H|]. split_and!; auto. reflexivity.
  - destruct (rep_wake_head s Q SL W q (fun k => k) t l R Hq mild_id EW) as (R' & K' & T').
    do 2 eexists. split; [eapply wf_keeps; [exact H|exact K'|exact R']|]. split; [intros r N; by rewrite fn_lookup_insert_ne|].
    split; [exact K'|]. right. exists t. rewrite fn_lookup_insert. split_and!; auto; [by left|].
    destruct (rep_w_in _ _ _ R q t) as [Ts _]; [rewrite EW; left|]. intros [?|?]; congruence.
Qed.
(** The threads woken so far and the one just woken. *)
Lemma woken_more s s' P P' : keeps s s' -> NoDup P -> (forall t, t ∈ P -> runnable s t) ->
  (P' = P \/ exists t, P' = t :: P /\ runnable s' t /\ ~ runnable s t) ->
  NoDup P' /\ forall t, t ∈ P' -> runnable s' t.
Proof.
  intros K ND Hr [->|(t & -> & Ht & Hn)].
  - split; [auto|]. intros t Ht. eapply keeps_runnable; eauto.
  - split; [apply list.NoDup_cons; split; auto|]. intros u [->|Hu]%list.elem_of_cons; [auto|]. eapply keeps_runnable; eauto.
Qed.
Section rw_steps.
  Context (r : rwlock_t) (s : sched) (Q : Z -> list Z) (SL : list Z) (W : wq -> list Z) (P : list Z).
  Hypothesis H : wf_at s Q SL W.
  Hypothesis Hq : is_sync (rw_readers r) = true /\ is_sync (rw_writers r) = true /\ rw_readers r <> rw_writers r.

Lemma rd_round_inv fuel now c : may_block s c -> enough fuel s -> rw_reader_count r < 2 ^ 31 - 1 ->
  rw_ok r (W (rw_readers r)) (W (rw_writers r)) P -> NoDup P -> c ∉ P -> (forall t, t ∈ P -> runnable s t) ->
  let x := rdlock_round fuel now c r s in rw_inv (mk_rw_sys x.2.1 x.2.2 P).
Proof.
  intros Hb He Hc O ND NP Hr. destruct Hq as (Q1 & Q2 & Q3). unfold rdlock_round. destruct (reader_blocked r) eqn:B; cbn [fst snd].
  - destruct (wf_block fuel now s Q SL W c (rw_readers r) H Hb Q1 He) as (Q' & H' & U & _).
    do 3 eexists. split; [exact H'|]. cbn. rewrite fn_lookup_insert, fn_lookup_insert_ne by auto.
    split; [auto|]. split; [by apply rw_ok_rd_block|]. split; [auto|]. intros t Ht. apply U; [by intros ->|auto].
  - exists Q, SL, W. split; [exact H|]. cbn. split; [auto|]. split; [|auto]. apply rw_ok_rd_take; auto.
    apply orb_false_iff in B as [B%bool_decide_eq_false _]. by destruct (rw_writer r); [exfalso; apply B|].
Qed.
Lemma wr_round_inv fuel now c P1 P2 : may_block s c -> enough fuel s ->
  rw_ok r (W (rw_readers r)) (W (rw_writers r)) (P1 ++ c :: P2) ->
  NoDup (P1 ++ P2) -> c ∉ P1 ++ P2 -> (forall t, t ∈ P1 ++ P2 -> runnable s t) ->
  let x := wrlock_round fuel now c r s in rw_inv (mk_rw_sys x.2.1 x.2.2 (P1 ++ P2)).
Proof.
  intros Hb He O ND NP Hr. destruct Hq as (Q1 & Q2 & Q3). unfold wrlock_round. destruct (_ || _) eqn:B; cbn [fst snd].
  - destruct (wf_block fuel now s Q SL W c (rw_writers r) H Hb Q2 He) as (Q' & H' & U & _).
    do 3 eexists. split; [exact H'|]. cbn. rewrite fn_lookup_insert, fn_lookup_insert_ne by auto.
    split; [auto|]. split; [by apply rw_ok_wr_block|]. split; [auto|]. intros t Ht. apply U; [by intros ->|auto].
  - exists Q, SL, W. split; [exact H|]. cbn. split; [auto|]. split; [|auto]. by apply rw_ok_wr_take.
Qed.
End rw_steps.

Lemma rw_inv_fields r r' s Q SL W P :
  wf_at s Q SL W -> is_sync (rw_readers r) = true /\ is_sync (rw_writers r) = true /\ rw_readers r <> rw_writers r ->
  rw_readers r' = rw_readers r -> rw_writers r' = rw_writers r -> rw_ok r' (W (rw_readers r)) (W (rw_writers r)) P ->
  NoDup P -> (forall t, t ∈ P -> runnable s t) -> rw_inv (mk_rw_sys r' s P).
Proof. intros H Hq E1 E2 O ND Hr. exists Q, SL, W. split; [exact H|]. cbn. rewrite E1, E2. auto. Qed.
Lemma rd_unlock_inv r s Q SL W P :
  wf_at s Q SL W -> is_sync (rw_readers r) = true /\ is_sync (rw_writers r) = true /\ rw_readers r <> rw_writers r ->
  rw_ok r (W (rw_readers r)) (W (rw_writers r)) P -> NoDup P -> (forall t, t ∈ P -> runnable s t) -> 0 < rw_reader_count r ->
  let x := rwlock_rdunlock r s in
  rw_inv (mk_rw_sys x.1 x.2 (if rw_reader_count r =? 1 then head_of (rw_writers r) s ++ P else P)).
Proof.
  intros H (Q1 & Q2 & Q3) O ND Hr Hc. unfold rwlock_rdunlock. cbn zeta. pose proof (rk_count _ _ _ _ O).
  assert (E : atomic_dec (rw_reader_count r) = rw_reader_count r - 1) by (apply s32_small; lia).
  replace (atomic_dec (rw_reader_count r) =? 0) with (rw_reader_count r =? 1) by (rewrite E; destruct (Z.eqb_spec (rw_reader_count r) 1); lia).
  destruct (Z.eqb_spec (rw_reader_count r) 1) as [E1|E1]; cbn [fst snd].
  2:{ eapply rw_inv_fields; eauto. eapply rw_ok_rd_release; eauto. }
  destruct (wf_wake_head s Q SL W (rw_writers r) H Q2) as (Q' & W' & H' & OW & K & Hw).
  exists Q', SL, W'. split; [exact H'|]. cbn. rewrite (OW (rw_readers r)) by auto. split; [auto|]. split.
  - eapply rw_ok_rd_release; eauto. destruct Hw as [(-> & -> & ->)|(t & E' & -> & _)]; [left; auto|right; eauto].
  - eapply woken_more; eauto. destruct Hw as [(_ & -> & _)|(t & _ & -> & ? & ?)]; [by left|right; eauto].
Qed.
Lemma wr_unlock_inv fuel c r s Q SL W P :
  wf_at s Q SL W -> is_sync (rw_readers r) = true /\ is_sync (rw_writers r) = true /\ rw_readers r <> rw_writers r ->
  rw_ok r (W (rw_readers r)) (W (rw_writers r)) P -> NoDup P -> (forall t, t ∈ P -> runnable s t) ->
  g_current_thread s = Some c -> rw_writer r = Some c -> enough fuel s ->
  let x := rwlock_wrunlock fuel r s in rw_inv (mk_rw_sys x.1 x.2 (head_of (rw_writers r) s ++ P)).
Proof.
  intros H (Q1 & Q2 & Q3) O ND Hr Hc Hw He. unfold rwlock_wrunlock. rewrite Hc, Hw, bool_decide_eq_true_2 by done. cbn [negb].
  change (rw_writers (with_writer r None)) with (rw_writers r). change (prefers_writer (with_writer r None)) with (prefers_writer r).
  change (rw_readers (with_writer r None)) with (rw_readers r). change (rw_reader_count (with_writer r None)) with (rw_reader_count r).
  rewrite (rk_excl _ _ _ _ O) by congruence. cbn [Z.eqb]. rewrite (rep_w_head _ _ _ (proj1 H)).
  destruct (prefers_writer r && _) eqn:Ep; cbn [fst snd].
  - apply andb_true_iff in Ep as [Ep En%bool_decide_eq_true]. assert (N : W (rw_writers r) <> []) by (by destruct (W (rw_writers r))).
    destruct (wf_wake_head s Q SL W (rw_writers r) H Q2) as (Q' & W' & H' & OW & K & [(_ & _ & ?)|(t & E' & -> & ? & ?)]); [done|].
    exists Q', SL, W'. split; [exact H'|]. cbn. rewrite (OW (rw_readers r)) by auto. split; [auto|]. split.
    + eapply rw_ok_wr_release; eauto; congruence.
    + eapply woken_more; eauto.
  - destruct (wake_waiters_spec fuel s Q SL W (rw_readers r) (fun k => k) (proj1 H) Q1 mild_id) as (Q' & W' & R' & E' & OW & K & _).
    { eapply enough_wq; [apply H|auto]. }
    set (s1 := wake_waiters _ _ _ _) in *. assert (H1 : wf_at s1 Q' SL W') by (eapply wf_keeps; [exact H|exact K|exact R']).
    destruct (wf_wake_head s1 Q' SL W' (rw_writers r) H1 Q2) as (Q2' & W2 & H2 & OW2 & K2 & Hw2).
    rewrite (head_of_rep _ _ _ _ _ _ (proj1 H1)) in Hw2. rewrite (head_of_rep _ _ _ _ _ _ (proj1 H)). rewrite (OW (rw_writers r)) in Hw2 by auto.
    exists Q2', SL, W2. split; [exact H2|]. cbn. rewrite (OW2 (rw_readers r)), E' by auto. split; [auto|]. split.
    + eapply rw_ok_wr_release; eauto; [congruence|]. destruct Hw2 as [(-> & _ & ->)|(t & Et & _)]; [left; auto|right; exists t; by rewrite Et].
    + assert (Hr1 : forall t, t ∈ P -> runnable s1 t) by (intros t Ht; eapply keeps_runnable; eauto).
      eapply woken_more; eauto. destruct Hw2 as [(_ & -> & _)|(t & _ & -> & ? & ?)]; [by left|right; eauto].
Qed.

Lemma with_readers_same r : with_readers r (rw_reader_count r) = r.
Proof. by destruct r. Qed.
Lemma rw_step_inv x y : rw_step x y -> rw_inv x -> rw_inv y.
Proof.
  intros St (Q & SL & W & H & Hq & O & ND & Hr). destruct St; cbn [ws_rw ws_sched ws_woken] in *.
  - unfold x, rwlock_rdlock. pose proof H0 as (_ & -> & _). by eapply rd_round_inv.
  - unfold x, rdlock_resume. destruct (resumed_same c s) as (B & E & U). eapply rd_round_inv; eauto; by apply wf_resumed.
  - unfold rwlock_tryrdlock. destruct (_ && _) eqn:B; cbn [fst snd]; eapply rw_inv_fields; eauto.
    apply andb_true_iff in B as [B%bool_decide_eq_true _]. by apply rw_ok_rd_take.
  - by eapply rd_unlock_inv.
  - unfold x, rwlock_wrlock. pose proof H0 as (_ & -> & _). eapply (wr_round_inv _ _ _ _ _ H) with (P1 := []); eauto. by apply rw_ok_wr_begin.
  - apply list.NoDup_app in ND as (N1 & N12 & N2). apply list.NoDup_cons in N2 as [Nc N2].
    destruct (resumed_same c s) as (B & E & U). unfold x, wrlock_resume.
    eapply wr_round_inv; eauto; [by apply wf_resumed|apply list.NoDup_app; set_solver|set_solver|intros t Ht; apply U, Hr; set_solver].
  - unfold rwlock_trywrlock. destruct (g_current_thread s) as [c|]; cbn [fst snd]; [|by eapply rw_inv_fields].
    destruct (_ && _) eqn:B; cbn [fst snd]; eapply rw_inv_fields; eauto.
    apply andb_true_iff in B as [B1%bool_decide_eq_true B2%Z.eqb_eq]. rewrite <- (with_readers_same r), B2. apply rw_ok_wr_now; auto; lia.
  - by eapply wr_unlock_inv.
  - unfold rwlock_upgrade. destruct (g_current_thread s) as [c|]; cbn [fst snd]; [|by eapply rw_inv_fields].
    destruct (_ =? 0); cbn [fst snd]; [by eapply rw_inv_fields|]. destruct (_ && _) eqn:B; cbn [fst snd]; eapply rw_inv_fields; eauto.
    apply andb_true_iff in B as [B1%Z.eqb_eq B2%bool_decide_eq_true]. rewrite B1. change (atomic_dec 1) with 0. apply rw_ok_wr_now; auto; lia.
  - unfold x, rwlock_downgrade. destruct (g_current_thread s) as [c|]; cbn [fst snd]; [|by eapply rw_inv_fields].
    case_bool_decide as B; cbn [negb fst snd]; [|by eapply rw_inv_fields]. destruct Hq as (Q1 & Q2 & Q3).
    destruct (wake_waiters_spec fuel s Q SL W (rw_readers r) (fun k => k) (proj1 H) Q1 mild_id) as (Q' & W' & R' & E' & OW & K & _).
    { eapply enough_wq; [apply H|auto]. }
    eapply rw_inv_fields with (r := r); eauto; [eapply wf_keeps; [exact H|exact K|exact R']| |intros t Ht; eapply keeps_runnable; eauto].
    rewrite E', OW by auto. by eapply rw_ok_downgrade.
  - destruct (quiet_spec P s s' Q SL W H H0) as (Q' & SL' & W' & H' & OW & U). eapply rw_inv_fields; eauto.
    by rewrite !OW by tauto.
Qed.

(** Read-write locks exclude and lose no wake-up: in every state reached
    from a new lock by readers and writers that lock, resume, try, unlock,
    upgrade and downgrade, and by the steps of other threads, the scheduler is
    consistent, a writer never coexists with readers, the count of waiting
    writers is exact, and when the lock is free while a thread is queued, a
    woken writer can run. *)
Theorem rwlock_excludes qr qw pref s0 x :
  sched_wf s0 -> is_sync qr = true -> is_sync qw = true -> qr <> qw ->
  wq_head (wqs s0 qr) = None -> wq_head (wqs s0 qw) = None ->
  let i := rwlock_init qr qw pref s0 in
  rtc rw_step (mk_rw_sys i.1 i.2 []) x ->
  let r := ws_rw x in let s := ws_sched x in
  sched_wf s /\ 0 <= rw_reader_count r /\ (rw_writer r <> None -> rw_reader_count r = 0) /\
  (exists Q SL W, wf_at s Q SL W /\ rw_writer_wait_count r = zlen (W (rw_writers r)) + zlen (ws_woken x)) /\
  (rw_writer r = None -> rw_reader_count r = 0 ->
   wq_head (wqs s (rw_readers r)) <> None \/ wq_head (wqs s (rw_writers r)) <> None ->
   exists t, t ∈ ws_woken x /\ runnable s t).
Proof.
  intros (Q & SL & W & H) Hr Hw Hn Er Ew i St.
  assert (I : rw_inv x).
  { eapply rtc_preserves; [apply rw_step_inv|exact St|]. exists Q, SL, W. cbn.
    rewrite (rep_w_head _ _ _ (proj1 H)) in Er, Ew. assert (W qr = []) by (by destruct (W qr)). assert (W qw = []) by (by destruct (W qw)).
    split; [by apply wf_wq_init; [apply wf_wq_init|]|]. split; [auto|]. split; [constructor; cbn; rewrite ?H0, ?H1; cbn; try done; lia|].
    split; [constructor|set_solver]. }
  destruct I as (Q' & SL' & W' & H' & _ & O & _ & Hrun). split; [by do 3 eexists|]. destruct O.
  split; [apply rk_count0|]. split; [auto|]. split; [by exists Q', SL', W'|]. intros N0 C0 Hq.
  destruct (ws_woken x) as [|t P] eqn:EP; [exfalso|exists t; split; [left|apply Hrun; left]].
  rewrite !(rep_w_head _ _ _ (proj1 H')) in Hq. assert (W' (rw_writers (ws_rw x)) = []) as E.
  { destruct (W' (rw_writers (ws_rw x))) eqn:E; [auto|]. destruct (rk_writers0 ltac:(done)) as [?|[?|?]]; [done|lia|done]. }
  rewrite E in *. destruct Hq as [Hq|Hq]; [|done]. destruct rk_readers0 as [?|[_ ?]]; [by intros E'; rewrite E' in Hq|done|].
  rewrite rk_wait0 in H0. unfold zlen in H0. cbn in H0. lia.
Qed.

(** A writer, two more that queue behind it, and its unlock. *)
Definition demo_wr (ms : rwlock_t * sched) : rwlock_t * sched := (rwlock_wrlock 4 0 ms.1 ms.2).2.
Definition demo_yield (ms : rwlock_t * sched) : rwlock_t * sched := (ms.1, thread_yield 0 ms.2).
Definition demo_lock (s : sched) : rwlock_t * sched := rwlock_init (WQ_SYNC 100) (WQ_SYNC 101) RWLOCK_PREFER_WRITER s.
Definition demo_queued (s : sched) : rwlock_t * sched :=
  demo_wr (demo_yield (demo_wr (demo_yield (demo_wr (demo_lock s))))).
Definition demo_freed (s : sched) : rw_sys :=
  let ms := demo_queued s in let x := rwlock_wrunlock 4 ms.1 ms.2 in
  mk_rw_sys x.1 x.2 (head_of (rw_writers ms.1) ms.2).
Definition can_run (ms : rwlock_t * sched) (c : Z) : Prop :=
  may_block ms.2 c /\ (rw_writer_wait_count ms.1 <? 2 ^ 32 - 1) = true.
Definition demo_sys (ms : rwlock_t * sched) : rw_sys := mk_rw_sys ms.1 ms.2 [].
Definition demo_reach (s : sched) (ms : rwlock_t * sched) : Prop :=
  rtc rw_step (demo_sys (demo_lock s)) (demo_sys ms) /\ rw_inv (demo_sys ms) /\ enough 4 ms.2.
Lemma demo_reach_wr s ms c : demo_reach s ms -> can_run ms c -> demo_reach s (demo_wr ms).
Proof.
  intros (St & I & E) (B & C%Z.ltb_lt).
  assert (T : rw_step (demo_sys ms) (demo_sys (demo_wr ms))) by (apply (rw_do_wrlock 4 0 c ms.1 ms.2 []); auto; set_solver).
  split; [by eapply rtc_r|]. split; [by eapply rw_step_inv|]. unfold demo_wr, rwlock_wrlock. pose proof B as (_ & -> & _).
  unfold wrlock_round. destruct (_ || _); [|exact E]. destruct I as (Q & SL & W & H & (_ & Q2 & _) & _).
  destruct (wf_block 4 0 ms.2 Q SL W c _ H B Q2 E) as (_ & _ & _ & E'). exact E'.
Qed.
Lemma demo_reach_yield s ms : demo_reach s ms -> demo_reach s (demo_yield ms).
Proof.
  intros (St & I & E).
  assert (T : rw_step (demo_sys ms) (demo_sys (demo_yield ms))) by (apply rw_other; constructor).
  split; [by eapply rtc_r|]. split; [by eapply rw_step_inv|]. destruct I as (Q & SL & W & H & _). by eapply enough_yield.
Qed.
Lemma demo_run_rw s Q W : wf_at s Q [] W -> W (WQ_SYNC 100) = [] -> W (WQ_SYNC 101) = [] -> enough 4 s ->
  let a := demo_lock s in let b := demo_yield (demo_wr a) in let d := demo_yield (demo_wr b) in
  can_run a 1 -> can_run b 4 -> can_run d 3 ->
  g_current_thread (demo_queued s).2 = Some 1 -> rw_writer (demo_queued s).1 = Some 1 ->
  rtc rw_step (demo_sys (demo_lock s)) (demo_freed s).
Proof.
  intros H E1 E2 E a b d Ca Cb Cd Hc Hw.
  assert (Ra : demo_reach s a).
  { split; [apply rtc_refl|]. split; [|by apply enough_wq_init]. exists Q, [], W. cbn. rewrite E1, E2.
    split; [by apply wf_wq_init; [apply wf_wq_init|]|]. split; [done|]. split; [by constructor|]. split; [constructor|set_solver]. }
  assert (Rd : demo_reach s (demo_queued s)).
  { eapply (demo_reach_wr s d 3); [|exact Cd]. eapply demo_reach_yield, (demo_reach_wr s b 4); [|exact Cb].
    by eapply demo_reach_yield, (demo_reach_wr s a 1). }
  destruct Rd as (St & _ & Ed). eapply rtc_r; [exact St|]. unfold demo_freed. rewrite <- (app_nil_r (head_of _ _)).
  by apply (rw_do_wrunlock 4 1).
Qed.
Lemma rwlock_excludes_witness :
  wq_head (wqs (ws_sched (demo_freed (demo2 2))) (WQ_SYNC 101)) = Some 3 /\
  exists t, t ∈ ws_woken (demo_freed (demo2 2)) /\ runnable (ws_sched (demo_freed (demo2 2))) t.
Proof.
  split; [vm_compute; reflexivity|].
  refine (proj2 (proj2 (proj2 (proj2 (rwlock_excludes (WQ_SYNC 100) (WQ_SYNC 101) RWLOCK_PREFER_WRITER (demo2 2) (demo_freed (demo2 2))
    _ _ _ _ _ _ _)))) _ _ _); [| | | | | |eapply demo_run_rw| | |].
  - do 3 eexists. apply (demo2_wf 2). lia.
  - reflexivity.
  - reflexivity.
  - discriminate.
  - vm_compute. reflexivity.
  - vm_compute. reflexivity.
  - apply (demo2_wf 2). lia.
  - reflexivity.
  - reflexivity.
  - apply demo2_enough.
  - split_and!; [split_and!; [vm_compute; reflexivity|vm_compute; reflexivity|vm_compute; discriminate]|vm_compute; reflexivity].
  - split_and!; [split_and!; [vm_compute; reflexivity|vm_compute; reflexivity|vm_compute; discriminate]|vm_compute; reflexivity].
  - split_and!; [split_and!; [vm_compute; reflexivity|vm_compute; reflexivity|vm_compute; discriminate]|vm_compute; reflexivity].
  - vm_compute. reflexivity.
  - vm_compute. reflexivity.
  - vm_compute. reflexivity.
  - vm_compute. reflexivity.
  - right. vm_compute. discriminate.
Defined.

(** ** Mutexes *)
Lemma mutex_lock_cases fuel now m s :
  (mutex_lock fuel now m s = (Some 0, ((mutex_trylock m s).2, s)) /\ (mutex_trylock m s).1 = true /\
   exists c, g_current_thread s = Some c /\
     (m_owner m = None /\ (mutex_trylock m s).2 = acquired m c s \/
      m_owner m = Some c /\ m_type m = MUTEX_TYPE_RECURSIVE /\
      (mutex_trylock m s).2 = with_recursion m (u32 (m_recursion_count m + 1)))) \/
  ((mutex_lock fuel now m s).1 <> Some 0 /\ (mutex_trylock m s).1 = false).
Proof.
  unfold mutex_lock, mutex_trylock. destruct (g_current_thread s) as [c|]; [|by right]. unfold mutex_lock_round.
  destruct (m_owner m) as [o|] eqn:Eo; [|left; eauto 10]. destruct (mutex_apply_priority_inheritance _ _ _) as [m' s'].
  case_bool_decide as B; [injection B as ->; rewrite Z.eqb_refl; destruct (m_type m); eauto 10|].
  right. split; [done|]. destruct (m_type m); try done. by rewrite (proj2 (Z.eqb_neq o c)) by congruence.
Qed.
Lemma mutex_unlock_cases m s :
  (exists c, g_current_thread s = Some c /\ m_owner m = Some c /\ (mutex_unlock m s).1 = 0) \/
  (mutex_unlock m s = (-1, (m, s)) /\ ~ (mutex_is_locked m = true /\ mutex_is_owner m s = true)).
Proof.
  unfold mutex_unlock, mutex_is_locked, mutex_is_owner. destruct (g_current_thread s) as [c|].
  - case_bool_decide as B; [left; exists c; cbn; destruct (m_type m), (1 <? m_recursion_count m); auto|].
    right. split; [done|]. by intros [_ H].
  - right. split; [done|]. intros [H1%bool_decide_eq_true H2%bool_decide_eq_true]. congruence.
Qed.
(** Ownership of a mutex: [mutex_lock] succeeds exactly when
    [mutex_trylock] does, with the same mutex and no change of the scheduler;
    only on a free mutex, or a recursive one of the caller; the caller then
    owns it.  [mutex_unlock] succeeds exactly for the owner, and after a
    successful lock it undoes it: the nesting depth of a recursive mutex is
    back, and a mutex that was free is free. *)
Theorem mutex_ownership fuel now m s :
  let lk := mutex_lock fuel now m s in
  let ul := mutex_unlock m s in
  (lk.1 = Some 0 <-> (mutex_trylock m s).1 = true) /\
  (lk.1 = Some 0 ->
     lk.2 = ((mutex_trylock m s).2, s) /\ mutex_is_owner lk.2.1 s = true /\ mutex_is_locked lk.2.1 = true /\
     (m_owner m = None \/ m_type m = MUTEX_TYPE_RECURSIVE /\ mutex_is_owner m s = true)) /\
  (ul.1 = 0 <-> mutex_is_locked m = true /\ mutex_is_owner m s = true) /\
  (ul.1 <> 0 -> ul = (-1, (m, s))) /\
  (lk.1 = Some 0 -> 0 <= m_recursion_count m < 2 ^ 32 - 1 -> (m_owner m = None <-> m_recursion_count m = 0) ->
     let back := mutex_unlock lk.2.1 s in
     back.1 = 0 /\ m_owner back.2.1 = m_owner m /\ m_recursion_count back.2.1 = m_recursion_count m).
Proof.
  split_and!.
  - destruct (mutex_lock_cases fuel now m s) as [(-> & -> & _)|(N & ->)]; naive_solver.
  - destruct (mutex_lock_cases fuel now m s) as [(-> & _ & c & Hc & Hm)|(N & _)]; [intros _|done].
    unfold mutex_is_owner, mutex_is_locked. rewrite Hc. cbn [fst snd]. split; [done|].
    destruct Hm as [[Ho ->]|(Ho & Ht & ->)]; cbn; rewrite ?Ho, !bool_decide_eq_true_2 by done; auto.
  - destruct (mutex_unlock_cases m s) as [(c & H1 & H2 & ->)|(-> & N)]; [|naive_solver].
    unfold mutex_is_owner, mutex_is_locked. rewrite H1, H2, !bool_decide_eq_true_2 by done. done.
  - destruct (mutex_unlock_cases m s) as [(c & H1 & H2 & ->)|(-> & N)]; done.
  - destruct (mutex_lock_cases fuel now m s) as [(-> & _ & c & Hc & Hm)|(N & _)]; [intros _ B E|done]. cbn zeta. cbn [fst snd].
    unfold mutex_unlock. rewrite Hc. destruct Hm as [[Ho ->]|(Ho & Ht & ->)]; cbn; rewrite bool_decide_eq_true_2 by done; cbn.
    + rewrite Ho, (proj1 E Ho). destruct (m_type m); done.
    + rewrite Ht, u32_small by (unfold is_u32; lia). assert (m_recursion_count m <> 0) by (intros E0; apply E in E0; congruence).
      rewrite (proj2 (Z.ltb_lt _ _)) by lia. cbn. split_and!; auto; lia.
Qed.

(** *** Waiting for a mutex *)
(** Raising or restoring the priority of a thread that is on no run queue. *)
Lemma wf_priority s Q SL W t (g : thread -> Z) :
  wf_at s Q SL W -> t_state (threads s t) <> THREAD_STATE_READY -> 0 <= g (threads s t) < 5 ->
  wf_at (upd_th t (fun k => put_priority (g k) k) s) Q SL W.
Proof.
  intros H Hs Hp. pose proof (proj1 H) as R. eapply wf_keeps; [exact H|by apply keeps_upd|].
  constructor.
  - apply (rq_frame s _ _ []); [apply R|auto|]. intros p' u Hu. destruct (rep_q _ _ _ R p' u Hu) as (? & ? & ?).
    rewrite th_upd_ne by congruence. auto.
  - apply (sl_frame s _ _ []); [apply R|auto|]. intros u Hu. split; [|set_solver].
    destruct (decide (u = t)) as [->|N]; [by rewrite th_upd_eq|by rewrite th_upd_ne].
  - apply (w_frame s _ _ []); [apply R|auto|]. intros q u Hu. split; [|set_solver].
    destruct (decide (u = t)) as [->|N]; [by rewrite th_upd_eq|by rewrite th_upd_ne].
  - intros u Hu. pose proof (rep_all _ _ _ _ _ R u Hu) as HP. unfold in_place in *. destruct (decide (u = t)) as [->|N].
    + rewrite th_upd_eq. cbn. by destruct (t_state (threads s t)).
    + by rewrite th_upd_ne.
  - intros u. pose proof (rep_pri _ _ _ _ _ R u) as [P1 P2]. destruct (decide (u = t)) as [->|N]; [rewrite th_upd_eq; by split|].
    rewrite th_upd_ne by auto. by split.
Qed.
(** The waiter does not outrank an owner that is on a run queue. *)
Definition no_inversion (m : mutex_t) (c : Z) (s : sched) : Prop :=
  forall o, m_owner m = Some o -> t_state (threads s o) = THREAD_STATE_READY ->
            t_priority (threads s c) <= t_priority (threads s o).
Lemma inherit_spec m c s Q SL W : wf_at s Q SL W -> no_inversion m c s ->
  let x := mutex_apply_priority_inheritance m c s in
  wf_at x.2 Q SL W /\ (forall u, t_state (threads x.2 u) = t_state (threads s u)) /\
  g_scheduler_active x.2 = g_scheduler_active s /\ g_current_thread x.2 = g_current_thread s /\ g_idle_thread x.2 = g_idle_thread s /\
  m_waiters x.1 = m_waiters m /\ m_owner x.1 = m_owner m /\ m_recursion_count x.1 = m_recursion_count m.
Proof.
  intros H Hn. unfold mutex_apply_priority_inheritance. destruct (m_owner m) as [o|] eqn:Eo; [|by split_and!].
  destruct (Z.ltb_spec (t_priority (threads s o)) (t_priority (threads s c))) as [L|L]; cbn [fst snd]; [|by split_and!].
  split; [|split; [intros u; by rewrite st_upd|destruct (_ =? _); by split_and!]].
  apply (wf_priority _ _ _ _ _ (fun _ => _)); [auto| |apply (rep_pri _ _ _ _ _ (proj1 H) c)]. intros E. specialize (Hn o Eo E). lia.
Qed.
Lemma enough_same fuel s s' : (forall u, t_state (threads s' u) = t_state (threads s u)) -> enough fuel s -> enough fuel s'.
Proof. intros E He. eapply enough_mono; [exact He|]. intros u. by rewrite E. Qed.
Lemma runnable_same s s' u : (forall u, t_state (threads s' u) = t_state (threads s u)) -> runnable s u -> runnable s' u.
Proof. intros E. unfold runnable. by rewrite E. Qed.

(** A mutex in use: its fields, the scheduler, and the threads that were woken
    inside [mutex_lock] and have not run their next round yet. *)
Record mx_sys := mk_mx_sys { xs_mutex : mutex_t; xs_sched : sched; xs_woken : list Z }.
Inductive mx_step : mx_sys -> mx_sys -> Prop :=
| mx_do_lock fuel now c m s P : may_block s c -> c ∉ P -> enough fuel s -> no_inversion m c s -> m_recursion_count m < 2 ^ 32 - 1 ->
    let x := mutex_lock fuel now m s in mx_step (mk_mx_sys m s P) (mk_mx_sys x.2.1 x.2.2 P)
| mx_do_resume fuel now c m s P1 P2 : may_block s c -> enough fuel s -> no_inversion m c s ->
    let x := mutex_lock_resume fuel now c m s in mx_step (mk_mx_sys m s (P1 ++ c :: P2)) (mk_mx_sys x.2.1 x.2.2 (P1 ++ P2))
| mx_do_trylock m s P : m_recursion_count m < 2 ^ 32 - 1 -> mx_step (mk_mx_sys m s P) (mk_mx_sys (mutex_trylock m s).2 s P)
| mx_do_unlock m s P :
    let x := mutex_unlock m s in
    mx_step (mk_mx_sys m s P)
      (mk_mx_sys x.2.1 x.2.2 (if mutex_is_locked m && negb (mutex_is_locked x.2.1) then head_of (m_waiters m) s ++ P else P))
| mx_other m s s' P : quiet P s s' -> mx_step (mk_mx_sys m s P) (mk_mx_sys m s' P).
Record mx_ok (m : mutex_t) (WQ P : list Z) : Prop := mk_mx_ok {
  xk_free : m_owner m = None -> m_recursion_count m = 0;
  xk_held : m_owner m <> None -> 0 < m_recursion_count m < 2 ^ 32;
  xk_queue : WQ <> [] -> m_owner m <> None \/ P <> []
}.
Definition mx_inv (x : mx_sys) : Prop :=
  let m := x.(xs_mutex) in
  exists Q SL W, wf_at x.(xs_sched) Q SL W /\ is_sync (m_waiters m) = true /\ mx_ok m (W (m_waiters m)) x.(xs_woken) /\
    NoDup x.(xs_woken) /\ (forall t, t ∈ x.(xs_woken) -> runnable x.(xs_sched) t).

Lemma mx_round fuel now c m s Q SL W P P0 :
  wf_at s Q SL W -> is_sync (m_waiters m) = true -> may_block s c -> enough fuel s -> no_inversion m c s ->
  mx_ok m (W (m_waiters m)) P0 -> NoDup P -> c ∉ P -> (forall t, t ∈ P -> runnable s t) ->
  let x := mutex_lock_round fuel now c m s in mx_inv (mk_mx_sys x.2.1 x.2.2 P).
Proof.
  intros H Hs Hb He Hn O ND NP Hr. unfold mutex_lock_round. destruct (m_owner m) as [o|] eqn:Eo.
  - destruct (inherit_spec m c s Q SL W H Hn) as (H1 & S1 & G1 & G2 & G3 & E1 & E2 & E3).
    destruct (mutex_apply_priority_inheritance m c s) as [m1 s1]. cbn [fst snd] in *.
    destruct (wf_block fuel now s1 Q SL W c (m_waiters m1) H1) as (Q' & H' & U & _); [|by rewrite E1|by eapply enough_same|].
    { destruct Hb as (? & ? & ?). split_and!; congruence. }
    do 3 eexists. split; [exact H'|]. cbn. split; [by rewrite E1|]. destruct O. split; [constructor; rewrite E2, ?E3, ?Eo in *; auto|].
    split; [auto|]. intros t Ht. apply U; [by intros ->|]. eapply runnable_same; [exact S1|auto].
  - exists Q, SL, W. split; [exact H|]. cbn. split; [auto|]. split; [constructor; cbn; try done; auto|auto].
Qed.
Lemma mx_inv_fields m m' s Q SL W P : wf_at s Q SL W -> is_sync (m_waiters m) = true -> m_waiters m' = m_waiters m ->
  mx_ok m' (W (m_waiters m)) P -> NoDup P -> (forall t, t ∈ P -> runnable s t) -> mx_inv (mk_mx_sys m' s P).
Proof. intros H Hq E O ND Hr. exists Q, SL, W. split; [exact H|]. cbn. by rewrite E. Qed.
Lemma mx_ok_deeper m WQ P : mx_ok m WQ P -> m_owner m <> None -> m_recursion_count m < 2 ^ 32 - 1 ->
  mx_ok (with_recursion m (u32 (m_recursion_count m + 1))) WQ P.
Proof.
  intros [] Ho Hc. specialize (xk_held0 Ho). constructor; cbn; rewrite ?u32_small by (unfold is_u32; lia); auto; try done; lia.
Qed.
Lemma mx_ok_acquired m c s WQ P : mx_ok (acquired m c s) WQ P.
Proof. constructor; cbn; try done; auto; lia. Qed.
Lemma mx_unlock_inv m s Q SL W P :
  wf_at s Q SL W -> is_sync (m_waiters m) = true -> mx_ok m (W (m_waiters m)) P -> NoDup P -> (forall t, t ∈ P -> runnable s t) ->
  let x := mutex_unlock m s in
  mx_inv (mk_mx_sys x.2.1 x.2.2 (if mutex_is_locked m && negb (mutex_is_locked x.2.1) then head_of (m_waiters m) s ++ P else P)).
Proof.
  intros H Hs O ND Hr. unfold mutex_unlock. pose proof H as (R & _ & (c & Hc & Hcs)). rewrite Hc.
  case_bool_decide as B; cbn [negb fst snd]; [|rewrite andb_negb_r; by eapply mx_inv_fields].
  set (out := released m). set (s2 := wake_head _ _ _).
  assert (Rel : mx_inv (mk_mx_sys out s2 (head_of (m_waiters m) s ++ P))).
  { unfold s2, mutex_restore_priority. rewrite B. set (s1 := upd_th _ _ s).
    assert (H1 : wf_at s1 Q SL W).
    { apply wf_priority; [exact H|by rewrite Hcs|apply (rep_pri _ _ _ _ _ R c)]. }
    destruct (wf_wake_head s1 Q SL W (m_waiters m) H1 Hs) as (Q' & W' & H' & _ & K & Hw).
    change (head_of (m_waiters m) s1) with (head_of (m_waiters m) s) in Hw.
    exists Q', SL, W'. split; [exact H'|]. cbn. split; [auto|]. split.
    - constructor; cbn; try done. intros N. right. destruct Hw as [(E & _ & E0)|(t & _ & -> & _)]; [|done]. by rewrite E, E0 in N.
    - eapply (woken_more s1); [exact K|exact ND| |].
      + intros t Ht. unfold runnable, s1. rewrite st_upd by done. by apply Hr.
      + destruct Hw as [(_ & -> & _)|(t & _ & -> & ? & ?)]; [by left|right; eauto]. }
  assert (L : mutex_is_locked m = true) by (unfold mutex_is_locked; by rewrite B). rewrite L.
  destruct (m_type m); [exact Rel| |exact Rel]. destruct (Z.ltb_spec 1 (m_recursion_count m)) as [C|C]; [|exact Rel]. cbn [fst snd].
  replace (mutex_is_locked (with_recursion _ _)) with true by (unfold mutex_is_locked; cbn; by rewrite B). cbn [negb andb].
  eapply mx_inv_fields with (m := m); eauto. destruct O. specialize (xk_held0 ltac:(congruence)). constructor; cbn; auto; [congruence|lia].
Qed.

Lemma mx_step_inv x y : mx_step x y -> mx_inv x -> mx_inv y.
Proof.
  intros St (Q & SL & W & H & Hs & O & ND & Hr). destruct St; cbn [xs_mutex xs_sched xs_woken] in *.
  - unfold x, mutex_lock. pose proof H0 as (_ & -> & _). case_bool_decide as B; [|by eapply mx_round].
    destruct (m_type m); cbn [fst snd]; [by eapply mx_round|by (eapply mx_inv_fields; eauto; apply mx_ok_deeper; congruence)|by eapply mx_inv_fields].
  - apply list.NoDup_app in ND as (N1 & N12 & N2). apply list.NoDup_cons in N2 as [Nc N2].
    destruct (resumed_same c s) as (B & E & U). unfold x, mutex_lock_resume.
    assert (Hk : forall u, t_priority (threads (resumed c s) u) = t_priority (threads s u) /\ t_state (threads (resumed c s) u) = t_state (threads s u)).
    { intros u. unfold resumed. destruct (decide (u = c)) as [->|N]; [by rewrite th_upd_eq|by rewrite th_upd_ne]. }
    eapply mx_round; eauto; [by apply wf_resumed| |apply list.NoDup_app; set_solver|set_solver|intros t Ht; apply U, Hr; set_solver].
    intros o Ho. rewrite (proj2 (Hk o)), (proj1 (Hk o)), (proj1 (Hk c)). auto.
  - destruct (mutex_lock_cases 0 0 m s) as [(_ & _ & c & Hc & [[Ho ->]|(Ho & Ht & ->)])|(_ & E)].
    + eapply mx_inv_fields with (m := m); eauto. apply mx_ok_acquired.
    + eapply mx_inv_fields with (m := m); eauto. apply mx_ok_deeper; congruence.
    + unfold mutex_trylock in *. destruct (g_current_thread s); [|by eapply mx_inv_fields].
      destruct (m_owner m), (m_type m); try destruct (_ =? _); try done; by eapply mx_inv_fields.
  - by eapply mx_unlock_inv.
  - destruct (quiet_spec P s s' Q SL W H H0) as (Q' & SL' & W' & H' & OW & U). eapply mx_inv_fields; eauto. by rewrite OW.
Qed.

(** Mutexes lose no wake-up: in every state reached from a new mutex by
    threads that lock it, resume, try and unlock it, and by the steps of other
    threads, as long as no waiter outranks a ready owner, the scheduler is
    consistent, the nesting depth is positive exactly while the mutex is held,
    and when the mutex is free while a thread is queued, a woken thread that
    will take it can run. *)
Theorem mutex_no_lost_wakeup q type s0 x :
  sched_wf s0 -> is_sync q = true -> wq_head (wqs s0 q) = None ->
  let i := mutex_init q type s0 in
  rtc mx_step (mk_mx_sys i.1 i.2 []) x ->
  let m := xs_mutex x in let s := xs_sched x in
  sched_wf s /\ (mutex_is_locked m = true <-> 0 < m_recursion_count m) /\
  (mutex_is_locked m = false -> wq_head (wqs s (m_waiters m)) <> None -> exists t, t ∈ xs_woken x /\ runnable s t).
Proof.
  intros (Q & SL & W & H) Hq Eq i St. assert (I : mx_inv x).
  { eapply rtc_preserves; [apply mx_step_inv|exact St|]. exists Q, SL, W. cbn.
    rewrite (rep_w_head _ _ _ (proj1 H)) in Eq. assert (E : W q = []) by (by destruct (W q)). rewrite E.
    split; [by apply wf_wq_init|]. split; [auto|]. split; [by constructor|]. split; [constructor|set_solver]. }
  destruct I as (Q' & SL' & W' & H' & _ & [F1 F2 F3] & _ & Hrun). split; [by do 3 eexists|]. unfold mutex_is_locked. split.
  - destruct (m_owner (xs_mutex x)); [rewrite bool_decide_eq_true_2 by done; naive_solver lia|].
    rewrite bool_decide_eq_false_2 by (by intros []). rewrite F1 by done. naive_solver lia.
  - intros N0%bool_decide_eq_false Hw. rewrite (rep_w_head _ _ _ (proj1 H')) in Hw.
    destruct F3 as [?|N]; [by intros E; rewrite E in Hw|done|]. destruct (xs_woken x) as [|t P]; [done|].
    exists t. split; [left|apply Hrun; left].
Qed.

(** An owner, two threads that queue behind it, and its unlock. *)
Definition demo_mx (s : sched) : mutex_t * sched := mutex_init demo_q MUTEX_TYPE_NORMAL s.
Definition mx_lock (ms : mutex_t * sched) : mutex_t * sched := (mutex_lock 4 0 ms.1 ms.2).2.
Definition mx_yield (ms : mutex_t * sched) : mutex_t * sched := (ms.1, thread_yield 0 ms.2).
Definition mx_queued (s : sched) : mutex_t * sched := mx_lock (mx_yield (mx_lock (mx_yield (mx_lock (demo_mx s))))).
Definition mx_freed (s : sched) : mx_sys :=
  let ms := mx_queued s in let x := mutex_unlock ms.1 ms.2 in mk_mx_sys x.2.1 x.2.2 (head_of (m_waiters ms.1) ms.2).
Definition mx_at (ms : mutex_t * sched) : mx_sys := mk_mx_sys ms.1 ms.2 [].
Definition mx_reach (s : sched) (ms : mutex_t * sched) : Prop :=
  rtc mx_step (mx_at (demo_mx s)) (mx_at ms) /\ mx_inv (mx_at ms) /\ enough 4 ms.2.
Definition mx_can (ms : mutex_t * sched) (c : Z) : Prop :=
  may_block ms.2 c /\ (m_recursion_count ms.1 <? 2 ^ 32 - 1) = true /\
  match m_owner ms.1 with
  | Some o => (t_priority (threads ms.2 c) <=? t_priority (threads ms.2 o)) && negb (o =? c)
  | None => true
  end = true.
Lemma mx_reach_lock s ms c : mx_reach s ms -> mx_can ms c -> mx_reach s (mx_lock ms).
Proof.
  intros (St & I & E) (B & C%Z.ltb_lt & N).
  assert (NI : no_inversion ms.1 c ms.2).
  { intros o Ho _. rewrite Ho in N. apply andb_true_iff in N as [N%Z.leb_le _]. lia. }
  assert (T : mx_step (mx_at ms) (mx_at (mx_lock ms))) by (apply (mx_do_lock 4 0 c ms.1 ms.2 []); auto; set_solver).
  split; [by eapply rtc_r|]. split; [by eapply mx_step_inv|]. unfold mx_lock, mutex_lock. pose proof B as (B1 & B2 & B3). rewrite B2.
  destruct I as (Q & SL & W & H & Q1 & _). destruct (inherit_spec ms.1 c ms.2 Q SL W H NI) as (H1 & S1 & G1 & G2 & G3 & E1 & _ & _).
  unfold mutex_lock_round. destruct (m_owner ms.1) as [o|] eqn:Eo; [|exact E].
  apply andb_true_iff in N as [_ N%negb_true_iff%Z.eqb_neq]. rewrite bool_decide_eq_false_2 by congruence.
  destruct (mutex_apply_priority_inheritance ms.1 c ms.2) as [m1 s1]. cbn [fst snd] in *.
  destruct (wf_block 4 0 s1 Q SL W c (m_waiters m1) H1) as (_ & _ & _ & E'); [|by rewrite E1|by eapply enough_same|exact E'].
  split_and!; congruence.
Qed.
Lemma mx_reach_yield s ms : mx_reach s ms -> mx_reach s (mx_yield ms).
Proof.
  intros (St & I & E).
  assert (T : mx_step (mx_at ms) (mx_at (mx_yield ms))) by (apply mx_other; constructor).
  split; [by eapply rtc_r|]. split; [by eapply mx_step_inv|]. destruct I as (Q & SL & W & H & _). by eapply enough_yield.
Qed.
Lemma mx_run s Q W : wf_at s Q [] W -> W demo_q = [] -> enough 4 s ->
  let a := demo_mx s in let b := mx_yield (mx_lock a) in let d := mx_yield (mx_lock b) in
  mx_can a 1 -> mx_can b 4 -> mx_can d 3 ->
  mutex_is_locked (mx_queued s).1 && negb (mutex_is_locked (mutex_unlock (mx_queued s).1 (mx_queued s).2).2.1) = true ->
  rtc mx_step (mx_at a) (mx_freed s).
Proof.
  intros H E1 E a b d Ca Cb Cd Hl.
  assert (Ra : mx_reach s a).
  { split; [apply rtc_refl|]. split; [|by apply enough_wq_init]. exists Q, [], W. cbn. rewrite E1.
    split; [by apply wf_wq_init|]. split; [done|]. split; [by constructor|]. split; [constructor|set_solver]. }
  assert (Rd : mx_reach s (mx_queued s)).
  { eapply (mx_reach_lock s d 3); [|exact Cd]. eapply mx_reach_yield, (mx_reach_lock s b 4); [|exact Cb].
    by eapply mx_reach_yield, (mx_reach_lock s a 1). }
  destruct Rd as (St & _ & Ed). eapply rtc_r; [exact St|]. pose proof (mx_do_unlock (mx_queued s).1 (mx_queued s).2 []) as T.
  cbn zeta in T. rewrite Hl, app_nil_r in T. exact T.
Qed.
Lemma mutex_no_lost_wakeup_witness :
  wq_head (wqs (xs_sched (mx_freed (demo2 2))) demo_q) = Some 3 /\
  exists t, t ∈ xs_woken (mx_freed (demo2 2)) /\ runnable (xs_sched (mx_freed (demo2 2))) t.
Proof.
  split; [vm_compute; reflexivity|].
  refine (proj2 (proj2 (mutex_no_lost_wakeup demo_q MUTEX_TYPE_NORMAL (demo2 2) (mx_freed (demo2 2)) _ _ _ _)) _ _);
    [| | |eapply mx_run| |].
  - do 3 eexists. apply (demo2_wf 2). lia.
  - reflexivity.
  - vm_compute. reflexivity.
  - apply (demo2_wf 2). lia.
  - reflexivity.
  - apply demo2_enough.
  - split_and!; [split_and!; [vm_compute; reflexivity|vm_compute; reflexivity|vm_compute; discriminate]|vm_compute; reflexivity..].
  - split_and!; [split_and!; [vm_compute; reflexivity|vm_compute; reflexivity|vm_compute; discriminate]|vm_compute; reflexivity..].
  - split_and!; [split_and!; [vm_compute; reflexivity|vm_compute; reflexivity|vm_compute; discriminate]|vm_compute; reflexivity..].
  - vm_compute. reflexivity.
  - vm_compute. reflexivity.
  - vm_compute. discriminate.
Defined.

(** *** Where inheritance fails *)
Lemma dseg_det th p p' l l' : dseg th p l None -> dseg th p' l' None -> hd_or l None = hd_or l' None -> l = l'.
Proof.
  revert p p' l'; induction l as [|t l IH]; intros p p' [|t' l']; try done. cbn. intros (_ & E1 & D1) (_ & E2 & D2) [= <-].
  f_equal. eapply IH; eauto. congruence.
Qed.
Lemma pick_from_queues n s s' : g_run_queues s' = g_run_queues s -> g_idle_thread s' = g_idle_thread s ->
  (pick_from n s').1 = (pick_from n s).1.
Proof.
  intros Er Ei. induction n as [|n IH]; cbn; [done|]. replace (rq_head s' (Z.of_nat n)) with (rq_head s (Z.of_nat n)) by (unfold rq_head; by rewrite Er).
  destruct (rq_head s (Z.of_nat n)); done.
Qed.
(** Priority inheritance does not help a ready owner: the owner gets the
    priority of the waiter but stays on the run queue of its old priority, so
    the scheduler picks the same thread as without inheritance, and its
    structures are no longer consistent. *)
Theorem inheritance_ineffective s Q SL W m o c p :
  wf_at s Q SL W -> m_owner m = Some o -> o ∈ Q p -> p < t_priority (threads s c) ->
  let s' := (mutex_apply_priority_inheritance m c s).2 in
  t_priority (threads s' o) = t_priority (threads s c) /\ (scheduler_pick_next s').1 = (scheduler_pick_next s).1 /\ ~ sched_wf s'.
Proof.
  intros H Ho Hq Hp. pose proof (proj1 H) as R. destruct (rep_q _ _ _ R p o Hq) as (Hs & Hpr & _).
  unfold mutex_apply_priority_inheritance. rewrite Ho, Hpr, (proj2 (Z.ltb_lt _ _)) by lia. cbn [snd].
  split_and!; [by rewrite th_upd_eq|by apply pick_from_queues|]. intros (Q' & SL' & W' & (R' & _)).
  assert (Rp : 0 <= p < 5) by (rewrite <- Hpr; apply R). assert (E : Q p = Q' p).
  { eapply dseg_det; [|apply (rep_dll _ _ _ R' p)|].
    - eapply dseg_frame; [|apply (rep_dll _ _ _ R p)]. intros u _. destruct (decide (u = o)) as [->|N]; [by rewrite th_upd_eq|by rewrite th_upd_ne].
    - rewrite <- (rep_head _ _ _ R p Rp), <- (rep_head _ _ _ R' p Rp). done. }
  rewrite E in Hq. destruct (rep_q _ _ _ R' p o Hq) as (_ & Hpr' & _). rewrite th_upd_eq in Hpr'. cbn in Hpr'. lia.
Qed.
Lemma inheritance_ineffective_witness :
  let m := acquired (mk_mutex demo_q None 0 MUTEX_TYPE_NORMAL 2) 4 (demo2 1) in
  let s' := (mutex_apply_priority_inheritance m 1 (demo2 1)).2 in
  t_priority (threads s' 4) = 2 /\ ~ sched_wf s'.
Proof.
  cbn zeta. destruct (inheritance_ineffective (demo2 1) (abs_push 1 4 (abs_push 1 3 (fun _ => []))) [] (fun _ => [])
    (acquired (mk_mutex demo_q None 0 MUTEX_TYPE_NORMAL 2) 4 (demo2 1)) 4 1 1) as (E & _ & N).
  - apply (demo2_wf 1). lia.
  - reflexivity.
  - change (4 ∈ [4; 3]). left.
  - vm_compute. reflexivity.
  - split; [vm_compute; reflexivity|exact N].
Defined.

(** ** Condition variables *)
Lemma link_links fuel q t s u : exists n, threads (link_waiter fuel q t s) u = put_wait_queue_next n (threads s u).
Proof.
  unfold link_waiter. assert (Put : forall k, put_wait_queue_next (t_wait_queue_next k) k = k) by (by intros []).
  assert (St : forall s1 x n, (exists n', threads s1 u = put_wait_queue_next n' (threads s u)) ->
            exists n', threads (upd_th x (put_wait_queue_next n) s1) u = put_wait_queue_next n' (threads s u)).
  { intros s1 x n [n' E]. destruct (decide (u = x)) as [->|N]; [rewrite th_upd_eq, E; by exists n|rewrite th_upd_ne by auto; eauto]. }
  destruct (wq_head (wqs s q)); rewrite th_upd_wq; apply St; [apply St|rewrite th_upd_wq]; by exists (t_wait_queue_next (threads s u)).
Qed.
(** A user thread does not wait in [condvar_wait]: it links itself to the
    queue, releases the mutex, leaves the loop at once without giving up the
    CPU, takes the mutex back and returns with [needs_yield] false, so the
    check at the end of the system call, which yields for it, does not.  It
    goes on in user mode holding the mutex, in state [BLOCKED], although
    nothing was signalled; when it is preempted, it is not ready, and a thread
    that must take the mutex before signalling blocks. *)
Theorem condvar_user_wait_returns fuel now v m s c pid :
  g_current_thread s = Some c -> t_owner (threads s c) = Some pid -> m_owner m = Some c -> m_type m <> MUTEX_TYPE_RECURSIVE ->
  cv_waiters v <> m_waiters m -> wq_head (wqs s (m_waiters m)) = None ->
  let w := condvar_wait fuel now v m s in
  let lk := mutex_lock fuel now w.1 w.2 in
  let s' := condvar_wait_end c lk.2.2 in
  lk.1 = Some 0 /\ m_owner lk.2.1 = Some c /\ g_current_thread s' = Some c /\
  t_state (threads s' c) = THREAD_STATE_BLOCKED /\ t_needs_yield (threads s' c) = false.
Proof.
  intros Hc Ho Hm Ht Nq Hw. unfold condvar_wait, condvar_wait_begin. rewrite Hc. unfold block_on. set (s0 := upd_th c _ s).
  destruct (link_rest fuel (cv_waiters v) c s0) as (_ & G2 & _ & _). destruct (link_links fuel (cv_waiters v) c s0 c) as [n En].
  set (s1 := link_waiter fuel _ c s0) in *. assert (G : g_current_thread s1 = Some c) by (rewrite G2; exact Hc).
  assert (Eq : wqs s1 (m_waiters m) = wqs s (m_waiters m)).
  { unfold s1, link_waiter. destruct (wq_head (wqs s0 (cv_waiters v))); cbn; by rewrite !bool_decide_eq_false_2 by auto. }
  unfold mutex_unlock. rewrite G, Hm, bool_decide_eq_true_2 by done. cbn [negb].
  assert (Ew : forall s2, wqs s2 (m_waiters m) = wqs s (m_waiters m) -> wake_head (m_waiters m) (fun k => k) s2 = s2).
  { intros s2 E2. unfold wake_head. by rewrite E2, Hw. }
  unfold mutex_restore_priority. rewrite Hm, Ew by exact Eq.
  assert (ET : forall n, (match m_type m, 1 <? n with
    | MUTEX_TYPE_RECURSIVE, true => (0, (with_recursion m (m_recursion_count m - 1), s1))
    | _, _ => (0, (released m, upd_th c (fun k => put_priority k.(t_base_priority) k) s1)) end) =
    (0, (released m, upd_th c (fun k => put_priority k.(t_base_priority) k) s1))) by (intros ?; by destruct (m_type m)).
  rewrite ET. cbn [fst snd]. unfold condvar_wait_loop. rewrite !th_upd_eq, En. unfold s0. rewrite th_upd_eq. cbn -[mutex_lock condvar_wait_end].
  rewrite Ho. fold s0. fold s1. change (is_st THREAD_STATE_BLOCKED THREAD_STATE_BLOCKED) with true. cbv iota.
  set (s2 := upd_th c (put_needs_yield true) _).
  assert (E2 : t_state (threads s2 c) = THREAD_STATE_BLOCKED /\ g_current_thread s2 = Some c).
  { split; [|exact G]. unfold s2. rewrite !th_upd_eq, En. unfold s0. by rewrite th_upd_eq. }
  destruct E2 as [E2 E3]. unfold mutex_lock, mutex_lock_round. rewrite E3. cbn [m_owner released]. rewrite bool_decide_eq_false_2 by done. unfold condvar_wait_end. cbn [fst snd m_owner acquired].
  split_and!; [done..|exact E3|by rewrite th_upd_eq|by rewrite th_upd_eq].
Qed.
(** A thread of process 7 that got the CPU. *)
Definition demo_user : sched := thread_yield 0 (thread_create_in_process (Some 7) (Some 5) true 2 0 (demo2 2)).2.
Definition demo_um : mutex_t * sched := (mutex_lock 4 0 (demo_mx demo_user).1 (demo_mx demo_user).2).2.
Lemma condvar_user_wait_returns_witness :
  let v := mk_cv (WQ_SYNC 102) 0 in
  let w := condvar_wait 5 0 v demo_um.1 demo_um.2 in
  let lk := mutex_lock 5 0 w.1 w.2 in
  m_owner lk.2.1 = Some 5 /\ t_state (threads (condvar_wait_end 5 lk.2.2) 5) = THREAD_STATE_BLOCKED.
Proof.
  cbn zeta. destruct (condvar_user_wait_returns 5 0 (mk_cv (WQ_SYNC 102) 0) demo_um.1 demo_um.2 5 7) as (_ & E1 & _ & E2 & _);
    [vm_compute; reflexivity|vm_compute; reflexivity|vm_compute; reflexivity|vm_compute; discriminate|vm_compute; discriminate|vm_compute; reflexivity|].
  split; [exact E1|exact E2].
Defined.

(** Signalling a condition variable only wakes: the scheduler stays
    consistent, as [thread_exit] needs of the signal to the reaper. *)
Lemma mild_wake_tick : mild (put_wake_tick 0).
Proof. by intros k. Qed.
Lemma condvar_signal_only_wakes v : is_sync (cv_waiters v) = true -> only_wakes (fun s => (condvar_signal v s).2).
Proof.
  intros Hq s Q SL W R. cbn. destruct (W (cv_waiters v)) as [|t l] eqn:EW.
  - erewrite wake_head_empty by eauto. exists Q, W. split; [exact R|reflexivity].
  - destruct (rep_wake_head s Q SL W (cv_waiters v) (put_wake_tick 0) t l R Hq mild_wake_tick EW) as (R' & K' & _). eauto.
Qed.

(** [condvar_signal] makes the first waiter ready, [condvar_broadcast] all of
    them, and the scheduler stays consistent. *)
Theorem condvar_wakes fuel v s Q SL W : wf_at s Q SL W -> is_sync (cv_waiters v) = true -> enough fuel s ->
  (sched_wf (condvar_signal v s).2 /\
   forall t, wq_head (wqs s (cv_waiters v)) = Some t -> t_state (threads (condvar_signal v s).2 t) = THREAD_STATE_READY) /\
  (sched_wf (condvar_broadcast fuel v s).2 /\ wq_head (wqs (condvar_broadcast fuel v s).2 (cv_waiters v)) = None /\
   forall t, t ∈ W (cv_waiters v) -> t_state (threads (condvar_broadcast fuel v s).2 t) = THREAD_STATE_READY).
Proof.
  intros H Hq He. pose proof (proj1 H) as R. split.
  - rewrite (rep_w_head _ _ _ R). cbn. destruct (W (cv_waiters v)) as [|t l] eqn:EW.
    + erewrite wake_head_empty by eauto. split; [by do 3 eexists|done].
    + destruct (rep_wake_head s Q SL W _ _ t l R Hq mild_wake_tick EW) as (R' & K' & T').
      split; [do 3 eexists; eapply wf_keeps; [exact H|exact K'|exact R']|]. intros u [= <-]. exact T'.
  - destruct (wake_waiters_spec fuel s Q SL W (cv_waiters v) _ R Hq mild_wake_tick) as (Q' & W' & R' & E' & _ & K' & T').
    { eapply enough_wq; [exact R|exact He]. }
    change (condvar_broadcast fuel v s).2 with (wake_waiters fuel (cv_waiters v) (put_wake_tick 0) s). rewrite (rep_w_head _ _ _ R'), E'. split; [do 3 eexists; eapply wf_keeps; [exact H|exact K'|exact R']|]. auto.
Qed.

(** *** Timed waits *)
(** A thread in a timed wait is in state [SLEEPING] but not on the sleep queue,
    so no tick wakes it: here the semaphore is never posted, the timeout is 30
    ticks, and 100000 ticks later the thread is still asleep. *)
Definition demo_timed : sched := (sem_timedwait 4 0 30 (demo_sem (demo2 2)).1 (demo_sem (demo2 2)).2).2.2.
Lemma sem_timedwait_never_wakes :
  t_wake_tick (threads demo_timed 1) = 30 /\ g_sleep_queue demo_timed = None /\
  t_state (threads (fold_left (fun s now => scheduler_tick 4 now s) [10; 20; 30; 40; 100000] demo_timed) 1) = THREAD_STATE_SLEEPING.
Proof. split_and!; vm_compute; reflexivity. Qed.

(** ** Joining a thread *)
(** Nothing but [thread_exit] and [thread_kill] writes an exit status. *)
Definition same_exit (s s' : sched) : Prop := forall u, t_exit_status (threads s' u) = t_exit_status (threads s u).
#[export] Instance same_exit_po : PreOrder same_exit.
Proof. split; [done|]. intros a b c H1 H2 u. by rewrite H2. Qed.
Lemma se_upd t f s s0 : (forall k, t_exit_status (f k) = t_exit_status k) -> same_exit s0 s -> same_exit s0 (upd_th t f s).
Proof. intros Hf H u. rewrite <- H. cbn. by destruct (u =? t). Qed.
Lemma se_opt o f s s0 : (forall k, t_exit_status (f k) = t_exit_status k) -> same_exit s0 s -> same_exit s0 (upd_opt o f s).
Proof. intros Hf H. destruct o; [by apply se_upd|exact H]. Qed.
Lemma se_threads s0 s s' : threads s' = threads s -> same_exit s0 s -> same_exit s0 s'.
Proof. intros E H u. by rewrite E. Qed.
Lemma se_enqueue t s s0 : same_exit s0 s -> same_exit s0 (scheduler_enqueue t s).
Proof.
  intros H. unfold scheduler_enqueue. destruct (is_st _ _); [exact H|]. set (s1 := set_rq _ _ _).
  assert (H1 : same_exit s0 s1) by (eapply se_threads; [reflexivity|]; apply se_opt; [done|]; by repeat apply se_upd).
  destruct (negb _); [by apply se_upd|exact H1].
Qed.
Lemma se_dequeue t s s0 : same_exit s0 s -> same_exit s0 (scheduler_dequeue t s).
Proof.
  intros H. unfold scheduler_dequeue, clear_links, unlink. apply se_upd; [done|]. apply se_opt; [done|].
  destruct (t_sched_prev _); [by apply se_upd|]. by case_bool_decide.
Qed.
Lemma se_pick n s s0 : same_exit s0 s -> same_exit s0 (pick_from n s).2.
Proof.
  intros H. induction n as [|n IH]; cbn; [exact H|]. destruct (rq_head _ _); [|exact IH].
  unfold pop_rq, clear_links. apply se_upd; [done|]. by apply se_opt.
Qed.
Lemma leave_cpu_exit now k : t_exit_status (leave_cpu now k) = t_exit_status k.
Proof. unfold leave_cpu. by destruct (0 <? _), (t_is_boosted _). Qed.
Lemma se_schedule now s s0 : same_exit s0 s -> same_exit s0 (scheduler_schedule now s).
Proof.
  intros H. unfold scheduler_schedule. destruct (negb _); [exact H|].
  pose proof (se_pick (Z.to_nat THREAD_PRIORITY_COUNT) s s0 H) as H1. unfold scheduler_pick_next.
  destruct (pick_from _ s) as [o s1]. cbn [snd] in H1. destruct (match o with Some _ => _ | None => _ end) as [t|]; [|exact H1].
  case_bool_decide; [exact H1|]. unfold switch_to.
  assert (H2 : same_exit s0 (upd_opt (g_current_thread s) (leave_cpu now) s1)) by (apply se_opt; [apply leave_cpu_exit|exact H1]).
  set (s2 := upd_opt _ _ s1) in *. eapply se_threads; [reflexivity|]. apply se_upd; [done|].
  destruct (g_current_thread s) as [c|]; [|exact H2]. destruct (_ || _); [|exact H2]. by apply se_enqueue, se_upd.
Qed.
Lemma se_wake_all fuel q s s0 : same_exit s0 s -> same_exit s0 (wait_queue_wake_all fuel q s).
Proof.
  revert s; induction fuel as [|fuel IH]; intros s H; [exact H|]. cbn [wait_queue_wake_all]. unfold wait_queue_dequeue_locked.
  destruct (wq_head _); [|exact H]. apply IH. by apply se_enqueue, se_upd, se_upd.
Qed.
Lemma se_signal v s s0 : same_exit s0 s -> same_exit s0 (condvar_signal v s).2.
Proof. intros H. cbn. unfold wake_head. destruct (wq_head _); [|exact H]. by apply se_enqueue, se_upd. Qed.
Lemma exit_status fuel now status v s c : g_current_thread s = Some c -> g_idle_thread s <> Some c ->
  t_exit_status (threads (thread_exit fuel now status (fun s => (condvar_signal v s).2) s) c) = status.
Proof.
  intros Hc Hi. unfold thread_exit. rewrite Hc, bool_decide_eq_false_2 by auto. set (s1 := upd_th c _ s).
  replace status with (t_exit_status (threads s1 c)) by (unfold s1; by rewrite th_upd_eq).
  enough (same_exit s1 (scheduler_schedule now (reaper_add_zombie (fun s => (condvar_signal v s).2) c (scheduler_dequeue c
    (upd_th c (put_state THREAD_STATE_ZOMBIE) (wait_queue_wake_all fuel (WQ_JOIN c) s1)))))) as E by apply E.
  apply se_schedule. unfold reaper_add_zombie. set (s2 := scheduler_dequeue c _).
  assert (H2 : same_exit s1 s2) by (by apply se_dequeue, se_upd, se_wake_all). case_bool_decide; [exact H2|].
  apply se_signal. unfold reaper_push. eapply se_threads; [reflexivity|]. by apply se_upd.
Qed.

(** A join returns the status of the exit: when a thread exits, the
    scheduler stays consistent, the thread is a zombie with the status it
    passed, every thread that was waiting to join it can run, and its next
    pass through [thread_join] returns that status (unless its wait was marked
    as timed out). *)
Theorem join_returns_exit_status fuel now status v s Q SL W c :
  wf_at s Q SL W -> may_block s c -> is_sync (cv_waiters v) = true -> enough fuel s ->
  let s' := thread_exit fuel now status (fun s => (condvar_signal v s).2) s in
  sched_wf s' /\ is_thread_zombie c s' = true /\
  forall u, u ∈ W (WQ_JOIN c) -> runnable s' u /\
    (t_wait_result (threads s' u) = 0 -> forall now', (thread_join_resume now' c u s').1 = Some status).
Proof.
  intros H (Ha & Hc & Hi) Hv He s'.
  destruct (wf_exit fuel now status _ s Q SL W c H Ha Hc Hi (condvar_signal_only_wakes v Hv)) as (Q' & W' & H' & Z' & J').
  assert (Zb : is_thread_zombie c s' = true) by (unfold is_thread_zombie, is_st; by apply bool_decide_eq_true_2).
  split; [by do 3 eexists|]. split; [exact Zb|]. intros u Hu. split.
  - apply J'. rewrite take_ge; [exact Hu|]. eapply enough_wq; [apply H|exact He].
  - intros Hr now'. unfold thread_join_resume, wait_round. rewrite Zb. cbn [orb]. unfold wait_end. rewrite Hr. cbn [Z.eqb joined fst].
    f_equal. rewrite <- (exit_status fuel now status v s c Hc Hi). fold s'. cbn. by destruct (c =? u).
Qed.
(** The main thread waits for thread 3, which got the CPU. *)
Definition demo_join : sched := thread_yield 0 demo_wait.
Lemma wait_yield_wf q now timeout s Q SL W c fuel :
  wf_at s Q SL W -> may_block s c -> is_sync q = false -> enough fuel s ->
  let s' := thread_yield now (wait_block q now c (wait_begin q now timeout c s)) in
  exists Q', wf_at s' Q' SL (<[q := W q ++ [c]]> W) /\ enough fuel s'.
Proof.
  intros H (Ha & Hc & Hi) Hq He. destruct (wf_wait q now timeout s Q SL W c H Ha Hc Hi Hq) as (Q1 & H1 & _ & E1).
  destruct (yield_quiet now _ Q1 _ _ H1) as (Q' & H' & _). exists Q'. split; [exact H'|]. eapply enough_yield; [exact H1|auto].
Qed.
Lemma demo_join_wf : exists Q, wf_at demo_join Q [] (<[WQ_JOIN 3 := [1]]> (fun _ => [])) /\ enough 4 demo_join.
Proof.
  unfold demo_join, demo_wait. apply (wait_yield_wf (WQ_JOIN 3) 0 30 (demo2 2) _ _ _ 1 4 (demo2_wf 2 ltac:(lia)));
    [split_and!; [vm_compute; reflexivity|vm_compute; reflexivity|vm_compute; discriminate]|reflexivity|apply demo2_enough].
Qed.
Lemma join_returns_exit_status_witness :
  let s' := thread_exit 4 0 42 (fun s => (condvar_signal (mk_cv (WQ_SYNC 102) 0) s).2) demo_join in
  runnable s' 1 /\ (thread_join_resume 0 3 1 s').1 = Some 42.
Proof.
  cbn zeta. destruct demo_join_wf as (Q & H & E).
  destruct (join_returns_exit_status 4 0 42 (mk_cv (WQ_SYNC 102) 0) demo_join Q [] _ 3 H) as (_ & _ & J);
    [split_and!; [vm_compute; reflexivity|vm_compute; reflexivity|vm_compute; discriminate]|reflexivity|exact E|].
  destruct (J 1) as [J1 J2]; [rewrite fn_lookup_insert; left|]. split; [exact J1|]. apply J2. vm_compute. reflexivity.
Defined.
