(* ===== verification/Ext2.v ===== *)
(** The ext2 file system driver (src/fs/ext2.c, src/fs/ext2.h).

    The structures on the disk (superblock, group descriptors, inodes,
    directory entries) are packed C structures, read and written by casting
    buffers; here they are the bytes themselves, and a field is a little-endian
    number at its offset.  The disk is a function from sector numbers to
    sectors; which sectors fail to be read or written and which requests the
    kernel heap refuses are inputs of the model.  Functions that return a
    pointer or [-1] return an option or a boolean here; the state they change
    is the context [ext2_fs_t], whose last field is the disk. *)
From S2P Require Import Prelude.

(** ** Buffers *)
(** [memcpy(dst + off, src, n)] where [src] is exactly the bytes copied. *)
Definition blit (dst : list Z) (off : Z) (src : list Z) : list Z :=
  take (Z.to_nat off) dst ++ src ++ drop (Z.to_nat off + length src) dst.
Definition put16 (b : list Z) (i v : Z) : list Z := blit b i (le16 v).
Definition put32 (b : list Z) (i v : Z) : list Z := blit b i (le32 v).
Definition zeros (n : Z) : list Z := replicate (Z.to_nat n) 0.

(** [strncmp] of the driver; the strings are read up to their NUL. *)
Fixpoint strncmp (n : nat) (s1 s2 : list Z) : Z :=
  match n with
  | O => 0
  | S n' =>
      let a := default 0 (head s1) in
      let b := default 0 (head s2) in
      if negb (a =? 0) && (a =? b) then strncmp n' (tail s1) (tail s2) else a - b
  end.

(** ** The disk *)
Record disk := mk_disk {
  sectors : Z -> list Z;
  rd_ok : Z -> bool;
  wr_ok : Z -> bool;
  mem_ok : Z -> bool
}.
(** The driver sends 28 bits of the sector number. *)
Definition lba28 (lba : Z) : Z := lba mod 2 ^ 28.
Fixpoint ata_read_sectors (count : nat) (lba : Z) (d : disk) : option (list Z) :=
  match count with
  | O => Some []
  | S count' =>
      if d.(rd_ok) (lba28 lba) then
        match ata_read_sectors count' (u32 (lba + 1)) d with
        | Some rest => Some (d.(sectors) (lba28 lba) ++ rest)
        | None => None
        end
      else None
  end.
Definition set_sector (lba : Z) (s : list Z) (d : disk) : disk :=
  mk_disk (fun l => if l =? lba then s else d.(sectors) l) d.(rd_ok) d.(wr_ok) d.(mem_ok).
Fixpoint ata_write_sectors (count : nat) (lba : Z) (buffer : list Z) (d : disk) : bool * disk :=
  match count with
  | O => (true, d)
  | S count' =>
      if d.(wr_ok) (lba28 lba)
      then ata_write_sectors count' (u32 (lba + 1)) (drop 512 buffer) (set_sector (lba28 lba) (take 512 buffer) d)
      else (false, d)
  end.

(** ** The context *)
Record ext2_fs_t := mk_fs {
  superblock : list Z;
  group_descs : list Z;
  block_size : Z;
  inodes_per_group : Z;
  blocks_per_group : Z;
  num_groups : Z;
  inode_size : Z;
  device : disk
}.
Definition with_superblock (fs : ext2_fs_t) (v : list Z) : ext2_fs_t :=
  mk_fs v fs.(group_descs) fs.(block_size) fs.(inodes_per_group) fs.(blocks_per_group) fs.(num_groups) fs.(inode_size) fs.(device).
Definition with_group_descs (fs : ext2_fs_t) (v : list Z) : ext2_fs_t :=
  mk_fs fs.(superblock) v fs.(block_size) fs.(inodes_per_group) fs.(blocks_per_group) fs.(num_groups) fs.(inode_size) fs.(device).
Definition with_device (fs : ext2_fs_t) (v : disk) : ext2_fs_t :=
  mk_fs fs.(superblock) fs.(group_descs) fs.(block_size) fs.(inodes_per_group) fs.(blocks_per_group) fs.(num_groups) fs.(inode_size) v.
Definition kmalloc_ok (fs : ext2_fs_t) (size : Z) : bool := fs.(device).(mem_ok) size.

(** Superblock fields *)
Definition s_blocks_count (b : list Z) : Z := rd32 b 4.
Definition s_first_data_block (b : list Z) : Z := rd32 b 20.
Definition s_log_block_size (b : list Z) : Z := rd32 b 24.
Definition s_blocks_per_group (b : list Z) : Z := rd32 b 32.
Definition s_inodes_per_group (b : list Z) : Z := rd32 b 40.
Definition s_magic (b : list Z) : Z := rd16 b 56.
Definition s_state (b : list Z) : Z := rd16 b 58.
Definition s_rev_level (b : list Z) : Z := rd32 b 76.
Definition s_inode_size (b : list Z) : Z := rd16 b 88.
Definition EXT2_MAGIC : Z := 0xEF53.
Definition EXT2_ROOT_INODE : Z := 2.
Definition EXT2_VALID_FS : Z := 1.
Definition EXT2_ERROR_FS : Z := 2.

(** Group descriptor fields *)
Definition sizeof_group_desc : Z := 32.
Definition gd32 (fs : ext2_fs_t) (group off : Z) : Z := rd32 fs.(group_descs) (sizeof_group_desc * group + off).
Definition gd16 (fs : ext2_fs_t) (group off : Z) : Z := rd16 fs.(group_descs) (sizeof_group_desc * group + off).
Definition put_gd16 (fs : ext2_fs_t) (group off v : Z) : ext2_fs_t :=
  with_group_descs fs (put16 fs.(group_descs) (sizeof_group_desc * group + off) (u16 v)).
Definition bg_inode_table (fs : ext2_fs_t) (group : Z) : Z := gd32 fs group 8.
Definition bg_used_dirs_count : Z := 16.

(** Inode fields *)
Definition sizeof_inode : Z := 128.
Definition i_mode (i : list Z) : Z := rd16 i 0.
Definition i_uid (i : list Z) : Z := rd16 i 2.
Definition i_size (i : list Z) : Z := rd32 i 4.
Definition i_atime (i : list Z) : Z := rd32 i 8.
Definition i_ctime (i : list Z) : Z := rd32 i 12.
Definition i_mtime (i : list Z) : Z := rd32 i 16.
Definition i_gid (i : list Z) : Z := rd16 i 24.
Definition i_links_count (i : list Z) : Z := rd16 i 26.
Definition i_block (i : list Z) (n : Z) : Z := rd32 i (40 + 4 * n).
Definition put_i_mode (i : list Z) (v : Z) : list Z := put16 i 0 v.
Definition put_i_size (i : list Z) (v : Z) : list Z := put32 i 4 v.
Definition put_i_dtime (i : list Z) (v : Z) : list Z := put32 i 20 v.
Definition put_i_links_count (i : list Z) (v : Z) : list Z := put16 i 26 (u16 v).
Definition put_i_blocks (i : list Z) (v : Z) : list Z := put32 i 28 v.
Definition put_i_block (i : list Z) (n v : Z) : list Z := put32 i (40 + 4 * n) v.

(** ** Blocks *)
Definition sectors_per_block (fs : ext2_fs_t) : nat := Z.to_nat (fs.(block_size) / 512).
Definition block_lba (fs : ext2_fs_t) (block_num : Z) : Z := u32 (block_num * (fs.(block_size) / 512)).
Definition ext2_read_block (fs : ext2_fs_t) (block_num : Z) : option (list Z) :=
  ata_read_sectors (sectors_per_block fs) (block_lba fs block_num) fs.(device).
Definition ext2_write_block (fs : ext2_fs_t) (block_num : Z) (buffer : list Z) : bool * ext2_fs_t :=
  let '(ok, d) := ata_write_sectors (sectors_per_block fs) (block_lba fs block_num) buffer fs.(device) in
  (ok, with_device fs d).

Definition ext2_write_superblock (fs : ext2_fs_t) : bool * ext2_fs_t :=
  let '(ok, d) := ata_write_sectors 2 2 fs.(superblock) fs.(device) in (ok, with_device fs d).

Definition gdt_block (fs : ext2_fs_t) : Z := if fs.(block_size) =? 1024 then 2 else 1.
Definition ext2_write_group_desc (fs : ext2_fs_t) (group : Z) : bool * ext2_fs_t :=
  if fs.(num_groups) <=? group then (false, fs)
  else
    let descs_per_block := fs.(block_size) / sizeof_group_desc in
    let block := gdt_block fs + group / descs_per_block in
    if negb (kmalloc_ok fs fs.(block_size)) then (false, fs)
    else
      match ext2_read_block fs block with
      | None => (false, fs)
      | Some gdt_buffer =>
          let desc := bytes_at fs.(group_descs) (sizeof_group_desc * group) (Z.to_nat sizeof_group_desc) in
          ext2_write_block fs block (blit gdt_buffer (group mod descs_per_block * sizeof_group_desc) desc)
      end.

(** Where an inode lies: its block and its offset there. *)
Definition inode_block (fs : ext2_fs_t) (inode_num : Z) : Z :=
  let n := inode_num - 1 in
  let group := n / fs.(inodes_per_group) in
  let index := n mod fs.(inodes_per_group) in
  u32 (bg_inode_table fs group + index / (fs.(block_size) / fs.(inode_size))).
Definition inode_offset (fs : ext2_fs_t) (inode_num : Z) : Z :=
  (inode_num - 1) mod fs.(inodes_per_group) mod (fs.(block_size) / fs.(inode_size)) * fs.(inode_size).
Definition ext2_read_inode (fs : ext2_fs_t) (inode_num : Z) : option (list Z) :=
  if inode_num =? 0 then None
  else if negb (kmalloc_ok fs fs.(block_size)) then None
  else
    match ext2_read_block fs (inode_block fs inode_num) with
    | None => None
    | Some b => Some (bytes_at b (inode_offset fs inode_num) (Z.to_nat sizeof_inode))
    end.
Definition ext2_write_inode (fs : ext2_fs_t) (inode_num : Z) (inode : list Z) : bool * ext2_fs_t :=
  if inode_num =? 0 then (false, fs)
  else if negb (kmalloc_ok fs fs.(block_size)) then (false, fs)
  else
    match ext2_read_block fs (inode_block fs inode_num) with
    | None => (false, fs)
    | Some b => ext2_write_block fs (inode_block fs inode_num) (blit b (inode_offset fs inode_num) inode)
    end.

(** ** Bitmaps *)
Definition bit_clear (bitmap : list Z) (i : Z) : bool := Z.land (rd0 bitmap (i / 8)) (Z.shiftl 1 (i mod 8)) =? 0.
(** The loop over the bits of a byte: [None] goes on with the next byte. *)
Definition zero_bit_of (bitmap : list Z) (max_bits byte : Z) : option Z :=
  if rd0 bitmap byte =? 0xFF then None
  else find_loop 8 0 (fun bit =>
         let bit_index := byte * 8 + bit in
         if max_bits <=? bit_index then Some (-1)
         else if Z.land (rd0 bitmap byte) (Z.shiftl 1 bit) =? 0 then Some bit_index else None).
Definition find_first_zero_bit (bitmap : list Z) (size max_bits : Z) : Z :=
  default (-1) (find_loop (Z.to_nat size) 0 (zero_bit_of bitmap max_bits)).
Definition set_bit (bitmap : list Z) (index : Z) : list Z :=
  wr bitmap (index / 8) (Z.lor (rd0 bitmap (index / 8)) (Z.shiftl 1 (index mod 8))).
Definition clear_bit (bitmap : list Z) (index : Z) : list Z :=
  wr bitmap (index / 8) (Z.land (rd0 bitmap (index / 8)) (0xFF - Z.shiftl 1 (index mod 8))).

(** ** Allocation
    Blocks and inodes are allocated by the same code over different fields:
    the offsets of the bitmap and of the counter of free units in the group
    descriptor, and of the counter in the superblock. *)
Record unit_kind := mk_kind { k_bitmap : Z; k_group_free : Z; k_total_free : Z }.
Definition BLOCKS : unit_kind := mk_kind 0 12 12.
Definition INODES : unit_kind := mk_kind 4 14 16.
Definition bitmap_block (k : unit_kind) (fs : ext2_fs_t) (group : Z) : Z := gd32 fs group k.(k_bitmap).
Definition group_free (k : unit_kind) (fs : ext2_fs_t) (group : Z) : Z := gd16 fs group k.(k_group_free).
Definition total_free (k : unit_kind) (fs : ext2_fs_t) : Z := rd32 fs.(superblock) k.(k_total_free).
(** Both counters change by [by_]. *)
Definition count (k : unit_kind) (group by_ : Z) (fs : ext2_fs_t) : ext2_fs_t :=
  let fs := put_gd16 fs group k.(k_group_free) (group_free k fs group + by_) in
  with_superblock fs (put32 fs.(superblock) k.(k_total_free) (u32 (total_free k fs + by_))).

(** The body of the loop over the groups: [None] is [continue]. *)
Definition alloc_in (k : unit_kind) (fs : ext2_fs_t) (group limit : Z) (number : Z -> Z) : option (Z * ext2_fs_t) :=
  if group_free k fs group =? 0 then None
  else
    match ext2_read_block fs (bitmap_block k fs group) with
    | None => Some (-1, fs)
    | Some bitmap =>
        let bit_index := find_first_zero_bit bitmap fs.(block_size) limit in
        if bit_index <? 0 then None
        else
          let bitmap := set_bit bitmap bit_index in
          let '(ok, fs) := ext2_write_block fs (bitmap_block k fs group) bitmap in
          if negb ok then Some (-1, fs)
          else
            let fs := count k group (-1) fs in
            let '(ok, fs) := ext2_write_group_desc fs group in
            if negb ok then
              let '(_, fs) := ext2_write_block fs (bitmap_block k fs group) (clear_bit bitmap bit_index) in
              Some (-1, count k group 1 fs)
            else
              let '(_, fs) := ext2_write_superblock fs in Some (s32 (u32 (number bit_index)), fs)
    end.
Definition blocks_in_group (fs : ext2_fs_t) (group : Z) : Z :=
  let remaining := s_blocks_count fs.(superblock) mod fs.(blocks_per_group) in
  if (group =? fs.(num_groups) - 1) && negb (remaining =? 0) then remaining else fs.(blocks_per_group).
Definition ext2_alloc_block (fs : ext2_fs_t) : Z * ext2_fs_t :=
  if total_free BLOCKS fs =? 0 then (-1, fs)
  else if negb (kmalloc_ok fs fs.(block_size)) then (-1, fs)
  else
    default (-1, fs) (find_loop (Z.to_nat fs.(num_groups)) 0 (fun group =>
      alloc_in BLOCKS fs group (blocks_in_group fs group) (fun bit_index =>
        group * fs.(blocks_per_group) + s_first_data_block fs.(superblock) + bit_index))).
Definition ext2_alloc_inode (fs : ext2_fs_t) : Z * ext2_fs_t :=
  if total_free INODES fs =? 0 then (-1, fs)
  else if negb (kmalloc_ok fs fs.(block_size)) then (-1, fs)
  else
    default (-1, fs) (find_loop (Z.to_nat fs.(num_groups)) 0 (fun group =>
      alloc_in INODES fs group fs.(inodes_per_group) (fun bit_index => group * fs.(inodes_per_group) + bit_index + 1))).

(** The common part of the two functions that free a unit. *)
Definition free_in (k : unit_kind) (fs : ext2_fs_t) (group bit_index : Z) : bool * ext2_fs_t :=
  if fs.(num_groups) <=? group then (false, fs)
  else if negb (kmalloc_ok fs fs.(block_size)) then (false, fs)
  else
    match ext2_read_block fs (bitmap_block k fs group) with
    | None => (false, fs)
    | Some bitmap =>
        if bit_clear bitmap bit_index then (false, fs)
        else
          let '(ok, fs) := ext2_write_block fs (bitmap_block k fs group) (clear_bit bitmap bit_index) in
          if negb ok then (false, fs)
          else
            let fs := count k group 1 fs in
            let '(_, fs) := ext2_write_group_desc fs group in
            let '(_, fs) := ext2_write_superblock fs in (true, fs)
    end.
Definition ext2_free_block (fs : ext2_fs_t) (block_num : Z) : bool * ext2_fs_t :=
  let adjusted := u32 (block_num - s_first_data_block fs.(superblock)) in
  free_in BLOCKS fs (adjusted / fs.(blocks_per_group)) (adjusted mod fs.(blocks_per_group)).
Definition ext2_free_inode (fs : ext2_fs_t) (inode_num : Z) : bool * ext2_fs_t :=
  if inode_num =? 0 then (false, fs)
  else free_in INODES fs ((inode_num - 1) / fs.(inodes_per_group)) ((inode_num - 1) mod fs.(inodes_per_group)).

(** ** Reading file data *)
Definition ptrs_per_block (fs : ext2_fs_t) : Z := fs.(block_size) / 4.
Definition ptr (b : list Z) (i : Z) : Z := rd32 b (4 * i).
Definition put_ptr (b : list Z) (i v : Z) : list Z := put32 b (4 * i) v.
(** The choice of the block in [ext2_read_inode_data]; [None] is a failed
    [kmalloc], 0 a hole. *)
Definition data_block (fs : ext2_fs_t) (inode : list Z) (block_index : Z) : option Z :=
  let p := ptrs_per_block fs in
  if block_index <? 12 then Some (i_block inode block_index)
  else if block_index <? 12 + p then
    if negb (kmalloc_ok fs fs.(block_size)) then None
    else Some (match ext2_read_block fs (i_block inode 12) with Some b => ptr b (block_index - 12) | None => 0 end)
  else if block_index <? u32 (12 + p + p * p) then
    let di_index := block_index - 12 - p in
    if negb (kmalloc_ok fs fs.(block_size)) then None
    else
      Some (match ext2_read_block fs (i_block inode 13) with
            | Some b => match ext2_read_block fs (ptr b (di_index / p)) with Some c => ptr c (di_index mod p) | None => 0 end
            | None => 0
            end)
  else Some 0.
(** The loop, which reads block by block; the result is the buffer up to
    [bytes_read]. *)
Fixpoint read_loop (fuel : nat) (fs : ext2_fs_t) (inode : list Z) (block_index block_offset remaining : Z) : option (list Z) :=
  if remaining <=? 0 then Some []
  else
    match fuel with
    | O => None
    | S fuel' =>
        match data_block fs inode block_index with
        | None => None
        | Some block_num =>
            let to_copy := Z.min (fs.(block_size) - block_offset) remaining in
            match (if block_num =? 0 then Some (zeros to_copy)
                   else match ext2_read_block fs block_num with
                        | Some b => Some (bytes_at b block_offset (Z.to_nat to_copy))
                        | None => None
                        end) with
            | None => None
            | Some chunk =>
                match read_loop fuel' fs inode (block_index + 1) 0 (remaining - to_copy) with
                | Some rest => Some (chunk ++ rest)
                | None => None
                end
            end
        end
    end.
Definition loop_fuel (fs : ext2_fs_t) (size : Z) : nat := Z.to_nat (size / fs.(block_size) + 2).
Definition ext2_read_inode_data (fs : ext2_fs_t) (inode : list Z) (offset size : Z) : option (list Z) :=
  if i_size inode <=? offset then Some []
  else
    let size := if i_size inode <? u32 (offset + size) then i_size inode - offset else size in
    if negb (kmalloc_ok fs fs.(block_size)) then None
    else read_loop (loop_fuel fs size) fs inode (offset / fs.(block_size)) (offset mod fs.(block_size)) size.

(** ** Writing file data *)
Definition zero_block (fs : ext2_fs_t) (block_num : Z) : ext2_fs_t := (ext2_write_block fs block_num (zeros fs.(block_size))).2.

(** A pointer block at [block_num] and the entry [index] of it: the last level
    of [ext2_get_block]. *)
Definition leaf_block (fs : ext2_fs_t) (block_num index : Z) (allocate : bool) : Z * ext2_fs_t :=
  match ext2_read_block fs block_num with
  | None => (0, fs)
  | Some b =>
      if (ptr b index =? 0) && allocate then
        let '(new_block, fs) := ext2_alloc_block fs in
        if 0 <? new_block
        then (new_block, zero_block (ext2_write_block fs block_num (put_ptr b index new_block)).2 new_block)
        else (0, fs)
      else (ptr b index, fs)
  end.
(** A pointer in the inode that is allocated on demand; 0 is a failure. *)
Definition inode_ptr (fs : ext2_fs_t) (inode : list Z) (n : Z) (allocate : bool) : Z * (ext2_fs_t * list Z) :=
  if i_block inode n =? 0 then
    if allocate then
      let '(b, fs) := ext2_alloc_block fs in
      if 0 <? b then (b, (zero_block fs b, put_i_block inode n b)) else (0, (fs, inode))
    else (0, (fs, inode))
  else (i_block inode n, (fs, inode)).
Definition ext2_get_block (fs : ext2_fs_t) (inode : list Z) (block_idx : Z) (allocate : bool) : Z * (ext2_fs_t * list Z) :=
  let p := ptrs_per_block fs in
  if block_idx <? 12 then
    if (i_block inode block_idx =? 0) && allocate then
      let '(b, fs) := ext2_alloc_block fs in
      if 0 <? b
      then (b, (if kmalloc_ok fs fs.(block_size) then zero_block fs b else fs, put_i_block inode block_idx b))
      else (0, (fs, inode))
    else (i_block inode block_idx, (fs, inode))
  else if block_idx <? 12 + p then
    if negb (kmalloc_ok fs fs.(block_size)) then (0, (fs, inode))
    else
      let '(indirect, (fs, inode)) := inode_ptr fs inode 12 allocate in
      if indirect =? 0 then (0, (fs, inode))
      else let '(b, fs) := leaf_block fs indirect (block_idx - 12) allocate in (b, (fs, inode))
  else if block_idx <? u32 (12 + p + p * p) then
    let di_index := block_idx - 12 - p in
    if negb (kmalloc_ok fs fs.(block_size)) then (0, (fs, inode))
    else
      let '(first, (fs, inode)) := inode_ptr fs inode 13 allocate in
      if first =? 0 then (0, (fs, inode))
      else
        match ext2_read_block fs first with
        | None => (0, (fs, inode))
        | Some b =>
            let '(second, fs) :=
              if ptr b (di_index / p) =? 0 then
                if allocate then
                  let '(new_second, fs) := ext2_alloc_block fs in
                  if 0 <? new_second
                  then (new_second, zero_block (ext2_write_block fs first (put_ptr b (di_index / p) new_second)).2 new_second)
                  else (0, fs)
                else (0, fs)
              else (ptr b (di_index / p), fs) in
            if second =? 0 then (0, (fs, inode))
            else let '(b, fs) := leaf_block fs second (di_index mod p) allocate in (b, (fs, inode))
        end
  else (0, (fs, inode)).

Definition grow (inode : list Z) (size : Z) : list Z := if i_size inode <? size then put_i_size inode size else inode.
(** The loop: how many bytes were written, whether it reached the end, and
    whether it stopped because a block could not be allocated. *)
Inductive stop := STOP_DONE | STOP_NO_BLOCK | STOP_WRITE_ERROR.
Fixpoint write_loop (fuel : nat) (fs : ext2_fs_t) (inode : list Z) (block_index block_offset written : Z) (data : list Z) :
  (stop * Z) * (ext2_fs_t * list Z) :=
  match data, fuel with
  | [], _ => ((STOP_DONE, written), (fs, inode))
  | _, O => ((STOP_DONE, written), (fs, inode))
  | _, S fuel' =>
      let '(block_num, (fs, inode)) := ext2_get_block fs inode block_index true in
      if block_num =? 0 then ((STOP_NO_BLOCK, written), (fs, inode))
      else
        let to_write := Z.min (fs.(block_size) - block_offset) (zlen data) in
        let old :=
          if (0 <? block_offset) || (to_write <? fs.(block_size))
          then match ext2_read_block fs block_num with Some b => b | None => zeros fs.(block_size) end
          else zeros fs.(block_size) in
        let '(ok, fs) := ext2_write_block fs block_num (blit old block_offset (take (Z.to_nat to_write) data)) in
        if negb ok then ((STOP_WRITE_ERROR, written), (fs, inode))
        else write_loop fuel' fs inode (block_index + 1) 0 (written + to_write) (drop (Z.to_nat to_write) data)
  end.
(** The result is the number of bytes written, [-1] for an error. *)
Definition ext2_write_inode_data (fs : ext2_fs_t) (inode : list Z) (inode_num offset : Z) (buffer : list Z) :
  Z * (ext2_fs_t * list Z) :=
  if zlen buffer =? 0 then (0, (fs, inode))
  else if negb (kmalloc_ok fs fs.(block_size)) then (-1, (fs, inode))
  else
    let '((stop, written), (fs, inode)) :=
      write_loop (loop_fuel fs (zlen buffer)) fs inode (offset / fs.(block_size)) (offset mod fs.(block_size)) 0 buffer in
    match stop with
    | STOP_NO_BLOCK =>
        if 0 <? written then
          let inode := grow inode (u32 (offset + written)) in
          (s32 written, ((ext2_write_inode fs inode_num inode).2, inode))
        else (-1, (fs, inode))
    | STOP_WRITE_ERROR => ((if 0 <? written then s32 written else -1), (fs, inode))
    | STOP_DONE =>
        let inode := grow inode (u32 (offset + written)) in
        let blocks_used := u32 (i_size inode + fs.(block_size) - 1) / fs.(block_size) in
        let inode := put_i_blocks inode (u32 (blocks_used * (fs.(block_size) / 512))) in
        let '(ok, fs) := ext2_write_inode fs inode_num inode in
        ((if ok then s32 written else -1), (fs, inode))
    end.

(** ** Nodes *)
Definition VFS_FILE : Z := 1.
Definition VFS_DIRECTORY : Z := 2.
Definition VFS_CHARDEVICE : Z := 3.
Definition VFS_BLOCKDEVICE : Z := 4.
Definition VFS_PIPE : Z := 5.
Definition VFS_SYMLINK : Z := 6.
Definition VFS_MAX_NAME : Z := 255.
Definition EXT2_S_IFMT : Z := 0xF000.
Definition EXT2_S_IFREG : Z := 0x8000.
Definition EXT2_S_IFDIR : Z := 0x4000.
Definition EXT2_FT_REG_FILE : Z := 1.
Definition EXT2_FT_DIR : Z := 2.
Definition ext2_type_to_vfs (mode : Z) : Z :=
  let t := Z.land mode EXT2_S_IFMT in
  if t =? EXT2_S_IFREG then VFS_FILE
  else if t =? EXT2_S_IFDIR then VFS_DIRECTORY
  else if t =? 0x2000 then VFS_CHARDEVICE
  else if t =? 0x6000 then VFS_BLOCKDEVICE
  else if t =? 0xA000 then VFS_SYMLINK
  else if t =? 0x1000 then VFS_PIPE
  else VFS_FILE.
Definition ext2_ftype_to_vfs (file_type : Z) : Z :=
  if file_type =? EXT2_FT_REG_FILE then VFS_FILE
  else if file_type =? EXT2_FT_DIR then VFS_DIRECTORY
  else if file_type =? 3 then VFS_CHARDEVICE
  else if file_type =? 4 then VFS_BLOCKDEVICE
  else if file_type =? 7 then VFS_SYMLINK
  else if file_type =? 5 then VFS_PIPE
  else VFS_FILE.

Record vfs_node := mk_node {
  vn_name : list Z;
  vn_type : Z;
  vn_permissions : Z;
  vn_uid : Z;
  vn_gid : Z;
  vn_size : Z;
  vn_atime : Z;
  vn_mtime : Z;
  vn_ctime : Z;
  nd_inode_num : Z;      (** [ext2_node_data_t]; also the node's [inode] *)
  nd_inode : list Z
}.
Definition with_inode (n : vfs_node) (i : list Z) : vfs_node :=
  mk_node n.(vn_name) n.(vn_type) n.(vn_permissions) n.(vn_uid) n.(vn_gid) n.(vn_size) n.(vn_atime) n.(vn_mtime) n.(vn_ctime)
    n.(nd_inode_num) i.
Definition with_size (n : vfs_node) (size : Z) : vfs_node :=
  mk_node n.(vn_name) n.(vn_type) n.(vn_permissions) n.(vn_uid) n.(vn_gid) size n.(vn_atime) n.(vn_mtime) n.(vn_ctime)
    n.(nd_inode_num) n.(nd_inode).
Definition sizeof_vfs_node : Z := 392.
Definition sizeof_node_data : Z := 144.
Definition ext2_create_node (fs : ext2_fs_t) (inode_num : Z) (name : list Z) : option vfs_node :=
  if negb (kmalloc_ok fs sizeof_vfs_node) then None
  else if negb (kmalloc_ok fs sizeof_node_data) then None
  else
    match ext2_read_inode fs inode_num with
    | None => None
    | Some i =>
        Some (mk_node (take (Z.to_nat VFS_MAX_NAME) name) (ext2_type_to_vfs (i_mode i)) (Z.land (i_mode i) 0x0FFF)
                (i_uid i) (i_gid i) (i_size i) (i_atime i) (i_mtime i) (i_ctime i) inode_num i)
    end.
Definition ext2_vfs_read (fs : ext2_fs_t) (node : vfs_node) (offset size : Z) : option (list Z) :=
  ext2_read_inode_data fs node.(nd_inode) offset size.
Definition ext2_vfs_write (fs : ext2_fs_t) (node : vfs_node) (offset : Z) (buffer : list Z) : Z * (ext2_fs_t * vfs_node) :=
  if node.(vn_type) =? VFS_DIRECTORY then (-1, (fs, node))
  else
    let '(result, (fs, inode)) := ext2_write_inode_data fs node.(nd_inode) node.(nd_inode_num) offset buffer in
    let node := with_inode node inode in
    (result, (fs, if 0 <? result then with_size node (i_size inode) else node)).

(** ** Directory entries in the bytes of a directory *)
Definition de_inode (d : list Z) (off : Z) : Z := rd32 d off.
Definition de_rec_len (d : list Z) (off : Z) : Z := rd16 d (off + 4).
Definition de_name_len (d : list Z) (off : Z) : Z := rd0 d (off + 6).
Definition de_file_type (d : list Z) (off : Z) : Z := rd0 d (off + 7).
Definition de_name (d : list Z) (off : Z) : list Z := bytes_at d (off + 8) (Z.to_nat (de_name_len d off)).
Definition put_entry (d : list Z) (off inode rec_len file_type : Z) (name : list Z) : list Z :=
  blit d off (le32 inode ++ le16 (u16 rec_len) ++ [u8 (zlen name); file_type] ++ name).
Definition ext2_dir_entry_size (name_len : Z) : Z := (8 + name_len + 3) / 4 * 4.

(** The callers take a negative count of bytes for an error. *)
Definition read_all (fs : ext2_fs_t) (inode : list Z) : option (list Z) :=
  match ext2_read_inode_data fs inode 0 (i_size inode) with
  | Some d => if s32 (zlen d) <? 0 then None else Some d
  | None => None
  end.
Definition dir_data (fs : ext2_fs_t) (inode : list Z) : option (list Z) :=
  if negb (kmalloc_ok fs (i_size inode)) then None else read_all fs inode.
(** A walk over the entries makes at most one step per byte. *)
Definition walk_fuel (inode : list Z) : nat := S (Z.to_nat (i_size inode)).

Record vfs_dirent := mk_dirent { d_inode : Z; d_type : Z; d_name : list Z }.
Fixpoint readdir_loop (fuel : nat) (d : list Z) (size offset index : Z) : option vfs_dirent :=
  match fuel with
  | O => None
  | S fuel' =>
      if size <=? offset then None
      else
        let used := negb (de_inode d offset =? 0) in
        if used && (index =? 0)
        then Some (mk_dirent (de_inode d offset) (ext2_ftype_to_vfs (de_file_type d offset)) (de_name d offset))
        else if de_rec_len d offset =? 0 then None
        else readdir_loop fuel' d size (u32 (offset + de_rec_len d offset)) (if used then index - 1 else index)
  end.
Definition is_dir (node : vfs_node) : bool := negb (Z.land node.(vn_type) VFS_DIRECTORY =? 0).
Definition ext2_vfs_readdir (fs : ext2_fs_t) (node : vfs_node) (index : Z) : option vfs_dirent :=
  if negb (is_dir node) then None
  else
    match dir_data fs node.(nd_inode) with
    | None => None
    | Some d => readdir_loop (walk_fuel node.(nd_inode)) d (i_size node.(nd_inode)) 0 index
    end.

Fixpoint finddir_loop (fuel : nat) (d : list Z) (size : Z) (name : list Z) (offset : Z) : option Z :=
  match fuel with
  | O => None
  | S fuel' =>
      if size <=? offset then None
      else if negb (de_inode d offset =? 0) && (de_name_len d offset =? zlen name)
              && (strncmp (length name) (bytes_at d (offset + 8) (length name)) name =? 0)
      then Some (de_inode d offset)
      else if de_rec_len d offset =? 0 then None
      else finddir_loop fuel' d size name (u32 (offset + de_rec_len d offset))
  end.
Definition ext2_vfs_finddir (fs : ext2_fs_t) (node : vfs_node) (name : list Z) : option vfs_node :=
  if negb (is_dir node) then None
  else
    match dir_data fs node.(nd_inode) with
    | None => None
    | Some d =>
        match finddir_loop (walk_fuel node.(nd_inode)) d (i_size node.(nd_inode)) name 0 with
        | Some found_inode => ext2_create_node fs found_inode name
        | None => None
        end
    end.

(** The search of [ext2_remove_dir_entry]: the inode of the entry and the
    directory without it. *)
Fixpoint remove_loop (fuel : nat) (d : list Z) (size : Z) (name : list Z) (prev : option Z) (offset : Z) : option (Z * list Z) :=
  match fuel with
  | O => None
  | S fuel' =>
      if size <=? offset then None
      else if de_rec_len d offset =? 0 then None
      else if negb (de_inode d offset =? 0) && (de_name_len d offset =? zlen name)
              && bool_decide (bytes_at d (offset + 8) (length name) = name)
      then
        Some (s32 (de_inode d offset),
              match prev with
              | Some p => put16 d (p + 4) (u16 (de_rec_len d p + de_rec_len d offset))
              | None => put32 d offset 0
              end)
      else remove_loop fuel' d size name (Some offset) (u32 (offset + de_rec_len d offset))
  end.
Definition ext2_remove_dir_entry (fs : ext2_fs_t) (dir_inode : list Z) (dir_inode_num : Z) (name : list Z) :
  Z * (ext2_fs_t * list Z) :=
  if (255 <? zlen name) || (zlen name =? 0) then (-1, (fs, dir_inode))
  else if i_size dir_inode =? 0 then (-1, (fs, dir_inode))
  else
    match dir_data fs dir_inode with
    | None => (-1, (fs, dir_inode))
    | Some d =>
        match remove_loop (walk_fuel dir_inode) d (i_size dir_inode) name None 0 with
        | None => (-1, (fs, dir_inode))
        | Some (found_inode, d) =>
            if found_inode <? 0 then (-1, (fs, dir_inode))
            else
              let '(r, (fs, dir_inode)) := ext2_write_inode_data fs dir_inode dir_inode_num 0 d in
              ((if r <? 0 then -1 else found_inode), (fs, dir_inode))
        end
    end.

(** The search for space of [ext2_add_dir_entry]. *)
Fixpoint add_loop (fuel : nat) (d : list Z) (size new_inode file_type : Z) (name : list Z) (offset : Z) : option (list Z) :=
  match fuel with
  | O => None
  | S fuel' =>
      if size <=? offset then None
      else if de_rec_len d offset =? 0 then None
      else
        let actual_size := ext2_dir_entry_size (de_name_len d offset) in
        let free_space := u32 (de_rec_len d offset - actual_size) in
        if ext2_dir_entry_size (zlen name) <=? free_space
        then Some (put_entry (put16 d (offset + 4) (u16 actual_size)) (offset + actual_size) new_inode free_space file_type name)
        else add_loop fuel' d size new_inode file_type name (u32 (offset + de_rec_len d offset))
  end.
Definition ext2_add_dir_entry (fs : ext2_fs_t) (dir_inode : list Z) (dir_inode_num new_inode : Z) (name : list Z) (file_type : Z) :
  bool * (ext2_fs_t * list Z) :=
  let name := take 255 name in
  let size := i_size dir_inode in
  if negb (kmalloc_ok fs (if 0 <? size then size else fs.(block_size))) then (false, (fs, dir_inode))
  else
    match (if 0 <? size then read_all fs dir_inode else Some []) with
    | None => (false, (fs, dir_inode))
    | Some d =>
        let finish fs dir_inode d :=
          let '(r, (fs, dir_inode)) := ext2_write_inode_data fs dir_inode dir_inode_num 0 d in
          (0 <=? r, (fs, dir_inode)) in
        match add_loop (walk_fuel dir_inode) d size new_inode file_type name 0 with
        | Some d => finish fs dir_inode d
        | None =>
            let '(new_block, fs) := ext2_alloc_block fs in
            if new_block <? 0 then (false, (fs, dir_inode))
            else if negb (kmalloc_ok fs (u32 (size + fs.(block_size)))) then
              (false, ((ext2_free_block fs new_block).2, dir_inode))
            else
              finish fs (put_i_size dir_inode (u32 (size + fs.(block_size))))
                (put_entry (d ++ zeros fs.(block_size)) size new_inode fs.(block_size) file_type name)
        end
    end.

(** ** Creation *)
Definition new_file_inode : list Z := put_i_links_count (put_i_mode (zeros sizeof_inode) (Z.lor EXT2_S_IFREG 0x1A4)) 1.
Definition ext2_vfs_create (fs : ext2_fs_t) (parent : vfs_node) (name : list Z) : bool * (ext2_fs_t * vfs_node) :=
  if negb (is_dir parent) then (false, (fs, parent))
  else
    match ext2_vfs_finddir fs parent name with
    | Some _ => (false, (fs, parent))
    | None =>
        let '(new_inode_num, fs) := ext2_alloc_inode fs in
        if new_inode_num <? 0 then (false, (fs, parent))
        else
          let '(ok, fs) := ext2_write_inode fs new_inode_num new_file_inode in
          if negb ok then (false, ((ext2_free_inode fs new_inode_num).2, parent))
          else
            let '(ok, (fs, inode)) :=
              ext2_add_dir_entry fs parent.(nd_inode) parent.(nd_inode_num) new_inode_num name EXT2_FT_REG_FILE in
            let parent := with_inode parent inode in
            if negb ok then (false, ((ext2_free_inode fs new_inode_num).2, parent))
            else (true, (fs, parent))
    end.

Definition DOT : Z := 46.
Definition new_dir_inode (fs : ext2_fs_t) (block : Z) : list Z :=
  let i := put_i_mode (zeros sizeof_inode) (Z.lor EXT2_S_IFDIR 0x1ED) in
  let i := put_i_size i fs.(block_size) in
  let i := put_i_links_count i 2 in
  let i := put_i_blocks i (fs.(block_size) / 512) in
  put_i_block i 0 block.
Definition new_dir_block (fs : ext2_fs_t) (self parent : Z) : list Z :=
  put_entry (put_entry (zeros fs.(block_size)) 0 self 12 EXT2_FT_DIR [DOT])
    12 parent (fs.(block_size) - 12) EXT2_FT_DIR [DOT; DOT].
Definition ext2_vfs_mkdir (fs : ext2_fs_t) (parent : vfs_node) (name : list Z) : bool * (ext2_fs_t * vfs_node) :=
  if negb (is_dir parent) then (false, (fs, parent))
  else
    match ext2_vfs_finddir fs parent name with
    | Some _ => (false, (fs, parent))
    | None =>
        let '(new_inode_num, fs) := ext2_alloc_inode fs in
        if new_inode_num <? 0 then (false, (fs, parent))
        else
          let undo_inode fs := (ext2_free_inode fs new_inode_num).2 in
          let '(new_block, fs) := ext2_alloc_block fs in
          if new_block <? 0 then (false, (undo_inode fs, parent))
          else
            let undo fs := undo_inode (ext2_free_block fs new_block).2 in
            if negb (kmalloc_ok fs fs.(block_size)) then (false, (undo fs, parent))
            else
              let '(ok, fs) := ext2_write_block fs new_block (new_dir_block fs new_inode_num parent.(nd_inode_num)) in
              if negb ok then (false, (undo fs, parent))
              else
                let '(ok, fs) := ext2_write_inode fs new_inode_num (new_dir_inode fs new_block) in
                if negb ok then (false, (undo fs, parent))
                else
                  let '(ok, (fs, inode)) :=
                    ext2_add_dir_entry fs parent.(nd_inode) parent.(nd_inode_num) new_inode_num name EXT2_FT_DIR in
                  let parent := with_inode parent inode in
                  if negb ok then (false, (undo fs, parent))
                  else
                    let parent := with_inode parent (put_i_links_count inode (i_links_count inode + 1)) in
                    let '(_, fs) := ext2_write_inode fs parent.(nd_inode_num) parent.(nd_inode) in
                    let group := (new_inode_num - 1) / fs.(inodes_per_group) in
                    if group <? fs.(num_groups) then
                      let fs := put_gd16 fs group bg_used_dirs_count (gd16 fs group bg_used_dirs_count + 1) in
                      (true, ((ext2_write_group_desc fs group).2, parent))
                    else (true, (fs, parent))
    end.

(** ** Deletion *)
Definition is_dot (d : list Z) (offset : Z) : bool :=
  ((de_name_len d offset =? 1) && (rd0 d (offset + 8) =? DOT))
  || ((de_name_len d offset =? 2) && (rd0 d (offset + 8) =? DOT) && (rd0 d (offset + 9) =? DOT)).
Fixpoint empty_loop (fuel : nat) (d : list Z) (size offset : Z) (entry_count : Z) : Z :=
  match fuel with
  | O => entry_count
  | S fuel' =>
      if size <=? offset then entry_count
      else if de_rec_len d offset =? 0 then entry_count
      else
        empty_loop fuel' d size (u32 (offset + de_rec_len d offset))
          (if negb (de_inode d offset =? 0) && negb (is_dot d offset) then entry_count + 1 else entry_count)
  end.
Definition ext2_is_dir_empty (fs : ext2_fs_t) (dir_inode : list Z) : Z :=
  if i_size dir_inode =? 0 then 1
  else
    match dir_data fs dir_inode with
    | None => -1
    | Some d => if empty_loop (walk_fuel dir_inode) d (i_size dir_inode) 0 0 =? 0 then 1 else 0
    end.
Definition ext2_free_inode_blocks (fs : ext2_fs_t) (inode : list Z) : ext2_fs_t * list Z :=
  for_loop 12 0 (fun i '(fs, inode) =>
    if i_block inode i =? 0 then (fs, inode)
    else ((ext2_free_block fs (i_block inode i)).2, put_i_block inode i 0)) (fs, inode).

Definition is_dot_name (name : list Z) : bool := bool_decide (name = [DOT]) || bool_decide (name = [DOT; DOT]).
Definition ext2_vfs_unlink (fs : ext2_fs_t) (parent : vfs_node) (name : list Z) : bool * (ext2_fs_t * vfs_node) :=
  if is_dot_name name then (false, (fs, parent))
  else
    match ext2_vfs_finddir fs parent name with
    | None => (false, (fs, parent))
    | Some target =>
        let is_directory := target.(vn_type) =? VFS_DIRECTORY in
        if is_directory && negb (ext2_is_dir_empty fs target.(nd_inode) =? 1) then (false, (fs, parent))
        else
          let '(removed, (fs, pinode)) := ext2_remove_dir_entry fs parent.(nd_inode) parent.(nd_inode_num) name in
          let parent := with_inode parent pinode in
          if removed <? 0 then (false, (fs, parent))
          else
            let tnum := target.(nd_inode_num) in
            let inode := put_i_links_count target.(nd_inode) (i_links_count target.(nd_inode) - 1) in
            if i_links_count inode =? 0 then
              let '(fs, inode) := ext2_free_inode_blocks fs inode in
              let inode := put_i_size (put_i_dtime inode 1) 0 in
              let '(_, fs) := ext2_write_inode fs tnum inode in
              let '(_, fs) := ext2_free_inode fs tnum in
              if is_directory then
                let group := (tnum - 1) / fs.(inodes_per_group) in
                let fs :=
                  if (group <? fs.(num_groups)) && (0 <? gd16 fs group bg_used_dirs_count)
                  then (ext2_write_group_desc (put_gd16 fs group bg_used_dirs_count (gd16 fs group bg_used_dirs_count - 1)) group).2
                  else fs in
                if 0 <? i_links_count pinode then
                  let pinode := put_i_links_count pinode (i_links_count pinode - 1) in
                  (true, ((ext2_write_inode fs parent.(nd_inode_num) pinode).2, with_inode parent pinode))
                else (true, (fs, parent))
              else (true, (fs, parent))
            else (true, ((ext2_write_inode fs tnum inode).2, parent))
    end.

(** ** Mounting *)
Fixpoint read_gdt (n : nat) (block : Z) (fs : ext2_fs_t) : option (list Z) :=
  match n with
  | O => Some []
  | S n' =>
      match ext2_read_block fs block with
      | None => None
      | Some b => match read_gdt n' (block + 1) fs with Some rest => Some (b ++ rest) | None => None end
      end
  end.
Definition sizeof_ext2_fs : Z := 1064.
Definition ext2_mount (d : disk) : option ext2_fs_t :=
  if negb (d.(mem_ok) sizeof_ext2_fs) then None
  else if negb (d.(mem_ok) 1024) then None
  else
    match ata_read_sectors 2 2 d with
    | None => None
    | Some sb =>
        if negb (s_magic sb =? EXT2_MAGIC) then None
        else
          let bs := u32 (Z.shiftl 1024 (s_log_block_size sb)) in
          let bpg := s_blocks_per_group sb in
          let groups := u32 (s_blocks_count sb + bpg - 1) / bpg in
          let fs := mk_fs sb [] bs (s_inodes_per_group sb) bpg groups
                      (if s_rev_level sb =? 0 then 128 else s_inode_size sb) d in
          let gdt_blocks := u32 (u32 (groups * sizeof_group_desc) + bs - 1) / bs in
          if negb (d.(mem_ok) (u32 (gdt_blocks * bs))) then None
          else
            match read_gdt (Z.to_nat gdt_blocks) (gdt_block fs) fs with
            | None => None
            | Some gdt =>
                let fs := with_superblock (with_group_descs fs gdt) (put16 sb 58 EXT2_ERROR_FS) in
                Some (ext2_write_superblock fs).2
            end
    end.
Definition ext2_unmount (fs : ext2_fs_t) : disk :=
  (ext2_write_superblock (with_superblock fs (put16 fs.(superblock) 58 EXT2_VALID_FS))).2.(device).
Definition ext2_get_root (fs : ext2_fs_t) : option vfs_node := ext2_create_node fs EXT2_ROOT_INODE [47].
