(* ===== verification/Ext2Disk.v ===== *)
(** Buffers, fields and blocks of the ext2 driver: what is read back after a
    write, for bytes at an offset, for fields and for whole blocks. *)
From S2P Require Import Prelude Ext2.

Lemma pair_fst {A B} (p : A * B) a : p.1 = a -> p = (a, p.2).
Proof. destruct p. cbn. congruence. Qed.

(** ** Bytes at an offset *)
Lemma zlen_bytes_at b i n : zlen (bytes_at b i n) = Z.of_nat n.
Proof. unfold zlen, bytes_at. by rewrite length_fmap, length_seq. Qed.
Lemma rd0_bytes_at b i n k : 0 <= k < Z.of_nat n -> rd0 (bytes_at b i n) k = rd0 b (i + k).
Proof.
  intros Hk. unfold rd0 at 1, rd, bytes_at. rewrite (proj2 (Z.leb_le 0 k)) by lia.
  rewrite list_lookup_fmap, lookup_seq_lt by lia. cbn. f_equal. lia.
Qed.
Lemma rd0_out l i : ~ (0 <= i < zlen l) -> rd0 l i = 0.
Proof. intros H. unfold rd0. by rewrite (proj2 (rd_None l i) H). Qed.
Lemma rd0_ext l1 l2 : zlen l1 = zlen l2 -> (forall i, 0 <= i < zlen l1 -> rd0 l1 i = rd0 l2 i) -> l1 = l2.
Proof. intros Hl H. apply rd_ext; [auto|]. intros i Hi. rewrite !rd_rd0 by lia. by rewrite H. Qed.
Lemma rd0_app l1 l2 i : rd0 (l1 ++ l2) i = if i <? zlen l1 then rd0 l1 i else rd0 l2 (i - zlen l1).
Proof.
  unfold rd0. destruct (Z.ltb_spec i (zlen l1)); [by rewrite rd_app_l|by rewrite rd_app_r].
Qed.
Lemma rd0_take l n i : i < Z.of_nat n -> rd0 (take n l) i = rd0 l i.
Proof. intros H. unfold rd0, rd. destruct (Z.leb_spec 0 i); [|done]. by rewrite lookup_take_lt by lia. Qed.
Lemma rd0_drop l n i : 0 <= i -> rd0 (drop n l) i = rd0 l (Z.of_nat n + i).
Proof.
  intros H. unfold rd0, rd. rewrite !(proj2 (Z.leb_le 0 _)) by lia. rewrite lookup_drop. repeat f_equal. lia.
Qed.
Lemma zlen_take {A} n (l : list A) : zlen (take n l) = Z.min (Z.of_nat n) (zlen l).
Proof. unfold zlen. rewrite length_take. lia. Qed.
Lemma zlen_drop {A} n (l : list A) : zlen (drop n l) = Z.max 0 (zlen l - Z.of_nat n).
Proof. unfold zlen. rewrite length_drop. lia. Qed.
Lemma zlen_zeros n : 0 <= n -> zlen (zeros n) = n.
Proof. intros H. unfold zlen, zeros. rewrite length_replicate. lia. Qed.
Lemma rd0_zeros n i : rd0 (zeros n) i = 0.
Proof.
  unfold rd0, rd, zeros. destruct (0 <=? i); [|done]. destruct (replicate _ 0 !! _) eqn:E; [|done].
  by apply lookup_replicate in E as [-> _].
Qed.
Lemma bytes_at_all l n : zlen l = Z.of_nat n -> bytes_at l 0 n = l.
Proof. intros H. apply rd0_ext; rewrite zlen_bytes_at; [done|]. intros i Hi. by rewrite rd0_bytes_at. Qed.

(** ** Copying into a buffer *)
Section blit.
Context (b : list Z) (off : Z) (src : list Z).
Hypothesis Hoff : 0 <= off.
Hypothesis Hfit : off + zlen src <= zlen b.
Lemma zlen_blit : zlen (blit b off src) = zlen b.
Proof. unfold blit. rewrite !zlen_app, zlen_take, zlen_drop. unfold zlen in *. lia. Qed.
Lemma rd0_blit i : rd0 (blit b off src) i = if (off <=? i) && (i <? off + zlen src) then rd0 src (i - off) else rd0 b i.
Proof.
  pose proof (zlen_nonneg src). unfold blit. rewrite !rd0_app, zlen_take.
  replace (Z.min _ _) with off by lia.
  destruct (Z.leb_spec off i), (Z.ltb_spec i off); try lia; cbn [andb].
  - replace (i <? off + zlen src) with (i - off <? zlen src) by (destruct (Z.ltb_spec (i - off) (zlen src)), (Z.ltb_spec i (off + zlen src)); lia).
    destruct (Z.ltb_spec (i - off) (zlen src)); [done|]. rewrite rd0_drop by lia. f_equal. unfold zlen in *. lia.
  - apply rd0_take. lia.
Qed.
Lemma bytes_at_blit_same : bytes_at (blit b off src) off (length src) = src.
Proof.
  apply rd0_ext; rewrite zlen_bytes_at; [done|]. intros i Hi. rewrite rd0_bytes_at, rd0_blit by lia.
  unfold zlen in *. rewrite (proj2 (Z.leb_le _ _)), (proj2 (Z.ltb_lt _ _)) by lia. cbn [andb]. f_equal. lia.
Qed.
Lemma bytes_at_blit_other i n : i + Z.of_nat n <= off \/ off + zlen src <= i -> bytes_at (blit b off src) i n = bytes_at b i n.
Proof.
  intros H. apply rd0_ext; rewrite !zlen_bytes_at; [done|]. intros k Hk. rewrite !rd0_bytes_at, rd0_blit by lia.
  destruct (Z.leb_spec off (i + k)), (Z.ltb_spec (i + k) (off + zlen src)); cbn [andb]; auto. lia.
Qed.
Lemma blit_bytes (P : Z -> Prop) : Forall P b -> Forall P src -> Forall P (blit b off src).
Proof. intros H1 H2. unfold blit. apply Forall_app. split; [by apply Forall_take|]. apply Forall_app. split; [auto|by apply Forall_drop]. Qed.
End blit.

(** ** Fields *)
Lemma rd16_range b i : Forall is_u8 b -> is_u16 (rd16 b i).
Proof. intros H. unfold rd16. pose proof (rd0_u8 b i H). pose proof (rd0_u8 b (i + 1) H). widths. lia. Qed.
Lemma rd32_range b i : Forall is_u8 b -> is_u32 (rd32 b i).
Proof.
  intros H. unfold rd32. pose proof (rd0_u8 b i H). pose proof (rd0_u8 b (i + 1) H). pose proof (rd0_u8 b (i + 2) H).
  pose proof (rd0_u8 b (i + 3) H). change (2 ^ 24) with 16777216. widths. lia.
Qed.
Lemma rd16_at b b' i i' : (forall k, 0 <= k < 2 -> rd0 b' (i' + k) = rd0 b (i + k)) -> rd16 b' i' = rd16 b i.
Proof. intros H. unfold rd16. pose proof (H 0 ltac:(lia)). pose proof (H 1 ltac:(lia)). rewrite !Z.add_0_r in *. congruence. Qed.
Lemma rd32_at b b' i i' : (forall k, 0 <= k < 4 -> rd0 b' (i' + k) = rd0 b (i + k)) -> rd32 b' i' = rd32 b i.
Proof.
  intros H. unfold rd32. pose proof (H 0 ltac:(lia)). pose proof (H 1 ltac:(lia)). pose proof (H 2 ltac:(lia)). pose proof (H 3 ltac:(lia)).
  rewrite !Z.add_0_r in *. congruence.
Qed.
Lemma rd16_blit b off src i : 0 <= off -> off + zlen src <= zlen b -> off <= i -> i + 2 <= off + zlen src ->
  rd16 (blit b off src) i = rd16 src (i - off).
Proof.
  intros H1 H2 H3 H4. apply rd16_at. intros k Hk. rewrite rd0_blit by auto.
  rewrite (proj2 (Z.leb_le _ _)), (proj2 (Z.ltb_lt _ _)) by lia. cbn [andb]. f_equal. lia.
Qed.
Lemma rd32_blit b off src i : 0 <= off -> off + zlen src <= zlen b -> off <= i -> i + 4 <= off + zlen src ->
  rd32 (blit b off src) i = rd32 src (i - off).
Proof.
  intros H1 H2 H3 H4. apply rd32_at. intros k Hk. rewrite rd0_blit by auto.
  rewrite (proj2 (Z.leb_le _ _)), (proj2 (Z.ltb_lt _ _)) by lia. cbn [andb]. f_equal. lia.
Qed.
Lemma rd0_blit_other b off src i : 0 <= off -> off + zlen src <= zlen b -> i < off \/ off + zlen src <= i ->
  rd0 (blit b off src) i = rd0 b i.
Proof. intros H1 H2 H. rewrite rd0_blit by auto. destruct (Z.leb_spec off i), (Z.ltb_spec i (off + zlen src)); cbn [andb]; auto. lia. Qed.
Lemma rd16_blit_other b off src i : 0 <= off -> off + zlen src <= zlen b -> i + 2 <= off \/ off + zlen src <= i ->
  rd16 (blit b off src) i = rd16 b i.
Proof. intros H1 H2 H. apply rd16_at. intros k Hk. apply rd0_blit_other; auto. lia. Qed.
Lemma rd32_blit_other b off src i : 0 <= off -> off + zlen src <= zlen b -> i + 4 <= off \/ off + zlen src <= i ->
  rd32 (blit b off src) i = rd32 b i.
Proof. intros H1 H2 H. apply rd32_at. intros k Hk. apply rd0_blit_other; auto. lia. Qed.

Lemma zlen_le16 v : zlen (le16 v) = 2.
Proof. reflexivity. Qed.
Lemma zlen_le32 v : zlen (le32 v) = 4.
Proof. reflexivity. Qed.
Section fields.
Context (b : list Z) (i v : Z).
Hypothesis Hi : 0 <= i.
Lemma zlen_put16 : i + 2 <= zlen b -> zlen (put16 b i v) = zlen b.
Proof. intros H. by apply zlen_blit. Qed.
Lemma zlen_put32 : i + 4 <= zlen b -> zlen (put32 b i v) = zlen b.
Proof. intros H. by apply zlen_blit. Qed.
Lemma rd16_put16 : i + 2 <= zlen b -> is_u16 v -> rd16 (put16 b i v) i = v.
Proof. intros H Hv. unfold put16. rewrite rd16_blit by (rewrite ?zlen_le16; lia). rewrite Z.sub_diag. by apply rd16_le16. Qed.
Lemma rd32_put32 : i + 4 <= zlen b -> is_u32 v -> rd32 (put32 b i v) i = v.
Proof. intros H Hv. unfold put32. rewrite rd32_blit by (rewrite ?zlen_le32; lia). rewrite Z.sub_diag. by apply rd32_le32. Qed.
Lemma rd16_put16_ne j : i + 2 <= zlen b -> j + 2 <= i \/ i + 2 <= j -> rd16 (put16 b i v) j = rd16 b j.
Proof. intros H Hj. by apply rd16_blit_other. Qed.
Lemma rd32_put32_ne j : i + 4 <= zlen b -> j + 4 <= i \/ i + 4 <= j -> rd32 (put32 b i v) j = rd32 b j.
Proof. intros H Hj. by apply rd32_blit_other. Qed.
Lemma rd32_put16_ne j : i + 2 <= zlen b -> j + 4 <= i \/ i + 2 <= j -> rd32 (put16 b i v) j = rd32 b j.
Proof. intros H Hj. by apply rd32_blit_other. Qed.
Lemma rd16_put32_ne j : i + 4 <= zlen b -> j + 2 <= i \/ i + 4 <= j -> rd16 (put32 b i v) j = rd16 b j.
Proof. intros H Hj. by apply rd16_blit_other. Qed.
Lemma le16_bytes : Forall is_u8 (le16 v).
Proof. unfold le16. repeat constructor; widths; lia. Qed.
Lemma le32_bytes : Forall is_u8 (le32 v).
Proof. unfold le32. repeat constructor; widths; apply Z.mod_pos_bound; lia. Qed.
Lemma put16_bytes : i + 2 <= zlen b -> Forall is_u8 b -> Forall is_u8 (put16 b i v).
Proof. intros H Hb. unfold put16. apply blit_bytes; auto. apply le16_bytes. Qed.
Lemma put32_bytes : i + 4 <= zlen b -> Forall is_u8 b -> Forall is_u8 (put32 b i v).
Proof. intros H Hb. unfold put32. apply blit_bytes; auto. apply le32_bytes. Qed.
End fields.
Lemma zeros_bytes n : Forall is_u8 (zeros n).
Proof. apply Forall_replicate. widths. lia. Qed.

(** ** Sectors and blocks of a disk without errors *)
Record healthy (d : disk) : Prop := mk_healthy {
  h_rd l : d.(rd_ok) l = true;
  h_wr l : d.(wr_ok) l = true;
  h_mem n : d.(mem_ok) n = true;
  h_len l : zlen (d.(sectors) l) = 512;
  h_bytes l : Forall is_u8 (d.(sectors) l)
}.
Record geom (fs : ext2_fs_t) : Prop := mk_geom {
  g_disk : healthy fs.(device);
  g_bs : 1024 <= fs.(block_size) <= 65536;
  g_mod : fs.(block_size) mod 1024 = 0
}.
Definition spb (fs : ext2_fs_t) : Z := fs.(block_size) / 512.
(** Blocks the driver can address with 28 bits. *)
Definition valid (fs : ext2_fs_t) (b : Z) : Prop := 0 <= b /\ (b + 1) * spb fs <= 2 ^ 28.
Fixpoint sects (n : nat) (lba : Z) (d : disk) : list Z :=
  match n with O => [] | S n' => d.(sectors) lba ++ sects n' (lba + 1) d end.
Definition blk (fs : ext2_fs_t) (b : Z) : list Z := sects (sectors_per_block fs) (b * spb fs) fs.(device).

Lemma read_sects n lba d : healthy d -> 0 <= lba -> lba + Z.of_nat n <= 2 ^ 28 -> ata_read_sectors n lba d = Some (sects n lba d).
Proof.
  intros H. revert lba. induction n as [|n IH]; intros lba H0 H1; cbn [ata_read_sectors sects]; [done|].
  rewrite (h_rd _ H). destruct n as [|n]; [cbn [ata_read_sectors sects]|rewrite u32_small, IH by (widths; change (2 ^ 28) with 268435456 in *; lia)];
    unfold lba28; rewrite Z.mod_small by lia; done.
Qed.
Lemma zlen_sects n lba d : healthy d -> zlen (sects n lba d) = 512 * Z.of_nat n.
Proof. intros H. revert lba. induction n as [|n IH]; intros lba; cbn [sects]; [done|]. rewrite zlen_app, IH, (h_len _ H). lia. Qed.
Lemma sects_bytes n lba d : healthy d -> Forall is_u8 (sects n lba d).
Proof. intros H. revert lba. induction n as [|n IH]; intros lba; cbn [sects]; [constructor|]. apply Forall_app. split; [apply H|auto]. Qed.
Lemma rd0_sects n lba d i : healthy d -> 0 <= i < 512 * Z.of_nat n ->
  rd0 (sects n lba d) i = rd0 (d.(sectors) (lba + i / 512)) (i mod 512).
Proof.
  intros H. revert lba i. induction n as [|n IH]; intros lba i Hi; [lia|]. cbn [sects]. rewrite rd0_app, (h_len _ H).
  destruct (Z.ltb_spec i 512).
  - rewrite Z.div_small, Z.mod_small, Z.add_0_r by lia. done.
  - rewrite IH by lia. f_equal; [f_equal|]; lia.
Qed.
Lemma write_sects n lba buf d : healthy d -> 0 <= lba -> lba + Z.of_nat n <= 2 ^ 28 -> zlen buf = 512 * Z.of_nat n -> Forall is_u8 buf ->
  exists d', ata_write_sectors n lba buf d = (true, d') /\ healthy d' /\
    (forall l, ~ (lba <= l < lba + Z.of_nat n) -> sectors d' l = sectors d l) /\
    (forall l i, lba <= l < lba + Z.of_nat n -> 0 <= i < 512 -> rd0 (sectors d' l) i = rd0 buf (512 * (l - lba) + i)).
Proof.
  intros H. revert lba buf d H. induction n as [|n IH]; intros lba buf d H H0 H1 Hl Hb; cbn [ata_write_sectors].
  { exists d. split_and!; auto; lia. }
  rewrite (h_wr _ H). assert (E28 : lba28 lba = lba) by (unfold lba28; rewrite Z.mod_small; lia). rewrite E28.
  set (d1 := set_sector lba (take 512 buf) d).
  assert (Hd1 : healthy d1).
  { destruct H. constructor; auto; intros l; cbn; destruct (l =? lba); auto; [rewrite zlen_take; lia|by apply Forall_take]. }
  destruct n as [|n].
  { exists d1. cbn [ata_write_sectors]. split_and!; auto; intros l; [|intros i]; intros Hl'; [|intros Hi]; cbn.
    - destruct (Z.eqb_spec l lba); [lia|done].
    - destruct (Z.eqb_spec l lba) as [->|]; [|lia]. rewrite rd0_take by lia. f_equal. lia. }
  rewrite u32_small by (widths; change (2 ^ 28) with 268435456 in *; lia).
  destruct (IH (lba + 1) (drop 512 buf) d1 Hd1) as (d' & E & Hd' & O & N);
    [lia|lia|rewrite zlen_drop; lia|by apply Forall_drop|].
  exists d'. rewrite E. split_and!; auto; intros l.
  - intros Hl'. rewrite O by lia. cbn. destruct (Z.eqb_spec l lba); [lia|done].
  - intros i Hl' Hi. destruct (decide (l = lba)) as [->|].
    + rewrite O by lia. cbn. rewrite Z.eqb_refl, rd0_take by lia. f_equal. lia.
    + rewrite N by lia. rewrite rd0_drop by lia. f_equal. lia.
Qed.

Section block.
Context (fs : ext2_fs_t).
Hypothesis G : geom fs.
Lemma spb_eq : fs.(block_size) = 512 * spb fs /\ 2 <= spb fs /\ Z.of_nat (sectors_per_block fs) = spb fs.
Proof. pose proof (g_bs _ G). pose proof (g_mod _ G). unfold spb, sectors_per_block in *. lia. Qed.
Lemma valid_lba b : valid fs b -> block_lba fs b = b * spb fs /\ 0 <= b * spb fs /\ b * spb fs + spb fs <= 2 ^ 28.
Proof.
  intros [H0 H1]. destruct spb_eq as (_ & H2 & _). assert (b * spb fs + spb fs <= 2 ^ 28) by lia.
  split; [|split; [nia|lia]]. unfold block_lba. fold (spb fs). apply u32_small. widths. change (2 ^ 28) with 268435456 in *. nia.
Qed.
Lemma read_block_ok b : valid fs b -> ext2_read_block fs b = Some (blk fs b).
Proof.
  intros Hb. destruct (valid_lba b Hb) as (E & H0 & H1), spb_eq as (_ & _ & En). unfold ext2_read_block. rewrite E.
  apply read_sects; [apply G|auto|lia].
Qed.
Lemma zlen_blk b : zlen (blk fs b) = fs.(block_size).
Proof. destruct spb_eq as (E & _ & En). unfold blk. rewrite zlen_sects by apply G. lia. Qed.
Lemma blk_bytes b : Forall is_u8 (blk fs b).
Proof. apply sects_bytes, G. Qed.
Lemma rd0_blk b i : 0 <= i < fs.(block_size) -> rd0 (blk fs b) i = rd0 (fs.(device).(sectors) (b * spb fs + i / 512)) (i mod 512).
Proof. intros H. destruct spb_eq as (E & _ & En). apply rd0_sects; [apply G|lia]. Qed.
End block.

(** What writing a block does. *)
Record stored (fs fs' : ext2_fs_t) (b : Z) (buf : list Z) : Prop := mk_stored {
  st_fs : fs' = with_device fs fs'.(device);
  st_geom : geom fs';
  st_here : blk fs' b = buf;
  st_other c : valid fs c -> c <> b -> blk fs' c = blk fs c;
  st_sector l : l < b * spb fs -> sectors fs'.(device) l = sectors fs.(device) l
}.
Lemma write_block_ok fs b buf : geom fs -> valid fs b -> zlen buf = fs.(block_size) -> Forall is_u8 buf ->
  exists fs', ext2_write_block fs b buf = (true, fs') /\ stored fs fs' b buf.
Proof.
  intros G Hb Hl Hu. destruct (valid_lba fs G b Hb) as (E & H0 & H1), (spb_eq fs G) as (Eb & Hs & En). unfold ext2_write_block. rewrite E.
  destruct (write_sects (sectors_per_block fs) (b * spb fs) buf fs.(device)) as (d' & Ew & Hd & O & N); [apply G|lia|lia|lia|auto|].
  rewrite Ew. eexists. split; [reflexivity|].
  assert (G' : geom (with_device fs d')) by (destruct G; by constructor).
  constructor; auto.
  - apply rd0_ext; [by rewrite (zlen_blk _ G')|]. intros i Hi. rewrite (zlen_blk _ G') in Hi. cbn in Hi. rewrite rd0_blk by auto.
    change (spb (with_device fs d')) with (spb fs). cbn [device with_device]. rewrite N by lia. f_equal. lia.
  - intros c Hc Nc. apply rd0_ext; rewrite !zlen_blk by auto; [done|]. intros i Hi. cbn in Hi. rewrite !rd0_blk by auto.
    change (spb (with_device fs d')) with (spb fs). cbn [device with_device]. rewrite O; [done|]. destruct (Z.lt_trichotomy c b) as [?|[?|?]]; [|done|]; nia.
  - intros l Hl'. cbn. apply O. lia.
Qed.
(** What writing the superblock does. *)
Record synced (fs fs' : ext2_fs_t) : Prop := mk_synced {
  sy_fs : fs' = with_device fs fs'.(device);
  sy_geom : geom fs';
  sy_sb l i : 2 <= l < 4 -> 0 <= i < 512 -> rd0 (sectors fs'.(device) l) i = rd0 fs.(superblock) (512 * (l - 2) + i);
  sy_other c : valid fs c -> gdt_block fs <= c -> blk fs' c = blk fs c
}.
Lemma write_superblock_ok fs : geom fs -> zlen fs.(superblock) = 1024 -> Forall is_u8 fs.(superblock) ->
  exists fs', ext2_write_superblock fs = (true, fs') /\ synced fs fs'.
Proof.
  intros G Hl Hu. destruct (spb_eq fs G) as (Eb & Hs & En). unfold ext2_write_superblock.
  destruct (write_sects 2 2 fs.(superblock) fs.(device)) as (d' & Ew & Hd & O & N); [apply G|lia|lia|lia|auto|].
  rewrite Ew. eexists. split; [reflexivity|].
  assert (G' : geom (with_device fs d')) by (destruct G; by constructor). constructor; auto.
  intros c Hc Hg. apply rd0_ext; rewrite !zlen_blk by auto; [done|]. intros i Hi. cbn in Hi. rewrite !rd0_blk by auto.
    change (spb (with_device fs d')) with (spb fs). cbn [device with_device]. rewrite O; [done|].
    unfold gdt_block in Hg. pose proof (g_mod _ G). pose proof (g_bs _ G). destruct (Z.eqb_spec fs.(block_size) 1024); nia.
Qed.
