(* ===== verification/Ext2Alloc.v ===== *)
(** Allocation in the ext2 driver: what [find_first_zero_bit], [set_bit] and
    [clear_bit] do to a bitmap, the invariant [vol] of a mounted volume, and
    the functions that allocate and free blocks and inodes against it. *)
From S2P Require Import Prelude Ext2 Ext2Disk.

(** ** Bits of a bitmap *)
Lemma bit_clear_spec bm i : bit_clear bm i = negb (Z.testbit (rd0 bm (i / 8)) (i mod 8)).
Proof. unfold bit_clear. apply land_bit_eqb. lia. Qed.
Lemma byte_bit_range v i : is_u8 v -> Z.testbit v i = true -> i < 8.
Proof.
  intros Hv Ht. destruct (decide (i < 8)); [done|]. exfalso. unfold is_u8 in Hv.
  rewrite <- (Z.mod_small v (2 ^ 8)) in Ht by lia. rewrite Z.mod_pow2_bits_high in Ht by lia. done.
Qed.
Lemma byte_full v : is_u8 v -> (v =? 0xFF) = true <-> forall i, 0 <= i < 8 -> Z.testbit v i = true.
Proof.
  intros Hv. split.
  - intros ->%Z.eqb_eq i Hi. change 255 with (Z.ones 8). by apply Z.ones_spec_low.
  - intros H. apply Z.eqb_eq. change 255 with (Z.ones 8). apply Z.bits_inj'. intros n Hn. destruct (decide (n < 8)).
    + rewrite Z.ones_spec_low by lia. apply H. lia.
    + rewrite Z.ones_spec_high by lia. destruct (Z.testbit v n) eqn:E; [|done]. apply byte_bit_range in E; [lia|done].
Qed.

Section bits.
Context (bm : list Z) (index : Z).
Hypothesis Hi : 0 <= index < 8 * zlen bm.
Lemma zlen_set_bit : zlen (set_bit bm index) = zlen bm.
Proof. apply zlen_wr. Qed.
Lemma zlen_clear_bit : zlen (clear_bit bm index) = zlen bm.
Proof. apply zlen_wr. Qed.
Lemma bit_clear_wr v j : 0 <= j ->
  bit_clear (wr bm (index / 8) v) j = if j / 8 =? index / 8 then negb (Z.testbit v (j mod 8)) else bit_clear bm j.
Proof.
  intros Hj. rewrite !bit_clear_spec. destruct (Z.eqb_spec (j / 8) (index / 8)) as [->|].
  - by rewrite rd0_wr_eq by lia.
  - by rewrite rd0_wr_ne by lia.
Qed.
Lemma bit_clear_set j : 0 <= j -> bit_clear (set_bit bm index) j = if j =? index then false else bit_clear bm j.
Proof.
  intros Hj. unfold set_bit. rewrite bit_clear_wr by auto.
  rewrite Z.lor_spec, testbit_pow2 by lia. destruct (Z.eqb_spec (j / 8) (index / 8)) as [E|E], (Z.eqb_spec j index) as [->|]; try done.
  - by rewrite Z.eqb_refl, orb_true_r.
  - rewrite (proj2 (Z.eqb_neq _ _)) by lia. by rewrite orb_false_r, bit_clear_spec, E.
Qed.
Lemma mask_bits k j : 0 <= k < 8 -> 0 <= j < 8 -> Z.testbit (0xFF - Z.shiftl 1 k) j = negb (j =? k).
Proof.
  intros Hk Hj. assert (K : k = 0 \/ k = 1 \/ k = 2 \/ k = 3 \/ k = 4 \/ k = 5 \/ k = 6 \/ k = 7) by lia.
  assert (J : j = 0 \/ j = 1 \/ j = 2 \/ j = 3 \/ j = 4 \/ j = 5 \/ j = 6 \/ j = 7) by lia.
  destruct_or! K; destruct_or! J; subst; reflexivity.
Qed.
Lemma bit_clear_clear j : 0 <= j -> bit_clear (clear_bit bm index) j = if j =? index then true else bit_clear bm j.
Proof.
  intros Hj. unfold clear_bit. rewrite bit_clear_wr by auto.
  rewrite Z.land_spec, mask_bits by lia. destruct (Z.eqb_spec (j / 8) (index / 8)) as [E|E], (Z.eqb_spec j index) as [->|]; try done.
  - by rewrite Z.eqb_refl, andb_false_r.
  - rewrite (proj2 (Z.eqb_neq _ _)) by lia. by rewrite andb_true_r, bit_clear_spec, E.
Qed.
Lemma u8_bits v : 0 <= v -> (forall i, 8 <= i -> Z.testbit v i = false) -> is_u8 v.
Proof.
  intros H0 H. split; [auto|]. destruct (decide (v = 0)) as [->|]; [lia|]. apply Z.log2_lt_cancel. rewrite Z.log2_pow2 by lia.
  destruct (decide (Z.log2 v < 8)); [done|]. pose proof (H (Z.log2 v) ltac:(lia)) as E. rewrite Z.bit_log2 in E by lia. done.
Qed.
Lemma shift_u8 k : 0 <= k < 8 -> is_u8 (Z.shiftl 1 k).
Proof. intros H. rewrite Z.shiftl_1_l. split; [lia|]. apply Z.pow_lt_mono_r; lia. Qed.
Lemma set_bit_bytes : Forall is_u8 bm -> Forall is_u8 (set_bit bm index).
Proof.
  intros H. apply Forall_wr; [auto|]. pose proof (rd0_u8 bm (index / 8) H). pose proof (shift_u8 (index mod 8) ltac:(lia)).
  apply u8_bits; [apply Z.lor_nonneg; unfold is_u8 in *; lia|]. intros i Hi8. rewrite Z.lor_spec.
  destruct (Z.testbit (rd0 bm (index / 8)) i) eqn:E1; [apply byte_bit_range in E1; [lia|auto]|].
  destruct (Z.testbit (Z.shiftl 1 (index mod 8)) i) eqn:E2; [apply byte_bit_range in E2; [lia|auto]|done].
Qed.
Lemma clear_bit_bytes : Forall is_u8 bm -> Forall is_u8 (clear_bit bm index).
Proof.
  intros H. apply Forall_wr; [auto|]. pose proof (rd0_u8 bm (index / 8) H).
  apply u8_bits; [apply Z.land_nonneg; unfold is_u8 in *; lia|]. intros i Hi8. rewrite Z.land_spec.
  destruct (Z.testbit (rd0 bm (index / 8)) i) eqn:E1; [apply byte_bit_range in E1; [lia|auto]|done].
Qed.
End bits.

(** The search finds the lowest clear bit below [max_bits]. *)
Definition lowest_zero (bm : list Z) (max_bits r : Z) : Prop :=
  (0 <= r < max_bits /\ bit_clear bm r = true /\ forall j, 0 <= j < r -> bit_clear bm j = false)
  \/ (r = -1 /\ forall j, 0 <= j < max_bits -> bit_clear bm j = false).
Lemma find_zero_ok bm size max_bits : Forall is_u8 bm -> 0 <= max_bits <= 8 * size ->
  lowest_zero bm max_bits (find_first_zero_bit bm size max_bits).
Proof.
  intros Hb Hm. unfold find_first_zero_bit.
  assert (Full : forall k, zero_bit_of bm max_bits k = None -> forall j, 0 <= j -> j / 8 = k -> bit_clear bm j = false).
  { intros k E j Hj Ej. unfold zero_bit_of in E. rewrite bit_clear_spec. apply negb_false_iff. destruct (rd0 bm k =? 255) eqn:F.
    - rewrite Ej. apply byte_full; [by apply rd0_u8|auto|lia].
    - rewrite find_loop_None in E. specialize (E (j mod 8) ltac:(lia)). cbv beta zeta in E. rewrite land_bit_eqb in E by lia.
      rewrite Ej. case_if_in E; [done|]. by destruct (Z.testbit (rd0 bm k) (j mod 8)). }
  destruct (find_loop (Z.to_nat size) 0 (zero_bit_of bm max_bits)) as [r|] eqn:E; cbn [default from_option id]; unfold id.
  - apply find_loop_Some in E as (k & Hk & Ek & Before). unfold zero_bit_of in Ek. destruct (rd0 bm k =? 255); [done|].
    apply find_loop_Some in Ek as (bit & Hbit & Eb & Prev). cbv beta zeta in Eb, Prev.
    assert (Lt : forall j, 0 <= j < k * 8 + bit -> bit_clear bm j = false).
    { intros j Hj. destruct (decide (j / 8 = k)) as [Ej|].
      - specialize (Prev (j mod 8) ltac:(lia)). rewrite land_bit_eqb in Prev by lia. rewrite bit_clear_spec, Ej.
        destruct (max_bits <=? k * 8 + j mod 8); [done|]. by destruct (Z.testbit (rd0 bm k) (j mod 8)).
      - apply (Full (j / 8)); [apply Before; lia|lia|done]. }
    rewrite land_bit_eqb in Eb by lia. case_if_in Eb; [injection Eb as <-; right; split; [done|intros j Hj; apply Lt; lia]|].
    destruct (Z.testbit (rd0 bm k) bit) eqn:Et; [done|]. injection Eb as <-. left. split; [lia|]. split; [|auto].
    rewrite bit_clear_spec. replace ((k * 8 + bit) / 8) with k by lia. replace ((k * 8 + bit) mod 8) with bit by lia.
    by rewrite Et.
  - right. split; [done|]. intros j Hj. rewrite find_loop_None in E. apply (Full (j / 8)); [apply E; lia|lia|done].
Qed.

(** ** Free units *)
#[export] Instance unit_kind_eq_dec : EqDecision unit_kind.
Proof. solve_decision. Defined.
(** The two kinds of units, their number per group and the number of a unit. *)
Definition kind (k : unit_kind) : Prop := k = BLOCKS \/ k = INODES.
Definition limit (k : unit_kind) (fs : ext2_fs_t) (group : Z) : Z :=
  if k.(k_bitmap) =? 0 then blocks_in_group fs group else fs.(inodes_per_group).
Definition unit_number (k : unit_kind) (fs : ext2_fs_t) (group i : Z) : Z :=
  if k.(k_bitmap) =? 0 then group * fs.(blocks_per_group) + s_first_data_block fs.(superblock) + i
  else group * fs.(inodes_per_group) + i + 1.
Definition bits (k : unit_kind) (fs : ext2_fs_t) (group : Z) : list Z := blk fs (bitmap_block k fs group).
Definition upto (n : Z) : list Z := Z.of_nat <$> seq 0 (Z.to_nat n).
Definition clear_below (bm : list Z) (n : Z) : list Z := filter (fun i => bit_clear bm i = true) (upto n).
Definition free_count (k : unit_kind) (fs : ext2_fs_t) (group : Z) : Z := zlen (clear_below (bits k fs group) (limit k fs group)).
Definition sum_upto (n : Z) (f : Z -> Z) : Z := foldr Z.add 0 (f <$> upto n).

Lemma elem_upto n i : i ∈ upto n <-> 0 <= i < n.
Proof.
  unfold upto. rewrite list_elem_of_fmap. split.
  - intros (x & -> & Hx%elem_of_seq). lia.
  - intros H. exists (Z.to_nat i). split; [lia|]. apply elem_of_seq. lia.
Qed.
Lemma nodup_upto n : NoDup (upto n).
Proof. apply NoDup_fmap_2; [intros x y; lia|apply NoDup_seq]. Qed.
Lemma upto_snoc n : 0 <= n -> upto (n + 1) = upto n ++ [n].
Proof.
  intros H. unfold upto. replace (Z.to_nat (n + 1)) with (Z.to_nat n + 1)%nat by lia.
  rewrite seq_app, fmap_app. cbn. repeat f_equal. lia.
Qed.
Lemma sum_upto_ext n f g : (forall i, 0 <= i < n -> f i = g i) -> sum_upto n f = sum_upto n g.
Proof. intros H. unfold sum_upto. f_equal. apply list_fmap_ext. intros i x Hx. apply H, elem_upto. by eapply list_elem_of_lookup_2. Qed.
Lemma foldr_add_snoc l x : foldr Z.add 0 (l ++ [x]) = foldr Z.add 0 l + x.
Proof. induction l as [|y l IH]; cbn; [lia|]. rewrite IH. lia. Qed.
Lemma sum_upto_upd n f g a d : 0 <= a < n -> g a = f a + d -> (forall i, 0 <= i < n -> i <> a -> g i = f i) ->
  sum_upto n g = sum_upto n f + d.
Proof.
  intros Ha Hd Hg. assert (Hn : 0 <= n) by lia. revert Ha Hg. pattern n. apply natlike_ind; [lia| |done]. clear n Hn.
  intros n Hn IH Ha Hg. unfold sum_upto, Z.succ in *. rewrite !upto_snoc, !fmap_app by auto. cbn. rewrite !foldr_add_snoc.
  destruct (decide (a = n)) as [->|].
  - change (sum_upto n g + g n = sum_upto n f + f n + d). rewrite (sum_upto_ext n g f); [lia|]. intros i Hi. apply Hg; lia.
  - rewrite IH, (Hg n) by (try apply Hg; lia || (intros; apply Hg; lia)). lia.
Qed.
Lemma sum_upto_nonneg n f : (forall i, 0 <= i < n -> 0 <= f i) -> 0 <= sum_upto n f.
Proof.
  intros H. unfold sum_upto. assert (F : Forall (fun i => 0 <= f i) (upto n)) by (apply list.Forall_forall; intros i Hi%elem_upto; auto).
  induction F; cbn; lia.
Qed.
Lemma sum_upto_ge n f i : (forall i, 0 <= i < n -> 0 <= f i) -> 0 <= i < n -> f i <= sum_upto n f.
Proof.
  intros H Hi. set (g := fun j => if j =? i then 0 else f j).
  assert (E : sum_upto n g = sum_upto n f + - f i).
  { apply (sum_upto_upd n f g i); unfold g; [auto|rewrite Z.eqb_refl; lia|]. intros j Hj Nj. by rewrite (proj2 (Z.eqb_neq _ _) Nj). }
  assert (0 <= sum_upto n g) by (apply sum_upto_nonneg; intros j Hj; unfold g; destruct (j =? i); [lia|auto]). lia.
Qed.
Lemma sum_upto_le n f m : 0 <= n -> (forall i, 0 <= i < n -> f i <= m) -> sum_upto n f <= n * m.
Proof.
  intros Hn H. revert H. pattern n. apply natlike_ind; [intros _; change (0 <= 0 * m); lia| |done]. clear n Hn.
  intros n Hn IH H. unfold sum_upto, Z.succ in *. rewrite upto_snoc, fmap_app by auto. cbn. rewrite foldr_add_snoc.
  assert (foldr Z.add 0 (f <$> upto n) <= n * m) by (apply IH; intros; apply H; lia). pose proof (H n). lia.
Qed.
Lemma sum_upto_pos n f : 0 < sum_upto n f -> exists i, 0 <= i < n /\ 0 < f i.
Proof.
  unfold sum_upto. intros H. assert (F : Exists (fun i => 0 < f i) (upto n)).
  { induction (upto n) as [|x l IH]; cbn in H; [lia|]. destruct (decide (0 < f x)); [by left|]. right. apply IH. lia. }
  apply list.Exists_exists in F as (i & Hi%elem_upto & Hf). eauto.
Qed.

(** One bit more or less changes the number of clear bits by one. *)
Lemma clear_count bm bm' n i : 0 <= i < n -> bit_clear bm i = true -> bit_clear bm' i = false ->
  (forall j, 0 <= j < n -> j <> i -> bit_clear bm' j = bit_clear bm j) ->
  zlen (clear_below bm n) = zlen (clear_below bm' n) + 1.
Proof.
  intros Hi H1 H2 Hj. unfold clear_below, zlen.
  assert (P : filter (fun i => bit_clear bm i = true) (upto n) ≡ₚ i :: filter (fun i => bit_clear bm' i = true) (upto n)).
  { apply list.NoDup_Permutation; [apply list.NoDup_filter, nodup_upto|apply list.NoDup_cons; split; [|apply list.NoDup_filter, nodup_upto]|].
    - rewrite list_elem_of_filter. intros [? _]. congruence.
    - intros j. rewrite list.elem_of_cons, !list_elem_of_filter, !elem_upto. split.
      + intros [B Hn]. destruct (decide (j = i)) as [->|]; [by left|]. right. rewrite Hj; auto.
      + intros [->|[B Hn]]; [auto|]. destruct (decide (j = i)) as [->|]; [auto|]. rewrite Hj in B; auto. }
  rewrite P. cbn [length]. lia.
Qed.
Lemma clear_ext bm bm' n : (forall j, 0 <= j < n -> bit_clear bm' j = bit_clear bm j) -> clear_below bm' n = clear_below bm n.
Proof.
  intros H. unfold clear_below. assert (F : Forall (fun i => bit_clear bm' i = bit_clear bm i) (upto n)) by (apply list.Forall_forall; intros i Hi%elem_upto; auto).
  induction F as [|x l E F IH]; [done|]. rewrite !filter_cons, IH, E. done.
Qed.
Lemma clear_pos bm n : 0 < zlen (clear_below bm n) <-> exists i, 0 <= i < n /\ bit_clear bm i = true.
Proof.
  unfold zlen. destruct (clear_below bm n) as [|i l] eqn:E; cbn [length].
  - split; [lia|]. intros (i & Hi & B). assert (i ∈ clear_below bm n) as X by (apply list_elem_of_filter; split; [auto|by apply elem_upto]).
    rewrite E in X. inversion X.
  - split; [|lia]. intros _. assert (i ∈ clear_below bm n) as X by (rewrite E; constructor).
    apply list_elem_of_filter in X as [B Hi%elem_upto]. eauto.
Qed.
Lemma clear_le bm n : 0 <= n -> zlen (clear_below bm n) <= n.
Proof. intros H. unfold zlen, clear_below. pose proof (length_filter (fun i => bit_clear bm i = true) (upto n)). unfold upto in *. rewrite length_fmap, length_seq in *. lia. Qed.
