(* ===== verification/Ext2Vol.v ===== *)
(** The invariant [vol] of a mounted ext2 volume, and the functions of the
    driver that allocate and free blocks and inodes: they refine a set of free
    units from which the lowest is taken. *)
From S2P Require Import Prelude Ext2 Ext2Disk Ext2Alloc.

Lemma s32_u32 x : 0 <= x < 2 ^ 31 -> s32 (u32 x) = x.
Proof. intros H. rewrite u32_small by (widths; lia). by apply s32_id. Qed.

(** ** The layout of a volume *)
Definition desc_block (fs : ext2_fs_t) (group : Z) : Z := gdt_block fs + group / (fs.(block_size) / sizeof_group_desc).
Definition desc_off (fs : ext2_fs_t) (group : Z) : Z := group mod (fs.(block_size) / sizeof_group_desc) * sizeof_group_desc.
Definition group (fs : ext2_fs_t) (g : Z) : Prop := 0 <= g < fs.(num_groups).
(** Blocks beyond the table of group descriptors. *)
Record beyond (fs : ext2_fs_t) (b : Z) : Prop := mk_beyond {
  by_valid : valid fs b;
  by_desc g : group fs g -> desc_block fs g < b
}.
(** The parts of the context that no operation changes. *)
Record same_layout (fs fs' : ext2_fs_t) : Prop := mk_same_layout {
  sl_bs : fs'.(block_size) = fs.(block_size);
  sl_ipg : fs'.(inodes_per_group) = fs.(inodes_per_group);
  sl_bpg : fs'.(blocks_per_group) = fs.(blocks_per_group);
  sl_ng : fs'.(num_groups) = fs.(num_groups);
  sl_is : fs'.(inode_size) = fs.(inode_size);
  sl_count : s_blocks_count fs'.(superblock) = s_blocks_count fs.(superblock);
  sl_first : s_first_data_block fs'.(superblock) = s_first_data_block fs.(superblock);
  sl_gd g o : group fs g -> o = 0 \/ o = 4 \/ o = 8 -> gd32 fs' g o = gd32 fs g o
}.
Record shape (fs : ext2_fs_t) : Prop := mk_shape {
  sh_geom : geom fs;
  sh_sb : zlen fs.(superblock) = 1024;
  sh_sb_bytes : Forall is_u8 fs.(superblock);
  sh_gd : sizeof_group_desc * fs.(num_groups) <= zlen fs.(group_descs);
  sh_gd_bytes : Forall is_u8 fs.(group_descs);
  sh_groups : 0 < fs.(num_groups);
  sh_desc g : group fs g -> valid fs (desc_block fs g);
  sh_bitmap k g : kind k -> group fs g -> beyond fs (bitmap_block k fs g);
  sh_bitmap_inj k k' g g' : kind k -> kind k' -> group fs g -> group fs g' ->
    bitmap_block k fs g = bitmap_block k' fs g' -> k = k' /\ g = g';
  sh_limit k g : kind k -> group fs g -> 0 <= limit k fs g <= 8 * fs.(block_size) /\ limit k fs g < 2 ^ 16;
  sh_per : 0 < fs.(blocks_per_group) /\ 0 < fs.(inodes_per_group);
  sh_number k g i : kind k -> group fs g -> 0 <= i < limit k fs g -> 0 < unit_number k fs g i < 2 ^ 31;
  sh_total : fs.(num_groups) * 2 ^ 16 < 2 ^ 32
}.
(** The disk holds what the context holds. *)
Record mirror (fs : ext2_fs_t) : Prop := mk_mirror {
  mi_sb l i : 2 <= l < 4 -> 0 <= i < 512 -> rd0 (sectors fs.(device) l) i = rd0 fs.(superblock) (512 * (l - 2) + i);
  mi_gd g : group fs g ->
    bytes_at (blk fs (desc_block fs g)) (desc_off fs g) 32 = bytes_at fs.(group_descs) (sizeof_group_desc * g) 32
}.
Record vol (fs : ext2_fs_t) : Prop := mk_vol {
  v_shape : shape fs;
  v_mirror : mirror fs;
  v_group_free k g : kind k -> group fs g -> group_free k fs g = free_count k fs g;
  v_total_free k : kind k -> total_free k fs = sum_upto fs.(num_groups) (free_count k fs)
}.

Section same_layout.
Context (fs fs' : ext2_fs_t).
Hypothesis L : same_layout fs fs'.
Lemma sl_spb : spb fs' = spb fs.
Proof. unfold spb. by rewrite (sl_bs _ _ L). Qed.
Lemma sl_valid b : valid fs' b <-> valid fs b.
Proof. unfold valid. by rewrite sl_spb. Qed.
Lemma sl_gdt : gdt_block fs' = gdt_block fs.
Proof. unfold gdt_block. by rewrite (sl_bs _ _ L). Qed.
Lemma sl_desc g : desc_block fs' g = desc_block fs g.
Proof. unfold desc_block. by rewrite sl_gdt, (sl_bs _ _ L). Qed.
Lemma sl_off g : desc_off fs' g = desc_off fs g.
Proof. unfold desc_off. by rewrite (sl_bs _ _ L). Qed.
Lemma sl_group g : group fs' g <-> group fs g.
Proof. unfold group. by rewrite (sl_ng _ _ L). Qed.
Lemma sl_beyond b : beyond fs' b <-> beyond fs b.
Proof.
  split; intros [H1 H2]; (constructor; [by apply sl_valid|]); intros g Hg; [rewrite <- sl_desc|rewrite sl_desc]; apply H2; by apply sl_group.
Qed.
Lemma sl_bitmap k g : kind k -> group fs g -> bitmap_block k fs' g = bitmap_block k fs g.
Proof. intros Hk Hg. apply L; [auto|]. destruct Hk as [->| ->]; cbn; auto. Qed.
Lemma sl_limit k g : limit k fs' g = limit k fs g.
Proof.
  unfold limit, blocks_in_group. destruct L as [_ E1 E2 E3 _ E4 _ _]. by rewrite E1, E2, E3, E4.
Qed.
Lemma sl_number k g i : unit_number k fs' g i = unit_number k fs g i.
Proof. unfold unit_number. destruct L as [_ E1 E2 _ _ _ E3 _]. by rewrite E1, E2, E3. Qed.
Lemma sl_shape : shape fs -> geom fs' -> zlen fs'.(superblock) = 1024 -> Forall is_u8 fs'.(superblock) ->
  sizeof_group_desc * fs.(num_groups) <= zlen fs'.(group_descs) -> Forall is_u8 fs'.(group_descs) -> shape fs'.
Proof.
  intros S G H1 H2 H3 H4. constructor; auto.
  - by rewrite (sl_ng _ _ L).
  - rewrite (sl_ng _ _ L). apply S.
  - intros g Hg%sl_group. rewrite sl_desc, sl_valid. by apply S.
  - intros k g Hk Hg%sl_group. rewrite sl_bitmap, sl_beyond by auto. by apply S.
  - intros k k' g g' Hk Hk' Hg%sl_group Hg'%sl_group. rewrite !sl_bitmap by auto. by apply S.
  - intros k g Hk Hg%sl_group. rewrite sl_limit, (sl_bs _ _ L). by apply S.
  - rewrite (sl_bpg _ _ L), (sl_ipg _ _ L). apply S.
  - intros k g i Hk Hg%sl_group. rewrite sl_limit, sl_number. by apply S.
  - rewrite (sl_ng _ _ L). apply S.
Qed.
End same_layout.
Lemma same_layout_refl fs : same_layout fs fs.
Proof. by constructor. Qed.
Lemma same_layout_trans fs1 fs2 fs3 : same_layout fs1 fs2 -> same_layout fs2 fs3 -> same_layout fs1 fs3.
Proof.
  intros L1 L2. assert (Hg := sl_group _ _ L1). destruct L1, L2. constructor; try congruence.
  intros g o Hgo Ho. etransitivity; [apply sl_gd1; [by apply Hg|auto]|auto].
Qed.
Lemma same_layout_device fs d : same_layout fs (with_device fs d).
Proof. by constructor. Qed.

(** ** Changing the counters *)
Lemma kind_offsets k : kind k -> (k.(k_group_free) = 12 \/ k.(k_group_free) = 14) /\ (k.(k_total_free) = 12 \/ k.(k_total_free) = 16).
Proof. intros [->| ->]; cbn; auto. Qed.
Lemma kind_ne k k' : kind k -> kind k' -> k <> k' ->
  (k.(k_group_free) + 2 <= k'.(k_group_free) \/ k'.(k_group_free) + 2 <= k.(k_group_free)) /\
  (k.(k_total_free) + 4 <= k'.(k_total_free) \/ k'.(k_total_free) + 4 <= k.(k_total_free)).
Proof. intros [->| ->] [->| ->] N; cbn; try done; lia. Qed.
Section count.
Context (fs : ext2_fs_t) (k : unit_kind) (g d : Z).
Hypothesis S : shape fs.
Hypothesis Hk : kind k.
Hypothesis Hg : group fs g.
Let fs' := count k g d fs.
Let gd_fit : 0 <= sizeof_group_desc * g + k.(k_group_free) /\ sizeof_group_desc * g + k.(k_group_free) + 2 <= zlen fs.(group_descs).
Proof. pose proof (sh_gd _ S). destruct Hg, (kind_offsets k Hk) as [? _]. unfold sizeof_group_desc in *. lia. Qed.
Let sb_fit : 0 <= k.(k_total_free) /\ k.(k_total_free) + 4 <= zlen fs.(superblock).
Proof. rewrite (sh_sb _ S). destruct (kind_offsets k Hk) as [_ ?]. lia. Qed.
Lemma count_layout : same_layout fs fs'.
Proof.
  destruct gd_fit, sb_fit. destruct (kind_offsets k Hk) as [O1 O2]. constructor; auto.
  - unfold s_blocks_count, fs', count. cbn. apply rd32_put32_ne; lia.
  - unfold s_first_data_block, fs', count. cbn. apply rd32_put32_ne; lia.
  - intros h o Hh Ho. unfold gd32, fs', count. cbn. apply rd32_put16_ne; auto. unfold sizeof_group_desc in *. lia.
Qed.
Lemma count_shape : shape fs'.
Proof.
  destruct gd_fit, sb_fit. apply (sl_shape fs); [apply count_layout|auto|..]; unfold fs', count; cbn.
  - destruct (sh_geom _ S). by constructor.
  - rewrite zlen_put32; auto. apply S.
  - apply put32_bytes; auto. apply S.
  - rewrite zlen_put16 by auto. apply S.
  - apply put16_bytes; auto. apply S.
Qed.
Lemma count_group_free : is_u16 (group_free k fs g + d) -> group_free k fs' g = group_free k fs g + d.
Proof.
  intros H. destruct gd_fit. unfold group_free, gd16, fs', count in *. cbn. rewrite rd16_put16; auto; rewrite u16_small; auto.
Qed.
Lemma count_group_free_ne k' h : kind k' -> group fs h -> (k', h) <> (k, g) -> group_free k' fs' h = group_free k' fs h.
Proof.
  intros Hk' Hh N. destruct gd_fit. unfold group_free, gd16, fs', count. cbn. apply rd16_put16_ne; auto.
  destruct (kind_offsets k Hk) as [O1 _], (kind_offsets k' Hk') as [O1' _]. unfold sizeof_group_desc in *.
  destruct (decide (h = g)) as [->|]; [|lia]. destruct (decide (k' = k)) as [->|N']; [done|]. destruct (kind_ne k' k) as [? _]; auto. lia.
Qed.
Lemma count_total : is_u32 (total_free k fs + d) -> total_free k fs' = total_free k fs + d.
Proof.
  intros H. destruct sb_fit. unfold total_free, fs', count in *. cbn. rewrite rd32_put32; auto; rewrite u32_small; auto.
Qed.
Lemma count_total_ne k' : kind k' -> k' <> k -> total_free k' fs' = total_free k' fs.
Proof.
  intros Hk' N. destruct sb_fit. unfold total_free, fs', count. cbn. destruct (kind_ne k' k) as [_ ?]; auto. apply rd32_put32_ne; auto; lia.
Qed.
Lemma count_desc_ne h : group fs h -> h <> g ->
  bytes_at fs'.(group_descs) (sizeof_group_desc * h) 32 = bytes_at fs.(group_descs) (sizeof_group_desc * h) 32.
Proof.
  intros Hh N. destruct gd_fit. unfold fs', count. cbn [group_descs with_superblock put_gd16 with_group_descs]. unfold put16. rewrite bytes_at_blit_other; auto.
  destruct (kind_offsets k Hk) as [O1 _]. rewrite zlen_le16. unfold sizeof_group_desc in *. lia.
Qed.
End count.

(** ** Writing a group descriptor *)
Section write_desc.
Context (fs : ext2_fs_t) (g : Z).
Hypothesis S : shape fs.
Hypothesis Hg : group fs g.
Let desc := bytes_at fs.(group_descs) (sizeof_group_desc * g) 32.
Lemma per_block : 32 <= fs.(block_size) / sizeof_group_desc /\ fs.(block_size) = sizeof_group_desc * (fs.(block_size) / sizeof_group_desc).
Proof. pose proof (g_bs _ (sh_geom _ S)). pose proof (g_mod _ (sh_geom _ S)). unfold sizeof_group_desc. lia. Qed.
Lemma desc_off_fit h : 0 <= desc_off fs h /\ desc_off fs h + 32 <= fs.(block_size).
Proof.
  destruct per_block as [H1 H2]. unfold desc_off. pose proof (Z.mod_pos_bound h (fs.(block_size) / sizeof_group_desc) ltac:(lia)).
  unfold sizeof_group_desc in *. lia.
Qed.
Lemma desc_disjoint h : desc_block fs h = desc_block fs g -> h <> g -> desc_off fs h + 32 <= desc_off fs g \/ desc_off fs g + 32 <= desc_off fs h.
Proof.
  destruct per_block as [H1 H2]. unfold desc_block, desc_off. set (q := fs.(block_size) / sizeof_group_desc) in *. intros E N.
  assert (h mod q <> g mod q).
  { intros M. apply N. rewrite (Z.div_mod h q), (Z.div_mod g q) by lia. replace (h / q) with (g / q) by lia. lia. }
  unfold sizeof_group_desc in *. lia.
Qed.
Lemma write_group_desc_ok : exists fs', ext2_write_group_desc fs g = (true, fs') /\
  stored fs fs' (desc_block fs g) (blit (blk fs (desc_block fs g)) (desc_off fs g) desc).
Proof.
  destruct (desc_off_fit g) as [F1 F2]. pose proof (sh_geom _ S) as G. assert (Hv := sh_desc _ S g Hg).
  unfold ext2_write_group_desc. rewrite (proj2 (Z.leb_gt _ _)) by apply Hg. fold (desc_block fs g). fold (desc_off fs g).
  unfold kmalloc_ok. rewrite (h_mem _ (g_disk _ G)). cbn [negb]. rewrite read_block_ok by auto.
  assert (Hl : zlen desc = 32) by apply zlen_bytes_at. change (Z.to_nat sizeof_group_desc) with 32%nat.
  apply write_block_ok; auto.
  - rewrite zlen_blit; auto; rewrite zlen_blk; auto.
  - apply blit_bytes; [by apply blk_bytes|]. apply Forall_fmap, list.Forall_forall. intros. by apply rd0_u8, S.
Qed.
Lemma desc_stored fs' : stored fs fs' (desc_block fs g) (blit (blk fs (desc_block fs g)) (desc_off fs g) desc) ->
  bytes_at (blk fs' (desc_block fs g)) (desc_off fs g) 32 = desc /\
  forall h, group fs h -> h <> g -> bytes_at (blk fs' (desc_block fs h)) (desc_off fs h) 32 = bytes_at (blk fs (desc_block fs h)) (desc_off fs h) 32.
Proof.
  intros T. destruct (desc_off_fit g) as [F1 F2]. assert (Hl : zlen desc = 32) by apply zlen_bytes_at.
  assert (Hb : zlen (blk fs (desc_block fs g)) = fs.(block_size)) by (apply zlen_blk, S). split.
  - rewrite (st_here _ _ _ _ T). change 32%nat with (length desc) at 1. apply bytes_at_blit_same; lia.
  - intros h Hh N. destruct (decide (desc_block fs h = desc_block fs g)) as [E|E].
    + rewrite E, (st_here _ _ _ _ T). apply bytes_at_blit_other; try lia. destruct (desc_disjoint h E N); lia.
    + rewrite (st_other _ _ _ _ T); auto. by apply S.
Qed.
End write_desc.

(** ** Committing a change of a bitmap
    The sequence shared by the functions that allocate and free: the bitmap,
    the counters in memory, the descriptor and the superblock. *)
Record committed (k : unit_kind) (g d : Z) (bm : list Z) (fs fs' : ext2_fs_t) : Prop := mk_committed {
  co_shape : shape fs';
  co_layout : same_layout fs fs';
  co_mirror : mirror fs';
  co_bits : bits k fs' g = bm;
  co_other c : beyond fs c -> c <> bitmap_block k fs g -> blk fs' c = blk fs c;
  co_group_free : group_free k fs' g = group_free k fs g + d;
  co_group_free_ne k' h : kind k' -> group fs h -> (k', h) <> (k, g) -> group_free k' fs' h = group_free k' fs h;
  co_total : total_free k fs' = total_free k fs + d;
  co_total_ne k' : kind k' -> k' <> k -> total_free k' fs' = total_free k' fs
}.
Lemma shape_device fs fs' : fs' = with_device fs fs'.(device) -> geom fs' -> shape fs -> shape fs'.
Proof.
  intros E G S. apply (sl_shape fs); auto; [rewrite E; apply same_layout_device|..]; rewrite E; cbn; try apply S; done.
Qed.
Lemma gdt_le_desc fs g : shape fs -> group fs g -> gdt_block fs <= desc_block fs g.
Proof. intros S [Hg _]. destruct (per_block fs S) as [? _]. unfold desc_block. pose proof (Z.div_pos g (fs.(block_size) / sizeof_group_desc)). lia. Qed.
Lemma gdt_lt_beyond fs c : shape fs -> beyond fs c -> gdt_block fs < c.
Proof.
  intros S [_ B]. pose proof (sh_groups _ S). assert (Hg : group fs 0) by (unfold group; lia).
  pose proof (gdt_le_desc fs 0 S Hg). pose proof (B 0 Hg). lia.
Qed.

Section commit.
Context (fs : ext2_fs_t) (k : unit_kind) (g d : Z) (bm : list Z).
Hypothesis S : shape fs.
Hypothesis M : mirror fs.
Hypothesis Hk : kind k.
Hypothesis Hg : group fs g.
Hypothesis Hbm : zlen bm = fs.(block_size).
Hypothesis Hbytes : Forall is_u8 bm.
Hypothesis Hgf : is_u16 (group_free k fs g + d).
Hypothesis Htf : is_u32 (total_free k fs + d).
Lemma write_bitmap_ok : exists fs1, ext2_write_block fs (bitmap_block k fs g) bm = (true, fs1) /\
  stored fs fs1 (bitmap_block k fs g) bm /\ shape fs1.
Proof.
  destruct (write_block_ok fs (bitmap_block k fs g) bm) as (fs1 & E & T); [apply S|by apply S|auto..|].
  exists fs1. split; [auto|]. split; [auto|]. destruct T. by apply (shape_device fs).
Qed.
(** The table after the bitmap and the descriptor are written. *)
Lemma commit_gd fs1 fs2 : stored fs fs1 (bitmap_block k fs g) bm -> shape fs1 -> same_layout fs (count k g d fs1) ->
  stored (count k g d fs1) fs2 (desc_block (count k g d fs1) g)
    (blit (blk (count k g d fs1) (desc_block (count k g d fs1) g)) (desc_off (count k g d fs1) g)
       (bytes_at (count k g d fs1).(group_descs) (sizeof_group_desc * g) 32)) ->
  forall h, group fs h -> bytes_at (blk fs2 (desc_block fs h)) (desc_off fs h) 32 = bytes_at fs2.(group_descs) (sizeof_group_desc * h) 32.
Proof.
  intros T1 S1 Lc T2 h Hh. pose proof (st_fs _ _ _ _ T1) as F1. assert (Hg1 : group fs1 g) by (by rewrite F1).
  assert (Sc := count_shape fs1 k g d S1 Hk Hg1).
  destruct (desc_stored (count k g d fs1) g Sc fs2 T2) as [D1 D2]. rewrite (sl_desc _ _ Lc), (sl_off _ _ Lc) in D1.
  assert (E2 : group_descs fs2 = group_descs (count k g d fs1)) by (by rewrite (st_fs _ _ _ _ T2)). rewrite E2.
  destruct (decide (h = g)) as [->|N]; [done|].
  specialize (D2 h). rewrite (sl_desc _ _ Lc), (sl_off _ _ Lc), (sl_group _ _ Lc) in D2. rewrite D2, count_desc_ne by (auto; by rewrite F1).
  change (blk (count k g d fs1) (desc_block fs h)) with (blk fs1 (desc_block fs h)).
  rewrite (st_other _ _ _ _ T1); [|by apply S|].
  - rewrite (mi_gd _ M) by auto. by rewrite F1.
  - pose proof (by_desc _ _ (sh_bitmap _ S k g Hk Hg) h Hh). lia.
Qed.
Lemma commit_ok : exists fs1 fs2 fs3, ext2_write_block fs (bitmap_block k fs g) bm = (true, fs1) /\
  stored fs fs1 (bitmap_block k fs g) bm /\
  ext2_write_group_desc (count k g d fs1) g = (true, fs2) /\ ext2_write_superblock fs2 = (true, fs3) /\ committed k g d bm fs fs3.
Proof.
  destruct write_bitmap_ok as (fs1 & E1 & T1 & S1). pose proof (st_fs _ _ _ _ T1) as F1.
  assert (Hg1 : group fs1 g) by (by rewrite F1). set (c := count k g d fs1).
  assert (Sc : shape c) by (by apply count_shape). assert (Lc1 : same_layout fs1 c) by (by apply count_layout).
  assert (Lc : same_layout fs c) by (eapply same_layout_trans; [|exact Lc1]; rewrite F1; apply same_layout_device).
  assert (Hgc : group c g) by (by apply (sl_group _ _ Lc)).
  destruct (write_group_desc_ok c g Sc Hgc) as (fs2 & E2 & T2). pose proof (st_fs _ _ _ _ T2) as F2.
  assert (Gd := commit_gd fs1 fs2 T1 S1 Lc T2). rewrite (sl_desc _ _ Lc) in T2.
  assert (S2 : shape fs2) by (by apply (shape_device c); [|apply T2|]).
  destruct (write_superblock_ok fs2) as (fs3 & E3 & T3); [apply S2..|]. pose proof (sy_fs _ _ T3) as F3.
  exists fs1, fs2, fs3. split; [auto|]. split; [auto|]. split; [auto|]. split; [auto|].
  assert (L2 : same_layout fs fs2) by (eapply same_layout_trans; [exact Lc|]; rewrite F2; apply same_layout_device).
  assert (L3 : same_layout fs fs3) by (eapply same_layout_trans; [exact L2|]; rewrite F3; apply same_layout_device).
  assert (B3 : forall x, valid fs x -> gdt_block fs <= x -> blk fs3 x = blk fs2 x).
  { intros x Hx Hx'. apply T3; [by apply (sl_valid _ _ L2)|by rewrite (sl_gdt _ _ L2)]. }
  assert (B2 : forall x, beyond fs x -> blk fs3 x = blk fs1 x).
  { intros x Hx. rewrite B3; [|apply Hx|pose proof (gdt_lt_beyond _ _ S Hx); lia]. rewrite (st_other _ _ _ _ T2); [done|by apply (sl_valid _ _ Lc), Hx|].
    pose proof (by_desc _ _ Hx g Hg). lia. }
  assert (Sb : superblock fs3 = superblock c /\ group_descs fs3 = group_descs c) by (by rewrite F3, F2).
  destruct Sb as [Sb Gb].
  constructor; auto.
  - apply (shape_device fs2); auto; apply T3.
  - constructor.
    + intros l i Hl Hi. rewrite (sy_sb _ _ T3) by auto. by rewrite F3.
    + intros h Hh%(sl_group _ _ L3). rewrite (sl_desc _ _ L3), (sl_off _ _ L3). rewrite B3; [|by apply S|by apply gdt_le_desc].
      rewrite Gd by auto. by rewrite F3.
  - unfold bits. rewrite (sl_bitmap _ _ L3), B2 by (auto; by apply S). apply T1.
  - intros x Hx N. rewrite B2 by auto. apply T1; [apply Hx|auto].
  - transitivity (group_free k c g); [unfold group_free, gd16; by rewrite Gb|]. unfold c. rewrite count_group_free by (auto; by rewrite F1). by rewrite F1.
  - intros k' h Hk' Hh N. transitivity (group_free k' c h); [unfold group_free, gd16; by rewrite Gb|]. unfold c. rewrite count_group_free_ne by (auto; by rewrite F1). by rewrite F1.
  - transitivity (total_free k c); [unfold total_free; by rewrite Sb|]. unfold c. rewrite count_total by (auto; by rewrite F1). by rewrite F1.
  - intros k' Hk' N. transitivity (total_free k' c); [unfold total_free; by rewrite Sb|]. unfold c. rewrite count_total_ne by auto. by rewrite F1.
Qed.
End commit.

(** ** One unit changes hands
    [changed b k g i]: bit [i] of group [g] becomes clear ([b = true]) or set,
    every other bit and every block but the bitmap's stay as they are. *)
Record changed (b : bool) (k : unit_kind) (g i : Z) (fs fs' : ext2_fs_t) : Prop := mk_changed {
  ch_vol : vol fs';
  ch_layout : same_layout fs fs';
  ch_bits h j : group fs h -> 0 <= j ->
    bit_clear (bits k fs' h) j = if decide ((h, j) = (g, i)) then b else bit_clear (bits k fs h) j;
  ch_other c : beyond fs c -> c <> bitmap_block k fs g -> blk fs' c = blk fs c
}.
Section changed.
Context (b : bool) (k : unit_kind) (g i : Z) (bm : list Z) (fs fs' : ext2_fs_t).
Hypothesis V : vol fs.
Hypothesis Hk : kind k.
Hypothesis Hg : group fs g.
Hypothesis Hi : 0 <= i < limit k fs g.
Hypothesis Old : bit_clear (bits k fs g) i = negb b.
Hypothesis New : forall j, 0 <= j -> bit_clear bm j = if j =? i then b else bit_clear (bits k fs g) j.
Hypothesis C : committed k g (if b then 1 else -1) bm fs fs'.
Lemma changed_bits_ne k' h : kind k' -> group fs h -> (k', h) <> (k, g) -> bits k' fs' h = bits k' fs h.
Proof.
  intros Hk' Hh N. unfold bits. pose proof (co_layout _ _ _ _ _ _ C) as L. pose proof (v_shape _ V) as S. rewrite (sl_bitmap _ _ L) by auto.
  apply (co_other _ _ _ _ _ _ C); [by apply S|]. intros E. apply sh_bitmap_inj in E as [-> ->]; auto.
Qed.
Lemma changed_count : free_count k fs' g = free_count k fs g + (if b then 1 else -1).
Proof.
  unfold free_count. rewrite (sl_limit _ _ (co_layout _ _ _ _ _ _ C)), (co_bits _ _ _ _ _ _ C).
  assert (Ni : bit_clear bm i = b) by (rewrite New by lia; by rewrite Z.eqb_refl).
  assert (Nj : forall j, 0 <= j < limit k fs g -> j <> i -> bit_clear bm j = bit_clear (bits k fs g) j).
  { intros j Hj N. rewrite New by lia. by rewrite (proj2 (Z.eqb_neq _ _) N). }
  destruct b; cbn in Old.
  - apply (clear_count _ (bits k fs g) _ i); auto. intros. by rewrite Nj.
  - rewrite (clear_count (bits k fs g) bm (limit k fs g) i); auto. lia.
Qed.
Lemma changed_count_ne k' h : kind k' -> group fs h -> (k', h) <> (k, g) -> free_count k' fs' h = free_count k' fs h.
Proof.
  intros Hk' Hh N. unfold free_count. rewrite (sl_limit _ _ (co_layout _ _ _ _ _ _ C)). by rewrite changed_bits_ne.
Qed.
Lemma committed_changed : changed b k g i fs fs'.
Proof.
  pose proof (co_layout _ _ _ _ _ _ C) as L.
  assert (Sum : forall k', kind k' -> k' <> k -> sum_upto (num_groups fs) (free_count k' fs') = sum_upto (num_groups fs) (free_count k' fs)).
  { intros k' Hk' N. apply sum_upto_ext. intros h Hh. apply changed_count_ne; auto. congruence. }
  constructor; [constructor|auto..].
  - apply C.
  - apply C.
  - intros k' h Hk' Hh%(sl_group _ _ L). destruct (decide ((k', h) = (k, g))) as [[= -> ->]|N].
    + rewrite (co_group_free _ _ _ _ _ _ C), changed_count, (v_group_free _ V) by auto. done.
    + rewrite (co_group_free_ne _ _ _ _ _ _ C), changed_count_ne by auto. by apply V.
  - intros k' Hk'. rewrite (sl_ng _ _ L). destruct (decide (k' = k)) as [->|N].
    + rewrite (co_total _ _ _ _ _ _ C), (v_total_free _ V) by auto. symmetry. apply (sum_upto_upd _ _ _ g); [auto|apply changed_count|].
      intros h Hh N. apply changed_count_ne; auto. congruence.
    + rewrite (co_total_ne _ _ _ _ _ _ C), Sum by auto. by apply V.
  - intros h j Hh Hj. destruct (decide (h = g)) as [->|N].
    + rewrite (co_bits _ _ _ _ _ _ C), New by auto. destruct (Z.eqb_spec j i) as [->|N]; [by rewrite decide_True|rewrite decide_False; congruence].
    + rewrite decide_False by congruence. rewrite changed_bits_ne; auto. congruence.
  - apply (co_other _ _ _ _ _ _ C).
Qed.
End changed.

(** ** Allocation *)
Definition free_unit (k : unit_kind) (fs : ext2_fs_t) (g i : Z) : Prop :=
  group fs g /\ 0 <= i < limit k fs g /\ bit_clear (bits k fs g) i = true.
(** The lowest free unit, counting group by group. *)
Definition lowest_free (k : unit_kind) (fs : ext2_fs_t) (g i : Z) : Prop :=
  free_unit k fs g i /\ forall h j, free_unit k fs h j -> g < h \/ (g = h /\ i <= j).
Section alloc.
Context (fs : ext2_fs_t) (k : unit_kind).
Hypothesis V : vol fs.
Hypothesis Hk : kind k.
Lemma group_full g : group fs g -> group_free k fs g = 0 <-> forall i, ~ free_unit k fs g i.
Proof.
  intros Hg. rewrite (v_group_free _ V) by auto. unfold free_count. pose proof (clear_pos (bits k fs g) (limit k fs g)) as [P1 P2].
  pose proof (zlen_nonneg (clear_below (bits k fs g) (limit k fs g))). split.
  - intros E i (_ & Hi & B). assert (0 < zlen (clear_below (bits k fs g) (limit k fs g))) by eauto. lia.
  - intros N. destruct (decide (zlen (clear_below (bits k fs g) (limit k fs g)) = 0)) as [|N']; [done|].
    destruct P1 as (i & Hi & B); [lia|]. destruct (N i). by split.
Qed.
Lemma free_total g i : free_unit k fs g i -> 1 <= group_free k fs g < 2 ^ 16 /\ 1 <= total_free k fs < 2 ^ 32.
Proof.
  intros (Hg & Hi & B). pose proof (v_shape _ V) as S. rewrite (v_group_free _ V), (v_total_free _ V) by auto.
  assert (Pos : forall h, 0 <= h < num_groups fs -> 0 <= free_count k fs h) by (intros; apply zlen_nonneg).
  assert (Up : forall h, group fs h -> free_count k fs h < 2 ^ 16).
  { intros h Hh. destruct (sh_limit _ S k h Hk Hh) as [? ?]. pose proof (clear_le (bits k fs h) (limit k fs h)). unfold free_count. lia. }
  assert (0 < free_count k fs g) by (apply clear_pos; eauto). pose proof (sum_upto_ge _ _ g Pos Hg). split; [pose proof (Up g Hg); lia|].
  split; [lia|]. pose proof (sh_total _ S). pose proof (sh_groups _ S).
  assert (sum_upto (num_groups fs) (free_count k fs) <= num_groups fs * 2 ^ 16); [|lia].
  apply sum_upto_le; [lia|]. intros h Hh. pose proof (Up h Hh). lia.
Qed.
Lemma alloc_in_full g lim num : group fs g -> (forall i, ~ free_unit k fs g i) -> alloc_in k fs g lim num = None.
Proof. intros Hg N. unfold alloc_in. by rewrite (proj2 (group_full g Hg) N). Qed.
Lemma alloc_in_ok g i num : free_unit k fs g i -> (forall j, 0 <= j < limit k fs g -> num j = unit_number k fs g j) ->
  exists i' fs', free_unit k fs g i' /\ (forall j, free_unit k fs g j -> i' <= j) /\
    alloc_in k fs g (limit k fs g) num = Some (unit_number k fs g i', fs') /\ changed false k g i' fs fs'.
Proof.
  intros F Hnum. pose proof F as (Hg & Hi & B). pose proof (v_shape _ V) as S. destruct (free_total g i F) as [Hgf Htf].
  destruct (sh_limit _ S k g Hk Hg) as [Hlim _]. pose proof (sh_geom _ S) as G.
  assert (Hlen : zlen (bits k fs g) = block_size fs) by (apply zlen_blk, G).
  unfold alloc_in. rewrite (proj2 (Z.eqb_neq _ _)) by lia. rewrite read_block_ok by (auto; by apply (by_valid _ _ (sh_bitmap _ S k g Hk Hg))). fold (bits k fs g).
  destruct (find_zero_ok (bits k fs g) (block_size fs) (limit k fs g)) as [(Hr & Br & Low)|(_ & Nn)]; [apply blk_bytes, G|lia| |by rewrite Nn in B].
  set (r := find_first_zero_bit _ _ _) in *. rewrite (proj2 (Z.ltb_ge _ _)) by lia.
  destruct (commit_ok fs k g (-1) (set_bit (bits k fs g) r)) as (fs1 & fs2 & fs3 & E1 & _ & E2 & E3 & C); auto;
    [apply V|by rewrite zlen_set_bit|apply set_bit_bytes; [lia|apply blk_bytes, G]|unfold is_u16; lia|unfold is_u32; lia|].
  rewrite E1. cbn [negb]. rewrite E2. cbn [negb]. rewrite E3. exists r, fs3. split; [by split|]. split; [|split].
  - intros j (_ & Hj & Bj). destruct (decide (r <= j)) as [|Nj]; [done|]. rewrite Low in Bj; [done|lia].
  - rewrite Hnum, s32_u32 by (auto; pose proof (sh_number _ S k g r); lia || (pose proof (sh_number _ S k g r Hk Hg Hr); lia)). done.
  - apply (committed_changed false k g r (set_bit (bits k fs g) r)); auto. intros j Hj. apply bit_clear_set; lia.
Qed.
(** The loop over the groups. *)
Lemma alloc_loop_ok (num : Z -> Z -> Z) (lim : Z -> Z) :
  (forall g, group fs g -> lim g = limit k fs g) ->
  (forall g j, group fs g -> 0 <= j < limit k fs g -> num g j = unit_number k fs g j) ->
  let r := find_loop (Z.to_nat fs.(num_groups)) 0 (fun g => alloc_in k fs g (lim g) (num g)) in
  (r = None /\ forall g i, ~ free_unit k fs g i)
  \/ exists g i fs', r = Some (unit_number k fs g i, fs') /\ lowest_free k fs g i /\ changed false k g i fs fs'.
Proof.
  intros Hlim Hnum r. pose proof (sh_groups _ (v_shape _ V)). destruct r as [[n fs']|] eqn:E; unfold r in E; clear r.
  - right. apply find_loop_Some in E as (g & Hg & Eg & Before). assert (Hg' : group fs g) by (unfold group; lia).
    assert (Nb : forall h i, 0 <= h < g -> ~ free_unit k fs h i).
    { intros h i Hh F. assert (Hh' : group fs h) by (unfold group; lia). destruct (alloc_in_ok h i (num h)) as (? & ? & _ & _ & Ea & _); auto.
      rewrite <- Hlim, Before in Ea by (auto; lia). done. }
    destruct (decide (group_free k fs g = 0)) as [Z|N]; [unfold alloc_in in Eg; by rewrite Z in Eg|].
    assert (exists i, free_unit k fs g i) as [i F].
    { rewrite (v_group_free _ V) in N by auto. pose proof (zlen_nonneg (clear_below (bits k fs g) (limit k fs g))).
      destruct (proj1 (clear_pos (bits k fs g) (limit k fs g))) as (i & Hi & B); [unfold free_count in N; lia|]. exists i. by split. }
    destruct (alloc_in_ok g i (num g)) as (i' & fs2 & F' & Low & Ea & Ch); auto. rewrite Hlim, Ea in Eg by auto. injection Eg as <- <-.
    exists g, i', fs2. split; [done|]. split; [|done]. split; [done|]. intros h j Fj. destruct (decide (h < g)).
    + destruct (Nb h j); [destruct Fj as [[? ?] _]; lia|done].
    + destruct (decide (h = g)) as [->|]; [right; split; [done|by apply Low]|left; lia].
  - left. split; [done|]. intros g i F. pose proof F as (Hg & _). rewrite find_loop_None in E.
    destruct (alloc_in_ok g i (num g)) as (? & ? & _ & _ & Ea & _); auto. rewrite <- Hlim, E in Ea; [done|unfold group in Hg; lia|auto].
Qed.
End alloc.

(** The function of the driver for a kind. *)
Definition alloc_unit (k : unit_kind) (fs : ext2_fs_t) : Z * ext2_fs_t :=
  if k.(k_bitmap) =? 0 then ext2_alloc_block fs else ext2_alloc_inode fs.
Definition free_op (k : unit_kind) (fs : ext2_fs_t) (n : Z) : bool * ext2_fs_t :=
  if k.(k_bitmap) =? 0 then ext2_free_block fs n else ext2_free_inode fs n.
Inductive allocated (k : unit_kind) (fs : ext2_fs_t) : Z -> ext2_fs_t -> Prop :=
| alloc_lowest g i fs' : lowest_free k fs g i -> changed false k g i fs fs' -> allocated k fs (unit_number k fs g i) fs'
| alloc_none : (forall g i, ~ free_unit k fs g i) -> allocated k fs (-1) fs.
Lemma alloc_unit_ok fs k : vol fs -> kind k -> allocated k fs (alloc_unit k fs).1 (alloc_unit k fs).2.
Proof.
  intros V Hk. pose proof (sh_geom _ (v_shape _ V)) as G.
  assert (T0 : total_free k fs = 0 -> forall g i, ~ free_unit k fs g i).
  { intros T g i F. destruct (free_total fs k V Hk g i F) as [_ ?]. lia. }
  destruct Hk as [->| ->]; unfold alloc_unit; cbn [k_bitmap BLOCKS INODES Z.eqb]; [unfold ext2_alloc_block|unfold ext2_alloc_inode];
    (destruct (total_free _ fs =? 0) eqn:E; bool_hyps; [apply alloc_none, T0; auto|]);
    unfold kmalloc_ok; rewrite (h_mem _ (g_disk _ G)); cbn [negb].
  - destruct (alloc_loop_ok fs BLOCKS V (or_introl eq_refl)
        (fun g bit_index => g * fs.(blocks_per_group) + s_first_data_block fs.(superblock) + bit_index) (blocks_in_group fs))
      as [[-> N]|(g & i & fs' & -> & Lo & Ch)]; [done|done|by apply alloc_none|by eapply alloc_lowest].
  - destruct (alloc_loop_ok fs INODES V (or_intror eq_refl)
        (fun g bit_index => g * fs.(inodes_per_group) + bit_index + 1) (fun _ => fs.(inodes_per_group)))
      as [[-> N]|(g & i & fs' & -> & Lo & Ch)]; [done|done|by apply alloc_none|by eapply alloc_lowest].
Qed.

(** ** Freeing *)
Section free.
Context (fs : ext2_fs_t) (k : unit_kind) (g i : Z).
Hypothesis V : vol fs.
Hypothesis Hk : kind k.
Hypothesis Hg : group fs g.
Hypothesis Hi : 0 <= i < limit k fs g.
Lemma used_counts : bit_clear (bits k fs g) i = false -> 0 <= group_free k fs g < 2 ^ 16 - 1 /\ 0 <= total_free k fs < 2 ^ 32 - 1.
Proof.
  intros B. pose proof (v_shape _ V) as S. rewrite (v_group_free _ V), (v_total_free _ V) by auto.
  assert (Up : forall h, group fs h -> 0 <= free_count k fs h < 2 ^ 16).
  { intros h Hh. destruct (sh_limit _ S k h Hk Hh) as [? ?]. pose proof (clear_le (bits k fs h) (limit k fs h)).
    pose proof (zlen_nonneg (clear_below (bits k fs h) (limit k fs h))). unfold free_count. lia. }
  assert (free_count k fs g < limit k fs g).
  { destruct (sh_limit _ S k g Hk Hg) as [? ?]. unfold free_count.
    pose proof (clear_count (clear_bit (bits k fs g) i) (bits k fs g) (limit k fs g) i) as C.
    assert (Hb : zlen (bits k fs g) = block_size fs) by (apply zlen_blk, S).
    pose proof (clear_le (clear_bit (bits k fs g) i) (limit k fs g)).
    rewrite C in *; auto; try lia; [rewrite bit_clear_clear, Z.eqb_refl by lia; done|].
    intros j Hj N. rewrite bit_clear_clear by lia. by rewrite (proj2 (Z.eqb_neq _ _) N). }
  destruct (sh_limit _ S k g Hk Hg) as [_ ?]. pose proof (Up g Hg). pose proof (sh_total _ S). pose proof (sh_groups _ S).
  split; [lia|]. split; [apply sum_upto_nonneg; intros h Hh; by apply Up|].
  assert (sum_upto (num_groups fs) (free_count k fs) <= num_groups fs * (2 ^ 16 - 1)); [|lia].
  apply sum_upto_le; [lia|]. intros h Hh. pose proof (Up h Hh). lia.
Qed.
Lemma free_in_clear : bit_clear (bits k fs g) i = true -> free_in k fs g i = (false, fs).
Proof.
  intros B. pose proof (sh_geom _ (v_shape _ V)) as G. unfold free_in. rewrite (proj2 (Z.leb_gt _ _)) by apply Hg.
  unfold kmalloc_ok. rewrite (h_mem _ (g_disk _ G)). cbn [negb].
  rewrite read_block_ok by (auto; by apply (by_valid _ _ (sh_bitmap _ (v_shape _ V) k g Hk Hg))). fold (bits k fs g). by rewrite B.
Qed.
Lemma free_in_ok : bit_clear (bits k fs g) i = false -> exists fs', free_in k fs g i = (true, fs') /\ changed true k g i fs fs'.
Proof.
  intros B. pose proof (v_shape _ V) as S. pose proof (sh_geom _ S) as G. unfold free_in. rewrite (proj2 (Z.leb_gt _ _)) by apply Hg.
  unfold kmalloc_ok. rewrite (h_mem _ (g_disk _ G)). cbn [negb].
  rewrite read_block_ok by (auto; by apply (by_valid _ _ (sh_bitmap _ S k g Hk Hg))). fold (bits k fs g). rewrite B.
  destruct (sh_limit _ S k g Hk Hg) as [Hlim _]. assert (Hlen : zlen (bits k fs g) = block_size fs) by (apply zlen_blk, G).
  destruct (used_counts B) as [U1 U2].
  destruct (commit_ok fs k g 1 (clear_bit (bits k fs g) i)) as (fs1 & fs2 & fs3 & E1 & _ & E2 & E3 & C); auto;
    [apply V|by rewrite zlen_clear_bit|apply clear_bit_bytes; [lia|apply blk_bytes, G]|unfold is_u16; lia|unfold is_u32; lia|].
  rewrite E1. cbn [negb]. rewrite E2, E3. exists fs3. split; [done|].
  apply (committed_changed true k g i (clear_bit (bits k fs g) i)); auto. intros j Hj. apply bit_clear_clear; lia.
Qed.
Lemma limit_per : limit k fs g <= if k.(k_bitmap) =? 0 then fs.(blocks_per_group) else fs.(inodes_per_group).
Proof.
  unfold limit, blocks_in_group. destruct (sh_per _ (v_shape _ V)) as [? ?]. destruct (k.(k_bitmap) =? 0); [|lia].
  pose proof (Z.mod_pos_bound (s_blocks_count (superblock fs)) (blocks_per_group fs) ltac:(lia)). destruct (_ && _); lia.
Qed.
(** The number of a unit gives back its group and its bit. *)
Lemma free_op_in : free_op k fs (unit_number k fs g i) = free_in k fs g i.
Proof.
  pose proof limit_per as P. destruct Hg as [Hg0 _]. pose proof (sh_per _ (v_shape _ V)) as [Pb Pi].
  pose proof (sh_number _ (v_shape _ V) k g i Hk Hg Hi) as Nu.
  destruct Hk as [->| ->]; cbn [k_bitmap BLOCKS INODES Z.eqb] in P; unfold free_op, unit_number in *; cbn [k_bitmap BLOCKS INODES Z.eqb] in *.
  - unfold ext2_free_block. pose proof (rd32_range (superblock fs) 20 (sh_sb_bytes _ (v_shape _ V))). unfold s_first_data_block in *.
    replace (g * blocks_per_group fs + rd32 (superblock fs) 20 + i - rd32 (superblock fs) 20) with (i + g * blocks_per_group fs) by lia.
    rewrite u32_small by (widths; nia). rewrite Z.div_add, Z.mod_add, Z.div_small, Z.mod_small by lia. done.
  - unfold ext2_free_inode. rewrite (proj2 (Z.eqb_neq _ _)) by lia.
    replace (g * inodes_per_group fs + i + 1 - 1) with (i + g * inodes_per_group fs) by lia.
    rewrite Z.div_add, Z.mod_add, Z.div_small, Z.mod_small by lia. done.
Qed.
End free.
(** Bitmaps with the same bits are the same bytes. *)
Lemma bitmap_ext bm bm' : zlen bm = zlen bm' -> Forall is_u8 bm -> Forall is_u8 bm' ->
  (forall j, 0 <= j -> bit_clear bm j = bit_clear bm' j) -> bm = bm'.
Proof.
  intros Hl H1 H2 H. apply rd0_ext; [done|]. intros x Hx. apply Z.bits_inj'. intros n Hn. destruct (decide (n < 8)).
  - specialize (H (8 * x + n) ltac:(lia)). rewrite !bit_clear_spec in H.
    replace ((8 * x + n) / 8) with x in H by lia. replace ((8 * x + n) mod 8) with n in H by lia.
    by apply (f_equal negb) in H; rewrite !negb_involutive in H.
  - destruct (Z.testbit (rd0 bm x) n) eqn:E1; [apply byte_bit_range in E1; [lia|by apply rd0_u8]|].
    destruct (Z.testbit (rd0 bm' x) n) eqn:E2; [apply byte_bit_range in E2; [lia|by apply rd0_u8]|done].
Qed.

(** ** A volume of two groups *)
Module Demo.
Definition sb : list Z :=
  let b := put32 (zeros 1024) 0 16 in let b := put32 b 4 70 in let b := put32 b 12 61 in let b := put32 b 16 14 in
  let b := put32 b 20 1 in let b := put32 b 32 40 in let b := put32 b 40 8 in put16 b 56 EXT2_MAGIC.
Definition desc (block_bitmap inode_bitmap inode_table free_blocks free_inodes dirs : Z) : list Z :=
  le32 block_bitmap ++ le32 inode_bitmap ++ le32 inode_table ++ le16 free_blocks ++ le16 free_inodes ++ le16 dirs ++ zeros 14.
Definition gdt : list Z := blit (zeros 1024) 0 (desc 3 4 5 34 6 1 ++ desc 41 42 43 27 8 0).
Definition root_inode : list Z :=
  put_i_block (put_i_blocks (put_i_size (put_i_links_count (put_i_mode (zeros 128) 0x41ED) 2) 1024) 2) 0 6.
Definition root_dir : list Z := put_entry (put_entry (zeros 1024) 0 2 12 2 [46]) 12 2 1012 2 [46; 46].
Definition block (b : Z) : list Z :=
  if b =? 1 then sb else if b =? 2 then gdt else if b =? 3 then wr (zeros 1024) 0 0x3F else if b =? 4 then wr (zeros 1024) 0 3
  else if b =? 5 then blit (zeros 1024) 128 root_inode else if b =? 6 then root_dir
  else if b =? 41 then wr (zeros 1024) 0 7 else zeros 1024.
Definition image : disk :=
  mk_disk (fun l => bytes_at (block (l / 2)) (512 * (l mod 2)) 512) (fun _ => true) (fun _ => true) (fun _ => true).
Definition fs : ext2_fs_t := mk_fs sb gdt 1024 8 40 2 128 image.

Lemma bytes_check l : forallb (fun x => (0 <=? x) && (x <? 256)) l = true -> Forall is_u8 l.
Proof. intros H%Is_true_eq_left%forallb_True. induction H as [|x l Hx H IH]; constructor; [|done]. apply Is_true_eq_true in Hx. bool_hyps. widths. lia. Qed.
Lemma block_bytes b : Forall is_u8 (block b).
Proof. unfold block. repeat case_if; apply bytes_check; vm_compute; reflexivity. Qed.
Lemma image_healthy : healthy image.
Proof.
  constructor; try done. intros l. cbn [sectors image].
  apply Forall_fmap, list.Forall_forall. intros. apply rd0_u8, block_bytes.
Qed.
Lemma group_cases g : group fs g -> g = 0 \/ g = 1.
Proof. unfold group. cbn. lia. Qed.
Lemma fs_geom : geom fs.
Proof. constructor; [apply image_healthy|cbn; lia|done]. Qed.
Lemma fs_shape : shape fs.
Proof.
  constructor.
  - apply fs_geom.
  - vm_compute. reflexivity.
  - apply bytes_check. vm_compute. reflexivity.
  - vm_compute. congruence.
  - apply bytes_check. vm_compute. reflexivity.
  - vm_compute. reflexivity.
  - intros g Hg. destruct (group_cases g Hg) as [->| ->]; vm_compute; split; congruence.
  - intros k g Hk Hg. constructor.
    + destruct Hk as [->| ->], (group_cases g Hg) as [->| ->]; vm_compute; split; congruence.
    + intros h Hh. destruct Hk as [->| ->], (group_cases g Hg) as [->| ->], (group_cases h Hh) as [->| ->]; vm_compute; done.
  - intros k k' g g' Hk Hk' Hg Hg'. destruct Hk as [->| ->], Hk' as [->| ->], (group_cases g Hg) as [->| ->], (group_cases g' Hg') as [->| ->];
      vm_compute; intros; (discriminate || auto).
  - intros k g Hk Hg. destruct Hk as [->| ->], (group_cases g Hg) as [->| ->]; vm_compute; (split; [split|]); congruence.
  - split; vm_compute; reflexivity.
  - intros k g i Hk Hg. assert (Hl : limit k fs g <= 40) by (destruct Hk as [->| ->], (group_cases g Hg) as [->| ->]; vm_compute; congruence).
    intros Hi. assert (E : unit_number k fs g i <= 82 /\ 0 < unit_number k fs g i).
    { unfold unit_number. change (s_first_data_block (superblock fs)) with 1. change (blocks_per_group fs) with 40. change (inodes_per_group fs) with 8.
      destruct (k_bitmap k =? 0), (group_cases g Hg) as [->| ->]; lia. }
    pow2. lia.
  - vm_compute. reflexivity.
Qed.
Lemma fs_mirror : mirror fs.
Proof.
  constructor.
  - intros l i Hl Hi. cbn [sectors fs device image superblock]. rewrite rd0_bytes_at by lia.
    assert (l = 2 \/ l = 3) as [->| ->] by lia; f_equal; lia.
  - intros g Hg. destruct (group_cases g Hg) as [->| ->]; vm_compute; reflexivity.
Qed.
Lemma fs_vol : vol fs.
Proof.
  constructor; [apply fs_shape|apply fs_mirror|..].
  - intros k g Hk Hg. destruct Hk as [->| ->], (group_cases g Hg) as [->| ->]; vm_compute; reflexivity.
  - intros k Hk. destruct Hk as [->| ->]; vm_compute; reflexivity.
Qed.
End Demo.

(** C18. On a consistent volume [ext2_alloc_block] and [ext2_alloc_inode] take the
    lowest free unit of the first group that has one: they return its number,
    its bit becomes set on the disk, no other bit and no other block beyond the
    descriptor table changes, and the volume stays consistent: the counters of
    the group and of the superblock, in memory and on the disk, still count the
    clear bits.  They fail, changing nothing, only when no unit is free. *)
Theorem ext2_alloc_refines fs k : vol fs -> kind k -> allocated k fs (alloc_unit k fs).1 (alloc_unit k fs).2.
Proof. apply alloc_unit_ok. Qed.
Lemma ext2_alloc_refines_witness :
  allocated BLOCKS Demo.fs (alloc_unit BLOCKS Demo.fs).1 (alloc_unit BLOCKS Demo.fs).2 /\ (alloc_unit BLOCKS Demo.fs).1 = 7.
Proof. split; [apply (ext2_alloc_refines Demo.fs BLOCKS Demo.fs_vol); by left|vm_compute; reflexivity]. Defined.

(** Freeing a block or an inode that was just allocated succeeds and undoes the
    allocation: every block beyond the descriptor table, bitmaps included, is
    the same bytes as before, both counters have their old values and the
    volume is consistent; freeing it once more is refused and changes
    nothing. *)
Theorem ext2_alloc_free_roundtrip fs k n fs1 : vol fs -> kind k -> alloc_unit k fs = (n, fs1) -> 0 <= n ->
  exists fs2, free_op k fs1 n = (true, fs2) /\ vol fs2 /\
    (forall c, beyond fs c -> blk fs2 c = blk fs c) /\
    (forall k' g, kind k' -> group fs g -> group_free k' fs2 g = group_free k' fs g) /\
    (forall k', kind k' -> total_free k' fs2 = total_free k' fs) /\
    free_op k fs2 n = (false, fs2).
Proof.
  intros V Hk Ea Hn. pose proof (alloc_unit_ok fs k V Hk) as A. rewrite Ea in A. cbn in A.
  inversion A as [g i fs' [(Hg & Hi & B) _] C1 En|N En]; [|lia]. subst fs'. pose proof (ch_layout _ _ _ _ _ _ C1) as L1.
  pose proof (ch_vol _ _ _ _ _ _ C1) as V1. assert (Hg1 : group fs1 g) by (by apply (sl_group _ _ L1)).
  assert (Hi1 : 0 <= i < limit k fs1 g) by (by rewrite (sl_limit _ _ L1)).
  assert (B1 : bit_clear (bits k fs1 g) i = false) by (rewrite (ch_bits _ _ _ _ _ _ C1) by (auto; lia); by rewrite decide_True).
  destruct (free_in_ok fs1 k g i V1 Hk Hg1 Hi1 B1) as (fs2 & E2 & C2). pose proof (ch_layout _ _ _ _ _ _ C2) as L2.
  pose proof (ch_vol _ _ _ _ _ _ C2) as V2. exists fs2.
  assert (U1 : unit_number k fs g i = unit_number k fs1 g i) by (by rewrite (sl_number _ _ L1)).
  assert (U2 : unit_number k fs g i = unit_number k fs2 g i) by (by rewrite (sl_number _ _ L2)).
  assert (Hg2 : group fs2 g) by (by apply (sl_group _ _ L2)).
  assert (Hi2 : 0 <= i < limit k fs2 g) by (by rewrite (sl_limit _ _ L2)).
  assert (Bm : blk fs2 (bitmap_block k fs g) = blk fs (bitmap_block k fs g)).
  { assert (E : bits k fs2 g = bits k fs g).
    - unfold bits. apply bitmap_ext; [by rewrite !zlen_blk, (sl_bs _ _ L2), (sl_bs _ _ L1) by (by apply v_shape)|apply blk_bytes, V2|apply blk_bytes, V|].
      intros j Hj. change (bit_clear (bits k fs2 g) j = bit_clear (bits k fs g) j). rewrite (ch_bits _ _ _ _ _ _ C2) by auto.
      destruct (decide _) as [[= ->]|Nj]; [by rewrite B|]. rewrite (ch_bits _ _ _ _ _ _ C1) by auto. by rewrite decide_False.
    - unfold bits in E. by rewrite (sl_bitmap _ _ L2), (sl_bitmap _ _ L1) in E. }
  assert (All : forall c, beyond fs c -> blk fs2 c = blk fs c).
  { intros c Hc. destruct (decide (c = bitmap_block k fs g)) as [->|Nc]; [done|].
    rewrite (ch_other _ _ _ _ _ _ C2), (ch_other _ _ _ _ _ _ C1); auto; [by apply (sl_beyond _ _ L1)|by rewrite (sl_bitmap _ _ L1)]. }
  pose proof (same_layout_trans _ _ _ L1 L2) as L.
  assert (Fc : forall k' h, kind k' -> group fs h -> free_count k' fs2 h = free_count k' fs h).
  { intros k' h Hk' Hh. unfold free_count, bits. rewrite (sl_limit _ _ L), (sl_bitmap _ _ L), All; auto. by apply V. }
  split; [by rewrite U1, free_op_in|]. split; [auto|]. split; [auto|]. split; [|split].
  - intros k' h Hk' Hh. rewrite (v_group_free _ V2), (v_group_free _ V), Fc; auto. by apply (sl_group _ _ L).
  - intros k' Hk'. rewrite (v_total_free _ V2), (v_total_free _ V), (sl_ng _ _ L); auto. apply sum_upto_ext. intros h Hh. by apply Fc.
  - rewrite U2, free_op_in by auto. apply free_in_clear; auto. rewrite (ch_bits _ _ _ _ _ _ C2) by (auto; lia). by rewrite decide_True.
Qed.
Lemma ext2_alloc_free_roundtrip_witness : exists fs1 fs2,
  alloc_unit INODES Demo.fs = (3, fs1) /\ free_op INODES fs1 3 = (true, fs2) /\ total_free INODES fs2 = 14.
Proof.
  assert (E : exists fs1, alloc_unit INODES Demo.fs = (3, fs1)).
  { exists (alloc_unit INODES Demo.fs).2. apply pair_fst. vm_compute. reflexivity. }
  destruct E as [fs1 E].
  destruct (ext2_alloc_free_roundtrip Demo.fs INODES 3 fs1 Demo.fs_vol (or_intror eq_refl) E ltac:(lia)) as (fs2 & F & _ & _ & _ & T & _).
  exists fs1, fs2. split; [exact E|]. split; [exact F|]. rewrite (T INODES (or_intror eq_refl)). vm_compute. reflexivity.
Defined.
