(* ===== verification/Ext2Mount.v ===== *)
(** Mounting and unmounting an ext2 volume. *)
From S2P Require Import Prelude Ext2 Ext2Disk Ext2Alloc Ext2Vol.

(** The context agrees with the superblock it was made from. *)
Record params (fs : ext2_fs_t) : Prop := mk_params {
  pa_magic : s_magic fs.(superblock) = EXT2_MAGIC;
  pa_bs : fs.(block_size) = u32 (Z.shiftl 1024 (s_log_block_size fs.(superblock)));
  pa_bpg : fs.(blocks_per_group) = s_blocks_per_group fs.(superblock);
  pa_ipg : fs.(inodes_per_group) = s_inodes_per_group fs.(superblock);
  pa_ng : fs.(num_groups) = u32 (s_blocks_count fs.(superblock) + fs.(blocks_per_group) - 1) / fs.(blocks_per_group);
  pa_is : fs.(inode_size) = if s_rev_level fs.(superblock) =? 0 then 128 else s_inode_size fs.(superblock);
  pa_gdt : fs.(num_groups) * sizeof_group_desc + fs.(block_size) < 2 ^ 32
}.
(** The superblock with another state. *)
Definition with_state (b : list Z) (s : Z) : list Z := put16 b 58 s.
Section state.
Context (b : list Z) (s : Z).
Hypothesis Hl : zlen b = 1024.
Lemma state_rd32 i : i + 4 <= 58 \/ 60 <= i -> rd32 (with_state b s) i = rd32 b i.
Proof. intros H. apply rd32_put16_ne; lia. Qed.
Lemma state_rd16 i : i + 2 <= 58 \/ 60 <= i -> rd16 (with_state b s) i = rd16 b i.
Proof. intros H. apply rd16_put16_ne; lia. Qed.
Lemma state_zlen : zlen (with_state b s) = 1024.
Proof. unfold with_state. rewrite zlen_put16; lia. Qed.
Lemma state_bytes : Forall is_u8 b -> Forall is_u8 (with_state b s).
Proof. intros H. apply put16_bytes; auto. lia. Qed.
Lemma state_here : is_u16 s -> s_state (with_state b s) = s.
Proof. intros H. apply rd16_put16; auto; lia. Qed.
End state.

(** ** Reading the table *)
Fixpoint cat_blocks (n : nat) (block : Z) (fs : ext2_fs_t) : list Z :=
  match n with O => [] | S n' => blk fs block ++ cat_blocks n' (block + 1) fs end.
Section table.
Context (fs : ext2_fs_t).
Hypothesis G : geom fs.
Lemma read_gdt_ok n block : (forall k, 0 <= k < Z.of_nat n -> valid fs (block + k)) -> read_gdt n block fs = Some (cat_blocks n block fs).
Proof.
  revert block. induction n as [|n IH]; intros block H; cbn [read_gdt cat_blocks]; [done|].
  rewrite read_block_ok; [|done|specialize (H 0); rewrite Z.add_0_r in H; apply H; lia].
  rewrite IH; [done|]. intros k Hk. replace (block + 1 + k) with (block + (k + 1)) by lia. apply H. lia.
Qed.
Lemma zlen_cat n block : zlen (cat_blocks n block fs) = Z.of_nat n * fs.(block_size).
Proof. revert block. induction n as [|n IH]; intros block; cbn [cat_blocks]; [done|]. rewrite zlen_app, IH, zlen_blk by auto. lia. Qed.
Lemma cat_bytes n block : Forall is_u8 (cat_blocks n block fs).
Proof. revert block. induction n as [|n IH]; intros block; cbn [cat_blocks]; [constructor|]. apply Forall_app. split; [by apply blk_bytes|done]. Qed.
Lemma rd0_cat n block q x : 0 <= q < Z.of_nat n -> 0 <= x < fs.(block_size) -> rd0 (cat_blocks n block fs) (q * fs.(block_size) + x) = rd0 (blk fs (block + q)) x.
Proof.
  revert block q. induction n as [|n IH]; intros block q Hq Hx; [lia|]. cbn [cat_blocks]. rewrite rd0_app, zlen_blk by auto.
  destruct (decide (q = 0)) as [->|Nq].
  - rewrite Z.mul_0_l, Z.add_0_l, Z.add_0_r. by rewrite (proj2 (Z.ltb_lt _ _)) by lia.
  - rewrite (proj2 (Z.ltb_ge _ _)) by nia. replace (q * block_size fs + x - block_size fs) with ((q - 1) * block_size fs + x) by lia.
    rewrite IH by lia. f_equal. f_equal. lia.
Qed.
End table.

(** ** Mounting *)
Definition gdt_blocks (fs : ext2_fs_t) : Z := (fs.(num_groups) * sizeof_group_desc + fs.(block_size) - 1) / fs.(block_size).
Definition table (fs : ext2_fs_t) : list Z := cat_blocks (Z.to_nat (gdt_blocks fs)) (gdt_block fs) (with_group_descs fs []).
Lemma gdt_covers fs g : shape fs -> group fs g -> 0 <= g / (fs.(block_size) / sizeof_group_desc) < gdt_blocks fs.
Proof.
  intros S [H0 H1]. destruct (per_block fs S) as [P1 P2]. pose proof (g_bs _ (sh_geom _ S)). unfold gdt_blocks, sizeof_group_desc in *.
  set (q := block_size fs / 32) in *. split; [apply Z.div_pos; lia|]. apply Z.div_lt_upper_bound; [lia|].
  assert (g < q * ((num_groups fs * 32 + block_size fs - 1) / block_size fs)); [|lia].
  assert (D : num_groups fs * 32 <= block_size fs * ((num_groups fs * 32 + block_size fs - 1) / block_size fs)).
  { pose proof (Z.mul_succ_div_gt (num_groups fs * 32 + block_size fs - 1) (block_size fs) ltac:(lia)). lia. }
  rewrite P2 in D at 1. nia.
Qed.
Lemma gdt_blocks_valid fs k : shape fs -> 0 <= k < gdt_blocks fs -> valid fs (gdt_block fs + k).
Proof.
  intros S Hk. destruct (per_block fs S) as [P1 P2]. pose proof (g_bs _ (sh_geom _ S)). pose proof (sh_groups _ S). set (q := block_size fs / sizeof_group_desc) in *.
  assert (Hlast : k <= (num_groups fs - 1) / q).
  { apply Z.div_le_lower_bound; [lia|]. unfold gdt_blocks, sizeof_group_desc in *. rewrite P2 in Hk.
    assert (k + 1 <= (num_groups fs * 32 + 32 * q - 1) / (32 * q)) as H1 by lia. apply Z.mul_le_mono_nonneg_l with (p := 32 * q) in H1; [|lia].
    pose proof (Z.mul_div_le (num_groups fs * 32 + 32 * q - 1) (32 * q) ltac:(lia)). lia. }
  destruct (sh_desc _ S (num_groups fs - 1)) as [V0 V1]; [unfold group; lia|]. unfold desc_block in *. fold q in V0, V1.
  destruct (spb_eq fs (sh_geom _ S)) as (_ & ? & _). assert (0 <= gdt_block fs) by (unfold gdt_block; destruct (_ =? _); lia). split; [lia|]. nia.
Qed.
Lemma mount_ok fs : shape fs -> params fs ->
  (forall l i, 2 <= l < 4 -> 0 <= i < 512 -> rd0 (sectors fs.(device) l) i = rd0 fs.(superblock) (512 * (l - 2) + i)) ->
  ext2_mount fs.(device) = Some (ext2_write_superblock (with_superblock (with_group_descs fs (table fs)) (with_state fs.(superblock) EXT2_ERROR_FS))).2.
Proof.
  intros S [Pm Pb Pg Pi Pn Ps Pt] Sb. pose proof (sh_geom _ S) as G. pose proof (g_disk _ G) as Hd. pose proof (g_bs _ G). pose proof (sh_groups _ S).
  assert (Rs : ata_read_sectors 2 2 (device fs) = Some (superblock fs)).
  { rewrite read_sects by (auto; lia). f_equal. apply rd0_ext; [rewrite zlen_sects, (sh_sb _ S) by auto; done|]. intros i Hi. rewrite zlen_sects in Hi by auto.
    rewrite rd0_sects by auto. rewrite Sb by lia. f_equal. lia. }
  unfold ext2_mount. rewrite !(h_mem _ Hd), Rs, Pm. change (EXT2_MAGIC =? EXT2_MAGIC) with true. cbn [negb].
  rewrite <- Pb, <- Pg, <- Pn, <- Pi, <- Ps. cbv zeta.
  assert (E : mk_fs (superblock fs) [] (block_size fs) (inodes_per_group fs) (blocks_per_group fs) (num_groups fs) (inode_size fs) (device fs) = with_group_descs fs []) by done.
  rewrite E. unfold sizeof_group_desc in *. rewrite !(u32_small (num_groups fs * 32)), !(u32_small (num_groups fs * 32 + _ - 1)) by (unfold is_u32; lia).
  fold sizeof_group_desc. fold (gdt_blocks fs). rewrite (h_mem _ Hd). cbn [negb].
  rewrite read_gdt_ok; [done|by destruct G|]. intros k Hk. apply (gdt_blocks_valid fs k S).
  assert (0 <= gdt_blocks fs) by (apply Z.div_pos; unfold sizeof_group_desc; lia). lia.
Qed.

(** ** Unmounting and mounting again *)
Lemma same_layout_state fs s gd d : zlen fs.(superblock) = 1024 ->
  (forall g o, group fs g -> o = 0 \/ o = 4 \/ o = 8 -> rd32 gd (sizeof_group_desc * g + o) = gd32 fs g o) ->
  same_layout fs (with_device (with_superblock (with_group_descs fs gd) (with_state fs.(superblock) s)) d).
Proof.
  intros Hl Hg. constructor; try done; cbn [superblock with_device with_superblock with_group_descs].
  - apply state_rd32; [done|lia].
  - apply state_rd32; [done|lia].
Qed.
Lemma params_state fs s gd d : zlen fs.(superblock) = 1024 -> params fs ->
  params (with_device (with_superblock (with_group_descs fs gd) (with_state fs.(superblock) s)) d).
Proof.
  intros Hl [P1 P2 P3 P4 P5 P6 P7]. constructor; cbn; unfold s_magic, s_log_block_size, s_blocks_per_group, s_inodes_per_group, s_blocks_count, s_rev_level, s_inode_size in *;
    rewrite ?state_rd32, ?state_rd16 by (done || lia); done.
Qed.
Section remount.
Context (fs : ext2_fs_t).
Hypothesis V : vol fs.
Hypothesis P : params fs.
Let S := v_shape _ V.
(** The volume on the disk that [ext2_unmount] leaves. *)
Lemma unmount_ok : exists fs2, ext2_unmount fs = fs2.(device) /\ fs2 = with_device (with_superblock (with_group_descs fs fs.(group_descs)) (with_state fs.(superblock) EXT2_VALID_FS)) fs2.(device) /\
  shape fs2 /\ params fs2 /\ same_layout fs fs2 /\
  (forall l i, 2 <= l < 4 -> 0 <= i < 512 -> rd0 (sectors fs2.(device) l) i = rd0 fs2.(superblock) (512 * (l - 2) + i)) /\
  (forall c, valid fs c -> gdt_block fs <= c -> blk fs2 c = blk fs c).
Proof.
  set (fs1 := with_superblock (with_group_descs fs fs.(group_descs)) (with_state fs.(superblock) EXT2_VALID_FS)).
  assert (G1 : geom fs1) by (by destruct (sh_geom _ S)). pose proof (sh_sb _ S) as Hl.
  destruct (write_superblock_ok fs1) as (fs2 & E & T); [done|by apply state_zlen|apply state_bytes; [done|apply S]|]. exists fs2. pose proof (sy_fs _ _ T) as F2.
  assert (L : same_layout fs fs2) by (rewrite F2; by apply same_layout_state).
  split; [unfold ext2_unmount; fold (with_state (superblock fs) EXT2_VALID_FS); change (with_superblock fs (with_state (superblock fs) EXT2_VALID_FS)) with fs1; by rewrite E|].
  split; [done|]. split; [|split; [rewrite F2; by apply params_state|split; [done|split]]].
  - apply (sl_shape fs); auto; [apply T|..]; rewrite F2; cbn; [by apply state_zlen|apply state_bytes; [done|apply S]|apply S|apply S].
  - intros l i Hl' Hi. rewrite (sy_sb _ _ T) by auto. by rewrite F2.
  - intros c Hc Hg. by apply T.
Qed.
(** The table read back is the table in memory. *)
Lemma table_desc fs2 g x : shape fs2 -> same_layout fs fs2 -> (forall c, valid fs c -> gdt_block fs <= c -> blk fs2 c = blk fs c) ->
  group fs g -> 0 <= x < 32 -> rd0 (table fs2) (sizeof_group_desc * g + x) = rd0 fs.(group_descs) (sizeof_group_desc * g + x).
Proof.
  intros S2 L B Hg Hx. destruct (per_block fs S) as [P1 P2]. pose proof (gdt_covers fs2 g S2 (proj2 (sl_group _ _ L g) Hg)) as Cv. destruct (desc_off_fit fs S g) as [F1 F2].
  rewrite (sl_bs _ _ L) in Cv. set (q := g / (block_size fs / sizeof_group_desc)) in *.
  assert (E : sizeof_group_desc * g + x = q * block_size fs + (desc_off fs g + x)).
  { unfold desc_off. pose proof (Z.div_mod g (block_size fs / sizeof_group_desc) ltac:(lia)). fold q in H. unfold sizeof_group_desc in *. nia. }
  unfold table. rewrite E at 1. rewrite <- (sl_bs _ _ L). change (block_size fs2) with (block_size (with_group_descs fs2 [])).
  rewrite rd0_cat; [|by destruct (sh_geom _ S2)|lia|cbn [block_size with_group_descs]; rewrite (sl_bs _ _ L); lia].
  change (blk (with_group_descs fs2 []) (gdt_block fs2 + q)) with (blk fs2 (gdt_block fs2 + q)). rewrite (sl_gdt _ _ L). change (gdt_block fs + q) with (desc_block fs g).
  rewrite B by (apply S || apply gdt_le_desc; auto). pose proof (mi_gd _ (v_mirror _ V) g Hg) as Mi.
  pose proof (f_equal (fun l => rd0 l x) Mi) as Mx. cbv beta in Mx. rewrite !rd0_bytes_at in Mx by lia. exact Mx.
Qed.
End remount.

(** The state of the superblock on the disk. *)
Lemma disk_state d sb : healthy d -> (forall l i, 2 <= l < 4 -> 0 <= i < 512 -> rd0 (sectors d l) i = rd0 sb (512 * (l - 2) + i)) ->
  s_state (sects 2 2 d) = s_state sb.
Proof. intros Hd Hs. apply rd16_at. intros k Hk. rewrite rd0_sects by (auto; lia). rewrite Hs by lia. f_equal. lia. Qed.
(** The table that is read at mount has room for all descriptors. *)
Lemma table_room fs : shape fs -> num_groups fs * sizeof_group_desc <= zlen (table fs).
Proof.
  intros S. unfold table. rewrite zlen_cat by (by destruct (sh_geom _ S)). cbn [block_size with_group_descs].
  pose proof (g_bs _ (sh_geom _ S)). pose proof (sh_groups _ S). unfold gdt_blocks.
  pose proof (Z.mul_succ_div_gt (num_groups fs * sizeof_group_desc + block_size fs - 1) (block_size fs) ltac:(lia)).
  pose proof (Z.div_pos (num_groups fs * sizeof_group_desc + block_size fs - 1) (block_size fs)). unfold sizeof_group_desc in *. lia.
Qed.

(** C19. A consistent volume survives [ext2_unmount] followed by [ext2_mount]: the
    mount succeeds, every block beyond the descriptor table is the same bytes,
    the counters of free blocks and inodes are the same, and the volume is
    consistent again.  The disk is marked clean in between and marked in use
    while it is mounted. *)
Theorem ext2_remount fs : vol fs -> params fs ->
  s_state (sects 2 2 (ext2_unmount fs)) = EXT2_VALID_FS /\
  exists fs', ext2_mount (ext2_unmount fs) = Some fs' /\ vol fs' /\ params fs' /\ same_layout fs fs' /\
    (forall c, beyond fs c -> blk fs' c = blk fs c) /\
    (forall k g, kind k -> group fs g -> group_free k fs' g = group_free k fs g) /\
    (forall k, kind k -> total_free k fs' = total_free k fs) /\
    s_state fs'.(superblock) = EXT2_ERROR_FS /\ s_state (sects 2 2 fs'.(device)) = EXT2_ERROR_FS.
Proof.
  intros V P. pose proof (v_shape _ V) as S. pose proof (sh_sb _ S) as Hl.
  destruct (unmount_ok fs V P) as (fs2 & Eu & F2 & S2 & P2 & L2 & Sb2 & B2). rewrite Eu.
  split.
  { rewrite (disk_state _ (superblock fs2)); [|apply S2|done]. rewrite F2. apply state_here; [done|by vm_compute]. }
  rewrite (mount_ok fs2 S2 P2 Sb2). set (fs3 := with_superblock _ _). pose proof (sh_sb _ S2) as Hl2.
  assert (G3 : geom fs3) by (by destruct (sh_geom _ S2)).
  destruct (write_superblock_ok fs3) as (fs4 & E4 & T4); [done|by apply state_zlen|apply state_bytes; [done|apply S2]|]. rewrite E4. cbn [snd]. exists fs4. split; [done|].
  pose proof (sy_fs _ _ T4) as F4. pose proof (fun g x => table_desc fs V fs2 g x S2 L2 B2) as Td.
  assert (Gd : group_descs fs4 = table fs2) by (by rewrite F4).
  assert (L24 : same_layout fs2 fs4).
  { rewrite F4. apply same_layout_state; [done|]. intros g o Hg%(sl_group _ _ L2) Ho. rewrite (sl_gd _ _ L2) by auto. apply rd32_at. intros k Hk.
    rewrite <- !Z.add_assoc. apply Td; [done|lia]. }
  pose proof (same_layout_trans _ _ _ L2 L24) as L.
  assert (B : forall c, valid fs c -> gdt_block fs <= c -> blk fs4 c = blk fs c).
  { intros c Hc Hg. rewrite (sy_other _ _ T4); [by apply B2|by apply (sl_valid _ _ L2)|by rewrite <- (sl_gdt _ _ L2) in Hg]. }
  assert (By : forall c, beyond fs c -> blk fs4 c = blk fs c).
  { intros c Hc. apply B; [apply Hc|]. pose proof (gdt_lt_beyond fs c S Hc). lia. }
  assert (Gf : forall k g, kind k -> group fs g -> group_free k fs4 g = group_free k fs g).
  { intros k g Hk Hg. unfold group_free, gd16. rewrite Gd. apply rd16_at. intros j Hj. rewrite <- !Z.add_assoc.
    apply Td; [done|]. destruct (kind_offsets k Hk). lia. }
  assert (Tf : forall k, kind k -> total_free k fs4 = total_free k fs).
  { intros k Hk. unfold total_free. rewrite F4. cbn. destruct (kind_offsets k Hk) as [_ O]. rewrite state_rd32 by (done || lia).
    rewrite F2. cbn. apply state_rd32; [done|lia]. }
  assert (Fc : forall k g, kind k -> group fs g -> free_count k fs4 g = free_count k fs g).
  { intros k g Hk Hg. unfold free_count, bits. rewrite (sl_limit _ _ L), (sl_bitmap _ _ L), By; auto. by apply S. }
  assert (S4 : shape fs4).
  { apply (sl_shape fs); auto; [apply T4|..]; [rewrite F4; by apply state_zlen|rewrite F4; apply state_bytes; [done|apply S2]| |rewrite Gd; apply cat_bytes; by destruct (sh_geom _ S2)].
    rewrite Gd. pose proof (table_room fs2 S2). rewrite <- (sl_ng _ _ L2). unfold sizeof_group_desc in *. lia. }
  split; [|split; [|split; [done|split; [done|split; [done|split; [done|split]]]]]].
  - constructor; [done|constructor|..].
    + intros l i Hl' Hi. rewrite (sy_sb _ _ T4) by auto. by rewrite F4.
    + intros g Hg%(sl_group _ _ L). rewrite (sl_desc _ _ L), (sl_off _ _ L), B by (by apply S || by apply gdt_le_desc). rewrite (mi_gd _ (v_mirror _ V)) by auto.
      apply rd0_ext; rewrite !zlen_bytes_at; [done|]. intros x Hx. rewrite !rd0_bytes_at by done. rewrite Gd. symmetry. apply Td; [done|lia].
    + intros k g Hk Hg%(sl_group _ _ L). rewrite Gf, Fc by auto. by apply V.
    + intros k Hk. rewrite Tf, (sl_ng _ _ L) by auto. rewrite (v_total_free _ V) by auto. apply sum_upto_ext. intros g Hg. by rewrite Fc.
  - rewrite F4. by apply params_state.
  - rewrite F4. apply state_here; [done|by vm_compute].
  - rewrite (disk_state _ (superblock fs3)); [|apply T4|apply T4]. apply state_here; [done|by vm_compute].
Qed.
Lemma ext2_remount_witness : exists fs', ext2_mount (ext2_unmount Demo.fs) = Some fs' /\ vol fs' /\ total_free BLOCKS fs' = 61.
Proof.
  assert (P : params Demo.fs) by (constructor; vm_compute; reflexivity).
  destruct (ext2_remount Demo.fs Demo.fs_vol P) as (_ & fs' & E & V & _ & _ & _ & _ & T & _).
  exists fs'. split; [exact E|]. split; [exact V|]. rewrite (T BLOCKS (or_introl eq_refl)). vm_compute. reflexivity.
Defined.
