(* ===== verification/Ext2Inode.v ===== *)
(** The inode table of an ext2 volume, and the kinds of blocks a volume has:
    bitmaps, inode tables and the plain blocks that files are made of. *)
From S2P Require Import Prelude Ext2 Ext2Disk Ext2Alloc Ext2Vol.

Definition inode_in (fs : ext2_fs_t) (n : Z) : Prop := 1 <= n <= fs.(num_groups) * fs.(inodes_per_group).
Definition is_bitmap (fs : ext2_fs_t) (b : Z) : Prop := exists k g, kind k /\ group fs g /\ b = bitmap_block k fs g.
Definition is_table (fs : ext2_fs_t) (b : Z) : Prop := exists n, inode_in fs n /\ b = inode_block fs n.
Record itable (fs : ext2_fs_t) : Prop := mk_itable {
  it_size : 128 <= fs.(inode_size) <= fs.(block_size);
  it_beyond n : inode_in fs n -> beyond fs (inode_block fs n);
  it_bitmap n : inode_in fs n -> ~ is_bitmap fs (inode_block fs n);
  it_wrap g : group fs g -> bg_inode_table fs g + fs.(inodes_per_group) <= 2 ^ 32;
  it_tables n m : inode_in fs n -> inode_in fs m -> inode_block fs n = inode_block fs m ->
    (n - 1) / fs.(inodes_per_group) = (m - 1) / fs.(inodes_per_group)
}.
(** Plain blocks, and the free blocks of the volume are such blocks. *)
Record plain (fs : ext2_fs_t) (b : Z) : Prop := mk_plain {
  pl_beyond : beyond fs b;
  pl_bitmap : ~ is_bitmap fs b;
  pl_table : ~ is_table fs b
}.
Record mounted (fs : ext2_fs_t) : Prop := mk_mounted {
  mo_vol : vol fs;
  mo_itable : itable fs;
  mo_pool g i : free_unit BLOCKS fs g i -> plain fs (unit_number BLOCKS fs g i)
}.

Section layout.
Context (fs fs' : ext2_fs_t).
Hypothesis L : same_layout fs fs'.
Lemma sl_inode_in n : inode_in fs' n <-> inode_in fs n.
Proof. unfold inode_in. by rewrite (sl_ng _ _ L), (sl_ipg _ _ L). Qed.
Lemma inode_group n : 0 < fs.(inodes_per_group) -> inode_in fs n -> group fs ((n - 1) / fs.(inodes_per_group)).
Proof.
  intros P [H1 H2]. split; [apply Z.div_pos; lia|]. apply Z.div_lt_upper_bound; lia.
Qed.
Lemma sl_inode_block n : 0 < fs.(inodes_per_group) -> inode_in fs n -> inode_block fs' n = inode_block fs n.
Proof.
  intros P Hn. unfold inode_block, bg_inode_table. rewrite (sl_ipg _ _ L), (sl_bs _ _ L), (sl_is _ _ L), (sl_gd _ _ L); auto. by apply inode_group.
Qed.
Lemma sl_inode_offset n : inode_offset fs' n = inode_offset fs n.
Proof. unfold inode_offset. by rewrite (sl_ipg _ _ L), (sl_bs _ _ L), (sl_is _ _ L). Qed.
Lemma sl_is_bitmap b : is_bitmap fs' b <-> is_bitmap fs b.
Proof.
  split; intros (k & g & Hk & Hg & ->); exists k, g; (split; [done|]); split; try (by apply (sl_group _ _ L)).
  - apply (sl_group _ _ L) in Hg. by rewrite (sl_bitmap _ _ L).
  - by rewrite (sl_bitmap _ _ L).
Qed.
Lemma sl_is_table b : 0 < fs.(inodes_per_group) -> is_table fs' b <-> is_table fs b.
Proof.
  intros P. split; intros (n & Hn & ->); exists n; split; try (by apply sl_inode_in).
  - apply sl_inode_in in Hn. by rewrite sl_inode_block.
  - by rewrite sl_inode_block.
Qed.
Lemma sl_plain b : 0 < fs.(inodes_per_group) -> plain fs' b <-> plain fs b.
Proof.
  intros P. split; intros [H1 H2 H3]; constructor; rewrite ?(sl_beyond _ _ L), ?sl_is_bitmap, ?sl_is_table in *; auto.
Qed.
Lemma sl_itable : 0 < fs.(inodes_per_group) -> itable fs -> itable fs'.
Proof.
  intros P I. constructor.
  - rewrite (sl_is _ _ L), (sl_bs _ _ L). apply I.
  - intros n Hn%sl_inode_in. rewrite (sl_beyond _ _ L), sl_inode_block; auto. by apply I.
  - intros n Hn%sl_inode_in. rewrite sl_is_bitmap, sl_inode_block; auto. by apply I.
  - intros g Hg%(sl_group _ _ L). rewrite (sl_ipg _ _ L). unfold bg_inode_table. rewrite (sl_gd _ _ L); auto. by apply I.
  - intros n m Hn%sl_inode_in Hm%sl_inode_in. rewrite !sl_inode_block, (sl_ipg _ _ L); auto. by apply I.
Qed.
End layout.

(** ** Writing a block that is not one of the bitmaps *)
Lemma stored_layout fs fs' b buf : stored fs fs' b buf -> same_layout fs fs'.
Proof. intros T. rewrite (st_fs _ _ _ _ T). apply same_layout_device. Qed.
Lemma sb_sectors fs b : shape fs -> beyond fs b -> forall l, l < 4 -> l < b * spb fs.
Proof.
  intros S B l Hl. pose proof (gdt_lt_beyond _ _ S B) as G. destruct (spb_eq fs (sh_geom _ S)) as (E & H2 & _).
  unfold gdt_block in G. destruct (Z.eqb_spec fs.(block_size) 1024); nia.
Qed.
Lemma stored_vol fs fs' b buf : vol fs -> beyond fs b -> ~ is_bitmap fs b -> stored fs fs' b buf -> vol fs'.
Proof.
  intros V B Nb T. pose proof (stored_layout _ _ _ _ T) as L. pose proof (v_shape _ V) as S.
  assert (Bits : forall k g, kind k -> group fs g -> bits k fs' g = bits k fs g).
  { intros k g Hk Hg. unfold bits. rewrite (sl_bitmap _ _ L) by auto. apply T; [by apply S|]. intros <-. apply Nb. by exists k, g. }
  assert (Fc : forall k g, kind k -> group fs g -> free_count k fs' g = free_count k fs g).
  { intros k g Hk Hg. unfold free_count. by rewrite (sl_limit _ _ L), Bits. }
  assert (Eg : group_descs fs' = group_descs fs /\ superblock fs' = superblock fs) by (by rewrite (st_fs _ _ _ _ T)). destruct Eg as [Eg Es].
  constructor.
  - apply (shape_device fs); auto; apply T.
  - constructor.
    + intros l i Hl Hi. rewrite (st_sector _ _ _ _ T) by (apply sb_sectors; auto; lia). rewrite Es. by apply V.
    + intros g Hg%(sl_group _ _ L). rewrite (sl_desc _ _ L), (sl_off _ _ L), Eg, (st_other _ _ _ _ T); [by apply V|by apply S|].
      pose proof (by_desc _ _ B g Hg). lia.
  - intros k g Hk Hg%(sl_group _ _ L). rewrite Fc, <- (v_group_free _ V) by auto. unfold group_free, gd16. by rewrite Eg.
  - intros k Hk. rewrite (sl_ng _ _ L). unfold total_free. rewrite Es. rewrite <- (sum_upto_ext _ (free_count k fs)); [by apply V|].
    intros g Hg. by rewrite Fc.
Qed.
Lemma mounted_per fs : mounted fs -> 0 < fs.(inodes_per_group).
Proof. intros M. apply (sh_per _ (v_shape _ (mo_vol _ M))). Qed.
Lemma stored_mounted fs fs' b buf : mounted fs -> beyond fs b -> ~ is_bitmap fs b -> stored fs fs' b buf -> mounted fs'.
Proof.
  intros M B Nb T. pose proof (mounted_per _ M) as P. destruct M as [V I Po]. pose proof (stored_layout _ _ _ _ T) as L. constructor.
  - by eapply stored_vol.
  - by apply (sl_itable fs).
  - intros g i (Hg & Hi & F). rewrite (sl_number _ _ L), (sl_plain _ _ L) by auto. apply Po. split; [by apply (sl_group _ _ L)|].
    rewrite (sl_limit _ _ L) in Hi. split; [done|]. unfold bits in F. rewrite (sl_bitmap _ _ L) in F by (by left || by apply (sl_group _ _ L)).
    rewrite (st_other _ _ _ _ T) in F; [done| |].
    + apply V; [by left|by apply (sl_group _ _ L)].
    + intros E. apply Nb. exists BLOCKS, g. split; [by left|]. split; [by apply (sl_group _ _ L)|done].
Qed.

(** ** Inodes *)
Lemma scaled_apart a b s : a <> b -> 128 <= s -> a * s + 128 <= b * s \/ b * s + 128 <= a * s.
Proof. intros N Hs. destruct (Z.lt_total a b) as [?|[?|?]]; [left|done|right]; nia. Qed.
Lemma scaled_fit a q s m : 0 <= a < q -> 128 <= s -> q * s <= m -> 0 <= a * s /\ a * s + 128 <= m.
Proof. intros. nia. Qed.
Lemma div_le_self x q : 0 <= x -> 1 <= q -> 0 <= x / q <= x.
Proof. intros Hx Hq. split; [apply Z.div_pos; lia|]. apply Z.div_le_upper_bound; nia. Qed.
Section inode.
Context (fs : ext2_fs_t).
Hypothesis M : mounted fs.
Let G : geom fs := sh_geom _ (v_shape _ (mo_vol _ M)).
Lemma inode_fit n : 0 <= inode_offset fs n /\ inode_offset fs n + 128 <= fs.(block_size).
Proof.
  pose proof (it_size _ (mo_itable _ M)) as Hs. unfold inode_offset. set (q := fs.(block_size) / fs.(inode_size)).
  assert (Hq : 1 <= q /\ q * fs.(inode_size) <= fs.(block_size)).
  { unfold q. split; [apply Z.div_le_lower_bound; lia|]. rewrite Z.mul_comm. apply Z.mul_div_le. lia. }
  apply (scaled_fit _ q); [apply Z.mod_pos_bound|..]; lia.
Qed.
Lemma inode_disjoint n m : inode_in fs n -> inode_in fs m -> n <> m -> inode_block fs n = inode_block fs m ->
  inode_offset fs n + 128 <= inode_offset fs m \/ inode_offset fs m + 128 <= inode_offset fs n.
Proof.
  intros Hn Hm N E. pose proof (it_tables _ (mo_itable _ M) n m Hn Hm E) as Eg. pose proof (mounted_per _ M) as P.
  pose proof (it_size _ (mo_itable _ M)) as Hs. pose proof (inode_group fs n P Hn) as Gn. pose proof (it_wrap _ (mo_itable _ M) _ Gn) as W.
  unfold inode_block, inode_offset in *. rewrite <- Eg in E. set (ipg := fs.(inodes_per_group)) in *.
  set (q := fs.(block_size) / fs.(inode_size)) in *. assert (Hq : 1 <= q) by (apply Z.div_le_lower_bound; lia).
  pose proof (Z.mod_pos_bound (n - 1) ipg P). pose proof (Z.mod_pos_bound (m - 1) ipg P).
  set (t := bg_inode_table fs ((n - 1) / ipg)) in *. assert (0 <= t) by apply (rd32_range _ _ (sh_gd_bytes _ (v_shape _ (mo_vol _ M)))).
  pose proof (div_le_self ((n - 1) mod ipg) q). pose proof (div_le_self ((m - 1) mod ipg) q).
  rewrite !u32_small in E by (unfold is_u32; generalize dependent ((n - 1) mod ipg); generalize dependent ((m - 1) mod ipg); intros; lia).
  assert ((n - 1) mod ipg <> (m - 1) mod ipg).
  { intros Em. apply N. pose proof (Z.div_mod (n - 1) ipg ltac:(lia)). pose proof (Z.div_mod (m - 1) ipg ltac:(lia)). rewrite Eg, Em in *. lia. }
  assert ((n - 1) mod ipg mod q <> (m - 1) mod ipg mod q).
  { intros Em. pose proof (Z.div_mod ((n - 1) mod ipg) q ltac:(lia)). pose proof (Z.div_mod ((m - 1) mod ipg) q ltac:(lia)). replace ((n - 1) mod ipg / q) with ((m - 1) mod ipg / q) in * by lia. lia. }
  apply scaled_apart; [done|lia].
Qed.
Lemma read_inode_eq n : inode_in fs n -> ext2_read_inode fs n = Some (bytes_at (blk fs (inode_block fs n)) (inode_offset fs n) 128).
Proof.
  intros Hn. unfold ext2_read_inode. rewrite (proj2 (Z.eqb_neq _ _)) by (destruct Hn; lia). unfold kmalloc_ok. rewrite (h_mem _ (g_disk _ G)). cbn [negb].
  rewrite read_block_ok; auto. apply (it_beyond _ (mo_itable _ M)), Hn.
Qed.
Lemma write_inode_ok n i : inode_in fs n -> zlen i = 128 -> Forall is_u8 i ->
  exists fs', ext2_write_inode fs n i = (true, fs') /\ stored fs fs' (inode_block fs n) (blit (blk fs (inode_block fs n)) (inode_offset fs n) i) /\
    mounted fs' /\ ext2_read_inode fs' n = Some i /\ (forall m, inode_in fs m -> m <> n -> ext2_read_inode fs' m = ext2_read_inode fs m).
Proof.
  intros Hn Hl Hb. pose proof (it_beyond _ (mo_itable _ M) n Hn) as B. destruct (inode_fit n) as [F1 F2].
  assert (Hk : zlen (blk fs (inode_block fs n)) = block_size fs) by (by apply zlen_blk).
  destruct (write_block_ok fs (inode_block fs n) (blit (blk fs (inode_block fs n)) (inode_offset fs n) i)) as (fs' & E & T); auto; [apply B|..].
  { rewrite zlen_blit; lia. }
  { apply blit_bytes; [by apply blk_bytes|done]. }
  pose proof (stored_mounted _ _ _ _ M B (it_bitmap _ (mo_itable _ M) n Hn) T) as M'. pose proof (stored_layout _ _ _ _ T) as L. pose proof (mounted_per _ M) as P.
  exists fs'. split; [|split; [done|split; [done|]]].
  - unfold ext2_write_inode. rewrite (proj2 (Z.eqb_neq _ _)) by (destruct Hn; lia). unfold kmalloc_ok. rewrite (h_mem _ (g_disk _ G)). cbn [negb].
    rewrite read_block_ok; auto. apply B.
  - assert (R : forall m, inode_in fs m -> ext2_read_inode fs' m = Some (bytes_at (blk fs' (inode_block fs m)) (inode_offset fs m) 128)).
    { intros m Hm. unfold ext2_read_inode. rewrite (proj2 (Z.eqb_neq _ _)) by (destruct Hm; lia). unfold kmalloc_ok.
      rewrite (h_mem _ (g_disk _ (st_geom _ _ _ _ T))). cbn [negb]. rewrite (sl_inode_block _ _ L), (sl_inode_offset _ _ L) by auto.
      rewrite read_block_ok; [done|apply T|]. apply (sl_valid _ _ L), (it_beyond _ (mo_itable _ M)), Hm. }
    split.
    + rewrite R, (st_here _ _ _ _ T) by auto. f_equal. replace 128%nat with (length i) by (unfold zlen in Hl; lia). apply bytes_at_blit_same; lia.
    + intros m Hm N. rewrite R, read_inode_eq by auto. f_equal. destruct (decide (inode_block fs m = inode_block fs n)) as [Eb|Nb].
      * rewrite Eb, (st_here _ _ _ _ T). apply bytes_at_blit_other; try lia. destruct (inode_disjoint m n Hm Hn N Eb); lia.
      * f_equal. apply T; [|done]. apply (it_beyond _ (mo_itable _ M)), Hm.
Qed.
End inode.
