(* ===== verification/Ext2File.v ===== *)
(** The data of a file: the tree of pointers from the inode to the blocks,
    what [ext2_get_block] adds to it, and the reading and writing of bytes. *)
From S2P Require Import Prelude Ext2 Ext2Disk Ext2Alloc Ext2Vol Ext2Inode.

(** ** Positions in the tree
    A position is the index in [i_block] followed by the indexes in the pointer
    blocks. *)
Definition child (fs : ext2_fs_t) (b j : Z) : Z := if b =? 0 then 0 else ptr (blk fs b) j.
Definition node (fs : ext2_fs_t) (inode : list Z) (pos : list Z) : Z :=
  match pos with [] => 0 | n :: js => foldl (child fs) (i_block inode n) js end.
Definition idx_in (fs : ext2_fs_t) (j : Z) : Prop := 0 <= j < ptrs_per_block fs.
(** Positions of data blocks and of pointer blocks. *)
Inductive leaf (fs : ext2_fs_t) : list Z -> Prop :=
| leaf_direct n : 0 <= n < 12 -> leaf fs [n]
| leaf_single j : idx_in fs j -> leaf fs [12; j]
| leaf_double a j : idx_in fs a -> idx_in fs j -> leaf fs [13; a; j].
Inductive inner (fs : ext2_fs_t) : list Z -> Prop :=
| inner_single : inner fs [12]
| inner_double : inner fs [13]
| inner_second a : idx_in fs a -> inner fs [13; a].
Definition position (fs : ext2_fs_t) (pos : list Z) : Prop := leaf fs pos \/ inner fs pos.
Definition max_index (fs : ext2_fs_t) : Z := 12 + ptrs_per_block fs + ptrs_per_block fs * ptrs_per_block fs.
Definition path_of (fs : ext2_fs_t) (index : Z) : list Z :=
  let p := ptrs_per_block fs in
  if index <? 12 then [index]
  else if index <? 12 + p then [12; index - 12]
  else [13; (index - 12 - p) / p; (index - 12 - p) mod p].

Lemma leaf_inner fs pos : leaf fs pos -> inner fs pos -> False.
Proof. intros L I. inversion L; subst; inversion I; subst; lia. Qed.
Lemma position_app fs pos j : pos <> [] -> position fs (pos ++ [j]) -> inner fs pos /\ idx_in fs j.
Proof.
  intros N [L|I]; [inversion L as [n ? E|x ? E|a x ? ? E]|inversion I as [E|E|a ? E]]; destruct pos as [|y1 [|y2 [|y3 pos]]]; try done; cbn in E;
    injection E; intros; subst; try (by destruct pos); (split; [constructor|]; auto).
Qed.
Lemma inner_app fs pos j : inner fs pos -> idx_in fs j -> position fs (pos ++ [j]).
Proof. intros I Hj. inversion I; cbn; [left; by constructor|right; by constructor|left; by constructor]. Qed.
Lemma inner_nonempty fs pos : inner fs pos -> pos <> [].
Proof. by intros []. Qed.
Lemma node_app fs inode pos j : pos <> [] -> node fs inode (pos ++ [j]) = child fs (node fs inode pos) j.
Proof. destruct pos; [done|]. intros _. cbn. by rewrite foldl_app. Qed.
(** Induction along a path. *)
Lemma position_ind fs (P : list Z -> Prop) :
  (forall n, 0 <= n < 14 -> P [n]) ->
  (forall pos j, inner fs pos -> idx_in fs j -> P pos -> P (pos ++ [j])) -> forall pos, position fs pos -> P pos.
Proof.
  intros H1 H2 pos [L|I].
  - destruct L as [n Hn|j Hj|a j Ha Hj]; [apply H1; lia|apply (H2 [12]); auto using inner; apply H1; lia|].
    apply (H2 [13; a]); auto using inner. apply (H2 [13]); auto using inner. apply H1; lia.
  - destruct I; [apply H1; lia|apply H1; lia|]. apply (H2 [13]); auto using inner. apply H1; lia.
Qed.
Lemma path_leaf fs index : 0 < ptrs_per_block fs -> 0 <= index < max_index fs -> leaf fs (path_of fs index).
Proof.
  intros P H. unfold path_of, max_index, idx_in in *. case_if; [constructor; lia|]. case_if; constructor; unfold idx_in; lia || nia.
Qed.
Lemma index_path_inj fs x y : 0 < ptrs_per_block fs -> path_of fs x = path_of fs y -> x = y.
Proof.
  intros P. unfold path_of. repeat case_if; intros E; try discriminate E; injection E as; lia.
Qed.

(** ** Blocks in use *)
Definition marked (fs : ext2_fs_t) (b : Z) : Prop :=
  exists g i, group fs g /\ 0 <= i < limit BLOCKS fs g /\ b = unit_number BLOCKS fs g i /\ bit_clear (bits BLOCKS fs g) i = false.
Record used (fs : ext2_fs_t) (b : Z) : Prop := mk_used {
  us_plain : plain fs b;
  us_marked : marked fs b
}.
(** The tree of an inode: its blocks are in use and occur once. *)
Record file (fs : ext2_fs_t) (inode : list Z) : Prop := mk_file {
  f_len : zlen inode = 128;
  f_bytes : Forall is_u8 inode;
  f_used pos : position fs pos -> node fs inode pos <> 0 -> used fs (node fs inode pos);
  f_inj pos pos' : position fs pos -> position fs pos' -> node fs inode pos <> 0 -> node fs inode pos = node fs inode pos' -> pos = pos'
}.
(** How one change of a pointer changes the tree. *)
Lemma node_update fs inode fs' inode' target nb :
  (forall n, 0 <= n < 14 -> i_block inode' n = if decide ([n] = target) then nb else i_block inode n) ->
  (forall pos j, inner fs pos -> idx_in fs j -> node fs inode pos <> 0 ->
     ptr (blk fs' (node fs inode pos)) j = if decide (pos ++ [j] = target) then nb else ptr (blk fs (node fs inode pos)) j) ->
  (forall j, idx_in fs j -> inner fs target -> ptr (blk fs' nb) j = 0) ->
  (forall pos j, target = pos ++ [j] -> pos <> [] -> node fs inode pos <> 0) ->
  node fs inode target = 0 ->
  forall pos, position fs pos -> node fs' inode' pos = if decide (pos = target) then nb else node fs inode pos.
Proof.
  intros Hi Hb Hn Hp Hz. apply position_ind.
  - intros n Hn'. cbn. by apply Hi.
  - intros pos j I Hj IH. pose proof (inner_nonempty _ _ I) as Ne. rewrite !node_app, IH by auto. unfold child.
    destruct (decide (pos = target)) as [->|N].
    + rewrite Hz. cbn [Z.eqb]. rewrite decide_False by (intros E%(f_equal length); rewrite length_app in E; cbn in E; lia).
      case_if; [done|]. apply Hn; auto.
    + destruct (Z.eqb_spec (node fs inode pos) 0) as [E|E]; [|by rewrite Hb].
      rewrite decide_False; [done|]. intros <-. by apply (Hp pos j).
Qed.
(** Writing blocks that are no pointer blocks leaves the tree as it is. *)
Lemma node_same fs inode fs' inode' :
  (forall n, 0 <= n < 14 -> i_block inode' n = i_block inode n) ->
  (forall pos, inner fs pos -> node fs inode pos <> 0 -> blk fs' (node fs inode pos) = blk fs (node fs inode pos)) ->
  forall pos, position fs pos -> node fs' inode' pos = node fs inode pos.
Proof.
  intros Hi Hb. apply position_ind; [intros n Hn; by apply Hi|]. intros pos j I Hj IH. rewrite !node_app, IH by (by eapply inner_nonempty).
  unfold child. destruct (Z.eqb_spec (node fs inode pos) 0) as [E|E]; [done|]. by rewrite Hb.
Qed.

(** ** Changes confined to a few blocks *)
Record touch (B : Z -> Prop) (fs fs' : ext2_fs_t) : Prop := mk_touch {
  to_mounted : mounted fs';
  to_layout : same_layout fs fs';
  to_marked c : marked fs c -> marked fs' c;
  to_blk c : beyond fs c -> ~ is_bitmap fs c -> ~ B c -> blk fs' c = blk fs c
}.
Lemma touch_trans B1 B2 fs1 fs2 fs3 : mounted fs1 -> touch B1 fs1 fs2 -> touch B2 fs2 fs3 -> touch (fun c => B1 c \/ B2 c) fs1 fs3.
Proof.
  intros M [M2 L2 K2 E2] [M3 L3 K3 E3]. constructor; auto; [by eapply same_layout_trans|].
  intros c Hc Nb N. rewrite E3, E2; auto; [by apply (sl_beyond _ _ L2)|by rewrite (sl_is_bitmap _ _ L2)].
Qed.
Lemma touch_weaken (B B' : Z -> Prop) fs fs' : (forall c, B c -> B' c) -> touch B fs fs' -> touch B' fs fs'.
Proof. intros H [M L K E]. constructor; auto. Qed.
Lemma touch_plain fs fs' B c : mounted fs -> touch B fs fs' -> plain fs c -> plain fs' c.
Proof. intros M T Hc. by apply (sl_plain _ _ (to_layout _ _ _ T) _ (mounted_per _ M)). Qed.
Lemma touch_used fs fs' B c : mounted fs -> touch B fs fs' -> used fs c -> used fs' c.
Proof. intros M T [Hp Hm]. constructor; [by eapply touch_plain|by apply T]. Qed.
Lemma mounted_geom fs : mounted fs -> geom fs.
Proof. intros M. apply M. Qed.
Lemma store_touch fs b buf : mounted fs -> beyond fs b -> ~ is_bitmap fs b -> zlen buf = fs.(block_size) -> Forall is_u8 buf ->
  exists fs', ext2_write_block fs b buf = (true, fs') /\ touch (fun c => c = b) fs fs' /\ blk fs' b = buf /\ stored fs fs' b buf.
Proof.
  intros M B Nb Hl Hu. destruct (write_block_ok fs b buf) as (fs' & E & T); auto using mounted_geom; [apply B|].
  exists fs'. split; [done|]. pose proof (stored_layout _ _ _ _ T) as L. split; [|split; [apply T|done]]. constructor; auto.
  - by eapply stored_mounted.
  - intros c (g & i & Hg & Hi & -> & F). exists g, i. split; [by apply (sl_group _ _ L)|]. rewrite (sl_limit _ _ L), (sl_number _ _ L).
    split; [done|]. split; [done|]. unfold bits. rewrite (sl_bitmap _ _ L) by (by left || done). rewrite (st_other _ _ _ _ T); [done|apply M; [by left|done]|].
    intros <-. apply Nb. exists BLOCKS, g. split; [by left|done].
  - intros c Hc _ N. apply T; [apply Hc|done].
Qed.
(** Numbers of blocks determine their group and bit. *)
Lemma block_number_inj fs g i h j : mounted fs -> group fs g -> group fs h -> 0 <= i < limit BLOCKS fs g -> 0 <= j < limit BLOCKS fs h ->
  unit_number BLOCKS fs g i = unit_number BLOCKS fs h j -> g = h /\ i = j.
Proof.
  intros M Hg Hh Hi Hj E. pose proof (limit_per fs BLOCKS g i (mo_vol _ M) Hi) as P1. pose proof (limit_per fs BLOCKS h j (mo_vol _ M) Hj) as P2.
  cbn [k_bitmap BLOCKS Z.eqb] in P1, P2. unfold unit_number in E. cbn [k_bitmap BLOCKS Z.eqb] in E. set (n := blocks_per_group fs) in *.
  assert (i + g * n = j + h * n) as E' by lia. pose proof (f_equal (fun x => x / n) E') as Ed. cbv beta in Ed.
  rewrite !Z.div_add, !Z.div_small in Ed by lia. split; [lia|]. assert (g = h) as -> by lia. lia.
Qed.
Definition full (fs : ext2_fs_t) : Prop := forall g i, ~ free_unit BLOCKS fs g i.
Lemma alloc_touch fs : mounted fs ->
  exists nb fs', ext2_alloc_block fs = (nb, fs') /\
    ((nb < 0 /\ fs' = fs /\ full fs) \/ (0 < nb /\ touch (fun _ => False) fs fs' /\ used fs' nb /\ ~ marked fs nb)).
Proof.
  intros M. pose proof (mo_vol _ M) as V. pose proof (alloc_unit_ok fs BLOCKS V (or_introl eq_refl)) as A.
  change (alloc_unit BLOCKS fs) with (ext2_alloc_block fs) in A. destruct (ext2_alloc_block fs) as [nb fs'] eqn:E. cbn in A.
  exists nb, fs'. split; [done|]. inversion A as [g i fs1 [F _] C En|N En]; subst; [right|left; split; [lia|done]].
  pose proof F as (Hg & Hi & Bc). pose proof (ch_layout _ _ _ _ _ _ C) as L. pose proof (mo_pool _ M g i F) as Hp.
  split; [by apply (sh_number _ (v_shape _ V) BLOCKS g i); [left| |]|].
  assert (M' : mounted fs').
  { constructor; [apply C|by apply (sl_itable fs); auto using mounted_per; apply M|]. intros h j (Hh & Hj & Fj). apply (sl_group _ _ L) in Hh.
    rewrite (sl_limit _ _ L) in Hj. rewrite (ch_bits _ _ _ _ _ _ C) in Fj by (auto; lia). destruct (decide _); [done|].
    rewrite (sl_number _ _ L), (sl_plain _ _ L) by (by apply mounted_per). apply M. by split. }
  split; [constructor; auto|split; [constructor|]].
  - intros c (h & j & Hh & Hj & -> & Fj). exists h, j. split; [by apply (sl_group _ _ L)|]. rewrite (sl_limit _ _ L), (sl_number _ _ L).
    split; [done|]. split; [done|]. rewrite (ch_bits _ _ _ _ _ _ C) by (auto; lia). by destruct (decide _).
  - intros c Hc Nb _. apply C; [done|]. intros ->. apply Nb. exists BLOCKS, g. split; [by left|done].
  - by apply (sl_plain _ _ L); [apply mounted_per|].
  - exists g, i. split; [by apply (sl_group _ _ L)|]. rewrite (sl_limit _ _ L), (sl_number _ _ L). split; [done|]. split; [done|].
    rewrite (ch_bits _ _ _ _ _ _ C) by (auto; lia). by rewrite decide_True.
  - intros (h & j & Hh & Hj & En & Fj). apply block_number_inj in En as [-> ->]; auto. congruence.
Qed.

(** ** How a tree may evolve *)
Record evolves (fs : ext2_fs_t) (inode : list Z) (fs' : ext2_fs_t) (inode' : list Z) : Prop := mk_evolves {
  ev_mounted : mounted fs';
  ev_layout : same_layout fs fs';
  ev_file : file fs' inode';
  ev_node pos : position fs pos -> node fs inode pos <> 0 -> node fs' inode' pos = node fs inode pos;
  ev_fresh pos : position fs pos -> node fs inode pos = 0 -> node fs' inode' pos <> 0 -> ~ marked fs (node fs' inode' pos);
  ev_head x : x < 40 \/ 96 <= x -> rd0 inode' x = rd0 inode x;
  ev_marked c : marked fs c -> marked fs' c;
  ev_other c : beyond fs c -> ~ is_bitmap fs c -> marked fs c \/ is_table fs c -> (forall pos, position fs pos -> node fs inode pos <> c) ->
    blk fs' c = blk fs c
}.
Definition content (fs : ext2_fs_t) (inode : list Z) (p : Z) : Z :=
  let b := node fs inode (path_of fs (p / fs.(block_size))) in
  if b =? 0 then 0 else rd0 (blk fs b) (p mod fs.(block_size)).
Definition max_size (fs : ext2_fs_t) : Z := max_index fs * fs.(block_size).
Definition same_content (fs : ext2_fs_t) (inode : list Z) (fs' : ext2_fs_t) (inode' : list Z) : Prop :=
  forall p, 0 <= p < max_size fs -> content fs' inode' p = content fs inode p.
Section sl.
Context (fs fs' : ext2_fs_t).
Hypothesis L : same_layout fs fs'.
Lemma sl_ptrs : ptrs_per_block fs' = ptrs_per_block fs.
Proof. unfold ptrs_per_block. by rewrite (sl_bs _ _ L). Qed.
Lemma sl_idx j : idx_in fs' j <-> idx_in fs j.
Proof. unfold idx_in. by rewrite sl_ptrs. Qed.
Lemma sl_leaf pos : leaf fs' pos <-> leaf fs pos.
Proof. split; intros []; constructor; auto; by apply sl_idx. Qed.
Lemma sl_inner pos : inner fs' pos <-> inner fs pos.
Proof. split; intros []; constructor; auto; by apply sl_idx. Qed.
Lemma sl_position pos : position fs' pos <-> position fs pos.
Proof. unfold position. by rewrite sl_leaf, sl_inner. Qed.
Lemma sl_path x : path_of fs' x = path_of fs x.
Proof. unfold path_of. by rewrite sl_ptrs. Qed.
Lemma sl_max : max_size fs' = max_size fs.
Proof. unfold max_size, max_index. by rewrite sl_ptrs, (sl_bs _ _ L). Qed.
End sl.
Lemma evolves_refl fs inode : mounted fs -> file fs inode -> evolves fs inode fs inode.
Proof. intros M F. constructor; auto using same_layout_refl. Qed.
Lemma evolves_trans fs1 i1 fs2 i2 fs3 i3 : mounted fs1 -> evolves fs1 i1 fs2 i2 -> evolves fs2 i2 fs3 i3 -> evolves fs1 i1 fs3 i3.
Proof.
  intros M [M2 L2 F2 N2 R2 H2 K2 O2] [M3 L3 F3 N3 R3 H3 K3 O3].
  assert (Po : forall pos, position fs1 pos -> position fs2 pos) by (intros; by apply (sl_position _ _ L2)).
  constructor; auto; [by eapply same_layout_trans|..].
  - intros pos Hp Hn. rewrite N3, N2; auto. by rewrite N2.
  - intros pos Hp Hz Hn. destruct (decide (node fs2 i2 pos = 0)) as [E|E].
    + intros Hm. apply (R3 pos); auto.
    + rewrite N3 in * by auto. by apply R2.
  - intros x Hx. by rewrite H3, H2.
  - intros c Hc Nb Hm Nt. rewrite O3; [by apply O2|by apply (sl_beyond _ _ L2)|by rewrite (sl_is_bitmap _ _ L2)|..].
    + destruct Hm as [Hm|Ht]; [left; auto|right]. by apply (sl_is_table _ _ L2); [apply mounted_per|].
    + intros pos Hp%(sl_position _ _ L2) E. destruct (decide (node fs1 i1 pos = 0)) as [Z|Z].
      * destruct (decide (c = 0)) as [->|Nc]; [by apply (Nt pos)|]. destruct Hm as [Hm|Ht].
        -- apply (R2 pos); auto; congruence.
        -- assert (U : used fs2 (node fs2 i2 pos)) by (apply F2; auto; congruence). destruct U as [[_ _ Nt2] _]. rewrite E in Nt2.
           apply Nt2. by apply (sl_is_table _ _ L2); [apply mounted_per|].
      * apply (Nt pos); auto. by rewrite <- N2.
Qed.
Lemma same_content_trans fs1 i1 fs2 i2 fs3 i3 : same_layout fs1 fs2 ->
  same_content fs1 i1 fs2 i2 -> same_content fs2 i2 fs3 i3 -> same_content fs1 i1 fs3 i3.
Proof. intros L H1 H2 p Hp. rewrite H2, H1; auto. by rewrite (sl_max _ _ L). Qed.

(** ** Pointers in blocks and inodes *)
Lemma ptr_put b i j v : 0 <= i -> 4 * i + 4 <= zlen b -> is_u32 v -> ptr (put_ptr b i v) j = if decide (j = i) then v else ptr b j.
Proof.
  intros Hi Hl Hv. unfold ptr, put_ptr. destruct (decide (j = i)) as [->|N]; [apply rd32_put32; auto; lia|apply rd32_put32_ne; lia].
Qed.
Lemma iblock_put i n m v : 0 <= n < 14 -> zlen i = 128 -> is_u32 v -> i_block (put_i_block i n v) m = if decide (m = n) then v else i_block i m.
Proof.
  intros Hn Hl Hv. unfold i_block, put_i_block. destruct (decide (m = n)) as [->|N]; [apply rd32_put32; auto; lia|apply rd32_put32_ne; lia].
Qed.
Lemma ptr_zeros n j : ptr (zeros n) j = 0.
Proof. unfold ptr, rd32. by rewrite !rd0_zeros. Qed.
Lemma ptrs_fit fs j : geom fs -> idx_in fs j -> 0 <= j /\ 4 * j + 4 <= fs.(block_size).
Proof. intros G [H1 H2]. pose proof (g_mod _ G). unfold ptrs_per_block in *. lia. Qed.
Lemma used_u32 fs b : mounted fs -> used fs b -> is_u32 b /\ b <> 0.
Proof.
  intros M [[[Hv _] _ _] (g & i & Hg & Hi & -> & _)]. pose proof (sh_number _ (v_shape _ (mo_vol _ M)) BLOCKS g i (or_introl eq_refl) Hg Hi).
  unfold is_u32. pow2. lia.
Qed.

(** ** One more node *)
Lemma snoc_dec (target pos : list Z) : (exists j, target = pos ++ [j]) \/ forall j, target <> pos ++ [j].
Proof.
  destruct (decide (target = pos ++ [List.last target 0])) as [E|N]; [left; eauto|right]. intros j ->. apply N. by rewrite last_last.
Qed.
Section grow.
Context (fs : ext2_fs_t) (inode : list Z) (fs' : ext2_fs_t) (inode' : list Z) (target : list Z) (nb : Z).
Let parent (c : Z) : Prop := exists pos j, target = pos ++ [j] /\ pos <> [] /\ c = node fs inode pos.
Hypothesis M : mounted fs.
Hypothesis F : file fs inode.
Hypothesis P : position fs target.
Hypothesis Hz : node fs inode target = 0.
Hypothesis Hp : forall pos j, target = pos ++ [j] -> pos <> [] -> node fs inode pos <> 0.
Hypothesis T : touch (fun c => c = nb \/ parent c) fs fs'.
Hypothesis U : used fs' nb.
Hypothesis Nm : ~ marked fs nb.
Hypothesis Hnew : blk fs' nb = zeros fs.(block_size).
Hypothesis Hptr : forall pos j, target = pos ++ [j] -> pos <> [] -> blk fs' (node fs inode pos) = put_ptr (blk fs (node fs inode pos)) j nb.
Hypothesis Hi : forall n, 0 <= n < 14 -> i_block inode' n = if decide ([n] = target) then nb else i_block inode n.
Hypothesis Hhead : forall x, x < 40 \/ 96 <= x -> rd0 inode' x = rd0 inode x.
Hypothesis Hl : zlen inode' = 128.
Hypothesis Hb : Forall is_u8 inode'.
Lemma tree_ne_nb pos : position fs pos -> node fs inode pos <> 0 -> node fs inode pos <> nb.
Proof. intros Hpos Hn E. apply Nm. rewrite <- E. by apply F. Qed.
Lemma kept_blk pos : position fs pos -> node fs inode pos <> 0 -> (forall j, target <> pos ++ [j]) ->
  blk fs' (node fs inode pos) = blk fs (node fs inode pos).
Proof.
  intros Hpos Hn N. destruct (f_used _ _ F pos Hpos Hn) as [[Hb1 Hb2 _] _]. apply T; auto. intros [E|(pos' & j & Et & Ne & E)].
  - by apply (tree_ne_nb pos).
  - apply (f_inj _ _ F) in E; auto; [subst; by apply (N j)|]. subst. right. by apply position_app in P as [? _].
Qed.
Lemma grow_node pos : position fs pos -> node fs' inode' pos = if decide (pos = target) then nb else node fs inode pos.
Proof.
  apply node_update; auto.
  - intros pos' j I Hj Hn. pose proof (inner_nonempty _ _ I) as Ne. destruct (snoc_dec target pos') as [[j' E]|N].
    + rewrite (Hptr pos' j') by auto. rewrite E in P. apply position_app in P as [_ Hj']; auto.
      destruct (ptrs_fit fs j' (mounted_geom _ M) Hj') as [? ?]. pose proof (used_u32 fs' nb (to_mounted _ _ _ T) U) as [? _].
      rewrite ptr_put by (auto; rewrite zlen_blk by auto using mounted_geom; lia). subst target.
      destruct (decide (j = j')) as [->|Nj]; [by rewrite decide_True|]. rewrite decide_False; [done|]. intros [_ ?]%app_inj_tail. done.
    + rewrite kept_blk; [|by right|done|done]. rewrite decide_False; [done|]. intros E. by apply (N j).
  - intros j Hj _. rewrite Hnew. apply ptr_zeros.
Qed.
Lemma grow_file : file fs' inode'.
Proof.
  constructor; auto.
  - intros pos Hpos%(sl_position _ _ (to_layout _ _ _ T)). rewrite grow_node by auto. case_decide; [done|]. intros Hn. eapply touch_used; [done|done|by apply F].
  - intros pos pos' H1%(sl_position _ _ (to_layout _ _ _ T)) H2%(sl_position _ _ (to_layout _ _ _ T)). rewrite !grow_node by auto.
    repeat case_decide; subst; auto; intros Hn E.
    + exfalso. apply (tree_ne_nb pos'); auto. congruence.
    + exfalso. by apply (tree_ne_nb pos).
    + by apply (f_inj _ _ F).
Qed.
Lemma grow_evolves : evolves fs inode fs' inode'.
Proof.
  constructor; auto; try apply T; auto using grow_file.
  - intros pos Hpos Hn. rewrite grow_node by auto. case_decide; [subst; done|done].
  - intros pos Hpos Hn. rewrite grow_node by auto. case_decide; done.
  - intros c Hc Nb Hm Nt. apply T; auto. intros [->|(pos & j & Et & Ne & E)].
    + destruct Hm as [Hm|Ht]; [done|]. destruct U as [[_ _ Nt'] _]. apply Nt'. by apply (sl_is_table _ _ (to_layout _ _ _ T)); [apply mounted_per|].
    + apply (Nt pos); auto. subst. right. by apply position_app in P as [? _].
Qed.
Lemma grow_content : same_content fs inode fs' inode'.
Proof.
  intros p Hp'. unfold content. rewrite (sl_bs _ _ (to_layout _ _ _ T)), (sl_path _ _ (to_layout _ _ _ T)).
  pose proof (g_bs _ (mounted_geom _ M)) as Bs. assert (Lf : leaf fs (path_of fs (p / block_size fs))).
  { apply path_leaf; [unfold ptrs_per_block; lia|]. unfold max_size in Hp'. split; [apply Z.div_pos; lia|apply Z.div_lt_upper_bound; lia]. }
  rewrite grow_node by (by left). case_decide as E.
  - rewrite E, Hz. cbn [Z.eqb]. case_if; [done|]. by rewrite Hnew, rd0_zeros.
  - case_if; [done|]. rewrite kept_blk; [done|by left|done|]. intros j Et. rewrite Et in P.
    assert (path_of fs (p / block_size fs) <> []) by (by inversion Lf). apply position_app in P as [I _]; auto. by eapply leaf_inner.
Qed.
End grow.

(** ** The block of an index, allocated when missing *)
(** What one step down the path gives: the tree has the node, or no block is
    free. *)
Definition reached (fs : ext2_fs_t) (inode : list Z) (pos : list Z) (b : Z) (fs' : ext2_fs_t) (inode' : list Z) : Prop :=
  evolves fs inode fs' inode' /\ same_content fs inode fs' inode' /\ b = node fs' inode' pos /\ (b = 0 -> full fs').
Lemma zero_block_ok fs nb : mounted fs -> plain fs nb ->
  touch (fun c => c = nb) fs (zero_block fs nb) /\ blk (zero_block fs nb) nb = zeros fs.(block_size).
Proof.
  intros M [B Nb _]. pose proof (g_bs _ (mounted_geom _ M)).
  destruct (store_touch fs nb (zeros fs.(block_size))) as (fs' & E & T & Hb & _); auto using zeros_bytes; [by rewrite zlen_zeros by lia|].
  unfold zero_block. by rewrite E.
Qed.
Lemma put_i_block_ok inode n v : 0 <= n < 14 -> zlen inode = 128 -> Forall is_u8 inode ->
  zlen (put_i_block inode n v) = 128 /\ Forall is_u8 (put_i_block inode n v) /\
  forall x, x < 40 \/ 96 <= x -> rd0 (put_i_block inode n v) x = rd0 inode x.
Proof.
  intros Hn Hl Hb. unfold put_i_block. split; [rewrite zlen_put32; lia|]. split; [apply put32_bytes; auto; lia|].
  intros x Hx. unfold put32. apply rd0_blit_other; rewrite ?zlen_le32; lia.
Qed.
Lemma reached_here fs inode pos : mounted fs -> file fs inode -> node fs inode pos <> 0 -> reached fs inode pos (node fs inode pos) fs inode.
Proof. intros M F N. split; [by apply evolves_refl|]. by split. Qed.
Lemma reached_full fs inode pos : mounted fs -> file fs inode -> node fs inode pos = 0 -> full fs -> reached fs inode pos 0 fs inode.
Proof. intros M F N Hf. split; [by apply evolves_refl|]. by split. Qed.
Section steps.
Context (fs : ext2_fs_t) (inode : list Z).
Hypothesis M : mounted fs.
Hypothesis F : file fs inode.
Lemma root_position n : 0 <= n < 14 -> position fs [n].
Proof.
  intros Hn. destruct (decide (n < 12)); [left; constructor; lia|]. assert (n = 12 \/ n = 13) as [->| ->] by lia; right; constructor.
Qed.
Lemma inode_ptr_new n nb fs1 : 0 <= n < 14 -> i_block inode n = 0 -> touch (fun _ => False) fs fs1 -> used fs1 nb -> ~ marked fs nb ->
  reached fs inode [n] nb (zero_block fs1 nb) (put_i_block inode n nb).
Proof.
  intros Hn Hz T U Nm. pose proof (to_mounted _ _ _ T) as M1. destruct (used_u32 fs1 nb M1 U) as [U32 Nz].
  destruct (zero_block_ok fs1 nb M1 (us_plain _ _ U)) as [T2 Hb]. rewrite (sl_bs _ _ (to_layout _ _ _ T)) in Hb.
  destruct (put_i_block_ok inode n nb Hn (f_len _ _ F) (f_bytes _ _ F)) as (P1 & P2 & P3).
  pose proof (touch_trans _ _ _ _ _ M T T2) as T3.
  assert (Np : forall pos j, [n] = pos ++ [j] -> pos <> [] -> False) by (intros [|? [|]] j E N; done).
  assert (Hi : forall m, 0 <= m < 14 -> i_block (put_i_block inode n nb) m = if decide ([m] = [n]) then nb else i_block inode m).
  { intros m Hm. rewrite iblock_put by (auto; apply F). destruct (decide (m = n)) as [->|N]; [by rewrite decide_True|]. rewrite decide_False; congruence. }
  assert (Tw : touch (fun c => c = nb \/ exists pos j, [n] = pos ++ [j] /\ pos <> [] /\ c = node fs inode pos) fs (zero_block fs1 nb)).
  { eapply touch_weaken; [|exact T3]. intros c [[]|Hc]. by left. }
  assert (Nd : node (zero_block fs1 nb) (put_i_block inode n nb) [n] = nb) by (cbn; rewrite Hi by lia; by rewrite decide_True).
  assert (Pos := root_position n Hn). assert (U3 : used (zero_block fs1 nb) nb) by (by eapply touch_used). split; [|split; [|split; [done|lia]]].
  - apply (grow_evolves fs inode _ _ [n] nb); auto; intros; exfalso; eauto.
  - apply (grow_content fs inode _ _ [n] nb); auto; intros; exfalso; eauto.
Qed.
Lemma inode_ptr_ok n : 0 <= n < 14 -> exists b fs' inode', inode_ptr fs inode n true = (b, (fs', inode')) /\ reached fs inode [n] b fs' inode'.
Proof.
  intros Hn. unfold inode_ptr. destruct (Z.eqb_spec (i_block inode n) 0) as [Hz|Hz].
  - destruct (alloc_touch fs M) as (nb & fs1 & -> & [(Hneg & -> & Hf)|(Hpos & T & U & Nm)]).
    + rewrite (proj2 (Z.ltb_ge 0 nb)) by lia. do 3 eexists. split; [done|]. by apply reached_full.
    + rewrite (proj2 (Z.ltb_lt 0 nb)) by lia. do 3 eexists. split; [done|]. by apply inode_ptr_new.
  - do 3 eexists. split; [done|]. by apply (reached_here fs inode [n]).
Qed.
Lemma leaf_new pos j nb fs1 : inner fs pos -> idx_in fs j -> node fs inode pos <> 0 -> node fs inode (pos ++ [j]) = 0 ->
  touch (fun _ => False) fs fs1 -> used fs1 nb -> ~ marked fs nb ->
  reached fs inode (pos ++ [j]) nb
    (zero_block (ext2_write_block fs1 (node fs inode pos) (put_ptr (blk fs (node fs inode pos)) j nb)).2 nb) inode.
Proof.
  intros I Hj Hn Hz T U Nm. pose proof (to_mounted _ _ _ T) as M1. destruct (used_u32 fs1 nb M1 U) as [U32 Nz].
  assert (Hpos : position fs pos) by (by right). pose proof (f_used _ _ F pos Hpos Hn) as Up. set (c := node fs inode pos) in *.
  pose proof (touch_used _ _ _ _ M T Up) as Up1. destruct (ptrs_fit fs j (mounted_geom _ M) Hj) as [? ?]. pose proof (mounted_geom _ M) as G.
  destruct (store_touch fs1 c (put_ptr (blk fs c) j nb)) as (fs2 & E2 & T2 & H2 & _); [done|apply Up1..| | |].
  { unfold put_ptr. rewrite zlen_put32, zlen_blk, (sl_bs _ _ (to_layout _ _ _ T)) by (auto; rewrite ?zlen_blk by auto; lia). done. }
  { unfold put_ptr. apply put32_bytes; [rewrite zlen_blk by auto; lia|by apply blk_bytes]. }
  rewrite E2. cbn [snd]. pose proof (to_mounted _ _ _ T2) as M2. pose proof (touch_used _ _ _ _ M1 T2 U) as U2.
  destruct (zero_block_ok fs2 nb M2 (us_plain _ _ U2)) as [T3 H3].
  pose proof (touch_trans _ _ _ _ _ M T T2) as T12. pose proof (touch_trans _ _ _ _ _ M T12 T3) as T13. rewrite (sl_bs _ _ (to_layout _ _ _ T12)) in H3.
  assert (Nc : c <> nb) by (intros E; apply Nm; rewrite <- E; apply Up). set (fs3 := zero_block fs2 nb) in *.
  pose proof (inner_nonempty _ _ I) as Ne. assert (Pos : position fs (pos ++ [j])) by (by apply inner_app).
  assert (Tw : touch (fun c => c = nb \/ exists pos' j', pos ++ [j] = pos' ++ [j'] /\ pos' <> [] /\ c = node fs inode pos') fs fs3).
  { eapply touch_weaken; [|exact T13]. intros c' [[[]| ->]| ->]; [right; by exists pos, j|by left]. }
  assert (Hc : blk fs3 c = put_ptr (blk fs c) j nb).
  { pose proof (touch_used _ _ _ _ M1 T2 Up1) as Up2. rewrite (to_blk _ _ _ T3); [done|apply Up2..|done]. }
  assert (Hp : forall pos' j', pos ++ [j] = pos' ++ [j'] -> pos' <> [] -> node fs inode pos' <> 0) by (intros pos' j' [<- _]%app_inj_tail _; done).
  assert (Hq : forall pos' j', pos ++ [j] = pos' ++ [j'] -> pos' <> [] -> blk fs3 (node fs inode pos') = put_ptr (blk fs (node fs inode pos')) j' nb)
    by (intros pos' j' [<- <-]%app_inj_tail _; done).
  assert (Hi : forall n, 0 <= n < 14 -> i_block inode n = if decide ([n] = pos ++ [j]) then nb else i_block inode n).
  { intros n Hn'. rewrite decide_False; [done|]. intros E%(f_equal length). rewrite length_app in E. destruct pos; [done|]. cbn in E. lia. }
  assert (U3 : used fs3 nb) by (by eapply touch_used).
  assert (Nd : node fs3 inode (pos ++ [j]) = nb).
  { rewrite (grow_node fs inode fs3 inode (pos ++ [j]) nb); auto. by rewrite decide_True. }
  split; [|split; [|split; [done|lia]]].
  - apply (grow_evolves fs inode fs3 inode (pos ++ [j]) nb); auto; apply F.
  - apply (grow_content fs inode fs3 inode (pos ++ [j]) nb); auto; apply F.
Qed.
Lemma leaf_block_ok pos j : inner fs pos -> idx_in fs j -> node fs inode pos <> 0 ->
  exists b fs', leaf_block fs (node fs inode pos) j true = (b, fs') /\ reached fs inode (pos ++ [j]) b fs' inode.
Proof.
  intros I Hj Hn. assert (Hpos : position fs pos) by (by right). pose proof (f_used _ _ F pos Hpos Hn) as Up.
  pose proof (inner_nonempty _ _ I) as Ne. assert (En : node fs inode (pos ++ [j]) = ptr (blk fs (node fs inode pos)) j).
  { rewrite node_app by auto. unfold child. by rewrite (proj2 (Z.eqb_neq _ _) Hn). }
  unfold leaf_block. rewrite read_block_ok by (auto using mounted_geom; apply Up). rewrite <- En, andb_true_r.
  destruct (Z.eqb_spec (node fs inode (pos ++ [j])) 0) as [Hz|Hz].
  - destruct (alloc_touch fs M) as (nb & fs1 & -> & [(Hneg & -> & Hf)|(Hpos' & T & U & Nm)]).
    + rewrite (proj2 (Z.ltb_ge 0 nb)) by lia. do 2 eexists. split; [done|]. by apply reached_full.
    + rewrite (proj2 (Z.ltb_lt 0 nb)) by lia. do 2 eexists. split; [done|]. by apply leaf_new.
  - do 2 eexists. split; [done|]. by apply reached_here.
Qed.
End steps.

Lemma reached_trans fs i pos b fs1 i1 pos2 b2 fs2 i2 : mounted fs ->
  reached fs i pos b fs1 i1 -> reached fs1 i1 pos2 b2 fs2 i2 -> reached fs i pos2 b2 fs2 i2.
Proof.
  intros M (E1 & C1 & _ & _) (E2 & C2 & N2 & F2). split; [by eapply evolves_trans|]. split; [|done].
  eapply same_content_trans; [apply E1|done|done].
Qed.
(** A missing pointer block means that nothing below it is there. *)
Lemma reached_stop fs i pos fs1 i1 js : pos <> [] -> reached fs i pos 0 fs1 i1 -> reached fs i (pos ++ js) 0 fs1 i1.
Proof.
  intros Ne (E1 & C1 & N & F1). split; [done|]. split; [done|]. split; [|done]. destruct pos as [|n pos]; [done|]. cbn in *. rewrite foldl_app, <- N.
  clear. induction js as [|j js IH]; [done|]. cbn [foldl]. unfold child at 2. by rewrite Z.eqb_refl.
Qed.
Lemma ptrs_pos fs : mounted fs -> 0 < ptrs_per_block fs.
Proof. intros M. pose proof (g_bs _ (mounted_geom _ M)). unfold ptrs_per_block. lia. Qed.
(** The limit the code computes in 32 bits. *)
Lemma two_levels fs : mounted fs -> u32 (12 + ptrs_per_block fs + ptrs_per_block fs * ptrs_per_block fs) = max_index fs.
Proof.
  intros M. pose proof (g_bs _ (mounted_geom _ M)). unfold max_index. assert (0 <= ptrs_per_block fs <= 16384) by (unfold ptrs_per_block; lia).
  apply u32_small. widths. nia.
Qed.
Lemma kmalloc_mounted fs n : mounted fs -> kmalloc_ok fs n = true.
Proof. intros M. apply (h_mem _ (g_disk _ (mounted_geom _ M))). Qed.
Lemma get_direct fs inode index : mounted fs -> index < 12 -> ext2_get_block fs inode index true = inode_ptr fs inode index true.
Proof.
  intros M Hx. unfold ext2_get_block, inode_ptr. rewrite (proj2 (Z.ltb_lt _ _)) by done. rewrite andb_true_r.
  destruct (i_block inode index =? 0); [|done]. destruct (alloc_touch fs M) as (nb & fs1 & -> & [(Hneg & -> & Hf)|(Hpos & T & _)]).
  - by rewrite (proj2 (Z.ltb_ge 0 nb)) by lia.
  - by rewrite (proj2 (Z.ltb_lt 0 nb)), kmalloc_mounted by (auto; apply T).
Qed.
(** From a pointer block to the data block. *)
Lemma leaf_then fs i pos b fs1 i1 j : mounted fs -> inner fs pos -> idx_in fs j -> reached fs i pos b fs1 i1 ->
  exists b2 fs2, (if b =? 0 then (0, (fs1, i1)) else let '(b2, fs2) := leaf_block fs1 b j true in (b2, (fs2, i1))) = (b2, (fs2, i1)) /\
    reached fs i (pos ++ [j]) b2 fs2 i1.
Proof.
  intros M I Hj R. destruct (Z.eqb_spec b 0) as [->|Nb].
  - do 2 eexists. split; [done|]. apply reached_stop; [by eapply inner_nonempty|done].
  - pose proof R as ([M1 L1 F1 _ _ _ _ _] & _ & Eb & _).
    destruct (leaf_block_ok fs1 i1 M1 F1 pos j) as (b2 & fs2 & E2 & R2); [by apply (sl_inner _ _ L1)|by apply (sl_idx _ _ L1)|by rewrite <- Eb|].
    rewrite <- Eb in E2. rewrite E2. do 2 eexists. split; [done|]. by eapply reached_trans.
Qed.
(** The middle level of a double indirection is the same step. *)
Lemma second_eq fs first a b : ext2_read_block fs first = Some b ->
  (if ptr b a =? 0 then
     let '(new_second, fs) := ext2_alloc_block fs in
     if 0 <? new_second then (new_second, zero_block (ext2_write_block fs first (put_ptr b a new_second)).2 new_second) else (0, fs)
   else (ptr b a, fs)) = leaf_block fs first a true.
Proof. intros E. unfold leaf_block. rewrite E, andb_true_r. by destruct (ptr b a =? 0). Qed.
Lemma get_block_ok fs inode index : mounted fs -> file fs inode -> 0 <= index < max_index fs ->
  exists b fs' inode', ext2_get_block fs inode index true = (b, (fs', inode')) /\ reached fs inode (path_of fs index) b fs' inode'.
Proof.
  intros M F Hx. pose proof (ptrs_pos fs M) as Pp. pose proof (path_leaf fs index Pp Hx) as Lf. unfold path_of in *. set (p := ptrs_per_block fs) in *.
  destruct (Z.ltb_spec index 12) as [H12|H12].
  { rewrite get_direct by auto. apply inode_ptr_ok; auto. lia. }
  unfold ext2_get_block. fold p. rewrite (proj2 (Z.ltb_ge index 12)) by lia. destruct (Z.ltb_spec index (12 + p)) as [Hp|Hp].
  - inversion Lf; subst. rewrite kmalloc_mounted by auto. cbn [negb]. destruct (inode_ptr_ok fs inode M F 12) as (b & fs1 & i1 & E1 & R1); [lia|].
    rewrite E1. destruct (leaf_then fs inode [12] b fs1 i1 (index - 12)) as (b2 & fs2 & E2 & R2); auto using inner.
    rewrite E2. do 3 eexists. by split.
  - rewrite (two_levels fs M : u32 (12 + p + p * p) = _), (proj2 (Z.ltb_lt _ (max_index fs))) by lia. inversion Lf; subst.
    rewrite kmalloc_mounted by auto. cbn [negb]. destruct (inode_ptr_ok fs inode M F 13) as (b & fs1 & i1 & E1 & R1); [lia|].
    rewrite E1. set (a := (index - 12 - p) / p) in *. set (j := (index - 12 - p) mod p) in *.
    destruct (leaf_then fs inode [13] b fs1 i1 a) as (b2 & fs2 & E2 & R2); auto using inner.
    destruct (leaf_then fs inode [13; a] b2 fs2 i1 j) as (b3 & fs3 & E3 & R3); auto using inner.
    destruct (Z.eqb_spec b 0) as [->|Nb].
    + injection E2 as <- <-. do 3 eexists. split; [exact E3|exact R3].
    + pose proof R1 as ([M1 L1 F1 _ _ _ _ _] & _ & Eb & _).
      assert (Rd : ext2_read_block fs1 b = Some (blk fs1 b)).
      { apply read_block_ok; auto using mounted_geom. subst b. apply (f_used _ _ F1); [|done]. right. constructor. }
      rewrite Rd, (second_eq fs1 b a (blk fs1 b) Rd). destruct (leaf_block fs1 b a true) as [x fsx]. injection E2 as -> ->.
      rewrite E3. do 3 eexists. by split.
Qed.
