(* ===== verification/Ext2Data.v ===== *)
(** Reading and writing the bytes of a file on an ext2 volume. *)
From S2P Require Import Prelude Ext2 Ext2Disk Ext2Alloc Ext2Vol Ext2Inode Ext2File.

(** [data] written over [f] from [off]. *)
Definition overlay (f : Z -> Z) (off : Z) (data : list Z) (p : Z) : Z :=
  if (off <=? p) && (p <? off + zlen data) then rd0 data (p - off) else f p.
Lemma index_of bs i x : 0 < bs -> 0 <= x < bs -> (i * bs + x) / bs = i /\ (i * bs + x) mod bs = x.
Proof. intros H Hx. rewrite Z.add_comm, Z.div_add, Z.mod_add, Z.div_small, Z.mod_small by lia. lia. Qed.
Lemma split_index bs p : 0 < bs -> p = p / bs * bs + p mod bs /\ 0 <= p mod bs < bs.
Proof. intros H. pose proof (Z.div_mod p bs ltac:(lia)). pose proof (Z.mod_pos_bound p bs H). lia. Qed.

(** ** Writing one data block *)
Section store.
Context (fs : ext2_fs_t) (inode : list Z) (index : Z) (buf : list Z).
Hypothesis M : mounted fs.
Hypothesis F : file fs inode.
Hypothesis Hx : 0 <= index < max_index fs.
Let b := node fs inode (path_of fs index).
Hypothesis Hb : b <> 0.
Hypothesis Hl : zlen buf = fs.(block_size).
Hypothesis Hu : Forall is_u8 buf.
Lemma store_leaf : exists fs', ext2_write_block fs b buf = (true, fs') /\ evolves fs inode fs' inode /\
  (forall pos, position fs pos -> node fs' inode pos = node fs inode pos) /\
  (forall g i, free_unit BLOCKS fs' g i -> free_unit BLOCKS fs g i) /\
  forall p, 0 <= p < max_size fs -> content fs' inode p = if p / fs.(block_size) =? index then rd0 buf (p mod fs.(block_size)) else content fs inode p.
Proof.
  pose proof (ptrs_pos fs M) as Pp. pose proof (path_leaf fs index Pp Hx) as Lf. assert (Pb : position fs (path_of fs index)) by (by left).
  pose proof (f_used _ _ F _ Pb Hb) as Ub. destruct (store_touch fs b buf) as (fs' & E & T & Eb & S); auto; [apply Ub..|].
  exists fs'. split; [done|]. pose proof (to_layout _ _ _ T) as L.
  assert (Other : forall pos, position fs pos -> node fs inode pos <> 0 -> pos <> path_of fs index -> blk fs' (node fs inode pos) = blk fs (node fs inode pos)).
  { intros pos Hp Hn N. destruct (f_used _ _ F pos Hp Hn) as [[? ? _] _]. apply T; auto. intros E'. apply N. by apply (f_inj _ _ F). }
  assert (Nd : forall pos, position fs pos -> node fs' inode pos = node fs inode pos).
  { apply node_same; [done|]. intros pos I Hn. apply Other; auto; [by right|]. intros ->. by eapply leaf_inner. }
  split; [|split; [done|split]].
  - constructor; auto; try apply T.
    + constructor; try apply F.
      * intros pos Hp%(sl_position _ _ L). rewrite Nd by auto. intros Hn. eapply touch_used; eauto. by apply F.
      * intros pos pos' H1%(sl_position _ _ L) H2%(sl_position _ _ L). rewrite !Nd by auto. by apply F.
    + intros pos Hp Hz. by rewrite Nd.
    + intros c Hc Nb _ Nt. apply T; auto. intros ->. by apply (Nt (path_of fs index)).
  - intros g i (Hg & Hi & Fr). apply (sl_group _ _ L) in Hg. rewrite (sl_limit _ _ L) in Hi. split; [done|]. split; [done|].
    unfold bits in *. rewrite (sl_bitmap _ _ L) in Fr by (by left || done). rewrite (st_other _ _ _ _ S) in Fr; [done|apply M; [by left|done]|].
    intros E'. destruct Ub as [[_ Nb _] _]. apply Nb. exists BLOCKS, g. split; [by left|done].
  - intros p Hp. unfold content. rewrite (sl_bs _ _ L), (sl_path _ _ L). pose proof (g_bs _ (mounted_geom _ M)) as Bs.
    assert (Lp : leaf fs (path_of fs (p / block_size fs))).
    { apply path_leaf; auto. unfold max_size in Hp. split; [apply Z.div_pos; lia|apply Z.div_lt_upper_bound; lia]. }
    rewrite Nd by (by left). destruct (Z.eqb_spec (p / block_size fs) index) as [->|N].
    + fold b. by rewrite (proj2 (Z.eqb_neq _ _) Hb), Eb.
    + destruct (Z.eqb_spec (node fs inode (path_of fs (p / block_size fs))) 0) as [|Hn]; [done|]. rewrite Other; auto; [by left|].
      intros E'. apply N. by eapply index_path_inj.
Qed.
End store.

(** ** The loop that writes *)
(** What writing a prefix of [data] at [start] makes of a file. *)
Record wrote (fs : ext2_fs_t) (inode : list Z) (start : Z) (data : list Z) (fs' : ext2_fs_t) (inode' : list Z) : Prop := mk_wrote {
  wr_evolves : evolves fs inode fs' inode';
  wr_content p : 0 <= p < max_size fs -> content fs' inode' p = overlay (content fs inode) start data p;
  wr_there p : start <= p < start + zlen data -> node fs' inode' (path_of fs (p / fs.(block_size))) <> 0
}.
Lemma patch_block fs b bo tw data x : geom fs -> 0 <= bo -> bo + tw <= fs.(block_size) -> 0 <= tw <= zlen data ->
  let old := if (0 <? bo) || (tw <? fs.(block_size)) then blk fs b else zeros fs.(block_size) in
  let new := blit old bo (take (Z.to_nat tw) data) in
  zlen new = fs.(block_size) /\ (Forall is_u8 data -> Forall is_u8 new) /\
  (0 <= x < fs.(block_size) -> rd0 new x = if (bo <=? x) && (x <? bo + tw) then rd0 data (x - bo) else rd0 (blk fs b) x).
Proof.
  intros G Hbo Hf Htw old new. pose proof (g_bs _ G). assert (Ho : zlen old = block_size fs).
  { unfold old. destruct (_ || _); [by apply zlen_blk|rewrite zlen_zeros; lia]. }
  assert (Ht : zlen (take (Z.to_nat tw) data) = tw) by (rewrite zlen_take; lia).
  split; [unfold new; rewrite zlen_blit; lia|]. split.
  - intros Hd. apply blit_bytes; [unfold old; destruct (_ || _); [by apply blk_bytes|apply zeros_bytes]|by apply Forall_take].
  - intros Hx. unfold new. rewrite rd0_blit by lia. rewrite Ht. destruct ((bo <=? x) && (x <? bo + tw)) eqn:E; bool_hyps.
    + apply rd0_take. lia.
    + unfold old. destruct ((0 <? bo) || (tw <? block_size fs)) eqn:E2; [done|]. bool_hyps.
      rewrite (proj2 (Z.leb_le _ _)), (proj2 (Z.ltb_lt _ _)) in E by lia. done.
Qed.
Lemma wrote_trans fs inode start d1 d2 fs1 i1 fs2 i2 : mounted fs -> 0 <= start -> start + zlen d1 + zlen d2 <= max_size fs ->
  wrote fs inode start d1 fs1 i1 -> wrote fs1 i1 (start + zlen d1) d2 fs2 i2 -> wrote fs inode start (d1 ++ d2) fs2 i2.
Proof.
  intros M H0 Hm [E1 C1 T1] [E2 C2 T2]. pose proof (ev_layout _ _ _ _ E1) as L1. pose proof (zlen_nonneg d1). pose proof (zlen_nonneg d2).
  pose proof (g_bs _ (mounted_geom _ M)) as Bs. constructor; [by eapply evolves_trans|..].
  - intros p Hp. rewrite C2 by (by rewrite (sl_max _ _ L1)). unfold overlay. rewrite C1 by auto. unfold overlay. rewrite zlen_app, rd0_app.
    destruct (Z.leb_spec (start + zlen d1) p), (Z.ltb_spec p (start + zlen d1 + zlen d2)), (Z.leb_spec start p), (Z.ltb_spec p (start + zlen d1)),
      (Z.ltb_spec p (start + (zlen d1 + zlen d2))); cbn [andb]; try lia; try done;
      (rewrite (proj2 (Z.ltb_lt (p - start) _)) by lia; done) || (rewrite (proj2 (Z.ltb_ge (p - start) _)) by lia; f_equal; lia).
  - intros p Hp. rewrite zlen_app in Hp. destruct (decide (p < start + zlen d1)) as [Hlt|Hge].
    + assert (Lp : leaf fs (path_of fs (p / block_size fs))).
      { apply path_leaf; [by apply ptrs_pos|]. unfold max_size in Hm. split; [apply Z.div_pos; lia|apply Z.div_lt_upper_bound; lia]. }
      rewrite (ev_node _ _ _ _ E2); [apply T1; lia|by left; apply (sl_leaf _ _ L1)|apply T1; lia].
    + rewrite <- (sl_path _ _ L1), <- (sl_bs _ _ L1). apply T2. lia.
Qed.
Lemma overlay_nil f start p : overlay f start [] p = f p.
Proof. unfold overlay. change (zlen (@nil Z)) with 0. destruct (Z.leb_spec start p), (Z.ltb_spec p (start + 0)); cbn [andb]; done || lia. Qed.
Lemma wrote_nil fs inode start : mounted fs -> file fs inode -> wrote fs inode start [] fs inode.
Proof.
  intros M F. constructor; [by apply evolves_refl| |intros p Hp; change (zlen (@nil Z)) with 0 in Hp; lia]. intros p Hp. by rewrite overlay_nil.
Qed.
Lemma reached_nil fs inode pos fs' inode' start b : reached fs inode pos b fs' inode' -> wrote fs inode start [] fs' inode'.
Proof.
  intros (E & C & _). constructor; [done| |intros p Hp; change (zlen (@nil Z)) with 0 in Hp; lia]. intros p Hp. rewrite C by auto. by rewrite overlay_nil.
Qed.
(** One round of the loop. *)
Section round.
Context (fs : ext2_fs_t) (inode : list Z) (bi bo tw : Z) (data : list Z) (fs1 : ext2_fs_t) (i1 : list Z) (b : Z).
Hypothesis M : mounted fs.
Hypothesis Hbi : 0 <= bi < max_index fs.
Hypothesis Hbo : 0 <= bo.
Hypothesis Htw : 0 <= tw <= zlen data.
Hypothesis Hfit : bo + tw <= fs.(block_size).
Hypothesis Hu : Forall is_u8 data.
Hypothesis R : reached fs inode (path_of fs bi) b fs1 i1.
Hypothesis Hb : b <> 0.
Let old := if (0 <? bo) || (tw <? fs1.(block_size)) then match ext2_read_block fs1 b with Some x => x | None => zeros fs1.(block_size) end
           else zeros fs1.(block_size).
Lemma round_ok : exists fs2, ext2_write_block fs1 b (blit old bo (take (Z.to_nat tw) data)) = (true, fs2) /\
  wrote fs inode (bi * fs.(block_size) + bo) (take (Z.to_nat tw) data) fs2 i1 /\
  (full fs1 -> full fs2).
Proof.
  destruct R as (E1 & C1 & Eb & _). pose proof E1 as [M1 L1 F1 _ _ _ _ _]. pose proof (g_bs _ (mounted_geom _ M)) as Bs.
  assert (Hx1 : 0 <= bi < max_index fs1) by (unfold max_index; rewrite (sl_ptrs _ _ L1); exact Hbi).
  assert (Eb1 : b = node fs1 i1 (path_of fs1 bi)) by (by rewrite (sl_path _ _ L1)).
  assert (Rd : ext2_read_block fs1 b = Some (blk fs1 b)).
  { apply read_block_ok; auto using mounted_geom. rewrite Eb1. apply (f_used _ _ F1); [|by rewrite <- Eb1]. left. apply path_leaf; [by apply ptrs_pos|done]. }
  unfold old. rewrite Rd. rewrite (sl_bs _ _ L1).
  pose proof (fun x => patch_block fs1 b bo tw data x (mounted_geom _ M1)) as PB. rewrite (sl_bs _ _ L1) in PB.
  destruct (PB 0 Hbo Hfit Htw) as (Hl & Hy & _). set (new := blit _ _ _) in *.
  destruct (store_leaf fs1 i1 bi new M1 F1 Hx1) as (fs2 & E2 & Ev & Nd & Fr & Ct); [by rewrite <- Eb1|by rewrite (sl_bs _ _ L1)|by apply Hy|].
  rewrite <- Eb1 in E2. exists fs2. split; [done|]. split; [|intros Hf g i Hfree; by apply (Hf g i), Fr].
  rewrite (sl_bs _ _ L1), (sl_max _ _ L1) in Ct. assert (Zt : zlen (take (Z.to_nat tw) data) = tw) by (rewrite zlen_take; lia).
  constructor.
  - by eapply evolves_trans.
  - intros p Hp. rewrite Ct by auto. unfold overlay. rewrite Zt. destruct (split_index (block_size fs) p) as [Es Hm]; [lia|].
    destruct (Z.eqb_spec (p / block_size fs) bi) as [<-|N].
    + destruct (PB (p mod block_size fs) Hbo Hfit Htw) as (_ & _ & Rn). fold new in Rn. rewrite Rn by lia.
      assert (Ec : rd0 (blk fs1 b) (p mod block_size fs) = content fs inode p).
      { rewrite <- C1 by auto. unfold content. rewrite (sl_bs _ _ L1), (sl_path _ _ L1), <- Eb. by rewrite (proj2 (Z.eqb_neq _ _) Hb). }
      rewrite Ec. destruct (Z.leb_spec bo (p mod block_size fs)), (Z.ltb_spec (p mod block_size fs) (bo + tw)),
        (Z.leb_spec (p / block_size fs * block_size fs + bo) p), (Z.ltb_spec p (p / block_size fs * block_size fs + bo + tw)); cbn [andb]; try lia; try done.
      rewrite rd0_take by lia. f_equal. lia.
    + rewrite C1 by auto. destruct (Z.leb_spec (bi * block_size fs + bo) p), (Z.ltb_spec p (bi * block_size fs + bo + tw)); cbn [andb]; try done.
      exfalso. apply N. nia.
  - intros p Hp. rewrite Zt in Hp. assert (p / block_size fs = bi) as ->.
    { replace p with (bi * block_size fs + (p - bi * block_size fs)) by lia. apply index_of; lia. }
    rewrite Nd; [by rewrite <- Eb|]. apply (sl_position _ _ L1). left. apply path_leaf; [by apply ptrs_pos|done].
Qed.
End round.

Lemma path_in fs p : mounted fs -> 0 <= p < max_size fs -> position fs (path_of fs (p / fs.(block_size))).
Proof.
  intros M Hp. pose proof (g_bs _ (mounted_geom _ M)). left. apply path_leaf; [by apply ptrs_pos|]. unfold max_size in Hp.
  split; [apply Z.div_pos; lia|apply Z.div_lt_upper_bound; lia].
Qed.
(** The loop ends at the end of the data, or at a block that is missing when
    no block is free. *)
Definition missing (fs : ext2_fs_t) (inode : list Z) (p : Z) : Prop := node fs inode (path_of fs (p / fs.(block_size))) = 0.
Inductive loop_end (fs : ext2_fs_t) (inode : list Z) (start : Z) (data : list Z) (fs' : ext2_fs_t) (n : Z) : stop -> Prop :=
| end_done : n = zlen data -> loop_end fs inode start data fs' n STOP_DONE
| end_full : n < zlen data -> full fs' -> missing fs inode (start + n) -> loop_end fs inode start data fs' n STOP_NO_BLOCK.
Lemma evolves_missing fs inode fs' inode' p : mounted fs -> evolves fs inode fs' inode' -> 0 <= p < max_size fs ->
  missing fs' inode' p -> missing fs inode p.
Proof.
  intros M Ev Hp. unfold missing. rewrite (sl_bs _ _ (ev_layout _ _ _ _ Ev)), (sl_path _ _ (ev_layout _ _ _ _ Ev)). intros E.
  destruct (decide (node fs inode (path_of fs (p / block_size fs)) = 0)) as [|N]; [done|]. rewrite (ev_node _ _ _ _ Ev) in E; [done| |done].
  by apply path_in.
Qed.
Lemma take_app_drop n m (l : list Z) : 0 <= n -> 0 <= m -> n + m <= zlen l ->
  take (Z.to_nat n) l ++ take (Z.to_nat m) (drop (Z.to_nat n) l) = take (Z.to_nat (n + m)) l.
Proof. intros Hn Hm Hl. rewrite take_take_drop. f_equal. lia. Qed.
Lemma write_loop_ok fuel fs inode bi bo w data : mounted fs -> file fs inode -> 0 <= bi -> 0 <= bo < fs.(block_size) -> Forall is_u8 data ->
  bi * fs.(block_size) + bo + zlen data <= max_size fs -> bo + zlen data <= Z.of_nat fuel * fs.(block_size) ->
  exists st n fs' inode', write_loop fuel fs inode bi bo w data = ((st, w + n), (fs', inode')) /\ 0 <= n <= zlen data /\
    loop_end fs inode (bi * fs.(block_size) + bo) data fs' n st /\ wrote fs inode (bi * fs.(block_size) + bo) (take (Z.to_nat n) data) fs' inode'.
Proof.
  revert fs inode bi bo w data. induction fuel as [|fuel IH]; intros fs inode bi bo w data M F Hbi Hbo Hu Hmax Hfuel; pose proof (zlen_nonneg data).
  { assert (data = []) as -> by (destruct data; [done|unfold zlen in *; cbn in *; lia]). exists STOP_DONE, 0, fs, inode.
    cbn [write_loop]. rewrite Z.add_0_r. split; [done|]. split; [done|]. split; [by constructor|]. by apply wrote_nil. }
  destruct (decide (data = [])) as [->|Hne].
  { exists STOP_DONE, 0, fs, inode. cbn [write_loop]. rewrite Z.add_0_r. split; [done|]. split; [done|]. split; [by constructor|]. by apply wrote_nil. }
  assert (0 < zlen data) by (destruct data; [done|unfold zlen; cbn; lia]). pose proof (g_bs _ (mounted_geom _ M)) as Bs.
  assert (Hx : 0 <= bi < max_index fs) by (unfold max_size in Hmax; nia).
  destruct (get_block_ok fs inode bi M F Hx) as (b & fs1 & i1 & Eg & R). pose proof R as (Ev1 & _ & _ & Hfull). pose proof (ev_layout _ _ _ _ Ev1) as L1.
  assert (Eq : write_loop (S fuel) fs inode bi bo w data =
    if b =? 0 then ((STOP_NO_BLOCK, w), (fs1, i1))
    else
      let tw := Z.min (fs1.(block_size) - bo) (zlen data) in
      let old := if (0 <? bo) || (tw <? fs1.(block_size)) then match ext2_read_block fs1 b with Some x => x | None => zeros fs1.(block_size) end
                 else zeros fs1.(block_size) in
      let '(ok, fs2) := ext2_write_block fs1 b (blit old bo (take (Z.to_nat tw) data)) in
      if negb ok then ((STOP_WRITE_ERROR, w), (fs2, i1))
      else write_loop fuel fs2 i1 (bi + 1) 0 (w + tw) (drop (Z.to_nat tw) data)).
  { destruct data; [done|]. cbn [write_loop]. by rewrite Eg. }
  rewrite Eq. clear Eq. destruct (Z.eqb_spec b 0) as [->|Nb].
  { exists STOP_NO_BLOCK, 0, fs1, i1. rewrite Z.add_0_r. split; [done|]. split; [lia|]. split; [|by eapply reached_nil].
    constructor; [lia|auto|]. rewrite Z.add_0_r. apply (evolves_missing _ _ fs1 i1); auto; [split; [nia|lia]|]. unfold missing.
    rewrite (sl_bs _ _ L1), (sl_path _ _ L1). destruct (index_of (block_size fs) bi bo) as [-> _]; [lia..|]. symmetry. apply R. }
  cbv zeta. rewrite (sl_bs _ _ L1). set (tw := Z.min (block_size fs - bo) (zlen data)). assert (Htw : 0 < tw <= zlen data /\ bo + tw <= block_size fs) by lia.
  destruct (round_ok fs inode bi bo tw data fs1 i1 b) as (fs2 & E2 & W2 & _); auto; try lia. rewrite (sl_bs _ _ L1) in E2. rewrite E2. cbn [negb].
  pose proof (wr_evolves _ _ _ _ _ _ W2) as Ev2. pose proof (ev_layout _ _ _ _ Ev2) as L2.
  assert (Zd : zlen (drop (Z.to_nat tw) data) = zlen data - tw) by (rewrite zlen_drop; lia).
  assert (Zt : zlen (take (Z.to_nat tw) data) = tw) by (rewrite zlen_take; lia).
  assert (Last : bo + tw = block_size fs \/ tw = zlen data) by lia.
  destruct (decide (tw = zlen data)) as [Et|Et].
  - assert (drop (Z.to_nat tw) data = []) as -> by (apply drop_ge; unfold zlen in Et; lia).
    exists STOP_DONE, tw, fs2, i1. split; [by destruct fuel|]. split; [lia|]. split; [by constructor|done].
  - destruct (IH fs2 i1 (bi + 1) 0 (w + tw) (drop (Z.to_nat tw) data)) as (st & n & fs3 & i3 & E3 & Hn & He & W3).
    + apply Ev2.
    + apply Ev2.
    + lia.
    + rewrite (sl_bs _ _ L2). lia.
    + by apply Forall_drop.
    + rewrite (sl_bs _ _ L2), (sl_max _ _ L2), Zd. lia.
    + rewrite (sl_bs _ _ L2), Zd. lia.
    + rewrite E3. exists st, (tw + n), fs3, i3. split; [by rewrite Z.add_assoc|]. rewrite Zd in Hn. split; [lia|].
      split.
      { inversion He as [En|Hlt Hf Hmi]; subst; constructor; auto; try lia. apply (evolves_missing _ _ fs2 i1); auto; [split; [nia|lia]|].
        rewrite (sl_bs _ _ L2) in Hmi. replace (bi * block_size fs + bo + (tw + n)) with ((bi + 1) * block_size fs + 0 + n) by lia. done. }
      rewrite <- take_app_drop by lia.
      rewrite (sl_bs _ _ L2) in W3. apply (wrote_trans _ _ _ _ _ fs2 i1); auto; [nia|rewrite Zt, zlen_take; lia|].
      rewrite Zt. replace (bi * block_size fs + bo + tw) with ((bi + 1) * block_size fs + 0) by lia. done.
Qed.

(** ** Reading *)
Definition slice (f : Z -> Z) (off : Z) (n : nat) : list Z := (fun k => f (off + Z.of_nat k)) <$> seq 0 n.
Lemma slice_app f off n m : slice f off (n + m) = slice f off n ++ slice f (off + Z.of_nat n) m.
Proof.
  unfold slice. rewrite seq_app, fmap_app. f_equal. replace (0 + n)%nat with (n + 0)%nat by lia. rewrite <- fmap_add_seq, <- list_fmap_compose. apply list_fmap_ext. intros i x _. cbn. f_equal. lia.
Qed.
Lemma slice_ext f g off n : (forall p, off <= p < off + Z.of_nat n -> f p = g p) -> slice f off n = slice g off n.
Proof. intros H. unfold slice. apply list_fmap_ext. intros i x Hx. apply H. apply lookup_seq in Hx. lia. Qed.
(** The pointer blocks of every index inside the size are there. *)
Definition parents (fs : ext2_fs_t) (inode : list Z) (x : Z) : Prop :=
  forall pos j, path_of fs x = pos ++ [j] -> pos <> [] -> node fs inode pos <> 0.
Definition solid (fs : ext2_fs_t) (inode : list Z) : Prop :=
  forall x, 0 <= x < max_index fs -> x * fs.(block_size) < i_size inode -> parents fs inode x.
Record regular (fs : ext2_fs_t) (inode : list Z) : Prop := mk_regular {
  re_file : file fs inode;
  re_solid : solid fs inode;
  re_size : i_size inode <= max_size fs
}.
Lemma parents_of_node fs inode x : node fs inode (path_of fs x) <> 0 -> parents fs inode x.
Proof. intros H pos j E Ne Hz. apply H. rewrite E, node_app by auto. unfold child. by rewrite Hz. Qed.
Section read.
Context (fs : ext2_fs_t) (inode : list Z).
Hypothesis M : mounted fs.
Hypothesis F : file fs inode.
Lemma read_node pos : position fs pos -> node fs inode pos <> 0 -> ext2_read_block fs (node fs inode pos) = Some (blk fs (node fs inode pos)).
Proof. intros Hp Hn. apply read_block_ok; auto using mounted_geom. by apply (f_used _ _ F). Qed.
Lemma data_block_eq x : 0 <= x < max_index fs -> parents fs inode x -> data_block fs inode x = Some (node fs inode (path_of fs x)).
Proof.
  intros Hx Hp. pose proof (ptrs_pos fs M) as Pp. pose proof (path_leaf fs x Pp Hx) as Lf. unfold parents in Hp.
  unfold data_block, path_of in *. set (p := ptrs_per_block fs) in *. destruct (Z.ltb_spec x 12); [done|].
  rewrite kmalloc_mounted by auto. cbn [negb]. destruct (Z.ltb_spec x (12 + p)).
  - assert (N : node fs inode [12] <> 0) by (by apply (Hp [12] (x - 12))). change (i_block inode 12) with (node fs inode [12]).
    rewrite read_node by (auto; right; constructor). cbn. unfold child. cbn in N. by rewrite (proj2 (Z.eqb_neq _ _) N).
  - rewrite (two_levels fs M : u32 (12 + p + p * p) = _), (proj2 (Z.ltb_lt x (max_index fs))) by lia. inversion Lf; subst.
    set (a := (x - 12 - p) / p) in *. set (j := (x - 12 - p) mod p) in *.
    assert (N : node fs inode [13; a] <> 0) by (by apply (Hp [13; a] j)).
    assert (N1 : node fs inode [13] <> 0) by (intros Z; apply N; change (child fs (node fs inode [13]) a = 0); unfold child; by rewrite Z).
    change (i_block inode 13) with (node fs inode [13]). rewrite read_node by (auto; right; constructor).
    assert (E2 : ptr (blk fs (node fs inode [13])) a = node fs inode [13; a]).
    { change (node fs inode [13; a]) with (child fs (node fs inode [13]) a). unfold child. by rewrite (proj2 (Z.eqb_neq _ _) N1). }
    rewrite E2, read_node by (auto; right; by constructor). f_equal.
    change (node fs inode [13; a; j]) with (child fs (node fs inode [13; a]) j). unfold child. by rewrite (proj2 (Z.eqb_neq _ _) N).
Qed.
Lemma chunk_eq x bo n : 0 <= x < max_index fs -> 0 <= bo -> bo + Z.of_nat n <= fs.(block_size) -> parents fs inode x ->
  (if node fs inode (path_of fs x) =? 0 then Some (zeros (Z.of_nat n))
   else match ext2_read_block fs (node fs inode (path_of fs x)) with Some b => Some (bytes_at b bo n) | None => None end)
  = Some (slice (content fs inode) (x * fs.(block_size) + bo) n).
Proof.
  intros Hx Hbo Hf Hp. pose proof (g_bs _ (mounted_geom _ M)) as Bs. pose proof (path_leaf fs x (ptrs_pos fs M) Hx) as Lf.
  assert (Ec : forall k, 0 <= k < Z.of_nat n -> content fs inode (x * block_size fs + bo + k) =
    if node fs inode (path_of fs x) =? 0 then 0 else rd0 (blk fs (node fs inode (path_of fs x))) (bo + k)).
  { intros k Hk. unfold content. replace (x * block_size fs + bo + k) with (x * block_size fs + (bo + k)) by lia.
    destruct (index_of (block_size fs) x (bo + k)) as [-> ->]; lia || done. }
  destruct (Z.eqb_spec (node fs inode (path_of fs x)) 0) as [Hz|Hz].
  - f_equal. unfold zeros. rewrite Nat2Z.id. apply list_eq. intros i. unfold slice. rewrite list_lookup_fmap. destruct (decide (i < n)%nat).
    + rewrite lookup_replicate_2, lookup_seq_lt by lia. cbn. by rewrite Ec by lia.
    + rewrite lookup_ge_None_2, (lookup_ge_None_2 (seq 0 n)) by (rewrite ?length_replicate, ?length_seq; lia). done.
  - rewrite read_node by (auto; by left). f_equal. unfold bytes_at. apply list_fmap_ext. intros i k Hk. apply lookup_seq in Hk. rewrite Ec by lia. done.
Qed.
Lemma read_loop_ok fuel bi bo rem : 0 <= bi -> 0 <= bo < fs.(block_size) -> 0 <= rem -> bi * fs.(block_size) + bo + rem <= max_size fs ->
  bo + rem <= Z.of_nat fuel * fs.(block_size) ->
  (forall x, bi <= x -> x * fs.(block_size) < bi * fs.(block_size) + bo + rem -> parents fs inode x) ->
  read_loop fuel fs inode bi bo rem = Some (slice (content fs inode) (bi * fs.(block_size) + bo) (Z.to_nat rem)).
Proof.
  revert bi bo rem. induction fuel as [|fuel IH]; intros bi bo rem Hbi Hbo Hrem Hmax Hfuel Hp; cbn [read_loop].
  { assert (rem = 0) as -> by lia. done. }
  destruct (Z.leb_spec rem 0); [by replace rem with 0 by lia|]. pose proof (g_bs _ (mounted_geom _ M)) as Bs.
  assert (Hx : 0 <= bi < max_index fs) by (unfold max_size in Hmax; nia). assert (Pb : parents fs inode bi) by (apply Hp; lia).
  rewrite data_block_eq by auto. set (n := Z.min (block_size fs - bo) rem).
  pose proof (chunk_eq bi bo (Z.to_nat n) Hx) as Ch. rewrite Z2Nat.id in Ch by lia. rewrite Ch by (auto; lia). clear Ch.
  destruct (decide (rem = n)) as [En|Nn].
  - replace (rem - n) with 0 by lia. assert (read_loop fuel fs inode (bi + 1) 0 0 = Some []) as -> by (by destruct fuel).
    by rewrite app_nil_r, En.
  - assert (bo + n = block_size fs) by lia. rewrite IH; try lia; [|intros x H1 H2; apply Hp; lia].
    replace (Z.to_nat rem) with (Z.to_nat n + Z.to_nat (rem - n))%nat by lia. rewrite slice_app. do 3 f_equal. lia.
Qed.
Lemma read_data_ok off size : regular fs inode -> 0 <= off -> 0 <= size -> off + size < 2 ^ 32 ->
  ext2_read_inode_data fs inode off size = Some (slice (content fs inode) off (Z.to_nat (Z.min size (i_size inode - off)))).
Proof.
  intros R Hoff Hs Hw. unfold ext2_read_inode_data. pose proof (g_bs _ (mounted_geom _ M)) as Bs. pose proof (re_size _ _ R) as Sz.
  destruct (Z.leb_spec (i_size inode) off); [by replace (Z.to_nat _) with 0%nat by lia|].
  rewrite u32_small by (unfold is_u32; lia). assert (Ez : (if i_size inode <? off + size then i_size inode - off else size) = Z.min size (i_size inode - off)) by (case_if; lia). rewrite Ez.
  rewrite kmalloc_mounted by auto. cbn [negb]. set (n := Z.min size (i_size inode - off)).
  destruct (split_index (block_size fs) off) as [Es Hm]; [lia|]. rewrite read_loop_ok; [by rewrite <- Es|apply Z.div_pos; lia|lia..| |].
  - unfold loop_fuel. pose proof (split_index (block_size fs) n). pose proof (Z.div_pos n (block_size fs)). nia.
  - intros x H1 H2. apply (re_solid _ _ R); [|lia]. pose proof (Z.div_pos off (block_size fs)). unfold max_size in Sz. nia.
Qed.
End read.

(** ** Changing the other fields of the inode *)
Record refit (i i' : list Z) : Prop := mk_refit {
  rf_len : zlen i' = 128;
  rf_bytes : Forall is_u8 i';
  rf_block n : 0 <= n < 14 -> i_block i' n = i_block i n
}.
Lemma refit_trans i1 i2 i3 : refit i1 i2 -> refit i2 i3 -> refit i1 i3.
Proof. intros [_ _ H1] [L B H2]. constructor; auto. intros n Hn. by rewrite H2, H1. Qed.
Lemma refit_node fs i i' : refit i i' -> forall pos, position fs pos -> node fs i' pos = node fs i pos.
Proof. intros R. apply node_same; [apply R|done]. Qed.
Lemma refit_file fs i i' : refit i i' -> file fs i -> file fs i'.
Proof.
  intros R F. pose proof (refit_node fs _ _ R) as N. constructor; try apply R.
  - intros pos Hp. rewrite N by auto. by apply F.
  - intros pos pos' H1 H2. rewrite !N by auto. by apply F.
Qed.
Lemma refit_content fs i i' : mounted fs -> refit i i' -> same_content fs i fs i'.
Proof. intros M R p Hp. unfold content. rewrite (refit_node fs _ _ R); [done|by apply path_in]. Qed.
Lemma put_field32 i off v : zlen i = 128 -> Forall is_u8 i -> off = 4 \/ off = 28 -> refit i (put32 i off v).
Proof.
  intros Hl Hb Ho. constructor; [rewrite zlen_put32; lia|apply put32_bytes; auto; lia|].
  intros n Hn. unfold i_block. apply rd32_put32_ne; lia.
Qed.
Lemma grow_refit i s : zlen i = 128 -> Forall is_u8 i -> refit i (grow i s).
Proof. intros Hl Hb. unfold grow. case_if; [apply put_field32; auto|]. by constructor. Qed.
Lemma grow_size i s : zlen i = 128 -> is_u32 s -> i_size (grow i s) = Z.max (i_size i) s.
Proof. intros Hl Hs. unfold grow. case_if; [|lia]. unfold i_size, put_i_size in *. rewrite rd32_put32 by (auto; lia). lia. Qed.

(** ** Storing the inode *)
Lemma save_inode fs inode num : mounted fs -> file fs inode -> inode_in fs num ->
  exists fs', ext2_write_inode fs num inode = (true, fs') /\ mounted fs' /\ same_layout fs fs' /\ file fs' inode /\ same_content fs inode fs' inode /\
    (forall pos, position fs pos -> node fs' inode pos = node fs inode pos) /\ ext2_read_inode fs' num = Some inode /\
    (forall m, inode_in fs m -> m <> num -> ext2_read_inode fs' m = ext2_read_inode fs m) /\
    (forall c, plain fs c -> blk fs' c = blk fs c) /\ (forall c, marked fs c -> marked fs' c) /\ (full fs -> full fs').
Proof.
  intros M F Hn. destruct (write_inode_ok fs M num inode Hn (f_len _ _ F) (f_bytes _ _ F)) as (fs' & E & T & M' & R1 & R2).
  exists fs'. pose proof (stored_layout _ _ _ _ T) as L. assert (Tb : is_table fs (inode_block fs num)) by (by exists num).
  assert (Pl : forall c, plain fs c -> blk fs' c = blk fs c).
  { intros c [Hc _ Nt]. apply T; [apply Hc|]. by intros ->. }
  assert (Bit : forall g, group fs g -> bits BLOCKS fs' g = bits BLOCKS fs g).
  { intros g Hg. unfold bits. rewrite (sl_bitmap _ _ L) by (by left || done). apply T; [apply M; [by left|done]|].
    intros Eb. apply (it_bitmap _ (mo_itable _ M) num Hn). exists BLOCKS, g. split; [by left|done]. }
  assert (Mk : forall c, marked fs c -> marked fs' c).
  { intros c (g & i & Hg & Hi & -> & Fr). exists g, i. rewrite (sl_group _ _ L), (sl_limit _ _ L), (sl_number _ _ L), Bit; auto. }
  assert (Nd : forall pos, position fs pos -> node fs' inode pos = node fs inode pos).
  { apply node_same; [done|]. intros pos I Hn'. apply Pl. apply (f_used _ _ F); [by right|done]. }
  split; [done|]. split; [done|]. split; [done|]. split; [|split; [|split; [done|split; [done|split; [done|split; [done|split; [done|]]]]]]].
  - constructor; try apply F.
    + intros pos Hp%(sl_position _ _ L). rewrite Nd by auto. intros Hz. destruct (f_used _ _ F pos Hp Hz) as [U1 U2].
      constructor; [by apply (sl_plain _ _ L); [apply mounted_per|]|auto].
    + intros pos pos' H1%(sl_position _ _ L) H2%(sl_position _ _ L). rewrite !Nd by auto. by apply F.
  - intros p Hp. unfold content. rewrite (sl_bs _ _ L), (sl_path _ _ L), Nd by (by apply path_in). case_if; [done|].
    rewrite Pl; [done|]. apply (f_used _ _ F); [by apply path_in|done].
  - intros Hf g i (Hg & Hi & Fr). apply (sl_group _ _ L) in Hg. apply (Hf g i). rewrite (sl_limit _ _ L) in Hi. split; [done|]. by rewrite <- Bit.
Qed.

(** ** [ext2_write_inode_data] *)
(** What a write of exactly [data] at [off] makes of the volume. *)
Record write_effect (fs : ext2_fs_t) (inode : list Z) (num off : Z) (data : list Z) (fs' : ext2_fs_t) (inode' : list Z) : Prop := mk_effect {
  we_mounted : mounted fs';
  we_layout : same_layout fs fs';
  we_regular : regular fs' inode';
  we_size : i_size inode' = Z.max (i_size inode) (off + zlen data);
  we_content p : 0 <= p < max_size fs -> content fs' inode' p = overlay (content fs inode) off data p;
  we_there p : off <= p < off + zlen data -> ~ missing fs' inode' p;
  we_disk : ext2_read_inode fs' num = Some inode';
  we_inodes m : inode_in fs m -> m <> num -> ext2_read_inode fs' m = ext2_read_inode fs m;
  we_marked c : marked fs c -> marked fs' c;
  we_other c : used fs c -> (forall pos, position fs pos -> node fs inode pos <> c) -> blk fs' c = blk fs c
}.
Lemma head_size i i' : (forall x, x < 40 \/ 96 <= x -> rd0 i' x = rd0 i x) -> i_size i' = i_size i.
Proof. intros H. apply rd32_at. intros k Hk. apply H. lia. Qed.
Lemma solid_grows fs inode off data fs' inode' s : mounted fs -> solid fs inode -> 0 <= off <= i_size inode -> off + zlen data <= max_size fs ->
  wrote fs inode off data fs' inode' -> s = Z.max (i_size inode) (off + zlen data) ->
  forall x, 0 <= x < max_index fs -> x * fs.(block_size) < s -> parents fs' inode' x.
Proof.
  intros M So Hoff Hm W -> x Hx Hs. pose proof (wr_evolves _ _ _ _ _ _ W) as Ev. pose proof (ev_layout _ _ _ _ Ev) as L.
  pose proof (path_leaf fs x (ptrs_pos fs M) Hx) as Lf. pose proof (g_bs _ (mounted_geom _ M)) as Bs.
  destruct (decide (x * block_size fs < i_size inode)) as [Ho|Ho].
  - intros pos j E Ne. rewrite (sl_path _ _ L) in E. pose proof (So x Hx Ho pos j E Ne) as N. rewrite (ev_node _ _ _ _ Ev); auto.
    rewrite E in Lf. right. by apply (position_app fs pos j); [|left].
  - apply parents_of_node. rewrite (sl_path _ _ L). pose proof (wr_there _ _ _ _ _ _ W (x * block_size fs)) as T.
    rewrite Z.div_mul in T by lia. apply T. lia.
Qed.
Lemma evolves_inodes fs inode fs' inode' m : mounted fs -> file fs inode -> evolves fs inode fs' inode' -> inode_in fs m ->
  ext2_read_inode fs' m = ext2_read_inode fs m.
Proof.
  intros M F Ev Hm. pose proof (ev_layout _ _ _ _ Ev) as L. pose proof (ev_mounted _ _ _ _ Ev) as M'. pose proof (mo_itable _ M) as I.
  rewrite !read_inode_eq by (auto; by apply (sl_inode_in _ _ L)). rewrite (sl_inode_block _ _ L), (sl_inode_offset _ _ L) by (auto using mounted_per).
  rewrite (ev_other _ _ _ _ Ev); [done|by apply I|by apply I|right; by exists m|].
  intros pos Hp E. destruct (decide (node fs inode pos = 0)) as [Hz|Hz].
  - pose proof (gdt_lt_beyond fs _ (v_shape _ (mo_vol _ M)) (it_beyond _ I m Hm)) as G. unfold gdt_block in G. destruct (_ =? _); lia.
  - destruct (f_used _ _ F pos Hp Hz) as [[_ _ Nt] _]. apply Nt. exists m. by split.
Qed.
Lemma write_finish fs inode num off d fs1 i1 i2 : mounted fs -> regular fs inode -> inode_in fs num -> 0 <= off <= i_size inode ->
  off + zlen d <= max_size fs -> wrote fs inode off d fs1 i1 -> refit i1 i2 -> i_size i2 = Z.max (i_size inode) (off + zlen d) ->
  exists fs2, ext2_write_inode fs1 num i2 = (true, fs2) /\ write_effect fs inode num off d fs2 i2 /\ (full fs1 -> full fs2).
Proof.
  intros M R Hn Hoff Hmax W Rf Sz. pose proof (wr_evolves _ _ _ _ _ _ W) as Ev. pose proof (ev_layout _ _ _ _ Ev) as L1. pose proof (ev_mounted _ _ _ _ Ev) as M1.
  pose proof (refit_file fs1 i1 i2 Rf (ev_file _ _ _ _ Ev)) as F2.
  destruct (save_inode fs1 i2 num M1 F2) as (fs2 & E & M2 & L2 & F3 & C2 & N2 & D2 & O2 & P2 & K2 & Fu); [by apply (sl_inode_in _ _ L1)|].
  exists fs2. split; [done|]. split; [|done]. pose proof (same_layout_trans _ _ _ L1 L2) as L.
  assert (Nd : forall pos, position fs pos -> node fs2 i2 pos = node fs1 i1 pos).
  { intros pos Hp. apply (sl_position _ _ L1) in Hp. rewrite N2 by auto. by apply refit_node. }
  constructor; auto.
  - constructor; auto.
    + intros x Hx Hs pos j Ep Ne. rewrite (sl_path _ _ L) in Ep. rewrite (sl_bs _ _ L) in Hs.
      assert (Hx' : 0 <= x < max_index fs) by (unfold max_index in *; by rewrite (sl_ptrs _ _ L) in Hx).
      pose proof (path_leaf fs x (ptrs_pos fs M) Hx') as Lf. rewrite Ep in Lf. destruct (position_app fs pos j Ne (or_introl Lf)) as [I _].
      rewrite Nd by (by right). apply (solid_grows fs inode off d fs1 i1 _ M (re_solid _ _ R) Hoff Hmax W Sz x Hx' Hs pos j); [|done].
      by rewrite (sl_path _ _ L1).
    + rewrite Sz, (sl_max _ _ L). pose proof (re_size _ _ R). lia.
  - intros p Hp. rewrite C2, (refit_content fs1 i1 i2); [|done|done|by rewrite (sl_max _ _ L1)..]. by apply W.
  - intros p Hp. unfold missing. rewrite (sl_bs _ _ L), (sl_path _ _ L), Nd by (apply path_in; auto; lia). by apply W.
  - intros m Hm N. rewrite O2; [|by apply (sl_inode_in _ _ L1)|done]. apply (evolves_inodes _ inode _ i1); auto. apply R.
  - intros c Hc. by apply K2, Ev.
  - intros c [Hc Hm] Nt. rewrite P2; [apply (ev_other _ _ _ _ Ev); auto; apply Hc|]. by apply (sl_plain _ _ L1); [apply mounted_per|].
Qed.
Lemma write_data_ok fs inode num off data : mounted fs -> regular fs inode -> inode_in fs num -> 0 <= off <= i_size inode ->
  Forall is_u8 data -> 0 < zlen data -> off + zlen data <= max_size fs -> off + zlen data < 2 ^ 32 - fs.(block_size) -> i_size inode < 2 ^ 32 - fs.(block_size) ->
  zlen data < 2 ^ 31 -> exists r fs' inode', ext2_write_inode_data fs inode num off data = (r, (fs', inode')) /\
    ((0 < r <= zlen data /\ (r < zlen data -> full fs' /\ missing fs inode (off + r)) /\ write_effect fs inode num off (take (Z.to_nat r) data) fs' inode')
     \/ (r = -1 /\ full fs' /\ missing fs inode off /\ evolves fs inode fs' inode' /\ same_content fs inode fs' inode')).
Proof.
  intros M R Hn Hoff Hu H0 Hmax Hw Hsw H31. pose proof (g_bs _ (mounted_geom _ M)) as Bs. unfold ext2_write_inode_data. rewrite (proj2 (Z.eqb_neq _ _)) by lia.
  rewrite kmalloc_mounted by auto. cbn [negb]. destruct (split_index (block_size fs) off) as [Es Hm]; [lia|].
  destruct (write_loop_ok (loop_fuel fs (zlen data)) fs inode (off / block_size fs) (off mod block_size fs) 0 data) as (st & n & fs1 & i1 & El & Hn' & He & W);
    auto; [apply R|apply Z.div_pos; lia|lia| |].
  { unfold loop_fuel. pose proof (split_index (block_size fs) (zlen data)). pose proof (Z.div_pos (zlen data) (block_size fs)). nia. }
  rewrite <- Es in W. rewrite El, Z.add_0_l. pose proof (wr_evolves _ _ _ _ _ _ W) as Ev. pose proof (ev_file _ _ _ _ Ev) as F1.
  assert (Zt : zlen (take (Z.to_nat n) data) = n) by (rewrite zlen_take; lia).
  assert (Is : i_size i1 = i_size inode) by (apply head_size, Ev). pose proof (rd32_range inode 4 (f_bytes _ _ (re_file _ _ R))) as I32.
  fold (i_size inode) in I32. assert (U : u32 (off + n) = off + n) by (apply u32_small; unfold is_u32; lia).
  assert (Gs : i_size (grow i1 (off + n)) = Z.max (i_size inode) (off + n)).
  { rewrite grow_size, Is; [done|apply F1|unfold is_u32; lia]. }
  assert (Gr : refit i1 (grow i1 (off + n))) by (apply grow_refit; apply F1).
  rewrite <- Es in He. inversion He as [En|Hlt Hf Hmi]; subst st.
  - rewrite U. set (i2 := put_i_blocks _ _). assert (Rf : refit i1 i2).
    { eapply refit_trans; [exact Gr|]. apply put_field32; [apply Gr|apply Gr|by right]. }
    assert (S2 : i_size i2 = Z.max (i_size inode) (off + n)).
    { rewrite <- Gs. unfold i2, i_size, put_i_blocks. apply rd32_put32_ne; [lia| |lia]. rewrite (rf_len _ _ Gr). lia. }
    destruct (write_finish fs inode num off (take (Z.to_nat n) data) fs1 i1 i2) as (fs2 & E2 & We & Fu); auto; rewrite ?Zt; auto; try lia.
    rewrite E2, s32_id by lia. exists n, fs2, i2. split; [done|]. left. split; [lia|]. split; [lia|done].
  - destruct (Z.ltb_spec 0 n) as [Hp|Hp].
    + rewrite U. destruct (write_finish fs inode num off (take (Z.to_nat n) data) fs1 i1 (grow i1 (off + n))) as (fs2 & E2 & We & Fu); auto; rewrite ?Zt; auto; try lia.
      rewrite E2, s32_id by lia. exists n, fs2, (grow i1 (off + n)). split; [done|]. left. split; [lia|]. split; [auto|done].
    + assert (n = 0) as -> by lia. exists (-1), fs1, i1. split; [done|]. right. split; [done|]. split; [done|].
      split; [by rewrite Z.add_0_r in Hmi|]. split; [done|]. intros p Hp'. rewrite (wr_content _ _ _ _ _ _ W) by auto. cbn [take Z.to_nat]. by rewrite overlay_nil.
Qed.

(** ** The volume of two groups *)
Lemma demo_inode n : inode_in Demo.fs n -> inode_block Demo.fs n = if n <=? 8 then 5 else 43.
Proof.
  intros [H1 H2]. cbn in H2. assert (H : n ∈ upto 17) by (apply elem_upto; lia).
  assert (C : forallb (fun n => (n =? 0) || (inode_block Demo.fs n =? if n <=? 8 then 5 else 43)) (upto 17) = true) by (vm_compute; reflexivity).
  apply Is_true_eq_left, forallb_True in C. rewrite list.Forall_forall in C. specialize (C n H). apply Is_true_eq_true in C.
  destruct (Z.eqb_spec n 0); [lia|]. by apply Z.eqb_eq in C.
Qed.
Lemma demo_valid b : 3 <= b <= 100 -> beyond Demo.fs b.
Proof.
  intros Hb. constructor; [split; [lia|change (spb Demo.fs) with 2; lia]|]. intros g Hg.
  destruct (Demo.group_cases g Hg) as [->| ->]; [change (desc_block Demo.fs 0) with 2|change (desc_block Demo.fs 1) with 2]; lia.
Qed.
Lemma demo_bitmaps b : is_bitmap Demo.fs b -> b = 3 \/ b = 4 \/ b = 41 \/ b = 42.
Proof. intros (k & g & [->| ->] & Hg & ->); destruct (Demo.group_cases g Hg) as [->| ->]; vm_compute; auto. Qed.
Lemma demo_itable : itable Demo.fs.
Proof.
  constructor.
  - cbn. lia.
  - intros n Hn. rewrite demo_inode by auto. apply demo_valid. case_if; lia.
  - intros n Hn. rewrite demo_inode by auto. intros H%demo_bitmaps. case_if_in H; lia.
  - intros g Hg. destruct (Demo.group_cases g Hg) as [->| ->]; vm_compute; congruence.
  - intros n m Hn Hm. rewrite !demo_inode by auto. destruct Hn as [? Hn], Hm as [? Hm]. cbn in Hn, Hm |- *. repeat case_if; lia.
Qed.
Lemma demo_mounted : mounted Demo.fs.
Proof.
  constructor; [apply Demo.fs_vol|apply demo_itable|]. intros g i (Hg & Hi & B).
  assert (Hn : unit_number BLOCKS Demo.fs g i = g * 40 + 1 + i) by reflexivity.
  assert (R : (g = 0 /\ 6 <= i < 40) \/ (g = 1 /\ 3 <= i < 30)).
  { destruct (Demo.group_cases g Hg) as [->| ->]; [left|right]; (split; [done|]).
    - change (limit BLOCKS Demo.fs 0) with 40 in Hi. split; [|lia]. destruct (decide (6 <= i)) as [|N]; [done|]. exfalso.
      assert (i = 0 \/ i = 1 \/ i = 2 \/ i = 3 \/ i = 4 \/ i = 5) as D by lia. destruct_or! D; subst; vm_compute in B; discriminate.
    - change (limit BLOCKS Demo.fs 1) with 30 in Hi. split; [|lia]. destruct (decide (3 <= i)) as [|N]; [done|]. exfalso.
      assert (i = 0 \/ i = 1 \/ i = 2) as D by lia. destruct_or! D; subst; vm_compute in B; discriminate. }
  rewrite Hn. constructor.
  - apply demo_valid. lia.
  - intros H%demo_bitmaps. lia.
  - intros (n & Hin & E). rewrite demo_inode in E by auto. case_if_in E; lia.
Qed.
(** A file without data. *)
Lemma empty_regular fs inode : mounted fs -> zlen inode = 128 -> Forall is_u8 inode -> (forall n, 0 <= n < 14 -> i_block inode n = 0) -> i_size inode = 0 ->
  regular fs inode.
Proof.
  intros M Hl Hb Hz Hs. assert (N : forall pos, position fs pos -> node fs inode pos = 0).
  { apply position_ind; [intros n Hn; by apply Hz|]. intros pos j I Hj E. rewrite node_app by (by eapply inner_nonempty). unfold child. by rewrite E. }
  constructor; [constructor; auto| |].
  - intros pos Hp. by rewrite N.
  - intros pos pos' Hp. by rewrite N.
  - intros x Hx Hs'. pose proof (g_bs _ (mounted_geom _ M)). nia.
  - rewrite Hs. unfold max_size, max_index. pose proof (g_bs _ (mounted_geom _ M)). pose proof (ptrs_pos fs M). nia.
Qed.
Lemma new_file_blocks n : 0 <= n < 14 -> i_block new_file_inode n = 0.
Proof.
  intros Hn. assert (H : n ∈ upto 14) by (by apply elem_upto).
  assert (C : forallb (fun n => i_block new_file_inode n =? 0) (upto 14) = true) by (vm_compute; reflexivity).
  apply Is_true_eq_left, forallb_True in C. rewrite list.Forall_forall in C. specialize (C n H). by apply Is_true_eq_true, Z.eqb_eq in C.
Qed.
Lemma new_file_regular fs : mounted fs -> regular fs new_file_inode.
Proof.
  intros M. apply empty_regular; auto using new_file_blocks. apply Demo.bytes_check. vm_compute. reflexivity.
Qed.

(** ** Theorems *)
(** An index whose indirect block is missing: the reader takes its pointer from
    block 0, the boot block, where the function the writer uses answers that
    there is no block. *)
Theorem ext2_hole_reads_boot_block fs inode x : mounted fs -> i_block inode 12 = 0 -> 12 <= x < 12 + ptrs_per_block fs ->
  data_block fs inode x = Some (ptr (blk fs 0) (x - 12)) /\ ext2_get_block fs inode x false = (0, (fs, inode)).
Proof.
  intros M Hz Hx. pose proof (v_shape _ (mo_vol _ M)) as S. pose proof (sh_groups _ S).
  destruct (sh_desc _ S 0) as [D1 D2]; [unfold group; lia|]. assert (V0 : valid fs 0) by (split; [lia|destruct (spb_eq fs (mounted_geom _ M)) as (_ & ? & _); nia]).
  unfold data_block, ext2_get_block, inode_ptr. rewrite (proj2 (Z.ltb_ge x 12)), (proj2 (Z.ltb_lt x _)), kmalloc_mounted, Hz by (auto; lia).
  cbn [negb Z.eqb]. by rewrite read_block_ok by auto using mounted_geom.
Qed.

(** C17. Writing to a file and reading it back: [ext2_write_inode_data], at an
    offset inside the file or at its end, writes a prefix of the buffer that is
    shorter than the buffer only when the next block is missing and the volume
    has no free block left.  After
    it the file has grown to the end of that prefix, and
    [ext2_read_inode_data] at any offset returns the bytes written where they
    were written and the old bytes everywhere else, through direct, indirect
    and doubly indirect blocks; the inode on the disk is the one in memory, the
    other inodes and the blocks of other files keep their bytes, and the volume
    stays consistent.  Only when not a single block could be had it returns
    -1, and then every byte of the file is as before. *)
Theorem ext2_write_read fs inode num off data : mounted fs -> regular fs inode -> inode_in fs num -> 0 <= off <= i_size inode ->
  Forall is_u8 data -> 0 < zlen data -> off + zlen data <= max_size fs ->
  off + zlen data < 2 ^ 32 - fs.(block_size) -> i_size inode < 2 ^ 32 - fs.(block_size) ->
  zlen data < 2 ^ 31 -> exists r fs' inode', ext2_write_inode_data fs inode num off data = (r, (fs', inode')) /\ mounted fs' /\
    (r < zlen data -> full fs' /\ missing fs inode (off + Z.max 0 r)) /\
    ((0 < r <= zlen data /\
      (forall o n, 0 <= o -> 0 <= n -> o + n < 2 ^ 32 ->
         ext2_read_inode_data fs' inode' o n =
         Some (slice (overlay (content fs inode) off (take (Z.to_nat r) data)) o
                 (Z.to_nat (Z.min n (Z.max (i_size inode) (off + r) - o))))) /\
      ext2_read_inode fs' num = Some inode' /\
      (forall m, inode_in fs m -> m <> num -> ext2_read_inode fs' m = ext2_read_inode fs m) /\
      (forall c, used fs c -> (forall pos, position fs pos -> node fs inode pos <> c) -> blk fs' c = blk fs c) /\
      regular fs' inode')
     \/ (r = -1 /\ same_content fs inode fs' inode')).
Proof.
  intros M R Hn Hoff Hu H0 Hmax Hw Hsw H31. destruct (write_data_ok fs inode num off data) as (r & fs' & inode' & E & C); auto.
  exists r, fs', inode'. split; [done|]. destruct C as [(Hr & Hf & W)|(-> & Hf & Hmi & Ev & Sc)].
  - split; [apply W|]. split; [by rewrite Z.max_r by lia|]. left. split; [done|]. split; [|split; [apply W|split; [apply W|split; [apply W|apply W]]]].
    assert (Zt : zlen (take (Z.to_nat r) data) = r) by (rewrite zlen_take; lia). pose proof (we_size _ _ _ _ _ _ _ W) as Sz. rewrite Zt in Sz.
    intros o n Ho Hn' Hon. rewrite read_data_ok; auto; try apply W. rewrite Sz. f_equal. apply slice_ext. intros p Hp. apply W.
    pose proof (re_size _ _ (we_regular _ _ _ _ _ _ _ W)) as Rs. rewrite Sz, (sl_max _ _ (we_layout _ _ _ _ _ _ _ W)) in Rs. lia.
  - split; [apply Ev|]. split; [intros _; rewrite Z.add_0_r; done|]. right. by split.
Qed.
(** Five bytes written into a new file of the small volume. *)
Lemma ext2_write_read_witness :
  let '(r, (fs', inode')) := ext2_write_inode_data Demo.fs new_file_inode 3 0 [1; 2; 3; 4; 5] in
  r = 5 /\ mounted fs' /\ ext2_read_inode_data fs' inode' 2 100 = Some [3; 4; 5].
Proof.
  destruct (ext2_write_read Demo.fs new_file_inode 3 0 [1; 2; 3; 4; 5] demo_mounted (new_file_regular _ demo_mounted)) as (r & fs' & i' & E & M & _ & D).
  - split; [lia|]. vm_compute. congruence.
  - vm_compute. split; congruence.
  - apply Demo.bytes_check. reflexivity.
  - vm_compute. reflexivity.
  - vm_compute. congruence.
  - vm_compute. reflexivity.
  - vm_compute. reflexivity.
  - vm_compute. reflexivity.
  - assert (Er : r = 5).
    { apply (f_equal fst) in E. cbn [fst] in E. rewrite <- E. vm_compute. reflexivity. }
    rewrite E. split; [exact Er|]. split; [exact M|]. destruct D as [(_ & Rd & _)|[Hneg _]]; [|lia].
    rewrite (Rd 2 100) by lia. rewrite Er. f_equal.
Defined.
