(* ===== verification/Ext2Dir.v ===== *)
(** Directories of the ext2 driver: the bytes of a directory as a list of
    entries, and the loops that look up, add and remove one. *)
From S2P Require Import Prelude Ext2 Ext2Disk.

(** ** Entries *)
Record dent := mk_dent { e_inode : Z; e_rec : Z; e_type : Z; e_name : list Z }.
Definition with_rec (e : dent) (r : Z) : dent := mk_dent e.(e_inode) r e.(e_type) e.(e_name).
Definition with_ino (e : dent) (i : Z) : dent := mk_dent i e.(e_rec) e.(e_type) e.(e_name).
Definition room (e : dent) : Z := ext2_dir_entry_size (zlen e.(e_name)).
Record entry_at (d : list Z) (off : Z) (e : dent) : Prop := mk_entry_at {
  ea_inode : de_inode d off = e.(e_inode);
  ea_rec : de_rec_len d off = e.(e_rec);
  ea_len : de_name_len d off = zlen e.(e_name);
  ea_type : de_file_type d off = e.(e_type);
  ea_name : bytes_at d (off + 8) (length e.(e_name)) = e.(e_name)
}.
Record entry_ok (e : dent) : Prop := mk_entry_ok {
  eo_room : room e <= e.(e_rec);
  eo_len : zlen e.(e_name) <= 255
}.
(** The entries from [off] to [off']. *)
Inductive entries (d : list Z) : Z -> list dent -> Z -> Prop :=
| entries_nil off : entries d off [] off
| entries_cons off e es off' : entry_at d off e -> entry_ok e -> entries d (off + e.(e_rec)) es off' -> entries d off (e :: es) off'.
Record directory (d : list Z) (es : list dent) : Prop := mk_directory {
  di_seg : entries d 0 es (zlen d);
  di_bytes : Forall is_u8 d;
  di_size : zlen d < 2 ^ 32
}.
(** The inode of the first entry in use with a name. *)
Definition matches (name : list Z) (e : dent) : bool := negb (e.(e_inode) =? 0) && bool_decide (e.(e_name) = name).
Fixpoint lookup_name (name : list Z) (es : list dent) : option Z :=
  match es with
  | [] => None
  | e :: es => if matches name e then Some e.(e_inode) else lookup_name name es
  end.

Lemma room_ge n : 0 <= n -> 8 + n <= ext2_dir_entry_size n < 8 + n + 4 /\ ext2_dir_entry_size n mod 4 = 0.
Proof. intros H. unfold ext2_dir_entry_size. lia. Qed.
Lemma entry_rec e : entry_ok e -> 8 + zlen e.(e_name) <= e.(e_rec).
Proof. intros [R _]. unfold room in R. pose proof (room_ge (zlen (e_name e)) (zlen_nonneg _)). lia. Qed.
Lemma entries_le d off es off' : entries d off es off' -> off + 8 * zlen es <= off'.
Proof.
  intros H. induction H as [|off e es off' _ Ok _ IH]; [unfold zlen; cbn; lia|]. pose proof (entry_rec e Ok). pose proof (zlen_nonneg (e_name e)).
  unfold zlen in *. cbn [length]. lia.
Qed.
Lemma entries_app d off es1 es2 off' : entries d off (es1 ++ es2) off' <-> exists m, entries d off es1 m /\ entries d m es2 off'.
Proof.
  revert off. induction es1 as [|e es1 IH]; intros off; cbn.
  - split; [intros H; exists off; split; [constructor|done]|]. intros (m & H1 & H2). inversion H1. by subst.
  - split.
    + intros H. inversion H as [|? ? ? ? A O S]; subst. apply IH in S as (m & S1 & S2). exists m. split; [by constructor|done].
    + intros (m & H1 & H2). inversion H1; subst. constructor; auto. apply IH. eauto.
Qed.
Lemma entry_frame d d' off e : 0 <= off -> (forall x, off <= x < off + 8 + zlen e.(e_name) -> rd0 d' x = rd0 d x) -> entry_at d off e -> entry_at d' off e.
Proof.
  intros H0 H [A1 A2 A3 A4 A5]. pose proof (zlen_nonneg (e_name e)). constructor.
  - rewrite <- A1. apply rd32_at. intros. apply H. lia.
  - rewrite <- A2. apply rd16_at. intros. apply H. lia.
  - rewrite <- A3. apply H. lia.
  - rewrite <- A4. apply H. lia.
  - rewrite <- A5 at 2. apply rd0_ext; rewrite !zlen_bytes_at; [done|]. intros i Hi. rewrite !rd0_bytes_at by done. apply H. unfold zlen. lia.
Qed.
Lemma entries_frame d d' off es off' : 0 <= off -> (forall x, off <= x < off' -> rd0 d' x = rd0 d x) -> entries d off es off' -> entries d' off es off'.
Proof.
  intros H0 H S. induction S as [|off e es off' A O S IH]; [constructor|]. pose proof (entry_rec e O). pose proof (entries_le _ _ _ _ S).
  pose proof (zlen_nonneg es). pose proof (zlen_nonneg (e_name e)).
  constructor; [|done|apply IH; [lia|]; intros x Hx; apply H; lia]. apply (entry_frame d); auto. intros x Hx. apply H. lia.
Qed.

(** ** Looking up *)
Lemma strncmp_zero s1 s2 : length s1 = length s2 -> Forall (fun c => c <> 0) s2 -> (strncmp (length s2) s1 s2 =? 0) = bool_decide (s1 = s2).
Proof.
  revert s1. induction s2 as [|b s2 IH]; intros [|a s1] Hl Hz; try discriminate; [done|]. cbn [length strncmp head default tail]. inversion Hz as [|? ? Hb Hz']; subst.
  unfold id.
  destruct (Z.eqb_spec a b) as [->|N].
  - rewrite (proj2 (Z.eqb_neq b 0) Hb). cbn [negb andb]. injection Hl as Hl. rewrite IH by auto.
    destruct (decide (s1 = s2)) as [->|N]; [by rewrite !bool_decide_eq_true_2|]. rewrite !bool_decide_eq_false_2; congruence.
  - rewrite andb_false_r. rewrite bool_decide_eq_false_2 by congruence. apply Z.eqb_neq. lia.
Qed.
Definition plain_name (name : list Z) : Prop := Forall (fun c => c <> 0) name.
Section entry.
Context (d : list Z) (off : Z) (e : dent) (name : list Z).
Hypothesis A : entry_at d off e.
Lemma name_test : (de_name_len d off =? zlen name) && bool_decide (bytes_at d (off + 8) (length name) = name) = bool_decide (e.(e_name) = name).
Proof.
  rewrite (ea_len _ _ _ A). destruct (Z.eqb_spec (zlen (e_name e)) (zlen name)) as [E|N]; cbn [andb].
  - assert (length name = length (e_name e)) as -> by (unfold zlen in E; lia). by rewrite (ea_name _ _ _ A).
  - rewrite bool_decide_eq_false_2; [done|]. intros <-. done.
Qed.
Lemma find_test : plain_name name ->
  negb (de_inode d off =? 0) && (de_name_len d off =? zlen name) && (strncmp (length name) (bytes_at d (off + 8) (length name)) name =? 0) = matches name e.
Proof.
  intros Hn. rewrite strncmp_zero; [|pose proof (zlen_bytes_at d (off + 8) (length name)) as Z; unfold zlen in Z; lia|done].
  rewrite <- andb_assoc, name_test, (ea_inode _ _ _ A). done.
Qed.
Lemma remove_test :
  negb (de_inode d off =? 0) && (de_name_len d off =? zlen name) && bool_decide (bytes_at d (off + 8) (length name) = name) = matches name e.
Proof. rewrite <- andb_assoc, name_test, (ea_inode _ _ _ A). done. Qed.
End entry.
Lemma find_ok fuel d size name off es : entries d off es size -> 0 <= off -> size < 2 ^ 32 -> plain_name name -> (length es < fuel)%nat ->
  finddir_loop fuel d size name off = lookup_name name es.
Proof.
  intros S. revert fuel. induction S as [off|off e es size A O S IH]; intros fuel H0 Hs Hn Hf; (destruct fuel as [|fuel]; [cbn in Hf; lia|]); cbn [finddir_loop lookup_name].
  - by rewrite (proj2 (Z.leb_le _ _)) by lia.
  - pose proof (entry_rec e O). pose proof (entries_le _ _ _ _ S). pose proof (zlen_nonneg es). pose proof (zlen_nonneg (e_name e)).
    rewrite (proj2 (Z.leb_gt _ _)) by lia. rewrite (find_test d off e name A Hn). destruct (matches name e); [by rewrite (ea_inode _ _ _ A)|].
    rewrite (ea_rec _ _ _ A), (proj2 (Z.eqb_neq _ _)), u32_small by (unfold is_u32; lia). apply IH; auto; cbn in Hf; lia.
Qed.

(** ** Changing fields *)
Section put.
Context (d : list Z) (off : Z).
Hypothesis H0 : 0 <= off.
Lemma put_rec_at e r : entry_at d off e -> off + 8 <= zlen d -> is_u16 r -> entry_at (put16 d (off + 4) r) off (with_rec e r).
Proof.
  intros [A1 A2 A3 A4 A5] Hf Hr. constructor; cbn.
  - rewrite <- A1. unfold de_inode. apply rd32_put16_ne; lia.
  - unfold de_rec_len. apply rd16_put16; auto; lia.
  - rewrite <- A3. unfold de_name_len, put16. apply rd0_blit_other; rewrite ?zlen_le16; lia.
  - rewrite <- A4. unfold de_file_type, put16. apply rd0_blit_other; rewrite ?zlen_le16; lia.
  - rewrite <- A5 at 2. unfold put16. apply bytes_at_blit_other; rewrite ?zlen_le16; lia.
Qed.
Lemma put_ino_at e i : entry_at d off e -> off + 8 <= zlen d -> is_u32 i -> entry_at (put32 d off i) off (with_ino e i).
Proof.
  intros [A1 A2 A3 A4 A5] Hf Hi. constructor; cbn.
  - unfold de_inode. apply rd32_put32; auto; lia.
  - rewrite <- A2. unfold de_rec_len. apply rd16_put32_ne; lia.
  - rewrite <- A3. unfold de_name_len, put32. apply rd0_blit_other; rewrite ?zlen_le32; lia.
  - rewrite <- A4. unfold de_file_type, put32. apply rd0_blit_other; rewrite ?zlen_le32; lia.
  - rewrite <- A5 at 2. unfold put32. apply bytes_at_blit_other; rewrite ?zlen_le32; lia.
Qed.
Lemma entry_zlen ino rec ft name : zlen (le32 ino ++ le16 rec ++ [u8 (zlen name); ft] ++ name) = 8 + zlen name.
Proof. rewrite !zlen_app, zlen_le32, zlen_le16. unfold zlen. cbn. lia. Qed.
Lemma put_entry_at_ok ino rec ft name : off + 8 + zlen name <= zlen d -> is_u32 ino -> is_u16 rec -> zlen name <= 255 ->
  entry_at (put_entry d off ino rec ft name) off (mk_dent ino rec ft name).
Proof.
  intros Hf Hi Hr Hn. unfold put_entry. rewrite u16_small by auto. pose proof (entry_zlen ino rec ft name) as Z. pose proof (zlen_nonneg name).
  set (src := le32 ino ++ _) in *.
  assert (B : forall x, 0 <= x < 8 + zlen name -> rd0 (blit d off src) (off + x) = rd0 src x).
  { intros x Hx. rewrite rd0_blit by lia. rewrite (proj2 (Z.leb_le _ _)), (proj2 (Z.ltb_lt _ _)) by lia. cbn [andb]. f_equal. lia. }
  constructor; cbn [e_inode e_rec e_name e_type].
  - unfold de_inode. rewrite <- (rd32_le32 ino Hi). apply (rd32_at src _ 0). intros k Hk. rewrite B by lia. by rewrite Z.add_0_l.
  - unfold de_rec_len. rewrite <- (rd16_le16 rec Hr). apply (rd16_at src _ 4). intros k Hk. rewrite <- Z.add_assoc. apply B. lia.
  - unfold de_name_len. rewrite B by lia. change (rd0 src 6) with (u8 (zlen name)). apply u8_small. unfold is_u8. lia.
  - unfold de_file_type. rewrite B by lia. done.
  - apply rd0_ext; rewrite zlen_bytes_at; [done|]. intros i Hi'. fold (zlen name) in Hi'. rewrite rd0_bytes_at by (unfold zlen in *; lia).
    replace (off + 8 + i) with (off + (8 + i)) by lia. rewrite B by lia. unfold src. rewrite !app_assoc, rd0_app.
    rewrite (proj2 (Z.ltb_ge _ _)) by (unfold zlen; cbn; lia). f_equal. unfold zlen. cbn. lia.
Qed.
Lemma put_entry_other ino rec ft name x : off + 8 + zlen name <= zlen d -> x < off \/ off + 8 + zlen name <= x ->
  rd0 (put_entry d off ino rec ft name) x = rd0 d x.
Proof. intros Hf Hx. unfold put_entry. apply rd0_blit_other; rewrite ?entry_zlen; lia. Qed.
Lemma zlen_put_entry ino rec ft name : off + 8 + zlen name <= zlen d -> zlen (put_entry d off ino rec ft name) = zlen d.
Proof. intros Hf. unfold put_entry. apply zlen_blit; rewrite ?entry_zlen; lia. Qed.
Lemma put_entry_bytes ino rec ft name : Forall is_u8 d -> Forall is_u8 name -> is_u8 ft -> Forall is_u8 (put_entry d off ino rec ft name).
Proof.
  intros Hd Hn Hf. unfold put_entry. apply blit_bytes; auto. apply Forall_app. split; [apply le32_bytes|]. apply Forall_app. split; [apply le16_bytes|].
  constructor; [apply u8_range|]. by constructor.
Qed.
End put.

(** ** Adding *)
Fixpoint add_entry (ino ft : Z) (name : list Z) (es : list dent) : option (list dent) :=
  match es with
  | [] => None
  | e :: es =>
      if ext2_dir_entry_size (zlen name) <=? e.(e_rec) - room e
      then Some (with_rec e (room e) :: mk_dent ino (e.(e_rec) - room e) ft name :: es)
      else match add_entry ino ft name es with Some es' => Some (e :: es') | None => None end
  end.
Record edited (d : list Z) (off : Z) (es' : list dent) (d' : list Z) : Prop := mk_edited {
  ed_seg : entries d' off es' (zlen d);
  ed_len : zlen d' = zlen d;
  ed_bytes : Forall is_u8 d';
  ed_before x : x < off -> rd0 d' x = rd0 d x
}.
Section add.
Context (d : list Z) (ino ft : Z) (name : list Z).
Hypothesis Hd : Forall is_u8 d.
Hypothesis Hsize : zlen d < 2 ^ 32.
Hypothesis Hino : is_u32 ino.
Hypothesis Hft : is_u8 ft.
Hypothesis Hname : Forall is_u8 name.
Hypothesis Hlen : zlen name <= 255.
(** The entry after [e] in the space [e] leaves. *)
Lemma add_here off e es : 0 <= off -> entry_at d off e -> entry_ok e -> entries d (off + e.(e_rec)) es (zlen d) ->
  ext2_dir_entry_size (zlen name) <= e.(e_rec) - room e ->
  edited d off (with_rec e (room e) :: mk_dent ino (e.(e_rec) - room e) ft name :: es)
    (put_entry (put16 d (off + 4) (u16 (room e))) (off + room e) ino (e.(e_rec) - room e) ft name).
Proof.
  intros H0 A O S Hr. pose proof (entries_le _ _ _ _ S). pose proof (zlen_nonneg es). pose proof (zlen_nonneg name). pose proof (zlen_nonneg (e_name e)).
  pose proof (room_ge (zlen (e_name e)) ltac:(lia)) as [R1 _]. fold (room e) in R1. pose proof (room_ge (zlen name) ltac:(lia)) as [R2 _].
  pose proof (rd16_range d (off + 4) Hd) as U. fold (de_rec_len d off) in U. rewrite (ea_rec _ _ _ A) in U. pose proof (eo_len _ O).
  rewrite (u16_small (room e)) by (unfold is_u16 in *; lia). set (d1 := put16 d (off + 4) (room e)).
  assert (Z1 : zlen d1 = zlen d) by (apply zlen_put16; lia).
  assert (A1 : entry_at d1 off (with_rec e (room e))) by (apply put_rec_at; auto; [lia|unfold is_u16 in *; lia]).
  assert (B1 : forall x, x < off + 4 \/ off + 6 <= x -> rd0 d1 x = rd0 d x) by (intros x Hx; apply rd0_blit_other; rewrite ?zlen_le16; lia).
  set (d2 := put_entry d1 _ _ _ _ _). assert (F2 : off + room e + 8 + zlen name <= zlen d1) by lia.
  assert (B2 : forall x, x < off + room e \/ off + room e + 8 + zlen name <= x -> rd0 d2 x = rd0 d1 x) by (intros x Hx; apply put_entry_other; lia).
  constructor.
  - constructor; [|split; cbn; [unfold room; cbn; lia|lia]|].
    + apply (entry_frame d1); auto. intros x Hx. cbn in Hx. apply B2. lia.
    + cbn. constructor; cbn; [apply put_entry_at_ok; auto; [lia|unfold is_u16 in *; lia]|split; cbn; [exact Hr|lia]|].
      replace (off + room e + (e_rec e - room e)) with (off + e_rec e) by lia. apply (entries_frame d); auto; [lia|].
      intros x Hx. rewrite B2, B1 by lia. done.
  - unfold d2. rewrite zlen_put_entry; lia.
  - apply put_entry_bytes; auto. apply put16_bytes; auto. lia.
  - intros x Hx. rewrite B2, B1 by lia. done.
Qed.
Lemma add_ok fuel off es : entries d off es (zlen d) -> 0 <= off -> (length es < fuel)%nat ->
  match add_entry ino ft name es with
  | Some es' => exists d', add_loop fuel d (zlen d) ino ft name off = Some d' /\ edited d off es' d'
  | None => add_loop fuel d (zlen d) ino ft name off = None
  end.
Proof.
  revert fuel off. induction es as [|e es IH]; intros fuel off S H0 Hf; (destruct fuel as [|fuel]; [cbn in Hf; lia|]); cbn [add_loop add_entry]; inversion S as [|? ? ? ? A O S']; subst.
  { by rewrite (proj2 (Z.leb_le _ _)) by lia. }
  pose proof (entries_le _ _ _ _ S'). pose proof (zlen_nonneg es). pose proof (entry_rec e O). pose proof (zlen_nonneg (e_name e)). pose proof (eo_room _ O).
  pose proof (room_ge (zlen (e_name e)) ltac:(lia)) as [R1 _]. fold (room e) in R1.
  rewrite (proj2 (Z.leb_gt (zlen d) off)) by lia. rewrite (ea_rec _ _ _ A), (proj2 (Z.eqb_neq (e_rec e) 0)), (ea_len _ _ _ A) by lia. fold (room e).
  rewrite !u32_small by (unfold is_u32; lia).
  destruct (Z.leb_spec (ext2_dir_entry_size (zlen name)) (e_rec e - room e)) as [Hr|Hr].
  - eexists. split; [reflexivity|]. by apply add_here.
  - specialize (IH fuel (off + e_rec e) S' ltac:(lia) ltac:(cbn in Hf; lia)). destruct (add_entry ino ft name es) as [es'|]; [|done].
    destruct IH as (d' & E & [Sg Le By Be]). exists d'. split; [done|]. constructor; auto; [|intros x Hx; apply Be; lia].
    constructor; auto. apply (entry_frame d); auto. intros x Hx. apply Be. lia.
Qed.
End add.

(** ** Removing *)
Fixpoint remove_after (name : list Z) (p : dent) (es : list dent) : option (Z * list dent) :=
  match es with
  | [] => None
  | e :: es =>
      if matches name e then Some (e.(e_inode), with_rec p (p.(e_rec) + e.(e_rec)) :: es)
      else match remove_after name e es with Some (i, es') => Some (i, p :: es') | None => None end
  end.
Definition remove_entry (name : list Z) (es : list dent) : option (Z * list dent) :=
  match es with
  | [] => None
  | e :: es => if matches name e then Some (e.(e_inode), with_ino e 0 :: es) else remove_after name e es
  end.
Section remove.
Context (d : list Z) (name : list Z).
Hypothesis Hd : Forall is_u8 d.
Hypothesis Hsize : zlen d < 2 ^ 16.
Lemma merge_here off p e es : 0 <= off -> entry_at d off p -> entry_ok p -> entry_ok e -> entries d (off + p.(e_rec) + e.(e_rec)) es (zlen d) ->
  edited d off (with_rec p (p.(e_rec) + e.(e_rec)) :: es) (put16 d (off + 4) (p.(e_rec) + e.(e_rec))).
Proof.
  intros H0 A O O' S. pose proof (entries_le _ _ _ _ S). pose proof (zlen_nonneg es). pose proof (entry_rec p O). pose proof (entry_rec e O').
  pose proof (zlen_nonneg (e_name p)). pose proof (zlen_nonneg (e_name e)). assert (F : off + 4 + 2 <= zlen d) by lia.
  assert (B : forall x, x < off + 4 \/ off + 6 <= x -> rd0 (put16 d (off + 4) (e_rec p + e_rec e)) x = rd0 d x) by (intros x Hx; apply rd0_blit_other; rewrite ?zlen_le16; lia).
  constructor.
  - constructor; [apply put_rec_at; auto; [lia|unfold is_u16; lia]|split; cbn; [destruct O; unfold room in *; cbn; lia|apply O]|].
    cbn. rewrite Z.add_assoc. apply (entries_frame d); auto; [lia|]. intros x Hx. apply B. lia.
  - apply zlen_put16; lia.
  - by apply put16_bytes.
  - intros x Hx. apply B. lia.
Qed.
Lemma drop_here off e es : 0 <= off -> entry_at d off e -> entry_ok e -> entries d (off + e.(e_rec)) es (zlen d) ->
  edited d off (with_ino e 0 :: es) (put32 d off 0).
Proof.
  intros H0 A O S. pose proof (entries_le _ _ _ _ S). pose proof (zlen_nonneg es). pose proof (entry_rec e O). pose proof (zlen_nonneg (e_name e)).
  assert (B : forall x, x < off \/ off + 4 <= x -> rd0 (put32 d off 0) x = rd0 d x) by (intros x Hx; apply rd0_blit_other; rewrite ?zlen_le32; lia).
  constructor.
  - constructor; [apply put_ino_at; auto; [lia|unfold is_u32; lia]|by destruct O|]. cbn. apply (entries_frame d); auto; [lia|]. intros x Hx. apply B. lia.
  - apply zlen_put32; lia.
  - apply put32_bytes; auto; lia.
  - intros x Hx. apply B. lia.
Qed.
(** The loop past its first entry, with the entry before at [poff]. *)
Lemma remove_after_ok fuel poff p es : 0 <= poff -> entry_at d poff p -> entry_ok p -> entries d (poff + p.(e_rec)) es (zlen d) -> (length es < fuel)%nat ->
  match remove_after name p es with
  | Some (i, es') => exists d', remove_loop fuel d (zlen d) name (Some poff) (poff + p.(e_rec)) = Some (s32 i, d') /\ edited d poff es' d'
  | None => remove_loop fuel d (zlen d) name (Some poff) (poff + p.(e_rec)) = None
  end.
Proof.
  revert fuel poff p. induction es as [|e es IH]; intros fuel poff p H0 Ap Op S Hf; (destruct fuel as [|fuel]; [cbn in Hf; lia|]); cbn [remove_loop remove_after]; inversion S as [|? ? ? ? A O S']; subst.
  { by rewrite (proj2 (Z.leb_le _ _)) by lia. }
  pose proof (entries_le _ _ _ _ S'). pose proof (zlen_nonneg es). pose proof (entry_rec e O). pose proof (zlen_nonneg (e_name e)). pose proof (entry_rec p Op). pose proof (zlen_nonneg (e_name p)).
  rewrite (proj2 (Z.leb_gt _ _)) by lia. rewrite (ea_rec _ _ _ A), (proj2 (Z.eqb_neq _ _)) by lia. rewrite (remove_test d _ e name A).
  destruct (matches name e).
  - eexists. split; [rewrite (ea_inode _ _ _ A); reflexivity|]. rewrite (ea_rec _ _ _ Ap), u16_small by (unfold is_u16; lia). by apply merge_here.
  - rewrite u32_small by (unfold is_u32; lia). specialize (IH fuel (poff + e_rec p) e ltac:(lia) A O S' ltac:(cbn in Hf; lia)).
    destruct (remove_after name e es) as [[i es']|]; [|done]. destruct IH as (d' & E & [Sg Le By Be]). exists d'. split; [done|].
    constructor; auto; [|intros x Hx; apply Be; lia]. constructor; auto. apply (entry_frame d); auto. intros x Hx. apply Be. lia.
Qed.
Lemma remove_ok fuel es : entries d 0 es (zlen d) -> (length es < fuel)%nat ->
  match remove_entry name es with
  | Some (i, es') => exists d', remove_loop fuel d (zlen d) name None 0 = Some (s32 i, d') /\ edited d 0 es' d'
  | None => remove_loop fuel d (zlen d) name None 0 = None
  end.
Proof.
  intros S Hf. destruct fuel as [|fuel]; [lia|]. destruct es as [|e es]; cbn [remove_loop remove_entry]; inversion S as [|? ? ? ? A O S']; subst.
  { done. }
  pose proof (entries_le _ _ _ _ S'). pose proof (zlen_nonneg es). pose proof (entry_rec e O). pose proof (zlen_nonneg (e_name e)).
  rewrite (proj2 (Z.leb_gt _ _)) by lia. rewrite (ea_rec _ _ _ A), (proj2 (Z.eqb_neq _ _)) by lia. rewrite (remove_test d _ e name A).
  destruct (matches name e).
  - eexists. split; [rewrite (ea_inode _ _ _ A); reflexivity|]. by apply drop_here.
  - rewrite u32_small by (unfold is_u32; lia). apply remove_after_ok; auto; [lia|cbn in Hf; lia].
Qed.
End remove.

(** ** What the changes mean for names *)
Definition names (es : list dent) : list (list Z) := e_name <$> filter (fun e => e.(e_inode) <> 0) es.
Lemma matches_spec name e : matches name e = true <-> e.(e_inode) <> 0 /\ e.(e_name) = name.
Proof. unfold matches. rewrite andb_true_iff, negb_true_iff, bool_decide_eq_true, Z.eqb_neq. done. Qed.
Lemma lookup_None name es : lookup_name name es = None <-> name ∉ names es.
Proof.
  unfold names. induction es as [|e es IH]; cbn [lookup_name]; [split; [intros _ H; inversion H|done]|].
  destruct (matches name e) eqn:E.
  - apply matches_spec in E as [N <-]. split; [done|]. intros H. exfalso. apply H. rewrite filter_cons_True by done. constructor.
  - rewrite IH. rewrite filter_cons. destruct (decide (e_inode e <> 0)) as [N|N]; [|done]. rewrite fmap_cons, list.not_elem_of_cons.
    split; [|tauto]. intros H. split; [|done]. intros E'. rewrite (proj2 (matches_spec name e)) in E; done.
Qed.
Lemma lookup_with_rec name e r es : lookup_name name (with_rec e r :: es) = lookup_name name (e :: es).
Proof. done. Qed.
Lemma lookup_add ino ft name es es' : add_entry ino ft name es = Some es' -> ino <> 0 -> name ∉ names es ->
  lookup_name name es' = Some ino /\ (forall name', name' <> name -> lookup_name name' es' = lookup_name name' es).
Proof.
  intros Ha Hi Hn. rewrite <- lookup_None in Hn. revert es' Ha. induction es as [|e es IH]; intros es' Ha; cbn [add_entry] in Ha; [done|].
  cbn [lookup_name] in Hn. destruct (matches name e) eqn:Em; [done|]. case_if_in Ha.
  - injection Ha as <-. split.
    + rewrite lookup_with_rec. cbn [lookup_name]. rewrite Em. rewrite (proj2 (matches_spec name (mk_dent _ _ _ _))) by done. done.
    + intros name' N. rewrite lookup_with_rec. cbn [lookup_name]. destruct (matches name' (mk_dent _ _ _ _)) eqn:E; [|done].
      apply matches_spec in E as [_ E]. cbn in E. congruence.
  - destruct (add_entry ino ft name es) as [es1|]; [|done]. injection Ha as <-. destruct (IH Hn es1 eq_refl) as [H1 H2]. cbn [lookup_name]. rewrite Em.
    split; [done|]. intros name' N. by rewrite H2.
Qed.
Lemma names_cons e es : names (e :: es) = if decide (e.(e_inode) <> 0) then e.(e_name) :: names es else names es.
Proof. unfold names. rewrite filter_cons. by destruct (decide _). Qed.
Lemma remove_after_names name p es i es' : remove_after name p es = Some (i, es') -> exists e es1 es2,
  es = es1 ++ e :: es2 /\ matches name e = true /\ (forall x, x ∈ es1 -> matches name x = false) /\ i = e.(e_inode) /\ names es' = names (p :: es1) ++ names es2.
Proof.
  revert p es'. induction es as [|e es IH]; intros p es' H; cbn [remove_after] in H; [done|]. destruct (matches name e) eqn:E.
  - injection H as <- <-. exists e, [], es. split; [done|]. split; [done|]. split; [intros x Hx; inversion Hx|]. split; [done|]. rewrite !names_cons. cbn. by destruct (decide _).
  - destruct (remove_after name e es) as [[i' es'']|] eqn:Er; [|done]. injection H as <- <-. destruct (IH e es'' Er) as (e' & es1 & es2 & -> & M & N & -> & Hn).
    exists e', (e :: es1), es2. split; [done|]. split; [done|]. split; [|split; [done|]].
    + intros x [->|Hx]%list.elem_of_cons; auto.
    + rewrite (names_cons p), (names_cons p), Hn. by destruct (decide _).
Qed.
Lemma names_app es1 es2 : names (es1 ++ es2) = names es1 ++ names es2.
Proof. induction es1 as [|e es1 IH]; [done|]. cbn [app]. rewrite !names_cons, IH. by destruct (decide _). Qed.
Lemma remove_after_lookup name p es i es' : remove_after name p es = Some (i, es') ->
  lookup_name name es = Some i /\ (forall name', name' <> name -> lookup_name name' es' = lookup_name name' (p :: es)).
Proof.
  revert p es'. induction es as [|e es IH]; intros p es' H; cbn [remove_after] in H; [done|]. destruct (matches name e) eqn:E.
  - injection H as <- <-. cbn [lookup_name]. rewrite E. split; [done|]. intros name' N. change (matches name' (with_rec p _)) with (matches name' p).
    destruct (matches name' p); [done|]. destruct (matches name' e) eqn:E'; [|done]. apply matches_spec in E as [_ E], E' as [_ E']. congruence.
  - destruct (remove_after name e es) as [[i' es'']|] eqn:Er; [|done]. injection H as <- <-. destruct (IH e es'' Er) as [H1 H2]. cbn [lookup_name] in *.
    rewrite E. split; [done|]. intros name' N. by rewrite H2.
Qed.
Lemma lookup_remove name es i es' : remove_entry name es = Some (i, es') ->
  lookup_name name es = Some i /\ (forall name', name' <> name -> lookup_name name' es' = lookup_name name' es) /\
  (NoDup (names es) -> lookup_name name es' = None).
Proof.
  destruct es as [|e es]; cbn [remove_entry]; [done|]. destruct (matches name e) eqn:E.
  - intros [= <- <-]. cbn [lookup_name]. rewrite E. pose proof E as [N En]%matches_spec. split; [done|]. split.
    + intros name' Nn. change (matches name' (with_ino e 0)) with false. destruct (matches name' e) eqn:E'; [|done]. apply matches_spec in E' as [_ E']. congruence.
    + intros Nd. change (matches name (with_ino e 0)) with false. apply lookup_None. rewrite names_cons, decide_True in Nd by done.
      apply list.NoDup_cons in Nd as [Nd _]. by rewrite <- En.
  - intros H. destruct (remove_after_lookup name e es i es' H) as [H1 H2]. cbn [lookup_name]. rewrite E. split; [done|]. split; [exact H2|].
    intros Nd. apply lookup_None. destruct (remove_after_names name e es i es' H) as (e' & es1 & es2 & -> & M & _ & _ & ->).
    apply matches_spec in M as [N <-]. rewrite app_comm_cons, names_app, (names_cons e'), decide_True in Nd by done.
    apply list.NoDup_app in Nd as (_ & D & Nd). apply list.NoDup_cons in Nd as [Nd _]. rewrite list.elem_of_app. intros [Hin|Hin]; [|done].
    apply (D (e_name e') Hin). apply list.elem_of_cons. by left.
Qed.
Lemma remove_after_none name p es : remove_after name p es = None -> lookup_name name es = None.
Proof.
  revert p. induction es as [|e es IH]; intros p; cbn [remove_after lookup_name]; [done|]. destruct (matches name e); [done|].
  destruct (remove_after name e es) as [[? ?]|] eqn:E; [done|]. intros _. by eapply IH.
Qed.
Lemma remove_none name es : remove_entry name es = None -> lookup_name name es = None.
Proof. destruct es as [|e es]; cbn [remove_entry lookup_name]; [done|]. destruct (matches name e); [done|]. apply remove_after_none. Qed.
