(* ===== verification/Ext2Ops.v ===== *)
(** The operations of the ext2 driver on directories: looking up, creating a
    file and removing an entry, on a mounted volume. *)
From S2P Require Import Prelude Ext2 Ext2Disk Ext2Alloc Ext2Vol Ext2Inode Ext2File Ext2Data Ext2Dir.

(** ** Changes that leave the files alone *)
Record keep (fs fs' : ext2_fs_t) : Prop := mk_keep {
  ke_mounted : mounted fs';
  ke_layout : same_layout fs fs';
  ke_blk c : used fs c -> blk fs' c = blk fs c;
  ke_marked c : marked fs c -> marked fs' c
}.
Lemma keep_trans fs1 fs2 fs3 : mounted fs1 -> keep fs1 fs2 -> keep fs2 fs3 -> keep fs1 fs3.
Proof.
  intros M [M2 L2 B2 K2] [M3 L3 B3 K3]. constructor; auto; [by eapply same_layout_trans|]. intros c Hc. rewrite B3; [by apply B2|].
  destruct Hc as [Hp Hm]. constructor; [by apply (sl_plain _ _ L2); [apply mounted_per|]|auto].
Qed.
Section keep.
Context (fs fs' : ext2_fs_t) (inode : list Z).
Hypothesis M : mounted fs.
Hypothesis K : keep fs fs'.
Let L := ke_layout _ _ K.
Lemma keep_node : file fs inode -> forall pos, position fs pos -> node fs' inode pos = node fs inode pos.
Proof. intros F. apply node_same; [done|]. intros pos I Hn. apply K. apply (f_used _ _ F); [by right|done]. Qed.
Lemma keep_file : file fs inode -> file fs' inode.
Proof.
  intros F. pose proof (keep_node F) as N. constructor; try apply F.
  - intros pos Hp%(sl_position _ _ L). rewrite N by auto. intros Hz. destruct (f_used _ _ F pos Hp Hz) as [U1 U2].
    constructor; [by apply (sl_plain _ _ L); [apply mounted_per|]|by apply K].
  - intros pos pos' H1%(sl_position _ _ L) H2%(sl_position _ _ L). rewrite !N by auto. by apply F.
Qed.
Lemma keep_regular : regular fs inode -> regular fs' inode.
Proof.
  intros [F So Sz]. constructor; [by apply keep_file| |by rewrite (sl_max _ _ L)]. intros x Hx Hs pos j E Ne.
  rewrite (sl_path _ _ L) in E. rewrite (sl_bs _ _ L) in Hs. assert (Hx' : 0 <= x < max_index fs) by (unfold max_index in *; by rewrite (sl_ptrs _ _ L) in Hx).
  pose proof (path_leaf fs x (ptrs_pos fs M) Hx') as Lf. rewrite E in Lf. destruct (position_app fs pos j Ne (or_introl Lf)) as [I _].
  rewrite keep_node by (auto; by right). by apply (So x Hx' Hs pos j).
Qed.
Lemma keep_content : file fs inode -> same_content fs inode fs' inode.
Proof.
  intros F p Hp. unfold content. rewrite (sl_bs _ _ L), (sl_path _ _ L), keep_node by (auto; by apply path_in). case_if; [done|].
  rewrite (ke_blk _ _ K); [done|]. apply (f_used _ _ F); [by apply path_in|done].
Qed.
Lemma keep_missing p : file fs inode -> 0 <= p < max_size fs -> missing fs' inode p <-> missing fs inode p.
Proof. intros F Hp. unfold missing. rewrite (sl_bs _ _ L), (sl_path _ _ L), keep_node; auto. by apply path_in. Qed.
End keep.
(** Allocating an inode and writing an inode are such changes. *)
Lemma changed_keep fs g i fs' : mounted fs -> group fs g -> changed false INODES g i fs fs' -> keep fs fs'.
Proof.
  intros M Hg C. pose proof (ch_layout _ _ _ _ _ _ C) as L. pose proof (mo_vol _ M) as V.
  assert (Bit : forall h, group fs h -> bits BLOCKS fs' h = bits BLOCKS fs h).
  { intros h Hh. unfold bits. rewrite (sl_bitmap _ _ L) by (by left || done). apply (ch_other _ _ _ _ _ _ C); [apply V; [by left|done]|].
    intros E. apply (sh_bitmap_inj _ (v_shape _ V)) in E as [E _]; auto; [discriminate E|by left|by right]. }
  constructor; auto.
  - constructor; [apply C|by apply (sl_itable fs); [|apply mounted_per|apply M]|]. intros h j (Hh & Hj & Fr). apply (sl_group _ _ L) in Hh.
    rewrite (sl_limit _ _ L) in Hj. rewrite Bit in Fr by auto. rewrite (sl_number _ _ L), (sl_plain _ _ L) by (by apply mounted_per). apply M. by split.
  - intros c [[Hc Nb _] _]. apply (ch_other _ _ _ _ _ _ C); [done|]. intros ->. apply Nb. exists INODES, g. split; [by right|done].
  - intros c (h & j & Hh & Hj & -> & Fr). exists h, j. rewrite (sl_group _ _ L), (sl_limit _ _ L), (sl_number _ _ L), Bit; auto.
Qed.
Lemma write_inode_keep fs n i fs' : mounted fs -> inode_in fs n ->
  stored fs fs' (inode_block fs n) (blit (blk fs (inode_block fs n)) (inode_offset fs n) i) -> mounted fs' -> keep fs fs'.
Proof.
  intros M Hn T M'. pose proof (stored_layout _ _ _ _ T) as L. constructor; auto.
  - intros c [[Hc _ Nt] _]. apply T; [apply Hc|]. intros ->. apply Nt. by exists n.
  - intros c (g & j & Hg & Hj & -> & Fr). exists g, j. rewrite (sl_group _ _ L), (sl_limit _ _ L), (sl_number _ _ L). split; [done|]. split; [done|]. split; [done|].
    unfold bits. rewrite (sl_bitmap _ _ L) by (by left || done). rewrite (st_other _ _ _ _ T); [done|apply M; [by left|done]|].
    intros E. apply (it_bitmap _ (mo_itable _ M) n Hn). exists BLOCKS, g. split; [by left|done].
Qed.

(** ** Directories *)
Definition dir_bytes (fs : ext2_fs_t) (inode : list Z) : list Z := slice (content fs inode) 0 (Z.to_nat (i_size inode)).
Record dir_inode (fs : ext2_fs_t) (inode : list Z) (es : list dent) : Prop := mk_dir_inode {
  dn_regular : regular fs inode;
  dn_dense p : 0 <= p < i_size inode -> ~ missing fs inode p;
  dn_entries : directory (dir_bytes fs inode) es;
  dn_size : 0 < i_size inode < 2 ^ 31
}.
Lemma zlen_slice f off n : zlen (slice f off n) = Z.of_nat n.
Proof. unfold zlen, slice. by rewrite length_fmap, length_seq. Qed.
Lemma zlen_dir_bytes fs inode es : dir_inode fs inode es -> zlen (dir_bytes fs inode) = i_size inode.
Proof. intros D. pose proof (dn_size _ _ _ D). unfold dir_bytes. rewrite zlen_slice. lia. Qed.
Lemma slice_rd0 d n : zlen d = Z.of_nat n -> slice (rd0 d) 0 n = d.
Proof. apply bytes_at_all. Qed.
Lemma keep_dir fs fs' inode es : mounted fs -> keep fs fs' -> dir_inode fs inode es -> dir_inode fs' inode es.
Proof.
  intros M K D. pose proof (dn_size _ _ _ D). pose proof (re_size _ _ (dn_regular _ _ _ D)). pose proof (re_file _ _ (dn_regular _ _ _ D)) as F. constructor.
  - apply (keep_regular fs); auto; apply D.
  - intros p Hp. rewrite (keep_missing fs); auto; [by apply D|lia].
  - assert (dir_bytes fs' inode = dir_bytes fs inode) as ->; [|apply D]. apply slice_ext. intros p Hp. apply (keep_content fs); auto. lia.
  - done.
Qed.
Section dir.
Context (fs : ext2_fs_t) (inode : list Z) (es : list dent).
Hypothesis M : mounted fs.
Hypothesis D : dir_inode fs inode es.
Lemma dir_data_ok : dir_data fs inode = Some (dir_bytes fs inode).
Proof.
  pose proof (dn_size _ _ _ D). pose proof (g_bs _ (mounted_geom _ M)). unfold dir_data. rewrite kmalloc_mounted by auto. cbn [negb].
  unfold read_all. rewrite read_data_ok; auto; try lia; try apply D. replace (Z.min _ _) with (i_size inode) by lia. fold (dir_bytes fs inode).
  rewrite (zlen_dir_bytes fs inode es D), s32_id by lia. by rewrite (proj2 (Z.ltb_ge _ 0)) by lia.
Qed.
Lemma dir_fuel : (length es < walk_fuel inode)%nat.
Proof.
  pose proof (entries_le _ _ _ _ (di_seg _ _ (dn_entries _ _ _ D))) as Le. rewrite (zlen_dir_bytes fs inode es D) in Le. unfold walk_fuel, zlen in *. lia.
Qed.
Lemma finddir_ok node name : is_dir node = true -> node.(nd_inode) = inode -> plain_name name ->
  ext2_vfs_finddir fs node name = match lookup_name name es with Some n => ext2_create_node fs n name | None => None end.
Proof.
  intros Hd Hi Hn. pose proof (dn_size _ _ _ D). unfold ext2_vfs_finddir. rewrite Hd, Hi, dir_data_ok. cbn [negb].
  destruct (dn_entries _ _ _ D) as [S _ Sz]. rewrite (zlen_dir_bytes fs inode es D) in *.
  rewrite (find_ok _ _ _ _ _ es); [done|done|lia|lia|done|apply dir_fuel].
Qed.
(** Writing the changed bytes back. *)
Lemma rewrite_dir num es' d' : inode_in fs num -> edited (dir_bytes fs inode) 0 es' d' ->
  exists fs' inode', ext2_write_inode_data fs inode num 0 d' = (i_size inode, (fs', inode')) /\ mounted fs' /\ same_layout fs fs' /\
    dir_inode fs' inode' es' /\ ext2_read_inode fs' num = Some inode' /\ (forall m, inode_in fs m -> m <> num -> ext2_read_inode fs' m = ext2_read_inode fs m).
Proof.
  intros Hn [Sg Le By _]. pose proof (dn_size _ _ _ D) as Sz. pose proof (re_size _ _ (dn_regular _ _ _ D)) as Mx. rewrite (zlen_dir_bytes fs inode es D) in *.
  pose proof (g_bs _ (mounted_geom _ M)) as Bs.
  destruct (write_data_ok fs inode num 0 d') as (r & fs' & inode' & E & C); auto; try apply D; try lia.
  assert (Er : r = i_size inode /\ write_effect fs inode num 0 d' fs' inode').
  { destruct C as [(Hr & Hf & W)|(-> & _ & Hm & _)]; [|by destruct (dn_dense _ _ _ D 0 ltac:(lia))].
    destruct (decide (r < zlen d')) as [Hlt|Hge]; [destruct (Hf Hlt) as [_ Hm]; destruct (dn_dense _ _ _ D (0 + r) ltac:(lia) Hm)|].
    assert (r = zlen d') as -> by lia. split; [done|]. rewrite take_ge in W by (unfold zlen; lia). done. }
  destruct Er as [-> W]. pose proof (we_size _ _ _ _ _ _ _ W) as Ws. assert (Es : i_size inode' = i_size inode) by lia.
  pose proof (we_layout _ _ _ _ _ _ _ W) as L.
  assert (Ed : dir_bytes fs' inode' = d').
  { unfold dir_bytes. rewrite Es. rewrite (slice_ext _ (rd0 d')); [by apply slice_rd0; lia|]. intros p Hp. rewrite (we_content _ _ _ _ _ _ _ W) by lia.
    unfold overlay. rewrite (proj2 (Z.leb_le _ _)), (proj2 (Z.ltb_lt _ _)) by lia. cbn [andb]. f_equal. lia. }
  exists fs', inode'. split; [done|]. split; [apply W|]. split; [done|]. split; [|split; [apply W|apply W]]. constructor.
  - apply W.
  - intros p Hp Hm. rewrite Es in Hp. apply (we_there _ _ _ _ _ _ _ W p); lia || done.
  - rewrite Ed. constructor; [by rewrite Le|done|lia].
  - by rewrite Es.
Qed.
End dir.

(** ** Adding and removing an entry *)
Record name_ok (name : list Z) : Prop := mk_name_ok {
  no_plain : plain_name name;
  no_bytes : Forall is_u8 name;
  no_len : 0 < zlen name <= 255
}.
(** What a change of the entries of a directory is: the directory now has
    [es'], and no other inode has changed. *)
Record dir_changed (fs : ext2_fs_t) (num : Z) (es' : list dent) (fs' : ext2_fs_t) (inode' : list Z) : Prop := mk_dir_changed {
  dc_mounted : mounted fs';
  dc_layout : same_layout fs fs';
  dc_dir : dir_inode fs' inode' es';
  dc_disk : ext2_read_inode fs' num = Some inode';
  dc_inodes m : inode_in fs m -> m <> num -> ext2_read_inode fs' m = ext2_read_inode fs m
}.
Section change.
Context (fs : ext2_fs_t) (inode : list Z) (es : list dent) (num : Z) (name : list Z).
Hypothesis M : mounted fs.
Hypothesis D : dir_inode fs inode es.
Hypothesis Hn : inode_in fs num.
Hypothesis N : name_ok name.
Lemma add_dir_ok ino ft es' : is_u32 ino -> is_u8 ft -> add_entry ino ft name es = Some es' ->
  exists fs' inode', ext2_add_dir_entry fs inode num ino name ft = (true, (fs', inode')) /\ dir_changed fs num es' fs' inode'.
Proof.
  intros Hi Hf Ea. pose proof (dn_size _ _ _ D) as Sz. pose proof (zlen_dir_bytes fs inode es D) as Zl. destruct (dn_entries _ _ _ D) as [S By _].
  pose proof (g_bs _ (mounted_geom _ M)) as Bs. pose proof (add_ok (dir_bytes fs inode) ino ft name By) as A. rewrite Zl in A.
  specialize (A ltac:(lia) Hi Hf (no_bytes _ N) (proj2 (no_len _ N)) (walk_fuel inode) 0 es). rewrite Zl in S. rewrite Ea in A.
  destruct A as (d' & El & Ed); [done|lia|by apply (dir_fuel fs)|].
  destruct (rewrite_dir fs inode es M D num es' d' Hn Ed) as (fs' & inode' & Ew & M' & L' & D' & R' & O').
  exists fs', inode'. split; [|by constructor]. unfold ext2_add_dir_entry. rewrite (take_ge name) by (pose proof (no_len _ N); unfold zlen in *; lia).
  rewrite (proj2 (Z.ltb_lt 0 _)) by lia. rewrite kmalloc_mounted by auto. cbn [negb].
  pose proof (dir_data_ok fs inode es M D) as Rd. unfold dir_data in Rd. rewrite kmalloc_mounted in Rd by auto. cbn [negb] in Rd. rewrite Rd, El, Ew.
  by rewrite (proj2 (Z.leb_le 0 _)) by lia.
Qed.
Lemma remove_dir_ok i es' : i_size inode < 2 ^ 16 -> 0 <= i < 2 ^ 31 -> remove_entry name es = Some (i, es') ->
  exists fs' inode', ext2_remove_dir_entry fs inode num name = (i, (fs', inode')) /\ dir_changed fs num es' fs' inode'.
Proof.
  intros H16 Hi Er. pose proof (dn_size _ _ _ D) as Sz. pose proof (zlen_dir_bytes fs inode es D) as Zl. destruct (dn_entries _ _ _ D) as [S By _].
  pose proof (remove_ok (dir_bytes fs inode) name By) as A. rewrite Zl in A. specialize (A H16 (walk_fuel inode) es). rewrite Zl in S. rewrite Er in A.
  destruct A as (d' & El & Ed); [done|by apply (dir_fuel fs)|].
  destruct (rewrite_dir fs inode es M D num es' d' Hn Ed) as (fs' & inode' & Ew & M' & L' & D' & R' & O').
  exists fs', inode'. split; [|by constructor]. unfold ext2_remove_dir_entry. pose proof (no_len _ N).
  rewrite (proj2 (Z.ltb_ge 255 _)), (proj2 (Z.eqb_neq (zlen name) 0)) by lia. cbn [orb]. rewrite (proj2 (Z.eqb_neq (i_size inode) 0)) by lia.
  rewrite (dir_data_ok fs inode es) by auto. rewrite El, s32_id by lia.
  rewrite (proj2 (Z.ltb_ge i 0)) by lia. rewrite Ew. by rewrite (proj2 (Z.ltb_ge (i_size inode) 0)) by lia.
Qed.
End change.

(** ** Creating a file *)
Definition file_node (n : Z) (name : list Z) : vfs_node := mk_node name VFS_FILE 0x1A4 0 0 0 0 0 0 n new_file_inode.
Lemma create_node_new fs n name : mounted fs -> zlen name <= 255 -> ext2_read_inode fs n = Some new_file_inode ->
  ext2_create_node fs n name = Some (file_node n name).
Proof.
  intros M Hl R. unfold ext2_create_node. rewrite !kmalloc_mounted by auto. cbn [negb]. rewrite R. rewrite take_ge by (unfold zlen, VFS_MAX_NAME in *; lia). done.
Qed.
Lemma inode_number_in fs g i : mounted fs -> group fs g -> 0 <= i < limit INODES fs g -> inode_in fs (unit_number INODES fs g i).
Proof.
  intros M [Hg0 Hg1] Hi. pose proof (mounted_per _ M). unfold limit in Hi. cbn in Hi. unfold unit_number, inode_in. cbn [k_bitmap INODES Z.eqb]. nia.
Qed.
Lemma create_ok fs parent name es es' g i : mounted fs -> is_dir parent = true -> dir_inode fs parent.(nd_inode) es ->
  inode_in fs parent.(nd_inode_num) -> name_ok name -> lookup_name name es = None -> lowest_free INODES fs g i ->
  unit_number INODES fs g i <> parent.(nd_inode_num) -> add_entry (unit_number INODES fs g i) EXT2_FT_REG_FILE name es = Some es' ->
  exists fs' inode', ext2_vfs_create fs parent name = (true, (fs', with_inode parent inode')) /\
    mounted fs' /\ same_layout fs fs' /\ dir_inode fs' inode' es' /\ ext2_read_inode fs' (unit_number INODES fs g i) = Some new_file_inode /\
    ext2_read_inode fs' parent.(nd_inode_num) = Some inode' /\
    (forall m, inode_in fs m -> m <> unit_number INODES fs g i -> m <> parent.(nd_inode_num) -> ext2_read_inode fs' m = ext2_read_inode fs m).
Proof.
  intros M Hd D Hp N Hl Low Hne Ea. destruct Low as [(Hg & Hi & B) Lo]. pose proof (inode_number_in fs g i M Hg Hi) as Hin.
  unfold ext2_vfs_create. rewrite Hd. cbn [negb]. rewrite (finddir_ok fs (nd_inode parent) es M D parent name Hd eq_refl (no_plain _ N)), Hl.
  pose proof (alloc_unit_ok fs INODES (mo_vol _ M) (or_intror eq_refl)) as A. change (alloc_unit INODES fs) with (ext2_alloc_inode fs) in A.
  destruct (ext2_alloc_inode fs) as [n fs1]. cbn [fst snd] in A. inversion A as [g' i' fs'' [F' Lo'] C En|Nf]; subst; [|by destruct (Nf g i)].
  assert (g' = g /\ i' = i) as [-> ->].
  { assert (Fr : free_unit INODES fs g i) by done. destruct (Lo g' i' F'), (Lo' g i Fr); lia. }
  set (n := unit_number INODES fs g i) in *. pose proof (changed_keep fs g i fs1 M Hg C) as K1. pose proof (ke_mounted _ _ K1) as M1.
  rewrite (proj2 (Z.ltb_ge n 0)) by (destruct Hin; lia). pose proof (ke_layout _ _ K1) as L1.
  destruct (write_inode_ok fs1 M1 n new_file_inode) as (fs2 & E2 & T2 & M2 & R2 & O2);
    [by apply (sl_inode_in _ _ L1)|vm_compute; reflexivity|apply Demo.bytes_check; vm_compute; reflexivity|].
  rewrite E2. cbn [negb]. pose proof (write_inode_keep fs1 n new_file_inode fs2 M1 (proj2 (sl_inode_in _ _ L1 n) Hin) T2 M2) as K2.
  pose proof (keep_trans _ _ _ M K1 K2) as K. pose proof (ke_layout _ _ K) as L.
  destruct (add_dir_ok fs2 (nd_inode parent) es (nd_inode_num parent) name M2 (keep_dir _ _ _ _ M K D) (proj2 (sl_inode_in _ _ L _) Hp) N n EXT2_FT_REG_FILE es')
    as (fs3 & inode' & E3 & [M3 L3 D3 R3 O3]); auto; [|unfold is_u8, EXT2_FT_REG_FILE; lia|].
  { pose proof (sh_number _ (v_shape _ (mo_vol _ M)) INODES g i (or_intror eq_refl) Hg Hi). fold n in H. unfold is_u32. lia. }
  rewrite E3. cbn [negb]. exists fs3, inode'. split; [done|]. split; [done|]. split; [by eapply same_layout_trans|]. split; [done|]. split; [|split; [done|]].
  - rewrite O3; auto. by apply (sl_inode_in _ _ L).
  - intros m Hm N1 N2. rewrite O3, O2; auto; [|by apply (sl_inode_in _ _ L1)|by apply (sl_inode_in _ _ L)].
    rewrite (read_inode_eq fs1 M1), (read_inode_eq fs M) by (auto; by apply (sl_inode_in _ _ L1)).
    rewrite (sl_inode_block _ _ L1), (sl_inode_offset _ _ L1) by (auto; by apply mounted_per). do 2 f_equal.
    apply (ch_other _ _ _ _ _ _ C); [by apply M|]. intros E. apply (it_bitmap _ (mo_itable _ M) m Hm). exists INODES, g. split; [by right|done].
Qed.

(** ** The root directory of the small volume *)
Definition demo_root : vfs_node := mk_node [47] VFS_DIRECTORY 0x1ED 0 0 1024 0 0 0 2 Demo.root_inode.
Definition demo_entries : list dent := [mk_dent 2 12 2 [46]; mk_dent 2 1012 2 [46; 46]].
Lemma demo_root_mounted : ext2_get_root Demo.fs = Some demo_root.
Proof. vm_compute. reflexivity. Qed.
Lemma demo_root_node pos : position Demo.fs pos -> node Demo.fs Demo.root_inode pos = if bool_decide (pos = [0]) then 6 else 0.
Proof.
  revert pos. apply (position_ind Demo.fs (fun pos => node Demo.fs Demo.root_inode pos = if bool_decide (pos = [0]) then 6 else 0)).
  - intros n Hn. assert (H : n ∈ upto 14) by (by apply elem_upto).
    assert (C : forallb (fun n => i_block Demo.root_inode n =? if n =? 0 then 6 else 0) (upto 14) = true) by (vm_compute; reflexivity).
    apply Is_true_eq_left, forallb_True in C. rewrite list.Forall_forall in C. specialize (C n H). apply Is_true_eq_true, Z.eqb_eq in C.
    cbn [node foldl]. rewrite C. destruct (Z.eqb_spec n 0) as [->|Nn]; [done|]. rewrite bool_decide_eq_false_2; congruence.
  - intros p j I Hj E. rewrite node_app, E by (by eapply inner_nonempty). rewrite !bool_decide_eq_false_2; [done|destruct I; discriminate..].
Qed.
Lemma demo_root_used : used Demo.fs 6.
Proof.
  constructor; [constructor|].
  - apply demo_valid. lia.
  - intros H%demo_bitmaps. lia.
  - intros (n & Hn & E). rewrite demo_inode in E by auto. case_if_in E; lia.
  - exists 0, 5. split; [vm_compute; split; congruence|]. split; [vm_compute; split; congruence|]. split; vm_compute; reflexivity.
Qed.
Lemma demo_root_regular : regular Demo.fs Demo.root_inode.
Proof.
  constructor; [constructor|..].
  - vm_compute. reflexivity.
  - apply Demo.bytes_check. vm_compute. reflexivity.
  - intros pos Hp. rewrite demo_root_node by auto. case_bool_decide; [intros _; apply demo_root_used|done].
  - intros pos pos' H1 H2. rewrite !demo_root_node by auto. repeat case_bool_decide; try done. congruence.
  - intros x Hx Hs pos j E Ne. change (i_size Demo.root_inode) with 1024 in Hs. change (block_size Demo.fs) with 1024 in Hs.
    assert (x = 0) as -> by lia. cbn in E. destruct pos as [|? [|]]; [done|discriminate E..].
  - vm_compute. congruence.
Qed.
Lemma demo_root_content p : 0 <= p < 1024 -> content Demo.fs Demo.root_inode p = rd0 (blk Demo.fs 6) p /\ ~ missing Demo.fs Demo.root_inode p.
Proof.
  intros Hp. unfold content, missing. change (block_size Demo.fs) with 1024. rewrite Z.div_small, Z.mod_small by lia.
  change (path_of Demo.fs 0) with [0]. rewrite demo_root_node by (left; constructor; lia). done.
Qed.
Lemma demo_root_dir : dir_inode Demo.fs Demo.root_inode demo_entries.
Proof.
  assert (Eb : dir_bytes Demo.fs Demo.root_inode = Demo.root_dir).
  { unfold dir_bytes. change (Z.to_nat (i_size Demo.root_inode)) with 1024%nat. rewrite (slice_ext _ (rd0 (blk Demo.fs 6))).
    - rewrite slice_rd0 by (vm_compute; reflexivity). vm_compute. reflexivity.
    - intros p Hp. apply demo_root_content. lia. }
  constructor.
  - apply demo_root_regular.
  - intros p Hp. change (i_size Demo.root_inode) with 1024 in Hp. by apply demo_root_content.
  - rewrite Eb. constructor; [|apply Demo.bytes_check; vm_compute; reflexivity|vm_compute; reflexivity].
    change (zlen Demo.root_dir) with 1024. repeat (apply entries_cons; [constructor; vm_compute; reflexivity|constructor; vm_compute; congruence|]). cbn. constructor.
  - change (i_size Demo.root_inode) with 1024. lia.
Qed.

(** ** Theorems *)
(** [ext2_vfs_create] in a directory that has room for the entry and does not
    have the name takes the lowest free inode, and afterwards
    [ext2_vfs_finddir] finds the name: an empty regular file with that inode.
    Every other name is found exactly as before, with the same inode, as long
    as it is not the directory itself; the volume stays consistent, and the
    directory is again one whose entries have names of their own. *)
Theorem ext2_create_then_find fs parent name es es' g i : mounted fs -> is_dir parent = true -> dir_inode fs parent.(nd_inode) es ->
  inode_in fs parent.(nd_inode_num) -> name_ok name -> lookup_name name es = None -> lowest_free INODES fs g i ->
  unit_number INODES fs g i <> parent.(nd_inode_num) -> add_entry (unit_number INODES fs g i) EXT2_FT_REG_FILE name es = Some es' ->
  exists fs' parent', ext2_vfs_create fs parent name = (true, (fs', parent')) /\ mounted fs' /\ dir_inode fs' parent'.(nd_inode) es' /\
    ext2_vfs_finddir fs' parent' name = Some (file_node (unit_number INODES fs g i) name) /\
    (forall name', plain_name name' -> name' <> name ->
       match lookup_name name' es with
       | Some m => inode_in fs m -> m <> unit_number INODES fs g i -> m <> parent.(nd_inode_num) ->
                   ext2_vfs_finddir fs' parent' name' = ext2_vfs_finddir fs parent name'
       | None => ext2_vfs_finddir fs' parent' name' = None
       end).
Proof.
  intros M Hd D Hp N Hl Low Hne Ea. destruct (create_ok fs parent name es es' g i) as (fs' & inode' & E & M' & _ & D' & Rn & _ & Ro); auto.
  exists fs', (with_inode parent inode'). split; [done|]. split; [done|]. split; [done|].
  pose proof (sh_number _ (v_shape _ (mo_vol _ M)) INODES g i (or_intror eq_refl) (proj1 (proj1 Low)) (proj1 (proj2 (proj1 Low)))) as Nz.
  destruct (lookup_add _ _ _ _ _ Ea) as [La Lo]; [lia|by apply lookup_None|].
  pose proof (fun nm => finddir_ok fs' inode' es' M' D' (with_inode parent inode') nm Hd eq_refl) as F'.
  pose proof (fun nm => finddir_ok fs (nd_inode parent) es M D parent nm Hd eq_refl) as F. split.
  - rewrite F' by apply N. rewrite La. apply create_node_new; auto. pose proof (no_len _ N). lia.
  - intros name' Hn' Nn. rewrite F', F, Lo by auto. destruct (lookup_name name' es) as [m|]; [|done]. intros Hm N1 N2.
    unfold ext2_create_node. rewrite !kmalloc_mounted by auto. cbn [negb]. by rewrite Ro.
Qed.
Definition demo_name : list Z := [97; 46; 99].
Lemma demo_name_ok : name_ok demo_name.
Proof. constructor; [repeat constructor; lia|apply Demo.bytes_check; reflexivity|vm_compute; split; congruence]. Qed.
Lemma demo_lowest_inode : lowest_free INODES Demo.fs 0 2.
Proof.
  pose proof (alloc_unit_ok Demo.fs INODES Demo.fs_vol (or_intror eq_refl)) as A.
  assert (E : (alloc_unit INODES Demo.fs).1 = 3) by (vm_compute; reflexivity). rewrite E in A. inversion A as [g i fs' Lo C En|]; subst.
  pose proof Lo as [(Hg & Hi & _) _]. change (unit_number INODES Demo.fs g i) with (g * 8 + i + 1) in En.
  change (limit INODES Demo.fs g) with 8 in Hi. destruct (Demo.group_cases g Hg) as [->| ->]; [|lia]. assert (i = 2) as -> by lia. done.
Qed.
Lemma ext2_create_then_find_witness : exists fs' parent',
  ext2_vfs_create Demo.fs demo_root demo_name = (true, (fs', parent')) /\ ext2_vfs_finddir fs' parent' demo_name = Some (file_node 3 demo_name).
Proof.
  destruct (ext2_create_then_find Demo.fs demo_root demo_name demo_entries
    [mk_dent 2 12 2 [46]; mk_dent 2 12 2 [46; 46]; mk_dent 3 1000 1 demo_name] 0 2 demo_mounted) as (fs' & parent' & E & _ & _ & F & _).
  - reflexivity.
  - apply demo_root_dir.
  - vm_compute. split; congruence.
  - apply demo_name_ok.
  - vm_compute. reflexivity.
  - apply demo_lowest_inode.
  - vm_compute. congruence.
  - vm_compute. reflexivity.
  - exists fs', parent'. split; [exact E|exact F].
Defined.

(** [ext2_remove_dir_entry] on a directory whose names are distinct returns the
    inode of the entry with the name; afterwards the name is not found any
    more, every other name keeps its inode, and volume and directory stay
    consistent. *)
Theorem ext2_remove_then_find fs node name es m : mounted fs -> is_dir node = true -> dir_inode fs node.(nd_inode) es ->
  inode_in fs node.(nd_inode_num) -> name_ok name -> NoDup (names es) -> i_size node.(nd_inode) < 2 ^ 16 ->
  lookup_name name es = Some m -> 0 <= m < 2 ^ 31 ->
  exists fs' inode' es', ext2_remove_dir_entry fs node.(nd_inode) node.(nd_inode_num) name = (m, (fs', inode')) /\
    mounted fs' /\ dir_inode fs' inode' es' /\ ext2_vfs_finddir fs' (with_inode node inode') name = None /\
    (forall name', name' <> name -> lookup_name name' es' = lookup_name name' es).
Proof.
  intros M Hd D Hn N Nd Sz Hl Hm. destruct (remove_entry name es) as [[i es']|] eqn:Er.
  - destruct (lookup_remove _ _ _ _ Er) as (L1 & L2 & L3). assert (i = m) as -> by congruence.
    destruct (remove_dir_ok fs (nd_inode node) es (nd_inode_num node) name M D Hn N m es' Sz Hm Er) as (fs' & inode' & E & [M' _ D' _ _]).
    exists fs', inode', es'. split; [done|]. split; [done|]. split; [done|]. split; [|done].
    rewrite (finddir_ok fs' inode' es' M' D' (with_inode node inode') name Hd eq_refl (no_plain _ N)). by rewrite L3.
  - rewrite remove_none in Hl by done. done.
Qed.
Lemma ext2_remove_then_find_witness : exists fs' inode',
  ext2_remove_dir_entry Demo.fs Demo.root_inode 2 [46; 46] = (2, (fs', inode')) /\ ext2_vfs_finddir fs' (with_inode demo_root inode') [46; 46] = None.
Proof.
  destruct (ext2_remove_then_find Demo.fs demo_root [46; 46] demo_entries 2 demo_mounted) as (fs' & inode' & es' & E & _ & _ & F & _).
  - reflexivity.
  - apply demo_root_dir.
  - vm_compute. split; congruence.
  - constructor; [repeat constructor; lia|apply Demo.bytes_check; reflexivity|vm_compute; split; congruence].
  - apply list.NoDup_cons. split; [intros H; apply list_elem_of_singleton in H; discriminate H|apply list.NoDup_singleton].
  - vm_compute. reflexivity.
  - vm_compute. reflexivity.
  - lia.
  - exists fs', inode'. split; [exact E|exact F].
Defined.
