(* ===== verification/Vfs.v ===== *)
(** The virtual file system layer (src/fs/vfs.c, src/fs/vfs.h): mount points,
    resolution of paths and the operations on paths and nodes.

    What the structures of function pointers in [vfs_filesystem_t] and
    [vfs_node_t] offer is the class [FileSystem]: [F] are the registered
    drivers, [D] the devices, [C] the private context of a mount
    ([fs_specific]), [N] a node with its private data and [E] an entry of a
    directory.  A function that fails by returning [-1] or [NULL] without a
    value returns an option.

    Contexts and nodes live in stores and pointers to them are indices: two
    pointers to one node see the same private data, two nodes of one file have
    private data of their own, and a node points to the context of its mount.
    Nodes are never freed by this layer; the context of a mount is freed when
    it is unmounted, and an operation on a node whose context is gone, which
    in the code reads freed memory, fails here.  Strings are lists of bytes
    without the NUL at the end. *)
From S2P Require Import Prelude.

Definition VFS_DIRECTORY : Z := 2.
Definition VFS_MAX_NAME : Z := 255.
Definition VFS_MAX_PATH : Z := 4096.
Definition VFS_MAX_MOUNTS : Z := 16.
Definition SLASH : Z := 47.

Class FileSystem (F D C N E : Type) := {
  fs_mount : F -> Z -> D -> D * option C;
  fs_unmount : F -> C -> D -> D;
  fs_get_root : F -> C -> D -> option N;
  nd_type : N -> Z;
  nd_size : N -> Z;
  nd_dir_ops : N -> bool;   (** are the pointers of the directory operations set? *)
  nd_finddir : D -> C -> N -> list Z -> option N;
  nd_readdir : D -> C -> N -> Z -> option E;
  nd_create : D -> C -> N -> list Z -> Z * (D * C * N);
  nd_mkdir : D -> C -> N -> list Z -> Z * (D * C * N);
  nd_unlink : D -> C -> N -> list Z -> Z * (D * C * N);
  nd_open : N -> Z -> Z;
  nd_read : D -> C -> N -> Z -> Z -> option (list Z);
  nd_write : D -> C -> N -> Z -> list Z -> Z * (D * C * N);
  ent_name : E -> list Z;
  ent_type : E -> Z
}.

Section vfs.
Context {F D C N E : Type} `{FileSystem F D C N E}.

Record vfs_filesystem_t := mk_filesystem { fs_name : list Z; fs_driver : F }.
Record vfs_mount_t := mk_mount {
  m_path : list Z;
  m_fs : option vfs_filesystem_t;
  m_root : option Z;
  m_device : Z;
  fs_specific : option Z;
  m_active : bool
}.
Record node_obj := mk_obj { o_ctx : Z; o_node : N; refcount : Z }.
Record vfs := mk_vfs {
  registered_filesystems : list vfs_filesystem_t;
  mounts : list vfs_mount_t;
  vfs_root : option Z;
  ctxs : list (option C);
  nodes : list node_obj;
  dev : D
}.
Definition with_mount (s : vfs) (slot : Z) (m : vfs_mount_t) : vfs :=
  mk_vfs s.(registered_filesystems) (wr s.(mounts) slot m) s.(vfs_root) s.(ctxs) s.(nodes) s.(dev).
Definition with_root (s : vfs) (r : option Z) : vfs :=
  mk_vfs s.(registered_filesystems) s.(mounts) r s.(ctxs) s.(nodes) s.(dev).
Definition with_ctxs (s : vfs) (l : list (option C)) (d : D) : vfs :=
  mk_vfs s.(registered_filesystems) s.(mounts) s.(vfs_root) l s.(nodes) d.
Definition with_nodes (s : vfs) (l : list node_obj) : vfs :=
  mk_vfs s.(registered_filesystems) s.(mounts) s.(vfs_root) s.(ctxs) l s.(dev).

(** A new node, [NULL] when the driver returns none. *)
Definition new_node (s : vfs) (k : Z) (n : option N) : option Z * vfs :=
  match n with
  | Some n => (Some (zlen s.(nodes)), with_nodes s (s.(nodes) ++ [mk_obj k n 0]))
  | None => (None, s)
  end.
(** A node with the context of its mount. *)
Definition node_ctx (s : vfs) (p : Z) : option (node_obj * C) :=
  match rd s.(nodes) p with
  | Some o => match rd s.(ctxs) o.(o_ctx) with Some (Some c) => Some (o, c) | _ => None end
  | None => None
  end.
(** The state after an operation of the driver on a node. *)
Definition put_result (s : vfs) (p : Z) (o : node_obj) (r : D * C * N) : vfs :=
  let '(d, c, n) := r in
  with_nodes (with_ctxs s (wr s.(ctxs) o.(o_ctx) (Some c)) d) (wr s.(nodes) p (mk_obj o.(o_ctx) n o.(refcount))).

(** ** Mounting *)
Definition empty_mount : vfs_mount_t := mk_mount [] None None 0 None false.
Definition vfs_init (d : D) : vfs := mk_vfs [] (replicate (Z.to_nat VFS_MAX_MOUNTS) empty_mount) None [] [] d.
Definition vfs_register_fs (fs : vfs_filesystem_t) (s : vfs) : Z * vfs :=
  (0, mk_vfs (fs :: s.(registered_filesystems)) s.(mounts) s.(vfs_root) s.(ctxs) s.(nodes) s.(dev)).
Fixpoint find_fs (name : list Z) (l : list vfs_filesystem_t) : option vfs_filesystem_t :=
  match l with [] => None | fs :: l' => if bool_decide (fs.(fs_name) = name) then Some fs else find_fs name l' end.
Definition vfs_find_fs (name : list Z) (s : vfs) : option vfs_filesystem_t := find_fs name s.(registered_filesystems).
(** The first slot for which [ok] holds. *)
Definition find_slot (ok : vfs_mount_t -> bool) (s : vfs) : option (Z * vfs_mount_t) :=
  find_loop (Z.to_nat VFS_MAX_MOUNTS) 0 (fun i =>
    match rd s.(mounts) i with Some m => if ok m then Some (i, m) else None | None => None end).
Definition vfs_mount (path name : list Z) (device : Z) (s : vfs) : Z * vfs :=
  match vfs_find_fs name s with
  | None => (-1, s)
  | Some fs =>
      match find_slot (fun m => negb m.(m_active)) s with
      | None => (-1, s)
      | Some (slot, m) =>
          let '(d, ctx) := fs_mount fs.(fs_driver) device s.(dev) in
          match ctx with
          | None => (-1, with_ctxs (with_mount s slot (mk_mount path (Some fs) m.(m_root) device m.(fs_specific) false)) s.(ctxs) d)
          | Some c =>
              let k := zlen s.(ctxs) in
              let s := with_ctxs s (s.(ctxs) ++ [Some c]) d in
              let '(root, s) := new_node s k (fs_get_root fs.(fs_driver) c d) in
              let s := with_mount s slot (mk_mount path (Some fs) root device (Some k) true) in
              (0, if bool_decide (path = [SLASH]) then with_root s root else s)
          end
      end
  end.
Definition mounted_at (path : list Z) (m : vfs_mount_t) : bool := m.(m_active) && bool_decide (m.(m_path) = path).
(** The driver's [unmount] on a mount that has a context. *)
Definition unmount_ctx (m : vfs_mount_t) (s : vfs) : vfs :=
  match m.(m_fs), m.(fs_specific) with
  | Some fs, Some k =>
      match rd s.(ctxs) k with
      | Some (Some c) => with_ctxs s (wr s.(ctxs) k None) (fs_unmount fs.(fs_driver) c s.(dev))
      | _ => s
      end
  | _, _ => s
  end.
Definition vfs_unmount (path : list Z) (s : vfs) : Z * vfs :=
  match find_slot (mounted_at path) s with
  | None => (-1, s)
  | Some (slot, m) =>
      let s := with_mount (unmount_ctx m s) slot (mk_mount m.(m_path) m.(m_fs) m.(m_root) m.(m_device) None false) in
      (0, if bool_decide (path = [SLASH]) then with_root s None else s)
  end.
Definition vfs_get_root (s : vfs) : option Z := s.(vfs_root).
Definition vfs_get_root_mount (s : vfs) : option Z := fst <$> find_slot (mounted_at [SLASH]) s.

(** ** Resolving paths *)
(** The next component, of at most [n] bytes, and what follows it. *)
Fixpoint take_component (n : nat) (p : list Z) : list Z * list Z :=
  match n, p with
  | S n', c :: p' => if c =? SLASH then ([], p) else let '(comp, rest) := take_component n' p' in (c :: comp, rest)
  | _, _ => ([], p)
  end.
Fixpoint skip_slashes (p : list Z) : list Z :=
  match p with c :: p' => if c =? SLASH then skip_slashes p' else p | [] => [] end.
(** [finddir] of a node, when it has one. *)
Definition find_in (s : vfs) (current : Z) (component : list Z) : option Z * vfs :=
  match node_ctx s current with
  | None => (None, s)
  | Some (o, c) =>
      if negb (nd_dir_ops o.(o_node)) then (None, s)
      else new_node s o.(o_ctx) (nd_finddir s.(dev) c o.(o_node) component)
  end.
Fixpoint resolve_loop (fuel : nat) (s : vfs) (current : Z) (p : list Z) : option Z * vfs :=
  match fuel, p with
  | _, [] => (Some current, s)
  | O, _ => (None, s)
  | S fuel', _ =>
      let '(component, p) := take_component (Z.to_nat VFS_MAX_NAME) p in
      let p := skip_slashes p in
      match component with
      | [] => resolve_loop fuel' s current p
      | _ =>
          let '(next, s) := find_in s current component in
          match next with Some next => resolve_loop fuel' s next p | None => (None, s) end
      end
  end.
Definition vfs_resolve_path (path : list Z) (s : vfs) : option Z * vfs :=
  match path with
  | [] => (None, s)
  | c :: p =>
      if negb (c =? SLASH) then (None, s)
      else
        match p with
        | [] => (s.(vfs_root), s)
        | _ => match s.(vfs_root) with None => (None, s) | Some root => resolve_loop (S (length p)) s root p end
        end
  end.

(** ** Operations on nodes *)
Definition set_refcount (s : vfs) (p : Z) (f : Z -> Z) : vfs :=
  match rd s.(nodes) p with
  | Some o => with_nodes s (wr s.(nodes) p (mk_obj o.(o_ctx) o.(o_node) (f o.(refcount))))
  | None => s
  end.
Definition vfs_open (path : list Z) (flags : Z) (s : vfs) : option Z * vfs :=
  let '(node, s) := vfs_resolve_path path s in
  match node with
  | None => (None, s)
  | Some p =>
      match rd s.(nodes) p with
      | None => (None, s)
      | Some o =>
          if negb (nd_open o.(o_node) flags =? 0) then (None, s)
          else (Some p, set_refcount s p (fun r => u32 (r + 1)))
      end
  end.
Definition vfs_close (node : option Z) (s : vfs) : Z * vfs :=
  match node with
  | None => (-1, s)
  | Some p => (0, set_refcount s p (fun r => if 0 <? r then r - 1 else r))
  end.
Definition vfs_read (node : option Z) (offset size : Z) (s : vfs) : option (list Z) :=
  match node with
  | None => None
  | Some p => match node_ctx s p with Some (o, c) => nd_read s.(dev) c o.(o_node) offset size | None => None end
  end.
Definition vfs_write (node : option Z) (offset : Z) (buffer : list Z) (s : vfs) : Z * vfs :=
  match node with
  | None => (-1, s)
  | Some p =>
      match node_ctx s p with
      | Some (o, c) => let '(r, res) := nd_write s.(dev) c o.(o_node) offset buffer in (r, put_result s p o res)
      | None => (-1, s)
      end
  end.
Definition is_directory (n : N) : bool := negb (Z.land (nd_type n) VFS_DIRECTORY =? 0).
Definition vfs_readdir (node : option Z) (index : Z) (s : vfs) : option E :=
  match node with
  | None => None
  | Some p =>
      match node_ctx s p with
      | Some (o, c) =>
          if negb (is_directory o.(o_node)) then None
          else if negb (nd_dir_ops o.(o_node)) then None
          else nd_readdir s.(dev) c o.(o_node) index
      | None => None
      end
  end.
Definition vfs_finddir (node : option Z) (name : list Z) (s : vfs) : option Z * vfs :=
  match node with
  | None => (None, s)
  | Some p =>
      match node_ctx s p with
      | Some (o, c) => if negb (is_directory o.(o_node)) then (None, s) else find_in s p name
      | None => (None, s)
      end
  end.

(** ** Operations on paths *)
(** The index of the last slash. *)
Fixpoint last_slash (path : list Z) (i last : Z) : Z :=
  match path with [] => last | c :: path' => last_slash path' (i + 1) (if c =? SLASH then i else last) end.
Definition parent_path (path : list Z) (slash : Z) : list Z :=
  if slash =? 0 then [SLASH] else take (Z.to_nat (Z.min slash (VFS_MAX_PATH - 1))) path.
(** The part the three operations share: find the parent, then call [op]. *)
Definition in_parent (path : list Z) (op : D -> C -> N -> list Z -> Z * (D * C * N)) (s : vfs) : Z * vfs :=
  let slash := last_slash path 0 (-1) in
  if slash <? 0 then (-1, s)
  else
    let name := drop (Z.to_nat (slash + 1)) path in
    if bool_decide (name = []) then (-1, s)
    else
      let '(parent, s) := vfs_resolve_path (parent_path path slash) s in
      match parent with
      | None => (-1, s)
      | Some p =>
          match node_ctx s p with
          | None => (-1, s)
          | Some (o, c) =>
              if negb (is_directory o.(o_node)) then (-1, s)
              else if negb (nd_dir_ops o.(o_node)) then (-1, s)
              else let '(r, res) := op s.(dev) c o.(o_node) name in (r, put_result s p o res)
          end
      end.
Definition is_absolute (path : list Z) : bool := match path with c :: _ => c =? SLASH | [] => false end.
Definition vfs_create (path : list Z) (s : vfs) : Z * vfs :=
  if negb (is_absolute path) then (-1, s) else in_parent path nd_create s.
Definition vfs_mkdir (path : list Z) (s : vfs) : Z * vfs :=
  if negb (is_absolute path) then (-1, s) else in_parent path nd_mkdir s.
Definition vfs_unlink (path : list Z) (s : vfs) : Z * vfs :=
  if bool_decide (path = []) || bool_decide (path = [SLASH]) then (-1, s) else in_parent path nd_unlink s.
Definition vfs_rmdir (path : list Z) (s : vfs) : Z * vfs := vfs_unlink path s.
End vfs.
Arguments vfs_filesystem_t : clear implicits.
Arguments vfs_mount_t : clear implicits.
Arguments node_obj : clear implicits.
Arguments vfs : clear implicits.
