(* ===== verification/VfsSpec.v ===== *)
(** Properties of the virtual file system layer for any file system: pointers
    stay valid under every sequence of operations, and a path is resolved by
    walking over its components. *)
From S2P Require Import Prelude Vfs.

Section spec.
Context {F D C N E : Type} `{FileSystem F D C N E}.
Implicit Types (s : vfs F D C N).

(** ** Stores *)
Lemma rd_app_Some {A} (l l' : list A) i a : rd l i = Some a -> rd (l ++ l') i = Some a.
Proof. intros R. pose proof (rd_Some_range _ _ _ R). rewrite rd_app_l; [done|lia]. Qed.
Lemma rd_app_inv {A} (l : list A) x i a : rd (l ++ [x]) i = Some a -> rd l i = Some a \/ (i = zlen l /\ a = x).
Proof.
  intros R. pose proof (rd_Some_range _ _ _ R) as Hr. rewrite zlen_app in Hr. change (zlen [x]) with 1 in Hr.
  destruct (decide (i < zlen l)) as [Hi|Hi]; [rewrite rd_app_l in R by done; by left|]. assert (i = zlen l) as -> by lia.
  right. split; [done|]. rewrite rd_app_r, Z.sub_diag in R by lia. by injection R.
Qed.
Lemma rd_last {A} (l : list A) x : rd (l ++ [x]) (zlen l) = Some x.
Proof. rewrite rd_app_r, Z.sub_diag by lia. done. Qed.
Lemma rd_wr_inv {A} (l : list A) i j v a : rd (wr l i v) j = Some a -> (j = i /\ a = v) \/ (j <> i /\ rd l j = Some a).
Proof.
  intros R. destruct (decide (j = i)) as [->|Ne]; [|right; by rewrite rd_wr_ne in R by congruence].
  left. pose proof (rd_Some_range _ _ _ R) as Hr. rewrite zlen_wr in Hr. rewrite rd_wr_eq in R by done. by injection R.
Qed.

(** ** The invariant *)
Definition live (s : vfs F D C N) (k : Z) : Prop := exists c, rd s.(ctxs) k = Some (Some c).
(** The array of mounts has its sixteen slots; an active mount has a context
    of its own that has not been freed, its root node is a node of that context, and
    the root of the tree of names is the root node of an active mount on
    [/]. *)
Record vfs_ok (s : vfs F D C N) : Prop := mk_vfs_ok {
  vo_len : zlen s.(mounts) = VFS_MAX_MOUNTS;
  vo_live i m : rd s.(mounts) i = Some m -> m.(m_active) = true -> exists k, m.(fs_specific) = Some k /\ live s k;
  vo_own i j m m' : rd s.(mounts) i = Some m -> rd s.(mounts) j = Some m' -> m.(m_active) = true -> m'.(m_active) = true ->
    m.(fs_specific) = m'.(fs_specific) -> i = j;
  vo_mroot i m r : rd s.(mounts) i = Some m -> m.(m_active) = true -> m.(m_root) = Some r ->
    exists o, rd s.(nodes) r = Some o /\ m.(fs_specific) = Some o.(o_ctx);
  vo_root r : s.(vfs_root) = Some r -> exists i m, rd s.(mounts) i = Some m /\ mounted_at [SLASH] m = true /\ m.(m_root) = Some r
}.

(** Operations on files and directories only add nodes and replace what nodes
    and live contexts hold. *)
Record grows (s s' : vfs F D C N) : Prop := mk_grows {
  gr_mounts : s'.(mounts) = s.(mounts);
  gr_root : s'.(vfs_root) = s.(vfs_root);
  gr_live k : live s k -> live s' k;
  gr_nodes p o : rd s.(nodes) p = Some o -> exists o', rd s'.(nodes) p = Some o' /\ o'.(o_ctx) = o.(o_ctx)
}.
Lemma vfs_grows_refl s : grows s s.
Proof. constructor; eauto. Qed.
Lemma vfs_grows_trans s1 s2 s3 : grows s1 s2 -> grows s2 s3 -> grows s1 s3.
Proof.
  intros [M1 R1 L1 N1] [M2 R2 L2 N2]. constructor; [congruence|congruence|auto|].
  intros p o (o1 & E1 & C1)%N1. destruct (N2 _ _ E1) as (o2 & E2 & C2). exists o2. split; [done|congruence].
Qed.
Lemma grows_ok s s' : grows s s' -> vfs_ok s -> vfs_ok s'.
Proof.
  intros [M R L Nd] [Ln Lv Ow Mr Ro]. constructor; rewrite ?M, ?R; auto.
  - intros i m Hi Ha. destruct (Lv i m Hi Ha) as (k & ? & ?). eauto.
  - intros i m r Hi Ha Hr. destruct (Mr i m r Hi Ha Hr) as (o & Ho & Ec). destruct (Nd _ _ Ho) as (o' & Ho' & E'). exists o'. by rewrite E'.
Qed.
Lemma new_node_grows s k n : grows s (new_node s k n).2.
Proof.
  destruct n as [n|]; [|apply vfs_grows_refl]. cbn. constructor; auto. intros p o Ho. exists o. split; [|done]. by apply rd_app_Some.
Qed.
Lemma put_result_grows s p o c r : node_ctx s p = Some (o, c) -> grows s (put_result s p o r).
Proof.
  unfold node_ctx. destruct (rd (nodes s) p) as [o'|] eqn:Ho; [|done]. destruct (rd (ctxs s) (o_ctx o')) as [[c'|]|] eqn:Hc; try done.
  intros [= -> ->]. destruct r as [[d c1] n]. pose proof (rd_Some_range _ _ _ Ho) as Rp. pose proof (rd_Some_range _ _ _ Hc) as Rc. constructor; auto.
  - intros k (c2 & Hk). destruct (decide (k = o_ctx o)) as [->|Ne].
    + exists c1. cbn. by rewrite rd_wr_eq.
    + exists c2. cbn. by rewrite rd_wr_ne by congruence.
  - intros q o1 Hq. cbn. destruct (decide (q = p)) as [->|Ne].
    + exists (mk_obj (o_ctx o) n (refcount o)). rewrite rd_wr_eq by done. split; [done|]. cbn. congruence.
    + exists o1. by rewrite rd_wr_ne by congruence.
Qed.
Lemma set_refcount_grows s p f : grows s (set_refcount s p f).
Proof.
  unfold set_refcount. destruct (rd (nodes s) p) as [o|] eqn:Ho; [|apply vfs_grows_refl]. constructor; auto. intros q o1 Hq. cbn.
  destruct (decide (q = p)) as [->|Ne].
  - rewrite rd_wr_eq by (by eapply rd_Some_range). eexists. split; [done|]. cbn. congruence.
  - exists o1. by rewrite rd_wr_ne by congruence.
Qed.
Lemma find_in_grows s p name : grows s (find_in s p name).2.
Proof.
  unfold find_in. destruct (node_ctx s p) as [[o c]|]; [|apply vfs_grows_refl]. destruct (negb _); [apply vfs_grows_refl|apply new_node_grows].
Qed.
Lemma resolve_loop_grows fuel : forall s current p, grows s (resolve_loop fuel s current p).2.
Proof.
  induction fuel as [|fuel IH]; intros s current p; destruct p as [|x p]; try apply vfs_grows_refl. cbn [resolve_loop].
  destruct (take_component _ _) as [[|y comp] rest]; [apply IH|]. pose proof (find_in_grows s current (y :: comp)) as G.
  destruct (find_in _ _ _) as [[next|] s1]; [|exact G]. eapply vfs_grows_trans; [exact G|apply IH].
Qed.
Lemma resolve_grows path s : grows s (vfs_resolve_path path s).2.
Proof.
  destruct path as [|x [|y p]]; cbn -[resolve_loop]; [apply vfs_grows_refl|destruct (negb _); apply vfs_grows_refl|].
  destruct (negb _); [apply vfs_grows_refl|]. destruct (vfs_root s); [apply resolve_loop_grows|apply vfs_grows_refl].
Qed.
Lemma in_parent_grows path op s : grows s (in_parent path op s).2.
Proof.
  unfold in_parent. case_if; [apply vfs_grows_refl|]. case_bool_decide; [apply vfs_grows_refl|].
  pose proof (resolve_grows (parent_path path (last_slash path 0 (-1))) s) as G. destruct (vfs_resolve_path _ _) as [[p|] s1]; [|done]. cbn [snd] in G.
  destruct (node_ctx s1 p) as [[o c]|] eqn:En; [|done]. repeat (destruct (negb _); [done|]).
  destruct (op _ _ _ _) as [r res]. eapply vfs_grows_trans; [exact G|]. by eapply put_result_grows.
Qed.

(** ** Mounting and unmounting *)
Lemma find_slot_Some ok s i m : find_slot ok s = Some (i, m) -> rd s.(mounts) i = Some m /\ ok m = true.
Proof.
  unfold find_slot. intros (k & Hk & Hf & _)%find_loop_Some. cbn in Hf. destruct (rd (mounts s) k) as [m'|] eqn:Hm; [|done].
  destruct (ok m') eqn:Ho; [|done]. by injection Hf as <- <-.
Qed.
(** Changing a slot that is not active, and the device, to one that is not. *)
Lemma idle_ok s slot m m' d : vfs_ok s -> rd s.(mounts) slot = Some m -> m.(m_active) = false -> m'.(m_active) = false ->
  vfs_ok (with_ctxs (with_mount s slot m') s.(ctxs) d).
Proof.
  intros [Ln Lv Ow Mr Ro] Hs Ha Ha'. constructor; cbn.
  - by rewrite zlen_wr.
  - intros i m1 [[-> ->]|[Ne Hi]]%rd_wr_inv Hm1; [congruence|by apply (Lv i)].
  - intros i j m1 m2 [[-> ->]|[Ne Hi]]%rd_wr_inv [[-> ->]|[Ne' Hj]]%rd_wr_inv; try congruence. by apply Ow.
  - intros i m1 r [[-> ->]|[Ne Hi]]%rd_wr_inv Hm1; [congruence|by apply (Mr i)].
  - intros r (i & m1 & Hi & Hm & Hr)%Ro. exists i, m1. split; [|done]. rewrite rd_wr_ne; [done|]. intros ->.
    unfold mounted_at in Hm. assert (m1 = m) as -> by congruence. by rewrite Ha in Hm.
Qed.
Lemma vfs_mount_ok path name device s : vfs_ok s -> vfs_ok (vfs_mount path name device s).2.
Proof.
  intros O. unfold vfs_mount. destruct (vfs_find_fs name s) as [fs|]; [|done].
  destruct (find_slot _ s) as [[slot m]|] eqn:Es; [|done]. apply find_slot_Some in Es as [Hs Ha%negb_true_iff].
  destruct (fs_mount (fs_driver fs) device (dev s)) as [d [c|]]; [|by apply (idle_ok s slot m)].
  set (k := zlen (ctxs s)). set (s1 := with_ctxs s (ctxs s ++ [Some c]) d). set (n := fs_get_root _ _ _).
  destruct O as [Ln Lv Ow Mr Ro].
  assert (Lk : forall s' j, ctxs s' = ctxs s ++ [Some c] -> live s j -> live s' j).
  { intros s' j Ec (c' & Hc). exists c'. rewrite Ec. by apply rd_app_Some. }
  assert (G : exists root l, new_node s1 k n = (root, with_nodes s1 (nodes s ++ l)) /\ (forall r, root = Some r -> exists o, rd (nodes s ++ l) r = Some o /\ o_ctx o = k)).
  { destruct n as [n|]; cbn.
    - eexists _, [_]. split; [done|]. intros r [= <-]. eexists. by rewrite rd_last.
    - exists None, []. by rewrite app_nil_r. }
  destruct G as (root & l & -> & Hroot). set (m' := mk_mount path (Some fs) root device (Some k) true).
  set (s2 := with_mount (with_nodes s1 (nodes s ++ l)) slot m').
  assert (Ctx : ctxs s2 = ctxs s ++ [Some c]) by done. assert (Nds : nodes s2 = nodes s ++ l) by done. assert (Mts : mounts s2 = wr (mounts s) slot m') by done.
  assert (Rs : rd (wr (mounts s) slot m') slot = Some m') by (apply rd_wr_eq; by eapply rd_Some_range).
  assert (Fresh : forall i m1, rd (mounts s) i = Some m1 -> m_active m1 = true -> fs_specific m1 <> Some k).
  { intros i m1 Hi Hm1 Ef. destruct (Lv i m1 Hi Hm1) as (k' & E' & c' & Hc%rd_Some_range). assert (k' = k) as -> by congruence. unfold k in Hc. lia. }
  assert (O2 : forall r, vfs_ok (with_root s2 r) <-> forall r', r = Some r' ->
    exists i m, rd (mounts s2) i = Some m /\ mounted_at [SLASH] m = true /\ m_root m = Some r').
  { intros r. split; [intros [_ _ _ _ R]; exact R|]. intros R. constructor; cbn [with_root mounts nodes ctxs vfs_root]; rewrite ?Mts, ?Nds; auto.
    - by rewrite zlen_wr.
    - intros i m1 [[-> ->]|[Ne Hi]]%rd_wr_inv Hm1.
      + exists k. split; [done|]. exists c. unfold k. cbn. by rewrite rd_last.
      + destruct (Lv i m1 Hi Hm1) as (k' & E' & Hl). exists k'. split; [done|]. by apply Lk.
    - intros i j m1 m2 [[-> ->]|[Ne Hi]]%rd_wr_inv [[-> ->]|[Ne' Hj]]%rd_wr_inv A1 A2 Ef; auto.
      + cbn in Ef. by destruct (Fresh j m2 Hj A2).
      + cbn in Ef. by destruct (Fresh i m1 Hi A1).
      + by apply (Ow i j m1 m2).
    - intros i m1 r' [[-> ->]|[Ne Hi]]%rd_wr_inv Hm1 Hr.
      + destruct (Hroot r' Hr) as (o & Ho & Ec). exists o. cbn. by rewrite Ec.
      + destruct (Mr i m1 r' Hi Hm1 Hr) as (o & Ho & Ec). exists o. split; [by apply rd_app_Some|done]. }
  case_bool_decide as Hp; [apply O2|].
  - intros r' Er. exists slot, m'. split; [done|]. split; [|done]. unfold mounted_at. cbn. by rewrite bool_decide_eq_true_2.
  - change (vfs_ok (with_root s2 (vfs_root s))). apply O2. intros r' (i & m1 & Hi & Hm & Hr)%Ro. exists i, m1. split; [|done].
    rewrite Mts, rd_wr_ne; [done|]. intros ->. assert (m1 = m) as -> by congruence. unfold mounted_at in Hm. by rewrite Ha in Hm.
Qed.
Lemma unmount_ctx_eq m s k : fs_specific m = Some k -> mounts (unmount_ctx m s) = mounts s /\ vfs_root (unmount_ctx m s) = vfs_root s /\
  nodes (unmount_ctx m s) = nodes s /\ (forall j, j <> k -> live s j -> live (unmount_ctx m s) j).
Proof.
  intros Ek. unfold unmount_ctx. rewrite Ek. destruct (m_fs m) as [fs|]; [|done]. destruct (rd (ctxs s) k) as [[c|]|] eqn:Hc; try done.
  cbn. repeat split. intros j Ne (c' & Hj). exists c'. cbn. by rewrite rd_wr_ne by congruence.
Qed.
Lemma vfs_unmount_ok path s : vfs_ok s -> vfs_ok (vfs_unmount path s).2.
Proof.
  intros [Ln Lv Ow Mr Ro]. unfold vfs_unmount. destruct (find_slot _ s) as [[slot m]|] eqn:Es; [|done]. apply find_slot_Some in Es as [Hs Ha].
  unfold mounted_at in Ha. apply andb_true_iff in Ha as [Ha Hp%bool_decide_eq_true_1].
  destruct (Lv slot m Hs Ha) as (k & Ek & _). destruct (unmount_ctx_eq m s k Ek) as (Em & Er & En & El).
  set (m' := mk_mount _ _ _ _ _ _). set (s1 := unmount_ctx m s) in *.
  assert (O : forall r, (forall r', r = Some r' -> exists i m1, i <> slot /\ rd (mounts s) i = Some m1 /\ mounted_at [SLASH] m1 = true /\ m_root m1 = Some r') ->
    vfs_ok (with_root (with_mount s1 slot m') r)).
  { intros r R. constructor; cbn; rewrite ?Em, ?En.
    - by rewrite zlen_wr.
    - intros i m1 [[-> ->]|[Ne Hi]]%rd_wr_inv Hm1; [discriminate Hm1|]. destruct (Lv i m1 Hi Hm1) as (k' & E' & Hl). exists k'. split; [done|].
      apply El; [|done]. intros ->. apply Ne. apply (Ow i slot m1 m); congruence.
    - intros i j m1 m2 [[-> ->]|[Ne Hi]]%rd_wr_inv [[-> ->]|[Ne' Hj]]%rd_wr_inv; try done. by apply Ow.
    - intros i m1 r' [[-> ->]|[Ne Hi]]%rd_wr_inv Hm1; [discriminate Hm1|by apply (Mr i)].
    - intros r' (i & m1 & Ne & Hi & Hm)%R. exists i, m1. split; [|done]. by rewrite rd_wr_ne by congruence. }
  case_bool_decide as Hroot; [by apply O|]. cbn [snd]. change (with_mount s1 slot m') with (with_root (with_mount s1 slot m') (vfs_root s1)). rewrite Er.
  apply O. intros r' (i & m1 & Hi & Hm & Hr)%Ro. exists i, m1. split; [|done]. intros ->. assert (m1 = m) as -> by congruence.
  unfold mounted_at in Hm. apply andb_true_iff in Hm as [_ Hm%bool_decide_eq_true_1]. congruence.
Qed.

(** ** Every sequence of operations *)
Inductive vfs_op :=
  | Register (fs : vfs_filesystem_t F)
  | Mount (path name : list Z) (device : Z)
  | Unmount (path : list Z)
  | Open (path : list Z) (flags : Z)
  | Close (node : option Z)
  | Write (node : option Z) (offset : Z) (buffer : list Z)
  | Finddir (node : option Z) (name : list Z)
  | Create (path : list Z)
  | Mkdir (path : list Z)
  | Unlink (path : list Z)
  | Rmdir (path : list Z).
Definition run_op s (op : vfs_op) : vfs F D C N :=
  match op with
  | Register fs => (vfs_register_fs fs s).2
  | Mount path name device => (vfs_mount path name device s).2
  | Unmount path => (vfs_unmount path s).2
  | Open path flags => (vfs_open path flags s).2
  | Close node => (vfs_close node s).2
  | Write node offset buffer => (vfs_write node offset buffer s).2
  | Finddir node name => (vfs_finddir node name s).2
  | Create path => (vfs_create path s).2
  | Mkdir path => (vfs_mkdir path s).2
  | Unlink path => (vfs_unlink path s).2
  | Rmdir path => (vfs_rmdir path s).2
  end.
Lemma open_grows path flags s : grows s (vfs_open path flags s).2.
Proof.
  unfold vfs_open. pose proof (resolve_grows path s) as G. destruct (vfs_resolve_path path s) as [[p|] s1]; [|done]. cbn [snd] in G.
  destruct (rd (nodes s1) p); [|done]. destruct (negb _); [done|]. eapply vfs_grows_trans; [exact G|apply set_refcount_grows].
Qed.
Lemma write_grows node offset buffer s : grows s (vfs_write node offset buffer s).2.
Proof.
  destruct node as [p|]; cbn; [|apply vfs_grows_refl]. destruct (node_ctx s p) as [[o c]|] eqn:En; [|apply vfs_grows_refl].
  destruct (nd_write _ _ _ _ _) as [r res]. by eapply put_result_grows.
Qed.
Lemma finddir_grows node name s : grows s (vfs_finddir node name s).2.
Proof.
  destruct node as [p|]; cbn; [|apply vfs_grows_refl]. destruct (node_ctx s p) as [[o c]|]; [|apply vfs_grows_refl].
  destruct (negb _); [apply vfs_grows_refl|apply find_in_grows].
Qed.
Lemma unlink_grows path s : grows s (vfs_unlink path s).2.
Proof. unfold vfs_unlink. destruct (_ || _); [apply vfs_grows_refl|apply in_parent_grows]. Qed.
Lemma run_op_ok s op : vfs_ok s -> vfs_ok (run_op s op).
Proof.
  intros O. destruct op; cbn [run_op]; try (by apply vfs_mount_ok); try (by apply vfs_unmount_ok).
  - destruct O. by constructor.
  - eapply grows_ok; [apply open_grows|done].
  - destruct node as [p|]; [|done]. eapply grows_ok; [apply set_refcount_grows|done].
  - eapply grows_ok; [apply write_grows|done].
  - eapply grows_ok; [apply finddir_grows|done].
  - unfold vfs_create. destruct (negb _); [done|]. eapply grows_ok; [apply in_parent_grows|done].
  - unfold vfs_mkdir. destruct (negb _); [done|]. eapply grows_ok; [apply in_parent_grows|done].
  - eapply grows_ok; [apply unlink_grows|done].
  - eapply grows_ok; [apply unlink_grows|done].
Qed.
Lemma init_ok d : vfs_ok (vfs_init d : vfs F D C N).
Proof.
  assert (Inactive : forall i m, rd (mounts (vfs_init d : vfs F D C N)) i = Some m -> m_active m = false).
  { intros i m Hi. assert (Fa : Forall (fun m => m_active m = false) (mounts (vfs_init d : vfs F D C N))) by (cbn; repeat constructor).
    by apply (Forall_rd _ _ _ _ Fa) in Hi. }
  constructor; [done| | | |done].
  - intros i m Hi Ha. apply Inactive in Hi. congruence.
  - intros i j m m' Hi _ Ha. apply Inactive in Hi. congruence.
  - intros i m r Hi Ha. apply Inactive in Hi. congruence.
Qed.

(** ** Paths as lists of components *)
Fixpoint split_slash (p : list Z) : list (list Z) :=
  match p with
  | [] => [[]]
  | c :: p' =>
      if c =? SLASH then [] :: split_slash p'
      else match split_slash p' with w :: ws => (c :: w) :: ws | [] => [[c]] end
  end.
Definition components (p : list Z) : list (list Z) := filter (fun w => w <> []) (split_slash p).
Fixpoint walk s (current : Z) (ws : list (list Z)) : option Z * vfs F D C N :=
  match ws with
  | [] => (Some current, s)
  | w :: ws' =>
      let '(next, s) := find_in s current w in
      match next with Some next => walk s next ws' | None => (None, s) end
  end.
Definition after_slash (p : list Z) : list (list Z) := match p with [] => [] | _ :: r => split_slash r end.
Lemma split_take p : forall n w ws, split_slash p = w :: ws -> (length w <= n)%nat ->
  take_component n p = (w, drop (length w) p) /\ ws = after_slash (drop (length w) p) /\ (drop (length w) p = [] \/ head (drop (length w) p) = Some SLASH).
Proof.
  induction p as [|c p IH]; intros n w ws Es Hn; cbn [split_slash] in Es.
  - injection Es as <- <-. destruct n; auto.
  - destruct (Z.eqb_spec c SLASH) as [->|Nc]; [injection Es as <- <-; destruct n; auto|].
    destruct (split_slash p) as [|w' ws'] eqn:Ep; [by destruct p as [|x p]; cbn in Ep; [|destruct (x =? SLASH); [|destruct (split_slash p)]]|].
    injection Es as <- <-. destruct n as [|n]; [cbn in Hn; lia|]. cbn [length] in *. destruct (IH n w' ws') as (Et & Ew & Ed); [done|lia|].
    cbn [take_component drop]. rewrite (proj2 (Z.eqb_neq _ _) Nc), Et. done.
Qed.
Lemma components_slash p : components (SLASH :: p) = components p.
Proof. done. Qed.
Lemma components_skip p : components (skip_slashes p) = components p.
Proof. induction p as [|c p IH]; [done|]. cbn [skip_slashes]. destruct (Z.eqb_spec c SLASH) as [->|]; [by rewrite IH, components_slash|done]. Qed.
Lemma skip_le p : (length (skip_slashes p) <= length p)%nat.
Proof. induction p as [|c p IH]; cbn; [lia|]. destruct (c =? SLASH); cbn; lia. Qed.
(** One round of the loop takes the first component off. *)
Lemma components_step p : Forall (fun w => zlen w <= VFS_MAX_NAME) (components p) -> p <> [] ->
  let '(w, rest) := take_component (Z.to_nat VFS_MAX_NAME) p in
  components p = (if bool_decide (w = []) then [] else [w]) ++ components (skip_slashes rest) /\ (length (skip_slashes rest) < length p)%nat.
Proof.
  intros Hc Ne. destruct (split_slash p) as [|w ws] eqn:Es; [by destruct p as [|x p]; cbn in Es; [|destruct (x =? SLASH); [|destruct (split_slash p)]]|].
  assert (Hw : (length w <= Z.to_nat VFS_MAX_NAME)%nat).
  { unfold components in Hc. rewrite Es in Hc. destruct (decide (w = [])) as [->|Nw]; [cbn; lia|]. rewrite filter_cons_True in Hc by done.
    inversion Hc as [|? ? Hh _]. unfold zlen in Hh. lia. }
  destruct (split_take p _ w ws Es Hw) as (-> & Ew & Ed). rewrite components_skip. split.
  - unfold components at 1. rewrite Es. assert (filter (fun w => w <> []) ws = components (drop (length w) p)) as Ef.
    { rewrite Ew. destruct Ed as [->|Hh]; [done|]. destruct (drop (length w) p) as [|c r]; [done|]. cbn in Hh. injection Hh as ->. done. }
    case_bool_decide as Hb; [subst w; by rewrite filter_cons_False by auto|]. by rewrite filter_cons_True, Ef by done.
  - pose proof (skip_le (drop (length w) p)) as Sl. rewrite length_drop in Sl. destruct w as [|x w].
    + rewrite drop_0 in *. destruct Ed as [->|Hh]; [done|]. destruct p as [|c r]; [done|]. injection Hh as ->. cbn [skip_slashes length] in *.
      change (SLASH =? SLASH) with true. cbn iota. pose proof (skip_le r). lia.
    + cbn [length] in Sl. destruct p; [done|]. cbn [length] in *. lia.
Qed.
Lemma resolve_loop_walk fuel : forall s current p, Forall (fun w => zlen w <= VFS_MAX_NAME) (components p) -> (length p < fuel)%nat ->
  resolve_loop fuel s current p = walk s current (components p).
Proof.
  induction fuel as [|fuel IH]; intros s current p Hc Hf; [lia|]. destruct p as [|x p]; [done|]. cbn [resolve_loop].
  pose proof (components_step (x :: p) Hc) as St. destruct (take_component _ _) as [w rest]. destruct St as [Ec Hl]; [done|].
  rewrite Ec in *. apply Forall_app in Hc as [_ Hc]. destruct w as [|y w]; cbn [app walk bool_decide decide].
  - rewrite bool_decide_eq_true_2 by done. apply IH; [done|lia].
  - rewrite bool_decide_eq_false_2 by done. cbn [app walk]. destruct (find_in s current (y :: w)) as [[next|] s1]; [|done]. apply IH; [done|lia].
Qed.
(** A component longer than a name may be is looked up in two parts. *)
Lemma take_component_exact w x : zlen w = VFS_MAX_NAME -> Forall (fun c => c <> SLASH) w -> take_component (Z.to_nat VFS_MAX_NAME) (w ++ [x]) = (w, [x]).
Proof.
  intros Hl. assert (Z.to_nat VFS_MAX_NAME = length w) as -> by (unfold zlen in Hl; lia). clear Hl. induction w as [|c w IH]; intros Fa; [done|].
  inversion Fa as [|? ? Hc Fa']; subst. cbn [length app take_component]. rewrite (proj2 (Z.eqb_neq _ _) Hc), IH by done. done.
Qed.
Lemma vfs_long_component w x root s : zlen w = VFS_MAX_NAME -> Forall (fun c => c <> SLASH) w -> x <> SLASH -> vfs_get_root s = Some root ->
  vfs_resolve_path (SLASH :: w ++ [x]) s = walk s root [w; [x]].
Proof.
  intros Hl Fa Hx Hr. unfold vfs_get_root in Hr. destruct w as [|c w]; [done|]. set (w' := c :: w) in *.
  assert (vfs_resolve_path (SLASH :: w' ++ [x]) s = resolve_loop (S (length (w' ++ [x]))) s root (w' ++ [x])) as -> by (cbn -[resolve_loop]; by rewrite Hr).
  change (resolve_loop (S (length (w' ++ [x]))) s root (w' ++ [x])) with
    (let '(component, p) := take_component (Z.to_nat VFS_MAX_NAME) (w' ++ [x]) in
     let p := skip_slashes p in
     match component with
     | [] => resolve_loop (length (w' ++ [x])) s root p
     | _ => let '(next, s) := find_in s root component in
            match next with Some next => resolve_loop (length (w' ++ [x])) s next p | None => (None, s) end
     end). rewrite take_component_exact by done. cbn [skip_slashes]. rewrite (proj2 (Z.eqb_neq _ _) Hx). cbn [walk]. subst w'. cbn iota beta.
  destruct (find_in s root (c :: w)) as [[next|] s1]; [|done]. rewrite resolve_loop_walk.
  - unfold components. cbn [split_slash]. rewrite (proj2 (Z.eqb_neq _ _) Hx). done.
  - unfold components. cbn [split_slash]. rewrite (proj2 (Z.eqb_neq _ _) Hx). repeat constructor. done.
  - rewrite length_app. cbn. lia.
Qed.


(** [vfs_resolve_path] on an absolute path whose components are at most 255
    bytes long is the walk from the root over the nonempty components, one
    [finddir] each, in order: repeated slashes and a slash at the end do not
    matter, the first component that is not found ends the walk, and the loop
    ends for every path. *)
Theorem vfs_resolve_components p s : Forall (fun w => zlen w <= VFS_MAX_NAME) (components p) ->
  vfs_resolve_path (SLASH :: p) s = match vfs_get_root s with Some root => walk s root (components p) | None => (None, s) end.
Proof.
  intros Hc. unfold vfs_get_root. destruct p as [|x p]; [cbn; by destruct (vfs_root s)|]. cbn -[resolve_loop components walk].
  destruct (vfs_root s) as [root|]; [|done]. apply resolve_loop_walk; [done|cbn; lia].
Qed.
End spec.

(** ** A small file system *)
(** Directories of directories, to be read only. *)
Module Tree.
Inductive tree := Empty | Entry (name : list Z) (child rest : tree).
Fixpoint find_entry (name : list Z) (t : tree) : option tree :=
  match t with
  | Empty => None
  | Entry name' child rest => if bool_decide (name' = name) then Some child else find_entry name rest
  end.
#[global] Instance tree_fs : FileSystem tree unit unit tree Z := {
  fs_mount _ _ d := (d, Some tt);
  fs_unmount _ _ d := d;
  fs_get_root f _ _ := Some f;
  nd_type _ := VFS_DIRECTORY;
  nd_size _ := 0;
  nd_dir_ops _ := true;
  nd_finddir _ _ n name := find_entry name n;
  nd_readdir _ _ _ _ := None;
  nd_create d c n _ := (-1, (d, c, n));
  nd_mkdir d c n _ := (-1, (d, c, n));
  nd_unlink d c n _ := (-1, (d, c, n));
  nd_open _ _ := 0;
  nd_read _ _ _ _ _ := None;
  nd_write d c n _ _ := (-1, (d, c, n));
  ent_name _ := [];
  ent_type _ := 0
}.
Definition sample : tree := Entry [97] (Entry [98] Empty Empty) Empty.
Definition sample_vfs : vfs tree unit unit tree :=
  foldl run_op (vfs_init tt) [Register (mk_filesystem [116] sample); Mount [SLASH] [116] 0].
End Tree.
(** [/a//b/] *)
Lemma vfs_resolve_components_witness :
  vfs_resolve_path [47; 97; 47; 47; 98; 47] Tree.sample_vfs = walk Tree.sample_vfs 0 [[97]; [98]] /\
  (vfs_resolve_path [47; 97; 47; 47; 98; 47] Tree.sample_vfs).1 = Some 2.
Proof.
  split; [|reflexivity]. apply (vfs_resolve_components [97; 47; 47; 98; 47] Tree.sample_vfs). cbn. repeat constructor; vm_compute; congruence.
Defined.
