(* ===== verification/VfsExt2.v ===== *)
(** The ext2 driver behind the virtual file system layer: the table of callbacks of
    the driver (the end of [ext2_create_node], [ext2_init]) as an instance of
    [FileSystem], and what a program sees that creates a file by its path,
    writes it, opens it again and reads it. *)
From S2P Require Import Prelude Vfs VfsSpec Ext2 Ext2Disk Ext2Alloc Ext2Vol Ext2Inode Ext2File Ext2Data Ext2Dir Ext2Ops.

(** ** The callbacks *)
(** [ext2_vfs_open] does nothing. *)
Definition ext2_vfs_open (node : vfs_node) (flags : Z) : Z := 0.
Definition callback_result (r : bool * (ext2_fs_t * vfs_node)) : Z * (disk * ext2_fs_t * vfs_node) :=
  let '(ok, (fs, node)) := r in (if ok : bool then 0 else -1, (fs.(device), fs, node)).
#[export] Instance ext2_fs_type : FileSystem unit disk ext2_fs_t vfs_node vfs_dirent := {
  fs_mount _ _ d := match ext2_mount d with Some fs => (fs.(device), Some fs) | None => (d, None) end;
  fs_unmount _ fs d := ext2_unmount (with_device fs d);
  fs_get_root _ fs d := ext2_get_root (with_device fs d);
  nd_type := vn_type;
  nd_size := vn_size;
  nd_dir_ops node := node.(vn_type) =? VFS_DIRECTORY;
  nd_finddir d fs node name := ext2_vfs_finddir (with_device fs d) node name;
  nd_readdir d fs node index := ext2_vfs_readdir (with_device fs d) node index;
  nd_create d fs node name := callback_result (ext2_vfs_create (with_device fs d) node name);
  nd_mkdir d fs node name := callback_result (ext2_vfs_mkdir (with_device fs d) node name);
  nd_unlink d fs node name := callback_result (ext2_vfs_unlink (with_device fs d) node name);
  nd_open := ext2_vfs_open;
  nd_read d fs node offset size := ext2_vfs_read (with_device fs d) node offset size;
  nd_write d fs node offset buffer :=
    let '(r, (fs, node)) := ext2_vfs_write (with_device fs d) node offset buffer in (r, (fs.(device), fs, node));
  ent_name := d_name;
  ent_type := d_type
}.
(** The state with the ext2 driver as the only one. *)
Definition ext2_vfs : Type := vfs unit disk ext2_fs_t vfs_node.
(** "ext2" *)
Definition ext2_name : list Z := [101; 120; 116; 50].
Definition ext2_init (s : ext2_vfs) : ext2_vfs := (vfs_register_fs (mk_filesystem ext2_name tt) s).2.

(** ** Names in the root directory *)
Lemma with_device_self fs : with_device fs fs.(device) = fs.
Proof. by destruct fs. Qed.
(** The node at [p] is [node], of the context [k], and its volume, as it is
    now, is [fs]. *)
Definition holds (s : ext2_vfs) (k p : Z) (fs : ext2_fs_t) (node : vfs_node) : Prop :=
  exists o c, node_ctx s p = Some (o, c) /\ o.(o_ctx) = k /\ fs = with_device c s.(dev) /\ o.(o_node) = node.
(** Steps that change no node. *)
Record same_view (s s' : ext2_vfs) : Prop := mk_view {
  sv_root : s'.(vfs_root) = s.(vfs_root);
  sv_holds k p fs node : holds s k p fs node -> holds s' k p fs node
}.
Lemma same_view_trans s1 s2 s3 : same_view s1 s2 -> same_view s2 s3 -> same_view s1 s3.
Proof. intros [R1 H1] [R2 H2]. constructor; [congruence|auto]. Qed.
Lemma node_ctx_inv (s : ext2_vfs) p o c : node_ctx s p = Some (o, c) -> rd s.(nodes) p = Some o /\ rd s.(ctxs) o.(o_ctx) = Some (Some c).
Proof.
  unfold node_ctx. destruct (rd (nodes s) p) as [o'|]; [|done]. destruct (rd (ctxs s) (o_ctx o')) as [[c'|]|] eqn:Hc; try done. by intros [= -> ->].
Qed.
Lemma refcount_view s p f : same_view s (set_refcount s p f).
Proof.
  unfold set_refcount. destruct (rd (nodes s) p) as [o|] eqn:Ho; [|by constructor]. constructor; [done|].
  intros k q fs node (o1 & c & En & Ek & Ef & Eo). destruct (node_ctx_inv _ _ _ _ En) as [Hn Hc]. unfold holds, node_ctx. cbn.
  destruct (decide (q = p)) as [->|Ne].
  - rewrite rd_wr_eq by (by eapply rd_Some_range). assert (o1 = o) as -> by congruence. cbn. rewrite Hc. eexists _, c. split; [done|]. by subst.
  - rewrite rd_wr_ne, Hn, Hc by congruence. by exists o1, c.
Qed.
Lemma new_node_view (s : ext2_vfs) k node fs p node0 : holds s k p fs node0 ->
  exists s', new_node s k (Some node) = (Some (zlen s.(nodes)), s') /\ same_view s s' /\ holds s' k (zlen s.(nodes)) fs node /\
    zlen s'.(nodes) = zlen s.(nodes) + 1.
Proof.
  intros (o & c & En & Ek & Ef & Eo). destruct (node_ctx_inv _ _ _ _ En) as [_ Hc0]. eexists. split; [done|]. split; [constructor; [done|]|split].
  - intros k1 q fs1 n1 (o1 & c1 & En1 & ?). destruct (node_ctx_inv _ _ _ _ En1) as [Hn Hc]. unfold holds, node_ctx. cbn.
    rewrite (rd_app_Some _ _ _ _ Hn), Hc. by exists o1, c1.
  - unfold holds, node_ctx. cbn. rewrite rd_last. cbn. rewrite <- Ek, Hc0. eexists _, c. split; [done|]. by subst.
  - cbn. rewrite zlen_app. done.
Qed.
(** After an operation of the driver the node and every other node of the
    volume see the new volume. *)
Lemma put_result_holds s k p o c fs' node' : node_ctx s p = Some (o, c) -> o.(o_ctx) = k ->
  let s' := put_result s p o (fs'.(device), fs', node') in
  s'.(vfs_root) = s.(vfs_root) /\ zlen s'.(nodes) = zlen s.(nodes) /\ holds s' k p fs' node' /\
  (forall q fs node, q <> p -> holds s k q fs node -> holds s' k q fs' node).
Proof.
  intros En Ek. destruct (node_ctx_inv _ _ _ _ En) as [Hn Hc]. pose proof (rd_Some_range _ _ _ Hn) as Rn. pose proof (rd_Some_range _ _ _ Hc) as Rc.
  cbn. split; [done|]. split; [by rewrite zlen_wr|]. split.
  - unfold holds, node_ctx. cbn. rewrite rd_wr_eq by done. cbn. rewrite rd_wr_eq by done. eexists _, fs'. split; [done|]. split; [done|]. by rewrite with_device_self.
  - intros q fs node Ne (o1 & c1 & En1 & Ek1 & _ & Eo). destruct (node_ctx_inv _ _ _ _ En1) as [Hn1 _]. unfold holds, node_ctx. cbn.
    rewrite rd_wr_ne, Hn1 by congruence. rewrite Ek1, <- Ek, rd_wr_eq by done. exists o1, fs'. split; [done|]. split; [congruence|]. by rewrite with_device_self.
Qed.

(** ** Paths of one component *)
Definition no_slash (name : list Z) : Prop := Forall (fun c => c <> SLASH) name.
Lemma split_no_slash name : no_slash name -> split_slash name = [name].
Proof. induction 1 as [|c name Hc _ IH]; [done|]. cbn. by rewrite (proj2 (Z.eqb_neq _ _) Hc), IH. Qed.
Lemma components_name name : no_slash name -> name <> [] -> components name = [name].
Proof. intros Hs Ne. unfold components. rewrite split_no_slash by done. by rewrite filter_cons_True. Qed.
Lemma last_slash_name name : no_slash name -> forall i last, last_slash name i last = last.
Proof. induction 1 as [|c name Hc _ IH]; intros i last; [done|]. cbn. by rewrite (proj2 (Z.eqb_neq _ _) Hc). Qed.
Section root.
Context (s : ext2_vfs) (k r : Z) (fs : ext2_fs_t) (dir : vfs_node) (name : list Z).
Hypothesis Root : s.(vfs_root) = Some r.
Hypothesis Dir : holds s k r fs dir.
Hypothesis Type_dir : dir.(vn_type) = VFS_DIRECTORY.
Hypothesis Name : name_ok name.
Hypothesis Slash : no_slash name.
Lemma name_nonempty : name <> [].
Proof. intros E. pose proof (no_len _ Name) as L. rewrite E in L. change (zlen (@nil Z)) with 0 in L. lia. Qed.
Lemma open_name flags node : ext2_vfs_finddir fs dir name = Some node ->
  exists s', vfs_open (SLASH :: name) flags s = (Some (zlen s.(nodes)), s') /\ same_view s s' /\ holds s' k (zlen s.(nodes)) fs node /\
    zlen s'.(nodes) = zlen s.(nodes) + 1.
Proof.
  intros Ff. pose proof Dir as (o & c & En & Ek & Ef & Eo). destruct (new_node_view s k node fs r dir Dir) as (s1 & E1 & V1 & H1 & L1).
  assert (R : vfs_resolve_path (SLASH :: name) s = (Some (zlen (nodes s)), s1)).
  { assert (vfs_resolve_path (SLASH :: name) s = resolve_loop (S (length name)) s r name) as ->.
    { pose proof name_nonempty. destruct name; [done|]. cbn -[resolve_loop]. by rewrite Root. }
    pose proof (components_name name Slash name_nonempty) as Cn. rewrite resolve_loop_walk, Cn; [|rewrite Cn; repeat constructor; apply Name|lia].
    cbn [walk]. unfold find_in. rewrite En, Eo. cbn [nd_dir_ops ext2_fs_type]. rewrite Type_dir. cbn [negb Z.eqb VFS_DIRECTORY Pos.eqb].
    change (nd_finddir (dev s) c dir name) with (ext2_vfs_finddir (with_device c (dev s)) dir name). rewrite <- Ef, Ff, Ek, E1. done. }
  unfold vfs_open. rewrite R. pose proof H1 as (o1 & c1 & En1 & _). destruct (node_ctx_inv _ _ _ _ En1) as [Hn1 _]. rewrite Hn1.
  change (nd_open (o_node o1) flags) with 0. cbn [negb Z.eqb]. pose proof (refcount_view s1 (zlen (nodes s)) (fun r => u32 (r + 1))) as V2.
  eexists. split; [done|]. split; [by eapply same_view_trans|]. split; [by apply V2|]. rewrite <- L1. unfold set_refcount. rewrite Hn1. cbn. by rewrite zlen_wr.
Qed.
Lemma create_name fs' dir' : ext2_vfs_create fs dir name = (true, (fs', dir')) ->
  exists s', vfs_create (SLASH :: name) s = (0, s') /\ s'.(vfs_root) = s.(vfs_root) /\ holds s' k r fs' dir'.
Proof.
  intros Ec. pose proof Dir as (o & c & En & Ek & Ef & Eo). destruct (put_result_holds s k r o c fs' dir' En Ek) as (R & _ & Hd & _).
  eexists. split; [|split; [exact R|exact Hd]]. unfold vfs_create, in_parent. cbn [is_absolute]. change (SLASH =? SLASH) with true. cbn [negb].
  change (last_slash (SLASH :: name) 0 (-1)) with (last_slash name 1 0). rewrite last_slash_name by done. cbn [Z.ltb Z.compare].
  change (drop (Z.to_nat (0 + 1)) (SLASH :: name)) with name. rewrite bool_decide_eq_false_2 by apply name_nonempty.
  change (parent_path (SLASH :: name) 0) with [SLASH]. change (vfs_resolve_path [SLASH] s) with (vfs_root s, s). rewrite Root, En, Eo.
  unfold is_directory. cbn [nd_type nd_dir_ops ext2_fs_type]. rewrite Type_dir. cbn [negb Z.eqb VFS_DIRECTORY Pos.eqb].
  change (nd_create (dev s) c dir name) with (callback_result (ext2_vfs_create (with_device c (dev s)) dir name)). by rewrite <- Ef, Ec.
Qed.
End root.

(** ** Writing a new file *)
Lemma new_file_node fs pos : position fs pos -> node fs new_file_inode pos = 0.
Proof.
  revert pos. apply (position_ind fs (fun pos => node fs new_file_inode pos = 0)); [intros n Hn; by apply new_file_blocks|].
  intros pos j I Hj E. rewrite node_app by (by eapply inner_nonempty). unfold child. by rewrite E.
Qed.
Lemma beyond_pos fs c : mounted fs -> beyond fs c -> 0 < c.
Proof. intros M Hb. pose proof (gdt_lt_beyond fs c (v_shape _ (mo_vol _ M)) Hb) as G. unfold gdt_block in G. case_if_in G; lia. Qed.
(** It leaves the other files alone. *)
Lemma write_new_keep fs num d fs' inode' : mounted fs -> write_effect fs new_file_inode num 0 d fs' inode' -> keep fs fs'.
Proof.
  intros M W. constructor; try apply W. intros c Hc. apply (we_other _ _ _ _ _ _ _ W); [done|]. intros pos Hp. rewrite new_file_node by done.
  pose proof (beyond_pos fs c M (pl_beyond _ _ (us_plain _ _ Hc))). lia.
Qed.
(** The root of the tree of names is a directory with the entries [es] of a
    consistent volume. *)
Record rooted (s : ext2_vfs) (k r : Z) (fs : ext2_fs_t) (dir : vfs_node) (es : list dent) : Prop := mk_rooted {
  ro_root : vfs_get_root s = Some r;
  ro_holds : holds s k r fs dir;
  ro_mounted : mounted fs;
  ro_type : dir.(vn_type) = VFS_DIRECTORY;
  ro_dir : dir_inode fs dir.(nd_inode) es
}.
Lemma rooted_view s s' k r fs dir es : same_view s s' -> rooted s k r fs dir es -> rooted s' k r fs dir es.
Proof. intros [R H] [Ro Ho M T D]. constructor; auto. unfold vfs_get_root in *. congruence. Qed.
Lemma rooted_is_dir s k r fs dir es : rooted s k r fs dir es -> is_dir dir = true.
Proof. intros Ro. unfold is_dir. by rewrite (ro_type _ _ _ _ _ _ Ro). Qed.
Lemma rooted_open s k r fs dir es name num inode flags : rooted s k r fs dir es -> name_ok name -> no_slash name -> lookup_name name es = Some num ->
  ext2_read_inode fs num = Some inode ->
  exists s' node, vfs_open (SLASH :: name) flags s = (Some (zlen s.(nodes)), s') /\ rooted s' k r fs dir es /\
    ext2_create_node fs num name = Some node /\ node.(nd_inode) = inode /\ node.(nd_inode_num) = num /\
    holds s' k (zlen s.(nodes)) fs node /\ same_view s s' /\ zlen s'.(nodes) = zlen s.(nodes) + 1.
Proof.
  intros Ro Hn Hs Hl Hi. pose proof (ro_mounted _ _ _ _ _ _ Ro) as M. pose proof (rooted_is_dir _ _ _ _ _ _ Ro) as Hd.
  pose proof (finddir_ok fs _ es M (ro_dir _ _ _ _ _ _ Ro) dir name Hd eq_refl (no_plain _ Hn)) as F. rewrite Hl in F.
  assert (exists node, ext2_create_node fs num name = Some node /\ nd_inode node = inode /\ nd_inode_num node = num) as (node & Ec & En & Em).
  { unfold ext2_create_node. rewrite !kmalloc_mounted by auto. cbn [negb]. rewrite Hi. by eexists. }
  rewrite Ec in F. destruct (open_name s k r fs dir name (ro_root _ _ _ _ _ _ Ro) (ro_holds _ _ _ _ _ _ Ro) (ro_type _ _ _ _ _ _ Ro) Hn Hs flags node F)
    as (s' & E' & V & Hh & L). exists s', node. split; [done|]. split; [by eapply rooted_view|]. done.
Qed.
Lemma holds_range s k p fs node : holds s k p fs node -> 0 <= p < zlen s.(nodes).
Proof. intros (o & c & [Hn _]%node_ctx_inv & _). by eapply rd_Some_range. Qed.
Section write.
Context (s : ext2_vfs) (k r : Z) (fs : ext2_fs_t) (dir : vfs_node) (es : list dent) (name data : list Z) (num p : Z).
Hypothesis Ro : rooted s k r fs dir es.
Hypothesis File : holds s k p fs (file_node num name).
Hypothesis Ne : p <> r.
Hypothesis Num : inode_in fs num.
Hypothesis Bytes : Forall is_u8 data.
Hypothesis Len : 0 < zlen data < 2 ^ 31.
Hypothesis Fits : zlen data <= max_size fs.
(** What the write makes of the state: [n] bytes, the new volume [fs'] and
    the inode of the file. *)
Record written (n : Z) (s' : ext2_vfs) (fs' : ext2_fs_t) (inode' : list Z) : Prop := mk_written {
  wn_count : 0 < n <= zlen data;
  wn_full : n < zlen data -> full fs';
  wn_effect : write_effect fs new_file_inode num 0 (take (Z.to_nat n) data) fs' inode';
  wn_rooted : rooted s' k r fs' dir es;
  wn_other q node : q <> p -> holds s k q fs node -> holds s' k q fs' node
}.
Lemma write_new : exists n s', vfs_write (Some p) 0 data s = (n, s') /\
  ((n = -1 /\ exists fs', holds s' k r fs' dir /\ full fs') \/ exists fs' inode', written n s' fs' inode').
Proof.
  pose proof (ro_mounted _ _ _ _ _ _ Ro) as M. pose proof (g_bs _ (mounted_geom _ M)) as Bs. pose proof (ro_holds _ _ _ _ _ _ Ro) as Hr.
  destruct (write_data_ok fs new_file_inode num 0 data) as (n & fs' & inode' & E & Cs); auto; try (change (i_size new_file_inode) with 0; lia); try lia; [by apply new_file_regular|].
  pose proof File as (o & c & En & Ek & Ef & Eo). unfold vfs_write. rewrite En, Eo.
  change (nd_write (dev s) c (file_node num name) 0 data) with
    (let '(r, (fs, node)) := ext2_vfs_write (with_device c (dev s)) (file_node num name) 0 data in (r, (fs.(device), fs, node))).
  rewrite <- Ef. unfold ext2_vfs_write. change (vn_type (file_node num name) =? VFS_DIRECTORY) with false.
  change (nd_inode (file_node num name)) with new_file_inode. change (nd_inode_num (file_node num name)) with num. rewrite E. cbn iota beta zeta.
  set (node' := if 0 <? n then _ else _). destruct (put_result_holds s k p o c fs' node' En Ek) as (R & L & Hp & Ho).
  eexists _, _. split; [reflexivity|]. destruct Cs as [(Hn & Hf & W)|(-> & Hf & _)].
  - right. exists fs', inode'. pose proof (write_new_keep _ _ _ _ _ M W) as K. constructor; [done|by intros; apply Hf|done| |by intros; eapply Ho]. constructor.
    + unfold vfs_get_root. rewrite R. apply Ro.
    + apply (Ho r fs); auto.
    + apply K.
    + apply Ro.
    + eapply keep_dir; [exact M|exact K|apply Ro].
  - left. split; [done|]. exists fs'. split; [|done]. apply (Ho r fs); auto.
Qed.
End write.
(** The hypotheses of creating [/name]: the root is a directory with room for
    the entry, without the name, and [num] is the lowest free inode. *)
Record can_create (s : ext2_vfs) (k r : Z) (fs : ext2_fs_t) (dir : vfs_node) (name : list Z) (num : Z) (es es' : list dent) : Prop := mk_can_create {
  cc_rooted : rooted s k r fs dir es;
  cc_dir_num : inode_in fs dir.(nd_inode_num);
  cc_name : name_ok name;
  cc_slash : no_slash name;
  cc_absent : lookup_name name es = None;
  cc_free : exists g i, lowest_free INODES fs g i /\ num = unit_number INODES fs g i;
  cc_other : num <> dir.(nd_inode_num);
  cc_room : add_entry num EXT2_FT_REG_FILE name es = Some es'
}.
Section created.
Context (s : ext2_vfs) (k r : Z) (fs : ext2_fs_t) (dir : vfs_node) (name : list Z) (num : Z) (es es' : list dent).
Hypothesis Can : can_create s k r fs dir name num es es'.
Lemma created : exists s1 fs1 dir1, vfs_create (SLASH :: name) s = (0, s1) /\ rooted s1 k r fs1 dir1 es' /\ same_layout fs fs1 /\
  lookup_name name es' = Some num /\ ext2_read_inode fs1 num = Some new_file_inode /\ inode_in fs1 num.
Proof.
  destruct Can as [Ro Hp Hn Hs Hl (g & i & Low & En) Ho Ha]. pose proof (ro_mounted _ _ _ _ _ _ Ro) as M. rewrite En in *.
  destruct (create_ok fs dir name es es' g i) as (fs1 & inode1 & E & M1 & L & D1 & Rn & _); auto; [by eapply rooted_is_dir|apply Ro|].
  destruct (create_name s k r fs dir name (ro_root _ _ _ _ _ _ Ro) (ro_holds _ _ _ _ _ _ Ro) (ro_type _ _ _ _ _ _ Ro) Hn Hs _ _ E) as (s1 & E1 & R1 & H1).
  pose proof Low as [(Hg & Hi & _) _]. pose proof (sh_number _ (v_shape _ (mo_vol _ M)) INODES g i (or_intror eq_refl) Hg Hi) as Nz.
  exists s1, fs1, (with_inode dir inode1). split; [done|]. split; [|split; [done|]; split; [|split; [done|]]].
  - constructor; auto; [|apply Ro]. unfold vfs_get_root. rewrite R1. apply Ro.
  - apply (lookup_add _ _ _ _ _ Ha); [lia|by apply lookup_None].
  - apply (sl_inode_in _ _ L). by apply inode_number_in.
Qed.
(** Creating and opening. *)
Lemma created_opened flags : exists s1 s2 p fs1 dir1, vfs_create (SLASH :: name) s = (0, s1) /\ vfs_open (SLASH :: name) flags s1 = (Some p, s2) /\
  rooted s2 k r fs1 dir1 es' /\ same_layout fs fs1 /\ lookup_name name es' = Some num /\ ext2_read_inode fs1 num = Some new_file_inode /\ inode_in fs1 num /\
  holds s2 k p fs1 (file_node num name) /\ p <> r.
Proof.
  destruct created as (s1 & fs1 & dir1 & E1 & Ro1 & L & Hl & Hi & Hin).
  destruct (rooted_open s1 k r fs1 dir1 es' name num new_file_inode flags Ro1 (cc_name _ _ _ _ _ _ _ _ _ Can) (cc_slash _ _ _ _ _ _ _ _ _ Can) Hl Hi)
    as (s2 & node & E2 & Ro2 & Ec & _ & _ & Hh & _ & _).
  assert (node = file_node num name) as ->.
  { rewrite create_node_new in Ec; [by injection Ec|apply Ro1|apply (no_len _ (cc_name _ _ _ _ _ _ _ _ _ Can))|done]. }
  exists s1, s2, (zlen (nodes s1)), fs1, dir1. repeat (split; [done|]). intros E. pose proof (holds_range _ _ _ _ _ (ro_holds _ _ _ _ _ _ Ro1)). lia.
Qed.
End created.
Lemma read_holds s k p fs node size : holds s k p fs node -> mounted fs -> regular fs node.(nd_inode) -> 0 <= size < 2 ^ 32 ->
  vfs_read (Some p) 0 size s = Some (slice (content fs node.(nd_inode)) 0 (Z.to_nat (Z.min size (i_size node.(nd_inode))))).
Proof.
  intros (o & c & En & _ & Ef & Eo) M R Hs. unfold vfs_read. rewrite En, Eo.
  change (nd_read (dev s) c node 0 size) with (ext2_vfs_read (with_device c (dev s)) node 0 size). rewrite <- Ef. unfold ext2_vfs_read.
  rewrite read_data_ok; auto; try lia; [by rewrite Z.sub_0_r|apply R].
Qed.
Lemma written_slice f d : slice (overlay f 0 d) 0 (length d) = d.
Proof.
  rewrite (slice_ext _ (rd0 d)); [by apply slice_rd0|]. intros p Hp. unfold overlay, zlen.
  rewrite (proj2 (Z.leb_le _ _)), (proj2 (Z.ltb_lt _ _)) by lia. cbn [andb]. f_equal. lia.
Qed.

(** ** Theorems *)
(** C20. A program that creates [/name] in a root directory that does not have the
    name, opens it, writes [data] and opens it again, each by its path, reads
    through the second node exactly the bytes the write reported as written;
    before the write the file was empty.  Fewer bytes than asked, or -1, are
    reported only when no block of the volume is free any more. *)
Theorem vfs_create_write_read s k r fs dir name num es es' data : can_create s k r fs dir name num es es' ->
  Forall is_u8 data -> 0 < zlen data < 2 ^ 31 -> zlen data <= max_size fs ->
  exists s1 s2 s3 p n, vfs_create (SLASH :: name) s = (0, s1) /\ vfs_open (SLASH :: name) 0 s1 = (Some p, s2) /\
    vfs_read (Some p) 0 (zlen data) s2 = Some [] /\ vfs_write (Some p) 0 data s2 = (n, s3) /\
    (n < zlen data -> exists fs3 dir3, holds s3 k r fs3 dir3 /\ full fs3) /\
    (n = -1 \/ (0 < n <= zlen data /\ exists s4 q, vfs_open (SLASH :: name) 0 s3 = (Some q, s4) /\
      vfs_read (Some q) 0 (zlen data) s4 = Some (take (Z.to_nat n) data))).
Proof.
  intros Can Hb Hl Hm. destruct (created_opened _ _ _ _ _ _ _ _ _ Can 0) as (s1 & s2 & p & fs1 & dir1 & E1 & E2 & Ro2 & L & Hln & _ & Hin & Hh & Ne).
  pose proof (ro_mounted _ _ _ _ _ _ Ro2) as M1. assert (Hm1 : zlen data <= max_size fs1) by (by rewrite (sl_max _ _ L)).
  destruct (write_new s2 k r fs1 dir1 es' name data num p Ro2 Hh Ne Hin Hb Hl Hm1) as (n & s3 & E3 & Cs). exists s1, s2, s3, p, n.
  split; [done|]. split; [done|]. split; [|split; [done|]].
  { rewrite (read_holds _ _ _ _ _ _ Hh M1); [|by apply new_file_regular|lia]. change (i_size (nd_inode (file_node num name))) with 0. by rewrite Z.min_r by lia. }
  destruct Cs as [(-> & fs3 & Hr & Hf)|(fs3 & i3 & [Hn Hf W Ro3 _])]; [split; [by exists fs3, dir1|by left]|].
  split; [intros Hlt; exists fs3, dir1; split; [apply Ro3|auto]|]. right. split; [done|].
  destruct (rooted_open s3 k r fs3 dir1 es' name num i3 0 Ro3 (cc_name _ _ _ _ _ _ _ _ _ Can) (cc_slash _ _ _ _ _ _ _ _ _ Can) Hln (we_disk _ _ _ _ _ _ _ W))
    as (s4 & node & E4 & _ & _ & Ei & _ & H4 & _). exists s4, (zlen (nodes s3)). split; [done|].
  assert (Zt : zlen (take (Z.to_nat n) data) = n) by (rewrite zlen_take; lia).
  pose proof (we_size _ _ _ _ _ _ _ W) as Ws. change (i_size new_file_inode) with 0 in Ws. rewrite Zt in Ws.
  rewrite (read_holds _ _ _ _ _ _ H4); [|apply Ro3|rewrite Ei; apply W|lia]. rewrite Ei, Ws. f_equal.
  rewrite <- (written_slice (content fs1 new_file_inode) (take (Z.to_nat n) data)) at 1.
  replace (Z.to_nat (Z.min _ _)) with (length (take (Z.to_nat n) data)) by (unfold zlen in *; lia).
  apply slice_ext. intros x Hx. apply W. unfold zlen in *. lia.
Qed.

(** A node of the file opened before the write keeps its own copy of the
    inode and does not see the write: it reads nothing. *)
Theorem vfs_second_node_stale s k r fs dir name num es es' data : can_create s k r fs dir name num es es' ->
  Forall is_u8 data -> 0 < zlen data < 2 ^ 31 -> zlen data <= max_size fs ->
  exists s1 s2 s3 s4 p q n, vfs_create (SLASH :: name) s = (0, s1) /\ vfs_open (SLASH :: name) 0 s1 = (Some p, s2) /\
    vfs_open (SLASH :: name) 0 s2 = (Some q, s3) /\ vfs_write (Some p) 0 data s3 = (n, s4) /\
    (0 < n -> vfs_read (Some q) 0 (zlen data) s4 = Some []).
Proof.
  intros Can Hb Hl Hm. destruct (created_opened _ _ _ _ _ _ _ _ _ Can 0) as (s1 & s2 & p & fs1 & dir1 & E1 & E2 & Ro2 & L & Hln & Hi & Hin & Hh & Ne).
  pose proof (ro_mounted _ _ _ _ _ _ Ro2) as M1. assert (Hm1 : zlen data <= max_size fs1) by (by rewrite (sl_max _ _ L)).
  destruct (rooted_open s2 k r fs1 dir1 es' name num new_file_inode 0 Ro2 (cc_name _ _ _ _ _ _ _ _ _ Can) (cc_slash _ _ _ _ _ _ _ _ _ Can) Hln Hi)
    as (s3 & node & E3 & Ro3 & _ & Ei & _ & Hq & V & _). pose proof (holds_range _ _ _ _ _ Hh) as Hr.
  destruct (write_new s3 k r fs1 dir1 es' name data num p Ro3 (sv_holds _ _ V _ _ _ _ Hh) Ne Hin Hb Hl Hm1) as (n & s4 & E4 & Cs).
  exists s1, s2, s3, s4, p, (zlen (nodes s2)), n. repeat (split; [done|]). intros Hn.
  destruct Cs as [(-> & _)|(fs3 & i3 & [_ _ W Ro4 Ot])]; [lia|]. assert (Nq : zlen (nodes s2) <> p) by lia.
  rewrite (read_holds _ _ _ _ _ _ (Ot _ _ Nq Hq)); [|apply Ro4|rewrite Ei; apply new_file_regular; apply Ro4|lia].
  rewrite Ei. change (i_size new_file_inode) with 0. by rewrite Z.min_r by lia.
Qed.
(** The small volume mounted on [/]. *)
Definition demo_vfs : ext2_vfs :=
  mk_vfs [mk_filesystem ext2_name tt] (mk_mount [SLASH] (Some (mk_filesystem ext2_name tt)) (Some 0) 0 (Some 0) true :: replicate 15 empty_mount) (Some 0)
    [Some Demo.fs] [mk_obj 0 demo_root 0] Demo.fs.(device).
Lemma demo_can_create : can_create demo_vfs 0 0 Demo.fs demo_root demo_name 3 demo_entries
  [mk_dent 2 12 2 [46]; mk_dent 2 12 2 [46; 46]; mk_dent 3 1000 1 demo_name].
Proof.
  constructor.
  - constructor; [done|by eexists _, Demo.fs|apply demo_mounted|done|apply demo_root_dir].
  - vm_compute. split; congruence.
  - apply demo_name_ok.
  - repeat constructor; vm_compute; congruence.
  - vm_compute. reflexivity.
  - exists 0, 2. split; [apply demo_lowest_inode|reflexivity].
  - vm_compute. congruence.
  - vm_compute. reflexivity.
Qed.
Lemma vfs_create_write_read_witness : exists s1 s2 s3 s4 p q, vfs_create (SLASH :: demo_name) demo_vfs = (0, s1) /\
  vfs_open (SLASH :: demo_name) 0 s1 = (Some p, s2) /\ vfs_write (Some p) 0 [1; 2; 3] s2 = (3, s3) /\
  vfs_open (SLASH :: demo_name) 0 s3 = (Some q, s4) /\ vfs_read (Some q) 0 3 s4 = Some [1; 2; 3].
Proof.
  destruct (vfs_create_write_read _ _ _ _ _ _ _ _ _ [1; 2; 3] demo_can_create) as (s1 & s2 & s3 & p & n & E1 & E2 & _ & E3 & _ & Cs).
  - apply Demo.bytes_check. reflexivity.
  - vm_compute. split; reflexivity.
  - vm_compute. congruence.
  - assert (E0 : n = (vfs_write (Some 1) 0 [1; 2; 3] (vfs_open (SLASH :: demo_name) 0 (vfs_create (SLASH :: demo_name) demo_vfs).2).2).1).
    { rewrite E1. cbn [snd]. rewrite E2. cbn [snd]. assert (Some p = (vfs_open (SLASH :: demo_name) 0 (vfs_create (SLASH :: demo_name) demo_vfs).2).1) as Ep by (by rewrite E1; cbn [snd]; rewrite E2).
      vm_compute in Ep. injection Ep as ->. by rewrite E3. }
    vm_compute in E0. subst n. destruct Cs as [Cs|(_ & s4 & q & E4 & E5)]; [discriminate Cs|]. exists s1, s2, s3, s4, p, q. auto 6.
Defined.
