(* ===== verification/Syscall.v ===== *)
(** The system calls on files and sockets (src/kernel/syscall.c,
    src/fs/file.h) and their Linux versions (src/kernel/linux_compat.c).

    The state is the global table of descriptors, the globals of the server
    socket, the current directory, the virtual file system and the network
    stack.  A call returns its result with the new state, or nothing when it
    follows the null pointer of a table that has not been allocated, which is
    a fault in the kernel.  Strings and buffers of the caller are passed as
    their bytes; where the code tests a pointer for [NULL] the argument is an
    option or a flag.  A socket pointer is the index of the socket with the
    generation of the socket table it points into; following it is
    [use_pointer] of [Tcp].  What other threads and interrupts do to the
    network while a call waits is an argument of the call. *)
From S2P Require Import Prelude NetBase Route Arp Ipv4 Tcp Vfs.

(** ** Descriptors *)
Definition MAX_FD : Z := 32.
Definition FD_STDIN : Z := 0.
Definition FD_STDOUT : Z := 1.
Definition FD_STDERR : Z := 2.
Definition O_RDONLY : Z := 0x0001.
Definition O_WRONLY : Z := 0x0002.
Definition O_RDWR : Z := 0x0003.
Definition O_CREAT : Z := 0x0100.
Definition O_TRUNC : Z := 0x0200.
Definition O_APPEND : Z := 0x0400.
Definition AF_INET : Z := 2.
Definition SOCK_STREAM : Z := 1.
Inductive file_type_t := FILE_TYPE_NONE | FILE_TYPE_CONSOLE | FILE_TYPE_FILE | FILE_TYPE_SOCKET | FILE_TYPE_PIPE.
#[export] Instance file_type_eq_dec : EqDecision file_type_t.
Proof. solve_decision. Defined.
Definition is_type (a b : file_type_t) : bool := bool_decide (a = b).
Definition sock_ptr : Type := Z * Z.
(** The union of the two pointers. *)
Inductive fd_ptr := P_NULL | P_NODE (node : Z) | P_SOCKET (sock : sock_ptr).
Record file_descriptor_t := mk_fd {
  fd_type : file_type_t;
  fd_flags : Z;
  fd_position : Z;
  fd_union : fd_ptr;
  fd_ref_count : Z
}.
Definition fd_vfs_node (d : file_descriptor_t) : option Z := match d.(fd_union) with P_NODE p => Some p | _ => None end.
Definition fd_socket (d : file_descriptor_t) : option sock_ptr := match d.(fd_union) with P_SOCKET k => Some k | _ => None end.
Definition free_fd : file_descriptor_t := mk_fd FILE_TYPE_NONE 0 0 P_NULL 0.
Definition console_fd (flags : Z) : file_descriptor_t := mk_fd FILE_TYPE_CONSOLE flags 0 P_NULL 1.
Definition initial_fds : list file_descriptor_t :=
  [console_fd O_RDONLY; console_fd O_WRONLY; console_fd O_WRONLY] ++ replicate (Z.to_nat (MAX_FD - 3)) free_fd.

Section syscall.
Context {F D C N E : Type} `{FileSystem F D C N E}.
(** Do the allocations of the table of descriptors and of the socket tables
    succeed? *)
Context (table_ok : bool) (kmalloc_ok : Z -> bool).

Record sys := mk_sys {
  fd_table : option (list file_descriptor_t);
  fd_table_initialized : bool;
  g_server_socket : option sock_ptr;
  g_server_fd : Z;
  g_server_closing : bool;
  current_working_dir : list Z;
  files : vfs F D C N;
  network : net * tcp
}.
Definition with_fds (s : sys) (t : list file_descriptor_t) : sys :=
  mk_sys (Some t) true s.(g_server_socket) s.(g_server_fd) s.(g_server_closing) s.(current_working_dir) s.(files) s.(network).
Definition with_server (s : sys) (k : option sock_ptr) (fd : Z) : sys :=
  mk_sys s.(fd_table) s.(fd_table_initialized) k fd false s.(current_working_dir) s.(files) s.(network).
Definition with_cwd (s : sys) (p : list Z) : sys :=
  mk_sys s.(fd_table) s.(fd_table_initialized) s.(g_server_socket) s.(g_server_fd) s.(g_server_closing) p s.(files) s.(network).
Definition with_files (s : sys) (v : vfs F D C N) : sys :=
  mk_sys s.(fd_table) s.(fd_table_initialized) s.(g_server_socket) s.(g_server_fd) s.(g_server_closing) s.(current_working_dir) v s.(network).
Definition with_network (s : sys) (n : net * tcp) : sys :=
  mk_sys s.(fd_table) s.(fd_table_initialized) s.(g_server_socket) s.(g_server_fd) s.(g_server_closing) s.(current_working_dir) s.(files) n.

(** ** Calls that may fault *)
Definition call (A : Type) : Type := sys -> option (A * sys).
Definition ret {A} (a : A) : call A := fun s => Some (a, s).
Definition bind {A B} (m : call A) (f : A -> call B) : call B := fun s => match m s with Some (a, s) => f a s | None => None end.
Local Notation "'let*' x := m 'in' k" := (bind m (fun x => k)) (at level 10, x pattern, m at level 100, k at level 200).
Definition get : call sys := fun s => Some (s, s).
Definition run_vfs {A} (f : vfs F D C N -> A * vfs F D C N) : call A := fun s => let '(a, v) := f s.(files) in Some (a, with_files s v).
Definition run_net {A} (f : net * tcp -> A * (net * tcp)) : call A := fun s => let '(a, n) := f s.(network) in Some (a, with_network s n).
Definition set_server (k : option sock_ptr) (fd : Z) : call unit := fun s => Some (tt, with_server s k fd).
(** [fd_table[fd]] *)
Definition fd_at (fd : Z) : call file_descriptor_t := fun s =>
  match s.(fd_table) with Some t => match rd t fd with Some d => Some (d, s) | None => None end | None => None end.
Definition set_fd (fd : Z) (d : file_descriptor_t) : call unit := fun s =>
  match s.(fd_table) with Some t => Some (tt, with_fds s (wr t fd d)) | None => None end.
(** The socket behind a pointer. *)
Definition sock_of (k : sock_ptr) : call tcp_socket_t := run_net (fun n => (sock_at n.2 k.1, on_tcp (use_pointer k.2) n)).
(** A pointer to the socket [i] obtained now. *)
Definition new_ptr (i : Z) : call sock_ptr := fun s => Some ((i, s.(network).2.(tcp_gen)), s).

Definition fd_table_init : call unit := fun s =>
  match s.(fd_table) with
  | Some _ => if s.(fd_table_initialized) then Some (tt, s) else Some (tt, with_fds s initial_fds)
  | None => if table_ok then Some (tt, with_fds s initial_fds) else Some (tt, s)
  end.
Definition first_free (t : list file_descriptor_t) : option Z :=
  find_loop (Z.to_nat (MAX_FD - 3)) 3 (fun i =>
    match rd t i with Some d => if is_type d.(fd_type) FILE_TYPE_NONE then Some i else None | None => None end).
Definition fd_alloc : call Z :=
  let* _ := fd_table_init in
  fun s =>
    match s.(fd_table) with
    | None => None
    | Some t =>
        match first_free t with
        | None => Some (-1, s)
        | Some i =>
            (let* d := fd_at i in
             let* _ := set_fd i (mk_fd d.(fd_type) d.(fd_flags) d.(fd_position) d.(fd_union) 1) in
             ret i) s
        end
    end.
Definition fd_free (fd : Z) : call unit :=
  if (fd <? 0) || (MAX_FD <=? fd) then ret tt else if fd <? 3 then ret tt else set_fd fd free_fd.
Definition bad_fd (fd : Z) : bool := (fd <? 0) || (MAX_FD <=? fd).

(** ** Files *)
Definition sys_write (fd : Z) (buf : list Z) (count : Z) : call Z := ret 0.
Definition sys_open (path : option (list Z)) (flags : Z) : call Z :=
  let* _ := fd_table_init in
  match path with
  | None => ret (-1)
  | Some path =>
      let* node := run_vfs (vfs_open path (u32 flags)) in
      match node with
      | None => ret (-1)
      | Some node =>
          let* fd := fd_alloc in
          if fd <? 0 then let* _ := run_vfs (vfs_close (Some node)) in ret (-1)
          else
            let* d := fd_at fd in
            let* _ := set_fd fd (mk_fd FILE_TYPE_FILE (u32 flags) 0 (P_NODE node) d.(fd_ref_count)) in
            ret fd
      end
  end.
(** The result and the bytes stored in the caller's buffer, [None] when that
    is [NULL]. *)
Definition sys_read (fd : Z) (buf : option unit) (count : Z) : call (Z * list Z) :=
  let* _ := fd_table_init in
  if bool_decide (buf = None) || bad_fd fd then ret (-1, [])
  else
    let* d := fd_at fd in
    match d.(fd_type) with
    | FILE_TYPE_FILE =>
        match fd_vfs_node d with
        | None => ret (-1, [])
        | Some node =>
            let* s := get in
            match vfs_read (Some node) d.(fd_position) (u32 count) s.(files) with
            | None => ret (-1, [])
            | Some data =>
                let bytes_read := s32 (zlen data) in
                let* _ :=
                  (if 0 <? bytes_read
                   then set_fd fd (mk_fd d.(fd_type) d.(fd_flags) (u32 (d.(fd_position) + bytes_read)) d.(fd_union) d.(fd_ref_count))
                   else ret tt) in
                ret (bytes_read, data)
            end
        end
    | FILE_TYPE_CONSOLE => ret (0, [])
    | _ => ret (-1, [])
    end.
Definition sys_mkdir (path : option (list Z)) : call Z :=
  match path with None => ret (-1) | Some path => run_vfs (vfs_mkdir path) end.
Definition sys_create (path : option (list Z)) : call Z :=
  match path with None => ret (-1) | Some path => run_vfs (vfs_create path) end.

(** ** Directories *)
Definition PATH_ROOM : nat := Z.to_nat (VFS_MAX_PATH - 1).
Definition sys_getcwd (buf : option unit) (size : Z) : call (Z * list Z) :=
  let* s := get in
  if bool_decide (buf = None) || (size =? 0) then ret (-1, [])
  else if size <=? zlen s.(current_working_dir) then ret (-1, [])
  else ret (0, s.(current_working_dir)).
Definition absolute (cwd path : list Z) : list Z :=
  if is_absolute path then take PATH_ROOM path
  else
    let base := take PATH_ROOM cwd in
    let base :=
      if (0 <? zlen base) && negb (default 0 (list.last base) =? SLASH) && (zlen base <? VFS_MAX_PATH - 1) then base ++ [SLASH] else base in
    take PATH_ROOM (base ++ path).
(** Is the node at [p] a directory? *)
Definition node_is_dir (v : vfs F D C N) (p : Z) : bool :=
  match rd v.(nodes) p with Some o => is_directory o.(o_node) | None => false end.
Definition sys_chdir (path : option (list Z)) : call Z :=
  match path with
  | None => ret (-1)
  | Some path =>
      let* s := get in
      let new_path := absolute s.(current_working_dir) path in
      let* node := run_vfs (vfs_resolve_path new_path) in
      match node with
      | None => ret (-1)
      | Some p =>
          let* s := get in
          if negb (node_is_dir s.(files) p) then ret (-1)
          else fun s => Some (0, with_cwd s (take PATH_ROOM new_path))
      end
  end.
Record userspace_dirent_t := mk_udirent { ud_name : list Z; ud_type : Z; ud_size : Z }.
Definition sys_readdir (path : option (list Z)) (index : Z) (entry : option unit) : call (Z * option userspace_dirent_t) :=
  match path with
  | None => ret (-1, None)
  | Some path =>
      if bool_decide (entry = None) then ret (-1, None)
      else
        let* dir := run_vfs (vfs_resolve_path path) in
        match dir with
        | None => ret (-1, None)
        | Some p =>
            let* s := get in
            if negb (node_is_dir s.(files) p) then ret (-1, None)
            else
              match vfs_readdir (Some p) index s.(files) with
              | None => ret (1, None)
              | Some dirent =>
                  let* file_node := run_vfs (vfs_finddir (Some p) (ent_name dirent)) in
                  let* s := get in
                  let size :=
                    match file_node with
                    | Some q => match rd s.(files).(nodes) q with Some o => nd_size o.(o_node) | None => 0 end
                    | None => 0
                    end in
                  ret (0, Some (mk_udirent (take 255 (ent_name dirent)) (ent_type dirent) size))
              end
        end
  end.

(** ** Sockets *)
Definition sys_socket (domain type protocol : Z) : call Z :=
  if negb (domain =? AF_INET) then ret (-1)
  else if negb (type =? SOCK_STREAM) then ret (-1)
  else
    let* sock := run_net (fun n => let '(k, t) := tcp_socket_create kmalloc_ok n.2 in (k, (n.1, t))) in
    match sock with
    | None => ret (-1)
    | Some i =>
        let* k := new_ptr i in
        let* fd := fd_alloc in
        if fd <? 0 then let* _ := run_net (fun n => (tt, tcp_close (Some i) n)) in ret (-1)
        else
          let* d := fd_at fd in
          let* _ := set_fd fd (mk_fd FILE_TYPE_SOCKET O_RDWR d.(fd_position) (P_SOCKET k) d.(fd_ref_count)) in
          let* _ := set_server (Some k) fd in
          ret fd
    end.
(** The checks the calls on sockets share. *)
Definition with_socket {A} (fd : Z) (bad none : A) (f : sock_ptr -> call A) : call A :=
  if bad_fd fd then ret bad
  else
    let* d := fd_at fd in
    if negb (is_type d.(fd_type) FILE_TYPE_SOCKET) then ret bad
    else match fd_socket d with None => ret none | Some k => f k end.
(** [sin_port] of the address, when there is one. *)
Definition sys_bind (fd : Z) (addr : option Z) (len : Z) : call Z :=
  let* _ := fd_table_init in
  with_socket fd (-1) (-1) (fun k =>
    match addr with
    | None => ret (-1)
    | Some sin_port =>
        let* _ := sock_of k in
        run_net (fun n => let '(r, t) := tcp_bind (Some k.1) (htons sin_port) n.2 in (r, (n.1, t)))
    end).
Definition sys_listen (fd backlog : Z) : call Z :=
  with_socket fd (-1) (-1) (fun k =>
    let* sock := sock_of k in
    if sock.(sk_local_port) =? 0 then ret (-1)
    else let* _ := run_net (fun n => (tt, on_sock k.1 (set_state TCP_STATE_LISTEN) n)) in ret 0).
(** The address of the client: [sin_port] and [sin_addr]. *)
Definition client_addr (k : tcp_socket_t) : Z * Z :=
  (htons k.(sk_remote_port),
   Z.lor (Z.lor (Z.lor (rd0 k.(sk_remote_ip) 0) (Z.shiftl (rd0 k.(sk_remote_ip) 1) 8)) (Z.shiftl (rd0 k.(sk_remote_ip) 2) 16))
     (Z.shiftl (rd0 k.(sk_remote_ip) 3) 24)).
(** [wait] is [wait_queue_wait_timeout]: its answer and the network after it. *)
Definition sys_accept (wait : net * tcp -> bool * (net * tcp)) (fd : Z) (addr : option unit) : call (Z * option (Z * Z)) :=
  with_socket fd (-1, None) (-1, None) (fun k =>
    let* listen_sock := sock_of k in
    if negb (is_state listen_sock.(sk_state) TCP_STATE_LISTEN) then ret (-1, None)
    else
      let find := run_net (fun n => (tcp_find_ready_client n.2 listen_sock.(sk_local_port), n)) in
      let* ready := find in
      let* client :=
        match ready with
        | Some c => ret (Some c)
        | None =>
            let* got_client := run_net wait in
            if negb got_client then ret None
            else
              let* listen_sock := sock_of k in
              run_net (fun n => (tcp_find_ready_client n.2 listen_sock.(sk_local_port), n))
        end in
      match client with
      | None => ret (-1, None)
      | Some c =>
          let* kc := new_ptr c in
          let* client_fd := fd_alloc in
          if client_fd <? 0 then let* _ := run_net (fun n => (tt, tcp_close (Some c) n)) in ret (-1, None)
          else
            let* d := fd_at client_fd in
            let* _ := set_fd client_fd (mk_fd FILE_TYPE_SOCKET O_RDWR d.(fd_position) (P_SOCKET kc) d.(fd_ref_count)) in
            let* client_sock := sock_of kc in
            ret (client_fd, match addr with Some _ => Some (client_addr client_sock) | None => None end)
      end).
(** The loop that waits for data: each element of [waits] is one return from
    [wait_queue_wait].  [None] when the call still waits after them. *)
Fixpoint recv_wait (waits : list (net * tcp -> net * tcp)) (k : sock_ptr) : call (option bool) :=
  let* sock := sock_of k in
  if negb (sock.(sk_recv_count) =? 0) then ret (Some true)
  else if negb (is_state sock.(sk_state) TCP_STATE_ESTABLISHED) then ret (Some false)
  else
    match waits with
    | [] => ret None
    | w :: waits' => let* _ := run_net (fun n => (tt, w n)) in recv_wait waits' k
    end.
Definition sys_recv (waits : list (net * tcp -> net * tcp)) (fd len : Z) : call (option (Z * list Z)) :=
  with_socket fd (Some (-1, [])) (Some (0, [])) (fun k =>
    let* sock := sock_of k in
    if negb (is_state sock.(sk_state) TCP_STATE_ESTABLISHED) then ret (Some (0, []))
    else
      let* ready := recv_wait waits k in
      match ready with
      | None => ret None
      | Some false => ret (Some (0, []))
      | Some true =>
          run_net (fun n => let '(r, out, t) := tcp_recv (Some k.1) len n.2 in (Some (r, out), (n.1, t)))
      end).
Definition sys_send (fd : Z) (buf : list Z) : call Z :=
  with_socket fd (-1) (-1) (fun k => let* _ := sock_of k in run_net (tcp_send (Some k.1) buf)).

(** ** Closing *)
Definition is_server (s : sys) (k : sock_ptr) : bool := bool_decide (s.(g_server_socket) = Some k).
Definition sys_close (fd : Z) : call Z :=
  if bad_fd fd then ret (-1)
  else if fd <? 3 then ret (-1)
  else
    let* s := get in
    match s.(fd_table) with
    | None => ret (-1)
    | Some _ =>
        let* d := fd_at fd in
        if is_type d.(fd_type) FILE_TYPE_NONE then ret (-1)
        else
          match (if (fd =? s.(g_server_fd)) && s.(g_server_closing) then s.(g_server_socket) else None) with
          | Some k =>
              let* _ := sock_of k in
              let* _ := run_net (fun n => (tt, tcp_close (Some k.1) n)) in
              let* _ := set_server None (-1) in
              let* _ := fd_free fd in
              ret 0
          | None =>
              match (if is_type d.(fd_type) FILE_TYPE_SOCKET then fd_socket d else None) with
              | Some k =>
                  let* sock := sock_of k in
                  if is_server s k
                  then let* _ := run_net (fun n => (tt, tcp_close_and_relisten (Some k.1) sock.(sk_local_port) n)) in ret 0
                  else
                    let* _ := run_net (fun n => (tt, tcp_close (Some k.1) n)) in
                    let* _ := fd_free fd in
                    ret 0
              | None =>
                  let* _ :=
                    match (if is_type d.(fd_type) FILE_TYPE_FILE then fd_vfs_node d else None) with
                    | Some node => let* _ := run_vfs (vfs_close (Some node)) in ret tt
                    | None => ret tt
                    end in
                  let* _ := fd_free fd in
                  ret 0
              end
          end
    end.

(** ** The Linux versions *)
Definition has_flag (flags f : Z) : bool := negb (Z.land flags f =? 0).
Definition linux_to_native_flags (linux_flags : Z) : Z :=
  let native_flags := 0 in
  let native_flags := if Z.land linux_flags 3 =? 0 then Z.lor native_flags O_RDONLY else native_flags in
  let native_flags := if Z.land linux_flags 3 =? 1 then Z.lor native_flags O_WRONLY else native_flags in
  let native_flags := if Z.land linux_flags 3 =? 2 then Z.lor native_flags O_RDWR else native_flags in
  let native_flags := if has_flag linux_flags 0x40 then Z.lor native_flags O_CREAT else native_flags in
  let native_flags := if has_flag linux_flags 0x200 then Z.lor native_flags O_TRUNC else native_flags in
  if has_flag linux_flags 0x400 then Z.lor native_flags O_APPEND else native_flags.
Definition native_to_linux_errno (native_error : Z) : Z :=
  if native_error <? 0 then native_error else if native_error =? 0 then 0 else - native_error.
Definition linux_sys_read (fd : Z) (buf : option unit) (count : Z) : call (Z * list Z) :=
  let* r := sys_read fd buf (u32 count) in ret (native_to_linux_errno r.1, r.2).
Definition linux_sys_write (fd : Z) (buf : list Z) (count : Z) : call Z :=
  let* r := sys_write fd buf (u32 count) in ret (native_to_linux_errno r).
Definition linux_sys_open (path : option (list Z)) (flags mode : Z) : call Z :=
  let* r := sys_open path (linux_to_native_flags flags) in ret (native_to_linux_errno r).
Definition linux_sys_close (fd : Z) : call Z := let* r := sys_close fd in ret (native_to_linux_errno r).
Definition linux_sys_getcwd (buf : option unit) (size : Z) : call (Z * list Z) :=
  let* r := sys_getcwd buf (u32 size) in ret (native_to_linux_errno r.1, r.2).
Definition linux_sys_chdir (path : option (list Z)) : call Z := let* r := sys_chdir path in ret (native_to_linux_errno r).
Definition linux_sys_mkdir (path : option (list Z)) (mode : Z) : call Z :=
  let* r := sys_mkdir path in ret (native_to_linux_errno r).
Definition linux_sys_access (path : list Z) (mode : Z) : call Z :=
  let* node := run_vfs (vfs_open path 0) in
  match node with
  | Some p => let* _ := run_vfs (vfs_close (Some p)) in ret 0
  | None => ret (-2)
  end.
End syscall.
Arguments sys : clear implicits.
Arguments call : clear implicits.
