(* ===== verification/SyscallSpec.v ===== *)
(** Properties of the system calls: the table of descriptors stays well formed and no
    call faults once it is allocated, descriptors are given out and taken
    back, files are read as streams, and the current directory. *)
From S2P Require Import Prelude NetBase Tcp Vfs VfsSpec Syscall.

Create HintDb syscall.

Section spec.
Context {F D C N E : Type} `{FileSystem F D C N E}.
Context (table_ok : bool).
Implicit Types (s : sys F D C N) (v : vfs F D C N) (t : list file_descriptor_t).

(** ** The invariant *)
(** A descriptor after the three of the console: what it points to is of its
    type, and a free one is as [fd_free] leaves it. *)
Definition fd_good v (d : file_descriptor_t) : Prop :=
  match d.(fd_type) with
  | FILE_TYPE_NONE => d = free_fd
  | FILE_TYPE_FILE => exists p, d.(fd_union) = P_NODE p /\ 0 <= p < zlen v.(nodes)
  | FILE_TYPE_SOCKET => exists k, d.(fd_union) = P_SOCKET k
  | _ => False
  end.
Record fds_ok v t : Prop := mk_fds_ok {
  fo_len : zlen t = MAX_FD;
  fo_std i : 0 <= i < 3 -> rd t i = Some (console_fd (if i =? 0 then O_RDONLY else O_WRONLY));
  fo_good i d : 3 <= i -> rd t i = Some d -> fd_good v d
}.
Definition cwd_ok (cwd : list Z) : Prop := is_absolute cwd = true /\ zlen cwd < VFS_MAX_PATH.
Record inv s : Prop := mk_inv {
  in_table : exists t, s.(fd_table) = Some t /\ fds_ok s.(files) t;
  in_init : s.(fd_table_initialized) = true;
  in_closing : s.(g_server_closing) = false;
  in_cwd : cwd_ok s.(current_working_dir)
}.
Lemma fd_good_grows v v' d : zlen v.(nodes) <= zlen v'.(nodes) -> fd_good v d -> fd_good v' d.
Proof. unfold fd_good. intros L. destruct (fd_type d); auto. intros (p & ? & ?). exists p. split; [done|lia]. Qed.
Lemma grows_zlen v v' : grows v v' -> zlen v.(nodes) <= zlen v'.(nodes).
Proof.
  intros G. destruct (decide (zlen (nodes v) = 0)) as [->|Ne]; [apply zlen_nonneg|]. pose proof (zlen_nonneg (nodes v)) as P.
  destruct (rd_is_Some (nodes v) (zlen (nodes v) - 1)) as [o Ho]; [lia|]. destruct (gr_nodes _ _ G _ _ Ho) as (o' & Ho' & _).
  pose proof (rd_Some_range _ _ _ Ho'). lia.
Qed.
Lemma inv_files s v : grows s.(files) v -> inv s -> inv (with_files s v).
Proof.
  intros G [(t & Et & [L S Gd]) I Cl Cw]. constructor; auto. exists t. split; [done|]. constructor; auto.
  intros i d Hi Hd. eapply fd_good_grows; [by apply grows_zlen|by eapply Gd].
Qed.
Lemma inv_net s n : inv s -> inv (with_network s n).
Proof. intros [T I Cl Cw]. by constructor. Qed.
Lemma inv_set s t fd d : inv s -> s.(fd_table) = Some t -> 3 <= fd -> fd_good s.(files) d -> inv (with_fds s (wr t fd d)).
Proof.
  intros [(t' & Et & [L S Gd]) I Cl Cw] E1 Hf Hg. assert (t' = t) as -> by congruence. constructor; auto. eexists. split; [done|]. constructor.
  - by rewrite zlen_wr.
  - intros i Hi. rewrite rd_wr_ne by lia. by apply S.
  - intros i d' Hi [[-> ->]|[_ Hd]]%rd_wr_inv; [done|by eapply Gd].
Qed.
Lemma inv_init v : cwd_ok [SLASH] /\ fds_ok v initial_fds.
Proof.
  split; [split; [done|vm_compute; reflexivity]|]. constructor; [done| |].
  - intros i Hi. assert (i = 0 \/ i = 1 \/ i = 2) as [->|[->| ->]] by lia; done.
  - intros i d Hi Hd. assert (Fa : Forall (fun d => d = free_fd) (drop 3 initial_fds)) by (vm_compute; repeat constructor).
    unfold rd in Hd. rewrite (proj2 (Z.leb_le 0 i)) in Hd by lia. assert (Hk : drop 3 initial_fds !! (Z.to_nat i - 3)%nat = Some d) by (rewrite lookup_drop; by replace (3 + _)%nat with (Z.to_nat i) by lia).
    rewrite list.Forall_lookup in Fa. by rewrite (Fa _ _ Hk).
Qed.

(** ** Calls that keep the invariant *)
Definition keeps {A} (m : call F D C N A) : Prop := forall s, inv s -> exists a s', m s = Some (a, s') /\ inv s'.
Lemma keeps_ret {A} (a : A) : keeps (ret a).
Proof. intros s I. by exists a, s. Qed.
Lemma keeps_bind {A B} (m : call F D C N A) (f : A -> call F D C N B) : keeps m -> (forall a, keeps (f a)) -> keeps (bind m f).
Proof. intros Hm Hf s I. destruct (Hm s I) as (a & s' & E1 & I'). unfold bind. rewrite E1. by apply Hf. Qed.
Lemma keeps_get : keeps get.
Proof. intros s I. by exists s, s. Qed.
Lemma keeps_vfs {A} (f : vfs F D C N -> A * vfs F D C N) : (forall v, grows v (f v).2) -> keeps (run_vfs f).
Proof. intros G s I. specialize (G (files s)). unfold run_vfs. destruct (f (files s)) as [a v]. exists a, (with_files s v). split; [done|by apply inv_files]. Qed.
Lemma keeps_net {A} (f : net * tcp -> A * (net * tcp)) : keeps (run_net f).
Proof. intros s I. unfold run_net. destruct (f (network s)) as [a n]. exists a, (with_network s n). split; [done|by apply inv_net]. Qed.
Lemma keeps_server k fd : keeps (set_server k fd).
Proof. intros s [T I Cl Cw]. eexists _, _. split; [done|]. by constructor. Qed.
Lemma keeps_ptr i : keeps (new_ptr i).
Proof. intros s I. by eexists _, s. Qed.
Lemma init_keep s : inv s -> fd_table_init table_ok s = Some (tt, s).
Proof. intros I. destruct (in_table _ I) as (t & Et & _). unfold fd_table_init. by rewrite Et, (in_init _ I). Qed.
Lemma keeps_init : keeps (fd_table_init table_ok).
Proof. intros s I. exists tt, s. split; [by apply init_keep|done]. Qed.
Lemma keeps_if {A} (b : bool) (m1 m2 : call F D C N A) : keeps m1 -> keeps m2 -> keeps (if b then m1 else m2).
Proof. by destruct b. Qed.
Lemma bad_fd_false fd : bad_fd fd = false -> 0 <= fd < MAX_FD.
Proof. unfold bad_fd. intros Hb. bool_hyps. lia. Qed.
(** Looking at a descriptor that exists. *)
Lemma keeps_fd_at {A} fd (f : file_descriptor_t -> call F D C N A) : 0 <= fd < MAX_FD ->
  (forall s t d, inv s -> s.(fd_table) = Some t -> rd t fd = Some d -> fds_ok s.(files) t -> exists a s', f d s = Some (a, s') /\ inv s') ->
  keeps (bind (fd_at fd) f).
Proof.
  intros Hf Hk s I. destruct (in_table _ I) as (t & Et & O). destruct (rd_is_Some t fd) as [d Hd]; [rewrite (fo_len _ _ O); done|].
  unfold bind, fd_at. rewrite Et, Hd. by apply (Hk s t d).
Qed.
Lemma keeps_free fd : 3 <= fd < MAX_FD -> keeps (fd_free fd).
Proof.
  intros Hf s I. destruct (in_table _ I) as (t & Et & O). unfold fd_free. rewrite (proj2 (Z.ltb_ge fd 0)), (proj2 (Z.leb_gt MAX_FD fd)), (proj2 (Z.ltb_ge fd 3)) by lia.
  cbn [orb]. unfold set_fd. rewrite Et. eexists _, _. split; [done|]. apply inv_set; [done|done|lia|done].
Qed.
(** What [fd_alloc] returns is a free descriptor, with its count set. *)
Definition alloc_fd : file_descriptor_t := mk_fd FILE_TYPE_NONE 0 0 P_NULL 1.
Lemma first_free_Some t i : first_free t = Some i -> 3 <= i < MAX_FD /\ (exists d, rd t i = Some d /\ d.(fd_type) = FILE_TYPE_NONE) /\
  forall j d, 3 <= j < i -> rd t j = Some d -> d.(fd_type) <> FILE_TYPE_NONE.
Proof.
  unfold first_free. intros (k & Hk & Hf & Hm)%find_loop_Some. destruct (rd t k) as [d|] eqn:Hd; [|done].
  unfold is_type in Hf. case_bool_decide as Ht; [|done]. injection Hf as <-. change (Z.to_nat (MAX_FD - 3)) with 29%nat in Hk. unfold MAX_FD.
  split; [lia|]. split; [by exists d|]. intros j d' Hj Hd'. specialize (Hm j ltac:(lia)). rewrite Hd' in Hm. intros E1. unfold is_type in Hm. by rewrite bool_decide_eq_true_2 in Hm.
Qed.
Lemma fd_alloc_eq s t : inv s -> s.(fd_table) = Some t ->
  fd_alloc table_ok s = match first_free t with None => Some (-1, s) | Some i => Some (i, with_fds s (wr t i alloc_fd)) end.
Proof.
  intros I Et. unfold fd_alloc, bind at 1. rewrite init_keep, Et by done. destruct (first_free t) as [i|] eqn:Ef; [|done].
  apply first_free_Some in Ef as (Hi & (d & Hd & Ht) & _). destruct (in_table _ I) as (t' & Et' & O). assert (t' = t) as -> by congruence.
  pose proof (fo_good _ _ O i d ltac:(lia) Hd) as G. unfold fd_good in G. rewrite Ht in G. subst d. unfold bind, fd_at, set_fd. by rewrite Et, Hd, Et.
Qed.
(** Giving out a descriptor and filling it in, as [sys_open], [sys_socket] and
    [sys_accept] do. *)
Definition install {A} (fail : call F D C N A) (mk : file_descriptor_t -> file_descriptor_t) (k : Z -> call F D C N A) : call F D C N A :=
  bind (fd_alloc table_ok) (fun fd => if fd <? 0 then fail else bind (fd_at fd) (fun d => bind (set_fd fd (mk d)) (fun _ => k fd))).
Lemma install_eq {A} (fail : call F D C N A) mk k s t : inv s -> s.(fd_table) = Some t ->
  install fail mk k s = match first_free t with None => fail s | Some i => k i (with_fds s (wr t i (mk alloc_fd))) end.
Proof.
  intros I Et. unfold install, bind at 1. rewrite (fd_alloc_eq s t) by done. destruct (first_free t) as [i|] eqn:Ef; [|done].
  apply first_free_Some in Ef as (Hi & (d & Hd & _) & _). rewrite (proj2 (Z.ltb_ge i 0)) by lia. unfold bind, fd_at, set_fd. cbn.
  rewrite rd_wr_eq by (by eapply rd_Some_range). unfold with_fds. cbn. by rewrite wr_wr_eq.
Qed.
Lemma install_ok {A} (fail : call F D C N A) mk k s : inv s -> keeps fail -> (forall fd, keeps (k fd)) -> fd_good s.(files) (mk alloc_fd) ->
  exists a s', install fail mk k s = Some (a, s') /\ inv s'.
Proof.
  intros I Hf Hk Hg. destruct (in_table _ I) as (t & Et & O). rewrite (install_eq fail mk k s t) by done.
  destruct (first_free t) as [i|] eqn:Ef; [|by apply Hf]. apply first_free_Some in Ef as (Hi & _). apply Hk. apply inv_set; auto. lia.
Qed.
Lemma keeps_install {A} (fail : call F D C N A) mk k : keeps fail -> (forall fd, keeps (k fd)) -> (forall v, fd_good v (mk alloc_fd)) ->
  keeps (install fail mk k).
Proof. intros Hf Hk Hg s I. by apply install_ok. Qed.
Lemma keeps_with_socket {A} fd (bad none : A) f : (forall k, keeps (f k)) -> keeps (with_socket (C:=C) (D:=D) (F:=F) (N:=N) fd bad none f).
Proof.
  intros Hk. unfold with_socket. destruct (bad_fd fd) eqn:Hb; [apply keeps_ret|]. apply keeps_fd_at; [by apply bad_fd_false|]. intros s t d I _ _ _.
  revert s I. change (keeps (if negb (is_type (fd_type d) FILE_TYPE_SOCKET) then ret bad else match fd_socket d with Some k => f k | None => ret none end)).
  apply keeps_if; [apply keeps_ret|]. destruct (fd_socket d); [apply Hk|apply keeps_ret].
Qed.
End spec.
(** Goals [keeps m], by the structure of [m]. *)
Ltac keep :=
  repeat first
    [ apply keeps_ret | apply keeps_get | apply keeps_net | apply keeps_server | apply keeps_ptr | apply keeps_init
    | apply keeps_vfs; intros ? | apply keeps_with_socket; intros ?
    | lazymatch goal with |- keeps (bind (fd_alloc _) _) => fail | |- keeps (bind _ _) => apply keeps_bind; [|intros ?] end
    | match goal with |- keeps (match ?x with _ => _ end) => destruct x end ].

Section calls.
Context {F D C N E : Type} `{FileSystem F D C N E}.
Context (table_ok : bool).
Implicit Types (s : sys F D C N) (v : vfs F D C N) (t : list file_descriptor_t).

(** ** Every call keeps the invariant *)
Lemma close_grows node v : grows v (vfs_close node v).2.
Proof. destruct node; [apply set_refcount_grows|apply vfs_grows_refl]. Qed.
Lemma create_grows path v : grows v (vfs_create path v).2.
Proof. unfold vfs_create. destruct (negb _); [apply vfs_grows_refl|apply in_parent_grows]. Qed.
Lemma mkdir_grows path v : grows v (vfs_mkdir path v).2.
Proof. unfold vfs_mkdir. destruct (negb _); [apply vfs_grows_refl|apply in_parent_grows]. Qed.
Lemma open_valid path flags v p v' : vfs_open path flags v = (Some p, v') -> 0 <= p < zlen v'.(nodes).
Proof.
  unfold vfs_open. destruct (vfs_resolve_path path v) as [[q|] v1]; [|done]. destruct (rd (nodes v1) q) as [o|] eqn:Ho; [|done].
  destruct (negb _); [done|]. intros [= <- <-]. unfold set_refcount. rewrite Ho. cbn. rewrite zlen_wr. by eapply rd_Some_range.
Qed.
Lemma keeps_sock k : keeps (sock_of k : call F D C N _).
Proof. apply keeps_net. Qed.
Lemma keeps_open path flags : keeps (sys_open table_ok path flags).
Proof.
  unfold sys_open. apply keeps_bind; [apply keeps_init|intros _]. destruct path as [path|]; [|apply keeps_ret]. intros s I.
  unfold bind at 1, run_vfs at 1. pose proof (open_grows path (u32 flags) (files s)) as G. destruct (vfs_open path (u32 flags) (files s)) as [[p|] v] eqn:Eo; cbn [snd] in G.
  - refine (install_ok table_ok (bind (run_vfs (vfs_close (Some p))) (fun _ => ret (-1))) (fun d => mk_fd FILE_TYPE_FILE (u32 flags) 0 (P_NODE p) d.(fd_ref_count)) ret _ _ _ _ _).
    + by apply inv_files.
    + keep. apply close_grows.
    + intros fd. apply keeps_ret.
    + exists p. split; [done|]. by eapply open_valid.
  - eexists _, _. split; [done|]. by apply inv_files.
Qed.
Lemma keeps_read fd buf count : keeps (sys_read table_ok fd buf count).
Proof.
  unfold sys_read. apply keeps_bind; [apply keeps_init|intros _]. destruct (bool_decide _ || _) eqn:Eb; [apply keeps_ret|]. apply orb_false_iff in Eb as [_ Hb].
  pose proof (bad_fd_false _ Hb) as Hr. apply keeps_fd_at; [done|]. intros s t d I Et Hd O. destruct (fd_type d) eqn:Ty; try by apply keeps_ret.
  destruct (fd_vfs_node d) as [p|] eqn:Ep; [|by apply keeps_ret]. unfold bind at 1, get. destruct (vfs_read _ _ _ _) as [data|]; [|by apply keeps_ret].
  assert (H3 : 3 <= fd). { destruct (decide (fd < 3)); [|lia]. rewrite (fo_std _ _ O) in Hd by lia. injection Hd as <-. done. }
  unfold bind, set_fd. destruct (0 <? s32 (zlen data)); [|by apply keeps_ret]. rewrite Et. eexists _, _. split; [done|]. apply inv_set; auto.
  pose proof (fo_good _ _ O fd d H3 Hd) as Gd. unfold fd_good in *. cbn. by rewrite Ty in *.
Qed.
Lemma keeps_chdir path : keeps (sys_chdir path : call F D C N _).
Proof.
  unfold sys_chdir. destruct path as [path|]; [|apply keeps_ret]. intros s I. unfold bind at 1, get. cbn iota beta.
  assert (Ab : cwd_ok (absolute (current_working_dir s) path)).
  { destruct (in_cwd _ I) as [Ha Hl]. unfold cwd_ok, absolute. destruct (is_absolute path) eqn:Hp.
    - destruct path; [done|]. split; [done|]. unfold zlen. rewrite length_take. unfold PATH_ROOM, VFS_MAX_PATH in *. lia.
    - split; [|unfold zlen; rewrite length_take; unfold PATH_ROOM, VFS_MAX_PATH in *; lia]. destruct (current_working_dir s) as [|c cwd]; [done|].
      cbn [is_absolute] in *. by destruct (_ && _). }
  revert s I Ab. intros s I Ab. unfold bind at 1, run_vfs. pose proof (resolve_grows (absolute (current_working_dir s) path) (files s)) as G.
  destruct (vfs_resolve_path _ _) as [[p|] v]; cbn [snd] in G; [|eexists _, _; split; [done|by apply inv_files]].
  unfold bind, get. destruct (negb _); [eexists _, _; split; [done|by apply inv_files]|]. eexists _, _. split; [done|].
  destruct (inv_files _ _ G I) as [T In Cl Cw]. constructor; auto. cbn. destruct Ab as [A1 A2]. rewrite take_ge; [done|].
  unfold zlen in A2. unfold PATH_ROOM, VFS_MAX_PATH in *. lia.
Qed.
Lemma keeps_readdir path index entry : keeps (sys_readdir path index entry : call F D C N _).
Proof. unfold sys_readdir. keep; [apply resolve_grows|apply finddir_grows]. Qed.
Lemma keeps_socket kmalloc_ok domain type protocol : keeps (sys_socket table_ok kmalloc_ok domain type protocol : call F D C N _).
Proof.
  unfold sys_socket. keep. refine (keeps_install table_ok (bind (run_net _) (fun _ => ret (-1))) (fun d => mk_fd FILE_TYPE_SOCKET O_RDWR d.(fd_position) (P_SOCKET _) d.(fd_ref_count))
    (fun fd => bind (set_server _ fd) (fun _ => ret fd)) _ _ _); [keep|intros; keep|intros v; by eexists].
Qed.
Lemma keeps_accept wait fd addr : keeps (sys_accept table_ok wait fd addr : call F D C N _).
Proof.
  unfold sys_accept. keep; try apply keeps_sock. refine (keeps_install table_ok (bind (run_net _) (fun _ => ret (-1, None)))
    (fun d => mk_fd FILE_TYPE_SOCKET O_RDWR d.(fd_position) (P_SOCKET _) d.(fd_ref_count))
    (fun fd => bind (sock_of _) (fun k => ret (fd, _))) _ _ _); [keep|intros; keep; apply keeps_sock|intros v; by eexists].
Qed.
Lemma keeps_recv_wait waits k : keeps (recv_wait waits k : call F D C N _).
Proof. induction waits as [|w waits IH]; cbn [recv_wait]; keep; try apply keeps_sock. apply IH. Qed.
Lemma keeps_recv waits fd len : keeps (sys_recv waits fd len : call F D C N _).
Proof. unfold sys_recv. keep; try apply keeps_sock; apply keeps_recv_wait. Qed.
Lemma keeps_close fd : keeps (sys_close fd : call F D C N _).
Proof.
  unfold sys_close. destruct (bad_fd fd) eqn:Hb; [apply keeps_ret|]. apply bad_fd_false in Hb. destruct (Z.ltb_spec fd 3); [apply keeps_ret|].
  apply keeps_bind; [apply keeps_get|]. intros s0. destruct (fd_table s0); [|apply keeps_ret]. apply keeps_fd_at; [done|]. intros s t d I _ _ _.
  revert s I. match goal with |- forall s, inv s -> exists a s', ?m s = _ /\ _ => change (keeps m) end.
  keep; try apply keeps_sock; try (apply keeps_free; lia). apply close_grows.
Qed.
(** ** Programs as sequences of calls *)
Inductive request :=
  | R_write (fd : Z) (buf : list Z) (count : Z)
  | R_open (path : option (list Z)) (flags : Z)
  | R_read (fd : Z) (buf : option unit) (count : Z)
  | R_mkdir (path : option (list Z))
  | R_create (path : option (list Z))
  | R_getcwd (buf : option unit) (size : Z)
  | R_chdir (path : option (list Z))
  | R_readdir (path : option (list Z)) (index : Z) (entry : option unit)
  | R_socket (kmalloc_ok : Z -> bool) (domain type protocol : Z)
  | R_bind (fd : Z) (addr : option Z) (len : Z)
  | R_listen (fd backlog : Z)
  | R_accept (wait : net * tcp -> bool * (net * tcp)) (fd : Z) (addr : option unit)
  | R_recv (waits : list (net * tcp -> net * tcp)) (fd len : Z)
  | R_send (fd : Z) (buf : list Z)
  | R_close (fd : Z).
Definition ignore {A} (m : call F D C N A) : call F D C N unit := bind m (fun _ => ret tt).
Definition exec (r : request) : call F D C N unit :=
  match r with
  | R_write fd buf count => ignore (sys_write fd buf count)
  | R_open path flags => ignore (sys_open table_ok path flags)
  | R_read fd buf count => ignore (sys_read table_ok fd buf count)
  | R_mkdir path => ignore (sys_mkdir path)
  | R_create path => ignore (sys_create path)
  | R_getcwd buf size => ignore (sys_getcwd buf size)
  | R_chdir path => ignore (sys_chdir path)
  | R_readdir path index entry => ignore (sys_readdir path index entry)
  | R_socket kmalloc_ok domain type protocol => ignore (sys_socket table_ok kmalloc_ok domain type protocol)
  | R_bind fd addr len => ignore (sys_bind table_ok fd addr len)
  | R_listen fd backlog => ignore (sys_listen fd backlog)
  | R_accept wait fd addr => ignore (sys_accept table_ok wait fd addr)
  | R_recv waits fd len => ignore (sys_recv waits fd len)
  | R_send fd buf => ignore (sys_send fd buf)
  | R_close fd => ignore (sys_close fd)
  end.
Fixpoint exec_all (rs : list request) : call F D C N unit :=
  match rs with [] => ret tt | r :: rs' => bind (exec r) (fun _ => exec_all rs') end.
Lemma keeps_exec r : keeps (exec r).
Proof.
  destruct r; cbn [exec]; unfold ignore; (apply keeps_bind; [|intros; apply keeps_ret]).
  - apply keeps_ret.
  - apply keeps_open.
  - apply keeps_read.
  - unfold sys_mkdir. keep. apply mkdir_grows.
  - unfold sys_create. keep. apply create_grows.
  - unfold sys_getcwd. keep.
  - apply keeps_chdir.
  - apply keeps_readdir.
  - apply keeps_socket.
  - unfold sys_bind. keep; apply keeps_sock.
  - unfold sys_listen. keep; apply keeps_sock.
  - apply keeps_accept.
  - apply keeps_recv.
  - unfold sys_send. keep; apply keeps_sock.
  - apply keeps_close.
Qed.
Lemma keeps_exec_all rs : keeps (exec_all rs).
Proof. induction rs as [|r rs IH]; cbn [exec_all]; [apply keeps_ret|]. apply keeps_bind; [apply keeps_exec|done]. Qed.
(** The state before the first call. *)
Definition boot v (n : net * tcp) : sys F D C N := mk_sys None false None (-1) false [SLASH] v n.
Lemma boot_inv v n : exists s, fd_table_init true (boot v n) = Some (tt, s) /\ inv s.
Proof.
  eexists. split; [done|]. destruct (inv_init v) as [Cw O]. constructor; auto. by exists initial_fds.
Qed.
(** Until a call has allocated the table, the calls on sockets that do not do
    so themselves follow a null pointer. *)
Lemma socket_calls_fault v n fd : 0 <= fd < MAX_FD ->
  sys_listen fd 0 (boot v n) = None /\ (forall buf, sys_send fd buf (boot v n) = None) /\ (forall waits len, sys_recv waits fd len (boot v n) = None) /\
  (forall wait addr, sys_accept table_ok wait fd addr (boot v n) = None).
Proof.
  intros Hf. unfold sys_listen, sys_send, sys_recv, sys_accept, with_socket, bad_fd.
  rewrite (proj2 (Z.ltb_ge fd 0)), (proj2 (Z.leb_gt MAX_FD fd)) by lia. done.
Qed.

(** ** Opening and closing *)
Lemma open_eq s t path flags p v : inv s -> s.(fd_table) = Some t -> vfs_open path (u32 flags) s.(files) = (Some p, v) ->
  sys_open table_ok (Some path) flags s =
  match first_free t with
  | Some i => Some (i, with_fds (with_files s v) (wr t i (mk_fd FILE_TYPE_FILE (u32 flags) 0 (P_NODE p) 1)))
  | None => Some (-1, with_files s (vfs_close (Some p) v).2)
  end.
Proof.
  intros I Et Eo. unfold sys_open, bind at 1. rewrite init_keep by done. unfold bind at 1, run_vfs at 1. pose proof (open_grows path (u32 flags) (files s)) as G.
  rewrite Eo in *. cbn [snd] in G. pose proof (inv_files _ _ G I) as I1.
  change (install table_ok (bind (run_vfs (vfs_close (Some p))) (fun _ => ret (-1)))
    (fun d => mk_fd FILE_TYPE_FILE (u32 flags) 0 (P_NODE p) d.(fd_ref_count)) ret (with_files s v) = 
    match first_free t with
    | Some i => Some (i, with_fds (with_files s v) (wr t i (mk_fd FILE_TYPE_FILE (u32 flags) 0 (P_NODE p) 1)))
    | None => Some (-1, with_files s (vfs_close (Some p) v).2)
    end). rewrite (install_eq table_ok _ _ _ _ t I1 Et). by destruct (first_free t).
Qed.
(** [sys_open] gives out the lowest free descriptor; closing it leaves the
    table as it was and drops the reference to the node. *)
Theorem sys_open_close s t path flags fd s1 : inv s -> s.(fd_table) = Some t -> sys_open table_ok (Some path) flags s = Some (fd, s1) -> 0 <= fd ->
  first_free t = Some fd /\ exists node v s2, vfs_open path (u32 flags) s.(files) = (Some node, v) /\ sys_close fd s1 = Some (0, s2) /\
    s2.(fd_table) = s.(fd_table) /\ s2.(files) = (vfs_close (Some node) v).2 /\ s2.(network) = s.(network).
Proof.
  intros I Et E1 Hf. destruct (vfs_open path (u32 flags) (files s)) as [[p|] v] eqn:Eo.
  2: { unfold sys_open, bind, run_vfs in E1. rewrite init_keep, Eo in E1 by done. by injection E1 as <- <-. }
  rewrite (open_eq s t path flags p v I Et Eo) in E1. destruct (first_free t) as [i|] eqn:Ef; [|injection E1; lia].
  injection E1 as <- <-. split; [done|]. pose proof Ef as (Hi & (d & Hd & Ht) & _)%first_free_Some.
  destruct (in_table _ I) as (t' & Et' & O). assert (t' = t) as -> by congruence. pose proof (fo_good _ _ O i d ltac:(lia) Hd) as Gd. unfold fd_good in Gd. rewrite Ht in Gd. subst d.
  assert (Ri : 0 <= i < zlen t) by (by eapply rd_Some_range). eexists p, v, _. split; [done|]. split; [|split; [|split]].
  - unfold sys_close, bad_fd. rewrite (proj2 (Z.ltb_ge i 0)), (proj2 (Z.leb_gt MAX_FD i)), (proj2 (Z.ltb_ge i 3)) by lia. cbn [orb].
    unfold bind, get, fd_at. cbn. rewrite rd_wr_eq by done. cbn. rewrite (in_closing _ I), andb_false_r. cbn.
    unfold fd_free. rewrite (proj2 (Z.ltb_ge i 0)), (proj2 (Z.leb_gt MAX_FD i)), (proj2 (Z.ltb_ge i 3)) by lia. cbn. reflexivity.
  - cbn. rewrite wr_wr_eq, Et. f_equal. by apply wr_id.
  - done.
  - done.
Qed.

(** ** Reading a file as a stream *)
(** The bytes of the file behind a node. *)
Definition reads_as v (node : Z) (data : list Z) : Prop :=
  forall off size, 0 <= off <= zlen data -> 0 <= size < 2 ^ 31 ->
    vfs_read (Some node) off size v = Some (take (Z.to_nat size) (drop (Z.to_nat off) data)).
Fixpoint sys_reads (fd : Z) (counts : list Z) : call F D C N (list (list Z)) :=
  match counts with
  | [] => ret []
  | count :: counts' => bind (sys_read table_ok fd (Some tt) count) (fun r => bind (sys_reads fd counts') (fun rs => ret (r.2 :: rs)))
  end.
Definition at_position (d : file_descriptor_t) (pos : Z) : file_descriptor_t :=
  mk_fd d.(fd_type) d.(fd_flags) pos d.(fd_union) d.(fd_ref_count).
Definition sum (l : list Z) : Z := foldr Z.add 0 l.
Lemma sum_nonneg l : Forall (fun c => 0 <= c < 2 ^ 31) l -> 0 <= sum l.
Proof. induction 1 as [|x l Hx _ IH]; [done|]. unfold sum in *. cbn [foldr]. lia. Qed.
Lemma take_drop_app {A} (l : list A) p n m : take n (drop p l) ++ take m (drop (p + length (take n (drop p l))) l) = take (n + m) (drop p l).
Proof.
  rewrite length_take, length_drop. destruct (decide (n <= length l - p)%nat) as [Hn|Hn].
  - rewrite Nat.min_l by lia. rewrite <- drop_drop. apply take_take_drop.
  - rewrite Nat.min_r by lia. rewrite (drop_ge l (p + _)) by lia. rewrite take_nil, app_nil_r, !take_ge by (rewrite length_drop; lia). done.
Qed.
Lemma read_step s t fd d p data count : inv s -> s.(fd_table) = Some t -> rd t fd = Some d -> d.(fd_type) = FILE_TYPE_FILE -> d.(fd_union) = P_NODE p ->
  reads_as s.(files) p data -> 0 <= d.(fd_position) <= zlen data -> zlen data < 2 ^ 31 -> 0 <= count < 2 ^ 31 ->
  let chunk := take (Z.to_nat count) (drop (Z.to_nat d.(fd_position)) data) in
  exists s' t', sys_read table_ok fd (Some tt) count s = Some ((zlen chunk, chunk), s') /\ s'.(files) = s.(files) /\
    s'.(fd_table) = Some t' /\ rd t' fd = Some (at_position d (d.(fd_position) + zlen chunk)).
Proof.
  intros I Et Hd Ty Un Ra Hp Hl Hc chunk. pose proof (rd_Some_range _ _ _ Hd) as Hr. destruct (in_table _ I) as (t' & Et' & O).
  assert (t' = t) as -> by congruence. rewrite (fo_len _ _ O) in Hr.
  assert (Lc : zlen chunk <= zlen data - fd_position d) by (unfold chunk, zlen in *; rewrite length_take, length_drop; lia). pose proof (zlen_nonneg chunk) as Pc.
  unfold sys_read, bind at 1. rewrite init_keep by done. rewrite bool_decide_eq_false_2 by done. cbn [orb]. unfold bad_fd.
  rewrite (proj2 (Z.ltb_ge fd 0)), (proj2 (Z.leb_gt MAX_FD fd)) by lia. cbn [orb]. unfold bind, fd_at. rewrite Et, Hd, Ty. unfold fd_vfs_node. rewrite Un.
  unfold get. rewrite (u32_small count) by (unfold is_u32; lia). rewrite Ra by lia. fold chunk. rewrite s32_id by lia.
  destruct (Z.ltb_spec 0 (zlen chunk)) as [H0|H0].
  - unfold set_fd. rewrite Et. rewrite (u32_small (_ + _)) by (unfold is_u32; lia). eexists _, _. split; [done|]. split; [done|]. split; [done|].
    rewrite rd_wr_eq by (by eapply rd_Some_range). unfold at_position. by rewrite Ty, Un.
  - eexists _, t. split; [done|]. split; [done|]. split; [done|]. replace (zlen chunk) with 0 by lia. rewrite Z.add_0_r, Hd. by destruct d.
Qed.
(** Reading a file through its descriptor in pieces of any sizes yields, put
    together, the bytes of the file from the position of the descriptor on:
    nothing is lost or repeated between calls, reads at the end of the file
    yield nothing, and the position ends right after the last byte read. *)
Theorem sys_read_stream fd counts : forall s t d p data, inv s -> s.(fd_table) = Some t -> rd t fd = Some d ->
  d.(fd_type) = FILE_TYPE_FILE -> d.(fd_union) = P_NODE p -> reads_as s.(files) p data -> 0 <= d.(fd_position) <= zlen data -> zlen data < 2 ^ 31 ->
  Forall (fun c => 0 <= c < 2 ^ 31) counts ->
  exists chunks s' t', sys_reads fd counts s = Some (chunks, s') /\
    concat chunks = take (Z.to_nat (sum counts)) (drop (Z.to_nat d.(fd_position)) data) /\
    s'.(files) = s.(files) /\ s'.(fd_table) = Some t' /\ rd t' fd = Some (at_position d (d.(fd_position) + zlen (concat chunks))).
Proof.
  induction counts as [|c counts IH]; intros s t d p data I Et Hd Ty Un Ra Hp Hl Hc.
  - exists [], s, t. split; [done|]. split; [done|]. split; [done|]. split; [done|]. change (zlen (concat [])) with 0. rewrite Z.add_0_r, Hd. by destruct d.
  - inversion Hc as [|? ? Hc0 Hcs]; subst. destruct (read_step s t fd d p data c I Et Hd Ty Un Ra Hp Hl Hc0) as (s1 & t1 & E1 & Ef & Et1 & Hd1).
    set (chunk := take (Z.to_nat c) (drop (Z.to_nat (fd_position d)) data)) in *. assert (I1 : inv s1).
    { destruct (keeps_read fd (Some tt) c s I) as (a & s1' & E1' & I1). rewrite E1' in E1. by injection E1 as _ <-. }
    assert (Lc : zlen chunk <= zlen data - fd_position d) by (unfold chunk, zlen in *; rewrite length_take, length_drop; lia). pose proof (zlen_nonneg chunk) as Pc.
    destruct (IH s1 t1 (at_position d (fd_position d + zlen chunk)) p data) as (chunks & s2 & t2 & E2 & Cc & Ef2 & Et2 & Hd2); auto; [by rewrite Ef|cbn; lia|].
    exists (chunk :: chunks), s2, t2. cbn [sys_reads]. unfold bind. rewrite E1, E2. split; [done|]. cbn [concat fd_position at_position] in *.
    split; [|split; [congruence|split; [done|]]].
    + rewrite Cc. unfold zlen. rewrite Z2Nat.inj_add, Nat2Z.id by (unfold zlen in *; lia). unfold chunk. rewrite take_drop_app. f_equal. cbn.
      pose proof (sum_nonneg counts Hcs). unfold sum in *. lia.
    + rewrite Hd2. unfold at_position. cbn. by rewrite zlen_app, Z.add_assoc.
Qed.

(** ** The current directory *)
(** After a successful [sys_chdir] the current directory is the absolute path
    that was resolved. *)
Theorem sys_chdir_getcwd s path s1 size : inv s -> sys_chdir (Some path) s = Some (0, s1) -> zlen (absolute s.(current_working_dir) path) < size ->
  sys_getcwd (Some tt) size s1 = Some ((0, absolute s.(current_working_dir) path), s1).
Proof.
  intros I E1 Hs. unfold sys_chdir, bind at 1, get at 1, bind at 1, run_vfs in E1.
  destruct (vfs_resolve_path _ _) as [[p|] v]; [|discriminate E1]. unfold bind, get in E1. destruct (negb _); [discriminate E1|].
  injection E1 as <-. pose proof (zlen_nonneg (absolute (current_working_dir s) path)). unfold sys_getcwd, bind, get. cbn [current_working_dir with_cwd].
  rewrite take_ge. 2: { unfold absolute. case_if; [|]; rewrite length_take; lia. }
  rewrite bool_decide_eq_false_2, (proj2 (Z.eqb_neq size 0)), (proj2 (Z.leb_gt size _)) by (done || lia). done.
Qed.
(** A descriptor of a file opened by its Linux call is returned negated. *)
Lemma linux_open_negative s path flags mode fd s1 : sys_open table_ok (Some path) (linux_to_native_flags flags) s = Some (fd, s1) -> 0 < fd ->
  linux_sys_open table_ok (Some path) flags mode s = Some (- fd, s1).
Proof. intros E1 Hf. unfold linux_sys_open, bind. rewrite E1. cbn. unfold native_to_linux_errno. by rewrite (proj2 (Z.ltb_ge fd 0)), (proj2 (Z.eqb_neq fd 0)) by lia. Qed.

(** ** Sockets *)
(** Closing the server socket keeps its descriptor in use: only the socket
    goes back to listening. *)
Theorem server_close_keeps_fd s t fd d k : inv s -> s.(fd_table) = Some t -> 3 <= fd < MAX_FD -> rd t fd = Some d ->
  d.(fd_type) = FILE_TYPE_SOCKET -> d.(fd_union) = P_SOCKET k -> s.(g_server_socket) = Some k ->
  exists s', sys_close fd s = Some (0, s') /\ s'.(fd_table) = Some t.
Proof.
  intros I Et Hf Hd Ty Un Sv. unfold sys_close, bad_fd. rewrite (proj2 (Z.ltb_ge fd 0)), (proj2 (Z.leb_gt MAX_FD fd)), (proj2 (Z.ltb_ge fd 3)) by lia. cbn [orb].
  unfold bind at 1, get. rewrite Et. unfold bind at 1, fd_at. rewrite Et, Hd, Ty. cbn [is_type]. rewrite (in_closing _ I), andb_false_r.
  unfold fd_socket, is_server. rewrite Un, Sv. unfold is_type. rewrite bool_decide_eq_false_2, bool_decide_eq_true_2 by done.
  unfold bind, sock_of, run_net. rewrite bool_decide_eq_true_2 by done. cbn. by eexists.
Qed.
Definition client_fd (c gen : Z) : file_descriptor_t := mk_fd FILE_TYPE_SOCKET O_RDWR 0 (P_SOCKET (c, gen)) 1.
(** What [sys_accept] does when a client is ready. *)
Lemma accept_eq wait fd s t d k c i : inv s -> s.(fd_table) = Some t -> 0 <= fd < MAX_FD -> rd t fd = Some d ->
  d.(fd_type) = FILE_TYPE_SOCKET -> d.(fd_union) = P_SOCKET k ->
  let l := sock_at s.(network).2 k.1 in l.(sk_state) = TCP_STATE_LISTEN -> tcp_find_ready_client s.(network).2 l.(sk_local_port) = Some c ->
  first_free t = Some i ->
  exists s', sys_accept table_ok wait fd None s = Some ((i, None), s') /\ s'.(fd_table) = Some (wr t i (client_fd c s.(network).2.(tcp_gen))) /\
    s'.(network).2.(tcp_sockets) = s.(network).2.(tcp_sockets) /\ s'.(network).2.(tcp_gen) = s.(network).2.(tcp_gen).
Proof.
  intros I Et Hf Hd Ty Un l Ls Rc Ff. unfold sys_accept, with_socket, bad_fd. rewrite (proj2 (Z.ltb_ge fd 0)), (proj2 (Z.leb_gt MAX_FD fd)) by lia. cbn [orb].
  unfold bind at 1, fd_at. rewrite Et, Hd, Ty. unfold is_type. rewrite bool_decide_eq_true_2 by done. cbn [negb]. unfold fd_socket. rewrite Un.
  unfold bind at 1, sock_of at 1, run_net at 1. fold l. rewrite Ls. unfold is_state. rewrite bool_decide_eq_true_2 by done. cbn [negb].
  set (s1 := with_network s _). assert (I1 : inv s1) by (by apply inv_net). assert (R1 : tcp_find_ready_client (network s1).2 (sk_local_port l) = Some c) by (exact Rc).
  unfold bind at 1, run_net at 1. rewrite R1. cbn iota. unfold bind at 1, ret at 1. unfold bind at 1, new_ptr at 1.
  set (s2 := with_network s1 _). assert (I2 : inv s2) by (by apply inv_net).
  set (mk := fun d => mk_fd FILE_TYPE_SOCKET O_RDWR d.(fd_position) (P_SOCKET (c, tcp_gen (network s2).2)) d.(fd_ref_count)).
  match goal with |- exists s', ?m s2 = _ /\ _ => change m with
    (install table_ok (bind (run_net (fun n => (tt, tcp_close (Some c) n))) (fun _ => ret (-1, None))) mk
       (fun fd => bind (sock_of (c, tcp_gen (network s2).2)) (fun k => ret (fd, @None (Z * Z)))) : call F D C N _) end.
  rewrite (install_eq table_ok _ mk _ s2 t I2 Et), Ff. by eexists.
Qed.
(** A client that has been accepted is accepted again by the next call: two
    descriptors then stand for one connection. *)
Theorem accept_twice wait fd s t d k c i j : inv s -> s.(fd_table) = Some t -> 0 <= fd < MAX_FD -> rd t fd = Some d ->
  d.(fd_type) = FILE_TYPE_SOCKET -> d.(fd_union) = P_SOCKET k ->
  let l := sock_at s.(network).2 k.1 in l.(sk_state) = TCP_STATE_LISTEN -> tcp_find_ready_client s.(network).2 l.(sk_local_port) = Some c ->
  first_free t = Some i -> first_free (wr t i (client_fd c s.(network).2.(tcp_gen))) = Some j ->
  exists s1 s2 t2, sys_accept table_ok wait fd None s = Some ((i, None), s1) /\ sys_accept table_ok wait fd None s1 = Some ((j, None), s2) /\
    s2.(fd_table) = Some t2 /\ i <> j /\ rd t2 i = rd t2 j.
Proof.
  intros I Et Hf Hd Ty Un l Ls Rc Fi Fj. destruct (accept_eq wait fd s t d k c i I Et Hf Hd Ty Un Ls Rc Fi) as (s1 & E1 & T1 & S1 & G1).
  assert (I1 : inv s1).
  { destruct (keeps_accept wait fd None s I) as (a & s1' & E1' & I1). rewrite E1' in E1. by injection E1 as _ <-. }
  pose proof Fi as (Hi & (d0 & Hd0 & Ht0) & _)%first_free_Some. pose proof (rd_Some_range _ _ _ Hd0) as Ri.
  assert (Nf : i <> fd) by (intros ->; congruence). assert (Nij : i <> j).
  { intros <-. apply first_free_Some in Fj as (_ & (d1 & Hd1 & Ht1) & _). rewrite rd_wr_eq in Hd1 by done. by injection Hd1 as <-. }
  assert (L1 : sock_at (network s1).2 k.1 = l) by (unfold l, sock_at; by rewrite S1).
  assert (R1 : tcp_find_ready_client (network s1).2 (sk_local_port l) = Some c).
  { rewrite <- Rc. unfold tcp_find_ready_client, find_sock, tcp_socket_capacity, sock_at. by rewrite S1. }
  destruct (accept_eq wait fd s1 _ d k c j I1 T1 Hf) as (s2 & E2 & T2 & _); auto; [by rewrite rd_wr_ne by congruence|by rewrite L1|by rewrite L1|].
  eexists s1, s2, _. split; [done|]. split; [done|]. split; [exact T2|]. split; [done|].
  pose proof Fj as (_ & (d1 & Hd1 & _) & _)%first_free_Some. rewrite rd_wr_ne, rd_wr_eq, rd_wr_eq by (congruence || done || by eapply rd_Some_range). by rewrite G1.
Qed.

End calls.
