(* ===== verification/SyscallExt2.v ===== *)
(** System calls on files of an ext2 volume: opening a file of the root
    directory by its path and reading it. *)
From S2P Require Import Prelude NetBase Tcp Vfs VfsSpec Ext2 Ext2Disk Ext2Alloc Ext2Vol Ext2Inode Ext2File Ext2Data Ext2Dir Ext2Ops VfsExt2 Syscall SyscallSpec.

Definition ext2_sys : Type := sys unit disk ext2_fs_t vfs_node.
(** The bytes of a file. *)
Definition file_bytes (fs : ext2_fs_t) (inode : list Z) : list Z := slice (content fs inode) 0 (Z.to_nat (i_size inode)).
Lemma zlen_file_bytes fs inode : 0 <= i_size inode -> zlen (file_bytes fs inode) = i_size inode.
Proof. intros H. unfold file_bytes. rewrite zlen_slice. lia. Qed.
Lemma take_slice f off n m : take m (slice f off n) = slice f off (Nat.min m n).
Proof. unfold slice. rewrite <- fmap_take, take_seq. done. Qed.
Lemma drop_slice f off n m : drop m (slice f off n) = slice f (off + Z.of_nat m) (n - m).
Proof.
  destruct (decide (m <= n)%nat) as [Hm|Hm]; [|by rewrite drop_ge by (unfold slice; rewrite length_fmap, length_seq; lia); replace (n - m)%nat with 0%nat by lia].
  replace n with (m + (n - m))%nat at 1 by lia. rewrite slice_app, drop_app_length'; [done|]. unfold slice. by rewrite length_fmap, length_seq.
Qed.
Lemma ext2_reads_as v k p fs node : holds v k p fs node -> mounted fs -> regular fs node.(nd_inode) -> i_size node.(nd_inode) < 2 ^ 31 ->
  reads_as v p (file_bytes fs node.(nd_inode)).
Proof.
  intros (o & c & En & _ & Ef & Eo) M R Hs off size Ho Hz. pose proof (rd32_range _ 4 (f_bytes _ _ (re_file _ _ R))) as S0. fold (i_size (nd_inode node)) in S0. unfold is_u32 in S0.
  rewrite zlen_file_bytes in Ho by lia. unfold vfs_read. rewrite En, Eo.
  change (nd_read (dev v) c node off size) with (ext2_vfs_read (with_device c (dev v)) node off size). rewrite <- Ef. unfold ext2_vfs_read.
  rewrite read_data_ok; auto; try lia; [|apply R]. f_equal. unfold file_bytes. rewrite drop_slice, take_slice. f_equal; lia.
Qed.

(** The root directory of the small volume, read through its entry [.] *)
Definition demo_sys (n : net * tcp) : ext2_sys := with_fds (boot demo_vfs n) initial_fds.
Lemma demo_sys_inv n : inv (demo_sys n).
Proof. destruct (boot_inv demo_vfs n) as (s & E & I). injection E as <-. exact I. Qed.
