(* ===== verification/Config.v ===== *)
(** Configuration files (src/config/config.c, src/config/config.h): the parser
    of lines and addresses, loading, saving and applying the network
    configuration, scripts and the history of the shell.

    Strings are lists of bytes without the NUL at the end, so a copy into a
    buffer that is long enough is the list itself; Cstring shows what the
    functions of src/lib/string.c do in memory, among them that the loop over
    [strtok] yields [words].  A buffer into which a file is read holds the
    bytes read. *)
From Stdlib Require Import Strings.String Strings.Ascii.
From S2P Require Import Prelude Cstring NetBase Vfs.

(** The bytes of a string constant. *)
Fixpoint str (s : string) : list Z :=
  match s with EmptyString => [] | String a s' => Z.of_N (N_of_ascii a) :: str s' end.
Definition NL : Z := 10.
Definition CONFIG_DIR : list Z := str "/config".
Definition CONFIG_NETWORK_FILE : list Z := str "/config/network.conf".
Definition CONFIG_HISTORY_FILE : list Z := str "/config/history".
Definition CONFIG_STARTUP_SCRIPT : list Z := str "/config/startup.sh".
Definition CONFIG_LINE_MAX : Z := 256.
Definition CONFIG_KEY_MAX : Z := 64.
Definition CONFIG_VALUE_MAX : Z := 192.
Definition VFS_O_RDONLY : Z := 0.
Definition VFS_O_WRONLY : Z := 1.
Definition VFS_O_CREAT : Z := 0x0200.
Definition VFS_O_TRUNC : Z := 0x0400.
Record network_config_t := mk_config {
  use_dhcp : bool;
  cf_ip_addr : list Z;
  cf_netmask : list Z;
  cf_gateway : list Z;
  cf_dns_server : list Z
}.

(** ** Lines *)
Definition is_blank (c : Z) : bool := (c =? 32) || (c =? 9).
Definition is_end_blank (c : Z) : bool := (c =? 32) || (c =? 9) || (c =? 10) || (c =? 13).
Fixpoint drop_while (f : Z -> bool) (s : list Z) : list Z :=
  match s with c :: s' => if f c then drop_while f s' else s | [] => [] end.
(** The end pointer stops at the first character, which is kept. *)
Definition trim (s : list Z) : list Z :=
  match drop_while is_blank s with
  | [] => []
  | c :: s' => c :: rev (drop_while is_end_blank (rev s'))
  end.
Definition is_comment_or_empty (line : list Z) : bool :=
  match drop_while is_blank line with
  | [] => true
  | c :: _ => (c =? 35) || (c =? 59) || (c =? NL)
  end.
(** What is before and after the first ['=']. *)
Fixpoint split_eq (line : list Z) : option (list Z * list Z) :=
  match line with
  | [] => None
  | c :: line' =>
      if c =? 61 then Some ([], line')
      else match split_eq line' with Some (k, v) => Some (c :: k, v) | None => None end
  end.
Definition config_parse_line (line : list Z) : option (list Z * list Z) :=
  match split_eq line with
  | None => None
  | Some (key, value) =>
      let key_len := if CONFIG_KEY_MAX <=? zlen key then CONFIG_KEY_MAX - 1 else zlen key in
      Some (trim (take (Z.to_nat key_len) key), trim (take (Z.to_nat (CONFIG_VALUE_MAX - 1)) value))
  end.

(** ** Addresses *)
Fixpoint parse_ip_loop (s : list Z) (parts : list Z) (part_idx : Z) : option (list Z * Z) :=
  match s with
  | [] => Some (parts, part_idx)
  | c :: s' =>
      if negb (part_idx <? 4) then Some (parts, part_idx)
      else if (48 <=? c) && (c <=? 57) then
        let v := rd0 parts part_idx * 10 + (c - 48) in
        if 255 <? v then None else parse_ip_loop s' (wr parts part_idx v) part_idx
      else if c =? 46 then parse_ip_loop s' parts (part_idx + 1)
      else if is_end_blank c then Some (parts, part_idx)
      else None
  end.
(** [None] leaves the caller's four bytes as they are. *)
Definition config_parse_ip (s : list Z) : option (list Z) :=
  match parse_ip_loop s [0; 0; 0; 0] 0 with
  | None => None
  | Some (parts, part_idx) => if negb (part_idx =? 3) then None else Some (map u8 parts)
  end.
Definition octet_string (val : Z) : list Z :=
  if 100 <=? val then
    let v := val mod 100 in [48 + val / 100; 48 + v / 10; 48 + v mod 10]
  else if 10 <=? val then [48 + val / 10; 48 + val mod 10]
  else [48 + val].
Definition config_ip_to_string (ip : list Z) : list Z :=
  octet_string (rd0 ip 0) ++ [46] ++ octet_string (rd0 ip 1) ++ [46] ++ octet_string (rd0 ip 2) ++ [46] ++ octet_string (rd0 ip 3).

(** ** The network configuration *)
Definition default_config : network_config_t := mk_config true [0; 0; 0; 0] [0; 0; 0; 0] [0; 0; 0; 0] [0; 0; 0; 0].
(** The lines of a buffer: a newline, a NUL and the end of the buffer end one. *)
Fixpoint buffer_lines (b : list Z) : list (list Z) :=
  match b with
  | [] => [[]]
  | c :: b' =>
      if (c =? NL) || (c =? 0) then [] :: buffer_lines b'
      else match buffer_lines b' with l :: ls => (c :: l) :: ls | [] => [[c]] end
  end.
Definition or_else (o : option (list Z)) (ip : list Z) : list Z := match o with Some v => v | None => ip end.
Definition str_eq (a b : list Z) : bool := bool_decide (a = b).
Definition load_key (key value : list Z) (c : network_config_t) : network_config_t :=
  if str_eq key (str "dhcp") then mk_config (str_eq value (str "yes") || str_eq value (str "1")) c.(cf_ip_addr) c.(cf_netmask) c.(cf_gateway) c.(cf_dns_server)
  else if str_eq key (str "ip") then mk_config c.(use_dhcp) (or_else (config_parse_ip value) c.(cf_ip_addr)) c.(cf_netmask) c.(cf_gateway) c.(cf_dns_server)
  else if str_eq key (str "netmask") then mk_config c.(use_dhcp) c.(cf_ip_addr) (or_else (config_parse_ip value) c.(cf_netmask)) c.(cf_gateway) c.(cf_dns_server)
  else if str_eq key (str "gateway") then mk_config c.(use_dhcp) c.(cf_ip_addr) c.(cf_netmask) (or_else (config_parse_ip value) c.(cf_gateway)) c.(cf_dns_server)
  else if str_eq key (str "dns") then mk_config c.(use_dhcp) c.(cf_ip_addr) c.(cf_netmask) c.(cf_gateway) (or_else (config_parse_ip value) c.(cf_dns_server))
  else c.
Definition load_line (c : network_config_t) (line : list Z) : network_config_t :=
  if (0 <? zlen line) && (zlen line <? CONFIG_LINE_MAX) then
    if negb (is_comment_or_empty line) then
      match config_parse_line line with Some (key, value) => load_key key value c | None => c end
    else c
  else c.
Definition load_buffer (buffer : list Z) : network_config_t := foldl load_line default_config (buffer_lines buffer).
(** The contents that the two functions that save build. *)
Definition static_lines (c : network_config_t) : list Z :=
  str "# Static IP configuration" ++ [NL] ++
  str "ip=" ++ config_ip_to_string c.(cf_ip_addr) ++ [NL] ++
  str "netmask=" ++ config_ip_to_string c.(cf_netmask) ++ [NL] ++
  str "gateway=" ++ config_ip_to_string c.(cf_gateway) ++ [NL] ++
  str "dns=" ++ config_ip_to_string c.(cf_dns_server) ++ [NL].
Definition config_text (header : list Z) (c : network_config_t) : list Z :=
  header ++ (if c.(use_dhcp) then str "dhcp=yes" ++ [NL; NL] else str "dhcp=no" ++ [NL; NL]) ++
  (if c.(use_dhcp) then [] else static_lines c).
Definition network_header : list Z :=
  str "# ALOS Network Configuration" ++ [NL] ++ str "# Edit this file to configure static IP" ++ [NL; NL].
Definition iface_header (iface : list Z) : list Z := str "# ALOS Network Configuration for " ++ iface ++ [NL; NL].
(** [strncpy] of [iface] into what is left of [path_size] bytes. *)
Definition build_iface_config_path (iface : list Z) (path_size : Z) : list Z :=
  let path := take (Z.to_nat (path_size - 1)) (str "/config/network-") in
  let path := path ++ take (Z.to_nat (path_size - zlen path - 6)) iface in
  path ++ take (Z.to_nat (path_size - zlen path - 1)) (str ".conf").

Section files.
Context {F D C N E : Type} `{FileSystem F D C N E}.

Definition config_init (s : vfs F D C N) : Z * vfs F D C N :=
  let '(config_dir, s) := vfs_open CONFIG_DIR VFS_O_RDONLY s in
  match config_dir with
  | None => let '(r, s) := vfs_mkdir CONFIG_DIR s in if negb (r =? 0) then (-1, s) else (0, s)
  | Some _ => (0, (vfs_close config_dir s).2)
  end.
(** Open, read up to [size] bytes and close; [None] when nothing was read. *)
Definition read_config (path : list Z) (size : Z) (s : vfs F D C N) : option (list Z) * vfs F D C N :=
  let '(file, s) := vfs_open path VFS_O_RDONLY s in
  match file with
  | None => (None, s)
  | Some _ =>
      let bytes := vfs_read file 0 size s in
      let s := (vfs_close file s).2 in
      (match bytes with Some (c :: b) => Some (c :: b) | _ => None end, s)
  end.
(** Open, or create and open. *)
Definition open_config (path : list Z) (s : vfs F D C N) : option Z * vfs F D C N :=
  let '(file, s) := vfs_open path (Z.lor (Z.lor VFS_O_WRONLY VFS_O_CREAT) VFS_O_TRUNC) s in
  match file with
  | Some _ => (file, s)
  | None =>
      let '(r, s) := vfs_create path s in
      if negb (r =? 0) then (None, s) else vfs_open path VFS_O_WRONLY s
  end.
Definition write_config (path content : list Z) (s : vfs F D C N) : Z * vfs F D C N :=
  let '(file, s) := open_config path s in
  match file with
  | None => (-1, s)
  | Some _ =>
      let '(written, s) := vfs_write file 0 content s in
      let s := (vfs_close file s).2 in
      (if negb (written =? zlen content) then -1 else 0, s)
  end.
(** The configuration is given back on every path: the defaults when nothing
    could be read. *)
Definition load_network_at (path : list Z) (s : vfs F D C N) : Z * network_config_t * vfs F D C N :=
  let '(buffer, s) := read_config path 1023 s in
  match buffer with
  | None => (-1, default_config, s)
  | Some b => (0, load_buffer b, s)
  end.
Definition config_load_network (s : vfs F D C N) : Z * network_config_t * vfs F D C N := load_network_at CONFIG_NETWORK_FILE s.
Definition config_save_network (c : network_config_t) (s : vfs F D C N) : Z * vfs F D C N :=
  write_config CONFIG_NETWORK_FILE (config_text network_header c) s.
Definition config_load_network_iface (iface : list Z) (s : vfs F D C N) : Z * network_config_t * vfs F D C N :=
  load_network_at (build_iface_config_path iface 128) s.
Definition config_save_network_iface (iface : list Z) (c : network_config_t) (s : vfs F D C N) : Z * vfs F D C N :=
  write_config (build_iface_config_path iface 128) (config_text (iface_header iface) c) s.

(** ** Scripts *)
Definition script_line (line : list Z) : option (list (list Z)) :=
  if (0 <? zlen line) && (zlen line <? CONFIG_LINE_MAX) then
    let trimmed := trim line in
    if negb (is_comment_or_empty trimmed) then
      match take 16 (words [32; 9] trimmed) with [] => None | argv => Some argv end
    else None
  else None.
(** [command_execute] of the shell, with the state it works on. *)
Definition config_run_script (command_execute : list (list Z) -> vfs F D C N -> vfs F D C N) (path : list Z) (s : vfs F D C N) : Z * vfs F D C N :=
  let '(buffer, s) := read_config path 4095 s in
  match buffer with
  | None => (-1, s)
  | Some b =>
      (0, foldl (fun s line => match script_line line with Some argv => command_execute argv s | None => s end) s (buffer_lines b))
  end.
Definition config_run_startup_script (command_execute : list (list Z) -> vfs F D C N -> vfs F D C N) (s : vfs F D C N) : Z * vfs F D C N :=
  config_run_script command_execute CONFIG_STARTUP_SCRIPT s.

(** ** The history of the shell *)
Fixpoint history_lines (max_entries line_max : Z) (ls : list (list Z)) (history : list (list Z)) (count : Z) : list (list Z) * Z :=
  match ls with
  | [] => (history, count)
  | line :: ls' =>
      if negb (count <? max_entries) then (history, count)
      else if (0 <? zlen line) && (zlen line <? line_max)
      then history_lines max_entries line_max ls' (wr history count line) (count + 1)
      else history_lines max_entries line_max ls' history count
  end.
Definition config_load_history (history : list (list Z)) (max_entries line_max : Z) (s : vfs F D C N) : Z * list (list Z) * vfs F D C N :=
  let '(buffer, s) := read_config CONFIG_HISTORY_FILE 8191 s in
  match buffer with
  | None => (0, history, s)
  | Some b => let '(history, count) := history_lines max_entries line_max (buffer_lines b) history 0 in (count, history, s)
  end.
Definition entry_at (history : list (list Z)) (i : Z) : list Z := match rd history i with Some e => e | None => [] end.
Fixpoint history_text (history : list (list Z)) (start_index i : Z) (n : nat) (buffer : list Z) : list Z :=
  match n with
  | O => buffer
  | S n' =>
      if negb (zlen buffer <? 8191) then buffer
      else
        let e := entry_at history (Z.rem (start_index + i) 16) in
        let buffer := if (0 <? zlen e) && (zlen buffer + zlen e + 1 <? 8191) then buffer ++ e ++ [NL] else buffer in
        history_text history start_index (i + 1) n' buffer
  end.
Definition config_save_history (history : list (list Z)) (count start_index : Z) (s : vfs F D C N) : Z * vfs F D C N :=
  if count <=? 0 then (0, s)
  else write_config CONFIG_HISTORY_FILE (history_text history start_index 0 (Z.to_nat count) []) s.
End files.

(** ** Applying a configuration *)
Definition NETIF_FLAG_DHCP : Z := 8.
Definition apply_config (c : network_config_t) (f : NetInterface) : NetInterface :=
  if c.(use_dhcp) then
    mk_netif f.(ni_name) f.(ni_mac_addr) f.(ni_ip_addr) f.(ni_netmask) f.(ni_gateway) f.(ni_dns_server) (Z.lor f.(ni_flags) NETIF_FLAG_DHCP)
      f.(ni_send) f.(ni_packets_tx) f.(ni_packets_rx) f.(ni_bytes_tx) f.(ni_bytes_rx) f.(ni_errors)
  else
    mk_netif f.(ni_name) f.(ni_mac_addr) (ip_bytes_to_u32 c.(cf_ip_addr)) (ip_bytes_to_u32 c.(cf_netmask)) (ip_bytes_to_u32 c.(cf_gateway))
      (ip_bytes_to_u32 c.(cf_dns_server)) (Z.land f.(ni_flags) (Z.lnot NETIF_FLAG_DHCP))
      f.(ni_send) f.(ni_packets_tx) f.(ni_packets_rx) f.(ni_bytes_tx) f.(ni_bytes_rx) f.(ni_errors).
Definition config_apply_network (c : network_config_t) (n : net) : Z * net :=
  match n.(netif_list) with
  | [] => (-1, n)
  | f :: l => (0, with_netifs n (apply_config c f :: l) n.(netif_count))
  end.
(** The interface is the first of that name. *)
Fixpoint apply_named (iface : list Z) (c : network_config_t) (l : list NetInterface) : option (list NetInterface) :=
  match l with
  | [] => None
  | f :: l' =>
      if name_match f.(ni_name) iface then Some (apply_config c f :: l')
      else match apply_named iface c l' with Some l' => Some (f :: l') | None => None end
  end.
Definition config_apply_network_iface (iface : list Z) (c : network_config_t) (n : net) : Z * net :=
  match apply_named iface c n.(netif_list) with
  | None => (-1, n)
  | Some l => (0, with_netifs n l n.(netif_count))
  end.
