(* ===== verification/ConfigSpec.v ===== *)
(** What the configuration component guarantees: an address, a configuration
    and a history that were written are read back, and what a file that was
    longer before leaves behind. *)
From Stdlib Require Import Strings.String Strings.Ascii.
From S2P Require Import Prelude Cstring NetBase Vfs VfsSpec Config.

(** ** Addresses *)
Definition octet_ok (v : Z) : Prop := 0 <= v < 256.
Lemma digit_step d s parts i :
  0 <= i < 4 -> 0 <= d < 10 -> rd0 parts i * 10 + d <= 255 ->
  parse_ip_loop ((48 + d) :: s) parts i = parse_ip_loop s (wr parts i (rd0 parts i * 10 + d)) i.
Proof.
  intros Hi Hd Hv. cbn [parse_ip_loop]. rewrite (proj2 (Z.ltb_lt _ _)) by lia. cbn [negb].
  rewrite (proj2 (Z.leb_le 48 _)), (proj2 (Z.leb_le _ 57)) by lia. cbn [andb]. replace (48 + d - 48) with d by lia.
  by rewrite (proj2 (Z.ltb_ge _ _)) by lia.
Qed.
Lemma octet_digits v : octet_ok v -> exists ds, octet_string v = map (Z.add 48) ds /\ Forall (fun d => 0 <= d < 10) ds /\
  foldl (fun a d => a * 10 + d) 0 ds = v /\ (1 <= length ds <= 3)%nat.
Proof.
  intros Hv. unfold octet_ok in Hv. unfold octet_string. destruct (100 <=? v) eqn:E1; [|destruct (10 <=? v) eqn:E2]; bool_hyps.
  - exists [v / 100; v mod 100 / 10; v mod 100 mod 10]. cbn [map foldl length]. split; [done|]. split; [repeat constructor; lia|]. split; [|lia]. lia.
  - exists [v / 10; v mod 10]. cbn [map foldl length]. split; [done|]. split; [repeat constructor; lia|]. split; [|lia]. lia.
  - exists [v]. cbn [map foldl length]. split; [done|]. split; [repeat constructor; lia|]. split; lia.
Qed.
Lemma foldl_digits_ge ds : forall a, 0 <= a -> Forall (fun d => 0 <= d < 10) ds -> a <= foldl (fun a d => a * 10 + d) a ds.
Proof.
  induction ds as [|d ds IH]; intros a Ha F; [done|]. inversion F; subst. cbn [foldl]. etrans; [|apply IH; [lia|done]]. lia.
Qed.
Lemma digits_loop ds : forall s parts i, zlen parts = 4 -> 0 <= i < 4 -> 0 <= rd0 parts i -> Forall (fun d => 0 <= d < 10) ds ->
  foldl (fun a d => a * 10 + d) (rd0 parts i) ds <= 255 ->
  parse_ip_loop (map (Z.add 48) ds ++ s) parts i = parse_ip_loop s (wr parts i (foldl (fun a d => a * 10 + d) (rd0 parts i) ds)) i.
Proof.
  induction ds as [|d ds IH]; intros s parts i L Hi Hp F Hv; cbn [map foldl app] in *.
  - f_equal. symmetry. apply wr_id. apply rd_rd0. lia.
  - inversion F as [|? ? Hd F']; subst. pose proof (foldl_digits_ge ds (rd0 parts i * 10 + d) ltac:(lia) F') as G.
    rewrite digit_step by lia. rewrite IH; rewrite ?zlen_wr, ?rd0_wr_eq by lia; try lia; try done. by rewrite wr_wr_eq.
Qed.
Lemma octet_step v s parts i : octet_ok v -> zlen parts = 4 -> 0 <= i < 4 -> rd0 parts i = 0 ->
  parse_ip_loop (octet_string v ++ s) parts i = parse_ip_loop s (wr parts i v) i.
Proof.
  intros Hv L Hi E. destruct (octet_digits v Hv) as (ds & -> & F & Hd & _). unfold octet_ok in Hv.
  rewrite digits_loop; rewrite ?E, ?Hd; try lia; done.
Qed.
Lemma dot_step s parts i : 0 <= i < 4 -> parse_ip_loop (46 :: s) parts i = parse_ip_loop s parts (i + 1).
Proof. intros Hi. cbn [parse_ip_loop]. by rewrite (proj2 (Z.ltb_lt _ _)) by lia. Qed.
(** An address that is written is read back. *)
Lemma parse_ip_to_string ip : is_ip ip -> config_parse_ip (config_ip_to_string ip) = Some ip.
Proof.
  intros Hip. destruct (ip_explode ip Hip) as (a & b & c & d & ->). destruct Hip as [_ F].
  rewrite !list.Forall_cons in F. destruct F as (Ha & Hb & Hc & Hd & _). unfold is_u8 in *. pow2.
  unfold config_parse_ip, config_ip_to_string. cbn [rd0 rd Z.leb Z.compare]. change (rd0 [a; b; c; d] 0) with a. change (rd0 [a; b; c; d] 1) with b.
  change (rd0 [a; b; c; d] 2) with c. change (rd0 [a; b; c; d] 3) with d. cbn [app].
  rewrite octet_step by (done || (unfold octet_ok; lia)). rewrite dot_step by lia. change (wr [0; 0; 0; 0] 0 a) with [a; 0; 0; 0].
  rewrite octet_step by (done || (unfold octet_ok; lia)). rewrite dot_step by lia. change (wr [a; 0; 0; 0] (0 + 1) b) with [a; b; 0; 0].
  rewrite octet_step by (done || (unfold octet_ok; lia)). rewrite dot_step by lia. change (wr [a; b; 0; 0] (0 + 1 + 1) c) with [a; b; c; 0].
  rewrite <- (app_nil_r (octet_string d)). rewrite octet_step by (done || (unfold octet_ok; lia)).
  change (wr [a; b; c; 0] (0 + 1 + 1 + 1) d) with [a; b; c; d]. cbn [parse_ip_loop Z.eqb Z.add Pos.add Pos.succ Pos.eqb negb map].
  unfold u8. pow2. by rewrite !Z.mod_small by lia.
Qed.
Definition ip_char (c : Z) : Prop := 46 <= c <= 57 /\ c <> 47.
Lemma octet_chars v : octet_ok v -> Forall ip_char (octet_string v) /\ (1 <= length (octet_string v) <= 3)%nat.
Proof.
  intros Hv. destruct (octet_digits v Hv) as (ds & -> & F & _ & L). rewrite length_map. split; [|done].
  apply Forall_map. eapply list.Forall_impl; [exact F|]. intros d Hd. cbv beta in Hd. unfold ip_char, compose. lia.
Qed.
(** The buffer of 16 bytes for an address is large enough. *)
Lemma ip_string_chars ip : is_ip ip -> Forall ip_char (config_ip_to_string ip) /\ 7 <= zlen (config_ip_to_string ip) <= 15.
Proof.
  intros Hip. destruct (ip_explode ip Hip) as (a & b & c & d & ->). destruct Hip as [_ F].
  rewrite !list.Forall_cons in F. destruct F as (Ha & Hb & Hc & Hd & _). unfold is_u8 in *. pow2.
  unfold config_ip_to_string. change (rd0 [a; b; c; d] 0) with a. change (rd0 [a; b; c; d] 1) with b.
  change (rd0 [a; b; c; d] 2) with c. change (rd0 [a; b; c; d] 3) with d.
  destruct (octet_chars a Ha), (octet_chars b Hb), (octet_chars c Hc), (octet_chars d Hd).
  rewrite !zlen_app, !Forall_app. change (zlen [46]) with 1. unfold zlen. split; [|lia].
  assert (Forall ip_char [46]) by (repeat constructor; unfold ip_char; lia). tauto.
Qed.

(** ** Lines *)
(** Visible characters, without the blanks that the parser strips. *)
Definition visible (c : Z) : Prop := 32 < c < 127.
Lemma visible_blank c : visible c -> is_blank c = false /\ is_end_blank c = false.
Proof. unfold visible, is_blank, is_end_blank. intros Hc. rewrite !(proj2 (Z.eqb_neq c _)) by lia. done. Qed.
Lemma ip_char_visible c : ip_char c -> visible c.
Proof. unfold ip_char, visible. lia. Qed.
Lemma trim_visible s : Forall visible s -> trim s = s.
Proof.
  intros F. unfold trim. destruct F as [|c s Hc F]; [done|]. cbn [drop_while]. rewrite (proj1 (visible_blank c Hc)). f_equal.
  assert (Fr : Forall visible (rev s)) by (by apply Forall_rev). destruct (rev s) as [|d r] eqn:E.
  - rewrite <- (rev_involutive s), E. done.
  - inversion Fr as [|? ? Hd ?]; subst. cbn [drop_while]. rewrite (proj2 (visible_blank d Hd)). rewrite <- E. apply rev_involutive.
Qed.
Lemma split_eq_app key value : Forall (fun c => c <> 61) key -> split_eq (key ++ 61 :: value) = Some (key, value).
Proof. induction 1 as [|c key Hc F IH]; [done|]. cbn [app split_eq]. by rewrite (proj2 (Z.eqb_neq _ _) Hc), IH. Qed.
(** A line [key=value] of visible characters is read as that key and value. *)
Lemma parse_line_key_value key value :
  Forall visible key -> Forall (fun c => c <> 61) key -> Forall visible value -> zlen key < CONFIG_KEY_MAX -> zlen value < CONFIG_VALUE_MAX ->
  config_parse_line (key ++ 61 :: value) = Some (key, value).
Proof.
  intros Fk Nk Fv Lk Lv. unfold config_parse_line. rewrite (split_eq_app _ _ Nk). rewrite (proj2 (Z.leb_gt _ _)) by done.
  unfold zlen, CONFIG_KEY_MAX, CONFIG_VALUE_MAX in *. rewrite !take_ge by lia. by rewrite !trim_visible.
Qed.
Definition in_line (c : Z) : Prop := c <> NL /\ c <> 0.
Lemma visible_in_line c : visible c -> in_line c.
Proof. unfold visible, in_line, NL. lia. Qed.
Lemma buffer_lines_app w b : Forall in_line w -> buffer_lines (w ++ NL :: b) = w :: buffer_lines b.
Proof.
  induction 1 as [|c w [H1 H2] F IH]; [done|]. cbn [app buffer_lines].
  by rewrite (proj2 (Z.eqb_neq _ _) H1), (proj2 (Z.eqb_neq _ _) H2), IH.
Qed.
Lemma load_key_line c key value :
  Forall visible key -> Forall (fun c => c <> 61) key -> (forall k, hd_error key = Some k -> k <> 35 /\ k <> 59) -> key <> [] ->
  Forall visible value -> zlen key < CONFIG_KEY_MAX -> zlen value < CONFIG_VALUE_MAX - 1 ->
  load_line c (key ++ 61 :: value) = load_key key value c.
Proof.
  intros Fk Nk Hk Ne Fv Lk Lv. unfold load_line. rewrite zlen_app, zlen_cons. pose proof (zlen_nonneg key). pose proof (zlen_nonneg value).
  unfold CONFIG_LINE_MAX, CONFIG_KEY_MAX, CONFIG_VALUE_MAX in *. rewrite (proj2 (Z.ltb_lt 0 _)), (proj2 (Z.ltb_lt _ 256)) by lia. cbn [andb].
  assert (is_comment_or_empty (key ++ 61 :: value) = false) as ->.
  { destruct key as [|k key]; [done|]. inversion Fk as [|? ? Vk ?]; subst. destruct (Hk k eq_refl). unfold is_comment_or_empty. cbn [app drop_while].
    rewrite (proj1 (visible_blank k Vk)). unfold visible in Vk. unfold NL. by rewrite !(proj2 (Z.eqb_neq k _)) by lia. }
  cbn [negb]. rewrite parse_line_key_value by (done || (unfold CONFIG_KEY_MAX, CONFIG_VALUE_MAX; lia)). done.
Qed.
Lemma load_ip_line c (k : string) ip :
  (Forall visible (str k) /\ Forall (fun c => c <> 61) (str k) /\ (forall x, hd_error (str k) = Some x -> x <> 35 /\ x <> 59) /\ str k <> [] /\ zlen (str k) < 64) ->
  is_ip ip -> load_line c (str k ++ 61 :: config_ip_to_string ip) = load_key (str k) (config_ip_to_string ip) c.
Proof.
  intros (H1 & H2 & H3 & H4 & H5) Hip. destruct (ip_string_chars ip Hip) as [F L].
  apply load_key_line; try done; [|unfold CONFIG_VALUE_MAX; lia]. eapply list.Forall_impl; [exact F|]. apply ip_char_visible.
Qed.
Lemma load_comment c w : hd_error w = Some 35 -> load_line c w = c.
Proof. destruct w as [|x w]; [done|]. intros [= ->]. unfold load_line. case_if; [|done]. by cbn. Qed.

(** ** The network configuration *)
Definition config_ok (c : network_config_t) : Prop :=
  is_ip c.(cf_ip_addr) /\ is_ip c.(cf_netmask) /\ is_ip c.(cf_gateway) /\ is_ip c.(cf_dns_server).
(** What is kept of a configuration: its addresses only when they are used. *)
Definition stored_config (c : network_config_t) : network_config_t := if c.(use_dhcp) then default_config else c.
(** A file of contents [old] after [new] was written at its start: a file is
    not truncated. *)
Definition overwritten (old new : list Z) : list Z := new ++ drop (length new) old.
(** A header of comments and empty lines. *)
Definition comment_lines (h : list Z) : Prop := exists ws, h = concat (map (fun w => w ++ [NL]) ws) /\ Forall (Forall in_line) ws /\ forall c, foldl load_line c ws = c.
Lemma lines_of_concat ws b : Forall (Forall in_line) ws -> buffer_lines (concat (map (fun w => w ++ [NL]) ws) ++ b) = ws ++ buffer_lines b.
Proof.
  induction 1 as [|w ws Hw F IH]; [done|]. cbn [map concat app]. rewrite <- !app_assoc. change ([NL] ++ ?x) with (NL :: x). cbn [app]. by rewrite buffer_lines_app, IH.
Qed.
Definition ip_line (k : string) (ip : list Z) : list Z := str k ++ 61 :: config_ip_to_string ip.
Definition config_lines (c : network_config_t) : list (list Z) :=
  if c.(use_dhcp) then [str "dhcp=yes"; []]
  else [str "dhcp=no"; []; str "# Static IP configuration"; ip_line "ip" c.(cf_ip_addr); ip_line "netmask" c.(cf_netmask);
        ip_line "gateway" c.(cf_gateway); ip_line "dns" c.(cf_dns_server)].
Lemma config_text_lines h ws c : h = concat (map (fun w => w ++ [NL]) ws) -> config_text h c = concat (map (fun w => w ++ [NL]) (ws ++ config_lines c)).
Proof.
  intros ->. unfold config_text, config_lines. rewrite map_app, concat_app. f_equal. destruct (use_dhcp c); [done|].
  unfold static_lines, ip_line. cbn [map concat str app]. rewrite <- !app_assoc. done.
Qed.
Lemma forallb_in_line w : forallb (fun c => negb (c =? NL) && negb (c =? 0)) w = true -> Forall in_line w.
Proof. intros H. apply Forall_forall. intros x Hx. rewrite forallb_forall in H. specialize (H x Hx). unfold in_line. bool_hyps. lia. Qed.
Lemma ip_line_in_line k ip : forallb (fun c => negb (c =? NL) && negb (c =? 0)) (str k) = true -> is_ip ip -> Forall in_line (ip_line k ip).
Proof.
  intros Hk Hip. apply Forall_app. split; [by apply forallb_in_line|]. constructor; [unfold in_line, NL; lia|].
  eapply list.Forall_impl; [exact (proj1 (ip_string_chars ip Hip))|]. intros x Hx. apply visible_in_line, ip_char_visible, Hx.
Qed.
Lemma config_lines_in_line c : config_ok c -> Forall (Forall in_line) (config_lines c).
Proof.
  intros (H1 & H2 & H3 & H4). unfold config_lines. destruct (use_dhcp c).
  all: rewrite !list.Forall_cons; split_and!; first [done | by apply forallb_in_line | by apply ip_line_in_line].
Qed.
Lemma key_facts (k : string) :
  forallb (fun c => (32 <? c) && (c <? 127) && negb (c =? 61)) (str k) = true ->
  match str k with [] => false | x :: _ => negb (x =? 35) && negb (x =? 59) end = true -> (zlen (str k) <? 64) = true ->
  Forall visible (str k) /\ Forall (fun c => c <> 61) (str k) /\ (forall x, hd_error (str k) = Some x -> x <> 35 /\ x <> 59) /\ str k <> [] /\ zlen (str k) < 64.
Proof.
  intros H1 H2 H3. rewrite forallb_forall in H1. split; [|split; [|split]].
  - apply Forall_forall. intros x Hx. specialize (H1 x Hx). unfold visible. bool_hyps. lia.
  - apply Forall_forall. intros x Hx. specialize (H1 x Hx). bool_hyps. lia.
  - intros x Hx. destruct (str k); [done|]. cbn in Hx. injection Hx as ->. bool_hyps. lia.
  - split; [intros E; by rewrite E in H2|]. bool_hyps. lia.
Qed.
Lemma load_key_ip v c : load_key (str "ip") v c = mk_config c.(use_dhcp) (or_else (config_parse_ip v) c.(cf_ip_addr)) c.(cf_netmask) c.(cf_gateway) c.(cf_dns_server).
Proof. reflexivity. Qed.
Lemma load_key_netmask v c : load_key (str "netmask") v c = mk_config c.(use_dhcp) c.(cf_ip_addr) (or_else (config_parse_ip v) c.(cf_netmask)) c.(cf_gateway) c.(cf_dns_server).
Proof. reflexivity. Qed.
Lemma load_key_gateway v c : load_key (str "gateway") v c = mk_config c.(use_dhcp) c.(cf_ip_addr) c.(cf_netmask) (or_else (config_parse_ip v) c.(cf_gateway)) c.(cf_dns_server).
Proof. reflexivity. Qed.
Lemma load_key_dns v c : load_key (str "dns") v c = mk_config c.(use_dhcp) c.(cf_ip_addr) c.(cf_netmask) c.(cf_gateway) (or_else (config_parse_ip v) c.(cf_dns_server)).
Proof. reflexivity. Qed.
Lemma load_config_lines c : config_ok c -> foldl load_line default_config (config_lines c) = stored_config c.
Proof.
  intros (H1 & H2 & H3 & H4). unfold config_lines, stored_config. destruct c as [[|] ip mask gw dns]; cbn [use_dhcp cf_ip_addr cf_netmask cf_gateway cf_dns_server] in *.
  { by vm_compute. }
  cbn [foldl]. unfold ip_line. rewrite !load_ip_line by (done || (apply key_facts; reflexivity)).
  rewrite (load_comment _ (str "# Static IP configuration")) by done.
  change (load_line default_config (str "dhcp=no")) with (mk_config false [0; 0; 0; 0] [0; 0; 0; 0] [0; 0; 0; 0] [0; 0; 0; 0]).
  change (load_line ?c []) with c. rewrite load_key_ip, load_key_netmask, load_key_gateway, load_key_dns.
  rewrite (parse_ip_to_string ip), (parse_ip_to_string mask), (parse_ip_to_string gw), (parse_ip_to_string dns) by done. reflexivity.
Qed.
Lemma load_saved h c old :
  comment_lines h -> config_ok c -> zlen old <= zlen (config_text h c) ->
  load_buffer (overwritten old (config_text h c)) = stored_config c.
Proof.
  intros (ws & Eh & Fh & Lh) Hc Lo. unfold overwritten. rewrite drop_ge by (unfold zlen in Lo; lia). rewrite app_nil_r.
  unfold load_buffer. rewrite (config_text_lines h ws c Eh). rewrite <- (app_nil_r (concat _)). rewrite lines_of_concat.
  - rewrite !foldl_app, Lh, load_config_lines by done. done.
  - apply Forall_app. split; [done|]. by apply config_lines_in_line.
Qed.
Lemma network_header_comments : comment_lines network_header.
Proof.
  exists [str "# ALOS Network Configuration"; str "# Edit this file to configure static IP"; []]. split; [done|].
  split; [|intros c; cbn [foldl]; by rewrite !(load_comment _ (str _)) by done].
  rewrite !list.Forall_cons. split_and!; first [done | by apply forallb_in_line].
Qed.
Lemma iface_header_comments iface : Forall in_line iface -> comment_lines (iface_header iface).
Proof.
  intros F. exists [str "# ALOS Network Configuration for " ++ iface; []]. split; [|split].
  - unfold iface_header. cbn [map concat app]. rewrite <- !app_assoc. done.
  - rewrite !list.Forall_cons. split_and!; [|done|done]. apply Forall_app. split; [by apply forallb_in_line|done].
  - intros c. cbn [foldl]. change (load_line ?c []) with c. by apply load_comment.
Qed.
(** The texts fit the buffer of 512 bytes in which they are built. *)
Lemma config_text_fits h c : config_ok c -> zlen h + 160 <= 512 -> zlen (config_text h c) < 512.
Proof.
  intros (H1 & H2 & H3 & H4) Hh. unfold config_text, static_lines. rewrite zlen_app. destruct (use_dhcp c).
  - change (zlen ((str "dhcp=yes" ++ [NL; NL]) ++ [])) with 10. lia.
  - rewrite !zlen_app. change (zlen [NL]) with 1. change (zlen [NL; NL]) with 2.
    change (zlen (str "dhcp=no")) with 7. change (zlen (str "# Static IP configuration")) with 25. change (zlen (str "ip=")) with 3.
    change (zlen (str "netmask=")) with 8. change (zlen (str "gateway=")) with 8. change (zlen (str "dns=")) with 4.
    destruct (ip_string_chars _ H1), (ip_string_chars _ H2), (ip_string_chars _ H3), (ip_string_chars _ H4). lia.
Qed.

Section files.
Context {F D C N E : Type} `{FileSystem F D C N E}.
Implicit Types s : vfs F D C N.
(** Loading gives the bytes of the file to the parser, and the defaults with an
    error when there are none. *)
Lemma load_network_at_eq path s :
  load_network_at path s =
  match (read_config path 1023 s).1 with
  | None => (-1, default_config, (read_config path 1023 s).2)
  | Some b => (0, load_buffer b, (read_config path 1023 s).2)
  end.
Proof. unfold load_network_at. by destruct (read_config path 1023 s) as [[b|] s']. Qed.
(** What the file system promises: what is written at the start of the file at
    [path], whose length was at most [n] before, over all of it, is what the
    next [size] bytes read are. *)
Definition keeps_writes (path : list Z) (n size : Z) s : Prop := forall p s1 content s2,
  open_config path s = (Some p, s1) -> content <> [] -> n <= zlen content <= size -> vfs_write (Some p) 0 content s1 = (zlen content, s2) ->
  exists q s3, vfs_open path VFS_O_RDONLY (vfs_close (Some p) s2).2 = (Some q, s3) /\ vfs_read (Some q) 0 size s3 = Some content.
Lemma write_config_kept path n size content s s' : keeps_writes path n size s -> content <> [] -> n <= zlen content <= size ->
  write_config path content s = (0, s') -> (read_config path size s').1 = Some content.
Proof.
  intros K Ne L. unfold write_config. destruct (open_config path s) as [[p|] s1] eqn:Eo; [|done].
  destruct (vfs_write (Some p) 0 content s1) as [w s2] eqn:Ew. cbv zeta. case_if; [done|]. intros [= <-].
  rewrite Hif in Ew. destruct (K _ _ _ _ Eo Ne L Ew) as (q & s3 & Er & Ec). unfold read_config. cbn [vfs_close snd] in *. rewrite Er, Ec. by destruct content.
Qed.
Lemma iface_save_load iface c old s :
  Forall in_line iface -> config_ok c -> zlen old <= zlen (config_text (iface_header iface) c) ->
  (read_config (build_iface_config_path iface 128) 1023 s).1 = Some (overwritten old (config_text (iface_header iface) c)) ->
  (config_load_network_iface iface s).1 = (0, stored_config c).
Proof.
  intros Hi Hc Lo R. unfold config_load_network_iface. rewrite load_network_at_eq, R. cbn [fst]. by rewrite (load_saved _ _ _ (iface_header_comments _ Hi) Hc Lo).
Qed.
End files.

(** ** A file system in memory *)
(** One directory, under the names [/config] and [/www], with files that are lists of bytes; a write that
    starts inside the file overwrites its bytes, as ext2 does. *)
Module Ram.
Inductive node := Root | Dir | File (name : list Z) (size : Z).
Definition files : Type := list (list Z * list Z).
Fixpoint get (name : list Z) (fs : files) : option (list Z) :=
  match fs with [] => None | (n, d) :: fs' => if bool_decide (n = name) then Some d else get name fs' end.
Fixpoint set (name d : list Z) (fs : files) : files :=
  match fs with [] => [(name, d)] | (n, d') :: fs' => if bool_decide (n = name) then (n, d) :: fs' else (n, d') :: set name d fs' end.
Definition write_at (old : list Z) (off : Z) (d : list Z) : list Z := take (Z.to_nat off) old ++ overwritten (drop (Z.to_nat off) old) d.
#[global] Instance ram_fs : FileSystem unit unit files node Z := {
  fs_mount _ _ d := (d, Some []);
  fs_unmount _ _ d := d;
  fs_get_root _ _ _ := Some Root;
  nd_type n := match n with File _ _ => 1 | _ => 2 end;
  nd_size n := match n with File _ size => size | _ => 0 end;
  nd_dir_ops n := match n with File _ _ => false | _ => true end;
  nd_finddir _ c n name :=
    match n with
    | Root => if bool_decide (name = str "config") || bool_decide (name = str "www") then Some Dir else None
    | Dir => match get name c with Some d => Some (File name (zlen d)) | None => None end
    | File _ _ => None
    end;
  nd_readdir _ _ _ _ := None;
  nd_create d c n name := match n with Dir => (0, (d, set name [] c, n)) | _ => (-1, (d, c, n)) end;
  nd_mkdir d c n _ := (-1, (d, c, n));
  nd_unlink d c n _ := (-1, (d, c, n));
  nd_open _ _ := 0;
  nd_read _ c n off size := match n with File name _ => match get name c with Some b => Some (take (Z.to_nat size) (drop (Z.to_nat off) b)) | None => None end | _ => None end;
  nd_write d c n off b :=
    match n with
    | File name _ => match get name c with Some old => (zlen b, (d, set name (write_at old off b) c, n)) | None => (-1, (d, c, n)) end
    | _ => (-1, (d, c, n))
    end;
  ent_name _ := [];
  ent_type _ := 0
}.
Definition state : vfs unit unit files node := (vfs_mount [SLASH] [] 0 (vfs_register_fs (mk_filesystem [] tt) (vfs_init tt)).2).2.
Definition static (v : Z) : network_config_t := mk_config false [v; v; v; v] [v; v; v; v] [v; v; v; v] [v; v; v; v].
End Ram.
Lemma ram_keeps_writes : keeps_writes CONFIG_NETWORK_FILE 0 1023 Ram.state.
Proof.
  intros p s1 content s2 Eo _ L Ew. vm_compute in Eo. injection Eo as <- <-.
  match type of Ew with ?w = _ => assert (E2 : s2 = w.2) by (by rewrite Ew) end. subst s2. clear Ew. eexists _, _. split; [vm_compute; reflexivity|].
  transitivity (Some (take (Z.to_nat 1023) (Ram.write_at [] 0 content))); [vm_compute; reflexivity|].
  unfold Ram.write_at, overwritten. rewrite !drop_nil, app_nil_r. change (take (Z.to_nat 0) [] ++ content) with content. rewrite take_ge; [done|]. unfold zlen in L. lia.
Qed.
(** A shorter configuration saved over a longer one: the end of the old file is
    still there, and its last line sets the DNS server again. *)
Theorem config_stale_tail :
  let s := (config_save_network (Ram.static 255) Ram.state).2 in
  let s := (config_save_network (Ram.static 1) s).2 in
  (config_load_network s).1 = (0, mk_config false [1; 1; 1; 1] [1; 1; 1; 1] [1; 1; 1; 1] [255; 255; 255; 255]).
Proof. by vm_compute. Qed.
(** Addresses with an empty part are accepted. *)
Example parse_ip_empty_part : config_parse_ip (str "1..2.3") = Some [1; 0; 2; 3] /\ config_parse_ip (str "...") = Some [0; 0; 0; 0].
Proof. by vm_compute. Qed.

(** ** The history *)
Definition lines_text (es : list (list Z)) : list Z := concat (map (fun e => e ++ [NL]) es).
(** The entries in the order in which they are saved. *)
Definition ring_entries (history : list (list Z)) (start_index : Z) (n : nat) : list (list Z) :=
  map (fun i => entry_at history (Z.rem (start_index + Z.of_nat i) 16)) (seq 0 n).
Definition entry_ok (line_max : Z) (e : list Z) : Prop := Forall in_line e /\ 0 < zlen e < line_max.
Lemma lines_text_app es1 es2 : lines_text (es1 ++ es2) = lines_text es1 ++ lines_text es2.
Proof. unfold lines_text. by rewrite map_app, concat_app. Qed.
Lemma history_text_eq history start line_max n : forall k buffer,
  Forall (entry_ok line_max) (map (fun i => entry_at history (Z.rem (start + Z.of_nat i) 16)) (seq k n)) ->
  zlen buffer + zlen (lines_text (map (fun i => entry_at history (Z.rem (start + Z.of_nat i) 16)) (seq k n))) < 8191 ->
  history_text history start (Z.of_nat k) n buffer =
  buffer ++ lines_text (map (fun i => entry_at history (Z.rem (start + Z.of_nat i) 16)) (seq k n)).
Proof.
  induction n as [|n IH]; intros k buffer Fe L; cbn [seq map history_text] in *; [by rewrite app_nil_r|].
  inversion Fe as [|? ? [_ He] Fe']; subst. set (e := entry_at history (Z.rem (start + Z.of_nat k) 16)) in *.
  change (lines_text (e :: ?l)) with ((e ++ [NL]) ++ lines_text l) in *. rewrite !zlen_app in L. change (zlen [NL]) with 1 in L.
  pose proof (zlen_nonneg (lines_text (map (fun i => entry_at history (Z.rem (start + Z.of_nat i) 16)) (seq (S k) n)))).
  rewrite (proj2 (Z.ltb_lt (zlen buffer) _)) by lia. cbn [negb]. rewrite (proj2 (Z.ltb_lt 0 _)), (proj2 (Z.ltb_lt _ 8191)) by lia. cbn [andb].
  replace (Z.of_nat k + 1) with (Z.of_nat (S k)) by lia. rewrite IH; [by rewrite <- !app_assoc|done|]. rewrite !zlen_app. change (zlen [NL]) with 1. lia.
Qed.
Lemma history_lines_eq max_entries line_max es rest : forall history count,
  rest = [[]] \/ count + zlen es = max_entries -> Forall (entry_ok line_max) es -> 0 <= count -> count + zlen es <= max_entries -> count + zlen es <= zlen history ->
  exists h', history_lines max_entries line_max (es ++ rest) history count = (h', count + zlen es) /\ zlen h' = zlen history /\
    (forall i, 0 <= i < count -> rd h' i = rd history i) /\ (forall i, 0 <= i < zlen es -> rd h' (count + i) = rd es i).
Proof.
  induction es as [|e es IH]; intros history count Hrest Fe Hc Lm Lh; cbn [app history_lines].
  - change (zlen (@nil (list Z))) with 0 in *. rewrite Z.add_0_r in *. exists history. split.
    { destruct Hrest as [->| ->]; [cbn; by case_if|]. destruct rest; [done|]. cbn [history_lines]. by rewrite Z.ltb_irrefl. } split; [done|]. split; [done|]. lia.
  - inversion Fe as [|? ? [_ He] Fe']; subst. rewrite zlen_cons in *. pose proof (zlen_nonneg es). rewrite (proj2 (Z.ltb_lt count _)) by lia. cbn [negb].
    rewrite (proj2 (Z.ltb_lt 0 _)), (proj2 (Z.ltb_lt _ line_max)) by lia. cbn [andb].
    destruct (IH (wr history count e) (count + 1)) as (h' & -> & L' & Ho & Hn); [destruct Hrest; [by left|right; lia]|done|lia|lia|rewrite zlen_wr; lia|].
    exists h'. split; [f_equal; lia|]. split; [by rewrite L', zlen_wr|]. split.
    + intros i Hi. rewrite Ho by lia. apply rd_wr_ne. lia.
    + intros i Hi. destruct (decide (i = 0)) as [->|Ni].
      * rewrite Z.add_0_r, Ho by lia. rewrite rd_wr_eq by lia. done.
      * replace (count + i) with (count + 1 + (i - 1)) by lia. rewrite Hn by lia.
        change (e :: es) with ([e] ++ es). rewrite rd_app_r by (change (zlen [e]) with 1; lia). done.
Qed.
Section history.
Context {F D C N E : Type} `{FileSystem F D C N E}.
Implicit Types s : vfs F D C N.
(** A history that was saved is loaded again, in the order of the entries, when
    the entries fit the buffer and the file was not longer before or as many
    entries were saved as are loaded. *)
Lemma history_save_load history start n history0 max_entries line_max old s :
  let es := ring_entries history start n in
  Forall (entry_ok line_max) es -> zlen (lines_text es) < 8191 -> Z.of_nat n <= max_entries -> Z.of_nat n <= zlen history0 ->
  zlen old <= zlen (lines_text es) \/ Z.of_nat n = max_entries ->
  (read_config CONFIG_HISTORY_FILE 8191 s).1 = Some (overwritten old (history_text history start 0 n [])) ->
  exists h', (config_load_history history0 max_entries line_max s).1 = (Z.of_nat n, h') /\ zlen h' = zlen history0 /\
    forall i, 0 <= i < Z.of_nat n -> rd h' i = rd es i.
Proof.
  intros es Fe L Lm Lh Lo R. rewrite (history_text_eq history start line_max n 0 [] Fe L : history_text history start 0 n [] = _) in R. cbn [app] in R.
  change (map _ (seq 0 n)) with es in R. unfold config_load_history. destruct (read_config CONFIG_HISTORY_FILE 8191 s) as [b s']. cbn [fst] in R. subst b.
  assert (Ln : zlen es = Z.of_nat n) by (unfold es, ring_entries, zlen; by rewrite length_map, length_seq).
  unfold overwritten, lines_text at 1. rewrite lines_of_concat by (eapply list.Forall_impl; [exact Fe|]; intros x [Hx _]; exact Hx).
  destruct (history_lines_eq max_entries line_max es (buffer_lines (drop (length (lines_text es)) old)) history0 0) as (h' & -> & L' & _ & Hr); [|done|lia|lia|lia|].
  - destruct Lo as [Lo|Lo]; [left|right; lia]. by rewrite drop_ge by (unfold zlen in Lo; lia).
  - exists h'. cbn [fst]. rewrite Ln. split; [done|]. split; [done|]. intros i Hi. rewrite <- Hr by lia. done.
Qed.
End history.
