(* ===== verification/Shell.v ===== *)
(** The shell (src/shell/shell.c) and, of src/shell/commands.c, the look-up of
    commands and the commands that change the tree of files.

    The line editor is a function on what has been typed so far; a key is the
    value of a (signed) [char].  Output to the console is left out.  The
    commands that are not modelled here and the execution of programs are
    arguments of [command_execute]. *)
From Stdlib Require Import Strings.String Strings.Ascii.
From S2P Require Import Prelude Cstring Vfs Config.

Definition SHELL_LINE_MAX : Z := 256.
Definition SHELL_ARGS_MAX : Z := 16.
Definition SHELL_HISTORY_SIZE : Z := 16.
Definition SHELL_PATH_MAX : Z := 256.
Definition VFS_FILE : Z := 1.
Definition KEY_UP : Z := -128.
Definition KEY_DOWN : Z := -127.
Definition KEY_CTRL_C : Z := 3.
Definition KEY_BACKSPACE : Z := 8.

Record shell := mk_shell {
  cwd : list Z;
  history : list (list Z);
  history_count : Z;
  history_index : Z;
  history_nav : Z
}.
Definition with_cwd (sh : shell) (c : list Z) : shell := mk_shell c sh.(history) sh.(history_count) sh.(history_index) sh.(history_nav).
Definition with_history (sh : shell) (h : list (list Z)) (count index : Z) : shell := mk_shell sh.(cwd) h count index sh.(history_nav).
Definition with_nav (sh : shell) (nav : Z) : shell := mk_shell sh.(cwd) sh.(history) sh.(history_count) sh.(history_index) nav.

(** ** History *)
Definition last_index (sh : shell) (offset : Z) : Z := u64 (sh.(history_index) - 1 - offset + SHELL_HISTORY_SIZE) mod SHELL_HISTORY_SIZE.
Definition history_add (line : list Z) (sh : shell) : shell :=
  if bool_decide (line = []) then sh
  else if (0 <? sh.(history_count)) && bool_decide (entry_at sh.(history) (last_index sh 0) = line) then sh
  else
    with_history sh (wr sh.(history) sh.(history_index) (take (Z.to_nat (SHELL_LINE_MAX - 1)) line))
      (if sh.(history_count) <? SHELL_HISTORY_SIZE then sh.(history_count) + 1 else sh.(history_count))
      ((sh.(history_index) + 1) mod SHELL_HISTORY_SIZE).
Definition history_get (offset : Z) (sh : shell) : option (list Z) :=
  if (offset <? 0) || (sh.(history_count) <=? offset) then None else Some (entry_at sh.(history) (last_index sh offset)).

(** ** Editing a line *)
(** The characters typed so far and the place of the cursor; [len] is the
    number of characters. *)
Record edit := mk_edit { ed_buffer : list Z; ed_pos : Z; ed_nav : Z }.
Definition recall (max_len : Z) (hist : list Z) (nav : Z) : edit :=
  let b := take (Z.to_nat (max_len - 1)) hist in mk_edit b (zlen b) nav.
Definition edit_key (sh : shell) (max_len c : Z) (e : edit) : edit :=
  if c =? KEY_BACKSPACE then
    if 0 <? e.(ed_pos)
    then mk_edit (take (Z.to_nat (e.(ed_pos) - 1)) e.(ed_buffer) ++ drop (Z.to_nat e.(ed_pos)) e.(ed_buffer)) (e.(ed_pos) - 1) e.(ed_nav)
    else e
  else if c =? KEY_UP then
    if e.(ed_nav) <? sh.(history_count) - 1 then
      let nav := e.(ed_nav) + 1 in
      match history_get nav sh with
      | Some hist => recall max_len hist nav
      | None => mk_edit e.(ed_buffer) e.(ed_pos) nav
      end
    else e
  else if c =? KEY_DOWN then
    if 0 <=? e.(ed_nav) then
      let nav := e.(ed_nav) - 1 in
      if 0 <=? nav then
        match history_get nav sh with
        | Some hist => recall max_len hist nav
        | None => mk_edit e.(ed_buffer) 0 nav
        end
      else mk_edit [] 0 nav
    else e
  else if (32 <=? c) && (c <? 127) && (zlen e.(ed_buffer) <? max_len - 1) then
    mk_edit (take (Z.to_nat e.(ed_pos)) e.(ed_buffer) ++ [c] ++ drop (Z.to_nat e.(ed_pos)) e.(ed_buffer)) (e.(ed_pos) + 1) e.(ed_nav)
  else e.
(** The keys come from the keyboard; [None] when the editor waits for more.
    The answer has the line, whether it was cancelled by CTRL+C (which also
    kills the user tasks), the keys left and the navigation in the history. *)
Fixpoint readline_loop (sh : shell) (max_len : Z) (keys : list Z) (e : edit) : option (list Z * bool * list Z * Z) :=
  match keys with
  | [] => None
  | c :: keys' =>
      if c =? KEY_CTRL_C then Some ([], true, keys', e.(ed_nav))
      else if c =? NL then Some (e.(ed_buffer), false, keys', e.(ed_nav))
      else readline_loop sh max_len keys' (edit_key sh max_len c e)
  end.
Definition shell_readline (max_len : Z) (keys : list Z) (sh : shell) : option (list Z * bool * list Z * shell) :=
  match readline_loop sh max_len keys (mk_edit [] 0 (-1)) with
  | Some (line, killed, keys, nav) => Some (line, killed, keys, with_nav sh nav)
  | None => None
  end.
Definition shell_parse (line : list Z) (max : Z) : list (list Z) := take (Z.to_nat max) (words [32; 9] line).

(** ** Paths *)
Definition push_component (comps : list (list Z)) (w : list Z) : list (list Z) :=
  if bool_decide (w = [46]) then comps
  else if bool_decide (w = [46; 46]) then removelast comps
  else if zlen comps <? 64 then comps ++ [w] else comps.
(** The path made absolute, in a buffer of [SHELL_PATH_MAX] bytes. *)
Definition absolute_path (cwd path : list Z) : option (list Z) :=
  if is_absolute path then Some (take (Z.to_nat (SHELL_PATH_MAX - 1)) path)
  else
    let temp := take (Z.to_nat (SHELL_PATH_MAX - 1)) cwd in
    let cwd_len := zlen cwd in
    let temp :=
      if (0 <? cwd_len) && negb (rd0 cwd (cwd_len - 1) =? SLASH) && (cwd_len <? SHELL_PATH_MAX - 1) then cwd ++ [SLASH] else temp in
    if zlen temp + zlen path <? SHELL_PATH_MAX then Some (temp ++ path) else None.
Definition shell_resolve_path (cwd path : list Z) (size : Z) : option (list Z) :=
  if size =? 0 then None
  else
    match absolute_path cwd path with
    | None => None
    | Some temp =>
        match foldl push_component [] (words [SLASH] temp) with
        | [] => if 2 <=? size then Some [SLASH] else None
        | comps => Some (take (Z.to_nat (size - 1)) (concat (map (cons SLASH) comps)))
        end
    end.

Section files.
Context {F D C N E : Type} `{FileSystem F D C N E}.
Abbreviation state := (shell * vfs F D C N)%type.

Definition type_of (s : vfs F D C N) (p : Z) : Z := match rd s.(nodes) p with Some o => nd_type o.(o_node) | None => 0 end.
Definition shell_set_cwd (path : list Z) (st : state) : Z * state :=
  let '(sh, s) := st in
  match shell_resolve_path sh.(cwd) path SHELL_PATH_MAX with
  | None => (-1, st)
  | Some resolved =>
      let '(node, s) := vfs_resolve_path resolved s in
      match node with
      | None => (-1, (sh, s))
      | Some p =>
          if negb (type_of s p =? VFS_DIRECTORY) then (-1, (sh, s))
          else (0, (with_cwd sh (take (Z.to_nat (SHELL_PATH_MAX - 1)) resolved), s))
      end
  end.
Definition shell_init (sh : shell) (s : vfs F D C N) : state :=
  let sh := mk_shell [SLASH] sh.(history) 0 0 (-1) in
  let '(loaded, h, s) := config_load_history sh.(history) SHELL_HISTORY_SIZE SHELL_LINE_MAX s in
  (if 0 <? loaded then with_history sh h loaded (loaded mod SHELL_HISTORY_SIZE) else with_history sh h 0 0, s).
Definition shell_save_history (st : state) : state :=
  let '(sh, s) := st in
  let start_index := if SHELL_HISTORY_SIZE <=? sh.(history_count) then sh.(history_index) else 0 in
  (sh, (config_save_history sh.(history) sh.(history_count) start_index s).2).

(** ** Commands *)
(** The commands on files: the code they return and the state. *)
Definition cmd_cd (argv : list (list Z)) (st : state) : Z * state :=
  let path := match argv with _ :: p :: _ => p | _ => [SLASH] end in
  let '(r, st) := shell_set_cwd path st in (if negb (r =? 0) then -1 else 0, st).
(** The argument resolved against the current directory; [err] is the code the
    command returns for a missing argument and an invalid path. *)
Definition with_path (argv : list (list Z)) (err : Z) (st : state) (f : list Z -> Z * state) : Z * state :=
  match argv with
  | _ :: arg :: _ => match shell_resolve_path st.1.(cwd) arg SHELL_PATH_MAX with None => (err, st) | Some path => f path end
  | _ => (err, st)
  end.
Definition cmd_mkdir (argv : list (list Z)) (st : state) : Z * state :=
  with_path argv (-1) st (fun path => let '(r, s) := vfs_mkdir path st.2 in (if negb (r =? 0) then -1 else 0, (st.1, s))).
Definition cmd_touch (argv : list (list Z)) (st : state) : Z * state :=
  with_path argv (-1) st (fun path =>
    let '(existing, s) := vfs_resolve_path path st.2 in
    match existing with
    | Some _ => (0, (st.1, s))
    | None => let '(r, s) := vfs_create path s in (if negb (r =? 0) then -1 else 0, (st.1, s))
    end).
Definition cmd_rm (argv : list (list Z)) (st : state) : Z * state :=
  with_path argv 1 st (fun path =>
    let '(node, s) := vfs_resolve_path path st.2 in
    match node with
    | None => (1, (st.1, s))
    | Some p =>
        if type_of s p =? VFS_DIRECTORY then (1, (st.1, s))
        else let '(r, s) := vfs_unlink path s in (if negb (r =? 0) then 1 else 0, (st.1, s))
    end).
Definition cmd_rmdir (argv : list (list Z)) (st : state) : Z * state :=
  with_path argv 1 st (fun path =>
    let '(node, s) := vfs_resolve_path path st.2 in
    match node with
    | None => (1, (st.1, s))
    | Some p =>
        if negb (type_of s p =? VFS_DIRECTORY) then (1, (st.1, s))
        else let '(r, s) := vfs_rmdir path s in (if negb (r =? 0) then 1 else 0, (st.1, s))
    end).
Definition command_names : list string :=
  ["help"; "ping"; "tasks"; "threads"; "synctest"; "schedtest"; "worktest"; "ps"; "usermode"; "exec"; "elfinfo"; "netinfo"; "keymap";
   "script"; "netconf"; "savehist"; "linux"; "pci"; "clear"; "ls"; "cat"; "cd"; "pwd"; "mkdir"; "touch"; "echo"; "meminfo"; "rm"; "rmdir";
   "wget"; "httpd"; "gui"]%string.
Definition find_command (name : list Z) : option string := find (fun s => bool_decide (str s = name)) command_names.
(** The program that a word which is no command names. *)
Definition program_path (name : list Z) : list Z :=
  if is_absolute name then take 255 name else str "/bin/" ++ take 250 name.
Section execute.
Context (other_command : string -> list (list Z) -> state -> Z * state).
Context (process_exec_and_wait : list Z -> list (list Z) -> state -> Z * state).
Definition handler (name : string) (argv : list (list Z)) (st : state) : Z * state :=
  if String.eqb name "cd" then cmd_cd argv st
  else if String.eqb name "mkdir" then cmd_mkdir argv st
  else if String.eqb name "touch" then cmd_touch argv st
  else if String.eqb name "rm" then cmd_rm argv st
  else if String.eqb name "rmdir" then cmd_rmdir argv st
  else if String.eqb name "savehist" then (0, shell_save_history st)
  else other_command name argv st.
Definition command_execute (argv : list (list Z)) (st : state) : Z * state :=
  match argv with
  | [] => (-1, st)
  | name :: _ =>
      match find_command name with
      | Some c => handler c argv st
      | None =>
          let path := program_path name in
          let '(node, s) := vfs_resolve_path path st.2 in
          match node with
          | Some p => if negb (Z.land (type_of s p) VFS_FILE =? 0) then process_exec_and_wait path argv (st.1, s) else (-1, (st.1, s))
          | None => (-1, (st.1, s))
          end
      end
  end.
(** One turn of the loop of [shell_run]; [None] while the line is not complete. *)
Definition shell_step (keys : list Z) (st : state) : option (list Z * state) :=
  match shell_readline SHELL_LINE_MAX keys st.1 with
  | None => None
  | Some (line, killed, keys, sh) =>
      let st := (sh, st.2) in
      if bool_decide (line = []) then Some (keys, st)
      else
        let st := shell_save_history (history_add line st.1, st.2) in
        match shell_parse line SHELL_ARGS_MAX with
        | [] => Some (keys, st)
        | argv => Some (keys, (command_execute argv st).2)
        end
  end.
End execute.
End files.
