(* ===== verification/ShellSpec.v ===== *)
(** What the shell guarantees: the ring of the history is a bounded list that
    survives a restart, the line editor stays inside its buffer, and the current
    directory is always a normal absolute path. *)
From Stdlib Require Import Strings.String Strings.Ascii.
From S2P Require Import Prelude Cstring NetBase Vfs VfsSpec Config ConfigSpec Shell.

(** ** The history as a list *)
Record history_ok (sh : shell) : Prop := mk_history_ok {
  ho_len : zlen sh.(history) = SHELL_HISTORY_SIZE;
  ho_count : 0 <= sh.(history_count) <= SHELL_HISTORY_SIZE;
  ho_index : 0 <= sh.(history_index) < SHELL_HISTORY_SIZE;
  ho_fill : sh.(history_count) < SHELL_HISTORY_SIZE -> sh.(history_index) = sh.(history_count)
}.
(** The place of entry [i], the oldest being 0. *)
Definition slot (sh : shell) (i : Z) : Z := (sh.(history_index) - sh.(history_count) + i) mod SHELL_HISTORY_SIZE.
(** The entries, from the oldest to the newest. *)
Definition recent (sh : shell) : list (list Z) := map (fun i => entry_at sh.(history) (slot sh (Z.of_nat i))) (seq 0 (Z.to_nat sh.(history_count))).
Lemma zlen_recent sh : history_ok sh -> zlen (recent sh) = sh.(history_count).
Proof. intros [_ Hc _ _]. unfold recent, zlen. rewrite length_map, length_seq. lia. Qed.
Lemma rd_map_seq {A} (f : nat -> A) n i : 0 <= i < Z.of_nat n -> rd (map f (seq 0 n)) i = Some (f (Z.to_nat i)).
Proof.
  intros Hi. unfold rd. rewrite (proj2 (Z.leb_le 0 i)) by lia. rewrite list_lookup_fmap, lookup_seq_lt by lia. done.
Qed.
Lemma rd_recent sh i : 0 <= i < sh.(history_count) -> rd (recent sh) i = Some (entry_at sh.(history) (slot sh i)).
Proof. intros Hi. unfold recent. rewrite rd_map_seq by lia. by rewrite Z2Nat.id by lia. Qed.
Lemma last_index_slot sh offset : history_ok sh -> 0 <= offset < sh.(history_count) -> last_index sh offset = slot sh (sh.(history_count) - 1 - offset).
Proof.
  intros [_ Hc Hi _] Ho. unfold last_index, slot, SHELL_HISTORY_SIZE in *. rewrite u64_small by (unfold is_u64; lia).
  replace (history_index sh - history_count sh + (history_count sh - 1 - offset)) with (history_index sh - 1 - offset + 16 + (-1) * 16) by lia.
  by rewrite Z.mod_add by lia.
Qed.
(** Asking for the entry [offset] back from the newest. *)
Lemma history_get_recent sh offset : history_ok sh -> history_get offset sh = rd (recent sh) (sh.(history_count) - 1 - offset) \/ offset < 0.
Proof.
  intros W. unfold history_get. destruct (offset <? 0) eqn:E1; cbn [orb]; bool_hyps; [by right|left].
  destruct (history_count sh <=? offset) eqn:E2; bool_hyps.
  - symmetry. apply rd_None. rewrite zlen_recent by done. lia.
  - rewrite rd_recent by lia. f_equal. f_equal. apply last_index_slot; [done|lia].
Qed.
(** Adding a line to a bounded list. *)
Definition add_recent (line : list Z) (l : list (list Z)) : list (list Z) :=
  if bool_decide (line = []) then l
  else if bool_decide (list.last l = Some line) then l
  else drop (length l - 15) l ++ [take 255 line].
Lemma entry_wr_eq h i v : 0 <= i < zlen h -> entry_at (wr h i v) i = v.
Proof. intros. unfold entry_at. by rewrite rd_wr_eq. Qed.
Lemma entry_wr_ne h i j v : i <> j -> entry_at (wr h i v) j = entry_at h j.
Proof. intros. unfold entry_at. by rewrite rd_wr_ne. Qed.
Lemma last_rd {A} (l : list A) : list.last l = rd l (zlen l - 1).
Proof.
  rewrite list.last_lookup. unfold rd, zlen. destruct l as [|a l]; [done|]. rewrite (proj2 (Z.leb_le 0 _)) by (cbn [length]; lia). f_equal. cbn [length]. lia.
Qed.
Lemma last_recent sh : history_ok sh -> list.last (recent sh) = if 0 <? sh.(history_count) then Some (entry_at sh.(history) (last_index sh 0)) else None.
Proof.
  intros W. rewrite last_rd, zlen_recent by done. destruct (0 <? history_count sh) eqn:E; bool_hyps.
  - rewrite rd_recent by lia. rewrite last_index_slot by (done || lia). do 3 f_equal. lia.
  - apply rd_None. lia.
Qed.
Lemma rd_drop {A} (l : list A) n i : 0 <= i -> rd (drop n l) i = rd l (Z.of_nat n + i).
Proof. intros Hi. unfold rd. rewrite !(proj2 (Z.leb_le 0 _)) by lia. rewrite lookup_drop. f_equal. lia. Qed.
Lemma history_add_shape line sh : history_ok sh -> line <> [] -> list.last (recent sh) <> Some line ->
  exists k, (k = length (recent sh) - 15)%nat /\ sh.(history_count) - Z.of_nat k <= 15 /\ Z.of_nat k <= sh.(history_count) /\
    history_add line sh = with_history sh (wr sh.(history) sh.(history_index) (take 255 line)) (sh.(history_count) - Z.of_nat k + 1)
      ((sh.(history_index) + 1) mod 16).
Proof.
  intros W Nl Nd. pose proof (zlen_recent sh W) as L. pose proof W as [_ Hc _ _]. unfold SHELL_HISTORY_SIZE in Hc. unfold zlen in L.
  exists (length (recent sh) - 15)%nat. split; [done|]. split; [lia|]. split; [lia|]. rewrite (last_recent sh W) in Nd. unfold history_add.
  rewrite bool_decide_eq_false_2 by done. replace (_ && _) with false.
  - f_equal. unfold SHELL_HISTORY_SIZE. destruct (history_count sh <? 16) eqn:E; bool_hyps; lia.
  - symmetry. destruct (0 <? history_count sh); [|done]. cbn [andb]. apply bool_decide_eq_false_2. congruence.
Qed.
Lemma history_add_recent line sh : history_ok sh -> history_ok (history_add line sh) /\ recent (history_add line sh) = add_recent line (recent sh).
Proof.
  intros W. unfold add_recent. destruct (decide (line = [])) as [->|Nl]; [by split|]. rewrite (bool_decide_eq_false_2 (line = [])) by done.
  case_bool_decide as Hl.
  { rewrite (last_recent sh W) in Hl. unfold history_add. rewrite (bool_decide_eq_false_2 (line = [])) by done.
    destruct (0 <? history_count sh); [|done]. cbn [andb]. injection Hl as Hl. by rewrite bool_decide_eq_true_2. }
  destruct (history_add_shape line sh W Nl Hl) as (k & Ek & H15 & Hk & ->). pose proof (zlen_recent sh W) as Lr. destruct W as [Lh Hc Hi Hf].
  unfold SHELL_HISTORY_SIZE in *. split.
  { split; cbn [with_history history history_count history_index]; unfold SHELL_HISTORY_SIZE; rewrite ?zlen_wr; try lia. unfold zlen in Lr. lia. }
  rewrite <- Ek. apply rd_ext.
  - unfold recent at 1. cbn [with_history history_count]. unfold zlen in *. rewrite length_map, length_seq, length_app, length_drop. cbn [length]. lia.
  - intros i Hri. assert (Hi' : 0 <= i < history_count sh - Z.of_nat k + 1).
    { unfold recent, zlen in Hri. rewrite length_map, length_seq in Hri. cbn [with_history history_count] in Hri. lia. }
    rewrite rd_recent by (cbn [with_history history_count]; lia). cbn [with_history history].
    assert (Es : slot (with_history sh (wr (history sh) (history_index sh) (take 255 line)) (history_count sh - Z.of_nat k + 1) ((history_index sh + 1) mod 16)) i
                 = (history_index sh - history_count sh + Z.of_nat k + i) mod 16).
    { unfold slot, SHELL_HISTORY_SIZE. cbn [with_history history_index history_count]. lia. }
    rewrite Es. assert (Ld : zlen (drop k (recent sh)) = history_count sh - Z.of_nat k) by (unfold zlen in *; rewrite length_drop; lia).
    destruct (decide (i = history_count sh - Z.of_nat k)) as [->|Ni].
    + replace (_ mod 16) with (history_index sh) by (replace (history_index sh - history_count sh + Z.of_nat k + (history_count sh - Z.of_nat k)) with (history_index sh) by lia; symmetry; apply Z.mod_small; lia).
      rewrite entry_wr_eq by lia. rewrite <- Ld. by rewrite rd_last.
    + rewrite entry_wr_ne by lia. rewrite rd_app_l by lia. rewrite rd_drop, rd_recent by lia. unfold slot, SHELL_HISTORY_SIZE. do 3 f_equal. lia.
Qed.
(** A history of the empty shell. *)
Definition new_shell : shell := mk_shell [SLASH] (replicate 16 []) 0 0 (-1).
Lemma new_shell_ok : history_ok new_shell.
Proof. by split. Qed.
(** The ring of 16 entries behaves as a bounded list.  After any lines have
    been added, it holds the newest 16 of them, without empty lines and without
    a line that repeats the one before it; and asking for the entry [offset]
    back from the newest gives that element of the list, and NULL beyond its
    end. *)
Theorem shell_history_refines lines :
  let sh := foldl (fun sh line => history_add line sh) new_shell lines in
  let l := foldl (fun l line => add_recent line l) [] lines in
  recent sh = l /\ zlen l <= SHELL_HISTORY_SIZE /\
  forall offset, history_get offset sh = if offset <? 0 then None else rd l (zlen l - 1 - offset).
Proof.
  cbv zeta. assert (G : forall sh l, history_ok sh -> recent sh = l ->
    history_ok (foldl (fun sh line => history_add line sh) sh lines) /\
    recent (foldl (fun sh line => history_add line sh) sh lines) = foldl (fun l line => add_recent line l) l lines).
  { induction lines as [|line lines IH]; intros sh l W El; [done|]. cbn [foldl]. destruct (history_add_recent line sh W) as [W' E'].
    apply IH; [done|]. by rewrite E', El. }
  destruct (G new_shell [] new_shell_ok eq_refl) as [W El]. rewrite <- El. rewrite zlen_recent by done. split; [done|].
  split; [apply (ho_count _ W)|]. intros offset. destruct (offset <? 0) eqn:E; bool_hyps.
  - unfold history_get. by rewrite (proj2 (Z.ltb_lt _ _)) by lia.
  - destruct (history_get_recent _ offset W); [done|lia].
Qed.

(** ** The history after a restart *)
(** The index from which [shell_save_history] saves. *)
Definition save_start (sh : shell) : Z := if SHELL_HISTORY_SIZE <=? sh.(history_count) then sh.(history_index) else 0.
Lemma ring_entries_recent sh : history_ok sh -> ring_entries sh.(history) (save_start sh) (Z.to_nat sh.(history_count)) = recent sh.
Proof.
  intros [_ Hc Hi Hf]. unfold ring_entries, recent. apply map_ext_in. intros i Hin. apply in_seq in Hin. f_equal.
  unfold slot, save_start, SHELL_HISTORY_SIZE in *. destruct (16 <=? history_count sh) eqn:E; bool_hyps.
  - rewrite Z.rem_mod_nonneg by lia. replace (history_count sh) with 16 by lia. lia.
  - rewrite Z.rem_mod_nonneg by lia. rewrite Hf by lia. f_equal. lia.
Qed.
Lemma lines_text_bound line_max es : Forall (entry_ok line_max) es -> zlen (lines_text es) <= zlen es * line_max.
Proof.
  induction 1 as [|e es [_ He] F IH]; [done|]. change (lines_text (e :: es)) with ((e ++ [NL]) ++ lines_text es).
  rewrite !zlen_app, (zlen_cons e). change (zlen [NL]) with 1. lia.
Qed.
Section restart.
Context {F D C N E : Type} `{FileSystem F D C N E}.
Implicit Types s : vfs F D C N.
(** The history survives a restart: when the file holds what
    [shell_save_history] wrote, over a file that was not longer before or from
    a full ring, [shell_init] finds the same entries in the same order. *)
Theorem shell_history_persists sh sh0 old s :
  history_ok sh -> zlen sh0.(history) = SHELL_HISTORY_SIZE -> 0 < sh.(history_count) -> Forall (entry_ok SHELL_LINE_MAX) (recent sh) ->
  zlen old <= zlen (lines_text (recent sh)) \/ sh.(history_count) = SHELL_HISTORY_SIZE ->
  (read_config CONFIG_HISTORY_FILE 8191 s).1 = Some (overwritten old (history_text sh.(history) (save_start sh) 0 (Z.to_nat sh.(history_count)) [])) ->
  history_ok (shell_init sh0 s).1 /\ recent (shell_init sh0 s).1 = recent sh.
Proof.
  intros W L0 Hn Fe Lo R. unfold SHELL_HISTORY_SIZE in Lo. pose proof (ring_entries_recent sh W) as Er. pose proof (lines_text_bound _ _ Fe) as Lb. rewrite zlen_recent in Lb by done.
  pose proof (ho_count _ W) as Hc. unfold SHELL_LINE_MAX, SHELL_HISTORY_SIZE in *. rewrite <- Er in Fe, Lo, Lb.
  destruct (history_save_load sh.(history) (save_start sh) (Z.to_nat sh.(history_count)) sh0.(history) 16 256 old s) as (h' & El & L' & Hr); try done; try lia.
  rewrite Er in Hr. rewrite Z2Nat.id in El, Hr by lia. unfold shell_init. cbn [history]. unfold SHELL_HISTORY_SIZE, SHELL_LINE_MAX.
  destruct (config_load_history _ _ _ s) as [[loaded h] s']. cbn [fst] in El. injection El as -> ->. rewrite (proj2 (Z.ltb_lt 0 _)) by lia. cbn [fst].
  set (sh' := with_history _ _ _ _). assert (W' : history_ok sh').
  { subst sh'. split; cbn [with_history history history_count history_index]; unfold SHELL_HISTORY_SIZE; lia. }
  split; [done|]. apply rd_ext; [by rewrite !zlen_recent by done|]. rewrite zlen_recent by done. intros i Hi. subst sh'. cbn [with_history history_count] in Hi.
  rewrite rd_recent by (cbn [with_history history_count]; lia). cbn [with_history history].
  replace (slot _ i) with i by (unfold slot, SHELL_HISTORY_SIZE; cbn [with_history history_index history_count]; lia).
  unfold entry_at. rewrite Hr by lia. by rewrite rd_recent by lia.
Qed.
End restart.
Lemma shell_history_persists_witness :
  let sh := history_add (str "ls") (history_add (str "cd /") new_shell) in
  let s := (shell_save_history (sh, Ram.state)).2 in recent (shell_init new_shell s).1 = [str "cd /"; str "ls"].
Proof.
  cbv zeta. set (sh := history_add (str "ls") (history_add (str "cd /") new_shell)).
  refine (proj2 (shell_history_persists sh new_shell [] (shell_save_history (sh, Ram.state)).2 _ _ _ _ _ _)).
  - apply history_add_recent, history_add_recent, new_shell_ok.
  - done.
  - done.
  - assert (Er : recent sh = [str "cd /"; str "ls"]) by by vm_compute. rewrite Er.
    repeat (constructor; [split; [by apply forallb_in_line|by vm_compute]|]). constructor.
  - left. by vm_compute.
  - by vm_compute.
Defined.

(** ** Paths *)
Abbreviation path_words := (words [SLASH]).
Lemma is_slash c : is_delim [SLASH] c = (c =? SLASH).
Proof. unfold is_delim. case_bool_decide as H; rewrite list_elem_of_singleton in H; symmetry; [by apply Z.eqb_eq|by apply Z.eqb_neq]. Qed.
Lemma split_slash_cons p : exists w ws, split_slash p = w :: ws.
Proof. destruct p as [|c p]; [by exists [], []|]. cbn [split_slash]. destruct (c =? SLASH); [by eexists _, _|]. destruct (split_slash p); by eexists _, _. Qed.
(** The components of the shell are those of the file system. *)
Lemma path_words_components p : path_words p = components p.
Proof.
  unfold components. induction p as [|c p IH]; [done|]. cbn [words split_slash]. rewrite is_slash. destruct (c =? SLASH) eqn:Ec; [exact IH|].
  destruct (split_slash_cons p) as (w & ws & Es). rewrite Es in *. rewrite filter_cons_True by done. destruct p as [|d p].
  - cbn in Es. injection Es as <- <-. done.
  - rewrite is_slash. destruct (d =? SLASH) eqn:Ed.
    + cbn [split_slash] in Es. rewrite Ed in Es. injection Es as <- <-. rewrite IH. by rewrite filter_cons_False by auto.
    + cbn [split_slash] in Es. rewrite Ed in Es. destruct (split_slash_cons p) as (w' & ws' & Es'). rewrite Es' in Es. injection Es as <- <-.
      rewrite filter_cons_True in IH by done. by rewrite IH.
Qed.
Lemma path_words_skip p : path_words (SLASH :: p) = path_words p.
Proof. done. Qed.
Lemma path_words_app p q : path_words (p ++ SLASH :: q) = path_words p ++ path_words q.
Proof.
  rewrite !path_words_components. unfold components. induction p as [|c p IH]; [done|]. cbn [app split_slash].
  destruct (c =? SLASH); [exact IH|]. destruct (split_slash_cons p) as (w & ws & Es), (split_slash_cons (p ++ SLASH :: q)) as (w' & ws' & Es').
  rewrite Es, Es' in *. rewrite !filter_cons_True by done. cbn [app]. assert (w' = w) as ->; [|].
  { clear IH. revert w ws w' ws' Es Es'. induction p as [|d p IH]; intros w ws w' ws' Es Es'; cbn [app split_slash] in *.
    - change (SLASH =? SLASH) with true in Es'. congruence.
    - destruct (d =? SLASH); [congruence|]. destruct (split_slash_cons p) as (v & vs & Ev), (split_slash_cons (p ++ SLASH :: q)) as (v' & vs' & Ev').
      rewrite Ev in Es. rewrite Ev' in Es'. rewrite (IH v vs v' vs' Ev Ev') in Es'. congruence. }
  f_equal. destruct (decide (w = [])) as [->|Nw]; [by rewrite !filter_cons_False in IH by auto|]. rewrite !filter_cons_True in IH by done. cbn [app] in IH. by injection IH.
Qed.
Definition word_cost (ws : list (list Z)) : Z := zlen (concat (map (cons SLASH) ws)).
Lemma word_cost_cons w ws : word_cost (w :: ws) = 1 + zlen w + word_cost ws.
Proof. unfold word_cost. cbn [map concat]. by rewrite zlen_app, zlen_cons. Qed.
Lemma word_cost_app ws ws' : word_cost (ws ++ ws') = word_cost ws + word_cost ws'.
Proof. unfold word_cost. by rewrite map_app, concat_app, zlen_app. Qed.
Lemma path_words_cost p : word_cost (path_words p) <= zlen p + (match p with c :: _ => if c =? SLASH then 0 else 1 | [] => 0 end).
Proof.
  induction p as [|c p IH]; [done|]. cbn [words]. rewrite is_slash, zlen_cons. destruct (c =? SLASH) eqn:Ec.
  - destruct p as [|d p]; [done|]. destruct (d =? SLASH); lia.
  - destruct p as [|d p]; [done|]. rewrite is_slash. destruct (d =? SLASH) eqn:Ed.
    + rewrite word_cost_cons. change (zlen [c]) with 1. lia.
    + destruct (path_words (d :: p)) as [|w ws]; rewrite ?word_cost_cons, ?zlen_cons in *; [change (word_cost []) with 0; change (zlen (@nil Z)) with 0; pose proof (zlen_nonneg p); lia|lia].
Qed.
(** ** Normal paths *)
Definition normal_component (w : list Z) : Prop := w <> [] /\ Forall (fun c => c <> SLASH) w /\ w <> [46] /\ w <> [46; 46].
Definition path_of (comps : list (list Z)) : list Z := match comps with [] => [SLASH] | _ => concat (map (cons SLASH) comps) end.
Record normal (comps : list (list Z)) : Prop := mk_normal {
  no_comps : Forall normal_component comps;
  no_depth : zlen comps <= 64;
  no_len : zlen (path_of comps) <= SHELL_PATH_MAX - 1
}.
Lemma path_words_ok p : Forall (fun w => w <> [] /\ Forall (fun c => c <> SLASH) w) (path_words p).
Proof.
  rewrite path_words_components. unfold components. apply Forall_forall. intros w Hw. apply base.list_elem_of_In, list_elem_of_filter in Hw as [Nw Hw]. split; [done|].
  revert w Nw Hw. induction p as [|c p IH]; intros w Nw Hw; cbn [split_slash] in Hw.
  - by apply list_elem_of_singleton in Hw.
  - destruct (c =? SLASH) eqn:Ec.
    + apply list.elem_of_cons in Hw as [->|Hw]; [done|by apply IH].
    + destruct (split_slash_cons p) as (v & vs & Ev). rewrite Ev in *. apply list.elem_of_cons in Hw as [->|Hw].
      * constructor; [bool_hyps; lia|]. destruct (decide (v = [])) as [->|Nv]; [done|]. apply IH; [done|]. by left.
      * apply IH; [done|]. by right.
Qed.
Lemma removelast_incl {A} (P : A -> Prop) l : Forall P l -> Forall P (removelast l).
Proof. intros F. destruct l as [|a l]; [done|]. rewrite (app_removelast_last a) in F by done. by apply Forall_app in F as [F _]. Qed.
Lemma removelast_cost l : word_cost (removelast l) <= word_cost l /\ zlen (removelast l) <= zlen l.
Proof.
  destruct l as [|a l]; [done|]. pose proof (app_removelast_last a (l := a :: l) ltac:(done)) as El.
  rewrite El at 2 4. rewrite word_cost_app, zlen_app. pose proof (zlen_nonneg (concat (map (cons SLASH) [last (a :: l) a]))). unfold word_cost at 3.
  pose proof (zlen_nonneg [last (a :: l) a]). lia.
Qed.
Lemma push_normal ws : forall comps, Forall (fun w => w <> [] /\ Forall (fun c => c <> SLASH) w) ws -> Forall normal_component comps -> zlen comps <= 64 ->
  Forall normal_component (foldl push_component comps ws) /\ zlen (foldl push_component comps ws) <= 64 /\
  word_cost (foldl push_component comps ws) <= word_cost comps + word_cost ws.
Proof.
  induction ws as [|w ws IH]; intros comps Fw Fc L; cbn [foldl]; [change (word_cost []) with 0; split_and!; [done|done|lia]|].
  inversion Fw as [|? ? [Nw Sw] Fw']; subst. rewrite word_cost_cons. pose proof (zlen_nonneg w).
  assert (P : Forall normal_component (push_component comps w) /\ zlen (push_component comps w) <= 64 /\ word_cost (push_component comps w) <= word_cost comps + 1 + zlen w).
  { unfold push_component. destruct (removelast_cost comps). case_bool_decide as B1; [split_and!; [done|done|lia]|]. case_bool_decide as B2; [split_and!; [by apply removelast_incl|lia|lia]|].
    destruct (zlen comps <? 64) eqn:E; bool_hyps; [|split_and!; [done|done|lia]]. rewrite zlen_app, word_cost_app, word_cost_cons. change (word_cost []) with 0. change (zlen [w]) with 1.
    split_and!; [apply Forall_app; split; [done|]; by repeat constructor|lia|lia]. }
  destruct P as (P1 & P2 & P3). destruct (IH _ Fw' P1 P2) as (Q1 & Q2 & Q3). split_and!; [done|done|lia].
Qed.
Lemma push_all comps : forall base, Forall normal_component comps -> zlen base + zlen comps <= 64 -> foldl push_component base comps = base ++ comps.
Proof.
  induction comps as [|w comps IH]; intros base F L; [by rewrite app_nil_r|]. inversion F as [|? ? (N1 & N2 & N3 & N4) F']; subst. rewrite zlen_cons in L.
  pose proof (zlen_nonneg comps). cbn [foldl]. unfold push_component at 2. rewrite !bool_decide_eq_false_2 by done. rewrite (proj2 (Z.ltb_lt _ _)) by lia.
  rewrite IH; [by rewrite <- app_assoc|done|]. rewrite zlen_app. change (zlen [w]) with 1. lia.
Qed.
Lemma path_words_of comps : Forall normal_component comps -> path_words (path_of comps) = comps.
Proof.
  intros F. assert (G : path_words (concat (map (cons SLASH) comps)) = comps); [|by destruct comps].
  induction F as [|w comps (N1 & N2 & _) F IH]; [done|]. cbn [map concat app]. rewrite path_words_skip, words_word; [by rewrite IH|done| |].
  - eapply list.Forall_impl; [exact N2|]. intros c Hc. rewrite is_slash. by apply Z.eqb_neq.
  - by destruct comps.
Qed.
Lemma path_of_absolute comps : is_absolute (path_of comps) = true.
Proof. by destruct comps. Qed.
Lemma path_of_cost comps : zlen (path_of comps) = Z.max 1 (word_cost comps).
Proof.
  destruct comps as [|w comps]; [done|]. change (path_of (w :: comps)) with (concat (map (cons SLASH) (w :: comps))). change (zlen (concat (map (cons SLASH) (w :: comps)))) with (word_cost (w :: comps)).
  rewrite word_cost_cons. pose proof (zlen_nonneg w). pose proof (zlen_nonneg (concat (map (cons SLASH) comps))). unfold word_cost. lia.
Qed.
Lemma path_of_last comps : Forall normal_component comps -> comps <> [] -> exists l c, path_of comps = l ++ [c] /\ c <> SLASH.
Proof.
  intros F Ne. rewrite (app_removelast_last [] Ne) in F |- *. set (i := removelast comps) in *. set (w := last comps []) in *.
  apply Forall_app in F as [_ F]. inversion F as [|? ? (N1 & N2 & _) _]; subst. rewrite (app_removelast_last 0 N1) in N2. apply Forall_app in N2 as [_ N2].
  exists (concat (map (cons SLASH) i) ++ SLASH :: removelast w), (last w 0). split; [|by inversion N2].
  assert (path_of (i ++ [w]) = concat (map (cons SLASH) (i ++ [w]))) as -> by by destruct i. rewrite map_app, concat_app. cbn [map concat]. rewrite app_nil_r.
  rewrite (app_removelast_last 0 N1) at 1. by rewrite <- app_assoc.
Qed.
Lemma absolute_cost p : is_absolute p = true -> word_cost (path_words p) <= zlen p.
Proof. intros H. pose proof (path_words_cost p) as G. destruct p as [|c p]; [done|]. cbn in H. rewrite H in G. lia. Qed.
(** The words of the path that the shell works on. *)
Lemma absolute_path_words comps path temp : normal comps -> absolute_path (path_of comps) path = Some temp ->
  zlen temp <= 255 /\ word_cost (path_words temp) <= zlen temp /\
  foldl push_component [] (path_words temp) =
    foldl push_component (if is_absolute path then [] else comps) (path_words (if is_absolute path then take 255 path else path)).
Proof.
  intros [Nc Nd Nl] Ht. unfold absolute_path, SHELL_PATH_MAX in *. destruct (is_absolute path) eqn:Ea.
  - injection Ht as <-. assert (L : zlen (take (Z.to_nat (256 - 1)) path) <= 255) by (unfold zlen; rewrite length_take; lia). split; [done|]. split; [|done].
    apply absolute_cost. by destruct path.
  - rewrite (take_ge (path_of comps)) in Ht by (unfold zlen in Nl; lia). destruct comps as [|w comps].
    + cbn [path_of] in Ht. change ((0 <? zlen [SLASH]) && negb (rd0 [SLASH] (zlen [SLASH] - 1) =? SLASH) && (zlen [SLASH] <? 256 - 1)) with false in Ht. cbn iota in Ht.
      case_if_in Ht; [|done]. injection Ht as <-. bool_hyps. change (zlen [SLASH]) with 1 in *. cbn [app]. split; [rewrite zlen_cons; lia|]. split; [|done].
      by apply (absolute_cost (SLASH :: path)).
    + set (cs := w :: comps) in *. assert (Sl : (rd0 (path_of cs) (zlen (path_of cs) - 1) =? SLASH) = false /\ 0 < zlen (path_of cs)).
      { destruct (path_of_last cs Nc ltac:(done)) as (l & c & Ec & Hc). rewrite Ec, zlen_app. change (zlen [c]) with 1. pose proof (zlen_nonneg l).
        replace (zlen l + 1 - 1) with (zlen l) by lia. unfold rd0. rewrite rd_last. split; [by apply Z.eqb_neq|lia]. }
      destruct Sl as [Sl Pos]. rewrite Sl, (proj2 (Z.ltb_lt 0 _)) in Ht by lia. cbn [negb andb] in Ht. pose proof (zlen_nonneg path).
      assert (Et : zlen temp <= 255 /\ path_words temp = cs ++ path_words path /\ hd_error temp = Some SLASH).
      { destruct (zlen (path_of cs) <? 256 - 1) eqn:El; case_if_in Ht; try done; apply (inj Some) in Ht; subst temp; bool_hyps.
        - rewrite <- app_assoc. change ([SLASH] ++ path) with (SLASH :: path). rewrite path_words_app, path_words_of by done.
          rewrite zlen_app in Hif. change (zlen [SLASH]) with 1 in Hif. split_and!; [rewrite zlen_app, zlen_cons; lia|done|done].
        - destruct path as [|c path]; [|rewrite zlen_cons in *; pose proof (zlen_nonneg path); lia]. rewrite !app_nil_r. by rewrite path_words_of. }
      destruct Et as (Lt & Ew & Hd). split; [done|]. split; [apply absolute_cost; destruct temp as [|c temp]; [done|]; injection Hd as ->; done|].
      rewrite Ew, foldl_app, (push_all cs []) by (done || exact Nd). done.
Qed.
(** The components that a path names, starting from the directory [comps]. *)
Definition target (comps : list (list Z)) (path : list Z) : list (list Z) :=
  foldl push_component (if is_absolute path then [] else comps) (components (if is_absolute path then take 255 path else path)).
Lemma resolve_normal comps path r : normal comps -> shell_resolve_path (path_of comps) path SHELL_PATH_MAX = Some r ->
  r = path_of (target comps path) /\ normal (target comps path).
Proof.
  intros Hn. unfold shell_resolve_path. change (SHELL_PATH_MAX =? 0) with false. cbn iota.
  destruct (absolute_path (path_of comps) path) as [temp|] eqn:Et; [|done]. destruct (absolute_path_words comps path temp Hn Et) as (Lt & Lc & Ew).
  destruct (push_normal (path_words temp) [] (path_words_ok temp)) as (Q1 & Q2 & Q3); [done|by vm_compute|].
  rewrite Ew in *. rewrite !path_words_components in *. fold (target comps path) in *. change (word_cost []) with 0 in Q3.
  assert (Nt : normal (target comps path)) by (split; [done|done|rewrite path_of_cost; unfold SHELL_PATH_MAX; lia]).
  intros Hr. split; [|done]. destruct (target comps path) as [|w cs] eqn:Et'; [by injection Hr|]. apply (inj Some) in Hr. subst r. change (path_of (w :: cs)) with (concat (map (cons SLASH) (w :: cs))). apply take_ge.
  pose proof (no_len _ Nt) as L. unfold zlen in L. unfold SHELL_PATH_MAX in *. change (path_of (w :: cs)) with (concat (map (cons SLASH) (w :: cs))) in L. lia.
Qed.
Lemma normal_names comps : normal comps -> Forall (fun w => zlen w <= VFS_MAX_NAME) comps.
Proof.
  intros [F _ L]. rewrite path_of_cost in L. unfold SHELL_PATH_MAX, VFS_MAX_NAME in *. assert (G : word_cost comps <= 255) by lia. clear L. induction F as [|w comps _ F IH]; [done|].
  rewrite word_cost_cons in G. pose proof (zlen_nonneg w). pose proof (zlen_nonneg (concat (map (cons SLASH) comps))). fold (word_cost comps) in *.
  constructor; [lia|]. apply IH. lia.
Qed.
Lemma forallb_slash w : forallb (fun c => negb (c =? SLASH)) w = true -> Forall (fun c => c <> SLASH) w.
Proof. intros H. apply Forall_forall. intros x Hx. rewrite forallb_forall in H. specialize (H x Hx). bool_hyps. lia. Qed.
Section cwd.
Context {F D C N E : Type} `{FileSystem F D C N E}.
Definition cwd_normal (sh : shell) : Prop := exists comps, normal comps /\ sh.(cwd) = path_of comps.
Lemma set_cwd_keeps path (sh : shell) (s : vfs F D C N) : cwd_normal sh -> cwd_normal (shell_set_cwd path (sh, s)).2.1.
Proof.
  intros (comps & Hn & Ec). unfold shell_set_cwd. rewrite Ec. destruct (shell_resolve_path _ _ _) as [r|] eqn:Er; [|by exists comps].
  destruct (resolve_normal _ _ _ Hn Er) as [-> Hn']. destruct (vfs_resolve_path _ s) as [[p|] s']; [|by exists comps].
  case_if; [by exists comps|]. exists (target comps path). split; [done|]. cbn [with_cwd cwd fst snd]. apply take_ge.
  pose proof (no_len _ Hn') as L. unfold zlen, SHELL_PATH_MAX in *. lia.
Qed.
(** Resolution of paths in the shell.  The current directory is always a
    normal absolute path (no empty, [.] or [..] component, at most 255 bytes),
    and a path resolves against it to the normal path that its components
    name, [..] removing the component before it and staying at the root, with
    nothing cut off; looking that path up in the file system is the walk over
    those components from the root; and after [cd] the current directory is
    normal again, whatever the path was. *)
Theorem shell_paths_normal comps path r (sh : shell) (s : vfs F D C N) :
  normal comps -> sh.(cwd) = path_of comps -> shell_resolve_path sh.(cwd) path SHELL_PATH_MAX = Some r ->
  r = path_of (target comps path) /\ normal (target comps path) /\
  vfs_resolve_path r s = match vfs_get_root s with Some root => walk s root (target comps path) | None => (None, s) end /\
  exists comps', normal comps' /\ (shell_set_cwd path (sh, s)).2.1.(cwd) = path_of comps'.
Proof.
  intros Hn Ec Er. rewrite Ec in Er. destruct (resolve_normal _ _ _ Hn Er) as [-> Hn']. split; [done|]. split; [done|]. split.
  - assert (exists p, path_of (target comps path) = SLASH :: p /\ components p = target comps path) as (p & -> & Ep).
    { pose proof (path_words_of _ (no_comps _ Hn')) as Ew. rewrite path_words_components in Ew. pose proof (path_of_absolute (target comps path)) as Ea.
      destruct (path_of (target comps path)) as [|c p]; [done|]. cbn in Ea. apply Z.eqb_eq in Ea as ->. by exists p. }
    assert (Fn : Forall (fun w => zlen w <= VFS_MAX_NAME) (components p)) by (rewrite Ep; by apply normal_names).
    rewrite <- Ep. unfold vfs_get_root. destruct p as [|x p]; [cbn; by destruct (vfs_root s)|]. cbn -[resolve_loop components walk].
    destruct (vfs_root s) as [root|]; [|done]. apply resolve_loop_walk; [done|cbn; lia].
  - apply (set_cwd_keeps path sh s). by exists comps.
Qed.
End cwd.
Lemma shell_paths_normal_witness :
  shell_resolve_path (str "/config/a") (str "../b//./c") SHELL_PATH_MAX = Some (str "/config/b/c").
Proof.
  destruct (shell_paths_normal [str "config"; str "a"] (str "../b//./c") (str "/config/b/c") (mk_shell (str "/config/a") [] 0 0 (-1)) Ram.state) as [E _].
  - split; [|by vm_compute|by vm_compute]. repeat (constructor; [split_and!; try done; by apply forallb_slash|]). constructor.
  - done.
  - by vm_compute.
  - rewrite E. by vm_compute.
Defined.

(** ** The line editor *)
Record edit_ok (sh : shell) (max_len : Z) (e : edit) : Prop := mk_edit_ok {
  eo_pos : e.(ed_pos) = zlen e.(ed_buffer);
  eo_len : zlen e.(ed_buffer) < max_len;
  eo_nav : e.(ed_nav) = -1 \/ 0 <= e.(ed_nav) < sh.(history_count)
}.
(** Typing at the end of a line that has room for [max_len - 1] characters. *)
Definition type_key (max_len : Z) (l : list Z) (c : Z) : list Z :=
  if c =? KEY_BACKSPACE then removelast l
  else if (32 <=? c) && (c <? 127) && (zlen l <? max_len - 1) then l ++ [c] else l.
Lemma recall_ok sh max_len hist nav : 1 <= max_len -> 0 <= nav < sh.(history_count) -> edit_ok sh max_len (recall max_len hist nav).
Proof. intros Hm Hn. split; cbn [recall ed_pos ed_buffer ed_nav]; [done|unfold zlen; rewrite length_take; lia|by right]. Qed.
Lemma history_get_Some sh nav : 0 <= nav < sh.(history_count) -> exists h, history_get nav sh = Some h.
Proof. intros Hn. unfold history_get. rewrite (proj2 (Z.ltb_ge _ _)), (proj2 (Z.leb_gt _ _)) by lia. by eexists. Qed.
Lemma take_removelast (l : list Z) : take (Z.to_nat (zlen l - 1)) l = removelast l.
Proof.
  destruct l as [|a l]; [done|]. rewrite (app_removelast_last a (l := a :: l)) at 1 2 by done. set (i := removelast (a :: l)).
  rewrite zlen_app. change (zlen [last (a :: l) a]) with 1. rewrite take_app_le by (unfold zlen; lia). apply take_ge. unfold zlen. lia.
Qed.
Lemma edit_backspace sh max_len e : edit_ok sh max_len e -> edit_ok sh max_len (edit_key sh max_len KEY_BACKSPACE e) /\
  ed_buffer (edit_key sh max_len KEY_BACKSPACE e) = removelast e.(ed_buffer).
Proof.
  intros [Hp Hl Hn]. unfold edit_key. change (KEY_BACKSPACE =? KEY_BACKSPACE) with true. cbn iota. rewrite Hp. destruct (0 <? zlen (ed_buffer e)) eqn:E0; bool_hyps.
  - rewrite drop_ge, app_nil_r by (unfold zlen; lia). rewrite take_removelast. cbn [ed_buffer]. split; [|done].
    assert (L : zlen (removelast (ed_buffer e)) = zlen (ed_buffer e) - 1) by (rewrite <- take_removelast; unfold zlen in *; rewrite length_take; lia).
    split; cbn [ed_buffer ed_pos ed_nav]; [lia|lia|done].
  - split; [by split|]. destruct (ed_buffer e); [done|]. rewrite zlen_cons in E0. pose proof (zlen_nonneg l). lia.
Qed.
Lemma edit_key_ok sh max_len c e : 1 <= max_len -> edit_ok sh max_len e -> edit_ok sh max_len (edit_key sh max_len c e).
Proof.
  intros Hm He. destruct (Z.eqb_spec c KEY_BACKSPACE) as [->|N1]; [by apply edit_backspace|]. pose proof He as [Hp Hl Hn]. unfold edit_key.
  rewrite (proj2 (Z.eqb_neq _ _) N1). destruct (c =? KEY_UP).
  { case_if; [|done]. bool_hyps. assert (Hv : 0 <= ed_nav e + 1 < history_count sh) by lia. destruct (history_get_Some sh _ Hv) as [h ->]. by apply recall_ok. }
  destruct (c =? KEY_DOWN).
  { case_if; [|done]. bool_hyps. case_if; bool_hyps.
    - assert (Hv : 0 <= ed_nav e - 1 < history_count sh) by lia. destruct (history_get_Some sh _ Hv) as [h ->]. by apply recall_ok.
    - split; cbn [ed_buffer ed_pos ed_nav]; [done|change (zlen (@nil Z)) with 0; lia|lia]. }
  case_if; [|done]. bool_hyps. rewrite Hp, take_ge, drop_ge by (unfold zlen; lia). split; cbn [ed_buffer ed_pos ed_nav]; [| |done]; rewrite zlen_app; change (zlen ([c] ++ [])) with 1; lia.
Qed.
Definition typed (c : Z) : Prop := c = KEY_BACKSPACE \/ 32 <= c < 127.
Lemma edit_key_typed sh max_len c e : edit_ok sh max_len e -> typed c -> ed_buffer (edit_key sh max_len c e) = type_key max_len e.(ed_buffer) c.
Proof.
  intros He Ht. unfold type_key. destruct (Z.eqb_spec c KEY_BACKSPACE) as [->|N1]; [by apply edit_backspace|]. destruct Ht as [?|Ht]; [done|].
  destruct He as [Hp Hl Hn]. unfold edit_key. unfold KEY_UP, KEY_DOWN. rewrite (proj2 (Z.eqb_neq _ _) N1), !(proj2 (Z.eqb_neq c _)) by lia.
  case_if; [|done]. rewrite Hp, take_ge, drop_ge by (unfold zlen; lia). done.
Qed.
Lemma readline_from sh max_len keys rest e0 : 1 <= max_len -> Forall (fun c => c <> NL /\ c <> KEY_CTRL_C) keys -> edit_ok sh max_len e0 ->
  let e := foldl (fun e c => edit_key sh max_len c e) e0 keys in
  e.(ed_pos) = zlen e.(ed_buffer) /\ zlen e.(ed_buffer) + 1 <= max_len /\
  readline_loop sh max_len (keys ++ NL :: rest) e0 = Some (e.(ed_buffer), false, rest, e.(ed_nav)) /\
  (Forall typed keys -> e.(ed_buffer) = foldl (type_key max_len) e0.(ed_buffer) keys).
Proof.
  intros Hm Fk He. cbv zeta. revert e0 He. induction Fk as [|c keys [N1 N2] F IH]; intros e He; cbn [foldl app readline_loop].
  - destruct He as [Hp Hl _]. change (NL =? KEY_CTRL_C) with false. change (NL =? NL) with true. split_and!; [done|lia|done|done].
  - rewrite (proj2 (Z.eqb_neq _ _) N1), (proj2 (Z.eqb_neq _ _) N2). destruct (IH (edit_key sh max_len c e) (edit_key_ok _ _ _ _ Hm He)) as (P1 & P2 & P3 & P4).
    split_and!; [done|done|done|]. intros Ft. inversion Ft as [|? ? Tc Ft']; subst. rewrite P4 by done. by rewrite (edit_key_typed _ _ _ _ He Tc).
Qed.
(** C26. The line editor stays inside its buffer and edits what is typed.  After
    any keys before the Enter, the arrows that recall the history among them,
    the cursor is at the end of the line and the line with its NUL fits the
    [max_len] bytes of the buffer; the line that is returned is that line; and
    when only characters and backspaces were typed it is what they spell, a
    backspace removing the last character and characters beyond the room being
    dropped. *)
Theorem shell_readline_bounds max_len sh keys rest :
  1 <= max_len -> Forall (fun c => c <> NL /\ c <> KEY_CTRL_C) keys ->
  let e := foldl (fun e c => edit_key sh max_len c e) (mk_edit [] 0 (-1)) keys in
  e.(ed_pos) = zlen e.(ed_buffer) /\ zlen e.(ed_buffer) + 1 <= max_len /\
  shell_readline max_len (keys ++ NL :: rest) sh = Some (e.(ed_buffer), false, rest, with_nav sh e.(ed_nav)) /\
  (Forall typed keys -> e.(ed_buffer) = foldl (type_key max_len) [] keys).
Proof.
  intros Hm Fk. cbv zeta. destruct (readline_from sh max_len keys rest (mk_edit [] 0 (-1)) Hm Fk) as (P1 & P2 & P3 & P4).
  - by split; [|change (zlen _) with 0; lia|left].
  - unfold shell_readline. rewrite P3. by split_and!.
Qed.
Lemma shell_readline_bounds_witness :
  shell_readline 5 (str "abcdefg" ++ [KEY_BACKSPACE; NL]) new_shell = Some (str "abc", false, [], new_shell).
Proof.
  destruct (shell_readline_bounds 5 new_shell (str "abcdefg" ++ [KEY_BACKSPACE]) []) as (_ & _ & E & _).
  - lia.
  - repeat constructor; done.
  - rewrite <- app_assoc in E. cbn [app] in E. rewrite E. by vm_compute.
Defined.
