(* ===== verification/Http.v ===== *)
(** The HTTP server (src/net/l4/httpd.c) and client (src/net/l4/http.c).

    What the server needs of a connection is the interface [Conn]; a TCP socket
    is an instance of it.  What the other threads and the interrupts do while
    the code sleeps or yields is an argument ([yield], [wait]).  Strings are
    lists of bytes without the NUL at the end; messages to the log are left
    out. *)
From Stdlib Require Import Strings.String Strings.Ascii.
From S2P Require Import Prelude Cstring NetBase Dns Tcp Stack Vfs Config.

Definition CRLF : list Z := [13; 10].
(** A C string in a buffer: up to the NUL. *)
Fixpoint c_str (l : list Z) : list Z := match l with [] => [] | c :: l' => if c =? 0 then [] else c :: c_str l' end.

(** * Server *)
Definition HTTPD_MAX_REQUEST_SIZE : Z := 4096.
Definition HTTPD_MAX_RESPONSE_SIZE : Z := 8192.
Definition HTTPD_DEFAULT_PORT : Z := 80.
Definition HTTPD_DOCUMENT_ROOT : list Z := str "/www".
Fixpoint starts_with (n h : list Z) : bool :=
  match n, h with
  | [], _ => true
  | c :: n', d :: h' => if c =? d then starts_with n' h' else false
  | _ :: _, [] => false
  end.
(** What the haystack holds from the first place of the needle on. *)
Fixpoint httpd_strstr (haystack needle : list Z) : option (list Z) :=
  match needle with
  | [] => Some haystack
  | _ =>
      match haystack with
      | [] => None
      | _ :: h' => if starts_with needle haystack then Some haystack else httpd_strstr h' needle
      end
  end.
(** The digits from the last to the first; the array has 16 places. *)
Fixpoint itoa_digits (fuel : nat) (value : Z) (tmp : list Z) : list Z :=
  match fuel with
  | O => tmp
  | S fuel' =>
      let tmp := tmp ++ [48 + Z.rem value 10] in
      let value := Z.quot value 10 in
      if negb (value =? 0) && (zlen tmp <? 15) then itoa_digits fuel' value tmp else tmp
  end.
Definition httpd_itoa (value : Z) : list Z :=
  let neg := value <? 0 in
  let value := if neg then s32 (- value) else value in
  (if neg then [45] else []) ++ rev (itoa_digits 15 value []).
(** Append as long as there is room for the NUL. *)
Definition append_to (buf_size : Z) (buf p : list Z) : list Z := take (Z.to_nat (buf_size - 1)) (buf ++ p).
Definition build_http_header (buf_size : Z) (content_type : list Z) (content_length : Z) : list Z :=
  foldl (append_to buf_size) []
    [str "HTTP/1.0 200 OK" ++ CRLF; str "Server: ALOS/1.0" ++ CRLF; str "Content-Type: "; content_type; CRLF;
     str "Content-Length: "; httpd_itoa content_length; CRLF; str "Connection: close" ++ CRLF ++ CRLF].
Definition BODY_404 : list Z :=
  str "<html><head><title>404 Not Found</title></head>" ++ str "<body><h1>404 Not Found</h1></body></html>".
Definition HTTP_404_RESPONSE : list Z :=
  str "HTTP/1.0 404 Not Found" ++ CRLF ++ str "Server: ALOS/1.0" ++ CRLF ++ str "Content-Type: text/html" ++ CRLF ++
  str "Content-Length: 89" ++ CRLF ++ str "Connection: close" ++ CRLF ++ CRLF ++ BODY_404.
Definition BODY_500 : list Z :=
  str "<html><head><title>500 Error</title></head>" ++ str "<body><h1>500 Internal Server Error</h1></body></html>".
Definition HTTP_500_RESPONSE : list Z :=
  str "HTTP/1.0 500 Internal Server Error" ++ CRLF ++ str "Server: ALOS/1.0" ++ CRLF ++ str "Content-Type: text/html" ++ CRLF ++
  str "Content-Length: 107" ++ CRLF ++ str "Connection: close" ++ CRLF ++ CRLF ++ BODY_500.
Definition DEFAULT_INDEX : list Z :=
  str "<html>" ++ CRLF ++ str "<head><title>Welcome to ALOS</title></head>" ++ CRLF ++ str "<body>" ++ CRLF ++
  str "<h1>Welcome to ALOS HTTP Server</h1>" ++ CRLF ++ str "<p>The server is running successfully.</p>" ++ CRLF ++
  str "<p>Place files in /www to serve them.</p>" ++ CRLF ++ str "</body>" ++ CRLF ++ str "</html>" ++ CRLF.
(** From the last dot on. *)
Fixpoint last_dot (path : list Z) : option (list Z) :=
  match path with
  | [] => None
  | c :: p => match last_dot p with Some e => Some e | None => if c =? 46 then Some path else None end
  end.
Definition get_content_type (path : list Z) : list Z :=
  match last_dot path with
  | None => str "application/octet-stream"
  | Some ext =>
      if str_eq ext (str ".html") || str_eq ext (str ".htm") then str "text/html"
      else if str_eq ext (str ".css") then str "text/css"
      else if str_eq ext (str ".js") then str "application/javascript"
      else if str_eq ext (str ".json") then str "application/json"
      else if str_eq ext (str ".txt") then str "text/plain"
      else if str_eq ext (str ".png") then str "image/png"
      else if str_eq ext (str ".jpg") || str_eq ext (str ".jpeg") then str "image/jpeg"
      else if str_eq ext (str ".gif") then str "image/gif"
      else if str_eq ext (str ".ico") then str "image/x-icon"
      else str "application/octet-stream"
  end.
(** At most [n] characters before one for which [stop] holds, and the rest. *)
Fixpoint take_until (n : nat) (stop : Z -> bool) (s : list Z) : list Z * list Z :=
  match n, s with
  | S n', c :: s' => if stop c then ([], s) else let '(a, b) := take_until n' stop s' in (c :: a, b)
  | _, _ => ([], s)
  end.
Definition parse_request (request : list Z) (path_size : Z) : option (list Z * list Z) :=
  let '(method, rest) := take_until 7 (fun c => c =? 32) request in
  match rest with
  | c :: rest =>
      if c =? 32
      then let '(path, _) := take_until (Z.to_nat (path_size - 1)) (fun c => (c =? 32) || (c =? 63)) rest in Some (method, path)
      else None
  | [] => None
  end.

(** What the server uses of a connection, in a state [S]. *)
Record Conn (S : Type) := mk_conn {
  c_established : S -> bool;
  c_available : S -> Z;
  c_recv : Z -> S -> Z * list Z * S;
  c_send : list Z -> S -> Z * S
}.
Arguments c_established {S}.
Arguments c_available {S}.
Arguments c_recv {S}.
Arguments c_send {S}.

Section server.
Context {S : Type} (conn : Conn S) (thread_yield : S -> S).
(** Send [data] in chunks of at most 1024 bytes. *)
Fixpoint send_response (fuel : nat) (data : list Z) (s : S) : S :=
  match fuel with
  | O => s
  | Datatypes.S fuel' =>
      if (0 <? zlen data) && conn.(c_established) s then
        let '(result, s) := conn.(c_send) (take 1024 data) s in
        if result <=? 0 then s else send_response fuel' (drop (Z.to_nat result) data) (thread_yield s)
      else s
  end.
Definition send_all (data : list Z) (s : S) : S := send_response (length data) data s.
(** Read until the end of the headers, the end of the buffer, the end of the
    connection or fifty turns. *)
Fixpoint read_request (timeout : nat) (request : list Z) (s : S) : list Z * S :=
  match timeout with
  | O => (request, s)
  | Datatypes.S timeout' =>
      if negb (zlen request <? HTTPD_MAX_REQUEST_SIZE - 1) then (request, s)
      else
        let available := conn.(c_available) s in
        let '(request, complete, s) :=
          if 0 <? available then
            let to_read := Z.min available (HTTPD_MAX_REQUEST_SIZE - 1 - zlen request) in
            let '(read, bytes, s) := conn.(c_recv) to_read s in
            if 0 <? read then
              let request := request ++ bytes in
              (request, match httpd_strstr (c_str request) (CRLF ++ CRLF) with Some _ => true | None => false end, s)
            else (request, false, s)
          else (request, false, s) in
        if complete then (request, s)
        else if negb (conn.(c_established) s) then (request, s)
        else read_request timeout' request (thread_yield s)
  end.

Section files.
Context {F D C N E : Type} `{FileSystem F D C N E}.
Definition node_size (v : vfs F D C N) (p : Z) : Z := match rd v.(nodes) p with Some o => nd_size o.(o_node) | None => 0 end.
Fixpoint send_file (fuel : nat) (v : vfs F D C N) (file : option Z) (file_size offset : Z) (s : S) : S :=
  match fuel with
  | O => s
  | Datatypes.S fuel' =>
      if (offset <? file_size) && conn.(c_established) s then
        match vfs_read file offset (Z.min (file_size - offset) 1024) v with
        | Some (c :: b) => send_file fuel' v file file_size (offset + zlen (c :: b)) (send_all (c :: b) s)
        | _ => s
        end
      else s
  end.
(** The answer to a request for [path]. *)
Definition serve_path (path : list Z) (s : S) (v : vfs F D C N) : S * vfs F D C N :=
  let path := if str_eq path (str "/") then str "/index.html" else path in
  let '(file, v) := vfs_open (HTTPD_DOCUMENT_ROOT ++ path) VFS_O_RDONLY v in
  match file with
  | None =>
      if str_eq path (str "/index.html")
      then (send_all DEFAULT_INDEX (send_all (build_http_header HTTPD_MAX_RESPONSE_SIZE (str "text/html") (zlen DEFAULT_INDEX)) s), v)
      else (send_all HTTP_404_RESPONSE s, v)
  | Some p =>
      let file_size := node_size v p in
      let s := send_all (build_http_header HTTPD_MAX_RESPONSE_SIZE (get_content_type path) (s32 file_size)) s in
      let s := send_file (Datatypes.S (Z.to_nat file_size)) v file file_size 0 s in
      (s, (vfs_close file v).2)
  end.
(** [mem_ok]: did both allocations succeed? *)
Definition handle_client (mem_ok : bool) (s : S) (v : vfs F D C N) : S * vfs F D C N :=
  if negb mem_ok then (send_all HTTP_500_RESPONSE s, v)
  else
    let '(request, s) := read_request 50 [] s in
    if zlen request =? 0 then (s, v)
    else
      match parse_request (c_str request) 256 with
      | None => (send_all HTTP_500_RESPONSE s, v)
      | Some (method, path) =>
          if negb (str_eq method (str "GET")) then (send_all HTTP_500_RESPONSE s, v) else serve_path path s v
      end.
End files.
End server.

(** A TCP socket is a connection. *)
Definition tcp_conn (i : Z) : Conn (net * tcp) := {|
  c_established s := is_state (sock_at s.2 i).(sk_state) TCP_STATE_ESTABLISHED;
  c_available s := tcp_available (Some i) s.2;
  c_recv len s := let '(r, out, t) := tcp_recv (Some i) len s.2 in (r, out, (s.1, t));
  c_send buf s := tcp_send (Some i) buf s
|}.
Section httpd.
Context {F D C N E : Type} `{FileSystem F D C N E}.
Context (thread_yield : net * tcp -> net * tcp).
(** One turn of the accept loop of the server's thread. *)
Definition httpd_turn (mem_ok : bool) (port : Z) (s : net * tcp) (v : vfs F D C N) : (net * tcp) * vfs F D C N :=
  match tcp_find_ready_client s.2 port with
  | Some i =>
      if (tcp_conn i).(c_established) s then
        let '(s, v) := handle_client (tcp_conn i) thread_yield mem_ok s v in
        (thread_yield (tcp_close (Some i) s), v)
      else (thread_yield s, v)
  | None => (thread_yield s, v)
  end.
(** The socket on which the server listens, [None] when it cannot be had. *)
Definition httpd_listen (kmalloc_ok : Z -> bool) (port : Z) (s : net * tcp) : option Z * (net * tcp) :=
  let '(sock, t) := tcp_socket_create kmalloc_ok s.2 in
  match sock with
  | None => (None, (s.1, t))
  | Some i =>
      let '(r, t) := tcp_bind sock port t in
      if negb (r =? 0) then (None, tcp_close sock (s.1, t))
      else (Some i, (s.1, upd i (set_state TCP_STATE_LISTEN) t))
  end.
End httpd.

(** * Client *)
Definition HTTP_PORT : Z := 80.
Definition HTTP_OK : Z := 200.
Record ip_parse := mk_ip_parse { ip_octet : Z; ip_value : Z; ip_digits : Z; ip_out : list Z }.
Definition ip_char_step (c : Z) (st : ip_parse) : option ip_parse :=
  if (48 <=? c) && (c <=? 57) then
    let value := st.(ip_value) * 10 + (c - 48) in
    if 255 <? value then None else Some (mk_ip_parse st.(ip_octet) value (st.(ip_digits) + 1) st.(ip_out))
  else if c =? 46 then
    if (st.(ip_digits) =? 0) || (3 <=? st.(ip_octet)) then None
    else Some (mk_ip_parse (st.(ip_octet) + 1) 0 0 (wr st.(ip_out) st.(ip_octet) (u8 st.(ip_value))))
  else None.
Fixpoint ip_loop (s : list Z) (st : ip_parse) : option ip_parse :=
  match s with [] => Some st | c :: s' => match ip_char_step c st with Some st => ip_loop s' st | None => None end end.
Definition parse_ip_string (s : list Z) : option (list Z) :=
  match ip_loop s (mk_ip_parse 0 0 0 [0; 0; 0; 0]) with
  | None => None
  | Some st => if (st.(ip_digits) =? 0) || negb (st.(ip_octet) =? 3) then None else Some (wr st.(ip_out) st.(ip_octet) (u8 st.(ip_value)))
  end.
Definition str_append (dest_size : Z) (dest src : list Z) : list Z := append_to dest_size dest src.
Fixpoint port_digits (s : list Z) (port : Z) : Z * list Z :=
  match s with
  | c :: s' => if (48 <=? c) && (c <=? 57) then port_digits s' (u16 (port * 10 + (c - 48))) else (port, s)
  | [] => (port, [])
  end.
Definition parse_url (url : list Z) : option (list Z * Z * list Z) :=
  let ptr := if starts_with (str "http://") url then drop 7 url else url in
  let '(host, ptr) := take_until 63 (fun c => (c =? 58) || (c =? 47)) ptr in
  match host with
  | [] => None
  | _ =>
      let '(port, ptr) := match ptr with c :: p => if c =? 58 then port_digits p 0 else (HTTP_PORT, ptr) | [] => (HTTP_PORT, ptr) end in
      let path := match ptr with c :: _ => if c =? 47 then take 255 ptr else str "/" | [] => str "/" end in
      Some (host, port, path)
  end.
Definition http_request (host path : list Z) : list Z :=
  foldl (str_append 512) []
    [str "GET "; path; str " HTTP/1.0" ++ CRLF ++ str "Host: "; host; CRLF ++ str "User-Agent: ALOS/1.0" ++ CRLF; str "Connection: close" ++ CRLF ++ CRLF].

Section client.
Context (kmalloc_ok : Z -> bool).
(** [thread_sleep_ms(10)]: what happens meanwhile. *)
Context (wait : net * stack -> net * stack).
Definition sock_state (i : Z) (s : net * stack) : tcp_state_t := (sock_at s.2.(st_tcp) i).(sk_state).
Definition run_tcp (f : net * tcp -> net * tcp) : net * stack -> net * stack := on st_tcp with_tcp f.
Fixpoint connect_wait (fuel : nat) (i : Z) (s : net * stack) : option Z * (net * stack) :=
  match fuel with
  | O => (if is_state (sock_state i s) TCP_STATE_ESTABLISHED then (Some i, s) else (None, run_tcp (tcp_close (Some i)) s))
  | S fuel' =>
      if is_state (sock_state i s) TCP_STATE_ESTABLISHED then (Some i, s)
      else
        let s := wait s in
        if is_state (sock_state i s) TCP_STATE_CLOSED then (None, run_tcp (tcp_close (Some i)) s) else connect_wait fuel' i s
  end.
(** [local_port] is the static counter. *)
Definition tcp_connect_timeout (ip : list Z) (port timeout_ms : Z) (local_port : Z) (s : net * stack) : option Z * Z * (net * stack) :=
  let '(sock, t) := tcp_socket_create kmalloc_ok s.2.(st_tcp) in
  let s := (s.1, with_tcp s.2 t) in
  match sock with
  | None => (None, local_port, s)
  | Some i =>
      let '(r, t) := tcp_bind sock local_port t in
      let s := (s.1, with_tcp s.2 t) in
      let local_port := u16 (local_port + 1) in
      if negb (r =? 0) then (None, local_port, run_tcp (tcp_close sock) s)
      else
        let s := run_tcp (on_sock i (fun k => set_seq 1000 (set_state TCP_STATE_SYN_SENT (set_remote (bytes_at ip 0 4) port k)))) s in
        let s := run_tcp (tcp_send_packet i TCP_FLAG_SYN []) s in
        let '(c, s) := connect_wait (Z.to_nat ((timeout_ms + 9) / 10)) i s in (c, local_port, s)
  end.
(** [while (dns_is_pending() && timeout-- > 0)] *)
Fixpoint dns_wait (fuel : nat) (s : net * stack) : net * stack :=
  match fuel with O => s | S fuel' => if dns_is_pending s.2.(st_dns) then dns_wait fuel' (wait s) else s end.
Definition resolve_host (host : list Z) (s : net * stack) : option (list Z) * (net * stack) :=
  if Z.of_nat (length (filter (fun c => c = 46) host)) =? 3 then (parse_ip_string host, s)
  else
    let s := on st_dns with_dns (dns_send_query host) s in
    let s := dns_wait 500 s in
    (dns_get_result s.2.(st_dns), s).
(** [while (total_received < buf_size && timeout-- > 0)]; [rounds] bounds the
    turns, of which [timeout] are left without data. *)
Fixpoint receive_loop (rounds : nat) (i buf_size timeout : Z) (buffer : list Z) (s : net * stack) : list Z * (net * stack) :=
  match rounds with
  | O => (buffer, s)
  | S rounds' =>
      if negb ((zlen buffer <? buf_size) && (0 <? timeout)) then (buffer, s)
      else
        let timeout := timeout - 1 in
        let available := tcp_available (Some i) s.2.(st_tcp) in
        let '(buffer, timeout, s) :=
          if 0 <? available then
            let to_read := Z.min available (buf_size - zlen buffer) in
            let '(received, bytes, t) := tcp_recv (Some i) to_read s.2.(st_tcp) in
            let s := (s.1, with_tcp s.2 t) in
            if 0 <? received then (buffer ++ bytes, 1000, s) else (buffer, timeout, s)
          else (buffer, timeout, s) in
        if is_state (sock_state i s) TCP_STATE_CLOSED then (buffer, s) else receive_loop rounds' i buf_size timeout buffer (wait s)
  end.
(** The code, the bytes received, the counter of ports and the state. *)
Definition http_get (rounds : nat) (host path : list Z) (port buf_size local_port : Z) (s : net * stack) : Z * list Z * Z * (net * stack) :=
  let '(server_ip, s) := resolve_host host s in
  match server_ip with
  | None => (-1, [], local_port, s)
  | Some ip =>
      let '(sock, local_port, s) := tcp_connect_timeout ip port 5000 local_port s in
      match sock with
      | None => (-1, [], local_port, s)
      | Some i =>
          let '(r, st) := tcp_send sock (http_request host path) (s.1, s.2.(st_tcp)) in
          let s := (st.1, with_tcp s.2 st.2) in
          if r <? 0 then (-1, [], local_port, run_tcp (tcp_close sock) s)
          else
            let '(buffer, s) := receive_loop rounds i buf_size 1000 [] s in
            (zlen buffer, buffer, local_port, run_tcp (tcp_close sock) s)
      end
  end.
(** What follows the headers; all of it when they do not end. *)
Fixpoint http_body (b : list Z) : option (list Z) :=
  match b with
  | 13 :: ((10 :: 13 :: 10 :: rest) as t) => Some rest
  | _ :: t => http_body t
  | [] => None
  end.
(** The three characters at offset 9 as a number. *)
Definition status_code (b : list Z) : Z :=
  let m := fun a => match rd (bytes_at b 9 3) a with Some c => c | None => 0 end in
  match atoi 4 m 0 with Some v => v | None => 0 end.
Section files.
Context {F D C N E : Type} `{FileSystem F D C N E}.
(** Save the body of a response that was received. *)
Definition save_response (dest_path buffer : list Z) (v : vfs F D C N) : Z * vfs F D C N :=
  let body := match http_body buffer with Some b => b | None => buffer end in
  if (12 <? zlen buffer) && negb (status_code buffer =? HTTP_OK) then (-1, v)
  else
    let '(file, v) := vfs_open dest_path (Z.lor VFS_O_WRONLY VFS_O_CREAT) v in
    match file with
    | None => (-1, v)
    | Some _ =>
        let '(written, v) := vfs_write file 0 body v in
        let v := (vfs_close file v).2 in
        (if negb (written =? zlen body) then -1 else 0, v)
    end.
Definition http_download_file (rounds : nat) (mem_ok : bool) (url dest_path : list Z) (local_port : Z) (s : net * stack) (v : vfs F D C N) :
    Z * Z * (net * stack) * vfs F D C N :=
  match parse_url url with
  | None => (-1, local_port, s, v)
  | Some (host, port, path) =>
      if negb mem_ok then (-1, local_port, s, v)
      else
        let '(received, buffer, local_port, s) := http_get rounds host path port 65536 local_port s in
        if received <=? 0 then (-1, local_port, s, v)
        else let '(r, v) := save_response dest_path buffer v in (r, local_port, s, v)
  end.
End files.
End client.
