(* ===== verification/HttpSpec.v ===== *)
(** What the HTTP server and client guarantee: the server understands the
    client's requests, announces the length it sends and sends the file, and
    the client can never connect. *)
From Stdlib Require Import Strings.String Strings.Ascii.
From S2P Require Import Prelude Cstring NetBase Route Arp Ipv4 Dns Tcp Stack Vfs VfsSpec Config ConfigSpec Syscall SyscallSpec Http.

(** ** Numbers *)
Lemma itoa_digits_spec fuel : forall v tmp, 0 <= v < 10 ^ Z.of_nat fuel -> zlen tmp + Z.of_nat fuel <= 15 -> (0 < fuel)%nat ->
  exists ds, itoa_digits fuel v tmp = tmp ++ ds /\ ds <> [] /\ Forall (fun c => isdigit c = true) ds /\ dec_value 0 (rev ds) = v.
Proof.
  induction fuel as [|fuel IH]; intros v tmp Hv Ht Hf; [lia|]. cbn [itoa_digits]. rewrite Z.rem_mod_nonneg, Z.quot_div_nonneg by lia.
  assert (Hd : isdigit (48 + v mod 10) = true) by (unfold isdigit; apply andb_true_iff; split; apply Z.leb_le; lia).
  destruct (v / 10 =? 0) eqn:E0; cbn [negb andb]; bool_hyps.
  { exists [48 + v mod 10]. split_and!; [done|done|by repeat constructor|]. cbn. lia. }
  rewrite zlen_app. change (zlen [48 + v mod 10]) with 1. destruct fuel as [|fuel].
  { change (10 ^ Z.of_nat 1) with 10 in Hv. lia. }
  rewrite (proj2 (Z.ltb_lt _ 15)) by lia. rewrite Nat2Z.inj_succ, Z.pow_succ_r in Hv by lia.
  destruct (IH (v / 10) (tmp ++ [48 + v mod 10])) as (ds & -> & Nd & Fd & Ed); [lia|rewrite zlen_app; change (zlen [48 + v mod 10]) with 1; lia|lia|].
  exists ((48 + v mod 10) :: ds). split_and!; [by rewrite <- app_assoc|done|by constructor|]. cbn [rev]. unfold dec_value in *. rewrite fold_left_app, Ed. cbn [fold_left]. lia.
Qed.
(** A length is written as its decimal digits. *)
Lemma itoa_decimal v : 0 <= v < 2 ^ 31 -> Forall (fun c => isdigit c = true) (httpd_itoa v) /\ httpd_itoa v <> [] /\ dec_value 0 (httpd_itoa v) = v.
Proof.
  intros Hv. unfold httpd_itoa. rewrite (proj2 (Z.ltb_ge _ _)) by lia. cbn [app].
  destruct (itoa_digits_spec 15 v []) as (ds & -> & Nd & Fd & Ed); [split; [lia|]; etrans; [apply Hv|]; by vm_compute|by vm_compute|lia|]. cbn [app].
  split; [by apply Forall_rev|]. split; [|done]. destruct ds; [done|]. cbn [rev]. by destruct (rev ds).
Qed.

(** ** Requests *)
Lemma take_until_stop n stop a c b : Forall (fun c => stop c = false) a -> stop c = true -> (length a <= n)%nat -> take_until n stop (a ++ c :: b) = (a, c :: b).
Proof.
  intros F Hc. revert n. induction F as [|x a Hx F IH]; intros n Hn; cbn [app length] in *.
  - destruct n; cbn; by rewrite ?Hc.
  - destruct n as [|n]; [lia|]. cbn [take_until]. rewrite Hx, IH by lia. done.
Qed.
Lemma append_fits size buf p : zlen buf + zlen p < size -> append_to size buf p = buf ++ p.
Proof. intros H. unfold append_to. apply take_ge. rewrite length_app. unfold zlen in H. lia. Qed.
(** Cutting at a size keeps a prefix that fits it. *)
Lemma append_prefix size a buf p : zlen a < size -> exists r, append_to size (a ++ buf) p = a ++ r.
Proof.
  intros H. unfold append_to. rewrite <- app_assoc. rewrite take_app_ge by (unfold zlen in H; lia). by eexists.
Qed.
Lemma foldl_append_prefix size a ps : zlen a < size -> forall buf, exists r, foldl (append_to size) (a ++ buf) ps = a ++ r.
Proof.
  intros H. induction ps as [|p ps IH]; intros buf; cbn [foldl]; [by exists buf|]. destruct (append_prefix size a buf p H) as [r ->]. apply IH.
Qed.
(** The request line is whole when host and path are within the limits of
    [parse_url]. *)
Lemma http_request_line host path : zlen path <= 255 -> exists rest, http_request host path = str "GET " ++ path ++ 32 :: rest.
Proof.
  intros Hp. unfold http_request, str_append. cbn [foldl]. rewrite (append_fits 512 [] (str "GET ")) by (by vm_compute). cbn [app].
  rewrite (append_fits 512 (str "GET ") path) by (change (zlen (str "GET ")) with 4; lia).
  rewrite (append_fits 512 (str "GET " ++ path)) by (rewrite zlen_app; change (zlen (str "GET ")) with 4; change (zlen (str " HTTP/1.0" ++ CRLF ++ str "Host: ")) with 17; lia).
  change (str " HTTP/1.0" ++ CRLF ++ str "Host: ") with ([32] ++ (str "HTTP/1.0" ++ CRLF ++ str "Host: ")). rewrite (app_assoc (str "GET " ++ path)).
  assert (La : zlen ((str "GET " ++ path) ++ [32]) < 512) by (rewrite !zlen_app; change (zlen (str "GET ")) with 4; change (zlen [32]) with 1; lia).
  destruct (foldl_append_prefix 512 _ [host; CRLF ++ str "User-Agent: ALOS/1.0" ++ CRLF; str "Connection: close" ++ CRLF ++ CRLF] La (str "HTTP/1.0" ++ CRLF ++ str "Host: ")) as [r Er].
  cbn [foldl] in Er. rewrite Er. exists r. by rewrite <- !app_assoc.
Qed.
(** The server understands the client.  For every host and every path of at
    most 255 bytes without a space and a question mark, [parse_request] on the
    request that the client builds finds the method GET and that path. *)
Theorem http_request_parsed host path :
  zlen path <= 255 -> Forall (fun c => c <> 32 /\ c <> 63) path ->
  parse_request (http_request host path) 256 = Some (str "GET", path).
Proof.
  intros Hp Fp. destruct (http_request_line host path Hp) as [rest ->]. unfold parse_request.
  change (str "GET " ++ path ++ 32 :: rest) with (str "GET" ++ 32 :: (path ++ 32 :: rest)).
  rewrite take_until_stop; [|by repeat constructor|done|cbn; lia]. change (32 =? 32) with true. cbn iota. rewrite take_until_stop; [done| |done|unfold zlen in Hp; lia].
  eapply list.Forall_impl; [exact Fp|]. intros c [H1 H2]. by rewrite (proj2 (Z.eqb_neq _ _) H1), (proj2 (Z.eqb_neq _ _) H2).
Qed.
Lemma http_request_parsed_witness : parse_request (http_request (str "10.0.2.2") (str "/a.txt")) 256 = Some (str "GET", str "/a.txt").
Proof. apply (http_request_parsed (str "10.0.2.2") (str "/a.txt")); [by vm_compute|by repeat constructor]. Defined.

(** ** Responses *)
Section response.
Context {S : Type} (conn : Conn S) (thread_yield : S -> S) (sent : S -> list Z).
(** A connection that stays open and takes what it is given. *)
Record reliable : Prop := mk_reliable {
  re_open : forall s, conn.(c_established) s = true;
  re_send : forall d s, 0 < zlen d -> exists s', conn.(c_send) d s = (zlen d, s') /\ sent s' = sent s ++ d;
  re_yield : forall s, sent (thread_yield s) = sent s
}.
Context (R : reliable).
Lemma send_response_sent fuel : forall data s, (length data <= fuel)%nat -> sent (send_response conn thread_yield fuel data s) = sent s ++ data.
Proof.
  induction fuel as [|fuel IH]; intros data s Hf; cbn [send_response].
  - destruct data; [by rewrite app_nil_r|cbn in Hf; lia].
  - destruct (0 <? zlen data) eqn:E; cbn [andb]; bool_hyps; [|destruct data; [by rewrite app_nil_r|rewrite zlen_cons in E; pose proof (zlen_nonneg data); lia]].
    rewrite (re_open R). destruct (re_send R (take 1024 data) s) as (s' & -> & Es).
    { unfold zlen in *. rewrite length_take. lia. }
    assert (Lt : 0 < zlen (take 1024 data)) by (unfold zlen in *; rewrite length_take; lia). rewrite (proj2 (Z.leb_gt _ _)) by lia.
    rewrite to_nat_zlen, IH by (rewrite length_drop; unfold zlen in Lt; lia). rewrite (re_yield R), Es, <- app_assoc. f_equal.
    destruct (decide (length data <= 1024)%nat); [rewrite (take_ge data) by lia; by rewrite drop_ge, app_nil_r by lia|]. rewrite length_take_le by lia. apply take_drop.
Qed.
Lemma send_all_sent data s : sent (send_all conn thread_yield data s) = sent s ++ data.
Proof. by apply send_response_sent. Qed.
Context {F D C N E : Type} `{FileSystem F D C N E}.
Implicit Types v : vfs F D C N.
Lemma send_file_sent v p data fuel : reads_as v p data -> zlen data < 2 ^ 31 -> forall off s, 0 <= off <= zlen data -> zlen data - off < Z.of_nat fuel ->
  sent (send_file conn thread_yield fuel v (Some p) (zlen data) off s) = sent s ++ drop (Z.to_nat off) data.
Proof.
  intros Hr Hd. induction fuel as [|fuel IH]; intros off s Ho Hf; [lia|]. cbn [send_file]. destruct (off <? zlen data) eqn:E0; cbn [andb]; bool_hyps.
  - rewrite (re_open R), (Hr off) by lia. set (n := Z.min (zlen data - off) 1024).
    assert (Ln : zlen (take (Z.to_nat n) (drop (Z.to_nat off) data)) = n) by (subst n; unfold zlen in *; rewrite length_take, length_drop; lia).
    destruct (take (Z.to_nat n) (drop (Z.to_nat off) data)) as [|c b] eqn:Eb; [change (zlen (@nil Z)) with 0 in Ln; lia|]. rewrite Ln.
    rewrite IH by (subst n; lia). rewrite send_all_sent, <- app_assoc, <- Eb. f_equal. replace (Z.to_nat (off + n)) with (Z.to_nat off + Z.to_nat n)%nat by (subst n; lia).
    rewrite <- drop_drop. apply take_drop.
  - rewrite drop_ge by (unfold zlen in *; lia). by rewrite app_nil_r.
Qed.
End response.
(** A connection that records what is sent, and a file of two bytes. *)
Definition log_conn : Conn (list Z) := mk_conn _ (fun _ => true) (fun _ => 0) (fun _ s => (0, [], s)) (fun d s => (zlen d, s ++ d)).
Lemma log_reliable : reliable log_conn (fun s => s) (fun s => s).
Proof. split; [done| |done]. intros d s _. by exists (s ++ d). Qed.
Definition www_state : vfs unit unit Ram.files Ram.node :=
  let v := (vfs_create (str "/www/ab") Ram.state).2 in
  let '(file, v) := vfs_open (str "/www/ab") 0 v in (vfs_write file 0 [72; 105] v).2.
(** The path of a request is not kept under the document root. *)
Example httpd_leaves_root :
  parse_request (str "GET /../config/history HTTP/1.0") 256 = Some (str "GET", str "/../config/history") /\
  components (HTTPD_DOCUMENT_ROOT ++ str "/../config/history") = [str "www"; str ".."; str "config"; str "history"].
Proof. by vm_compute. Qed.
(** The fixed responses: the length of the first is right, that of the second
    is not. *)
Theorem fixed_responses_length :
  HTTP_404_RESPONSE = str "HTTP/1.0 404 Not Found" ++ CRLF ++ str "Server: ALOS/1.0" ++ CRLF ++ str "Content-Type: text/html" ++ CRLF ++
    str "Content-Length: " ++ httpd_itoa (zlen BODY_404) ++ CRLF ++ str "Connection: close" ++ CRLF ++ CRLF ++ BODY_404 /\
  str "107" <> httpd_itoa (zlen BODY_500) /\ zlen BODY_500 = 97.
Proof. vm_compute. split_and!; [done|discriminate|done]. Qed.

(** ** The client cannot connect *)
(** A socket of the client that waits for the answer to its SYN. *)
Definition waiting (i : Z) (s : net * tcp) : Prop := (sock_at s.2 i).(sk_in_use) = true /\ st s i = TCP_STATE_SYN_SENT.
Lemma in_use_in_table i (t : tcp) : (sock_at t i).(sk_in_use) = true -> 0 <= i < tcp_socket_capacity t.
Proof. unfold sock_at. destruct (rd (tcp_sockets t) i) eqn:E; [intros _; by eapply rd_Some_range|done]. Qed.
Lemma seg_socket_used g t j : seg_socket g t = Some j -> 0 <= j < tcp_socket_capacity t /\ (sock_at t j).(sk_in_use) = true.
Proof.
  unfold seg_socket. destruct (tcp_find_socket t _ _ _) as [k|] eqn:E.
  - intros [= ->]. unfold tcp_find_socket in E. apply find_sock_Some in E as (Hj & Hp & _). split; [done|]. cbn beta in Hp. bool_hyps. tauto.
  - case_if; [|done]. intros E'. unfold tcp_find_listening_socket in E'. apply find_sock_Some in E' as (Hj & Hp & _). split; [done|]. cbn beta in Hp. bool_hyps. tauto.
Qed.
Lemma tcp_handle_waiting km ticks ip data len i s : waiting i s -> waiting i (tcp_handle km ticks ip data len s).
Proof.
  intros [Hu Hs]. unfold tcp_handle. case_if; [done|]. cbv zeta. set (g := parse_segment ip data len). destruct (seg_socket g s.2) as [j|] eqn:Ej; [|by case_if].
  destruct (seg_socket_used _ _ _ Ej) as [Hj Huj]. destruct (decide (j = i)) as [->|Nj].
  { unfold handle_segment. fold (st s i). rewrite Hs. done. }
  assert (E : sock_at (handle_segment km ticks j g s).2 i = sock_at s.2 i).
  { destruct (decide (st s j = TCP_STATE_LISTEN)) as [El|Nl].
    - unfold handle_segment. fold (st s j). rewrite El. destruct (handle_listen_others km ticks j g s i Hj Huj (in_use_in_table _ _ Hu)) as [E|[E _]]; [done|congruence].
    - destruct (handle_segment_moves km ticks j g s Hj Nl) as [T _]. by apply (tc_other _ _ _ T). }
  unfold waiting, st in *. by rewrite E.
Qed.
(** What the interrupts do to the TCP layer: segments come in. *)
Inductive received (km : Z -> bool) (s : net * tcp) : net * tcp -> Prop :=
| rc_none n : received km s (n, s.2)
| rc_segment ticks ip data len n t : received km s (n, t) -> received km s (tcp_handle km ticks ip data len (n, t))
| rc_net n t n' : received km s (n, t) -> received km s (n', t).
Lemma received_waiting km i s s' : received km s s' -> waiting i s -> waiting i s'.
Proof. induction 1 as [n|ticks ip data len n t H IH|n t n' H IH]; intros Hw; [done|by apply tcp_handle_waiting, IH|by apply IH]. Qed.
Section never.
Context (km : Z -> bool) (wait : net * stack -> net * stack).
Context (Hwait : forall s, received km (s.1, s.2.(st_tcp)) ((wait s).1, (wait s).2.(st_tcp))).
Lemma wait_waiting i s : waiting i (s.1, s.2.(st_tcp)) -> waiting i ((wait s).1, (wait s).2.(st_tcp)).
Proof. by apply received_waiting with (km := km). Qed.
Lemma connect_wait_fails i fuel : forall s, waiting i (s.1, s.2.(st_tcp)) -> (connect_wait wait fuel i s).1 = None.
Proof.
  induction fuel as [|fuel IH]; intros s Hw; cbn [connect_wait]; unfold sock_state; pose proof (proj2 Hw) as Es; unfold st in Es; cbn [snd] in Es; rewrite Es; [done|].
  change (is_state TCP_STATE_SYN_SENT TCP_STATE_ESTABLISHED) with false. cbv zeta iota. pose proof (wait_waiting i s Hw) as Hw'.
  pose proof (proj2 Hw') as Es'. unfold st in Es'. cbn [snd] in Es'. rewrite Es'. change (is_state TCP_STATE_SYN_SENT TCP_STATE_CLOSED) with false. by apply IH.
Qed.
Lemma connect_never ip port timeout_ms local_port s : (tcp_connect_timeout km wait ip port timeout_ms local_port s).1.1 = None.
Proof.
  unfold tcp_connect_timeout. destruct (tcp_socket_create km _) as [[i|] t] eqn:Ec; [|done].
  assert (Hu : (sock_at t i).(sk_in_use) = true).
  { unfold tcp_socket_create in Ec. destruct (tcp_alloc_socket km _) as [[j|] t0] eqn:Ea; [|done]. injection Ec as -> <-.
    pose proof (alloc_spec _ _ _ _ Ea) as A. rewrite sock_at_upd_eq by apply A. cbn. apply A. }
  destruct (tcp_bind (Some i) local_port t) as [r t1] eqn:Eb. assert (Hu1 : (sock_at t1 i).(sk_in_use) = true).
  { unfold tcp_bind in Eb. destruct (find_sock t _); injection Eb as <- <-; [done|]. by rewrite sock_at_upd_eq by (by apply in_use_in_table). }
  cbv zeta. case_if; [done|]. match goal with |- context [connect_wait wait ?f i ?s0] => pose proof (connect_wait_fails i f s0) as Hf; destruct (connect_wait wait f i s0) as [c s'] end.
  cbn [fst] in Hf |- *. apply Hf. unfold run_tcp, on. cbn [fst snd st_tcp with_tcp]. destruct (tcp_send_packet i TCP_FLAG_SYN [] _) as [n' t'] eqn:Ep. cbn [fst snd st_tcp with_tcp].
  unfold waiting. pose proof (send_packet_tcp i TCP_FLAG_SYN [] (s.1, upd i (fun k => set_seq 1000 (set_state TCP_STATE_SYN_SENT (set_remote (bytes_at ip 0 4) port k))) t1)) as Sp.
  unfold on_sock in Ep. cbn [fst snd st_tcp with_tcp] in Ep. rewrite Ep in Sp. cbn [snd] in Sp. pose proof (in_use_in_table _ _ Hu1) as Hi. unfold st. cbn [snd].
  destruct Sp as [-> | ->]; rewrite !sock_at_upd_eq by (rewrite ?capacity_upd; done); cbn; done.
Qed.
(** The TCP layer has no transition out of SYN_SENT: whatever segments arrive
    while the client waits, the connection is never established and
    [http_get] fails. *)
Theorem http_get_never_connects rounds host path port buf_size local_port s :
  (http_get km wait rounds host path port buf_size local_port s).1.1.1 = -1.
Proof.
  unfold http_get. destruct (resolve_host wait host s) as [[ip|] s1]; [|done]. pose proof (connect_never ip port 5000 local_port s1) as Hc.
  destruct (tcp_connect_timeout km wait ip port 5000 local_port s1) as [[sock lp] s2]. cbn [fst] in Hc. by subst sock.
Qed.
End never.

(** ** Termination of the client's loop *)
Lemma tcp_recv_length i len t : let '(r, out, _) := tcp_recv (Some i) len t in 0 < r -> zlen out = r.
Proof. unfold tcp_recv. case_if; [lia|]. cbv zeta. case_if; [lia|]. destruct (recv_loop _ _ _) as [out k]. done. Qed.
(** Every turn without data lowers the timeout and every turn with data fills
    the buffer, so [1001 * buf_size + 1000] turns are enough: with more fuel the
    result is the same. *)
Lemma receive_loop_enough wait i buf_size : forall rounds extra timeout buffer s, 0 <= timeout <= 1000 ->
  Z.max 0 (buf_size - zlen buffer) * 1001 + timeout <= Z.of_nat rounds ->
  receive_loop wait (rounds + extra) i buf_size timeout buffer s = receive_loop wait rounds i buf_size timeout buffer s.
Proof.
  induction rounds as [|rounds IH]; intros extra timeout buffer s Ht Hr.
  - assert ((zlen buffer <? buf_size) && (0 <? timeout) = false) as E by (apply andb_false_iff; rewrite !Z.ltb_ge; lia).
    destruct extra as [|extra]; [done|]. cbn [Nat.add receive_loop]. by rewrite E.
  - cbn [Nat.add receive_loop]. destruct (zlen buffer <? buf_size) eqn:E1, (0 <? timeout) eqn:E2; cbn [andb negb]; try done. bool_hyps.
    destruct (0 <? tcp_available (Some i) (st_tcp s.2)) eqn:Ea.
    + pose proof (tcp_recv_length i (Z.min (tcp_available (Some i) (st_tcp s.2)) (buf_size - zlen buffer)) (st_tcp s.2)) as Lr.
      destruct (tcp_recv _ _ _) as [[received bytes] t]. destruct (0 <? received) eqn:Er; bool_hyps; (case_if; [done|]); apply IH; try lia. rewrite zlen_app, Lr by lia. lia.
    + case_if; [done|]. apply IH; lia.
Qed.
