(* ===== verification/Workqueue.v ===== *)
(** The work queue and its pool of workers (src/kernel/workqueue.c,
    src/kernel/workqueue.h) as a state machine whose steps are those of the
    workers, of the threads that submit work and of the one that shuts the pool
    down, in any order.

    The items live in a heap of their own, from which they are freed, and are
    linked by pointers.  A section of the code that holds the lock of the queue
    is one step.  Of the semaphore only the count matters here: a worker passes
    [sem_wait] when the count is positive (see SyncSpec for the semaphore
    itself).  The three last fields are histories: what was put into the queue,
    taken from it and executed, in order. *)
From S2P Require Import Prelude.

Definition KERNEL_WORKER_COUNT : Z := 4.
Definition ETIMEDOUT : Z := 110.
Record work_item_t := mk_item { wi_func : Z; wi_arg : Z; wi_next : option Z }.
(** Where a worker is in [worker_thread_func]. *)
Inductive worker_pc :=
| W_TEST             (** the condition of the loop *)
| W_WAIT             (** at [sem_wait] *)
| W_CHECK            (** woken, before the second test of [shutdown] *)
| W_DEQUEUE          (** before the lock *)
| W_RUN (item : Z)   (** with an item of its own *)
| W_EXIT.
Record pool := mk_pool {
  heap_items : gmap Z work_item_t;
  q_head : option Z;
  q_tail : option Z;
  q_count : Z;
  work_sem : Z;
  q_shutdown : bool;
  running : bool;
  workers : list worker_pc;
  submitting : list (Z * Z);   (** calls that found the pool running *)
  posting : nat;               (** calls of [sem_post] still to be made *)
  enqueued : list (Z * Z);
  dequeued : list (Z * Z);
  executed : list (Z * Z)
}.
Definition with_queue (p : pool) (m : gmap Z work_item_t) (h t : option Z) (c : Z) : pool :=
  mk_pool m h t c p.(work_sem) p.(q_shutdown) p.(running) p.(workers) p.(submitting) p.(posting) p.(enqueued) p.(dequeued) p.(executed).
Definition with_sem (p : pool) (s : Z) (n : nat) : pool :=
  mk_pool p.(heap_items) p.(q_head) p.(q_tail) p.(q_count) s p.(q_shutdown) p.(running) p.(workers) p.(submitting) n p.(enqueued) p.(dequeued) p.(executed).
Definition with_worker (p : pool) (i : Z) (w : worker_pc) : pool :=
  mk_pool p.(heap_items) p.(q_head) p.(q_tail) p.(q_count) p.(work_sem) p.(q_shutdown) p.(running) (wr p.(workers) i w) p.(submitting) p.(posting) p.(enqueued) p.(dequeued) p.(executed).
Definition with_submitting (p : pool) (l : list (Z * Z)) : pool :=
  mk_pool p.(heap_items) p.(q_head) p.(q_tail) p.(q_count) p.(work_sem) p.(q_shutdown) p.(running) p.(workers) l p.(posting) p.(enqueued) p.(dequeued) p.(executed).
Definition with_logs (p : pool) (e d x : list (Z * Z)) : pool :=
  mk_pool p.(heap_items) p.(q_head) p.(q_tail) p.(q_count) p.(work_sem) p.(q_shutdown) p.(running) p.(workers) p.(submitting) p.(posting) e d x.
Definition item_at (p : pool) (a : Z) : work_item_t := default (mk_item 0 0 None) (p.(heap_items) !! a).
Definition payload (p : pool) (a : Z) : Z * Z := ((item_at p a).(wi_func), (item_at p a).(wi_arg)).

(** ** The queue *)
(** The locked part of [worker_pool_submit], for an item allocated at [a]. *)
Definition enqueue (a func arg : Z) (p : pool) : pool :=
  let m := <[a := mk_item func arg None]> p.(heap_items) in
  let c := u32 (p.(q_count) + 1) in
  match p.(q_tail) with
  | Some t =>
      let it := item_at p t in
      with_queue p (<[t := mk_item it.(wi_func) it.(wi_arg) (Some a)]> m) p.(q_head) (Some a) c
  | None => with_queue p m (Some a) (Some a) c
  end.
(** The locked part of [worker_thread_func]. *)
Definition dequeue (p : pool) : option Z * pool :=
  match p.(q_head) with
  | None => (None, p)
  | Some a =>
      let next := (item_at p a).(wi_next) in
      (Some a, with_queue p p.(heap_items) next (match next with None => None | Some _ => p.(q_tail) end) (u32 (p.(q_count) - 1)))
  end.
Definition worker_pool_pending (p : pool) : Z := p.(q_count).

(** ** The workers *)
(** One step of worker [i]; [None] when it waits or has exited. *)
Definition worker_step (i : Z) (p : pool) : option pool :=
  match rd p.(workers) i with
  | Some W_TEST => Some (with_worker p i (if p.(q_shutdown) then W_EXIT else W_WAIT))
  | Some W_WAIT => if 0 <? p.(work_sem) then Some (with_worker (with_sem p (p.(work_sem) - 1) p.(posting)) i W_CHECK) else None
  | Some W_CHECK => Some (with_worker p i (if p.(q_shutdown) then W_EXIT else W_DEQUEUE))
  | Some W_DEQUEUE =>
      let '(item, p') := dequeue p in
      match item with
      | Some a => Some (with_logs (with_worker p' i (W_RUN a)) p.(enqueued) (p.(dequeued) ++ [payload p a]) p.(executed))
      | None => Some (with_worker p' i W_TEST)
      end
  | Some (W_RUN a) =>
      let p' := with_logs p p.(enqueued) p.(dequeued) (p.(executed) ++ [payload p a]) in
      Some (with_worker (with_queue p' (delete a p.(heap_items)) p.(q_head) p.(q_tail) p.(q_count)) i W_TEST)
  | Some W_EXIT | None => None
  end.

(** ** The interface *)
Definition new_pool (num_workers : Z) : pool :=
  mk_pool ∅ None None 0 0 false true (replicate (Z.to_nat num_workers) W_TEST) [] 0 [] [] [].
(** [None] when an allocation or the creation of a thread fails. *)
Definition worker_pool_create (pool_ok array_ok : bool) (thread_ok : Z -> bool) (num_workers : Z) : option pool :=
  let num_workers := if num_workers =? 0 then KERNEL_WORKER_COUNT else num_workers in
  if negb pool_ok then None
  else if negb array_ok then None
  else if negb (forallb thread_ok (seqZ 0 num_workers)) then None
  else Some (new_pool num_workers).
(** The first half of [worker_pool_submit]: the tests. *)
Definition submit_accept (func arg : Z) (p : pool) : option pool :=
  if func =? 0 then None
  else if negb p.(running) || p.(q_shutdown) then None
  else Some (with_submitting p (p.(submitting) ++ [(func, arg)])).
(** The item of the first call in [l2] goes into the queue. *)
Definition submit_enqueue (a : Z) (l1 l2 : list (Z * Z)) (p : pool) : option pool :=
  match l2 with
  | [] => None
  | (func, arg) :: l2 =>
      let p' := enqueue a func arg (with_submitting p (l1 ++ l2)) in
      Some (with_logs (with_sem p' p'.(work_sem) (S p'.(posting))) (p.(enqueued) ++ [(func, arg)]) p.(dequeued) p.(executed))
  end.
Definition submit_post (p : pool) : option pool :=
  match p.(posting) with O => None | S n => Some (with_sem p (p.(work_sem) + 1) n) end.
(** [worker_pool_submit] when nothing comes between: [a] is what [kmalloc]
    returns. *)
Definition worker_pool_submit (a : option Z) (func arg : Z) (p : pool) : Z * pool :=
  match submit_accept func arg p with
  | None => (-1, p)
  | Some p' =>
      match a with
      | None => (-1, p)
      | Some a =>
          match submit_enqueue a p.(submitting) [(func, arg)] p' with
          | Some p' => (0, match submit_post p' with Some p' => p' | None => p' end)
          | None => (-1, p)
          end
      end
  end.
(** The flags, and a [sem_post] for every worker to come. *)
Definition shutdown_flags (p : pool) : pool :=
  mk_pool p.(heap_items) p.(q_head) p.(q_tail) p.(q_count) p.(work_sem) true false p.(workers) p.(submitting)
    (p.(posting) + length p.(workers)) p.(enqueued) p.(dequeued) p.(executed).
(** The loop that joins the workers: [now i] is the clock before the [i]-th
    join, [join i timeout] its result. *)
Fixpoint join_workers (now : Z -> Z) (join : Z -> Z -> Z) (start_tick timeout_ms remaining : Z) (i : Z) (n : nat) (not_terminated : Z) : Z :=
  match n with
  | O => not_terminated
  | S n' =>
      let remaining :=
        if 0 <? timeout_ms then
          let elapsed := u64 (now i - start_tick) in
          if timeout_ms <=? elapsed then 1 else u32 (timeout_ms - u32 elapsed)
        else remaining in
      let not_terminated := if join i remaining =? - ETIMEDOUT then not_terminated + 1 else not_terminated in
      join_workers now join start_tick timeout_ms remaining (i + 1) n' not_terminated
  end.
Definition worker_pool_shutdown_timeout (now : Z -> Z) (join : Z -> Z -> Z) (timeout_ms : Z) (p : pool) : Z * pool :=
  (join_workers now join (now 0) timeout_ms timeout_ms 0 (length p.(workers)) 0, shutdown_flags p).
Definition worker_pool_shutdown (now : Z -> Z) (join : Z -> Z -> Z) (p : pool) : pool := (worker_pool_shutdown_timeout now join 0 p).2.
(** Free the items that are left, one after the other. *)
Fixpoint free_items (fuel : nat) (item : option Z) (m : gmap Z work_item_t) : gmap Z work_item_t :=
  match fuel, item with
  | S fuel', Some a => free_items fuel' (default (mk_item 0 0 None) (m !! a)).(wi_next) (delete a m)
  | _, _ => m
  end.
Definition worker_pool_destroy (p : pool) : pool :=
  with_queue p (free_items (size p.(heap_items)) p.(q_head) p.(heap_items)) None None 0.

(** ** Steps *)
Inductive wq_step (p : pool) : pool -> Prop :=
| step_accept func arg p' : submit_accept func arg p = Some p' -> wq_step p p'
| step_enqueue a l1 l2 p' : p.(submitting) = l1 ++ l2 -> p.(heap_items) !! a = None -> submit_enqueue a l1 l2 p = Some p' -> wq_step p p'
| step_failed l1 x l2 : p.(submitting) = l1 ++ x :: l2 -> wq_step p (with_submitting p (l1 ++ l2))   (** no memory for the item *)
| step_post p' : submit_post p = Some p' -> wq_step p p'
| step_worker i p' : worker_step i p = Some p' -> wq_step p p'
| step_shutdown : wq_step p (shutdown_flags p).
Inductive wq_reachable (n : Z) : pool -> Prop :=
| wq_start : wq_reachable n (new_pool n)
| wq_next p p' : wq_reachable n p -> wq_step p p' -> wq_reachable n p'.

(** ** The invariant *)
(** The items [ps] are linked from [h] on. *)
Fixpoint linked (m : gmap Z work_item_t) (h : option Z) (ps : list Z) : Prop :=
  match ps with
  | [] => h = None
  | a :: ps' => h = Some a /\ exists it, m !! a = Some it /\ linked m it.(wi_next) ps'
  end.
Definition running_item (w : worker_pc) : option Z := match w with W_RUN a => Some a | _ => None end.
Definition held (ws : list worker_pc) : list Z := omap running_item ws.
(** A worker that has taken from the semaphore and not yet from the queue. *)
Definition claimed (w : worker_pc) : bool := match w with W_CHECK | W_DEQUEUE => true | _ => false end.
Definition claims (ws : list worker_pc) : Z := zlen (List.filter claimed ws).
Record wq_inv (p : pool) (ps : list Z) : Prop := mk_wq_inv {
  wi_linked : linked p.(heap_items) p.(q_head) ps;
  wi_tail : p.(q_tail) = list.last ps;
  wi_count : p.(q_count) = u32 (zlen ps);
  wi_nodup : NoDup (ps ++ held p.(workers));
  wi_alloc : forall a, a ∈ ps ++ held p.(workers) -> is_Some (p.(heap_items) !! a);
  wi_fifo : p.(enqueued) = p.(dequeued) ++ map (payload p) ps;
  wi_once : p.(dequeued) ≡ₚ p.(executed) ++ map (payload p) (held p.(workers));
  wi_sem : 0 <= p.(work_sem);
  wi_account : p.(q_shutdown) = false -> zlen ps = Z.of_nat p.(posting) + p.(work_sem) + claims p.(workers)
}.

(** ** Lemmas on links *)
Lemma linked_ext m m' h ps : (forall a, a ∈ ps -> m' !! a = m !! a) -> linked m h ps -> linked m' h ps.
Proof.
  revert h. induction ps as [|a ps IH]; intros h He; [done|]. intros (-> & it & Hi & L). split; [done|]. exists it.
  split; [rewrite He; [done|by left]|]. apply IH; [|done]. intros b Hb. apply He. by right.
Qed.
Lemma linked_alloc m h ps a : linked m h ps -> a ∈ ps -> is_Some (m !! a).
Proof.
  revert h. induction ps as [|b ps IH]; intros h L Ha; [by apply elem_of_nil in Ha|]. destruct L as (-> & it & Hi & L).
  apply list.elem_of_cons in Ha as [->|Ha]; [by eexists|by eapply IH].
Qed.
(** A new item [a] behind the last one. *)
Lemma linked_snoc m h ps t a it x : linked m h ps -> NoDup ps -> list.last ps = Some t -> m !! t = Some it -> a ∉ ps -> a <> t ->
  linked (<[t := mk_item it.(wi_func) it.(wi_arg) (Some a)]> (<[a := mk_item x.1 x.2 None]> m)) h (ps ++ [a]).
Proof.
  intros L Nd Hl Hit Na Nt. revert h L. induction ps as [|b ps IH]; intros h L; [done|]. destruct L as (-> & itb & Hb & L). cbn [app linked]. split; [done|].
  apply list.NoDup_cons in Nd as [Nb Nd]. destruct ps as [|c ps].
  - cbn in Hl. injection Hl as ->. eexists. rewrite lookup_insert_eq. split; [done|]. cbn. split; [done|]. eexists. rewrite lookup_insert_ne, lookup_insert_eq by congruence. by split.
  - assert (b <> t). { intros ->. apply Nb. rewrite list.last_cons_cons in Hl. by apply list.last_Some_elem_of in Hl. }
    exists itb. rewrite !lookup_insert_ne; [| |done]; [|intros ->; apply Na; by left]. split; [done|]. apply IH; [done| | |done]; [by rewrite list.last_cons_cons in Hl|].
    intros Ha. apply Na. by right.
Qed.
(** A worker moves: what changes in the list of workers. *)
Lemma worker_split {A} (ws : list A) i w : rd ws i = Some w -> exists l1 l2, ws = l1 ++ w :: l2 /\ forall w', wr ws i w' = l1 ++ w' :: l2.
Proof.
  unfold rd, wr. case_if; [|done]. intros Hl. exists (take (Z.to_nat i) ws), (drop (S (Z.to_nat i)) ws). split; [by rewrite take_drop_middle|].
  intros w'. apply list.insert_take_drop. by eapply lookup_lt_Some.
Qed.
Lemma held_app l1 l2 : held (l1 ++ l2) = held l1 ++ held l2.
Proof. apply list.omap_app. Qed.
Lemma claims_app l1 l2 : claims (l1 ++ l2) = claims l1 + claims l2.
Proof. unfold claims. by rewrite List.filter_app, zlen_app. Qed.
Lemma claims_cons w l : claims (w :: l) = (if claimed w then 1 else 0) + claims l.
Proof. unfold claims. cbn [List.filter]. destruct (claimed w); [by rewrite zlen_cons|done]. Qed.
Lemma payload_ext p p' l : (forall a, a ∈ l -> payload p' a = payload p a) -> map (payload p') l = map (payload p) l.
Proof. intros He. apply map_ext_in. intros a Ha. apply He. by apply base.list_elem_of_In. Qed.
Lemma payload_eq p p' : p'.(heap_items) = p.(heap_items) -> payload p' = payload p.
Proof. intros E. unfold payload, item_at. by rewrite E. Qed.
Lemma payload_lookup p p' a : p'.(heap_items) !! a = p.(heap_items) !! a -> payload p' a = payload p a.
Proof. intros E. unfold payload, item_at. by rewrite E. Qed.

(** Steps of a worker that touch neither the queue nor the items. *)
Lemma move_inv p p' ps l1 l2 w w' :
  wq_inv p ps -> p.(workers) = l1 ++ w :: l2 -> p'.(workers) = l1 ++ w' :: l2 -> running_item w = None -> running_item w' = None ->
  p'.(heap_items) = p.(heap_items) -> p'.(q_head) = p.(q_head) -> p'.(q_tail) = p.(q_tail) -> p'.(q_count) = p.(q_count) ->
  p'.(enqueued) = p.(enqueued) -> p'.(dequeued) = p.(dequeued) -> p'.(executed) = p.(executed) -> 0 <= p'.(work_sem) -> p'.(q_shutdown) = p.(q_shutdown) -> p'.(posting) = p.(posting) ->
  (p.(q_shutdown) = false -> p'.(work_sem) + (if claimed w' then 1 else 0) = p.(work_sem) + (if claimed w then 1 else 0)) -> wq_inv p' ps.
Proof.
  intros [H1 H2 H3 H4 H5 H6 H7 H8 H9] Ew Ew' Rw Rw' Em Eh Et Ec Ee Ed Ex Hs Esh Ep Ha.
  assert (Eheld : held p'.(workers) = held p.(workers)).
  { rewrite Ew, Ew', !held_app. f_equal. unfold held. cbn [omap list_omap]. by rewrite Rw, Rw'. }
  split; rewrite ?Eheld, ?Em, ?Eh, ?Et, ?Ec, ?Ee, ?Ed, ?Ex, ?Ep, ?(payload_eq p p' Em); try done.
  intros Sh. rewrite Esh in Sh. specialize (H9 Sh). specialize (Ha Sh). rewrite Ew' , Ew in *. rewrite !claims_app, !claims_cons in *. lia.
Qed.
Lemma claims_nonneg l : 0 <= claims l.
Proof. apply zlen_nonneg. Qed.
Lemma u32_succ x : u32 (u32 x + 1) = u32 (x + 1).
Proof. unfold u32. by rewrite Zplus_mod_idemp_l. Qed.
Lemma u32_pred x : u32 (u32 x - 1) = u32 (x - 1).
Proof. unfold u32. by rewrite Zminus_mod_idemp_l. Qed.
(** What an insertion does to the items and to the queue. *)
Lemma enqueue_effect p ps a f x : linked p.(heap_items) p.(q_head) ps -> p.(q_tail) = list.last ps -> NoDup ps ->
  (forall b, b ∈ ps -> is_Some (p.(heap_items) !! b)) -> a ∉ ps ->
  let p' := enqueue a f x p in
  linked p'.(heap_items) p'.(q_head) (ps ++ [a]) /\ p'.(q_tail) = Some a /\ p'.(q_count) = u32 (p.(q_count) + 1) /\
  (forall b, b <> a -> payload p' b = payload p b /\ (is_Some (p.(heap_items) !! b) -> is_Some (p'.(heap_items) !! b))) /\
  payload p' a = (f, x) /\ is_Some (p'.(heap_items) !! a) /\ p' = with_queue p p'.(heap_items) p'.(q_head) p'.(q_tail) p'.(q_count).
Proof.
  intros L Ht Nd Al Na. cbv zeta. unfold enqueue. destruct (q_tail p) as [t|].
  - symmetry in Ht. assert (Tin : t ∈ ps) by by apply list.last_Some_elem_of. assert (Nt : a <> t) by (intros ->; done).
    destruct (Al t Tin) as [it Hit]. assert (Ei : item_at p t = it) by (unfold item_at; by rewrite Hit). rewrite Ei.
    unfold payload, item_at. cbn [with_queue heap_items q_head q_tail q_count]. split_and!; try done.
    + by apply (linked_snoc p.(heap_items) p.(q_head) ps t a it (f, x)).
    + intros b Nb. destruct (decide (b = t)) as [->|Ntb].
      * rewrite lookup_insert_eq, Hit. by split; [|eexists].
      * rewrite !lookup_insert_ne by congruence. by split.
    + by rewrite lookup_insert_ne, lookup_insert_eq by congruence.
    + rewrite lookup_insert_ne, lookup_insert_eq by congruence. by eexists.
  - symmetry in Ht. apply list.last_None in Ht. subst ps. unfold payload, item_at. cbn [with_queue heap_items q_head q_tail q_count app]. split_and!; try done.
    + split; [done|]. eexists. by rewrite lookup_insert_eq.
    + intros b Nb. rewrite lookup_insert_ne by congruence. by split.
    + by rewrite lookup_insert_eq.
    + rewrite lookup_insert_eq. by eexists.
Qed.
Lemma enqueue_inv p p' ps a l1 l2 : wq_inv p ps -> p.(heap_items) !! a = None -> submit_enqueue a l1 l2 p = Some p' -> wq_inv p' (ps ++ [a]).
Proof.
  intros [H1 H2 H3 H4 H5 H6 H7 H8 H9] Ha. unfold submit_enqueue. destruct l2 as [|[f x] l2]; [done|].
  assert (Fresh : a ∉ ps ++ held p.(workers)) by (intros Hin; destruct (H5 a Hin) as [it Hit]; congruence).
  assert (Fps : a ∉ ps) by (intros Hin; apply Fresh, elem_of_app; by left). pose proof (proj1 (list.NoDup_app _ _) H4) as (N1 & N2 & N3).
  destruct (enqueue_effect (with_submitting p (l1 ++ l2)) ps a f x H1 H2 N1) as (G1 & G2 & G3 & G4 & G5 & G6 & G7); [|done|].
  { intros b Hb. apply H5, elem_of_app. by left. }
  cbv zeta. revert G1 G2 G3 G4 G5 G6 G7. generalize (enqueue a f x (with_submitting p (l1 ++ l2))). intros q G1 G2 G3 G4 G5 G6 G7 [= <-].
  assert (Em : forall l, (forall b, b ∈ l -> b ∈ ps ++ held p.(workers)) -> map (payload q) l = map (payload p) l).
  { intros l Hl. apply payload_ext. intros b Hb. apply G4. intros ->. by apply Fresh, Hl. }
  assert (Ew : workers q = workers p) by (by rewrite G7). assert (Es : work_sem q = work_sem p /\ q_shutdown q = q_shutdown p /\ posting q = posting p) by (by rewrite G7).
  destruct Es as (Es1 & Es2 & Es3).
  split; cbn [with_logs with_sem heap_items q_head q_tail q_count workers enqueued dequeued executed work_sem q_shutdown posting]; rewrite ?Ew, ?Es1, ?Es2, ?Es3; try done.
  - by rewrite G2, list.last_snoc.
  - rewrite G3. cbn. rewrite H3, u32_succ, zlen_app. done.
  - rewrite <- app_assoc. apply list.NoDup_app. split; [done|]. split.
    + intros b Hb Hb'. apply list.elem_of_cons in Hb' as [->|Hb']; [done|]. by eapply N2.
    + cbn [app]. apply list.NoDup_cons. split; [|done]. intros Hin. apply Fresh, elem_of_app. by right.
  - intros b Hb. destruct (decide (b = a)) as [->|Nb]; [done|]. apply G4; [done|]. apply H5. rewrite !elem_of_app in *. destruct Hb as [[Hb|Hb]|Hb]; [by left| |by right].
    apply list_elem_of_singleton in Hb. done.
  - rewrite H6, map_app, app_assoc. cbn [map]. change (payload (with_logs _ _ _ _) a) with (payload q a). rewrite G5. f_equal. f_equal. symmetry. apply Em. intros b Hb. apply elem_of_app. by left.
  - change (map (payload (with_logs _ _ _ _)) ?l) with (map (payload q) l). rewrite Em; [done|]. intros b Hb. apply elem_of_app. by right.
  - intros Sh. rewrite zlen_app. change (zlen [a]) with 1. specialize (H9 Sh). lia.
Qed.
(** The worker takes the first item. *)
Lemma dequeue_inv p ps i : wq_inv p ps -> rd p.(workers) i = Some W_DEQUEUE -> exists p' ps', worker_step i p = Some p' /\ wq_inv p' ps'.
Proof.
  intros W Hw. destruct (worker_split _ _ _ Hw) as (l1 & l2 & Ew & Ewr). unfold worker_step. rewrite Hw. unfold dequeue. pose proof W as [H1 H2 H3 H4 H5 H6 H7 H8 H9].
  destruct ps as [|a ps].
  - cbn in H1. rewrite H1. eexists _, []. split; [done|]. eapply (move_inv p _ _ l1 l2 W_DEQUEUE W_TEST); try done; [apply Ewr|].
    intros Sh. specialize (H9 Sh). rewrite Ew, claims_app, claims_cons in H9. pose proof (claims_nonneg l1). pose proof (claims_nonneg l2).
    change (zlen (@nil Z)) with 0 in H9. cbn [claimed] in H9. lia.
  - destruct H1 as (Eh & it & Hit & L). rewrite Eh. assert (Ei : item_at p a = it) by (unfold item_at; by rewrite Hit). rewrite Ei. eexists _, ps. split; [done|].
    pose proof (held_app l1 (W_DEQUEUE :: l2)) as Hh. rewrite <- Ew in Hh. change (held (W_DEQUEUE :: l2)) with (held l2) in Hh.
    assert (Pm : ps ++ held l1 ++ a :: held l2 ≡ₚ (a :: ps) ++ held l1 ++ held l2).
    { rewrite (app_assoc ps), <- Permutation_middle. cbn [app]. by rewrite <- app_assoc. }
    split; cbn [with_logs with_worker with_queue heap_items q_head q_tail q_count workers enqueued dequeued executed work_sem q_shutdown posting]; rewrite ?Ewr, ?held_app; try done.
    + rewrite H2. destruct ps as [|b ps]; cbn in L; [by rewrite L|]. destruct L as (-> & _). by rewrite list.last_cons_cons.
    + rewrite H3, u32_pred, zlen_cons. f_equal. lia.
    + change (held (W_RUN a :: l2)) with (a :: held l2). by rewrite Pm, <- Hh.
    + change (held (W_RUN a :: l2)) with (a :: held l2). intros b Hb. apply H5. rewrite Hh, <- Pm. exact Hb.
    + rewrite H6, <- app_assoc. done.
    + change (held (W_RUN a :: l2)) with (a :: held l2). change (payload (with_logs _ _ _ _)) with (payload p). rewrite H7, Hh, !map_app. cbn [map].
      rewrite <- !app_assoc. apply Permutation_app_head. apply Permutation_app_head. symmetry. apply Permutation_cons_append.
    + intros Sh. specialize (H9 Sh). rewrite Ew, claims_app, claims_cons in H9. rewrite claims_app, claims_cons. rewrite zlen_cons in H9. cbn [claimed] in *. lia.
Qed.
(** The worker runs its item and frees it. *)
Lemma run_inv p ps i a : wq_inv p ps -> rd p.(workers) i = Some (W_RUN a) -> exists p', worker_step i p = Some p' /\ wq_inv p' ps.
Proof.
  intros W Hw. destruct (worker_split _ _ _ Hw) as (l1 & l2 & Ew & Ewr). unfold worker_step. rewrite Hw. pose proof W as [H1 H2 H3 H4 H5 H6 H7 H8 H9].
  eexists. split; [done|]. pose proof (held_app l1 (W_RUN a :: l2)) as Hh. rewrite <- Ew in Hh. change (held (W_RUN a :: l2)) with (a :: held l2) in Hh.
  assert (Pm : ps ++ held (workers p) ≡ₚ a :: ps ++ held l1 ++ held l2).
  { rewrite Hh. rewrite (app_assoc ps), <- Permutation_middle. by rewrite <- app_assoc. }
  rewrite Pm in H4. apply list.NoDup_cons in H4 as [Na H4]. set (p' := with_worker _ _ _).
  assert (Ep : forall l, (forall b, b ∈ l -> b <> a) -> map (payload p') l = map (payload p) l).
  { intros l Hl. apply payload_ext. intros b Hb. apply payload_lookup. cbn. apply lookup_delete_ne. specialize (Hl b Hb). congruence. }
  assert (Hps : forall b, b ∈ ps -> b <> a) by (intros b Hb ->; apply Na, elem_of_app; by left).
  assert (Hhl : forall b, b ∈ held l1 ++ held l2 -> b <> a) by (intros b Hb ->; apply Na, elem_of_app; by right).
  assert (Eh : held (workers p') = held l1 ++ held l2) by (subst p'; cbn [with_worker with_queue with_logs workers]; by rewrite Ewr, held_app).
  split; rewrite ?Eh; subst p'; cbn [with_logs with_worker with_queue heap_items q_head q_tail q_count workers enqueued dequeued executed work_sem q_shutdown posting]; try done.
  - eapply linked_ext; [|exact H1]. intros b Hb. apply lookup_delete_ne. specialize (Hps b Hb). congruence.
  - intros b Hb. rewrite lookup_delete_ne by (apply elem_of_app in Hb as [Hb|Hb]; [specialize (Hps b Hb)|specialize (Hhl b Hb)]; congruence).
    apply H5. rewrite Pm. by right.
  - rewrite H6. f_equal. symmetry. by apply Ep.
  - rewrite Ep by done. rewrite H7, Hh. rewrite !map_app. cbn [map]. rewrite <- Permutation_middle, <- app_assoc. cbn [app]. by rewrite Permutation_middle.
  - intros Sh. specialize (H9 Sh). rewrite Ew, claims_app, claims_cons in H9. rewrite Ewr, claims_app, claims_cons. cbn [claimed] in *. lia.
Qed.
Lemma worker_inv p p' ps i : wq_inv p ps -> worker_step i p = Some p' -> exists ps', wq_inv p' ps'.
Proof.
  intros W. destruct (rd p.(workers) i) as [w|] eqn:Hw; [|unfold worker_step; by rewrite Hw]. destruct (worker_split _ _ _ Hw) as (l1 & l2 & Ew & Ewr).
  destruct w as [| | | |a|].
  - unfold worker_step. rewrite Hw. intros [= <-]. exists ps. eapply (move_inv p _ _ l1 l2 W_TEST (if p.(q_shutdown) then W_EXIT else W_WAIT)); try done; [apply Ewr|by destruct (q_shutdown p)|apply W|]. intros ->. done.
  - unfold worker_step. rewrite Hw. case_if; [|done]. bool_hyps. intros [= <-]. exists ps. eapply (move_inv p _ _ l1 l2 W_WAIT W_CHECK); try done; [apply Ewr|cbn; lia|]. intros _. cbn. lia.
  - unfold worker_step. rewrite Hw. intros [= <-]. exists ps. eapply (move_inv p _ _ l1 l2 W_CHECK (if p.(q_shutdown) then W_EXIT else W_DEQUEUE)); try done; [apply Ewr|by destruct (q_shutdown p)|apply W|]. intros ->. done.
  - destruct (dequeue_inv p ps i W Hw) as (q & ps' & E & W'). rewrite E. intros [= <-]. by exists ps'.
  - destruct (run_inv p ps i a W Hw) as (q & E & W'). rewrite E. intros [= <-]. by exists ps.
  - unfold worker_step. by rewrite Hw.
Qed.
Lemma wq_step_inv p p' ps : wq_inv p ps -> wq_step p p' -> exists ps', wq_inv p' ps'.
Proof.
  intros W St. destruct St as [func arg p' E|a l1 l2 p' Es Ha E|l1 x l2 Es|p' E|i p' E|].
  - unfold submit_accept in E. repeat case_if_in E; try done. injection E as <-. exists ps. by destruct W.
  - exists (ps ++ [a]). by eapply enqueue_inv.
  - exists ps. by destruct W.
  - unfold submit_post in E. destruct (posting p) as [|n] eqn:Ep; [done|]. injection E as <-. exists ps. destruct W as [H1 H2 H3 H4 H5 H6 H7 H8 H9].
    split; try done; cbn; [lia|]. intros Sh. rewrite (H9 Sh), Ep. lia.
  - by eapply worker_inv.
  - exists ps. destruct W as [H1 H2 H3 H4 H5 H6 H7 H8 H9]. by split.
Qed.
Lemma new_pool_inv n : wq_inv (new_pool n) [].
Proof.
  assert (Hh : held (replicate (Z.to_nat n) W_TEST) = []) by (induction (Z.to_nat n) as [|k IH]; [done|]; exact IH).
  assert (Hc : claims (replicate (Z.to_nat n) W_TEST) = 0) by (induction (Z.to_nat n) as [|k IH]; [done|]; cbn [replicate]; by rewrite claims_cons, IH).
  split; try done; cbn [new_pool workers enqueued dequeued executed app map heap_items posting work_sem]; rewrite ?Hh; try done.
  - constructor.
  - intros a Ha. by apply elem_of_nil in Ha.
Qed.
Lemma wq_reachable_inv n p : wq_reachable n p -> exists ps, wq_inv p ps.
Proof. induction 1 as [|p p' _ [ps W] St]; [by exists []; apply new_pool_inv|by eapply wq_step_inv]. Qed.

(** A pool of one worker with one item submitted. *)
Definition demo_pool : pool := (worker_pool_submit (Some 100) 7 5 (new_pool 1)).2.
Lemma demo_pool_reachable : wq_reachable 1 demo_pool.
Proof.
  eapply wq_next; [eapply wq_next; [eapply wq_next; [apply wq_start|]|]|].
  - by eapply (step_accept _ 7 5).
  - by eapply (step_enqueue _ 100 [] [(7, 5)]).
  - by eapply step_post.
Qed.
(** What is in the queue when the pool is shut down is not executed: a worker
    that is woken after that exits without looking at the queue, and the items
    are freed. *)
Theorem shutdown_drops_items :
  let p := shutdown_flags demo_pool in
  worker_pool_pending p = 1 /\ exists p1, worker_step 0 p = Some p1 /\ p1.(workers) = [W_EXIT] /\
    worker_pool_pending (worker_pool_destroy p1) = 0 /\ (worker_pool_destroy p1).(heap_items) = ∅ /\ (worker_pool_destroy p1).(executed) = [].
Proof. cbv zeta. split; [by vm_compute|]. eexists. split; [vm_compute; reflexivity|]. by vm_compute. Qed.
(** Destroying a pool frees every item of the queue. *)
Lemma free_linked m : forall ps h fuel, linked m h ps -> NoDup ps -> (length ps <= fuel)%nat ->
  forall a, free_items fuel h m !! a = if bool_decide (a ∈ ps) then None else m !! a.
Proof.
  intros ps. revert m. induction ps as [|b ps IH]; intros m h fuel L Nd Hf a; cbn [length] in Hf.
  - cbn in L. subst h. rewrite bool_decide_eq_false_2 by (by intros ?%elem_of_nil). by destruct fuel.
  - destruct L as (-> & it & Hb & L). destruct fuel as [|fuel]; [lia|]. cbn [free_items]. rewrite Hb. cbn [default]. apply list.NoDup_cons in Nd as [Nb Nd].
    unfold default. cbn. rewrite (IH (delete b m)); [| |done|lia].
    + destruct (decide (a = b)) as [->|Na].
      * rewrite (bool_decide_eq_false_2 (b ∈ ps)) by done. rewrite lookup_delete_eq. rewrite bool_decide_eq_true_2 by (by left). done.
      * rewrite lookup_delete_ne by congruence. assert (Eb : bool_decide (a ∈ b :: ps) = bool_decide (a ∈ ps)); [|by rewrite Eb].
        apply bool_decide_ext. rewrite list.elem_of_cons. naive_solver.
    + eapply linked_ext; [|exact L]. intros c Hc. apply lookup_delete_ne. intros ->. done.
Qed.
Lemma destroy_frees p ps : wq_inv p ps -> forall a, a ∈ ps -> (worker_pool_destroy p).(heap_items) !! a = None.
Proof.
  intros [H1 _ _ H4 _ _ _ _ _] a Ha. apply list.NoDup_app in H4 as [Nd _]. cbn [worker_pool_destroy with_queue heap_items].
  rewrite (free_linked _ ps); [by rewrite bool_decide_eq_true_2|done|done|]. rewrite <- (size_dom (D := gset Z)), <- (size_list_to_set (C := gset Z) ps) by done.
  apply subseteq_size. intros b Hb. apply elem_of_list_to_set in Hb. apply elem_of_dom. by eapply linked_alloc.
Qed.
