(* ===== verification/Elf.v ===== *)
(** The ELF loader (src/kernel/elf.c, src/include/elf.h) over the virtual file
    system and the virtual memory manager.

    [kmalloc_ok] is the answer of the heap for a size, and [beyond] the bytes
    that follow the buffer of the program headers in the heap: the headers are
    read as an array of 56-byte records whatever size the file gives them.  The
    log and [elf_info], which prints a header, are left out. *)
From S2P Require Import Prelude Pmm Vmm Vfs.

Definition ELF_OK : Z := 0.
Definition ELF_ERR_FILE : Z := -1.
Definition ELF_ERR_MAGIC : Z := -2.
Definition ELF_ERR_CLASS : Z := -3.
Definition ELF_ERR_MACHINE : Z := -4.
Definition ELF_ERR_TYPE : Z := -5.
Definition ELF_ERR_MEMORY : Z := -6.
Definition ELFCLASS64 : Z := 2.
Definition ELFDATA2LSB : Z := 1.
Definition ET_EXEC : Z := 2.
Definition EM_X86_64 : Z := 62.
Definition PT_LOAD : Z := 1.
Definition PF_W : Z := 2.
Definition EHDR_SIZE : Z := 64.
Definition PHDR_SIZE : Z := 56.
(** A little-endian word of 64 bits. *)
Definition rd64 (b : list Z) (i : Z) : Z := rd32 b i + 2 ^ 32 * rd32 b (i + 4).
Record Elf64_Ehdr := mk_ehdr {
  e_ident : list Z; e_type : Z; e_machine : Z; e_version : Z; e_entry : Z; e_phoff : Z; e_shoff : Z; e_flags : Z;
  e_ehsize : Z; e_phentsize : Z; e_phnum : Z; e_shentsize : Z; e_shnum : Z; e_shstrndx : Z
}.
Definition ehdr_cast (b : list Z) : Elf64_Ehdr :=
  mk_ehdr (bytes_at b 0 16) (rd16 b 16) (rd16 b 18) (rd32 b 20) (rd64 b 24) (rd64 b 32) (rd64 b 40) (rd32 b 48)
    (rd16 b 52) (rd16 b 54) (rd16 b 56) (rd16 b 58) (rd16 b 60) (rd16 b 62).
Record Elf64_Phdr := mk_phdr {
  p_type : Z; p_flags : Z; p_offset : Z; p_vaddr : Z; p_paddr : Z; p_filesz : Z; p_memsz : Z; p_align : Z
}.
Definition phdr_cast (b : list Z) (i : Z) : Elf64_Phdr :=
  mk_phdr (rd32 b i) (rd32 b (i + 4)) (rd64 b (i + 8)) (rd64 b (i + 16)) (rd64 b (i + 24)) (rd64 b (i + 32)) (rd64 b (i + 40)) (rd64 b (i + 48)).
(** The fields of the result have 32 bits. *)
Record elf_load_result_t := mk_result { entry_point : Z; base_addr : Z; top_addr : Z; num_segments : Z }.

Definition elf_check_magic (ident : list Z) : bool :=
  (rd0 ident 0 =? 0x7F) && (rd0 ident 1 =? 69) && (rd0 ident 2 =? 76) && (rd0 ident 3 =? 70).
Definition elf_validate_header64 (h : Elf64_Ehdr) : Z :=
  if negb (elf_check_magic h.(e_ident)) then ELF_ERR_MAGIC
  else if negb (rd0 h.(e_ident) 4 =? ELFCLASS64) then ELF_ERR_CLASS
  else if negb (rd0 h.(e_ident) 5 =? ELFDATA2LSB) then ELF_ERR_CLASS
  else if negb (h.(e_type) =? ET_EXEC) then ELF_ERR_TYPE
  else if negb (h.(e_machine) =? EM_X86_64) then ELF_ERR_MACHINE
  else ELF_OK.

(** A fresh page of zeros at [virt_addr], unless one is mapped there. *)
Definition zero_page (a : Z) (s : vmm) : vmm := for_loop 512 0 (fun i s => store (a + 8 * i) 0 s) s.
Definition load_page (dir : Z) (flags virt_addr : Z) (s : vmm) : Z * vmm :=
  if vmm_is_mapped_in_dir s dir virt_addr then (ELF_OK, s)
  else
    let '(page_virt, p) := pmm_alloc_block s.(v_pmm) in
    let s := with_pmm s p in
    if page_virt =? NULL then (ELF_ERR_MEMORY, s)
    else
      let page_phys := pmm_virt_to_phys s.(v_pmm) page_virt in
      let page_flags := Z.lor PAGE_PRESENT PAGE_USER in
      let page_flags := if negb (Z.land flags PF_W =? 0) then Z.lor page_flags PAGE_RW else page_flags in
      let '(r, s) := vmm_map_page_in_dir dir page_phys virt_addr page_flags s in
      if negb (r =? 0) then (ELF_ERR_MEMORY, with_pmm s (pmm_free_block page_virt s.(v_pmm)))
      else (ELF_OK, zero_page page_virt s).
Fixpoint load_pages (n : nat) (dir flags vaddr_start page : Z) (s : vmm) : Z * vmm :=
  match n with
  | O => (ELF_OK, s)
  | S n' =>
      let '(r, s) := load_page dir flags (u64 (vaddr_start + page * PAGE_SIZE)) s in
      if negb (r =? ELF_OK) then (r, s) else load_pages n' dir flags vaddr_start (page + 1) s
  end.
Definition segment_pages (ph : Elf64_Phdr) : Z * Z :=
  let vaddr_start := PAGE_ALIGN_DOWN ph.(p_vaddr) in
  let vaddr_end := PAGE_ALIGN_UP (u64 (ph.(p_vaddr) + ph.(p_memsz))) in
  (vaddr_start, u64 (vaddr_end - vaddr_start) / PAGE_SIZE).
(** [if (bytes_read != (int)n)]: did the read return [n] bytes? *)
Definition read_exact (bytes : option (list Z)) (n : Z) : option (list Z) :=
  match bytes with
  | Some b => if zlen b =? s32 n then Some b else None
  | None => if -1 =? s32 n then Some [] else None
  end.

Section loader.
Context {F D C N E : Type} `{FileSystem F D C N E}.
Context (kmalloc_ok : Z -> bool) (beyond : list Z).
(** The pages of one segment, then its bytes. *)
Definition load_segment (v : vfs F D C N) (file : option Z) (dir : Z) (ph : Elf64_Phdr) (s : vmm) : Z * vmm :=
  let '(vaddr_start, num_pages) := segment_pages ph in
  let '(r, s) := load_pages (Z.to_nat num_pages) dir ph.(p_flags) vaddr_start 0 s in
  if negb (r =? ELF_OK) then (r, s)
  else if negb (0 <? ph.(p_filesz)) then (ELF_OK, s)
  else if negb (kmalloc_ok ph.(p_filesz)) then (ELF_ERR_MEMORY, s)
  else
    match read_exact (vfs_read file (u32 ph.(p_offset)) (u32 ph.(p_filesz)) v) ph.(p_filesz) with
    | None => (ELF_ERR_FILE, s)
    | Some seg_buffer =>
        let '(r, s) := vmm_copy_to_dir dir ph.(p_vaddr) (Some seg_buffer) ph.(p_filesz) s in
        (if negb (r =? 0) then ELF_ERR_MEMORY else ELF_OK, s)
    end.
Definition count_segment (ph : Elf64_Phdr) (r : elf_load_result_t) : elf_load_result_t :=
  mk_result r.(entry_point)
    (if ph.(p_vaddr) <? r.(base_addr) then u32 ph.(p_vaddr) else r.(base_addr))
    (if r.(top_addr) <? u64 (ph.(p_vaddr) + ph.(p_memsz)) then u32 (ph.(p_vaddr) + ph.(p_memsz)) else r.(top_addr))
    (u32 (r.(num_segments) + 1)).
Fixpoint load_segments (n : nat) (i : Z) (v : vfs F D C N) (file : option Z) (dir : Z) (phdrs : list Z) (res : elf_load_result_t) (s : vmm) :
    Z * elf_load_result_t * vmm :=
  match n with
  | O => (ELF_OK, res, s)
  | S n' =>
      let ph := phdr_cast phdrs (i * PHDR_SIZE) in
      if negb (ph.(p_type) =? PT_LOAD) then load_segments n' (i + 1) v file dir phdrs res s
      else
        let '(r, s) := load_segment v file dir ph s in
        if negb (r =? ELF_OK) then (r, res, s) else load_segments n' (i + 1) v file dir phdrs (count_segment ph res) s
  end.
(** The part between opening and closing the file. *)
Definition load_opened (file : option Z) (dir : Z) (res : elf_load_result_t) (v : vfs F D C N) (s : vmm) : Z * elf_load_result_t * vmm :=
  match read_exact (vfs_read file 0 EHDR_SIZE v) EHDR_SIZE with
  | None => (ELF_ERR_FILE, res, s)
  | Some b =>
      let ehdr := ehdr_cast b in
      let err := elf_validate_header64 ehdr in
      if negb (err =? ELF_OK) then (err, res, s)
      else
        let res := mk_result (u32 ehdr.(e_entry)) (u32 (2 ^ 64 - 1)) 0 0 in
        let phdr_size := u64 (s32 (ehdr.(e_phnum) * ehdr.(e_phentsize))) in
        if negb (kmalloc_ok phdr_size) then (ELF_ERR_MEMORY, res, s)
        else
          match read_exact (vfs_read file (u32 ehdr.(e_phoff)) (u32 phdr_size) v) phdr_size with
          | None => (ELF_ERR_FILE, res, s)
          | Some phdrs => load_segments (Z.to_nat ehdr.(e_phnum)) 0 v file dir (phdrs ++ beyond) res s
          end
  end.
(** [dir] is the directory of the process, or of the kernel when there is none;
    the result is left as it was before the header has been accepted. *)
Definition elf_load_file (filename : list Z) (proc_dir : option Z) (res : elf_load_result_t) (v : vfs F D C N) (s : vmm) :
    Z * elf_load_result_t * vfs F D C N * vmm :=
  let dir := match proc_dir with Some d => d | None => vmm_get_kernel_directory s end in
  let '(file, v) := vfs_open filename 0 v in
  match file with
  | None => (ELF_ERR_FILE, res, v, s)
  | Some _ =>
      let '(r, res, s) := load_opened file dir res v s in
      (r, res, (vfs_close file v).2, s)
  end.
Definition elf_is_valid (filename : list Z) (v : vfs F D C N) : bool * vfs F D C N :=
  let '(file, v) := vfs_open filename 0 v in
  match file with
  | None => (false, v)
  | Some _ =>
      let bytes := vfs_read file 0 EHDR_SIZE v in
      let v := (vfs_close file v).2 in
      (match read_exact bytes EHDR_SIZE with Some b => elf_validate_header64 (ehdr_cast b) =? ELF_OK | None => false end, v)
  end.
End loader.

(** ** Theorems *)
(** The headers of the segments that are loaded. *)
Definition loadable (phdrs : list Z) (n : nat) (i : Z) : list Elf64_Phdr :=
  List.filter (fun ph => ph.(p_type) =? PT_LOAD) (map (fun k => phdr_cast phdrs ((i + Z.of_nat k) * PHDR_SIZE)) (seq 0 n)).
Lemma loadable_S phdrs n i :
  loadable phdrs (S n) i = (if (phdr_cast phdrs (i * PHDR_SIZE)).(p_type) =? PT_LOAD then [phdr_cast phdrs (i * PHDR_SIZE)] else []) ++ loadable phdrs n (i + 1).
Proof.
  unfold loadable. cbn [seq map List.filter]. rewrite Z.add_0_r. rewrite <- seq_shift, map_map.
  assert (E : map (fun x => phdr_cast phdrs ((i + Z.of_nat (S x)) * PHDR_SIZE)) (seq 0 n) = map (fun k => phdr_cast phdrs ((i + 1 + Z.of_nat k) * PHDR_SIZE)) (seq 0 n)).
  { apply map_ext. intros k. do 2 f_equal. lia. }
  rewrite E. by destruct (_ =? PT_LOAD).
Qed.
Section outcome.
Context {F D C N E : Type} `{FileSystem F D C N E}.
Context (kmalloc_ok : Z -> bool) (beyond : list Z).
(** Loading the segments one after the other, in the order of their headers,
    until one fails. *)
Fixpoint load_all (v : vfs F D C N) (file : option Z) (dir : Z) (phs : list Elf64_Phdr) (res : elf_load_result_t) (s : vmm) : Z * elf_load_result_t * vmm :=
  match phs with
  | [] => (ELF_OK, res, s)
  | ph :: phs' =>
      let '(r, s) := load_segment kmalloc_ok v file dir ph s in
      if r =? ELF_OK then load_all v file dir phs' (count_segment ph res) s else (r, res, s)
  end.
Lemma load_segments_all n : forall i v file dir phdrs res s,
  load_segments kmalloc_ok n i v file dir phdrs res s = load_all v file dir (loadable phdrs n i) res s.
Proof.
  induction n as [|n IH]; intros i v file dir phdrs res s; [done|]. rewrite loadable_S. cbn [load_segments].
  destruct (_ =? PT_LOAD); cbn [negb app]; [|apply IH]. cbn [load_all]. destruct (load_segment _ _ _ _ _ _) as [r s']. destruct (r =? ELF_OK); [apply IH|done].
Qed.
Lemma load_page_code dir flags a s : let r := (load_page dir flags a s).1 in r = ELF_OK \/ r = ELF_ERR_MEMORY.
Proof.
  unfold load_page. case_if; [by left|]. destruct (pmm_alloc_block _) as [a' p]. cbv zeta. case_if; [by right|]. destruct (vmm_map_page_in_dir _ _ _ _ _) as [r s'].
  case_if; [by right|by left].
Qed.
Lemma load_pages_code n : forall dir flags a k s, let r := (load_pages n dir flags a k s).1 in r = ELF_OK \/ r = ELF_ERR_MEMORY.
Proof.
  induction n as [|n IH]; intros dir flags a k s; [by left|]. cbn [load_pages]. pose proof (load_page_code dir flags (u64 (a + k * PAGE_SIZE)) s) as Hc.
  destruct (load_page _ _ _ _) as [r s']. cbn [fst] in Hc. case_if; [done|apply IH].
Qed.
Lemma load_segment_code v file dir ph s : let r := (load_segment kmalloc_ok v file dir ph s).1 in r = ELF_OK \/ r = ELF_ERR_MEMORY \/ r = ELF_ERR_FILE.
Proof.
  unfold load_segment. destruct (segment_pages ph) as [a n]. pose proof (load_pages_code (Z.to_nat n) dir ph.(p_flags) a 0 s) as Hc.
  destruct (load_pages _ _ _ _ _ _) as [r s']. cbn [fst] in Hc. case_if; [cbn; tauto|]. case_if; [by left|]. case_if; [cbn; tauto|].
  destruct (read_exact _ _) as [b|]; [|cbn; tauto]. destruct (vmm_copy_to_dir _ _ _ _ _) as [r' s'']. case_if; [cbn; tauto|by left].
Qed.
Lemma load_all_code v file dir phs : forall res s, let r := (load_all v file dir phs res s).1.1 in r = ELF_OK \/ r = ELF_ERR_MEMORY \/ r = ELF_ERR_FILE.
Proof.
  induction phs as [|ph phs IH]; intros res s; [by left|]. cbn [load_all]. pose proof (load_segment_code v file dir ph s) as Hc.
  destruct (load_segment _ _ _ _ _ _) as [r s']. cbn [fst] in Hc. case_if; [apply IH|done].
Qed.
(** The header that is read from the file, when it is whole. *)
Definition header_of (v : vfs F D C N) (file : option Z) : option Elf64_Ehdr := ehdr_cast <$> read_exact (vfs_read file 0 EHDR_SIZE v) EHDR_SIZE.
(** A segment over pages that are mapped already, such as those of the kernel,
    is copied over them: the loader does not look at the addresses. *)
Lemma mapped_pages_kept n : forall dir flags a k s, (forall i, k <= i < k + Z.of_nat n -> vmm_is_mapped_in_dir s dir (u64 (a + i * PAGE_SIZE)) = true) ->
  load_pages n dir flags a k s = (ELF_OK, s).
Proof.
  induction n as [|n IH]; intros dir flags a k s Hm; [done|]. cbn [load_pages]. unfold load_page. rewrite Hm by lia. cbn [negb Z.eqb]. change (ELF_OK =? ELF_OK) with true. cbn [negb].
  apply IH. intros i Hi. apply Hm. lia.
Qed.
Theorem elf_overwrites_mapped v file dir ph seg s :
  (forall i, 0 <= i < (segment_pages ph).2 -> vmm_is_mapped_in_dir s dir (u64 ((segment_pages ph).1 + i * PAGE_SIZE)) = true) ->
  0 < ph.(p_filesz) -> kmalloc_ok ph.(p_filesz) = true -> read_exact (vfs_read file (u32 ph.(p_offset)) (u32 ph.(p_filesz)) v) ph.(p_filesz) = Some seg ->
  load_segment kmalloc_ok v file dir ph s =
    let '(r, s') := vmm_copy_to_dir dir ph.(p_vaddr) (Some seg) ph.(p_filesz) s in (if negb (r =? 0) then ELF_ERR_MEMORY else ELF_OK, s').
Proof.
  intros Hm Hf Hk Hr. unfold load_segment. destruct (segment_pages ph) as [a n]. cbn [fst snd] in Hm. rewrite mapped_pages_kept by (intros i Hi; apply Hm; lia).
  change (ELF_OK =? ELF_OK) with true. cbn [negb]. rewrite (proj2 (Z.ltb_lt _ _)) by done. cbn [negb]. rewrite Hk. cbn [negb]. by rewrite Hr.
Qed.
End outcome.
(** Program headers that the file declares to have one byte: the record of 56
    bytes is read from what follows the buffer. *)
Example phdr_beyond_buffer beyond : (phdr_cast ([1] ++ (0 :: 0 :: 0 :: beyond)) 0).(p_flags) = rd32 beyond 0.
Proof. done. Qed.
