(* ===== verification/Process.v ===== *)
(** Processes (src/kernel/process.c, src/kernel/process.h): the circular list of
    processes, its scheduler, and starting a program from an ELF file.

    A process is a record at an address; [procs] is the memory that holds the
    records.  The threads of a process, its kernel stack and the switch of
    registers are not part of this state (see Thread and Sched for the threads):
    what the creation of a thread answers is an argument. *)
From S2P Require Import Prelude Pmm Vmm Vfs Elf.

Definition KERNEL_STACK_SIZE : Z := 32768.
Definition PROCESS_NAME_MAX : Z := 32.
Inductive process_state_t := PROCESS_STATE_READY | PROCESS_STATE_RUNNING | PROCESS_STATE_BLOCKED | PROCESS_STATE_ZOMBIE | PROCESS_STATE_TERMINATED.
#[export] Instance process_state_eq : EqDecision process_state_t.
Proof. solve_decision. Defined.
Record process_t := mk_process {
  pid : Z;
  pname : list Z;
  pstate : process_state_t;
  should_terminate : bool;
  exit_status : Z;
  pml4 : Z;
  pcr3 : Z;
  parent : option Z;
  first_child : option Z;
  sibling_next : option Z;
  sibling_prev : option Z;
  pnext : Z;
  pprev : Z
}.
Record ptable := mk_ptable {
  procs : gmap Z process_t;
  current_process : option Z;
  process_list : option Z;
  idle_process : option Z;
  next_pid : Z;
  multitasking_enabled : bool
}.
Definition no_process : process_t := mk_process 0 [] PROCESS_STATE_READY false 0 0 0 None None None None 0 0.
Definition proc_at (t : ptable) (a : Z) : process_t := default no_process (t.(procs) !! a).
Definition with_procs (t : ptable) (m : gmap Z process_t) : ptable :=
  mk_ptable m t.(current_process) t.(process_list) t.(idle_process) t.(next_pid) t.(multitasking_enabled).
Definition with_current (t : ptable) (c : option Z) : ptable :=
  mk_ptable t.(procs) c t.(process_list) t.(idle_process) t.(next_pid) t.(multitasking_enabled).
Definition with_next_pid (t : ptable) (n : Z) : ptable :=
  mk_ptable t.(procs) t.(current_process) t.(process_list) t.(idle_process) n t.(multitasking_enabled).
Definition upd_proc (a : Z) (f : process_t -> process_t) (t : ptable) : ptable := with_procs t (<[a := f (proc_at t a)]> t.(procs)).
Definition set_pnext (x : Z) (p : process_t) : process_t :=
  mk_process p.(pid) p.(pname) p.(pstate) p.(should_terminate) p.(exit_status) p.(pml4) p.(pcr3) p.(parent) p.(first_child) p.(sibling_next) p.(sibling_prev) x p.(pprev).
Definition set_pprev (x : Z) (p : process_t) : process_t :=
  mk_process p.(pid) p.(pname) p.(pstate) p.(should_terminate) p.(exit_status) p.(pml4) p.(pcr3) p.(parent) p.(first_child) p.(sibling_next) p.(sibling_prev) p.(pnext) x.
Definition set_pstate (x : process_state_t) (p : process_t) : process_t :=
  mk_process p.(pid) p.(pname) x p.(should_terminate) p.(exit_status) p.(pml4) p.(pcr3) p.(parent) p.(first_child) p.(sibling_next) p.(sibling_prev) p.(pnext) p.(pprev).
Definition set_terminate (p : process_t) : process_t :=
  mk_process p.(pid) p.(pname) p.(pstate) true p.(exit_status) p.(pml4) p.(pcr3) p.(parent) p.(first_child) p.(sibling_next) p.(sibling_prev) p.(pnext) p.(pprev).
Definition set_family (par child sn sp : option Z) (p : process_t) : process_t :=
  mk_process p.(pid) p.(pname) p.(pstate) p.(should_terminate) p.(exit_status) p.(pml4) p.(pcr3) par child sn sp p.(pnext) p.(pprev).
Definition safe_strcpy (src : list Z) (max_len : Z) : list Z := take (Z.to_nat (max_len - 1)) src.

(** ** The list of processes *)
(** [a]: where the structure of the idle process is, if there is memory. *)
Definition init_multitasking (a : option Z) (kernel_dir : Z) (name : list Z) (t : ptable) : ptable :=
  match a with
  | None => t
  | Some a =>
      let p := mk_process t.(next_pid) (safe_strcpy name PROCESS_NAME_MAX) PROCESS_STATE_RUNNING false 0 kernel_dir kernel_dir None None None None a a in
      mk_ptable (<[a := p]> t.(procs)) (Some a) (Some a) (Some a) (u32 (t.(next_pid) + 1)) true
  end.
(** [proc->next = current->next; ...]: behind the current process. *)
Definition insert_after (cur a : Z) (t : ptable) : ptable :=
  let nx := (proc_at t cur).(pnext) in
  let t := upd_proc a (set_pnext nx) t in
  let t := upd_proc a (set_pprev cur) t in
  let t := upd_proc nx (set_pprev a) t in
  upd_proc cur (set_pnext a) t.
(** [a] is where [kmalloc] puts the structure, [None] when it or the stack
    cannot be had.  The fields that the code does not set keep what was there. *)
Definition create_kernel_thread (a : option Z) (kernel_dir : Z) (name : list Z) (t : ptable) : option Z * ptable :=
  if negb t.(multitasking_enabled) then (None, t)
  else
    match a, t.(current_process) with
    | Some a, Some cur =>
        let old := proc_at t a in
        let p := mk_process t.(next_pid) (safe_strcpy name PROCESS_NAME_MAX) PROCESS_STATE_READY false old.(exit_status) kernel_dir kernel_dir
                   old.(parent) old.(first_child) old.(sibling_next) old.(sibling_prev) old.(pnext) old.(pprev) in
        let t := with_next_pid (with_procs t (<[a := p]> t.(procs))) (u32 (t.(next_pid) + 1)) in
        (Some a, insert_after cur a t)
    | _, _ => (None, t)
    end.
(** [thread_ok]: was the main thread created?  The process becomes the first
    child of the current one. *)
Definition process_create_kernel (a : option Z) (thread_ok : bool) (kernel_dir : Z) (name : list Z) (t : ptable) : option Z * ptable :=
  if negb t.(multitasking_enabled) then (None, t)
  else
    match a, t.(current_process) with
    | Some a, Some cur =>
        let p := mk_process t.(next_pid) (safe_strcpy name PROCESS_NAME_MAX) PROCESS_STATE_READY false 0 kernel_dir kernel_dir
                   (Some cur) None None None 0 0 in
        let t := with_next_pid t (u32 (t.(next_pid) + 1)) in
        if negb thread_ok then (None, t)
        else
          let t := insert_after cur a (with_procs t (<[a := p]> t.(procs))) in
          let fc := (proc_at t cur).(first_child) in
          let t := upd_proc a (fun p => set_family p.(parent) p.(first_child) fc p.(sibling_prev) p) t in
          let t := match fc with
                   | Some c => upd_proc c (fun p => set_family p.(parent) p.(first_child) p.(sibling_next) (Some a) p) t
                   | None => t
                   end in
          (Some a, upd_proc cur (fun p => set_family p.(parent) (Some a) p.(sibling_next) p.(sibling_prev) p) t)
    | _, _ => (None, t)
    end.

(** ** Scheduling *)
Definition is_runnable (p : process_t) : bool := bool_decide (p.(pstate) = PROCESS_STATE_READY) || bool_decide (p.(pstate) = PROCESS_STATE_RUNNING).
(** The [do ... while (next != start)] loop; the length of the list is enough
    fuel. *)
Fixpoint find_next (fuel : nat) (t : ptable) (start next : Z) : Z :=
  match fuel with
  | O => next
  | S fuel' =>
      if is_runnable (proc_at t next) then next
      else let next := (proc_at t next).(pnext) in if next =? start then next else find_next fuel' t start next
  end.
Definition switch_to (next : option Z) (t : ptable) : ptable :=
  match next, t.(current_process) with
  | Some n, Some prev =>
      if n =? prev then t
      else
        let t := if bool_decide ((proc_at t prev).(pstate) = PROCESS_STATE_RUNNING) then upd_proc prev (set_pstate PROCESS_STATE_READY) t else t in
        let t := upd_proc n (set_pstate PROCESS_STATE_RUNNING) t in
        with_current t (Some n)
  | _, _ => t
  end.
Definition schedule (fuel : nat) (t : ptable) : ptable :=
  match t.(current_process) with
  | None => t
  | Some cur =>
      if negb t.(multitasking_enabled) then t
      else if (proc_at t cur).(pnext) =? cur then t
      else
        let start := (proc_at t cur).(pnext) in
        let next := find_next fuel t start start in
        if next =? cur then t else switch_to (Some next) t
  end.
(** [None]: the processor halts, the idle process cannot exit. *)
Definition process_exit (t : ptable) : option ptable :=
  match t.(current_process) with
  | None => None
  | Some cur =>
      if bool_decide (t.(idle_process) = Some cur) then None
      else
        let t := upd_proc cur (set_pstate PROCESS_STATE_TERMINATED) t in
        let t := upd_proc (proc_at t cur).(pprev) (set_pnext (proc_at t cur).(pnext)) t in
        let t := upd_proc (proc_at t cur).(pnext) (set_pprev (proc_at t cur).(pprev)) t in
        let next := (proc_at t cur).(pnext) in
        Some (upd_proc next (set_pstate PROCESS_STATE_RUNNING) (with_current t (Some next)))
  end.
Definition getpid (t : ptable) : Z := match t.(current_process) with Some c => (proc_at t c).(pid) | None => 0 end.
Definition should_exit (t : ptable) : bool := match t.(current_process) with Some c => (proc_at t c).(should_terminate) | None => false end.

(** ** Killing *)
Fixpoint kill_loop (fuel : nat) (idle proc : Z) (t : ptable) (killed : Z) : ptable * Z :=
  match fuel with
  | O => (t, killed)
  | S fuel' =>
      if proc =? idle then (t, killed)
      else
        let next := (proc_at t proc).(pnext) in
        kill_loop fuel' idle next (upd_proc proc (fun p => set_pstate PROCESS_STATE_TERMINATED (set_terminate p)) t) (killed + 1)
  end.
Definition kill_all_user_tasks (fuel : nat) (t : ptable) : Z * ptable :=
  match t.(process_list), t.(idle_process) with
  | Some _, Some idle =>
      let '(t, killed) := kill_loop fuel idle (proc_at t idle).(pnext) t 0 in
      let t := upd_proc idle (fun p => set_pprev idle (set_pnext idle p)) t in
      (killed, upd_proc idle (set_pstate PROCESS_STATE_RUNNING) (with_current t (Some idle)))
  | _, _ => (0, t)
  end.
(** The threads of the process are killed too; they are not part of this
    state. *)
Definition process_kill (proc : option Z) (t : ptable) : ptable :=
  match proc with
  | None => t
  | Some a => if bool_decide (t.(idle_process) = Some a) then t else upd_proc a (fun p => set_pstate PROCESS_STATE_TERMINATED (set_terminate p)) t
  end.
Fixpoint process_kill_tree (fuel : nat) (proc : option Z) (t : ptable) : ptable :=
  match fuel, proc with
  | S fuel', Some a => process_kill (Some a) (kill_children fuel' (proc_at t a).(first_child) t)
  | _, _ => t
  end
with kill_children (fuel : nat) (child : option Z) (t : ptable) : ptable :=
  match fuel, child with
  | S fuel', Some c => let next := (proc_at t c).(sibling_next) in kill_children fuel' next (process_kill_tree fuel' (Some c) t)
  | _, _ => t
  end.
Definition process_is_zombie (proc : option Z) (t : ptable) : bool :=
  match proc with Some a => bool_decide ((proc_at t a).(pstate) = PROCESS_STATE_ZOMBIE) | None => false end.
(** What [process_join] waits for. *)
Definition process_waiting_still_running (t : ptable) (a : Z) : bool :=
  bool_decide ((proc_at t a).(pstate) = PROCESS_STATE_ZOMBIE) || bool_decide ((proc_at t a).(pstate) = PROCESS_STATE_TERMINATED).
(** The process ids, states and names in the order of the list. *)
Fixpoint snapshot_loop (fuel : nat) (t : ptable) (proc : Z) (capacity : nat) : list (Z * process_state_t * list Z * bool) :=
  match fuel, capacity with
  | S fuel', S c' =>
      let p := proc_at t proc in
      (p.(pid), p.(pstate), p.(pname), bool_decide (t.(current_process) = Some proc)) ::
      (if bool_decide (t.(process_list) = Some p.(pnext)) then [] else snapshot_loop fuel' t p.(pnext) c')
  | _, _ => []
  end.
Definition process_snapshot (fuel : nat) (capacity : Z) (t : ptable) : list (Z * process_state_t * list Z * bool) :=
  match t.(process_list) with Some p => snapshot_loop fuel t p (Z.to_nat capacity) | None => [] end.

(** ** Lists of links *)
Definition pairs (l : list Z) : list (Z * Z) := zip l (tail l).
Definition linked_by (nx pv : Z -> Z) (l : list Z) : Prop := forall x y, (x, y) ∈ pairs l -> nx x = y /\ pv y = x.
Lemma pairs_cons x y l : pairs (x :: y :: l) = (x, y) :: pairs (y :: l).
Proof. done. Qed.
Lemma pairs_app l1 x l2 : pairs (l1 ++ x :: l2) = pairs (l1 ++ [x]) ++ pairs (x :: l2).
Proof.
  induction l1 as [|a l1 IH]; [done|]. destruct l1 as [|b l1]; [done|]. cbn [app] in *. rewrite !pairs_cons. cbn [app]. by rewrite IH.
Qed.
Lemma pairs_ends l x y : (x, y) ∈ pairs l -> x ∈ removelast l /\ y ∈ tail l.
Proof.
  induction l as [|a l IH]; [by intros ?%elem_of_nil|]. destruct l as [|b l]; [by intros ?%elem_of_nil|]. rewrite pairs_cons. intros [E|Hin]%list.elem_of_cons.
  - injection E as -> ->. split; by left.
  - destruct (IH Hin) as [Hx Hy]. split; [cbn [removelast]; by right|]. by right.
Qed.
Lemma removelast_mid (l1 : list Z) x y l2 : removelast (l1 ++ x :: y :: l2) = l1 ++ x :: removelast (y :: l2).
Proof. rewrite removelast_app by done. done. Qed.
Lemma removelast_snoc (l : list Z) x : removelast (l ++ [x]) = l.
Proof. rewrite removelast_app by done. cbn. by rewrite app_nil_r. Qed.
Lemma tail_mid l1 x (l2 : list Z) : tail (l1 ++ x :: l2) = tail (l1 ++ [x]) ++ l2.
Proof. destruct l1; [done|]. cbn. by rewrite <- app_assoc. Qed.
Lemma pairs_in l x y : (x, y) ∈ pairs l -> x ∈ l /\ y ∈ l.
Proof.
  induction l as [|a l IH]; [by intros ?%elem_of_nil|]. destruct l as [|b l]; [by intros ?%elem_of_nil|]. rewrite pairs_cons, !list.elem_of_cons. intros [E|Hin].
  - injection E as -> ->. tauto.
  - apply IH in Hin. rewrite !list.elem_of_cons in Hin. tauto.
Qed.
(** A list in which only the links of the neighbours [c] and [y] change. *)
Lemma linked_elsewhere nx pv nx' pv' l1 c y l2 z w : NoDup (removelast (l1 ++ c :: y :: l2)) -> NoDup (tail (l1 ++ c :: y :: l2)) ->
  (forall z, z ∈ l1 ++ c :: y :: l2 -> z <> c -> nx' z = nx z) -> (forall z, z ∈ l1 ++ c :: y :: l2 -> z <> y -> pv' z = pv z) ->
  linked_by nx pv (l1 ++ c :: y :: l2) -> (z, w) ∈ pairs (l1 ++ [c]) ++ pairs (y :: l2) -> nx' z = w /\ pv' w = z.
Proof.
  intros N1 N2 E5 E6 L Hin. rewrite removelast_mid in N1. rewrite tail_mid in N2. apply list.NoDup_app in N1 as (_ & N1a & N1b). apply list.NoDup_app in N2 as (_ & N2a & N2b).
  apply list.NoDup_cons in N1b as [N1b _]. apply list.NoDup_cons in N2b as [N2b _].
  assert (Hp : (z, w) ∈ pairs (l1 ++ c :: y :: l2)) by (rewrite pairs_app, pairs_cons; rewrite !elem_of_app, list.elem_of_cons in *; tauto).
  destruct (L _ _ Hp) as [Lx Ly], (pairs_in _ _ _ Hp) as [Hz Hw].
  assert (z <> c /\ w <> y) as [Nz Nw].
  { apply elem_of_app in Hin as [Hin|Hin]; destruct (pairs_ends _ _ _ Hin) as [Hx Hy].
    - rewrite removelast_snoc in Hx. split; intros ->; [apply (N1a c Hx)|apply (N2a y Hy)]; by left.
    - split; intros ->; [by apply N1b|by apply N2b]. }
  by rewrite E5, E6.
Qed.
(** A new element between two neighbours. *)
Lemma linked_insert nx pv nx' pv' l1 c y l2 a :
  NoDup (removelast (l1 ++ c :: y :: l2)) -> NoDup (tail (l1 ++ c :: y :: l2)) -> a ∉ l1 ++ c :: y :: l2 ->
  nx' c = a -> nx' a = y -> pv' a = c -> pv' y = a -> (forall z, z <> c -> z <> a -> nx' z = nx z) -> (forall z, z <> y -> z <> a -> pv' z = pv z) ->
  linked_by nx pv (l1 ++ c :: y :: l2) -> linked_by nx' pv' (l1 ++ c :: a :: y :: l2).
Proof.
  intros N1 N2 Na E1 E2 E3 E4 E5 E6 L z w Hin. rewrite pairs_app, !pairs_cons in Hin. rewrite elem_of_app, !list.elem_of_cons in Hin.
  destruct Hin as [Hin|[Hin|[Hin|Hin]]]; [|injection Hin as -> ->; by split|injection Hin as -> ->; by split|];
    (eapply linked_elsewhere; [exact N1|exact N2| | |exact L|apply elem_of_app; tauto]); intros x Hx Nx; [apply E5|apply E6|apply E5|apply E6]; try done; intros ->; done.
Qed.
(** An element between two neighbours goes. *)
Lemma linked_remove nx pv nx' pv' l1 x c y l2 :
  NoDup (removelast (l1 ++ x :: c :: y :: l2)) -> NoDup (tail (l1 ++ x :: c :: y :: l2)) ->
  nx' x = y -> pv' y = x -> (forall z, z <> x -> nx' z = nx z) -> (forall z, z <> y -> pv' z = pv z) ->
  linked_by nx pv (l1 ++ x :: c :: y :: l2) -> linked_by nx' pv' (l1 ++ x :: y :: l2).
Proof.
  intros N1 N2 E1 E2 E3 E4 L z w Hin. rewrite pairs_app, pairs_cons in Hin. rewrite elem_of_app, list.elem_of_cons in Hin.
  rewrite removelast_mid in N1. rewrite tail_mid in N2. apply list.NoDup_app in N1 as (_ & N1a & N1b). apply list.NoDup_app in N2 as (_ & N2a & N2b).
  apply list.NoDup_cons in N1b as [N1b _]. apply list.NoDup_cons in N2b as [N2c N2b]. apply list.NoDup_cons in N2b as [N2b _].
  assert (Hall : forall z w, (z, w) ∈ pairs (l1 ++ [x]) \/ (z, w) ∈ pairs (y :: l2) -> nx z = w /\ pv w = z).
  { intros z' w' H'. apply L. rewrite pairs_app, !pairs_cons, elem_of_app, !list.elem_of_cons. tauto. }
  destruct Hin as [Hin|[Hin|Hin]]; [|injection Hin as -> ->; by split|].
  - destruct (Hall z w (or_introl Hin)) as [Lx Ly], (pairs_ends _ _ _ Hin) as [Hx Hy]. rewrite removelast_snoc in Hx.
    assert (z <> x) by (intros ->; apply (N1a x Hx); by left). assert (w <> y) by (intros ->; apply (N2a y Hy); right; by left). by rewrite E3, E4.
  - destruct (Hall z w (or_intror Hin)) as [Lx Ly], (pairs_ends _ _ _ Hin) as [Hx Hy].
    assert (z <> x). { intros ->. apply N1b. cbn [removelast]. by right. }
    assert (w <> y) by (intros ->; by apply N2b). by rewrite E3, E4.
Qed.

(** ** Fields after an update *)
Lemma proc_at_upd b f t z : proc_at (upd_proc b f t) z = if z =? b then f (proc_at t b) else proc_at t z.
Proof.
  unfold proc_at at 1, upd_proc, with_procs. cbn [procs]. destruct (Z.eqb_spec z b) as [->|N]; [by rewrite lookup_insert_eq|]. by rewrite lookup_insert_ne by congruence.
Qed.
Definition nx (t : ptable) (a : Z) : Z := (proc_at t a).(pnext).
Definition pv (t : ptable) (a : Z) : Z := (proc_at t a).(pprev).
Lemma insert_after_links cur a t : a <> cur -> a <> nx t cur -> let t' := insert_after cur a t in
  nx t' cur = a /\ nx t' a = nx t cur /\ pv t' a = cur /\ pv t' (nx t cur) = a /\
  (forall z, z <> cur -> z <> a -> nx t' z = nx t z) /\ (forall z, z <> nx t cur -> z <> a -> pv t' z = pv t z).
Proof.
  intros N1 N2. cbv zeta. unfold insert_after. fold (nx t cur). set (y := nx t cur) in *. unfold nx at 1 2 3 4, pv. rewrite !proc_at_upd.
  assert (Ea : (a =? cur) = false) by (by apply Z.eqb_neq). assert (Ey : (a =? y) = false) by (by apply Z.eqb_neq).
  split_and!.
  - by rewrite Z.eqb_refl.
  - rewrite Ea, Ey, Z.eqb_refl. done.
  - rewrite Ea, Ey, Z.eqb_refl. done.
  - destruct (y =? cur) eqn:E.
    + apply Z.eqb_eq in E. rewrite <- E, Z.eqb_refl. done.
    + by rewrite Z.eqb_refl.
  - intros z Nz Na. unfold nx. rewrite !proc_at_upd. rewrite (proj2 (Z.eqb_neq z cur)) by done. rewrite (proj2 (Z.eqb_neq z a)) by done. destruct (z =? y) eqn:E; [|done].
    apply Z.eqb_eq in E as ->. rewrite (proj2 (Z.eqb_neq y a)) by congruence. done.
  - intros z Nz Na. rewrite !proc_at_upd. rewrite (proj2 (Z.eqb_neq z y)) by done. rewrite (proj2 (Z.eqb_neq z a)) by done. destruct (z =? cur) eqn:E; [|done].
    apply Z.eqb_eq in E as ->. rewrite (proj2 (Z.eqb_neq cur y)) by done. rewrite (proj2 (Z.eqb_neq cur a)) by congruence. done.
Qed.

(** ** The ring of processes *)
Record ring (t : ptable) (i : Z) (rest : list Z) : Prop := mk_ring {
  rg_idle : t.(idle_process) = Some i;
  rg_list : t.(process_list) = Some i;
  rg_nodup : NoDup (i :: rest);
  rg_links : linked_by (nx t) (pv t) ((i :: rest) ++ [i]);
  rg_alloc : forall a, a ∈ i :: rest -> is_Some (t.(procs) !! a);
  rg_cur : exists c, t.(current_process) = Some c /\ c ∈ i :: rest
}.
Lemma upd_alloc b f t a : is_Some (t.(procs) !! a) -> is_Some ((upd_proc b f t).(procs) !! a).
Proof. intros H. cbn. destruct (decide (a = b)) as [->|N]; [rewrite lookup_insert_eq; by eexists|by rewrite lookup_insert_ne by congruence]. Qed.
(** Updates that leave the links alone. *)
Definition same_links (f : process_t -> process_t) : Prop := forall p, (f p).(pnext) = p.(pnext) /\ (f p).(pprev) = p.(pprev).
Lemma nx_upd b f t z : same_links f -> nx (upd_proc b f t) z = nx t z.
Proof. intros S. unfold nx. rewrite proc_at_upd. destruct (Z.eqb_spec z b) as [->|]; [apply S|done]. Qed.
Lemma pv_upd b f t z : same_links f -> pv (upd_proc b f t) z = pv t z.
Proof. intros S. unfold pv. rewrite proc_at_upd. destruct (Z.eqb_spec z b) as [->|]; [apply S|done]. Qed.
Lemma ring_upd b f t i rest : same_links f -> ring t i rest -> ring (upd_proc b f t) i rest.
Proof.
  intros S [H1 H2 H3 H4 H5 H6]. split; try done.
  - intros x y Hin. rewrite nx_upd, pv_upd by done. by apply H4.
  - intros a Ha. apply upd_alloc. by apply H5.
Qed.
Lemma ring_current c t i rest : c ∈ i :: rest -> ring t i rest -> ring (with_current t (Some c)) i rest.
Proof. intros Hc [H1 H2 H3 H4 H5 H6]. split; try done. by exists c. Qed.
Lemma ring_nodup_ends (i : Z) (rest : list Z) : NoDup (i :: rest) -> NoDup (removelast ((i :: rest) ++ [i])) /\ NoDup (tail ((i :: rest) ++ [i])).
Proof.
  intros N. rewrite removelast_snoc. split; [done|]. cbn [app tail]. apply list.NoDup_cons in N as [Ni N]. apply list.NoDup_app. split; [done|]. split; [|apply list.NoDup_singleton].
  intros x Hx Hi. apply list_elem_of_singleton in Hi as ->. done.
Qed.
Lemma insert_alloc cur a t z : is_Some (t.(procs) !! z) -> is_Some ((insert_after cur a t).(procs) !! z).
Proof. intros H. unfold insert_after. by do 4 apply upd_alloc. Qed.
(** A process that enters behind the current one. *)
Lemma insert_ring cur a t i rest : ring t i rest -> t.(current_process) = Some cur -> a ∉ i :: rest -> is_Some (t.(procs) !! a) ->
  exists l1 l2, i :: rest = l1 ++ cur :: l2 /\ ring (insert_after cur a t) i (tail (l1 ++ cur :: a :: l2)) /\ i :: tail (l1 ++ cur :: a :: l2) = l1 ++ cur :: a :: l2.
Proof.
  intros [H1 H2 H3 H4 H5 (c & Ec & Hc)] Hcur Na Ha. assert (c = cur) as -> by congruence. apply list_elem_of_split in Hc as (l1 & l2 & El). exists l1, l2. split; [done|].
  assert (Hd : i :: tail (l1 ++ cur :: a :: l2) = l1 ++ cur :: a :: l2) by (destruct l1 as [|x l1]; cbn in El |- *; by injection El as <- _).
  split; [|done]. rewrite El in *. destruct (l2 ++ [i]) as [|y l3] eqn:Ey; [by destruct l2|].
  assert (EL : (l1 ++ cur :: l2) ++ [i] = l1 ++ cur :: y :: l3) by (rewrite <- app_assoc; cbn [app]; by rewrite Ey).
  assert (EL' : (l1 ++ cur :: a :: l2) ++ [i] = l1 ++ cur :: a :: y :: l3) by (rewrite <- app_assoc; cbn [app]; by rewrite Ey).
  destruct (ring_nodup_ends i rest) as [N1 N2]; [by rewrite El|]. rewrite El, EL in N1, N2. rewrite EL in H4.
  assert (Yc : nx t cur = y) by (apply (H4 cur y); rewrite pairs_app, pairs_cons; apply elem_of_app; right; by left).
  assert (NaL : a ∉ l1 ++ cur :: y :: l3).
  { rewrite <- EL. intros Hin. apply elem_of_app in Hin as [Hin|Hin]; [done|]. apply list_elem_of_singleton in Hin as ->. apply Na. rewrite <- El. by left. }
  destruct (insert_after_links cur a t) as (P1 & P2 & P3 & P4 & P5 & P6).
  { intros ->. apply NaL. apply elem_of_app. right. by left. }
  { rewrite Yc. intros ->. apply NaL. apply elem_of_app. right. right. by left. }
  rewrite Yc in *. assert (Hperm : l1 ++ cur :: a :: l2 ≡ₚ a :: l1 ++ cur :: l2) by (etrans; [apply Permutation_app_head, perm_swap|symmetry; apply Permutation_middle]).
  split; rewrite ?Hd; try done.
  - rewrite Hperm. by apply list.NoDup_cons.
  - rewrite EL'. by eapply linked_insert.
  - intros z Hz. rewrite Hperm in Hz. apply insert_alloc. apply list.elem_of_cons in Hz as [->|Hz]; [done|by apply H5].
  - exists cur. split; [done|]. apply elem_of_app. right. by left.
Qed.
(** Where the two neighbours of the process that exits are others. *)
Definition exit_table (cur x y : Z) (t : ptable) : ptable :=
  upd_proc y (set_pstate PROCESS_STATE_RUNNING)
    (with_current (upd_proc y (set_pprev x) (upd_proc x (set_pnext y) (upd_proc cur (set_pstate PROCESS_STATE_TERMINATED) t))) (Some y)).
Lemma proc_at_current c t z : proc_at (with_current t c) z = proc_at t z.
Proof. done. Qed.
(** Reads through updates at addresses that are known to be equal or not. *)
Ltac upds := repeat (rewrite proc_at_upd || rewrite proc_at_current ||
  match goal with |- context [?a =? ?b] => first [rewrite (Z.eqb_refl a) | rewrite (proj2 (Z.eqb_neq a b)) by congruence] end).
Lemma exit_equation cur i t : t.(current_process) = Some cur -> t.(idle_process) = Some i -> cur <> i -> nx t cur <> cur -> pv t cur <> cur ->
  process_exit t = Some (exit_table cur (pv t cur) (nx t cur) t).
Proof.
  intros H1 H2 N Hx Hy. unfold process_exit. rewrite H1, H2. rewrite bool_decide_eq_false_2 by congruence.
  set (t1 := upd_proc cur (set_pstate PROCESS_STATE_TERMINATED) t).
  assert (E1 : (proc_at t1 cur).(pnext) = nx t cur) by (unfold t1; by upds).
  assert (E2 : (proc_at t1 cur).(pprev) = pv t cur) by (unfold t1; by upds).
  rewrite E1, E2. set (t2 := upd_proc (pv t cur) (set_pnext (nx t cur)) t1).
  assert (E3 : proc_at t2 cur = proc_at t1 cur) by (unfold t2; by upds). rewrite E3, E1, E2.
  assert (E4 : proc_at (upd_proc (nx t cur) (set_pprev (pv t cur)) t2) cur = proc_at t1 cur) by (upds; exact E3). rewrite E4, E1. done.
Qed.
Lemma exit_links cur x y t : cur <> x -> cur <> y -> let t' := exit_table cur x y t in
  nx t' x = y /\ pv t' y = x /\ (forall z, z <> x -> nx t' z = nx t z) /\ (forall z, z <> y -> pv t' z = pv t z) /\ (proc_at t' cur).(pstate) = PROCESS_STATE_TERMINATED.
Proof.
  intros Nx Ny. cbv zeta. unfold exit_table, nx, pv. split_and!.
  - upds. destruct (Z.eqb_spec x y) as [->|]; upds; done.
  - upds. done.
  - intros z Nz. upds. destruct (Z.eqb_spec z y) as [->|]; upds; [done|]. destruct (Z.eqb_spec z cur) as [->|]; upds; done.
  - intros z Nz. upds. destruct (Z.eqb_spec z x) as [->|]; upds; [done|]. destruct (Z.eqb_spec z cur) as [->|]; upds; done.
  - upds. done.
Qed.
(** The current process leaves; it is not the idle one. *)
Lemma exit_ring cur t t' i rest : ring t i rest -> t.(current_process) = Some cur -> process_exit t = Some t' ->
  exists l1 l2, rest = l1 ++ cur :: l2 /\ ring t' i (l1 ++ l2) /\ (proc_at t' cur).(pstate) = PROCESS_STATE_TERMINATED /\ t'.(current_process) = Some (nx t cur).
Proof.
  intros [H1 H2 H3 H4 H5 (c & Ec & Hc)] Hcur Hexit. assert (c = cur) as -> by congruence.
  assert (Nci : cur <> i). { intros ->. unfold process_exit in Hexit. rewrite Hcur, H1 in Hexit. by rewrite bool_decide_eq_true_2 in Hexit. }
  apply list.elem_of_cons in Hc as [?|Hc]; [done|]. apply list_elem_of_split in Hc as (l1 & l2 & ->). exists l1, l2. split; [done|].
  destruct (l2 ++ [i]) as [|y l3] eqn:Ey; [by destruct l2|]. destruct (exists_last (l := i :: l1)) as (l0 & x & Ex); [done|].
  assert (EL : (i :: l1 ++ cur :: l2) ++ [i] = l0 ++ x :: cur :: y :: l3).
  { change (i :: l1 ++ cur :: l2) with ((i :: l1) ++ cur :: l2). rewrite Ex, <- !app_assoc. cbn [app]. by rewrite Ey. }
  assert (EL' : (i :: l1 ++ l2) ++ [i] = l0 ++ x :: y :: l3).
  { change (i :: l1 ++ l2) with ((i :: l1) ++ l2). rewrite Ex, <- !app_assoc. cbn [app]. by rewrite Ey. }
  destruct (ring_nodup_ends _ _ H3) as [N1 N2]. rewrite EL in N1, N2, H4.
  assert (Ln : nx t cur = y) by (apply (H4 cur y); rewrite pairs_app, !pairs_cons; apply elem_of_app; right; right; by left).
  assert (Lp : pv t cur = x) by (apply (H4 x cur); rewrite pairs_app, !pairs_cons; apply elem_of_app; right; by left).
  assert (Hperm : i :: l1 ++ cur :: l2 ≡ₚ cur :: i :: l1 ++ l2) by (rewrite <- Permutation_middle; apply perm_swap).
  rewrite Hperm in H3. apply list.NoDup_cons in H3 as [Nc Nr].
  assert (Hx : x ∈ i :: l1 ++ l2). { change (i :: l1 ++ l2) with ((i :: l1) ++ l2). rewrite Ex. rewrite !elem_of_app. left. right. by left. }
  assert (Hy : y ∈ i :: l1 ++ l2).
  { assert (Hy : y ∈ l2 ++ [i]) by (rewrite Ey; by left). apply elem_of_app in Hy as [Hy|Hy]; [right; apply elem_of_app; by right|]. apply list_elem_of_singleton in Hy as ->. by left. }
  assert (Nx : cur <> x) by congruence. assert (Ny : cur <> y) by congruence.
  rewrite (exit_equation cur i), Ln, Lp in Hexit by congruence. apply (inj Some) in Hexit as <-.
  destruct (exit_links cur x y t Nx Ny) as (P1 & P2 & P3 & P4 & P5). split; [|rewrite Ln; split; done].
  split; try done.
  - rewrite EL'. by eapply linked_remove.
  - intros a Ha. unfold exit_table. apply upd_alloc. cbn [with_current procs]. do 3 apply upd_alloc. apply H5. rewrite Hperm. by right.
  - by exists y.
Qed.

(** ** Round robin *)
(** The processes behind the current one, once round: the order in which
    [schedule] asks them. *)
Definition behind (l1 : list Z) (cur : Z) (l2 : list Z) : list Z := l2 ++ l1 ++ [cur].
Lemma ring_behind t i rest l1 cur l2 s o : ring t i rest -> i :: rest = l1 ++ cur :: l2 -> behind l1 cur l2 = s :: o ->
  nx t cur = s /\ NoDup (s :: o) /\ forall x y, (x, y) ∈ pairs (s :: o) -> nx t x = y.
Proof.
  intros [_ _ H3 H4 _ _] El Eo. rewrite El in H3, H4.
  assert (Hperm : s :: o ≡ₚ l1 ++ cur :: l2). { rewrite <- Eo. unfold behind. rewrite Permutation_app_comm, <- app_assoc. done. }
  assert (Hnd : NoDup (s :: o)) by (by rewrite Hperm). rewrite <- app_assoc in H4. cbn [app] in H4.
  assert (Hin : forall x y, (x, y) ∈ pairs (l1 ++ [cur]) \/ (x, y) ∈ pairs (cur :: l2 ++ [i]) -> nx t x = y).
  { intros x y H. apply (H4 x y). rewrite pairs_app. by apply elem_of_app. }
  destruct l1 as [|z l1]; injection El as <- Er; unfold behind in Eo.
  - assert (Es : exists l3, l2 ++ [i] = s :: l3) by (exists o; exact Eo). destruct Es as (l3 & Es). split; [|split; [done|]].
    + apply Hin. right. rewrite Es, pairs_cons. by left.
    + intros x y H. apply Hin. right. rewrite Es, pairs_cons. right. rewrite <- Eo in H. cbn [app] in H. by rewrite Es in H.
  - destruct (l2 ++ [i]) as [|s' l3] eqn:Es; [by destruct l2|]. assert (s' = s) as -> by (destruct l2; cbn in Es, Eo; congruence).
    split; [apply Hin; right; rewrite pairs_cons; by left|]. split; [done|]. intros x y H. rewrite <- Eo in H. cbn [app] in H. rewrite pairs_app, Es in H.
    apply elem_of_app in H as [H|H]; apply Hin; [right|by left]. rewrite pairs_cons. by right.
Qed.
Lemma last_shift (o : list Z) : forall x y, List.last (y :: o) x = List.last o y.
Proof. induction o as [|z o IH]; [done|]. intros x y. change (List.last (y :: z :: o) x) with (List.last (z :: o) x). by rewrite !IH. Qed.
Lemma find_next_first t s : forall o x fuel, (forall a b, (a, b) ∈ pairs (x :: o) -> nx t a = b) -> s ∉ o -> nx t (List.last o x) = s -> (length o < fuel)%nat ->
  find_next fuel t s x = default s (List.find (fun a => is_runnable (proc_at t a)) (x :: o)).
Proof.
  induction o as [|y o IH]; intros x [|fuel] Hl Ns Hlast Hf; [cbn in Hf; lia| |cbn in Hf; lia|]; cbn [find_next List.find]; destruct (is_runnable _); try done; fold (nx t x).
  - cbn in Hlast. rewrite Hlast, Z.eqb_refl. done.
  - assert (Ey : nx t x = y) by (apply Hl; rewrite pairs_cons; by left). rewrite Ey. apply list.not_elem_of_cons in Ns as [N1 N2]. rewrite (proj2 (Z.eqb_neq y s)) by congruence.
    apply IH; [|done| |cbn in Hf; lia]; [intros a b H; apply Hl; rewrite pairs_cons; by right|]. by rewrite last_shift in Hlast.
Qed.
Lemma length_ring t i rest : ring t i rest -> (length (i :: rest) <= size t.(procs))%nat.
Proof.
  intros [_ _ H3 _ H5 _]. rewrite <- (size_list_to_set (C := gset Z) (i :: rest)) by done. rewrite <- (size_dom (D := gset Z)). apply subseteq_size.
  intros a Ha. apply elem_of_list_to_set in Ha. apply elem_of_dom. by apply H5.
Qed.
(** What [schedule] chooses: the first process behind the current one that can
    run, the current one last; the next one where none can. *)
Lemma schedule_choice t i rest l1 cur l2 fuel : ring t i rest -> i :: rest = l1 ++ cur :: l2 -> t.(current_process) = Some cur -> (length (i :: rest) <= fuel)%nat ->
  find_next fuel t (nx t cur) (nx t cur) = default (nx t cur) (List.find (fun a => is_runnable (proc_at t a)) (behind l1 cur l2)).
Proof.
  intros R El Hc Hf. destruct (behind l1 cur l2) as [|s o] eqn:Eb; [destruct l2, l1; done|]. destruct (ring_behind _ _ _ _ _ _ _ _ R El Eb) as (Hs & Hnd & Hl).
  rewrite Hs. apply list.NoDup_cons in Hnd as [Ns _]. assert (Hlen : length (s :: o) = length (i :: rest)) by (rewrite <- Eb, El; unfold behind; rewrite !length_app; cbn; lia).
  assert (El2 : s :: o = (l2 ++ l1) ++ [cur]) by (rewrite <- Eb; unfold behind; by rewrite app_assoc).
  apply find_next_first; [done|done| |cbn in *; lia]. by rewrite <- (last_shift o s s), El2, last_last.
Qed.
Lemma switch_ring n t i rest : n ∈ i :: rest -> ring t i rest -> ring (switch_to (Some n) t) i rest.
Proof.
  intros Hn R. unfold switch_to. destruct (current_process t) as [prev|]; [|done]. destruct (n =? prev); [done|]. apply ring_current; [done|]. apply ring_upd; [done|].
  case_bool_decide; [by apply ring_upd|done].
Qed.

(** ** Killing every task *)
Definition mark_killed (p : process_t) : process_t := set_pstate PROCESS_STATE_TERMINATED (set_terminate p).
Definition mark_all (l : list Z) (t : ptable) : ptable := fold_left (fun t a => upd_proc a mark_killed t) l t.
Lemma mark_all_ring l : forall t i rest, ring t i rest -> ring (mark_all l t) i rest.
Proof. induction l as [|a l IH]; [done|]. intros t i rest R. cbn. apply IH. by apply ring_upd. Qed.
Lemma mark_all_at l : forall t z, proc_at (mark_all l t) z = proc_at t z \/ proc_at (mark_all l t) z = mark_killed (proc_at t z).
Proof.
  induction l as [|a l IH]; intros t z; [by left|]. cbn [mark_all fold_left]. fold (mark_all l (upd_proc a mark_killed t)). destruct (IH (upd_proc a mark_killed t) z) as [E|E]; rewrite E, proc_at_upd;
    destruct (Z.eqb_spec z a) as [->|]; auto.
Qed.
Lemma mark_all_in l : forall t z, z ∈ l -> proc_at (mark_all l t) z = mark_killed (proc_at t z).
Proof.
  induction l as [|a l IH]; intros t z Hz; [by apply elem_of_nil in Hz|]. cbn [mark_all fold_left]. fold (mark_all l (upd_proc a mark_killed t)).
  destruct (mark_all_at l (upd_proc a mark_killed t) z) as [E|E], (decide (z ∈ l)) as [Hl|Hl].
  - rewrite IH by done. rewrite proc_at_upd. by destruct (Z.eqb_spec z a) as [->|].
  - apply list.elem_of_cons in Hz as [->|?]; [|done]. by rewrite E, proc_at_upd, Z.eqb_refl.
  - rewrite IH by done. rewrite proc_at_upd. by destruct (Z.eqb_spec z a) as [->|].
  - apply list.elem_of_cons in Hz as [->|?]; [|done]. by rewrite E, proc_at_upd, Z.eqb_refl.
Qed.
Lemma kill_loop_all idle : forall l fuel t k x, (forall a b, (a, b) ∈ pairs (l ++ [idle]) -> nx t a = b) -> idle ∉ l -> x = List.hd idle l -> (length l <= fuel)%nat ->
  kill_loop fuel idle x t k = (mark_all l t, k + Z.of_nat (length l)).
Proof.
  induction l as [|a l IH]; intros fuel t k x Hl Ni -> Hf; cbn [List.hd].
  - destruct fuel; cbn [kill_loop length mark_all fold_left]; rewrite ?Z.eqb_refl; f_equal; lia.
  - destruct fuel as [|fuel]; [cbn in Hf; lia|]. cbn [kill_loop]. apply list.not_elem_of_cons in Ni as [N1 N2]. rewrite (proj2 (Z.eqb_neq a idle)) by congruence. fold (nx t a).
    erewrite IH; [|intros c d H; rewrite nx_upd by done; apply Hl; cbn [app]|done| |cbn in Hf; lia].
    + cbn [mark_all fold_left length]. f_equal. lia.
    + destruct l; [by apply elem_of_nil in H|]. cbn [app] in *. rewrite pairs_cons. by right.
    + apply Hl. destruct l; cbn; by left.
Qed.
Lemma kill_all_loop fuel t i rest : ring t i rest -> (length rest <= fuel)%nat -> kill_loop fuel i (nx t i) t 0 = (mark_all rest t, Z.of_nat (length rest)).
Proof.
  intros [H1 H2 H3 H4 H5 H6] Hf. apply list.NoDup_cons in H3 as [Ni Nd].
  assert (Hl : forall a b, (a, b) ∈ pairs (rest ++ [i]) -> nx t a = b).
  { intros a b H. apply (H4 a b). destruct rest; [by apply elem_of_nil in H|]. cbn [app] in *. rewrite pairs_cons. by right. }
  assert (Hx : nx t i = List.hd i rest) by (apply (H4 i); destruct rest; cbn; by left).
  rewrite (kill_loop_all i rest fuel t 0 (nx t i)) by done. by rewrite Z.add_0_l.
Qed.
(** Only the idle process is left in the list; every other one is marked. *)
Lemma kill_all_ring fuel t i rest : ring t i rest -> (length rest <= fuel)%nat ->
  exists t', kill_all_user_tasks fuel t = (Z.of_nat (length rest), t') /\ ring t' i [] /\ t'.(current_process) = Some i /\
    forall a, a ∈ rest -> (proc_at t' a).(pstate) = PROCESS_STATE_TERMINATED /\ (proc_at t' a).(should_terminate) = true.
Proof.
  intros R Hf. pose proof R as [H1 H2 H3 H4 H5 H6]. unfold kill_all_user_tasks. rewrite H1, H2. fold (nx t i). apply list.NoDup_cons in H3 as [Ni Nd].
  rewrite (kill_all_loop fuel t i rest) by done. eexists. split; [done|].
  pose proof (mark_all_ring rest t i rest R) as [M1 M2 M3 M4 M5 M6]. set (m := mark_all rest t) in *.
  split; [|split; [done|]].
  - split; try done.
    + by apply list.NoDup_singleton.
    + intros x y H. apply list_elem_of_singleton in H. injection H as -> ->. unfold nx, pv. upds. done.
    + intros a Ha. apply list_elem_of_singleton in Ha as ->. do 2 apply upd_alloc. apply M5. by left.
    + exists i. split; [done|by left].
  - intros a Ha. assert (a <> i) by (intros ->; done). upds. unfold m. rewrite mark_all_in by done. done.
Qed.
(** What is not in the list is not touched. *)
Lemma mark_all_out l : forall t z, z ∉ l -> proc_at (mark_all l t) z = proc_at t z.
Proof.
  induction l as [|a l IH]; intros t z Hz; [done|]. apply list.not_elem_of_cons in Hz as [N Hz]. cbn [mark_all fold_left]. fold (mark_all l (upd_proc a mark_killed t)).
  rewrite IH by done. rewrite proc_at_upd. by rewrite (proj2 (Z.eqb_neq z a)).
Qed.
Lemma kill_all_others fuel t i rest a : ring t i rest -> (length rest <= fuel)%nat -> a <> i -> a ∉ rest -> proc_at (kill_all_user_tasks fuel t).2 a = proc_at t a.
Proof.
  intros R Hf Ni Nr. unfold kill_all_user_tasks. rewrite (rg_idle _ _ _ R), (rg_list _ _ _ R). fold (nx t i). rewrite (kill_all_loop fuel t i rest R Hf). cbn [snd]. upds.
  by apply mark_all_out.
Qed.

(** ** Every operation keeps the ring *)
Lemma ring_fresh a p n t i rest : t.(procs) !! a = None -> ring t i rest -> (a ∉ i :: rest) /\ ring (with_next_pid (with_procs t (<[a := p]> t.(procs))) n) i rest.
Proof.
  intros Ha [H1 H2 H3 H4 H5 H6]. assert (Na : a ∉ i :: rest). { intros Hin. destruct (H5 a Hin) as [q Hq]. congruence. }
  assert (Hat : forall z, z ∈ i :: rest -> proc_at (with_next_pid (with_procs t (<[a := p]> t.(procs))) n) z = proc_at t z).
  { intros z Hz. unfold proc_at, with_next_pid, with_procs. cbn [procs]. rewrite lookup_insert_ne by congruence. done. }
  split; [done|]. split; try done.
  - intros x y Hin. destruct (pairs_in _ _ _ Hin) as [Hx Hy]. destruct (H4 x y Hin) as [L1 L2]. unfold nx, pv in *.
    assert (Hc : forall z, z ∈ (i :: rest) ++ [i] -> z ∈ i :: rest).
    { intros z Hz. apply elem_of_app in Hz as [?|Hz]; [done|]. apply list_elem_of_singleton in Hz as ->. by left. }
    rewrite !Hat by (by apply Hc); done.
  - intros z Hz. cbn. rewrite lookup_insert_ne by congruence. by apply H5.
Qed.
Lemma create_ring a kd name t i rest : t.(procs) !! a = None -> ring t i rest -> exists rest', ring (create_kernel_thread (Some a) kd name t).2 i rest'.
Proof.
  intros Ha R. unfold create_kernel_thread. destruct (multitasking_enabled t); [|by exists rest]. cbn [negb]. destruct (current_process t) as [cur|] eqn:Ec; [|by exists rest].
  cbv zeta. match goal with |- context [<[a := ?p]> _] => set (p0 := p) end. destruct (ring_fresh a p0 (u32 (next_pid t + 1)) t i rest Ha R) as [Na R1]. cbn [snd].
  destruct (insert_ring cur a _ i rest R1) as (l1 & l2 & _ & R2 & _); [done|done| |by eexists]. cbn. rewrite lookup_insert_eq. by eexists.
Qed.
Lemma create_process_ring a ok kd name t i rest : t.(procs) !! a = None -> ring t i rest -> exists rest', ring (process_create_kernel (Some a) ok kd name t).2 i rest'.
Proof.
  intros Ha R. unfold process_create_kernel. destruct (multitasking_enabled t); [|by exists rest]. cbn [negb]. destruct (current_process t) as [cur|] eqn:Ec; [|by exists rest].
  destruct ok; cbn [negb]; [|exists rest; destruct R; by split]. cbv zeta. match goal with |- context [<[a := ?p]> _] => set (p0 := p) end.
  destruct (ring_fresh a p0 (u32 (next_pid t + 1)) t i rest Ha R) as [Na R1].
  destruct (insert_ring cur a _ i rest R1) as (l1 & l2 & _ & R2 & _); [done|done| |].
  { cbn. rewrite lookup_insert_eq. by eexists. }
  eexists. cbn [snd]. apply ring_upd; [done|]. destruct (first_child _); repeat (apply ring_upd; [done|]); exact R2.
Qed.
Lemma kill_ring a t i rest : ring t i rest -> ring (process_kill a t) i rest.
Proof. intros R. destruct a as [a|]; [|done]. cbn. case_bool_decide; [done|by apply ring_upd]. Qed.
Lemma kill_tree_ring : forall fuel, (forall a t i rest, ring t i rest -> ring (process_kill_tree fuel a t) i rest) /\ (forall a t i rest, ring t i rest -> ring (kill_children fuel a t) i rest).
Proof.
  induction fuel as [|fuel [IH1 IH2]]; [split; intros [a|]; done|]. split; intros [a|] t i rest R; try done; cbn [process_kill_tree kill_children].
  - apply (kill_ring (Some a)). by apply IH2.
  - apply IH2. by apply IH1.
Qed.
Lemma schedule_ring fuel t i rest : ring t i rest -> (length (i :: rest) <= fuel)%nat -> ring (schedule fuel t) i rest.
Proof.
  intros R Hf. pose proof (rg_cur _ _ _ R) as (cur & Ec & Hc). unfold schedule. rewrite Ec. destruct (multitasking_enabled t); [|done]. cbn [negb]. fold (nx t cur). destruct (nx t cur =? cur); [done|].
  apply list_elem_of_split in Hc as (l1 & l2 & El). rewrite (schedule_choice t i rest l1 cur l2) by done.
  destruct (_ =? cur); [done|]. apply switch_ring; [|done].
  destruct (behind l1 cur l2) as [|s o] eqn:Eb; [destruct l2, l1; done|]. destruct (ring_behind _ _ _ _ _ _ _ _ R El Eb) as (Hs & _ & _). rewrite Hs.
  assert (Hin : forall z, z ∈ s :: o -> z ∈ i :: rest). { intros z. rewrite <- Eb, El. unfold behind. rewrite !elem_of_app, !list.elem_of_cons, elem_of_nil. tauto. }
  destruct (List.find _ _) as [z|] eqn:Ef; cbn [default]; apply Hin; [|by left]. apply find_some in Ef as [Hz _]. by apply base.list_elem_of_In.
Qed.
(** The operations, as the kernel runs them one after the other; [size procs]
    is enough fuel for the loops over the list. *)
Inductive pstep : ptable -> ptable -> Prop :=
| ps_create a kd name t : t.(procs) !! a = None -> pstep t (create_kernel_thread (Some a) kd name t).2
| ps_process a ok kd name t : t.(procs) !! a = None -> pstep t (process_create_kernel (Some a) ok kd name t).2
| ps_schedule t : pstep t (schedule (size t.(procs)) t)
| ps_exit t t' : process_exit t = Some t' -> pstep t t'
| ps_kill a t : pstep t (process_kill a t)
| ps_kill_tree fuel a t : pstep t (process_kill_tree fuel a t)
| ps_kill_all t : pstep t (kill_all_user_tasks (size t.(procs)) t).2.
Lemma pstep_ring t t' i rest : pstep t t' -> ring t i rest -> exists rest', ring t' i rest'.
Proof.
  intros St R. pose proof (length_ring _ _ _ R) as Hlen. destruct St as [a kd name t Ha|a ok kd name t Ha|t|t t' He|a t|fuel a t|t].
  - by eapply create_ring.
  - by eapply create_process_ring.
  - exists rest. by apply schedule_ring.
  - destruct (rg_cur _ _ _ R) as (cur & Ec & _). destruct (exit_ring cur t t' i rest R Ec He) as (l1 & l2 & _ & R' & _). by exists (l1 ++ l2).
  - exists rest. by apply kill_ring.
  - exists rest. by apply kill_tree_ring.
  - destruct (kill_all_ring (size (procs t)) t i rest R) as (t' & -> & R' & _); [cbn in Hlen; lia|]. by exists [].
Qed.
Lemma rtc_ring t t' i : rtc pstep t t' -> (exists rest, ring t i rest) -> exists rest, ring t' i rest.
Proof. induction 1 as [|t1 t2 t3 Hs _ IH]; [done|]. intros [rest R]. apply IH. by eapply pstep_ring. Qed.
Lemma init_ring a kd name t : ring (init_multitasking (Some a) kd name t) a [].
Proof.
  split; try done.
  - by apply list.NoDup_singleton.
  - intros x y H. apply list_elem_of_singleton in H. injection H as -> ->. unfold nx, pv, proc_at. cbn. by rewrite lookup_insert_eq.
  - intros z Hz. apply list_elem_of_singleton in Hz as ->. cbn. rewrite lookup_insert_eq. by eexists.
  - exists a. split; [done|by left].
Qed.

Definition table0 : ptable := mk_ptable ∅ None None None 0 false.
Definition table3 : ptable :=
  let t := init_multitasking (Some 100) 7 [107] table0 in
  let t := (create_kernel_thread (Some 200) 7 [97] t).2 in
  (create_kernel_thread (Some 300) 7 [98] t).2.
(** [schedule] is round robin over the ring: it switches to the first
    process behind the current one that can run, asking the current one last.
    The one that ran becomes ready, the chosen one runs, no other process
    changes; when nothing else can run, nothing changes at all. *)
Theorem schedule_round_robin (t : ptable) (i : Z) (rest l1 : list Z) (cur : Z) (l2 : list Z) : ring t i rest -> i :: rest = l1 ++ cur :: l2 ->
  t.(current_process) = Some cur -> t.(multitasking_enabled) = true -> (proc_at t cur).(pstate) = PROCESS_STATE_RUNNING ->
  exists next, List.find (fun a => is_runnable (proc_at t a)) (l2 ++ l1 ++ [cur]) = Some next /\
    let t' := schedule (size t.(procs)) t in
    t'.(current_process) = Some next /\
    (next = cur -> t' = t) /\
    (next <> cur -> (proc_at t' next).(pstate) = PROCESS_STATE_RUNNING /\ (proc_at t' cur).(pstate) = PROCESS_STATE_READY) /\
    (forall z, z <> next -> z <> cur -> proc_at t' z = proc_at t z).
Proof.
  intros R El Ec Em Hrun. fold (behind l1 cur l2).
  assert (Hc : cur ∈ behind l1 cur l2) by (unfold behind; rewrite !elem_of_app; right; right; by left).
  destruct (List.find _ (behind l1 cur l2)) as [next|] eqn:Ef.
  2:{ apply base.list_elem_of_In in Hc. pose proof (find_none _ _ Ef cur Hc) as Hn. unfold is_runnable in Hn. by rewrite Hrun in Hn. }
  exists next. split; [done|]. cbv zeta. pose proof (length_ring _ _ _ R) as Hlen. pose proof (schedule_choice t i rest l1 cur l2 (size (procs t)) R El Ec Hlen) as Hch.
  rewrite Ef in Hch. cbn [from_option id] in Hch.
  assert (Hs : schedule (size (procs t)) t = switch_to (Some next) t).
  { unfold schedule. rewrite Ec, Em. cbn [negb]. fold (nx t cur). rewrite Hch. destruct (Z.eqb_spec (nx t cur) cur) as [Es|_].
    - assert (next = cur) as ->. { rewrite <- Hch, Es. destruct (size (procs t)); [done|]. cbn. fold (nx t cur). rewrite Es, Z.eqb_refl. by destruct (is_runnable _). }
      unfold switch_to. by rewrite Ec, Z.eqb_refl.
    - destruct (Z.eqb_spec next cur) as [->|]; [|done]. unfold switch_to. by rewrite Ec, Z.eqb_refl. }
  rewrite Hs. unfold switch_to. rewrite Ec. destruct (Z.eqb_spec next cur) as [->|Nn]; [done|]. rewrite bool_decide_eq_true_2 by done.
  split; [done|]. split; [done|]. split; [intros _; split; by upds|]. intros z Nz Nc. by upds.
Qed.
Lemma schedule_round_robin_witness : exists next,
  List.find (fun a => is_runnable (proc_at (process_kill (Some 300) table3) a)) ([300; 200] ++ [] ++ [100]) = Some next /\
  let t' := schedule (size (process_kill (Some 300) table3).(procs)) (process_kill (Some 300) table3) in
  t'.(current_process) = Some next /\ (next = 100 -> t' = process_kill (Some 300) table3) /\
  (next <> 100 -> (proc_at t' next).(pstate) = PROCESS_STATE_RUNNING /\ (proc_at t' 100).(pstate) = PROCESS_STATE_READY) /\
  (forall z, z <> next -> z <> 100 -> proc_at t' z = proc_at (process_kill (Some 300) table3) z).
Proof.
  apply (schedule_round_robin (process_kill (Some 300) table3) 100 [300; 200] [] 100 [300; 200]); [|reflexivity|reflexivity|reflexivity|reflexivity].
  split; [reflexivity|reflexivity| | | |].
  - apply (bool_decide_eq_true_1 _). vm_compute. reflexivity.
  - intros x y H. change (pairs ((100 :: [300; 200]) ++ [100])) with [(100, 300); (300, 200); (200, 100)] in H. rewrite !list.elem_of_cons, elem_of_nil in H. by destruct H as [H|[H|[H|H]]]; [injection H as -> ->..|].
  - intros a H. rewrite !list.elem_of_cons, elem_of_nil in H. by destruct H as [->|[->|[->|H]]]; [eexists; vm_compute..|].
  - exists 100. split; [reflexivity|by left].
Defined.
(** Every task is killed at once, and only the idle process goes on: the state
    is read back by [process_snapshot]. *)
Example kill_all_snapshot :
  let t := (kill_all_user_tasks 3 table3).2 in (kill_all_user_tasks 3 table3).1 = 2 /\ map (fun e => e.1.1.1) (process_snapshot 3 10 table3) = [0; 2; 1] /\
  map (fun e => e.1.1.1) (process_snapshot 3 10 t) = [0] /\ should_exit t = false /\ (proc_at t 200).(should_terminate) = true.
Proof. by vm_compute. Qed.
