(* ===== verification/Exec.v ===== *)
(** Starting a program (process_execute and process_exec_and_wait of
    src/kernel/process.c): the structure and the kernel stack of the process, its
    page directory, the segments, the user stack with the arguments, the thread.

    The answers of the kernel heap and of the creation of the thread are
    arguments; [x_live] is the set of heap blocks that are in use.  Text on the
    console and in the log is left out. *)
From S2P Require Import Prelude Cstring Pmm Vmm Vfs Elf Process.

Definition USER_STACK_TOP : Z := 0xBFFFF000.
Definition USER_STACK_SIZE : Z := 16 * PAGE_SIZE.
Definition STACK_BUFFER_SIZE : Z := 1024.
(** [if ( *p == '/') name = p + 1]. *)
Fixpoint file_name (name rest : list Z) : list Z :=
  match rest with [] => name | c :: rest' => file_name (if c =? 47 then rest' else name) rest' end.

(** ** The user stack *)
(** The body of the loop over the pages of [process_execute], which maps what
    [pmm_alloc_block] returns, and of [process_exec_and_wait], which maps its
    physical address and clears the page. *)
Definition stack_page_execute (dir addr : Z) (s : vmm) : bool * vmm :=
  if vmm_is_mapped_in_dir s dir addr then (true, s)
  else
    let '(phys_page, p) := pmm_alloc_block s.(v_pmm) in
    let s := with_pmm s p in
    if phys_page =? NULL then (false, s)
    else
      let '(r, s) := vmm_map_page_in_dir dir phys_page addr (Z.lor PAGE_PRESENT (Z.lor PAGE_RW PAGE_USER)) s in
      if negb (r =? 0) then (false, with_pmm s (pmm_free_block phys_page s.(v_pmm))) else (true, s).
Definition stack_page_wait (dir addr : Z) (s : vmm) : bool * vmm :=
  if vmm_is_mapped_in_dir s dir addr then (true, s)
  else
    let '(page_virt, p) := pmm_alloc_block s.(v_pmm) in
    let s := with_pmm s p in
    if page_virt =? NULL then (false, s)
    else
      let page_phys := pmm_virt_to_phys s.(v_pmm) page_virt in
      let '(r, s) := vmm_map_page_in_dir dir page_phys addr (Z.lor PAGE_PRESENT (Z.lor PAGE_RW PAGE_USER)) s in
      if negb (r =? 0) then (false, with_pmm s (pmm_free_block page_virt s.(v_pmm))) else (true, zero_page page_virt s).
Fixpoint stack_pages (page : Z -> vmm -> bool * vmm) (n : nat) (addr : Z) (s : vmm) : bool * vmm :=
  match n with
  | O => (true, s)
  | S n' => let '(ok, s) := page addr s in if negb ok then (false, s) else stack_pages page n' (addr + PAGE_SIZE) s
  end.
Definition user_stack (page : Z -> vmm -> bool * vmm) (s : vmm) : bool * vmm :=
  stack_pages page (Z.to_nat (USER_STACK_SIZE / PAGE_SIZE)) (USER_STACK_TOP - USER_STACK_SIZE) s.

(** ** The arguments *)
Definition le64 (v : Z) : list Z := le32 v ++ le32 (v / 2 ^ 32).
Fixpoint put_bytes (a : Z) (l : list Z) (m : bytes_mem) : bytes_mem :=
  match l with [] => m | c :: l' => put_bytes (a + 1) l' (put a c m) end.
(** The strings, from the end of the buffer down; [None]: they are too large. *)
Fixpoint copy_args (stack_buffer : Z) (args : list (list Z)) (string_ptr : Z) (argv_ptrs : list Z) (m : bytes_mem) : option (Z * list Z) * bytes_mem :=
  match args with
  | [] => (Some (string_ptr, argv_ptrs), m)
  | arg :: args' =>
      let string_ptr := string_ptr - (zlen arg + 1) in
      if string_ptr <? stack_buffer then (None, m)
      else copy_args stack_buffer args' string_ptr (argv_ptrs ++ [string_ptr]) (put_bytes string_ptr (arg ++ [0]) m)
  end.
(** [stack_ptr--; *stack_ptr = w] for each word. *)
Fixpoint push_words (ws : list Z) (stack_ptr : Z) (m : bytes_mem) : Z * bytes_mem :=
  match ws with
  | [] => (stack_ptr, m)
  | w :: ws' => push_words ws' (stack_ptr - 8) (put_bytes (stack_ptr - 8) (le64 w) m)
  end.
(** [argv_ptrs] has 16 places; [stale i] is what is read behind them. *)
Definition ptrs_read (stale : Z -> Z) (argc : nat) (argv_ptrs : list Z) : list Z :=
  map (fun i => match argv_ptrs !! i with Some p => p | None => stale (Z.of_nat i) end) (seq 0 argc).
(** The stack pointer in the buffer, and the memory. *)
Definition stack_image (stale : Z -> Z) (stack_buffer : Z) (argv : list (list Z)) (m : bytes_mem) : option Z * bytes_mem :=
  match copy_args stack_buffer (take 16 argv) (stack_buffer + STACK_BUFFER_SIZE) [] m with
  | (None, m) => (None, m)
  | (Some (string_ptr, argv_ptrs), m) =>
      let string_ptr := Z.land string_ptr (2 ^ 64 - 4) in
      let '(argv_addr, m) := push_words (0 :: rev (ptrs_read stale (length argv) argv_ptrs)) string_ptr m in
      let '(stack_ptr, m) := push_words [argv_addr; zlen argv] argv_addr m in
      (Some stack_ptr, m)
  end.
Definition data_size (stack_buffer stack_ptr : Z) : Z := STACK_BUFFER_SIZE - (stack_ptr - stack_buffer).
Definition user_rsp (stack_buffer stack_ptr : Z) : Z := Z.land (USER_STACK_TOP - data_size stack_buffer stack_ptr) (2 ^ 64 - 16).
Definition bytes_from (m : bytes_mem) (a n : Z) : list Z := map (fun i => m (a + Z.of_nat i)) (seq 0 (Z.to_nat n)).

(** ** The two functions *)
(** What the call of [thread_create_user] gets. *)
Record started := mk_started { st_name : list Z; st_entry : Z; st_rsp : Z; st_kernel_stack : Z }.
Section exec.
Context {F D C N E : Type} `{FileSystem F D C N E}.
Context (kmalloc_ok : Z -> bool) (beyond : list Z) (stale : Z -> Z).
(** The answers of [kmalloc] for the structure, the stack and the buffer, and
    of [thread_create_user]. *)
Record answers := mk_answers { a_proc : option Z; a_stack : option Z; a_buffer : option Z; a_thread : bool }.
Record xstate := mk_xstate { x_tab : ptable; x_live : gset Z; x_vmm : vmm; x_vfs : vfs F D C N; x_mem : bytes_mem; x_started : list started }.
Definition x_with_vmm (x : xstate) (s : vmm) : xstate := mk_xstate x.(x_tab) x.(x_live) s x.(x_vfs) x.(x_mem) x.(x_started).
Definition x_with_vfs (x : xstate) (v : vfs F D C N) : xstate := mk_xstate x.(x_tab) x.(x_live) x.(x_vmm) v x.(x_mem) x.(x_started).
Definition x_with_mem (x : xstate) (m : bytes_mem) : xstate := mk_xstate x.(x_tab) x.(x_live) x.(x_vmm) x.(x_vfs) m x.(x_started).
Definition x_with_tab (x : xstate) (t : ptable) : xstate := mk_xstate t x.(x_live) x.(x_vmm) x.(x_vfs) x.(x_mem) x.(x_started).
Definition x_kmalloc (a : Z) (x : xstate) : xstate := mk_xstate x.(x_tab) ({[a]} ∪ x.(x_live)) x.(x_vmm) x.(x_vfs) x.(x_mem) x.(x_started).
Definition x_kfree (a : Z) (x : xstate) : xstate := mk_xstate x.(x_tab) (x.(x_live) ∖ {[a]}) x.(x_vmm) x.(x_vfs) x.(x_mem) x.(x_started).
(** [vmm_free_directory(proc->pml4); kfree(kernel_stack); kfree(proc);] *)
Definition x_release (dir kernel_stack proc : Z) (x : xstate) : xstate :=
  x_kfree proc (x_kfree kernel_stack (x_with_vmm x (vmm_free_directory dir x.(x_vmm)))).
(** The structure, the stack, the pid and the directory: the common start. *)
Definition x_prepare (filename : list Z) (ans : answers) (x : xstate) : option (Z * Z * Z * Z) * xstate :=
  let '(valid, v) := elf_is_valid filename x.(x_vfs) in
  let x := x_with_vfs x v in
  if negb valid then (None, x)
  else
    match ans.(a_proc) with
    | None => (None, x)
    | Some proc =>
        let x := x_kmalloc proc x in
        match ans.(a_stack) with
        | None => (None, x_kfree proc x)
        | Some kernel_stack =>
            let x := x_kmalloc kernel_stack x in
            let pid := x.(x_tab).(next_pid) in
            let x := x_with_tab x (with_next_pid x.(x_tab) (u32 (pid + 1))) in
            let '(dir, s) := vmm_create_directory x.(x_vmm) in
            let x := x_with_vmm x s in
            if dir =? NULL then (None, x_kfree proc (x_kfree kernel_stack x)) else (Some (proc, kernel_stack, pid, dir), x)
        end
    end.
(** The thread, then the fields of the structure; [next] and [prev] keep what
    was there. *)
Definition x_start (filename : list Z) (ans : answers) (proc kernel_stack pid dir cr3 entry rsp : Z) (x : xstate) : bool * xstate :=
  let name := safe_strcpy (file_name filename filename) PROCESS_NAME_MAX in
  if negb ans.(a_thread) then (false, x_release dir kernel_stack proc x)
  else
    let old := proc_at x.(x_tab) proc in
    let p := mk_process pid name PROCESS_STATE_READY false 0 dir cr3 x.(x_tab).(current_process) None None None old.(pnext) old.(pprev) in
    let x := x_with_tab x (with_procs x.(x_tab) (<[proc := p]> x.(x_tab).(procs))) in
    (true, mk_xstate x.(x_tab) x.(x_live) x.(x_vmm) x.(x_vfs) x.(x_mem) (x.(x_started) ++ [mk_started name entry rsp kernel_stack])).
Definition process_execute (filename : list Z) (res0 : elf_load_result_t) (ans : answers) (x : xstate) : Z * xstate :=
  if negb x.(x_tab).(multitasking_enabled) then (-1, x)
  else
    match x_prepare filename ans x with
    | (None, x) => (-1, x)
    | (Some (proc, kernel_stack, pid, dir), x) =>
        let '(err, res, v, s) := elf_load_file kmalloc_ok beyond filename (Some dir) res0 x.(x_vfs) x.(x_vmm) in
        let x := x_with_vfs (x_with_vmm x s) v in
        if negb (err =? ELF_OK) then (-1, x_release dir kernel_stack proc x)
        else
          let '(ok, s) := user_stack (stack_page_execute dir) x.(x_vmm) in
          let x := x_with_vmm x s in
          if negb ok then (-1, x_release dir kernel_stack proc x)
          else
            let '(r, s) := vmm_copy_to_dir dir (USER_STACK_TOP - 16) (Some (le64 0 ++ le64 0)) 16 x.(x_vmm) in
            let x := x_with_vmm x s in
            if negb (r =? 0) then (-1, x_release dir kernel_stack proc x)
            else
              let '(ok, x) := x_start filename ans proc kernel_stack pid dir dir res.(entry_point) (USER_STACK_TOP - 16) x in
              (if ok then s32 pid else -1, x)
    end.
Definition process_exec_and_wait (filename : list Z) (argv : list (list Z)) (res0 : elf_load_result_t) (ans : answers) (x : xstate) : Z * xstate :=
  match x_prepare filename ans x with
  | (None, x) => (-1, x)
  | (Some (proc, kernel_stack, pid, dir), x) =>
      let cr3 := dir_pml4_phys x.(x_vmm) dir in
      let '(err, res, v, s) := elf_load_file kmalloc_ok beyond filename (Some dir) res0 x.(x_vfs) x.(x_vmm) in
      let x := x_with_vfs (x_with_vmm x s) v in
      if negb (err =? ELF_OK) then (-1, x_release dir kernel_stack proc x)
      else
        let '(ok, s) := user_stack (stack_page_wait dir) x.(x_vmm) in
        let x := x_with_vmm x s in
        if negb ok then (-1, x_release dir kernel_stack proc x)
        else
          match ans.(a_buffer) with
          | None => (-1, x_release dir kernel_stack proc x)
          | Some stack_buffer =>
              let x := x_kmalloc stack_buffer x in
              let '(image, m) := stack_image stale stack_buffer argv x.(x_mem) in
              let x := x_with_mem x m in
              match image with
              | None => (-1, x_release dir kernel_stack proc (x_kfree stack_buffer x))
              | Some stack_ptr =>
                  let size := data_size stack_buffer stack_ptr in
                  let rsp := user_rsp stack_buffer stack_ptr in
                  let '(r, s) := vmm_copy_to_dir dir rsp (Some (bytes_from x.(x_mem) stack_ptr size)) size x.(x_vmm) in
                  let x := x_with_vmm x s in
                  if negb (r =? 0) then (-1, x_release dir kernel_stack proc (x_kfree stack_buffer x))
                  else
                    let x := x_kfree stack_buffer x in
                    let '(ok, x) := x_start filename ans proc kernel_stack pid dir cr3 res.(entry_point) rsp x in
                    (if ok then 0 else -1, x)
              end
          end
  end.
End exec.

(** ** Failure gives everything back *)
Section outcome.
Context {F D C N E : Type} `{FileSystem F D C N E}.
Implicit Types x : xstate (F := F) (D := D) (C := C) (N := N).
(** As before but for the next pid, the memory and the file system. *)
Record abandoned x x' : Prop := mk_abandoned {
  ab_live : x'.(x_live) = x.(x_live);
  ab_started : x'.(x_started) = x.(x_started);
  ab_tab : exists n, x'.(x_tab) = with_next_pid x.(x_tab) n
}.
(** With the structure and the stack in use. *)
Record holding (proc st : Z) x x' : Prop := mk_holding {
  ho_live : x'.(x_live) = {[st]} ∪ ({[proc]} ∪ x.(x_live));
  ho_started : x'.(x_started) = x.(x_started);
  ho_tab : exists n, x'.(x_tab) = with_next_pid x.(x_tab) n
}.
(** The heap answers with blocks that are not in use. *)
Definition fresh_blocks (ans : answers) (live : gset Z) : Prop :=
  let l := option_list ans.(a_proc) ++ option_list ans.(a_stack) ++ option_list ans.(a_buffer) in NoDup l /\ forall a, a ∈ l -> a ∉ live.
Lemma next_pid_id t : with_next_pid t t.(next_pid) = t.
Proof. by destruct t. Qed.
Lemma abandoned_vfs x v : abandoned x (x_with_vfs x v).
Proof. split; [done..|]. exists x.(x_tab).(next_pid). by rewrite next_pid_id. Qed.
Lemma holding_vmm p st x x' s : holding p st x x' -> holding p st x (x_with_vmm x' s).
Proof. by intros [H1 H2 H3]. Qed.
Lemma holding_vfs p st x x' v : holding p st x x' -> holding p st x (x_with_vfs x' v).
Proof. by intros [H1 H2 H3]. Qed.
Lemma holding_mem p st x x' m : holding p st x x' -> holding p st x (x_with_mem x' m).
Proof. by intros [H1 H2 H3]. Qed.
Lemma release_abandoned p st x x' dir : p ∉ x.(x_live) -> st ∉ x.(x_live) -> holding p st x x' -> abandoned x (x_release dir st p x').
Proof.
  intros Hp Hs [H1 H2 H3]. split; [|done|done]. cbn. rewrite H1. set_solver.
Qed.
Lemma holding_buffer b p st x x' x'' : b ∉ x.(x_live) -> b <> p -> b <> st -> holding p st x x' ->
  x''.(x_live) = x_live (x_kmalloc b x') -> x''.(x_started) = x'.(x_started) -> x''.(x_tab) = x'.(x_tab) -> holding p st x (x_kfree b x'').
Proof. intros Hb Hp Hs [H1 H2 H3] E1 E2 E3. split; [|by rewrite <- H2|cbn; by rewrite E3]. cbn in *. rewrite E1, H1. set_solver. Qed.
Lemma fresh_pair ans live p st : fresh_blocks ans live -> ans.(a_proc) = Some p -> ans.(a_stack) = Some st -> (p ∉ live) /\ (st ∉ live) /\ p <> st.
Proof.
  intros [Hn Hf] E1 E2. rewrite E1, E2 in *. cbn [option_list app] in *. apply list.NoDup_cons in Hn as [Hn _]. split_and!; [apply Hf; by left|apply Hf; right; by left|].
  intros ->. apply Hn. by left.
Qed.
Lemma fresh_buffer ans live p st b : fresh_blocks ans live -> ans.(a_proc) = Some p -> ans.(a_stack) = Some st -> ans.(a_buffer) = Some b -> (b ∉ live) /\ b <> p /\ b <> st.
Proof.
  intros [Hn Hf] E1 E2 E3. rewrite E1, E2, E3 in *. cbn [option_list app] in *. apply list.NoDup_cons in Hn as [Hp Hn]. apply list.NoDup_cons in Hn as [Hs _].
  split_and!; [apply Hf; right; right; by left|intros ->; apply Hp; right; by left|intros ->; apply Hs; by left].
Qed.
Lemma prepare_outcome filename ans x : fresh_blocks ans x.(x_live) ->
  match x_prepare filename ans x with
  | (None, x') => abandoned x x'
  | (Some (p, st, pid, dir), x') => ans.(a_proc) = Some p /\ ans.(a_stack) = Some st /\ pid = x.(x_tab).(next_pid) /\ holding p st x x' /\ elf_is_valid filename x.(x_vfs) = (true, x'.(x_vfs))
  end.
Proof.
  intros Hf. unfold x_prepare. destruct (elf_is_valid filename (x_vfs x)) as [valid v]. destruct valid; cbn [negb]; [|apply abandoned_vfs].
  destruct (a_proc ans) as [p|] eqn:Ep; [|apply abandoned_vfs]. destruct (a_stack ans) as [st|] eqn:Es.
  - destruct (fresh_pair _ _ _ _ Hf Ep Es) as (Hp & Hs & Hps). cbn [x_vmm x_kmalloc x_with_vfs x_with_tab]. destruct (vmm_create_directory (x_vmm x)) as [dir s]. destruct (dir =? NULL).
    + split; [cbn; set_solver|done|by eexists].
    + split_and!; try done. split; [done|done|by eexists].
  - assert (Hp : p ∉ x.(x_live)). { destruct Hf as [_ Hf]. apply Hf. rewrite Ep. by left. }
    split; [cbn; set_solver|done|]. exists x.(x_tab).(next_pid). cbn. by rewrite next_pid_id.
Qed.
(** The table after a start: one more structure, which nothing in the list of
    processes refers to. *)
Definition new_program (filename : list Z) (t : ptable) (proc pid dir cr3 : Z) : process_t :=
  mk_process pid (safe_strcpy (file_name filename filename) PROCESS_NAME_MAX) PROCESS_STATE_READY false 0 dir cr3 t.(current_process) None None None (nx t proc) (pv t proc).
Record launched (filename : list Z) (proc st : Z) x x' : Prop := mk_launched {
  la_live : x'.(x_live) = {[st]} ∪ ({[proc]} ∪ x.(x_live));
  la_started : exists entry rsp, x'.(x_started) = x.(x_started) ++ [mk_started (safe_strcpy (file_name filename filename) PROCESS_NAME_MAX) entry rsp st];
  la_tab : exists n dir cr3, x'.(x_tab) = with_next_pid (with_procs x.(x_tab) (<[proc := new_program filename x.(x_tab) proc x.(x_tab).(next_pid) dir cr3]> x.(x_tab).(procs))) n
}.
Lemma start_outcome filename ans p st pid dir c e rsp x x' : p ∉ x.(x_live) -> st ∉ x.(x_live) -> holding p st x x' -> pid = x.(x_tab).(next_pid) ->
  let '(ok, x'') := x_start filename ans p st pid dir c e rsp x' in if ok : bool then launched filename p st x x'' else abandoned x x''.
Proof.
  intros Hp Hs Hh ->. unfold x_start. destruct (a_thread ans); cbn [negb]; [|by apply release_abandoned]. destruct Hh as [H1 H2 [n H3]]. split.
  - done.
  - exists e, rsp. cbn. by rewrite H2.
  - exists n, dir, c. cbn. by rewrite H3.
Qed.
Context (kmalloc_ok : Z -> bool) (beyond : list Z).
(** [process_execute]: its result is the pid. *)
Lemma execute_all_or_nothing filename res ans x : fresh_blocks ans x.(x_live) ->
  let '(r, x') := process_execute kmalloc_ok beyond filename res ans x in
  (r = s32 x.(x_tab).(next_pid) /\ exists proc st, ans.(a_proc) = Some proc /\ ans.(a_stack) = Some st /\ launched filename proc st x x') \/ (r = -1 /\ abandoned x x').
Proof.
  intros Hf. unfold process_execute. destruct (multitasking_enabled _); cbn [negb]; [|right; split; [done|]; split; [done..|]; exists x.(x_tab).(next_pid); by rewrite next_pid_id].
  pose proof (prepare_outcome filename ans x Hf) as Hp. destruct (x_prepare filename ans x) as [[[[[p st] pid] dir]|] x1]; [|by right].
  destruct Hp as (Ep & Es & Hpid & Hh & _). destruct (fresh_pair _ _ _ _ Hf Ep Es) as (Np & Ns & Nps).
  destruct (elf_load_file _ _ _ _ _ _ _) as [[[err r1] v] s1]. cbv zeta. apply (holding_vmm _ _ _ _ s1) in Hh. apply (holding_vfs _ _ _ _ v) in Hh.
  case_if; [right; split; [done|]; by apply release_abandoned|]. destruct (user_stack _ _) as [ok s2]. apply (holding_vmm _ _ _ _ s2) in Hh.
  destruct ok; cbn [negb]; [|right; split; [done|]; by apply release_abandoned].
  destruct (vmm_copy_to_dir _ _ _ _ _) as [r2 s3]. apply (holding_vmm _ _ _ _ s3) in Hh. case_if; [right; split; [done|]; by apply release_abandoned|].
  match goal with |- context [x_start _ _ _ _ _ _ ?c ?e ?rsp ?x2] => pose proof (start_outcome filename ans p st pid dir c e rsp x x2 Np Ns Hh Hpid) as Hst; destruct (x_start _ _ _ _ _ _ c e rsp x2) as [ok x3] end.
  destruct ok; [left; split; [by rewrite Hpid|]; by exists p, st|by right].
Qed.
(** A program that was started is not in the ring of processes: killing all the
    tasks does not reach it. *)
Theorem exec_outside_ring filename proc st x x' i rest fuel : launched filename proc st x x' -> ring x.(x_tab) i rest -> x.(x_tab).(procs) !! proc = None -> (length rest <= fuel)%nat ->
  ring x'.(x_tab) i rest /\ (proc_at (kill_all_user_tasks fuel x'.(x_tab)).2 proc).(pstate) = PROCESS_STATE_READY.
Proof.
  intros [_ _ (n & dir & c & Et)] R Hn Hf. rewrite Et. set (q := new_program _ _ _ _ _ _). destruct (ring_fresh proc q n _ i rest Hn R) as [Np R1]. split; [exact R1|].
  apply list.not_elem_of_cons in Np as [Npi Npr]. set (t1 := with_next_pid _ n) in *.
  assert (Hq : proc_at t1 proc = q) by (unfold t1, proc_at, with_next_pid, with_procs; cbn [procs]; by rewrite lookup_insert_eq).
  rewrite (kill_all_others fuel t1 i rest proc R1) by done. by rewrite Hq.
Qed.
End outcome.
