(* ===== verification/ExecSpec.v ===== *)
(** The stack that a program starts with, and a program that is started
    (process_exec_and_wait of src/kernel/process.c). *)
From Stdlib Require Import Strings.String Strings.Ascii.
From S2P Require Import Prelude Cstring Pmm Vmm Vfs Config ConfigSpec Elf Process Exec.

(** ** Bytes and words in the buffer *)
Lemma zlen_le64 v : zlen (le64 v) = 8.
Proof. done. Qed.
Lemma put_bytes_spec l : forall a m, only_in a (a + zlen l) m (put_bytes a l m) /\ bytes_in (put_bytes a l m) a l.
Proof.
  induction l as [|c l IH]; intros a m; [by split|]. rewrite zlen_cons. pose proof (zlen_nonneg l). cbn [put_bytes]. destruct (IH (a + 1) (put a c m)) as [O B].
  split; [|by eapply bytes_in_head]. apply (only_in_put a c); [lia|]. by rewrite Z.add_assoc.
Qed.
Lemma only_in_trans lo1 hi1 lo2 hi2 lo hi m1 m2 m3 : only_in lo1 hi1 m1 m2 -> only_in lo2 hi2 m2 m3 -> lo <= lo1 -> hi1 <= hi -> lo <= lo2 -> hi2 <= hi -> only_in lo hi m1 m3.
Proof. intros A B H1 H2 H3 H4 a Ha. rewrite B, A; [done|lia..]. Qed.
(** The words, the last one pushed first. *)
Definition words (ws : list Z) : list Z := concat (map le64 ws).
Lemma words_app l1 l2 : words (l1 ++ l2) = words l1 ++ words l2.
Proof. unfold words. by rewrite map_app, concat_app. Qed.
Lemma zlen_words ws : zlen (words ws) = 8 * zlen ws.
Proof. induction ws as [|w ws IH]; [done|]. change (words (w :: ws)) with (le64 w ++ words ws). rewrite zlen_app, zlen_le64, IH, zlen_cons. lia. Qed.
Lemma push_words_spec ws : forall sp m, let '(sp', m') := push_words ws sp m in
  sp' = sp - 8 * zlen ws /\ only_in sp' sp m m' /\ bytes_in m' sp' (words (rev ws)).
Proof.
  induction ws as [|w ws IH]; intros sp m; cbn [push_words]; [split; [change (zlen (@nil Z)) with 0; lia|by split]|].
  specialize (IH (sp - 8) (put_bytes (sp - 8) (le64 w) m)). destruct (push_words _ _ _) as [sp' m']. destruct IH as (-> & O & B). destruct (put_bytes_spec (le64 w) (sp - 8) m) as [O1 B1].
  rewrite zlen_cons. pose proof (zlen_nonneg ws). rewrite zlen_le64 in *. split; [lia|]. split; [by eapply only_in_trans; [exact O1|exact O|lia..]|].
  cbn [rev]. rewrite words_app. apply bytes_in_app. replace (sp - 8 * (1 + zlen ws)) with (sp - 8 - 8 * zlen ws) by lia. split; [done|].
  rewrite zlen_words. replace (zlen (rev ws)) with (zlen ws) by (unfold zlen; by rewrite length_rev). change (words [w]) with (le64 w ++ []). rewrite app_nil_r.
  replace (sp - 8 - 8 * zlen ws + 8 * zlen ws) with (sp - 8) by lia. eapply bytes_in_only; [exact O| |exact B1]. right. lia.
Qed.
(** ** The strings *)
Fixpoint room (args : list (list Z)) : Z := match args with [] => 0 | a :: args' => zlen a + 1 + room args' end.
Lemma room_nonneg args : 0 <= room args.
Proof. induction args as [|a args IH]; cbn [room]; [lia|]. pose proof (zlen_nonneg a). lia. Qed.
(** The strings are in [lo, hi). *)
Definition strings_in (m : bytes_mem) (lo hi : Z) (ptrs : list Z) (args : list (list Z)) : Prop :=
  Forall2 (fun p a => lo <= p /\ p + zlen a + 1 <= hi /\ bytes_in m p (a ++ [0])) ptrs args.
Lemma strings_in_only lo hi lo' hi' m m' ptrs args : strings_in m lo hi ptrs args -> only_in lo' hi' m m' -> disjoint_range lo hi lo' hi' -> strings_in m' lo hi ptrs args.
Proof.
  intros Hs O D. eapply list.Forall2_impl; [exact Hs|]. intros p a (H1 & H2 & H3). split_and!; [done..|]. eapply bytes_in_only; [exact O| |exact H3].
  rewrite zlen_app. change (zlen [0]) with 1. destruct D; [left|right]; lia.
Qed.
Lemma strings_in_widen lo hi lo' hi' m ptrs args : lo' <= lo -> hi <= hi' -> strings_in m lo hi ptrs args -> strings_in m lo' hi' ptrs args.
Proof. intros H1 H2 Hs. eapply list.Forall2_impl; [exact Hs|]. intros p a (A & B & C). split_and!; [lia..|done]. Qed.
Lemma copy_args_spec base args : forall sp ptrs m, room args <= sp - base -> exists ptrs' m',
  copy_args base args sp ptrs m = (Some (sp - room args, ptrs ++ ptrs'), m') /\ only_in (sp - room args) sp m m' /\ strings_in m' (sp - room args) sp ptrs' args.
Proof.
  induction args as [|a args IH]; intros sp ptrs m Hr; cbn [room copy_args] in *.
  - exists [], m. rewrite app_nil_r, Z.sub_0_r. split_and!; [done|done|constructor].
  - pose proof (room_nonneg args). pose proof (zlen_nonneg a). destruct (sp - (zlen a + 1) <? base) eqn:Eb; bool_hyps; [lia|].
    destruct (put_bytes_spec (a ++ [0]) (sp - (zlen a + 1)) m) as [O1 B1]. rewrite zlen_app in O1. change (zlen [0]) with 1 in O1.
    destruct (IH (sp - (zlen a + 1)) (ptrs ++ [sp - (zlen a + 1)]) (put_bytes (sp - (zlen a + 1)) (a ++ [0]) m)) as (ptrs' & m' & -> & O2 & S2); [lia|].
    exists ((sp - (zlen a + 1)) :: ptrs'), m'. rewrite <- app_assoc. replace (sp - (zlen a + 1) - room args) with (sp - (zlen a + 1 + room args)) in * by lia.
    split_and!; [done|by eapply only_in_trans; [exact O1|exact O2|lia..]|]. constructor; [|by eapply strings_in_widen; [| |exact S2]; lia]. split_and!; [lia..|].
    eapply bytes_in_only; [exact O2| |exact B1]. right. lia.
Qed.
Lemma ptrs_read_all stale ptrs n : length ptrs = n -> ptrs_read stale n ptrs = ptrs.
Proof.
  intros <-. unfold ptrs_read. apply list_eq_same_length with (n := length ptrs); [done|by rewrite length_map, length_seq|]. intros i x y Hi Hx Hy.
  apply list_lookup_fmap_Some in Hx as (j & -> & Hj). apply lookup_seq in Hj as [-> _]. cbn. by rewrite Hy.
Qed.
(** C32. The stack of a new program.  For at most 16 arguments that fit with
    their table in the buffer of 1024 bytes, all writes stay in the buffer; the
    stack pointer leads to argc, the address of the table, the pointers and the
    closing NULL, and pointer [i] leads to the text of argument [i] and its NUL.
    The copy in the program's address space begins at a multiple of 16 and ends
    within the pages of the user stack. *)
Theorem exec_stack_layout stale base argv m : 0 <= base -> base + STACK_BUFFER_SIZE < 2 ^ 64 -> (length argv <= 16)%nat ->
  room argv + 3 + 8 * (zlen argv + 3) <= STACK_BUFFER_SIZE ->
  exists sp ptrs m', stack_image stale base argv m = (Some sp, m') /\ base <= sp /\ only_in base (base + STACK_BUFFER_SIZE) m m' /\
    bytes_in m' sp (words (zlen argv :: sp + 16 :: ptrs ++ [0])) /\ strings_in m' base (base + STACK_BUFFER_SIZE) ptrs argv /\
    user_rsp base sp mod 16 = 0 /\ USER_STACK_TOP - USER_STACK_SIZE <= user_rsp base sp /\ user_rsp base sp + data_size base sp <= USER_STACK_TOP.
Proof.
  intros Hb He Hn Hr. unfold STACK_BUFFER_SIZE in *. pose proof (room_nonneg argv). pose proof (zlen_nonneg argv). unfold stack_image. rewrite take_ge by done.
  destruct (copy_args_spec base argv (base + STACK_BUFFER_SIZE) [] m) as (ptrs & m1 & -> & O1 & S1); [unfold STACK_BUFFER_SIZE; lia|]. cbn [app]. unfold STACK_BUFFER_SIZE in *.
  set (hi := base + 1024) in *. set (q := hi - room argv) in *. assert (Hq : Z.land q (2 ^ 64 - 4) = q - q mod 4) by (apply (land_align_down q 2); unfold is_u64; lia).
  rewrite Hq. pose proof (Z.mod_pos_bound q 4 ltac:(lia)). set (a := q - q mod 4) in *.
  assert (Lp : length ptrs = length argv) by (by eapply list.Forall2_length). rewrite ptrs_read_all by done.
  assert (Zr : zlen (0 :: rev ptrs) = zlen argv + 1) by (unfold zlen; cbn [length]; rewrite length_rev; lia).
  pose proof (push_words_spec (0 :: rev ptrs) a m1) as P1. destruct (push_words (0 :: rev ptrs) a m1) as [tb m2]. destruct P1 as (Et & O2 & B2). rewrite Zr in Et.
  pose proof (push_words_spec [tb; zlen argv] tb m2) as P2. destruct (push_words [tb; zlen argv] tb m2) as [sp m3]. destruct P2 as (Es & O3 & B3). change (zlen [tb; zlen argv]) with 2 in Es.
  exists sp, ptrs, m3. assert (Hsp : base <= sp) by lia.
  assert (Hrsp : user_rsp base sp = USER_STACK_TOP - data_size base sp - (USER_STACK_TOP - data_size base sp) mod 16).
  { apply (land_align_down _ 4); [lia|]. unfold is_u64, data_size, USER_STACK_TOP, STACK_BUFFER_SIZE. lia. }
  assert (Hd : 0 <= data_size base sp <= 1024) by (unfold data_size, STACK_BUFFER_SIZE; lia). pose proof (Z.mod_pos_bound (USER_STACK_TOP - data_size base sp) 16 ltac:(lia)).
  split_and!; [done|done| | | | | |].
  - eapply only_in_trans; [eapply (only_in_trans _ _ _ _ tb hi); [exact O1|exact O2|lia..]|exact O3|lia..].
  - change (words (zlen argv :: sp + 16 :: ptrs ++ [0])) with (words [zlen argv; sp + 16] ++ words (ptrs ++ [0])). apply bytes_in_app. rewrite zlen_words. change (zlen [zlen argv; sp + 16]) with 2.
    replace (sp + 16) with tb by lia. replace (sp + 8 * 2) with tb by lia. split; [exact B3|]. cbn [rev] in B2. rewrite rev_involutive in B2. eapply bytes_in_only; [exact O3|right; lia|exact B2].
  - eapply strings_in_widen; [| |eapply strings_in_only; [eapply strings_in_only; [exact S1|exact O2|]|exact O3|]]; [lia|lia|right; lia|right; lia].
  - rewrite Hrsp. rewrite Zminus_mod, Zmod_mod, Z.sub_diag. done.
  - rewrite Hrsp. unfold USER_STACK_TOP, USER_STACK_SIZE, PAGE_SIZE in *. lia.
  - rewrite Hrsp. lia.
Qed.
Definition heap_block : Z := 0xffff800000180000.
Lemma exec_stack_layout_witness : exists sp ptrs m', stack_image (fun _ => 0) heap_block [str "ls"; str "/"] (fun _ => 0) = (Some sp, m') /\
  heap_block <= sp /\ only_in heap_block (heap_block + STACK_BUFFER_SIZE) (fun _ => 0) m' /\ bytes_in m' sp (words (2 :: sp + 16 :: ptrs ++ [0])) /\
  strings_in m' heap_block (heap_block + STACK_BUFFER_SIZE) ptrs [str "ls"; str "/"] /\ user_rsp heap_block sp mod 16 = 0 /\
  USER_STACK_TOP - USER_STACK_SIZE <= user_rsp heap_block sp /\ user_rsp heap_block sp + data_size heap_block sp <= USER_STACK_TOP.
Proof. apply (exec_stack_layout (fun _ => 0) heap_block [str "ls"; str "/"] (fun _ => 0)); [by vm_compute..|cbn; lia|by vm_compute]. Defined.
(** The strings are checked against the size of the buffer, the table is not:
    one argument of 1010 characters fits, and the words are written below the
    buffer, over the heap block before it. *)
Example args_table_underflow : let '(sp, m) := stack_image (fun _ => 0) heap_block [replicate 1010 97] (fun _ => 255) in
  sp = Some (heap_block - 20) /\ bytes_from m (heap_block - 20) 20 = le64 1 ++ le64 (heap_block - 4) ++ take 4 (le64 (heap_block + 13)).
Proof. by vm_compute. Qed.
(** The pointers that the program finds on its stack are addresses in the
    kernel's buffer, which is freed before the program runs, not addresses in
    the copy on the user stack. *)
Example argv_kernel_pointers : let '(sp, m) := stack_image (fun _ => 0) heap_block [str "ls"] (fun _ => 0) in
  sp = Some (heap_block + 988) /\ bytes_from m (heap_block + 988) 36 = le64 1 ++ le64 (heap_block + 1004) ++ le64 (heap_block + 1021) ++ le64 0 ++ [0; 108; 115; 0].
Proof. by vm_compute. Qed.

(** ** All or nothing *)
Section outcome.
Context {F D C N E : Type} `{FileSystem F D C N E}.
Context (kmalloc_ok : Z -> bool) (beyond : list Z) (stale : Z -> Z).
End outcome.

(** ** A program that is started *)
(** An executable with one segment of four bytes at 0x400000. *)
Definition elf_image : list Z :=
  [0x7F; 69; 76; 70; 2; 1; 1; 0; 0; 0; 0; 0; 0; 0; 0; 0] ++ le16 2 ++ le16 62 ++ le32 1 ++ le64 0x400000 ++ le64 64 ++ le64 0 ++ le32 0 ++
  le16 64 ++ le16 56 ++ le16 1 ++ le16 0 ++ le16 0 ++ le16 0 ++
  le32 1 ++ le32 5 ++ le64 120 ++ le64 0x400000 ++ le64 0x400000 ++ le64 4 ++ le64 4 ++ le64 4096 ++ [0x90; 0x90; 0xEB; 0xFE].
Definition elf_vfs : vfs unit unit Ram.files Ram.node :=
  let v := (vfs_create (str "/config/prog") Ram.state).2 in
  let '(file, v) := vfs_open (str "/config/prog") 0 v in (vfs_close file (vfs_write file 0 elf_image v).2).2.
Definition exec_state : xstate := mk_xstate (init_multitasking (Some 100) 7 (str "kernel_idle") table0) ∅ demo_vmm elf_vfs (fun _ => 0) [].
Definition exec_answers : answers := mk_answers (Some 0x1000) (Some 0x2000) (Some heap_block) true.
Definition no_result : elf_load_result_t := mk_result 0 0 0 0.
Definition exec_run : Z * xstate := process_exec_and_wait (fun _ => true) [] (fun _ => 0) (str "/config/prog") [str "ls"; str "/"] no_result exec_answers exec_state.
(** The program is loaded, argc is at its stack pointer, its code at its entry,
    and its thread is created; the kernel keeps two blocks. *)
Definition user_word (s : vmm) (dir a : Z) : Z := load s (phys_to_virt s (vmm_get_phys_addr s dir a) + a mod PAGE_SIZE).
Example exec_runs :
  let x := exec_run.2 in let dir := (proc_at x.(x_tab) 0x1000).(pml4) in
  exec_run.1 = 0 /\ x.(x_started) = [mk_started (str "prog") 0x400000 0xBFFFEFD0 0x2000] /\ x.(x_live) = {[0x1000; 0x2000]} /\
  user_word x.(x_vmm) dir 0xBFFFEFD0 = 2 /\ user_word x.(x_vmm) dir 0x400000 = 0xFEEB9090.
Proof. by vm_compute. Qed.
(** A failure after the program was loaded gives the heap blocks back, but not
    the physical pages: freeing a directory frees its tables only. *)
Example exec_failure_leaks_pages :
  let x := (process_exec_and_wait (fun _ => true) [] (fun _ => 0) (str "/config/prog") [str "ls"] no_result (mk_answers (Some 0x1000) (Some 0x2000) None true) exec_state).2 in
  x.(x_live) = ∅ /\ x.(x_started) = [] /\ pmm_get_free_blocks x.(x_vmm).(v_pmm) < pmm_get_free_blocks demo_vmm.(v_pmm).
Proof. by vm_compute. Qed.
