(* ===== verification/Virtqueue.v ===== *)
(** The queues of a VirtIO device (src/drivers/virtio/virtio_transport.c and .h)
    and the network driver on top of them (src/drivers/net/virtio_net.c).

    A queue is memory that the driver shares with a device: a table of
    descriptors, the ring of those that are available to the device, and the
    ring of those it has used.  The registers of the three transports are not
    modelled: what the device answers is an argument.  The device itself is a
    relation, [dev_step]: it may take what is available and return what it
    holds, in any order. *)
From S2P Require Import Prelude.

Definition VIRTQ_DESC_F_NEXT : Z := 1.
Definition VIRTQ_DESC_F_WRITE : Z := 2.
Record VirtqDesc := mk_desc { d_addr : Z; d_len : Z; d_flags : Z; d_next : Z }.
Record VirtQueue := mk_vq {
  vq_index : Z;
  vq_size : Z;
  vq_desc : list VirtqDesc;
  avail_idx : Z;
  avail_ring : list Z;
  used_idx : Z;
  used_ring : list (Z * Z);  (** id and len *)
  desc_phys : Z;
  avail_phys : Z;
  used_phys : Z;
  free_head : Z;
  num_free : Z;
  last_used_idx : Z;
  buffers : list (option Z)
}.
Definition get {X} (d : X) (l : list X) (i : Z) : X := default d (l !! Z.to_nat i).
Definition no_desc : VirtqDesc := mk_desc 0 0 0 0.

(** ** Setting a queue up *)
Definition queue_size (max_size : Z) : Z := if max_size <? 256 then max_size else 256.
(** The sizes of VirtqDesc, VirtqAvail, VirtqUsed and VirtqUsedElem are 16, 4,
    4 and 8. *)
Definition desc_size (n : Z) : Z := n * 16.
Definition avail_size (n : Z) : Z := 4 + n * 2 + 2.
Definition used_size (n : Z) : Z := 4 + n * 8 + 2.
Definition page_up (x : Z) : Z := Z.land (x + 4095) (2 ^ 32 - 4096).
Definition used_offset (n : Z) : Z := page_up (desc_size n + avail_size n).
Definition total_size (n : Z) : Z := page_up (used_offset n + used_size n).
Definition free_chain (n : Z) : list VirtqDesc := map (fun i => mk_desc 0 0 0 (if Z.of_nat i =? n - 1 then 0 else Z.of_nat i + 1)) (seq 0 (Z.to_nat n)).
(** [mem] is what [pmm_alloc_blocks] returns for the pages of the queue, if
    anything, and [buffers_ok] the answer of [kmalloc]; the second result is the
    page frame number that the device is told. *)
Definition pci_setup_queue (index max_size : Z) (mem : option Z) (buffers_ok : bool) : option (VirtQueue * Z) :=
  if max_size =? 0 then None
  else
    let n := queue_size max_size in
    match mem with
    | None => None
    | Some queue_mem =>
        if negb buffers_ok then None
        else
          let phys := u32 queue_mem in
          Some (mk_vq index n (free_chain n) 0 (replicate (Z.to_nat n) 0) 0 (replicate (Z.to_nat n) (0, 0))
                  phys (u32 (phys + desc_size n)) (u32 (phys + used_offset n)) 0 n 0 (replicate (Z.to_nat n) None), phys / 4096)
    end.

(** ** Operations *)
Definition add_flags (vq : VirtQueue) (device_writable has_next : bool) : Z :=
  let flags := if device_writable then VIRTQ_DESC_F_WRITE else 0 in
  if has_next && (1 <? vq.(num_free)) then Z.lor flags VIRTQ_DESC_F_NEXT else flags.
Definition virtio_queue_add_buf (buf : option Z) (len : Z) (device_writable has_next : bool) (vq : VirtQueue) : Z * VirtQueue :=
  match buf with
  | None => (-1, vq)
  | Some b =>
      if vq.(num_free) =? 0 then (-1, vq)
      else
        let idx := vq.(free_head) in
        let d := get no_desc vq.(vq_desc) idx in
        let d := mk_desc (u32 b) len (add_flags vq device_writable has_next) d.(d_next) in
        (idx, mk_vq vq.(vq_index) vq.(vq_size) (<[Z.to_nat idx := d]> vq.(vq_desc)) (u16 (vq.(avail_idx) + 1))
                (<[Z.to_nat (vq.(avail_idx) mod vq.(vq_size)) := idx]> vq.(avail_ring)) vq.(used_idx) vq.(used_ring)
                vq.(desc_phys) vq.(avail_phys) vq.(used_phys) d.(d_next) (vq.(num_free) - 1) vq.(last_used_idx)
                (<[Z.to_nat idx := Some b]> vq.(buffers)))
  end.
Definition virtio_queue_has_used (vq : VirtQueue) : bool := negb (vq.(last_used_idx) =? vq.(used_idx)).
(** The buffer and the length; [Bad]: the id of the device is no index of the
    arrays. *)
Inductive got := Nothing | Bad | Got (buf : option Z) (len : Z).
Definition virtio_queue_get_used (vq : VirtQueue) : got * VirtQueue :=
  if negb (virtio_queue_has_used vq) then (Nothing, vq)
  else
    let elem := get (0, 0) vq.(used_ring) (vq.(last_used_idx) mod vq.(vq_size)) in
    let desc_idx := u16 elem.1 in
    if negb (desc_idx <? vq.(vq_size)) then (Bad, vq)
    else
      let d := get no_desc vq.(vq_desc) desc_idx in
      (Got (get None vq.(buffers) desc_idx) elem.2,
       mk_vq vq.(vq_index) vq.(vq_size) (<[Z.to_nat desc_idx := mk_desc d.(d_addr) d.(d_len) d.(d_flags) vq.(free_head)]> vq.(vq_desc))
         vq.(avail_idx) vq.(avail_ring) vq.(used_idx) vq.(used_ring) vq.(desc_phys) vq.(avail_phys) vq.(used_phys)
         desc_idx (u16 (vq.(num_free) + 1)) (u16 (vq.(last_used_idx) + 1)) (<[Z.to_nat desc_idx := None]> vq.(buffers))).

(** ** The network driver *)
Definition VIRTIO_NET_HDR_SIZE : Z := 10.
Definition RX_BUFFER_SIZE : Z := 2048.
Definition RX_BUFFER_COUNT : nat := 16.
(** [delivered] logs the frames given to the Ethernet layer (address and
    length), [freed] the buffers given back to the heap. *)
Record vnet := mk_vnet {
  rx_queue : VirtQueue; tx_queue : VirtQueue; rx_buffers : list (option Z);
  packets_rx : Z; packets_tx : Z; nerrors : Z; delivered : list (Z * Z); freed : list Z
}.
Definition with_rx (s : vnet) (q : VirtQueue) : vnet := mk_vnet q s.(tx_queue) s.(rx_buffers) s.(packets_rx) s.(packets_tx) s.(nerrors) s.(delivered) s.(freed).
Definition with_tx (s : vnet) (q : VirtQueue) (fs : list Z) : vnet := mk_vnet s.(rx_queue) q s.(rx_buffers) s.(packets_rx) s.(packets_tx) s.(nerrors) s.(delivered) fs.
Definition with_rx_buffer (s : vnet) (i : nat) (b : option Z) : vnet := mk_vnet s.(rx_queue) s.(tx_queue) (<[i := b]> s.(rx_buffers)) s.(packets_rx) s.(packets_tx) s.(nerrors) s.(delivered) s.(freed).
Definition count_error (s : vnet) : vnet := mk_vnet s.(rx_queue) s.(tx_queue) s.(rx_buffers) s.(packets_rx) s.(packets_tx) (u32 (s.(nerrors) + 1)) s.(delivered) s.(freed).
Definition count_sent (s : vnet) : vnet := mk_vnet s.(rx_queue) s.(tx_queue) s.(rx_buffers) s.(packets_rx) (u32 (s.(packets_tx) + 1)) s.(nerrors) s.(delivered) s.(freed).
Definition deliver (b len : Z) (s : vnet) : vnet := mk_vnet s.(rx_queue) s.(tx_queue) s.(rx_buffers) (u32 (s.(packets_rx) + 1)) s.(packets_tx) s.(nerrors) (s.(delivered) ++ [(b, len)]) s.(freed).
(** [kmalloc i] is the answer of the heap for the [i]-th buffer. *)
Fixpoint refill_loop (kmalloc : nat -> option Z) (n : nat) (i : nat) (s : vnet) : vnet :=
  match n with
  | O => s
  | S n' =>
      if negb (1 <=? s.(rx_queue).(num_free)) then s
      else
        let s := match s.(rx_buffers) !! i with Some (Some _) => s | _ => with_rx_buffer s i (kmalloc i) end in
        match s.(rx_buffers) !! i with
        | Some (Some b) =>
            let '(idx, q) := virtio_queue_add_buf (Some b) RX_BUFFER_SIZE true false s.(rx_queue) in
            if idx <? 0 then s else refill_loop kmalloc n' (S i) (with_rx s q)
        | _ => refill_loop kmalloc n' (S i) s
        end
  end.
Definition virtio_net_refill_rx (kmalloc : nat -> option Z) (s : vnet) : vnet := refill_loop kmalloc RX_BUFFER_COUNT 0 s.
(** [netif_up]: is there an interface?  [None]: the fuel was too little, or the
    device gave an id outside the arrays. *)
Fixpoint virtio_net_receive (fuel : nat) (netif_up : bool) (s : vnet) : option vnet :=
  match fuel with
  | O => None
  | S fuel' =>
      match virtio_queue_get_used s.(rx_queue) with
      | (Nothing, _) => Some s
      | (Bad, _) => None
      | (Got None _, q) => virtio_net_receive fuel' netif_up (with_rx s q)
      | (Got (Some b) len, q) =>
          let s := with_rx s q in
          if len <=? VIRTIO_NET_HDR_SIZE then virtio_net_receive fuel' netif_up s
          else
            let s := if netif_up then deliver (b + VIRTIO_NET_HDR_SIZE) (len - VIRTIO_NET_HDR_SIZE) s else s in
            virtio_net_receive fuel' netif_up (with_rx s (virtio_queue_add_buf (Some b) RX_BUFFER_SIZE true false s.(rx_queue)).2)
      end
  end.
(** The buffers that the device has sent are freed. *)
Fixpoint reclaim (fuel : nat) (s : vnet) : vnet :=
  match fuel with
  | O => s
  | S fuel' =>
      match virtio_queue_get_used s.(tx_queue) with
      | (Got b _, q) => reclaim fuel' (with_tx s q (s.(freed) ++ option_list b))
      | _ => s
      end
  end.
(** [buf] is the answer of [kmalloc] for the header and the data. *)
Definition virtio_netif_send (buf : option Z) (len : Z) (s : vnet) : Z * vnet :=
  let s := if s.(tx_queue).(num_free) <? 1 then reclaim (Z.to_nat s.(tx_queue).(vq_size)) s else s in
  if s.(tx_queue).(num_free) <? 1 then (-1, count_error s)
  else
    match buf with
    | None => (-1, count_error s)
    | Some b =>
        let '(idx, q) := virtio_queue_add_buf (Some b) (VIRTIO_NET_HDR_SIZE + len) false false s.(tx_queue) in
        if idx <? 0 then (-1, count_error (with_tx s s.(tx_queue) (s.(freed) ++ [b])))
        else (len, count_sent (with_tx s q s.(freed)))
    end.

(** ** The device *)
(** Its own index into the available ring, and the descriptors it holds. *)
Record device := mk_device { dev_idx : Z; held : list Z }.
Definition put_used (x len : Z) (vq : VirtQueue) : VirtQueue :=
  mk_vq vq.(vq_index) vq.(vq_size) vq.(vq_desc) vq.(avail_idx) vq.(avail_ring) (u16 (vq.(used_idx) + 1))
    (<[Z.to_nat (vq.(used_idx) mod vq.(vq_size)) := (x, len)]> vq.(used_ring)) vq.(desc_phys) vq.(avail_phys) vq.(used_phys)
    vq.(free_head) vq.(num_free) vq.(last_used_idx) vq.(buffers).
Inductive dev_step : VirtQueue * device -> VirtQueue * device -> Prop :=
| dev_take vq dv : dv.(dev_idx) <> vq.(avail_idx) ->
    dev_step (vq, dv) (vq, mk_device (u16 (dv.(dev_idx) + 1)) (dv.(held) ++ [get 0 vq.(avail_ring) (dv.(dev_idx) mod vq.(vq_size))]))
| dev_return vq i h1 x h2 len : dev_step (vq, mk_device i (h1 ++ x :: h2)) (put_used x len vq, mk_device i (h1 ++ h2)).

(** ** Rings *)
Lemma get_insert_eq {X} (d : X) l i v : 0 <= i < zlen l -> get d (<[Z.to_nat i := v]> l) i = v.
Proof. intros H. unfold get. rewrite list_lookup_insert_eq; [done|]. unfold zlen in H. lia. Qed.
Lemma get_insert_ne {X} (d : X) l i j v : 0 <= i -> 0 <= j -> i <> j -> get d (<[Z.to_nat i := v]> l) j = get d l j.
Proof. intros Hi Hj N. unfold get. rewrite list_lookup_insert_ne; [done|lia]. Qed.
Lemma zlen_insert {X} (l : list X) i v : zlen (<[i := v]> l) = zlen l.
Proof. unfold zlen. by rewrite length_insert. Qed.
(** Positions [i], [i+1], ... of a ring of [s] places hold [l]. *)
Definition ring_holds {X} (d : X) (s : Z) (ring : list X) (i : Z) (l : list X) : Prop := forall k x, l !! k = Some x -> get d ring ((i + Z.of_nat k) mod s) = x.
Lemma ring_push {X} (d : X) s ring i l v : 0 < s -> zlen ring = s -> zlen l < s -> ring_holds d s ring i l ->
  ring_holds d s (<[Z.to_nat ((i + zlen l) mod s) := v]> ring) i (l ++ [v]).
Proof.
  intros Hs Hr Hl H k x Hk. pose proof (Z.mod_pos_bound (i + zlen l) s Hs). pose proof (Z.mod_pos_bound (i + Z.of_nat k) s Hs).
  destruct (decide (k < length l)%nat) as [Lt|Ge].
  - rewrite lookup_app_l in Hk by done. rewrite get_insert_ne; [by apply H|lia|lia|]. intros E. symmetry in E. apply mod_near in E; [done|done|]. unfold zlen in *. lia.
  - rewrite lookup_app_r in Hk by lia. destruct (k - length l)%nat as [|n] eqn:En; [|done]. injection Hk as ->. replace (Z.of_nat k) with (zlen l) by (unfold zlen; lia). apply get_insert_eq. lia.
Qed.
Lemma ring_pop {X} (d : X) s ring i x l : ring_holds d s ring i (x :: l) -> get d ring (i mod s) = x /\ ring_holds d s ring (i + 1) l.
Proof.
  intros H. split; [specialize (H 0%nat x eq_refl); by rewrite Z.add_0_r in H|]. intros k y Hk. specialize (H (S k) y Hk). replace (i + 1 + Z.of_nat k) with (i + Z.of_nat (S k)) by lia. done.
Qed.
(** 16-bit indices and a size that divides 2^16. *)
Lemma index_mod a s : 0 < s -> (s | 2 ^ 16) -> (a mod 2 ^ 16) mod s = a mod s.
Proof. intros Hs D. by apply Z.mod_mod_divide. Qed.
Lemma u16_succ a : u16 (a mod 2 ^ 16 + 1) = (a + 1) mod 2 ^ 16.
Proof. unfold u16. by rewrite Zplus_mod_idemp_l. Qed.

(** ** The invariant *)
(** The free descriptors, from the head along [next]. *)
Fixpoint chain (nxt : Z -> Z) (h : Z) (l : list Z) : Prop := match l with [] => True | x :: l' => h = x /\ chain nxt (nxt x) l' end.
Lemma chain_ext nxt nxt' h l : (forall x, x ∈ l -> nxt' x = nxt x) -> chain nxt h l -> chain nxt' h l.
Proof.
  revert h. induction l as [|x l IH]; intros h He; [done|]. intros [-> C]. split; [done|]. rewrite He by (by left). apply IH; [|done]. intros y Hy. apply He. by right.
Qed.
Definition next_of (vq : VirtQueue) (i : Z) : Z := (get no_desc vq.(vq_desc) i).(d_next).
Definition indices (n : Z) : list Z := map Z.of_nat (seq 0 (Z.to_nat n)).
(** [fr] is free, [av] available and not yet taken by the device, [us] returned
    and not yet collected; [a], [d], [u], [l] count what was made available,
    taken, returned and collected. *)
Record queue_ok (vq : VirtQueue) (dv : device) (fr av : list Z) (us : list (Z * Z)) (a d u l : Z) : Prop := mk_queue_ok {
  q_size : 0 < vq.(vq_size) <= 256;
  q_pow : (vq.(vq_size) | 2 ^ 16);
  q_desc : zlen vq.(vq_desc) = vq.(vq_size);
  q_ring : zlen vq.(avail_ring) = vq.(vq_size);
  q_uring : zlen vq.(used_ring) = vq.(vq_size);
  q_bufs : zlen vq.(buffers) = vq.(vq_size);
  q_chain : chain (next_of vq) vq.(free_head) fr;
  q_free : vq.(num_free) = zlen fr;
  q_perm : fr ++ av ++ dv.(held) ++ map fst us ≡ₚ indices vq.(vq_size);
  q_avail : vq.(avail_idx) = a mod 2 ^ 16 /\ dv.(dev_idx) = d mod 2 ^ 16 /\ a = d + zlen av /\ ring_holds 0 vq.(vq_size) vq.(avail_ring) d av;
  q_used : vq.(used_idx) = u mod 2 ^ 16 /\ vq.(last_used_idx) = l mod 2 ^ 16 /\ u = l + zlen us /\ ring_holds (0, 0) vq.(vq_size) vq.(used_ring) l us;
  q_buf : forall i, i ∈ av ++ dv.(held) ++ map fst us -> is_Some (get None vq.(buffers) i)
}.
Definition in_flight (av : list Z) (dv : device) (us : list (Z * Z)) : list Z := av ++ dv.(held) ++ map fst us.
(** The buffers the driver has handed out and not got back. *)
Definition outstanding (vq : VirtQueue) (ids : list Z) : list Z := omap (get None vq.(buffers)) ids.
Lemma zlen_indices n : 0 <= n -> zlen (indices n) = n.
Proof. intros H. unfold zlen, indices. rewrite length_map, length_seq. lia. Qed.
Lemma in_indices n i : i ∈ indices n <-> 0 <= i < n.
Proof.
  unfold indices. rewrite list_elem_of_fmap. split.
  - intros (k & -> & Hk). apply elem_of_seq in Hk. lia.
  - intros H. exists (Z.to_nat i). split; [lia|]. apply elem_of_seq. lia.
Qed.
Lemma nodup_indices n : NoDup (indices n).
Proof. unfold indices. apply NoDup_fmap; [intros x y; lia|]. apply NoDup_seq. Qed.
Section invariant.
Context (vq : VirtQueue) (dv : device) (fr av : list Z) (us : list (Z * Z)) (a d u l : Z) (Q : queue_ok vq dv fr av us a d u l).
Lemma q_count : zlen fr + zlen av + zlen dv.(held) + zlen us = vq.(vq_size).
Proof using Q.
  pose proof (q_size _ _ _ _ _ _ _ _ _ Q). rewrite <- (zlen_indices vq.(vq_size)) by lia. unfold zlen. rewrite <- (q_perm _ _ _ _ _ _ _ _ _ Q), !length_app, length_map. lia.
Qed.
Lemma q_range i : i ∈ fr ++ in_flight av dv us -> 0 <= i < vq.(vq_size).
Proof using Q. intros H. apply in_indices. by rewrite <- (q_perm _ _ _ _ _ _ _ _ _ Q). Qed.
Lemma q_nodup : NoDup (fr ++ in_flight av dv us).
Proof using Q. unfold in_flight. rewrite (q_perm _ _ _ _ _ _ _ _ _ Q). apply nodup_indices. Qed.
(** A free descriptor becomes available. *)
Lemma add_buf_ok b len w n : vq.(num_free) <> 0 -> exists x fr', fr = x :: fr' /\
  let '(r, vq') := virtio_queue_add_buf (Some b) len w n vq in
  r = x /\ queue_ok vq' dv fr' (av ++ [x]) us (a + 1) d u l /\ get None vq'.(buffers) x = Some b /\ (forall i, 0 <= i -> i <> x -> get None vq'.(buffers) i = get None vq.(buffers) i).
Proof using Q.
  intros Hn. pose proof q_count as Hc. pose proof q_range as Hr. pose proof q_nodup as Hd. destruct Q as [Q1 Q2 Q3 Q4 Q5 Q6 Q7 Q8 Q9 (A1 & A2 & A3 & A4) (U1 & U2 & U3 & U4) Q12].
  destruct fr as [|x fr']; [done|]. exists x, fr'. split; [done|]. cbn [virtio_queue_add_buf]. rewrite (proj2 (Z.eqb_neq _ _) Hn). destruct Q7 as [Eh C]. rewrite Eh in *. rewrite zlen_cons in *.
  pose proof (zlen_nonneg av). pose proof (zlen_nonneg fr'). pose proof (zlen_nonneg us). pose proof (zlen_nonneg (held dv)). assert (Hx : 0 <= x < vq_size vq) by (apply Hr; by left).
  cbn [app] in Hd. apply list.NoDup_cons in Hd as [Nx Hd].
  assert (Hbx : get None (<[Z.to_nat x := Some b]> (buffers vq)) x = Some b) by (apply get_insert_eq; lia).
  assert (Hbo : forall i, 0 <= i -> i <> x -> get None (<[Z.to_nat x := Some b]> (buffers vq)) i = get None (buffers vq) i) by (intros i Hi Ni; apply get_insert_ne; lia).
  split; [done|]. split; [|split; done]. split; cbn [vq_size vq_desc avail_ring used_ring buffers free_head num_free avail_idx used_idx last_used_idx]; rewrite ?zlen_insert; try done.
  - eapply chain_ext; [|exact C]. intros y Hy. unfold next_of. cbn [vq_desc]. rewrite get_insert_ne; [done|lia| |].
    + apply Hr. right. apply elem_of_app. by left.
    + intros ->. apply Nx. apply elem_of_app. by left.
  - lia.
  - rewrite <- Q9. rewrite <- app_assoc. cbn [app]. rewrite <- Permutation_middle. rewrite <- Permutation_middle. done.
  - split_and!; [rewrite A1; apply u16_succ|done|rewrite zlen_app; change (zlen [x]) with 1; lia|]. rewrite A1, index_mod, A3 by (lia || done). apply ring_push; [lia|done|lia|done].
  - intros i Hi. destruct (decide (i = x)) as [->|Ni]; [by rewrite Hbx|]. assert (Hi' : i ∈ in_flight av dv us) by (unfold in_flight; rewrite <- app_assoc in Hi; cbn [app] in Hi; rewrite elem_of_app, list.elem_of_cons in Hi; rewrite elem_of_app; tauto).
    rewrite Hbo; [by apply Q12|apply Hr; right; apply elem_of_app; by right|done].
Qed.
(** The device takes the oldest available descriptor. *)
Lemma take_ok : dv.(dev_idx) <> vq.(avail_idx) -> exists x av', av = x :: av' /\ get 0 vq.(avail_ring) (dv.(dev_idx) mod vq.(vq_size)) = x /\
  queue_ok vq (mk_device (u16 (dv.(dev_idx) + 1)) (dv.(held) ++ [x])) fr av' us a (d + 1) u l.
Proof using Q.
  intros Hn. destruct Q as [Q1 Q2 Q3 Q4 Q5 Q6 Q7 Q8 Q9 (A1 & A2 & A3 & A4) (U1 & U2 & U3 & U4) Q12]. destruct av as [|x av'].
  { rewrite A1, A2, A3 in Hn. change (zlen (@nil Z)) with 0 in Hn. rewrite Z.add_0_r in Hn. done. }
  apply ring_pop in A4 as [Ex A4]. exists x, av'. rewrite zlen_cons in A3. split; [done|]. split; [by rewrite A2, index_mod by (lia || done)|].
  split; try done; cbn [held dev_idx].
  - rewrite <- Q9. cbn [app]. rewrite <- app_assoc. cbn [app]. f_equiv. rewrite <- Permutation_middle. rewrite <- Permutation_middle. done.
  - split_and!; [done|rewrite A2; apply u16_succ|lia|done].
  - intros i Hi. apply Q12. rewrite <- app_assoc in Hi. cbn [app] in *. rewrite !elem_of_app, !list.elem_of_cons in *. rewrite !elem_of_app. tauto.
Qed.
End invariant.
(** The device returns a descriptor that it holds. *)
Lemma return_ok vq i h1 x h2 len fr av us a d u l : queue_ok vq (mk_device i (h1 ++ x :: h2)) fr av us a d u l ->
  queue_ok (put_used x len vq) (mk_device i (h1 ++ h2)) fr av (us ++ [(x, len)]) a d (u + 1) l.
Proof.
  intros Q. pose proof (q_count _ _ _ _ _ _ _ _ _ Q) as Hc. destruct Q as [Q1 Q2 Q3 Q4 Q5 Q6 Q7 Q8 Q9 (A1 & A2 & A3 & A4) (U1 & U2 & U3 & U4) Q12].
  cbn [held] in *. unfold zlen in Hc. rewrite length_app in Hc. cbn [length] in Hc.
  assert (Hp : (h1 ++ h2) ++ map fst (us ++ [(x, len)]) ≡ₚ (h1 ++ x :: h2) ++ map fst us).
  { rewrite map_app. cbn [map fst]. rewrite <- (Permutation_middle h1 h2 x). rewrite app_assoc. rewrite (Permutation_app_comm _ [x]). done. }
  split; cbn [held dev_idx put_used vq_size vq_desc avail_ring used_ring buffers free_head num_free avail_idx used_idx last_used_idx]; rewrite ?zlen_insert; try done.
  - rewrite <- Q9. by do 2 f_equiv.
  - split_and!; [rewrite U1; apply u16_succ|done|rewrite zlen_app; change (zlen [(x, len)]) with 1; lia|]. rewrite U1, index_mod, U3 by (lia || done). apply ring_push; [lia|done|unfold zlen; lia|done].
  - intros j Hj. apply Q12. rewrite elem_of_app in *. by rewrite <- Hp.
Qed.
(** The driver collects the oldest returned descriptor. *)
Lemma get_ok vq dv fr av us a d u l : queue_ok vq dv fr av us a d u l ->
  match us with
  | [] => virtio_queue_get_used vq = (Nothing, vq)
  | (x, len) :: us' => exists b, get None vq.(buffers) x = Some b /\
      let '(g, vq') := virtio_queue_get_used vq in
      g = Got (Some b) len /\ queue_ok vq' dv (x :: fr) av us' a d u (l + 1) /\ (forall i, 0 <= i -> i <> x -> get None vq'.(buffers) i = get None vq.(buffers) i)
  end.
Proof.
  intros Q. pose proof (q_count _ _ _ _ _ _ _ _ _ Q) as Hc. pose proof (q_range _ _ _ _ _ _ _ _ _ Q) as Hr. pose proof (q_nodup _ _ _ _ _ _ _ _ _ Q) as Hd.
  destruct Q as [Q1 Q2 Q3 Q4 Q5 Q6 Q7 Q8 Q9 (A1 & A2 & A3 & A4) (U1 & U2 & U3 & U4) Q12].
  pose proof (zlen_nonneg av). pose proof (zlen_nonneg fr). pose proof (zlen_nonneg us). pose proof (zlen_nonneg (held dv)).
  unfold virtio_queue_get_used, virtio_queue_has_used. rewrite U1, U2, U3 in *. destruct us as [|[x len] us'].
  { change (zlen (@nil (Z * Z))) with 0. by rewrite Z.add_0_r, Z.eqb_refl. }
  assert (Hx : 0 <= x < vq_size vq). { apply Hr. unfold in_flight. cbn [map fst]. rewrite !elem_of_app. right. right. right. by left. }
  destruct (Q12 x) as [b Hb]. { cbn [map fst]. rewrite !elem_of_app. right. right. by left. }
  exists b. split; [done|]. rewrite zlen_cons in *. pose proof (zlen_nonneg us').
  rewrite (proj2 (Z.eqb_neq _ _)) by (apply mod_near; lia). cbn [negb]. rewrite index_mod by (lia || done). apply ring_pop in U4 as [-> U4]. cbn [fst snd].
  replace (u16 x) with x by (unfold u16; rewrite Z.mod_small; lia). rewrite (proj2 (Z.ltb_lt _ _)) by lia. cbn [negb]. rewrite Hb. split; [done|].
  assert (Hnd : (x ∉ fr) /\ forall i, i ∈ av ++ held dv ++ map fst us' -> i <> x).
  { unfold in_flight in Hd. cbn [map fst] in Hd. assert (Hp : fr ++ av ++ held dv ++ x :: map fst us' ≡ₚ x :: fr ++ av ++ held dv ++ map fst us') by (by rewrite <- !Permutation_middle).
    rewrite Hp in Hd. apply list.NoDup_cons in Hd as [Nx _]. split; [intros Hi; apply Nx; apply elem_of_app; by left|]. intros i Hi ->. apply Nx. apply elem_of_app. by right. }
  destruct Hnd as [Nf Ni]. split; [|intros i Hi N; apply get_insert_ne; lia].
  split; cbn [vq_size vq_desc avail_ring used_ring buffers free_head num_free avail_idx used_idx last_used_idx]; rewrite ?zlen_insert; try done.
  - split; [done|]. unfold next_of at 2. cbn [vq_desc]. rewrite get_insert_eq by lia. cbn [d_next]. eapply chain_ext; [|exact Q7]. intros y Hy. unfold next_of. cbn [vq_desc].
    assert (0 <= y < vq_size vq) by (apply Hr; apply elem_of_app; by left). rewrite get_insert_ne; [done|lia|lia|]. intros ->. done.
  - rewrite zlen_cons, Q8. unfold u16. rewrite Z.mod_small; lia.
  - rewrite <- Q9. cbn [map fst app]. by rewrite <- !Permutation_middle.
  - split_and!; [done|apply u16_succ|lia|done].
  - intros i Hi. rewrite get_insert_ne; [apply Q12|lia| |by apply not_eq_sym, Ni].
    + cbn [map fst]. rewrite !elem_of_app in *. rewrite list.elem_of_cons. tauto.
    + apply Hr. unfold in_flight. cbn [map fst]. rewrite !elem_of_app in *. rewrite list.elem_of_cons. tauto.
Qed.
(** ** A queue in use *)
Lemma chain_indices nxt n : forall k h, (forall i, h <= i < h + Z.of_nat k - 1 -> nxt i = i + 1) -> n = Z.to_nat h -> 0 <= h -> chain nxt h (map Z.of_nat (seq n k)).
Proof.
  revert n. intros n k. revert n. induction k as [|k IH]; intros n h Hn -> Hh; [done|]. cbn [seq map chain]. split; [lia|]. destruct k as [|k]; [done|].
  rewrite Z2Nat.id by lia. rewrite Hn by lia. apply IH; [intros i Hi; apply Hn; lia|lia|lia].
Qed.
Lemma get_free_chain n i : 0 <= i < n -> get no_desc (free_chain n) i = mk_desc 0 0 0 (if i =? n - 1 then 0 else i + 1).
Proof.
  intros Hi. unfold get, free_chain. rewrite list_lookup_fmap. rewrite lookup_seq_lt by lia. cbn. by rewrite Z2Nat.id by lia.
Qed.
Lemma setup_ok index max_size mem vq pfn : 0 < max_size -> (queue_size max_size | 2 ^ 16) -> pci_setup_queue index max_size mem true = Some (vq, pfn) ->
  queue_ok vq (mk_device 0 []) (indices vq.(vq_size)) [] [] 0 0 0 0.
Proof.
  intros Hm Hp. unfold pci_setup_queue. destruct (max_size =? 0) eqn:E0; [done|]. destruct mem as [a|]; [|done]. cbn [negb]. intros [= <- _].
  assert (Hs : 0 < queue_size max_size <= 256) by (unfold queue_size; destruct (max_size <? 256) eqn:E; bool_hyps; lia). set (n := queue_size max_size) in *.
  assert (Hrep : forall X (x : X), zlen (replicate (Z.to_nat n) x) = n) by (intros X x; unfold zlen; rewrite length_replicate; lia).
  split; cbn [vq_size vq_desc avail_ring used_ring buffers free_head num_free avail_idx used_idx last_used_idx held dev_idx]; try done; try (by apply Hrep).
  - unfold free_chain, zlen. rewrite length_map, length_seq. lia.
  - apply chain_indices; [|done|lia]. intros i Hi. unfold next_of. cbn [vq_desc]. rewrite get_free_chain by lia. cbn [d_next]. destruct (i =? n - 1) eqn:E; bool_hyps; lia.
  - by rewrite zlen_indices by lia.
  - cbn [app map]. by rewrite app_nil_r.
  - intros i Hi. by apply elem_of_nil in Hi.
Qed.
(** The driver adds and collects, the device does its steps; the lists log the
    buffers that went in and came out. *)
Inductive queue_step : VirtQueue * device * list Z * list Z -> VirtQueue * device * list Z * list Z -> Prop :=
| qs_add vq vq' dv added collected b len w n r : virtio_queue_add_buf (Some b) len w n vq = (r, vq') -> r <> -1 ->
    queue_step (vq, dv, added, collected) (vq', dv, b :: added, collected)
| qs_device vq dv vq' dv' added collected : dev_step (vq, dv) (vq', dv') -> queue_step (vq, dv, added, collected) (vq', dv', added, collected)
| qs_get vq vq' dv added collected b len : virtio_queue_get_used vq = (Got b len, vq') -> queue_step (vq, dv, added, collected) (vq', dv, added, option_list b ++ collected).
Definition accounts (st : VirtQueue * device * list Z * list Z) : Prop :=
  let '(vq, dv, added, collected) := st in
  exists fr av us a d u l, queue_ok vq dv fr av us a d u l /\ added ≡ₚ collected ++ outstanding vq (in_flight av dv us).
Lemma outstanding_ext vq vq' ids : (forall i, i ∈ ids -> get None vq'.(buffers) i = get None vq.(buffers) i) -> outstanding vq' ids = outstanding vq ids.
Proof.
  induction ids as [|i ids IH]; intros He; [done|]. unfold outstanding in *. cbn. rewrite He by (by left). destruct (get None (buffers vq) i); rewrite IH; try done; intros j Hj; apply He; by right.
Qed.
Lemma outstanding_perm vq l1 l2 : l1 ≡ₚ l2 -> outstanding vq l1 ≡ₚ outstanding vq l2.
Proof. intros H. unfold outstanding. by rewrite H. Qed.
Lemma step_accounts st st' : queue_step st st' -> accounts st -> accounts st'.
Proof.
  intros St. destruct St as [vq vq' dv added collected b len w n r Ha Hr|vq dv vq' dv' added collected Hd|vq vq' dv added collected b len Hg]; intros (fr & av & us & a & d & u & l & Q & P).
  - assert (Hn : num_free vq <> 0). { intros E0. cbn in Ha. rewrite E0 in Ha. cbn in Ha. congruence. }
    destruct (add_buf_ok _ _ _ _ _ _ _ _ _ Q b len w n Hn) as (x & fr' & -> & Hadd). rewrite Ha in Hadd. destruct Hadd as (-> & Q' & Hx & Ho).
    exists fr', (av ++ [x]), us, (a + 1), d, u, l. split; [done|]. rewrite P. assert (Hp : in_flight (av ++ [x]) dv us ≡ₚ x :: in_flight av dv us) by (unfold in_flight; rewrite <- app_assoc; cbn [app]; by rewrite <- Permutation_middle).
    rewrite (outstanding_perm _ _ _ Hp). unfold outstanding at 2. cbn [omap list_omap]. rewrite Hx. fold (outstanding vq' (in_flight av dv us)).
    rewrite (outstanding_ext vq vq'); [by rewrite Permutation_middle|]. pose proof (q_nodup _ _ _ _ _ _ _ _ _ Q) as Hnd. cbn [app] in Hnd. apply list.NoDup_cons in Hnd as [Nx _].
    intros i Hi. apply Ho; [apply (q_range _ _ _ _ _ _ _ _ _ Q); right; apply elem_of_app; by right|]. intros ->. apply Nx. apply elem_of_app. by right.
  - inversion Hd as [vq0 dv0 Hne Eq1 Eq2|vq0 i h1 x h2 len Eq1 Eq2]; subst.
    + destruct (take_ok _ _ _ _ _ _ _ _ _ Q Hne) as (x & av' & -> & Ex & Q'). rewrite Ex in *. exists fr, av', us, a, (d + 1), u, l. split; [done|]. rewrite P. f_equiv. apply outstanding_perm.
      unfold in_flight. cbn [held app]. rewrite <- app_assoc. cbn [app]. rewrite <- !Permutation_middle. done.
    + exists fr, av, (us ++ [(x, len)]), a, d, (u + 1), l. split; [by apply return_ok|]. rewrite P. f_equiv. rewrite (outstanding_ext vq (put_used x len vq)) by done. apply outstanding_perm.
      unfold in_flight. cbn [held]. f_equiv. rewrite map_app. cbn [map fst]. rewrite <- (Permutation_middle h1 h2 x). rewrite (app_assoc (h1 ++ h2)), (Permutation_app_comm _ [x]). done.
  - pose proof (get_ok _ _ _ _ _ _ _ _ _ Q) as Hget. destruct us as [|[x n] us']; [congruence|]. destruct Hget as (b' & Hb & Hget). rewrite Hg in Hget. destruct Hget as ([= -> ->] & Q' & Ho).
    exists (x :: fr), av, us', a, d, u, (l + 1). split; [done|]. rewrite P. cbn [option_list app].
    assert (Hp : in_flight av dv ((x, n) :: us') ≡ₚ x :: in_flight av dv us') by (unfold in_flight; cbn [map fst]; by rewrite <- !Permutation_middle).
    rewrite (outstanding_perm _ _ _ Hp). unfold outstanding at 1. cbn [omap list_omap]. rewrite Hb. fold (outstanding vq (in_flight av dv us')).
    rewrite (outstanding_ext vq vq'); [by rewrite <- Permutation_middle|]. pose proof (q_nodup _ _ _ _ _ _ _ _ _ Q) as Hnd. rewrite Hp, <- Permutation_middle in Hnd. apply list.NoDup_cons in Hnd as [Nx _].
    intros i Hi. apply Ho; [apply (q_range _ _ _ _ _ _ _ _ _ Q); apply elem_of_app; right; rewrite Hp; by right|]. intros ->. apply Nx. apply elem_of_app. by right.
Qed.
Lemma outstanding_all vq ids : (forall i, i ∈ ids -> is_Some (get None vq.(buffers) i)) -> zlen (outstanding vq ids) = zlen ids.
Proof.
  unfold outstanding. induction ids as [|i ids IH]; intros H; [done|]. cbn [omap list_omap]. destruct (H i) as [b ->]; [by left|]. rewrite !zlen_cons, IH; [done|]. intros j Hj. apply H. by right.
Qed.
Lemma rtc_accounts st st' : rtc queue_step st st' -> accounts st -> accounts st'.
Proof. induction 1 as [|s1 s2 s3 Hs _ IH]; [done|]. intros Ha. apply IH. by eapply step_accounts. Qed.

(** ** Theorems *)
(** C34. Every buffer that is given to a device comes back once.  From a queue
    whose size divides 2^16, under any interleaving of the driver and a device
    that returns only what it took: the buffers that were added are those that
    were collected and [out], one for each descriptor that is not free; what is
    collected next, if there is anything, is one of [out], never a null pointer
    and never outside the arrays, whatever the 16-bit indices have wrapped. *)
Theorem virtq_exactly_once index max_size mem vq0 pfn vq dv added collected :
  0 < max_size -> (queue_size max_size | 2 ^ 16) -> pci_setup_queue index max_size mem true = Some (vq0, pfn) ->
  rtc queue_step (vq0, mk_device 0 [], [], []) (vq, dv, added, collected) ->
  exists out, added ≡ₚ collected ++ out /\ zlen out = vq.(vq_size) - vq.(num_free) /\
    let '(g, vq') := virtio_queue_get_used vq in g = Nothing \/ exists b len, g = Got (Some b) len /\ b ∈ out /\ vq'.(num_free) = vq.(num_free) + 1.
Proof.
  intros Hm Hp Hs Hr. apply rtc_accounts in Hr.
  2:{ exists (indices vq0.(vq_size)), [], [], 0, 0, 0, 0. split; [by eapply setup_ok|done]. }
  destruct Hr as (fr & av & us & a & d & u & l & Q & P). exists (outstanding vq (in_flight av dv us)). split; [done|].
  pose proof (q_count _ _ _ _ _ _ _ _ _ Q) as Hc. split.
  - rewrite outstanding_all by (apply (q_buf _ _ _ _ _ _ _ _ _ Q)). unfold in_flight. rewrite (q_free _ _ _ _ _ _ _ _ _ Q). unfold zlen in *. rewrite !length_app, length_map. lia.
  - pose proof (get_ok _ _ _ _ _ _ _ _ _ Q) as Hg. destruct us as [|[x n] us']; [rewrite Hg; by left|]. destruct Hg as (b & Hb & Hg). destruct (virtio_queue_get_used vq) as [g vq']. destruct Hg as (-> & Q' & _).
    right. exists b, n. split; [done|]. split; [|rewrite (q_free _ _ _ _ _ _ _ _ _ Q'), (q_free _ _ _ _ _ _ _ _ _ Q), zlen_cons; lia]. unfold outstanding. apply list_elem_of_omap. exists x. split; [|done].
    unfold in_flight. cbn [map fst]. rewrite !elem_of_app. right. right. by left.
Qed.
Definition queue4 : VirtQueue := match pci_setup_queue 0 4 (Some 0x200000) true with Some (vq, _) => vq | None => mk_vq 0 0 [] 0 [] 0 [] 0 0 0 0 0 0 [] end.
Definition added2 : VirtQueue := (virtio_queue_add_buf (Some 0x8000) 10 true false (virtio_queue_add_buf (Some 0x7000) 10 true false queue4).2).2.
Lemma virtq_exactly_once_witness : exists out, [0x8000; 0x7000] ≡ₚ [] ++ out /\ zlen out = 4 - 2 /\
  let '(g, vq') := virtio_queue_get_used (put_used 0 60 added2) in g = Nothing \/ exists b len, g = Got (Some b) len /\ b ∈ out /\ vq'.(num_free) = 2 + 1.
Proof.
  apply (virtq_exactly_once 0 4 (Some 0x200000) queue4 512 (put_used 0 60 added2) (mk_device 1 []) [0x8000; 0x7000] []).
  - reflexivity.
  - exists 16384. reflexivity.
  - reflexivity.
  - eapply rtc_l; [eapply (qs_add _ _ _ _ _ 0x7000 10 true false 0); [reflexivity|done]|]. eapply rtc_l; [eapply (qs_add _ _ _ _ _ 0x8000 10 true false 1); [reflexivity|done]|].
    eapply rtc_l; [eapply qs_device, dev_take; done|]. eapply rtc_l; [eapply qs_device; eapply (dev_return _ _ [] 0 [] 60)|]. vm_compute. apply rtc_refl.
Defined.
(** At most 256 sizes: they are checked one by one. *)
Definition layout_ok (n : Z) : Prop :=
  desc_size n + avail_size n <= used_offset n /\ used_offset n mod 4096 = 0 /\ used_offset n + used_size n <= total_size n /\ total_size n mod 4096 = 0 /\ total_size n <= 3 * 4096.
#[export] Instance layout_dec n : Decision (layout_ok n).
Proof. unfold layout_ok. apply _. Defined.
(** The parts of a queue: the tables lie one behind the other within the pages
    that are allocated, and the ring that the device writes begins a page. *)
Theorem virtq_layout max_size : 0 < max_size ->
  layout_ok (queue_size max_size).
Proof.
  intros Hm. set (n := queue_size max_size). assert (Hn : 0 < n <= 256) by (unfold n, queue_size; destruct (max_size <? 256) eqn:E; bool_hyps; lia). generalize dependent n. clear. intros n Hn.
  pose proof (proj1 (Forall_forall layout_ok (map (fun i => Z.of_nat i + 1) (seq 0 256)))) as Hall. apply Hall.
  - apply (bool_decide_eq_true_1 _). vm_compute. reflexivity.
  - apply in_map_iff. exists (Z.to_nat (n - 1)). split; [lia|]. apply in_seq. lia.
Qed.
(** ** Receiving *)
Definition long (e : Z * Z) : bool := VIRTIO_NET_HDR_SIZE <? e.2.
(** The frames in the buffers that the device has returned. *)
Definition frames (vq : VirtQueue) (us : list (Z * Z)) : list (Z * Z) :=
  omap (fun e => (fun b => (b + VIRTIO_NET_HDR_SIZE, e.2 - VIRTIO_NET_HDR_SIZE)) <$> get None vq.(buffers) e.1) (List.filter long us).
Lemma frames_ext vq vq' us : (forall i, i ∈ map fst us -> get None vq'.(buffers) i = get None vq.(buffers) i) -> frames vq' us = frames vq us.
Proof.
  unfold frames. induction us as [|[x len] us IH]; intros He; [done|]. assert (IH' := IH (fun i Hi => He i (list_elem_of_further _ _ _ Hi))). cbn [List.filter]. destruct (long (x, len)); [|done].
  cbn [omap list_omap fst snd]. rewrite He by (cbn [map fst]; by left). destruct (get None (buffers vq) x); cbn; by rewrite IH'.
Qed.
Lemma frames_cons vq x len us : frames vq ((x, len) :: us) =
  if long (x, len) then match get None vq.(buffers) x with Some b => (b + VIRTIO_NET_HDR_SIZE, len - VIRTIO_NET_HDR_SIZE) :: frames vq us | None => frames vq us end else frames vq us.
Proof. unfold frames. cbn [List.filter]. destruct (long (x, len)); [|done]. cbn [omap list_omap fst snd]. by destruct (get None (buffers vq) x). Qed.
(** What is left after receiving. *)
Record received (s s' : vnet) (dv : device) (fr av : list Z) (us : list (Z * Z)) : Prop := mk_received {
  rc_frames : s'.(delivered) = s.(delivered) ++ frames s.(rx_queue) us;
  rc_queue : exists fr' a d u l, queue_ok s'.(rx_queue) dv fr' (av ++ map fst (List.filter long us)) [] a d u l /\
               zlen fr' = zlen fr + zlen (List.filter (fun e => negb (long e)) us);
  rc_rest : s'.(tx_queue) = s.(tx_queue) /\ s'.(rx_buffers) = s.(rx_buffers) /\ s'.(freed) = s.(freed)
}.
Lemma receive_loop_spec us : forall s dv fr av a d u l fuel, queue_ok s.(rx_queue) dv fr av us a d u l -> (length us < fuel)%nat ->
  exists s', virtio_net_receive fuel true s = Some s' /\ received s s' dv fr av us.
Proof.
  induction us as [|[x len] us IH]; intros s dv fr av a d u l [|fuel] Q Hf; cbn [length] in Hf; try lia; cbn [virtio_net_receive]; pose proof (get_ok _ _ _ _ _ _ _ _ _ Q) as Hg.
  - rewrite Hg. exists s. split; [done|]. split; [by rewrite app_nil_r| |done]. exists fr, a, d, u, l. cbn [List.filter map]. rewrite app_nil_r. split; [done|]. change (zlen (@nil (Z * Z))) with 0. lia.
  - destruct Hg as (b & Hb & Hg). pose proof (q_nodup _ _ _ _ _ _ _ _ _ Q) as Hnd. pose proof (q_range _ _ _ _ _ _ _ _ _ Q) as Hr.
    assert (Hp : fr ++ in_flight av dv ((x, len) :: us) ≡ₚ x :: fr ++ in_flight av dv us) by (unfold in_flight; cbn [map fst]; by rewrite <- !Permutation_middle).
    rewrite Hp in Hnd. apply list.NoDup_cons in Hnd as [Nx _].
    assert (Hu : forall i, i ∈ map fst us -> 0 <= i /\ i <> x).
    { intros i Hi. assert (Hi' : i ∈ fr ++ in_flight av dv us) by (unfold in_flight; rewrite !elem_of_app; tauto). split; [apply Hr; rewrite Hp; by right|]. intros ->. done. }
    destruct (virtio_queue_get_used (rx_queue s)) as [g q]. destruct Hg as (-> & Q1 & Ho). assert (Hframes : frames q us = frames (rx_queue s) us) by (apply frames_ext; intros i Hi; apply Ho; by apply Hu).
    assert (El : (len <=? VIRTIO_NET_HDR_SIZE) = negb (long (x, len))) by (unfold long; cbn [snd]; by rewrite Z.leb_antisym). rewrite El. destruct (long (x, len)) eqn:Elong; cbn [negb].
    + cbv zeta. set (s1 := deliver (b + VIRTIO_NET_HDR_SIZE) (len - VIRTIO_NET_HDR_SIZE) (with_rx s q)). change (rx_queue s1) with q.
      destruct (add_buf_ok _ _ _ _ _ _ _ _ _ Q1 b RX_BUFFER_SIZE true false) as (x' & fr' & [= <- <-] & Hadd). { rewrite (q_free _ _ _ _ _ _ _ _ _ Q1), zlen_cons. pose proof (zlen_nonneg fr). lia. }
      destruct (virtio_queue_add_buf _ _ _ _ _) as [r q2]. destruct Hadd as (-> & Q2 & Hx & Ho2). cbn [snd].
      destruct (IH (with_rx s1 q2) dv fr (av ++ [x]) _ _ _ _ fuel Q2) as (s' & -> & [R1 R2 R3]); [lia|]. exists s'. split; [done|]. split; [|destruct R2 as (f & a' & d' & u' & l' & Q3 & Z3)|done].
      * rewrite R1. unfold s1. cbn [with_rx deliver rx_queue delivered]. rewrite frames_cons, Elong, Hb, <- app_assoc. cbn [app]. do 2 f_equal.
        rewrite <- Hframes. apply frames_ext. intros i Hi. apply Ho2; by apply Hu.
      * exists f, a', d', u', l'. cbn [List.filter]. rewrite Elong. cbn [map fst negb]. rewrite <- app_assoc in Q3. cbn [app] in Q3. split; [exact Q3|lia].
    + destruct (IH (with_rx s q) dv (x :: fr) av _ _ _ _ fuel Q1) as (s' & -> & [R1 R2 R3]); [lia|]. exists s'. split; [done|]. split; [|destruct R2 as (f & a' & d' & u' & l' & Q3 & Z3)|done].
      * rewrite R1. cbn [with_rx rx_queue delivered]. f_equal. by rewrite Hframes, frames_cons, Elong.
      * exists f, a', d', u', l'. cbn [List.filter]. rewrite Elong. cbn [map fst negb]. split; [exact Q3|]. rewrite !zlen_cons in *. lia.
Qed.
(** A frame of at most the header's length is dropped together with its buffer:
    the queue has one free descriptor more and one buffer less each time. *)
Theorem short_frame_loses_buffer s dv fr av x len a d u l : queue_ok s.(rx_queue) dv fr av [(x, len)] a d u l -> len <= VIRTIO_NET_HDR_SIZE ->
  exists s', virtio_net_receive 2 true s = Some s' /\ s'.(rx_queue).(num_free) = s.(rx_queue).(num_free) + 1 /\ s'.(delivered) = s.(delivered).
Proof.
  intros Q Hl. destruct (receive_loop_spec _ s dv fr av a d u l 2 Q) as (s' & -> & [R1 (f & a' & d' & u' & l' & Q' & Z') _]); [cbn; lia|]. exists s'. split; [done|].
  assert (El : long (x, len) = false) by (unfold long; cbn; lia). unfold frames in R1. cbn [List.filter] in *. rewrite El in *. cbn in R1. rewrite app_nil_r in R1.
  split; [|done]. rewrite (q_free _ _ _ _ _ _ _ _ _ Q), (q_free _ _ _ _ _ _ _ _ _ Q'), Z'. cbn. done.
Qed.
(** A buffer whose element carries an id outside the arrays is read anyway. *)
Example virtq_id_unchecked : (virtio_queue_get_used (put_used 4 60 added2)).1 = Bad.
Proof. by vm_compute. Qed.
