(* ===== verification/Input.v ===== *)
(** Keyboard and mouse (src/kernel/keyboard.c, src/kernel/keymap.c,
    src/kernel/mouse.c): the state machine that turns scan codes into
    characters, the ring buffer they go through, and the packets of the mouse.

    A byte read from an I/O port is an argument.  Waiting for a character
    (keyboard_getchar) is its non-blocking part here; the semaphore it waits on
    is in Sync.  Scrolling the console is left out. *)
From S2P Require Import Prelude.

(** ** Layouts *)
Definition MAX_KEYMAPS : nat := 8.
Definition DEAD_KEY_CIRCUMFLEX : Z := 0xF0.
Definition DEAD_KEY_DIAERESIS : Z := 0xF1.
Definition DEAD_KEY_GRAVE : Z := 0xF2.
Definition DEAD_KEY_TILDE : Z := 0xF3.
Record keymap_t := mk_keymap { km_name : list Z; km_normal : list Z; km_shift : list Z; km_altgr : list Z }.
#[export] Instance keymap_eq : EqDecision keymap_t.
Proof. solve_decision. Defined.
Definition keymap_qwerty_us : keymap_t := mk_keymap [113; 119; 101; 114; 116; 121]
  ([0; 27; 49; 50; 51; 52; 53; 54; 55; 56; 57; 48; 45; 61; 8; 9; 113; 119; 101; 114; 116; 121; 117; 105; 111; 112; 91; 93; 10; 0; 97; 115; 100; 102; 103; 
   104; 106; 107; 108; 59; 39; 96; 0; 92; 122; 120; 99; 118; 98; 110; 109; 44; 46; 47; 0; 42; 0; 32; 0; 0; 0; 0; 0; 0; 0; 0; 0; 0; 0; 0; 0; 0; 0; 0; 
   45; 0; 0; 0; 43] ++ replicate 49 0)
  ([0; 27; 33; 64; 35; 36; 37; 94; 38; 42; 40; 41; 95; 43; 8; 9; 81; 87; 69; 82; 84; 89; 85; 73; 79; 80; 123; 125; 10; 0; 65; 83; 68; 70; 71; 72; 74; 75; 
   76; 58; 34; 126; 0; 124; 90; 88; 67; 86; 66; 78; 77; 60; 62; 63; 0; 42; 0; 32; 0; 0; 0; 0; 0; 0; 0; 0; 0; 0; 0; 0; 0; 0; 0; 0; 45; 0; 0; 0; 43] ++ replicate 49 0)
  (replicate 128 0).
Definition keymap_azerty_fr : keymap_t := mk_keymap [97; 122; 101; 114; 116; 121]
  ([0; 27; 38; 130; 34; 39; 40; 45; 138; 95; 135; 133; 41; 61; 8; 9; 97; 122; 101; 114; 116; 121; 117; 105; 111; 112; DEAD_KEY_CIRCUMFLEX; 36; 10; 0; 
   113; 115; 100; 102; 103; 104; 106; 107; 108; 109; 151; 42; 0; 42; 119; 120; 99; 118; 98; 110; 44; 59; 58; 33; 0; 42; 0; 32; 0; 0; 0; 0; 0; 0; 0; 0; 
   0; 0; 0; 0; 0; 0; 0; 0; 45; 0; 0; 0; 43; 0; 0; 0; 0; 0; 0; 0; 60] ++ replicate 41 0)
  ([0; 27; 49; 50; 51; 52; 53; 54; 55; 56; 57; 48; 46; 43; 8; 9; 65; 90; 69; 82; 84; 89; 85; 73; 79; 80; DEAD_KEY_DIAERESIS; 35; 10; 0; 81; 83; 68; 70; 
   71; 72; 74; 75; 76; 77; 37; 156; 0; 124; 87; 88; 67; 86; 66; 78; 63; 46; 47; 33; 0; 42; 0; 32; 0; 0; 0; 0; 0; 0; 0; 0; 0; 0; 0; 0; 0; 0; 0; 0; 45; 
   0; 0; 0; 43; 0; 0; 0; 0; 0; 0; 0; 62] ++ replicate 41 0)
  ([0; 0; 0; 126; 35; 123; 91; 124; 96; 92; 94; 64; 93; 125] ++ replicate 114 0).
Record keymaps := mk_keymaps { current_keymap : keymap_t; registered_keymaps : list keymap_t }.
(** A layout is known by its contents here: two with the same tables and name
    are the same object. *)
Definition keymap_register (map : keymap_t) (s : keymaps) : bool * keymaps :=
  if (MAX_KEYMAPS <=? length s.(registered_keymaps))%nat then (false, s)
  else if bool_decide (map ∈ s.(registered_keymaps)) then (true, s)
  else (true, mk_keymaps s.(current_keymap) (s.(registered_keymaps) ++ [map])).
Definition keymap_set (map : option keymap_t) (s : keymaps) : keymaps :=
  match map with Some m => mk_keymaps m s.(registered_keymaps) | None => s end.
Definition keymap_init (s : keymaps) : keymaps :=
  let s := mk_keymaps s.(current_keymap) [] in
  let s := (keymap_register keymap_qwerty_us s).2 in
  let s := (keymap_register keymap_azerty_fr s).2 in
  mk_keymaps keymap_qwerty_us s.(registered_keymaps).
Definition keymap_find_by_name (name : list Z) (s : keymaps) : option keymap_t := List.find (fun k => bool_decide (k.(km_name) = name)) s.(registered_keymaps).
Fixpoint combine (table : list (Z * Z)) (c : Z) : Z := match table with [] => c | (k, v) :: table' => if c =? k then v else combine table' c end.
Definition circumflex_table : list (Z * Z) := [(97, 0x83); (101, 0x88); (105, 0x8C); (111, 0x93); (117, 0x96); (65, 0x83); (69, 0x88); (73, 0x8C); (79, 0x93); (85, 0x96); (32, 0x5E)].
Definition diaeresis_table : list (Z * Z) := [(97, 0x84); (101, 0x89); (105, 0x8B); (111, 0x94); (117, 0x81); (121, 0x98); (65, 0x8E); (69, 0x89); (73, 0x8B); (79, 0x99); (85, 0x9A); (32, 0x22)].
Definition grave_table : list (Z * Z) := [(97, 0x85); (101, 0x8A); (105, 0x8D); (111, 0x95); (117, 0x97); (65, 0x85); (69, 0x8A); (73, 0x8D); (79, 0x95); (85, 0x97); (32, 0x60)].
Definition tilde_table : list (Z * Z) := [(110, 0xA4); (78, 0xA5); (97, 0x61); (111, 0x6F); (65, 0x41); (79, 0x4F); (32, 0x7E)].
Definition keymap_resolve_dead_key (dead_key c : Z) : Z :=
  if dead_key =? DEAD_KEY_CIRCUMFLEX then combine circumflex_table c
  else if dead_key =? DEAD_KEY_DIAERESIS then combine diaeresis_table c
  else if dead_key =? DEAD_KEY_GRAVE then combine grave_table c
  else if dead_key =? DEAD_KEY_TILDE then combine tilde_table c
  else c.

(** ** Keyboard *)
Definition KEYBOARD_BUFFER_SIZE : Z := 256.
Definition KEY_UP : Z := 0x80.
Definition KEY_DOWN : Z := 0x81.
Definition KEY_LEFT : Z := 0x82.
Definition KEY_RIGHT : Z := 0x83.
Definition KEY_CTRL_C : Z := 0x03.
Definition KEY_CTRL_D : Z := 0x04.
Record keyboard := mk_keyboard {
  ctrl_pressed : bool; shift_pressed : bool; alt_pressed : bool; altgr_pressed : bool; capslock_active : bool; e0_prefix : bool;
  pending_dead_key : Z;
  keyboard_buffer : list Z; kb_head : Z; kb_tail : Z;
  kb_maps : keymaps
}.
Definition with_mods (s : keyboard) (ctrl shift alt altgr caps e0 : bool) : keyboard :=
  mk_keyboard ctrl shift alt altgr caps e0 s.(pending_dead_key) s.(keyboard_buffer) s.(kb_head) s.(kb_tail) s.(kb_maps).
Definition set_ctrl (v : bool) (s : keyboard) : keyboard := with_mods s v s.(shift_pressed) s.(alt_pressed) s.(altgr_pressed) s.(capslock_active) s.(e0_prefix).
Definition set_shift (v : bool) (s : keyboard) : keyboard := with_mods s s.(ctrl_pressed) v s.(alt_pressed) s.(altgr_pressed) s.(capslock_active) s.(e0_prefix).
Definition set_alt (v : bool) (s : keyboard) : keyboard := with_mods s s.(ctrl_pressed) s.(shift_pressed) v s.(altgr_pressed) s.(capslock_active) s.(e0_prefix).
Definition set_altgr (v : bool) (s : keyboard) : keyboard := with_mods s s.(ctrl_pressed) s.(shift_pressed) s.(alt_pressed) v s.(capslock_active) s.(e0_prefix).
Definition set_caps (v : bool) (s : keyboard) : keyboard := with_mods s s.(ctrl_pressed) s.(shift_pressed) s.(alt_pressed) s.(altgr_pressed) v s.(e0_prefix).
Definition set_e0 (v : bool) (s : keyboard) : keyboard := with_mods s s.(ctrl_pressed) s.(shift_pressed) s.(alt_pressed) s.(altgr_pressed) s.(capslock_active) v.
Definition with_buffer (s : keyboard) (buf : list Z) (h t : Z) : keyboard :=
  mk_keyboard s.(ctrl_pressed) s.(shift_pressed) s.(alt_pressed) s.(altgr_pressed) s.(capslock_active) s.(e0_prefix) s.(pending_dead_key) buf h t s.(kb_maps).
Definition set_dead (v : Z) (s : keyboard) : keyboard :=
  mk_keyboard s.(ctrl_pressed) s.(shift_pressed) s.(alt_pressed) s.(altgr_pressed) s.(capslock_active) s.(e0_prefix) v s.(keyboard_buffer) s.(kb_head) s.(kb_tail) s.(kb_maps).
Definition set_maps (v : keymaps) (s : keyboard) : keyboard :=
  mk_keyboard s.(ctrl_pressed) s.(shift_pressed) s.(alt_pressed) s.(altgr_pressed) s.(capslock_active) s.(e0_prefix) s.(pending_dead_key) s.(keyboard_buffer) s.(kb_head) s.(kb_tail) v.
Definition keyboard_buffer_put (c : Z) (s : keyboard) : keyboard :=
  let next_head := (s.(kb_head) + 1) mod KEYBOARD_BUFFER_SIZE in
  if next_head =? s.(kb_tail) then s else with_buffer s (wr s.(keyboard_buffer) s.(kb_head) c) next_head s.(kb_tail).
Definition keyboard_buffer_get (s : keyboard) : Z * keyboard :=
  if s.(kb_head) =? s.(kb_tail) then (0, s)
  else (rd0 s.(keyboard_buffer) s.(kb_tail), with_buffer s s.(keyboard_buffer) s.(kb_head) ((s.(kb_tail) + 1) mod KEYBOARD_BUFFER_SIZE)).
Definition keyboard_has_char (s : keyboard) : bool := negb (s.(kb_head) =? s.(kb_tail)).
Definition keyboard_clear_buffer (s : keyboard) : keyboard := with_buffer s s.(keyboard_buffer) 0 0.
Definition keyboard_getchar_nonblock (s : keyboard) : Z * keyboard := if keyboard_has_char s then keyboard_buffer_get s else (0, s).
Definition keyboard_set_layout (name : list Z) (s : keyboard) : bool * keyboard :=
  match keymap_find_by_name name s.(kb_maps) with
  | Some km => (true, set_dead 0 (set_maps (keymap_set (Some km) s.(kb_maps)) s))
  | None => (false, s)
  end.
(** The character of the active layout under the modifiers. *)
Definition key_char (scancode : Z) (s : keyboard) : Z :=
  let km := s.(kb_maps).(current_keymap) in
  if s.(altgr_pressed) && negb (rd0 km.(km_altgr) scancode =? 0) then rd0 km.(km_altgr) scancode
  else if s.(shift_pressed) then rd0 km.(km_shift) scancode else rd0 km.(km_normal) scancode.
Definition apply_caps (c : Z) (s : keyboard) : Z :=
  if (97 <=? c) && (c <=? 122) then if xorb s.(capslock_active) s.(shift_pressed) then c - 32 else c
  else if (65 <=? c) && (c <=? 90) then if s.(capslock_active) then c + 32 else c
  else c.
Definition normal_key (scancode : Z) (s : keyboard) : keyboard :=
  let c := key_char scancode s in
  if c =? 0 then s
  else if (DEAD_KEY_CIRCUMFLEX <=? c) && (c <=? DEAD_KEY_TILDE) then set_dead c s
  else if s.(ctrl_pressed) && ((c =? 99) || (c =? 67)) then keyboard_buffer_put KEY_CTRL_C s
  else if s.(ctrl_pressed) && ((c =? 100) || (c =? 68)) then keyboard_buffer_put KEY_CTRL_D s
  else
    let '(c, s) := if negb (s.(pending_dead_key) =? 0) then (keymap_resolve_dead_key s.(pending_dead_key) c, set_dead 0 s) else (c, s) in
    keyboard_buffer_put (apply_caps c s) s.
Definition key_released (scancode : Z) (s : keyboard) : keyboard :=
  let released := Z.land scancode 0x7F in
  if s.(e0_prefix) then set_e0 false (if released =? 0x38 then set_altgr false s else s)
  else if released =? 0x1D then set_ctrl false s
  else if (released =? 0x2A) || (released =? 0x36) then set_shift false s
  else if released =? 0x38 then set_alt false s
  else s.
Definition key_pressed (scancode : Z) (s : keyboard) : keyboard :=
  if scancode =? 0x1D then set_ctrl true s
  else if (scancode =? 0x2A) || (scancode =? 0x36) then set_shift true s
  else if scancode =? 0x38 then set_alt true s
  else if scancode =? 0x3A then set_caps (negb s.(capslock_active)) s
  else if scancode =? 0x48 then keyboard_buffer_put KEY_UP s
  else if scancode =? 0x50 then keyboard_buffer_put KEY_DOWN s
  else if scancode =? 0x4B then keyboard_buffer_put KEY_LEFT s
  else if scancode =? 0x4D then keyboard_buffer_put KEY_RIGHT s
  else if (scancode =? 0x49) || (scancode =? 0x51) then s
  else normal_key scancode s.
Definition keyboard_handler_c (scancode : Z) (s : keyboard) : keyboard :=
  if scancode =? 0xE0 then set_e0 true s
  else if negb (Z.land scancode 0x80 =? 0) then key_released scancode s
  else if s.(e0_prefix) && (scancode =? 0x38) then set_e0 false (set_altgr true s)
  else key_pressed scancode (if s.(e0_prefix) then set_e0 false s else s).

(** ** Mouse *)
Record mouse := mk_mouse {
  m_x : Z; m_y : Z; m_dx : Z; m_dy : Z; m_scroll : Z; m_buttons : Z; m_buttons_changed : Z;
  g_initialized : bool; g_enabled : bool;
  g_screen_width : Z; g_screen_height : Z;
  g_packet : list Z; g_packet_index : Z; g_packet_size : Z
}.
Definition with_packet (s : mouse) (p : list Z) (i : Z) : mouse :=
  mk_mouse s.(m_x) s.(m_y) s.(m_dx) s.(m_dy) s.(m_scroll) s.(m_buttons) s.(m_buttons_changed) s.(g_initialized) s.(g_enabled) s.(g_screen_width) s.(g_screen_height) p i s.(g_packet_size).
Definition with_xy (s : mouse) (x y : Z) : mouse :=
  mk_mouse x y s.(m_dx) s.(m_dy) s.(m_scroll) s.(m_buttons) s.(m_buttons_changed) s.(g_initialized) s.(g_enabled) s.(g_screen_width) s.(g_screen_height) s.(g_packet) s.(g_packet_index) s.(g_packet_size).
Definition s8 (x : Z) : Z := (x + 128) mod 256 - 128.
Definition bit (x m : Z) : bool := negb (Z.land x m =? 0).
(** [int32_t d = byte; if (sign) d |= 0xFFFFFF00;] *)
Definition delta (byte : Z) (sign : bool) : Z := s32 (if sign then Z.lor byte 0xFFFFFF00 else byte).
Definition clip_hi (v limit : Z) : Z := if (0 <? limit) && (s32 limit <=? v) then s32 (s32 limit - 1) else v.
Definition clip_lo (v : Z) : Z := if v <? 0 then 0 else v.
Definition mouse_process_packet (s : mouse) : mouse :=
  let flags := rd0 s.(g_packet) 0 in
  if negb (bit flags 0x08) then with_packet s s.(g_packet) 0
  else
    let buttons := Z.land flags 0x07 in
    let dx := delta (rd0 s.(g_packet) 1) (bit flags 0x10) in
    let dy := s32 (- delta (rd0 s.(g_packet) 2) (bit flags 0x20)) in
    let scroll := if s.(g_packet_size) =? 4 then let w := s8 (rd0 s.(g_packet) 3) in if 0 <? w then 1 else if w <? 0 then -1 else 0 else 0 in
    let dx := if bit flags 0x40 then 0 else dx in
    let dy := if bit flags 0x80 then 0 else dy in
    mk_mouse (clip_hi (clip_lo (s32 (s.(m_x) + dx))) s.(g_screen_width)) (clip_hi (clip_lo (s32 (s.(m_y) + dy))) s.(g_screen_height)) dx dy scroll buttons
      (Z.lxor s.(m_buttons) buttons) s.(g_initialized) s.(g_enabled) s.(g_screen_width) s.(g_screen_height) s.(g_packet) s.(g_packet_index) s.(g_packet_size).
(** [status] and [data]: what the two ports read. *)
Definition mouse_irq_handler (status data : Z) (s : mouse) : mouse :=
  if negb (bit status 0x01) then s
  else if negb (bit status 0x20) then s
  else if negb s.(g_initialized) || negb s.(g_enabled) then s
  else if (s.(g_packet_index) =? 0) && negb (bit data 0x08) then s
  else
    let s := with_packet s (wr s.(g_packet) s.(g_packet_index) data) (u8 (s.(g_packet_index) + 1)) in
    if s.(g_packet_size) <=? s.(g_packet_index) then let s := mouse_process_packet s in with_packet s s.(g_packet) 0 else s.
(** [id]: what the mouse answers to the request of its kind, [ack] to the last
    command. *)
Definition mouse_init (id ack : Z) (s : mouse) : Z * mouse :=
  let size := if id =? 3 then 4 else 3 in
  let ok := ack =? 0xFA in
  (if ok then 0 else -1,
   mk_mouse 0 0 0 0 0 0 0 (ok || s.(g_initialized)) (ok || s.(g_enabled)) s.(g_screen_width) s.(g_screen_height) s.(g_packet) 0 size).
Definition mouse_set_bounds (width height : Z) (s : mouse) : mouse :=
  mk_mouse (if s32 width <=? s.(m_x) then s32 (s32 width - 1) else s.(m_x)) (if s32 height <=? s.(m_y) then s32 (s32 height - 1) else s.(m_y))
    s.(m_dx) s.(m_dy) s.(m_scroll) s.(m_buttons) s.(m_buttons_changed) s.(g_initialized) s.(g_enabled) width height s.(g_packet) s.(g_packet_index) s.(g_packet_size).
Definition mouse_set_position (x y : Z) (s : mouse) : mouse :=
  let x := clip_lo x in
  let y := clip_lo y in
  with_xy s (if s32 s.(g_screen_width) <=? x then s32 (s32 s.(g_screen_width) - 1) else x) (if s32 s.(g_screen_height) <=? y then s32 (s32 s.(g_screen_height) - 1) else y).
Definition mouse_button_pressed (button : Z) (s : mouse) : bool := bit s.(m_buttons) button.
Definition mouse_button_just_pressed (button : Z) (s : mouse) : bool := bit s.(m_buttons) button && bit s.(m_buttons_changed) button.
Definition mouse_button_just_released (button : Z) (s : mouse) : bool := negb (bit s.(m_buttons) button) && bit s.(m_buttons_changed) button.
Definition mouse_enable (enabled : bool) (s : mouse) : mouse :=
  mk_mouse s.(m_x) s.(m_y) s.(m_dx) s.(m_dy) s.(m_scroll) s.(m_buttons) s.(m_buttons_changed) s.(g_initialized) enabled s.(g_screen_width) s.(g_screen_height) s.(g_packet) s.(g_packet_index) s.(g_packet_size).

(** ** The buffer is a bounded queue *)
Definition buffer_ok (s : keyboard) : Prop := zlen s.(keyboard_buffer) = KEYBOARD_BUFFER_SIZE /\ 0 <= s.(kb_head) < KEYBOARD_BUFFER_SIZE /\ 0 <= s.(kb_tail) < KEYBOARD_BUFFER_SIZE.
(** The characters that wait, the oldest first. *)
Definition waiting (s : keyboard) : list Z :=
  map (fun k => rd0 s.(keyboard_buffer) ((s.(kb_tail) + Z.of_nat k) mod KEYBOARD_BUFFER_SIZE)) (seq 0 (Z.to_nat ((s.(kb_head) - s.(kb_tail)) mod KEYBOARD_BUFFER_SIZE))).
Definition CAPACITY : nat := 255.
Definition queue_put (c : Z) (q : list Z) : list Z := if (length q <? CAPACITY)%nat then q ++ [c] else q.
Definition queue_get (q : list Z) : Z * list Z := match q with [] => (0, []) | c :: q' => (c, q') end.
Lemma length_waiting s : length (waiting s) = Z.to_nat ((s.(kb_head) - s.(kb_tail)) mod KEYBOARD_BUFFER_SIZE).
Proof. unfold waiting. by rewrite length_map, length_seq. Qed.
Lemma put_refines c s : buffer_ok s -> buffer_ok (keyboard_buffer_put c s) /\ waiting (keyboard_buffer_put c s) = queue_put c (waiting s).
Proof.
  intros (Hl & Hh & Ht). unfold keyboard_buffer_put, queue_put, CAPACITY. rewrite length_waiting. unfold KEYBOARD_BUFFER_SIZE in *. cbv zeta.
  set (n := (kb_head s - kb_tail s) mod 256). assert (Hn : 0 <= n < 256) by (apply Z.mod_pos_bound; lia).
  assert (Hhead : kb_head s = (kb_tail s + n) mod 256) by (unfold n; rewrite Zplus_mod_idemp_r; replace (kb_tail s + (kb_head s - kb_tail s)) with (kb_head s) by lia; by rewrite Z.mod_small).
  destruct (Z.eqb_spec ((kb_head s + 1) mod 256) (kb_tail s)) as [Ef|Nf].
  - split; [done|]. assert (n = 255). { unfold n. rewrite <- Ef. rewrite Zminus_mod_idemp_r. replace (kb_head s - (kb_head s + 1)) with (-1) by lia. done. }
    destruct (Nat.ltb_spec (Z.to_nat n) 255); [lia|done].
  - assert (Hn' : n < 255). { destruct (decide (n = 255)) as [E|]; [|lia]. exfalso. apply Nf. rewrite Hhead, E, Zplus_mod_idemp_l. replace (kb_tail s + 255 + 1) with (kb_tail s + 1 * 256) by lia. rewrite Z_mod_plus_full. by rewrite Z.mod_small. }
    destruct (Nat.ltb_spec (Z.to_nat n) 255); [|lia]. split.
    + split; [cbn; by rewrite zlen_wr|]. split; [cbn; unfold KEYBOARD_BUFFER_SIZE; apply Z.mod_pos_bound; lia|done].
    + unfold waiting at 1. cbn [with_buffer kb_head kb_tail keyboard_buffer]. unfold KEYBOARD_BUFFER_SIZE.
      replace (((kb_head s + 1) mod 256 - kb_tail s) mod 256) with (n + 1).
      2:{ rewrite Zminus_mod_idemp_l. replace (kb_head s + 1 - kb_tail s) with (kb_head s - kb_tail s + 1) by lia. rewrite <- Zplus_mod_idemp_l. fold n. rewrite Z.mod_small; lia. }
      replace (Z.to_nat (n + 1)) with (Z.to_nat n + 1)%nat by lia. rewrite seq_app, map_app. cbn [seq map plus]. f_equal.
      * unfold waiting, KEYBOARD_BUFFER_SIZE. fold n. apply map_ext_in. intros k Hk. apply in_seq in Hk. apply rd0_wr_ne. rewrite Hhead. intros E. symmetry in E. apply mod_near in E; [done|lia|lia].
      * f_equal. rewrite Z2Nat.id by lia. rewrite <- Hhead. apply rd0_wr_eq. lia.
Qed.
Lemma get_refines s : buffer_ok s -> let '(c, s') := keyboard_buffer_get s in buffer_ok s' /\ queue_get (waiting s) = (c, waiting s').
Proof.
  intros (Hl & Hh & Ht). unfold keyboard_buffer_get, KEYBOARD_BUFFER_SIZE in *. destruct (Z.eqb_spec (kb_head s) (kb_tail s)) as [Ee|Ne].
  - split; [done|]. unfold waiting. by rewrite Ee, Z.sub_diag.
  - set (n := (kb_head s - kb_tail s) mod 256). assert (Hn : 0 <= n < 256) by (apply Z.mod_pos_bound; lia).
    assert (Hn' : 0 < n). { destruct (decide (n = 0)) as [E|]; [|lia]. exfalso. unfold n in E. apply Z.mod_divide in E as [q Hq]; lia. }
    split; [split; [done|]; split; [done|]; cbn; unfold KEYBOARD_BUFFER_SIZE; apply Z.mod_pos_bound; lia|].
    unfold waiting. cbn [with_buffer kb_head kb_tail keyboard_buffer]. unfold KEYBOARD_BUFFER_SIZE. fold n.
    replace ((kb_head s - (kb_tail s + 1) mod 256) mod 256) with (n - 1).
    2:{ rewrite Zminus_mod_idemp_r. replace (kb_head s - (kb_tail s + 1)) with (kb_head s - kb_tail s - 1) by lia. rewrite <- Zminus_mod_idemp_l. fold n. rewrite Z.mod_small; lia. }
    replace (Z.to_nat n) with (S (Z.to_nat (n - 1))) by lia. cbn [seq map queue_get]. rewrite Z.add_0_r, Z.mod_small by lia. f_equal.
    rewrite <- seq_shift, map_map. apply map_ext. intros k. f_equal. rewrite Zplus_mod_idemp_l. f_equal. lia.
Qed.
(** What a scan code types. *)
Definition typed (s s' : keyboard) : Prop := waiting s' = waiting s \/ exists c, waiting s' = queue_put c (waiting s).
Lemma put_typed c s : buffer_ok s -> buffer_ok (keyboard_buffer_put c s) /\ typed s (keyboard_buffer_put c s).
Proof. intros H. destruct (put_refines c s H) as [H1 H2]. split; [done|]. right. by exists c. Qed.
Lemma same_typed s s' : s'.(keyboard_buffer) = s.(keyboard_buffer) -> s'.(kb_head) = s.(kb_head) -> s'.(kb_tail) = s.(kb_tail) -> buffer_ok s -> buffer_ok s' /\ typed s s'.
Proof. intros E1 E2 E3 H. unfold buffer_ok, typed, waiting. rewrite E1, E2, E3. split; [done|by left]. Qed.
Lemma normal_key_typed sc s : buffer_ok s -> buffer_ok (normal_key sc s) /\ typed s (normal_key sc s).
Proof.
  intros H. unfold normal_key. cbv zeta. repeat case_if; try (by apply same_typed); try (by apply put_typed).
  destruct (put_typed (apply_caps (keymap_resolve_dead_key (pending_dead_key s) (key_char sc s)) (set_dead 0 s)) (set_dead 0 s)) as [H1 H2]; [exact H|]. done.
Qed.
(** The handler adds at most one character. *)
Lemma handler_typed sc s : buffer_ok s -> buffer_ok (keyboard_handler_c sc s) /\ typed s (keyboard_handler_c sc s).
Proof.
  intros H. unfold keyboard_handler_c. case_if; [by apply same_typed|]. case_if.
  { unfold key_released. cbv zeta. repeat case_if; by apply same_typed. }
  case_if; [by apply same_typed|]. assert (Hk : forall s1, buffer_ok s1 -> buffer_ok (key_pressed sc s1) /\ typed s1 (key_pressed sc s1)).
  { intros s1 H1. unfold key_pressed. repeat case_if; first [by apply same_typed | by apply put_typed | by apply normal_key_typed]. }
  case_if; [|by apply Hk]. apply (Hk (set_e0 false s)). exact H.
Qed.

(** ** Theorems *)
(** A history of the keyboard: interrupts, reads, clearing. *)
Inductive kevent := Scan (code : Z) | Read | Clear.
Definition kstep (e : kevent) (s : keyboard) : list Z * keyboard :=
  match e with
  | Scan code => ([], keyboard_handler_c code s)
  | Read => let '(c, s) := keyboard_getchar_nonblock s in ([c], s)
  | Clear => ([], keyboard_clear_buffer s)
  end.
Fixpoint krun (es : list kevent) (s : keyboard) : list Z * keyboard :=
  match es with [] => ([], s) | e :: es' => let '(o, s) := kstep e s in let '(o', s) := krun es' s in (o ++ o', s) end.
(** The same history on a queue of at most 255 characters; [ts] are the
    characters that were typed, in order. *)
Inductive qrun : list Z -> list kevent -> list Z -> list Z -> list Z -> Prop :=
| qrun_nil q : qrun q [] [] [] q
| qrun_quiet q es code ts o q' : qrun q es ts o q' -> qrun q (Scan code :: es) ts o q'
| qrun_typed q es code c ts o q' : qrun (queue_put c q) es ts o q' -> qrun q (Scan code :: es) (c :: ts) o q'
| qrun_read q es ts o q' : qrun (queue_get q).2 es ts o q' -> qrun q (Read :: es) ts ((queue_get q).1 :: o) q'
| qrun_clear q es ts o q' : qrun [] es ts o q' -> qrun q (Clear :: es) ts o q'.
Definition keyboard0 : keyboard := mk_keyboard false false false false false false 0 (replicate 256 0) 0 0 (keymap_init (mk_keymaps keymap_qwerty_us [])).
Example keyboard_types : (krun [Scan 0x1E; Scan 0x30; Read; Read; Read] keyboard0).1 = [97; 98; 0].
Proof. by vm_compute. Qed.

(** ** Letters *)
Definition letter (c : Z) : bool := (97 <=? c) && (c <=? 122).
Definition both : list bool := [true; false].
Definition special (sc : Z) : bool := bool_decide (sc ∈ [0x1D; 0x2A; 0x36; 0x38; 0x3A; 0x48; 0x50; 0x4B; 0x4D; 0x49; 0x51]).
(** A key that carries a letter in a layout, under Shift and Caps Lock: it is no
    special key, and it gives the letter or the capital. *)
Definition letter_key_ok (km : keymap_t) (sc : Z) (shift caps : bool) : bool :=
  let c := rd0 km.(km_normal) sc in
  let s := mk_keyboard false shift false false caps false 0 [] 0 0 (mk_keymaps km []) in
  negb (letter c) || (negb (special sc) && (letter (key_char sc s) || letter (key_char sc s + 32)) && (apply_caps (key_char sc s) s =? (if xorb shift caps then c - 32 else c))).
Definition letter_keys_ok (km : keymap_t) : bool := forallb (fun sc => forallb (fun shift => forallb (letter_key_ok km sc shift) both) both) (map Z.of_nat (seq 0 128)).
Lemma letter_keys_ok_at km sc shift caps : letter_keys_ok km = true -> 0 <= sc < 128 -> letter_key_ok km sc shift caps = true.
Proof.
  intros H Hs. unfold letter_keys_ok in H. rewrite forallb_forall in H. specialize (H sc).
  assert (Hin : In sc (map Z.of_nat (seq 0 128))) by (apply in_map_iff; exists (Z.to_nat sc); split; [lia|apply in_seq; lia]). specialize (H Hin).
  rewrite forallb_forall in H. specialize (H shift ltac:(destruct shift; cbn; auto)). rewrite forallb_forall in H. exact (H caps ltac:(destruct caps; cbn; auto)).
Qed.
Lemma qwerty_letters : letter_keys_ok keymap_qwerty_us = true.
Proof. by vm_compute. Qed.
Lemma azerty_letters : letter_keys_ok keymap_azerty_fr = true.
Proof. by vm_compute. Qed.
Lemma key_pressed_normal sc s : special sc = false -> key_pressed sc s = normal_key sc s.
Proof.
  unfold special. intros H. apply bool_decide_eq_false in H. rewrite !list.not_elem_of_cons in H. unfold key_pressed. destruct_and? H. by rewrite !(proj2 (Z.eqb_neq _ _)) by done.
Qed.
Lemma low_scancode sc : 0 <= sc < 128 -> (sc =? 0xE0) = false /\ (Z.land sc 0x80 =? 0) = true.
Proof.
  intros H. split; [lia|]. apply Z.eqb_eq. change 0x80 with (2 ^ 7). apply Z.bits_inj'. intros k Hk. rewrite Z.land_spec, Z.bits_0, Z.pow2_bits_eqb by lia.
  destruct (Z.eqb_spec 7 k) as [<-|]; [|by rewrite andb_false_r]. rewrite andb_true_r. apply Z.testbit_false; [lia|]. by rewrite Z.div_small by lia.
Qed.
(** Shift and Caps Lock on both layouts: without Ctrl, AltGr and a pending
    accent, a key that carries a letter types it once, as a capital exactly when
    one of Shift and Caps Lock is active, unless the buffer is full. *)
Theorem letters_follow_shift_and_caps sc s : buffer_ok s ->
  s.(kb_maps).(current_keymap) = keymap_qwerty_us \/ s.(kb_maps).(current_keymap) = keymap_azerty_fr ->
  s.(ctrl_pressed) = false -> s.(altgr_pressed) = false -> s.(pending_dead_key) = 0 -> s.(e0_prefix) = false ->
  0 <= sc < 128 -> letter (rd0 s.(kb_maps).(current_keymap).(km_normal) sc) = true ->
  let c := rd0 s.(kb_maps).(current_keymap).(km_normal) sc in
  waiting (keyboard_handler_c sc s) = queue_put (if xorb s.(shift_pressed) s.(capslock_active) then c - 32 else c) (waiting s).
Proof.
  intros Hb Hk Hctrl Hag Hd He Hs Hl. cbv zeta. set (km := current_keymap (kb_maps s)) in *.
  assert (Hok : letter_keys_ok km = true) by (destruct Hk as [-> | ->]; [apply qwerty_letters|apply azerty_letters]).
  pose proof (letter_keys_ok_at km sc (shift_pressed s) (capslock_active s) Hok Hs) as Hc. unfold letter_key_ok in Hc. cbv zeta in Hc. rewrite Hl in Hc. cbn [negb orb] in Hc.
  apply andb_true_iff in Hc as [Hc Ec]. apply andb_true_iff in Hc as [Hsp Hlet]. apply negb_true_iff in Hsp. apply Z.eqb_eq in Ec.
  destruct (low_scancode sc Hs) as [E1 E2]. unfold keyboard_handler_c. rewrite E1, E2, He. cbn [negb andb]. rewrite key_pressed_normal by done. unfold normal_key. rewrite Hctrl, Hd. cbn [andb negb]. cbv zeta.
  unfold key_char, apply_caps in *. cbn [altgr_pressed shift_pressed capslock_active kb_maps current_keymap] in *. rewrite Hag in *. cbn [andb] in *. fold km.
  set (k := if shift_pressed s then _ else _) in *. unfold letter, DEAD_KEY_CIRCUMFLEX, DEAD_KEY_TILDE in *.
  assert (Hk0 : (k =? 0) = false) by lia. assert (Hk1 : (0xF0 <=? k) && (k <=? 0xF3) = false) by lia. rewrite Hk0, Hk1. cbn [Z.eqb negb]. rewrite Ec. by apply put_refines.
Qed.
Lemma letters_follow_shift_and_caps_witness : let s := keyboard_handler_c 0x3A keyboard0 in waiting (keyboard_handler_c 0x1E s) = queue_put 65 (waiting s).
Proof.
  cbv zeta. apply (letters_follow_shift_and_caps 0x1E (keyboard_handler_c 0x3A keyboard0)); try reflexivity.
  - by vm_compute.
  - by left.
  - lia.
Defined.
(** The right Ctrl key sends the prefix E0: pressing it sets the modifier, and
    releasing it does not clear it.  Every later c is a Ctrl-C. *)
Theorem right_ctrl_sticks s : s.(e0_prefix) = false -> s.(ctrl_pressed) = false ->
  let s' := keyboard_handler_c 0x9D (keyboard_handler_c 0xE0 (keyboard_handler_c 0x1D (keyboard_handler_c 0xE0 s))) in s'.(ctrl_pressed) = true /\ s'.(e0_prefix) = false.
Proof. intros H1 H2. done. Qed.
Example ctrl_c_after_right_ctrl : (krun [Scan 0xE0; Scan 0x1D; Scan 0xE0; Scan 0x9D; Scan 0x2E; Read] keyboard0).1 = [KEY_CTRL_C].
Proof. by vm_compute. Qed.
(** The accented letters of code page 437 collide with the codes of the arrow
    keys: on the French layout the key of é types KEY_LEFT. *)
Example e_acute_is_left :
  let s := (keyboard_set_layout [97; 122; 101; 114; 116; 121] keyboard0).2 in (krun [Scan 0x03; Read; Scan 0x4B; Read] s).1 = [KEY_LEFT; KEY_LEFT].
Proof. by vm_compute. Qed.

(** ** The pointer stays on the screen *)
Definition on_screen (s : mouse) : Prop := 0 <= s.(m_x) < s.(g_screen_width) /\ 0 <= s.(m_y) < s.(g_screen_height).
(** Sizes for which the sum of a position and a movement is an int32_t. *)
Definition screen_ok (s : mouse) : Prop := 0 < s.(g_screen_width) <= 2 ^ 31 - 512 /\ 0 < s.(g_screen_height) <= 2 ^ 31 - 512.
(** The nine-bit movement of a packet. *)
Lemma delta_value b sign : is_u8 b -> delta b sign = if sign then b - 256 else b.
Proof.
  intros Hb. unfold delta, is_u8 in *. destruct sign; [|apply s32_small; lia].
  assert (Hl : Z.land b 0xFFFFFF00 = 0).
  { change 0xFFFFFF00 with (Z.shiftl 0xFFFFFF 8). apply Z.bits_inj'. intros k Hk. rewrite Z.land_spec, Z.bits_0.
    destruct (decide (k < 8)); [rewrite Z.shiftl_spec_low by lia; apply andb_false_r|]. replace (Z.testbit b k) with false; [done|]. symmetry. apply Z.testbit_false; [lia|].
    rewrite Z.div_small; [done|]. assert (2 ^ 8 <= 2 ^ k) by (apply Z.pow_le_mono_r; lia). lia. }
  rewrite <- Z.lxor_lor, <- Z.add_nocarry_lxor by done. unfold s32. replace (b + 0xFFFFFF00 + 2 ^ 31) with (b - 256 + 2 ^ 31 + 1 * 2 ^ 32) by lia. rewrite Z_mod_plus_full, Z.mod_small by lia. lia.
Qed.
Record mouse_ok (s : mouse) : Prop := mk_mouse_ok {
  mo_on : on_screen s;
  mo_screen : screen_ok s;
  mo_len : zlen s.(g_packet) = 4;
  mo_bytes : Forall is_u8 s.(g_packet);
  mo_size : s.(g_packet_size) = 3 \/ s.(g_packet_size) = 4;
  mo_index : 0 <= s.(g_packet_index) < s.(g_packet_size)
}.
Definition clamp (v limit : Z) : Z := Z.max 0 (Z.min v (limit - 1)).
Lemma clip_clamp v limit : 0 < limit <= 2 ^ 31 - 512 -> - 2 ^ 31 <= v < 2 ^ 31 -> clip_hi (clip_lo (s32 v)) limit = clamp v limit.
Proof.
  intros Hl Hv. rewrite s32_small by lia. unfold clip_hi, clip_lo, clamp. rewrite (s32_small limit), (s32_small (limit - 1)) by lia.
  destruct (Z.ltb_spec v 0), (Z.ltb_spec 0 limit); cbn [andb]; try lia; [destruct (Z.leb_spec limit 0)|destruct (Z.leb_spec limit v)]; lia.
Qed.
(** The movements of a packet; an axis that overflowed does not move. *)
Definition move_x (p : list Z) : Z := let f := rd0 p 0 in if bit f 0x40 then 0 else if bit f 0x10 then rd0 p 1 - 256 else rd0 p 1.
Definition move_y (p : list Z) : Z := let f := rd0 p 0 in if bit f 0x80 then 0 else if bit f 0x20 then 256 - rd0 p 2 else - rd0 p 2.
Lemma packet_moves s : on_screen s -> screen_ok s -> Forall is_u8 s.(g_packet) -> bit (rd0 s.(g_packet) 0) 0x08 = true -> let s' := mouse_process_packet s in
  s'.(m_x) = clamp (s.(m_x) + move_x s.(g_packet)) s.(g_screen_width) /\ s'.(m_y) = clamp (s.(m_y) + move_y s.(g_packet)) s.(g_screen_height) /\
  s'.(m_dx) = move_x s.(g_packet) /\ s'.(m_dy) = move_y s.(g_packet) /\ s'.(m_buttons) = Z.land (rd0 s.(g_packet) 0) 7 /\ s'.(m_buttons_changed) = Z.lxor s.(m_buttons) s'.(m_buttons).
Proof.
  intros [Hx Hy] [Hw Hh] Hb Hf. cbv zeta. unfold mouse_process_packet. rewrite Hf. cbn [negb]. cbv zeta. cbn [m_x m_y m_dx m_dy m_buttons m_buttons_changed].
  pose proof (rd0_u8 _ 1 Hb) as B1. pose proof (rd0_u8 _ 2 Hb) as B2. rewrite !delta_value by done. unfold is_u8, move_x, move_y in *. set (p := g_packet s) in *. cbv zeta.
  assert (Ey : s32 (- (if bit (rd0 p 0) 0x20 then rd0 p 2 - 256 else rd0 p 2)) = if bit (rd0 p 0) 0x20 then 256 - rd0 p 2 else - rd0 p 2) by (rewrite s32_small; destruct (bit (rd0 p 0) 0x20); lia).
  rewrite Ey. split_and!; try done; apply clip_clamp; try done; repeat case_match; lia.
Qed.
Lemma clamp_range v limit : 0 < limit -> 0 <= clamp v limit < limit.
Proof. unfold clamp. lia. Qed.
Lemma process_keeps s : on_screen s -> screen_ok s -> Forall is_u8 s.(g_packet) -> on_screen (mouse_process_packet s).
Proof.
  intros Ho Hs Hb. destruct (bit (rd0 (g_packet s) 0) 0x08) eqn:Ef.
  - destruct (packet_moves s Ho Hs Hb Ef) as (Ex & Ey & _). destruct Hs as [Hw Hh]. unfold on_screen. rewrite Ex, Ey. unfold mouse_process_packet. rewrite Ef. cbn [negb g_screen_width g_screen_height]. split; apply clamp_range; lia.
  - unfold mouse_process_packet. rewrite Ef. done.
Qed.
Lemma irq_keeps status data s : is_u8 data -> mouse_ok s -> mouse_ok (mouse_irq_handler status data s).
Proof.
  intros Hd H. unfold mouse_irq_handler. repeat (case_if; [done|]). destruct H as [Ho Hs Hl Hb Hsz Hi]. assert (Hi' : u8 (g_packet_index s + 1) = g_packet_index s + 1) by (unfold u8; rewrite Z.mod_small; lia).
  rewrite Hi'. cbv zeta. set (s1 := with_packet s (wr (g_packet s) (g_packet_index s) data) (g_packet_index s + 1)).
  assert (Hb1 : Forall is_u8 (g_packet s1)) by (by apply Forall_wr). assert (Hl1 : zlen (g_packet s1) = 4) by (cbn; by rewrite zlen_wr).
  destruct (Z.leb_spec (g_packet_size s1) (g_packet_index s1)) as [Hle|Hgt].
  - pose proof (process_keeps s1 Ho Hs Hb1) as Hp. assert (Es : g_packet_size (mouse_process_packet s1) = g_packet_size s1 /\ g_packet (mouse_process_packet s1) = g_packet s1 /\ screen_ok (mouse_process_packet s1)) by (unfold mouse_process_packet; case_if; done).
    destruct Es as (E1 & E2 & E3). split; cbn [with_packet g_packet g_packet_size g_packet_index]; rewrite ?E1, ?E2; try done. cbn. lia.
  - split; try done. cbn in *. lia.
Qed.
(** A byte of the mouse that is not out of step. *)
Lemma irq_byte data s : s.(g_initialized) = true -> s.(g_enabled) = true -> (s.(g_packet_index) = 0 -> bit data 0x08 = true) -> mouse_irq_handler 0x21 data s =
  let s1 := with_packet s (wr s.(g_packet) s.(g_packet_index) data) (u8 (s.(g_packet_index) + 1)) in
  if s1.(g_packet_size) <=? s1.(g_packet_index) then let s2 := mouse_process_packet s1 in with_packet s2 s2.(g_packet) 0 else s1.
Proof.
  intros H1 H2 H3. unfold mouse_irq_handler. change (bit 0x21 0x01) with true. change (bit 0x21 0x20) with true. rewrite H1, H2. cbn [negb orb].
  destruct (Z.eqb_spec (g_packet_index s) 0) as [E|]; [rewrite H3 by done|]; done.
Qed.
Lemma rd0_u8_last p0 p1 p2 p3 : Forall is_u8 [p0; p1; p2; p3] -> Forall is_u8 [p3].
Proof. intros H. do 3 apply list.Forall_cons in H as [_ H]. done. Qed.
(** The interrupts of the mouse, one after the other: status and data. *)
Definition mouse_run (irqs : list (Z * Z)) (s : mouse) : mouse := fold_left (fun s i => mouse_irq_handler i.1 i.2 s) irqs s.
(** Once the size of the screen is set, whatever bytes the mouse sends, the
    pointer stays on the screen and the packet buffer within its four bytes; a
    complete packet moves it by its nine-bit movements, limited to the screen. *)
Theorem mouse_stays_on_screen irqs s : Forall (fun i => is_u8 i.2) irqs -> mouse_ok s ->
  mouse_ok (mouse_run irqs s) /\
  (s.(g_initialized) = true -> s.(g_enabled) = true -> s.(g_packet_index) = 0 -> s.(g_packet_size) = 3 ->
   forall b0 b1 b2, is_u8 b0 -> is_u8 b1 -> is_u8 b2 -> bit b0 0x08 = true ->
   let s' := mouse_run [(0x21, b0); (0x21, b1); (0x21, b2)] s in
   s'.(m_x) = clamp (s.(m_x) + move_x [b0; b1; b2]) s.(g_screen_width) /\ s'.(m_y) = clamp (s.(m_y) + move_y [b0; b1; b2]) s.(g_screen_height)).
Proof.
  intros Hi H. split.
  - unfold mouse_run. revert s H. induction Hi as [|i irqs Hd Hi IH]; intros s H; [done|]. cbn [fold_left]. apply IH. by apply irq_keeps.
  - intros H1 H2 H3 H4 b0 b1 b2 B0 B1 B2 Hf. destruct H as [Ho Hs Hl Hb _ _]. cbv zeta. unfold mouse_run. cbn [fold_left fst snd].
    destruct s as [x y dx dy sc bt bc ini en w h p i size]. cbn [g_initialized g_enabled g_packet_index g_packet_size g_packet] in *. subst ini en i size.
    destruct p as [|p0 [|p1 [|p2 [|p3 [|]]]]]; try (unfold zlen in Hl; cbn in Hl; lia).
    set (mk := fun p i => mk_mouse x y dx dy sc bt bc true true w h p i 3). change (mk_mouse x y dx dy sc bt bc true true w h [p0; p1; p2; p3] 0 3) with (mk [p0; p1; p2; p3] 0) in *.
    assert (E1 : mouse_irq_handler 0x21 b0 (mk [p0; p1; p2; p3] 0) = mk [b0; p1; p2; p3] 1) by (by rewrite irq_byte).
    assert (E2 : mouse_irq_handler 0x21 b1 (mk [b0; p1; p2; p3] 1) = mk [b0; b1; p2; p3] 2) by (by rewrite irq_byte).
    set (s3 := mk [b0; b1; b2; p3] 3). assert (E3 : mouse_irq_handler 0x21 b2 (mk [b0; b1; p2; p3] 2) = with_packet (mouse_process_packet s3) (g_packet (mouse_process_packet s3)) 0) by (by rewrite irq_byte).
    rewrite E1, E2, E3. destruct (packet_moves s3) as (Ex & Ey & _); [exact Ho|exact Hs| |exact Hf|].
    { change (Forall is_u8 [b0; b1; b2; p3]). rewrite !list.Forall_cons. split; [exact B0|]. split; [exact B1|]. split; [exact B2|]. apply list.Forall_cons. by apply (rd0_u8_last p0 p1 p2 p3). }
    cbn [m_x m_y with_packet]. rewrite Ex, Ey. done.
Qed.
Definition mouse0 : mouse := mk_mouse 10 10 0 0 0 0 0 true true 640 480 [0; 0; 0; 0] 0 3.
Lemma mouse_stays_on_screen_witness : mouse_ok (mouse_run [(0x21, 0x18); (0x21, 0xF0); (0x21, 5)] mouse0) /\
  (mouse0.(g_initialized) = true -> mouse0.(g_enabled) = true -> mouse0.(g_packet_index) = 0 -> mouse0.(g_packet_size) = 3 ->
   forall b0 b1 b2, is_u8 b0 -> is_u8 b1 -> is_u8 b2 -> bit b0 0x08 = true ->
   let s' := mouse_run [(0x21, b0); (0x21, b1); (0x21, b2)] mouse0 in
   s'.(m_x) = clamp (10 + move_x [b0; b1; b2]) 640 /\ s'.(m_y) = clamp (10 + move_y [b0; b1; b2]) 480).
Proof.
  apply (mouse_stays_on_screen [(0x21, 0x18); (0x21, 0xF0); (0x21, 5)] mouse0).
  - repeat constructor; cbn; lia.
  - split; [split; cbn; lia|split; cbn; lia|reflexivity|repeat constructor; lia|by left|cbn; lia].
Defined.
Example mouse_moves : let s := mouse_run [(0x21, 0x18); (0x21, 0xF0); (0x21, 5)] mouse0 in (s.(m_x), s.(m_y)) = (0, 5).
Proof. by vm_compute. Qed.
(** Before the size of the screen is known, [mouse_set_position] puts the pointer
    outside of it. *)
Example position_before_bounds : let s := mouse_set_position 5 5 (mk_mouse 0 0 0 0 0 0 0 true true 0 0 [0; 0; 0; 0] 0 3) in (s.(m_x), s.(m_y)) = (-1, -1).
Proof. by vm_compute. Qed.
