(* ===== verification/Timer.v ===== *)
(** The timer and the clock (src/kernel/timer.c, src/kernel/timer.h): the count of
    ticks and what is computed from it, dates and their number of seconds since
    1970, the registers of the real-time clock and the texts of dates.

    The registers of the clock are a function from their number to the byte that
    is read; the waits for the clock and for ticks are left out.  A loop that the
    code bounds by the calendar has fuel, and [None] when it runs out. *)
From S2P Require Import Prelude.

Definition PIT_FREQUENCY : Z := 1193182.
Definition TIMER_FREQUENCY : Z := 1000.
Definition RTC_SECONDS : Z := 0x00.
Definition RTC_MINUTES : Z := 0x02.
Definition RTC_HOURS : Z := 0x04.
Definition RTC_WEEKDAY : Z := 0x06.
Definition RTC_DAY : Z := 0x07.
Definition RTC_MONTH : Z := 0x08.
Definition RTC_YEAR : Z := 0x09.
Definition RTC_STATUS_B : Z := 0x0B.
Record datetime_t := mk_datetime { dt_second : Z; dt_minute : Z; dt_hour : Z; dt_day : Z; dt_month : Z; dt_year : Z; dt_weekday : Z }.
Record timer := mk_timer { g_timer_ticks : Z; g_timer_frequency : Z; g_boot_timestamp : Z; g_timer_scheduling_enabled : bool }.

(** ** The calendar *)
Definition bcd_to_binary (bcd : Z) : Z := u8 (Z.shiftr bcd 4 * 10 + Z.land bcd 0x0F).
Definition is_leap_year (year : Z) : bool := ((year mod 4 =? 0) && negb (year mod 100 =? 0)) || (year mod 400 =? 0).
Definition month_lengths : list Z := [31; 28; 31; 30; 31; 30; 31; 31; 30; 31; 30; 31].
Definition days_in_month (month year : Z) : Z :=
  if (month <? 1) || (12 <? month) then 0
  else if (month =? 2) && is_leap_year year then 29
  else rd0 month_lengths (month - 1).
Definition days_in_year (year : Z) : Z := if is_leap_year year then 366 else 365.
Definition datetime_to_unix (dt : datetime_t) : Z :=
  let days := for_loop (Z.to_nat (dt.(dt_year) - 1970)) 1970 (fun y days => u32 (days + days_in_year y)) 0 in
  let days := for_loop (Z.to_nat (dt.(dt_month) - 1)) 1 (fun m days => u32 (days + days_in_month m dt.(dt_year))) days in
  let days := u32 (days + (dt.(dt_day) - 1)) in
  let seconds := u32 (days * 86400) in
  let seconds := u32 (seconds + dt.(dt_hour) * 3600) in
  let seconds := u32 (seconds + dt.(dt_minute) * 60) in
  u32 (seconds + dt.(dt_second)).
Fixpoint find_year (fuel : nat) (days year : Z) : option (Z * Z) :=
  match fuel with
  | O => None
  | S fuel' => if days <? days_in_year year then Some (days, year) else find_year fuel' (days - days_in_year year) (u16 (year + 1))
  end.
Fixpoint find_month (fuel : nat) (days month year : Z) : option (Z * Z) :=
  match fuel with
  | O => None
  | S fuel' => if days <? days_in_month month year then Some (days, month) else find_month fuel' (days - days_in_month month year) (u8 (month + 1)) year
  end.
Definition YEARS : nat := 200.
Definition MONTHS : nat := 12.
Definition unix_to_datetime (unix_time : Z) : option datetime_t :=
  let second := unix_time mod 60 in
  let remaining := unix_time / 60 in
  let minute := remaining mod 60 in
  let remaining := remaining / 60 in
  let hour := remaining mod 24 in
  let days := remaining / 24 in
  let weekday := (days + 4) mod 7 + 1 in
  match find_year YEARS days 1970 with
  | None => None
  | Some (days, year) =>
      match find_month MONTHS days 1 year with
      | None => None
      | Some (days, month) => Some (mk_datetime second minute hour (u8 (days + 1)) month year weekday)
      end
  end.

(** ** The real-time clock *)
Definition rtc_read_datetime (reg : Z -> Z) : datetime_t :=
  let status_b := reg RTC_STATUS_B in
  let bcd := Z.land status_b 0x04 =? 0 in
  let conv v := if bcd then bcd_to_binary v else v in
  let hour := reg RTC_HOURS in
  let hour := if bcd then Z.lor (bcd_to_binary (Z.land hour 0x7F)) (Z.land hour 0x80) else hour in
  let hour := if (Z.land status_b 0x02 =? 0) && negb (Z.land hour 0x80 =? 0) then u8 ((Z.land hour 0x7F + 12) mod 24) else hour in
  mk_datetime (conv (reg RTC_SECONDS)) (conv (reg RTC_MINUTES)) hour (conv (reg RTC_DAY)) (conv (reg RTC_MONTH)) (u16 (2000 + conv (reg RTC_YEAR)))
    (reg RTC_WEEKDAY).

(** ** Ticks *)
Definition timer_enable_scheduling (s : timer) : timer := mk_timer s.(g_timer_ticks) s.(g_timer_frequency) s.(g_boot_timestamp) true.
(** The boolean: is the scheduler called? *)
Definition timer_handler_preempt (s : timer) : bool * timer :=
  (s.(g_timer_scheduling_enabled), mk_timer (u64 (s.(g_timer_ticks) + 1)) s.(g_timer_frequency) s.(g_boot_timestamp) s.(g_timer_scheduling_enabled)).
(** The divisor that is sent to the chip, and the new state. *)
Definition timer_init (frequency : Z) (reg : Z -> Z) (s : timer) : Z * timer :=
  let frequency := if frequency =? 0 then TIMER_FREQUENCY else frequency in
  let divisor := PIT_FREQUENCY / frequency in
  let divisor := if 65535 <? divisor then 65535 else divisor in
  let divisor := if divisor <? 1 then 1 else divisor in
  (divisor, mk_timer s.(g_timer_ticks) frequency (datetime_to_unix (rtc_read_datetime reg)) s.(g_timer_scheduling_enabled)).
Definition timer_get_ticks (s : timer) : Z := s.(g_timer_ticks).
Definition timer_get_uptime_ms (s : timer) : Z :=
  if s.(g_timer_frequency) =? 0 then 0
  else if s.(g_timer_frequency) =? 1000 then s.(g_timer_ticks)
  else u32 (u32 s.(g_timer_ticks) * 1000) / s.(g_timer_frequency).
Definition timer_get_uptime_seconds (s : timer) : Z :=
  if s.(g_timer_frequency) =? 0 then 0 else u32 s.(g_timer_ticks) / s.(g_timer_frequency).
(** The tick until which [timer_sleep_ms] and [timer_sleep_ticks] wait. *)
Definition timer_sleep_ms (ms : Z) (s : timer) : Z :=
  if s.(g_timer_frequency) =? 0 then s.(g_timer_ticks) else u64 (s.(g_timer_ticks) + u32 (ms * s.(g_timer_frequency)) / 1000).
Definition timer_sleep_ticks (ticks : Z) (s : timer) : Z := u64 (s.(g_timer_ticks) + ticks).
(** Seconds and milliseconds. *)
Definition timestamp_now (reg : Z -> Z) (s : timer) : Z * Z := (datetime_to_unix (rtc_read_datetime reg), u32 (timer_get_uptime_ms s) mod 1000).

(** ** Texts *)
Definition WRITE_2DIGIT (v : Z) : list Z := [u8 (48 + v / 10); u8 (48 + v mod 10)].
Definition WRITE_4DIGIT (v : Z) : list Z := [u8 (48 + v / 1000); u8 (48 + (v / 100) mod 10); u8 (48 + (v / 10) mod 10); u8 (48 + v mod 10)].
(** The string without its NUL. *)
Definition datetime_format (dt : datetime_t) (format : Z) : list Z :=
  let time := WRITE_2DIGIT dt.(dt_hour) ++ [58] ++ WRITE_2DIGIT dt.(dt_minute) ++ [58] ++ WRITE_2DIGIT dt.(dt_second) in
  if format =? 0 then WRITE_4DIGIT dt.(dt_year) ++ [45] ++ WRITE_2DIGIT dt.(dt_month) ++ [45] ++ WRITE_2DIGIT dt.(dt_day) ++ [32] ++ time
  else WRITE_2DIGIT dt.(dt_day) ++ [47] ++ WRITE_2DIGIT dt.(dt_month) ++ [47] ++ WRITE_4DIGIT dt.(dt_year) ++ [32] ++ time.

(** ** Days *)
(** The days of the years before [y] since 1970, and of the months before [m]. *)
Fixpoint years_days (n : nat) (y : Z) : Z := match n with O => 0 | S n' => days_in_year y + years_days n' (y + 1) end.
Fixpoint months_days (n : nat) (m y : Z) : Z := match n with O => 0 | S n' => days_in_month m y + months_days n' (m + 1) y end.
Definition day_number (dt : datetime_t) : Z :=
  years_days (Z.to_nat (dt.(dt_year) - 1970)) 1970 + months_days (Z.to_nat (dt.(dt_month) - 1)) 1 dt.(dt_year) + (dt.(dt_day) - 1).
Record valid_date (dt : datetime_t) : Prop := mk_valid_date {
  vd_second : 0 <= dt.(dt_second) < 60;
  vd_minute : 0 <= dt.(dt_minute) < 60;
  vd_hour : 0 <= dt.(dt_hour) < 24;
  vd_month : 1 <= dt.(dt_month) <= 12;
  vd_day : 1 <= dt.(dt_day) <= days_in_month dt.(dt_month) dt.(dt_year);
  vd_year : 1970 <= dt.(dt_year)
}.
Lemma year_length y : 365 <= days_in_year y <= 366.
Proof. unfold days_in_year. case_if; lia. Qed.
Lemma month_length m y : 1 <= m <= 12 -> 28 <= days_in_month m y <= 31.
Proof.
  intros H. assert (m = 1 \/ m = 2 \/ m = 3 \/ m = 4 \/ m = 5 \/ m = 6 \/ m = 7 \/ m = 8 \/ m = 9 \/ m = 10 \/ m = 11 \/ m = 12) as C by lia.
  unfold days_in_month. destruct (is_leap_year y); repeat destruct C as [->|C]; try subst m; by vm_compute.
Qed.
(** The months fill the year. *)
Lemma months_year y : months_days 12 1 y = days_in_year y.
Proof. unfold days_in_year. cbn [months_days]. unfold days_in_month. by destruct (is_leap_year y). Qed.
Lemma years_app n k y : years_days (n + k) y = years_days n y + years_days k (y + Z.of_nat n).
Proof. revert y. induction n as [|n IH]; intros y; cbn [years_days Nat.add]; [rewrite Z.add_0_l; f_equal; lia|]. rewrite IH. replace (y + 1 + Z.of_nat n) with (y + Z.of_nat (S n)) by lia. lia. Qed.
Lemma months_app n k m y : months_days (n + k) m y = months_days n m y + months_days k (m + Z.of_nat n) y.
Proof. revert m. induction n as [|n IH]; intros m; cbn [months_days Nat.add]; [rewrite Z.add_0_l; f_equal; lia|]. rewrite IH. replace (m + 1 + Z.of_nat n) with (m + Z.of_nat (S n)) by lia. lia. Qed.
Lemma years_bounds n y : 365 * Z.of_nat n <= years_days n y <= 366 * Z.of_nat n.
Proof. revert y. induction n as [|n IH]; intros y; cbn [years_days]; [lia|]. specialize (IH (y + 1)). pose proof (year_length y). lia. Qed.
Lemma months_nonneg n m y : 0 <= months_days n m y.
Proof.
  revert m. induction n as [|n IH]; intros m; cbn [months_days]; [lia|]. specialize (IH (m + 1)). assert (0 <= days_in_month m y); [|lia].
  destruct (decide (1 <= m <= 12)) as [R|R]; [pose proof (month_length m y R); lia|]. unfold days_in_month.
  assert ((m <? 1) || (12 <? m) = true)%bool as ->; [|done]. apply orb_true_iff. rewrite !Z.ltb_lt. lia.
Qed.

(** ** From a date to seconds *)
Lemma years_loop n y0 days : 0 <= days -> days + years_days n y0 < 2 ^ 32 ->
  for_loop n y0 (fun y d => u32 (d + days_in_year y)) days = days + years_days n y0.
Proof.
  revert y0 days. induction n as [|n IH]; intros y0 days H0 H1; cbn [for_loop years_days] in *; [lia|].
  pose proof (year_length y0). pose proof (years_bounds n (y0 + 1)). rewrite u32_small by (widths; lia). rewrite IH by lia. lia.
Qed.
Lemma months_loop n m0 y days : 0 <= days -> days + months_days n m0 y < 2 ^ 32 ->
  for_loop n m0 (fun m d => u32 (d + days_in_month m y)) days = days + months_days n m0 y.
Proof.
  revert m0 days. induction n as [|n IH]; intros m0 days H0 H1; cbn [for_loop months_days] in *; [lia|].
  pose proof (months_nonneg 1 m0 y) as L. cbn in L. pose proof (months_nonneg n (m0 + 1) y). rewrite u32_small by (widths; lia). rewrite IH by lia. lia.
Qed.
Lemma day_number_nonneg dt : valid_date dt -> 0 <= day_number dt.
Proof.
  intros V. unfold day_number. pose proof (years_bounds (Z.to_nat (dt_year dt - 1970)) 1970). pose proof (months_nonneg (Z.to_nat (dt_month dt - 1)) 1 (dt_year dt)).
  pose proof (vd_day _ V). lia.
Qed.
Definition total (dt : datetime_t) : Z := day_number dt * 86400 + dt.(dt_hour) * 3600 + dt.(dt_minute) * 60 + dt.(dt_second).
(** Without wrap-around the result is the number of seconds. *)
Lemma to_unix_value dt : valid_date dt -> total dt < 2 ^ 32 -> datetime_to_unix dt = total dt.
Proof.
  intros V Hr. pose proof (day_number_nonneg dt V) as N. pose proof (years_bounds (Z.to_nat (dt_year dt - 1970)) 1970) as Y.
  pose proof (months_nonneg (Z.to_nat (dt_month dt - 1)) 1 (dt_year dt)) as M. destruct V. unfold datetime_to_unix, total, day_number in *.
  rewrite years_loop by lia. rewrite months_loop by lia. rewrite !Z.add_0_l, (u32_small (_ + (_ - 1))) by (widths; lia).
  set (d := years_days _ _ + _ + _) in *. rewrite (u32_small (d * 86400)) by (widths; lia). rewrite !u32_small; widths; lia.
Qed.

(** ** From seconds to a date *)
Lemma find_year_ok fuel days y0 : 0 <= days -> days < 365 * Z.of_nat fuel -> 0 <= y0 -> y0 + Z.of_nat fuel < 2 ^ 16 ->
  exists n d, find_year fuel days y0 = Some (d, y0 + Z.of_nat n) /\ days = years_days n y0 + d /\ 0 <= d < days_in_year (y0 + Z.of_nat n).
Proof.
  revert days y0. induction fuel as [|fuel IH]; intros days y0 H0 H1 Hy Hw; cbn [find_year]; [lia|]. destruct (days <? days_in_year y0) eqn:E; bool_hyps.
  - exists 0%nat, days. rewrite Z.add_0_r. split; [done|]. cbn [years_days]. lia.
  - pose proof (year_length y0). rewrite u16_small by (widths; lia). destruct (IH (days - days_in_year y0) (y0 + 1)) as (n & d & -> & Ed & Hd); [lia..|].
    exists (S n), d. replace (y0 + 1 + Z.of_nat n) with (y0 + Z.of_nat (S n)) in * by lia. split; [done|]. cbn [years_days]. lia.
Qed.
Lemma find_month_ok fuel days m0 y : 1 <= m0 -> m0 + Z.of_nat fuel = 13 -> 0 <= days < months_days fuel m0 y ->
  exists n d, find_month fuel days m0 y = Some (d, m0 + Z.of_nat n) /\ days = months_days n m0 y + d /\ 0 <= d < days_in_month (m0 + Z.of_nat n) y /\ (n < fuel)%nat.
Proof.
  revert days m0. induction fuel as [|fuel IH]; intros days m0 H1 Hf Hd; cbn [find_month months_days] in *; [lia|]. destruct (days <? days_in_month m0 y) eqn:E; bool_hyps.
  - exists 0%nat, days. rewrite Z.add_0_r. split; [done|]. cbn [months_days]. lia.
  - rewrite u8_small by (widths; lia). destruct (IH (days - days_in_month m0 y) (m0 + 1)) as (n & d & -> & Ed & Hd' & Hn); [lia..|].
    exists (S n), d. replace (m0 + 1 + Z.of_nat n) with (m0 + Z.of_nat (S n)) in * by lia. split; [done|]. cbn [months_days]. lia.
Qed.
Lemma from_unix_ok t : is_u32 t -> exists dt, unix_to_datetime t = Some dt /\ valid_date dt /\ dt.(dt_weekday) = (t / 86400 + 4) mod 7 + 1 /\
  t = total dt.
Proof.
  intros Ht. unfold is_u32 in Ht. pow2. unfold unix_to_datetime. cbv zeta. set (days := t / 60 / 60 / 24). assert (Hd : days = t / 86400) by (unfold days; rewrite !Z.div_div by lia; done).
  destruct (find_year_ok YEARS days 1970) as (n & d & -> & Ed & Hy); [lia|change (Z.of_nat YEARS) with 200; lia|lia|by vm_compute|].
  destruct (find_month_ok MONTHS d 1 (1970 + Z.of_nat n)) as (k & e & -> & Em & Hm & Hk); [lia|done|change MONTHS with 12%nat; rewrite months_year; lia|]. change MONTHS with 12%nat in Hk.
  eexists. split; [done|]. pose proof (month_length (1 + Z.of_nat k) (1970 + Z.of_nat n) ltac:(lia)) as L.
  rewrite (u8_small (e + 1)) by (widths; lia). split; [constructor; cbn; lia|]. split; [cbn; by rewrite Hd|]. unfold total, day_number. cbn.
  replace (Z.to_nat (1970 + Z.of_nat n - 1970)) with n by lia. replace (Z.to_nat (1 + Z.of_nat k - 1)) with k by lia.
  assert (years_days n 1970 + months_days k 1 (1970 + Z.of_nat n) + (e + 1 - 1) = days) as -> by lia. unfold days. lia.
Qed.

(** ** Order *)
(** The calendar's order of dates. *)
Definition key (dt : datetime_t) : list Z := [dt.(dt_year); dt.(dt_month); dt.(dt_day); dt.(dt_hour); dt.(dt_minute); dt.(dt_second)].
Fixpoint lex_lt (a b : list Z) : Prop :=
  match a, b with x :: a', y :: b' => x < y \/ (x = y /\ lex_lt a' b') | _, _ => False end.
Lemma months_before n m y : Z.of_nat n + 1 <= m <= 12 -> months_days n 1 y + days_in_month (Z.of_nat n + 1) y <= months_days 12 1 y /\
  (Z.of_nat n + 1 < m -> months_days n 1 y + days_in_month (Z.of_nat n + 1) y <= months_days (Z.to_nat (m - 1)) 1 y).
Proof.
  intros Hm. assert (S : forall k, (n < k)%nat -> months_days n 1 y + days_in_month (Z.of_nat n + 1) y <= months_days k 1 y).
  { intros k Hk. replace k with (n + S (k - S n))%nat by lia. rewrite months_app. cbn [months_days]. pose proof (months_nonneg (k - S n) (1 + Z.of_nat n + 1) y).
    replace (1 + Z.of_nat n) with (Z.of_nat n + 1) in * by lia. lia. }
  split; [apply S; lia|]. intros. apply S. lia.
Qed.
(** The days of a date are within its year and its month. *)
Lemma day_in_year dt : valid_date dt -> 0 <= day_number dt - years_days (Z.to_nat (dt.(dt_year) - 1970)) 1970 < days_in_year dt.(dt_year).
Proof.
  intros []. unfold day_number. destruct (months_before (Z.to_nat (dt_month dt - 1)) (dt_month dt) (dt_year dt)) as [H _]; [lia|]. rewrite months_year in H.
  replace (Z.of_nat (Z.to_nat (dt_month dt - 1)) + 1) with (dt_month dt) in H by lia. pose proof (months_nonneg (Z.to_nat (dt_month dt - 1)) 1 (dt_year dt)). lia.
Qed.
Lemma day_number_order a b : valid_date a -> valid_date b -> lex_lt [a.(dt_year); a.(dt_month); a.(dt_day)] [b.(dt_year); b.(dt_month); b.(dt_day)] -> day_number a < day_number b.
Proof.
  intros Va Vb. pose proof (day_in_year a Va) as Ia. pose proof (day_in_year b Vb) as Ib. destruct Va, Vb. cbn [lex_lt]. intros [Hy|[Ey [Hm|[Em [Hd|[_ []]]]]]].
  - assert (years_days (Z.to_nat (dt_year a - 1970)) 1970 + days_in_year (dt_year a) <= years_days (Z.to_nat (dt_year b - 1970)) 1970); [|lia].
    replace (Z.to_nat (dt_year b - 1970)) with (Z.to_nat (dt_year a - 1970) + S (Z.to_nat (dt_year b - dt_year a - 1)))%nat by lia. rewrite years_app. cbn [years_days].
    replace (1970 + Z.of_nat (Z.to_nat (dt_year a - 1970))) with (dt_year a) by lia. pose proof (years_bounds (Z.to_nat (dt_year b - dt_year a - 1)) (dt_year a + 1)). lia.
  - unfold day_number in *. rewrite <- Ey in *. destruct (months_before (Z.to_nat (dt_month a - 1)) (dt_month b) (dt_year a)) as [_ H]; [lia|].
    replace (Z.of_nat (Z.to_nat (dt_month a - 1)) + 1) with (dt_month a) in H by lia. specialize (H Hm). lia.
  - unfold day_number. rewrite Ey, Em. lia.
Qed.
Lemma total_order a b : valid_date a -> valid_date b -> lex_lt (key a) (key b) -> total a < total b.
Proof.
  intros Va Vb. pose proof (day_number_order a b Va Vb) as D. destruct Va, Vb. unfold key, total. cbn [lex_lt] in *. intros [H|[E1 [H|[E2 [H|[E3 H]]]]]]; [specialize (D ltac:(tauto)); lia..|].
  assert (day_number a = day_number b) as -> by (unfold day_number; congruence). lia.
Qed.
Lemma lex_trichotomy a b : length a = length b -> lex_lt a b \/ a = b \/ lex_lt b a.
Proof.
  revert b. induction a as [|x a IH]; intros [|y b] L; try done; [by right; left|]. injection L as L. cbn [lex_lt]. destruct (Z.lt_trichotomy x y) as [H|[->|H]]; [tauto| |tauto].
  destruct (IH b L) as [H|[->|H]]; tauto.
Qed.
Lemma total_inj a b : valid_date a -> valid_date b -> total a = total b -> key a = key b.
Proof. intros Va Vb E. destruct (lex_trichotomy (key a) (key b)) as [H|[H|H]]; [done| |done|]; apply total_order in H; auto; lia. Qed.

(** The 29th of February 2000, a Tuesday. *)
Example leap_day : unix_to_datetime 951782400 = Some (mk_datetime 0 0 0 29 2 2000 3).
Proof. by vm_compute. Qed.
(** Of two valid dates up to 2106 the later one in the calendar has the larger
    number. *)
Theorem datetime_order a b : valid_date a -> valid_date b -> total a < 2 ^ 32 -> total b < 2 ^ 32 ->
  datetime_to_unix a < datetime_to_unix b <-> lex_lt (key a) (key b).
Proof.
  intros Va Vb Ra Rb. rewrite !to_unix_value by done. split; [|by apply total_order]. intros H.
  destruct (lex_trichotomy (key a) (key b)) as [L|[L|L]]; [done|done| |apply total_order in L; auto; lia].
  exfalso. assert (total a = total b); [|lia]. unfold key in L. injection L as E1 E2 E3 E4 E5 E6. unfold total, day_number. by rewrite E1, E2, E3, E4, E5, E6.
Qed.
(** The years are those of the Gregorian calendar. *)
Theorem gregorian_years y : 1970 <= y -> years_days (Z.to_nat (y - 1970)) 1970 = 365 * (y - 1970) + ((y - 1) / 4 - (y - 1) / 100 + (y - 1) / 400) - 477.
Proof.
  intros Hy. replace y with (1970 + Z.of_nat (Z.to_nat (y - 1970))) at 2 3 4 5 by lia. generalize (Z.to_nat (y - 1970)). intros n. clear. induction n as [|n IH]; [by vm_compute|].
  rewrite <- Nat.add_1_r, years_app, IH. cbn [years_days]. rewrite Z.add_0_r. unfold days_in_year, is_leap_year. set (z := 1970 + Z.of_nat n) in *.
  replace (1970 + Z.of_nat (n + 1)) with (z + 1) by lia. replace (1970 + Z.of_nat n - 1970) with (z - 1970) by lia.
  destruct (z mod 4 =? 0) eqn:E4, (z mod 100 =? 0) eqn:E100, (z mod 400 =? 0) eqn:E400; bool_hyps; cbn [andb orb negb]; lia.
Qed.

(** ** The clock *)
Definition to_bcd (v : Z) : Z := v / 10 * 16 + v mod 10.
(** Two decimal digits in a byte. *)
Lemma bcd_value v : 0 <= v < 100 -> bcd_to_binary (to_bcd v) = v.
Proof.
  intros H. unfold bcd_to_binary, to_bcd. change 0x0F with (Z.ones 4). rewrite Z.land_ones, Z.shiftr_div_pow2 by lia. change (2 ^ 4) with 16.
  rewrite u8_small; widths; lia.
Qed.
(** The registers of a clock that counts in binary or BCD and shows 24 hours. *)
Definition clock (dt : datetime_t) (binary : bool) (r : Z) : Z :=
  let enc v := if binary then v else to_bcd v in
  if r =? RTC_SECONDS then enc dt.(dt_second) else if r =? RTC_MINUTES then enc dt.(dt_minute) else if r =? RTC_HOURS then enc dt.(dt_hour)
  else if r =? RTC_DAY then enc dt.(dt_day) else if r =? RTC_MONTH then enc dt.(dt_month) else if r =? RTC_YEAR then enc (dt.(dt_year) - 2000)
  else if r =? RTC_WEEKDAY then dt.(dt_weekday) else if r =? RTC_STATUS_B then if binary then 6 else 2 else 0.
Lemma below_indices P n : forallb (fun i => P (Z.of_nat i)) (seq 0 n) = true -> forall h, 0 <= h < Z.of_nat n -> P h = true.
Proof.
  intros H h Hh. rewrite forallb_forall in H. rewrite <- (Z2Nat.id h) by lia. apply H. apply in_seq. lia.
Qed.
(** A clock that shows 24 hours, in BCD or in binary, is read as the date it
    shows, for the years 2000 to 2099. *)
Theorem rtc_reads_clock dt binary : valid_date dt -> 2000 <= dt.(dt_year) < 2100 ->
  key (rtc_read_datetime (clock dt binary)) = key dt /\ (rtc_read_datetime (clock dt binary)).(dt_weekday) = dt.(dt_weekday).
Proof.
  intros V Hy. pose proof (month_length _ (dt_year dt) (vd_month _ V)) as L. destruct V. split; [|by destruct binary].
  assert (Hh : forall h, 0 <= h < 24 -> Z.lor (bcd_to_binary (Z.land (to_bcd h) 0x7F)) (Z.land (to_bcd h) 0x80) = h /\ Z.land h 0x80 = 0).
  { intros h Hh. pose proof (below_indices (fun h => (Z.lor (bcd_to_binary (Z.land (to_bcd h) 0x7F)) (Z.land (to_bcd h) 0x80) =? h) && (Z.land h 0x80 =? 0)) 24 ltac:(by vm_compute) h Hh) as P.
    cbv beta in P. by apply andb_true_iff in P as [?%Z.eqb_eq ?%Z.eqb_eq]. }
  destruct (Hh _ vd_hour0) as [H1 H2]. unfold key, rtc_read_datetime, clock. destruct binary; cbn [dt_year dt_month dt_day dt_hour dt_minute dt_second].
  - change (Z.land _ 4 =? 0) with false. change (Z.land _ 2 =? 0) with false. cbn -[u16]. rewrite u16_small by (widths; lia). f_equal. lia.
  - change (Z.land _ 4 =? 0) with true. change (Z.land _ 2 =? 0) with false. cbn -[u16 bcd_to_binary to_bcd Z.land Z.lor]. rewrite H1, !bcd_value by lia.
    rewrite u16_small by (widths; lia). f_equal. lia.
Qed.
Definition date0 : datetime_t := mk_datetime 59 30 23 31 12 2024 3.
Lemma rtc_reads_clock_witness : key (rtc_read_datetime (clock date0 false)) = key date0 /\ (rtc_read_datetime (clock date0 false)).(dt_weekday) = date0.(dt_weekday).
Proof. apply (rtc_reads_clock date0 false); [constructor; cbn; (lia || (split; vm_compute; congruence))|cbn; lia]. Defined.
(** A clock that shows twelve hours: 12, 1, ..., 11, with bit 7 set after noon. *)
Definition clock12 (h : Z) (binary : bool) (r : Z) : Z :=
  let shown := if h mod 12 =? 0 then 12 else h mod 12 in
  let shown := if binary then shown else to_bcd shown in
  if r =? RTC_HOURS then (if 12 <=? h then Z.lor shown 0x80 else shown) else if r =? RTC_STATUS_B then if binary then 4 else 0 else 1.
(** Midnight is read as noon and noon as midnight; all other hours are right. *)
Theorem rtc_12_hours h binary : 0 <= h < 24 -> (rtc_read_datetime (clock12 h binary)).(dt_hour) = if h =? 0 then 12 else if h =? 12 then 0 else h.
Proof.
  intros Hh. apply Z.eqb_eq. revert h Hh. apply (below_indices (fun h => (rtc_read_datetime (clock12 h binary)).(dt_hour) =? _) 24). by destruct binary; vm_compute.
Qed.

(** ** Ticks *)
(** The uptime is exact at 1000 Hz, and at another frequency as long as the 32-bit
    product does not wrap. *)
Theorem uptime_exact s : 0 < s.(g_timer_frequency) -> 0 <= s.(g_timer_ticks) < 2 ^ 64 ->
  s.(g_timer_frequency) = 1000 \/ s.(g_timer_ticks) * 1000 < 2 ^ 32 ->
  timer_get_uptime_ms s = s.(g_timer_ticks) * 1000 / s.(g_timer_frequency).
Proof.
  intros Hf Ht Hc. unfold timer_get_uptime_ms. rewrite (proj2 (Z.eqb_neq _ 0)) by lia. destruct (g_timer_frequency s =? 1000) eqn:E; bool_hyps.
  - rewrite E. symmetry. apply Z.div_mul. lia.
  - destruct Hc as [?|Hc]; [done|]. rewrite !u32_small by (widths; lia). done.
Qed.
(** At 100 Hz it starts again from 0 after less than twelve hours. *)
Example uptime_wraps : timer_get_uptime_ms (mk_timer 4294968 100 0 true) = 7 /\ timer_get_uptime_seconds (mk_timer 4294968 100 0 true) = 42949.
Proof. by vm_compute. Qed.
(** A frequency below 19 Hz is beyond the divisor of the chip, which then runs
    faster than the uptime assumes. *)
Example slow_timer : (timer_init 10 (clock date0 false) (mk_timer 0 1000 0 false)).1 = 65535 /\ PIT_FREQUENCY / 65535 = 18.
Proof. by vm_compute. Qed.

(** ** Texts *)
Fixpoint digits_value (a : Z) (l : list Z) : Z := match l with [] => a | c :: l' => digits_value (a * 10 + (c - 48)) l' end.
Lemma two_digits v : 0 <= v < 100 -> digits_value 0 (WRITE_2DIGIT v) = v /\ length (WRITE_2DIGIT v) = 2%nat.
Proof. intros H. split; [|done]. unfold WRITE_2DIGIT. cbn [digits_value]. rewrite !u8_small by (widths; lia). lia. Qed.
Lemma four_digits v : 0 <= v < 10000 -> digits_value 0 (WRITE_4DIGIT v) = v /\ length (WRITE_4DIGIT v) = 4%nat.
Proof. intros H. split; [|done]. unfold WRITE_4DIGIT. cbn [digits_value]. rewrite !u8_small by (widths; lia). lia. Qed.
(** What a reader of the ISO text finds at the places of the fields. *)
Definition parse_iso (s : list Z) : list Z :=
  let field i n := digits_value 0 (take n (drop i s)) in [field 0 4; field 5 2; field 8 2; field 11 2; field 14 2; field 17 2]%nat.
(** The ISO text of a valid date up to the year 9999 has 19 characters, so
    that it fits its buffer of 20, and reading its fields back gives the date. *)
Theorem datetime_format_parse dt : valid_date dt -> dt.(dt_year) < 10000 -> zlen (datetime_format dt 0) = 19 /\ parse_iso (datetime_format dt 0) = key dt.
Proof.
  intros V Hy. pose proof (month_length _ (dt_year dt) (vd_month _ V)) as L. destruct V. split; [done|]. unfold parse_iso, key.
  destruct (four_digits (dt_year dt) ltac:(lia)) as [Y _], (two_digits (dt_month dt) ltac:(lia)) as [M _], (two_digits (dt_day dt) ltac:(lia)) as [D _],
    (two_digits (dt_hour dt) ltac:(lia)) as [H _], (two_digits (dt_minute dt) ltac:(lia)) as [Mi _], (two_digits (dt_second dt) ltac:(lia)) as [Se _].
  cbv zeta. repeat (apply f_equal2; [first [exact Y|exact M|exact D|exact H|exact Mi|exact Se]|]). done.
Qed.
Lemma datetime_format_parse_witness : zlen (datetime_format date0 0) = 19 /\ parse_iso (datetime_format date0 0) = key date0.
Proof. apply (datetime_format_parse date0); [constructor; cbn; (lia || (split; vm_compute; congruence))|by vm_compute]. Defined.
