(* ===== verification/Klog.v ===== *)
(** The log of the kernel (src/kernel/klog.c, src/kernel/klog.h): the text of a
    message, the buffer in memory that holds the first messages, the log file
    and the serial port.

    Strings are lists of bytes without the NUL at the end.  The time of a message
    is the uptime when it is written, the n-th reading of the clock being
    [uptime n].  A message that does not fit its buffer of 512 bytes is written
    behind it: the result is [None] then. *)
From Stdlib Require Import Strings.String Strings.Ascii.
From S2P Require Import Prelude Cstring NetBase Vfs VfsSpec Config ConfigSpec Http Timer.

Definition KLOG_BUFFER_SIZE : Z := 8192.
Definition KLOG_MAX_MSG_LEN : Z := 512.
Definition KLOG_FILE_PATH : list Z := str "/system/logs/kernel.log".
Definition KLOG_SYSTEM_DIR : list Z := str "/system".
Definition KLOG_LOGS_DIR : list Z := str "/system/logs".
Definition LOG_DEBUG : Z := 0.
Definition LOG_INFO : Z := 1.
Definition LOG_WARN : Z := 2.
Definition LOG_ERROR : Z := 3.
Definition LOG_NONE : Z := 4.
Definition VFS_O_RDWR : Z := 2.

(** ** Texts *)
(** The digits from the last to the first; ten are enough for 32 bits. *)
Fixpoint uint_digits (fuel : nat) (value : Z) : list Z :=
  match fuel with
  | O => []
  | S fuel' => if 0 <? value then (48 + value mod 10) :: uint_digits fuel' (value / 10) else []
  end.
Definition uint_to_str (value : Z) : list Z := if value =? 0 then [48] else rev (uint_digits 10 value).
Definition hex_chars : list Z := str "0123456789ABCDEF".
Definition uint_to_hex (value : Z) : list Z :=
  str "0x" ++ map (fun i => rd0 hex_chars (Z.land (Z.shiftr value (i * 4)) 0xF)) [7; 6; 5; 4; 3; 2; 1; 0].
Definition level_to_string (level : Z) : list Z :=
  if level =? LOG_DEBUG then str "[DEBUG]" else if level =? LOG_INFO then str "[INFO] " else if level =? LOG_WARN then str "[WARN] "
  else if level =? LOG_ERROR then str "[ERROR]" else str "[?????]".
Definition timestamp (uptime : Z) : list Z :=
  let seconds := uptime / 1000 in
  let ms := uptime mod 1000 in
  let padding := if ms <? 10 then str "00" else if ms <? 100 then str "0" else [] in
  str "[" ++ uint_to_str seconds ++ str "." ++ padding ++ uint_to_str ms ++ str "] ".
(** [module] and [suffix] may be NULL, which the model writes as the empty string:
    the code treats them alike. *)
Definition format_message (uptime level : Z) (module msg suffix : list Z) : list Z :=
  timestamp uptime ++ level_to_string level ++ str " " ++
  (if bool_decide (module = []) then [] else str "[" ++ module ++ str "] ") ++ msg ++ suffix ++ [NL].

Section klog.
Context {F D C N E : Type} `{FileSystem F D C N E} (uptime : nat -> Z).

Record klog_t := mk_klog {
  early_buffer : list Z;
  early_buffer_pos : Z;
  early_mode : bool;
  log_file : option Z;
  log_file_offset : Z;
  current_level : Z;
  initialized : bool;
  serial : list Z;          (** what the serial port has sent *)
  readings : nat;           (** readings of the clock *)
  files : vfs F D C N
}.
Definition klog_start (fs : vfs F D C N) : klog_t :=
  mk_klog (replicate (Z.to_nat KLOG_BUFFER_SIZE) 0) 0 true None 0 LOG_DEBUG false [] 0 fs.
Definition set_early (b : list Z) (p : Z) (k : klog_t) : klog_t :=
  mk_klog b p k.(early_mode) k.(log_file) k.(log_file_offset) k.(current_level) k.(initialized) k.(serial) k.(readings) k.(files).
Definition set_modes (early : bool) (file : option Z) (init : bool) (k : klog_t) : klog_t :=
  mk_klog k.(early_buffer) k.(early_buffer_pos) early file k.(log_file_offset) k.(current_level) init k.(serial) k.(readings) k.(files).
Definition set_offset (o : Z) (k : klog_t) : klog_t :=
  mk_klog k.(early_buffer) k.(early_buffer_pos) k.(early_mode) k.(log_file) o k.(current_level) k.(initialized) k.(serial) k.(readings) k.(files).
Definition with_level (l : Z) (k : klog_t) : klog_t :=
  mk_klog k.(early_buffer) k.(early_buffer_pos) k.(early_mode) k.(log_file) k.(log_file_offset) l k.(initialized) k.(serial) k.(readings) k.(files).
Definition with_files (fs : vfs F D C N) (k : klog_t) : klog_t :=
  mk_klog k.(early_buffer) k.(early_buffer_pos) k.(early_mode) k.(log_file) k.(log_file_offset) k.(current_level) k.(initialized) k.(serial) k.(readings) fs.
Definition sent (s : list Z) (k : klog_t) : klog_t :=
  mk_klog k.(early_buffer) k.(early_buffer_pos) k.(early_mode) k.(log_file) k.(log_file_offset) k.(current_level) k.(initialized) (k.(serial) ++ s) k.(readings) k.(files).
Definition read_clock (k : klog_t) : klog_t :=
  mk_klog k.(early_buffer) k.(early_buffer_pos) k.(early_mode) k.(log_file) k.(log_file_offset) k.(current_level) k.(initialized) k.(serial) (S k.(readings)) k.(files).

(** ** Writing *)
Definition write_to_early_buffer (s : list Z) (k : klog_t) : klog_t :=
  let len := zlen s in
  let pos := if KLOG_BUFFER_SIZE - 1 <=? k.(early_buffer_pos) + len then 0 else k.(early_buffer_pos) in
  let b := take (Z.to_nat pos) k.(early_buffer) ++ s ++ [0] ++ drop (Z.to_nat (pos + len + 1)) k.(early_buffer) in
  set_early b (u32 (pos + len)) k.
Definition write_to_file (s : list Z) (k : klog_t) : klog_t :=
  match k.(log_file) with
  | None => k
  | Some _ =>
      let '(written, fs) := vfs_write k.(log_file) k.(log_file_offset) s k.(files) in
      let k := with_files fs k in
      let k := if 0 <? written then set_offset (u32 (k.(log_file_offset) + written)) k else k in
      if 0 <? written then set_offset (u32 (k.(log_file_offset) + written)) k else k
  end.
Definition do_log (level : Z) (module msg suffix : list Z) (k : klog_t) : option klog_t :=
  if level <? k.(current_level) then Some k
  else
    let formatted := format_message (uptime k.(readings)) level module msg suffix in
    let k := read_clock k in
    if KLOG_MAX_MSG_LEN <=? zlen formatted then None
    else Some (sent formatted (if k.(early_mode) then write_to_early_buffer formatted k else write_to_file formatted k)).
Definition klog (level : Z) (module msg : list Z) (k : klog_t) : option klog_t := do_log level module msg [] k.
Definition klog_dec (level : Z) (module msg : list Z) (value : Z) (k : klog_t) : option klog_t := do_log level module msg (uint_to_str value) k.
Definition klog_hex (level : Z) (module msg : list Z) (value : Z) (k : klog_t) : option klog_t := do_log level module msg (uint_to_hex value) k.

(** ** Start and end *)
Definition klog_early_init (k : klog_t) : option klog_t :=
  let k := set_early (replicate (Z.to_nat KLOG_BUFFER_SIZE) 0) 0 k in
  let k := set_modes true k.(log_file) k.(initialized) k in
  let k := with_level LOG_INFO k in
  klog LOG_INFO (str "KLOG") (str "Early logging initialized (memory buffer + serial)") k.
(** One of the two directories: the boolean tells whether it is there now. *)
Definition make_dir (path creating failed : list Z) (k : klog_t) : option (bool * klog_t) :=
  let '(dir, fs) := vfs_resolve_path path k.(files) in
  let k := with_files fs k in
  match dir with
  | Some _ => Some (true, k)
  | None =>
      k ← klog LOG_INFO (str "KLOG") creating k;
      let '(r, fs) := vfs_mkdir path k.(files) in
      let k := with_files fs k in
      if negb (r =? 0) then k ← klog LOG_ERROR (str "KLOG") failed k; Some (false, k) else Some (true, k)
  end.
Definition separator : list Z := [NL] ++ str "========== NEW BOOT SESSION ==========" ++ [NL].
(** From the open file on. *)
Definition start_file (p : Z) (size : Z) (k : klog_t) : option klog_t :=
  let k := set_modes k.(early_mode) (Some p) k.(initialized) k in
  let k := set_offset size k in
  let k := with_files (vfs_write (Some p) k.(log_file_offset) separator k.(files)).2 k in
  let k := set_offset (u32 (k.(log_file_offset) + zlen separator)) k in
  let k := set_modes false k.(log_file) true k in
  let k := if 0 <? k.(early_buffer_pos) then write_to_file (c_str k.(early_buffer)) k else k in
  klog LOG_INFO (str "KLOG") (str "File-based logging active") k.
Definition klog_init (k : klog_t) : option (Z * klog_t) :=
  if k.(initialized) then Some (0, k)
  else
    k ← klog LOG_INFO (str "KLOG") (str "Initializing file-based logging...") k;
    '(ok, k) ← make_dir KLOG_SYSTEM_DIR (str "Creating /system directory...") (str "Failed to create /system directory") k;
    if negb ok then Some (-1, k)
    else
      '(ok, k) ← make_dir KLOG_LOGS_DIR (str "Creating /system/logs directory...") (str "Failed to create /system/logs directory") k;
      if negb ok then Some (-1, k)
      else
        let '(file, fs) := vfs_open KLOG_FILE_PATH (Z.lor VFS_O_RDWR VFS_O_CREAT) k.(files) in
        let k := with_files fs k in
        match file with
        | None =>
            let k := set_modes k.(early_mode) None k.(initialized) k in
            k ← klog LOG_ERROR (str "KLOG") (str "Failed to open/create log file") k; Some (-1, k)
        | Some p =>
            let size := match node_ctx k.(files) p with Some (o, _) => nd_size o.(o_node) | None => 0 end in
            k ← start_file p size k; Some (0, k)
        end.
Definition klog_shutdown (k : klog_t) : option klog_t :=
  k ← match k.(log_file) with
      | None => Some k
      | Some _ =>
          k ← klog LOG_INFO (str "KLOG") (str "Shutting down logging system") k;
          let k := with_files (vfs_close k.(log_file) k.(files)).2 k in
          Some (set_modes k.(early_mode) None k.(initialized) k)
      end;
  Some (set_modes true k.(log_file) false k).
Definition klog_set_level (level : Z) (k : klog_t) : klog_t := with_level level k.
Definition klog_get_level (k : klog_t) : Z := k.(current_level).
End klog.
Arguments klog_t : clear implicits.

(** ** Numbers and texts *)
Definition digit_list (ds : list Z) : Prop := Forall (fun c => isdigit c = true) ds.
Lemma uint_digits_spec fuel : forall v, 0 <= v < 10 ^ Z.of_nat fuel ->
  digit_list (uint_digits fuel v) /\ dec_value 0 (rev (uint_digits fuel v)) = v /\ (0 < v -> uint_digits fuel v <> []).
Proof.
  induction fuel as [|fuel IH]; intros v Hv; cbn [uint_digits].
  - change (10 ^ Z.of_nat 0) with 1 in Hv. split; [constructor|]. split; [cbn; lia|lia].
  - destruct (0 <? v) eqn:E; bool_hyps; [|split; [constructor|split; [cbn; lia|lia]]]. rewrite Nat2Z.inj_succ, Z.pow_succ_r in Hv by lia.
    destruct (IH (v / 10)) as (Fd & Ed & _); [lia|]. split_and!; [|cbn [rev]; unfold dec_value in *; rewrite fold_left_app, Ed; cbn [fold_left]; lia|done].
    constructor; [|done]. unfold isdigit. apply andb_true_iff. split; apply Z.leb_le; lia.
Qed.
Lemma uint_digits_length fuel n : forall v, 0 <= v < 10 ^ Z.of_nat n -> (length (uint_digits fuel v) <= n)%nat.
Proof.
  revert n. induction fuel as [|fuel IH]; intros n v Hv; cbn [uint_digits]; [cbn; lia|]. destruct (0 <? v) eqn:E; bool_hyps; [|cbn; lia].
  destruct n as [|n]; [change (10 ^ Z.of_nat 0) with 1 in Hv; lia|]. rewrite Nat2Z.inj_succ, Z.pow_succ_r in Hv by lia. cbn [length].
  specialize (IH n (v / 10) ltac:(lia)). lia.
Qed.
(** The decimal text of a 32-bit value. *)
Lemma uint_to_str_value v : is_u32 v -> digit_list (uint_to_str v) /\ dec_value 0 (uint_to_str v) = v /\ uint_to_str v <> [].
Proof.
  intros Hv. unfold uint_to_str. destruct (v =? 0) eqn:E; bool_hyps; [subst; split; [by repeat constructor|done]|].
  destruct (uint_digits_spec 10 v) as (Fd & Ed & Nd); [unfold is_u32 in Hv; split; [lia|]; etrans; [apply Hv|by vm_compute]|].
  split_and!; [by apply Forall_rev|done|]. destruct (uint_digits 10 v) as [|d l]; [unfold is_u32 in Hv; exfalso; apply Nd; [lia|done]|]. cbn [rev]. by destruct (rev l).
Qed.
Lemma uint_to_str_length n v : (0 < n)%nat -> 0 <= v < 10 ^ Z.of_nat n -> 1 <= zlen (uint_to_str v) <= Z.of_nat n.
Proof.
  intros Hn Hv. unfold uint_to_str. destruct (v =? 0) eqn:E; bool_hyps; [change (zlen [48]) with 1; lia|]. unfold zlen. rewrite length_rev.
  pose proof (uint_digits_length 10 n v Hv). destruct (uint_digits 10 v) eqn:Eu; [|cbn in *; lia]. cbn [uint_digits] in Eu. rewrite (proj2 (Z.ltb_lt 0 v)) in Eu by lia. done.
Qed.
Definition hex_digit (c : Z) : Z := if c <? 58 then c - 48 else c - 55.
Definition hex_value (l : list Z) : Z := fold_left (fun a c => a * 16 + hex_digit c) l 0.
(** The hexadecimal text: the prefix and eight digits with the value. *)
Lemma uint_to_hex_value v : is_u32 v -> exists ds, uint_to_hex v = str "0x" ++ ds /\ zlen ds = 8 /\ hex_value ds = v.
Proof.
  intros Hv. eexists. split; [done|]. split; [done|]. unfold hex_value. cbn [fold_left map].
  assert (R : forall i, 0 <= i -> hex_digit (rd0 hex_chars (Z.land (Z.shiftr v i) 0xF)) = v / 2 ^ i mod 16).
  { intros i Hi. change 0xF with (Z.ones 4). rewrite Z.land_ones, Z.shiftr_div_pow2 by lia. change (2 ^ 4) with 16.
    apply Z.eqb_eq. refine (below_indices (fun h => hex_digit (rd0 hex_chars h) =? h) 16 _ _ _); [by vm_compute|lia]. }
  rewrite !R by lia. unfold is_u32 in Hv. cbn [Z.mul Pos.mul]. pow2. lia.
Qed.
(** Three digits for the milliseconds. *)
Definition milliseconds (m : Z) : list Z := (if m <? 10 then str "00" else if m <? 100 then str "0" else []) ++ uint_to_str m.
Lemma milliseconds_value m : 0 <= m < 1000 -> digit_list (milliseconds m) /\ zlen (milliseconds m) = 3 /\ dec_value 0 (milliseconds m) = m.
Proof.
  intros Hm. pose proof (below_indices (fun m => forallb isdigit (milliseconds m) && (zlen (milliseconds m) =? 3) && (dec_value 0 (milliseconds m) =? m)) 1000 ltac:(by vm_compute) m Hm) as P.
  cbv beta in P. apply andb_true_iff in P as [[P1 ?%Z.eqb_eq]%andb_true_iff ?%Z.eqb_eq]. split; [|done]. apply List.Forall_forall. by apply forallb_forall.
Qed.
(** The time stamp gives the seconds and, with three digits, the milliseconds. *)
Lemma timestamp_value u : is_u32 u -> exists sec ms, timestamp u = str "[" ++ sec ++ str "." ++ ms ++ str "] " /\
  digit_list sec /\ digit_list ms /\ 1 <= zlen sec <= 7 /\ zlen ms = 3 /\ dec_value 0 sec * 1000 + dec_value 0 ms = u.
Proof.
  intros Hu. unfold is_u32 in Hu. pow2. destruct (uint_to_str_value (u / 1000)) as (F1 & E1 & _); [unfold is_u32; lia|].
  destruct (milliseconds_value (u mod 1000)) as (F2 & L2 & E2); [lia|].
  pose proof (uint_to_str_length 7 (u / 1000) ltac:(lia) ltac:(change (10 ^ Z.of_nat 7) with 10000000; lia)) as L1.
  exists (uint_to_str (u / 1000)), (milliseconds (u mod 1000)). split; [unfold timestamp, milliseconds; by rewrite <- !app_assoc|]. split_and!; try done; lia.
Qed.
Lemma timestamp_length u : is_u32 u -> zlen (timestamp u) <= 14.
Proof.
  intros Hu. destruct (timestamp_value u Hu) as (sec & ms & -> & _ & _ & L1 & L2 & _). rewrite !zlen_app, L2.
  change (zlen (str "[")) with 1. change (zlen (str ".")) with 1. change (zlen (str "] ")) with 2. lia.
Qed.
Lemma level_length level : zlen (level_to_string level) = 7.
Proof. unfold level_to_string. by repeat case_if. Qed.
(** What a message takes beside its parts. *)
Definition HEADER : Z := 26.
Lemma message_length u level module msg suffix : is_u32 u ->
  zlen module + zlen msg + zlen suffix < zlen (format_message u level module msg suffix) <= HEADER + zlen module + zlen msg + zlen suffix.
Proof.
  intros Hu. pose proof (timestamp_length u Hu) as T. unfold format_message, HEADER. rewrite !zlen_app, level_length. change (zlen (str " ")) with 1. change (zlen [NL]) with 1.
  pose proof (zlen_nonneg (timestamp u)). case_bool_decide as Hm; [subst; change (zlen []) with 0; lia|]. rewrite !zlen_app. change (zlen (str "[")) with 1. change (zlen (str "] ")) with 2. lia.
Qed.
(** No text holds a NUL when its parts hold none. *)
Definition no_nul (l : list Z) : Prop := Forall (fun c => c <> 0) l.
Lemma digits_no_nul l : digit_list l -> no_nul l.
Proof. apply Forall_impl. intros c E. unfold isdigit in E. bool_hyps. lia. Qed.
Lemma message_no_nul u level module msg suffix : is_u32 u -> no_nul module -> no_nul msg -> no_nul suffix -> no_nul (format_message u level module msg suffix).
Proof.
  intros Hu Nm Nt Ns. destruct (timestamp_value u Hu) as (sec & ms & T & F1 & F2 & _). unfold format_message, no_nul in *. rewrite T.
  assert (K : forall l, forallb (fun c => negb (c =? 0)) l = true -> Forall (fun c => c <> 0) l).
  { intros l Hl. apply List.Forall_forall. intros c Hc. rewrite forallb_forall in Hl. specialize (Hl c Hc). by bool_hyps. }
  apply digits_no_nul in F1, F2. rewrite !Forall_app. split_and!; try done; try (by apply K).
  - unfold level_to_string. apply K. by repeat case_if.
  - case_bool_decide; [by constructor|]. rewrite !Forall_app. split_and!; try done; by apply K.
Qed.
Lemma c_str_app l l' : no_nul l -> c_str (l ++ 0 :: l') = l.
Proof. induction 1 as [|c l Hc _ IH]; [done|]. cbn [app c_str]. by rewrite (proj2 (Z.eqb_neq _ _) Hc), IH. Qed.

(** ** The early buffer *)
Record call := mk_call { c_level : Z; c_module : list Z; c_msg : list Z; c_suffix : list Z }.
(** The parts of a message are strings and leave room for the rest. *)
Definition call_ok (c : call) : Prop :=
  no_nul c.(c_module) /\ no_nul c.(c_msg) /\ no_nul c.(c_suffix) /\ HEADER + zlen c.(c_module) + zlen c.(c_msg) + zlen c.(c_suffix) < KLOG_MAX_MSG_LEN.
Section spec.
Context {F D C N E : Type} `{FileSystem F D C N E} (uptime : nat -> Z) (uptime_range : forall n, is_u32 (uptime n)).
Local Abbreviation klog_t := (klog_t F D C N).

Fixpoint log_all (calls : list call) (k : klog_t) : option klog_t :=
  match calls with
  | [] => Some k
  | c :: calls' => k ← do_log uptime c.(c_level) c.(c_module) c.(c_msg) c.(c_suffix) k; log_all calls' k
  end.
(** The texts of the calls at or above a level, when the clock was read [n]
    times before. *)
Fixpoint texts (level : Z) (n : nat) (calls : list call) : list (list Z) :=
  match calls with
  | [] => []
  | c :: calls' =>
      if c.(c_level) <? level then texts level n calls'
      else format_message (uptime n) c.(c_level) c.(c_module) c.(c_msg) c.(c_suffix) :: texts level (S n) calls'
  end.
(** The buffer holds, with a NUL behind it, the last of the messages written;
    all of them as long as they fit. *)
Record keeps_last (ms : list (list Z)) (k : klog_t) : Prop := mk_keeps_last {
  kl_length : zlen k.(early_buffer) = KLOG_BUFFER_SIZE;
  kl_last : exists j rest, (j <= length ms)%nat /\ k.(early_buffer) = concat (drop j ms) ++ 0 :: rest /\ zlen (concat (drop j ms)) = k.(early_buffer_pos) /\
    (zlen (concat ms) < KLOG_BUFFER_SIZE - 1 -> j = 0%nat) /\ (ms <> [] -> (j < length ms)%nat);
  kl_pos : 0 <= k.(early_buffer_pos) < KLOG_BUFFER_SIZE - 1
}.
Lemma early_step ms s k : keeps_last ms k -> 0 < zlen s < KLOG_MAX_MSG_LEN -> keeps_last (ms ++ [s]) (write_to_early_buffer s k).
Proof.
  unfold KLOG_MAX_MSG_LEN. intros [L (j & rest & Hj & E1 & Ep & Hall & Hne) Hp] Hs. unfold write_to_early_buffer, KLOG_BUFFER_SIZE in *. cbv zeta.
  assert (CS : concat (ms ++ [s]) = concat ms ++ s) by (rewrite concat_app; change (concat [s]) with (s ++ []); by rewrite app_nil_r).
  destruct (8192 - 1 <=? early_buffer_pos k + zlen s) eqn:Eo; bool_hyps.
  - rewrite !Z.add_0_l. rewrite u32_small by (widths; lia). change (Z.to_nat 0) with 0%nat. rewrite take_0. cbn [app]. split; unfold KLOG_BUFFER_SIZE; cbn [set_early early_buffer early_buffer_pos]; [|exists (length ms)|lia].
    + unfold zlen in *. rewrite length_app. cbn [length]. rewrite length_drop. lia.
    + rewrite drop_app_length. change (concat [s]) with (s ++ []). rewrite app_nil_r. eexists. split; [rewrite length_app; lia|]. split; [done|]. split; [done|].
      split; [|rewrite length_app; cbn; lia]. rewrite CS, zlen_app. intros Hl. destruct ms as [|m ms]; [done|]. exfalso. rewrite Hall in Ep by lia. change (drop 0 (m :: ms)) with (m :: ms) in Ep. lia.
  - rewrite u32_small by (widths; lia). assert (T : take (Z.to_nat (early_buffer_pos k)) (early_buffer k) = concat (drop j ms)).
    { rewrite E1, take_app_le by (unfold zlen in Ep; lia). apply take_ge. unfold zlen in Ep. lia. }
    rewrite T. split; unfold KLOG_BUFFER_SIZE; cbn [set_early early_buffer early_buffer_pos]; [|exists j|lia].
    + unfold zlen in *. rewrite !length_app. cbn [length]. rewrite length_drop. lia.
    + rewrite drop_app_le by done. rewrite concat_app. change (concat [s]) with (s ++ []). rewrite app_nil_r. eexists. rewrite <- app_assoc. split; [rewrite length_app; lia|]. split; [done|].
      rewrite zlen_app, Ep. split; [done|]. split; [|rewrite length_app; cbn; lia]. rewrite CS, zlen_app. intros. apply Hall. lia.
Qed.
Lemma write_to_file_modes s k : let k' := write_to_file s k in
  k'.(early_mode) = k.(early_mode) /\ k'.(initialized) = k.(initialized) /\ k'.(log_file) = k.(log_file) /\ k'.(current_level) = k.(current_level).
Proof. unfold write_to_file. destruct (log_file k) eqn:El; [|done]. destruct (vfs_write _ _ _ _) as [w fs]. cbv zeta. by case_if. Qed.
Lemma log_level_eq level module msg suffix k k' : do_log uptime level module msg suffix k = Some k' ->
  k'.(current_level) = k.(current_level) /\ k'.(early_mode) = k.(early_mode) /\ k'.(log_file) = k.(log_file) /\ k'.(initialized) = k.(initialized).
Proof.
  unfold do_log. destruct (level <? current_level k); [by intros [= <-]|]. case_if; [done|]. intros [= <-]. cbn. destruct (early_mode k) eqn:Em; [done|].
  unfold write_to_file. cbn. destruct (log_file k) eqn:El; [|done]. destruct (vfs_write _ _ _ _) as [w fs]. cbv zeta. by case_if.
Qed.
(** One message in the early mode. *)
Lemma early_log ms c k : call_ok c -> k.(early_mode) = true -> keeps_last ms k -> exists k', do_log uptime c.(c_level) c.(c_module) c.(c_msg) c.(c_suffix) k = Some k' /\
  let out := texts k.(current_level) k.(readings) [c] in
  keeps_last (ms ++ out) k' /\ k'.(serial) = k.(serial) ++ concat out /\ k'.(readings) = (k.(readings) + length out)%nat /\ k'.(early_mode) = true /\ k'.(current_level) = k.(current_level).
Proof.
  intros (_ & _ & _ & Hl) Hm K. unfold do_log. cbn [texts]. destruct (c_level c <? current_level k) eqn:El.
  { eexists. split; [done|]. cbv zeta. rewrite !app_nil_r, Nat.add_0_r. by split_and!. }
  pose proof (message_length (uptime (readings k)) (c_level c) (c_module c) (c_msg c) (c_suffix c) (uptime_range _)) as M. cbv zeta.
  pose proof (zlen_nonneg (c_module c)); pose proof (zlen_nonneg (c_msg c)); pose proof (zlen_nonneg (c_suffix c)).
  rewrite (proj2 (Z.leb_gt _ _)) by lia. eexists. split; [done|]. cbn [read_clock early_mode]. rewrite Hm. cbn [concat length]. rewrite app_nil_r.
  split; [|split; [done|split; [cbn; lia|split; [done|done]]]].
  assert (K' : keeps_last ms (read_clock k)) by (destruct K; by constructor). destruct (early_step ms (format_message (uptime (readings k)) (c_level c) (c_module c) (c_msg c) (c_suffix c)) _ K') as [A B P]; [lia|]. by constructor.
Qed.
Lemma texts_cons level n c calls : texts level n (c :: calls) = texts level n [c] ++ texts level (n + length (texts level n [c])) calls.
Proof. cbn [texts]. case_if; cbn [app length]; by rewrite ?Nat.add_0_r, ?Nat.add_1_r. Qed.
Lemma texts_no_nul level calls : forall n, Forall call_ok calls -> Forall no_nul (texts level n calls).
Proof.
  induction calls as [|c calls IH]; intros n Hc; [constructor|]. apply list.Forall_cons in Hc as [(N1 & N2 & N3 & _) Hc]. cbn [texts]. case_if; [by apply IH|].
  constructor; [by apply message_no_nul|by apply IH].
Qed.
Lemma early_logs calls : forall ms k, Forall call_ok calls -> k.(early_mode) = true -> keeps_last ms k -> exists k', log_all calls k = Some k' /\
  let out := texts k.(current_level) k.(readings) calls in
  keeps_last (ms ++ out) k' /\ k'.(serial) = k.(serial) ++ concat out /\ k'.(early_mode) = true.
Proof.
  induction calls as [|c calls IH]; intros ms k Hc Hm K.
  { exists k. split; [done|]. cbv zeta. cbn [texts concat]. rewrite !app_nil_r. by split_and!. }
  apply list.Forall_cons in Hc as [Hc Hcs]. destruct (early_log ms c k Hc Hm K) as (k1 & E1 & K1 & S1 & R1 & M1 & L1). cbn [log_all]. rewrite E1. cbn [mbind option_bind].
  destruct (IH _ k1 Hcs M1 K1) as (k' & E' & K' & S' & M'). exists k'. split; [done|]. cbv zeta. rewrite L1 in K', S'. rewrite texts_cons, <- R1.
  split; [by rewrite app_assoc|]. split; [|done]. by rewrite S', S1, concat_app, <- app_assoc.
Qed.

(** ** The file *)
Lemma fits level module msg suffix k : call_ok (mk_call level module msg suffix) -> exists k', do_log uptime level module msg suffix k = Some k'.
Proof.
  intros (_ & _ & _ & Hl). unfold do_log. case_if; [by eexists|]. cbv zeta. cbn [c_module c_msg c_suffix] in Hl.
  pose proof (message_length (uptime (readings k)) level module msg suffix (uptime_range _)) as M. rewrite (proj2 (Z.leb_gt _ _)) by lia. by eexists.
Qed.
Definition plain (l : list Z) : bool := forallb (fun c => negb (c =? 0)) l && (zlen l <? 100).
Lemma own_call level msg : plain msg = true -> call_ok (mk_call level (str "KLOG") msg []).
Proof.
  intros [Hn Hl]%andb_true_iff. bool_hyps. unfold call_ok, HEADER, KLOG_MAX_MSG_LEN. cbn [c_module c_msg c_suffix]. split_and!; [by repeat constructor| |constructor|].
  - apply List.Forall_forall. intros c Hi. rewrite forallb_forall in Hn. specialize (Hn c Hi). by bool_hyps.
  - change (zlen (str "KLOG")) with 4. change (zlen (@nil Z)) with 0. lia.
Qed.
(** In memory mode, without a log file. *)
Definition in_memory (ms : list (list Z)) (k : klog_t) : Prop :=
  keeps_last ms k /\ k.(early_mode) = true /\ k.(initialized) = false /\ k.(log_file) = None.
Lemma in_memory_files ms fs k : in_memory ms k -> in_memory ms (with_files fs k).
Proof. intros ([] & ? & ? & ?). by split; [constructor|]. Qed.
Lemma in_memory_log ms level msg k : in_memory ms k -> plain msg = true -> exists k' ms', klog uptime level (str "KLOG") msg k = Some k' /\ in_memory (ms ++ ms') k'.
Proof.
  intros (K & M & I & L) Hp. destruct (early_log ms _ k (own_call level msg Hp) M K) as (k' & Ed & K' & _ & _ & M' & _). unfold klog. cbn [c_level c_module c_msg c_suffix] in Ed.
  eexists k', _. split; [done|]. apply log_level_eq in Ed as (_ & _ & L' & I'). unfold in_memory. by rewrite M', L', I'.
Qed.
Lemma make_dir_memory ms path creating failed k : in_memory ms k -> plain creating = true -> plain failed = true ->
  exists ok k' ms', make_dir uptime path creating failed k = Some (ok, k') /\ in_memory (ms ++ ms') k'.
Proof.
  intros K Hc Hf. unfold make_dir. destruct (vfs_resolve_path path (files k)) as [[d|] fs].
  { eexists true, _, []. split; [done|]. rewrite app_nil_r. by apply in_memory_files. }
  destruct (in_memory_log ms LOG_INFO creating (with_files fs k)) as (k1 & m1 & -> & K1); [by apply in_memory_files|done|]. cbn [mbind option_bind].
  destruct (vfs_mkdir path (files k1)) as [r fs1]. case_if; [|eexists true, _, m1; split; [done|by apply in_memory_files]].
  destruct (in_memory_log (ms ++ m1) LOG_ERROR failed (with_files fs1 k1)) as (k2 & m2 & -> & K2); [by apply in_memory_files|done|]. cbn [mbind option_bind].
  eexists false, _, (m1 ++ m2). split; [done|]. by rewrite app_assoc.
Qed.
(** [klog_init] either starts the log file or returns -1, and then the log goes
    on in memory and has lost nothing but what the buffer had to drop. *)
Theorem klog_init_outcome ms k : in_memory ms k -> exists r k', klog_init uptime k = Some (r, k') /\
  ((r = 0 /\ k'.(early_mode) = false /\ k'.(initialized) = true /\ is_Some k'.(log_file)) \/ (r = -1 /\ exists ms', in_memory (ms ++ ms') k')).
Proof.
  intros K. unfold klog_init. rewrite (proj1 (proj2 (proj2 K))).
  destruct (in_memory_log ms LOG_INFO (str "Initializing file-based logging...") k K) as (k1 & m1 & -> & K1); [done|]. cbn [mbind option_bind].
  destruct (make_dir_memory _ KLOG_SYSTEM_DIR (str "Creating /system directory...") (str "Failed to create /system directory") k1 K1) as (ok & k2 & m2 & -> & K2); [done|done|].
  cbn [mbind option_bind]. rewrite <- app_assoc in K2. destruct ok; cbn [negb]; [|by eexists (-1), _; split; [done|right; split; [done|eexists]]].
  destruct (make_dir_memory _ KLOG_LOGS_DIR (str "Creating /system/logs directory...") (str "Failed to create /system/logs directory") k2 K2) as (ok & k3 & m3 & -> & K3); [done|done|].
  cbn [mbind option_bind]. rewrite <- !app_assoc in K3. destruct ok; cbn [negb]; [|by eexists (-1), _; split; [done|right; split; [done|eexists]]].
  destruct (vfs_open KLOG_FILE_PATH _ (files k3)) as [[p|] fs]; cbv zeta.
  - unfold start_file, klog. match goal with |- context [do_log _ ?l ?m ?t [] ?k] => destruct (fits l m t [] k) as [k' Ed]; [by apply own_call|]; rewrite Ed end.
    cbn [mbind option_bind]. eexists 0, k'. split; [done|]. left. apply log_level_eq in Ed as (_ & -> & -> & ->). split; [done|]. case_if; [|by cbn].
    match goal with |- context [write_to_file ?s ?k] => by destruct (write_to_file_modes s k) as (-> & -> & -> & _) end.
  - destruct (in_memory_log (ms ++ m1 ++ m2 ++ m3) LOG_ERROR (str "Failed to open/create log file") (set_modes (early_mode (with_files fs k3)) None (initialized (with_files fs k3)) (with_files fs k3))) as (k4 & m4 & -> & K4); [|done|].
    + destruct K3 as ([] & ? & ? & ?). split_and!; [by constructor|done|done|done].
    + cbn [mbind option_bind]. eexists (-1), _. split; [done|]. right. split; [done|]. eexists. by rewrite <- !app_assoc in K4.
Qed.
(** A message that is written in full moves the offset twice. *)
Theorem file_offset_doubles s k p : k.(log_file) = Some p -> 0 < zlen s -> (vfs_write (Some p) k.(log_file_offset) s k.(files)).1 = zlen s ->
  0 <= k.(log_file_offset) -> k.(log_file_offset) + 2 * zlen s < 2 ^ 32 ->
  (write_to_file s k).(log_file_offset) = k.(log_file_offset) + 2 * zlen s.
Proof.
  intros Hp Hs Hw Ho Hb. unfold write_to_file. rewrite Hp. destruct (vfs_write _ _ _ _) as [w fs]. cbn [fst] in Hw. subst w. cbv zeta.
  rewrite (proj2 (Z.ltb_lt _ _)) by done. cbn. rewrite !u32_small; widths; lia.
Qed.
End spec.

(** ** A small file system *)
(** The directories of the log and the file, when they exist; a file that is
    written behind its end is filled with zeros. *)
Module LogFs.
Record disk := mk_disk { has_system : bool; has_logs : bool; log : option (list Z) }.
Inductive node := Root | System | Logs | File (size : Z).
Definition write_at (old : list Z) (off : Z) (d : list Z) : list Z :=
  let padded := old ++ replicate (Z.to_nat (off - zlen old)) 0 in
  take (Z.to_nat off) padded ++ d ++ drop (Z.to_nat (off + zlen d)) padded.
#[global] Instance log_fs : FileSystem unit unit disk node Z := {
  fs_mount _ _ d := (d, Some (mk_disk false false None));
  fs_unmount _ _ d := d;
  fs_get_root _ _ _ := Some Root;
  nd_type n := match n with File _ => 1 | _ => 2 end;
  nd_size n := match n with File size => size | _ => 0 end;
  nd_dir_ops n := match n with File _ => false | _ => true end;
  nd_finddir _ c n name :=
    match n with
    | Root => if c.(has_system) && bool_decide (name = str "system") then Some System else None
    | System => if c.(has_logs) && bool_decide (name = str "logs") then Some Logs else None
    | Logs => if bool_decide (name = str "kernel.log") then (fun b => File (zlen b)) <$> c.(log) else None
    | File _ => None
    end;
  nd_readdir _ _ _ _ := None;
  nd_create d c n name := match n with Logs => (0, (d, mk_disk c.(has_system) c.(has_logs) (Some []), n)) | _ => (-1, (d, c, n)) end;
  nd_mkdir d c n name :=
    match n with
    | Root => (0, (d, mk_disk true c.(has_logs) c.(log), n))
    | System => (0, (d, mk_disk c.(has_system) true c.(log), n))
    | _ => (-1, (d, c, n))
    end;
  nd_unlink d c n _ := (-1, (d, c, n));
  nd_open _ _ := 0;
  nd_read _ c n off size := match n with File _ => (fun b => take (Z.to_nat size) (drop (Z.to_nat off) b)) <$> c.(log) | _ => None end;
  nd_write d c n off b :=
    match n, c.(log) with
    | File _, Some old => (zlen b, (d, mk_disk c.(has_system) c.(has_logs) (Some (write_at old off b)), n))
    | _, _ => (-1, (d, c, n))
    end;
  ent_name _ := [];
  ent_type _ := 0
}.
Definition empty_vfs : vfs unit unit disk node := (vfs_mount [SLASH] [] 0 (vfs_register_fs (mk_filesystem [] tt) (vfs_init tt)).2).2.
(** With the directories and an empty log file. *)
Definition with_log : vfs unit unit disk node :=
  (vfs_create KLOG_FILE_PATH (vfs_mkdir KLOG_LOGS_DIR (vfs_mkdir KLOG_SYSTEM_DIR empty_vfs).2).2).2.
Definition now (n : nat) : Z := Z.of_nat n mod 2 ^ 32.
Definition log_content (k : klog_t unit unit disk node) : option (list Z) :=
  match k.(files).(ctxs) with Some c :: _ => c.(log) | _ => None end.
End LogFs.
Lemma now_range n : is_u32 (LogFs.now n).
Proof. unfold LogFs.now, is_u32. lia. Qed.
Definition hello : call := mk_call LOG_WARN (str "VFS") (str "hello") [].
Lemma klog_init_outcome_witness : exists ms k, in_memory ms k /\ exists r k', klog_init LogFs.now k = Some (r, k') /\
  ((r = 0 /\ k'.(early_mode) = false /\ k'.(initialized) = true /\ is_Some k'.(log_file)) \/ (r = -1 /\ exists ms', in_memory (ms ++ ms') k')).
Proof.
  exists [], (klog_start LogFs.empty_vfs). assert (K : in_memory [] (klog_start LogFs.empty_vfs)).
  { split; [|done]. split; [by vm_compute| |by vm_compute]. exists 0%nat, (replicate (Z.to_nat 8191) 0). by split_and!. }
  split; [exact K|]. apply (klog_init_outcome LogFs.now now_range [] _ K).
Defined.
(** On a fresh disk the directories are made, but the log file is not: its open
    flag for that is ignored.  With a file in place logging starts. *)
Example log_file_never_created :
  fst <$> klog_init LogFs.now (klog_start LogFs.empty_vfs) = Some (-1) /\ fst <$> klog_init LogFs.now (klog_start LogFs.with_log) = Some 0.
Proof. by vm_compute. Qed.
(** The early log is followed by a hole of its own length. *)
Example log_file_hole :
  (k ← klog_early_init LogFs.now (klog_start LogFs.with_log); snd <$> klog_init LogFs.now k) ≫= LogFs.log_content =
  let early := str "[0.000] [INFO]  [KLOG] Early logging initialized (memory buffer + serial)" ++ [NL] ++
               str "[0.001] [INFO]  [KLOG] Initializing file-based logging..." ++ [NL] in
  Some (separator ++ early ++ replicate (length early) 0 ++ str "[0.002] [INFO]  [KLOG] File-based logging active" ++ [NL]).
Proof. by vm_compute. Qed.
(** The early log stays in its buffer after it was written to the file: a new start
    after a shutdown writes it again. *)
Example early_log_stays :
  (k ← klog_early_init LogFs.now (klog_start LogFs.with_log); '(_, k) ← klog_init LogFs.now k; k ← klog_shutdown LogFs.now k; Some k.(early_buffer_pos)) = Some 132.
Proof. by vm_compute. Qed.
(** A long message overruns the buffer on the stack. *)
Example long_message : klog LogFs.now LOG_ERROR [] (replicate 496 65) (klog_start LogFs.empty_vfs) = None.
Proof. by vm_compute. Qed.
