(* ===== verification/Render.v ===== *)
(** Drawing (src/gui/gui_types.h, src/gui/render.c): rectangles and colours, the
    frame buffers, the stack of clips and the opaque primitives.

    The pixels of a buffer are a function from their place, counted from the
    start of the buffer, to their colour; a place may be outside the buffer, and
    the theorems show when it is not.  The anti-aliased primitives, gradients and
    shadows compute with floating-point numbers and are left out, like the blur. *)
From S2P Require Import Prelude NetBase.

(** ** Rectangles *)
Record point_t := mk_point { pt_x : Z; pt_y : Z }.
Record rect_t := mk_rect { r_x : Z; r_y : Z; r_width : Z; r_height : Z }.
#[export] Instance rect_eq_dec : EqDecision rect_t.
Proof. solve_decision. Defined.
Definition point_in_rect (p : point_t) (r : rect_t) : bool :=
  (r.(r_x) <=? p.(pt_x)) && (p.(pt_x) <? s32 (r.(r_x) + r.(r_width))) && (r.(r_y) <=? p.(pt_y)) && (p.(pt_y) <? s32 (r.(r_y) + r.(r_height))).
Definition rects_intersect (a b : rect_t) : bool :=
  negb ((s32 (a.(r_x) + s32 a.(r_width)) <=? b.(r_x)) || (s32 (b.(r_x) + s32 b.(r_width)) <=? a.(r_x)) ||
        (s32 (a.(r_y) + s32 a.(r_height)) <=? b.(r_y)) || (s32 (b.(r_y) + s32 b.(r_height)) <=? a.(r_y))).
Definition rect_intersect (a b : rect_t) : rect_t :=
  let x1 := if b.(r_x) <? a.(r_x) then a.(r_x) else b.(r_x) in
  let y1 := if b.(r_y) <? a.(r_y) then a.(r_y) else b.(r_y) in
  let x2_a := s32 (a.(r_x) + s32 a.(r_width)) in
  let x2_b := s32 (b.(r_x) + s32 b.(r_width)) in
  let y2_a := s32 (a.(r_y) + s32 a.(r_height)) in
  let y2_b := s32 (b.(r_y) + s32 b.(r_height)) in
  let x2 := if x2_a <? x2_b then x2_a else x2_b in
  let y2 := if y2_a <? y2_b then y2_a else y2_b in
  if (x1 <? x2) && (y1 <? y2) then mk_rect x1 y1 (u32 (x2 - x1)) (u32 (y2 - y1)) else mk_rect 0 0 0 0.
Definition abs_i32 (x : Z) : Z := if x <? 0 then s32 (- x) else x.

(** ** Colours *)
Record rgba_t := mk_rgba { c_r : Z; c_g : Z; c_b : Z; c_a : Z }.
Definition rgba_to_u32 (c : rgba_t) : Z :=
  Z.lor (Z.lor (Z.lor (Z.shiftl c.(c_a) 24) (Z.shiftl c.(c_r) 16)) (Z.shiftl c.(c_g) 8)) c.(c_b).
Definition u32_to_rgba (color : Z) : rgba_t :=
  mk_rgba (Z.land (Z.shiftr color 16) 0xFF) (Z.land (Z.shiftr color 8) 0xFF) (Z.land color 0xFF) (Z.land (Z.shiftr color 24) 0xFF).
Definition blend_colors (bg : Z) (fg : rgba_t) : Z :=
  if fg.(c_a) =? 0 then bg
  else if fg.(c_a) =? 255 then rgba_to_u32 fg
  else
    let bg_r := Z.land (Z.shiftr bg 16) 0xFF in
    let bg_g := Z.land (Z.shiftr bg 8) 0xFF in
    let bg_b := Z.land bg 0xFF in
    let alpha := fg.(c_a) in
    let inv_alpha := 255 - alpha in
    let r := (fg.(c_r) * alpha + bg_r * inv_alpha) / 255 in
    let g := (fg.(c_g) * alpha + bg_g * inv_alpha) / 255 in
    let b := (fg.(c_b) * alpha + bg_b * inv_alpha) / 255 in
    Z.lor (Z.lor (Z.lor 0xFF000000 (Z.shiftl r 16)) (Z.shiftl g 8)) b.

(** ** The buffers and the clip *)
Definition CLIP_STACK_SIZE : Z := 16.
Definition pixels : Type := Z -> Z.
Record screen := mk_screen {
  fb_width : Z;
  fb_height : Z;
  fb_pitch : Z;                  (** bytes in a row *)
  g_front_buffer : pixels;
  g_back_buffer : option pixels; (** [None]: not allocated *)
  g_double_buffer_enabled : bool;
  g_clip_stack : list rect_t;    (** the last one pushed first *)
  g_current_clip : rect_t;
  g_clipping_enabled : bool
}.
Definition with_buffers (front : pixels) (back : option pixels) (s : screen) : screen :=
  mk_screen s.(fb_width) s.(fb_height) s.(fb_pitch) front back s.(g_double_buffer_enabled) s.(g_clip_stack) s.(g_current_clip) s.(g_clipping_enabled).
Definition with_double (d : bool) (s : screen) : screen :=
  mk_screen s.(fb_width) s.(fb_height) s.(fb_pitch) s.(g_front_buffer) s.(g_back_buffer) d s.(g_clip_stack) s.(g_current_clip) s.(g_clipping_enabled).
Definition with_clip (stack : list rect_t) (clip : rect_t) (enabled : bool) (s : screen) : screen :=
  mk_screen s.(fb_width) s.(fb_height) s.(fb_pitch) s.(g_front_buffer) s.(g_back_buffer) s.(g_double_buffer_enabled) stack clip enabled.
Definition full_screen (s : screen) : rect_t := mk_rect 0 0 s.(fb_width) s.(fb_height).
(** [fb]: width, height, pitch and address of the screen, if there is one; [back]:
    the memory that [kmalloc] returned.  The clip is set, its stack is not. *)
Definition render_init (fb : option (Z * Z * Z * pixels)) (back : option pixels) (s : screen) : Z * screen :=
  match fb with
  | None => (-1, s)
  | Some (width, height, pitch, front) =>
      let size := u32 (pitch * height) in
      let back := (fun m o => if (0 <=? o) && (o <? size / 4) then 0 else m o) <$> back in
      (0, mk_screen width height pitch front back s.(g_double_buffer_enabled) s.(g_clip_stack) (mk_rect 0 0 width height) false)
  end.
Definition render_set_double_buffer (enabled : bool) (s : screen) : screen :=
  with_double (enabled && match s.(g_back_buffer) with Some _ => true | None => false end) s.
Definition render_flip (s : screen) : screen :=
  if negb s.(g_double_buffer_enabled) then s
  else
    match s.(g_back_buffer) with
    | None => s
    | Some back =>
        let size := u32 (s.(fb_pitch) * s.(fb_height)) in
        with_buffers (fun o => if (0 <=? o) && (o <? size / 4) then back o else s.(g_front_buffer) o) s.(g_back_buffer) s
    end.
(** The buffer drawn to. *)
Definition render_get_active_buffer (s : screen) : pixels :=
  match s.(g_back_buffer) with Some back => if s.(g_double_buffer_enabled) then back else s.(g_front_buffer) | None => s.(g_front_buffer) end.
Definition with_active (m : pixels) (s : screen) : screen :=
  match s.(g_back_buffer) with
  | Some back => if s.(g_double_buffer_enabled) then with_buffers s.(g_front_buffer) (Some m) s else with_buffers m (Some back) s
  | None => with_buffers m None s
  end.
Definition store (o color : Z) (s : screen) : screen :=
  with_active (fun p => if p =? o then color else render_get_active_buffer s p) s.
Definition render_set_clip (clip : option rect_t) (s : screen) : screen :=
  match clip with
  | Some clip => with_clip s.(g_clip_stack) clip true s
  | None => with_clip s.(g_clip_stack) (full_screen s) false s
  end.
Definition render_get_clip (s : screen) : rect_t := s.(g_current_clip).
Definition render_push_clip (clip : rect_t) (s : screen) : screen :=
  if zlen s.(g_clip_stack) <? CLIP_STACK_SIZE then
    with_clip (s.(g_current_clip) :: s.(g_clip_stack)) (if s.(g_clipping_enabled) then rect_intersect s.(g_current_clip) clip else clip) true s
  else s.
Definition render_pop_clip (s : screen) : screen :=
  match s.(g_clip_stack) with
  | [] => s
  | clip :: stack => with_clip stack clip (0 <? zlen stack) s
  end.
Definition is_clipped (s : screen) (x y : Z) : bool :=
  if negb s.(g_clipping_enabled) then (x <? 0) || (y <? 0) || (s32 s.(fb_width) <=? x) || (s32 s.(fb_height) <=? y)
  else
    let c := s.(g_current_clip) in
    (x <? c.(r_x)) || (y <? c.(r_y)) || (s32 (c.(r_x) + s32 c.(r_width)) <=? x) || (s32 (c.(r_y) + s32 c.(r_height)) <=? y).

(** ** Primitives *)
Definition pitch_pixels (s : screen) : Z := s.(fb_pitch) / 4.
Definition draw_pixel (x y color : Z) (s : screen) : screen :=
  if is_clipped s x y then s else store (u32 (y * pitch_pixels s + x)) color s.
Definition read_pixel (x y : Z) (s : screen) : Z :=
  if (x <? 0) || (y <? 0) || (s32 s.(fb_width) <=? x) || (s32 s.(fb_height) <=? y) then 0
  else render_get_active_buffer s (u32 (y * pitch_pixels s + x)).
(** The loop of [draw_hline] and the inner one of [draw_rect]: from [x1] to before
    [x2] in the row that starts at [row]. *)
Definition fill_row (row x1 x2 color : Z) (s : screen) : screen :=
  for_loop (Z.to_nat (x2 - x1)) x1 (fun x s => store (row + x) color s) s.
(** The least and the first coordinate behind it that remain when [lo] to [hi] is
    cut by the clip. *)
Definition clip_range (enabled : bool) (clip_lo clip_size size : Z) (lo hi : Z) : Z * Z :=
  if enabled then
    let clip_hi := s32 (clip_lo + s32 clip_size) in
    (if lo <? clip_lo then clip_lo else lo, if clip_hi <? hi then clip_hi else hi)
  else (if lo <? 0 then 0 else lo, if s32 size <? hi then s32 size else hi).
(** [x2 >= right] then [x2 = right - 1]: with the coordinate behind [x2] this is
    [clip_range]. *)
Definition draw_hline (x1 x2 y color : Z) (s : screen) : screen :=
  let '(x1, x2) := if x2 <? x1 then (x2, x1) else (x1, x2) in
  let c := s.(g_current_clip) in
  if (y <? 0) || (s32 s.(fb_height) <=? y) then s
  else if s.(g_clipping_enabled) && ((y <? c.(r_y)) || (s32 (c.(r_y) + s32 c.(r_height)) <=? y)) then s
  else
    let '(x1, x3) := clip_range s.(g_clipping_enabled) c.(r_x) c.(r_width) s.(fb_width) x1 (x2 + 1) in
    if x3 - 1 <? x1 then s else fill_row (u32 (y * pitch_pixels s)) x1 x3 color s.
Definition draw_vline (x y1 y2 color : Z) (s : screen) : screen :=
  let '(y1, y2) := if y2 <? y1 then (y2, y1) else (y1, y2) in
  let c := s.(g_current_clip) in
  if (x <? 0) || (s32 s.(fb_width) <=? x) then s
  else if s.(g_clipping_enabled) && ((x <? c.(r_x)) || (s32 (c.(r_x) + s32 c.(r_width)) <=? x)) then s
  else
    let '(y1, y3) := clip_range s.(g_clipping_enabled) c.(r_y) c.(r_height) s.(fb_height) y1 (y2 + 1) in
    if y3 - 1 <? y1 then s
    else
      let pixel := u32 (y1 * pitch_pixels s) + x in
      for_loop (Z.to_nat (y3 - y1)) 0 (fun i s => store (pixel + i * pitch_pixels s) color s) s.
(** One round of Bresenham's loop after the pixel: the error, x and y. *)
Definition line_step (dx dy sx sy err x y : Z) : Z * Z * Z :=
  let e2 := s32 (2 * err) in
  let '(err, x) := if - dy <? e2 then (s32 (err - dy), s32 (x + sx)) else (err, x) in
  let '(err, y) := if e2 <? dx then (s32 (err + dx), s32 (y + sy)) else (err, y) in
  (err, x, y).
(** The points of the line; [None] when the fuel runs out. *)
Fixpoint line_loop (fuel : nat) (x2 y2 dx dy sx sy err x y : Z) : option (list (Z * Z)) :=
  match fuel with
  | O => None
  | S fuel' =>
      if (x =? x2) && (y =? y2) then Some [(x, y)]
      else
        let '(err, x', y') := line_step dx dy sx sy err x y in
        cons (x, y) <$> line_loop fuel' x2 y2 dx dy sx sy err x' y'
  end.
Definition line_points (p1 p2 : point_t) : option (list (Z * Z)) :=
  let dx := abs_i32 (s32 (p2.(pt_x) - p1.(pt_x))) in
  let dy := abs_i32 (s32 (p2.(pt_y) - p1.(pt_y))) in
  let sx := if p1.(pt_x) <? p2.(pt_x) then 1 else -1 in
  let sy := if p1.(pt_y) <? p2.(pt_y) then 1 else -1 in
  line_loop (Z.to_nat (dx + dy + 1)) p2.(pt_x) p2.(pt_y) dx dy sx sy (s32 (dx - dy)) p1.(pt_x) p1.(pt_y).
Definition draw_points (l : list (Z * Z)) (color : Z) (s : screen) : screen :=
  foldl (fun s p => draw_pixel p.1 p.2 color s) s l.
Definition draw_line (p1 p2 : point_t) (color : Z) (s : screen) : option screen :=
  (fun l => draw_points l color s) <$> line_points p1 p2.
Definition draw_rect (rect : rect_t) (color : Z) (s : screen) : screen :=
  let x2 := s32 (rect.(r_x) + s32 rect.(r_width)) in
  let y2 := s32 (rect.(r_y) + s32 rect.(r_height)) in
  let c := s.(g_current_clip) in
  let '(x1, x2) := clip_range s.(g_clipping_enabled) c.(r_x) c.(r_width) s.(fb_width) rect.(r_x) x2 in
  let '(y1, y2) := clip_range s.(g_clipping_enabled) c.(r_y) c.(r_height) s.(fb_height) rect.(r_y) y2 in
  if (x2 <=? x1) || (y2 <=? y1) then s
  else for_loop (Z.to_nat (y2 - y1)) y1 (fun y s => fill_row (u32 (y * pitch_pixels s)) x1 x2 color s) s.
Definition draw_rect_outline (r : rect_t) (color thickness : Z) (s : screen) : screen :=
  let t := s32 thickness in
  let s := draw_rect (mk_rect r.(r_x) r.(r_y) r.(r_width) thickness) color s in
  let s := draw_rect (mk_rect r.(r_x) (s32 (r.(r_y) + s32 r.(r_height) - t)) r.(r_width) thickness) color s in
  let s := draw_rect (mk_rect r.(r_x) (s32 (r.(r_y) + t)) thickness (u32 (r.(r_height) - 2 * thickness))) color s in
  draw_rect (mk_rect (s32 (r.(r_x) + s32 r.(r_width) - t)) (s32 (r.(r_y) + t)) thickness (u32 (r.(r_height) - 2 * thickness))) color s.
(** The two loops over a square of pixels: [dy] from [lo] to before [lo + n], and
    [dx] in the same range; a pixel is drawn at [(ox + dx, oy + dy)] where [inside
    dx dy]. *)
Definition draw_square (n : nat) (lo ox oy : Z) (inside : Z -> Z -> bool) (color : Z) (s : screen) : screen :=
  for_loop n lo (fun dy s => for_loop n lo (fun dx s => if inside dx dy then draw_pixel (s32 (ox + dx)) (s32 (oy + dy)) color s else s) s) s.
Definition draw_rounded_rect (rect : rect_t) (radius color : Z) (s : screen) : screen :=
  if radius =? 0 then draw_rect rect color s
  else
    let w := rect.(r_width) in let h := rect.(r_height) in
    let max_radius := (if w <? h then w else h) / 2 in
    let radius := if max_radius <? radius then max_radius else radius in
    let r := s32 radius in
    let s := draw_rect (mk_rect (s32 (rect.(r_x) + r)) rect.(r_y) (u32 (w - 2 * radius)) h) color s in
    let s := draw_rect (mk_rect rect.(r_x) (s32 (rect.(r_y) + r)) radius (u32 (h - 2 * radius))) color s in
    let s := draw_rect (mk_rect (s32 (rect.(r_x) + s32 w - r)) (s32 (rect.(r_y) + r)) radius (u32 (h - 2 * radius))) color s in
    let r2 := s32 (r * r) in
    let right := s32 (rect.(r_x) + s32 w - r) in
    let bottom := s32 (rect.(r_y) + s32 h - r) in
    let n := Z.to_nat r in
    let far d := (r - 1 - d) * (r - 1 - d) in
    let s := draw_square n 0 rect.(r_x) rect.(r_y) (fun dx dy => s32 (far dx + far dy) <=? r2) color s in
    let s := draw_square n 0 right rect.(r_y) (fun dx dy => s32 (dx * dx + far dy) <=? r2) color s in
    let s := draw_square n 0 rect.(r_x) bottom (fun dx dy => s32 (far dx + dy * dy) <=? r2) color s in
    draw_square n 0 right bottom (fun dx dy => s32 (dx * dx + dy * dy) <=? r2) color s.
Definition draw_circle (center : point_t) (radius color : Z) (s : screen) : screen :=
  let r := s32 radius in
  let r2 := s32 (r * r) in
  draw_square (Z.to_nat (2 * r + 1)) (- r) center.(pt_x) center.(pt_y) (fun dx dy => s32 (dx * dx + dy * dy) <=? r2) color s.
Definition draw_circle_outline (center : point_t) (radius color thickness : Z) (s : screen) : screen :=
  let r_outer := s32 radius in
  let r_inner := s32 (radius - thickness) in
  let r_outer2 := s32 (r_outer * r_outer) in
  let r_inner2 := s32 (r_inner * r_inner) in
  draw_square (Z.to_nat (2 * r_outer + 1)) (- r_outer) center.(pt_x) center.(pt_y)
    (fun dx dy => (s32 (dx * dx + dy * dy) <=? r_outer2) && (r_inner2 <=? s32 (dx * dx + dy * dy))) color s.
(** Pixels that are on the screen are copied, whatever the clip. *)
Definition draw_bitmap (dest : point_t) (src : Z -> Z) (src_width src_height : Z) (s : screen) : screen :=
  for_loop (Z.to_nat src_height) 0 (fun y s =>
    let dy := s32 (dest.(pt_y) + s32 y) in
    if (dy <? 0) || (s32 s.(fb_height) <=? dy) then s
    else for_loop (Z.to_nat src_width) 0 (fun x s =>
      let dx := s32 (dest.(pt_x) + s32 x) in
      if (dx <? 0) || (s32 s.(fb_width) <=? dx) then s
      else store (u32 (dy * pitch_pixels s + dx)) (src (u32 (y * src_width + x))) s) s) s.
Definition render_clear (color : Z) (s : screen) : screen :=
  for_loop (Z.to_nat s.(fb_height)) 0 (fun y s => fill_row (u32 (y * pitch_pixels s)) 0 s.(fb_width) color s) s.

(** ** What a primitive may touch *)
(** A buffer of at most 2^31 pixels, whose rows are long enough. *)
Record fb_ok (s : screen) : Prop := mk_fb_ok {
  fo_width : 0 <= s.(fb_width) <= pitch_pixels s;
  fo_wide : s.(fb_width) < 2 ^ 31;
  fo_height : 0 <= s.(fb_height) < 2 ^ 31;
  fo_size : pitch_pixels s * s.(fb_height) < 2 ^ 31
}.
(** The clip is part of the screen. *)
Definition inside_screen (s : screen) (c : rect_t) : Prop :=
  0 <= c.(r_x) /\ 0 <= c.(r_width) /\ c.(r_x) + c.(r_width) <= s.(fb_width) /\
  0 <= c.(r_y) /\ 0 <= c.(r_height) /\ c.(r_y) + c.(r_height) <= s.(fb_height).
Definition screen_ok (s : screen) : Prop := fb_ok s /\ (s.(g_clipping_enabled) = true -> inside_screen s s.(g_current_clip)).
Definition visible (s : screen) (x y : Z) : bool := negb (is_clipped s x y).
Definition inactive (s : screen) : option pixels :=
  match s.(g_back_buffer) with Some back => Some (if s.(g_double_buffer_enabled) then s.(g_front_buffer) else back) | None => None end.
(** All of the state but the buffer drawn to. *)
Definition rest (s : screen) :=
  (s.(fb_width), s.(fb_height), s.(fb_pitch), s.(g_double_buffer_enabled), inactive s, s.(g_clip_stack), s.(g_current_clip), s.(g_clipping_enabled)).
(** A place of the buffer that a figure [P] covers: the pixel there is visible and
    in the figure. *)
Definition covers (s : screen) (P : Z -> Z -> bool) (o : Z) : bool :=
  let x := o mod pitch_pixels s in let y := o / pitch_pixels s in visible s x y && P x y.
(** Exactly the visible part of [P] has the colour now; nothing else changed, in
    particular nothing outside the buffer. *)
Definition painted (P : Z -> Z -> bool) (color : Z) (s s' : screen) : Prop :=
  rest s' = rest s /\ forall o, render_get_active_buffer s' o = if covers s P o then color else render_get_active_buffer s o.

Lemma clip_case (s : screen) x y : screen_ok s -> visible s x y = true <->
  (if s.(g_clipping_enabled) then
     s.(g_current_clip).(r_x) <= x < s.(g_current_clip).(r_x) + s.(g_current_clip).(r_width) /\
     s.(g_current_clip).(r_y) <= y < s.(g_current_clip).(r_y) + s.(g_current_clip).(r_height)
   else 0 <= x < s.(fb_width) /\ 0 <= y < s.(fb_height)).
Proof.
  intros [[] C]. unfold visible, is_clipped. destruct (g_clipping_enabled s); cbn [negb].
  - destruct (C eq_refl) as (? & ? & ? & ? & ? & ?). rewrite !(s32_small (r_width _)), !(s32_small (r_height _)) by lia. rewrite !s32_small by lia. rewrite negb_true_iff, !orb_false_iff, !Z.ltb_ge, !Z.leb_gt. lia.
  - rewrite !s32_small by lia. rewrite negb_true_iff, !orb_false_iff, !Z.ltb_ge, !Z.leb_gt. lia.
Qed.
Lemma visible_on_screen s x y : screen_ok s -> visible s x y = true -> 0 <= x < s.(fb_width) /\ 0 <= y < s.(fb_height).
Proof. intros O V. apply clip_case in V; [|done]. destruct O as [_ C]. destruct (g_clipping_enabled s); [|done]. destruct (C eq_refl) as (? & ? & ? & ? & ? & ?). lia. Qed.
Lemma rest_fields s s' : rest s' = rest s ->
  (forall x y, visible s' x y = visible s x y) /\ pitch_pixels s' = pitch_pixels s /\ (screen_ok s -> screen_ok s').
Proof.
  unfold rest. intros [= Ew Eh Ep Ed Ei Es Ec Ee]. unfold visible, is_clipped, pitch_pixels. rewrite Ew, Eh, Ep, Ec, Ee. split; [done|]. split; [done|].
  intros [[] C]. unfold screen_ok, inside_screen, pitch_pixels in *. rewrite Ew, Eh, Ec, Ee. split; [|done]. constructor; unfold pitch_pixels; by rewrite ?Ew, ?Eh, ?Ep.
Qed.
Lemma place pp x y : 0 <= x < pp -> (y * pp + x) mod pp = x /\ (y * pp + x) / pp = y.
Proof. intros H. split; [rewrite Z.add_comm, Z.mod_add by lia; by apply Z.mod_small|rewrite Z.div_add_l by lia; rewrite Z.div_small by lia; lia]. Qed.
Lemma place_inv pp o x y : 0 <= x < pp -> o = y * pp + x <-> o mod pp = x /\ o / pp = y.
Proof. intros H. split; [intros ->; by apply place|]. intros [<- <-]. rewrite Z.mul_comm. apply Z.div_mod. lia. Qed.
(** The place of a visible pixel is inside the buffer. *)
Lemma place_bounds s x y : screen_ok s -> visible s x y = true -> 0 <= y * pitch_pixels s + x < pitch_pixels s * s.(fb_height) /\ 0 <= x < pitch_pixels s /\ 0 <= y.
Proof. intros O V. pose proof (visible_on_screen s x y O V). destruct O as [[] _]. split; [|lia]. nia. Qed.
Lemma painted_ext P Q color s s' : screen_ok s -> (forall x y, visible s x y = true -> P x y = Q x y) -> painted P color s s' -> painted Q color s s'.
Proof.
  intros O E [R H]. split; [done|]. intros o. rewrite H. unfold covers. destruct (visible s _ _) eqn:V; [|done]. cbn [andb]. by rewrite E.
Qed.
Lemma painted_none P color s : (forall x y, visible s x y = true -> P x y = false) -> painted P color s s.
Proof. intros E. split; [done|]. intros o. unfold covers. destruct (visible s _ _) eqn:V; [|done]. cbn [andb]. by rewrite E. Qed.
Lemma painted_compose P Q color s s1 s2 : painted P color s s1 -> painted Q color s1 s2 -> painted (fun x y => P x y || Q x y) color s s2.
Proof.
  intros [R1 H1] [R2 H2]. split; [congruence|]. intros o. rewrite H2, H1. destruct (rest_fields s s1 R1) as (V & Epp & _). unfold covers. rewrite Epp, V.
  destruct (visible s _ _), (P _ _), (Q _ _); done.
Qed.
Lemma rest_active m s : rest (with_active m s) = rest s /\ render_get_active_buffer (with_active m s) = m.
Proof.
  unfold rest, with_active, inactive, render_get_active_buffer. destruct (g_back_buffer s) eqn:Eb; [|done].
  destruct (g_double_buffer_enabled s) eqn:Ed; cbn; by rewrite Ed.
Qed.
Definition at_point (x y x' y' : Z) : bool := (x' =? x) && (y' =? y).
Lemma store_painted s x y color : screen_ok s -> visible s x y = true -> painted (at_point x y) color s (store (y * pitch_pixels s + x) color s).
Proof.
  intros O V. unfold store. destruct (rest_active (fun p => if p =? y * pitch_pixels s + x then color else render_get_active_buffer s p) s) as [R A]. split; [done|]. intros o. rewrite A.
  destruct (place_bounds s x y O V) as (_ & Hx & _). unfold covers, at_point. pose proof (place_inv (pitch_pixels s) o x y Hx) as I.
  cbv beta zeta. destruct (Z.eqb_spec o (y * pitch_pixels s + x)) as [E|E].
  - apply I in E as [-> ->]. by rewrite V, !Z.eqb_refl.
  - destruct (visible s (o mod pitch_pixels s) (o / pitch_pixels s)); [|done]. destruct (o mod _ =? x) eqn:E1; [|done]. destruct (o / _ =? y) eqn:E2; [|done]. bool_hyps. exfalso. tauto.
Qed.
Lemma draw_pixel_painted s x y color : screen_ok s -> painted (at_point x y) color s (draw_pixel x y color s).
Proof.
  intros O. unfold draw_pixel. destruct (is_clipped s x y) eqn:Ec.
  - apply painted_none. intros x' y' V. unfold at_point. destruct (x' =? x) eqn:E1; [|done]. destruct (y' =? y) eqn:E2; [|done]. bool_hyps. subst. unfold visible in V. by rewrite Ec in V.
  - assert (V : visible s x y = true) by (unfold visible; by rewrite Ec). destruct (place_bounds s x y O V) as (B & _). destruct O as [F C] eqn:EO.
    rewrite u32_small by (destruct F; widths; lia). by apply store_painted.
Qed.
(** A loop whose rounds paint [P j] paints all of them. *)
Lemma loop_painted (P : Z -> Z -> Z -> bool) (Q : Z -> Z -> bool) color body n : forall i s, screen_ok s ->
  (forall x y, Q x y = true <-> exists j, i <= j < i + Z.of_nat n /\ P j x y = true) ->
  (forall j s1, i <= j < i + Z.of_nat n -> screen_ok s1 -> rest s1 = rest s -> painted (P j) color s1 (body j s1)) ->
  painted Q color s (for_loop n i body s).
Proof.
  revert Q. induction n as [|n IH]; intros Q i s O HQ HP; cbn [for_loop].
  { apply painted_none. intros x y _. apply not_true_is_false. intros T. apply HQ in T as (j & ? & _). lia. }
  pose proof (HP i s ltac:(lia) O eq_refl) as P1. pose proof (proj1 P1) as R1. destruct (rest_fields _ _ R1) as (_ & _ & O1).
  assert (B : forall x y, {exists j, i + 1 <= j < i + 1 + Z.of_nat n /\ P j x y = true} + {~ exists j, i + 1 <= j < i + 1 + Z.of_nat n /\ P j x y = true}).
  { intros x y. destruct (List.existsb (fun k => P (i + 1 + Z.of_nat k) x y) (seq 0 n)) eqn:E.
    - left. apply List.existsb_exists in E as (k & Hk & E). apply in_seq in Hk. exists (i + 1 + Z.of_nat k). split; [lia|done].
    - right. intros (j & Hj & Ej). assert (List.existsb (fun k => P (i + 1 + Z.of_nat k) x y) (seq 0 n) = true); [|congruence].
      apply List.existsb_exists. exists (Z.to_nat (j - i - 1)). split; [apply in_seq; lia|]. by replace (i + 1 + Z.of_nat (Z.to_nat (j - i - 1))) with j by lia. }
  pose proof (IH (fun x y => if B x y then true else false) (i + 1) (body i s) (O1 O)) as P2.
  eapply painted_ext; [done| |eapply painted_compose; [exact P1|apply P2]].
  - intros x y _. cbv beta. apply eq_true_iff_eq. rewrite orb_true_iff, HQ. destruct (B x y) as [(j & Hj & Ej)|Nb].
    + split; [intros _|tauto]. exists j. split; [lia|done].
    + split; [intros [T|T]; [exists i; split; [lia|done]|done]|]. intros (j & Hj & Ej). left. destruct (decide (j = i)) as [->|]; [done|]. exfalso. apply Nb. exists j. split; [lia|done].
  - intros x y. destruct (B x y); split; done.
  - intros j s1 Hj O' R'. apply HP; [lia|done|congruence].
Qed.
Lemma fill_row_painted s y x1 x2 color : screen_ok s -> (forall x, x1 <= x < x2 -> visible s x y = true) ->
  painted (fun x' y' => (x1 <=? x') && (x' <? x2) && (y' =? y)) color s (fill_row (y * pitch_pixels s) x1 x2 color s).
Proof.
  intros O V. unfold fill_row. apply (loop_painted (fun x => at_point x y)); [done| |].
  - intros x' y'. unfold at_point. rewrite !andb_true_iff, Z.leb_le, Z.ltb_lt. split.
    + intros [[? ?] ?]. exists x'. rewrite Z.eqb_refl. split; [lia|done].
    + intros (j & ? & E). apply andb_true_iff in E as [E1%Z.eqb_eq E2]. subst. split; [lia|done].
  - intros j s1 Hj O1 R1. destruct (rest_fields _ _ R1) as (V1 & <- & _). apply store_painted; [done|]. rewrite V1. apply V. lia.
Qed.
(** Cutting at the clip keeps what is visible. *)
Lemma clip_range_visible s enabled clip_lo clip_size size lo hi lo' hi' :
  clip_range enabled clip_lo clip_size size lo hi = (lo', hi') ->
  (enabled = true -> 0 <= clip_lo /\ 0 <= clip_size /\ clip_lo + clip_size <= size) -> s = size -> 0 <= size < 2 ^ 31 ->
  forall v, lo' <= v < hi' <-> lo <= v < hi /\ (if enabled then clip_lo <= v < clip_lo + clip_size else 0 <= v < size).
Proof.
  intros E C -> Hs v. unfold clip_range in E. destruct enabled.
  - destruct (C eq_refl) as (? & ? & ?). rewrite (s32_small clip_size), s32_small in E by lia. injection E as <- <-.
    destruct (lo <? clip_lo) eqn:E1, (clip_lo + clip_size <? hi) eqn:E2; bool_hyps; lia.
  - rewrite s32_small in E by lia. injection E as <- <-. destruct (lo <? 0) eqn:E1, (size <? hi) eqn:E2; bool_hyps; lia.
Qed.
Lemma clip_x s lo hi lo' hi' : screen_ok s -> clip_range s.(g_clipping_enabled) s.(g_current_clip).(r_x) s.(g_current_clip).(r_width) s.(fb_width) lo hi = (lo', hi') ->
  forall v, lo' <= v < hi' <-> lo <= v < hi /\
    (if s.(g_clipping_enabled) then s.(g_current_clip).(r_x) <= v < s.(g_current_clip).(r_x) + s.(g_current_clip).(r_width) else 0 <= v < s.(fb_width)).
Proof. intros [[] C] E. eapply clip_range_visible; [exact E| |done|lia]. intros Ee. destruct (C Ee) as (? & ? & ? & ?). lia. Qed.
Lemma clip_y s lo hi lo' hi' : screen_ok s -> clip_range s.(g_clipping_enabled) s.(g_current_clip).(r_y) s.(g_current_clip).(r_height) s.(fb_height) lo hi = (lo', hi') ->
  forall v, lo' <= v < hi' <-> lo <= v < hi /\
    (if s.(g_clipping_enabled) then s.(g_current_clip).(r_y) <= v < s.(g_current_clip).(r_y) + s.(g_current_clip).(r_height) else 0 <= v < s.(fb_height)).
Proof. intros [[] C] E. eapply clip_range_visible; [exact E| |done|lia]. intros Ee. destruct (C Ee) as (? & ? & ? & ? & ? & ?). lia. Qed.
(** The row of a visible pixel. *)
Lemma row_place s x y : screen_ok s -> visible s x y = true -> u32 (y * pitch_pixels s) = y * pitch_pixels s.
Proof. intros O V. destruct (place_bounds s x y O V) as (B & Hx & Hy). destruct O as [[] _]. apply u32_small. widths. split; [|lia]. apply Z.mul_nonneg_nonneg; lia. Qed.
(** ** Rectangles and lines along the axes *)
Definition in_rect (r : rect_t) (x y : Z) : bool :=
  (r.(r_x) <=? x) && (x <? r.(r_x) + r.(r_width)) && (r.(r_y) <=? y) && (y <? r.(r_y) + r.(r_height)).
Lemma in_rect_iff r x y : in_rect r x y = true <-> r.(r_x) <= x < r.(r_x) + r.(r_width) /\ r.(r_y) <= y < r.(r_y) + r.(r_height).
Proof. unfold in_rect. rewrite !andb_true_iff, !Z.leb_le, !Z.ltb_lt. lia. Qed.
Record rect_ok (r : rect_t) : Prop := mk_rect_ok {
  ro_x : - 2 ^ 31 <= r.(r_x) /\ 0 <= r.(r_width) < 2 ^ 31 /\ r.(r_x) + r.(r_width) < 2 ^ 31;
  ro_y : - 2 ^ 31 <= r.(r_y) /\ 0 <= r.(r_height) < 2 ^ 31 /\ r.(r_y) + r.(r_height) < 2 ^ 31
}.
Lemma rect_painted s r color : screen_ok s -> rect_ok r -> painted (in_rect r) color s (draw_rect r color s).
Proof.
  intros O [Rx Ry]. unfold draw_rect. cbv zeta. rewrite (s32_small (r_width r)), (s32_small (r_height r)), !s32_small by lia.
  destruct (clip_range _ (r_x (g_current_clip s)) _ _ _ _) as [x1 x2] eqn:Ex, (clip_range _ (r_y (g_current_clip s)) _ _ _ _) as [y1 y2] eqn:Ey.
  pose proof (clip_x _ _ _ _ _ O Ex) as Cx. pose proof (clip_y _ _ _ _ _ O Ey) as Cy. clear Ex Ey.
  assert (I : forall x y, visible s x y = true -> in_rect r x y = true <-> x1 <= x < x2 /\ y1 <= y < y2).
  { intros x y V. apply clip_case in V; [|done]. rewrite in_rect_iff, Cx, Cy. destruct (g_clipping_enabled s); tauto. }
  assert (W : forall x y, x1 <= x < x2 -> y1 <= y < y2 -> visible s x y = true).
  { intros x y Hx%Cx Hy%Cy. apply clip_case; [done|]. destruct (g_clipping_enabled s); tauto. }
  case_if.
  - apply painted_none. intros x y V. apply not_true_is_false. intros T. apply I in T; [|done]. apply orb_true_iff in Hif. rewrite !Z.leb_le in Hif. lia.
  - eapply painted_ext with (P := fun x y => (x1 <=? x) && (x <? x2) && ((y1 <=? y) && (y <? y2))); [done| |].
    + intros x y V. apply eq_true_iff_eq. rewrite I by done. rewrite !andb_true_iff, !Z.leb_le, !Z.ltb_lt. tauto.
    + apply (loop_painted (fun y x' y' => (x1 <=? x') && (x' <? x2) && (y' =? y))); [done| |].
      * intros x y. rewrite !andb_true_iff, !Z.leb_le, !Z.ltb_lt. split; [intros [? ?]; exists y; rewrite !andb_true_iff, Z.leb_le, Z.ltb_lt, Z.eqb_eq; lia|].
        intros (j & ? & E). rewrite !andb_true_iff, Z.leb_le, Z.ltb_lt, Z.eqb_eq in E. lia.
      * intros y s1 Hy O1 R1. destruct (rest_fields _ _ R1) as (V1 & _ & _). assert (V2 : forall x, x1 <= x < x2 -> visible s1 x y = true) by (intros; rewrite V1; apply W; lia).
        rewrite (row_place s1 x1 y) by (done || apply V2; lia). by apply fill_row_painted.
Qed.
(** The tests for the coordinate that does not change: they fail when no pixel of
    the line is visible. *)
Definition in_clip_y (s : screen) (y : Z) : Prop :=
  if s.(g_clipping_enabled) then s.(g_current_clip).(r_y) <= y < s.(g_current_clip).(r_y) + s.(g_current_clip).(r_height) else 0 <= y < s.(fb_height).
Definition in_clip_x (s : screen) (x : Z) : Prop :=
  if s.(g_clipping_enabled) then s.(g_current_clip).(r_x) <= x < s.(g_current_clip).(r_x) + s.(g_current_clip).(r_width) else 0 <= x < s.(fb_width).
Lemma visible_iff s x y : screen_ok s -> visible s x y = true <-> in_clip_x s x /\ in_clip_y s y.
Proof. intros O. rewrite clip_case by done. unfold in_clip_x, in_clip_y. by destruct (g_clipping_enabled s). Qed.
Lemma line_y s y : screen_ok s -> let c := s.(g_current_clip) in
  ((y <? 0) || (s32 s.(fb_height) <=? y)) || (s.(g_clipping_enabled) && ((y <? c.(r_y)) || (s32 (c.(r_y) + s32 c.(r_height)) <=? y))) = false <-> in_clip_y s y.
Proof.
  intros [[] C]. cbv zeta. unfold in_clip_y. rewrite (s32_small (fb_height s)), !orb_false_iff, Z.ltb_ge, Z.leb_gt by lia. destruct (g_clipping_enabled s); cbn [andb]; [|lia].
  destruct (C eq_refl) as (? & ? & ? & ? & ? & ?). rewrite (s32_small (r_height _)), s32_small by lia. rewrite !orb_false_iff, Z.ltb_ge, Z.leb_gt. lia.
Qed.
Lemma line_x s x : screen_ok s -> let c := s.(g_current_clip) in
  ((x <? 0) || (s32 s.(fb_width) <=? x)) || (s.(g_clipping_enabled) && ((x <? c.(r_x)) || (s32 (c.(r_x) + s32 c.(r_width)) <=? x))) = false <-> in_clip_x s x.
Proof.
  intros [[] C]. cbv zeta. unfold in_clip_x. rewrite (s32_small (fb_width s)), !orb_false_iff, Z.ltb_ge, Z.leb_gt by lia. destruct (g_clipping_enabled s); cbn [andb]; [|lia].
  destruct (C eq_refl) as (? & ? & ? & ? & ? & ?). rewrite (s32_small (r_width _)), s32_small by lia. rewrite !orb_false_iff, Z.ltb_ge, Z.leb_gt. lia.
Qed.
Definition hline (x1 x2 y x' y' : Z) : bool := (Z.min x1 x2 <=? x') && (x' <=? Z.max x1 x2) && (y' =? y).
Lemma hline_painted s x1 x2 y color : screen_ok s -> painted (hline x1 x2 y) color s (draw_hline x1 x2 y color s).
Proof.
  intros O. unfold draw_hline. destruct (if x2 <? x1 then (x2, x1) else (x1, x2)) as [a b] eqn:Eab.
  assert (PI : forall x' y', hline x1 x2 y x' y' = true <-> a <= x' < b + 1 /\ y' = y).
  { assert (Z.min x1 x2 = a /\ Z.max x1 x2 = b) as [Ea Eb] by (destruct (x2 <? x1) eqn:E; bool_hyps; injection Eab as <- <-; lia).
    intros. unfold hline. rewrite Ea, Eb, !andb_true_iff, !Z.leb_le, Z.eqb_eq. lia. }
  clear Eab. pose proof (line_y s y O) as LY. cbv zeta in LY.
  assert (N : ~ in_clip_y s y -> painted (hline x1 x2 y) color s s).
  { intros N. apply painted_none. intros x' y' V. apply not_true_is_false. intros [_ ->]%PI. by apply visible_iff in V as [_ V]. }
  destruct ((y <? 0) || (s32 (fb_height s) <=? y)); [apply N; by rewrite <- LY|].
  destruct (g_clipping_enabled s && _); [apply N; by rewrite <- LY|]. pose proof (proj1 LY eq_refl) as Hy.
  destruct (clip_range _ _ _ _ _ _) as [a' b'] eqn:Ex. pose proof (clip_x _ _ _ _ _ O Ex) as Cx. clear Ex.
  assert (I : forall x' y', visible s x' y' = true -> hline x1 x2 y x' y' = true <-> a' <= x' < b' /\ y' = y).
  { intros x' y' V. apply visible_iff in V as [V _]; [|done]. unfold in_clip_x in V. rewrite PI, Cx. tauto. }
  case_if.
  - apply painted_none. intros x' y' V. apply not_true_is_false. intros [? _]%I; [lia|done].
  - assert (V : forall x', a' <= x' < b' -> visible s x' y = true) by (intros x' Hx'%Cx; apply visible_iff; [done|split; [apply Hx'|done]]).
    rewrite (row_place s a' y) by (done || apply V; lia). eapply painted_ext; [done| |by apply fill_row_painted].
    intros x' y' Hv. apply eq_true_iff_eq. rewrite I, !andb_true_iff, Z.leb_le, Z.ltb_lt, Z.eqb_eq by done. tauto.
Qed.
Definition vline (x y1 y2 x' y' : Z) : bool := (Z.min y1 y2 <=? y') && (y' <=? Z.max y1 y2) && (x' =? x).
Lemma vline_painted s x y1 y2 color : screen_ok s -> painted (vline x y1 y2) color s (draw_vline x y1 y2 color s).
Proof.
  intros O. unfold draw_vline. destruct (if y2 <? y1 then (y2, y1) else (y1, y2)) as [a b] eqn:Eab.
  assert (PI : forall x' y', vline x y1 y2 x' y' = true <-> a <= y' < b + 1 /\ x' = x).
  { assert (Z.min y1 y2 = a /\ Z.max y1 y2 = b) as [Ea Eb] by (destruct (y2 <? y1) eqn:E; bool_hyps; injection Eab as <- <-; lia).
    intros. unfold vline. rewrite Ea, Eb, !andb_true_iff, !Z.leb_le, Z.eqb_eq. lia. }
  clear Eab. pose proof (line_x s x O) as LX. cbv zeta in LX.
  assert (N : ~ in_clip_x s x -> painted (vline x y1 y2) color s s).
  { intros N. apply painted_none. intros x' y' V. apply not_true_is_false. intros [_ ->]%PI. by apply visible_iff in V as [V _]. }
  destruct ((x <? 0) || (s32 (fb_width s) <=? x)); [apply N; by rewrite <- LX|].
  destruct (g_clipping_enabled s && _); [apply N; by rewrite <- LX|]. pose proof (proj1 LX eq_refl) as Hx.
  destruct (clip_range _ _ _ _ _ _) as [a' b'] eqn:Ey. pose proof (clip_y _ _ _ _ _ O Ey) as Cy. clear Ey.
  assert (I : forall x' y', visible s x' y' = true -> vline x y1 y2 x' y' = true <-> a' <= y' < b' /\ x' = x).
  { intros x' y' V. apply visible_iff in V as [_ V]; [|done]. unfold in_clip_y in V. rewrite PI, Cy. tauto. }
  case_if.
  - apply painted_none. intros x' y' V. apply not_true_is_false. intros [? _]%I; [lia|done].
  - assert (V : forall y', a' <= y' < b' -> visible s x y' = true) by (intros y' Hy'%Cy; apply visible_iff; [done|split; [done|apply Hy']]).
    rewrite (row_place s x a') by (done || apply V; lia). eapply painted_ext with (P := fun x' y' => (a' <=? y') && (y' <? b') && (x' =? x)); [done| |].
    + intros x' y' Hv. apply eq_true_iff_eq. rewrite I, !andb_true_iff, Z.leb_le, Z.ltb_lt, Z.eqb_eq by done. tauto.
    + apply (loop_painted (fun i => at_point x (a' + i))); [done| |].
      * intros x' y'. unfold at_point. rewrite !andb_true_iff, Z.leb_le, Z.ltb_lt, Z.eqb_eq. split.
        -- intros [[? ?] ->]. exists (y' - a'). rewrite Z.eqb_refl, andb_true_l, Z.eqb_eq. lia.
        -- intros (j & ? & E). rewrite andb_true_iff, !Z.eqb_eq in E. lia.
      * intros i s1 Hi O1 R1. destruct (rest_fields _ _ R1) as (V1 & Epp & _).
        replace (a' * pitch_pixels s + x + i * pitch_pixels s1) with ((a' + i) * pitch_pixels s1 + x) by (rewrite Epp; ring). apply store_painted; [done|]. rewrite V1. apply V. lia.
Qed.
(** ** Squares, circles and round corners *)
Definition in_square (n : nat) (lo ox oy : Z) (inside : Z -> Z -> bool) (x y : Z) : bool :=
  (lo <=? x - ox) && (x - ox <? lo + Z.of_nat n) && ((lo <=? y - oy) && (y - oy <? lo + Z.of_nat n)) && inside (x - ox) (y - oy).
Lemma in_square_iff n lo ox oy inside x y : in_square n lo ox oy inside x y = true <->
  lo <= x - ox < lo + Z.of_nat n /\ lo <= y - oy < lo + Z.of_nat n /\ inside (x - ox) (y - oy) = true.
Proof. unfold in_square. rewrite !andb_true_iff, !Z.leb_le, !Z.ltb_lt. tauto. Qed.
Lemma square_painted n lo ox oy inside color s : screen_ok s ->
  - 2 ^ 31 <= ox + lo -> ox + lo + Z.of_nat n <= 2 ^ 31 -> - 2 ^ 31 <= oy + lo -> oy + lo + Z.of_nat n <= 2 ^ 31 ->
  painted (in_square n lo ox oy inside) color s (draw_square n lo ox oy inside color s).
Proof.
  intros O X1 X2 Y1 Y2. unfold draw_square.
  apply (loop_painted (fun dy x y => (lo <=? x - ox) && (x - ox <? lo + Z.of_nat n) && (y =? oy + dy) && inside (x - ox) dy)); [done| |].
  - intros x y. rewrite in_square_iff. split.
    + intros (? & ? & ?). exists (y - oy). rewrite !andb_true_iff, Z.leb_le, Z.ltb_lt, Z.eqb_eq. split; [lia|]. split; [lia|done].
    + intros (j & ? & E). rewrite !andb_true_iff, Z.leb_le, Z.ltb_lt, Z.eqb_eq in E. destruct E as [[[? ?] ->] ?]. replace (oy + j - oy) with j by lia. split; [lia|]. split; [lia|done].
  - intros dy s1 Hdy O1 _. apply (loop_painted (fun dx x y => inside dx dy && at_point (ox + dx) (oy + dy) x y)); [done| |].
    + intros x y. unfold at_point. rewrite !andb_true_iff, Z.leb_le, Z.ltb_lt, Z.eqb_eq. split.
      * intros [[[? ?] ?] ?]. exists (x - ox). rewrite !andb_true_iff, !Z.eqb_eq. split; [lia|]. split; [done|lia].
      * intros (j & ? & E). rewrite !andb_true_iff, !Z.eqb_eq in E. destruct E as (? & -> & ->). replace (ox + j - ox) with j by lia. split; [lia|done].
    + intros dx s2 Hdx O2 _. rewrite !s32_small by lia. destruct (inside dx dy); [by apply draw_pixel_painted|]. by apply painted_none.
Qed.
Definition disc (c : point_t) (r : Z) (x y : Z) : bool := (x - c.(pt_x)) * (x - c.(pt_x)) + (y - c.(pt_y)) * (y - c.(pt_y)) <=? r * r.
(** Far from the limits of 32 bits. *)
Definition near (v : Z) : Prop := - 2 ^ 30 <= v <= 2 ^ 30.
Lemma squares_small a b n : 0 <= n < 2 ^ 15 -> - n <= a <= n -> - n <= b <= n -> s32 (a * a + b * b) = a * a + b * b.
Proof.
  intros Hn Ha Hb. apply s32_small. pose proof (Z.mul_nonneg_nonneg (n - a) (n + a) ltac:(lia) ltac:(lia)). pose proof (Z.mul_nonneg_nonneg (n - b) (n + b) ltac:(lia) ltac:(lia)).
  assert (n * n < 2 ^ 15 * 2 ^ 15) by (apply Z.mul_lt_mono_nonneg; lia). change (2 ^ 15 * 2 ^ 15) with (2 ^ 30) in *. pose proof (Z.square_nonneg a). pose proof (Z.square_nonneg b). lia.
Qed.
Lemma square_bound a r : 0 <= r -> a * a <= r * r -> - r <= a <= r.
Proof. intros Hr H. apply Z.abs_le. apply Z.square_le_simpl_nonneg; [done|]. by rewrite Z.abs_square. Qed.
Lemma circle_painted c r color s : screen_ok s -> near c.(pt_x) -> near c.(pt_y) -> 0 <= r < 2 ^ 15 -> painted (disc c r) color s (draw_circle c r color s).
Proof.
  unfold near. intros O Hx Hy Hr. unfold draw_circle. cbv zeta. rewrite (s32_small r) by lia. assert (0 <= r * r < 2 ^ 30) by nia. rewrite (s32_small (r * r)) by lia.
  eapply painted_ext; [done| |apply square_painted; [done|lia..]]. intros x y _. apply eq_true_iff_eq. rewrite in_square_iff. unfold disc. rewrite !Z.leb_le. split.
  - intros (? & ? & E). rewrite (squares_small _ _ r) in E by lia. done.
  - intros E. pose proof (Z.square_nonneg (x - pt_x c)). pose proof (Z.square_nonneg (y - pt_y c)).
    assert (- r <= x - pt_x c <= r) by (apply square_bound; lia). assert (- r <= y - pt_y c <= r) by (apply square_bound; lia). split; [lia|]. split; [lia|]. by rewrite (squares_small _ _ r) by lia.
Qed.
(** The condition of [draw_rounded_gradient]: a point of the rectangle that no
    corner cuts off, [ix] and [iy] being counted from the rectangle. *)
Definition in_rounded (w h r r2 ix iy : Z) : bool :=
  if (ix <? r) && (iy <? r) then negb (r2 <? (r - 1 - ix) * (r - 1 - ix) + (r - 1 - iy) * (r - 1 - iy))
  else if (w - r <=? ix) && (iy <? r) then negb (r2 <? (ix - (w - r)) * (ix - (w - r)) + (r - 1 - iy) * (r - 1 - iy))
  else if (ix <? r) && (h - r <=? iy) then negb (r2 <? (r - 1 - ix) * (r - 1 - ix) + (iy - (h - r)) * (iy - (h - r)))
  else if (w - r <=? ix) && (h - r <=? iy) then negb (r2 <? (ix - (w - r)) * (ix - (w - r)) + (iy - (h - r)) * (iy - (h - r)))
  else true.
Definition rounded (rect : rect_t) (radius : Z) (x y : Z) : bool :=
  let max_radius := (if rect.(r_width) <? rect.(r_height) then rect.(r_width) else rect.(r_height)) / 2 in
  let r := if max_radius <? radius then max_radius else radius in
  in_rect rect x y && in_rounded rect.(r_width) rect.(r_height) r (r * r) (x - rect.(r_x)) (y - rect.(r_y)).
Lemma painted_then P Q color s s1 s2 : screen_ok s -> painted P color s s1 -> (screen_ok s1 -> painted Q color s1 s2) -> painted (fun x y => P x y || Q x y) color s s2.
Proof. intros O P1 P2. eapply painted_compose; [exact P1|]. apply P2. by apply (rest_fields _ _ (proj1 P1)). Qed.
(** A corner of [r] pixels. *)
Definition corner (f g : Z -> Z) (r ox oy x y : Z) : bool :=
  (0 <=? x - ox) && (x - ox <? r) && ((0 <=? y - oy) && (y - oy <? r)) && (f (x - ox) * f (x - ox) + g (y - oy) * g (y - oy) <=? r * r).
Lemma corner_iff f g r ox oy x y : corner f g r ox oy x y = true <->
  0 <= x - ox < r /\ 0 <= y - oy < r /\ f (x - ox) * f (x - ox) + g (y - oy) * g (y - oy) <= r * r.
Proof. unfold corner. rewrite !andb_true_iff, !Z.leb_le, !Z.ltb_lt. tauto. Qed.
Lemma corner_painted f g r ox oy color s : screen_ok s -> 0 <= r < 2 ^ 15 -> - 2 ^ 31 <= ox < 2 ^ 31 - r -> - 2 ^ 31 <= oy < 2 ^ 31 - r ->
  (forall d, 0 <= d < r -> - r <= f d <= r) -> (forall d, 0 <= d < r -> - r <= g d <= r) ->
  painted (corner f g r ox oy) color s (draw_square (Z.to_nat r) 0 ox oy (fun dx dy => s32 (f dx * f dx + g dy * g dy) <=? r * r) color s).
Proof.
  intros O Hr Hx Hy Hf Hg. eapply painted_ext; [done| |apply square_painted; [done|lia..]]. intros x y _. apply eq_true_iff_eq. rewrite in_square_iff, corner_iff, Z.leb_le.
  rewrite Z2Nat.id, Z.add_0_l by lia. split; intros (? & ? & E); (split; [lia|]; split; [lia|]); rewrite (squares_small _ _ r) in * by (auto; lia); done.
Qed.
(** The three rectangles and the four corners make the figure. *)
Lemma in_rounded_iff w h r u v : 0 <= r -> 2 * r <= w -> 2 * r <= h -> 0 <= u < w -> 0 <= v < h ->
  let low d := (r - 1 - d) * (r - 1 - d) in
  in_rounded w h r (r * r) u v = true <->
    r <= u < w - r \/ r <= v < h - r \/
    (u < r /\ v < r /\ low u + low v <= r * r) \/ (w - r <= u /\ v < r /\ (u - (w - r)) * (u - (w - r)) + low v <= r * r) \/
    (u < r /\ h - r <= v /\ low u + (v - (h - r)) * (v - (h - r)) <= r * r) \/
    (w - r <= u /\ h - r <= v /\ (u - (w - r)) * (u - (w - r)) + (v - (h - r)) * (v - (h - r)) <= r * r).
Proof.
  intros Hr Hw Hh Hu Hv. cbv zeta. unfold in_rounded.
  generalize ((r - 1 - u) * (r - 1 - u)) ((r - 1 - v) * (r - 1 - v)) ((u - (w - r)) * (u - (w - r))) ((v - (h - r)) * (v - (h - r))) (r * r). intros a b c d e.
  destruct (Z.ltb_spec u r), (Z.ltb_spec v r), (Z.leb_spec (w - r) u), (Z.leb_spec (h - r) v); cbn [andb]; rewrite ?negb_true_iff, ?Z.ltb_ge; try (split; [intros _; lia|done]); lia.
Qed.
Lemma rounded_painted rect radius color s : screen_ok s -> near rect.(r_x) -> near rect.(r_y) -> 0 <= rect.(r_width) < 2 ^ 16 -> 0 <= rect.(r_height) < 2 ^ 16 -> 0 <= radius ->
  painted (rounded rect radius) color s (draw_rounded_rect rect radius color s).
Proof.
  unfold near. intros O Hx Hy Hw Hh Hr. unfold draw_rounded_rect, rounded. cbv zeta. set (m := (if r_width rect <? r_height rect then _ else _) / 2).
  assert (Hm : 0 <= m /\ 2 * m <= r_width rect /\ 2 * m <= r_height rect) by (unfold m; destruct (r_width rect <? r_height rect) eqn:E; bool_hyps; lia).
  destruct (radius =? 0) eqn:Er; bool_hyps.
  { subst radius. rewrite (proj2 (Z.ltb_ge m 0)) by lia. eapply painted_ext; [done| |apply rect_painted; [done|split; lia]].
    intros x y _. apply eq_true_iff_eq. rewrite andb_true_iff, in_rect_iff. split; [intros ?; split; [done|]|tauto]. unfold in_rounded.
    rewrite !(proj2 (Z.ltb_ge _ 0)) by lia. rewrite (proj2 (Z.leb_gt (r_width rect - 0) _)) by lia. by rewrite !andb_false_r. }
  set (r := if m <? radius then m else radius). assert (R : 0 <= r <= m) by (unfold r; destruct (m <? radius) eqn:E; bool_hyps; lia). clearbody r m.
  rewrite (s32_small r), (s32_small (r_width rect)), (s32_small (r_height rect)) by lia. assert (0 <= r * r < 2 ^ 30) by nia. rewrite (s32_small (r * r)) by lia.
  rewrite !(s32_small (r_x rect + _)), !(s32_small (r_y rect + _)) by lia. rewrite !(s32_small (r_x rect + _ - _)), !(s32_small (r_y rect + _ - _)) by lia. rewrite !(u32_small (_ - _)) by (widths; lia).
  pose (low := fun d : Z => r - 1 - d). pose (high := fun d : Z => d).
  eapply painted_ext; [done| |]; cycle 1.
  - eapply painted_then; [done| |intros O'; apply (corner_painted high high r); [done|unfold high; lia..]].
    eapply painted_then; [done| |intros O'; apply (corner_painted low high r); [done|unfold low, high; lia..]].
    eapply painted_then; [done| |intros O'; apply (corner_painted high low r); [done|unfold low, high; lia..]].
    eapply painted_then; [done| |intros O'; apply (corner_painted low low r); [done|unfold low, high; lia..]].
    eapply painted_then; [done| |intros O'; apply rect_painted; [done|split; cbn; lia]].
    eapply painted_then; [done| |intros O'; apply rect_painted; [done|split; cbn; lia]].
    apply rect_painted; [done|split; cbn; lia].
  - intros x y _. apply eq_true_iff_eq. rewrite !orb_true_iff, !corner_iff, andb_true_iff, !in_rect_iff. cbn [r_x r_y r_width r_height]. unfold low, high. clear low high.
    destruct Hm as (_ & Mw & Mh). set (u := x - r_x rect). set (v := y - r_y rect).
    replace (x - (r_x rect + r_width rect - r)) with (u - (r_width rect - r)) by (unfold u; lia). replace (y - (r_y rect + r_height rect - r)) with (v - (r_height rect - r)) by (unfold v; lia).
    split.
    + intros T. assert (Hu : 0 <= u < r_width rect) by (unfold u, v in *; lia). assert (Hv : 0 <= v < r_height rect) by (unfold u, v in *; lia).
      split; [unfold u, v in *; lia|]. apply in_rounded_iff; [lia..|]. cbv zeta. revert T.
      generalize ((r - 1 - u) * (r - 1 - u)) ((r - 1 - v) * (r - 1 - v)) ((u - (r_width rect - r)) * (u - (r_width rect - r))) ((v - (r_height rect - r)) * (v - (r_height rect - r))) (r * r).
      intros. unfold u, v in *. lia.
    + intros [Hi T]. apply in_rounded_iff in T; [|unfold u, v in *; lia..]. cbv zeta in T. revert T.
      generalize ((r - 1 - u) * (r - 1 - u)) ((r - 1 - v) * (r - 1 - v)) ((u - (r_width rect - r)) * (u - (r_width rect - r))) ((v - (r_height rect - r)) * (v - (r_height rect - r))) (r * r).
      intros. unfold u, v in *. lia.
Qed.

(** ** Bresenham's line *)
Lemma err_step dx dy i j : 0 <= dx -> 0 <= dy -> 0 <= i <= dx -> 0 <= j <= dy -> ~ (i = dx /\ j = dy) -> 2 * Z.abs (i * dy - j * dx) <= Z.max dx dy ->
  let err := (j + 1) * dx - (i + 1) * dy in
  exists a b, a = (if - dy <? 2 * err then 1 else 0) /\ b = (if 2 * err <? dx then 1 else 0) /\ i + a <= dx /\ j + b <= dy /\
    2 * Z.abs ((i + a) * dy - (j + b) * dx) <= Z.max dx dy /\ (dy <= dx -> a = 1) /\ (dx <= dy -> b = 1).
Proof.
  intros Hx Hy Hi Hj Ne Hf. cbv zeta.
  assert (F1 : i = dx -> j < dy -> i * dy - j * dx >= dx) by nia. assert (F2 : j = dy -> i < dx -> j * dx - i * dy >= dy) by nia.
  assert (D : dx = dy -> i * dy - j * dx = (i - j) * dx) by (intros <-; ring).
  assert (Pr : forall k, k * dx = 0 -> k = 0 \/ dx = 0) by (intros k E; by apply Z.mul_eq_0).
  pose proof (Pr (2 * (i - j) - 1)) as Pr1. pose proof (Pr (2 * (i - j) + 1)) as Pr2.
  do 2 eexists. split; [done|]. split; [done|]. destruct (Z.ltb_spec (- dy) (2 * ((j + 1) * dx - (i + 1) * dy))) as [Ha|Ha], (Z.ltb_spec (2 * ((j + 1) * dx - (i + 1) * dy)) dx) as [Hb|Hb].
  all: split_and!; lia.
Qed.
(** Points that follow each other touch. *)
Fixpoint connected (l : list (Z * Z)) : Prop :=
  match l with
  | a :: (b :: _) as l' => Z.max (Z.abs (b.1 - a.1)) (Z.abs (b.2 - a.2)) = 1 /\ connected l'
  | _ => True
  end.
Section line.
Variables (x1 y1 dx dy sx sy : Z).
Hypotheses (Hdx : 0 <= dx < 2 ^ 29) (Hdy : 0 <= dy < 2 ^ 29) (Hsx : sx = 1 \/ sx = -1) (Hsy : sy = 1 \/ sy = -1) (Hx1 : near x1) (Hy1 : near y1).
Definition at_step (i j : Z) : Z * Z := (x1 + sx * i, y1 + sy * j).
Definition on_line (p : Z * Z) : Prop := exists i j, p = at_step i j /\ 0 <= i <= dx /\ 0 <= j <= dy /\ 2 * Z.abs (i * dy - j * dx) <= Z.max dx dy.
Lemma line_loop_ok fuel : forall i j, 0 <= i <= dx -> 0 <= j <= dy -> 2 * Z.abs (i * dy - j * dx) <= Z.max dx dy ->
  (if dy <=? dx then dx - i else dy - j) < Z.of_nat fuel ->
  exists l, line_loop fuel (x1 + sx * dx) (y1 + sy * dy) dx dy sx sy ((j + 1) * dx - (i + 1) * dy) (x1 + sx * i) (y1 + sy * j) = Some (at_step i j :: l) /\
    zlen l = (if dy <=? dx then dx - i else dy - j) /\ connected (at_step i j :: l) /\ List.last (at_step i j :: l) (0, 0) = at_step dx dy /\ Forall on_line (at_step i j :: l).
Proof.
  induction fuel as [|fuel IH]; intros i j Hi Hj Hf Hn; [destruct (dy <=? dx); lia|]. cbn [line_loop].
  assert (On : on_line (at_step i j)) by (exists i, j; done).
  destruct (decide (i = dx /\ j = dy)) as [[-> ->]|Ne].
  { rewrite !Z.eqb_refl. exists []. split; [done|]. split; [change (zlen (@nil (Z * Z))) with 0; destruct (dy <=? dx); lia|]. split; [done|]. split; [done|]. by repeat constructor. }
  assert (((x1 + sx * i =? x1 + sx * dx) && (y1 + sy * j =? y1 + sy * dy))%bool = false) as ->.
  { apply not_true_is_false. rewrite andb_true_iff, !Z.eqb_eq. intros [? ?]. apply Ne. split; nia. }
  destruct (err_step dx dy i j) as (a & b & Ea & Eb & Ia & Jb & Hf' & A1 & B1); [lia|lia|done..|]. cbv zeta in Ea, Eb.
  assert (Hab : 0 <= a <= 1 /\ 0 <= b <= 1) by (subst a b; repeat case_if; lia). unfold near in *.
  assert (Es : line_step dx dy sx sy ((j + 1) * dx - (i + 1) * dy) (x1 + sx * i) (y1 + sy * j) =
    ((j + b + 1) * dx - (i + a + 1) * dy, x1 + sx * (i + a), y1 + sy * (j + b))).
  { unfold line_step. assert (Hs : forall v, v = 1 \/ v = -1 -> forall k, v * k = k \/ v * k = - k) by (intros v [-> | ->] k; lia).
    pose proof (Hs sx Hsx i). pose proof (Hs sy Hsy j). rewrite (s32_small (2 * _)) by lia. set (err := (j + 1) * dx - (i + 1) * dy) in *.
    assert (s32 (err - dy) = err - dy /\ s32 (err + dx) = err + dx /\ s32 (err - dy + dx) = err - dy + dx) as (S1 & S2 & S3) by (rewrite !s32_small by lia; done).
    assert (s32 (x1 + sx * i + sx) = x1 + sx * (i + 1) /\ s32 (y1 + sy * j + sy) = y1 + sy * (j + 1)) as (S4 & S5) by (rewrite !s32_small by lia; split; ring).
    subst a b; destruct (- dy <? 2 * err), (2 * err <? dx); rewrite ?S1, ?S2, ?S3, ?S4, ?S5; unfold err; (apply (f_equal2 pair); [apply (f_equal2 pair)|]); ring. }
  rewrite Es. destruct (IH (i + a) (j + b)) as (l & E & L & C & La & F); [lia|lia|done|destruct (Z.leb_spec dy dx); lia|]. rewrite E. eexists. split; [done|].
  split; [rewrite zlen_cons, L; destruct (Z.leb_spec dy dx); lia|]. split; [|split; [exact La|by constructor]]. split; [|exact C].
  unfold at_step. cbn [fst snd]. replace (x1 + sx * (i + a) - (x1 + sx * i)) with (sx * a) by ring. replace (y1 + sy * (j + b) - (y1 + sy * j)) with (sy * b) by ring.
  destruct (Z.leb_spec dy dx); [rewrite A1 in * by lia|rewrite B1 in * by lia]; destruct Hsx as [-> | ->], Hsy as [-> | ->]; lia.
Qed.
End line.

(** ** Theorems *)
Definition close (v : Z) : Prop := - 2 ^ 28 < v < 2 ^ 28.
(** Twice the distance of a point from the straight line, in units of the longer
    of the two directions: at most half a pixel. *)
Definition near_line (p1 p2 : point_t) (q : Z * Z) : Prop :=
  2 * Z.abs ((q.1 - p1.(pt_x)) * (p2.(pt_y) - p1.(pt_y)) - (q.2 - p1.(pt_y)) * (p2.(pt_x) - p1.(pt_x))) <=
  Z.max (Z.abs (p2.(pt_x) - p1.(pt_x))) (Z.abs (p2.(pt_y) - p1.(pt_y))).
Lemma points_painted l color : forall s, screen_ok s -> painted (fun x y => bool_decide ((x, y) ∈ l)) color s (draw_points l color s).
Proof.
  induction l as [|[a b] l IH]; intros s O; cbn [draw_points foldl fst snd].
  - apply painted_none. intros x y _. apply bool_decide_eq_false. apply list.not_elem_of_nil.
  - eapply painted_ext; [done| |eapply painted_then; [done|by apply draw_pixel_painted|intros O'; by apply IH]].
    intros x y _. cbv beta. unfold at_point. apply eq_true_iff_eq. rewrite orb_true_iff, andb_true_iff, !Z.eqb_eq, !bool_decide_eq_true, list.elem_of_cons.
    split; [intros [[-> ->]|?]; [by left|by right]|intros [[= -> ->]|?]; [by left|by right]].
Qed.
(** The signs and lengths of the code. *)
Lemma direction a b : close a -> close b -> let d := abs_i32 (s32 (b - a)) in let s := if a <? b then 1 else -1 in
  d = Z.abs (b - a) /\ 0 <= d < 2 ^ 29 /\ (s = 1 \/ s = -1) /\ b - a = s * d.
Proof.
  unfold close. intros Ha Hb. cbv zeta. rewrite s32_small by lia. unfold abs_i32. destruct (Z.ltb_spec (b - a) 0), (Z.ltb_spec a b); rewrite ?s32_small by lia; lia.
Qed.
(** C37. The loop of [draw_line] ends, on a run of touching points from the first to
    the last, one for each step in the longer direction and each within half a
    pixel of the straight line; exactly the visible ones get the colour. *)
Theorem line_bresenham p1 p2 color s : close p1.(pt_x) -> close p1.(pt_y) -> close p2.(pt_x) -> close p2.(pt_y) -> screen_ok s ->
  exists l s', line_points p1 p2 = Some l /\ draw_line p1 p2 color s = Some s' /\
    zlen l = Z.max (Z.abs (p2.(pt_x) - p1.(pt_x))) (Z.abs (p2.(pt_y) - p1.(pt_y))) + 1 /\
    hd_error l = Some (p1.(pt_x), p1.(pt_y)) /\ List.last l (0, 0) = (p2.(pt_x), p2.(pt_y)) /\ connected l /\ Forall (near_line p1 p2) l /\
    painted (fun x y => bool_decide ((x, y) ∈ l)) color s s'.
Proof.
  intros X1 Y1 X2 Y2 O. destruct (direction _ _ X1 X2) as (Ax & Dx & Sx & Ex), (direction _ _ Y1 Y2) as (Ay & Dy & Sy & Ey).
  unfold draw_line, line_points. cbv zeta. revert Ax Dx Sx Ex Ay Dy Sy Ey. generalize (abs_i32 (s32 (pt_x p2 - pt_x p1))) (abs_i32 (s32 (pt_y p2 - pt_y p1))).
  generalize (if pt_x p1 <? pt_x p2 then 1 else -1) (if pt_y p1 <? pt_y p2 then 1 else -1). intros sx sy dx dy Ax Dx Sx Ex Ay Dy Sy Ey. unfold close in *.
  destruct (line_loop_ok (pt_x p1) (pt_y p1) dx dy sx sy Dx Dy Sx Sy ltac:(unfold near; lia) ltac:(unfold near; lia) (Z.to_nat (dx + dy + 1)) 0 0) as (l & E & L & C & La & F); [lia|lia|lia|destruct (dy <=? dx); lia|].
  replace ((0 + 1) * dx - (0 + 1) * dy) with (s32 (dx - dy)) in E by (rewrite s32_small; lia).
  replace (pt_x p1 + sx * dx) with (pt_x p2) in * by lia. replace (pt_y p1 + sy * dy) with (pt_y p2) in * by lia. rewrite !Z.mul_0_r, !Z.add_0_r in E. rewrite E.
  assert (E0 : at_step (pt_x p1) (pt_y p1) sx sy 0 0 = (pt_x p1, pt_y p1)) by (unfold at_step; f_equal; lia). rewrite E0 in *.
  eexists _, _. split; [done|]. split; [done|]. split; [rewrite zlen_cons, L, <- Ax, <- Ay; destruct (Z.leb_spec dy dx); lia|]. split; [done|].
  split; [rewrite La; unfold at_step; f_equal; lia|]. split; [done|]. split; [|by apply points_painted].
  revert F. apply Forall_impl. intros q (i & j & -> & Hi & Hj & Hf). unfold near_line, at_step. cbn [fst snd]. rewrite <- Ax, <- Ay, Ex, Ey.
  destruct Sx as [-> | ->], Sy as [-> | ->]; lia.
Qed.
(** A screen of 4 by 3 pixels in rows of 5. *)
Definition small_screen : screen := mk_screen 4 3 20 (fun _ => 0) None false [] (mk_rect 0 0 4 3) false.
Lemma small_screen_ok : screen_ok small_screen.
Proof. split; [constructor; cbn; (lia || done)|done]. Qed.
Lemma line_bresenham_witness : exists l s', line_points (mk_point 0 0) (mk_point 3 1) = Some l /\ draw_line (mk_point 0 0) (mk_point 3 1) 9 small_screen = Some s' /\
  zlen l = Z.max (Z.abs (3 - 0)) (Z.abs (1 - 0)) + 1 /\ hd_error l = Some (0, 0) /\ List.last l (0, 0) = (3, 1) /\ connected l /\ Forall (near_line (mk_point 0 0) (mk_point 3 1)) l /\
  painted (fun x y => bool_decide ((x, y) ∈ l)) 9 small_screen s'.
Proof. apply (line_bresenham (mk_point 0 0) (mk_point 3 1) 9 small_screen); [unfold close; cbn; lia..|apply small_screen_ok]. Defined.
Example line_example : line_points (mk_point 0 0) (mk_point 3 1) = Some [(0, 0); (1, 0); (2, 1); (3, 1)].
Proof. by vm_compute. Qed.
(** C38. With a clip inside the screen, or none, a filled rectangle, a horizontal or
    vertical line, a disc and a rectangle with round corners change exactly the
    visible pixels of the figure: nothing else of the buffer, nothing outside
    of it, and no other state. *)
Theorem primitives_exact s color : screen_ok s ->
  (forall r, rect_ok r -> painted (in_rect r) color s (draw_rect r color s)) /\
  (forall x1 x2 y, painted (hline x1 x2 y) color s (draw_hline x1 x2 y color s)) /\
  (forall x y1 y2, painted (vline x y1 y2) color s (draw_vline x y1 y2 color s)) /\
  (forall c r, near c.(pt_x) -> near c.(pt_y) -> 0 <= r < 2 ^ 15 -> painted (disc c r) color s (draw_circle c r color s)) /\
  (forall r radius, near r.(r_x) -> near r.(r_y) -> 0 <= r.(r_width) < 2 ^ 16 -> 0 <= r.(r_height) < 2 ^ 16 -> 0 <= radius ->
    painted (rounded r radius) color s (draw_rounded_rect r radius color s)).
Proof.
  intros O. split_and!; intros; [by apply rect_painted|by apply hline_painted|by apply vline_painted|by apply circle_painted|by apply rounded_painted].
Qed.
Lemma primitives_exact_witness :
  (forall r, rect_ok r -> painted (in_rect r) 9 small_screen (draw_rect r 9 small_screen)) /\
  (forall x1 x2 y, painted (hline x1 x2 y) 9 small_screen (draw_hline x1 x2 y 9 small_screen)) /\
  (forall x y1 y2, painted (vline x y1 y2) 9 small_screen (draw_vline x y1 y2 9 small_screen)) /\
  (forall c r, near c.(pt_x) -> near c.(pt_y) -> 0 <= r < 2 ^ 15 -> painted (disc c r) 9 small_screen (draw_circle c r 9 small_screen)) /\
  (forall r radius, near r.(r_x) -> near r.(r_y) -> 0 <= r.(r_width) < 2 ^ 16 -> 0 <= r.(r_height) < 2 ^ 16 -> 0 <= radius ->
    painted (rounded r radius) 9 small_screen (draw_rounded_rect r radius 9 small_screen)).
Proof. apply (primitives_exact small_screen 9), small_screen_ok. Defined.

(** ** The clip *)
Lemma sides r : rect_ok r -> s32 (r_x r + s32 (r_width r)) = r_x r + r_width r /\ s32 (r_y r + s32 (r_height r)) = r_y r + r_height r /\
  s32 (r_x r + r_width r) = r_x r + r_width r /\ s32 (r_y r + r_height r) = r_y r + r_height r.
Proof. intros [Rx Ry]. rewrite (s32_small (r_width r)), (s32_small (r_height r)), !s32_small by lia. done. Qed.
Lemma rects_intersect_iff a b : rect_ok a -> rect_ok b -> rects_intersect a b = true <->
  r_x b < r_x a + r_width a /\ r_x a < r_x b + r_width b /\ r_y b < r_y a + r_height a /\ r_y a < r_y b + r_height b.
Proof.
  intros Ra Rb. unfold rects_intersect. destruct (sides a Ra) as (-> & -> & _), (sides b Rb) as (-> & -> & _). rewrite negb_true_iff, !orb_false_iff, !Z.leb_gt. tauto.
Qed.
(** The functions on rectangles mean what they say for rectangles whose sides are
    within 32 bits. *)
Theorem rect_functions a b p : rect_ok a -> rect_ok b ->
  point_in_rect p a = in_rect a p.(pt_x) p.(pt_y) /\
  in_rect (rect_intersect a b) p.(pt_x) p.(pt_y) = in_rect a p.(pt_x) p.(pt_y) && in_rect b p.(pt_x) p.(pt_y) /\
  rect_ok (rect_intersect a b) /\
  (0 < a.(r_width) -> 0 < a.(r_height) -> 0 < b.(r_width) -> 0 < b.(r_height) ->
    rects_intersect a b = true <-> exists x y, in_rect a x y && in_rect b x y = true).
Proof.
  intros Ra Rb. pose proof Ra as [Xa Ya]. pose proof Rb as [Xb Yb]. destruct (sides a Ra) as (Sa1 & Sa2 & Sa3 & Sa4), (sides b Rb) as (Sb1 & Sb2 & _).
  split; [unfold point_in_rect; by rewrite Sa3, Sa4|].
  assert (I : (forall x y, in_rect (rect_intersect a b) x y = in_rect a x y && in_rect b x y) /\ rect_ok (rect_intersect a b)).
  { unfold rect_intersect. rewrite Sa1, Sa2, Sb1, Sb2. cbv zeta.
    set (x1 := if r_x b <? r_x a then _ else _). set (y1 := if r_y b <? r_y a then _ else _). set (x2 := if r_x a + _ <? _ then _ else _). set (y2 := if r_y a + _ <? _ then _ else _).
    assert (M : x1 = Z.max (r_x a) (r_x b) /\ y1 = Z.max (r_y a) (r_y b) /\ x2 = Z.min (r_x a + r_width a) (r_x b + r_width b) /\ y2 = Z.min (r_y a + r_height a) (r_y b + r_height b)).
    { unfold x1, y1, x2, y2. split_and!; case_if; lia. }
    destruct M as (-> & -> & -> & ->). case_if.
    - rewrite !u32_small by (widths; lia). split; [|split; cbn; lia]. intros x y. apply eq_true_iff_eq. rewrite andb_true_iff, !in_rect_iff. cbn. lia.
    - split; [|split; cbn; lia]. intros x y. apply eq_true_iff_eq. rewrite andb_true_iff, !in_rect_iff. cbn. apply andb_false_iff in Hif. rewrite !Z.ltb_ge in Hif. lia. }
  destruct I as [I1 I2]. split; [apply I1|]. split; [done|]. intros. rewrite rects_intersect_iff by done. split.
  - intros ?. exists (Z.max (r_x a) (r_x b)), (Z.max (r_y a) (r_y b)). rewrite andb_true_iff, !in_rect_iff. lia.
  - intros (x & y & E). rewrite andb_true_iff, !in_rect_iff in E. lia.
Qed.
Lemma intersect_shape a b : rect_ok a -> rect_ok b -> rect_intersect a b = mk_rect 0 0 0 0 \/ 0 < r_width (rect_intersect a b) /\ 0 < r_height (rect_intersect a b).
Proof.
  intros Ra Rb. pose proof Ra as [Xa Ya]. pose proof Rb as [Xb Yb]. unfold rect_intersect. destruct (sides a Ra) as (-> & -> & _), (sides b Rb) as (-> & -> & _). cbv zeta.
  set (x1 := if r_x b <? r_x a then _ else _). set (y1 := if r_y b <? r_y a then _ else _). set (x2 := if r_x a + _ <? _ then _ else _). set (y2 := if r_y a + _ <? _ then _ else _).
  assert (- 2 ^ 31 <= x1 /\ x2 < 2 ^ 31 /\ - 2 ^ 31 <= y1 /\ y2 < 2 ^ 31) by (unfold x1, y1, x2, y2; split_and!; case_if; lia).
  case_if; [right|by left]. cbn. rewrite !u32_small by (widths; lia). lia.
Qed.
(** A clip that is pushed and popped again leaves the clip as it was, when the
    clip was set with the stack and there is room on it; in between exactly
    what was visible before and lies in the new clip is visible. *)
Theorem clip_push_pop c s : screen_ok s -> rect_ok c -> s.(g_clipping_enabled) = (0 <? zlen s.(g_clip_stack)) -> zlen s.(g_clip_stack) < CLIP_STACK_SIZE ->
  render_pop_clip (render_push_clip c s) = s /\
  (s.(g_clipping_enabled) = true -> screen_ok (render_push_clip c s) /\ forall x y, visible (render_push_clip c s) x y = visible s x y && in_rect c x y) /\
  (inside_screen s c -> screen_ok (render_push_clip c s) /\ forall x y, visible (render_push_clip c s) x y = visible s x y && in_rect c x y).
Proof.
  intros O Rc He Hl. unfold render_push_clip. rewrite (proj2 (Z.ltb_lt _ _)) by done. split.
  { unfold render_pop_clip, with_clip. cbn. rewrite <- He. by destruct s. }
  assert (K : forall r, (forall x y, in_rect r x y = true -> in_rect r x y = visible s x y && in_rect c x y) -> inside_screen s r ->
    (forall x y, visible s x y && in_rect c x y = true -> in_rect r x y = true) -> let s' := with_clip (g_current_clip s :: g_clip_stack s) r true s in
    screen_ok s' /\ forall x y, visible s' x y = visible s x y && in_rect c x y).
  { intros r H1 Hin H2. cbv zeta. assert (O' : screen_ok (with_clip (g_current_clip s :: g_clip_stack s) r true s)) by (destruct O as [[] _]; split; [by constructor|by intros _]).
    split; [done|]. intros x y. apply eq_true_iff_eq. rewrite (clip_case _ x y O'). cbn. rewrite <- in_rect_iff. split; [intros T; by rewrite <- H1|apply H2]. }
  assert (H1 : g_clipping_enabled s = true -> let s' := with_clip (g_current_clip s :: g_clip_stack s) (if g_clipping_enabled s then rect_intersect (g_current_clip s) c else c) true s in
    screen_ok s' /\ forall x y, visible s' x y = visible s x y && in_rect c x y).
  { intros En. rewrite En. destruct (proj2 O En) as (A1 & A2 & A3 & A4 & A5 & A6). assert (R0 : rect_ok (g_current_clip s)) by (destruct O as [[] _]; split; lia).
    destruct (rect_functions (g_current_clip s) c (mk_point 0 0) R0 Rc) as (_ & _ & [Rx Ry] & _).
    assert (Ev : forall x y, in_rect (rect_intersect (g_current_clip s) c) x y = visible s x y && in_rect c x y).
    { intros x y. destruct (rect_functions (g_current_clip s) c (mk_point x y) R0 Rc) as (_ & E & _). cbn in E. rewrite E. f_equal. apply eq_true_iff_eq. by rewrite clip_case, En, in_rect_iff by done. }
    apply K; [by intros| |by intros x y; rewrite Ev]. destruct (intersect_shape (g_current_clip s) c R0 Rc) as [->|[Pw Ph]]; [destruct O as [[] _]; unfold inside_screen; cbn; lia|].
    set (r := rect_intersect (g_current_clip s) c) in *. assert (Co : forall x y, in_rect r x y = true -> 0 <= x < fb_width s /\ 0 <= y < fb_height s).
    { intros x y T. rewrite Ev in T. apply andb_true_iff in T as [V _]. by apply visible_on_screen. }
    destruct (Co (r_x r) (r_y r)) as [? ?]; [apply in_rect_iff; lia|]. destruct (Co (r_x r + r_width r - 1) (r_y r + r_height r - 1)) as [? ?]; [apply in_rect_iff; lia|].
    unfold inside_screen. lia. }
  split; [exact H1|]. intros Hin. destruct (g_clipping_enabled s) eqn:En; [by apply H1|]. apply K; [|done|by intros x y [_ T]%andb_true_iff].
  intros x y T. rewrite T, andb_true_r. symmetry. apply clip_case; [done|]. rewrite En. apply in_rect_iff in T. destruct Hin as (? & ? & ? & ? & ? & ?). lia.
Qed.
Lemma clip_push_pop_witness : let c := mk_rect 1 1 2 5 in let s := with_clip [mk_rect 0 0 4 3] (mk_rect 0 0 3 3) true small_screen in
  render_pop_clip (render_push_clip c s) = s /\
  (s.(g_clipping_enabled) = true -> screen_ok (render_push_clip c s) /\ forall x y, visible (render_push_clip c s) x y = visible s x y && in_rect c x y) /\
  (inside_screen s c -> screen_ok (render_push_clip c s) /\ forall x y, visible (render_push_clip c s) x y = visible s x y && in_rect c x y).
Proof.
  cbv zeta. apply (clip_push_pop (mk_rect 1 1 2 5) (with_clip [mk_rect 0 0 4 3] (mk_rect 0 0 3 3) true small_screen)); [|split; cbn; lia|done|done].
  split; [destruct small_screen_ok as [[] _]; by constructor|intros _; unfold inside_screen; cbn; lia].
Defined.
(** The first clip on an empty stack is not cut to the screen: a pixel above it is
    written before the buffer. *)
Example clip_off_screen :
  let s := render_push_clip (mk_rect 0 (-1) 4 4) small_screen in
  let s' := draw_rect (mk_rect 0 (-1) 4 1) 9 s in
  is_clipped s 0 (-1) = false /\ render_get_active_buffer s' (u32 (-5)) = 9.
Proof. by vm_compute. Qed.
(** A clip set without the stack is switched off by the next pop. *)
Example pop_disables_clip :
  let s := render_set_clip (Some (mk_rect 1 1 1 1)) small_screen in
  let s' := render_pop_clip (render_push_clip (mk_rect 0 0 4 3) s) in is_clipped s 0 0 = true /\ is_clipped s' 0 0 = false.
Proof. by vm_compute. Qed.
(** When the stack is full a clip is not pushed, but its pop takes another one. *)
Example full_stack_unbalanced :
  let s := Nat.iter 16 (render_push_clip (mk_rect 1 1 1 1)) small_screen in
  zlen (render_pop_clip (render_push_clip (mk_rect 1 1 1 1) s)).(g_clip_stack) = 15.
Proof. by vm_compute. Qed.
(** A bitmap is drawn outside the clip. *)
Example bitmap_ignores_clip :
  let s := render_set_clip (Some (mk_rect 1 1 1 1)) small_screen in
  is_clipped s 3 2 = true /\ read_pixel 3 2 (draw_bitmap (mk_point 3 2) (fun _ => 7) 1 1 s) = 7.
Proof. by vm_compute. Qed.

(** ** The buffers *)
(** With two buffers, drawing does not touch the screen until the flip, which then
    shows all that was drawn. *)
Theorem flip_shows s back : fb_ok s -> s.(g_back_buffer) = Some back -> s.(g_double_buffer_enabled) = true -> 4 * pitch_pixels s = s.(fb_pitch) -> s.(fb_pitch) * s.(fb_height) < 2 ^ 32 ->
  (forall o color, (store o color s).(g_front_buffer) = s.(g_front_buffer)) /\
  (forall x y, 0 <= x < s.(fb_width) -> 0 <= y < s.(fb_height) ->
    (render_flip s).(g_front_buffer) (y * pitch_pixels s + x) = read_pixel x y s).
Proof.
  intros F Eb Ed Ep Hs. split; [intros; unfold store, with_active; by rewrite Eb, Ed|]. intros x y Hx Hy. destruct F as [Fw Fw' Fh Fs]. unfold render_flip, read_pixel, render_get_active_buffer. rewrite Eb, Ed. cbn [negb].
  rewrite !s32_small by lia. rewrite !(proj2 (Z.ltb_ge _ 0)), !(proj2 (Z.leb_gt _ _)) by lia. cbn [orb with_buffers g_front_buffer].
  assert (0 <= y * pitch_pixels s + x < pitch_pixels s * fb_height s) by nia. rewrite !u32_small by (widths; nia).
  rewrite <- Ep at 1. replace (4 * pitch_pixels s * fb_height s / 4) with (pitch_pixels s * fb_height s) by lia.
  by rewrite (proj2 (Z.leb_le 0 _)), (proj2 (Z.ltb_lt _ _)) by lia.
Qed.

(** ** Colours *)
Definition is_color (c : rgba_t) : Prop := 0 <= c.(c_r) < 256 /\ 0 <= c.(c_g) < 256 /\ 0 <= c.(c_b) < 256 /\ 0 <= c.(c_a) < 256.
Lemma pack_bytes a r g b : 0 <= a -> 0 <= r < 256 -> 0 <= g < 256 -> 0 <= b < 256 ->
  Z.lor (Z.lor (Z.lor (Z.shiftl a 24) (Z.shiftl r 16)) (Z.shiftl g 8)) b = a * 2 ^ 24 + r * 2 ^ 16 + g * 2 ^ 8 + b.
Proof.
  intros. rewrite !Z.shiftl_mul_pow2 by lia. rewrite (lor_add a (r * 2 ^ 16) 24) by lia.
  replace (a * 2 ^ 24 + r * 2 ^ 16) with ((a * 2 ^ 8 + r) * 2 ^ 16) by ring. rewrite (lor_add _ (g * 2 ^ 8) 16) by lia.
  replace ((a * 2 ^ 8 + r) * 2 ^ 16 + g * 2 ^ 8) with (((a * 2 ^ 8 + r) * 2 ^ 8 + g) * 2 ^ 8) by ring. rewrite (lor_add _ b 8) by lia. ring.
Qed.
Lemma unpack_byte v n : 0 <= n -> Z.land (Z.shiftr v n) 0xFF = v / 2 ^ n mod 256.
Proof. intros. change 0xFF with (Z.ones 8). by rewrite Z.land_ones, Z.shiftr_div_pow2 by lia. Qed.
Lemma low_byte v : Z.land v 0xFF = v mod 256.
Proof. change 0xFF with (Z.ones 8). by rewrite Z.land_ones by lia. Qed.
(** A mean of two bytes with weights that add up to 255. *)
Lemma mean_bounds a b alpha : 0 <= a < 256 -> 0 <= b < 256 -> 0 <= alpha <= 255 -> Z.min a b <= (a * alpha + b * (255 - alpha)) / 255 <= Z.max a b.
Proof. intros Ha Hb Hl. split; [apply Z.div_le_lower_bound; [lia|]|apply Z.div_le_upper_bound; [lia|]]; destruct (Z.le_ge_cases a b); nia. Qed.
Definition channels (v : Z) : list Z := [v / 2 ^ 16 mod 256; v / 2 ^ 8 mod 256; v mod 256].
Lemma packed a r g b : 0 <= a < 256 -> 0 <= r < 256 -> 0 <= g < 256 -> 0 <= b < 256 -> let v := a * 2 ^ 24 + r * 2 ^ 16 + g * 2 ^ 8 + b in
  v / 2 ^ 24 mod 256 = a /\ v / 2 ^ 16 mod 256 = r /\ v / 2 ^ 8 mod 256 = g /\ v mod 256 = b /\ 0 <= v < 2 ^ 32.
Proof.
  intros. change (2 ^ 24) with 16777216. pow2. subst v. change (2 ^ 16) with 65536. change (2 ^ 8) with 256. split_and!; lia.
Qed.
(** A colour survives being packed into 32 bits; a colour blended over another
    is, in every channel, between the two, the whole pixel being the background
    for alpha 0 and the colour for alpha 255. *)
Theorem blend_between bg fg : is_u32 bg -> is_color fg ->
  u32_to_rgba (rgba_to_u32 fg) = fg /\ is_u32 (blend_colors bg fg) /\
  (fg.(c_a) = 0 -> blend_colors bg fg = bg) /\ (fg.(c_a) = 255 -> blend_colors bg fg = rgba_to_u32 fg) /\
  Forall2 (fun v ab => Z.min ab.1 ab.2 <= v <= Z.max ab.1 ab.2) (channels (blend_colors bg fg)) (zip (channels bg) [fg.(c_r); fg.(c_g); fg.(c_b)]).
Proof.
  unfold is_u32. intros Hbg (Hr & Hg & Hb & Ha). assert (P : rgba_to_u32 fg = c_a fg * 2 ^ 24 + c_r fg * 2 ^ 16 + c_g fg * 2 ^ 8 + c_b fg) by (unfold rgba_to_u32; rewrite pack_bytes by lia; done).
  assert (Ch : forall a r g b, 0 <= a < 256 -> 0 <= r < 256 -> 0 <= g < 256 -> 0 <= b < 256 -> channels (a * 2 ^ 24 + r * 2 ^ 16 + g * 2 ^ 8 + b) = [r; g; b]).
  { intros a r g b A R G B. unfold channels. destruct (packed a r g b A R G B) as (_ & -> & -> & -> & _). done. }
  destruct (packed _ _ _ _ Ha Hr Hg Hb) as (P1 & P2 & P3 & P4 & P5).
  split; [unfold u32_to_rgba; rewrite !unpack_byte, low_byte, P by lia; rewrite P1, P2, P3, P4; by destruct fg|].
  unfold blend_colors. destruct (Z.eqb_spec (c_a fg) 0) as [E0|E0]; [|destruct (Z.eqb_spec (c_a fg) 255) as [E1|E1]].
  - split; [done|]. split; [done|]. split; [lia|]. unfold channels. cbn [zip zip_with]. repeat constructor; cbn; lia.
  - split; [by rewrite P|]. split; [lia|]. split; [done|]. rewrite P, Ch by lia. unfold channels. cbn [zip zip_with]. repeat constructor; cbn; lia.
  - cbv zeta. rewrite !unpack_byte, low_byte by lia. change 0xFF000000 with (Z.shiftl 255 24).
    pose proof (mean_bounds (c_r fg) (bg / 2 ^ 16 mod 256) (c_a fg) ltac:(lia) ltac:(lia) ltac:(lia)) as Mr. pose proof (mean_bounds (c_g fg) (bg / 2 ^ 8 mod 256) (c_a fg) ltac:(lia) ltac:(lia) ltac:(lia)) as Mg.
    pose proof (mean_bounds (c_b fg) (bg mod 256) (c_a fg) ltac:(lia) ltac:(lia) ltac:(lia)) as Mb.
    revert Mr Mg Mb. generalize ((c_r fg * c_a fg + bg / 2 ^ 16 mod 256 * (255 - c_a fg)) / 255) ((c_g fg * c_a fg + bg / 2 ^ 8 mod 256 * (255 - c_a fg)) / 255) ((c_b fg * c_a fg + bg mod 256 * (255 - c_a fg)) / 255).
    intros r g b Mr Mg Mb. rewrite pack_bytes by lia. split; [apply packed; lia|]. split; [done|]. split; [done|]. rewrite Ch by lia. unfold channels. cbn [zip zip_with]. repeat constructor; cbn [fst snd]; lia.
Qed.
Lemma blend_between_witness : let fg := mk_rgba 255 0 16 128 in
  u32_to_rgba (rgba_to_u32 fg) = fg /\ is_u32 (blend_colors 0xFF204060 fg) /\
  (fg.(c_a) = 0 -> blend_colors 0xFF204060 fg = 0xFF204060) /\ (fg.(c_a) = 255 -> blend_colors 0xFF204060 fg = rgba_to_u32 fg) /\
  Forall2 (fun v ab => Z.min ab.1 ab.2 <= v <= Z.max ab.1 ab.2) (channels (blend_colors 0xFF204060 fg)) (zip (channels 0xFF204060) [fg.(c_r); fg.(c_g); fg.(c_b)]).
Proof. apply (blend_between 0xFF204060 (mk_rgba 255 0 16 128)); [split; [lia|done]|unfold is_color; cbn; lia]. Defined.
