(* ===== verification/Compositor.v ===== *)
(** The compositor (src/gui/compositor.c, src/gui/compositor.h): the list of
    layers, ordered by type, and the dirty rectangles.

    A layer is named by the address that [kmalloc] returned for it; a layer that
    is not in the list is in [g_detached].  What is drawn for a region is given as
    a list of drawings; the pixels are those of Render. *)
From Stdlib Require Import Sorting.Sorted.
From S2P Require Import Prelude Render.

Definition LAYER_BACKGROUND : Z := 0.
Definition LAYER_DESKTOP : Z := 1.
Definition LAYER_WINDOW : Z := 2.
Definition LAYER_PANEL : Z := 3.
Definition LAYER_DOCK : Z := 4.
Definition LAYER_POPUP : Z := 5.
Definition LAYER_OVERLAY : Z := 6.
Definition MAX_DIRTY_RECTS : Z := 64.
Record layer_t := mk_layer { l_ptr : Z; l_id : Z; l_type : Z; l_bounds : rect_t; l_visible : bool; l_needs_redraw : bool }.
Record compositor := mk_compositor {
  fb_w : Z; fb_h : Z;              (** size of [g_main_fb] *)
  g_layers : list layer_t;         (** from [g_layers_head] on *)
  g_detached : list layer_t;
  g_next_layer_id : Z;
  g_dirty_rects : list rect_t
}.
Definition with_layers (l d : list layer_t) (s : compositor) : compositor := mk_compositor s.(fb_w) s.(fb_h) l d s.(g_next_layer_id) s.(g_dirty_rects).
Definition with_dirty (d : list rect_t) (s : compositor) : compositor := mk_compositor s.(fb_w) s.(fb_h) s.(g_layers) s.(g_detached) s.(g_next_layer_id) d.
Definition set_redraw (b : bool) (l : layer_t) : layer_t := mk_layer l.(l_ptr) l.(l_id) l.(l_type) l.(l_bounds) l.(l_visible) b.
Definition set_visible (b : bool) (l : layer_t) : layer_t := mk_layer l.(l_ptr) l.(l_id) l.(l_type) l.(l_bounds) b l.(l_needs_redraw).
Definition set_bounds (r : rect_t) (l : layer_t) : layer_t := mk_layer l.(l_ptr) l.(l_id) l.(l_type) r l.(l_visible) l.(l_needs_redraw).
Definition is_layer (p : Z) (l : layer_t) : bool := l.(l_ptr) =? p.
Definition update (p : Z) (f : layer_t -> layer_t) : list layer_t -> list layer_t := map (fun l => if is_layer p l then f l else l).
Definition update_layer (p : Z) (f : layer_t -> layer_t) (s : compositor) : compositor :=
  with_layers (update p f s.(g_layers)) (update p f s.(g_detached)) s.
Definition remove (p : Z) : list layer_t -> list layer_t := List.filter (fun l => negb (is_layer p l)).

(** ** Dirty rectangles *)
Definition compositor_invalidate_rect (rect : rect_t) (s : compositor) : compositor :=
  if MAX_DIRTY_RECTS <=? zlen s.(g_dirty_rects) then with_dirty [mk_rect 0 0 s.(fb_w) s.(fb_h)] s
  else
    let '(x, w) := if rect.(r_x) <? 0 then (0, u32 (rect.(r_width) + u32 rect.(r_x))) else (rect.(r_x), rect.(r_width)) in
    let '(y, h) := if rect.(r_y) <? 0 then (0, u32 (rect.(r_height) + u32 rect.(r_y))) else (rect.(r_y), rect.(r_height)) in
    let w := if s32 s.(fb_w) <? s32 (x + s32 w) then u32 (s.(fb_w) - u32 x) else w in
    let h := if s32 s.(fb_h) <? s32 (y + s32 h) then u32 (s.(fb_h) - u32 y) else h in
    if (w =? 0) || (h =? 0) then s else with_dirty (s.(g_dirty_rects) ++ [mk_rect x y w h]) s.
Definition find_layer (p : Z) (s : compositor) : option layer_t := find (is_layer p) (s.(g_layers) ++ s.(g_detached)).
Definition compositor_invalidate_layer (p : Z) (s : compositor) : compositor :=
  match find_layer p s with
  | None => s
  | Some l => compositor_invalidate_rect l.(l_bounds) (update_layer p (set_redraw true) s)
  end.
Definition compositor_init (w h : Z) (detached : list layer_t) : compositor :=
  compositor_invalidate_rect (mk_rect 0 0 w h) (mk_compositor w h [] detached 1 []).

(** ** Layers *)
(** [p]: the address from [kmalloc], or [None]. *)
Definition compositor_create_layer (type : Z) (bounds : rect_t) (p : option Z) (s : compositor) : option Z * compositor :=
  match p with
  | None => (None, s)
  | Some p =>
      (Some p, mk_compositor s.(fb_w) s.(fb_h) s.(g_layers) (mk_layer p s.(g_next_layer_id) type bounds true true :: s.(g_detached)) (u32 (s.(g_next_layer_id) + 1)) s.(g_dirty_rects))
  end.
(** Behind the layers of lower or equal type. *)
Fixpoint insert_layer (l : layer_t) (ls : list layer_t) : list layer_t :=
  match ls with
  | [] => [l]
  | a :: ls' => if a.(l_type) <=? l.(l_type) then a :: insert_layer l ls' else l :: ls
  end.
(** A layer that is in the list already would make a cycle: [None]. *)
Definition compositor_add_layer (p : Z) (s : compositor) : option compositor :=
  match find (is_layer p) s.(g_layers), find (is_layer p) s.(g_detached) with
  | None, Some l => Some (compositor_invalidate_layer p (with_layers (insert_layer l s.(g_layers)) (remove p s.(g_detached)) s))
  | _, _ => None
  end.
Definition compositor_remove_layer (p : Z) (s : compositor) : compositor :=
  match find (is_layer p) s.(g_layers) with
  | None => s
  | Some l => let s := compositor_invalidate_rect l.(l_bounds) s in with_layers (remove p s.(g_layers)) (l :: s.(g_detached)) s
  end.
Definition compositor_destroy_layer (p : Z) (s : compositor) : compositor :=
  let s := compositor_remove_layer p s in with_layers s.(g_layers) (remove p s.(g_detached)) s.
(** From the place where the layer was: behind those of the same type. *)
Fixpoint after_same (l : layer_t) (ls : list layer_t) : list layer_t :=
  match ls with
  | [] => [l]
  | a :: ls' => if a.(l_type) =? l.(l_type) then a :: after_same l ls' else l :: ls
  end.
Fixpoint raise_in (p : Z) (ls : list layer_t) : list layer_t :=
  match ls with
  | [] => []
  | a :: ls' => if is_layer p a then after_same a ls' else a :: raise_in p ls'
  end.
(** Nothing happens for the last layer of the list, nor for one outside of it. *)
Definition compositor_raise_layer (p : Z) (s : compositor) : compositor :=
  match find (is_layer p) s.(g_layers), list.last s.(g_layers) with
  | Some _, Some z => if is_layer p z then s else compositor_invalidate_layer p (with_layers (raise_in p s.(g_layers)) s.(g_detached) s)
  | _, _ => s
  end.
(** In front of the first layer of the same or a higher type. *)
Fixpoint before_same (l : layer_t) (ls : list layer_t) : list layer_t :=
  match ls with
  | [] => [l]
  | a :: ls' => if a.(l_type) <? l.(l_type) then a :: before_same l ls' else l :: ls
  end.
Definition compositor_lower_layer (p : Z) (s : compositor) : compositor :=
  match find (is_layer p) s.(g_layers) with
  | None => s
  | Some l => compositor_invalidate_layer p (with_layers (before_same l (remove p s.(g_layers))) s.(g_detached) s)
  end.

(** ** Rendering *)
Inductive drawing := Background (region : rect_t) | Layer (p : Z) (clip : rect_t).
Definition drawn (region : rect_t) (l : layer_t) : bool := l.(l_visible) && rects_intersect l.(l_bounds) region.
Definition compositor_render_region (region : rect_t) (s : compositor) : list drawing * compositor :=
  (Background region :: map (fun l => Layer l.(l_ptr) region) (List.filter (drawn region) s.(g_layers)),
   with_layers (map (fun l => if drawn region l then set_redraw false l else l) s.(g_layers)) s.(g_detached) s).
(** One round of the loop over the dirty rectangles. *)
Definition render_one (a : list drawing * compositor) (region : rect_t) : list drawing * compositor :=
  let '(d, s) := compositor_render_region region a.2 in (a.1 ++ d, s).
Definition compositor_render (s : compositor) : list drawing * compositor :=
  let '(ds, s) := foldl render_one ([], s) s.(g_dirty_rects) in
  (ds, with_dirty [] s).

(** ** The order of the layers *)
Definition below (a b : layer_t) : Prop := a.(l_type) <= b.(l_type).
#[local] Abbreviation sorted := (StronglySorted below).
Lemma insert_perm l ls : insert_layer l ls ≡ₚ l :: ls.
Proof. induction ls as [|a ls IH]; cbn [insert_layer]; [done|]. case_if; [|done]. rewrite IH. apply perm_swap. Qed.
Lemma after_perm l ls : after_same l ls ≡ₚ l :: ls.
Proof. induction ls as [|a ls IH]; cbn [after_same]; [done|]. case_if; [|done]. rewrite IH. apply perm_swap. Qed.
Lemma before_perm l ls : before_same l ls ≡ₚ l :: ls.
Proof. induction ls as [|a ls IH]; cbn [before_same]; [done|]. case_if; [|done]. rewrite IH. apply perm_swap. Qed.
Lemma raise_perm p ls : raise_in p ls ≡ₚ ls.
Proof. induction ls as [|a ls IH]; cbn [raise_in]; [done|]. case_if; [apply after_perm|by rewrite IH]. Qed.
Lemma insert_sorted l ls : sorted ls -> sorted (insert_layer l ls).
Proof.
  induction 1 as [|a ls S IH F]; cbn [insert_layer]; [by repeat constructor|]. case_if.
  - constructor; [done|]. rewrite insert_perm. by constructor.
  - constructor; [by constructor|]. constructor; [unfold below; lia|]. revert F. apply Forall_impl. unfold below. lia.
Qed.
Lemma after_sorted l ls : sorted ls -> Forall (below l) ls -> sorted (after_same l ls).
Proof.
  induction 1 as [|a ls S IH F]; intros B; cbn [after_same]; [by repeat constructor|]. apply list.Forall_cons in B as [Ba B]. case_if.
  - constructor; [by apply IH|]. rewrite after_perm. constructor; [unfold below; lia|done].
  - constructor; [by constructor|by constructor].
Qed.
Lemma before_sorted l ls : sorted ls -> sorted (before_same l ls).
Proof.
  induction 1 as [|a ls S IH F]; cbn [before_same]; [by repeat constructor|]. case_if.
  - constructor; [done|]. rewrite before_perm. constructor; [unfold below; lia|done].
  - constructor; [by constructor|]. constructor; [unfold below; lia|]. revert F. apply Forall_impl. unfold below. lia.
Qed.
Lemma raise_sorted p ls : sorted ls -> sorted (raise_in p ls).
Proof.
  induction 1 as [|a ls S IH F]; cbn [raise_in]; [constructor|]. case_if; [by apply after_sorted|]. constructor; [done|]. by rewrite raise_perm.
Qed.
Lemma filter_sorted f ls : sorted ls -> sorted (List.filter f ls).
Proof.
  induction 1 as [|a ls S IH F]; cbn [List.filter]; [constructor|]. case_if; [|done]. constructor; [done|]. rewrite List.Forall_forall in *. intros x Hx. apply F. apply filter_In in Hx. tauto.
Qed.
Lemma map_sorted f ls : (forall l, l_type (f l) = l_type l) -> sorted ls -> sorted (map f ls).
Proof.
  intros Hf. induction 1 as [|a ls S IH F]; cbn [map]; [constructor|]. constructor; [done|]. rewrite List.Forall_forall in *. intros x Hx. apply in_map_iff in Hx as (y & <- & Hy).
  unfold below in *. rewrite !Hf. by apply F.
Qed.
(** The functions on a layer that the components use. *)
Definition keeps (f : layer_t -> layer_t) : Prop := forall l, l_type (f l) = l_type l /\ l_ptr (f l) = l_ptr l.
Lemma update_keeps p f : keeps f -> keeps (fun l => if is_layer p l then f l else l).
Proof. intros K l. case_if; [apply K|done]. Qed.
Lemma ptrs_map f ls : keeps f -> map l_ptr (map f ls) = map l_ptr ls.
Proof. intros K. rewrite map_map. apply map_ext. intros l. apply K. Qed.
Record comp_ok (s : compositor) : Prop := mk_comp_ok {
  co_sorted : sorted s.(g_layers);
  co_nodup : NoDup (map l_ptr (s.(g_layers) ++ s.(g_detached)));
  co_dirty : zlen s.(g_dirty_rects) <= MAX_DIRTY_RECTS
}.
Lemma invalidate_ok r s : comp_ok s -> comp_ok (compositor_invalidate_rect r s) /\
  g_layers (compositor_invalidate_rect r s) = g_layers s /\ g_detached (compositor_invalidate_rect r s) = g_detached s /\
  fb_w (compositor_invalidate_rect r s) = fb_w s /\ fb_h (compositor_invalidate_rect r s) = fb_h s.
Proof.
  intros [S N D]. unfold compositor_invalidate_rect, MAX_DIRTY_RECTS in *. destruct (Z.leb_spec 64 (zlen (g_dirty_rects s))).
  { split; [|done]. constructor; [done|done|]. done. }
  destruct (if r_x r <? 0 then _ else _) as [x w], (if r_y r <? 0 then _ else _) as [y h]. cbv zeta.
  match goal with |- context [if (?a =? 0) || ?b then _ else _] => destruct ((a =? 0) || b) end; [by split; [constructor|]|]. split; [|done]. constructor; [done|done|]. cbn. unfold MAX_DIRTY_RECTS. rewrite zlen_app. change (zlen [_]) with 1. lia.
Qed.
Lemma with_layers_ok l d s : comp_ok s -> sorted l -> map l_ptr (l ++ d) ≡ₚ map l_ptr (s.(g_layers) ++ s.(g_detached)) -> comp_ok (with_layers l d s).
Proof. intros [S N D] Sl P. constructor; cbn; [done|by rewrite P|done]. Qed.
Lemma update_ok p f s : keeps f -> comp_ok s -> comp_ok (update_layer p f s).
Proof.
  intros K O. apply with_layers_ok; [done|apply map_sorted; [intros l; by apply update_keeps|apply O]|]. unfold update. rewrite <- map_app, ptrs_map by (by apply update_keeps). done.
Qed.
Lemma redraw_keeps b : keeps (set_redraw b).
Proof. done. Qed.
Lemma invalidate_layer_ok p s : comp_ok s -> comp_ok (compositor_invalidate_layer p s).
Proof. intros O. unfold compositor_invalidate_layer. destruct (find_layer p s); [|done]. apply invalidate_ok, update_ok; [apply redraw_keeps|done]. Qed.
(** Looking a layer up. *)
Lemma find_spec p ls l : find (is_layer p) ls = Some l -> exists a b, ls = a ++ l :: b /\ l_ptr l = p /\ Forall (fun x => l_ptr x <> p) a.
Proof.
  induction ls as [|x ls IH]; cbn [find]; [done|]. unfold is_layer at 1. destruct (Z.eqb_spec (l_ptr x) p).
  - intros [= ->]. exists [], ls. split; [done|]. split; [done|constructor].
  - intros (a & b & -> & E & F)%IH. exists (x :: a), b. split; [done|]. split; [done|by constructor].
Qed.
Lemma remove_other p ls : Forall (fun x => l_ptr x <> p) ls -> remove p ls = ls.
Proof. induction 1 as [|x ls H _ IH]; [done|]. cbn [remove List.filter]. unfold is_layer. rewrite (proj2 (Z.eqb_neq _ _) H). cbn [negb]. f_equal. exact IH. Qed.
Lemma ptr_in x ls : x ∈ ls -> l_ptr x ∈ map l_ptr ls.
Proof. rewrite !list_elem_of_In. apply in_map. Qed.
Lemma others p a l b : NoDup (map l_ptr (a ++ l :: b)) -> l_ptr l = p -> Forall (fun x => l_ptr x <> p) a /\ Forall (fun x => l_ptr x <> p) b.
Proof.
  rewrite map_app. cbn [map]. intros N <-. apply list.NoDup_app in N as (_ & N1 & N2). apply list.NoDup_cons in N2 as [N2 _]. split; apply list.Forall_forall; intros x Hx E.
  - apply (N1 (l_ptr x)); [by apply ptr_in|]. rewrite E. by left.
  - apply N2. rewrite <- E. by apply ptr_in.
Qed.
Lemma remove_split p a l b : NoDup (map l_ptr (a ++ l :: b)) -> l_ptr l = p -> remove p (a ++ l :: b) = a ++ b.
Proof.
  intros N E. destruct (others p a l b N E) as [Fa Fb]. unfold remove in *. rewrite filter_app. cbn [List.filter]. unfold is_layer at 2. rewrite E, Z.eqb_refl. cbn [negb].
  by rewrite (remove_other p a Fa : List.filter _ a = a), (remove_other p b Fb : List.filter _ b = b).
Qed.
Lemma nodup_layers s : comp_ok s -> NoDup (map l_ptr s.(g_layers)) /\ NoDup (map l_ptr s.(g_detached)).
Proof. intros [_ N _]. rewrite map_app in N. by apply list.NoDup_app in N as (? & _ & ?). Qed.
Lemma remove_perm p ls l : NoDup (map l_ptr ls) -> find (is_layer p) ls = Some l -> ls ≡ₚ l :: remove p ls.
Proof. intros N (a & b & -> & E & _)%find_spec. rewrite (remove_split p a l b N E). by rewrite Permutation_middle. Qed.
(** Every operation keeps the order, the addresses apart and the rectangles in
    their array. *)
Lemma layer_create_ok type bounds p s : comp_ok s -> match p with Some p => ~ In p (map l_ptr (s.(g_layers) ++ s.(g_detached))) | None => True end ->
  comp_ok (compositor_create_layer type bounds p s).2.
Proof.
  intros [S N D] Hp. destruct p as [p|]; [|done]. constructor; cbn; [done| |done]. rewrite map_app in *. cbn [map]. rewrite <- Permutation_middle. apply list.NoDup_cons. split; [|done].
  by rewrite list_elem_of_In.
Qed.
Lemma insert_ok p l s : comp_ok s -> find (is_layer p) s.(g_detached) = Some l -> comp_ok (with_layers (insert_layer l s.(g_layers)) (remove p s.(g_detached)) s).
Proof.
  intros O E. apply with_layers_ok; [done|apply insert_sorted, O|]. apply Permutation_map. rewrite insert_perm. cbn [app]. rewrite Permutation_middle. apply Permutation_app_head.
  symmetry. apply remove_perm; [by apply nodup_layers|done].
Qed.
Lemma layer_add_ok p s s' : comp_ok s -> compositor_add_layer p s = Some s' -> comp_ok s'.
Proof.
  intros O. unfold compositor_add_layer. destruct (find _ (g_layers s)) eqn:E1; [done|]. destruct (find _ (g_detached s)) as [l|] eqn:E2; [|done]. intros [= <-].
  by apply invalidate_layer_ok, insert_ok.
Qed.
Lemma layer_remove_ok p s : comp_ok s -> comp_ok (compositor_remove_layer p s).
Proof.
  intros O. unfold compositor_remove_layer. destruct (find _ _) as [l|] eqn:E; [|done]. destruct (invalidate_ok (l_bounds l) s O) as (O' & El & Ed & _). cbv zeta. rewrite El, Ed.
  apply with_layers_ok; [done|apply filter_sorted, O|]. rewrite El, Ed. apply Permutation_map. rewrite <- Permutation_middle. rewrite app_comm_cons. apply Permutation_app_tail.
  symmetry. apply remove_perm; [by apply nodup_layers|done].
Qed.
Lemma destroy_ok p s : comp_ok s -> comp_ok (compositor_destroy_layer p s).
Proof.
  intros O%(layer_remove_ok p). unfold compositor_destroy_layer. cbv zeta. destruct O as [S N D]. constructor; cbn; [done| |done]. rewrite map_app in *. apply list.NoDup_app in N as (N1 & N2 & N3). apply list.NoDup_app.
  assert (K : forall x, x ∈ map l_ptr (remove p (g_detached (compositor_remove_layer p s))) -> x ∈ map l_ptr (g_detached (compositor_remove_layer p s))).
  { intros x. rewrite !list_elem_of_In, !in_map_iff. intros (y & Ey & Hy%filter_In). exists y. tauto. }
  split; [done|]. split; [intros x Hx Hx'; by apply (N2 x), K|]. revert N3. generalize (g_detached (compositor_remove_layer p s)). clear.
  induction l as [|a l IH]; [done|]. cbn [map remove List.filter]. intros [Na N]%list.NoDup_cons. destruct (negb (is_layer p a)); [|by apply IH]. cbn [map]. apply list.NoDup_cons. split; [|by apply IH].
  intros H. apply Na. rewrite !list_elem_of_In, !in_map_iff in *. destruct H as (y & Ey & Hy%filter_In). exists y. tauto.
Qed.
Lemma raise_ok p s : comp_ok s -> comp_ok (compositor_raise_layer p s).
Proof.
  intros O. unfold compositor_raise_layer. destruct (find _ _); [|done]. destruct (list.last _); [|done]. case_if; [done|].
  apply invalidate_layer_ok, with_layers_ok; [done|apply raise_sorted, O|]. apply Permutation_map. by rewrite raise_perm.
Qed.
Lemma lower_ok p s : comp_ok s -> comp_ok (compositor_lower_layer p s).
Proof.
  intros O. unfold compositor_lower_layer. destruct (find _ _) as [l|] eqn:E; [|done].
  apply invalidate_layer_ok, with_layers_ok; [done|apply before_sorted, filter_sorted, O|]. apply Permutation_map. apply Permutation_app_tail. rewrite before_perm.
  symmetry. apply remove_perm; [by apply nodup_layers|done].
Qed.
Lemma redraw_if_keeps region : keeps (fun l => if drawn region l then set_redraw false l else l).
Proof. intros l. by case_if. Qed.
Lemma region_ok region s : comp_ok s -> comp_ok (compositor_render_region region s).2.
Proof.
  intros O. cbn. apply with_layers_ok; [done|apply map_sorted; [intros l; by apply redraw_if_keeps|apply O]|]. rewrite !map_app, ptrs_map by apply redraw_if_keeps. done.
Qed.
Lemma redraw_drawn region ls r : map l_ptr (List.filter (drawn r) (map (fun l => if drawn region l then set_redraw false l else l) ls)) = map l_ptr (List.filter (drawn r) ls).
Proof.
  induction ls as [|l ls IH]; [done|]. cbn [map List.filter]. assert (drawn r (if drawn region l then set_redraw false l else l) = drawn r l) as -> by (by destruct (drawn region l)).
  destruct (drawn r l); [|done]. cbn [map]. rewrite IH. f_equal. by destruct (drawn region l).
Qed.
Definition region_drawings (s : compositor) (region : rect_t) : list drawing :=
  Background region :: map (fun p => Layer p region) (map l_ptr (List.filter (drawn region) s.(g_layers))).
Lemma render_fold rs : forall a s, let r := foldl render_one (a, s) rs in
  (comp_ok s -> comp_ok r.2) /\ r.1 = a ++ concat (map (region_drawings s) rs).
Proof.
  induction rs as [|region rs IH]; intros a s; cbn [foldl map concat]; [by rewrite app_nil_r|].
  destruct (IH (render_one (a, s) region).1 (render_one (a, s) region).2) as [IH1 IH2]. rewrite <- surjective_pairing in IH1, IH2. split; [intros O; apply IH1, (region_ok region s O)|]. rewrite IH2.
  assert ((render_one (a, s) region).1 = a ++ region_drawings s region) as -> by (unfold region_drawings; by rewrite map_map). rewrite <- app_assoc. do 3 f_equal.
  apply map_ext. intros r. unfold region_drawings. do 2 f_equal. apply redraw_drawn.
Qed.
Lemma render_drawings s : (compositor_render s).1 = concat (map (region_drawings s) s.(g_dirty_rects)) /\ g_dirty_rects (compositor_render s).2 = [] /\ (comp_ok s -> comp_ok (compositor_render s).2).
Proof.
  unfold compositor_render. destruct (render_fold (g_dirty_rects s) [] s) as [R1 R2]. destruct (foldl _ _ _) as [ds s']. cbn [fst snd] in *. split; [done|]. split; [done|].
  intros O. destruct (R1 O) as [S N D]. by constructor.
Qed.

(** ** Theorems *)
Inductive layer_op :=
| Create (type : Z) (bounds : rect_t) (p : option Z) | Destroy (p : Z) | Add (p : Z) | Remove (p : Z) | Raise (p : Z) | Lower (p : Z)
| InvalidateRect (r : rect_t) | InvalidateLayer (p : Z) | Show (p : Z) (visible : bool) | Place (p : Z) (bounds : rect_t) | DoRender.
(** The addresses that [kmalloc] returns are not in use, and a layer is added once. *)
Inductive layer_step (s : compositor) : layer_op -> compositor -> Prop :=
| step_create type bounds p : match p with Some p => ~ In p (map l_ptr (s.(g_layers) ++ s.(g_detached))) | None => True end ->
    layer_step s (Create type bounds p) (compositor_create_layer type bounds p s).2
| step_destroy p : layer_step s (Destroy p) (compositor_destroy_layer p s)
| step_add p s' : compositor_add_layer p s = Some s' -> layer_step s (Add p) s'
| step_remove p : layer_step s (Remove p) (compositor_remove_layer p s)
| step_raise p : layer_step s (Raise p) (compositor_raise_layer p s)
| step_lower p : layer_step s (Lower p) (compositor_lower_layer p s)
| step_inv_rect r : layer_step s (InvalidateRect r) (compositor_invalidate_rect r s)
| step_inv_layer p : layer_step s (InvalidateLayer p) (compositor_invalidate_layer p s)
| step_show p b : layer_step s (Show p b) (update_layer p (set_visible b) s)
| step_place p r : layer_step s (Place p r) (update_layer p (set_bounds r) s)
| step_render : layer_step s DoRender (compositor_render s).2.
Inductive layer_run : compositor -> list layer_op -> compositor -> Prop :=
| run_nil s : layer_run s [] s
| run_cons s op s1 ops s2 : layer_step s op s1 -> layer_run s1 ops s2 -> layer_run s (op :: ops) s2.
Lemma step_ok s op s' : layer_step s op s' -> comp_ok s -> comp_ok s'.
Proof.
  intros [] O; [by apply layer_create_ok|by apply destroy_ok|by eapply layer_add_ok|by apply layer_remove_ok|by apply raise_ok|by apply lower_ok|by apply invalidate_ok|by apply invalidate_layer_ok|by apply update_ok..|by apply render_drawings].
Qed.
(** Whatever is done with layers, the list stays ordered by type, no layer is in
    it twice, and the dirty rectangles fit their array. *)
Theorem layers_sorted w h ops s : layer_run (compositor_init w h []) ops s ->
  sorted s.(g_layers) /\ NoDup (map l_ptr s.(g_layers)) /\ zlen s.(g_dirty_rects) <= MAX_DIRTY_RECTS.
Proof.
  intros R. assert (O : comp_ok (compositor_init w h [])) by (apply invalidate_ok; constructor; cbn; [constructor|constructor|by vm_compute]).
  revert O. generalize (compositor_init w h []) R. clear. intros s0 R. induction R as [s|s op s1 ops s2 St _ IH]; intros O.
  - split; [apply O|]. split; [by apply nodup_layers|apply O].
  - apply IH. by eapply step_ok.
Qed.
Definition rect4 : rect_t := mk_rect 0 0 4 4.
Definition two_layers : compositor :=
  let s := (compositor_create_layer LAYER_DOCK rect4 (Some 100) (compositor_init 9 9 [])).2 in
  (compositor_create_layer LAYER_WINDOW rect4 (Some 200) s).2.
Definition both_added : option compositor := s ← compositor_add_layer 100 two_layers; compositor_add_layer 200 s.
Lemma layers_sorted_witness : exists s, layer_run (compositor_init 9 9 []) [Create LAYER_DOCK rect4 (Some 100); Create LAYER_WINDOW rect4 (Some 200); Add 100; Add 200] s /\
  sorted s.(g_layers) /\ NoDup (map l_ptr s.(g_layers)) /\ zlen s.(g_dirty_rects) <= MAX_DIRTY_RECTS.
Proof.
  destruct both_added as [s|] eqn:E; [|by vm_compute in E]. exists s.
  assert (R : layer_run (compositor_init 9 9 []) [Create LAYER_DOCK rect4 (Some 100); Create LAYER_WINDOW rect4 (Some 200); Add 100; Add 200] s).
  { unfold both_added in E. destruct (compositor_add_layer 100 two_layers) as [s1|] eqn:E1; [|done]. eapply run_cons; [by apply step_create; vm_compute; intros []|].
    eapply run_cons; [apply step_create; vm_compute; intros [|[]]; congruence|]. eapply run_cons; [apply step_add; exact E1|]. eapply run_cons; [apply step_add; exact E|]. constructor. }
  split; [exact R|]. exact (layers_sorted 9 9 _ s R).
Defined.
Lemma after_split l ls : sorted ls -> Forall (below l) ls -> exists a b, after_same l ls = a ++ l :: b /\ ls = a ++ b /\ Forall (fun x => l_type l < l_type x) b.
Proof.
  induction 1 as [|c ls S IH F]; intros B; cbn [after_same]; [exists [], []; done|]. apply list.Forall_cons in B as [Bc B]. case_if.
  - destruct (IH B) as (a & b & -> & -> & Fb). by exists (c :: a), b.
  - exists [], (c :: ls). split; [done|]. split; [done|]. unfold below in *. constructor; [lia|]. revert F. apply Forall_impl. lia.
Qed.
Lemma raise_split a l b : sorted (a ++ l :: b) -> Forall (fun x => l_ptr x <> l_ptr l) a ->
  exists b1 b2, raise_in (l_ptr l) (a ++ l :: b) = a ++ b1 ++ l :: b2 /\ b = b1 ++ b2 /\ Forall (fun x => l_type l < l_type x) b2.
Proof.
  intros S F. induction F as [|c a Hc F IH]; cbn [app raise_in] in *.
  - unfold is_layer. rewrite Z.eqb_refl. apply StronglySorted_inv in S as [S B]. destruct (after_split l b S B) as (b1 & b2 & -> & -> & ?). by exists b1, b2.
  - unfold is_layer. rewrite (proj2 (Z.eqb_neq _ _) Hc). apply StronglySorted_inv in S as [S _]. destruct (IH S) as (b1 & b2 & -> & -> & ?). by exists b1, b2.
Qed.
Lemma before_split l ls : exists a b, before_same l ls = a ++ l :: b /\ ls = a ++ b /\ Forall (fun x => l_type x < l_type l) a.
Proof.
  induction ls as [|c ls IH]; cbn [before_same]; [by exists [], []|]. case_if; [|by exists [], (c :: ls)]. destruct IH as (a & b & -> & -> & F). exists (c :: a), b. split; [done|]. split; [done|by constructor].
Qed.
(** After an invalidation the layers differ in the flag of that layer only. *)
Lemma invalidate_layers p s : comp_ok s -> g_layers (compositor_invalidate_layer p s) = update p (set_redraw true) s.(g_layers) \/ g_layers (compositor_invalidate_layer p s) = s.(g_layers).
Proof.
  intros O. unfold compositor_invalidate_layer. destruct (find_layer p s); [left|by right]. pose proof (update_ok p (set_redraw true) s (redraw_keeps true) O) as O'.
  by destruct (invalidate_ok (l_bounds l) _ O') as (_ & -> & _).
Qed.
Lemma update_apart p f ls : Forall (fun x => l_ptr x <> p) ls -> update p f ls = ls.
Proof. induction 1 as [|x ls H _ IH]; [done|]. cbn [update map]. unfold is_layer. rewrite (proj2 (Z.eqb_neq _ _) H). f_equal. exact IH. Qed.
Lemma update_split p f a l b : NoDup (map l_ptr (a ++ l :: b)) -> l_ptr l = p -> update p f (a ++ l :: b) = a ++ f l :: b.
Proof.
  intros N E. destruct (others p a l b N E) as [Fa Fb]. unfold update. rewrite map_app. cbn [map]. fold (update p f a) (update p f b). rewrite !update_apart by done.
  unfold is_layer. by rewrite E, Z.eqb_refl.
Qed.
(** Raising a layer puts it above all others of its type and below every layer
    of a higher type, lowering it puts it below those of its type, and the order
    of the other layers stays. *)
Theorem raise_lower_layer p s l : comp_ok s -> find (is_layer p) s.(g_layers) = Some l ->
  (exists a l' b, g_layers (compositor_raise_layer p s) = a ++ l' :: b /\ l_ptr l' = p /\ l_type l' = l_type l /\ Forall (fun x => l_type l < l_type x) b /\ a ++ b = remove p s.(g_layers)) /\
  (exists a l' b, g_layers (compositor_lower_layer p s) = a ++ l' :: b /\ l_ptr l' = p /\ l_type l' = l_type l /\ Forall (fun x => l_type x < l_type l) a /\ a ++ b = remove p s.(g_layers)).
Proof.
  intros O Ef. destruct (find_spec _ _ _ Ef) as (u & v & El & Ep & Fu). pose proof (proj1 (nodup_layers s O)) as N. rewrite El in N. pose proof (remove_split p u l v N Ep) as Er. split.
  - unfold compositor_raise_layer. rewrite Ef. destruct (list.last (g_layers s)) as [z|] eqn:Ez; [|apply list.last_None in Ez; by rewrite El in Ez; destruct u].
    unfold is_layer at 1. destruct (Z.eqb_spec (l_ptr z) p) as [Hz|Hz].
    + exists u, l, []. apply list.last_Some in Ez as [ls Ez]. destruct v as [|y v _] using rev_ind; [by rewrite El, Er, app_nil_r|]. exfalso.
      rewrite El, app_comm_cons, app_assoc in Ez. apply list.app_inj_2 in Ez as [_ [= ->]]; [|done]. destruct (others p u l (v ++ [z]) N Ep) as [_ Fv]. apply list.Forall_app in Fv as [_ Fv]. by apply list.Forall_cons in Fv as [Fv _].
    + pose proof (co_sorted s O) as S. rewrite El in S. rewrite <- Ep in Fu. destruct (raise_split u l v S Fu) as (v1 & v2 & Eraise & Ev & Fv).
      set (s1 := with_layers (raise_in p (g_layers s)) (g_detached s) s). assert (E1 : g_layers s1 = (u ++ v1) ++ l :: v2) by (unfold s1; cbn; by rewrite El, <- Ep, Eraise, <- app_assoc).
      assert (O1 : comp_ok s1) by (apply with_layers_ok; [done|apply raise_sorted, O|apply Permutation_map; by rewrite raise_perm]). pose proof (proj1 (nodup_layers s1 O1)) as N1. rewrite E1 in N1.
      assert (A : (u ++ v1) ++ v2 = remove p (g_layers s)) by (by rewrite El, Er, Ev, app_assoc).
      destruct (invalidate_layers p s1 O1) as [-> | ->]; rewrite E1; [rewrite (update_split p _ _ _ _ N1 Ep)|]; by eexists _, _, _.
  - unfold compositor_lower_layer. rewrite Ef. destruct (before_split l (remove p (g_layers s))) as (a & b & Eb & Eab & Fa).
    set (s1 := with_layers (before_same l (remove p (g_layers s))) (g_detached s) s). assert (E1 : g_layers s1 = a ++ l :: b) by exact Eb.
    assert (O1 : comp_ok s1).
    { apply with_layers_ok; [done|apply before_sorted, filter_sorted, O|]. apply Permutation_map. apply Permutation_app_tail. rewrite before_perm. symmetry. apply remove_perm; [by apply nodup_layers|done]. }
    pose proof (proj1 (nodup_layers s1 O1)) as N1. rewrite E1 in N1. destruct (invalidate_layers p s1 O1) as [-> | ->]; rewrite E1; [rewrite (update_split p _ _ _ _ N1 Ep)|]; by eexists _, _, _.
Qed.
Definition three : list layer_t :=
  [mk_layer 1 1 LAYER_WINDOW rect4 true true; mk_layer 2 2 LAYER_WINDOW rect4 true true; mk_layer 3 3 LAYER_DOCK rect4 true true].
Definition three_layers : compositor := mk_compositor 9 9 three [] 4 [].
Lemma three_ok : comp_ok three_layers.
Proof.
  constructor; [repeat constructor; vm_compute; congruence| |by vm_compute]. cbn. repeat (apply list.NoDup_cons; split; [rewrite list_elem_of_In; cbn; lia|]). constructor.
Qed.
Lemma raise_lower_layer_witness :
  (exists a l' b, g_layers (compositor_raise_layer 1 three_layers) = a ++ l' :: b /\ l_ptr l' = 1 /\ l_type l' = LAYER_WINDOW /\ Forall (fun x => LAYER_WINDOW < l_type x) b /\ a ++ b = remove 1 three) /\
  (exists a l' b, g_layers (compositor_lower_layer 1 three_layers) = a ++ l' :: b /\ l_ptr l' = 1 /\ l_type l' = LAYER_WINDOW /\ Forall (fun x => l_type x < LAYER_WINDOW) a /\ a ++ b = remove 1 three).
Proof. apply (raise_lower_layer 1 three_layers (mk_layer 1 1 LAYER_WINDOW rect4 true true)); [apply three_ok|done]. Defined.

(** ** What is drawn again *)
(** The points of a region as [draw_rect] and the clip see it. *)
Definition in_region (r : rect_t) (x y : Z) : Prop := r.(r_x) <= x < s32 (r.(r_x) + s32 r.(r_width)) /\ r.(r_y) <= y < s32 (r.(r_y) + s32 r.(r_height)).
Definition dirty (s : compositor) (x y : Z) : Prop := exists r, r ∈ s.(g_dirty_rects) /\ in_region r x y.
Definition on_screen (s : compositor) (x y : Z) : Prop := 0 <= x < s.(fb_w) /\ 0 <= y < s.(fb_h).
Definition size_ok (s : compositor) : Prop := 0 <= s.(fb_w) < 2 ^ 31 /\ 0 <= s.(fb_h) < 2 ^ 31.
(** One coordinate: [x] and [w] after the cut at the screen, whose size is [n]. *)
Lemma cut x w n : - 2 ^ 31 <= x -> 0 <= w < 2 ^ 31 -> x + w < 2 ^ 31 -> 0 <= n < 2 ^ 31 ->
  let '(x', w') := if x <? 0 then (0, u32 (w + u32 x)) else (x, w) in
  let w'' := if s32 n <? s32 (x' + s32 w') then u32 (n - u32 x') else w' in
  0 <= x' < 2 ^ 31 /\ forall v, x' <= v < s32 (x' + s32 w'') <-> x <= v < x + w /\ 0 <= v < n.
Proof.
  intros Hx Hw Hs Hn. assert (S : forall a, - 2 ^ 31 <= a < 2 ^ 31 -> s32 (u32 a) = a) by (intros a Ha; unfold s32, u32; lia).
  assert (U : u32 (w + u32 x) = u32 (w + x)) by (unfold u32; rewrite Z.add_mod_idemp_r by lia; done).
  rewrite (s32_small n) by lia. destruct (Z.ltb_spec x 0) as [H|H]; cbv zeta; (split; [lia|]); intros v.
  - rewrite U, !Z.add_0_l, S, (s32_small (w + x)) by lia. destruct (Z.ltb_spec n (w + x)).
    + rewrite (u32_small 0), Z.sub_0_r by (widths; lia). rewrite S by lia. rewrite s32_small by lia. lia.
    + rewrite S, s32_small by lia. lia.
  - rewrite (s32_small w), (s32_small (x + w)) by lia. destruct (Z.ltb_spec n (x + w)).
    + rewrite (u32_small x) by (widths; lia). rewrite S by lia. rewrite s32_small by lia. lia.
    + rewrite (s32_small w), (s32_small (x + w)) by lia. lia.
Qed.
(** A rectangle off the screen takes a place in the array all the same: the
    unsigned width has wrapped. *)
Example off_screen_takes_place : g_dirty_rects (compositor_invalidate_rect (mk_rect (-9) 0 4 4) three_layers) = [mk_rect 0 0 4294967291 4].
Proof. by vm_compute. Qed.
(** Rendering draws, for every dirty region, the background first and then the
    visible layers that meet it from the lowest type up; afterwards nothing is
    dirty. *)
Theorem render_order s : comp_ok s ->
  (compositor_render s).1 = concat (map (region_drawings s) s.(g_dirty_rects)) /\ g_dirty_rects (compositor_render s).2 = [] /\ comp_ok (compositor_render s).2 /\
  forall region, sorted (List.filter (drawn region) s.(g_layers)).
Proof. intros O. destruct (render_drawings s) as (R1 & R2 & R3). split; [done|]. split; [done|]. split; [by apply R3|]. intros. apply filter_sorted, O. Qed.
