(* ===== verification/Wm.v ===== *)
(** The window manager (src/gui/wm.c, src/gui/wm.h): the list of windows, the focus,
    moving, resizing and the mouse.

    A window is named by the address that [kmalloc] returned for it.  Using a
    window that was freed gives [None].  The callbacks of a window are code of
    the application: the model records their calls.  Drawing is left out. *)
From S2P Require Import Prelude Render Compositor.

Definition WINDOW_FLAG_CLOSABLE : Z := 1.
Definition WINDOW_FLAG_MINIMIZABLE : Z := 2.
Definition WINDOW_FLAG_RESIZABLE : Z := 4.
Definition WINDOW_FLAG_TITLEBAR : Z := 8.
Definition MENUBAR_HEIGHT : Z := 28.
Definition TITLEBAR_HEIGHT : Z := 40.
Definition DOCK_HEIGHT : Z := 70.
Definition DOCK_MARGIN_BOTTOM : Z := 10.
Definition MOUSE_BUTTON_LEFT : Z := 1.
Definition has_flag (flags f : Z) : bool := negb (Z.land flags f =? 0).
Record window_t := mk_window {
  w_ptr : Z; w_id : Z;
  bounds : rect_t; content_bounds : rect_t; restore_bounds : rect_t;
  flags : Z;
  is_focused : bool; is_minimized : bool; is_maximized : bool;
  w_layer : option Z
}.
(** The callbacks that were called. *)
Inductive callback := OnFocus (w : Z) (focused : bool) | OnResize (w width height : Z) | OnClose (w : Z).
Record wm := mk_wm {
  g_windows : list window_t;      (** from [g_windows_head] on *)
  g_focused_window : option Z;
  g_next_window_id : Z;
  g_screen_width : Z; g_screen_height : Z;
  g_dragging_window : option Z; g_resizing_window : option Z;
  g_last_mouse_pos : point_t;
  comp : compositor;
  calls : list callback
}.
Definition with_windows (l : list window_t) (s : wm) : wm :=
  mk_wm l s.(g_focused_window) s.(g_next_window_id) s.(g_screen_width) s.(g_screen_height) s.(g_dragging_window) s.(g_resizing_window) s.(g_last_mouse_pos) s.(comp) s.(calls).
Definition with_focus (f : option Z) (s : wm) : wm :=
  mk_wm s.(g_windows) f s.(g_next_window_id) s.(g_screen_width) s.(g_screen_height) s.(g_dragging_window) s.(g_resizing_window) s.(g_last_mouse_pos) s.(comp) s.(calls).
Definition with_drag (d r : option Z) (p : point_t) (s : wm) : wm :=
  mk_wm s.(g_windows) s.(g_focused_window) s.(g_next_window_id) s.(g_screen_width) s.(g_screen_height) d r p s.(comp) s.(calls).
Definition with_comp (c : compositor) (s : wm) : wm :=
  mk_wm s.(g_windows) s.(g_focused_window) s.(g_next_window_id) s.(g_screen_width) s.(g_screen_height) s.(g_dragging_window) s.(g_resizing_window) s.(g_last_mouse_pos) c s.(calls).
Definition called (c : callback) (s : wm) : wm :=
  mk_wm s.(g_windows) s.(g_focused_window) s.(g_next_window_id) s.(g_screen_width) s.(g_screen_height) s.(g_dragging_window) s.(g_resizing_window) s.(g_last_mouse_pos) s.(comp) (s.(calls) ++ [c]).
Definition set_rects (b c r : rect_t) (w : window_t) : window_t :=
  mk_window w.(w_ptr) w.(w_id) b c r w.(flags) w.(is_focused) w.(is_minimized) w.(is_maximized) w.(w_layer).
Definition set_states (f mi ma : bool) (w : window_t) : window_t :=
  mk_window w.(w_ptr) w.(w_id) w.(bounds) w.(content_bounds) w.(restore_bounds) w.(flags) f mi ma w.(w_layer).
Definition is_window (p : Z) (w : window_t) : bool := w.(w_ptr) =? p.
Definition window (p : Z) (s : wm) : option window_t := find (is_window p) s.(g_windows).
Definition update_window (p : Z) (f : window_t -> window_t) (s : wm) : wm :=
  with_windows (map (fun w => if is_window p w then f w else w) s.(g_windows)) s.
(** On the layer of a window, when it has one. *)
Definition on_layer (w : window_t) (f : Z -> compositor -> compositor) (s : wm) : wm :=
  match w.(w_layer) with Some l => with_comp (f l s.(comp)) s | None => s end.

(** ** Windows *)
Definition wm_init (w h : Z) (c : compositor) (s : wm) : wm := mk_wm [] None 1 w h s.(g_dragging_window) s.(g_resizing_window) s.(g_last_mouse_pos) c s.(calls).
Definition wm_invalidate_window (p : Z) (s : wm) : wm :=
  match window p s with Some w => on_layer w compositor_invalidate_layer s | None => s end.
(** The compositor's rectangle of what a window covers. *)
Definition invalidate_bounds (w : window_t) (s : wm) : wm := with_comp (compositor_invalidate_rect w.(bounds) s.(comp)) s.
Definition wm_focus_window (p : Z) (s : wm) : option wm :=
  if bool_decide (s.(g_focused_window) = Some p) then Some s
  else
    s ← match s.(g_focused_window) with
        | None => Some s
        | Some old =>
            o ← window old s;
            let s := update_window old (set_states false o.(is_minimized) o.(is_maximized)) s in
            Some (wm_invalidate_window old (called (OnFocus old false) s))
        end;
    w ← window p s;
    let s := update_window p (set_states true w.(is_minimized) w.(is_maximized)) (with_focus (Some p) s) in
    let s := called (OnFocus p true) s in
    let s := on_layer w compositor_raise_layer s in
    Some (wm_invalidate_window p s).
Definition titlebar_height (flags : Z) : Z := if has_flag flags WINDOW_FLAG_TITLEBAR then TITLEBAR_HEIGHT else 0.
Definition content_of (flags : Z) (b : rect_t) : rect_t :=
  mk_rect b.(r_x) (s32 (b.(r_y) + titlebar_height flags)) b.(r_width) (u32 (b.(r_height) - titlebar_height flags)).
(** [p] and [lp]: what [kmalloc] returns for the window and for its layer. *)
Definition wm_create_window (b : rect_t) (flags : Z) (p lp : option Z) (s : wm) : option (option Z * wm) :=
  match p with
  | None => Some (None, s)
  | Some p =>
      let '(layer, c) := compositor_create_layer LAYER_WINDOW b lp s.(comp) in
      let w := mk_window p s.(g_next_window_id) b (content_of flags b) (mk_rect 0 0 0 0) flags false false false layer in
      c ← match layer with Some l => compositor_add_layer l c | None => Some c end;
      let s := mk_wm (w :: s.(g_windows)) s.(g_focused_window) (u32 (s.(g_next_window_id) + 1)) s.(g_screen_width) s.(g_screen_height) s.(g_dragging_window) s.(g_resizing_window)
                     s.(g_last_mouse_pos) c s.(calls) in
      s ← wm_focus_window p s;
      Some (Some p, s)
  end.
Definition wm_destroy_window (p : Z) (s : wm) : option wm :=
  w ← window p s;
  let s := with_windows (List.filter (fun w => negb (is_window p w)) s.(g_windows)) s in
  let s := on_layer w compositor_destroy_layer s in
  Some (if bool_decide (s.(g_focused_window) = Some p) then
          let head := w_ptr <$> hd_error s.(g_windows) in
          let s := with_focus head s in
          match head with Some q => called (OnFocus q true) s | None => s end
        else s).
Definition wm_get_focused_window (s : wm) : option Z := s.(g_focused_window).
(** The new bounds, in the window and in its layer. *)
Definition place_window (w : window_t) (b c : rect_t) (s : wm) : wm :=
  on_layer w (fun l => update_layer l (set_bounds b)) (update_window w.(w_ptr) (set_rects b c w.(restore_bounds)) s).
Definition wm_move_window (p x y : Z) (s : wm) : option wm :=
  w ← window p s;
  let s := invalidate_bounds w s in
  let b := mk_rect x y w.(bounds).(r_width) w.(bounds).(r_height) in
  let c := mk_rect x (s32 (y + titlebar_height w.(flags))) w.(content_bounds).(r_width) w.(content_bounds).(r_height) in
  Some (wm_invalidate_window p (place_window w b c s)).
Definition wm_resize_window (p width height : Z) (s : wm) : option wm :=
  w ← window p s;
  let s := invalidate_bounds w s in
  let b := mk_rect w.(bounds).(r_x) w.(bounds).(r_y) width height in
  let c := mk_rect w.(content_bounds).(r_x) w.(content_bounds).(r_y) width (u32 (height - titlebar_height w.(flags))) in
  let s := place_window w b c s in
  Some (wm_invalidate_window p (called (OnResize p width height) s)).
Definition wm_minimize_window (p : Z) (s : wm) : option wm :=
  w ← window p s;
  if w.(is_minimized) then Some s
  else
    let s := update_window p (set_states w.(is_focused) true w.(is_maximized)) s in
    let s := on_layer w (fun l => update_layer l (set_visible false)) s in
    Some (invalidate_bounds w s).
Definition wm_maximize_window (p : Z) (s : wm) : option wm :=
  w ← window p s;
  if w.(is_maximized) then Some s
  else
    let s := update_window p (fun w => set_states w.(is_focused) w.(is_minimized) true (set_rects w.(bounds) w.(content_bounds) w.(bounds) w)) s in
    s ← wm_move_window p 0 MENUBAR_HEIGHT s;
    wm_resize_window p s.(g_screen_width) (u32 (s.(g_screen_height) - MENUBAR_HEIGHT - DOCK_HEIGHT - DOCK_MARGIN_BOTTOM)) s.
Definition wm_restore_window (p : Z) (s : wm) : option wm :=
  w ← window p s;
  let s := if w.(is_minimized) then
             let s := update_window p (set_states w.(is_focused) false w.(is_maximized)) s in
             wm_invalidate_window p (on_layer w (fun l => update_layer l (set_visible true)) s)
           else s in
  w ← window p s;
  if w.(is_maximized) then
    let s := update_window p (set_states w.(is_focused) w.(is_minimized) false) s in
    let r := w.(restore_bounds) in
    s ← wm_move_window p r.(r_x) r.(r_y) s;
    wm_resize_window p r.(r_width) r.(r_height) s
  else Some s.
Definition wm_close_window (p : Z) (s : wm) : option wm := wm_destroy_window p (called (OnClose p) s).
Fixpoint destroy_all (ps : list Z) (s : wm) : option wm :=
  match ps with [] => Some s | p :: ps' => s ← wm_destroy_window p s; destroy_all ps' s end.
Definition wm_shutdown (s : wm) : option wm := s ← destroy_all (map w_ptr s.(g_windows)) s; Some (with_focus None (with_windows [] s)).

(** ** The mouse *)
(** The window drawn for the point: the loop goes on after the first hit. *)
Definition wm_find_window_at (pos : point_t) (s : wm) : option window_t :=
  foldl (fun found w => if w.(is_minimized) then found else if point_in_rect pos w.(bounds) then Some w else found) None s.(g_windows).
Definition wm_get_window_by_id (id : Z) (s : wm) : option window_t := find (fun w => w.(w_id) =? id) s.(g_windows).
Definition wm_get_first_window (s : wm) : option Z := w_ptr <$> hd_error s.(g_windows).
Definition on_button (btn_x btn_y : Z) (pos : point_t) : bool :=
  (s32 (btn_x - 6) <=? pos.(pt_x)) && (pos.(pt_x) <=? s32 (btn_x + 6)) && (btn_y <=? pos.(pt_y)) && (pos.(pt_y) <=? s32 (btn_y + 12)).
Definition get_button_at (w : window_t) (pos : point_t) : Z :=
  if negb (has_flag w.(flags) WINDOW_FLAG_TITLEBAR) then -1
  else
    let btn_y := s32 (w.(bounds).(r_y) + (TITLEBAR_HEIGHT - 12) / 2) in
    let btn_x := s32 (w.(bounds).(r_x) + 12) in
    let closable := has_flag w.(flags) WINDOW_FLAG_CLOSABLE in
    let minimizable := has_flag w.(flags) WINDOW_FLAG_MINIMIZABLE in
    if closable && on_button btn_x btn_y pos then 0
    else
      let btn_x := if closable then s32 (btn_x + 20) else btn_x in
      if minimizable && on_button btn_x btn_y pos then 1
      else
        let btn_x := if minimizable then s32 (btn_x + 20) else btn_x in
        if has_flag w.(flags) WINDOW_FLAG_RESIZABLE && on_button btn_x btn_y pos then 2 else -1.
Definition is_on_titlebar (w : window_t) (pos : point_t) : bool :=
  has_flag w.(flags) WINDOW_FLAG_TITLEBAR &&
  ((w.(bounds).(r_x) <=? pos.(pt_x)) && (pos.(pt_x) <? s32 (w.(bounds).(r_x) + s32 w.(bounds).(r_width))) &&
   (w.(bounds).(r_y) <=? pos.(pt_y)) && (pos.(pt_y) <? s32 (w.(bounds).(r_y) + TITLEBAR_HEIGHT))).
Definition is_on_resize_border (w : window_t) (pos : point_t) : bool :=
  let margin := 8 in
  let right := s32 (w.(bounds).(r_x) + s32 w.(bounds).(r_width)) in
  let bottom := s32 (w.(bounds).(r_y) + s32 w.(bounds).(r_height)) in
  has_flag w.(flags) WINDOW_FLAG_RESIZABLE &&
  ((s32 (right - margin) <=? pos.(pt_x)) && (pos.(pt_x) <? right) && (s32 (bottom - margin) <=? pos.(pt_y)) && (pos.(pt_y) <? bottom)).
Definition wm_handle_mouse_move (pos : point_t) (s : wm) : option wm :=
  s ← match s.(g_dragging_window) with
      | None => Some s
      | Some p =>
          let dx := s32 (pos.(pt_x) - s.(g_last_mouse_pos).(pt_x)) in
          let dy := s32 (pos.(pt_y) - s.(g_last_mouse_pos).(pt_y)) in
          w ← window p s;
          wm_move_window p (s32 (w.(bounds).(r_x) + dx)) (s32 (w.(bounds).(r_y) + dy)) s
      end;
  s ← match s.(g_resizing_window) with
      | None => Some s
      | Some p =>
          w ← window p s;
          let new_w := s32 (pos.(pt_x) - w.(bounds).(r_x)) in
          let new_h := s32 (pos.(pt_y) - w.(bounds).(r_y)) in
          let new_w := if new_w <? 200 then 200 else new_w in
          let new_h := if new_h <? 100 then 100 else new_h in
          wm_resize_window p (u32 new_w) (u32 new_h) s
      end;
  Some (with_drag s.(g_dragging_window) s.(g_resizing_window) pos s).
Definition wm_handle_mouse_down (pos : point_t) (button : Z) (s : wm) : option wm :=
  if negb (button =? MOUSE_BUTTON_LEFT) then Some s
  else
    match wm_find_window_at pos s with
    | None => Some s
    | Some w =>
        let p := w.(w_ptr) in
        s ← wm_focus_window p s;
        w ← window p s;
        let btn := get_button_at w pos in
        if btn =? 0 then wm_close_window p s
        else if btn =? 1 then wm_minimize_window p s
        else if btn =? 2 then (if w.(is_maximized) then wm_restore_window p s else wm_maximize_window p s)
        else if is_on_resize_border w pos then Some (with_drag s.(g_dragging_window) (Some p) pos s)
        else if is_on_titlebar w pos then
          let s := with_drag (Some p) s.(g_resizing_window) pos s in
          if w.(is_maximized) then wm_restore_window p s else Some s
        else Some s
    end.
Definition wm_handle_mouse_up (button : Z) (s : wm) : wm :=
  if negb (button =? MOUSE_BUTTON_LEFT) then s else with_drag None None s.(g_last_mouse_pos) s.

(** ** The invariant *)
(** The layer of a window mirrors it. *)
Definition mirrors (w : window_t) (l : layer_t) : Prop :=
  w.(w_layer) = Some l.(l_ptr) -> l.(l_bounds) = w.(bounds) /\ l.(l_visible) = negb w.(is_minimized) /\ l.(l_type) = LAYER_WINDOW.
Record wm_ok (s : wm) : Prop := mk_wm_ok {
  wo_comp : comp_ok s.(comp);
  wo_nodup : NoDup (map w_ptr s.(g_windows));
  wo_content : Forall (fun w => w.(content_bounds) = content_of w.(flags) w.(bounds)) s.(g_windows);
  wo_live : forall w l, w ∈ s.(g_windows) -> w.(w_layer) = Some l -> In l (map l_ptr s.(comp).(g_layers));
  wo_mirror : forall w l, w ∈ s.(g_windows) -> l ∈ s.(comp).(g_layers) -> mirrors w l;
  wo_layers : forall v w l, v ∈ s.(g_windows) -> w ∈ s.(g_windows) -> v.(w_layer) = Some l -> w.(w_layer) = Some l -> v.(w_ptr) = w.(w_ptr);
  wo_focus : forall p, s.(g_focused_window) = Some p -> In p (map w_ptr s.(g_windows));
  wo_flag : forall w, w ∈ s.(g_windows) -> w.(is_focused) = true -> s.(g_focused_window) = Some w.(w_ptr)
}.
Definition view (l : layer_t) := (l.(l_ptr), l.(l_bounds), l.(l_visible), l.(l_type)).
(** The layers are the same up to their order and the flag for redrawing. *)
Definition same_view (c c' : compositor) : Prop := map view c'.(g_layers) ≡ₚ map view c.(g_layers).
Lemma view_in c c' l : same_view c c' -> l ∈ c'.(g_layers) -> exists l0, l0 ∈ c.(g_layers) /\ view l0 = view l.
Proof.
  intros V Hl. assert (In (view l) (map view (g_layers c))) as (l0 & E & H0)%in_map_iff.
  { apply (Permutation_in _ V). apply in_map. by apply list_elem_of_In. }
  exists l0. split; [by apply list_elem_of_In|done].
Qed.
Lemma view_ptrs c c' : same_view c c' -> map l_ptr c'.(g_layers) ≡ₚ map l_ptr c.(g_layers).
Proof.
  intros V. assert (E : forall ls, map l_ptr ls = map (fun v => v.1.1.1) (map view ls)) by (intros; rewrite map_map; by apply map_ext). rewrite !E. by apply Permutation_map.
Qed.
Lemma comp_change c s : wm_ok s -> comp_ok c -> same_view s.(comp) c -> wm_ok (with_comp c s).
Proof.
  intros [O N C L M Y Fo Fl] Oc V. constructor; cbn; try done.
  - intros w l Hw Hl. eapply Permutation_in; [symmetry; apply (view_ptrs _ _ V)|]. by eapply L.
  - intros w l Hw Hl. destruct (view_in _ _ l V Hl) as (l0 & H0 & [= E1 E2 E3 E4]). unfold mirrors. rewrite <- E1, <- E2, <- E3, <- E4. by apply M.
Qed.
#[export] Instance same_view_preorder : PreOrder same_view.
Proof. split; [intros c; unfold same_view; reflexivity|intros a b c A B; unfold same_view in *; by rewrite B]. Qed.
Lemma view_update p f ls : (forall l, view (f l) = view l) -> map view (update p f ls) = map view ls.
Proof. intros Hf. unfold update. rewrite map_map. apply map_ext. intros l. by case_if. Qed.
Lemma rect_view r c : comp_ok c -> same_view c (compositor_invalidate_rect r c).
Proof. intros O. unfold same_view. destruct (invalidate_ok r c O) as (_ & -> & _). reflexivity. Qed.
Lemma layer_view p c : comp_ok c -> same_view c (compositor_invalidate_layer p c).
Proof. intros O. unfold same_view. destruct (invalidate_layers p c O) as [-> | ->]; [by rewrite view_update|reflexivity]. Qed.
Lemma raise_view p c : comp_ok c -> same_view c (compositor_raise_layer p c).
Proof.
  intros O. unfold compositor_raise_layer. destruct (find _ _); [|reflexivity]. destruct (list.last _); [|reflexivity]. case_if; [reflexivity|].
  assert (O' : comp_ok (with_layers (raise_in p (g_layers c)) (g_detached c) c)) by (apply with_layers_ok; [done|apply raise_sorted, O|apply Permutation_map; by rewrite raise_perm]).
  etransitivity; [|by apply layer_view]. unfold same_view. cbn. rewrite raise_perm. reflexivity.
Qed.
Lemma invalidate_bounds_ok w s : wm_ok s -> wm_ok (invalidate_bounds w s).
Proof. intros O. apply comp_change; [done|apply invalidate_ok, O|apply rect_view, O]. Qed.
Lemma invalidate_window_ok p s : wm_ok s -> wm_ok (wm_invalidate_window p s).
Proof.
  intros O. unfold wm_invalidate_window. destruct (window p s) as [w|]; [|done]. unfold on_layer. destruct (w_layer w); [|done].
  apply comp_change; [done|apply invalidate_layer_ok, O|apply layer_view, O].
Qed.
Lemma called_ok c s : wm_ok s -> wm_ok (called c s).
Proof. by intros []. Qed.
Lemma drag_ok d r p s : wm_ok s -> wm_ok (with_drag d r p s).
Proof. by intros []. Qed.

(** ** Windows one by one *)
Lemma window_in p s w : window p s = Some w -> w ∈ s.(g_windows) /\ w_ptr w = p.
Proof. intros E. apply find_some in E as [Hi Hp]. unfold is_window in Hp. bool_hyps. split; [by apply list_elem_of_In|done]. Qed.
Lemma ptr_unique v w s : wm_ok s -> v ∈ s.(g_windows) -> w ∈ s.(g_windows) -> w_ptr v = w_ptr w -> v = w.
Proof.
  intros O. pose proof (wo_nodup s O) as N. clear O. revert N. generalize (g_windows s). intros ls. induction ls as [|a ls IH]; [by intros _ ?%list.not_elem_of_nil|]. cbn [map]. intros [Na N]%list.NoDup_cons.
  rewrite !list.elem_of_cons. assert (K : forall x, x ∈ ls -> w_ptr x ∈ map w_ptr ls) by (intros x; rewrite !list_elem_of_In; apply in_map).
  intros [->|Hv] [->|Hw] E; [done|exfalso; apply Na; rewrite E; by apply K|exfalso; apply Na; rewrite <- E; by apply K|by apply IH].
Qed.
Lemma window_of w s : wm_ok s -> w ∈ s.(g_windows) -> window (w_ptr w) s = Some w.
Proof.
  intros O Hw. unfold window. destruct (find _ _) as [v|] eqn:E.
  - apply find_some in E as [Hv Ev]. unfold is_window in Ev. bool_hyps. f_equal. apply (ptr_unique v w s O); [by apply list_elem_of_In|done|done].
  - exfalso. apply list_elem_of_In in Hw. pose proof (find_none _ _ E w Hw) as F. unfold is_window in F. by rewrite Z.eqb_refl in F.
Qed.
Definition keeps_window (f : window_t -> window_t) : Prop := forall w, w_ptr (f w) = w_ptr w /\ w_layer (f w) = w_layer w.
Lemma in_update p w f s v : wm_ok s -> window p s = Some w -> v ∈ map (fun w => if is_window p w then f w else w) s.(g_windows) ->
  (v = f w) \/ (v ∈ s.(g_windows) /\ w_ptr v <> p).
Proof.
  intros O Ew Hv. apply list_elem_of_In, in_map_iff in Hv as (v0 & E & H0). apply list_elem_of_In in H0. destruct (window_in p s w Ew) as [Hw Ep]. unfold is_window in E.
  destruct (Z.eqb_spec (w_ptr v0) p) as [Ev|Ev]; [left|right; by subst v]. subst v. f_equal. apply (ptr_unique _ _ s O); [done|done|congruence].
Qed.
Lemma update_ptrs p f ls : keeps_window f -> map w_ptr (map (fun w => if is_window p w then f w else w) ls) = map w_ptr ls.
Proof. intros K. rewrite map_map. apply map_ext. intros w. case_if; [apply K|done]. Qed.
(** The fields of a layer that mirror a window. *)
Definition mirrored (w : window_t) (l : layer_t) : Prop := l.(l_bounds) = w.(bounds) /\ l.(l_visible) = negb w.(is_minimized) /\ l.(l_type) = LAYER_WINDOW.
(** A window and the compositor change together. *)
Lemma change_both p w fw c s : wm_ok s -> window p s = Some w -> keeps_window fw -> content_bounds (fw w) = content_of (flags (fw w)) (bounds (fw w)) ->
  (is_focused (fw w) = true -> s.(g_focused_window) = Some p) -> comp_ok c -> map l_ptr (g_layers c) = map l_ptr (g_layers (comp s)) ->
  (forall v l, v = fw w \/ (v ∈ g_windows s /\ w_ptr v <> p) -> l ∈ g_layers c -> mirrors v l) -> wm_ok (with_comp c (update_window p fw s)).
Proof.
  intros O Ew Kw Cw Fw Oc El M. destruct (window_in p s w Ew) as [Hw Ep]. destruct (Kw w) as [Kp Kly].
  assert (U : forall v, v ∈ g_windows (update_window p fw s) -> v = fw w \/ v ∈ g_windows s /\ w_ptr v <> p) by (intros v; apply in_update; done).
  constructor; cbn [g_windows g_focused_window comp with_comp update_window with_windows]; try done.
  - rewrite update_ptrs by done. apply O.
  - apply list.Forall_forall. intros v Hv. destruct (U v Hv) as [->|[Hv' _]]; [done|]. pose proof (wo_content s O) as C. rewrite list.Forall_forall in C. by apply C.
  - intros v l Hv Hl. rewrite El. destruct (U v Hv) as [->|[Hv' _]]; [rewrite Kly in Hl|]; by eapply (wo_live s O).
  - intros v l Hv. apply M. by apply U.
  - intros v v' l Hv Hv' E1 E2. destruct (U v Hv) as [->|[? ?]], (U v' Hv') as [->|[? ?]]; rewrite ?Kp, ?Kly in *; [done|by eapply (wo_layers s O)..].
  - intros q Hq. rewrite update_ptrs by done. by apply O.
  - intros v Hv Hf. destruct (U v Hv) as [->|[? ?]]; [rewrite Kp, Ep; by apply Fw|by apply O].
Qed.
Lemma change_ok p w fw fl s : wm_ok s -> window p s = Some w -> keeps_window fw -> content_bounds (fw w) = content_of (flags (fw w)) (bounds (fw w)) ->
  (is_focused (fw w) = true -> s.(g_focused_window) = Some p) -> keeps fl -> (forall l, mirrored w l -> mirrored (fw w) (fl l)) ->
  wm_ok (on_layer w (fun l => update_layer l fl) (update_window p fw s)).
Proof.
  intros O Ew Kw Cw Fw Kl Ml. destruct (window_in p s w Ew) as [Hw Ep]. pose proof (proj2 (Kw w)) as Kly. unfold on_layer. destruct (w_layer w) as [lp|] eqn:Elp.
  - apply (change_both p w); try done; [apply update_ok, O; done|cbn; apply ptrs_map; by apply update_keeps|]. intros v l U Hl Hm. cbn in Hl.
    unfold update in Hl. apply list_elem_of_In, in_map_iff in Hl as (l0 & El & Hl0). apply list_elem_of_In in Hl0.
    assert (E0 : l_ptr l = l_ptr l0) by (subst l; case_if; [apply Kl|done]). rewrite E0 in Hm. destruct U as [->|[Hv' Np]].
    + assert (Hm' : lp = l_ptr l0) by congruence. unfold is_layer in El. rewrite Hm', Z.eqb_refl in El. subst l. apply Ml. apply (wo_mirror s O w l0 Hw Hl0). congruence.
    + unfold is_layer in El. destruct (Z.eqb_spec (l_ptr l0) lp) as [E|E]; [|subst l; by apply (wo_mirror s O v l0)]. exfalso. apply Np. rewrite <- Ep. eapply (wo_layers s O v w lp); [done|done|congruence|done].
  - apply (change_both p w _ (comp s)); try done; [apply O|]. intros v l [->|[Hv' Np]] Hl Hm; [congruence|by apply (wo_mirror s O)].
Qed.
(** Only the window changes, in what the layer does not mirror. *)
Lemma window_ok p w fw s : wm_ok s -> window p s = Some w -> keeps_window fw -> content_bounds (fw w) = content_of (flags (fw w)) (bounds (fw w)) ->
  (is_focused (fw w) = true -> s.(g_focused_window) = Some p) -> (forall l, mirrored w l -> mirrored (fw w) l) -> wm_ok (update_window p fw s).
Proof.
  intros O Ew Kw Cw Fw Ml. destruct (window_in p s w Ew) as [Hw Ep]. pose proof (proj2 (Kw w)) as Kly. apply (change_both p w _ (comp s)); try done; [apply O|].
  intros v l [->|[Hv' Np]] Hl Hm; [|by apply (wo_mirror s O)]. apply Ml. apply (wo_mirror s O w l Hw Hl). congruence.
Qed.
Lemma content_in p w s : wm_ok s -> window p s = Some w -> content_bounds w = content_of (flags w) (bounds w).
Proof. intros O Ew. destruct (window_in p s w Ew) as [Hw _]. pose proof (wo_content s O) as C. rewrite list.Forall_forall in C. by apply C. Qed.
Lemma flag_in p w s : wm_ok s -> window p s = Some w -> is_focused w = true -> g_focused_window s = Some p.
Proof. intros O Ew F. destruct (window_in p s w Ew) as [Hw <-]. by apply O. Qed.
(** What the operations keep of a window: it is there. *)
Definition live (p : Z) (s : wm) : Prop := In p (map w_ptr s.(g_windows)).
Lemma live_window p s : live p s -> exists w, window p s = Some w.
Proof.
  unfold live, window. intros (w & <- & Hw)%in_map_iff. destruct (find _ _) as [v|] eqn:E; [by exists v|]. pose proof (find_none _ _ E w Hw) as F. unfold is_window in F. by rewrite Z.eqb_refl in F.
Qed.
Lemma window_live p s w : window p s = Some w -> live p s.
Proof. intros [Hw <-]%window_in. unfold live. apply in_map. by apply list_elem_of_In. Qed.
(** Two states with the same windows, up to their contents. *)
Definition same_windows (s s' : wm) : Prop := map w_ptr s'.(g_windows) = map w_ptr s.(g_windows) /\ s'.(g_dragging_window) = s.(g_dragging_window) /\ s'.(g_resizing_window) = s.(g_resizing_window).
#[export] Instance same_windows_preorder : PreOrder same_windows.
Proof. split; [done|]. intros a b c (? & ? & ?) (? & ? & ?). split_and!; congruence. Qed.
Lemma same_live p s s' : same_windows s s' -> live p s -> live p s'.
Proof. unfold live. by intros (-> & _). Qed.
Lemma same_invalidate p s : same_windows s (wm_invalidate_window p s).
Proof. unfold wm_invalidate_window, on_layer. destruct (window p s) as [w|]; [|done]. by destruct (w_layer w). Qed.
Lemma same_on_layer w f s : same_windows s (on_layer w f s).
Proof. unfold on_layer. by destruct (w_layer w). Qed.
Lemma same_update p f s : keeps_window f -> same_windows s (update_window p f s).
Proof. intros K. split; [apply update_ptrs, K|done]. Qed.

(** ** The operations *)
(** An operation on a live window succeeds, keeps the invariant and the windows. *)
Definition fine (s : wm) (r : option wm) : Prop := exists s', r = Some s' /\ wm_ok s' /\ same_windows s s'.
Lemma fine_ret s s' : wm_ok s' -> same_windows s s' -> fine s (Some s').
Proof. intros O S. by exists s'. Qed.
Lemma fine_bind s m f : fine s m -> (forall s', wm_ok s' -> same_windows s s' -> fine s (f s')) -> fine s (m ≫= f).
Proof. intros (s' & -> & O & S) H. cbn. by apply H. Qed.
Lemma fine_trans s s1 r : same_windows s s1 -> fine s1 r -> fine s r.
Proof. intros S (s' & -> & O & S'). exists s'. split; [done|]. split; [done|]. by etransitivity. Qed.
Lemma place_ok p w b c s : wm_ok s -> window p s = Some w -> c = content_of (flags w) b -> wm_ok (place_window w b c s) /\ same_windows s (place_window w b c s).
Proof.
  intros O Ew ->. destruct (window_in p s w Ew) as [Hw Ep]. split.
  - unfold place_window. rewrite Ep. apply (change_ok p); try done; [by intros F; apply (flag_in p w s)|]. intros l (_ & V & T). by split.
  - unfold place_window. transitivity (update_window (w_ptr w) (set_rects b (content_of (flags w) b) (restore_bounds w)) s); [by apply same_update|apply same_on_layer].
Qed.
Lemma window_comp p c s : window p (with_comp c s) = window p s.
Proof. done. Qed.
Lemma move_fine p x y s : wm_ok s -> live p s -> fine s (wm_move_window p x y s).
Proof.
  intros O (w & Ew)%live_window. unfold wm_move_window. rewrite Ew. cbn [mbind option_bind]. pose proof (invalidate_bounds_ok w s O) as O1.
  destruct (place_ok p w (mk_rect x y (r_width (bounds w)) (r_height (bounds w))) (mk_rect x (s32 (y + titlebar_height (flags w))) (r_width (content_bounds w)) (r_height (content_bounds w))) _ O1 Ew) as [O2 S2].
  { rewrite (content_in p w s O Ew). done. }
  apply fine_ret; [by apply invalidate_window_ok|]. etransitivity; [|apply same_invalidate]. exact S2.
Qed.
Lemma resize_fine p width height s : wm_ok s -> live p s -> fine s (wm_resize_window p width height s).
Proof.
  intros O (w & Ew)%live_window. unfold wm_resize_window. rewrite Ew. cbn [mbind option_bind]. pose proof (invalidate_bounds_ok w s O) as O1.
  destruct (place_ok p w (mk_rect (r_x (bounds w)) (r_y (bounds w)) width height) (mk_rect (r_x (content_bounds w)) (r_y (content_bounds w)) width (u32 (height - titlebar_height (flags w)))) _ O1 Ew) as [O2 S2].
  { rewrite (content_in p w s O Ew). done. }
  apply fine_ret; [by apply invalidate_window_ok, called_ok|]. etransitivity; [|apply same_invalidate]. exact S2.
Qed.
Lemma minimize_fine p s : wm_ok s -> live p s -> fine s (wm_minimize_window p s).
Proof.
  intros O (w & Ew)%live_window. unfold wm_minimize_window. rewrite Ew. cbn [mbind option_bind]. case_if; [by apply fine_ret|]. apply fine_ret.
  - apply invalidate_bounds_ok, (change_ok p); try done; [apply (content_in p w s O Ew)|by intros F; apply (flag_in p w s)|]. intros l (B & _ & T). by split.
  - transitivity (update_window p (set_states (is_focused w) true (is_maximized w)) s); [by apply same_update|]. apply (same_on_layer w (fun l => update_layer l (set_visible false))).
Qed.
Lemma maximize_fine p s : wm_ok s -> live p s -> fine s (wm_maximize_window p s).
Proof.
  intros O L. destruct (live_window p s L) as [w Ew]. unfold wm_maximize_window. rewrite Ew. cbn [mbind option_bind]. case_if; [by apply fine_ret|].
  set (fw := fun w => set_states _ _ _ _). assert (K : keeps_window fw) by done. apply (fine_trans s (update_window p fw s)); [by apply same_update|].
  assert (O1 : wm_ok (update_window p fw s)) by (apply (window_ok p w); try done; [apply (content_in p w s O Ew)|by intros F; apply (flag_in p w s)]).
  apply fine_bind; [apply move_fine; [done|]|]. { by eapply same_live; [apply same_update|]. }
  intros s' O' S'. eapply fine_trans; [exact S'|]. apply resize_fine; [done|]. eapply same_live; [exact S'|]. by eapply same_live; [apply same_update|].
Qed.
Lemma restore_fine p s : wm_ok s -> live p s -> fine s (wm_restore_window p s).
Proof.
  intros O L. destruct (live_window p s L) as [w Ew]. unfold wm_restore_window. rewrite Ew. cbn [mbind option_bind]. set (s1 := if is_minimized w then _ else s).
  assert (H1 : wm_ok s1 /\ same_windows s s1).
  { unfold s1. destruct (is_minimized w) eqn:Em; [|done]. split.
    - apply invalidate_window_ok, (change_ok p); try done; [apply (content_in p w s O Ew)|by intros F; apply (flag_in p w s)|]. intros l (B & _ & T). by split.
    - transitivity (update_window p (set_states (is_focused w) false (is_maximized w)) s); [by apply same_update|]. etransitivity; [apply same_on_layer|apply same_invalidate]. }
  clearbody s1. destruct H1 as [O1 S1]. apply (fine_trans s s1); [done|]. assert (L1 : live p s1) by by eapply same_live. destruct (live_window p s1 L1) as [v Ev]. rewrite Ev. cbn [mbind option_bind].
  case_if; [|by apply fine_ret]. set (fw := set_states _ _ _). assert (K : keeps_window fw) by done. apply (fine_trans s1 (update_window p fw s1)); [by apply same_update|].
  assert (O2 : wm_ok (update_window p fw s1)) by (apply (window_ok p v); try done; [apply (content_in p v s1 O1 Ev)|by intros F; apply (flag_in p v s1)]).
  assert (L2 : live p (update_window p fw s1)) by (by eapply same_live; [apply same_update|]). apply fine_bind; [by apply move_fine|].
  intros s' O' S'. eapply fine_trans; [exact S'|]. apply resize_fine; [done|]. by eapply same_live.
Qed.
(** No window has the flag of the focus. *)
Definition unflagged (s : wm) : Prop := forall w, w ∈ s.(g_windows) -> is_focused w = false.
Lemma focus_ok f s : wm_ok s -> unflagged s -> (forall q, f = Some q -> live q s) -> wm_ok (with_focus f s).
Proof. intros [] U L. constructor; cbn; try done. intros w Hw Fw. by rewrite (U w Hw) in Fw. Qed.
Lemma unflag old o s : wm_ok s -> g_focused_window s = Some old -> window old s = Some o -> let s1 := update_window old (set_states false (is_minimized o) (is_maximized o)) s in wm_ok s1 /\ unflagged s1.
Proof.
  intros O Ef Eo. cbv zeta. split.
  - apply (window_ok old o); try done. apply (content_in old o s O Eo).
  - intros w Hw. destruct (in_update old o _ s w O Eo Hw) as [->|[Hw' Np]]; [done|]. destruct (is_focused w) eqn:F; [|done]. apply (wo_flag s O) in F; [|done]. congruence.
Qed.
Lemma unflagged_none s : wm_ok s -> g_focused_window s = None -> unflagged s.
Proof. intros O E w Hw. destruct (is_focused w) eqn:F; [|done]. apply (wo_flag s O) in F; [congruence|done]. Qed.
Lemma on_layer_ok w f s : wm_ok s -> (forall l c, comp_ok c -> comp_ok (f l c) /\ same_view c (f l c)) -> wm_ok (on_layer w f s).
Proof. intros O Hf. unfold on_layer. destruct (w_layer w) as [l|]; [|done]. destruct (Hf l (comp s) (wo_comp s O)). by apply comp_change. Qed.
Lemma windows_invalidate p s : g_windows (wm_invalidate_window p s) = g_windows s.
Proof. unfold wm_invalidate_window, on_layer. destruct (window p s) as [w|]; [|done]. by destruct (w_layer w). Qed.
Lemma focus_fine p s : wm_ok s -> live p s -> fine s (wm_focus_window p s).
Proof.
  intros O L. unfold wm_focus_window. case_bool_decide as Hf; [by apply fine_ret|].
  assert (H1 : exists s1, match g_focused_window s with None => Some s | Some old => o ← window old s;
      Some (wm_invalidate_window old (called (OnFocus old false) (update_window old (set_states false (is_minimized o) (is_maximized o)) s))) end = Some s1 /\ wm_ok s1 /\ unflagged s1 /\ same_windows s s1).
  { destruct (g_focused_window s) as [old|] eqn:Ef; [|exists s; split; [done|]; split; [done|]; split; [by apply unflagged_none|done]].
    destruct (live_window old s (wo_focus s O old Ef)) as [o Eo]. rewrite Eo. cbn [mbind option_bind]. destruct (unflag old o s O Ef Eo) as [O1 U1]. eexists. split; [done|]. split; [by apply invalidate_window_ok, called_ok|].
    split; [unfold unflagged; by rewrite windows_invalidate|]. transitivity (called (OnFocus old false) (update_window old (set_states false (is_minimized o) (is_maximized o)) s)); [|apply same_invalidate].
    by apply (same_update old (set_states false (is_minimized o) (is_maximized o)) s). }
  cbv zeta. destruct H1 as (s1 & -> & O1 & U1 & S1). cbn [mbind option_bind]. apply (fine_trans s s1); [done|]. assert (L1 : live p s1) by by eapply same_live. destruct (live_window p s1 L1) as [w Ew]. rewrite Ew. cbn [mbind option_bind].
  assert (O2 : wm_ok (with_focus (Some p) s1)) by (apply focus_ok; [done|done|by intros q [= <-]]).
  assert (O3 : wm_ok (update_window p (set_states true (is_minimized w) (is_maximized w)) (with_focus (Some p) s1))).
  { apply (window_ok p w); try done. apply (content_in p w s1 O1 Ew). }
  apply fine_ret.
  - apply invalidate_window_ok, on_layer_ok; [by apply called_ok|]. intros l c Oc. split; [by apply raise_ok|by apply raise_view].
  - transitivity (called (OnFocus p true) (update_window p (set_states true (is_minimized w) (is_maximized w)) (with_focus (Some p) s1))); [by apply (same_update p (set_states true (is_minimized w) (is_maximized w)) (with_focus (Some p) s1))|].
    etransitivity; [apply same_on_layer|apply same_invalidate].
Qed.
Lemma destroy_layers p c : comp_ok c -> g_layers (compositor_destroy_layer p c) = remove p (g_layers c).
Proof.
  intros O. unfold compositor_destroy_layer, compositor_remove_layer. destruct (find _ _) as [l|] eqn:E; cbn.
  - by destruct (invalidate_ok (l_bounds l) c O) as (_ & -> & _).
  - symmetry. apply remove_other. apply list.Forall_forall. intros x Hx Ex. apply list_elem_of_In in Hx. pose proof (find_none _ _ E x Hx) as F. unfold is_layer in F. by rewrite (proj2 (Z.eqb_eq _ _) Ex) in F.
Qed.
(** Closing a window leaves the others. *)
Lemma destroy_fine p s : wm_ok s -> live p s -> exists s', wm_destroy_window p s = Some s' /\ wm_ok s' /\
  map w_ptr s'.(g_windows) = List.filter (fun q => negb (q =? p)) (map w_ptr s.(g_windows)) /\ s'.(g_dragging_window) = s.(g_dragging_window) /\ s'.(g_resizing_window) = s.(g_resizing_window).
Proof.
  intros O L. destruct (live_window p s L) as [w Ew]. destruct (window_in p s w Ew) as [Hw Ep]. unfold wm_destroy_window. rewrite Ew. cbn [mbind option_bind]. cbv zeta.
  set (ws := List.filter _ (g_windows s)). assert (Wi : forall v, v ∈ ws <-> v ∈ g_windows s /\ w_ptr v <> p).
  { intros v. unfold ws. rewrite !list_elem_of_In, filter_In. unfold is_window. rewrite negb_true_iff, Z.eqb_neq. done. }
  assert (Pw : map w_ptr ws = List.filter (fun q => negb (q =? p)) (map w_ptr (g_windows s))).
  { unfold ws, is_window. generalize (g_windows s). intros l. induction l as [|v l IH]; [done|]. cbn [List.filter map]. destruct (negb (w_ptr v =? p)); cbn [map]; by rewrite IH. }
  set (s1 := on_layer w compositor_destroy_layer (with_windows ws s)). assert (W1 : g_windows s1 = ws) by (unfold s1, on_layer; by destruct (w_layer w)).
  assert (F1 : g_focused_window s1 = g_focused_window s /\ g_dragging_window s1 = g_dragging_window s /\ g_resizing_window s1 = g_resizing_window s) by (unfold s1, on_layer; by destruct (w_layer w)).
  assert (C1 : comp_ok (comp s1) /\ forall l, l ∈ g_layers (comp s1) <-> l ∈ g_layers (comp s) /\ w_layer w <> Some (l_ptr l)).
  { unfold s1, on_layer. destruct (w_layer w) as [lp|]; cbn [comp with_comp with_windows]; [|split; [apply O|intros l; split; [by intros|tauto]]]. split; [apply destroy_ok, O|]. intros l. rewrite destroy_layers by apply O.
    unfold remove. rewrite !list_elem_of_In, filter_In. unfold is_layer. rewrite negb_true_iff, Z.eqb_neq. split; intros [? N]; (split; [done|]); congruence. }
  destruct F1 as (F1 & D1 & R1), C1 as [Oc C1]. clearbody s1.
  assert (B : comp_ok (comp s1) /\ NoDup (map w_ptr (g_windows s1)) /\ Forall (fun w => content_bounds w = content_of (flags w) (bounds w)) (g_windows s1) /\
    (forall v l, v ∈ g_windows s1 -> w_layer v = Some l -> In l (map l_ptr (g_layers (comp s1)))) /\ (forall v l, v ∈ g_windows s1 -> l ∈ g_layers (comp s1) -> mirrors v l) /\
    (forall v v' l, v ∈ g_windows s1 -> v' ∈ g_windows s1 -> w_layer v = Some l -> w_layer v' = Some l -> w_ptr v = w_ptr v')).
  { rewrite W1. split; [done|]. split.
    { rewrite Pw. apply base.NoDup_ListNoDup, List.NoDup_filter, base.NoDup_ListNoDup, O. }
    split; [apply list.Forall_forall; intros v Hv; apply Wi in Hv as [Hv _]; pose proof (wo_content s O) as C; rewrite list.Forall_forall in C; by apply C|].
    split; [intros v l [Hv Np]%Wi Hl|split; [intros v l [Hv _]%Wi [Hl _]%C1; by apply (wo_mirror s O)|intros v v' l [Hv _]%Wi [Hv' _]%Wi; by apply (wo_layers s O)]].
    pose proof (wo_live s O v l Hv Hl) as (x & Ex & Hx)%in_map_iff. apply in_map_iff. exists x. split; [done|]. apply list_elem_of_In, C1. apply list_elem_of_In in Hx. split; [done|].
    intros Ex'. apply Np. rewrite <- Ep. apply (wo_layers s O v w l); [done|done|done|congruence]. }
  destruct B as (B1 & B2 & B3 & B4 & B5 & B6).
  assert (Flag : forall v, v ∈ ws -> is_focused v = true -> g_focused_window s = Some (w_ptr v) /\ w_ptr v <> p) by (intros v [Hv Np]%Wi Fv; split; [by apply (wo_flag s O)|done]).
  case_bool_decide as Hf.
  - assert (U : unflagged s1).
    { intros v Hv. rewrite W1 in Hv. destruct (is_focused v) eqn:Fv; [|done]. destruct (Flag v Hv Fv) as [Ef Np]. rewrite F1, Ef in Hf. by injection Hf. }
    assert (O2 : wm_ok (with_focus (w_ptr <$> hd_error (g_windows s1)) s1)).
    { constructor; cbn; try done; [|intros v Hv Fv; by rewrite (U v Hv) in Fv]. intros q Hq. destruct (g_windows s1) as [|v l]; [done|]. injection Hq as <-. by left. }
    eexists. split; [done|]. split; [by destruct (w_ptr <$> hd_error (g_windows s1)); [apply called_ok|]|]. rewrite <- Pw, <- W1. by destruct (w_ptr <$> hd_error (g_windows s1)).
  - eexists. split; [done|]. split; [|by rewrite W1, Pw]. constructor; try done.
    + intros q Hq. rewrite F1 in Hq. pose proof (wo_focus s O q Hq) as I. rewrite W1, Pw. apply filter_In. split; [done|]. rewrite negb_true_iff, Z.eqb_neq. congruence.
    + intros v Hv Fv. rewrite W1 in Hv. destruct (Flag v Hv Fv) as [Ef _]. congruence.
Qed.
(** A new layer is in the list, above those of its type. *)
Lemma create_add type b p c : comp_ok c -> ~ In p (map l_ptr (g_layers c ++ g_detached c)) ->
  exists c', compositor_add_layer p (compositor_create_layer type b (Some p) c).2 = Some c' /\ comp_ok c' /\
    map view (g_layers c') ≡ₚ (p, b, true, type) :: map view (g_layers c).
Proof.
  intros O Hp. pose proof (layer_create_ok type b (Some p) c O Hp) as Oc. unfold compositor_add_layer. cbn [compositor_create_layer snd g_layers g_detached].
  destruct (find (is_layer p) (g_layers c)) as [l|] eqn:E.
  { exfalso. apply Hp. apply find_some in E as [Hl El]. unfold is_layer in El. bool_hyps. apply in_map_iff. exists l. split; [done|]. apply in_or_app. by left. }
  cbn [find]. unfold is_layer at 1. cbn [l_ptr]. rewrite Z.eqb_refl. eexists. split; [done|].
  set (l := mk_layer _ _ _ _ _ _). set (c1 := with_layers (insert_layer l (g_layers c)) _ _). assert (O1 : comp_ok c1).
  { apply (insert_ok p l _ Oc). cbn [g_detached find compositor_create_layer snd]. unfold is_layer. cbn [l_ptr l]. by rewrite Z.eqb_refl. }
  split; [by apply invalidate_layer_ok|]. etransitivity; [exact (layer_view p c1 O1)|]. unfold c1. cbn [g_layers with_layers]. rewrite insert_perm. reflexivity.
Qed.
Definition fresh (p lp : option Z) (s : wm) : Prop :=
  (forall q, p = Some q -> ~ live q s) /\ (forall l, lp = Some l -> ~ In l (map l_ptr (g_layers (comp s) ++ g_detached (comp s)))).
Lemma create_fine b fl p lp s : wm_ok s -> fresh p lp s -> exists r s', wm_create_window b fl p lp s = Some (r, s') /\ wm_ok s' /\ r = p /\
  map w_ptr s'.(g_windows) = match p with Some q => q :: map w_ptr s.(g_windows) | None => map w_ptr s.(g_windows) end /\
  s'.(g_dragging_window) = s.(g_dragging_window) /\ s'.(g_resizing_window) = s.(g_resizing_window).
Proof.
  intros O [Fp Fl]. unfold wm_create_window. destruct p as [p|]; [|by eexists _, s]. specialize (Fp p eq_refl).
  assert (H1 : exists layer c0 c, compositor_create_layer LAYER_WINDOW b lp (comp s) = (layer, c0) /\ match layer with Some l => compositor_add_layer l c0 | None => Some c0 end = Some c /\ comp_ok c /\ layer = lp /\
    map view (g_layers c) ≡ₚ match lp with Some l => [(l, b, true, LAYER_WINDOW)] | None => [] end ++ map view (g_layers (comp s))).
  { destruct lp as [lp|]; [|exists None, (comp s), (comp s); split; [done|]; split; [done|]; split; [apply O|]; split; [done|reflexivity]].
    destruct (create_add LAYER_WINDOW b lp (comp s) (wo_comp s O) (Fl lp eq_refl)) as (c & Ec & Oc & V). eexists _, _, c. split; [done|]. split; [exact Ec|]. split; [done|]. split; [done|exact V]. }
  destruct H1 as (layer & c0 & c & -> & Ec & Oc & -> & V). rewrite Ec. cbn [mbind option_bind].
  set (w := mk_window p _ b _ _ fl false false false lp). set (s1 := mk_wm (w :: g_windows s) _ _ _ _ _ _ _ c _).
  assert (Vi : forall l, l ∈ g_layers c -> (lp = Some (l_ptr l) /\ mirrored w l) \/ exists l0, l0 ∈ g_layers (comp s) /\ view l0 = view l).
  { intros l Hl. apply list_elem_of_In in Hl. pose proof (Permutation_in _ V (in_map view _ _ Hl)) as I. apply in_app_or in I as [I|I]; [|right; apply in_map_iff in I as (l0 & E0 & H0); exists l0; split; [by apply list_elem_of_In|done]].
    left. destruct lp as [lp|]; [|done]. destruct I as [[= E1 E2 E3 E4]|[]]. split; [congruence|]. split_and!; cbn; congruence. }
  assert (Nlp : forall v l, v ∈ g_windows s -> w_layer v = Some l -> lp <> Some l).
  { intros v l Hv Hl E. apply (Fl l E). rewrite map_app. apply in_or_app. left. by apply (wo_live s O v). }
  assert (O1 : wm_ok s1).
  { constructor; cbn [g_windows g_focused_window comp s1].
    - done.
    - cbn [map]. apply list.NoDup_cons. split; [|apply O]. rewrite list_elem_of_In. exact Fp.
    - constructor; [done|apply O].
    - intros v l Hv Hl. assert (P : map l_ptr (g_layers c) ≡ₚ match lp with Some l => [l] | None => [] end ++ map l_ptr (g_layers (comp s))).
      { assert (E : forall ls, map l_ptr ls = map (fun v => v.1.1.1) (map view ls)) by (intros; rewrite map_map; by apply map_ext). rewrite !E, V, map_app. by destruct lp. }
      apply (Permutation_in _ (Permutation_sym P)), in_or_app. apply list.elem_of_cons in Hv as [->|Hv]; [left; cbn in Hl; subst lp; by left|right; by apply (wo_live s O v)].
    - intros v l Hv Hl Hm. apply list.elem_of_cons in Hv as [->|Hv].
      + destruct (Vi l Hl) as [[_ M]|(l0 & H0 & [= E1 E2 E3 E4])]; [done|]. exfalso. cbn in Hm. apply (Fl (l_ptr l) Hm). rewrite map_app. apply in_or_app. left. rewrite <- E1. apply in_map. by apply list_elem_of_In.
      + destruct (Vi l Hl) as [[E _]|(l0 & H0 & [= E1 E2 E3 E4])]; [exfalso; by apply (Nlp v (l_ptr l))|]. rewrite <- E2, <- E3, <- E4. apply (wo_mirror s O v l0 Hv H0). by rewrite E1.
    - intros v v' l Hv Hv' E1 E2. apply list.elem_of_cons in Hv as [->|Hv], Hv' as [->|Hv']; [done|exfalso; by apply (Nlp v' l)|exfalso; by apply (Nlp v l)|by apply (wo_layers s O v v' l)].
    - intros q Hq. right. by apply O.
    - intros v Hv Fv. apply list.elem_of_cons in Hv as [->|Hv]; [done|by apply O]. }
  destruct (focus_fine p s1 O1) as (s2 & E2 & O2 & S2); [by left|]. rewrite E2. cbn [mbind option_bind]. eexists _, s2. split; [done|]. split; [done|]. split; [done|]. exact S2.
Qed.

(** ** Everything together *)
Lemma find_at_in pos s w : wm_find_window_at pos s = Some w -> w ∈ s.(g_windows) /\ w.(is_minimized) = false /\ point_in_rect pos w.(bounds) = true.
Proof.
  unfold wm_find_window_at. generalize (g_windows s). intros ls. set (f := fun found w => _). assert (G : forall acc, foldl f acc ls = Some w -> acc = Some w \/ (w ∈ ls /\ is_minimized w = false /\ point_in_rect pos (bounds w) = true)).
  { induction ls as [|a ls IH]; intros acc; cbn [foldl]; [by left|]. intros [Ha|(Hi & H2)]%IH; [|right; split; [by right|done]]. unfold f in Ha.
    destruct (is_minimized a) eqn:Em; [by left|]. destruct (point_in_rect pos (bounds a)) eqn:Ep; [|by left]. injection Ha as ->. right. split; [by left|done]. }
  intros [?|?]%G; done.
Qed.
Inductive wm_op :=
| CreateWindow (b : rect_t) (fl : Z) (p lp : option Z) | DestroyWindow (p : Z) | CloseWindow (p : Z) | FocusWindow (p : Z) | MoveWindow (p x y : Z) | ResizeWindow (p w h : Z)
| MinimizeWindow (p : Z) | MaximizeWindow (p : Z) | RestoreWindow (p : Z) | MouseMove (pos : point_t) | MouseDown (pos : point_t) (button : Z) | MouseUp (button : Z).
Definition run_wm (op : wm_op) (s : wm) : option wm :=
  match op with
  | CreateWindow b fl p lp => snd <$> wm_create_window b fl p lp s
  | DestroyWindow p => wm_destroy_window p s
  | CloseWindow p => wm_close_window p s
  | FocusWindow p => wm_focus_window p s
  | MoveWindow p x y => wm_move_window p x y s
  | ResizeWindow p w h => wm_resize_window p w h s
  | MinimizeWindow p => wm_minimize_window p s
  | MaximizeWindow p => wm_maximize_window p s
  | RestoreWindow p => wm_restore_window p s
  | MouseMove pos => wm_handle_mouse_move pos s
  | MouseDown pos button => wm_handle_mouse_down pos button s
  | MouseUp button => Some (wm_handle_mouse_up button s)
  end.
(** The windows that an operation names exist, for a move of the mouse the ones
    that are dragged or resized; [kmalloc] returns addresses that are not in use. *)
Definition op_live (s : wm) (op : wm_op) : Prop :=
  match op with
  | CreateWindow _ _ p lp => fresh p lp s
  | DestroyWindow p | CloseWindow p | FocusWindow p | MoveWindow p _ _ | ResizeWindow p _ _ | MinimizeWindow p | MaximizeWindow p | RestoreWindow p => live p s
  | MouseMove _ => (forall p, s.(g_dragging_window) = Some p -> live p s) /\ (forall p, s.(g_resizing_window) = Some p -> live p s)
  | MouseDown _ _ | MouseUp _ => True
  end.
Lemma fine_ok s r : fine s r -> exists s', r = Some s' /\ wm_ok s'.
Proof. intros (s' & ? & ? & _). by exists s'. Qed.
Lemma mouse_move_fine pos s : wm_ok s -> op_live s (MouseMove pos) -> fine s (wm_handle_mouse_move pos s).
Proof.
  intros O [Ld Lr]. unfold wm_handle_mouse_move. apply fine_bind.
  - destruct (g_dragging_window s) as [p|]; [|by apply fine_ret]. specialize (Ld p eq_refl). destruct (live_window p s Ld) as [w ->]. by apply move_fine.
  - intros s1 O1 S1. apply (fine_trans s s1 _ S1). apply fine_bind; [|intros s2 O2 S2; apply fine_ret; [by apply drag_ok|done]].
    destruct (g_resizing_window s1) as [p|] eqn:Er; [|by apply fine_ret]. assert (L1 : live p s1) by (eapply same_live; [exact S1|]; apply Lr; destruct S1 as (_ & _ & <-); done).
    destruct (live_window p s1 L1) as [w ->]. by apply resize_fine.
Qed.
Lemma mouse_down_ok pos button s : wm_ok s -> exists s', wm_handle_mouse_down pos button s = Some s' /\ wm_ok s'.
Proof.
  intros O. unfold wm_handle_mouse_down. case_if; [by exists s|]. destruct (wm_find_window_at pos s) as [w|] eqn:Ew; [|by exists s]. apply find_at_in in Ew as [Hw _].
  assert (L : live (w_ptr w) s) by (eapply window_live; by apply window_of). destruct (focus_fine _ s O L) as (s1 & -> & O1 & S1). cbn [mbind option_bind]. assert (L1 : live (w_ptr w) s1) by by eapply same_live.
  destruct (live_window _ s1 L1) as [v ->]. cbn [mbind option_bind].
  case_if; [|case_if; [|case_if; [|case_if; [|case_if]]]].
  - destruct (destroy_fine (w_ptr w) (called (OnClose (w_ptr w)) s1)) as (s2 & E & O2 & _); [by apply called_ok|done|]. by exists s2.
  - apply (fine_ok s1). by apply minimize_fine.
  - destruct (is_maximized v); apply (fine_ok s1); [by apply restore_fine|by apply maximize_fine].
  - eexists. split; [done|]. by apply drag_ok.
  - cbv zeta. case_if; [|eexists; split; [done|by apply drag_ok]]. apply (fine_ok (with_drag (Some (w_ptr w)) (g_resizing_window s1) pos s1)). apply restore_fine; [by apply drag_ok|done].
  - by exists s1.
Qed.
Lemma wm_step op s : wm_ok s -> op_live s op -> exists s', run_wm op s = Some s' /\ wm_ok s'.
Proof.
  intros O L. destruct op; cbn [run_wm op_live] in *.
  - destruct (create_fine b fl p lp s O L) as (r & s' & -> & O' & _). by exists s'.
  - destruct (destroy_fine p s O L) as (s' & -> & O' & _). by exists s'.
  - destruct (destroy_fine p (called (OnClose p) s)) as (s' & E & O' & _); [by apply called_ok|done|]. by exists s'.
  - apply (fine_ok s). by apply focus_fine.
  - apply (fine_ok s). by apply move_fine.
  - apply (fine_ok s). by apply resize_fine.
  - apply (fine_ok s). by apply minimize_fine.
  - apply (fine_ok s). by apply maximize_fine.
  - apply (fine_ok s). by apply restore_fine.
  - apply (fine_ok s). by apply mouse_move_fine.
  - by apply mouse_down_ok.
  - eexists. split; [done|]. unfold wm_handle_mouse_up. case_if; [done|by apply drag_ok].
Qed.
Inductive wm_run : wm -> list wm_op -> wm -> Prop :=
| wm_run_nil s : wm_run s [] s
| wm_run_cons s op s1 ops s2 : op_live s op -> run_wm op s = Some s1 -> wm_run s1 ops s2 -> wm_run s (op :: ops) s2.
Definition all_flags : Z := 15.
Definition wm_zero : wm := mk_wm [] None 1 0 0 None None (mk_point 0 0) (mk_compositor 0 0 [] [] 1 []) [].
Definition start : wm := wm_init 800 600 (compositor_init 800 600 []) wm_zero.
Definition create (b : rect_t) (p : Z) : wm_op := CreateWindow b all_flags (Some p) (Some (p + 1)).
Definition back : rect_t := mk_rect 100 100 300 200.
Definition front : rect_t := mk_rect 120 120 300 200.
Definition run_ops (ops : list wm_op) (s : wm) : option wm := foldl (fun r op => s ← r; run_wm op s) (Some s) ops.
Definition press (x y : Z) : wm_op := MouseDown (mk_point x y) MOUSE_BUTTON_LEFT.
(** The window under the mouse is the one created first, not the one in front. *)
Example find_takes_oldest : (s ← run_ops [create back 1000; create front 2000] start; Some (w_ptr <$> wm_find_window_at (mk_point 200 150) s, list.last (map l_ptr s.(comp).(g_layers)))) =
  Some (Some 1000, Some 2001).
Proof. by vm_compute. Qed.
(** A window that is closed while it is dragged is used by the next move. *)
Example drag_dangles : run_ops [create back 1000; press 200 110; DestroyWindow 1000] start <> None /\
  run_ops [create back 1000; press 200 110; DestroyWindow 1000; MouseMove (mk_point 210 125)] start = None.
Proof. split; [by vm_compute|by vm_compute]. Qed.
(** The window that gets the focus when the focused one is closed has not its flag,
    and a click does not set it. *)
Example focus_without_flag : (s ← run_ops [create back 1000; create front 2000; DestroyWindow 2000; press 200 150] start; Some (s.(g_focused_window), map is_focused s.(g_windows))) = Some (Some 1000, [false]).
Proof. by vm_compute. Qed.
(** A window smaller than its title bar gets a content of almost 2^32 lines. *)
Example tiny_window : (s ← run_ops [create (mk_rect 0 0 50 30) 1000] start; Some (map (fun w => r_height (content_bounds w)) s.(g_windows))) = Some [4294967286].
Proof. by vm_compute. Qed.

(** ** Maximising *)
Lemma window_update p f s : keeps_window f -> window p (update_window p f s) = f <$> window p s.
Proof.
  intros K. unfold window, update_window, is_window. cbn [g_windows with_windows]. induction (g_windows s) as [|w l IH]; [done|]. cbn [map find]. destruct (Z.eqb_spec (w_ptr w) p) as [E|E].
  - rewrite (proj1 (K w)), E, Z.eqb_refl. done.
  - rewrite (proj2 (Z.eqb_neq _ _) E). exact IH.
Qed.
Lemma window_on_layer p w f s : window p (on_layer w f s) = window p s.
Proof. unfold on_layer. by destruct (w_layer w). Qed.
Lemma window_invalidate p q s : window p (wm_invalidate_window q s) = window p s.
Proof. unfold wm_invalidate_window. destruct (window q s); [apply window_on_layer|done]. Qed.
Lemma window_move p w x y s : window p s = Some w -> exists s', wm_move_window p x y s = Some s' /\
  window p s' = Some (set_rects (mk_rect x y (r_width (bounds w)) (r_height (bounds w))) (mk_rect x (s32 (y + titlebar_height (flags w))) (r_width (content_bounds w)) (r_height (content_bounds w))) (restore_bounds w) w).
Proof.
  intros Ew. unfold wm_move_window. rewrite Ew. cbn [mbind option_bind]. eexists. split; [done|]. rewrite window_invalidate. unfold place_window. rewrite window_on_layer, (proj2 (window_in p s w Ew)).
  rewrite window_update by done. change (window p (invalidate_bounds w s)) with (window p s). by rewrite Ew.
Qed.
Lemma window_resize p w width height s : window p s = Some w -> exists s', wm_resize_window p width height s = Some s' /\
  window p s' = Some (set_rects (mk_rect (r_x (bounds w)) (r_y (bounds w)) width height) (mk_rect (r_x (content_bounds w)) (r_y (content_bounds w)) width (u32 (height - titlebar_height (flags w)))) (restore_bounds w) w).
Proof.
  intros Ew. unfold wm_resize_window. rewrite Ew. cbn [mbind option_bind]. eexists. split; [done|]. rewrite window_invalidate. change (window p (called ?c ?s)) with (window p s).
  unfold place_window. rewrite window_on_layer, (proj2 (window_in p s w Ew)). rewrite window_update by done. change (window p (invalidate_bounds w s)) with (window p s). by rewrite Ew.
Qed.
(** Maximising a window gives it the screen without the bars, and restoring it
    gives it the bounds and the content it had. *)
Theorem maximize_restore p w s : wm_ok s -> window p s = Some w -> w.(is_maximized) = false -> w.(is_minimized) = false ->
  exists s1 w1 s2, wm_maximize_window p s = Some s1 /\ window p s1 = Some w1 /\
    w1.(bounds) = mk_rect 0 MENUBAR_HEIGHT s.(g_screen_width) (u32 (s.(g_screen_height) - MENUBAR_HEIGHT - DOCK_HEIGHT - DOCK_MARGIN_BOTTOM)) /\ w1.(is_maximized) = true /\
    wm_restore_window p s1 = Some s2 /\ exists w2, window p s2 = Some w2 /\
      w2.(bounds) = w.(bounds) /\ w2.(content_bounds) = w.(content_bounds) /\ w2.(is_maximized) = false /\ w2.(is_focused) = w.(is_focused).
Proof.
  intros O Ew Ma Mi. pose proof (content_in p w s O Ew) as Cw. unfold wm_maximize_window. rewrite Ew. cbn [mbind option_bind]. rewrite Ma.
  set (fw := fun w => set_states _ _ _ _). assert (E1 : window p (update_window p fw s) = Some (fw w)) by (rewrite window_update by done; by rewrite Ew).
  destruct (window_move p _ 0 MENUBAR_HEIGHT _ E1) as (s1 & M1 & E2). rewrite M1. cbn [mbind option_bind].
  assert (Sc : g_screen_width s1 = g_screen_width s /\ g_screen_height s1 = g_screen_height s).
  { unfold wm_move_window in M1. rewrite E1 in M1. cbn [mbind option_bind] in M1. injection M1 as <-. unfold wm_invalidate_window, place_window, on_layer. repeat (match goal with |- context [match ?x with _ => _ end] => destruct x end); done. }
  destruct Sc as [-> ->]. destruct (window_resize p _ (g_screen_width s) (u32 (g_screen_height s - MENUBAR_HEIGHT - DOCK_HEIGHT - DOCK_MARGIN_BOTTOM)) s1 E2) as (s2 & M2 & E3). rewrite M2.
  eexists s2, _. assert (R : exists s3, wm_restore_window p s2 = Some s3 /\ exists w2, window p s3 = Some w2 /\ bounds w2 = bounds w /\ content_bounds w2 = content_bounds w /\ is_maximized w2 = false /\ is_focused w2 = is_focused w).
  { unfold wm_restore_window. rewrite E3. cbn [mbind option_bind]. cbn [is_minimized set_rects set_states fw]. rewrite Mi. rewrite E3. cbn [mbind option_bind]. cbn [is_maximized set_rects set_states fw].
    set (v := set_rects _ _ _ _) in E3. set (g := set_states _ _ _). assert (E4 : window p (update_window p g s2) = Some (g v)) by (rewrite window_update by done; by rewrite E3).
    destruct (window_move p _ (r_x (restore_bounds v)) (r_y (restore_bounds v)) _ E4) as (s3 & M3 & E5). change (restore_bounds (set_rects _ _ _ _)) with (restore_bounds v). rewrite M3. cbn [mbind option_bind].
    destruct (window_resize p _ (r_width (restore_bounds v)) (r_height (restore_bounds v)) s3 E5) as (s4 & M4 & E6). rewrite M4. exists s4. split; [done|]. eexists. split; [exact E6|]. subst v g fw. cbn.
    split; [by destruct (bounds w)|]. split; [by rewrite Cw|done]. }
  destruct R as (s3 & -> & R). exists s3. split; [done|]. split; [exact E3|]. split; [done|]. split; [done|]. split; [done|]. exact R.
Qed.
