(* ===== verification/Events.v ===== *)
(** The events of the graphical interface (src/gui/events.c, src/gui/events.h): the
    ring of events and where each event goes.

    The handlers of the menu bar and of the dock are named, not modelled; those
    of the window manager are in Wm. *)
From S2P Require Import Prelude Render Wm.

Definition EVENT_QUEUE_SIZE : Z := 64.
Definition MOD_SHIFT : Z := 1.
Definition MOD_CTRL : Z := 2.
Definition MOD_ALT : Z := 4.
Inductive event_body :=
| MouseMoved (position : point_t) | MouseDowned (position : point_t) (button : Z) | MouseUpped (position : point_t) (button : Z) | MouseScrolled (position : point_t) (delta : Z)
| KeyDown (scancode character mods : Z) | KeyUp (scancode character mods : Z) | OtherEvent.
Record event_t := mk_event { timestamp : Z; body : event_body }.
Record events := mk_events {
  g_event_queue : list event_t;
  g_queue_head : Z; g_queue_tail : Z; g_queue_count : Z;
  g_mouse_pos : point_t; g_mouse_buttons : Z; g_modifiers : Z;
  g_timestamp : Z
}.
Definition no_event : event_t := mk_event 0 OtherEvent.
Definition events_start : events := mk_events (replicate (Z.to_nat EVENT_QUEUE_SIZE) no_event) 0 0 0 (mk_point 0 0) 0 0 0.
Definition events_init (s : events) : events := mk_events s.(g_event_queue) 0 0 0 (mk_point 0 0) 0 0 0.
Definition events_shutdown (s : events) : events := mk_events s.(g_event_queue) s.(g_queue_head) s.(g_queue_tail) 0 s.(g_mouse_pos) s.(g_mouse_buttons) s.(g_modifiers) s.(g_timestamp).
Definition events_push (b : event_body) (s : events) : events :=
  if EVENT_QUEUE_SIZE <=? s.(g_queue_count) then s
  else
    mk_events (wr s.(g_event_queue) s.(g_queue_tail) (mk_event s.(g_timestamp) b)) s.(g_queue_head) ((s.(g_queue_tail) + 1) mod EVENT_QUEUE_SIZE) (s.(g_queue_count) + 1)
              s.(g_mouse_pos) s.(g_mouse_buttons) s.(g_modifiers) (u32 (s.(g_timestamp) + 1)).
Definition events_pop (s : events) : option event_t * events :=
  if s.(g_queue_count) =? 0 then (None, s)
  else
    (rd s.(g_event_queue) s.(g_queue_head),
     mk_events s.(g_event_queue) ((s.(g_queue_head) + 1) mod EVENT_QUEUE_SIZE) s.(g_queue_tail) (s.(g_queue_count) - 1) s.(g_mouse_pos) s.(g_mouse_buttons) s.(g_modifiers) s.(g_timestamp)).
Definition events_empty (s : events) : bool := s.(g_queue_count) =? 0.
Definition events_mouse_move (x y : Z) : events -> events := events_push (MouseMoved (mk_point x y)).
Definition events_mouse_button (button : Z) (pressed : bool) (s : events) : events :=
  events_push (if pressed then MouseDowned s.(g_mouse_pos) button else MouseUpped s.(g_mouse_pos) button) s.
Definition events_mouse_scroll (delta : Z) (s : events) : events := events_push (MouseScrolled s.(g_mouse_pos) delta) s.
Definition events_key (scancode character : Z) (pressed : bool) (mods : Z) : events -> events :=
  events_push (if pressed then KeyDown scancode character mods else KeyUp scancode character mods).
Definition events_get_mouse_pos (s : events) : point_t := s.(g_mouse_pos).
Definition events_get_modifiers (s : events) : Z := s.(g_modifiers).

(** ** Dispatch *)
Inductive handler :=
| MenubarMove (p : point_t) | MenubarDown (p : point_t) | MenubarUp (p : point_t) | DockMove (p : point_t) | DockDown (p : point_t) | DockUp (p : point_t)
| WmMove (p : point_t) | WmDown (p : point_t) (button : Z) | WmUp (p : point_t) (button : Z).
Definition with_mouse (p : point_t) (b : Z) (s : events) : events :=
  mk_events s.(g_event_queue) s.(g_queue_head) s.(g_queue_tail) s.(g_queue_count) p b s.(g_modifiers) s.(g_timestamp).
Definition with_modifiers (m : Z) (s : events) : events :=
  mk_events s.(g_event_queue) s.(g_queue_head) s.(g_queue_tail) s.(g_queue_count) s.(g_mouse_pos) s.(g_mouse_buttons) m s.(g_timestamp).
(** The modifier of a scan code, 0 for other keys. *)
Definition modifier (scancode : Z) : Z :=
  if (scancode =? 0x2A) || (scancode =? 0x36) then MOD_SHIFT else if scancode =? 0x1D then MOD_CTRL else if scancode =? 0x38 then MOD_ALT else 0.
(** [dock]: the bounds of the dock.  The handlers that are called, in order. *)
Definition events_dispatch (dock : rect_t) (e : event_t) (s : events) : list handler * events :=
  match e.(body) with
  | MouseMoved p =>
      let s := with_mouse p s.(g_mouse_buttons) s in
      ([if p.(pt_y) <? MENUBAR_HEIGHT then MenubarMove p else if point_in_rect p dock then DockMove p else WmMove p; DockMove p], s)
  | MouseDowned p button =>
      let s := with_mouse s.(g_mouse_pos) (Z.lor s.(g_mouse_buttons) button) s in
      ([if p.(pt_y) <? MENUBAR_HEIGHT then MenubarDown p else if point_in_rect p dock then DockDown p else WmDown p button], s)
  | MouseUpped p button =>
      let s := with_mouse s.(g_mouse_pos) (Z.ldiff s.(g_mouse_buttons) button) s in
      ([MenubarUp p; DockUp p; WmUp p button], s)
  | KeyDown scancode _ _ => ([], with_modifiers (Z.lor s.(g_modifiers) (modifier scancode)) s)
  | KeyUp scancode _ _ => ([], with_modifiers (Z.ldiff s.(g_modifiers) (modifier scancode)) s)
  | MouseScrolled _ _ | OtherEvent => ([], s)
  end.
(** The loop of [events_process], whose handlers push no events. *)
Fixpoint process_loop (fuel : nat) (dock : rect_t) (s : events) : option (list handler * events) :=
  match fuel with
  | O => None
  | S fuel' =>
      if events_empty s then Some ([], s)
      else
        match events_pop s with
        | (None, s) => process_loop fuel' dock s
        | (Some e, s) =>
            let '(hs, s) := events_dispatch dock e s in
            '(hs', s) ← process_loop fuel' dock s; Some (hs ++ hs', s)
        end
  end.
Definition events_process (dock : rect_t) (s : events) : option (list handler * events) := process_loop (Z.to_nat (EVENT_QUEUE_SIZE + 1)) dock s.

(** ** The queue *)
(** The ring holds the events [es], the oldest first. *)
Record holds (s : events) (es : list event_t) : Prop := mk_holds {
  ho_length : zlen s.(g_event_queue) = EVENT_QUEUE_SIZE;
  ho_count : s.(g_queue_count) = zlen es /\ zlen es <= EVENT_QUEUE_SIZE;
  ho_head : 0 <= s.(g_queue_head) < EVENT_QUEUE_SIZE;
  ho_tail : s.(g_queue_tail) = (s.(g_queue_head) + zlen es) mod EVENT_QUEUE_SIZE;
  ho_events : forall i e, rd es i = Some e -> rd s.(g_event_queue) ((s.(g_queue_head) + i) mod EVENT_QUEUE_SIZE) = Some e
}.
Lemma holds_init s : zlen s.(g_event_queue) = EVENT_QUEUE_SIZE -> holds (events_init s) [].
Proof. intros L. constructor; try done. intros i e E%rd_Some_range. change (zlen (@nil event_t)) with 0 in E. lia. Qed.
Lemma push_holds b s es : holds s es -> holds (events_push b s) (if zlen es <? EVENT_QUEUE_SIZE then es ++ [mk_event s.(g_timestamp) b] else es).
Proof.
  unfold EVENT_QUEUE_SIZE. intros [L [C1 C2] H T Ev]. unfold EVENT_QUEUE_SIZE in *. unfold events_push, EVENT_QUEUE_SIZE. pose proof (zlen_nonneg es). rewrite C1. destruct (Z.leb_spec 64 (zlen es)).
  { rewrite (proj2 (Z.ltb_ge _ _)) by done. by constructor. }
  rewrite (proj2 (Z.ltb_lt _ _)) by done. constructor; cbn; unfold EVENT_QUEUE_SIZE; rewrite ?zlen_wr, ?zlen_app; change (zlen [_]) with 1; try lia.
  intros i e Hi. pose proof (rd_Some_range _ _ _ Hi) as R. rewrite zlen_app in R. change (zlen [_]) with 1 in R. rewrite T. destruct (Z.lt_ge_cases i (zlen es)) as [Hl|Hl].
  - rewrite rd_app_l in Hi by done. rewrite rd_wr_ne by lia. by apply Ev.
  - assert (i = zlen es) as -> by lia. rewrite rd_app_r, Z.sub_diag in Hi by lia. injection Hi as <-. apply rd_wr_eq. lia.
Qed.
Lemma pop_holds s es : holds s es -> match es with
  | [] => events_pop s = (None, s)
  | e :: es' => (events_pop s).1 = Some e /\ holds (events_pop s).2 es'
  end.
Proof.
  unfold EVENT_QUEUE_SIZE. intros [L [C1 C2] H T Ev]. unfold EVENT_QUEUE_SIZE in *. unfold events_pop, EVENT_QUEUE_SIZE. rewrite C1. destruct es as [|e es]; [done|]. rewrite zlen_cons in *. pose proof (zlen_nonneg es).
  rewrite (proj2 (Z.eqb_neq _ _)) by lia. cbn [fst snd]. split.
  - specialize (Ev 0 e eq_refl). rewrite Z.add_0_r, Z.mod_small in Ev by lia. done.
  - constructor; cbn; unfold EVENT_QUEUE_SIZE; try lia. intros i e' Hi. pose proof (rd_Some_range _ _ _ Hi) as R. specialize (Ev (1 + i) e').
    replace (((g_queue_head s + 1) mod 64 + i) mod 64) with ((g_queue_head s + (1 + i)) mod 64) by lia. apply Ev. change (e :: es) with ([e] ++ es). rewrite rd_app_r by (change (zlen [e]) with 1; lia).
    change (zlen [e]) with 1. by replace (1 + i - 1) with i by lia.
Qed.
Inductive queue_op := Push (b : event_body) | Pop.
(** The events that are popped, and the queue itself. *)
Definition run_queue (a : list (option event_t) * events) (op : queue_op) : list (option event_t) * events :=
  match op with Push b => (a.1, events_push b a.2) | Pop => let '(e, s) := events_pop a.2 in (a.1 ++ [e], s) end.
(** A queue of at most 64 events that numbers what it takes. *)
Definition run_spec (a : list (option event_t) * (list event_t * Z)) (op : queue_op) : list (option event_t) * (list event_t * Z) :=
  let '(out, (es, n)) := a in
  match op with
  | Push b => if zlen es <? EVENT_QUEUE_SIZE then (out, (es ++ [mk_event n b], u32 (n + 1))) else a
  | Pop => match es with [] => (out ++ [None], (es, n)) | e :: es' => (out ++ [Some e], (es', n)) end
  end.
(** For every sequence of pushes and pops the ring behaves as a queue of at
    most 64 events with increasing numbers: what is taken out is what was put
    in, in order, and an event is dropped only while the queue is full. *)
Theorem events_fifo s ops : zlen s.(g_event_queue) = EVENT_QUEUE_SIZE ->
  (foldl run_queue ([], events_init s) ops).1 = (foldl run_spec ([], ([], 0)) ops).1 /\
  holds (foldl run_queue ([], events_init s) ops).2 (foldl run_spec ([], ([], 0)) ops).2.1.
Proof.
  intros L. pose proof (holds_init s L) as H. assert (T : g_timestamp (events_init s) = 0) by done. revert H T. generalize (events_init s) (@nil event_t) (@nil (option event_t)) 0. clear L s.
  induction ops as [|op ops IH]; intros s es out n H T; [done|]. cbn [foldl]. destruct op as [b|]; cbn [run_queue run_spec fst snd].
  - pose proof (push_holds b s es H) as P. rewrite T in P. assert (T' : g_timestamp (events_push b s) = if zlen es <? EVENT_QUEUE_SIZE then u32 (n + 1) else n).
    { unfold events_push. destruct (ho_count s es H) as [-> _]. destruct (Z.leb_spec EVENT_QUEUE_SIZE (zlen es)); [by rewrite (proj2 (Z.ltb_ge _ _))|]. rewrite (proj2 (Z.ltb_lt _ _)) by done. cbn. by rewrite T. }
    destruct (zlen es <? EVENT_QUEUE_SIZE); by apply IH.
  - pose proof (pop_holds s es H) as P. destruct es as [|e es]; [rewrite P; by apply IH|]. destruct P as [P1 P2].
    assert (T' : g_timestamp (events_pop s).2 = n) by (unfold events_pop; by case_if). destruct (events_pop s) as [r s']. cbn [fst snd] in *. subst r. by apply IH.
Qed.
Lemma events_fifo_witness : (foldl run_queue ([], events_init events_start) [Push OtherEvent; Pop; Pop]).1 = (foldl run_spec ([], ([], 0)) [Push OtherEvent; Pop; Pop]).1 /\
  holds (foldl run_queue ([], events_init events_start) [Push OtherEvent; Pop; Pop]).2 (foldl run_spec ([], ([], 0)) [Push OtherEvent; Pop; Pop]).2.1.
Proof. apply (events_fifo events_start [Push OtherEvent; Pop; Pop]). by vm_compute. Defined.

(** ** Processing *)
Definition route (dock : rect_t) (e : event_t) : list handler := (events_dispatch dock e events_start).1.
Lemma dispatch_route dock e s es : holds s es -> (events_dispatch dock e s).1 = route dock e /\ holds (events_dispatch dock e s).2 es.
Proof. intros []. unfold route, events_dispatch. by destruct (body e); cbn [fst snd]; (split; [|constructor]). Qed.
(** Processing ends, within the 65 rounds of the fuel, and has handed every event of
    the queue on, in order: one of menu bar, dock and window manager gets a press
    of a button, all of them its release. *)
Theorem process_all dock s es : holds s es -> exists s', events_process dock s = Some (concat (map (route dock) es), s') /\ holds s' [].
Proof.
  intros H. unfold events_process. assert (Hl : (length es < Z.to_nat (EVENT_QUEUE_SIZE + 1))%nat) by (destruct (ho_count s es H) as [_ C]; unfold zlen in C; lia).
  revert H Hl. generalize (Z.to_nat (EVENT_QUEUE_SIZE + 1)). intros fuel. revert s es. induction fuel as [|fuel IH]; intros s es H Hl; [lia|]. cbn [process_loop]. unfold events_empty. destruct (ho_count s es H) as [C _].
  pose proof (pop_holds s es H) as P. destruct es as [|e es]; [rewrite C; by exists s|]. rewrite C, zlen_cons. pose proof (zlen_nonneg es). rewrite (proj2 (Z.eqb_neq _ _)) by lia. destruct P as [P1 P2].
  destruct (events_pop s) as [r s1]. cbn [fst snd] in *. subst r. destruct (dispatch_route dock e s1 es P2) as [D1 D2]. destruct (events_dispatch dock e s1) as [hs s2]. cbn [fst snd] in *. subst hs.
  destruct (IH s2 es D2 ltac:(cbn in Hl; lia)) as (s3 & -> & H3). cbn [mbind option_bind map concat]. by exists s3.
Qed.
(** A press that is pushed with a move of the mouse before the events are processed
    has the position from before the move. *)
Example press_at_old_position :
  let s := events_mouse_button 1 true (events_mouse_move 300 200 (events_init events_start)) in
  fst <$> events_process (mk_rect 0 500 10 10) s = Some [WmMove (mk_point 300 200); DockMove (mk_point 300 200); MenubarDown (mk_point 0 0)].
Proof. by vm_compute. Qed.
